(* ===== verification/_CoqProject ===== *)
-Q . S2P
Prelude.v
Errors.v
MerkleTree.v
MerkleProof.v
Consistency.v
Json.v
LedgerConstants.v
Wql.v
Identifiers.v
ProofRequest.v
Verifier.v
WalletCrypto.v
WalletQuery.v
WalletStorage.v
SqliteStorage.v
StorageType.v
SqliteStorageType.v
Wallet.v
WalletSearch.v
KeyDerivation.v
ChunkStream.v
ExportImport.v
WalletService.v
WalletLife.v
WalletCommands.v
Trie.v
External.v
JsonText.v
Verkey.v
PluggedStorage.v
PluggedLaws.v
PluggedHandles.v
InmemWallet.v
ObjectStore.v
RecordStore.v
NonSecrets.v
CryptoService.v
CryptoCommands.v
LedgerSigning.v
LedgerRequests.v
CacheCommands.v
LedgerReplies.v
DidCommands.v
DidLife.v
PairwiseCommands.v
DidRun.v
CommandSamples.v
DidSamples.v
RecordSamples.v
AuditProof.v
StateProof.v
ReplyParser.v
LedgerCache.v
Catchup.v
Events.v
RequestHandler.v
NodeState.v
Pool.v
VcxErrors.v
DidDoc.v
MessageType.v
A2A.v
A2AJson.v
VcxMonad.v
VcxEncoding.v
Issuance.v
Issuer.v
Holder.v
IssuanceSafety.v
IssuanceRun.v
PresentProof.v
Prover.v
VcxVerifier.v
PresentSafety.v
PresentRun.v
Agent.v
DidExchange.v
DidExchangeSafety.v
DidExchangeRun.v
