(* ===== verification/Prelude.v ===== *)
(** * Verification of libindy and of the protocols of libvcx

    libindy ([src/indy-sdk/libindy]) is a client of a pool of ledger nodes, some of
    which may lie, and a wallet that keeps encrypted records; libvcx ([src/indy-sdk/vcx/libvcx])
    runs the protocols by which agents connect, issue credentials and prove what they hold.
    This library models the code that decides what the client believes, the code that keeps,
    finds and moves the records of wallets, keys, DIDs and requests, the verifier of proofs and
    the state machines of the protocols, and proves them correct, or shows where they are not.

    ** The ledger client and the files that model it

    A command hands a request to the pool thread ([pool.rs]).  [events.rs] turns it into
    a request event and a key of the state trie; the state machine of
    [request_handler.rs] sends it, collects the answers of the nodes and acknowledges the
    command.  One answer is enough when it carries a state proof ([state_proof/]): a part
    of a Patricia trie or an audit path of the ledger's Merkle tree, whose root the nodes
    signed.  To follow the pool, the client catches up with the pool ledger
    ([catchup.rs]), keeps it as a Merkle tree ([ledger/merkletree/]) and in a file
    ([merkle_tree_factory.rs]), and reads the list of nodes from it.

    - [MerkleTree], [MerkleProof], [Consistency]: [services/ledger/merkletree/*.rs] and
      the hash helpers of [indy-utils].  [Tree], [MerkleTree] and [Proof] are the structs
      of the code; [from_vec], [append], [gen_proof], [validate], [consistency_proof] its
      methods.  Shown: both builders compute the tree of RFC 6962
      ([from_vec_is_rfc6962], [append_agrees_with_from_vec]); generated inclusion proofs
      validate; consistency proofs are complete and sound ([consistency_proof_complete],
      [consistency_proof_sound]).
    - [Trie]: [state_proof/node.rs].  [Stored] is the abstract content of a trie.  Shown:
      the codec of nodes and paths round-trips, lookups find what is stored and answer
      only what is stored, listings are exact ([get_all_values_exact]).
    - [External]: the third-party codecs as a type class, and [u64] parsing.
    - [AuditProof], [StateProof], [ReplyParser]: [state_proof/mod.rs] with the proof types
      of [types.rs].  Shown: accepted proofs tell the truth about the signed ledger
      ([verify_proof_sound], [verify_parsed_sp_signed], [audit_proof_sound]), honest ones
      are accepted ([verify_proof_complete], [audit_proof_complete]), range proofs are
      exact, parsing never panics ([parse_reply_never_panics]) and state keys are
      injective.
    - [LedgerCache]: [merkle_tree_factory.rs].  Shown: what is dumped is restored
      ([cache_roundtrip]).
    - [Catchup]: [catchup.rs], [CatchupRep::min_tx] and [_process_catchup_reply].  Shown:
      a processed reply extends the client's ledger by the pool's transactions
      ([catchup_reply_sound]) and the target is one that more than [f] nodes gave
      ([catchup_target_agreed]).
    - [Events], [RequestHandler]: [events.rs], the messages of [types.rs], the response
      metadata of [services/pool/mod.rs] and the whole of [request_handler.rs].  A step
      maps a state and an event to the next state, an event for the pool and the effects
      in order; [run] is a sequence of steps.  Shown, for every sequence of events:
      commands are answered exactly once ([commands_answered_once]), answers have a
      majority or a proof ([consensus_answer_has_majority], [single_answer_justified]),
      and requests end when every node was heard ([single_request_ends],
      [full_request_ends]).
    - [NodeState]: the node transactions of [types.rs], [build_node_state], and
      [_get_nodes_and_remotes], [_get_f] of [pool.rs].  Shown: the node list is the ledger
      replayed ([node_state_replays_ledger]), requests go to validators only
      ([pool_nodes_are_validators]), [_get_f] is the largest tolerated number of faults
      ([get_f_is_maximal]).
    - [Pool]: [PoolSM] of [pool.rs] with all its states, over the class
      [RequestHandlerOps] that [RequestHandler] implements.  Shown: no command is answered
      twice ([pool_never_answers_twice]), an active pool answers every request
      ([active_pool_answers_every_request]), a finished catch-up acknowledges the open or
      refresh command ([catchup_acknowledged]), the transitions are those of the table
      in the code ([pool_transitions]).

    ** The wallet and the files that model it

    The service ([indy-wallet/src/lib.rs]) opens wallets by handle.  A wallet
    ([wallet.rs]) encrypts types, names, values and tags and hands them to a storage
    ([storage/]); queries are encrypted the same way and become SQL.  The keys of a wallet
    are kept in the storage's metadata, encrypted under a master key derived from the
    passphrase ([encryption.rs]).  A wallet can be exported to an encrypted file and
    imported from it ([export_import.rs]).

    - [Errors]: [indy-api-types/src/errors.rs], [ErrorCode] of [lib.rs].  Shown: kinds and
      C codes correspond ([error_code_roundtrip]).
    - [Json]: [serde_json::Value].  [Wql]: [indy-utils/src/wql.rs].  [WalletCrypto]:
      [encryption.rs] and [EncryptedValue].  [WalletQuery]: [language.rs],
      [query_encryption.rs] and [storage/default/query.rs].  Shown: queries round-trip
      ([wql_roundtrip]), optimisation keeps their meaning, the SQL conditions select
      exactly the records whose plaintext tags match, records decrypt to what was stored.
    - [WalletStorage], [StorageType]: the traits of [storage/mod.rs] as classes of
      operations ([WalletStorage], [World], [WalletStorageType]) with their contracts
      ([StorageLaws], [WorldLaws], [StorageTypeLaws]): a storage is a map of items, a
      failed operation changes nothing, connections share the contents of a place.
    - [SqliteStorage], [SqliteStorageType]: [storage/default/mod.rs] and
      [transaction.rs].  The database is its tables; statements, transactions and
      iterators are those of the code; any statement may fail; files, directories and
      connections form a disk.  Shown: the storage refines a map for every pattern of
      failures ([sqlite_refines_map]), and the life of a database file
      ([storage_lifecycle]); both files discharge the contracts.
    - [PluggedStorage], [PluggedLaws], [PluggedHandles]: [storage/plugged/mod.rs] and the text
      of queries of [language.rs], over the class [Plugin] of the functions an application
      registers, whose documented promises are [PluginLaws].  Shown: on a plugin that keeps
      them a plugged storage refines a map and discharges the contract
      ([plugged_refines_map]); whatever a plugin answers, its handles are used only while they
      live and each is freed once ([handles_balanced]).
    - [InmemWallet]: the in-memory plugin of [indy-utils/src/inmem_wallet.rs], where it breaks
      these promises, and that it keeps them once that is corrected.
    - [Wallet], [WalletSearch]: [wallet.rs], [iterator.rs].  Shown against the contract:
      the encrypted wallet refines a plaintext map of records ([wallet_refines_records]),
      and a search on SQLite returns exactly the matching records, decrypted
      ([search_returns_matching_records]).
    - [KeyDerivation]: passphrases, master keys, the metadata of a wallet.  [ChunkStream]:
      the encrypted stream of [indy-utils] ([chacha20poly1305_ietf/sodium.rs]); what is
      written is read back for every way to cut the calls ([stream_roundtrip]), reading
      ends ([read_terminates]).  [ExportImport]: [export_import.rs]; a foreign file is
      refused before anything is added ([import_refuses_foreign_file]).
    - [WalletService], [WalletLife]: [WalletService] with its maps of handles, pending
      openings and imports, and the process around it.  Shown: handles are unique and no
      id stays locked ([handles_and_ids], by induction on all calls); a wallet created,
      opened, changed, closed and opened again, also with a new passphrase, has the
      records the specification gives it ([wallet_life]); export and import copy a wallet
      ([exported_wallet_imports]); a failed import leaves nothing
      ([failed_import_leaves_nothing]); objects are read back ([upsert_then_get]).
    - [WalletCommands]: [WalletCommandExecutor] of [commands/wallet.rs], which chains the
      prepare and continue steps of the service through the queue of the worker thread and
      the thread pool, and [convert_seed] of [services/crypto/mod.rs].  A process is the
      executor with its queue, jobs and callbacks; its steps are executions, finished jobs
      and uses of the service by other executors, in any order.  Shown for every
      interleaving: no callback is lost or called twice ([no_callback_lost]),
      continuations find their callbacks and what the service prepared
      ([continuations_find_callbacks]), the commands end with every call answered
      ([every_call_answered]); a call on its own is the sequence of the service's
      operations ([call_alone]), so that the theorems of [WalletLife] apply to it.

    ** Keys, requests and DIDs

    The executors of [libindy/src/commands] keep keys and DIDs as objects in a wallet, sign and
    encrypt with them, and build the requests that the ledger client sends.

    - [LedgerConstants], [JsonText], [Verkey]: the codes of transactions, what is relied on of
      the text of JSON values, and [verkey_builder.rs].
    - [ObjectStore]: the object operations of [indy-wallet/src/lib.rs] as a class, with the map
      they implement ([ObjectLaws], discharged by the wallet of [WalletService] and by a plain
      map) and rules of weakest preconditions for programs over it.  The laws of searches
      ([ObjectSearchLaws]) are discharged by the plain map only: a cursor of SQLite that is read
      while its table changes is documented behaviour of SQLite.
    - [CryptoService], [CryptoCommands]: [services/crypto/], [commands/crypto.rs] and the
      libsodium wrappers of [indy-utils].  Shown: a packed message is opened by each of its
      recipients and names its sender ([packed_message_opens]).
    - [LedgerSigning]: [signature_serializer.rs] and signing in [commands/ledger.rs].  Shown:
      after any sequence of signatures every one of them verifies and the content is unchanged
      ([signatures_verify]).
    - [LedgerRequests]: [domain/ledger/], the builders of [services/ledger/mod.rs] and the
      commands around them.  Shown: a request that is built, given an endorser and an
      acceptance, and signed is read by the client as what was asked, with signatures that
      verify ([request_life]).  [LedgerReplies]: the replies; a schema is reported under the
      identifier that was asked for ([schema_reply_names_request]).
    - [DidCommands]: [DidCommandExecutor] of [commands/did.rs].  [DidLife]: a created DID signs
      ([created_did_signs]), its key is replaced in two steps ([key_rotation]), abbreviated keys
      expand ([abbreviated_verkey_expands]), a qualified DID takes along what depends on it
      ([qualified_did_signs]).  [DidRun]: the executor as a process with the ledger; no call is
      lost or answered twice ([did_calls_conserved]) and the key of an unknown DID is found
      on the ledger ([key_for_did_from_ledger]).
    - [PairwiseCommands]: [commands/pairwise.rs]; a relation is stored between known DIDs, and
      reported with its latest metadata ([pairwise_life]).
    - [RecordStore]: the record operations of [indy-wallet/src/lib.rs] as a class with its laws,
      discharged by the wallet of [WalletService] and by a plain map.  [NonSecrets]:
      [commands/non_secrets.rs]; no sequence of these commands changes a key, a DID or another
      object of libindy ([secrets_untouched]).  [CacheCommands]: [commands/cache.rs]; what the
      ledger told is stored and served without the ledger for as long as it is fresh enough for
      the caller ([cache_serves_fresh]).
    - [CommandSamples], [DidSamples], [RecordSamples]: concrete libraries that keep the promises,
      and examples.

    ** The verifier of anonymous credentials

    - [Identifiers]: [utils/qualifier.rs] and the identifiers of schemas, credential
      definitions and revocation registries.  Shown: what is put together can be taken apart
      and unqualified ([identifiers_roundtrip]).
    - [ProofRequest]: [domain/anoncreds/proof_request.rs], with validation and conversion.
    - [Verifier]: [services/anoncreds/verifier.rs] and its helpers, over the class [Ursa] of
      the cryptography crate, whose promise about accepted proofs is [UrsaLaws].  Shown: what
      an accepted proof reveals was signed in a credential that meets the restrictions
      ([accepted_attribute], [accepted_group]), requested predicates hold
      ([accepted_predicate]), restrictions mean what their operators say
      ([process_operator_verdict]), and proofs that do not name an attribute twice do not
      panic the verifier ([verify_never_panics]).  The examples at the end of the file show
      what a proof that names an attribute twice, claims another schema or writes its own raw
      values gets past the verifier.

    ** The protocols of libvcx

    Connections, issuance and presentation are state machines ([v3/handlers/]) driven by the
    calls of a user and the messages of the other side.  They talk to the agency, to libindy
    and to the ledger, which the models take as an environment that answers every call as it
    likes.

    - [VcxErrors]: [error/], [utils/error.rs].  Shown: kinds have distinct codes
      ([error_codes_distinct]) and codes their texts ([error_messages_there]).
    - [DidDoc], [MessageType], [A2A], [A2AJson]: [v3/messages/].  The structs of the messages,
      DID documents with their validation, message types, and the way of a message to JSON
      and back.  Shown: messages round-trip ([message_json_roundtrip]), built documents are
      valid, invitations and documents carry the same keys.
    - [VcxMonad]: the calls a handler makes, programs over them, their weakest preconditions
      and the history of calls the theorems speak of.
    - [VcxEncoding]: [utils/openssl.rs] and the encoding of attributes.
    - [Issuance], [Issuer], [Holder]: [v3/handlers/issuance/].  Shown for every sequence of
      calls and every environment: what an issuer and a holder have called and sent in each
      state ([IssuanceSafety]: [issuer_trace], [holder_trace]); two machines joined by a
      delivering agency finish with the same credential ([IssuanceRun]:
      [issuance_completes]).
    - [PresentProof], [Prover], [VcxVerifier]: [v3/handlers/proof_presentation/].  Shown: a
      verifier that reports success has had the proof accepted by libindy against its own
      request, a prover answers once ([PresentSafety]: [reported_success_is_verified],
      [prover_answers_once]); honest sides finish ([PresentRun]: [presentation_completes]).
    - [Agent]: [v3/handlers/connection/agent.rs], [v3/utils/encryption_envelope.rs] and signed
      connection responses.  Shown: an envelope passes every mediator and reaches the
      recipient ([envelope_reaches_recipient]).
    - [DidExchange]: [v3/handlers/connection/].  Shown: an invitee whose connection is complete
      has a response signed with the key of its invitation, an inviter that answered has a
      valid request and sent its new keys under the old signature ([DidExchangeSafety]:
      [invitee_knows_inviter], [inviter_answered_invitee]); honest sides finish and know each
      other's keys ([DidExchangeRun]: [did_exchange_completes]).

    Theorems outside the numbered ones are steps towards them or state what the code does
    wrong or unexpectedly on inputs a caller or a node can choose.

    ** Conventions

    A function that can fail or panic returns [outcome]; one that also changes a state is
    in the monad [SM].  Arithmetic on [usize] and [u64] that can go below zero or overflow
    is written out and depends on the build [Profile]; sizes of in-memory collections are
    [nat].  Bytes are [Z]; a [String] is the string of its UTF-8 bytes.  A [HashMap] whose
    order shows is an association list in iteration order.  Random keys, nonces and salts
    are arguments of the operations that draw them.  Log output is left out.

    ** Fuel

    Loops that halve a number or consume a list have that number or length as fuel,
    which the theorems show to be enough.  Recursion through the node database of a
    trie is bounded by the stack, not by the data (a proof can be cyclic): [fuel] is the
    number of frames left and running out is [Panic].  Soundness theorems hold for
    every fuel and completeness theorems give a fuel from which on the result holds.
    [_calculate_turns] has as fuel the turns that fit into memory; 64 are enough for a
    ledger of up to 2^63 transactions.  Export and import run once per record: one more
    than the number of records is enough.

    ** Parameters

    SHA-256, SHA3-256, BLS signatures, libsodium, SQLite's row order, row ids, failures and
    evaluation of conditions, the codecs (base58, base64, JSON text, MessagePack, RLP
    bytes, hex), serde-derived readers of messages, plugged state-proof parsers, errors of
    the file system, the clock, iteration orders and [binary_search] on equal keys; of libvcx also the [url],
    [regex], [uuid] and base64-url crates and everything its programs call.  Where
    a theorem relies on their documented behaviour it is a hypothesis; soundness of hash
    based proofs assumes no collision on the inputs that occur, never injectivity.

    ** Not modelled

    The PostgreSQL storage plugin, which is experimental and mostly SQL; of libindy the payment
    commands, which call plugins through C function pointers, and blob storage, which is file
    access; of libvcx the agency
    messages, the handle caches and the first version of the protocols, which the third replaces.
    The C API, the rest of command dispatch, ZeroMQ networking, the anoncreds issuer and prover
    (calls into ursa), the CLI, wrappers and samples are glue, I/O or foreign code. *)

(** ** Contents of this file

    Errors and results, machine arithmetic, bytes and strings, and the tactics, hints
    and generic lemmas the other files share. *)

From stdpp Require Import base list strings gmap numbers.
From Stdlib Require Import ZArith Lia.

(** ** Errors and results

    [IndyErrorKind] has the constructors of
    [indy-api-types/src/errors.rs].  An [IndyError] is its kind and the message
    given to [err_msg] / [to_indy]. *)
Inductive IndyErrorKind :=
  | InvalidState | InvalidStructure | InvalidParam (n : Z) | IOError
  | MasterSecretDuplicateName | ProofRejected | RevocationRegistryFull
  | InvalidUserRevocId | CredentialRevoked | CredDefAlreadyExists
  | NoConsensus | InvalidTransaction | LedgerItemNotFound
  | PoolNotCreated | InvalidPoolHandle | PoolTerminated | PoolTimeout
  | PoolConfigAlreadyExists | PoolIncompatibleProtocolVersion
  | UnknownCrypto
  | InvalidWalletHandle | UnknownWalletStorageType
  | WalletStorageTypeAlreadyRegistered | WalletAlreadyExists | WalletNotFound
  | WalletAlreadyOpened | WalletAccessFailed | WalletEncodingError
  | WalletStorageError | WalletEncryptionError | WalletItemNotFound
  | WalletItemAlreadyExists | WalletQueryError
  | DIDAlreadyExists
  | UnknownPaymentMethodType | IncompatiblePaymentMethods
  | PaymentInsufficientFunds | PaymentSourceDoesNotExist
  | PaymentOperationNotSupported | PaymentExtraFunds | TransactionNotAllowed.

#[export] Instance IndyErrorKind_eq_dec : EqDecision IndyErrorKind.
Proof. solve_decision. Defined.

Record IndyError := err_msg { err_kind : IndyErrorKind; err_text : string }.

#[export] Instance IndyError_eq_dec : EqDecision IndyError.
Proof. solve_decision. Defined.

(** The result of running a Rust function: a value, an [Err], or a panic
    (failed assertion, index out of range, checked arithmetic overflow). *)
Inductive outcome (A : Type) :=
  | Ok (a : A)
  | Err (e : IndyError)
  | Panic.
Arguments Ok {A} _.
Arguments Err {A} _.
Arguments Panic {A}.

#[export] Instance outcome_eq_dec {A} `{EqDecision A} : EqDecision (outcome A).
Proof. solve_decision. Defined.

Definition obind {A B} (m : outcome A) (k : A -> outcome B) : outcome B :=
  match m with
  | Ok a => k a
  | Err e => Err e
  | Panic => Panic
  end.

Declare Scope indy_scope.
Delimit Scope indy_scope with indy.
Notation "'let?' x ':=' m 'in' k" := (obind m (fun x => k))
  (at level 10, x pattern, m at level 100, k at level 200) : indy_scope.
Open Scope indy_scope.

(** [out_map] is [Result::map]. *)
Definition out_map {A B} (f : A -> B) (m : outcome A) : outcome B :=
  obind m (fun a => Ok (f a)).

(** The [for x in l { out.push(f(x)?) }] loop. *)
Fixpoint omapM {A B} (f : A -> outcome B) (l : list A) : outcome (list B) :=
  match l with
  | [] => Ok []
  | x :: l' => let? y := f x in let? ys := omapM f l' in Ok (y :: ys)
  end.

(** ** Machine arithmetic

    The crates set no profile options, so [usize] subtraction panics below zero
    in a debug build and wraps in a release build: the build is a parameter of
    the definitions where it matters. *)
Inductive Profile := Debug | Release.

Definition usize_max : Z := 2 ^ 64 - 1.

Definition usize_sub (p : Profile) (a b : Z) : outcome Z :=
  if (b <=? a)%Z then Ok (a - b)%Z
  else match p with Debug => Panic | Release => Ok ((a - b) mod 2 ^ 64)%Z end.

(** ** Bytes and strings

    A [u8] is a [Z] between 0 and 255; a Rust [String] is the Rocq string of its
    UTF-8 bytes. *)
Abbreviation byte := Z (only parsing).
Abbreviation bytes := (list Z) (only parsing).

Definition is_byte (b : Z) : Prop := (0 <= b < 256)%Z.

Definition byte_of_ascii (a : Ascii.ascii) : Z := Z.of_N (Ascii.N_of_ascii a).
Definition ascii_of_byte (b : Z) : Ascii.ascii := Ascii.ascii_of_N (Z.to_N b).

(** [String::as_bytes] / [into_bytes]. *)
Fixpoint as_bytes (s : string) : bytes :=
  match s with
  | EmptyString => []
  | String a s' => byte_of_ascii a :: as_bytes s'
  end.

Fixpoint string_of_bytes (l : bytes) : string :=
  match l with
  | [] => EmptyString
  | b :: l' => String (ascii_of_byte b) (string_of_bytes l')
  end.

(** [str::starts_with] for one character. *)
Definition starts_with_char (c : Ascii.ascii) (s : string) : bool :=
  match s with String a _ => Ascii.eqb a c | EmptyString => false end.

(** UTF-8 as the standard library checks it (RFC 3629): no overlong forms, no
    surrogates, nothing above U+10FFFF. *)
Definition in_range (lo hi b : Z) : bool := (lo <=? b)%Z && (b <=? hi)%Z.
Definition cont (b : Z) : bool := in_range 128 191 b.

Fixpoint utf8_valid (l : bytes) : bool :=
  match l with
  | [] => true
  | b :: l1 =>
      if in_range 0 127 b then utf8_valid l1
      else match l1 with
      | [] => false
      | b1 :: l2 =>
          if in_range 194 223 b then cont b1 && utf8_valid l2
          else match l2 with
          | [] => false
          | b2 :: l3 =>
              if in_range 224 239 b then
                (if (b =? 224)%Z then in_range 160 191 b1
                 else if (b =? 237)%Z then in_range 128 159 b1 else cont b1)
                && cont b2 && utf8_valid l3
              else match l3 with
              | [] => false
              | b3 :: l4 =>
                  in_range 240 244 b &&
                  (if (b =? 240)%Z then in_range 144 191 b1
                   else if (b =? 244)%Z then in_range 128 143 b1 else cont b1)
                  && cont b2 && cont b3 && utf8_valid l4
              end
          end
      end
  end.

(** [String::from_utf8]. *)
Definition from_utf8 (l : bytes) : option string :=
  if utf8_valid l then Some (string_of_bytes l) else None.

(** Every Rust [String] holds valid UTF-8. *)
Definition rust_string (s : string) : Prop := utf8_valid (as_bytes s) = true.

(** Little-endian integers of [n] bytes, as [byteorder] writes them. *)
Fixpoint le_bytes (n : nat) (z : Z) : bytes :=
  match n with
  | 0 => []
  | S n' => (z mod 256)%Z :: le_bytes n' (z / 256)
  end.
Fixpoint of_le_bytes (l : bytes) : Z :=
  match l with [] => 0%Z | b :: l' => (b + 256 * of_le_bytes l')%Z end.

(** ** Tactics and hints *)
Create HintDb indy.

(** Split the innermost [match]/[if] of the goal or of a hypothesis. *)
Ltac break_match_goal :=
  match goal with
  | |- context [match ?x with _ => _ end] =>
      lazymatch x with
      | context [match _ with _ => _ end] => fail
      | _ => let E := fresh "E" in destruct x eqn:E
      end
  end.
Ltac break_match_hyp H :=
  match type of H with
  | context [match ?x with _ => _ end] =>
      lazymatch x with
      | context [match _ with _ => _ end] => fail
      | _ => let E := fresh "E" in destruct x eqn:E
      end
  end.

(** Invert [obind m k = Ok b] hypotheses. *)
Ltac obind_inv :=
  repeat match goal with
  | H : obind ?m _ = Ok _ |- _ =>
      let E := fresh "E" in destruct m eqn:E; cbn [obind] in H; try discriminate H
  | H : Ok _ = Ok _ |- _ => injection H as H
  end.

Lemma obind_ok {A B} (m : outcome A) (k : A -> outcome B) b :
  obind m k = Ok b <-> exists a, m = Ok a /\ k a = Ok b.
Proof. destruct m; cbn; naive_solver. Qed.

Lemma obind_assoc {A B C} (m : outcome A) (k : A -> outcome B) (h : B -> outcome C) :
  obind (obind m k) h = obind m (fun a => obind (k a) h).
Proof. by destruct m. Qed.

Lemma omapM_ok {A B} (f : A -> outcome B) l l' :
  omapM f l = Ok l' <-> Forall2 (fun x y => f x = Ok y) l l'.
Proof.
  revert l'. induction l as [|x l IH]; intros l'; cbn.
  - split; [intros [= <-]; constructor|by inversion 1].
  - rewrite obind_ok. split.
    + intros (y & Hy & H). apply obind_ok in H as (ys & Hys & [= <-]).
      constructor; [done|by apply IH].
    + inversion 1 as [|? y ? ys Hy Hys]; subst. exists y. split; [done|].
      by rewrite (proj2 (IH ys) Hys).
Qed.

Lemma omapM_total {A B} (f : A -> outcome B) (g : A -> B) l :
  (forall x, f x = Ok (g x)) -> omapM f l = Ok (g <$> l).
Proof. intros Hf. induction l as [|x l IH]; [done|]. cbn. by rewrite Hf, IH. Qed.

Lemma omapM_app {A B} (f : A -> outcome B) l1 l2 :
  omapM f (l1 ++ l2) =
  obind (omapM f l1) (fun ys1 => out_map (app ys1) (omapM f l2)).
Proof.
  induction l1 as [|x l1 IH]; cbn.
  - destruct (omapM f l2); done.
  - rewrite IH. destruct (f x); cbn; [|done|done].
    destruct (omapM f l1); cbn; [|done|done].
    by destruct (omapM f l2).
Qed.

(** ** Strings and bytes *)
Lemma byte_of_ascii_range a : is_byte (byte_of_ascii a).
Proof.
  unfold is_byte, byte_of_ascii. pose proof (Ascii.N_ascii_bounded a). lia.
Qed.

Lemma ascii_byte_inv a : ascii_of_byte (byte_of_ascii a) = a.
Proof.
  unfold ascii_of_byte, byte_of_ascii. rewrite N2Z.id. apply Ascii.ascii_N_embedding.
Qed.

Lemma byte_ascii_inv b : is_byte b -> byte_of_ascii (ascii_of_byte b) = b.
Proof.
  intros Hb. unfold is_byte in Hb. unfold ascii_of_byte, byte_of_ascii.
  rewrite Ascii.N_ascii_embedding; lia.
Qed.

Lemma string_of_as_bytes s : string_of_bytes (as_bytes s) = s.
Proof. induction s as [|a s IH]; [done|]. cbn. by rewrite ascii_byte_inv, IH. Qed.

Lemma as_bytes_of_bytes l : Forall is_byte l -> as_bytes (string_of_bytes l) = l.
Proof.
  induction 1 as [|b l Hb _ IH]; [done|]. cbn. by rewrite byte_ascii_inv, IH.
Qed.

Lemma as_bytes_range s : Forall is_byte (as_bytes s).
Proof. induction s; constructor; auto using byte_of_ascii_range. Qed.

Lemma from_utf8_as_bytes s : rust_string s -> from_utf8 (as_bytes s) = Some s.
Proof. unfold from_utf8, rust_string. intros ->. by rewrite string_of_as_bytes. Qed.

#[export] Hint Resolve byte_of_ascii_range as_bytes_range : indy.

(** ** Little-endian integers *)
Lemma of_le_bytes_le n z : (0 <= z < 256 ^ Z.of_nat n)%Z -> of_le_bytes (le_bytes n z) = z.
Proof.
  revert z. induction n as [|n IH]; intros z Hz; [cbn in *; lia|].
  cbn [le_bytes of_le_bytes]. rewrite IH.
  - rewrite (Z.div_mod z 256) at 3; lia.
  - rewrite Nat2Z.inj_succ, Z.pow_succ_r in Hz by lia.
    split; [apply Z.div_pos; lia|]. apply Z.div_lt_upper_bound; lia.
Qed.

Lemma length_le_bytes n z : length (le_bytes n z) = n.
Proof. revert z. induction n as [|n IH]; intros z; [done|]. cbn. by rewrite IH. Qed.

(** ** Lists *)
Lemma list_eq_take_drop {A} (l l' : list A) n :
  take n l = take n l' -> drop n l = drop n l' -> l = l'.
Proof. intros Ht Hd. by rewrite <-(take_drop n l), <-(take_drop n l'), Ht, Hd. Qed.

Lemma take_app_drop_take {A} (l : list A) i j :
  i <= j -> take i l ++ drop i (take j l) = take j l.
Proof.
  intros Hij. rewrite <-(take_drop i (take j l)) at 2.
  by rewrite take_take, Nat.min_l by lia.
Qed.
