(* ===== verification/Errors.v ===== *)
(** * Error codes

    The conversions of [libindy/indy-api-types/src/errors.rs] between the kinds of
    errors the library uses inside and the numeric codes of its C interface
    ([ErrorCode] of [indy-api-types/src/lib.rs]), and the conversion of SQLite errors.
    The codes cross the C interface in both directions: to callers of the API and, for
    plugged wallet storages and payment methods, back into the library. *)

From stdpp Require Import base list strings.
From Stdlib Require Import ZArith Lia.
From S2P Require Import Prelude.

Open Scope string_scope.

(** [ErrorCode]; the constructors carry the name of the type because [IndyErrorKind]
    has some of the same names. *)
Inductive ErrorCode :=
  | ErrorCode_Success | ErrorCode_CommonInvalidParam1 | ErrorCode_CommonInvalidParam2
  | ErrorCode_CommonInvalidParam3 | ErrorCode_CommonInvalidParam4 | ErrorCode_CommonInvalidParam5
  | ErrorCode_CommonInvalidParam6 | ErrorCode_CommonInvalidParam7 | ErrorCode_CommonInvalidParam8
  | ErrorCode_CommonInvalidParam9 | ErrorCode_CommonInvalidParam10 | ErrorCode_CommonInvalidParam11
  | ErrorCode_CommonInvalidParam12 | ErrorCode_CommonInvalidState
  | ErrorCode_CommonInvalidStructure | ErrorCode_CommonIOError | ErrorCode_CommonInvalidParam13
  | ErrorCode_CommonInvalidParam14 | ErrorCode_CommonInvalidParam15
  | ErrorCode_CommonInvalidParam16 | ErrorCode_CommonInvalidParam17
  | ErrorCode_CommonInvalidParam18 | ErrorCode_CommonInvalidParam19
  | ErrorCode_CommonInvalidParam20 | ErrorCode_CommonInvalidParam21
  | ErrorCode_CommonInvalidParam22 | ErrorCode_CommonInvalidParam23
  | ErrorCode_CommonInvalidParam24 | ErrorCode_CommonInvalidParam25
  | ErrorCode_CommonInvalidParam26 | ErrorCode_CommonInvalidParam27 | ErrorCode_WalletInvalidHandle
  | ErrorCode_WalletUnknownTypeError | ErrorCode_WalletTypeAlreadyRegisteredError
  | ErrorCode_WalletAlreadyExistsError | ErrorCode_WalletNotFoundError
  | ErrorCode_WalletIncompatiblePoolError | ErrorCode_WalletAlreadyOpenedError
  | ErrorCode_WalletAccessFailed | ErrorCode_WalletInputError | ErrorCode_WalletDecodingError
  | ErrorCode_WalletStorageError | ErrorCode_WalletEncryptionError | ErrorCode_WalletItemNotFound
  | ErrorCode_WalletItemAlreadyExists | ErrorCode_WalletQueryError
  | ErrorCode_PoolLedgerNotCreatedError | ErrorCode_PoolLedgerInvalidPoolHandle
  | ErrorCode_PoolLedgerTerminated | ErrorCode_LedgerNoConsensusError
  | ErrorCode_LedgerInvalidTransaction | ErrorCode_LedgerSecurityError
  | ErrorCode_PoolLedgerConfigAlreadyExistsError | ErrorCode_PoolLedgerTimeout
  | ErrorCode_PoolIncompatibleProtocolVersion | ErrorCode_LedgerNotFound
  | ErrorCode_AnoncredsRevocationRegistryFullError | ErrorCode_AnoncredsInvalidUserRevocId
  | ErrorCode_AnoncredsMasterSecretDuplicateNameError | ErrorCode_AnoncredsProofRejected
  | ErrorCode_AnoncredsCredentialRevoked | ErrorCode_AnoncredsCredDefAlreadyExistsError
  | ErrorCode_UnknownCryptoTypeError | ErrorCode_DidAlreadyExistsError
  | ErrorCode_PaymentUnknownMethodError | ErrorCode_PaymentIncompatibleMethodsError
  | ErrorCode_PaymentInsufficientFundsError | ErrorCode_PaymentSourceDoesNotExistError
  | ErrorCode_PaymentOperationNotSupportedError | ErrorCode_PaymentExtraFundsError
  | ErrorCode_TransactionNotAllowedError.

#[export] Instance ErrorCode_eq_dec : EqDecision ErrorCode.
Proof. solve_decision. Defined.

(** The discriminants of the enumeration. *)
Definition error_code_value (c : ErrorCode) : Z :=
  match c with
  | ErrorCode_Success => 0
  | ErrorCode_CommonInvalidParam1 => 100
  | ErrorCode_CommonInvalidParam2 => 101
  | ErrorCode_CommonInvalidParam3 => 102
  | ErrorCode_CommonInvalidParam4 => 103
  | ErrorCode_CommonInvalidParam5 => 104
  | ErrorCode_CommonInvalidParam6 => 105
  | ErrorCode_CommonInvalidParam7 => 106
  | ErrorCode_CommonInvalidParam8 => 107
  | ErrorCode_CommonInvalidParam9 => 108
  | ErrorCode_CommonInvalidParam10 => 109
  | ErrorCode_CommonInvalidParam11 => 110
  | ErrorCode_CommonInvalidParam12 => 111
  | ErrorCode_CommonInvalidState => 112
  | ErrorCode_CommonInvalidStructure => 113
  | ErrorCode_CommonIOError => 114
  | ErrorCode_CommonInvalidParam13 => 115
  | ErrorCode_CommonInvalidParam14 => 116
  | ErrorCode_CommonInvalidParam15 => 117
  | ErrorCode_CommonInvalidParam16 => 118
  | ErrorCode_CommonInvalidParam17 => 119
  | ErrorCode_CommonInvalidParam18 => 120
  | ErrorCode_CommonInvalidParam19 => 121
  | ErrorCode_CommonInvalidParam20 => 122
  | ErrorCode_CommonInvalidParam21 => 123
  | ErrorCode_CommonInvalidParam22 => 124
  | ErrorCode_CommonInvalidParam23 => 125
  | ErrorCode_CommonInvalidParam24 => 126
  | ErrorCode_CommonInvalidParam25 => 127
  | ErrorCode_CommonInvalidParam26 => 128
  | ErrorCode_CommonInvalidParam27 => 129
  | ErrorCode_WalletInvalidHandle => 200
  | ErrorCode_WalletUnknownTypeError => 201
  | ErrorCode_WalletTypeAlreadyRegisteredError => 202
  | ErrorCode_WalletAlreadyExistsError => 203
  | ErrorCode_WalletNotFoundError => 204
  | ErrorCode_WalletIncompatiblePoolError => 205
  | ErrorCode_WalletAlreadyOpenedError => 206
  | ErrorCode_WalletAccessFailed => 207
  | ErrorCode_WalletInputError => 208
  | ErrorCode_WalletDecodingError => 209
  | ErrorCode_WalletStorageError => 210
  | ErrorCode_WalletEncryptionError => 211
  | ErrorCode_WalletItemNotFound => 212
  | ErrorCode_WalletItemAlreadyExists => 213
  | ErrorCode_WalletQueryError => 214
  | ErrorCode_PoolLedgerNotCreatedError => 300
  | ErrorCode_PoolLedgerInvalidPoolHandle => 301
  | ErrorCode_PoolLedgerTerminated => 302
  | ErrorCode_LedgerNoConsensusError => 303
  | ErrorCode_LedgerInvalidTransaction => 304
  | ErrorCode_LedgerSecurityError => 305
  | ErrorCode_PoolLedgerConfigAlreadyExistsError => 306
  | ErrorCode_PoolLedgerTimeout => 307
  | ErrorCode_PoolIncompatibleProtocolVersion => 308
  | ErrorCode_LedgerNotFound => 309
  | ErrorCode_AnoncredsRevocationRegistryFullError => 400
  | ErrorCode_AnoncredsInvalidUserRevocId => 401
  | ErrorCode_AnoncredsMasterSecretDuplicateNameError => 404
  | ErrorCode_AnoncredsProofRejected => 405
  | ErrorCode_AnoncredsCredentialRevoked => 406
  | ErrorCode_AnoncredsCredDefAlreadyExistsError => 407
  | ErrorCode_UnknownCryptoTypeError => 500
  | ErrorCode_DidAlreadyExistsError => 600
  | ErrorCode_PaymentUnknownMethodError => 700
  | ErrorCode_PaymentIncompatibleMethodsError => 701
  | ErrorCode_PaymentInsufficientFundsError => 702
  | ErrorCode_PaymentSourceDoesNotExistError => 703
  | ErrorCode_PaymentOperationNotSupportedError => 704
  | ErrorCode_PaymentExtraFundsError => 705
  | ErrorCode_TransactionNotAllowedError => 706
  end%Z.

(** [From<IndyErrorKind> for ErrorCode]. *)
Definition code_of_kind (code : IndyErrorKind) : ErrorCode :=
  match code with
  | InvalidState => ErrorCode_CommonInvalidState
  | InvalidStructure => ErrorCode_CommonInvalidStructure
  | IOError => ErrorCode_CommonIOError
  | MasterSecretDuplicateName => ErrorCode_AnoncredsMasterSecretDuplicateNameError
  | ProofRejected => ErrorCode_AnoncredsProofRejected
  | RevocationRegistryFull => ErrorCode_AnoncredsRevocationRegistryFullError
  | InvalidUserRevocId => ErrorCode_AnoncredsInvalidUserRevocId
  | CredentialRevoked => ErrorCode_AnoncredsCredentialRevoked
  | CredDefAlreadyExists => ErrorCode_AnoncredsCredDefAlreadyExistsError
  | NoConsensus => ErrorCode_LedgerNoConsensusError
  | InvalidTransaction => ErrorCode_LedgerInvalidTransaction
  | LedgerItemNotFound => ErrorCode_LedgerNotFound
  | PoolNotCreated => ErrorCode_PoolLedgerNotCreatedError
  | InvalidPoolHandle => ErrorCode_PoolLedgerInvalidPoolHandle
  | PoolTerminated => ErrorCode_PoolLedgerTerminated
  | PoolTimeout => ErrorCode_PoolLedgerTimeout
  | PoolConfigAlreadyExists => ErrorCode_PoolLedgerConfigAlreadyExistsError
  | PoolIncompatibleProtocolVersion => ErrorCode_PoolIncompatibleProtocolVersion
  | UnknownCrypto => ErrorCode_UnknownCryptoTypeError
  | InvalidWalletHandle => ErrorCode_WalletInvalidHandle
  | UnknownWalletStorageType => ErrorCode_WalletUnknownTypeError
  | WalletStorageTypeAlreadyRegistered => ErrorCode_WalletTypeAlreadyRegisteredError
  | WalletAlreadyExists => ErrorCode_WalletAlreadyExistsError
  | WalletNotFound => ErrorCode_WalletNotFoundError
  | WalletAlreadyOpened => ErrorCode_WalletAlreadyOpenedError
  | WalletAccessFailed => ErrorCode_WalletAccessFailed
  | WalletEncodingError => ErrorCode_WalletDecodingError
  | WalletStorageError => ErrorCode_WalletStorageError
  | WalletEncryptionError => ErrorCode_WalletEncryptionError
  | WalletItemNotFound => ErrorCode_WalletItemNotFound
  | WalletItemAlreadyExists => ErrorCode_WalletItemAlreadyExists
  | WalletQueryError => ErrorCode_WalletQueryError
  | DIDAlreadyExists => ErrorCode_DidAlreadyExistsError
  | UnknownPaymentMethodType => ErrorCode_PaymentUnknownMethodError
  | IncompatiblePaymentMethods => ErrorCode_PaymentIncompatibleMethodsError
  | PaymentInsufficientFunds => ErrorCode_PaymentInsufficientFundsError
  | PaymentSourceDoesNotExist => ErrorCode_PaymentSourceDoesNotExistError
  | PaymentOperationNotSupported => ErrorCode_PaymentOperationNotSupportedError
  | PaymentExtraFunds => ErrorCode_PaymentExtraFundsError
  | TransactionNotAllowed => ErrorCode_TransactionNotAllowedError
  | InvalidParam num =>
      match num with
      | 1%Z => ErrorCode_CommonInvalidParam1
      | 2%Z => ErrorCode_CommonInvalidParam2
      | 3%Z => ErrorCode_CommonInvalidParam3
      | 4%Z => ErrorCode_CommonInvalidParam4
      | 5%Z => ErrorCode_CommonInvalidParam5
      | 6%Z => ErrorCode_CommonInvalidParam6
      | 7%Z => ErrorCode_CommonInvalidParam7
      | 8%Z => ErrorCode_CommonInvalidParam8
      | 9%Z => ErrorCode_CommonInvalidParam9
      | 10%Z => ErrorCode_CommonInvalidParam10
      | 11%Z => ErrorCode_CommonInvalidParam11
      | 12%Z => ErrorCode_CommonInvalidParam12
      | 13%Z => ErrorCode_CommonInvalidParam13
      | 14%Z => ErrorCode_CommonInvalidParam14
      | 15%Z => ErrorCode_CommonInvalidParam15
      | 16%Z => ErrorCode_CommonInvalidParam16
      | 17%Z => ErrorCode_CommonInvalidParam17
      | 18%Z => ErrorCode_CommonInvalidParam18
      | 19%Z => ErrorCode_CommonInvalidParam19
      | 20%Z => ErrorCode_CommonInvalidParam20
      | 21%Z => ErrorCode_CommonInvalidParam21
      | 22%Z => ErrorCode_CommonInvalidParam22
      | 23%Z => ErrorCode_CommonInvalidParam23
      | 24%Z => ErrorCode_CommonInvalidParam24
      | 25%Z => ErrorCode_CommonInvalidParam25
      | 26%Z => ErrorCode_CommonInvalidParam26
      | 27%Z => ErrorCode_CommonInvalidParam27
      | _ => ErrorCode_CommonInvalidState
      end
  end.

(** [From<ErrorCode> for IndyErrorKind]. *)
Definition kind_of_code (err : ErrorCode) : IndyErrorKind :=
  match err with
  | ErrorCode_CommonInvalidState => InvalidState
  | ErrorCode_CommonInvalidStructure => InvalidStructure
  | ErrorCode_CommonInvalidParam1 => InvalidParam 1
  | ErrorCode_CommonInvalidParam2 => InvalidParam 2
  | ErrorCode_CommonInvalidParam3 => InvalidParam 3
  | ErrorCode_CommonInvalidParam4 => InvalidParam 4
  | ErrorCode_CommonInvalidParam5 => InvalidParam 5
  | ErrorCode_CommonInvalidParam6 => InvalidParam 6
  | ErrorCode_CommonInvalidParam7 => InvalidParam 7
  | ErrorCode_CommonInvalidParam8 => InvalidParam 8
  | ErrorCode_CommonInvalidParam9 => InvalidParam 9
  | ErrorCode_CommonInvalidParam10 => InvalidParam 10
  | ErrorCode_CommonInvalidParam11 => InvalidParam 11
  | ErrorCode_CommonInvalidParam12 => InvalidParam 12
  | ErrorCode_CommonInvalidParam13 => InvalidParam 13
  | ErrorCode_CommonInvalidParam14 => InvalidParam 14
  | ErrorCode_CommonInvalidParam15 => InvalidParam 15
  | ErrorCode_CommonInvalidParam16 => InvalidParam 16
  | ErrorCode_CommonInvalidParam17 => InvalidParam 17
  | ErrorCode_CommonInvalidParam18 => InvalidParam 18
  | ErrorCode_CommonInvalidParam19 => InvalidParam 19
  | ErrorCode_CommonInvalidParam20 => InvalidParam 20
  | ErrorCode_CommonInvalidParam21 => InvalidParam 21
  | ErrorCode_CommonInvalidParam22 => InvalidParam 22
  | ErrorCode_CommonInvalidParam23 => InvalidParam 23
  | ErrorCode_CommonInvalidParam24 => InvalidParam 24
  | ErrorCode_CommonInvalidParam25 => InvalidParam 25
  | ErrorCode_CommonInvalidParam26 => InvalidParam 26
  | ErrorCode_CommonInvalidParam27 => InvalidParam 27
  | ErrorCode_CommonIOError => IOError
  | ErrorCode_AnoncredsMasterSecretDuplicateNameError => MasterSecretDuplicateName
  | ErrorCode_AnoncredsProofRejected => ProofRejected
  | ErrorCode_AnoncredsRevocationRegistryFullError => RevocationRegistryFull
  | ErrorCode_AnoncredsInvalidUserRevocId => InvalidUserRevocId
  | ErrorCode_AnoncredsCredentialRevoked => CredentialRevoked
  | ErrorCode_AnoncredsCredDefAlreadyExistsError => CredDefAlreadyExists
  | ErrorCode_LedgerNoConsensusError => NoConsensus
  | ErrorCode_LedgerInvalidTransaction => InvalidTransaction
  | ErrorCode_LedgerNotFound => LedgerItemNotFound
  | ErrorCode_PoolLedgerNotCreatedError => PoolNotCreated
  | ErrorCode_PoolLedgerInvalidPoolHandle => InvalidPoolHandle
  | ErrorCode_PoolLedgerTerminated => PoolTerminated
  | ErrorCode_PoolLedgerTimeout => PoolTimeout
  | ErrorCode_PoolLedgerConfigAlreadyExistsError => PoolConfigAlreadyExists
  | ErrorCode_PoolIncompatibleProtocolVersion => PoolIncompatibleProtocolVersion
  | ErrorCode_UnknownCryptoTypeError => UnknownCrypto
  | ErrorCode_WalletInvalidHandle => InvalidWalletHandle
  | ErrorCode_WalletUnknownTypeError => UnknownWalletStorageType
  | ErrorCode_WalletTypeAlreadyRegisteredError => WalletStorageTypeAlreadyRegistered
  | ErrorCode_WalletAlreadyExistsError => WalletAlreadyExists
  | ErrorCode_WalletNotFoundError => WalletNotFound
  | ErrorCode_WalletAlreadyOpenedError => WalletAlreadyOpened
  | ErrorCode_WalletAccessFailed => WalletAccessFailed
  | ErrorCode_WalletDecodingError => WalletEncodingError
  | ErrorCode_WalletStorageError => WalletStorageError
  | ErrorCode_WalletEncryptionError => WalletEncryptionError
  | ErrorCode_WalletItemNotFound => WalletItemNotFound
  | ErrorCode_WalletItemAlreadyExists => WalletItemAlreadyExists
  | ErrorCode_WalletQueryError => WalletQueryError
  | ErrorCode_DidAlreadyExistsError => DIDAlreadyExists
  | ErrorCode_PaymentUnknownMethodError => UnknownPaymentMethodType
  | ErrorCode_PaymentIncompatibleMethodsError => IncompatiblePaymentMethods
  | ErrorCode_PaymentInsufficientFundsError => PaymentInsufficientFunds
  | ErrorCode_PaymentSourceDoesNotExistError => PaymentSourceDoesNotExist
  | ErrorCode_PaymentOperationNotSupportedError => PaymentOperationNotSupported
  | ErrorCode_PaymentExtraFundsError => PaymentExtraFunds
  | ErrorCode_TransactionNotAllowedError => TransactionNotAllowed
  | _ => InvalidState
  end.

(** [From<IndyResult<T>> for ErrorCode] and [From<IndyError> for ErrorCode]; a panic does
    not return.  [set_current_error], which keeps the message for the caller's thread, is
    not part of the code. *)
Definition code_of_error (err : IndyError) : ErrorCode := code_of_kind (err_kind err).
Definition code_of_result {A} (r : outcome A) : option ErrorCode :=
  match r with
  | Ok _ => Some ErrorCode_Success
  | Err err => Some (code_of_error err)
  | Panic => None
  end.

(** [From<ErrorCode> for IndyError] and [From<ErrorCode> for IndyResult<()>]. *)
Definition error_of_code (err : ErrorCode) : IndyError :=
  err_msg (kind_of_code err) "Plugin returned error".
Definition result_of_code (err : ErrorCode) : outcome unit :=
  if decide (err = ErrorCode_Success) then Ok () else Err (error_of_code err).

(** The errors of [rusqlite] the library tells apart. *)
Inductive SqlError :=
  | QueryReturnedNoRows
  | ConstraintViolation
  | SystemIoFailure
  | OtherSqlError (text : string).

(** [From<rusqlite::Error> for IndyError]. *)
Definition error_of_sql (err : SqlError) : IndyError :=
  match err with
  | QueryReturnedNoRows => err_msg WalletItemNotFound "Item not found"
  | ConstraintViolation => err_msg WalletItemAlreadyExists "Wallet item already exists"
  | SystemIoFailure => err_msg IOError "IO error during access sqlite database"
  | OtherSqlError _ => err_msg InvalidState "Unexpected sqlite error"
  end.

(** The kinds that have a code of their own: the parameter positions end at 27. *)
Definition has_own_code (k : IndyErrorKind) : bool :=
  match k with InvalidParam n => (1 <=? n)%Z && (n <=? 27)%Z | _ => true end.

Lemma param_range n :
  (1 <= n <= 27)%Z -> n ∈ [1;2;3;4;5;6;7;8;9;10;11;12;13;14;15;16;17;18;19;20;21;22;23;24;25;26;27]%Z.
Proof. intros Hn. rewrite !elem_of_cons. lia. Qed.

Lemma kind_code_own k : has_own_code k = true -> kind_of_code (code_of_kind k) = k.
Proof.
  destruct k; try done. cbn. intros [H1%Z.leb_le H2%Z.leb_le]%andb_prop.
  pose proof (param_range n (conj H1 H2)) as Hn. clear H1 H2.
  repeat (apply elem_of_cons in Hn as [->|Hn]; [done|]). by apply not_elem_of_nil in Hn.
Qed.

Lemma code_of_other_param n : has_own_code (InvalidParam n) = false ->
  code_of_kind (InvalidParam n) = ErrorCode_CommonInvalidState.
Proof.
  cbn. intros H. destruct n as [|p|p]; [done| |done].
  do 5 (destruct p as [p|p|]; try done).
Qed.

Lemma code_of_kind_not_success k : code_of_kind k <> ErrorCode_Success.
Proof.
  destruct (has_own_code k) eqn:E.
  - intros H. pose proof (kind_code_own _ E) as Hk. rewrite H in Hk. by destruct k.
  - destruct k; try done. by rewrite code_of_other_param.
Qed.

(** C40: What a caller of the C interface can tell from a code.  Distinct codes have
    distinct numbers; the code of a result is [Success] exactly when the call returned a
    value; converting a kind to its code and back gives the kind for every kind except the
    parameter positions beyond 27, which become [InvalidState]; and a plugin that answers
    with the code of an error of such a kind makes the library fail with that kind. *)
Theorem error_code_roundtrip :
  (forall c1 c2, error_code_value c1 = error_code_value c2 -> c1 = c2) /\
  (forall A (r : outcome A), code_of_result r = Some ErrorCode_Success <-> exists a, r = Ok a) /\
  (forall k, kind_of_code (code_of_kind k) = if has_own_code k then k else InvalidState) /\
  (forall k, has_own_code k = true ->
     result_of_code (code_of_kind k) = Err (err_msg k "Plugin returned error")).
Proof.
  split; [|split; [|split]].
  - intros c1 c2 H. destruct c1, c2; first [reflexivity | discriminate H].
  - intros A r. destruct r as [a|e|]; cbn; [naive_solver| |naive_solver].
    split; [|naive_solver]. intros [= H]. by destruct (code_of_kind_not_success (err_kind e)).
  - intros k. destruct (has_own_code k) eqn:E; [by apply kind_code_own|].
    destruct k; try done. by rewrite code_of_other_param.
  - intros k Hk. unfold result_of_code, error_of_code.
    rewrite decide_False by apply code_of_kind_not_success. by rewrite kind_code_own.
Qed.
