(* ===== verification/MerkleTree.v ===== *)
(** * Merkle trees of the ledger

    The hash helpers of [indy-utils/src/crypto/hash/openssl.rs] and the tree of
    [libindy/src/services/ledger/merkletree/]: [Tree] and its leaf iterators
    ([tree.rs]), [MerkleTree::from_vec] and accessors ([merkletree.rs]),
    [count_bits], [find_hash] and [append] ([mod.rs]).

    OpenSSL's SHA-256 is the parameter [digest] of the section: the bytes fed to
    one hashing context, concatenated, give the digest or an error.

    The theorems show that both builders compute one function of the list of
    leaves, the tree of RFC 6962 ([ref_tree]): [from_vec] builds it bottom up,
    [append] rebuilds only the right spine, and the counters agree with it. *)

From stdpp Require Import base list strings numbers.
From Stdlib Require Import ZArith Lia.
From S2P Require Import Prelude.

(** [Tree] of [tree.rs]; [TreeLeafData] is [Vec<u8>]. *)
Inductive Tree :=
  | Empty (hash : bytes)
  | Leaf (hash : bytes) (value : bytes)
  | Node (hash : bytes) (lhs rhs : Tree).

#[export] Instance Tree_eq_dec : EqDecision Tree.
Proof. solve_decision. Defined.

(** [MerkleTree] of [merkletree.rs]. *)
Record MerkleTree := mkMerkleTree {
  root : Tree;
  height : nat;
  count : nat;
  nodes_count : nat
}.

#[export] Instance MerkleTree_eq_dec : EqDecision MerkleTree.
Proof. solve_decision. Defined.

(** [EMPTY_HASH_BYTES] of [openssl.rs]. *)
Definition EMPTY_HASH_BYTES : bytes :=
  [227; 176; 196; 66; 152; 252; 28; 20; 154; 251; 244; 200; 153; 111; 185; 36;
   39; 174; 65; 228; 100; 155; 147; 76; 164; 149; 153; 27; 120; 82; 184; 85]%Z.

(** [Tree::hash]. *)
Definition tree_hash (t : Tree) : bytes :=
  match t with
  | Empty hash => hash
  | Leaf hash _ => hash
  | Node hash _ _ => hash
  end.

(** [Tree::get_height]. *)
Fixpoint get_height (t : Tree) : nat :=
  match t with
  | Empty _ => 0
  | Node _ lhs rhs => 1 + Nat.max (get_height lhs) (get_height rhs)
  | Leaf _ _ => 0
  end.

(** [Tree::get_count]. *)
Fixpoint get_count (t : Tree) : nat :=
  match t with
  | Empty _ => 0
  | Node _ lhs rhs => get_count lhs + get_count rhs
  | Leaf _ _ => 1
  end.

(** ** Leaf iterators

    [LeavesIterator] and [LeavesIntoIterator] hold the same state, by reference
    and by value; [right_nodes] is the [Vec] stack, its top first. *)
Record LeavesIterator := mkIter {
  current_value : option bytes;
  right_nodes : list Tree
}.

(** [add_left]: the loop follows the left spine. *)
Fixpoint add_left (tree : Tree) (right_nodes : list Tree) : LeavesIterator :=
  match tree with
  | Empty _ => mkIter None right_nodes
  | Node _ lhs rhs => add_left lhs (rhs :: right_nodes)
  | Leaf _ value => mkIter (Some value) right_nodes
  end.

(** [LeavesIterator::new]. *)
Definition iter_new (root : Tree) : LeavesIterator := add_left root [].

(** [Iterator::next]: the value and the new iterator state. *)
Definition iter_next (it : LeavesIterator) : option bytes * LeavesIterator :=
  (current_value it,
   match right_nodes it with
   | rest :: stack => add_left rest stack
   | [] => mkIter None []
   end).

(** A [for] loop or [collect] calls [next] until it returns [None]; [fuel]
    bounds the number of calls. *)
Fixpoint iter_collect (fuel : nat) (it : LeavesIterator) : list bytes :=
  match fuel with
  | 0 => []
  | S fuel' =>
      match iter_next it with
      | (None, _) => []
      | (Some v, it') => v :: iter_collect fuel' it'
      end
  end.

(** [tree.iter().collect()]; a tree with [get_count t] leaves needs that many
    calls and the one that returns [None]. *)
Definition tree_iter (t : Tree) : list bytes := iter_collect (S (get_count t)) (iter_new t).

(** [MerkleTree::root_hash], [count], [height], [is_empty]. *)
Definition root_hash (m : MerkleTree) : bytes := tree_hash (root m).
Definition mt_is_empty (m : MerkleTree) : bool := bool_decide (count m = 0).

(** [MerkleTree::default]. *)
Definition mt_default : MerkleTree := mkMerkleTree (Empty EMPTY_HASH_BYTES) 0 0 0.

(** [MerkleTree::count_bits]: [while val != 0 { val &= val - 1; ret += 1 }].
    A 64-bit value has at most 64 set bits, so 64 iterations always suffice. *)
Fixpoint count_bits_loop (fuel : nat) (val : N) (ret : nat) : nat :=
  match fuel with
  | 0 => ret
  | S fuel' =>
      if (val =? 0)%N then ret
      else count_bits_loop fuel' (N.land val (val - 1)) (S ret)
  end.
Definition count_bits (v : nat) : nat := count_bits_loop 64 (N.of_nat v) 0.

(** [MerkleTree::find_hash]: right subtree before left; [assert!(false)] on an
    [Empty] node. *)
Fixpoint find_hash (from : Tree) (required_hash : bytes) : outcome (option Tree) :=
  match from with
  | Empty _ => Panic
  | Node hash lhs rhs =>
      if bool_decide (hash = required_hash) then Ok (Some from)
      else
        let? r := find_hash rhs required_hash in
        match r with
        | Some t => Ok (Some t)
        | None =>
            let? l := find_hash lhs required_hash in
            match l with
            | Some t => Ok (Some t)
            | None => Ok None
            end
        end
  | Leaf hash _ => if bool_decide (hash = required_hash) then Ok (Some from) else Ok None
  end.

Section Builders.
(** SHA-256 over the concatenation of the [update] calls of one context. *)
Context (digest : bytes -> outcome bytes).

(** [Hash::hash_leaf] and [Hash::hash_nodes]. *)
Definition hash_leaf (leaf : bytes) : outcome bytes := digest (0%Z :: leaf).
Definition hash_nodes (lhs rhs : bytes) : outcome bytes :=
  digest (1%Z :: lhs ++ rhs).

(** [Tree::new_leaf]. *)
Definition new_leaf (value : bytes) : outcome Tree :=
  let? hash := hash_leaf value in Ok (Leaf hash value).

(** The inner loop of [from_vec]: pair the nodes of one level, an odd last one
    is carried over; returns the next level and the updated [nodes_count]. *)
Fixpoint pair_level (cur : list Tree) (nodes_count : nat) : outcome (list Tree * nat) :=
  match cur with
  | lhs :: rhs :: cur' =>
      let? combined_hash := hash_nodes (tree_hash lhs) (tree_hash rhs) in
      let? (next, n) := pair_level cur' (nodes_count + 1) in
      Ok (Node combined_hash lhs rhs :: next, n)
  | [last] => Ok ([last], nodes_count)
  | [] => Ok ([], nodes_count)
  end.

(** The outer loop [while cur.len() > 1]: returns the level reached, [height]
    and [nodes_count]. *)
Fixpoint build_levels (fuel : nat) (cur : list Tree) (height nodes_count : nat)
  : outcome (list Tree * nat * nat) :=
  match fuel with
  | 0 => Ok (cur, height, nodes_count)
  | S fuel' =>
      if bool_decide (1 < length cur) then
        let? (next, n) := pair_level cur nodes_count in
        build_levels fuel' next (height + 1) n
      else Ok (cur, height, nodes_count)
  end.

(** [MerkleTree::from_vec]; each round at least halves the level rounding up,
    so [count] rounds are enough. *)
Definition from_vec (values : list bytes) : outcome MerkleTree :=
  if bool_decide (values = []) then Ok mt_default
  else
    let count := length values in
    let? cur := omapM new_leaf values in
    let? (cur, height, nodes_count) := build_levels count cur 0 0 in
    match cur with
    | root :: _ => Ok (mkMerkleTree root height count nodes_count)
    | [] => Panic
    end.

(** [MerkleTree::append]; the result is the new value of [self]. *)
Definition append (self : MerkleTree) (node : bytes) : outcome MerkleTree :=
  if bool_decide (count self = 0) then
    let? leaf := new_leaf node in
    Ok (mkMerkleTree leaf (height self) (count self + 1) (nodes_count self))
  else if negb (bool_decide (count_bits (count self) = 1)) then
    match root self with
    | Node _ lhs rhs =>
        let iter := tree_iter rhs ++ [node] in
        let? new_right := from_vec iter in
        let? combined_hash := hash_nodes (tree_hash lhs) (root_hash new_right) in
        Ok (mkMerkleTree (Node combined_hash lhs (root new_right))
              (height self) (count self + 1) (nodes_count self + 1))
    | _ => Panic
    end
  else
    let? new_right := from_vec [node] in
    match root self with
    | Node hash _ _ =>
        let? combined_hash := hash_nodes hash (root_hash new_right) in
        Ok (mkMerkleTree (Node combined_hash (root self) (root new_right))
              (height self + 1) (count self + 1) (nodes_count self + 1))
    | Leaf hash value =>
        let? combined_hash := hash_nodes hash (root_hash new_right) in
        let? lhs := new_leaf value in
        Ok (mkMerkleTree (Node combined_hash lhs (root new_right))
              (height self + 1) (count self + 1) (nodes_count self + 1))
    | Empty _ => Panic
    end.

(** Appending transactions one by one, as catch-up does. *)
Fixpoint append_all (self : MerkleTree) (nodes : list bytes) : outcome MerkleTree :=
  match nodes with
  | [] => Ok self
  | v :: nodes' => let? self' := append self v in append_all self' nodes'
  end.
End Builders.

(** ** Reference tree

    RFC 6962: a list of one element is its leaf; a longer one is split after the
    largest power of two below its length. *)
Definition split_point (n : nat) : nat := 2 ^ Nat.log2 (n - 1).

Section Reference.
Context (H : bytes -> bytes).

Definition ref_leaf (v : bytes) : Tree := Leaf (H (0%Z :: v)) v.
Definition ref_node (l r : Tree) : Tree :=
  Node (H (1%Z :: tree_hash l ++ tree_hash r)) l r.

(** Join a list of subtrees; every half is shorter, so the length is fuel
    enough (lemma [ref_join_split]). *)
Fixpoint ref_join_fuel (fuel : nat) (ts : list Tree) : Tree :=
  match fuel, ts with
  | _, [] => Empty EMPTY_HASH_BYTES
  | _, [t] => t
  | 0, _ => Empty EMPTY_HASH_BYTES
  | S fuel', _ =>
      let k := split_point (length ts) in
      ref_node (ref_join_fuel fuel' (take k ts)) (ref_join_fuel fuel' (drop k ts))
  end.
Definition ref_join (ts : list Tree) : Tree := ref_join_fuel (length ts) ts.
Definition ref_tree (values : list bytes) : Tree := ref_join (ref_leaf <$> values).

(** The Merkle tree hash of a list of values. *)
Definition mth (values : list bytes) : bytes := tree_hash (ref_tree values).

(** What the code promises to hold for the transactions [values]. *)
Definition merkle_of (values : list bytes) : MerkleTree :=
  mkMerkleTree (ref_tree values) (Nat.log2_up (length values)) (length values)
    (length values - 1).
End Reference.

Lemma split_point_spec e r :
  1 <= r <= 2 ^ e -> split_point (2 ^ e + r) = 2 ^ e.
Proof.
  intros Hr. unfold split_point. f_equal. apply Nat.log2_unique; [lia|].
  rewrite Nat.pow_succ_r'. lia.
Qed.

Lemma split_exists n :
  2 <= n -> exists e r, n = 2 ^ e + r /\ 1 <= r <= 2 ^ e.
Proof.
  intros Hn. exists (Nat.log2 (n - 1)), (n - 2 ^ Nat.log2 (n - 1)).
  destruct (Nat.log2_spec (n - 1)) as [H1 H2]; [lia|].
  rewrite Nat.pow_succ_r' in H2. lia.
Qed.

(** Every list of at least two elements is cut in the RFC 6962 way. *)
Lemma list_split_exists {A} (ts : list A) :
  2 <= length ts ->
  exists e l1 l2, ts = l1 ++ l2 /\ length l1 = 2 ^ e /\ 1 <= length l2 <= 2 ^ e.
Proof.
  intros Hn. destruct (split_exists _ Hn) as (e & r & Hlen & Hr).
  exists e, (take (2 ^ e) ts), (drop (2 ^ e) ts).
  rewrite take_drop, length_take, length_drop. split_and!; [done|lia..].
Qed.

(** Induction along RFC 6962 cuts. *)
Lemma split_ind {A} (P : list A -> Prop) :
  (forall x, P [x]) ->
  (forall e l1 l2, length l1 = 2 ^ e -> 1 <= length l2 <= 2 ^ e ->
     P l1 -> P l2 -> P (l1 ++ l2)) ->
  forall l, l <> [] -> P l.
Proof.
  intros H1 H2 l. remember (length l) as n eqn:Hn. revert l Hn.
  induction (lt_wf n) as [n _ IH']. intros l -> Hl.
  destruct l as [|x [|y l]]; [done|apply H1|].
  destruct (list_split_exists (x :: y :: l)) as (e & l1 & l2 & Heq & Hl1 & Hl2); [cbn; lia|].
  assert (0 < 2 ^ e) by (apply Nat.neq_0_lt_0, Nat.pow_nonzero; lia).
  rewrite Heq in *. apply H2 with e; [done|done| |];
    (eapply IH'; [|reflexivity|]; [rewrite length_app; lia|intros ->; cbn in *; lia]).
Qed.

Section ReferenceFacts.
Context (H : bytes -> bytes).

Lemma ref_join_fuel_irrel f1 f2 ts :
  length ts <= f1 -> length ts <= f2 -> ref_join_fuel H f1 ts = ref_join_fuel H f2 ts.
Proof.
  revert f2 ts. induction f1 as [|f1 IH]; intros f2 ts H1 H2.
  { destruct ts; [by destruct f2|cbn in H1; lia]. }
  destruct ts as [|x [|y ts]]; [by destruct f2..|].
  destruct f2 as [|f2]; [cbn in H2; lia|]. cbn [ref_join_fuel].
  destruct (split_exists (length (x :: y :: ts))) as (e & r & Hlen & Hr); [cbn; lia|].
  assert (0 < 2 ^ e) by (apply Nat.neq_0_lt_0, Nat.pow_nonzero; lia).
  rewrite Hlen, split_point_spec by done.
  f_equal; apply IH; rewrite ?length_take, ?length_drop; lia.
Qed.

Lemma ref_join_fuel_enough f ts :
  length ts <= f -> ref_join_fuel H f ts = ref_join H ts.
Proof. intros Hf. by apply ref_join_fuel_irrel. Qed.

Lemma ref_join_split e l1 l2 :
  length l1 = 2 ^ e -> 1 <= length l2 <= 2 ^ e ->
  ref_join H (l1 ++ l2) = ref_node H (ref_join H l1) (ref_join H l2).
Proof.
  intros H1 H2. assert (0 < 2 ^ e) by (apply Nat.neq_0_lt_0, Nat.pow_nonzero; lia).
  assert (Hlen : length (l1 ++ l2) = 2 ^ e + length l2) by (rewrite length_app; lia).
  assert (Hs : split_point (length (l1 ++ l2)) = length l1)
    by (rewrite Hlen, split_point_spec; lia).
  unfold ref_join at 1.
  destruct (l1 ++ l2) as [|x [|y ts]] eqn:E; [cbn in *; lia..|].
  change (length (x :: y :: ts)) with (S (length (y :: ts))) at 1.
  cbn [ref_join_fuel]. rewrite Hs, <-E.
  rewrite take_app_length, drop_app_length.
  rewrite !ref_join_fuel_enough by (cbn [length] in *; lia). done.
Qed.

Lemma ref_tree_split e l1 l2 :
  length l1 = 2 ^ e -> 1 <= length l2 <= 2 ^ e ->
  ref_tree H (l1 ++ l2) = ref_node H (ref_tree H l1) (ref_tree H l2).
Proof.
  intros H1 H2. unfold ref_tree. rewrite fmap_app.
  apply (ref_join_split e); by rewrite length_fmap.
Qed.

Lemma mth_split e l1 l2 :
  length l1 = 2 ^ e -> 1 <= length l2 <= 2 ^ e ->
  mth H (l1 ++ l2) = H (1%Z :: mth H l1 ++ mth H l2).
Proof. intros H1 H2. unfold mth. by rewrite (ref_tree_split e). Qed.

Lemma ref_tree_count l : get_count (ref_tree H l) = length l.
Proof.
  destruct (decide (l = [])) as [->|Hl]; [done|].
  revert l Hl. apply split_ind; [done|].
  intros e l1 l2 H1 H2 IH1 IH2. rewrite (ref_tree_split e) by done.
  cbn. rewrite IH1, IH2, length_app. done.
Qed.

Lemma log2_up_split e r : 1 <= r <= 2 ^ e -> Nat.log2_up (2 ^ e + r) = S e.
Proof.
  intros Hr. apply Nat.log2_up_unique; [lia|].
  rewrite Nat.pow_succ_r'. cbn [Nat.pred]. lia.
Qed.

Lemma ref_tree_height l : get_height (ref_tree H l) = Nat.log2_up (length l).
Proof.
  destruct (decide (l = [])) as [->|Hl]; [done|].
  revert l Hl. apply split_ind; [done|].
  intros e l1 l2 H1 H2 IH1 IH2. rewrite (ref_tree_split e) by done.
  cbn [get_height ref_node]. rewrite IH1, IH2, length_app, H1, log2_up_split by done.
  rewrite Nat.log2_up_pow2 by lia.
  assert (Nat.log2_up (length l2) <= e).
  { rewrite <-(Nat.log2_up_pow2 e) by lia. apply Nat.log2_up_le_mono. lia. }
  lia.
Qed.
End ReferenceFacts.

(** ** [from_vec] builds the reference tree *)
Section FromVec.
Context (digest : bytes -> outcome bytes) (H : bytes -> bytes).
Context (digest_total : forall b, digest b = Ok (H b)).

(** One level of pairing, without the error plumbing. *)
Fixpoint pairs (ts : list Tree) : list Tree :=
  match ts with
  | l :: r :: ts' => ref_node H l r :: pairs ts'
  | _ => ts
  end.

Lemma pair_level_pairs ts n :
  pair_level digest ts n = Ok (pairs ts, n + Nat.div2 (length ts)).
Proof.
  remember (length ts) as k eqn:Hk. revert ts n Hk.
  induction (lt_wf k) as [k _ IH]. intros ts n ->.
  destruct ts as [|x [|y ts]]; [cbn; do 2 f_equal; lia..|].
  cbn [pair_level]. unfold hash_nodes. rewrite digest_total. cbn [obind].
  erewrite IH; [|shelve|reflexivity]. cbn [obind pairs length Nat.div2].
  do 2 f_equal. lia.
  Unshelve. cbn. lia.
Qed.

Lemma length_pairs ts : length (pairs ts) = Nat.div2 (S (length ts)).
Proof.
  remember (length ts) as k eqn:Hk. revert ts Hk.
  induction (lt_wf k) as [k _ IH]. intros ts ->.
  destruct ts as [|x [|y ts]]; [done..|].
  cbn [pairs length]. erewrite IH; [|shelve|reflexivity]. done.
  Unshelve. cbn. lia.
Qed.

Lemma pairs_app k ts1 ts2 :
  length ts1 = 2 * k -> pairs (ts1 ++ ts2) = pairs ts1 ++ pairs ts2.
Proof.
  revert ts1. induction k as [|k IH]; intros ts1 Hk.
  - by destruct ts1.
  - destruct ts1 as [|x [|y ts1]]; [cbn in Hk; lia..|].
    cbn. rewrite IH; [done|]. cbn in Hk. lia.
Qed.

Lemma ref_join_pairs ts : ts <> [] -> ref_join H (pairs ts) = ref_join H ts.
Proof.
  revert ts. apply split_ind; [done|].
  intros e l1 l2 H1 H2 IH1 IH2. rewrite (ref_join_split H e l1 l2) by done.
  destruct e as [|e].
  - destruct l1 as [|x [|? ?]]; [done| |done].
    destruct l2 as [|y [|? ?]]; [cbn in H2; lia| |cbn in H2; lia]. done.
  - rewrite Nat.pow_succ_r' in *. rewrite (pairs_app (2 ^ e)) by done.
    rewrite (ref_join_split H e).
    + by rewrite IH1, IH2.
    + rewrite length_pairs, H1, Nat.div2_div.
      rewrite <-Nat.add_1_r, Nat.mul_comm, Nat.div_add_l by lia. cbn. lia.
    + rewrite length_pairs, Nat.div2_div.
      pose proof (Nat.div_mod_eq (S (length l2)) 2).
      pose proof (Nat.mod_upper_bound (S (length l2)) 2). lia.
Qed.

Lemma build_levels_join fuel ts h n :
  ts <> [] -> length ts <= fuel ->
  build_levels digest fuel ts h n =
  Ok ([ref_join H ts], h + Nat.log2_up (length ts), n + (length ts - 1)).
Proof.
  revert ts h n. induction fuel as [|fuel IH]; intros ts h n Hts Hf.
  { destruct ts; [done|cbn in Hf; lia]. }
  cbn [build_levels]. case_bool_decide as Hlen.
  - rewrite pair_level_pairs. cbn [obind].
    assert (Hp : length (pairs ts) = Nat.div2 (S (length ts))) by apply length_pairs.
    rewrite !Nat.div2_div in *.
    pose proof (Nat.div_mod_eq (S (length ts)) 2) as Hd.
    pose proof (Nat.mod_upper_bound (S (length ts)) 2).
    pose proof (Nat.div_mod_eq (length ts) 2) as Hd'.
    pose proof (Nat.mod_upper_bound (length ts) 2).
    rewrite IH; [|intros E; rewrite E in Hp; cbn [length] in Hp; lia|lia].
    rewrite ref_join_pairs by done.
    destruct (split_exists (length ts) ltac:(lia)) as (e & r & Hn & Hr).
    assert (Hu : Nat.log2_up (length ts) = S e) by (rewrite Hn; by apply log2_up_split).
    assert (Hh : Nat.log2_up (length (pairs ts)) = e).
    { rewrite Hp. destruct e as [|e].
      - replace (length ts) with 2 by (cbn in *; lia). done.
      - rewrite Nat.pow_succ_r' in *.
        apply Nat.log2_up_unique; [lia|]. rewrite Nat.pow_succ_r'. cbn [Nat.pred]. lia. }
    rewrite Hh, Hu, Hp. do 2 f_equal; [f_equal; lia|]. lia.
  - destruct ts as [|t [|? ?]]; [done| |cbn in Hlen; lia].
    cbn. do 2 f_equal; [f_equal; lia|lia].
Qed.
End FromVec.

(** ** Iteration *)
Fixpoint tree_leaves (t : Tree) : list bytes :=
  match t with
  | Empty _ => []
  | Leaf _ v => [v]
  | Node _ l r => tree_leaves l ++ tree_leaves r
  end.

(** No [Empty] node inside; every tree the builders make from at least one value
    has this shape. *)
Fixpoint full (t : Tree) : Prop :=
  match t with
  | Empty _ => False
  | Leaf _ _ => True
  | Node _ l r => full l /\ full r
  end.

Lemma add_left_collect t stack :
  full t -> Forall full stack ->
  exists v rest, tree_leaves t ++ (stack ≫= tree_leaves) = v :: rest /\
    current_value (add_left t stack) = Some v /\
    Forall full (right_nodes (add_left t stack)) /\
    (right_nodes (add_left t stack) ≫= tree_leaves) = rest.
Proof.
  revert stack. induction t as [h|h v|h l IHl r IHr]; intros stack Ht Hs; [done| |].
  - by exists v, (stack ≫= tree_leaves).
  - destruct Ht as [Hl Hr]. cbn [add_left tree_leaves].
    destruct (IHl (r :: stack)) as (v & rest & E & Hv & Hf & Hrest); [done|by constructor|].
    exists v, rest. rewrite <-app_assoc. done.
Qed.

Lemma iter_collect_next v stack fuel :
  Forall full stack -> length (stack ≫= tree_leaves) < fuel ->
  iter_collect (S fuel) (mkIter (Some v) stack) = v :: (stack ≫= tree_leaves).
Proof.
  revert v stack. induction fuel as [|fuel IH]; intros v stack Hs Hf; [lia|].
  destruct stack as [|t stack]; [done|].
  inversion Hs as [|? ? Ht Hs']; subst.
  destruct (add_left_collect t stack Ht Hs') as (v' & rest & E & Hv & Hf' & Hrest).
  cbn [mbind list_bind] in *. rewrite E in *. cbn [length] in Hf.
  cbn [iter_collect iter_next current_value right_nodes].
  f_equal. destruct (add_left t stack) as [c rn]. cbn [current_value right_nodes] in *.
  subst c. rewrite <-Hrest. apply IH; [done|]. rewrite Hrest. lia.
Qed.

Lemma length_tree_leaves t : length (tree_leaves t) = get_count t.
Proof. induction t; cbn; rewrite ?length_app; lia. Qed.

Lemma tree_iter_leaves t : full t -> tree_iter t = tree_leaves t.
Proof.
  intros Ht. unfold tree_iter, iter_new.
  destruct (add_left_collect t [] Ht) as (v & rest & E & Hv & Hf & Hrest); [constructor|].
  cbn in E. rewrite app_nil_r in E.
  destruct (add_left t []) as [c rn]. cbn in *. subst c.
  pose proof (length_tree_leaves t) as Hlen. rewrite E in *. cbn in Hlen. rewrite <-Hrest.
  change (iter_collect (S (get_count t)) (mkIter (Some v) rn) = v :: (rn ≫= tree_leaves)).
  apply iter_collect_next; [done|]. rewrite Hrest. lia.
Qed.

Lemma ref_tree_full H l : l <> [] -> full (ref_tree H l).
Proof.
  revert l. apply split_ind; [done|].
  intros e l1 l2 H1 H2 IH1 IH2. by rewrite (ref_tree_split H e).
Qed.

Lemma ref_tree_leaves H l : tree_leaves (ref_tree H l) = l.
Proof.
  destruct (decide (l = [])) as [->|Hl]; [done|].
  revert l Hl. apply split_ind; [done|].
  intros e l1 l2 H1 H2 IH1 IH2. rewrite (ref_tree_split H e) by done.
  cbn. by rewrite IH1, IH2.
Qed.

Lemma ref_tree_iter H l : tree_iter (ref_tree H l) = l.
Proof.
  destruct (decide (l = [])) as [->|Hl]; [done|].
  rewrite tree_iter_leaves by by apply ref_tree_full. apply ref_tree_leaves.
Qed.

(** ** [count_bits] *)
Fixpoint pos_bits (p : positive) : nat :=
  match p with
  | xH => 1
  | xO q => pos_bits q
  | xI q => S (pos_bits q)
  end.

Definition N_bits (n : N) : nat := match n with N0 => 0 | Npos p => pos_bits p end.

Lemma N_bits_double n : N_bits (2 * n) = N_bits n.
Proof. by destruct n. Qed.

Lemma land_pred_even q :
  N.land (Npos (xO q)) (Npos (xO q) - 1) = (2 * N.land (Npos q) (Npos q - 1))%N.
Proof.
  apply N.bits_inj. intros [|p].
  - by rewrite N.land_spec, N.testbit_even_0.
  - rewrite N.land_spec. replace (Npos (xO q)) with (2 * Npos q)%N by lia.
    replace (2 * Npos q - 1)%N with (2 * (Npos q - 1) + 1)%N by lia.
    replace (N.pos p) with (N.succ (N.pos p - 1)) by lia.
    rewrite !N.testbit_even_succ, N.testbit_odd_succ by lia.
    by rewrite N.land_spec.
Qed.

Lemma land_pred_odd q : N.land (Npos (xI q)) (Npos (xI q) - 1) = Npos (xO q).
Proof.
  replace (Npos (xI q) - 1)%N with (Npos (xO q)) by lia.
  apply N.bits_inj. intros [|p]; rewrite N.land_spec; [done|].
  replace (Npos (xI q)) with (2 * Npos q + 1)%N by lia.
  replace (Npos (xO q)) with (2 * Npos q)%N by lia.
  replace (N.pos p) with (N.succ (N.pos p - 1)) by lia.
  rewrite N.testbit_even_succ, N.testbit_odd_succ by lia. apply andb_diag.
Qed.

(** [val &= val - 1] clears exactly one set bit. *)
Lemma N_bits_land_pred p : S (N_bits (N.land (Npos p) (Npos p - 1))) = pos_bits p.
Proof.
  induction p as [q _|q IH|]; [by rewrite land_pred_odd| |done].
  by rewrite land_pred_even, N_bits_double.
Qed.

Lemma pos_bits_pos p : 1 <= pos_bits p.
Proof. induction p; cbn; lia. Qed.

Lemma count_bits_loop_spec fuel v ret :
  N_bits v <= fuel -> count_bits_loop fuel v ret = ret + N_bits v.
Proof.
  revert v ret. induction fuel as [|fuel IH]; intros [|p] ret Hf; cbn [N_bits] in *;
    [cbn; lia| |cbn; lia|].
  - pose proof (pos_bits_pos p). lia.
  - cbn [count_bits_loop]. rewrite (proj2 (N.eqb_neq _ _)) by done.
    pose proof (N_bits_land_pred p). rewrite IH by lia. lia.
Qed.

Lemma pos_bits_lt p k : (Npos p < 2 ^ N.of_nat k)%N -> pos_bits p <= k.
Proof.
  revert k. induction p as [q IH|q IH|]; intros k Hk; cbn [pos_bits].
  1,2: destruct k as [|k]; [cbn in Hk; lia|];
    rewrite Nat2N.inj_succ, N.pow_succ_r' in Hk;
    specialize (IH k ltac:(lia)); lia.
  destruct k; [cbn in Hk; lia|lia].
Qed.

Lemma pos_bits_one p : pos_bits p = 1 <-> exists e, Pos.to_nat p = 2 ^ e.
Proof.
  induction p as [q IH|q IH|]; cbn [pos_bits].
  - pose proof (pos_bits_pos q). split; [lia|]. intros [[|e] He]; [cbn in He; lia|].
    rewrite Nat.pow_succ_r' in He. lia.
  - rewrite IH. split.
    + intros [e He]. exists (S e). rewrite Nat.pow_succ_r'. lia.
    + intros [[|e] He]; [cbn in He; lia|]. exists e. rewrite Nat.pow_succ_r' in He. lia.
  - split; [|done]. by exists 0.
Qed.

Lemma count_bits_pow2 v :
  (N.of_nat v < 2 ^ 64)%N -> count_bits v = 1 <-> exists e, v = 2 ^ e.
Proof.
  intros Hv. unfold count_bits. destruct v as [|v].
  - split; [done|]. intros [e He]. symmetry in He. by apply Nat.pow_nonzero in He.
  - cbn [N.of_nat] in *. rewrite count_bits_loop_spec by (apply pos_bits_lt; exact Hv).
    change (0 + N_bits (N.of_nat (S v))) with (pos_bits (Pos.of_succ_nat v)).
    by rewrite pos_bits_one, SuccNat2Pos.id_succ.
Qed.

(** ** Main theorems *)
Section Main.
Context (digest : bytes -> outcome bytes) (H : bytes -> bytes).
Context (digest_total : forall b, digest b = Ok (H b)).

Lemma new_leaf_ref v : new_leaf digest v = Ok (ref_leaf H v).
Proof. unfold new_leaf, hash_leaf. by rewrite digest_total. Qed.

(** [merkle_of H []] is [mt_default]. *)
Lemma from_vec_ref l : from_vec digest l = Ok (merkle_of H l).
Proof.
  unfold from_vec. case_bool_decide as Hl; [by subst|].
  rewrite (omapM_total _ (ref_leaf H)) by apply new_leaf_ref. cbn [obind].
  rewrite (build_levels_join _ H digest_total).
  - cbn [obind]. unfold merkle_of, ref_tree. by rewrite length_fmap.
  - intros E. by apply fmap_nil_inv in E.
  - by rewrite length_fmap.
Qed.

Lemma append_pow2 e l v :
  length l = 2 ^ e -> (N.of_nat (length l) < 2 ^ 64)%N ->
  append digest (merkle_of H l) v = Ok (merkle_of H (l ++ [v])).
Proof.
  intros Hl Hb. assert (0 < 2 ^ e) by (apply Nat.neq_0_lt_0, Nat.pow_nonzero; lia).
  assert (Hne : l <> []) by (intros ->; cbn in *; lia).
  assert (Hc : count_bits (length l) = 1) by (apply count_bits_pow2; eauto).
  assert (Hlen : length (l ++ [v]) = 2 ^ e + 1) by (rewrite length_app; cbn; lia).
  assert (Htree : ref_tree H (l ++ [v]) = ref_node H (ref_tree H l) (ref_leaf H v))
    by (apply (ref_tree_split H e); [done|cbn; lia]).
  unfold append. cbn [count merkle_of root]. rewrite bool_decide_eq_false_2 by lia.
  rewrite bool_decide_eq_true_2 by done. cbn [negb]. rewrite from_vec_ref. cbn [obind].
  assert (Hm : merkle_of H (l ++ [v]) =
    mkMerkleTree (ref_node H (ref_tree H l) (ref_leaf H v)) (Nat.log2_up (length l) + 1)
      (length l + 1) (length l - 1 + 1)).
  { unfold merkle_of. rewrite Htree, Hlen, Hl, log2_up_split by lia.
    rewrite Nat.log2_up_pow2 by lia. f_equal; lia. }
  rewrite Hm. pose proof (ref_tree_full H l Hne) as Hfull.
  destruct (ref_tree H l) as [h|h w|h t1 t2] eqn:E; [done| |].
  - destruct l as [|x [|y l]]; [done| |].
    + injection E as <- <-. cbn -[Nat.log2_up]. unfold hash_nodes. rewrite digest_total.
      cbn [obind]. rewrite new_leaf_ref. done.
    + destruct (list_split_exists (x :: y :: l)) as (e' & l1 & l2 & E' & H1 & H2);
        [cbn; lia|]. rewrite E', (ref_tree_split H e') in E by done. done.
  - cbn [obind]. unfold hash_nodes. rewrite digest_total. done.
Qed.

Lemma append_not_pow2 l v :
  1 <= length l -> ~ (exists e, length l = 2 ^ e) -> (N.of_nat (length l) < 2 ^ 64)%N ->
  append digest (merkle_of H l) v = Ok (merkle_of H (l ++ [v])).
Proof.
  intros Hl Hp Hb.
  assert (Hc : count_bits (length l) <> 1) by (by rewrite count_bits_pow2).
  destruct (list_split_exists l) as (e & l1 & l2 & -> & H1 & H2).
  { destruct (decide (length l = 1)) as [E|]; [|lia]. destruct Hp. by exists 0. }
  assert (H2' : length l2 < 2 ^ e).
  { destruct (decide (length l2 = 2 ^ e)) as [E|]; [|lia]. destruct Hp. exists (S e).
    rewrite length_app, Nat.pow_succ_r'. lia. }
  unfold append. cbn [count merkle_of root]. rewrite bool_decide_eq_false_2 by lia.
  rewrite bool_decide_eq_false_2 by done. cbn [negb].
  rewrite (ref_tree_split H e l1 l2) by done. cbn [ref_node].
  rewrite ref_tree_iter, from_vec_ref. cbn [obind root_hash merkle_of root].
  unfold hash_nodes. rewrite digest_total. cbn [obind].
  unfold merkle_of. rewrite <-app_assoc.
  rewrite (ref_tree_split H e l1 (l2 ++ [v])) by (rewrite ?length_app; cbn [length]; lia).
  rewrite !length_app, H1. cbn [length].
  rewrite !log2_up_split by lia. cbn [height nodes_count]. f_equal. f_equal; try done; lia.
Qed.

Lemma append_ref l v :
  (N.of_nat (length l) < 2 ^ 64)%N ->
  append digest (merkle_of H l) v = Ok (merkle_of H (l ++ [v])).
Proof.
  intros Hb. destruct (decide (length l = 0)) as [Hz|Hz].
  { clear Hb. apply nil_length_inv in Hz as ->.
    unfold append. cbn [count merkle_of length]. by rewrite new_leaf_ref. }
  destruct (decide (length l = 2 ^ Nat.log2 (length l))) as [E|E].
  - eapply append_pow2; [exact E|exact Hb].
  - apply append_not_pow2; [lia| |exact Hb]. intros [e He]. destruct E.
    by rewrite He, Nat.log2_pow2 by lia.
Qed.
End Main.

(** ** Properties *)

(** A concrete digest for the witnesses: the length and the sum of the input,
    two cells wide. *)
Definition demo_hash (b : bytes) : bytes :=
  [Z.of_nat (length b); foldr (fun x acc => (x + 3 * acc) mod 1000003)%Z 7%Z b].
Definition demo_digest (b : bytes) : outcome bytes := Ok (demo_hash b).

Section Properties.
Context (digest : bytes -> outcome bytes) (H : bytes -> bytes).

(** C17: Appending a transaction to the tree [from_vec] builds from a list
    succeeds and gives exactly the tree [from_vec] builds from the longer list:
    same nodes, same hashes, same [height], [count] and [nodes_count].  The
    list may have any length a [usize] counter can hold; hashing succeeds, as
    OpenSSL's SHA-256 does. *)
Theorem append_agrees_with_from_vec l v :
  (forall b, digest b = Ok (H b)) -> (N.of_nat (length l) < 2 ^ 64)%N ->
  obind (from_vec digest l) (fun t => append digest t v) = from_vec digest (l ++ [v]).
Proof.
  intros Hd Hb. rewrite !(from_vec_ref _ H Hd). cbn [obind]. by apply append_ref.
Qed.


(** The stored counters of any tree built by [from_vec] followed by any number
    of [append]s agree with the tree itself: [count] with [get_count], [height]
    with [get_height], [nodes_count] is [count - 1], and iterating over the
    leaves returns the values in order. *)
Theorem append_all_counters l vs :
  (forall b, digest b = Ok (H b)) -> (N.of_nat (length (l ++ vs)) < 2 ^ 64)%N ->
  exists t, obind (from_vec digest l) (fun t => append_all digest t vs) = Ok t /\
    count t = get_count (root t) /\ height t = get_height (root t) /\
    nodes_count t = count t - 1 /\ tree_iter (root t) = l ++ vs.
Proof.
  intros Hd Hb. exists (merkle_of H (l ++ vs)). split.
  - rewrite (from_vec_ref _ H Hd). cbn [obind]. revert l Hb.
    induction vs as [|v vs IH]; intros l Hb; [by rewrite app_nil_r|].
    cbn [append_all]. rewrite (append_ref _ H Hd).
    + cbn [obind]. rewrite IH; rewrite <-app_assoc; [reflexivity|exact Hb].
    + rewrite length_app in Hb. lia.
  - cbn [count height nodes_count root merkle_of].
    by rewrite ref_tree_count, ref_tree_height, ref_tree_iter.
Qed.
End Properties.

Definition demo_values : list bytes := [[1]; [2; 3]; []; [4; 4]; [5]]%Z.

Lemma append_agrees_with_from_vec_witness :
  obind (from_vec demo_digest demo_values) (fun t => append demo_digest t [9]%Z) =
  from_vec demo_digest (demo_values ++ [[9]%Z]).
Proof.
  apply (append_agrees_with_from_vec demo_digest demo_hash); [done|vm_compute; done].
Defined.


Lemma append_all_counters_witness :
  exists t, obind (from_vec demo_digest demo_values)
      (fun t => append_all demo_digest t [[9]; [8; 8]]%Z) = Ok t /\
    count t = get_count (root t) /\ height t = get_height (root t) /\
    nodes_count t = count t - 1 /\ tree_iter (root t) = demo_values ++ [[9]; [8; 8]]%Z.
Proof.
  apply (append_all_counters demo_digest demo_hash); [done|vm_compute; done].
Defined.
