(* ===== verification/MerkleProof.v ===== *)
(** * Inclusion proofs

    [libindy/src/services/ledger/merkletree/proof.rs] and [gen_proof] of
    [merkletree.rs].  The theorems: a generated proof validates, generation finds
    exactly the values of the tree, and an accepted proof leads to a node of the
    tree, unless the hash function collides on one of the inputs hashed by the
    tree and the verifier.  [validate] never looks at the [value] of the proof. *)

From stdpp Require Import base list strings numbers sets.
From Stdlib Require Import ZArith Lia.
From S2P Require Import Prelude MerkleTree.

(** [Positioned<Vec<u8>>]. *)
Inductive Positioned :=
  | PLeft (hash : bytes)
  | PRight (hash : bytes).

(** [Lemma] of [proof.rs]. *)
Inductive MLemma :=
  mkLemma (node_hash : bytes) (sibling_hash : option Positioned) (sub_lemma : option MLemma).

Definition node_hash (l : MLemma) : bytes := let '(mkLemma h _ _) := l in h.

(** [Proof] of [proof.rs]. *)
Record Proof := mkProof {
  proof_root_hash : bytes;
  proof_lemma : MLemma;
  proof_value : bytes
}.

(** [Lemma::new_leaf_proof]. *)
Definition new_leaf_proof (hash needle : bytes) : option MLemma :=
  if bool_decide (hash = needle) then Some (mkLemma hash None None) else None.

(** [Lemma::new] and [Lemma::new_tree_proof]: the left subtree first. *)
Fixpoint lemma_new (tree : Tree) (needle : bytes) : option MLemma :=
  match tree with
  | Empty _ => None
  | Leaf hash _ => new_leaf_proof hash needle
  | Node hash lhs rhs =>
      match
        match lemma_new lhs needle with
        | Some lemma => Some (lemma, Some (PRight (tree_hash rhs)))
        | None =>
            match lemma_new rhs needle with
            | Some lemma => Some (lemma, Some (PLeft (tree_hash lhs)))
            | None => None
            end
        end
      with
      | Some (sub_lemma, sibling_hash) => Some (mkLemma hash sibling_hash (Some sub_lemma))
      | None => None
      end
  end.

Section Ops.
Context (digest : bytes -> outcome bytes).

(** [MerkleTree::gen_proof]. *)
Definition gen_proof (self : MerkleTree) (value : bytes) : outcome (option Proof) :=
  let? leaf_hash := hash_leaf digest value in
  Ok (match lemma_new (root self) leaf_hash with
      | Some lemma => Some (mkProof (root_hash self) lemma value)
      | None => None
      end).

(** [Proof::validate_lemma]. *)
Fixpoint validate_lemma (lemma : MLemma) : outcome bool :=
  match lemma with
  | mkLemma node_hash_ sibling_hash sub_lemma =>
      match sub_lemma with
      | None => Ok (bool_decide (sibling_hash = None))
      | Some sub =>
          match sibling_hash with
          | None => Ok false
          | Some (PLeft hash) =>
              let? combined := hash_nodes digest hash (node_hash sub) in
              if bool_decide (combined = node_hash_) then validate_lemma sub else Ok false
          | Some (PRight hash) =>
              let? combined := hash_nodes digest (node_hash sub) hash in
              if bool_decide (combined = node_hash_) then validate_lemma sub else Ok false
          end
      end
  end.

(** [Proof::validate]. *)
Definition validate (self : Proof) (root_hash : bytes) : outcome bool :=
  if negb (bool_decide (proof_root_hash self = root_hash))
     || negb (bool_decide (node_hash (proof_lemma self) = root_hash))
  then Ok false
  else validate_lemma (proof_lemma self).
End Ops.

(** ** Inputs of the hash function *)

(** [H] does not collide on the inputs [S]. *)
Definition no_collision (H : bytes -> bytes) (S : list bytes) : Prop :=
  forall x y, x ∈ S -> y ∈ S -> H x = H y -> x = y.

(** Everything hashed to build a tree. *)
Fixpoint tree_inputs (t : Tree) : list bytes :=
  match t with
  | Empty _ => []
  | Leaf _ v => [0%Z :: v]
  | Node _ l r => (1%Z :: tree_hash l ++ tree_hash r) :: tree_inputs l ++ tree_inputs r
  end.

(** Everything hashed to check a lemma. *)
Fixpoint lemma_inputs (l : MLemma) : list bytes :=
  match l with
  | mkLemma _ (Some (PLeft h)) (Some sub) => (1%Z :: h ++ node_hash sub) :: lemma_inputs sub
  | mkLemma _ (Some (PRight h)) (Some sub) => (1%Z :: node_hash sub ++ h) :: lemma_inputs sub
  | _ => []
  end.

(** The hash the chain of lemmas starts from, the claimed leaf hash. *)
Fixpoint lemma_bottom (l : MLemma) : bytes :=
  match l with
  | mkLemma h _ None => h
  | mkLemma _ _ (Some sub) => lemma_bottom sub
  end.

Inductive subtree (t : Tree) : Tree -> Prop :=
  | subtree_refl : subtree t t
  | subtree_left h l r : subtree t l -> subtree t (Node h l r)
  | subtree_right h l r : subtree t r -> subtree t (Node h l r).
#[export] Hint Constructors subtree : indy.

Lemma MLemma_nested_ind (P : MLemma -> Prop) :
  (forall h s, P (mkLemma h s None)) ->
  (forall h s sub, P sub -> P (mkLemma h s (Some sub))) ->
  forall l, P l.
Proof.
  intros H1 H2. fix IH 1. intros [h s [sub|]]; [apply H2, IH|apply H1].
Qed.

(** Hashes of the nodes are the hashes of their inputs. *)
Fixpoint hashed (H : bytes -> bytes) (t : Tree) : Prop :=
  match t with
  | Empty _ => False
  | Leaf h v => h = H (0%Z :: v)
  | Node h l r => h = H (1%Z :: tree_hash l ++ tree_hash r) /\ hashed H l /\ hashed H r
  end.

Lemma ref_tree_hashed H l : l <> [] -> hashed H (ref_tree H l).
Proof.
  revert l. apply split_ind; [done|].
  intros e l1 l2 H1 H2 IH1 IH2. by rewrite (ref_tree_split H e).
Qed.

Lemma hashed_length H w t :
  (forall b, length (H b) = w) -> hashed H t -> length (tree_hash t) = w.
Proof. intros Hw. destruct t; cbn; naive_solver. Qed.

Lemma no_collision_mono H S S' : no_collision H S -> S' ⊆ S -> no_collision H S'.
Proof. intros Hn Hs x y Hx Hy. apply Hn; by apply Hs. Qed.

Lemma lemma_new_node_hash t needle lem :
  lemma_new t needle = Some lem -> node_hash lem = tree_hash t.
Proof.
  destruct t; cbn; [done| |].
  - unfold new_leaf_proof. case_bool_decide; naive_solver.
  - repeat case_match; naive_solver.
Qed.

Section HashFacts.
Context (H : bytes -> bytes).

Lemma lemma_new_found t needle :
  hashed H t -> (exists v, v ∈ tree_leaves t /\ H (0%Z :: v) = needle) <->
  is_Some (lemma_new t needle).
Proof.
  induction t as [|h v|h l IHl r IHr]; intros Ht; [done| |]; cbn in *.
  - subst h. unfold new_leaf_proof. case_bool_decide as E.
    + split; [eauto|]. intros _. exists v. split; [set_solver|done].
    + split; [|by intros [? ?]]. intros (v' & Hv & <-).
      apply list_elem_of_singleton in Hv as ->. done.
  - destruct Ht as (_ & Hl & Hr). specialize (IHl Hl). specialize (IHr Hr).
    setoid_rewrite elem_of_app. destruct (lemma_new l needle) as [s|] eqn:El.
    + split; [eauto|]. intros _. destruct (proj2 IHl ltac:(eauto)) as (v & Hv & E); eauto.
    + assert (Hno : ~ exists v, v ∈ tree_leaves l /\ H (0%Z :: v) = needle)
        by (rewrite IHl; by intros [? ?]).
      destruct (lemma_new r needle) as [s|] eqn:Er.
      * split; [eauto|]. intros _.
        destruct (proj2 IHr ltac:(eauto)) as (v & Hv & E); eauto.
      * assert (Hno' : ~ exists v, v ∈ tree_leaves r /\ H (0%Z :: v) = needle)
          by (rewrite IHr; by intros [? ?]).
        split; [naive_solver|by intros [? ?]].
Qed.

(** A node hash equal to the hash of a tree comes from that tree's root. *)
Lemma node_input_inv S w a b t :
  (forall x, length (H x) = w) -> hashed H t -> no_collision H S ->
  (1%Z :: a ++ b) ∈ S -> tree_inputs t ⊆ S -> H (1%Z :: a ++ b) = tree_hash t ->
  length a = w \/ length b = w ->
  exists h l r, t = Node h l r /\ a = tree_hash l /\ b = tree_hash r.
Proof.
  intros Hw Ht Hnc Hin Hsub Heq Hlen. destruct t as [|h v|h l r]; [done| |]; cbn in Ht, Heq.
  - subst h. apply Hnc in Heq; [done|done|]. apply Hsub. cbn. set_solver.
  - destruct Ht as (-> & Hl & Hr). apply Hnc in Heq; [|done|apply Hsub; cbn; set_solver].
    injection Heq as Heq. pose proof (hashed_length H w l Hw Hl) as Hll.
    pose proof (hashed_length H w r Hw Hr) as Hlr.
    pose proof (f_equal length Heq) as HL. rewrite !length_app in HL.
    apply app_inj_1 in Heq as [-> ->]; [|lia]. eauto 10.
Qed.
End HashFacts.

Section Facts.
Context (digest : bytes -> outcome bytes) (H : bytes -> bytes).
Context (digest_total : forall b, digest b = Ok (H b)).

(** Every lemma [Lemma::new] builds over a correctly hashed tree validates. *)
Lemma lemma_new_valid t needle lem :
  hashed H t -> lemma_new t needle = Some lem -> validate_lemma digest lem = Ok true.
Proof.
  revert lem. induction t as [|h v|h l IHl r IHr]; intros lem Ht E; [done| |].
  - cbn in E. unfold new_leaf_proof in E. case_bool_decide; naive_solver.
  - destruct Ht as (-> & Hl & Hr). cbn in E.
    destruct (lemma_new l needle) as [s|] eqn:El.
    + simplify_eq. cbn. unfold hash_nodes. rewrite digest_total. cbn.
      rewrite (lemma_new_node_hash _ _ _ El), bool_decide_eq_true_2 by done. eauto.
    + destruct (lemma_new r needle) as [s|] eqn:Er; [|done].
      simplify_eq. cbn. unfold hash_nodes. rewrite digest_total. cbn.
      rewrite (lemma_new_node_hash _ _ _ Er), bool_decide_eq_true_2 by done. eauto.
Qed.

Lemma validate_lemma_head h s sub :
  validate_lemma digest (mkLemma h s (Some sub)) = Ok true ->
  validate_lemma digest sub = Ok true /\
  exists p, (s = Some (PLeft p) /\ h = H (1%Z :: p ++ node_hash sub)) \/
            (s = Some (PRight p) /\ h = H (1%Z :: node_hash sub ++ p)).
Proof.
  cbn [validate_lemma]. unfold hash_nodes. intros Hv. destruct s as [[p|p]|]; [| |done].
  all: rewrite digest_total in Hv; cbn [obind] in Hv; case_bool_decide; [|done]; subst.
  all: split; [done|]; eauto.
Qed.

Lemma validated_length w lem :
  (forall b, length (H b) = w) -> length (lemma_bottom lem) = w ->
  validate_lemma digest lem = Ok true -> length (node_hash lem) = w.
Proof.
  intros Hw Hb Hv. destruct lem as [h s [sub|]]; [|done].
  apply validate_lemma_head in Hv as (_ & p & [[_ ->]|[_ ->]]); apply Hw.
Qed.

(** An accepted chain of lemmas walks down the tree. *)
Lemma validate_lemma_descends w S lem t :
  (forall b, length (H b) = w) -> hashed H t -> length (lemma_bottom lem) = w ->
  no_collision H S -> tree_inputs t ⊆ S -> lemma_inputs lem ⊆ S ->
  node_hash lem = tree_hash t -> validate_lemma digest lem = Ok true ->
  exists t', subtree t' t /\ tree_hash t' = lemma_bottom lem.
Proof.
  intros Hw Ht Hbot Hnc. revert t Ht.
  induction lem as [h s|h s sub IH] using MLemma_nested_ind;
    intros t Ht Hts Hls Hh Hv; cbn [node_hash lemma_bottom] in *; [eauto with indy|].
  apply validate_lemma_head in Hv as (Hv & p & Hp).
  pose proof (validated_length w sub Hw Hbot Hv) as Hlen.
  destruct Hp as [[-> ->]|[-> ->]]; cbn in Hls.
  - destruct (node_input_inv H S w p (node_hash sub) t) as (h & l & r & -> & _ & Hr);
      [done|done|done|set_solver|done|done|by right|].
    destruct Ht as (_ & _ & Ht). cbn in Hts.
    destruct (IH Hbot r Ht) as (t' & Hs & E); [set_solver|set_solver|done|done|].
    eauto with indy.
  - destruct (node_input_inv H S w (node_hash sub) p t) as (h & l & r & -> & Hl & _);
      [done|done|done|set_solver|done|done|by left|].
    destruct Ht as (_ & Ht & _). cbn in Hts.
    destruct (IH Hbot l Ht) as (t' & Hs & E); [set_solver|set_solver|done|done|].
    eauto with indy.
Qed.
End Facts.

Lemma gen_proof_valid_aux digest H v l t :
  (forall b, digest b = Ok (H b)) -> from_vec digest l = Ok t -> v ∈ l ->
  exists p, gen_proof digest t v = Ok (Some p) /\ validate digest p (root_hash t) = Ok true.
Proof.
  intros Hd E Hv. rewrite (from_vec_ref _ H Hd) in E. injection E as <-.
  assert (Hl : l <> []) by (intros ->; by apply elem_of_nil in Hv).
  pose proof (ref_tree_hashed H l Hl) as Hh.
  destruct (proj1 (lemma_new_found H _ (H (0%Z :: v)) Hh)) as [lem El].
  { exists v. by rewrite ref_tree_leaves. }
  exists (mkProof (mth H l) lem v). unfold gen_proof, hash_leaf. rewrite Hd. cbn.
  rewrite El. split; [done|]. unfold validate. cbn.
  rewrite (lemma_new_node_hash _ _ _ El), !bool_decide_eq_true_2 by done. cbn.
  by eapply lemma_new_valid.
Qed.

(** [no_collision] on a concrete list is decided by comparing all pairs. *)
Lemma no_collision_dec H S :
  forallb (fun x => forallb (fun y =>
    bool_decide (x = y) || negb (bool_decide (H x = H y))) S) S = true ->
  no_collision H S.
Proof.
  intros Hf x y Hx Hy Hxy. rewrite forallb_forall in Hf.
  specialize (Hf x (proj1 (list_elem_of_In _ _) Hx)). rewrite forallb_forall in Hf.
  specialize (Hf y (proj1 (list_elem_of_In _ _) Hy)).
  apply orb_true_iff in Hf as [Hf|Hf]; [by apply bool_decide_eq_true in Hf|].
  by rewrite bool_decide_eq_true_2 in Hf.
Qed.

(** ** Properties *)
Section Properties.
Context (digest : bytes -> outcome bytes) (H : bytes -> bytes).

(** For every tree built by [from_vec] and every value in it, [gen_proof]
    returns a proof, and that proof is accepted against the root hash. *)
Theorem gen_proof_validates l v t :
  (forall b, digest b = Ok (H b)) -> from_vec digest l = Ok t -> v ∈ l ->
  exists p, gen_proof digest t v = Ok (Some p) /\ validate digest p (root_hash t) = Ok true.
Proof.
  apply gen_proof_valid_aux.
Qed.

(** [gen_proof] returns no proof for a value that is not in the tree, unless
    the leaf hash of that value collides with the leaf hash of a member. *)
Theorem gen_proof_none l v t :
  (forall b, digest b = Ok (H b)) -> from_vec digest l = Ok t -> v ∉ l ->
  no_collision H ((0%Z :: v) :: map (cons 0%Z) l) ->
  gen_proof digest t v = Ok None.
Proof.
  intros Hd E Hv Hnc. rewrite (from_vec_ref _ H Hd) in E. injection E as <-.
  unfold gen_proof, hash_leaf. rewrite Hd. cbn.
  destruct (lemma_new (ref_tree H l) (H (0%Z :: v))) as [lem|] eqn:El; [|done].
  destruct (decide (l = [])) as [->|Hl]; [done|].
  destruct (proj2 (lemma_new_found H _ (H (0%Z :: v)) (ref_tree_hashed H l Hl)))
    as (v' & Hv' & Hc); [by eexists|].
  rewrite ref_tree_leaves in Hv'. apply Hnc in Hc; [congruence| |set_solver].
  apply elem_of_cons. right. apply list_elem_of_fmap. eauto.
Qed.

(** An accepted proof, checked against the root hash of the tree over [l],
    starts from the hash of a node of that tree: no chain of lemmas reaches the
    root from a hash that is not in the tree.  The hash must not collide on the
    inputs hashed by the tree and the verifier, digests have a fixed width, and
    the first hash of the chain has that width. *)
Theorem validate_sound w l p :
  (forall b, digest b = Ok (H b)) -> (forall b, length (H b) = w) -> l <> [] ->
  length (lemma_bottom (proof_lemma p)) = w ->
  no_collision H (tree_inputs (ref_tree H l) ++ lemma_inputs (proof_lemma p)) ->
  validate digest p (mth H l) = Ok true ->
  exists t, subtree t (ref_tree H l) /\ tree_hash t = lemma_bottom (proof_lemma p).
Proof.
  intros Hd Hw Hl Hb Hnc Hv. unfold validate in Hv.
  destruct (bool_decide (node_hash (proof_lemma p) = mth H l)) eqn:E1;
    [|by rewrite orb_true_r in Hv].
  case_bool_decide; [|done]. cbn in Hv. apply bool_decide_eq_true in E1.
  by eapply (validate_lemma_descends digest H Hd w); [..|exact Hv]; eauto using ref_tree_hashed;
    set_solver.
Qed.

(** [validate] does not tie the proof to its [value]: over any non-empty tree
    and for any bytes [v], member or not, replacing the value of a genuine proof
    by [v] gives a [Proof] that claims [v] and is accepted.  (The comment on
    [Proof] says it represents the fact that [value] is a member of the tree.) *)
Theorem validate_accepts_any_value l t v :
  (forall b, digest b = Ok (H b)) -> from_vec digest l = Ok t -> l <> [] ->
  exists p m q, proof_value p = v /\ m ∈ l /\ gen_proof digest t m = Ok (Some q) /\
    p = mkProof (proof_root_hash q) (proof_lemma q) v /\
    validate digest p (root_hash t) = Ok true.
Proof.
  intros Hd E Hl. destruct l as [|m l]; [done|].
  destruct (gen_proof_valid_aux digest H m (m :: l) t Hd E) as (q & Hq & Hv); [set_solver|].
  exists (mkProof (proof_root_hash q) (proof_lemma q) v), m, q.
  split_and!; [done|set_solver|done|done|]. destruct q. exact Hv.
Qed.
End Properties.

(** ** Witnesses *)
Definition demo_tree : MerkleTree := merkle_of demo_hash demo_values.

Lemma gen_proof_validates_witness :
  exists p, gen_proof demo_digest demo_tree [5]%Z = Ok (Some p) /\
    validate demo_digest p (root_hash demo_tree) = Ok true.
Proof.
  apply (gen_proof_validates demo_digest demo_hash demo_values); [done|by vm_compute|].
  unfold demo_values. set_solver.
Defined.

Lemma gen_proof_none_witness : gen_proof demo_digest demo_tree [77]%Z = Ok None.
Proof.
  apply (gen_proof_none demo_digest demo_hash demo_values); [done|by vm_compute| |].
  - unfold demo_values. set_solver.
  - apply no_collision_dec. by vm_compute.
Defined.

Lemma validate_accepts_any_value_witness :
  exists p m q, proof_value p = [77]%Z /\ m ∈ demo_values /\
    gen_proof demo_digest demo_tree m = Ok (Some q) /\
    p = mkProof (proof_root_hash q) (proof_lemma q) [77]%Z /\
    validate demo_digest p (root_hash demo_tree) = Ok true.
Proof.
  apply (validate_accepts_any_value demo_digest demo_hash); [done|by vm_compute|done].
Defined.

(** The hand-made proof that the third value of [demo_values] is in the tree. *)
Definition demo_proof : Proof :=
  match gen_proof demo_digest demo_tree [4; 4]%Z with
  | Ok (Some p) => p
  | _ => mkProof [] (mkLemma [] None None) []
  end.

Lemma validate_sound_witness :
  exists t, subtree t (ref_tree demo_hash demo_values) /\
    tree_hash t = lemma_bottom (proof_lemma demo_proof).
Proof.
  apply (validate_sound demo_digest demo_hash 2); [done|done|done|by vm_compute| |by vm_compute].
  apply no_collision_dec. vm_compute. done.
Defined.
