(* ===== verification/Consistency.v ===== *)
(** * Consistency proofs

    [MerkleTree::consistency_proof] of
    [libindy/src/services/ledger/merkletree/mod.rs], the check catch-up relies on
    before it trusts the transactions a node sent.

    The theorems: the proof of the ledger's history, computed by [gen_consistency]
    from the larger tree, is accepted (completeness); an accepted proof shows that
    the old leaves are a prefix of the new ones, unless the hash collides on an
    input that one of the two trees or the verifier hashes (soundness); a target
    smaller than the tree makes the code panic. *)

From stdpp Require Import base list strings numbers sets.
From Stdlib Require Import ZArith Lia.
From S2P Require Import Prelude MerkleTree MerkleProof.

(** [while old_node % 2 != 0 { old_node /= 2; new_node /= 2; }] *)
Fixpoint skip_odd (fuel old_node new_node : nat) : nat * nat :=
  match fuel with
  | 0 => (old_node, new_node)
  | S fuel' =>
      if negb (old_node mod 2 =? 0) then skip_odd fuel' (old_node / 2) (new_node / 2)
      else (old_node, new_node)
  end.

Section Verifier.
Context (digest : bytes -> outcome bytes).

(** [while old_node != 0 { .. }]; [None] is the early [return Ok(false)] when the
    proof has run out of hashes.  The state is [new_node], the two hashes and
    the rest of the [proofs] iterator. *)
Fixpoint old_loop (fuel old_node new_node : nat) (old_hash new_hash : bytes)
    (proofs : list bytes) : outcome (option (nat * bytes * bytes * list bytes)) :=
  match fuel with
  | 0 => Ok (Some (new_node, old_hash, new_hash, proofs))
  | S fuel' =>
      if old_node =? 0 then Ok (Some (new_node, old_hash, new_hash, proofs))
      else if negb (old_node mod 2 =? 0) then
        match proofs with
        | [] => Ok None
        | next_proof :: proofs' =>
            let? old_hash' := hash_nodes digest next_proof old_hash in
            let? new_hash' := hash_nodes digest next_proof new_hash in
            old_loop fuel' (old_node / 2) (new_node / 2) old_hash' new_hash' proofs'
        end
      else if old_node <? new_node then
        match proofs with
        | [] => Ok None
        | n :: proofs' =>
            let? new_hash' := hash_nodes digest new_hash n in
            old_loop fuel' (old_node / 2) (new_node / 2) old_hash new_hash' proofs'
        end
      else old_loop fuel' (old_node / 2) (new_node / 2) old_hash new_hash proofs
  end.

(** [while new_node != 0 { .. }] *)
Fixpoint new_loop (fuel new_node : nat) (new_hash : bytes) (proofs : list bytes)
  : outcome (option bytes) :=
  match fuel with
  | 0 => Ok (Some new_hash)
  | S fuel' =>
      if new_node =? 0 then Ok (Some new_hash)
      else
        match proofs with
        | [] => Ok None
        | n :: proofs' =>
            let? new_hash' := hash_nodes digest new_hash n in
            new_loop fuel' (new_node / 2) new_hash' proofs'
        end
  end.

(** [MerkleTree::consistency_proof].  A node number is more than halved away
    after as many rounds as its own value, so [count] and [new_size] are fuel
    enough. *)
Definition consistency_proof (self : MerkleTree) (new_root_hash : bytes) (new_size : nat)
    (proof : list bytes) : outcome bool :=
  if count self =? 0 then Ok true
  else if (count self =? new_size) && bool_decide (root_hash self = new_root_hash)
  then Ok true
  else if new_size <? count self then Panic
  else
    let (old_node, new_node) := skip_odd (count self) (count self - 1) (new_size - 1) in
    match
      (if negb (old_node =? 0)
       then match proof with
            | [] => None
            | h :: proofs => Some (h, h, proofs)
            end
       else Some (root_hash self, root_hash self, proof))
    with
    | None => Ok false
    | Some (old_hash, new_hash, proofs) =>
        let? r := old_loop (count self) old_node new_node old_hash new_hash proofs in
        match r with
        | None => Ok false
        | Some (new_node, old_hash, new_hash, proofs) =>
            let? r := new_loop new_size new_node new_hash proofs in
            match r with
            | None => Ok false
            | Some new_hash =>
                if negb (bool_decide (new_hash = new_root_hash)) then Ok false
                else if negb (bool_decide (old_hash = root_hash self)) then Ok false
                else Ok true
            end
        end
    end.
End Verifier.

(** ** One loop over the levels

    [old_loop] followed by [new_loop] climbs one level of the two trees per
    round; [levels] is the two loops as one, with the inputs it hashes. *)
Section Levels.
Context (H : bytes -> bytes).

Fixpoint levels (fuel q r : nat) (o w : bytes) (ps : list bytes)
  : option (bytes * bytes * list bytes) :=
  match fuel with
  | 0 => Some (o, w, [])
  | S fuel' =>
      if r =? 0 then Some (o, w, [])
      else if negb (q mod 2 =? 0) then
        match ps with
        | [] => None
        | p :: ps' =>
            match levels fuel' (q / 2) (r / 2) (H (1%Z :: p ++ o)) (H (1%Z :: p ++ w)) ps' with
            | Some (o', w', tr) => Some (o', w', (1%Z :: p ++ o) :: (1%Z :: p ++ w) :: tr)
            | None => None
            end
        end
      else if q <? r then
        match ps with
        | [] => None
        | p :: ps' =>
            match levels fuel' (q / 2) (r / 2) o (H (1%Z :: w ++ p)) ps' with
            | Some (o', w', tr) => Some (o', w', (1%Z :: w ++ p) :: tr)
            | None => None
            end
        end
      else levels fuel' (q / 2) (r / 2) o w ps
  end.

(** The inputs the verifier hashes on the proof [ps] of [n] leaves from [m]. *)
Definition consistency_inputs (m n : nat) (root : bytes) (ps : list bytes) : list bytes :=
  let (q, r) := skip_odd m (m - 1) (n - 1) in
  match
    (if negb (q =? 0) then match ps with [] => None | h :: ps' => levels n q r h h ps' end
     else levels n q r root root ps)
  with
  | Some (_, _, tr) => tr
  | None => []
  end.
End Levels.

Lemma div2_lt n : n <> 0 -> n / 2 < n.
Proof. intros. apply Nat.div_lt; lia. Qed.

Lemma div2_le a b : a <= b -> a / 2 <= b / 2.
Proof. intros. apply Nat.Div0.div_le_mono. lia. Qed.

Section LoopFacts.
Context (digest : bytes -> outcome bytes) (H : bytes -> bytes).
Context (digest_total : forall b, digest b = Ok (H b)).

Lemma new_loop_levels fuel1 fuel2 r o w ps :
  r <= fuel1 -> r <= fuel2 ->
  new_loop digest fuel1 r w ps = Ok (option_map (fun x => snd (fst x)) (levels H fuel2 0 r o w ps))
  /\ forall o' w' tr, levels H fuel2 0 r o w ps = Some (o', w', tr) -> o' = o.
Proof.
  revert fuel2 r w ps. induction fuel1 as [|f1 IH]; intros f2 r w ps H1 H2.
  { assert (r = 0) as -> by lia. destruct f2; cbn; naive_solver. }
  destruct (decide (r = 0)) as [->|Hr]; [destruct f2; cbn; naive_solver|].
  destruct f2 as [|f2]; [lia|]. cbn [new_loop levels].
  rewrite (proj2 (Nat.eqb_neq r 0)) by done. cbn [Nat.modulo Nat.divmod fst snd Nat.sub Nat.eqb negb].
  rewrite (proj2 (Nat.ltb_lt 0 r)) by lia.
  destruct ps as [|p ps]; [done|]. unfold hash_nodes. rewrite digest_total. cbn [obind].
  pose proof (div2_lt r Hr).
  destruct (IH f2 (r / 2) (H (1%Z :: w ++ p)) ps) as [E1 E2]; [lia..|].
  rewrite E1. change (0 / 2) with 0.
  destruct (levels H f2 0 (r / 2) o (H (1%Z :: w ++ p)) ps) as [[[a b] c]|]; cbn; naive_solver.
Qed.

(** The two loops of the code in sequence. *)
Definition both_loops (f1 f2 q r : nat) (o w : bytes) (ps : list bytes)
  : outcome (option (bytes * bytes)) :=
  let? x := old_loop digest f1 q r o w ps in
  match x with
  | None => Ok None
  | Some (r, o, w, ps) =>
      let? y := new_loop digest f2 r w ps in
      Ok (option_map (fun w => (o, w)) y)
  end.

Lemma both_loops_levels f1 f2 f3 q r o w ps :
  q <= f1 -> q <= r -> r <= f2 -> r <= f3 ->
  both_loops f1 f2 q r o w ps = Ok (option_map fst (levels H f3 q r o w ps)).
Proof.
  revert f3 q r o w ps. induction f1 as [|f1 IH]; intros f3 q r o w ps H1 H2 H3 H4;
    unfold both_loops; cbn [old_loop].
  { assert (q = 0) as -> by lia. cbn [obind].
    destruct (new_loop_levels f2 f3 r o w ps) as [E1 E2]; [lia..|]. rewrite E1. cbn.
    destruct (levels H f3 0 r o w ps) as [[[a b] c]|]; cbn; naive_solver. }
  destruct (decide (q = 0)) as [->|Hq]; cbn [Nat.eqb].
  { cbn [obind]. destruct (new_loop_levels f2 f3 r o w ps) as [E1 E2]; [lia..|]. rewrite E1. cbn.
    destruct (levels H f3 0 r o w ps) as [[[a b] c]|]; cbn; naive_solver. }
  rewrite (proj2 (Nat.eqb_neq q 0)) by done.
  destruct f3 as [|f3]; [lia|]. cbn [levels]. rewrite (proj2 (Nat.eqb_neq r 0)) by lia.
  pose proof (div2_lt q Hq). pose proof (div2_lt r ltac:(lia)). pose proof (div2_le q r H2).
  destruct (negb (q mod 2 =? 0)) eqn:Eodd.
  - destruct ps as [|p ps]; [done|]. unfold hash_nodes. rewrite !digest_total. cbn [obind].
    etransitivity; [apply (IH f3); lia|].
    by destruct (levels _ _ _ _ _ _ _) as [[[a b] c]|].
  - destruct (q <? r) eqn:Elt.
    + destruct ps as [|p ps]; [done|]. unfold hash_nodes. rewrite !digest_total. cbn [obind].
      etransitivity; [apply (IH f3); lia|].
      by destruct (levels _ _ _ _ _ _ _) as [[[a b] c]|].
    + apply IH; lia.
Qed.

(** [skip_odd] strips the trailing ones. *)
Lemma skip_odd_spec fuel q r q' r' :
  q < fuel -> q <= r -> skip_odd fuel q r = (q', r') ->
  exists s, q' mod 2 = 0 /\ q' <= r' /\ q' <= q /\ r' <= r /\
    q + 1 = (q' + 1) * 2 ^ s /\ r' * 2 ^ s <= r < (r' + 1) * 2 ^ s.
Proof.
  revert q r. induction fuel as [|fuel IH]; intros q r Hf Hqr E; [lia|].
  cbn [skip_odd] in E. pose proof (Nat.div_mod_eq q 2) as Hq.
  pose proof (Nat.div_mod_eq r 2) as Hr. pose proof (Nat.mod_upper_bound r 2).
  pose proof (Nat.mod_upper_bound q 2).
  destruct (q mod 2 =? 0) eqn:Eq; cbn [negb] in E.
  - injection E as <- <-. exists 0. apply Nat.eqb_eq in Eq. rewrite Nat.pow_0_r. lia.
  - apply Nat.eqb_neq in Eq. apply IH in E as (s & ? & ? & ? & ? & He & Hb).
    + exists (S s). rewrite Nat.pow_succ_r'. split_and!; nia.
    + pose proof (div2_lt q ltac:(intros ->; done)). lia.
    + by apply div2_le.
Qed.
End LoopFacts.

(** ** Aligned blocks *)
Definition block {A} (a k : nat) (l : list A) : list A := take k (drop a l).

Lemma block_double {A} a k (l : list A) : block a (k + k) l = block a k l ++ block (a + k) k l.
Proof.
  unfold block. rewrite <-(take_drop k (drop a l)) at 1. rewrite drop_drop.
  destruct (decide (k <= length (drop a l))) as [Hk|Hk].
  - rewrite take_app_ge by (rewrite length_take; lia).
    rewrite length_take, Nat.min_l by done. by replace (k + k - k) with k by lia.
  - rewrite length_drop in Hk. rewrite (drop_ge l (a + k)) by lia.
    by rewrite take_nil, !app_nil_r, take_take, Nat.min_r by lia.
Qed.

Lemma drop_block {A} a k (l : list A) : drop a l = block a k l ++ drop (a + k) l.
Proof. unfold block. by rewrite <-(take_drop k (drop a l)) at 1; rewrite drop_drop. Qed.

Lemma length_block {A} a k (l : list A) : length (block a k l) = Nat.min k (length l - a).
Proof. unfold block. by rewrite length_take, length_drop. Qed.

Lemma take_block {A} a k (l : list A) : take (a + k) l = take a l ++ block a k l.
Proof. unfold block. by rewrite take_take_drop. Qed.

Lemma block_all {A} a k (l : list A) : length l <= a + k -> block a k l = drop a l.
Proof. intros. unfold block. apply take_ge. rewrite length_drop. lia. Qed.

Lemma block_of_take {A} a k m (l : list A) : a + k <= m -> block a k (take m l) = block a k l.
Proof.
  intros Hm. unfold block. rewrite !take_drop_commute, take_take. by rewrite Nat.min_l by lia.
Qed.

Lemma pow2_pos e : 0 < 2 ^ e.
Proof. apply Nat.neq_0_lt_0, Nat.pow_nonzero. lia. Qed.

(** ** Soundness *)
Section Sound.
Context (H : bytes -> bytes) (W : nat) (S : list bytes).
Context (H_width : forall b, length (H b) = W) (S_free : no_collision H S).

Definition inputs (l : list bytes) : list bytes := tree_inputs (ref_tree H l).

Lemma inputs_split e l1 l2 :
  length l1 = 2 ^ e -> 1 <= length l2 <= 2 ^ e ->
  inputs (l1 ++ l2) = (1%Z :: mth H l1 ++ mth H l2) :: inputs l1 ++ inputs l2.
Proof. intros H1 H2. unfold inputs. by rewrite (ref_tree_split H e). Qed.

Lemma mth_width l : l <> [] -> length (mth H l) = W.
Proof. intros Hl. apply (hashed_length H W); [done|by apply ref_tree_hashed]. Qed.

Lemma mth_inj a b :
  a <> [] -> inputs a ⊆ S -> inputs b ⊆ S -> length a = length b -> mth H a = mth H b -> a = b.
Proof.
  intros Ha. revert a Ha b. apply (split_ind (fun a => forall b, _ -> _ -> _ -> _ -> a = b)).
  - intros x b Ha Hb Hl E. destruct b as [|y [|]]; [done| |done].
    cbn in E. apply S_free in E; [congruence|apply Ha; cbn; set_solver|apply Hb; cbn; set_solver].
  - intros e l1 l2 H1 H2 IH1 IH2 b Ha Hb Hl E. rewrite length_app in Hl.
    assert (H3 : length (take (2 ^ e) b) = 2 ^ e) by (rewrite length_take; lia).
    assert (H4 : length (drop (2 ^ e) b) = length l2) by (rewrite length_drop; lia).
    rewrite <-(take_drop (2 ^ e) b) in Hb, E |- *.
    pose proof (pow2_pos e).
    rewrite !(mth_split H e) in E by lia. rewrite (inputs_split e) in Ha, Hb by lia.
    apply S_free in E; [|set_solver|set_solver]. injection E as E.
    apply app_inj_1 in E as [E1 E2].
    + f_equal; [apply IH1|apply IH2]; first [done|set_solver|lia].
    + rewrite !mth_width; [done| |]; intros E'; rewrite E' in *; cbn in *; lia.
Qed.

Context (l L : list bytes).

(** What a pair of hashes at level [e] of the two trees must be. *)
Definition level_ok (e q : nat) (o w : bytes) : Prop :=
  let A := drop (q * 2 ^ e) l in
  let B := block (q * 2 ^ e) (2 ^ e) L in
  take (q * 2 ^ e) l = take (q * 2 ^ e) L /\ inputs A ⊆ S /\ inputs B ⊆ S /\
  (length w = W -> o = mth H A /\ w = mth H B) /\ (o = w -> mth H A = mth H B).

Context (l_in : inputs l ⊆ S) (L_in : inputs L ⊆ S).

Lemma level_ok_odd e q o w p :
  let q' := q / 2 in
  q mod 2 <> 0 -> q * 2 ^ e < length l <= (q + 1) * 2 ^ e -> q * 2 ^ e < length L ->
  (1%Z :: p ++ o) ∈ S -> (1%Z :: p ++ w) ∈ S -> length w = W \/ o = w ->
  level_ok (Datatypes.S e) q' (H (1%Z :: p ++ o)) (H (1%Z :: p ++ w)) ->
  level_ok e q o w.
Proof.
  intros q' Hodd Hl HL Hi1 Hi2 Hc (Hpre & HA & HB & Heq & _).
  assert (Hq : q = 2 * q' + 1).
  { pose proof (Nat.div_mod_eq q 2). pose proof (Nat.mod_upper_bound q 2). unfold q'. lia. }
  specialize (Heq (H_width _)) as [E1 E2]. clear Hodd. clearbody q'. subst q.
  unfold level_ok. rewrite Nat.pow_succ_r' in *. set (k := 2 ^ e) in *.
  pose proof (pow2_pos e : 0 < k) as Hk.
  replace (q' * (2 * k)) with (q' * 2 * k) in * by lia. set (a := q' * 2 * k) in *.
  replace ((2 * q' + 1) * k) with (a + k) in * by lia.
  replace (2 * k) with (k + k) in * by lia.
  rewrite (drop_block a k l) in HA, E1. rewrite block_double in HB, E2.
  assert (HX : length (block a k l) = k) by (rewrite length_block; lia).
  assert (HY : length (block a k L) = k) by (rewrite length_block; lia).
  assert (HdA : 1 <= length (drop (a + k) l) <= k) by (rewrite length_drop; lia).
  assert (HdB : 1 <= length (block (a + k) k L) <= k) by (rewrite length_block; lia).
  rewrite (inputs_split e) in HA, HB by done. rewrite (mth_split H e) in E1, E2 by done.
  apply S_free in E1; [|done|set_solver]. apply S_free in E2; [|done|set_solver].
  injection E1 as E1. injection E2 as E2.
  assert (HwX : length (mth H (block a k l)) = W) by (apply mth_width; intros E; rewrite E in HX; cbn in HX; lia).
  assert (HwY : length (mth H (block a k L)) = W) by (apply mth_width; intros E; rewrite E in HY; cbn in HY; lia).
  assert (HwB : length (mth H (block (a + k) k L)) = W)
    by (apply mth_width; intros E; rewrite E in HdB; cbn in HdB; lia).
  assert (Hw : length w = W -> p = mth H (block a k l) /\ o = mth H (drop (a + k) l) /\
            p = mth H (block a k L) /\ w = mth H (block (a + k) k L)).
  { intros Hw. pose proof (f_equal length E2) as HL2. rewrite !length_app in HL2.
    apply app_inj_1 in E1 as [? ?]; [|lia]. apply app_inj_1 in E2 as [? ?]; [|lia]. done. }
  assert (Ho : o = w -> mth H (block a k l) = mth H (block a k L) /\
                        mth H (drop (a + k) l) = mth H (block (a + k) k L)).
  { intros ->. rewrite E1 in E2. apply app_inj_1 in E2; [done|lia]. }
  assert (HXY : block a k l = block a k L).
  { apply mth_inj; [intros E; rewrite E in HX; cbn in HX; lia|set_solver|set_solver|lia|].
    destruct Hc as [Hc|Hc]; [destruct (Hw Hc) as (<- & _ & <- & _); done|by apply Ho]. }
  split_and!; [by rewrite !take_block, Hpre, HXY|set_solver|set_solver| |by intros E; apply Ho].
  intros E. by destruct (Hw E) as (_ & -> & _ & ->).
Qed.

Lemma level_ok_even_lt e q o w p :
  q mod 2 = 0 -> q * 2 ^ e < length l <= (q + 1) * 2 ^ e -> (q + 1) * 2 ^ e < length L ->
  (1%Z :: w ++ p) ∈ S ->
  level_ok (Datatypes.S e) (q / 2) o (H (1%Z :: w ++ p)) -> level_ok e q o w.
Proof.
  intros Heven Hl HL Hi (Hpre & HA & HB & Heq & _).
  assert (Hq : q / 2 * 2 ^ Datatypes.S e = q * 2 ^ e).
  { pose proof (Nat.div_mod_eq q 2). rewrite Nat.pow_succ_r'. nia. }
  specialize (Heq (H_width _)) as [E1 E2]. unfold level_ok. rewrite Hq in *.
  rewrite Nat.pow_succ_r' in *. set (k := 2 ^ e) in *. set (a := q * k) in *.
  replace ((q + 1) * k) with (a + k) in * by lia.
  pose proof (pow2_pos e : 0 < k) as Hk.
  replace (2 * k) with (k + k) in * by lia. rewrite block_double in HB, E2.
  assert (HY : length (block a k L) = k) by (rewrite length_block; lia).
  assert (HZ : 1 <= length (block (a + k) k L) <= k) by (rewrite length_block; lia).
  rewrite (inputs_split e) in HB by done. rewrite (mth_split H e) in E2 by done.
  apply S_free in E2; [|done|set_solver]. injection E2 as E2.
  assert (HwY : length (mth H (block a k L)) = W)
    by (apply mth_width; intros E; rewrite E in HY; cbn in HY; lia).
  assert (HwA : length (mth H (drop a l)) = W).
  { apply mth_width. intros E. apply (f_equal length) in E.
    rewrite length_drop in E. cbn in E. lia. }
  assert (Hw : length w = W -> w = mth H (block a k L)).
  { intros Hw. apply app_inj_1 in E2 as [? ?]; [done|lia]. }
  split_and!; [done|done|set_solver|by eauto|].
  intros ->. rewrite <-Hw by (by rewrite E1). by rewrite E1.
Qed.

Lemma level_ok_even_eq e q o w :
  q mod 2 = 0 -> length L <= (q + 1) * 2 ^ e ->
  level_ok (Datatypes.S e) (q / 2) o w -> level_ok e q o w.
Proof.
  intros Heven HL.
  assert (Hq : q / 2 * 2 ^ Datatypes.S e = q * 2 ^ e).
  { pose proof (Nat.div_mod_eq q 2). rewrite Nat.pow_succ_r'. nia. }
  unfold level_ok. rewrite Hq, Nat.pow_succ_r'.
  rewrite !(block_all (q * 2 ^ e)) by lia. done.
Qed.

Lemma halve_bounds n q e :
  q * 2 ^ e < n <= (q + 1) * 2 ^ e ->
  q / 2 * 2 ^ Datatypes.S e < n <= (q / 2 + 1) * 2 ^ Datatypes.S e.
Proof.
  intros Hn. rewrite Nat.pow_succ_r'. pose proof (Nat.div_mod_eq q 2).
  pose proof (Nat.mod_upper_bound q 2). nia.
Qed.

Lemma level_ok_top e :
  length L <= 2 ^ e -> level_ok e 0 (mth H l) (mth H L).
Proof.
  intros HL. unfold level_ok. cbn [Nat.mul]. rewrite block_all by lia. by rewrite !drop_0.
Qed.

(** Climbing to the two roots pins down the hashes the climb started from. *)
Lemma levels_sound fuel e q r o w ps tr :
  r <= fuel -> q <= r -> q * 2 ^ e < length l <= (q + 1) * 2 ^ e ->
  r * 2 ^ e < length L <= (r + 1) * 2 ^ e -> length w = W \/ o = w ->
  levels H fuel q r o w ps = Some (mth H l, mth H L, tr) -> tr ⊆ S -> level_ok e q o w.
Proof.
  revert e q r o w ps tr.
  induction fuel as [|fuel IH]; intros e q r o w ps tr Hf Hqr Hl HL Hc E Htr; cbn [levels] in E.
  { assert (r = 0) as -> by lia. assert (q = 0) as -> by lia.
    simplify_eq. apply level_ok_top. lia. }
  destruct (r =? 0) eqn:Er.
  { apply Nat.eqb_eq in Er as ->. assert (q = 0) as -> by lia.
    simplify_eq. apply level_ok_top. lia. }
  apply Nat.eqb_neq in Er. pose proof (div2_lt r Er). pose proof (div2_le q r Hqr).
  destruct (q mod 2 =? 0) eqn:Eq; cbn [negb] in E.
  - apply Nat.eqb_eq in Eq. destruct (q <? r) eqn:Elt.
    + apply Nat.ltb_lt in Elt. destruct ps as [|p ps]; [done|].
      destruct (levels H fuel (q / 2) (r / 2) o (H (1%Z :: w ++ p)) ps) as [[[o' w'] tr']|] eqn:E';
        [|done]. simplify_eq.
      apply (level_ok_even_lt e q o w p); [done|done|nia|set_solver|].
      eapply IH; [..|exact E'|set_solver]; eauto using halve_bounds; lia.
    + apply Nat.ltb_ge in Elt. assert (q = r) as -> by lia.
      apply level_ok_even_eq; [done|lia|]. eapply IH; [..|exact E|done]; eauto using halve_bounds; lia.
  - apply Nat.eqb_neq in Eq. destruct ps as [|p ps]; [done|].
    destruct (levels H fuel (q / 2) (r / 2) (H (1%Z :: p ++ o)) (H (1%Z :: p ++ w)) ps)
      as [[[o' w'] tr']|] eqn:E'; [|done]. simplify_eq.
    apply (level_ok_odd e q o w p); [done|done|nia|set_solver|set_solver|done|].
    eapply IH; [..|exact E'|set_solver]; eauto using halve_bounds; lia.
Qed.
End Sound.

(** The first hash and the rest of the proof, or [None] when a first hash is
    needed and missing. *)
Definition start_hash (q : nat) (root : bytes) (ps : list bytes) : option (bytes * list bytes) :=
  if negb (q =? 0) then match ps with [] => None | h :: ps' => Some (h, ps') end
  else Some (root, ps).

(** The end of the check, after the first hash is chosen. *)
Lemma verdict_both_loops digest f1 f2 q r o w ps R root :
  obind (both_loops digest f1 f2 q r o w ps) (fun x =>
    Ok (match x with
        | None => false
        | Some (o, w) => bool_decide (w = R) && bool_decide (o = root)
        end)) =
  obind (old_loop digest f1 q r o w ps) (fun x =>
    match x with
    | None => Ok false
    | Some (new_node, old_hash, new_hash, proofs) =>
        obind (new_loop digest f2 new_node new_hash proofs) (fun y =>
          match y with
          | None => Ok false
          | Some new_hash =>
              if negb (bool_decide (new_hash = R)) then Ok false
              else if negb (bool_decide (old_hash = root)) then Ok false
              else Ok true
          end)
    end).
Proof.
  unfold both_loops.
  destruct (old_loop digest f1 q r o w ps) as [[[[[r1 o1] w1] ps1]|]| |]; [|done..].
  cbn [obind]. destruct (new_loop digest f2 r1 w1 ps1) as [[w3|]| |]; cbn; try done.
  by repeat case_bool_decide.
Qed.

(** The verdict of the check in terms of [levels]. *)
Lemma consistency_proof_levels digest H l R n ps q r :
  (forall b, digest b = Ok (H b)) -> l <> [] -> length l <= n ->
  ~ (length l = n /\ mth H l = R) -> skip_odd (length l) (length l - 1) (n - 1) = (q, r) ->
  consistency_proof digest (merkle_of H l) R n ps =
  Ok (match start_hash q (mth H l) ps with
      | None => false
      | Some (h, ps') =>
          match levels H n q r h h ps' with
          | None => false
          | Some (o, w, _) => bool_decide (w = R) && bool_decide (o = mth H l)
          end
      end).
Proof.
  intros Hd Hl Hle Hne Es. assert (Hpos : 0 < length l) by (destruct l; [done|cbn; lia]).
  unfold consistency_proof. change (root_hash (merkle_of H l)) with (mth H l).
  cbn [count merkle_of]. rewrite (proj2 (Nat.eqb_neq _ _)) by lia.
  destruct ((length l =? n) && bool_decide (mth H l = R)) eqn:E0.
  { apply andb_true_iff in E0 as [?%Nat.eqb_eq ?%bool_decide_eq_true]. by destruct Hne. }
  rewrite (proj2 (Nat.ltb_ge _ _)), Es by lia.
  destruct (skip_odd_spec (length l) (length l - 1) (n - 1) q r)
    as (s & _ & Hqr & Hq & Hr & _); [lia|lia|done|].
  assert (Hgo : forall h ps', both_loops digest (length l) n q r h h ps' =
    Ok (option_map fst (levels H n q r h h ps'))).
  { intros. apply both_loops_levels; [done|lia..]. }
  unfold start_hash. destruct (negb (q =? 0)); [destruct ps as [|h ps']; [done|]|];
    rewrite <-(verdict_both_loops digest), Hgo; cbn [obind];
    by destruct (levels _ _ _ _ _ _ _) as [[[o w] tr]|].
Qed.

Lemma consistency_inputs_levels H m n q r root ps h ps' o w tr :
  skip_odd m (m - 1) (n - 1) = (q, r) -> start_hash q root ps = Some (h, ps') ->
  levels H n q r h h ps' = Some (o, w, tr) -> consistency_inputs H m n root ps = tr.
Proof.
  intros E1 E2 E3. unfold consistency_inputs. rewrite E1. unfold start_hash in E2.
  destruct (negb (q =? 0)); [destruct ps; [done|]|]; simplify_eq; by rewrite E3.
Qed.

(** The starting level is a complete block of both trees. *)
Lemma skip_odd_level m n q r :
  1 <= m <= n -> skip_odd m (m - 1) (n - 1) = (q, r) ->
  exists s, q <= r /\ r <= n /\ m = (q + 1) * 2 ^ s /\ r * 2 ^ s < n <= (r + 1) * 2 ^ s.
Proof.
  intros Hmn E. apply skip_odd_spec in E as (s & _ & ? & ? & ? & ? & ?); [|lia..].
  exists s. lia.
Qed.

Lemma consistency_sound digest H W l L ps :
  (forall b, digest b = Ok (H b)) -> (forall b, length (H b) = W) ->
  l <> [] -> length l <= length L ->
  no_collision H (inputs H l ++ inputs H L ++
    consistency_inputs H (length l) (length L) (mth H l) ps) ->
  consistency_proof digest (merkle_of H l) (mth H L) (length L) ps = Ok true ->
  l = take (length l) L.
Proof.
  intros Hd HW Hl Hle Hnc. set (S := inputs H l ++ _) in Hnc.
  assert (HlS : inputs H l ⊆ S) by set_solver. assert (HLS : inputs H L ⊆ S) by set_solver.
  assert (Hpos : 0 < length l) by (destruct l; [done|cbn; lia]).
  destruct (decide (length l = length L /\ mth H l = mth H L)) as [[E1 E2]|Hne].
  { intros _. rewrite take_ge by lia. eapply mth_inj; eauto. }
  destruct (skip_odd (length l) (length l - 1) (length L - 1)) as [q r] eqn:Es.
  rewrite (consistency_proof_levels digest H l _ _ ps q r) by done.
  destruct (start_hash q (mth H l) ps) as [[h ps']|] eqn:Eh; [|done].
  destruct (levels H (length L) q r h h ps') as [[[o w] tr]|] eqn:El; [|done].
  intros [= [->%bool_decide_eq_true ->%bool_decide_eq_true]%andb_true_iff].
  destruct (skip_odd_level (length l) (length L) q r) as (s & Hqr & Hr & Hm & HL); [lia|done|].
  pose proof (pow2_pos s).
  assert (Htr : tr ⊆ S) by (rewrite <-(consistency_inputs_levels H _ _ q r (mth H l) ps h ps' _ _ tr Es Eh El); set_solver).
  destruct (levels_sound H W S HW Hnc l L HlS HLS (length L) s q r h h ps' tr)
    as (Hpre & HA & HB & _ & HAB); [lia|lia|lia|done|by right|done|done|].
  specialize (HAB eq_refl). rewrite Hm, Nat.mul_add_distr_r, Nat.mul_1_l, take_block, <-Hpre.
  rewrite <-(take_drop (q * 2 ^ s) l) at 1. f_equal.
  eapply (mth_inj H W S); [done|done| |done|done| |done].
  - intros E. apply (f_equal length) in E. rewrite length_drop in E. cbn in E. lia.
  - rewrite length_drop, length_block. lia.
Qed.

(** ** Completeness

    The hashes a ledger with leaves [L] sends to prove its first [m] leaves: level
    by level, the sibling block of the path of leaf [m - 1]. *)
Section Complete.
Context (H : bytes -> bytes) (L : list bytes).

Fixpoint gen_levels (fuel e q r : nat) : list bytes :=
  match fuel with
  | 0 => []
  | S fuel' =>
      if r =? 0 then []
      else if negb (q mod 2 =? 0) then
        mth H (block ((q - 1) * 2 ^ e) (2 ^ e) L) :: gen_levels fuel' (S e) (q / 2) (r / 2)
      else if q <? r then
        mth H (block ((q + 1) * 2 ^ e) (2 ^ e) L) :: gen_levels fuel' (S e) (q / 2) (r / 2)
      else gen_levels fuel' (S e) (q / 2) (r / 2)
  end.

Definition gen_consistency (m : nat) : list bytes :=
  let (q, r) := skip_odd m (m - 1) (length L - 1) in
  let s := Nat.log2 (m / (q + 1)) in
  if negb (q =? 0)
  then mth H (block (q * 2 ^ s) (2 ^ s) L) :: gen_levels (length L) s q r
  else gen_levels (length L) s q r.

Lemma levels_complete fuel e q r m :
  r <= fuel -> q <= r -> m <= length L -> q * 2 ^ e < m <= (q + 1) * 2 ^ e ->
  r * 2 ^ e < length L <= (r + 1) * 2 ^ e ->
  option_map fst (levels H fuel q r (mth H (drop (q * 2 ^ e) (take m L)))
    (mth H (block (q * 2 ^ e) (2 ^ e) L)) (gen_levels fuel e q r)) =
  Some (mth H (take m L), mth H L).
Proof.
  revert e q r. induction fuel as [|fuel IH]; intros e q r Hf Hqr Hm Hq Hr.
  { assert (r = 0) as -> by lia. assert (q = 0) as -> by lia. cbn -[Nat.pow].
    rewrite block_all by lia. by rewrite !drop_0. }
  cbn [levels gen_levels]. destruct (r =? 0) eqn:Er.
  { apply Nat.eqb_eq in Er as ->. assert (q = 0) as -> by lia. cbn -[Nat.pow].
    rewrite block_all by lia. by rewrite !drop_0. }
  apply Nat.eqb_neq in Er. pose proof (div2_lt r Er). pose proof (div2_le q r Hqr).
  pose proof (Nat.div_mod_eq q 2) as Hdm. pose proof (Nat.mod_upper_bound q 2).
  pose proof (pow2_pos e) as Hk.
  specialize (IH (S e) (q / 2) (r / 2) ltac:(lia) ltac:(lia) Hm
    (halve_bounds _ _ _ Hq) (halve_bounds _ _ _ Hr)).
  rewrite Nat.pow_succ_r' in IH. set (k := 2 ^ e) in *. set (q' := q / 2) in *.
  replace (q' * (2 * k)) with (2 * q' * k) in IH by lia.
  replace (2 * k) with (k + k) in IH by lia.
  assert (Hlen : length (take m L) = m) by (rewrite length_take; lia).
  rewrite block_double in IH.
  destruct (q mod 2 =? 0) eqn:Eq; cbn [negb].
  - apply Nat.eqb_eq in Eq. replace (2 * q' * k) with (q * k) in IH by lia.
    replace ((q + 1) * k) with (q * k + k) in * by lia.
    destruct (q <? r) eqn:Elt.
    + apply Nat.ltb_lt in Elt.
      rewrite (mth_split H e) in IH by (rewrite length_block; fold k; nia).
      destruct (levels _ _ _ _ _ _ _) as [[[? ?] ?]|]; done.
    + apply Nat.ltb_ge in Elt. assert (q = r) as <- by lia.
      rewrite (block_all (q * k + k)), (drop_ge L), app_nil_r in IH by lia. exact IH.
  - apply Nat.eqb_neq in Eq. replace ((q - 1) * k) with (2 * q' * k) by nia.
    replace (q * k) with (2 * q' * k + k) in * by nia. set (a := 2 * q' * k) in *.
    replace ((q + 1) * k) with (a + k + k) in * by nia.
    rewrite (drop_block a k (take m L)) in IH.
    rewrite block_of_take in IH by lia.
    rewrite !(mth_split H e) in IH
      by (rewrite ?length_drop, ?length_block, ?Hlen; fold k; lia).
    destruct (levels _ _ _ _ _ _ _) as [[[? ?] ?]|]; done.
Qed.

(** The proof for [m] leaves climbs from the block that ends at leaf [m]. *)
Lemma gen_consistency_start m q r :
  1 <= m <= length L -> skip_odd m (m - 1) (length L - 1) = (q, r) ->
  exists h ps', start_hash q (mth H (take m L)) (gen_consistency m) = Some (h, ps') /\
    option_map fst (levels H (length L) q r h h ps') = Some (mth H (take m L), mth H L).
Proof.
  intros Hm Es. destruct (skip_odd_level m (length L) q r Hm Es) as (s & Hqr & Hr & Em & HL).
  pose proof (pow2_pos s) as Hk.
  assert (Hs : Nat.log2 (m / (q + 1)) = s).
  { rewrite Em, Nat.mul_comm, Nat.div_mul by lia. apply Nat.log2_pow2. lia. }
  assert (HA : drop (q * 2 ^ s) (take m L) = block (q * 2 ^ s) (2 ^ s) L).
  { unfold block. rewrite take_drop_commute. do 2 f_equal. lia. }
  pose proof (levels_complete (length L) s q r m) as Hc. rewrite HA in Hc.
  specialize (Hc ltac:(lia) Hqr ltac:(lia) ltac:(lia) HL).
  unfold gen_consistency, start_hash. rewrite Es, Hs.
  destruct (q =? 0) eqn:Eq; cbn [negb]; [|by eauto].
  apply Nat.eqb_eq in Eq as ->. exists (mth H (take m L)), (gen_levels (length L) s 0 r).
  split; [done|]. rewrite <-HA in Hc. exact Hc.
Qed.
End Complete.

Lemma consistency_accepts digest H L m :
  (forall b, digest b = Ok (H b)) -> m <= length L ->
  consistency_proof digest (merkle_of H (take m L)) (mth H L) (length L)
    (gen_consistency H L m) = Ok true.
Proof.
  intros Hd Hm. destruct (decide (m = 0)) as [->|Hm0]; [done|].
  assert (Hlen : length (take m L) = m) by (rewrite length_take; lia).
  destruct (decide (length (take m L) = length L /\ mth H (take m L) = mth H L))
    as [[E1 E2]|Hne].
  { unfold consistency_proof. change (root_hash (merkle_of H (take m L))) with (mth H (take m L)).
    cbn [count merkle_of]. rewrite E1, Nat.eqb_refl, bool_decide_eq_true_2 by done.
    by destruct (length L =? 0). }
  rewrite Hlen in Hne. destruct (skip_odd m (m - 1) (length L - 1)) as [q r] eqn:Es.
  destruct (gen_consistency_start H L m q r) as (h & ps' & Eh & El); [lia|done|].
  rewrite (consistency_proof_levels digest H (take m L) _ _ _ q r); rewrite ?Hlen; try done.
  - rewrite Eh. destruct (levels _ _ _ _ _ _ _) as [[[o w] tr]|]; [|done].
    cbn in El. simplify_eq. by rewrite !bool_decide_eq_true_2.
  - intros E. rewrite E in Hlen. cbn in Hlen. lia.
Qed.


(** ** Properties *)
Section Properties.
Context (digest : bytes -> outcome bytes) (H : bytes -> bytes).

(** C14: Soundness of the consistency check.  If the check of the tree over [l]
    against the root hash and size of the ledger [L] accepts a proof, of any
    length and content, then the transactions [l] are a prefix of [L].  The only
    assumption on the hash is that it has fixed width and does not collide on the
    inputs hashed by the two trees and by this run of the verifier. *)
Theorem consistency_proof_sound W l L ps :
  (forall b, digest b = Ok (H b)) -> (forall b, length (H b) = W) ->
  l <> [] -> length l <= length L ->
  no_collision H (inputs H l ++ inputs H L ++
    consistency_inputs H (length l) (length L) (mth H l) ps) ->
  consistency_proof digest (merkle_of H l) (mth H L) (length L) ps = Ok true ->
  l = take (length l) L.
Proof. apply consistency_sound. Qed.

(** Completeness of the consistency check.  The proof a ledger computes from
    its own tree over [L] for the first [m] transactions is accepted by a client
    that has exactly those. *)
Theorem consistency_proof_complete L m :
  (forall b, digest b = Ok (H b)) -> m <= length L ->
  consistency_proof digest (merkle_of H (take m L)) (mth H L) (length L)
    (gen_consistency H L m) = Ok true.
Proof. apply consistency_accepts. Qed.

(** A target size below the size of the local tree is not rejected: the code
    panics ([assert!(false)]), whatever the proof and the target root. *)
Theorem consistency_proof_smaller_target_panics t R n ps :
  count t <> 0 -> n < count t -> consistency_proof digest t R n ps = Panic.
Proof.
  intros H0 Hn. unfold consistency_proof.
  rewrite (proj2 (Nat.eqb_neq _ _)), (proj2 (Nat.eqb_neq _ n)), (proj2 (Nat.ltb_lt _ _)) by lia.
  done.
Qed.
End Properties.

Definition demo_ledger : list bytes := demo_values ++ [[6]; [7; 7]]%Z.

Lemma consistency_proof_sound_witness :
  demo_values = take (length demo_values) demo_ledger.
Proof.
  apply (consistency_proof_sound demo_digest demo_hash 2 demo_values demo_ledger
    (gen_consistency demo_hash demo_ledger 5)); [done|done|done|by vm_compute; lia| |by vm_compute].
  apply no_collision_dec. by vm_compute.
Defined.

Lemma consistency_proof_complete_witness :
  consistency_proof demo_digest (merkle_of demo_hash (take 6 demo_ledger))
    (mth demo_hash demo_ledger) (length demo_ledger) (gen_consistency demo_hash demo_ledger 6)
  = Ok true.
Proof.
  apply (consistency_proof_complete demo_digest demo_hash); [done|cbn; lia].
Defined.

Lemma consistency_proof_smaller_target_panics_witness :
  consistency_proof demo_digest demo_tree [] 4 [] = Panic.
Proof. apply consistency_proof_smaller_target_panics; [by vm_compute|vm_compute; lia]. Defined.
