(* ===== verification/Json.v ===== *)
(** * JSON values

    [serde_json::Value] as the code uses it.  [serde_json] is built without
    [preserve_order], so an object is a [BTreeMap]: its entries are kept sorted
    by key, here an association list.  Numbers are integers; floating point
    numbers do not occur in the messages the modelled code reads. *)

From stdpp Require Import base list sets strings numbers sorting.
From Stdlib Require Import ZArith Lia.
From S2P Require Import Prelude.

Inductive Value :=
  | Null
  | VBool (b : bool)
  | Number (n : Z)
  | VString (s : string)
  | Array (l : list Value)
  | Object (m : list (string * Value)).

Section ValueInd.
Context (P : Value -> Prop).
Context (PNull : P Null) (PBool : forall b, P (VBool b)) (PNumber : forall n, P (Number n)).
Context (PString : forall s, P (VString s)).
Context (PArray : forall l, Forall P l -> P (Array l)).
Context (PObject : forall m, Forall (fun kv => P kv.2) m -> P (Object m)).

Fixpoint Value_nested_ind (v : Value) : P v :=
  match v with
  | Null => PNull
  | VBool b => PBool b
  | Number n => PNumber n
  | VString s => PString s
  | Array l => PArray l ((fix go l : Forall P l :=
      match l with
      | [] => Forall_nil_2 _
      | x :: l' => Forall_cons_2 _ _ _ (Value_nested_ind x) (go l')
      end) l)
  | Object m => PObject m ((fix go m : Forall (fun kv => P kv.2) m :=
      match m with
      | [] => Forall_nil_2 _
      | kv :: m' => Forall_cons_2 _ kv _ (Value_nested_ind kv.2) (go m')
      end) m)
  end.
End ValueInd.

(** [PartialEq] of values. *)
Fixpoint value_eqb (v w : Value) : bool :=
  match v, w with
  | Null, Null => true
  | VBool a, VBool b => Bool.eqb a b
  | Number a, Number b => (a =? b)%Z
  | VString a, VString b => String.eqb a b
  | Array a, Array b =>
      (fix go a b := match a, b with
        | [], [] => true
        | x :: a', y :: b' => value_eqb x y && go a' b'
        | _, _ => false
        end) a b
  | Object a, Object b =>
      (fix go a b := match a, b with
        | [], [] => true
        | (k, x) :: a', (k', y) :: b' => String.eqb k k' && value_eqb x y && go a' b'
        | _, _ => false
        end) a b
  | _, _ => false
  end.

Lemma value_eqb_eq v w : value_eqb v w = true <-> v = w.
Proof.
  revert w. induction v as [|b|n|s|l IH|m IH] using Value_nested_ind; intros w.
  1-4: destruct w; cbn; try (split; [done|discriminate || congruence]).
  - split; [by intros ->%Bool.eqb_prop|intros [= ->]; apply Bool.eqb_reflx].
  - rewrite Z.eqb_eq. split; congruence.
  - rewrite String.eqb_eq. split; congruence.
  - destruct w as [| | | |l'|]; cbn; try (split; [done|discriminate]).
    transitivity (l = l'); [|split; congruence].
    revert l'. induction IH as [|x l Hx _ IHl]; intros [|y l']; try (split; done).
    rewrite andb_true_iff, Hx, IHl. split; [by intros [-> ->]|by intros [= -> ->]].
  - destruct w as [| | | | |m']; cbn; try (split; [done|discriminate]).
    transitivity (m = m'); [|split; congruence].
    revert m'. induction IH as [|[k x] m Hx _ IHm]; intros [|[k' y] m']; try (split; done).
    rewrite !andb_true_iff, String.eqb_eq. cbn in Hx. rewrite Hx, IHm.
    split; [by intros [[-> ->] ->]|by intros [= -> -> ->]].
Qed.

#[export] Instance Value_eq_dec : EqDecision Value.
Proof.
  intros v w. destruct (value_eqb v w) eqn:E; [left|right].
  - by apply value_eqb_eq.
  - intros Hv%value_eqb_eq. congruence.
Defined.

(** ** Objects as sorted maps *)
Fixpoint map_get (k : string) (m : list (string * Value)) : option Value :=
  match m with
  | [] => None
  | (k', v) :: m' => if String.eqb k k' then Some v else map_get k m'
  end.

(** [BTreeMap::insert]. *)
Fixpoint map_insert (k : string) (v : Value) (m : list (string * Value)) : list (string * Value) :=
  match m with
  | [] => [(k, v)]
  | (k', v') :: m' =>
      match String.compare k k' with
      | Eq => (k, v) :: m'
      | Lt => (k, v) :: m
      | Gt => (k', v') :: map_insert k v m'
      end
  end.

(** [BTreeMap::remove]. *)
Definition map_remove (k : string) (m : list (string * Value)) : list (string * Value) :=
  filter (fun kv => kv.1 <> k) m.

(** Collecting pairs into a [Map]; a later pair with the same key wins. *)
Definition map_of_list (l : list (string * Value)) : list (string * Value) :=
  foldl (fun m kv => map_insert kv.1 kv.2 m) [] l.

(** [value["key"]]: [Null] when the value is no object or has no such key. *)
Definition index (v : Value) (k : string) : Value :=
  match v with
  | Object m => match map_get k m with Some x => x | None => Null end
  | _ => Null
  end.

(** [value["key"] = x]: creates the object out of [null], panics on other types. *)
Definition index_set (v : Value) (k : string) (x : Value) : outcome Value :=
  match v with
  | Object m => Ok (Object (map_insert k x m))
  | Null => Ok (Object [(k, x)])
  | _ => Panic
  end.

Definition as_str (v : Value) : option string := match v with VString s => Some s | _ => None end.
Definition as_array (v : Value) : option (list Value) := match v with Array l => Some l | _ => None end.
Definition as_object (v : Value) : option (list (string * Value)) :=
  match v with Object m => Some m | _ => None end.
Definition is_null (v : Value) : bool := match v with Null => true | _ => false end.
Definition as_u64 (v : Value) : option Z :=
  match v with
  | Number n => if (0 <=? n)%Z && (n <? 2 ^ 64)%Z then Some n else None
  | _ => None
  end.

Lemma string_compare_refl k : String.compare k k = Eq.
Proof.
  induction k as [|a k IH]; [done|]. cbn. unfold Ascii.compare. by rewrite N.compare_refl.
Qed.

Lemma map_get_insert_eq k v m : map_get k (map_insert k v m) = Some v.
Proof.
  induction m as [|[k' v'] m IH]; cbn; [by rewrite String.eqb_refl|].
  destruct (String.compare k k') eqn:E; cbn; [by rewrite String.eqb_refl..|].
  destruct (String.eqb k k') eqn:Ek; [|done].
  apply String.eqb_eq in Ek as ->. by rewrite string_compare_refl in E.
Qed.

Lemma map_get_insert_ne k k' v m : k <> k' -> map_get k (map_insert k' v m) = map_get k m.
Proof.
  intros Hne. induction m as [|[k2 v2] m IH]; cbn.
  - by rewrite (proj2 (String.eqb_neq _ _)).
  - destruct (String.compare k' k2) eqn:E; cbn.
    + apply String.compare_eq_iff in E as ->. by rewrite (proj2 (String.eqb_neq _ _)).
    + by rewrite (proj2 (String.eqb_neq _ _)).
    + by rewrite IH.
Qed.

Lemma index_insert_eq k v m : index (Object (map_insert k v m)) k = v.
Proof. cbn. by rewrite map_get_insert_eq. Qed.

(** ** Keys of objects *)
Definition string_lt (a b : string) : Prop := String.compare a b = Lt.

Lemma string_lt_le a b : string_lt a b <-> String.le a b /\ a <> b.
Proof.
  unfold string_lt, String.le, String.leb. split.
  - intros E. rewrite E. split; [done|]. intros ->. by rewrite string_compare_refl in E.
  - destruct (String.compare a b) eqn:E; [|done|by intros [[] _]].
    intros [_ Hne]. by apply String.compare_eq_iff in E.
Qed.

Lemma string_lt_trans a b c : string_lt a b -> string_lt b c -> string_lt a c.
Proof.
  rewrite !string_lt_le. intros [H1 N1] [H2 N2]. split; [by etrans|]. intros ->.
  by apply N1, (anti_symm String.le).
Qed.

(** The keys in increasing order, as in a [BTreeMap]. *)
Definition sorted_keys (m : list (string * Value)) : Prop := StronglySorted string_lt m.*1.

Lemma map_keys_insert k k' v m : k ∈ (map_insert k' v m).*1 <-> k = k' \/ k ∈ m.*1.
Proof.
  induction m as [|[k2 v2] m IH]; [set_solver|]. cbn [map_insert].
  destruct (String.compare k' k2) eqn:E; [|set_solver..].
  apply String.compare_eq_iff in E as ->. set_solver.
Qed.

Lemma map_insert_sorted k v m : sorted_keys m -> sorted_keys (map_insert k v m).
Proof.
  unfold sorted_keys. induction m as [|[k2 v2] m IH]; [repeat constructor|].
  cbn [map_insert fmap list_fmap fst]. intros [Hs Hf]%StronglySorted_inv.
  destruct (String.compare k k2) eqn:E; cbn [fmap list_fmap fst].
  - apply String.compare_eq_iff in E as ->. by constructor.
  - constructor; [by constructor|]. constructor; [done|].
    apply Forall_forall. intros x Hx. eapply string_lt_trans; [exact E|]. by eapply Forall_forall in Hf.
  - constructor; [by apply IH|]. apply Forall_forall. intros x [->|Hx]%map_keys_insert.
    + unfold string_lt. rewrite String.compare_antisym, E. done.
    + by eapply Forall_forall in Hf.
Qed.

Lemma sorted_keys_NoDup m : sorted_keys m -> NoDup m.*1.
Proof.
  unfold sorted_keys. induction m.*1 as [|k l IH]; intros Hs; constructor;
    apply StronglySorted_inv in Hs as [Hs Hf]; [|by apply IH].
  intros Hin. eapply Forall_forall in Hf; [|exact Hin]. unfold string_lt in Hf.
  by rewrite string_compare_refl in Hf.
Qed.

Lemma map_of_list_snoc l kv : map_of_list (l ++ [kv])%list = map_insert kv.1 kv.2 (map_of_list l).
Proof. unfold map_of_list. by rewrite foldl_app. Qed.
