(* ===== verification/LedgerConstants.v ===== *)
(** * Transaction types and roles of the ledger

    [libindy/src/domain/ledger/constants.rs]: the codes requests carry, the names users may
    write for them, and the codes of the roles.  The reply parser, the signing of requests and
    the request builders share them. *)

From stdpp Require Import base list strings.
From S2P Require Import Prelude.

Open Scope string_scope.

Definition NODE : string := "0".
Definition NYM : string := "1".
Definition GET_TXN : string := "3".
Definition TXN_AUTHR_AGRMT : string := "4".
Definition TXN_AUTHR_AGRMT_AML : string := "5".
Definition GET_TXN_AUTHR_AGRMT : string := "6".
Definition GET_TXN_AUTHR_AGRMT_AML : string := "7".
Definition DISABLE_ALL_TXN_AUTHR_AGRMTS : string := "8".
Definition LEDGERS_FREEZE : string := "9".
Definition GET_FROZEN_LEDGERS : string := "10".
Definition ATTRIB : string := "100".
Definition SCHEMA : string := "101".
Definition CRED_DEF : string := "102".
Definition GET_ATTR : string := "104".
Definition GET_NYM : string := "105".
Definition GET_SCHEMA : string := "107".
Definition GET_CRED_DEF : string := "108".
Definition POOL_UPGRADE : string := "109".
Definition POOL_RESTART : string := "118".
Definition POOL_CONFIG : string := "111".
Definition REVOC_REG_DEF : string := "113".
Definition REVOC_REG_ENTRY : string := "114".
Definition GET_REVOC_REG_DEF : string := "115".
Definition GET_REVOC_REG : string := "116".
Definition GET_REVOC_REG_DELTA : string := "117".
Definition GET_VALIDATOR_INFO : string := "119".
Definition AUTH_RULE : string := "120".
Definition GET_AUTH_RULE : string := "121".
Definition AUTH_RULES : string := "122".
Definition GET_DDO : string := "120".

Definition REQUESTS : list string :=
  [NODE; NYM; GET_TXN; ATTRIB; SCHEMA; CRED_DEF; GET_ATTR; GET_NYM; GET_SCHEMA; GET_CRED_DEF;
   POOL_UPGRADE; POOL_RESTART; POOL_CONFIG; REVOC_REG_DEF; REVOC_REG_ENTRY; GET_REVOC_REG_DEF;
   GET_REVOC_REG; GET_REVOC_REG_DELTA; GET_VALIDATOR_INFO; AUTH_RULE; GET_DDO; TXN_AUTHR_AGRMT;
   TXN_AUTHR_AGRMT_AML; GET_TXN_AUTHR_AGRMT; GET_TXN_AUTHR_AGRMT_AML; LEDGERS_FREEZE;
   GET_FROZEN_LEDGERS].

Definition TRUSTEE : string := "0".
Definition STEWARD : string := "2".
Definition ENDORSER : string := "101".
Definition NETWORK_MONITOR : string := "201".
Definition ROLE_REMOVE : string := "".
Definition ROLES : list string := [TRUSTEE; STEWARD; ENDORSER; NETWORK_MONITOR].

(** The code of a transaction a user names, a text it does not know unchanged. *)
Definition txn_name_to_code (txn : string) : option string :=
  if bool_decide (txn ∈ REQUESTS) then Some txn
  else if String.eqb txn "NODE" then Some NODE
  else if String.eqb txn "NYM" then Some NYM
  else if String.eqb txn "GET_TXN" then Some GET_TXN
  else if String.eqb txn "ATTRIB" then Some ATTRIB
  else if String.eqb txn "SCHEMA" then Some SCHEMA
  else if String.eqb txn "CRED_DEF" || String.eqb txn "CLAIM_DEF" then Some CRED_DEF
  else if String.eqb txn "GET_ATTR" then Some GET_ATTR
  else if String.eqb txn "GET_NYM" then Some GET_NYM
  else if String.eqb txn "GET_SCHEMA" then Some GET_SCHEMA
  else if String.eqb txn "GET_CRED_DEF" then Some GET_CRED_DEF
  else if String.eqb txn "POOL_UPGRADE" then Some POOL_UPGRADE
  else if String.eqb txn "POOL_RESTART" then Some POOL_RESTART
  else if String.eqb txn "POOL_CONFIG" then Some POOL_CONFIG
  else if String.eqb txn "REVOC_REG_DEF" then Some REVOC_REG_DEF
  else if String.eqb txn "REVOC_REG_ENTRY" then Some REVOC_REG_ENTRY
  else if String.eqb txn "GET_REVOC_REG_DEF" then Some GET_REVOC_REG_DEF
  else if String.eqb txn "GET_REVOC_REG" then Some GET_REVOC_REG
  else if String.eqb txn "GET_REVOC_REG_DELTA" then Some GET_REVOC_REG_DELTA
  else if String.eqb txn "GET_VALIDATOR_INFO" then Some GET_VALIDATOR_INFO
  else if String.eqb txn "AUTH_RULE" then Some AUTH_RULE
  else if String.eqb txn "GET_DDO" then Some GET_DDO
  else if String.eqb txn "TXN_AUTHR_AGRMT" then Some TXN_AUTHR_AGRMT
  else if String.eqb txn "TXN_AUTHR_AGRMT_AML" then Some TXN_AUTHR_AGRMT_AML
  else if String.eqb txn "GET_TXN_AUTHR_AGRMT" then Some GET_TXN_AUTHR_AGRMT
  else if String.eqb txn "GET_TXN_AUTHR_AGRMT_AML" then Some GET_TXN_AUTHR_AGRMT_AML
  else if String.eqb txn "LEDGERS_FREEZE" then Some LEDGERS_FREEZE
  else if String.eqb txn "GET_FROZEN_LEDGERS" then Some GET_FROZEN_LEDGERS
  else Some txn.
