(* ===== verification/Wql.v ===== *)
(** * Wallet query language

    [libindy/indy-utils/src/wql.rs]: queries, their JSON form ([to_value] and the
    [parse_*] functions behind [Deserialize]) and [optimise].

    The theorems: parsing what [to_value] prints gives the query back, [optimise]
    keeps the meaning of queries without empty connectives, and the two ways in
    which it does not keep it in general. *)

From stdpp Require Import base list strings numbers.
From Stdlib Require Import ZArith Lia.
From S2P Require Import Prelude Json.

(** [Query]. *)
Inductive Query :=
  | QAnd (suboperators : list Query)
  | QOr (suboperators : list Query)
  | QNot (operator : Query)
  | QEq (name value : string)
  | QNeq (name value : string)
  | QGt (name value : string)
  | QGte (name value : string)
  | QLt (name value : string)
  | QLte (name value : string)
  | QLike (name value : string)
  | QIn (name : string) (values : list string).

(** [Result<_, &'static str>]. *)
Inductive result (A : Type) :=
  | ROk (a : A)
  | RErr (msg : string).
Arguments ROk {A} _.
Arguments RErr {A} _.

Definition rbind {A B} (m : result A) (k : A -> result B) : result B :=
  match m with ROk a => k a | RErr e => RErr e end.
Notation "'let!' x ':=' m 'in' k" := (rbind m (fun x => k))
  (at level 10, x pattern, m at level 100, k at level 200) : indy_scope.

Open Scope string_scope.

(** The loop of [parse_single_operator] over the values of [$in]. *)
Fixpoint parse_in_values (values : list Value) : result (list string) :=
  match values with
  | [] => ROk []
  | VString s :: values' => let! r := parse_in_values values' in ROk (s :: r)
  | _ :: _ => RErr "$in must be used with array of strings"
  end.

(** [parse_single_operator]. *)
Definition parse_single_operator (operator_name key : string) (value : Value) : result Query :=
  if String.eqb operator_name "$neq" then
    match value with VString v => ROk (QNeq key v) | _ => RErr "$neq must be used with string" end
  else if String.eqb operator_name "$gt" then
    match value with VString v => ROk (QGt key v) | _ => RErr "$gt must be used with string" end
  else if String.eqb operator_name "$gte" then
    match value with VString v => ROk (QGte key v) | _ => RErr "$gte must be used with string" end
  else if String.eqb operator_name "$lt" then
    match value with VString v => ROk (QLt key v) | _ => RErr "$lt must be used with string" end
  else if String.eqb operator_name "$lte" then
    match value with VString v => ROk (QLte key v) | _ => RErr "$lte must be used with string" end
  else if String.eqb operator_name "$like" then
    match value with VString v => ROk (QLike key v) | _ => RErr "$like must be used with string" end
  else if String.eqb operator_name "$in" then
    match value with
    | Array values => let! target_values := parse_in_values values in ROk (QIn key target_values)
    | _ => RErr "$in must be used with array of strings"
    end
  else RErr "Unknown operator".

Section ParseHelpers.
Context (parse_operator : string -> Value -> result (option Query)).

(** The loop of [parse_query] over the entries of the object. *)
Definition parse_entries : list (string * Value) -> result (list Query) :=
  fix go map :=
    match map with
    | [] => ROk []
    | (key, value) :: map' =>
        let! operator_ := parse_operator key value in
        let! operators := go map' in
        ROk (match operator_ with Some o => o :: operators | None => operators end)
    end.

(** [parse_query]. *)
Definition parse_query_with (map : list (string * Value)) : result Query :=
  let! operators := parse_entries map in
  ROk (match operators with [q] => q | _ => QAnd operators end).

(** [parse_list_operators]. *)
Definition parse_list_with : list Value -> result (list Query) :=
  fix go operators :=
    match operators with
    | [] => ROk []
    | Object map :: operators' =>
        let! suboperator := parse_query_with map in
        let! out_operators := go operators' in
        ROk (suboperator :: out_operators)
    | _ :: _ => RErr "operator must be array of JSON objects"
    end.
End ParseHelpers.

(** [parse_operator]; the recursion goes through the values of arrays and objects. *)
Fixpoint parse_operator (key : string) (value : Value) : result (option Query) :=
  if String.eqb key "$and" then
    match value with
    | Array [] => ROk None
    | Array values =>
        let! operators := parse_list_with parse_operator values in ROk (Some (QAnd operators))
    | _ => RErr "$and must be array of JSON objects"
    end
  else if String.eqb key "$or" then
    match value with
    | Array [] => ROk None
    | Array values =>
        let! operators := parse_list_with parse_operator values in ROk (Some (QOr operators))
    | _ => RErr "$or must be array of JSON objects"
    end
  else if String.eqb key "$not" then
    match value with
    | Object map => let! operator := parse_query_with parse_operator map in ROk (Some (QNot operator))
    | _ => RErr "$not must be JSON object"
    end
  else
    match value with
    | VString value => ROk (Some (QEq key value))
    | Object [(operator_name, value)] =>
        let! operator := parse_single_operator operator_name key value in ROk (Some operator)
    | Object _ => RErr "value must be JSON object of length 1"
    | _ => RErr "Unsupported value"
    end.

Definition parse_query := parse_query_with parse_operator.
Definition parse_list_operators := parse_list_with parse_operator.

(** The old restriction format: an array of objects, nulls dropped. *)
Fixpoint restriction_array (array : list Value) : result (list Value) :=
  match array with
  | [] => ROk []
  | Object m :: array' =>
      let sub_query := filter (fun kv => is_null kv.2 = false) m in
      let! res := restriction_array array' in
      ROk (if bool_decide (sub_query = []) then res else Object sub_query :: res)
  | _ :: _ => RErr "Restriction is invalid"
  end.

(** [Deserialize for Query], after the text has become a [Value]. *)
Definition deserialize (v : Value) : result Query :=
  match v with
  | Object map => parse_query map
  | Array array =>
      let! res := restriction_array array in
      parse_query [("$or", Array res)]
  | _ => RErr "Restriction must be either object or array"
  end.

(** [Query::to_value]. *)
Fixpoint to_value (q : Query) : Value :=
  match q with
  | QEq tag_name tag_value => Object [(tag_name, VString tag_value)]
  | QNeq tag_name tag_value => Object [(tag_name, Object [("$neq", VString tag_value)])]
  | QGt tag_name tag_value => Object [(tag_name, Object [("$gt", VString tag_value)])]
  | QGte tag_name tag_value => Object [(tag_name, Object [("$gte", VString tag_value)])]
  | QLt tag_name tag_value => Object [(tag_name, Object [("$lt", VString tag_value)])]
  | QLte tag_name tag_value => Object [(tag_name, Object [("$lte", VString tag_value)])]
  | QLike tag_name tag_value => Object [(tag_name, Object [("$like", VString tag_value)])]
  | QIn tag_name tag_values =>
      Object [(tag_name, Object [("$in", Array (VString <$> tag_values))])]
  | QAnd operators =>
      match operators with
      | [] => Object []
      | _ => Object [("$and", Array (map to_value operators))]
      end
  | QOr operators =>
      match operators with
      | [] => Object []
      | _ => Object [("$or", Array (map to_value operators))]
      end
  | QNot stmt => Object [("$not", to_value stmt)]
  end.

(** What remains of a connective after its operands are optimised. *)
Definition rebuild (connective : list Query -> Query) (suboperators : list Query) : option Query :=
  match suboperators with
  | [] => None
  | [q] => Some q
  | _ => Some (connective suboperators)
  end.

(** [Query::optimise]. *)
Fixpoint optimise (q : Query) : option Query :=
  match q with
  | QNot (QNot nested_operator) => Some nested_operator
  | QNot boxed_operator => Some (QNot boxed_operator)
  | QAnd [] => None
  | QAnd [operator] => optimise operator
  | QAnd suboperators =>
      rebuild QAnd (flat_map (fun o => match optimise o with Some o' => [o'] | None => [] end)
        suboperators)
  | QOr [] => None
  | QOr [operator] => optimise operator
  | QOr suboperators =>
      rebuild QOr (flat_map (fun o => match optimise o with Some o' => [o'] | None => [] end)
        suboperators)
  | QIn key [target] => Some (QEq key target)
  | QIn key targets => Some (QIn key targets)
  | _ => Some q
  end.

(** [Default for Query]. *)
Definition query_default : Query := QAnd [].

Section QueryInd.
Context (P : Query -> Prop).
Context (PAnd : forall l, Forall P l -> P (QAnd l)) (POr : forall l, Forall P l -> P (QOr l)).
Context (PNot : forall q, P q -> P (QNot q)).
Context (PEq : forall n v, P (QEq n v)) (PNeq : forall n v, P (QNeq n v)).
Context (PGt : forall n v, P (QGt n v)) (PGte : forall n v, P (QGte n v)).
Context (PLt : forall n v, P (QLt n v)) (PLte : forall n v, P (QLte n v)).
Context (PLike : forall n v, P (QLike n v)) (PIn : forall n vs, P (QIn n vs)).

Fixpoint Query_nested_ind (q : Query) : P q :=
  let all := fix go l : Forall P l :=
    match l with
    | [] => Forall_nil_2 _
    | x :: l' => Forall_cons_2 _ _ _ (Query_nested_ind x) (go l')
    end in
  match q with
  | QAnd l => PAnd l (all l)
  | QOr l => POr l (all l)
  | QNot q => PNot q (Query_nested_ind q)
  | QEq n v => PEq n v | QNeq n v => PNeq n v | QGt n v => PGt n v | QGte n v => PGte n v
  | QLt n v => PLt n v | QLte n v => PLte n v | QLike n v => PLike n v | QIn n vs => PIn n vs
  end.
End QueryInd.

(** ** Round trip *)

(** Tag names that are not read as connectives. *)
Definition plain_name (n : string) : bool :=
  negb (String.eqb n "$and") && negb (String.eqb n "$or") && negb (String.eqb n "$not").

(** Queries whose JSON form determines them: no reserved tag names, and no empty
    [$or], which is printed as the empty object. *)
Fixpoint printable (q : Query) : bool :=
  match q with
  | QAnd l => forallb printable l
  | QOr l => match l with [] => false | _ => forallb printable l end
  | QNot q => printable q
  | QEq n _ | QNeq n _ | QGt n _ | QGte n _ | QLt n _ | QLte n _ | QLike n _ | QIn n _ =>
      plain_name n
  end.

Lemma plain_name_spec n :
  plain_name n = true ->
  String.eqb n "$and" = false /\ String.eqb n "$or" = false /\ String.eqb n "$not" = false.
Proof. unfold plain_name. rewrite !andb_true_iff, !negb_true_iff. tauto. Qed.

Lemma parse_in_values_strings vs : parse_in_values (VString <$> vs) = ROk vs.
Proof. induction vs as [|v vs IH]; [done|]. cbn. by rewrite IH. Qed.

Definition parses_back (q : Query) : Prop :=
  exists m, to_value q = Object m /\ parse_query m = ROk q.

Lemma parse_list_cons m vs :
  parse_list_operators (Object m :: vs) =
  (let! q := parse_query m in let! qs := parse_list_operators vs in ROk (q :: qs)).
Proof. reflexivity. Qed.

Lemma parse_operator_and v vs :
  parse_operator "$and" (Array (v :: vs)) =
  (let! qs := parse_list_operators (v :: vs) in ROk (Some (QAnd qs))).
Proof. reflexivity. Qed.

Lemma parse_operator_or v vs :
  parse_operator "$or" (Array (v :: vs)) =
  (let! qs := parse_list_operators (v :: vs) in ROk (Some (QOr qs))).
Proof. reflexivity. Qed.

Lemma parse_operator_not m :
  parse_operator "$not" (Object m) = (let! q := parse_query m in ROk (Some (QNot q))).
Proof. reflexivity. Qed.

Lemma parse_query_single k v q :
  parse_operator k v = ROk (Some q) -> parse_query [(k, v)] = ROk q.
Proof. intros E. unfold parse_query, parse_query_with. cbn [parse_entries]. by rewrite E. Qed.

Lemma parse_list_back l :
  Forall parses_back l -> parse_list_operators (map to_value l) = ROk l.
Proof.
  induction 1 as [|q l (m & E & Hq) _ IH]; [done|].
  cbn [map]. by rewrite E, parse_list_cons, Hq, IH.
Qed.

Lemma parse_leaf key v q :
  plain_name key = true ->
  match v with
  | VString value => ROk (QEq key value)
  | Object [(operator_name, value)] => parse_single_operator operator_name key value
  | _ => RErr ""
  end = ROk q ->
  parse_query [(key, v)] = ROk q.
Proof.
  intros (E1 & E2 & E3)%plain_name_spec Hv. apply parse_query_single.
  destruct v as [| | |s|l|[|[k x] [|]]]; try done; cbn; rewrite E1, E2, E3.
  - by simplify_eq.
  - by rewrite Hv.
Qed.

Lemma to_value_parses_back q : printable q = true -> parses_back q.
Proof.
  unfold parses_back. induction q as [l IH|l IH|q IH| | | | | | | |n vs] using Query_nested_ind;
    cbn [printable]; intros Hp.
  1,2: destruct l as [|q l]; [try done; exists []; split; reflexivity|];
    rewrite forallb_forall in Hp;
    assert (Hl : Forall parses_back (q :: l))
      by (rewrite Forall_forall in IH |- *; intros x Hx; apply IH; [done|];
          apply Hp; first [done|by apply list_elem_of_In]);
    apply parse_list_back in Hl; cbn [map] in Hl.
  - exists [("$and", Array (to_value q :: map to_value l))]. split; [done|].
    apply parse_query_single. by rewrite parse_operator_and, Hl.
  - exists [("$or", Array (to_value q :: map to_value l))]. split; [done|].
    apply parse_query_single. by rewrite parse_operator_or, Hl.
  - destruct (IH Hp) as (m & E & Hq). exists [("$not", to_value q)]. split; [done|].
    apply parse_query_single. by rewrite E, parse_operator_not, Hq.
  - eexists; split; [reflexivity|]; by apply parse_leaf.
  - eexists; split; [reflexivity|]; by apply parse_leaf.
  - eexists; split; [reflexivity|]; by apply parse_leaf.
  - eexists; split; [reflexivity|]; by apply parse_leaf.
  - eexists; split; [reflexivity|]; by apply parse_leaf.
  - eexists; split; [reflexivity|]; by apply parse_leaf.
  - eexists; split; [reflexivity|]; by apply parse_leaf.
  - eexists; split; [reflexivity|]. apply parse_leaf; [done|].
    unfold parse_single_operator. cbn -[parse_in_values]. by rewrite parse_in_values_strings.
Qed.

(** ** Meaning

    A record matches a query through its tags; [like] is the LIKE operator of the
    database.  An empty connective restricts nothing, as in [restriction]s of proof
    requests and in the SQL the wallet builds. *)
Section Meaning.
Context (like : string -> string -> bool) (tags : string -> option string).

Definition tag_test (n : string) (test : string -> bool) : bool :=
  match tags n with Some v => test v | None => false end.

Fixpoint eval (q : Query) : bool :=
  match q with
  | QAnd l => forallb eval l
  | QOr l => match l with [] => true | _ => existsb eval l end
  | QNot q => negb (eval q)
  | QEq n v => tag_test n (fun t => String.eqb t v)
  | QNeq n v => tag_test n (fun t => negb (String.eqb t v))
  | QGt n v => tag_test n (fun t => String.ltb v t)
  | QGte n v => tag_test n (fun t => String.leb v t)
  | QLt n v => tag_test n (fun t => String.ltb t v)
  | QLte n v => tag_test n (fun t => String.leb t v)
  | QLike n v => tag_test n (fun t => like t v)
  | QIn n vs => tag_test n (fun t => existsb (String.eqb t) vs)
  end.

(** [None] is no restriction: [optimise().unwrap_or_default()]. *)
Definition eval_opt (o : option Query) : bool := match o with Some q => eval q | None => true end.
End Meaning.

Definition kept (q : Query) : bool := match optimise q with Some _ => true | None => false end.

(** No disjunction mixes operands that vanish with operands that stay. *)
Fixpoint or_uniform (q : Query) : bool :=
  match q with
  | QAnd l => forallb or_uniform l
  | QOr l => forallb or_uniform l && (forallb kept l || forallb (fun o => negb (kept o)) l)
  | _ => true
  end.

Definition opt_list (o : Query) : list Query :=
  match optimise o with Some o' => [o'] | None => [] end.

Section OptimiseFacts.
Context (like : string -> string -> bool) (tags : string -> option string).
Abbreviation ev := (eval like tags).

Lemma rebuild_and l : eval_opt like tags (rebuild QAnd l) = forallb ev l.
Proof. destruct l as [|x [|y l]]; cbn; [done|by rewrite andb_true_r|done]. Qed.

Lemma rebuild_or l : l <> [] -> eval_opt like tags (rebuild QOr l) = existsb ev l.
Proof. intros Hl. destruct l as [|x [|y l]]; cbn; [done|by rewrite orb_false_r|done]. Qed.

Lemma forallb_flat_map l :
  Forall (fun q => eval_opt like tags (optimise q) = ev q) l ->
  forallb ev (flat_map opt_list l) = forallb ev l.
Proof.
  induction 1 as [|q l Hq _ IH]; [done|]. cbn. rewrite forallb_app, IH. unfold opt_list.
  destruct (optimise q); cbn in *; by rewrite <-Hq, ?andb_true_r.
Qed.

Lemma existsb_flat_map l :
  Forall (fun q => eval_opt like tags (optimise q) = ev q) l -> forallb kept l = true ->
  existsb ev (flat_map opt_list l) = existsb ev l.
Proof.
  induction 1 as [|q l Hq _ IH]; [done|]. cbn. intros [Hk Hl]%andb_true_iff.
  rewrite existsb_app, IH by done. unfold opt_list, kept in *.
  destruct (optimise q); cbn in *; [|done]. by rewrite <-Hq, orb_false_r.
Qed.

Lemma flat_map_kept l : forallb kept l = true -> l <> [] -> flat_map opt_list l <> [].
Proof.
  destruct l as [|q l]; [done|]. cbn. intros [Hk _]%andb_true_iff _.
  unfold opt_list, kept in *. by destruct (optimise q).
Qed.

Lemma flat_map_dropped l :
  forallb (fun o => negb (kept o)) l = true -> flat_map opt_list l = [].
Proof.
  induction l as [|q l IH]; [done|]. cbn. intros [Hk Hl]%andb_true_iff.
  unfold opt_list, kept in *. destruct (optimise q); [done|]. by apply IH.
Qed.

Lemma existsb_dropped q l :
  Forall (fun q => eval_opt like tags (optimise q) = ev q) (q :: l) ->
  forallb (fun o => negb (kept o)) (q :: l) = true -> existsb ev (q :: l) = true.
Proof.
  intros Hl Hk. inversion Hl as [|? ? Hq _]; subst.
  cbn in Hk. apply andb_true_iff in Hk as [Hk _].
  unfold kept in Hk. destruct (optimise q); [done|]. cbn in *. by rewrite <-Hq.
Qed.

Lemma eval_in_singleton n v : tag_test tags n (fun t => existsb (String.eqb t) [v]) =
  tag_test tags n (fun t => String.eqb t v).
Proof. unfold tag_test. destruct (tags n); [|done]. cbn. by rewrite orb_false_r. Qed.

Lemma optimise_eval q : or_uniform q = true -> eval_opt like tags (optimise q) = ev q.
Proof.
  induction q as [l IH|l IH|q IH| | | | | | | |n vs] using Query_nested_ind; try done;
    cbn [or_uniform]; intros Hu.
  - rewrite forallb_forall in Hu.
    assert (Hl : Forall (fun q => eval_opt like tags (optimise q) = ev q) l).
    { rewrite Forall_forall in IH |- *. intros x Hx. apply IH, Hu; [done|].
      first [done|by apply list_elem_of_In]. }
    destruct l as [|x [|y l]]; [done| |].
    + inversion Hl; subst. cbn. by rewrite andb_true_r.
    + etransitivity; [exact (rebuild_and _)|]. by apply forallb_flat_map.
  - apply andb_true_iff in Hu as [Hu Hk]. rewrite forallb_forall in Hu.
    assert (Hl : Forall (fun q => eval_opt like tags (optimise q) = ev q) l).
    { rewrite Forall_forall in IH |- *. intros x Hx. apply IH, Hu; [done|].
      first [done|by apply list_elem_of_In]. }
    destruct l as [|x [|y l]]; [done| |].
    + inversion Hl; subst. cbn. by rewrite orb_false_r.
    + change (optimise (QOr (x :: y :: l))) with (rebuild QOr (flat_map opt_list (x :: y :: l))).
      apply orb_true_iff in Hk as [Hk|Hk].
      * rewrite rebuild_or by by apply flat_map_kept. by apply existsb_flat_map.
      * rewrite flat_map_dropped by done. symmetry. by apply existsb_dropped.
  - destruct q; try done. cbn. by rewrite negb_involutive.
  - destruct vs as [|v [|]]; [done| |done]. symmetry. apply eval_in_singleton.
Qed.
End OptimiseFacts.

(** ** Properties *)

(** Printing and parsing are inverse: for every query without reserved tag names
    and without an empty [$or], deserializing its JSON form gives the query back. *)
Theorem wql_roundtrip q : printable q = true -> deserialize (to_value q) = ROk q.
Proof.
  intros Hq. destruct (to_value_parses_back q Hq) as (m & E & Hp). by rewrite E.
Qed.

(** [optimise] keeps the meaning of a query, for every set of tags, as long as no
    disjunction mixes operands that optimise away with operands that stay. *)
Theorem optimise_preserves_meaning like tags q :
  or_uniform q = true -> eval_opt like tags (optimise q) = eval like tags q.
Proof. apply optimise_eval. Qed.

(** Without that condition it does not: the query [{"$or": [{}, {"a": "1"}]}]
    parses, restricts nothing, and is optimised to [{"a": "1"}], which rejects a
    record without tags. *)
Theorem optimise_or_changes_meaning :
  exists q q', deserialize (Object [("$or", Array [Object []; Object [("a", VString "1")]])]) = ROk q /\
    optimise q = Some q' /\
    eval String.eqb (fun _ => None) q = true /\ eval String.eqb (fun _ => None) q' = false.
Proof. by exists (QOr [QAnd []; QEq "a" "1"]), (QEq "a" "1"). Qed.

Definition demo_query : Query :=
  QAnd [QOr [QEq "~age" "30"; QIn "name" ["x"]; QNot (QNot (QGte "~age" "4"))];
        QAnd []; QNot (QIn "k" ["a"; "b"])].

Lemma wql_roundtrip_witness : deserialize (to_value demo_query) = ROk demo_query.
Proof. apply wql_roundtrip. reflexivity. Defined.

Lemma optimise_preserves_meaning_witness :
  eval_opt String.eqb (fun n => Some n) (optimise demo_query) =
  eval String.eqb (fun n => Some n) demo_query.
Proof. apply optimise_preserves_meaning. reflexivity. Defined.
