(* ===== verification/Identifiers.v ===== *)
(** * Identifiers of the anoncreds objects

    [utils/qualifier.rs] and the identifiers of [domain/crypto/did.rs] and
    [domain/anoncreds/{schema,credential_definition,revocation_registry_definition}.rs]:
    how DIDs and the identifiers of schemas, credential definitions and revocation registries
    are put together, taken apart, qualified with a method and unqualified.  The verifier
    reads the issuer of a credential out of these strings.

    The newtypes of the code are strings.  The regular expressions are written out as
    functions. *)

From stdpp Require Import base list strings numbers gmap.
From Stdlib Require Import ZArith Lia Ascii.
From S2P Require Import Prelude.

Open Scope string_scope.

Definition DELIMITER : string := ":".
Definition is_delimiter (a : ascii) : bool := Ascii.eqb a ":".
Definition is_newline (a : ascii) : bool := Ascii.eqb a (ascii_of_nat 10).

(** ** Splitting and joining *)
Fixpoint split (s : string) : list string :=
  match s with
  | EmptyString => [""]
  | String a s' =>
      if is_delimiter a then "" :: split s'
      else match split s' with
           | w :: ws => String a w :: ws
           | [] => [String a ""]
           end
  end.

(** [str::split_terminator]: an empty last part is left out. *)
Fixpoint drop_empty_last (ws : list string) : list string :=
  match ws with
  | [] => []
  | [w] => match w with EmptyString => [] | _ => [w] end
  | w :: ws => w :: drop_empty_last ws
  end.
Definition split_terminator (s : string) : list string := drop_empty_last (split s).

Fixpoint join (ws : list string) : string :=
  match ws with
  | [] => ""
  | [w] => w
  | w :: ws => w +:+ DELIMITER +:+ join ws
  end.

(** ** [utils/qualifier.rs] *)

(** A run of [a-z0-9], as long as possible, and what follows. *)
Definition is_word_char (a : ascii) : bool :=
  let n := nat_of_ascii a in ((97 <=? n) && (n <=? 122) || (48 <=? n) && (n <=? 57))%nat.
Fixpoint span_word (s : string) : string * string :=
  match s with
  | EmptyString => ("", "")
  | String a s' => if is_word_char a then let (w, r) := span_word s' in (String a w, r) else ("", s)
  end.
Definition word_then_delimiter (s : string) : option (string * string) :=
  match span_word s with
  | (String a w, String b r) => if is_delimiter b then Some (String a w, r) else None
  | _ => None
  end.
Fixpoint has_newline (s : string) : bool :=
  match s with EmptyString => false | String a s' => is_newline a || has_newline s' end.

(** The captures of the regular expression: two words of [a-z0-9], each followed by a
    colon, then anything but a newline up to the end; the second word and the rest. *)
Definition captures (entity : string) : option (string * string) :=
  match word_then_delimiter entity with
  | Some (_, s) =>
      match word_then_delimiter s with
      | Some (method, rest) => if has_newline rest then None else Some (method, rest)
      | None => None
      end
  | None => None
  end.

Definition qualify (entity prefix method : string) : string :=
  prefix +:+ ":" +:+ method +:+ ":" +:+ entity.
Definition to_unqualified (entity : string) : string :=
  match captures entity with Some (_, rest) => rest | None => entity end.
Definition method (entity : string) : option string := fst <$> captures entity.
Definition is_fully_qualified (entity : string) : bool :=
  match captures entity with Some _ => true | None => false end.

(** ** [DidValue] *)
Definition did_qualify (did m : string) : string := qualify did "did" m.

(** ** [SchemaId] *)
Definition with_method (id prefix did : string) : string :=
  match method did with Some m => qualify id prefix m | None => id end.

Definition schema_id_new (did name version : string) : string :=
  with_method (did +:+ DELIMITER +:+ "2" +:+ DELIMITER +:+ name +:+ DELIMITER +:+ version) "schema" did.
Definition schema_id_parts (id : string) : option (string * string * string) :=
  match split_terminator id with
  | [did; _; name; version] => Some (did, name, version)
  | [_; _; d1; d2; d3; _; name; version] => Some (join [d1; d2; d3], name, version)
  | _ => None
  end.
Definition schema_id_qualify (id m : string) : string :=
  match schema_id_parts id with
  | Some (did, name, version) => schema_id_new (did_qualify did m) name version
  | None => id
  end.
Definition schema_id_to_unqualified (id : string) : string :=
  match schema_id_parts id with
  | Some (did, name, version) => schema_id_new (to_unqualified did) name version
  | None => id
  end.

(** ** [CredentialDefinitionId] *)
Section CredDef.
(** [ProtocolVersion::is_node_1_3]. *)
Context (node_1_3 : bool).

Definition cred_def_id_new (did schema_id signature_type tag : string) : string :=
  let id := did +:+ DELIMITER +:+ "3" +:+ DELIMITER +:+ signature_type +:+ DELIMITER +:+ schema_id in
  with_method
    (if node_1_3 then id else match tag with EmptyString => id | _ => id +:+ DELIMITER +:+ tag end)
    "creddef" did.
Definition cred_def_id_parts (id : string) : option (string * string * string * string) :=
  match split_terminator id with
  | [did; _; signature_type; schema_id] => Some (did, signature_type, schema_id, "")
  | [did; _; signature_type; schema_id; tag] => Some (did, signature_type, schema_id, tag)
  | [did; _; signature_type; s1; s2; s3; s4] => Some (did, signature_type, join [s1; s2; s3; s4], "")
  | [did; _; signature_type; s1; s2; s3; s4; tag] => Some (did, signature_type, join [s1; s2; s3; s4], tag)
  | [_; _; d1; d2; d3; _; signature_type; schema_id; tag] =>
      Some (join [d1; d2; d3], signature_type, schema_id, tag)
  | [_; _; d1; d2; d3; _; signature_type; s1; s2; s3; s4; s5; s6; s7; s8; tag] =>
      Some (join [d1; d2; d3], signature_type, join [s1; s2; s3; s4; s5; s6; s7; s8], tag)
  | _ => None
  end.
Definition cred_def_issuer_did (id : string) : option string :=
  (fun '(did, _, _, _) => did) <$> cred_def_id_parts id.
Definition cred_def_id_qualify (id m : string) : string :=
  match cred_def_id_parts id with
  | Some (did, signature_type, schema_id, tag) =>
      cred_def_id_new (did_qualify did m) (schema_id_qualify schema_id m) signature_type tag
  | None => id
  end.
Definition cred_def_id_to_unqualified (id : string) : string :=
  match cred_def_id_parts id with
  | Some (did, signature_type, schema_id, tag) =>
      cred_def_id_new (to_unqualified did) (schema_id_to_unqualified schema_id) signature_type tag
  | None => id
  end.

(** ** [RevocationRegistryId] *)
Definition rev_reg_id_new (did cred_def_id rev_reg_type tag : string) : string :=
  with_method (did +:+ DELIMITER +:+ "4" +:+ DELIMITER +:+ cred_def_id +:+ DELIMITER +:+ rev_reg_type +:+ DELIMITER +:+ tag)
    "revreg" did.

(** Characters up to [sep] and then [k], for the longest run without newlines, of at
    most [n] characters, that works. *)
Fixpoint greedy {R : Type} (sep : string) (s : string) (k : string -> string -> option R) (n : nat) : option R :=
  match n with
  | 0 => None
  | S n' =>
      let w := String.substring 0 n s in
      let r := String.substring n (String.length s) s in
      match (if String.prefix sep r && negb (has_newline w)
             then k w (String.substring (String.length sep) (String.length r) r) else None) with
      | Some x => Some x
      | None => greedy sep s k n'
      end
  end.
Definition greedy_all {R : Type} (sep : string) (s : string) (k : string -> string -> option R) : option R :=
  greedy sep s k (String.length s).

(** The body of the expression, from the start of the string: did, [:4:], credential
    definition, type, tag. *)
Definition rev_reg_body (s : string) : option (string * string * string * string) :=
  greedy_all ":4:" s (fun did s =>
  greedy_all ":" s (fun cred_def_id s =>
  greedy_all ":" s (fun rev_reg_type tag =>
    match tag with
    | EmptyString => None
    | _ => if has_newline tag then None else Some (did, cred_def_id, rev_reg_type, tag)
    end))).
(** The optional prefix [revreg], with its method, is tried first. *)
Definition rev_reg_at_start (s : string) : option (string * string * string * string) :=
  match (if String.prefix "revreg:" s
         then match word_then_delimiter (String.substring 7 (String.length s) s) with
              | Some (_, r) => rev_reg_body r
              | None => None
              end
         else None) with
  | Some x => Some x
  | None => rev_reg_body s
  end.
(** Without the prefix the match may start anywhere. *)
Fixpoint rev_reg_search (s : string) : option (string * string * string * string) :=
  match rev_reg_body s with
  | Some x => Some x
  | None => match s with EmptyString => None | String _ s' => rev_reg_search s' end
  end.
Definition rev_reg_id_parts (id : string) : option (string * string * string * string) :=
  match rev_reg_at_start id with
  | Some x => Some x
  | None => rev_reg_search id
  end.
Definition rev_reg_id_to_unqualified (id : string) : string :=
  match rev_reg_id_parts id with
  | Some (did, cred_def_id, rev_reg_type, tag) =>
      rev_reg_id_new (to_unqualified did) (cred_def_id_to_unqualified cred_def_id) rev_reg_type tag
  | None => id
  end.
End CredDef.

(** ** Checks against examples of the code *)
Example rev_reg_qualified :
  rev_reg_id_parts "revreg:sov:did:sov:N:4:creddef:sov:did:sov:N:3:CL:schema:sov:did:sov:N:2:gvt:1.0:tag:CL_ACCUM:TAG_1" =
    Some ("did:sov:N", "creddef:sov:did:sov:N:3:CL:schema:sov:did:sov:N:2:gvt:1.0:tag", "CL_ACCUM", "TAG_1") /\
  rev_reg_id_to_unqualified false
    "revreg:sov:did:sov:N:4:creddef:sov:did:sov:N:3:CL:schema:sov:did:sov:N:2:gvt:1.0:tag:CL_ACCUM:TAG_1" =
    "N:4:N:3:CL:N:2:gvt:1.0:tag:CL_ACCUM:TAG_1" /\
  cred_def_id_to_unqualified false "creddef:sov:did:sov:N:3:CL:schema:sov:did:sov:N:2:gvt:1.0:tag" =
    "N:3:CL:N:2:gvt:1.0:tag" /\
  schema_id_to_unqualified "schema:sov:did:sov:N:2:Passport Schema:1.0" = "N:2:Passport Schema:1.0".
Proof. repeat split; vm_compute; reflexivity. Qed.

(** ** Taking apart what was put together *)

(** A part: it contains no delimiter. *)
Definition part (w : string) : Prop := split w = [w].

Lemma string_cons_app a w s : String a w +:+ s = String a (w +:+ s).
Proof. reflexivity. Qed.
Lemma split_nonempty s : exists w ws, split s = w :: ws.
Proof. destruct s as [|a s]; cbn; [by eexists _, _|]. destruct (is_delimiter a); [by eexists _, _|]. destruct (split s); by eexists _, _. Qed.
Lemma split_delimiter s : split (DELIMITER +:+ s) = "" :: split s.
Proof. reflexivity. Qed.
Lemma split_app w s : split (w +:+ DELIMITER +:+ s) = (split w ++ split s)%list.
Proof.
  induction w as [|a w IH]; [done|]. rewrite string_cons_app. cbn [split].
  destruct (is_delimiter a); [by rewrite IH|]. rewrite IH.
  destruct (split_nonempty w) as (v & vs & ->). done.
Qed.
Lemma split_part w s : part w -> split (w +:+ DELIMITER +:+ s) = w :: split s.
Proof. intros H. by rewrite split_app, H. Qed.
Lemma drop_empty_last_last ws w : w <> "" -> drop_empty_last (ws ++ [w]) = (ws ++ [w])%list.
Proof.
  intros Hw. induction ws as [|v [|v' ws] IH]; cbn in *; [by destruct w|by destruct w|]. by rewrite IH.
Qed.
Lemma split_join ws : Forall part ws -> ws <> [] -> split (join ws) = ws.
Proof.
  induction ws as [|w [|v ws] IH]; intros Hf Hn; [done|by apply Forall_cons in Hf as [H _]|].
  apply Forall_cons in Hf as [H1 H2]. change (join (w :: v :: ws)) with (w +:+ DELIMITER +:+ join (v :: ws)).
  rewrite split_part by done. by rewrite IH.
Qed.

(** A method: letters and digits. *)
Fixpoint is_word (s : string) : bool :=
  match s with EmptyString => true | String a s' => is_word_char a && is_word s' end.
Definition method_name (m : string) : Prop := m <> "" /\ is_word m = true.

Lemma word_not_delimiter a : is_word_char a = true -> is_delimiter a = false.
Proof. unfold is_delimiter. intros H. apply Ascii.eqb_neq. intros ->. discriminate H. Qed.
Lemma delimiter_not_word a : is_delimiter a = true -> is_word_char a = false.
Proof. intros H%Ascii.eqb_eq. by rewrite H. Qed.
Lemma word_part m : is_word m = true -> part m.
Proof.
  unfold part. induction m as [|a m IH]; [done|]. cbn. intros [Ha Hm]%andb_true_iff.
  by rewrite (word_not_delimiter a Ha), IH.
Qed.
Lemma span_word_app m s :
  is_word m = true -> span_word (m +:+ DELIMITER +:+ s) = (m, DELIMITER +:+ s).
Proof. induction m as [|a m IH]; [done|]. rewrite string_cons_app. cbn [is_word span_word]. intros [-> Hm]%andb_true_iff. by rewrite IH. Qed.
Lemma word_then_delimiter_app m s : method_name m -> word_then_delimiter (m +:+ DELIMITER +:+ s) = Some (m, s).
Proof.
  intros [Hn Hm]. unfold word_then_delimiter. rewrite span_word_app by done. by destruct m.
Qed.
Lemma captures_qualify entity prefix m :
  method_name prefix -> method_name m -> has_newline entity = false ->
  captures (qualify entity prefix m) = Some (m, entity).
Proof.
  intros Hp Hm He. unfold captures, qualify. change ":" with DELIMITER.
  by rewrite word_then_delimiter_app, word_then_delimiter_app, He.
Qed.
Lemma span_word_split s w r : span_word s = (w, r) -> s = w +:+ r.
Proof.
  revert w r. induction s as [|a s IH]; intros w r; cbn; [by intros [= <- <-]|].
  destruct (is_word_char a); [|by intros [= <- <-]]. destruct (span_word s) as [w' r']. intros [= <- <-].
  cbn. by rewrite (IH w' r').
Qed.
(** A part has no method. *)
Lemma captures_part w : part w -> captures w = None.
Proof.
  intros H. unfold captures, word_then_delimiter. destruct (span_word w) as [[|a v] [|b r]] eqn:E1; [done..|].
  destruct (is_delimiter b) eqn:Hb; [|done]. apply span_word_split in E1. exfalso.
  unfold is_delimiter in Hb. apply Ascii.eqb_eq in Hb. subst b w. unfold part in H.
  change (String a v +:+ String ":" r) with (String a v +:+ DELIMITER +:+ r) in H. rewrite split_app in H.
  destruct (split_nonempty (String a v)) as (w1 & ws1 & E1). destruct (split_nonempty r) as (w2 & ws2 & E2).
  rewrite E1, E2 in H. destruct ws1; discriminate H.
Qed.

(** *** Identifiers as joined parts *)

(** A DID of an agent: a part, with or without a method. *)
Inductive is_did (base : string) : option string -> string -> Prop :=
  | did_plain : is_did base None base
  | did_of_method m : method_name m -> is_did base (Some m) (did_qualify base m).

Lemma did_prefix_name : method_name "did".
Proof. done. Qed.
Lemma did_method base m did : part base -> has_newline base = false -> is_did base m did ->
  method did = m /\ to_unqualified did = base.
Proof.
  intros Hb Hn []; unfold method, to_unqualified.
  - by rewrite captures_part.
  - unfold did_qualify. by rewrite captures_qualify.
Qed.
(** The parts of a qualified identifier. *)
Lemma with_method_parts id prefix base m did :
  part base -> has_newline base = false -> is_did base m did -> part prefix ->
  split (with_method id prefix did) = match m with Some m => prefix :: m :: split id | None => split id end.
Proof.
  intros Hb Hn Hd Hp. unfold with_method. rewrite (proj1 (did_method base m did Hb Hn Hd)). destruct Hd as [|m [_ Hm]]; [done|].
  unfold qualify. change ":" with DELIMITER. by rewrite !split_part by first [done|by apply word_part].
Qed.
Lemma did_parts base m did : part base -> is_did base m did ->
  split did = match m with Some m => ["did"; m; base] | None => [base] end.
Proof.
  intros Hb []; [done|]. unfold did_qualify, qualify. change ":" with DELIMITER.
  rewrite !split_part; [by rewrite Hb|apply word_part, H|done].
Qed.
Lemma did_join base m did : part base -> is_did base m did ->
  did = match m with Some m => join ["did"; m; base] | None => base end.
Proof. by intros Hb []. Qed.

Section RoundTrips.
Context (base : string) (m : option string) (did : string).
Context (Hbase : part base) (Hline : has_newline base = false) (Hdid : is_did base m did).

(** The parts of a schema's identifier. *)
Lemma schema_id_split name version :
  part name -> part version ->
  split (schema_id_new did name version) =
  match m with
  | Some m => ["schema"; m; "did"; m; base; "2"; name; version]
  | None => [base; "2"; name; version]
  end.
Proof using Hbase Hline Hdid.
  intros Hn Hv. unfold schema_id_new. rewrite (with_method_parts _ _ base m) by done.
  rewrite split_app, (did_parts base m) by done. rewrite !split_part by done. rewrite Hv. by destruct m.
Qed.

Lemma schema_id_parts_new name version :
  part name -> part version -> version <> "" ->
  schema_id_parts (schema_id_new did name version) = Some (did, name, version).
Proof using Hbase Hline Hdid.
  intros Hn Hv Hne. unfold schema_id_parts, split_terminator. rewrite schema_id_split by done.
  pose proof (did_join base m did Hbase Hdid) as Hj. destruct m as [m'|].
  - pose proof (drop_empty_last_last ["schema"; m'; "did"; m'; base; "2"; name] version Hne) as E1.
    cbn [app] in E1. by rewrite E1, Hj.
  - pose proof (drop_empty_last_last [base; "2"; name] version Hne) as E1. cbn [app] in E1. by rewrite E1, Hj.
Qed.

Lemma schema_id_unqualified name version :
  part name -> part version -> version <> "" ->
  schema_id_to_unqualified (schema_id_new did name version) = schema_id_new base name version.
Proof using Hbase Hline Hdid.
  intros Hn Hv Hne. unfold schema_id_to_unqualified. rewrite schema_id_parts_new by done.
  by rewrite (proj2 (did_method base m did Hbase Hline Hdid)).
Qed.

(** The schema of a credential definition: a sequence number, or the identifier of a schema
    that is qualified like the DID. *)
Definition schema_ref (schema_id : string) : Prop :=
  (part schema_id /\ schema_id <> "") \/
  exists base' did' name version, part base' /\ has_newline base' = false /\ is_did base' m did' /\
    part name /\ part version /\ version <> "" /\ schema_id = schema_id_new did' name version.
End RoundTrips.

Lemma join_cons w v ws : join (w :: v :: ws) = w +:+ DELIMITER +:+ join (v :: ws).
Proof. reflexivity. Qed.
Lemma join_split s : join (split s) = s.
Proof.
  induction s as [|a s IH]; [done|]. cbn [split]. destruct (split_nonempty s) as (w & ws & E1). rewrite E1 in *.
  unfold is_delimiter. destruct (Ascii.eqb_spec a ":") as [->|Hn].
  - rewrite join_cons, IH. done.
  - destruct ws as [|v ws]; [cbn in *; by rewrite IH|]. rewrite join_cons in *. by rewrite string_cons_app, IH.
Qed.

Section CredDefRoundTrips.
Context (base : string) (m : option string) (did : string).
Context (Hbase : part base) (Hline : has_newline base = false) (Hdid : is_did base m did).

Lemma schema_ref_parts schema_id : schema_ref m schema_id ->
  split schema_id = [schema_id] \/
  match m with
  | None => exists s1 s2 s3 s4, split schema_id = [s1; s2; s3; s4]
  | Some _ => exists s1 s2 s3 s4 s5 s6 s7 s8, split schema_id = [s1; s2; s3; s4; s5; s6; s7; s8]
  end.
Proof using Type.
  clear dependent did. clear dependent base. intros [[H _]|(base' & did' & name & version & H1 & H2 & H3 & H4 & H5 & _ & ->)]; [by left|]. right.
  pose proof (schema_id_split base' m did' H1 H2 H3 name version H4 H5) as E1. destruct m; rewrite E1; by repeat eexists.
Qed.

Lemma cred_def_id_split schema_id signature_type tag :
  part signature_type -> part tag -> tag <> "" ->
  split (cred_def_id_new false did schema_id signature_type tag) =
  (match m with Some m => ["creddef"; m; "did"; m; base] | None => [base] end ++
   ["3"; signature_type] ++ split schema_id ++ [tag])%list.
Proof using Hbase Hline Hdid.
  intros Hs Ht Hne. unfold cred_def_id_new. rewrite (with_method_parts _ _ base m) by done.
  destruct tag as [|a tag]; [done|]. set (id := did +:+ DELIMITER +:+ "3" +:+ DELIMITER +:+ signature_type +:+ DELIMITER +:+ schema_id).
  assert (E1 : split id = (match m with Some m => ["did"; m; base] | None => [base] end ++ ["3"; signature_type] ++ split schema_id)%list).
  { unfold id. rewrite split_app, (did_parts base m) by done. by rewrite !split_part. }
  rewrite split_app, E1, Ht, <-!app_assoc. by destruct m.
Qed.

Lemma cred_def_id_parts_new schema_id signature_type tag :
  schema_ref m schema_id -> part signature_type -> part tag -> tag <> "" ->
  cred_def_id_parts (cred_def_id_new false did schema_id signature_type tag) = Some (did, signature_type, schema_id, tag).
Proof using Hbase Hline Hdid.
  intros Hr Hs Ht Hne. unfold cred_def_id_parts, split_terminator. rewrite cred_def_id_split, !app_assoc by done.
  rewrite drop_empty_last_last by done. pose proof (did_join base m did Hbase Hdid) as Hj.
  pose proof (join_split schema_id) as Hjs. apply schema_ref_parts in Hr as [E1|E1].
  - rewrite E1. destruct m; by rewrite Hj.
  - destruct m.
    + destruct E1 as (s1 & s2 & s3 & s4 & s5 & s6 & s7 & s8 & E1). rewrite E1 in *. cbn [app]. by rewrite Hjs, Hj.
    + destruct E1 as (s1 & s2 & s3 & s4 & E1). rewrite E1 in *. cbn [app]. by rewrite Hjs, Hj.
Qed.
End CredDefRoundTrips.

(** An unqualified reference to the same schema. *)
Lemma schema_ref_unqualified m schema_id : schema_ref m schema_id ->
  schema_ref None (schema_id_to_unqualified schema_id).
Proof.
  intros [[H1 H2]|(base' & did' & name & version & H1 & H2 & H3 & H4 & H5 & H6 & ->)].
  - left. unfold schema_id_to_unqualified, schema_id_parts, split_terminator. rewrite H1. by destruct schema_id.
  - right. exists base', base', name, version. rewrite (schema_id_unqualified base' m did') by done.
    split; [done|]. split; [done|]. split; [apply did_plain|]. done.
Qed.

(** What is put together can be taken apart.  For a DID with or without a method, the
    parts of the identifier made for a schema, and of the one made for a credential definition
    with a tag, are the DID, the names and the schema it was made from, so that the issuer the
    verifier reads from it is the DID that made it; and unqualifying such an identifier gives
    the one made from the unqualified DID and schema, which has the same parts. *)
Theorem identifiers_roundtrip base m did name version schema_id signature_type tag :
  part base -> has_newline base = false -> is_did base m did ->
  part name -> part version -> version <> "" ->
  schema_ref m schema_id -> part signature_type -> part tag -> tag <> "" ->
  let sid := schema_id_new did name version in
  let cid := cred_def_id_new false did schema_id signature_type tag in
  schema_id_parts sid = Some (did, name, version) /\
  schema_id_to_unqualified sid = schema_id_new base name version /\
  cred_def_id_parts cid = Some (did, signature_type, schema_id, tag) /\ cred_def_issuer_did cid = Some did /\
  cred_def_id_to_unqualified false cid =
    cred_def_id_new false base (schema_id_to_unqualified schema_id) signature_type tag /\
  cred_def_issuer_did (cred_def_id_to_unqualified false cid) = Some base.
Proof.
  intros Hb Hl Hd Hn Hv Hv' Hr Hs Ht Ht' sid cid.
  pose proof (cred_def_id_parts_new base m did Hb Hl Hd schema_id signature_type tag Hr Hs Ht Ht') as Hc.
  assert (Hu : cred_def_id_to_unqualified false cid =
    cred_def_id_new false base (schema_id_to_unqualified schema_id) signature_type tag).
  { unfold cred_def_id_to_unqualified, cid. rewrite Hc. by rewrite (proj2 (did_method base m did Hb Hl Hd)). }
  split; [by apply (schema_id_parts_new base m)|]. split; [by apply (schema_id_unqualified base m)|].
  split; [done|]. split; [unfold cred_def_issuer_did, cid; by rewrite Hc|]. split; [done|]. rewrite Hu.
  unfold cred_def_issuer_did. rewrite (cred_def_id_parts_new base None base Hb Hl (did_plain base)); [done| |done..].
  by apply (schema_ref_unqualified m).
Qed.

Lemma identifiers_roundtrip_witness :
  let sid := schema_id_new "did:sov:N" "gvt" "1.0" in
  let cid := cred_def_id_new false "did:sov:N" sid "CL" "tag" in
  schema_id_parts sid = Some ("did:sov:N", "gvt", "1.0") /\
  schema_id_to_unqualified sid = schema_id_new "N" "gvt" "1.0" /\
  cred_def_id_parts cid = Some ("did:sov:N", "CL", sid, "tag") /\ cred_def_issuer_did cid = Some "did:sov:N" /\
  cred_def_id_to_unqualified false cid = cred_def_id_new false "N" (schema_id_to_unqualified sid) "CL" "tag" /\
  cred_def_issuer_did (cred_def_id_to_unqualified false cid) = Some "N".
Proof.
  apply (identifiers_roundtrip "N" (Some "sov") "did:sov:N" "gvt" "1.0"); try reflexivity; try discriminate.
  - by apply (did_of_method "N" "sov").
  - right. exists "N", "did:sov:N", "gvt", "1.0". repeat split; try reflexivity; try discriminate.
    by apply (did_of_method "N" "sov").
Defined.

(** Without a tag (the node protocol of version 1.3 has none) the identifier of a qualified
    credential definition has as many parts as an unqualified one with a tag: it is read as
    one of the DID [creddef]. *)
Theorem untagged_qualified_id_misread base m schema_id signature_type :
  part base -> has_newline base = false -> method_name m -> part schema_id -> schema_id <> "" -> part signature_type ->
  cred_def_issuer_did (cred_def_id_new true (did_qualify base m) schema_id signature_type "tag") = Some "creddef".
Proof.
  intros Hb Hl Hm Hs Hn Ht. pose proof (did_of_method base m Hm) as Hd.
  unfold cred_def_issuer_did, cred_def_id_parts, split_terminator, cred_def_id_new.
  rewrite (with_method_parts _ _ base (Some m)) by done.
  rewrite split_app, (did_parts base (Some m)) by done. rewrite !split_part by done. rewrite Hs.
  pose proof (drop_empty_last_last ["creddef"; m; "did"; m; base; "3"; signature_type] schema_id Hn) as E1.
  cbn [app] in *. by rewrite E1.
Qed.
