(* ===== verification/ProofRequest.v ===== *)
(** * Proof requests

    [domain/anoncreds/proof_request.rs]: what a verifier asks for, the validation of a
    request, and its conversion to unqualified identifiers.

    The order in which a [HashMap] is iterated is a parameter ([HashOrder]); it decides only
    which of several errors is reported. *)

From stdpp Require Import base list strings numbers gmap.
From Stdlib Require Import ZArith Lia.
From S2P Require Import Prelude Json Wql Identifiers.

Open Scope string_scope.

(** ** Maps and their iteration *)
Class HashOrder := { iter : forall {V : Type}, gmap string V -> list (string * V) }.
Class HashOrderLaws (H : HashOrder) := { iter_perm (V : Type) (m : gmap string V) : iter m ≡ₚ map_to_list m }.

Lemma elem_of_iter {H : HashOrder} {HL : HashOrderLaws H} {V : Type} (m : gmap string V) k v :
  (k, v) ∈ iter m <-> m !! k = Some v.
Proof. by rewrite iter_perm, elem_of_map_to_list. Qed.

(** ** Data *)
Record NonRevocedInterval := mkInterval { iv_from : option Z; iv_to : option Z }.
Record AttributeInfo := mkAttributeInfo {
  ai_name : option string;
  ai_names : option (list string);
  ai_restrictions : option Query;
  ai_non_revoked : option NonRevocedInterval
}.
Inductive PredicateTypes := GE | LE | GT | LT.
Record PredicateInfo := mkPredicateInfo {
  pi_name : string;
  p_type : PredicateTypes;
  p_value : Z;
  pi_restrictions : option Query;
  pi_non_revoked : option NonRevocedInterval
}.
(** [nonce] is a number of ursa. *)
Record ProofRequestPayload := mkPayload {
  nonce : Z;
  pr_name : string;
  pr_version : string;
  requested_attributes : gmap string AttributeInfo;
  requested_predicates : gmap string PredicateInfo;
  non_revoked : option NonRevocedInterval
}.
Inductive ProofRequest :=
  | ProofRequestV1 (proof_req : ProofRequestPayload)
  | ProofRequestV2 (proof_req : ProofRequestPayload).
Inductive ProofRequestsVersion := V1 | V2.

Definition predicate_type_text (p : PredicateTypes) : string :=
  match p with GE => "GE" | GT => "GT" | LE => "LE" | LT => "LT" end.
Definition value (r : ProofRequest) : ProofRequestPayload :=
  match r with ProofRequestV1 p | ProofRequestV2 p => p end.
Definition version (r : ProofRequest) : ProofRequestsVersion :=
  match r with ProofRequestV1 _ => V1 | ProofRequestV2 _ => V2 end.

(** ** Validation *)
Definition QUALIFIABLE_TAGS : list string := ["issuer_did"; "cred_def_id"; "schema_id"; "schema_issuer_did"; "rev_reg_id"].

(** A text between double quotes. *)
Definition quoted (s : string) : string :=
  String (Ascii.ascii_of_nat 34) s +:+ String (Ascii.ascii_of_nat 34) "".

Definition _check_restriction (tag_name tag_value : string) (version : ProofRequestsVersion) : result unit :=
  match version with
  | V1 => if bool_decide (tag_name ∈ QUALIFIABLE_TAGS) && is_fully_qualified tag_value
          then RErr ("Proof Request validation failed: fully qualified identifiers can not be used for Proof Request of the first version. Please, set " +:+
                     quoted "ver" +:+ ":" +:+ quoted "2.0" +:+ " to use fully qualified identifiers.")
          else ROk ()
  | V2 => ROk ()
  end.

(** [iter().map(f).collect::<Result<Vec<()>, _>>()]. *)
Fixpoint all_ok {A : Type} (f : A -> result unit) (l : list A) : result unit :=
  match l with [] => ROk () | x :: l => let! _ := f x in all_ok f l end.

Fixpoint check_operator (restriction_op : Query) (version : ProofRequestsVersion) : result unit :=
  match restriction_op with
  | QEq tag_name tag_value | QNeq tag_name tag_value | QGt tag_name tag_value | QGte tag_name tag_value
  | QLt tag_name tag_value | QLte tag_name tag_value | QLike tag_name tag_value =>
      _check_restriction tag_name tag_value version
  | QIn tag_name tag_values => all_ok (fun tag_value => _check_restriction tag_name tag_value version) tag_values
  | QAnd operators | QOr operators => all_ok (fun operator => check_operator operator version) operators
  | QNot operator => check_operator operator version
  end.

Section Validate.
Context {H : HashOrder}.
(** The [Debug] text of a requested attribute or predicate in a message. *)
Context (debug_attribute : AttributeInfo -> string) (debug_predicate : PredicateInfo -> string).

Definition has_name (a : AttributeInfo) : bool := match ai_name a with Some (String _ _) => true | _ => false end.
Definition has_names (a : AttributeInfo) : bool := match ai_names a with Some (_ :: _) => true | _ => false end.

Definition check_restrictions (q : option Query) (version : ProofRequestsVersion) : result unit :=
  match q with Some restrictions => check_operator restrictions version | None => ROk () end.

Definition validate_attribute (version : ProofRequestsVersion) (requested_attribute : AttributeInfo) : result unit :=
  if negb (has_name requested_attribute) && negb (has_names requested_attribute)
  then RErr ("Proof Request validation failed: there is empty requested attribute: " +:+ debug_attribute requested_attribute)
  else if has_name requested_attribute && has_names requested_attribute
  then RErr ("Proof request validation failed: there is a requested attribute with both name and names: " +:+
             debug_attribute requested_attribute)
  else check_restrictions (ai_restrictions requested_attribute) version.

Definition validate_predicate (version : ProofRequestsVersion) (requested_predicate : PredicateInfo) : result unit :=
  match pi_name requested_predicate with
  | EmptyString => RErr ("Proof Request validation failed: there is empty requested attribute: " +:+ debug_predicate requested_predicate)
  | _ => check_restrictions (pi_restrictions requested_predicate) version
  end.

Definition validate (self : ProofRequest) : result unit :=
  let p := value self in
  if bool_decide (requested_attributes p = ∅ /\ requested_predicates p = ∅)
  then RErr "Proof Request validation failed: both `requested_attributes` and `requested_predicates` are empty"
  else
    let! _ := all_ok (fun '(_, a) => validate_attribute (version self) a) (iter (requested_attributes p)) in
    all_ok (fun '(_, a) => validate_predicate (version self) a) (iter (requested_predicates p)).
End Validate.

(** ** Unqualified requests *)
Section Unqualified.
Context (node_1_3 : bool).

Definition _convert_value_to_unqualified (tag_name tag_value : string) : string :=
  if bool_decide (tag_name = "issuer_did" \/ tag_name = "schema_issuer_did") then to_unqualified tag_value
  else if bool_decide (tag_name = "schema_id") then schema_id_to_unqualified tag_value
  else if bool_decide (tag_name = "cred_def_id") then cred_def_id_to_unqualified node_1_3 tag_value
  else if bool_decide (tag_name = "rev_reg_id") then rev_reg_id_to_unqualified node_1_3 tag_value
  else tag_value.

(** A negation is converted to what it negates. *)
Fixpoint _convert_query_to_unqualified (query : Query) : Query :=
  match query with
  | QEq tag_name tag_value => QEq tag_name (_convert_value_to_unqualified tag_name tag_value)
  | QNeq tag_name tag_value => QNeq tag_name (_convert_value_to_unqualified tag_name tag_value)
  | QIn tag_name tag_values => QIn tag_name (map (_convert_value_to_unqualified tag_name) tag_values)
  | QAnd queries => QAnd (map _convert_query_to_unqualified queries)
  | QOr queries => QOr (map _convert_query_to_unqualified queries)
  | QNot query => _convert_query_to_unqualified query
  | query => query
  end.

Definition unqualified_payload (p : ProofRequestPayload) : ProofRequestPayload :=
  mkPayload (nonce p) (pr_name p) (pr_version p)
    ((fun a => mkAttributeInfo (ai_name a) (ai_names a) (_convert_query_to_unqualified <$> ai_restrictions a)
                 (ai_non_revoked a)) <$> requested_attributes p)
    ((fun a => mkPredicateInfo (pi_name a) (p_type a) (p_value a) (_convert_query_to_unqualified <$> pi_restrictions a)
                 (pi_non_revoked a)) <$> requested_predicates p)
    (non_revoked p).
Definition proof_request_to_unqualified (self : ProofRequest) : ProofRequest :=
  match self with
  | ProofRequestV2 p => ProofRequestV2 (unqualified_payload p)
  | ProofRequestV1 p => ProofRequestV1 (unqualified_payload p)
  end.
End Unqualified.

(** ** What validation guarantees *)
Lemma all_ok_forall {A : Type} (f : A -> result unit) l : all_ok f l = ROk () <-> Forall (fun x => f x = ROk ()) l.
Proof.
  induction l as [|x l IH]; cbn; [done|]. rewrite Forall_cons, <-IH. destruct (f x) as [[]|]; cbn; naive_solver.
Qed.

(** The identifiers of a query that a request of the first version must not qualify. *)
Fixpoint restrictions_of (q : Query) : list (string * string) :=
  match q with
  | QEq n v | QNeq n v | QGt n v | QGte n v | QLt n v | QLte n v | QLike n v => [(n, v)]
  | QIn n vs => (fun v => (n, v)) <$> vs
  | QAnd qs | QOr qs => concat (map restrictions_of qs)
  | QNot q => restrictions_of q
  end.
Definition qualified_restriction (r : string * string) : Prop :=
  r.1 ∈ QUALIFIABLE_TAGS /\ is_fully_qualified r.2 = true.

Lemma check_restriction_ok n v ver :
  _check_restriction n v ver = ROk () <-> (ver = V1 -> ~ qualified_restriction (n, v)).
Proof.
  unfold _check_restriction, qualified_restriction. destruct ver; cbn; [|by naive_solver].
  case_bool_decide; destruct (is_fully_qualified v); cbn; naive_solver.
Qed.

Lemma Forall_concat_map {A B : Type} (P : B -> Prop) (f : A -> list B) (l : list A) :
  Forall P (concat (map f l)) <-> Forall (fun x => Forall P (f x)) l.
Proof. induction l as [|x l IH]; cbn; [by split|]. by rewrite Forall_app, Forall_cons, IH. Qed.

Lemma check_operator_ok ver q :
  check_operator q ver = ROk () <-> Forall (fun r => ver = V1 -> ~ qualified_restriction r) (restrictions_of q).
Proof.
  induction q as [l IH|l IH|q IH| | | | | | | |n vs] using Query_nested_ind; cbn [check_operator restrictions_of];
    try (rewrite check_restriction_ok, Forall_singleton; done); [| |done|].
  1, 2: rewrite all_ok_forall, Forall_concat_map; induction IH as [|x l Hx _ IHl]; [done|]; by rewrite !Forall_cons, Hx, IHl.
  rewrite all_ok_forall, Forall_fmap. apply Forall_iff. intros v. apply check_restriction_ok.
Qed.
