(* ===== verification/Verifier.v ===== *)
(** * The verifier of anonymous credentials

    [services/anoncreds/verifier.rs] with the proofs of [domain/anoncreds/proof.rs] and what
    it uses of [services/anoncreds/helpers.rs].  Before the zero-knowledge proof is checked by
    ursa, the verifier compares what the proof claims to show with what was requested: every
    requested attribute and predicate is there, revealed values are those of the
    cryptographic proof, each credential meets the restrictions, and there is a timestamp
    where a proof of non-revocation was asked for.

    ursa is a parameter ([Ursa]), with its documented promise about an accepted proof in
    [UrsaLaws].  Unicode's lower case, the order of [HashMap]s and the [Debug] texts of
    messages are parameters.

    Shown: an accepted proof reveals only what issuers signed in credentials that meet the
    restrictions; restrictions mean what their operators say; the checks do not panic on a
    proof that does not both reveal and self-attest an attribute.  Also shown: how a proof
    that names an attribute twice gets around a restriction. *)

From stdpp Require Import base list strings numbers gmap pretty.
From Stdlib Require Import ZArith Lia Ascii.
From S2P Require Import Prelude Json Wql Identifiers ProofRequest.

Open Scope string_scope.

(** ** ursa *)
Class Ursa := {
  CryptoProof : Type;
  SubProof : Type;
  proofs : CryptoProof -> list SubProof;
  revealed_attrs_of : SubProof -> outcome (list (string * string));
  from_dec : string -> outcome Z;
  CredentialSchema : Type;
  CredentialSchemaBuilder : Type;
  new_credential_schema_builder : outcome CredentialSchemaBuilder;
  schema_add_attr : CredentialSchemaBuilder -> string -> outcome CredentialSchemaBuilder;
  schema_finalize : CredentialSchemaBuilder -> outcome CredentialSchema;
  NonCredentialSchema : Type;
  NonCredentialSchemaBuilder : Type;
  new_non_credential_schema_builder : outcome NonCredentialSchemaBuilder;
  non_schema_add_attr : NonCredentialSchemaBuilder -> string -> outcome NonCredentialSchemaBuilder;
  non_schema_finalize : NonCredentialSchemaBuilder -> outcome NonCredentialSchema;
  SubProofRequest : Type;
  SubProofRequestBuilder : Type;
  new_sub_proof_request_builder : outcome SubProofRequestBuilder;
  add_revealed_attr : SubProofRequestBuilder -> string -> outcome SubProofRequestBuilder;
  add_predicate : SubProofRequestBuilder -> string -> string -> Z -> outcome SubProofRequestBuilder;
  request_finalize : SubProofRequestBuilder -> outcome SubProofRequest;
  PrimaryKey : Type;
  RevocationKey : Type;
  CredentialPublicKey : Type;
  build_from_parts : PrimaryKey -> option RevocationKey -> outcome CredentialPublicKey;
  RevocationKeyPublic : Type;
  RevocationRegistry : Type;
  ProofVerifier : Type;
  new_proof_verifier : outcome ProofVerifier;
  add_sub_proof_request : ProofVerifier -> SubProofRequest -> CredentialSchema -> NonCredentialSchema ->
    CredentialPublicKey -> option RevocationKeyPublic -> option RevocationRegistry -> outcome ProofVerifier;
  crypto_verify : ProofVerifier -> CryptoProof -> Z -> outcome bool
}.

(** ** Proofs *)
Record Identifier := mkIdentifier {
  schema_id : string;
  cred_def_id : string;
  rev_reg_id : option string;
  timestamp : option Z
}.
Record RevealedAttributeInfo := mkRevealed { ra_index : nat; ra_raw : string; ra_encoded : string }.
Record AttributeValue := mkAttributeValue { av_raw : string; av_encoded : string }.
Record RevealedAttributeGroupInfo := mkGroup { rg_index : nat; rg_values : gmap string AttributeValue }.
(** [SubProofReferent] is its index. *)
Record RequestedProof := mkRequestedProof {
  revealed_attrs : gmap string RevealedAttributeInfo;
  revealed_attr_groups : gmap string RevealedAttributeGroupInfo;
  self_attested_attrs : gmap string string;
  unrevealed_attrs : gmap string nat;
  predicates : gmap string nat
}.

(** The texts of messages that the [Debug] format makes. *)
Class Debug := {
  debug_names : gset string -> string;
  debug_identifiers : gmap string Identifier -> string;
  debug_values : gmap string (option string) -> string;
  debug_strings : list string -> string;
  debug_option : option string -> string;
  debug_number : Z -> string
}.

Section Verifier.
Context {U : Ursa} {H : HashOrder} {D : Debug}.
(** [str::to_lowercase]. *)
Context (to_lowercase : string -> string).

Record Proof_ := mkProof { proof : CryptoProof; requested_proof : RequestedProof; identifiers : list Identifier }.

(** The parts that the verifier reads of the objects from the ledger. *)
Record SchemaV1 := mkSchema { attr_names : list string }.
Record CredentialDefinitionV1 := mkCredDef { cd_primary : PrimaryKey; cd_revocation : option RevocationKey }.
Record RevocationRegistryDefinitionV1 := mkRevRegDef { accum_key : RevocationKeyPublic }.
Record RevocationRegistryV1 := mkRevReg { rr_value : RevocationRegistry }.

(** ** Helpers of [helpers.rs] *)
Fixpoint remove_spaces (s : string) : string :=
  match s with
  | EmptyString => ""
  | String a s' => if Ascii.eqb a " " then remove_spaces s' else String a (remove_spaces s')
  end.
Definition attr_common_view (attr : string) : string := to_lowercase (remove_spaces attr).

Definition get_non_revoc_interval (global_interval local_interval : option NonRevocedInterval) : option NonRevocedInterval :=
  let interval := match local_interval with Some i => Some i | None => global_interval end in
  match interval with
  | Some x => match iv_to x, iv_from x with None, None => None | _, _ => Some x end
  | None => None
  end.

(** A loop whose body changes a builder. *)
Fixpoint fold_outcome {A B : Type} (f : B -> A -> outcome B) (l : list A) (b : B) : outcome B :=
  match l with [] => Ok b | x :: l => let? b := f b x in fold_outcome f l b end.

Definition build_credential_schema (attrs : list string) : outcome CredentialSchema :=
  let? b := new_credential_schema_builder in
  let? b := fold_outcome (fun b attr => schema_add_attr b (attr_common_view attr)) attrs b in
  schema_finalize b.
Definition build_non_credential_schema : outcome NonCredentialSchema :=
  let? b := new_non_credential_schema_builder in
  let? b := non_schema_add_attr b "master_secret" in
  non_schema_finalize b.

Definition names_of (attr : AttributeInfo) : option (list string) :=
  match ai_name attr, ai_names attr with
  | Some name, _ => Some [name]
  | None, Some names => Some names
  | None, None => None
  end.
Definition add_names (b : SubProofRequestBuilder) (attr : AttributeInfo) : outcome SubProofRequestBuilder :=
  match names_of attr with
  | Some names => fold_outcome (fun b name => add_revealed_attr b (attr_common_view name)) names b
  | None => Err (err_msg InvalidStructure ("Attr for credential restriction should contain " +:+ quoted "name" +:+
                   " or " +:+ quoted "names" +:+ " param."))
  end.
Definition build_sub_proof_request (attrs_for_credential : list AttributeInfo)
    (predicates_for_credential : list PredicateInfo) : outcome SubProofRequest :=
  let? b := new_sub_proof_request_builder in
  let? b := fold_outcome add_names attrs_for_credential b in
  let? b := fold_outcome (fun b predicate =>
              add_predicate b (attr_common_view (pi_name predicate)) (predicate_type_text (p_type predicate))
                (p_value predicate)) predicates_for_credential b in
  request_finalize b.

(** ** Received attributes *)
Definition ok_or {A : Type} (o : option A) (e : IndyError) : outcome A :=
  match o with Some a => Ok a | None => Err e end.
Fixpoint for_each {A : Type} (f : A -> outcome unit) (l : list A) : outcome unit :=
  match l with [] => Ok () | x :: l => let? _ := f x in for_each f l end.

Definition _get_proof_identifier (p : Proof_) (index : nat) : outcome Identifier :=
  ok_or (identifiers p !! index)
    (err_msg InvalidStructure ("Identifier not found for index: " +:+ pretty (N.of_nat index))).

(** [for (referent, info) in ... { identifiers.insert(referent, ...) }]. *)
Definition insert_identifiers {V : Type} (p : Proof_) (index : V -> nat) (l : list (string * V))
    (m : gmap string Identifier) : outcome (gmap string Identifier) :=
  fold_outcome (fun m '(referent, info) =>
    let? id := _get_proof_identifier p (index info) in Ok (<[referent := id]> m)) l m.

Definition _received_revealed_attrs (p : Proof_) : outcome (gmap string Identifier) :=
  let? m := insert_identifiers p ra_index (iter (revealed_attrs (requested_proof p))) ∅ in
  insert_identifiers p rg_index (iter (revealed_attr_groups (requested_proof p))) m.
Definition _received_unrevealed_attrs (p : Proof_) : outcome (gmap string Identifier) :=
  insert_identifiers p id (iter (unrevealed_attrs (requested_proof p))) ∅.
Definition _received_predicates (p : Proof_) : outcome (gmap string Identifier) :=
  insert_identifiers p id (iter (predicates (requested_proof p))) ∅.
Definition _received_self_attested_attrs (p : Proof_) : gset string := dom (self_attested_attrs (requested_proof p)).

(** ** Proof and request *)
Definition _compare_attr_from_proof_and_request (proof_req : ProofRequestPayload)
    (received_revealed_attrs received_unrevealed_attrs : gmap string Identifier)
    (received_self_attested_attrs : gset string) (received_predicates : gmap string Identifier) : outcome unit :=
  let requested_attrs : gset string := dom (requested_attributes proof_req) in
  let received_attrs : gset string :=
    dom received_revealed_attrs ∪ dom received_unrevealed_attrs ∪ received_self_attested_attrs in
  if bool_decide (requested_attrs <> received_attrs)
  then Err (err_msg InvalidStructure ("Requested attributes " +:+ debug_names requested_attrs +:+
              " do not correspond to received " +:+ debug_names received_attrs))
  else
    let requested_predicates : gset string := dom (requested_predicates proof_req) in
    if bool_decide (requested_predicates <> dom received_predicates)
    then Err (err_msg InvalidStructure ("Requested predicates " +:+ debug_names requested_predicates +:+
                " do not correspond to received " +:+ debug_identifiers received_predicates))
    else Ok ().

Definition no_timestamp : IndyError := err_msg InvalidStructure "".
Definition _validate_timestamp (received_ : gmap string Identifier) (referent : string)
    (global_interval local_interval : option NonRevocedInterval) : outcome unit :=
  match get_non_revoc_interval global_interval local_interval with
  | None => Ok ()
  | Some _ =>
      match received_ !! referent ≫= timestamp with
      | Some _ => Ok ()
      | None => Err no_timestamp
      end
  end.
Definition or_else {A : Type} (m : outcome A) (k : outcome A) : outcome A :=
  match m with Err _ => k | r => r end.

Definition _compare_timestamps_from_proof_and_request (proof_req : ProofRequestPayload)
    (received_revealed_attrs received_unrevealed_attrs : gmap string Identifier)
    (received_self_attested_attrs : gset string) (received_predicates : gmap string Identifier) : outcome unit :=
  let? _ := for_each (fun '(referent, info) =>
    or_else (or_else (_validate_timestamp received_revealed_attrs referent (non_revoked proof_req) (ai_non_revoked info))
                     (_validate_timestamp received_unrevealed_attrs referent (non_revoked proof_req) (ai_non_revoked info)))
            (if bool_decide (referent ∈ received_self_attested_attrs) then Ok () else Err no_timestamp))
    (iter (requested_attributes proof_req)) in
  for_each (fun '(referent, info) =>
    _validate_timestamp received_predicates referent (non_revoked proof_req) (pi_non_revoked info))
    (iter (requested_predicates proof_req)).

(** ** Revealed values *)
Definition same_view (a b : string) : bool := String.eqb (attr_common_view a) (attr_common_view b).
Fixpoint find {A : Type} (f : A -> bool) (l : list A) : option A :=
  match l with [] => None | x :: l => if f x then Some x else find f l end.

Definition _verify_revealed_attribute_value (attr_name : string) (p : Proof_) (attr_info : RevealedAttributeInfo)
  : outcome unit :=
  let reveal_attr_encoded := ra_encoded attr_info in
  let sub_proof_index := ra_index attr_info in
  let? sub := ok_or (proofs (proof p) !! sub_proof_index)
    (err_msg ProofRejected ("CryptoProof not found by index " +:+ quoted (pretty (N.of_nat sub_proof_index)))) in
  let? attrs := revealed_attrs_of sub in
  let? crypto_proof_encoded := ok_or (snd <$> find (fun '(key, _) => same_view attr_name key) attrs)
    (err_msg ProofRejected ("Attribute with name " +:+ quoted attr_name +:+ " not found in CryptoProof")) in
  let? a := from_dec reveal_attr_encoded in
  let? b := from_dec crypto_proof_encoded in
  if negb (a =? b)%Z
  then Err (err_msg ProofRejected ("Encoded Values for " +:+ quoted attr_name +:+ " are different in RequestedProof " +:+
              quoted reveal_attr_encoded +:+ " and CryptoProof " +:+ quoted crypto_proof_encoded))
  else Ok ().

Definition not_requested (attr_referent : string) : IndyError :=
  err_msg ProofRejected ("Attribute with referent " +:+ quoted attr_referent +:+ " not found in ProofRequests").
Definition group_mismatch : IndyError :=
  err_msg InvalidStructure "Proof Revealed Attr Group does not match Proof Request Attribute Group".

Definition verify_single (proof_req : ProofRequestPayload) (p : Proof_) : string * RevealedAttributeInfo -> outcome unit :=
  fun '(attr_referent, attr_info) =>
    let? info := ok_or (requested_attributes proof_req !! attr_referent) (not_requested attr_referent) in
    let? attr_name := ok_or (ai_name info) (not_requested attr_referent) in
    _verify_revealed_attribute_value attr_name p attr_info.
Definition verify_group (proof_req : ProofRequestPayload) (p : Proof_) : string * RevealedAttributeGroupInfo -> outcome unit :=
  fun '(attr_referent, attr_infos) =>
    let? info := ok_or (requested_attributes proof_req !! attr_referent) (not_requested attr_referent) in
    let? attr_names := ok_or (ai_names info) (not_requested attr_referent) in
    if negb (size (rg_values attr_infos) =? length attr_names)%nat then Err group_mismatch
    else for_each (fun attr_name =>
           let? attr_info := ok_or (rg_values attr_infos !! attr_name) group_mismatch in
           _verify_revealed_attribute_value attr_name p
             (mkRevealed (rg_index attr_infos) (av_raw attr_info) (av_encoded attr_info))) attr_names.
Definition _verify_revealed_attribute_values (proof_req : ProofRequestPayload) (p : Proof_) : outcome unit :=
  let? _ := for_each (verify_single proof_req p) (iter (revealed_attrs (requested_proof p))) in
  for_each (verify_group proof_req p) (iter (revealed_attr_groups (requested_proof p))).

(** ** Restrictions *)
Record Filter := mkFilter {
  f_schema_id : string;
  f_schema_issuer_did : string;
  f_schema_name : string;
  f_schema_version : string;
  f_issuer_did : string;
  f_cred_def_id : string
}.

Definition _is_self_attested (referent : string) (info : AttributeInfo) (self_attested_attrs : gset string) : bool :=
  match ai_restrictions info with
  | Some (QAnd []) | Some (QOr []) | None => bool_decide (referent ∈ self_attested_attrs)
  | Some _ => false
  end.

Definition _gather_filter_info (referent : string) (identifiers : gmap string Identifier) : outcome Filter :=
  let? identifier := ok_or (identifiers !! referent)
    (err_msg InvalidState ("Identifier not found for referent: " +:+ referent)) in
  let? (schema_issuer_did, schema_name, schema_version) := ok_or (schema_id_parts (schema_id identifier))
    (err_msg InvalidState ("Invalid Schema ID `" +:+ schema_id identifier +:+ "`: wrong number of parts")) in
  let? issuer_did := ok_or (cred_def_issuer_did (cred_def_id identifier))
    (err_msg InvalidState ("Invalid Credential Definition ID `" +:+ cred_def_id identifier +:+ "`: wrong number of parts")) in
  Ok (mkFilter (schema_id identifier) schema_issuer_did schema_name schema_version issuer_did (cred_def_id identifier)).

(** The name in [attr::name::value] or [attr::name::marker]: one or more characters, none
    of them a colon. *)
Fixpoint span_name (s : string) : string * string :=
  match s with
  | EmptyString => ("", "")
  | String a s' => if is_delimiter a then ("", s) else let (w, r) := span_name s' in (String a w, r)
  end.
Definition strip_prefix (pre s : string) : option string :=
  if String.prefix pre s then Some (String.substring (String.length pre) (String.length s) s) else None.
Definition match_tag (suffix key : string) : option string :=
  match strip_prefix "attr::" key with
  | Some s => match span_name s with
              | (String a w, r) => if String.eqb r suffix then Some (String a w) else None
              | _ => None
              end
  | None => None
  end.
Definition VALUE_TAG_MATCHER (key : string) : option string := match_tag "::value" key.
Definition MARKER_TAG_MATCHER (key : string) : option string := match_tag "::marker" key.

Abbreviation Values := (gmap string (option string)).

Definition _is_attr_with_revealed_value (key : string) (attr_value_map : Values) : bool :=
  match VALUE_TAG_MATCHER key with
  | Some s => existsb (fun '(key, _) => same_view key s) (iter attr_value_map)
  | None => false
  end.
Definition _is_attr_marker_operator (key : string) : bool :=
  match MARKER_TAG_MATCHER key with Some _ => true | None => false end.

Definition different (filed expected actual : string) : IndyError :=
  err_msg ProofRejected (quoted filed +:+ " values are different: expected: " +:+ quoted expected +:+
    ", actual: " +:+ quoted actual).

Definition _check_internal_tag_revealed_value (key tag_value : string) (attr_value_map : Values) : outcome unit :=
  let? attr_name := ok_or (VALUE_TAG_MATCHER key) (err_msg InvalidState "Attribute name became unparseable") in
  match find (fun '(key, _) => same_view key attr_name) (iter attr_value_map) with
  | Some (_, Some revealed_value) =>
      if negb (String.eqb revealed_value tag_value) then Err (different key tag_value revealed_value) else Ok ()
  | _ => Err (err_msg ProofRejected ("Revealed value hasn't been find by key: expected key: " +:+ quoted key +:+
                ", attr_value_map: " +:+ quoted (debug_values attr_value_map)))
  end.

Definition _precess_filed (filed filter_value tag_value : string) : outcome unit :=
  if String.eqb filter_value tag_value then Ok () else Err (different filed tag_value filter_value).

Definition _process_filter (attr_value_map : Values) (tag tag_value : string) (filter : Filter) : outcome unit :=
  if String.eqb tag "schema_id" then _precess_filed tag (f_schema_id filter) tag_value
  else if String.eqb tag "schema_issuer_did" then _precess_filed tag (f_schema_issuer_did filter) tag_value
  else if String.eqb tag "schema_name" then _precess_filed tag (f_schema_name filter) tag_value
  else if String.eqb tag "schema_version" then _precess_filed tag (f_schema_version filter) tag_value
  else if String.eqb tag "cred_def_id" then _precess_filed tag (f_cred_def_id filter) tag_value
  else if String.eqb tag "issuer_did" then _precess_filed tag (f_issuer_did filter) tag_value
  else if _is_attr_with_revealed_value tag attr_value_map then
    _check_internal_tag_revealed_value tag tag_value attr_value_map
  else if _is_attr_marker_operator tag then Ok ()
  else Err (err_msg InvalidStructure "Unknown Filter Type").

(** [IndyError::extend]: the kind stays. *)
Definition extend {A : Type} (text : string) (r : outcome A) : outcome A :=
  match r with Err e => Err (err_msg (err_kind e) text) | r => r end.
Definition is_ok {A : Type} (r : outcome A) : bool := match r with Ok _ => true | _ => false end.
Definition tag_text (op tag_name : string) : string := op +:+ " operator validation failed for tag: " +:+ quoted tag_name.

Fixpoint _do_process_operator (attr_value_map : Values) (restriction_op : Query) (filter : Filter) : outcome unit :=
  match restriction_op with
  | QEq tag_name tag_value =>
      extend (tag_text "$eq" tag_name +:+ ", value: " +:+ quoted tag_value)
        (_process_filter attr_value_map tag_name tag_value filter)
  | QNeq tag_name tag_value =>
      if negb (is_ok (_process_filter attr_value_map tag_name tag_value filter)) then Ok ()
      else Err (err_msg ProofRejected (tag_text "$neq" tag_name +:+ ", value: " +:+ quoted tag_value +:+ ". Condition was passed."))
  | QIn tag_name tag_values =>
      if existsb (fun val => is_ok (_process_filter attr_value_map tag_name val filter)) tag_values then Ok ()
      else Err (err_msg ProofRejected (tag_text "$in" tag_name +:+ ", values " +:+ quoted (debug_strings tag_values) +:+ "."))
  | QAnd operators =>
      extend "$and operator validation failed."
        (for_each (fun op => _do_process_operator attr_value_map op filter) operators)
  | QOr operators =>
      if existsb (fun op => is_ok (_do_process_operator attr_value_map op filter)) operators then Ok ()
      else Err (err_msg ProofRejected "$or operator validation failed. All conditions were failed.")
  | QNot operator =>
      if negb (is_ok (_do_process_operator attr_value_map operator filter)) then Ok ()
      else Err (err_msg ProofRejected "$not operator validation failed. All conditions were passed.")
  | _ => Err (err_msg ProofRejected "unsupported operator")
  end.

(** The values that a restriction on a requested attribute can speak of. *)
Definition attribute_values (requested_proof : RequestedProof) (referent : string) (info : AttributeInfo) : outcome Values :=
  match ai_name info, ai_names info with
  | Some name, _ => Ok {[ name := ra_raw <$> revealed_attrs requested_proof !! referent ]}
  | None, Some names =>
      let? attrs := ok_or (revealed_attr_groups requested_proof !! referent)
        (err_msg InvalidStructure "Proof does not have referent from proof request") in
      Ok (fold_left (fun map name => <[name := av_raw <$> rg_values attrs !! name]> map) names ∅)
  | None, None => Err (err_msg InvalidStructure ("Proof Request attribute restriction should contain " +:+ quoted "name" +:+
                         " or " +:+ quoted "names" +:+ " param"))
  end.
Definition check_attribute (requested_proof : RequestedProof) (proof_attr_identifiers : gmap string Identifier)
  : string * AttributeInfo -> outcome unit :=
  fun '(referent, info) =>
    match ai_restrictions info with
    | Some query =>
        let? filter := _gather_filter_info referent proof_attr_identifiers in
        let? name_value_map := attribute_values requested_proof referent info in
        extend ("Requested restriction validation failed for " +:+ quoted (debug_values name_value_map) +:+ " attributes")
          (_do_process_operator name_value_map query filter)
    | None => Ok ()
    end.

(** The values that a restriction on a predicate can speak of: the attributes revealed from
    the same credential.  [requested_attrs.get(attr_referent).unwrap()] panics for one that
    is not requested, or self-attested as well. *)
Definition add_single (requested_attrs : gmap string AttributeInfo) (pred_sub_proof_index : nat)
    (m : Values) : string * RevealedAttributeInfo -> outcome Values :=
  fun '(attr_referent, attr_info) =>
    if (pred_sub_proof_index =? ra_index attr_info)%nat then
      match requested_attrs !! attr_referent with
      | Some info => Ok (match ai_name info with Some name => <[name := Some (ra_raw attr_info)]> m | None => m end)
      | None => Panic
      end
    else Ok m.
Definition add_group (pred_sub_proof_index : nat) (m : Values) (attr_info : RevealedAttributeGroupInfo) : Values :=
  if (pred_sub_proof_index =? rg_index attr_info)%nat
  then fold_left (fun m '(name, v) => <[name := Some (av_raw v)]> m) (iter (rg_values attr_info)) m
  else m.
Definition predicate_values (requested_proof : RequestedProof) (requested_attrs : gmap string AttributeInfo)
    (referent : string) (info : PredicateInfo) : outcome Values :=
  match predicates requested_proof !! referent with
  | None => Panic
  | Some pred_sub_proof_index =>
      let? m := fold_outcome (add_single requested_attrs pred_sub_proof_index) (iter (revealed_attrs requested_proof))
                  {[ pi_name info := None ]} in
      Ok (fold_left (add_group pred_sub_proof_index) ((iter (revealed_attr_groups requested_proof)).*2) m)
  end.
Definition check_predicate (requested_proof : RequestedProof) (requested_attrs : gmap string AttributeInfo)
    (received_predicates : gmap string Identifier) : string * PredicateInfo -> outcome unit :=
  fun '(referent, info) =>
    match pi_restrictions info with
    | Some query =>
        let? filter := _gather_filter_info referent received_predicates in
        let? attr_value_map := predicate_values requested_proof requested_attrs referent info in
        extend ("Requested restriction validation failed for " +:+ quoted (pi_name info) +:+ " predicate")
          (_do_process_operator attr_value_map query filter)
    | None => Ok ()
    end.

(** The identifiers of attributes: an unrevealed one replaces a revealed one. *)
Definition proof_attr_identifiers (received_revealed_attrs received_unrevealed_attrs : gmap string Identifier)
  : gmap string Identifier := received_unrevealed_attrs ∪ received_revealed_attrs.

Definition _verify_requested_restrictions (proof_req : ProofRequestPayload) (requested_proof : RequestedProof)
    (received_revealed_attrs received_unrevealed_attrs received_predicates : gmap string Identifier)
    (self_attested_attrs : gset string) : outcome unit :=
  let requested_attrs := filter (fun '(referent, info) => _is_self_attested referent info self_attested_attrs = false)
                           (requested_attributes proof_req) in
  let? _ := for_each (check_attribute requested_proof
              (proof_attr_identifiers received_revealed_attrs received_unrevealed_attrs)) (iter requested_attrs) in
  for_each (check_predicate requested_proof requested_attrs received_predicates) (iter (requested_predicates proof_req)).

(** ** [verify] *)
Definition _get_revealed_attributes_for_credential (sub_proof_index : nat) (requested_proof : RequestedProof)
    (proof_req : ProofRequestPayload) : list AttributeInfo :=
  (omap (fun '(attr_referent, info) => if (sub_proof_index =? ra_index info)%nat
                                       then requested_attributes proof_req !! attr_referent else None)
     (iter (revealed_attrs requested_proof)) ++
   omap (fun '(attr_referent, info) => if (sub_proof_index =? rg_index info)%nat
                                       then requested_attributes proof_req !! attr_referent else None)
     (iter (revealed_attr_groups requested_proof)))%list.
Definition _get_predicates_for_credential (sub_proof_index : nat) (requested_proof : RequestedProof)
    (proof_req : ProofRequestPayload) : list PredicateInfo :=
  omap (fun '(predicate_referent, index) => if (sub_proof_index =? index)%nat
                                            then requested_predicates proof_req !! predicate_referent else None)
    (iter (predicates requested_proof)).

Section Verify.
Context (full_proof : Proof_) (proof_req : ProofRequestPayload).
Context (schemas : gmap string SchemaV1) (cred_defs : gmap string CredentialDefinitionV1).
Context (rev_reg_defs : gmap string RevocationRegistryDefinitionV1).
Context (rev_regs : gmap string (gmap Z RevocationRegistryV1)).

Definition missing (what : string) (id : string) : IndyError :=
  err_msg InvalidStructure (what +:+ " not found for id: " +:+ id).
Definition find_revocation (identifier : Identifier)
  : outcome (option RevocationRegistryDefinitionV1 * option RevocationRegistryV1) :=
  match timestamp identifier with
  | Some timestamp =>
      let? id := ok_or (rev_reg_id identifier) (err_msg InvalidStructure "Revocation Registry Id not found") in
      let? rev_reg_def := ok_or (rev_reg_defs !! id)
        (missing "RevocationRegistryDefinition" (debug_option (rev_reg_id identifier))) in
      let? rev_regs_for_cred := ok_or (rev_regs !! id) (missing "RevocationRegistry" (quoted id)) in
      let? rev_reg := ok_or (rev_regs_for_cred !! timestamp)
        (err_msg InvalidStructure ("RevocationRegistry not found for timestamp: " +:+ debug_number timestamp)) in
      Ok (Some rev_reg_def, Some rev_reg)
  | None => Ok (None, None)
  end.

Definition add_sub_proof (non_credential_schema : NonCredentialSchema) (proof_verifier : ProofVerifier)
    (sub_proof_index : nat) (identifier : Identifier) : outcome ProofVerifier :=
  let? schema := ok_or (schemas !! schema_id identifier) (missing "Schema" (quoted (schema_id identifier))) in
  let? cred_def := ok_or (cred_defs !! cred_def_id identifier)
    (missing "CredentialDefinition" (quoted (cred_def_id identifier))) in
  let? (rev_reg_def, rev_reg) := find_revocation identifier in
  let attrs_for_credential :=
    _get_revealed_attributes_for_credential sub_proof_index (requested_proof full_proof) proof_req in
  let predicates_for_credential :=
    _get_predicates_for_credential sub_proof_index (requested_proof full_proof) proof_req in
  let? credential_schema := build_credential_schema (attr_names schema) in
  let? sub_proof_request := build_sub_proof_request attrs_for_credential predicates_for_credential in
  let? credential_pub_key := build_from_parts (cd_primary cred_def) (cd_revocation cred_def) in
  add_sub_proof_request proof_verifier sub_proof_request credential_schema non_credential_schema credential_pub_key
    (accum_key <$> rev_reg_def) (rr_value <$> rev_reg).
Fixpoint add_sub_proofs (non_credential_schema : NonCredentialSchema) (proof_verifier : ProofVerifier)
    (sub_proof_index : nat) (ids : list Identifier) : outcome ProofVerifier :=
  match ids with
  | [] => Ok proof_verifier
  | identifier :: ids =>
      let? proof_verifier := add_sub_proof non_credential_schema proof_verifier sub_proof_index identifier in
      add_sub_proofs non_credential_schema proof_verifier (S sub_proof_index) ids
  end.

Definition verify : outcome bool :=
  let? received_revealed_attrs := _received_revealed_attrs full_proof in
  let? received_unrevealed_attrs := _received_unrevealed_attrs full_proof in
  let? received_predicates := _received_predicates full_proof in
  let received_self_attested_attrs := _received_self_attested_attrs full_proof in
  let? _ := _compare_attr_from_proof_and_request proof_req received_revealed_attrs received_unrevealed_attrs
              received_self_attested_attrs received_predicates in
  let? _ := _verify_revealed_attribute_values proof_req full_proof in
  let? _ := _verify_requested_restrictions proof_req (requested_proof full_proof) received_revealed_attrs
              received_unrevealed_attrs received_predicates received_self_attested_attrs in
  let? _ := _compare_timestamps_from_proof_and_request proof_req received_revealed_attrs received_unrevealed_attrs
              received_self_attested_attrs received_predicates in
  let? proof_verifier := new_proof_verifier in
  let? non_credential_schema := build_non_credential_schema in
  let? proof_verifier := add_sub_proofs non_credential_schema proof_verifier 0 (identifiers full_proof) in
  crypto_verify proof_verifier (proof full_proof) (nonce proof_req).
End Verify.
End Verifier.

(** ** What ursa promises *)

(** A predicate on the encoded value of an attribute. *)
Definition predicate_meaning (p : PredicateTypes) (v c : Z) : Prop :=
  match p with GE => (v >= c)%Z | LE => (v <= c)%Z | GT => (v > c)%Z | LT => (v < c)%Z end.

(** [signed k vals]: under the key [k] a credential with the attribute values [vals] was
    issued; [unrevoked]: it is not revoked in the registry.  An accepted proof has, for each
    sub proof request in order, a sub proof that shows such a credential. *)
Class UrsaLaws (U : Ursa) := {
  signed : CredentialPublicKey -> (string -> option Z) -> Prop;
  unrevoked : RevocationKeyPublic -> RevocationRegistry -> (string -> option Z) -> Prop;
  builder_predicates : SubProofRequestBuilder -> list (string * string * Z);
  request_predicates : SubProofRequest -> list (string * string * Z);
  law_add_predicate b a t c b' : add_predicate b a t c = Ok b' ->
    (a, t, c) ∈ builder_predicates b' /\ builder_predicates b ⊆ builder_predicates b';
  law_finalize b r : request_finalize b = Ok r -> builder_predicates b ⊆ request_predicates r;
  verifier_requests : ProofVerifier ->
    list (SubProofRequest * CredentialPublicKey * option RevocationKeyPublic * option RevocationRegistry);
  law_new_verifier v : new_proof_verifier = Ok v -> verifier_requests v = [];
  law_add_request v r s n k a g v' : add_sub_proof_request v r s n k a g = Ok v' ->
    verifier_requests v' = (verifier_requests v ++ [(r, k, a, g)])%list;
  law_verify v p n : crypto_verify v p n = Ok true ->
    forall i r k a g, verifier_requests v !! i = Some (r, k, a, g) ->
    exists sub vals, proofs p !! i = Some sub /\ signed k vals /\
      (forall attrs x t, revealed_attrs_of sub = Ok attrs -> (x, t) ∈ attrs ->
         exists y, from_dec t = Ok y /\ vals x = Some y) /\
      (forall x t c, (x, predicate_type_text t, c) ∈ request_predicates r ->
         exists y, vals x = Some y /\ predicate_meaning t y c) /\
      (forall acc reg, a = Some acc -> g = Some reg -> unrevoked acc reg vals)
}.

(** ** Loops *)
Lemma for_each_ok {A : Type} (f : A -> outcome unit) l : for_each f l = Ok () <-> Forall (fun x => f x = Ok ()) l.
Proof. induction l as [|x l IH]; cbn; [done|]. rewrite Forall_cons, <-IH. destruct (f x) as [[]| |]; cbn; naive_solver. Qed.
Lemma for_each_iter {H : HashOrder} {HL : HashOrderLaws H} {V : Type} (f : string * V -> outcome unit) (m : gmap string V) :
  for_each f (iter m) = Ok () <-> forall k v, m !! k = Some v -> f (k, v) = Ok ().
Proof.
  rewrite for_each_ok, Forall_forall. split.
  - intros Hf k v Hkv. apply Hf. by apply elem_of_iter.
  - intros Hf [k v] Hkv%elem_of_iter. by apply Hf.
Qed.
Lemma ok_or_ok {A : Type} (o : option A) e a : ok_or o e = Ok a <-> o = Some a.
Proof. destruct o; cbn; naive_solver. Qed.
Lemma find_some {A : Type} (f : A -> bool) l x : find f l = Some x -> x ∈ l /\ f x = true.
Proof.
  induction l as [|y l IH]; cbn; [done|]. destruct (f y) eqn:E1; [intros [= ->]; split; [left|done]|].
  intros [? ?]%IH. split; [by right|done].
Qed.

(** ** Meaning of restrictions *)
Section Meaning.
Context {U : Ursa} {H : HashOrder} {D : Debug} (to_lowercase : string -> string).

Definition field (f : Filter) (tag : string) : option string :=
  if String.eqb tag "schema_id" then Some (f_schema_id f)
  else if String.eqb tag "schema_issuer_did" then Some (f_schema_issuer_did f)
  else if String.eqb tag "schema_name" then Some (f_schema_name f)
  else if String.eqb tag "schema_version" then Some (f_schema_version f)
  else if String.eqb tag "cred_def_id" then Some (f_cred_def_id f)
  else if String.eqb tag "issuer_did" then Some (f_issuer_did f)
  else None.

(** A tag is a field of the credential's identifiers, the value of a revealed attribute, or a
    marker, which is always met. *)
Definition tag_met (m : gmap string (option string)) (f : Filter) (tag v : string) : bool :=
  match field f tag with
  | Some x => String.eqb x v
  | None =>
      match VALUE_TAG_MATCHER tag with
      | Some name =>
          match find (fun '(key, _) => same_view to_lowercase key name) (iter m) with
          | Some (_, Some x) => String.eqb x v
          | _ => false
          end
      | None => _is_attr_marker_operator tag
      end
  end.

Fixpoint met (m : gmap string (option string)) (f : Filter) (q : Query) : bool :=
  match q with
  | QEq n v => tag_met m f n v
  | QNeq n v => negb (tag_met m f n v)
  | QIn n vs => existsb (tag_met m f n) vs
  | QAnd qs => forallb (met m f) qs
  | QOr qs => existsb (met m f) qs
  | QNot q => negb (met m f q)
  | _ => false
  end.

Definition verdict (r : outcome unit) (b : bool) : Prop :=
  match r with Ok _ => b = true | Err _ => b = false | Panic => False end.
Lemma verdict_ok r b : verdict r b -> is_ok r = b.
Proof using Type. by destruct r. Qed.
Lemma verdict_extend t r b : verdict r b -> verdict (extend t r) b.
Proof using Type. by destruct r. Qed.
Lemma verdict_if (b : bool) e : verdict (if b then Ok () else Err e) b.
Proof using Type. by destruct b. Qed.

Lemma marker_not_value tag name : VALUE_TAG_MATCHER tag = Some name -> _is_attr_marker_operator tag = false.
Proof using Type.
  unfold VALUE_TAG_MATCHER, _is_attr_marker_operator, MARKER_TAG_MATCHER, match_tag.
  destruct (strip_prefix "attr::" tag) as [s|]; [|done]. destruct (span_name s) as [[|a w] r]; [done|].
  destruct (String.eqb_spec r "::value") as [->|]; [|done]. by intros _.
Qed.
Lemma existsb_find {A : Type} (f : A -> bool) l : existsb f l = match find f l with Some _ => true | None => false end.
Proof using Type. induction l as [|x l IH]; cbn; [done|]. by destruct (f x). Qed.

Lemma process_filter_verdict m f tag v : verdict (_process_filter to_lowercase m tag v f) (tag_met m f tag v).
Proof using Type.
  unfold _process_filter, tag_met, field. repeat (case_match; [apply verdict_if|]).
  unfold _is_attr_with_revealed_value, _check_internal_tag_revealed_value.
  destruct (VALUE_TAG_MATCHER tag) as [name|] eqn:Ev; cbn [ok_or obind].
  - rewrite existsb_find. destruct (find _ (iter m)) as [[k [x|]]|]; [|done|by rewrite (marker_not_value tag name Ev)].
    by destruct (String.eqb x v).
  - by destruct (_is_attr_marker_operator tag).
Qed.

Lemma for_each_verdict {A : Type} (f : A -> outcome unit) (g : A -> bool) l :
  Forall (fun x => verdict (f x) (g x)) l -> verdict (for_each f l) (forallb g l).
Proof using Type.
  induction 1 as [|x l Hx _ IH]; [done|]. cbn. destruct (f x) as [[]| |]; cbn in *; [by rewrite Hx|by rewrite Hx|done].
Qed.
Lemma existsb_verdict {A : Type} (f : A -> outcome unit) (g : A -> bool) l :
  Forall (fun x => verdict (f x) (g x)) l -> existsb (fun x => is_ok (f x)) l = existsb g l.
Proof using Type. induction 1 as [|x l Hx _ IH]; [done|]. cbn. by rewrite (verdict_ok _ _ Hx), IH. Qed.

Lemma process_operator_verdict m f q : verdict (_do_process_operator to_lowercase m q f) (met m f q).
Proof using Type.
  induction q as [l IH|l IH|q IH|n v|n v| | | | | |n vs] using Query_nested_ind; cbn [_do_process_operator met]; try done.
  - apply verdict_extend. by apply for_each_verdict.
  - rewrite (existsb_verdict _ (met m f)) by done. apply verdict_if.
  - rewrite (verdict_ok _ _ IH). apply verdict_if.
  - apply verdict_extend, process_filter_verdict.
  - rewrite (verdict_ok _ _ (process_filter_verdict m f n v)). apply verdict_if.
  - rewrite (existsb_verdict _ (tag_met m f n)); [apply verdict_if|].
    apply Forall_forall. intros v _. apply process_filter_verdict.
Qed.
End Meaning.

(** ** Accepted proofs *)
Section Sound.
Context {U : Ursa} {UL : UrsaLaws U} {H : HashOrder} {HL : HashOrderLaws H} {D : Debug} (to_lowercase : string -> string).

Lemma insert_identifiers_lookup {V : Type} (p : Proof_) (index : V -> nat) l : forall m m' k,
  insert_identifiers p index l m = Ok m' -> NoDup l.*1 ->
  (forall v, (k, v) ∈ l -> exists id, identifiers p !! index v = Some id /\ m' !! k = Some id) /\
  (k ∉ l.*1 -> m' !! k = m !! k).
Proof using Type.
  unfold insert_identifiers. induction l as [|[k0 v0] l IH]; intros m m' k Hf Hnd; cbn in *.
  { injection Hf as ->. split; [|done]. intros v Hv. by apply elem_of_nil in Hv. }
  apply NoDup_cons in Hnd as [Hn Hnd]. unfold _get_proof_identifier in Hf.
  destruct (identifiers p !! index v0) as [id|] eqn:Eid; cbn in Hf; [|discriminate].
  destruct (IH _ _ k Hf Hnd) as [IH1 IH2]. split.
  - intros v [[= -> ->]|Hv]%elem_of_cons; [|by apply IH1]. exists id. split; [done|].
    by rewrite IH2, lookup_insert_eq.
  - intros Hk. apply not_elem_of_cons in Hk as [Hne Hk]. rewrite IH2 by done. by rewrite lookup_insert_ne.
Qed.
Lemma iter_NoDup {V : Type} (m : gmap string V) : NoDup (iter m).*1.
Proof using HL. rewrite iter_perm. apply NoDup_fst_map_to_list. Qed.
Lemma iter_key {V : Type} (m : gmap string V) k : k ∈ (iter m).*1 <-> is_Some (m !! k).
Proof using HL.
  rewrite list_elem_of_fmap. split.
  - intros ([k' v] & -> & Hv%elem_of_iter). by eexists.
  - intros [v Hv]. exists (k, v). by rewrite elem_of_iter.
Qed.
Lemma insert_iter_lookup {V : Type} (p : Proof_) (index : V -> nat) (t : gmap string V) m m' k :
  insert_identifiers p index (iter t) m = Ok m' ->
  match t !! k with
  | Some v => exists id, identifiers p !! index v = Some id /\ m' !! k = Some id
  | None => m' !! k = m !! k
  end.
Proof using HL.
  intros Hi. destruct (insert_identifiers_lookup p index (iter t) m m' k Hi (iter_NoDup t)) as [H1 H2].
  destruct (t !! k) as [v|] eqn:Et; [apply H1; by apply elem_of_iter|]. apply H2. rewrite iter_key, Et. by intros [].
Qed.

Lemma received_revealed p m k : _received_revealed_attrs p = Ok m ->
  match revealed_attr_groups (requested_proof p) !! k, revealed_attrs (requested_proof p) !! k with
  | Some g, _ => exists id, identifiers p !! rg_index g = Some id /\ m !! k = Some id
  | None, Some r => exists id, identifiers p !! ra_index r = Some id /\ m !! k = Some id
  | None, None => m !! k = None
  end.
Proof using HL.
  unfold _received_revealed_attrs. intros (m1 & H1 & H2)%obind_ok.
  apply (insert_iter_lookup _ _ _ _ _ k) in H1, H2. destruct (revealed_attr_groups _ !! k); [done|]. rewrite H2.
  by destruct (revealed_attrs _ !! k).
Qed.
Lemma received_index p t m k : insert_identifiers p id (iter t) ∅ = Ok m ->
  match t !! k with
  | Some i => exists ident, identifiers p !! i = Some ident /\ m !! k = Some ident
  | None => m !! k = None
  end.
Proof using HL. intros Hi. by apply (insert_iter_lookup _ _ _ _ _ k) in Hi. Qed.

Section Accepted.
Context (full_proof : Proof_) (proof_req : ProofRequestPayload).
Context (schemas : gmap string SchemaV1) (cred_defs : gmap string CredentialDefinitionV1).
Context (rev_reg_defs : gmap string RevocationRegistryDefinitionV1).
Context (rev_regs : gmap string (gmap Z RevocationRegistryV1)).

(** A credential with these values was issued under the credential definition that the
    identifier names and, where the identifier has a timestamp, is not revoked in the registry
    of that time. *)
Definition backed (ident : Identifier) (vals : string -> option Z) : Prop :=
  exists cd k, cred_defs !! cred_def_id ident = Some cd /\
    build_from_parts (cd_primary cd) (cd_revocation cd) = Ok k /\ signed k vals /\
    forall t, timestamp ident = Some t -> exists rid rd regs reg,
      rev_reg_id ident = Some rid /\ rev_reg_defs !! rid = Some rd /\ rev_regs !! rid = Some regs /\
      regs !! t = Some reg /\ unrevoked (accum_key rd) (rr_value reg) vals.

(** What the verifier adds for a sub proof. *)
Definition entry_for (i : nat) (ident : Identifier)
    (e : SubProofRequest * CredentialPublicKey * option RevocationKeyPublic * option RevocationRegistry) : Prop :=
  let '(r, k, a, g) := e in
  exists cd rd rr, cred_defs !! cred_def_id ident = Some cd /\
    build_from_parts (cd_primary cd) (cd_revocation cd) = Ok k /\
    find_revocation rev_reg_defs rev_regs ident = Ok (rd, rr) /\ a = accum_key <$> rd /\ g = rr_value <$> rr /\
    build_sub_proof_request to_lowercase
      (_get_revealed_attributes_for_credential i (requested_proof full_proof) proof_req)
      (_get_predicates_for_credential i (requested_proof full_proof) proof_req) = Ok r.

Lemma add_sub_proof_entry ncs v i ident v' :
  add_sub_proof to_lowercase full_proof proof_req schemas cred_defs rev_reg_defs rev_regs ncs v i ident = Ok v' ->
  exists e, verifier_requests v' = (verifier_requests v ++ [e])%list /\ entry_for i ident e.
Proof using Type.
  unfold add_sub_proof. intros (sc & _ & Ha)%obind_ok. apply obind_ok in Ha as (cd & Hcd%ok_or_ok & Ha).
  apply obind_ok in Ha as ([rd rr] & Hrev & Ha). apply obind_ok in Ha as (cs & _ & Ha).
  apply obind_ok in Ha as (r & Hr & Ha). apply obind_ok in Ha as (k & Hk & Ha).
  eexists. split; [by eapply law_add_request|]. by exists cd, rd, rr.
Qed.
Lemma add_sub_proofs_entries ncs ids : forall v j v',
  add_sub_proofs to_lowercase full_proof proof_req schemas cred_defs rev_reg_defs rev_regs ncs v j ids = Ok v' ->
  exists es, verifier_requests v' = (verifier_requests v ++ es)%list /\
    forall i ident, ids !! i = Some ident -> exists e, es !! i = Some e /\ entry_for (j + i) ident e.
Proof using Type.
  induction ids as [|ident0 ids IH]; intros v j v'; cbn.
  { intros [= ->]. exists []. split; [by rewrite app_nil_r|done]. }
  intros (v1 & (e & E1 & He)%add_sub_proof_entry & (es & E2 & Hes)%IH)%obind_ok.
  exists (e :: es). split; [by rewrite E2, E1, <-app_assoc|]. intros [|i] ident; cbn.
  - intros [= <-]. exists e. by rewrite Nat.add_0_r.
  - intros (e' & H1 & H2)%Hes. exists e'. by rewrite <-Nat.add_succ_comm.
Qed.

Lemma find_revocation_some ident t rd rr :
  timestamp ident = Some t -> find_revocation rev_reg_defs rev_regs ident = Ok (rd, rr) ->
  exists rid d regs r, rev_reg_id ident = Some rid /\ rev_reg_defs !! rid = Some d /\ rev_regs !! rid = Some regs /\
    regs !! t = Some r /\ rd = Some d /\ rr = Some r.
Proof using Type.
  unfold find_revocation. intros ->. intros (rid & H1%ok_or_ok & Hr)%obind_ok. apply obind_ok in Hr as (d & H2%ok_or_ok & Hr).
  apply obind_ok in Hr as (regs & H3%ok_or_ok & Hr). apply obind_ok in Hr as (r & H4%ok_or_ok & Hr).
  injection Hr as <- <-. by exists rid, d, regs, r.
Qed.

(** The predicates of a credential are part of its request. *)
Lemma add_predicates_in l : forall b b',
  fold_outcome (fun b predicate => add_predicate b (attr_common_view to_lowercase (pi_name predicate))
    (predicate_type_text (p_type predicate)) (p_value predicate)) l b = Ok b' ->
  builder_predicates b ⊆ builder_predicates b' /\
  forall info, info ∈ l -> (attr_common_view to_lowercase (pi_name info), predicate_type_text (p_type info), p_value info)
    ∈ builder_predicates b'.
Proof using Type.
  induction l as [|x l IH]; intros b b'; cbn.
  { intros [= ->]. split; [done|]. intros info Hi. by apply elem_of_nil in Hi. }
  intros (b1 & [H1 H2]%law_add_predicate & [H3 H4]%IH)%obind_ok. split; [by trans (builder_predicates b1)|].
  intros info [->|Hi]%elem_of_cons; [by apply H3|by apply H4].
Qed.
Lemma request_predicates_in attrs preds r :
  build_sub_proof_request to_lowercase attrs preds = Ok r ->
  forall info, info ∈ preds ->
    (attr_common_view to_lowercase (pi_name info), predicate_type_text (p_type info), p_value info) ∈ request_predicates r.
Proof using Type.
  unfold build_sub_proof_request. intros (b0 & _ & Hb)%obind_ok. apply obind_ok in Hb as (b1 & _ & Hb).
  apply obind_ok in Hb as (b2 & [_ Hp]%add_predicates_in & Hf%law_finalize). intros info Hi. by apply Hf, Hp.
Qed.
Lemma predicate_of_credential referent info i :
  requested_predicates proof_req !! referent = Some info -> predicates (requested_proof full_proof) !! referent = Some i ->
  info ∈ _get_predicates_for_credential i (requested_proof full_proof) proof_req.
Proof using HL.
  intros Hr Hp. apply list_elem_of_omap. exists (referent, i). split; [by apply elem_of_iter|]. by rewrite Nat.eqb_refl.
Qed.

(** What [verify] went through. *)
Record passed (m1 m2 m3 : gmap string Identifier) : Prop := mkPassed {
  pass_revealed : _received_revealed_attrs full_proof = Ok m1;
  pass_unrevealed : _received_unrevealed_attrs full_proof = Ok m2;
  pass_predicates : _received_predicates full_proof = Ok m3;
  pass_compare : _compare_attr_from_proof_and_request proof_req m1 m2 (_received_self_attested_attrs full_proof) m3 = Ok ();
  pass_values : _verify_revealed_attribute_values to_lowercase proof_req full_proof = Ok ();
  pass_restrictions : _verify_requested_restrictions to_lowercase proof_req (requested_proof full_proof) m1 m2 m3
    (_received_self_attested_attrs full_proof) = Ok ();
  pass_timestamps : _compare_timestamps_from_proof_and_request proof_req m1 m2 (_received_self_attested_attrs full_proof) m3 = Ok ()
}.

Abbreviation verify_ := (verify to_lowercase full_proof proof_req schemas cred_defs rev_reg_defs rev_regs).

Lemma verify_passed b : verify_ = Ok b ->
  exists m1 m2 m3 v0 ncs v, passed m1 m2 m3 /\ new_proof_verifier = Ok v0 /\
    add_sub_proofs to_lowercase full_proof proof_req schemas cred_defs rev_reg_defs rev_regs ncs v0 0
      (identifiers full_proof) = Ok v /\
    crypto_verify v (proof full_proof) (nonce proof_req) = Ok b.
Proof using Type.
  unfold verify. intros (m1 & H1 & Hv)%obind_ok. apply obind_ok in Hv as (m2 & H2 & Hv).
  apply obind_ok in Hv as (m3 & H3 & Hv). apply obind_ok in Hv as ([] & H4 & Hv). apply obind_ok in Hv as ([] & H5 & Hv).
  apply obind_ok in Hv as ([] & H6 & Hv). apply obind_ok in Hv as ([] & H7 & Hv).
  apply obind_ok in Hv as (v0 & H8 & Hv). apply obind_ok in Hv as (ncs & _ & Hv). apply obind_ok in Hv as (v & H9 & Hv).
  by exists m1, m2, m3, v0, ncs, v.
Qed.

(** Every sub proof shows a credential under the credential definition of its identifier. *)
Lemma sub_proofs_backed : verify_ = Ok true -> forall i ident, identifiers full_proof !! i = Some ident ->
  exists sub vals, proofs (proof full_proof) !! i = Some sub /\ backed ident vals /\
    (forall attrs x t, revealed_attrs_of sub = Ok attrs -> (x, t) ∈ attrs -> exists y, from_dec t = Ok y /\ vals x = Some y) /\
    (forall referent info, requested_predicates proof_req !! referent = Some info ->
       predicates (requested_proof full_proof) !! referent = Some i ->
       exists y, vals (attr_common_view to_lowercase (pi_name info)) = Some y /\ predicate_meaning (p_type info) y (p_value info)).
Proof using HL.
  intros (m1 & m2 & m3 & v0 & ncs & v & _ & Hv0%law_new_verifier & Ha & Hc)%verify_passed i ident Hi.
  destruct (add_sub_proofs_entries _ _ _ _ _ Ha) as (es & Hes & He). rewrite Hv0 in Hes. cbn [app] in Hes.
  destruct (He i ident Hi) as ([[[r k] a] g] & Hl & cd & rd & rr & Hcd & Hk & Hrev & -> & -> & Hr). rewrite <-Hes in Hl.
  destruct (law_verify _ _ _ Hc i _ _ _ _ Hl) as (sub & vals & Hsub & Hsig & Hattr & Hpred & Hunrev).
  exists sub, vals. split; [done|]. split; [|split; [done|]].
  - exists cd, k. split; [done|]. split; [done|]. split; [done|]. intros t Ht.
    destruct (find_revocation_some ident t rd rr Ht Hrev) as (rid & d & regs & reg & H1 & H2 & H3 & H4 & -> & ->).
    exists rid, d, regs, reg. do 4 (split; [done|]). by apply Hunrev.
  - intros referent info Hq Hp. apply Hpred. eapply request_predicates_in; [done|]. by eapply predicate_of_credential.
Qed.

(** A revealed value is the one of the sub proof it points to. *)
Lemma revealed_value_ok name r : _verify_revealed_attribute_value to_lowercase name full_proof r = Ok () ->
  exists sub attrs x t y, proofs (proof full_proof) !! ra_index r = Some sub /\ revealed_attrs_of sub = Ok attrs /\
    (x, t) ∈ attrs /\ attr_common_view to_lowercase x = attr_common_view to_lowercase name /\
    from_dec t = Ok y /\ from_dec (ra_encoded r) = Ok y.
Proof using Type.
  unfold _verify_revealed_attribute_value. intros (sub & Hs%ok_or_ok & Hv)%obind_ok.
  apply obind_ok in Hv as (attrs & Ha & Hv). apply obind_ok in Hv as (t & Ht%ok_or_ok & Hv).
  apply obind_ok in Hv as (y & Hy & Hv). apply obind_ok in Hv as (y' & Hy' & Hv).
  destruct (find _ attrs) as [[x t']|] eqn:Ef; [|discriminate]. injection Ht as <-.
  apply find_some in Ef as [Hin He]. destruct (Z.eqb_spec y y') as [Hyy|]; [rewrite <-Hyy in Hy'|discriminate].
  exists sub, attrs, x, t', y. unfold same_view in He. apply String.eqb_eq in He. done.
Qed.

(** The restrictions that count: an empty list of alternatives is no restriction. *)
Definition restricted (q : option Query) (query : Query) : Prop :=
  q = Some query /\ query <> QAnd [] /\ query <> QOr [].

Lemma restricted_not_self_attested referent info query self :
  restricted (ai_restrictions info) query -> _is_self_attested referent info self = false.
Proof using Type. intros (Hq & H1 & H2). unfold _is_self_attested. rewrite Hq. by destruct query as [[]|[]| | | | | | | | |]. Qed.

(** The identifiers of the credential of a referent meet the query. *)
Definition filter_of (ident : Identifier) (f : Filter) : Prop :=
  exists did name version issuer, schema_id_parts (schema_id ident) = Some (did, name, version) /\
    cred_def_issuer_did (cred_def_id ident) = Some issuer /\
    f = mkFilter (schema_id ident) did name version issuer (cred_def_id ident).
Lemma gather_filter_of referent m f : _gather_filter_info referent m = Ok f ->
  exists ident, m !! referent = Some ident /\ filter_of ident f.
Proof using Type.
  unfold _gather_filter_info. intros (ident & Hi%ok_or_ok & Hf)%obind_ok.
  apply obind_ok in Hf as ([[did name] version] & H1%ok_or_ok & Hf). apply obind_ok in Hf as (issuer & H2%ok_or_ok & Hf).
  injection Hf as <-. exists ident. split; [done|]. by exists did, name, version, issuer.
Qed.
Lemma process_ok m q f t : extend t (_do_process_operator to_lowercase m q f) = Ok () -> met to_lowercase m f q = true.
Proof using Type.
  pose proof (process_operator_verdict to_lowercase m f q) as Hv. destruct (_do_process_operator _ m q f); [done|discriminate..].
Qed.

Lemma attribute_restriction m1 m2 m3 referent info query :
  passed m1 m2 m3 -> requested_attributes proof_req !! referent = Some info -> restricted (ai_restrictions info) query ->
  exists ident f m, proof_attr_identifiers m1 m2 !! referent = Some ident /\ filter_of ident f /\
    attribute_values (requested_proof full_proof) referent info = Ok m /\ met to_lowercase m f query = true.
Proof using HL.
  intros [_ _ _ _ _ Hr _] Hi Hq. unfold _verify_requested_restrictions in Hr. apply obind_ok in Hr as ([] & Hr & _).
  pose proof (proj1 (for_each_iter _ _) Hr referent info) as Hc. unfold check_attribute in Hc.
  rewrite (proj1 Hq) in Hc. specialize (Hc ltac:(apply map_lookup_filter_Some; split; [done|];
    by apply (restricted_not_self_attested _ _ query))).
  apply obind_ok in Hc as (f & (ident & H1 & H2)%gather_filter_of & Hc). apply obind_ok in Hc as (m & Hm & Hp%process_ok).
  by exists ident, f, m.
Qed.
Lemma predicate_restriction m1 m2 m3 referent info query :
  passed m1 m2 m3 -> requested_predicates proof_req !! referent = Some info -> pi_restrictions info = Some query ->
  exists ident f m, m3 !! referent = Some ident /\ filter_of ident f /\
    predicate_values (requested_proof full_proof)
      (filter (fun '(referent, info) => _is_self_attested referent info (_received_self_attested_attrs full_proof) = false)
         (requested_attributes proof_req)) referent info = Ok m /\ met to_lowercase m f query = true.
Proof using HL.
  intros [_ _ _ _ _ Hr _] Hi Hq. unfold _verify_requested_restrictions in Hr. apply obind_ok in Hr as ([] & _ & Hr).
  pose proof (proj1 (for_each_iter _ _) Hr referent info Hi) as Hc. unfold check_predicate in Hc. rewrite Hq in Hc.
  apply obind_ok in Hc as (f & (ident & H1 & H2)%gather_filter_of & Hc). apply obind_ok in Hc as (m & Hm & Hp%process_ok).
  by exists ident, f, m.
Qed.

(** A proof of non-revocation was asked for. *)
Definition wants_non_revocation (local : option NonRevocedInterval) : Prop :=
  is_Some (get_non_revoc_interval (non_revoked proof_req) local).
Lemma timestamp_ok m referent local :
  _validate_timestamp m referent (non_revoked proof_req) local = Ok () -> wants_non_revocation local ->
  exists ident, m !! referent = Some ident /\ is_Some (timestamp ident).
Proof using Type.
  unfold _validate_timestamp, wants_non_revocation. intros Ht [iv Hiv]. rewrite Hiv in Ht.
  destruct (m !! referent) as [ident|]; cbn in Ht; [|discriminate]. exists ident. split; [done|].
  by destruct (timestamp ident).
Qed.

(** The identifier behind an attribute that is not also unrevealed. *)
Lemma revealed_identifier m1 m2 m3 referent :
  passed m1 m2 m3 -> unrevealed_attrs (requested_proof full_proof) !! referent = None ->
  proof_attr_identifiers m1 m2 !! referent = m1 !! referent /\ m2 !! referent = None.
Proof using HL.
  intros Hp Hu. pose proof (received_index _ _ _ referent (pass_unrevealed _ _ _ Hp)) as H2. rewrite Hu in H2.
  split; [|done]. unfold proof_attr_identifiers. rewrite lookup_union, H2. by destruct (m1 !! referent).
Qed.
Lemma self_attested_lookup referent :
  referent ∈ _received_self_attested_attrs full_proof <-> is_Some (self_attested_attrs (requested_proof full_proof) !! referent).
Proof using Type. apply elem_of_dom. Qed.

(** Its timestamp. *)
Lemma revealed_timestamp m1 m2 m3 referent info ident :
  passed m1 m2 m3 -> requested_attributes proof_req !! referent = Some info -> m1 !! referent = Some ident ->
  m2 !! referent = None -> self_attested_attrs (requested_proof full_proof) !! referent = None ->
  wants_non_revocation (ai_non_revoked info) -> is_Some (timestamp ident).
Proof using HL.
  intros Hp Hi H1 H2 Hs Hw. pose proof (pass_timestamps _ _ _ Hp) as Ht.
  unfold _compare_timestamps_from_proof_and_request in Ht. apply obind_ok in Ht as ([] & Ht & _).
  pose proof (proj1 (for_each_iter _ _) Ht referent info Hi) as Hc. cbn in Hc.
  rewrite bool_decide_eq_false_2 in Hc by (rewrite self_attested_lookup, Hs; by intros []).
  destruct (_validate_timestamp m1 referent _ _) as [[]| |] eqn:E1; cbn in Hc; [| |discriminate].
  - apply (timestamp_ok _ _ _) in E1 as (id1 & Hid & Hts); [|done]. congruence.
  - destruct (_validate_timestamp m2 referent _ _) as [[]| |] eqn:E2; cbn in Hc; [|discriminate..].
    apply (timestamp_ok _ _ _) in E2 as (id2 & Hid & _); [|done]. congruence.
Qed.

Lemma predicate_timestamp m1 m2 m3 referent info :
  passed m1 m2 m3 -> requested_predicates proof_req !! referent = Some info -> wants_non_revocation (pi_non_revoked info) ->
  exists ident, m3 !! referent = Some ident /\ is_Some (timestamp ident).
Proof using HL.
  intros Hp Hi Hw. pose proof (pass_timestamps _ _ _ Hp) as Ht.
  unfold _compare_timestamps_from_proof_and_request in Ht. apply obind_ok in Ht as ([] & _ & Ht).
  apply (timestamp_ok m3 referent _ (proj1 (for_each_iter _ _) Ht referent info Hi) Hw).
Qed.

(** The referents of the proof are those of the request. *)
Lemma compared_doms m1 m2 m3 :
  _received_revealed_attrs full_proof = Ok m1 -> _received_unrevealed_attrs full_proof = Ok m2 ->
  _received_predicates full_proof = Ok m3 ->
  _compare_attr_from_proof_and_request proof_req m1 m2 (_received_self_attested_attrs full_proof) m3 = Ok () ->
  dom (requested_attributes proof_req) =@{gset string}
    dom (revealed_attrs (requested_proof full_proof)) ∪ dom (revealed_attr_groups (requested_proof full_proof)) ∪
    dom (unrevealed_attrs (requested_proof full_proof)) ∪ dom (self_attested_attrs (requested_proof full_proof)) /\
  dom (requested_predicates proof_req) =@{gset string} dom (predicates (requested_proof full_proof)).
Proof using HL.
  clear to_lowercase. intros P1 P2 P3 Hc. unfold _compare_attr_from_proof_and_request in Hc.
  case_bool_decide as E1; [discriminate|]. case_bool_decide as E2; [discriminate|].
  rewrite E1, E2. clear E1 E2 Hc.
  assert (D1 : dom m1 =@{gset string} dom (revealed_attrs (requested_proof full_proof)) ∪
                 dom (revealed_attr_groups (requested_proof full_proof))).
  { apply set_eq. intros k. rewrite elem_of_union, !elem_of_dom.
    pose proof (received_revealed _ _ k P1) as H1.
    destruct (revealed_attr_groups _ !! k), (revealed_attrs _ !! k);
      [destruct H1 as (? & _ & ->)..|rewrite H1]; naive_solver. }
  assert (D2 : forall t m, insert_identifiers full_proof id (iter t) ∅ = Ok m -> dom m =@{gset string} dom t).
  { intros t m Hm. apply set_eq. intros k. rewrite !elem_of_dom. pose proof (received_index _ _ _ k Hm) as H1.
    destruct (t !! k); [destruct H1 as (? & _ & ->)|rewrite H1]; naive_solver. }
  by rewrite D1, (D2 _ _ P2), (D2 _ _ P3).
Qed.

Lemma revealed_single m1 m2 m3 referent info r :
  passed m1 m2 m3 -> requested_attributes proof_req !! referent = Some info ->
  revealed_attrs (requested_proof full_proof) !! referent = Some r ->
  exists name, ai_name info = Some name /\ _verify_revealed_attribute_value to_lowercase name full_proof r = Ok ().
Proof using HL.
  intros Hp Hi Hr. pose proof (pass_values _ _ _ Hp) as Hv. unfold _verify_revealed_attribute_values in Hv.
  apply obind_ok in Hv as ([] & Hv & _). pose proof (proj1 (for_each_iter _ _) Hv referent r Hr) as Hc.
  unfold verify_single in Hc. rewrite Hi in Hc. apply obind_ok in Hc as (i & [= <-] & Hc).
  apply obind_ok in Hc as (name & Hn%ok_or_ok & Hc). by exists name.
Qed.
Lemma revealed_group m1 m2 m3 referent info g :
  passed m1 m2 m3 -> requested_attributes proof_req !! referent = Some info ->
  revealed_attr_groups (requested_proof full_proof) !! referent = Some g ->
  exists names, ai_names info = Some names /\ forall name, name ∈ names -> exists av, rg_values g !! name = Some av /\
    _verify_revealed_attribute_value to_lowercase name full_proof (mkRevealed (rg_index g) (av_raw av) (av_encoded av)) = Ok ().
Proof using HL.
  intros Hp Hi Hr. pose proof (pass_values _ _ _ Hp) as Hv. unfold _verify_revealed_attribute_values in Hv.
  apply obind_ok in Hv as ([] & _ & Hv). pose proof (proj1 (for_each_iter _ _) Hv referent g Hr) as Hc.
  unfold verify_group in Hc. rewrite Hi in Hc. apply obind_ok in Hc as (i & [= <-] & Hc).
  apply obind_ok in Hc as (names & Hn%ok_or_ok & Hc). exists names. split; [done|]. destruct (negb _); [discriminate|].
  rewrite for_each_ok, Forall_forall in Hc. intros name Hin%Hc. apply obind_ok in Hin as (av & Ha%ok_or_ok & Hin). by exists av.
Qed.
End Accepted.


(** The same for a group of attributes, all from one credential. *)
Theorem accepted_group full_proof proof_req schemas cred_defs rev_reg_defs rev_regs referent info g :
  verify to_lowercase full_proof proof_req schemas cred_defs rev_reg_defs rev_regs = Ok true ->
  requested_attributes proof_req !! referent = Some info ->
  revealed_attr_groups (requested_proof full_proof) !! referent = Some g ->
  unrevealed_attrs (requested_proof full_proof) !! referent = None ->
  exists names ident vals, ai_names info = Some names /\ identifiers full_proof !! rg_index g = Some ident /\
    backed cred_defs rev_reg_defs rev_regs ident vals /\
    (forall name, name ∈ names -> exists av x y, rg_values g !! name = Some av /\
       attr_common_view to_lowercase x = attr_common_view to_lowercase name /\ vals x = Some y /\
       from_dec (av_encoded av) = Ok y) /\
    (forall query, restricted (ai_restrictions info) query ->
       exists f m, filter_of ident f /\ attribute_values (requested_proof full_proof) referent info = Ok m /\
         met to_lowercase m f query = true).
Proof using UL HL.
  intros Hv Hi Hg Hu. pose proof (sub_proofs_backed _ _ _ _ _ _ Hv) as Hsub.
  apply verify_passed in Hv as (m1 & m2 & m3 & _ & _ & _ & Hp & _).
  destruct (revealed_group _ _ _ _ _ _ _ _ Hp Hi Hg) as (names & Hn & Hval).
  pose proof (received_revealed _ _ referent (pass_revealed _ _ _ _ _ Hp)) as H1. rewrite Hg in H1.
  destruct H1 as (ident & Hid & H1). destruct (revealed_identifier _ _ _ _ _ _ Hp Hu) as [Hpa H2].
  destruct (Hsub _ _ Hid) as (sub & vals & Hs & Hb & Hattr & _).
  exists names, ident, vals. do 3 (split; [done|]). split.
  - intros name (av & Hav & Hva)%Hval.
    destruct (revealed_value_ok _ _ _ Hva) as (sub' & attrs & x & t & y & Hs' & Ha & Hin & Hx & Ht & Hy).
    cbn [ra_index ra_encoded] in *. rewrite Hs in Hs'. injection Hs' as <-. destruct (Hattr attrs x t Ha Hin) as (y' & Ht' & Hxy).
    exists av, x, y. do 2 (split; [done|]). split; [congruence|done].
  - intros query Hq. destruct (attribute_restriction _ _ _ _ _ _ _ _ Hp Hi Hq) as (ident' & f & m & Hi' & Hf & Hm & Hmet).
    exists f, m. split; [|done]. congruence.
Qed.

(** Requested predicates hold.  If [verify] accepts, every requested predicate is answered
    by a sub proof, and under the credential definition that it names a credential was issued,
    not revoked in the registry of its timestamp, whose value of the attribute satisfies the
    predicate; its identifiers, with the values revealed from the same credential, meet the
    restrictions; and if a proof of non-revocation was asked for, there is a timestamp.  No
    other predicates and attributes are answered than those requested. *)
Theorem accepted_predicate full_proof proof_req schemas cred_defs rev_reg_defs rev_regs :
  verify to_lowercase full_proof proof_req schemas cred_defs rev_reg_defs rev_regs = Ok true ->
  (forall referent info, requested_predicates proof_req !! referent = Some info ->
   exists i ident vals y, predicates (requested_proof full_proof) !! referent = Some i /\
     identifiers full_proof !! i = Some ident /\ backed cred_defs rev_reg_defs rev_regs ident vals /\
     vals (attr_common_view to_lowercase (pi_name info)) = Some y /\ predicate_meaning (p_type info) y (p_value info) /\
     (forall query, pi_restrictions info = Some query -> exists f m, filter_of ident f /\
        predicate_values (requested_proof full_proof)
          (filter (fun '(referent, info) => _is_self_attested referent info (_received_self_attested_attrs full_proof) = false)
             (requested_attributes proof_req)) referent info = Ok m /\ met to_lowercase m f query = true) /\
     (wants_non_revocation proof_req (pi_non_revoked info) -> is_Some (timestamp ident))) /\
  dom (requested_predicates proof_req) =@{gset string} dom (predicates (requested_proof full_proof)) /\
  dom (requested_attributes proof_req) =@{gset string}
    dom (revealed_attrs (requested_proof full_proof)) ∪ dom (revealed_attr_groups (requested_proof full_proof)) ∪
    dom (unrevealed_attrs (requested_proof full_proof)) ∪ dom (self_attested_attrs (requested_proof full_proof)).
Proof using UL HL.
  intros Hv. pose proof (sub_proofs_backed _ _ _ _ _ _ Hv) as Hsub.
  apply verify_passed in Hv as (m1 & m2 & m3 & _ & _ & _ & Hp & _).
  assert (H3 : forall k, match predicates (requested_proof full_proof) !! k with
    | Some i => exists ident, identifiers full_proof !! i = Some ident /\ m3 !! k = Some ident | None => m3 !! k = None end).
  { intros k. apply (received_index _ _ _ k (pass_predicates _ _ _ _ _ Hp)). }
  destruct (compared_doms _ _ _ _ _ (pass_revealed _ _ _ _ _ Hp) (pass_unrevealed _ _ _ _ _ Hp) (pass_predicates _ _ _ _ _ Hp)
    (pass_compare _ _ _ _ _ Hp)) as [Ha Hd]. split; [|done].
  intros referent info Hi. assert (Hk : is_Some (predicates (requested_proof full_proof) !! referent)).
  { apply (elem_of_dom (D := gset string)). rewrite <-Hd. by apply elem_of_dom_2 in Hi. }
  destruct Hk as [i Hk]. specialize (H3 referent). rewrite Hk in H3. destruct H3 as (ident & Hid & H3).
  destruct (Hsub _ _ Hid) as (sub & vals & Hs & Hb & _ & Hpred). destruct (Hpred referent info Hi Hk) as (y & Hy & Hm).
  exists i, ident, vals, y. do 5 (split; [done|]). split.
  - intros query Hq. destruct (predicate_restriction _ _ _ _ _ _ _ _ Hp Hi Hq) as (ident' & f & m & Hi' & Hf & Hm' & Hmet).
    exists f, m. split; [|done]. congruence.
  - intros Hw. destruct (predicate_timestamp _ _ _ _ _ _ _ Hp Hi Hw) as (ident' & Hi' & Ht). congruence.
Qed.
End Sound.

(** ** Panics *)
Section Panics.
Context {U : Ursa} {H : HashOrder} {HL : HashOrderLaws H} {D : Debug} (to_lowercase : string -> string).

Definition safe {A : Type} (r : outcome A) : Prop := r <> Panic.
Create HintDb safe.

Lemma safe_ok {A : Type} (a : A) : safe (Ok a).
Proof using Type. done. Qed.
Lemma safe_err {A : Type} e : safe (Err (A := A) e).
Proof using Type. done. Qed.
Lemma safe_bind {A B : Type} (m : outcome A) (k : A -> outcome B) :
  safe m -> (forall a, m = Ok a -> safe (k a)) -> safe (obind m k).
Proof using Type. intros Hm Hk. destruct m; [by apply Hk|done|done]. Qed.
Lemma safe_ok_or {A : Type} (o : option A) e : safe (ok_or o e).
Proof using Type. by destruct o. Qed.
Lemma safe_extend {A : Type} t (r : outcome A) : safe r -> safe (extend t r).
Proof using Type. by destruct r. Qed.
Lemma safe_or_else {A : Type} (m k : outcome A) : safe m -> safe k -> safe (or_else m k).
Proof using Type. by destruct m. Qed.
Lemma safe_for_each {A : Type} (f : A -> outcome unit) l : (forall x, x ∈ l -> safe (f x)) -> safe (for_each f l).
Proof using Type.
  induction l as [|x l IH]; intros Hf; [done|]. apply safe_bind; [apply Hf; left|]. intros _ _. apply IH. intros y Hy. apply Hf. by right.
Qed.
Lemma safe_fold {A B : Type} (f : B -> A -> outcome B) l : forall b,
  (forall b x, x ∈ l -> safe (f b x)) -> safe (fold_outcome f l b).
Proof using Type.
  induction l as [|x l IH]; intros b Hf; [done|]. apply safe_bind; [apply Hf; left|]. intros b' _. apply IH.
  intros b0 y Hy. apply Hf. by right.
Qed.
Lemma safe_verdict r b : verdict r b -> safe r.
Proof using Type. by destruct r. Qed.
#[local] Hint Resolve safe_ok safe_err safe_ok_or : safe.
Ltac safe := repeat first [ solve [eauto with safe] | apply safe_bind; [|intros ? ?] | apply safe_extend
  | apply safe_for_each; intros ? ? | apply safe_fold; intros ? ? ? | apply safe_or_else | case_match ].

(** The functions of ursa return. *)
Record ursa_safe : Prop := mkUrsaSafe {
  safe_revealed s : safe (revealed_attrs_of s);
  safe_from_dec t : safe (from_dec t);
  safe_new_schema : safe new_credential_schema_builder;
  safe_schema_add b a : safe (schema_add_attr b a);
  safe_schema_finalize b : safe (schema_finalize b);
  safe_new_non_schema : safe new_non_credential_schema_builder;
  safe_non_schema_add b a : safe (non_schema_add_attr b a);
  safe_non_schema_finalize b : safe (non_schema_finalize b);
  safe_new_request : safe new_sub_proof_request_builder;
  safe_add_attr b a : safe (add_revealed_attr b a);
  safe_add_predicate b a t c : safe (add_predicate b a t c);
  safe_request_finalize b : safe (request_finalize b);
  safe_key a b : safe (build_from_parts a b);
  safe_new_verifier : safe new_proof_verifier;
  safe_add_request v r s n k a g : safe (add_sub_proof_request v r s n k a g);
  safe_verify v p n : safe (crypto_verify v p n)
}.
Context (US : ursa_safe).

Lemma insert_identifiers_safe {V : Type} p (index : V -> nat) l m : safe (insert_identifiers p index l m).
Proof using Type. unfold insert_identifiers, _get_proof_identifier. safe. Qed.
Lemma value_safe name p r : safe (_verify_revealed_attribute_value to_lowercase name p r).
Proof using US. destruct US. unfold _verify_revealed_attribute_value. safe. Qed.
Lemma values_safe req p : safe (_verify_revealed_attribute_values to_lowercase req p).
Proof using US. pose proof value_safe. unfold _verify_revealed_attribute_values, verify_single, verify_group. safe. Qed.
Lemma timestamp_safe m k a b : safe (_validate_timestamp m k a b).
Proof using Type. unfold _validate_timestamp. safe. Qed.
Lemma timestamps_safe req m1 m2 s m3 : safe (_compare_timestamps_from_proof_and_request req m1 m2 s m3).
Proof using Type. pose proof timestamp_safe. unfold _compare_timestamps_from_proof_and_request. safe. Qed.
Lemma compare_safe req m1 m2 s m3 : safe (_compare_attr_from_proof_and_request req m1 m2 s m3).
Proof using Type. unfold _compare_attr_from_proof_and_request. safe. Qed.
Lemma operator_safe m q f : safe (_do_process_operator to_lowercase m q f).
Proof using Type. exact (safe_verdict _ _ (process_operator_verdict to_lowercase m f q)). Qed.
Lemma gather_safe k m : safe (_gather_filter_info k m).
Proof using Type. unfold _gather_filter_info. safe. Qed.

(** The restrictions: predicates are answered, and what is revealed is requested and not
    self-attested. *)
Lemma restrictions_safe req rp m1 m2 m3 self :
  (forall k, is_Some (requested_predicates req !! k) -> is_Some (predicates rp !! k)) ->
  (forall k, is_Some (revealed_attrs rp !! k) -> is_Some (requested_attributes req !! k) /\ k ∉ self) ->
  safe (_verify_requested_restrictions to_lowercase req rp m1 m2 m3 self).
Proof using HL.
  intros Hp Hr. pose proof gather_safe. pose proof operator_safe. unfold _verify_requested_restrictions.
  apply safe_bind; [unfold check_attribute, attribute_values; safe|]. intros _ _. apply safe_for_each.
  intros [k info] Hk%elem_of_iter. unfold check_predicate. destruct (pi_restrictions info) as [q|]; [|done].
  apply safe_bind; [apply gather_safe|]. intros f _. apply safe_bind; [|intros m _; apply safe_extend, operator_safe].
  unfold predicate_values. destruct (Hp k ltac:(by eexists)) as [i ->]. apply safe_bind; [|intros; apply safe_ok].
  apply safe_fold. intros m [k' r] Hk'%elem_of_iter. unfold add_single. destruct (i =? ra_index r)%nat; [|done].
  destruct (Hr k' ltac:(by eexists)) as [[info' Hi] Hs].
  rewrite (proj2 (map_lookup_filter_Some _ _ k' info')); [done|]. split; [done|].
  unfold _is_self_attested. repeat case_match; by rewrite ?bool_decide_eq_false_2 by done.
Qed.

Lemma sub_proofs_safe p req schemas cred_defs rev_reg_defs rev_regs ncs ids : forall v j,
  safe (add_sub_proofs to_lowercase p req schemas cred_defs rev_reg_defs rev_regs ncs v j ids).
Proof using US.
  induction ids as [|ident ids IH]; intros v j; [done|]. apply safe_bind; [|intros v' _; apply IH].
  destruct US. unfold add_sub_proof, find_revocation, build_credential_schema, build_sub_proof_request, add_names. safe.
Qed.

(** The verifier does not panic.  On any request, any proof and any objects, if the
    functions of ursa return, [verify] gives a verdict or an error, provided that the proof
    does not list an attribute both as revealed and as self-attested. *)
Theorem verify_never_panics full_proof proof_req schemas cred_defs rev_reg_defs rev_regs :
  (forall k, is_Some (revealed_attrs (requested_proof full_proof) !! k) ->
     self_attested_attrs (requested_proof full_proof) !! k = None) ->
  verify to_lowercase full_proof proof_req schemas cred_defs rev_reg_defs rev_regs <> Panic.
Proof using HL US.
  intros Hd. pose proof US as []. unfold verify.
  apply safe_bind; [unfold _received_revealed_attrs; pose proof @insert_identifiers_safe; safe|]. intros m1 H1.
  apply safe_bind; [apply insert_identifiers_safe|]. intros m2 H2. apply safe_bind; [apply insert_identifiers_safe|]. intros m3 H3.
  apply safe_bind; [apply compare_safe|]. intros [] H4. apply safe_bind; [apply values_safe|]. intros _ _.
  destruct (compared_doms _ _ _ _ _ H1 H2 H3 H4) as [Ha Hp].
  apply safe_bind; [apply restrictions_safe|intros _ _].
  - intros k Hk%(elem_of_dom (D := gset string)). apply (elem_of_dom (D := gset string)). by rewrite <-Hp.
  - intros k Hk. split; [|rewrite self_attested_lookup, Hd by done; by intros []].
    apply (elem_of_dom (D := gset string)). rewrite Ha. apply (elem_of_dom (D := gset string)) in Hk. set_solver.
  - apply safe_bind; [apply timestamps_safe|]. intros _ _. apply safe_bind; [done|]. intros v0 _.
    apply safe_bind; [unfold build_non_credential_schema; safe|]. intros ncs _.
    apply safe_bind; [apply sub_proofs_safe|]. intros v _. apply safe_verify0.
Qed.
End Panics.

(** ** Unqualified restrictions *)
Section Unqualify.
Context {H : HashOrder} (to_lowercase : string -> string) (node_1_3 : bool).

(** Restrictions without negation. *)
Fixpoint positive (q : Query) : bool :=
  match q with
  | QNeq _ _ | QNot _ => false
  | QAnd qs | QOr qs => forallb positive qs
  | _ => true
  end.
Definition unqualified_filter (f : Filter) : Filter :=
  mkFilter (schema_id_to_unqualified (f_schema_id f)) (to_unqualified (f_schema_issuer_did f)) (f_schema_name f)
    (f_schema_version f) (to_unqualified (f_issuer_did f)) (cred_def_id_to_unqualified node_1_3 (f_cred_def_id f)).

Abbreviation convert_value := (_convert_value_to_unqualified node_1_3).
Abbreviation convert := (_convert_query_to_unqualified node_1_3).

Lemma field_unqualified f tag x : field f tag = Some x -> field (unqualified_filter f) tag = Some (convert_value tag x).
Proof using Type.
  unfold field, _convert_value_to_unqualified, unqualified_filter. cbn.
  repeat match goal with |- context [String.eqb tag ?s] => destruct (String.eqb_spec tag s) as [->|] end;
    cbn; try discriminate; by intros [= <-].
Qed.
Lemma field_none f tag : field f tag = None ->
  field (unqualified_filter f) tag = None /\ (VALUE_TAG_MATCHER tag <> None \/ _is_attr_marker_operator tag = true ->
    forall v, convert_value tag v = v).
Proof using Type.
  intros Hf. split.
  { revert Hf. unfold field. by repeat (case_match; [discriminate|]). }
  intros Ht v. unfold _convert_value_to_unqualified.
  destruct (bool_decide_reflect (tag = "issuer_did" \/ tag = "schema_issuer_did")) as [[-> | ->]|]; [discriminate Hf..|].
  destruct (bool_decide_reflect (tag = "schema_id")) as [->|]; [discriminate Hf|].
  destruct (bool_decide_reflect (tag = "cred_def_id")) as [->|]; [discriminate Hf|].
  destruct (bool_decide_reflect (tag = "rev_reg_id")) as [->|]; [|done].
  destruct Ht as [Ht|Ht]; [by destruct Ht|discriminate Ht].
Qed.
Lemma tag_met_unqualified m f tag v :
  tag_met to_lowercase m f tag v = true -> tag_met to_lowercase m (unqualified_filter f) tag (convert_value tag v) = true.
Proof using Type.
  unfold tag_met. destruct (field f tag) as [x|] eqn:Ef.
  - rewrite (field_unqualified f tag x Ef). intros ->%String.eqb_eq. apply String.eqb_refl.
  - destruct (field_none f tag Ef) as [-> Hv]. destruct (VALUE_TAG_MATCHER tag); [|done].
    rewrite Hv by (by left). done.
Qed.

(** Converting a request to unqualified identifiers keeps what its positive restrictions
    accept: a credential that meets them meets the converted ones with its unqualified
    identifiers. *)
Theorem unqualified_restrictions m f q :
  positive q = true -> met to_lowercase m f q = true -> met to_lowercase m (unqualified_filter f) (convert q) = true.
Proof using Type.
  induction q as [l IH|l IH|q IH|n v|n v| | | | | |n vs] using Query_nested_ind; cbn [positive met _convert_query_to_unqualified];
    try done; intros Hp Hm.
  - rewrite forallb_forall in Hp, Hm. apply forallb_forall. intros q' (q & <- & Hq)%in_map_iff.
    rewrite Forall_forall in IH. apply IH; [by apply list_elem_of_In|by apply Hp|by apply Hm].
  - rewrite forallb_forall in Hp. apply existsb_exists in Hm as (q & Hq & Hm). apply existsb_exists. exists (convert q).
    split; [by apply in_map|]. rewrite Forall_forall in IH. apply IH; [by apply list_elem_of_In|by apply Hp|done].
  - by apply tag_met_unqualified.
  - apply existsb_exists in Hm as (v & Hv & Hm). apply existsb_exists. exists (convert_value n v).
    split; [by apply in_map|]. by apply tag_met_unqualified.
Qed.

(** A negated restriction loses its negation: the converted request asks for what the
    original one excludes. *)
Theorem unqualified_negation_lost m f name :
  let q := QNot (QEq "schema_name" name) in
  met to_lowercase m f (convert q) = negb (met to_lowercase m f q).
Proof using Type. cbv zeta. cbn [met _convert_query_to_unqualified]. by rewrite negb_involutive. Qed.
End Unqualify.

(** ** Examples *)

(** A toy ursa: a public key is the one credential issued under it, and the verifier looks
    into it. *)
Definition digit_of (a : ascii) : Z := Z.of_nat (nat_of_ascii a) - 48.
Fixpoint decimal (acc : Z) (s : string) : Z :=
  match s with EmptyString => acc | String a s => decimal (10 * acc + digit_of a)%Z s end.
Definition assoc (l : list (string * Z)) (x : string) : option Z := snd <$> find (fun '(y, _) => String.eqb x y) l.
Definition meaning_of (t : string) (v c : Z) : bool :=
  if String.eqb t "GE" then (v >=? c)%Z else if String.eqb t "LE" then (v <=? c)%Z
  else if String.eqb t "GT" then (v >? c)%Z else (v <? c)%Z.
Definition shows (k : list (string * Z)) (sub : list (string * string)) (preds : list (string * string * Z)) : bool :=
  forallb (fun '(x, t) => bool_decide (assoc k x = Some (decimal 0 t))) sub &&
  forallb (fun '(x, t, c) => match assoc k x with Some v => meaning_of t v c | None => false end) preds.
Fixpoint shows_all (reqs : list (list (string * string * Z) * list (string * Z) * option unit * option unit))
    (subs : list (list (string * string))) : bool :=
  match reqs, subs with
  | [], [] => true
  | (r, k, _, _) :: reqs, sub :: subs => shows k sub r && shows_all reqs subs
  | _, _ => false
  end.
#[local] Instance demo_ursa : Ursa := {|
  CryptoProof := list (list (string * string));
  SubProof := list (string * string);
  proofs p := p;
  revealed_attrs_of s := Ok s;
  from_dec t := Ok (decimal 0 t);
  CredentialSchema := unit; CredentialSchemaBuilder := unit; new_credential_schema_builder := Ok ();
  schema_add_attr _ _ := Ok (); schema_finalize _ := Ok ();
  NonCredentialSchema := unit; NonCredentialSchemaBuilder := unit; new_non_credential_schema_builder := Ok ();
  non_schema_add_attr _ _ := Ok (); non_schema_finalize _ := Ok ();
  SubProofRequest := list (string * string * Z);
  SubProofRequestBuilder := list (string * string * Z);
  new_sub_proof_request_builder := Ok [];
  add_revealed_attr b _ := Ok b;
  add_predicate b a t c := Ok ((a, t, c) :: b);
  request_finalize b := Ok b;
  PrimaryKey := list (string * Z);
  RevocationKey := unit;
  CredentialPublicKey := list (string * Z);
  build_from_parts k _ := Ok k;
  RevocationKeyPublic := unit;
  RevocationRegistry := unit;
  ProofVerifier := list (list (string * string * Z) * list (string * Z) * option unit * option unit);
  new_proof_verifier := Ok [];
  add_sub_proof_request v r _ _ k a g := Ok (v ++ [(r, k, a, g)])%list;
  crypto_verify v p _ := Ok (shows_all v p)
|}.
Lemma meaning_of_text t v c : meaning_of (predicate_type_text t) v c = true -> predicate_meaning t v c.
Proof. destruct t; cbn; lia. Qed.
Lemma shows_all_lookup reqs : forall subs i r k a g, shows_all reqs subs = true -> reqs !! i = Some (r, k, a, g) ->
  exists sub, subs !! i = Some sub /\ shows k sub r = true.
Proof.
  induction reqs as [|[[[r0 k0] a0] g0] reqs IH]; intros [|sub subs] i r k a g; cbn; try done.
  intros [Hs Ha]%andb_true_iff. destruct i as [|i]; cbn; [intros [= -> -> _ _]; by exists sub|]. by apply IH.
Qed.
#[local] Instance demo_ursa_laws : UrsaLaws demo_ursa.
Proof.
  refine {| signed k vals := vals = assoc k; unrevoked _ _ _ := True; builder_predicates b := b;
            request_predicates r := r; verifier_requests v := v |}.
  - intros b a t c b' [= <-]. split; [left|]. intros x Hx. by right.
  - intros b r [= <-]. done.
  - by intros v [= <-].
  - by intros v r s n k a g v' [= <-].
  - intros v p n [= Hs] i r k a g Hi. destruct (shows_all_lookup _ _ _ _ _ _ _ Hs Hi) as (sub & Hsub & Hsh).
    unfold shows in Hsh. apply andb_true_iff in Hsh as [H1 H2]. rewrite !forallb_forall in H1, H2.
    exists sub, (assoc k). do 2 (split; [done|]). split; [|split; [|done]].
    + intros attrs x t [= ->] Hx%list_elem_of_In%H1. exists (decimal 0 t). split; [done|]. by apply bool_decide_eq_true in Hx.
    + intros x t c Hx%list_elem_of_In%H2. destruct (assoc k x) as [y|]; [|discriminate]. exists y. split; [done|].
      by apply meaning_of_text.
Defined.
Lemma demo_ursa_safe : ursa_safe.
Proof. split; intros; discriminate. Qed.

#[local] Instance demo_order : HashOrder := {| iter V m := map_to_list m |}.
#[local] Instance demo_order_laws : HashOrderLaws demo_order.
Proof. split. done. Qed.
#[local] Instance demo_debug : Debug := {|
  debug_names _ := ""; debug_identifiers _ := ""; debug_values _ := ""; debug_strings _ := "";
  debug_option _ := ""; debug_number _ := ""
|}.

Definition passport : string := "G:2:passport:1.0".
Definition good_id : string := "G:3:CL:1:tag".
Definition evil_id : string := "E:3:CL:2:tag".
Definition good : Identifier := mkIdentifier passport good_id None None.
Definition evil : Identifier := mkIdentifier passport evil_id None None.
Definition demo_schemas : gmap string SchemaV1 := {[ passport := mkSchema ["name"; "age"] ]}.
Definition demo_cred_defs : gmap string CredentialDefinitionV1 :=
  {[ good_id := mkCredDef [("name", 5%Z); ("age", 20%Z)] None; evil_id := mkCredDef [("name", 7%Z); ("age", 99%Z)] None ]}.
Definition name_from (q : option Query) : AttributeInfo := mkAttributeInfo (Some "name") None q None.
Definition adult (q : option Query) : PredicateInfo := mkPredicateInfo "age" GE 18 q None.
Definition demo_request (q q' : option Query) : ProofRequestPayload :=
  mkPayload 1 "r" "1.0" {[ "a" := name_from q ]} {[ "p" := adult q' ]} None.
Definition from_good : option Query := Some (QEq "cred_def_id" good_id).
Definition demo_proof : Proof_ :=
  mkProof [[("name", "5")]] (mkRequestedProof {[ "a" := mkRevealed 0 "Alice" "5" ]} ∅ ∅ ∅ {[ "p" := 0 ]}) [good].
Definition demo_verify (p : Proof_) (r : ProofRequestPayload) : outcome bool :=
  verify (fun s => s) p r demo_schemas demo_cred_defs ∅ ∅.


Lemma accepted_predicate_witness :
  exists i ident vals y, predicates (requested_proof demo_proof) !! "p" = Some i /\
    identifiers demo_proof !! i = Some ident /\ backed demo_cred_defs ∅ ∅ ident vals /\
    vals "age" = Some y /\ predicate_meaning GE y 18.
Proof.
  assert (Hv : verify (fun s => s) demo_proof (demo_request from_good from_good) demo_schemas demo_cred_defs ∅ ∅ = Ok true)
    by (vm_compute; reflexivity).
  destruct (proj1 (accepted_predicate (fun s => s) _ _ _ _ _ _ Hv) "p" (adult from_good) ltac:(vm_compute; reflexivity))
    as (i & ident & vals & y & H1 & H2 & H3 & H4 & H5 & _).
  exists i, ident, vals, y. by split_and!.
Defined.

Lemma verify_never_panics_witness :
  verify (fun s => s) demo_proof (demo_request from_good from_good) demo_schemas demo_cred_defs ∅ ∅ <> Panic.
Proof. apply (verify_never_panics (fun s => s) demo_ursa_safe). intros k _. reflexivity. Defined.

(** An attribute that is listed both as revealed and as unrevealed is checked against the
    restrictions with the credential of the second entry, and its value with the credential of
    the first: the request asks for a name from the credential definition of [G], and a name
    that [E] issued is accepted. *)
Definition masked_proof : Proof_ :=
  mkProof [[]; [("name", "7")]]
    (mkRequestedProof {[ "a" := mkRevealed 1 "Mallory" "7" ]} ∅ ∅ {[ "a" := 0 ]} {[ "p" := 0 ]}) [good; evil].
Theorem unrevealed_entry_masks_credential :
  demo_verify masked_proof (demo_request from_good from_good) = Ok true /\
  (identifiers masked_proof !! 1) = Some evil /\
  met (fun s => s) {[ "name" := Some "Mallory" ]} (mkFilter passport "G" "passport" "1.0" "E" evil_id)
    (QEq "cred_def_id" good_id) = false.
Proof. repeat split; vm_compute; reflexivity. Qed.

(** A proof that both reveals and self-attests an attribute makes the verifier panic. *)
Definition doubled_proof : Proof_ :=
  mkProof [[("name", "5")]]
    (mkRequestedProof {[ "a" := mkRevealed 0 "Alice" "5" ]} ∅ {[ "a" := "Alice" ]} ∅ {[ "p" := 0 ]}) [good].
Theorem doubled_attribute_panics : demo_verify doubled_proof (demo_request None from_good) = Panic.
Proof. vm_compute. reflexivity. Qed.

(** The raw value is not tied to the encoded one: a restriction on the value of a revealed
    attribute is met by any text that the prover writes next to the same cryptographic proof. *)
Definition named_proof (raw : string) : Proof_ :=
  mkProof [[("name", "5")]] (mkRequestedProof {[ "a" := mkRevealed 0 raw "5" ]} ∅ ∅ ∅ {[ "p" := 0 ]}) [good].
Theorem value_restriction_on_raw_text :
  demo_verify (named_proof "Alice") (demo_request (Some (QEq "attr::name::value" "Alice")) None) = Ok true /\
  demo_verify (named_proof "Bob") (demo_request (Some (QEq "attr::name::value" "Bob")) None) = Ok true.
Proof. split; vm_compute; reflexivity. Qed.

(** The schema of a sub proof is the prover's claim: it is not compared with the schema that
    the credential definition is for. *)
Definition library_id : string := "G:3:CL:G:2:library:1.0:tag".
Definition library_card : Proof_ :=
  mkProof [[("name", "5")]] (mkRequestedProof {[ "a" := mkRevealed 0 "Alice" "5" ]} ∅ ∅ ∅ {[ "p" := 0 ]})
    [mkIdentifier passport library_id None None].
Theorem schema_is_not_compared :
  let q := Some (QAnd [QEq "schema_id" passport; QEq "issuer_did" "G"]) in
  verify (fun s => s) library_card (demo_request q q) demo_schemas
    {[ library_id := mkCredDef [("name", 5%Z); ("age", 20%Z)] None ]} ∅ ∅ = Ok true /\
  cred_def_id_parts library_id = Some ("G", "CL", "G:2:library:1.0", "tag").
Proof. split; vm_compute; reflexivity. Qed.

(** A marker, which asks for a credential that has the attribute, is met by any credential. *)
Theorem marker_is_always_met :
  demo_verify demo_proof (demo_request (Some (QEq "attr::height::marker" "1")) None) = Ok true /\
  assoc [("name", 5%Z); ("age", 20%Z)] "height" = None.
Proof. split; vm_compute; reflexivity. Qed.
