(* ===== verification/WalletCrypto.v ===== *)
(** * Wallet encryption

    [libindy/indy-wallet/src/encryption.rs] and [EncryptedValue] of
    [libindy/indy-wallet/src/wallet.rs]: searchable encryption of names and tags,
    envelope encryption of values, and decryption of storage records.

    libsodium is the record [Sodium] of operations; [SodiumLaws] states what its
    documentation promises.  Random keys and nonces are arguments. *)

From stdpp Require Import base list strings numbers gmap.
From Stdlib Require Import ZArith Lia.
From S2P Require Import Prelude.

Definition KEYBYTES : nat := 32.
Definition NONCEBYTES : nat := 12.
Definition TAGBYTES : nat := 16.
Definition HMACBYTES : nat := 32.

(** The libsodium calls of [chacha20poly1305_ietf] and [hmacsha256]. *)
Class Sodium := {
  seal : bytes -> bytes -> bytes -> bytes;            (* data nonce key *)
  open : bytes -> bytes -> bytes -> option bytes;     (* data nonce key *)
  authenticate : bytes -> bytes -> bytes              (* data key *)
}.

Class SodiumLaws (S : Sodium) := {
  open_seal : forall data nonce key, open (seal data nonce key) nonce key = Some data;
  seal_length : forall data nonce key, length (seal data nonce key) = length data + TAGBYTES;
  authenticate_length : forall data key, length (authenticate data key) = HMACBYTES
}.

(** [Keys] of [wallet.rs]. *)
Record Keys := mkKeys {
  type_key : bytes;
  name_key : bytes;
  value_key : bytes;
  item_hmac_key : bytes;
  tag_name_key : bytes;
  tag_value_key : bytes;
  tags_hmac_key : bytes
}.

(** [Tag] and [TagName] of [storage/mod.rs]. *)
Inductive Tag :=
  | TagEncrypted (ename evalue : bytes)
  | TagPlainText (ename : bytes) (value : string).

#[export] Instance Tag_eq_dec : EqDecision Tag.
Proof. solve_decision. Defined.

Inductive StorageTagName :=
  | OfEncrypted (ename : bytes)
  | OfPlain (ename : bytes).

(** [EncryptedValue] of [wallet.rs]. *)
Record EncryptedValue := mkEncryptedValue { ev_data : bytes; ev_key : bytes }.

(** [StorageRecord] of [storage/mod.rs] and [WalletRecord] of [lib.rs]. *)
Record StorageRecord := mkStorageRecord {
  sr_id : bytes;
  sr_value : option EncryptedValue;
  sr_type : option bytes;
  sr_tags : option (list Tag)
}.

Record WalletRecord := mkWalletRecord {
  wr_id : string;
  wr_type : option string;
  wr_value : option string;
  wr_tags : option (gmap string string)
}.

Open Scope string_scope.
Definition tilde : Ascii.ascii := Ascii.ascii_of_N 126.

Section Ops.
Context {S : Sodium}.

(** [encrypt_as_searchable]: the nonce is the truncated HMAC of the data. *)
Definition encrypt_as_searchable (data key hmac_key : bytes) : bytes :=
  let tag := authenticate data hmac_key in
  let nonce := take NONCEBYTES tag in
  let ct := seal data nonce key in
  nonce ++ ct.

(** [encrypt_as_not_searchable], with the random nonce as an argument. *)
Definition encrypt_as_not_searchable (nonce data key : bytes) : bytes :=
  let ct := seal data nonce key in
  nonce ++ ct.

(** [decrypt], through [chacha20poly1305_ietf::decrypt]. *)
Definition decrypt (data key nonce : bytes) : outcome bytes :=
  match open data nonce key with
  | Some res => Ok res
  | None => Err (err_msg InvalidStructure "Unable to open sodium chacha20poly1305_ietf")
  end.

(** [decrypt_merged]: slicing panics on data shorter than a nonce. *)
Definition decrypt_merged (joined_data key : bytes) : outcome bytes :=
  if (length joined_data <? NONCEBYTES)%nat then Panic
  else
    let nonce := take NONCEBYTES joined_data in
    let data := drop NONCEBYTES joined_data in
    decrypt data key nonce.

(** [encrypt_tag_names]. *)
Definition encrypt_tag_names (tag_names : list string) (tag_name_key tags_hmac_key : bytes)
  : list StorageTagName :=
  map (fun tag_name =>
    if starts_with_char tilde tag_name
    then OfPlain (encrypt_as_searchable (drop 1 (as_bytes tag_name)) tag_name_key tags_hmac_key)
    else OfEncrypted (encrypt_as_searchable (as_bytes tag_name) tag_name_key tags_hmac_key))
    tag_names.

(** One round of [encrypt_tags]. *)
Definition encrypt_tag (tag_name_key tag_value_key tags_hmac_key : bytes)
    (tag : string * string) : Tag :=
  let (tag_name, tag_value) := tag in
  if starts_with_char tilde tag_name
  then TagPlainText
         (encrypt_as_searchable (drop 1 (as_bytes tag_name)) tag_name_key tags_hmac_key)
         tag_value
  else TagEncrypted
         (encrypt_as_searchable (as_bytes tag_name) tag_name_key tags_hmac_key)
         (encrypt_as_searchable (as_bytes tag_value) tag_value_key tags_hmac_key).

(** [encrypt_tags]; the list is the iteration order of the [HashMap]. *)
Definition encrypt_tags (tags : list (string * string))
    (tag_name_key tag_value_key tags_hmac_key : bytes) : list Tag :=
  map (encrypt_tag tag_name_key tag_value_key tags_hmac_key) tags.

Definition to_utf8 (e : IndyError) (b : bytes) : outcome string :=
  match from_utf8 b with Some s => Ok s | None => Err e end.

(** One round of the loop of [decrypt_tags]. *)
Definition decrypt_tag (tag_name_key tag_value_key : bytes) (etag : Tag)
  : outcome (string * string) :=
  match etag with
  | TagPlainText ename value =>
      match decrypt_merged ename tag_name_key with
      | Err _ => Err (err_msg WalletEncryptionError "Unable to decrypt tag name")
      | Panic => Panic
      | Ok tag_name_bytes =>
          let? name := to_utf8 (err_msg WalletEncryptionError "Plaintext Tag name is invalid utf8")
                         tag_name_bytes in
          Ok ("~" +:+ name, value)
      end
  | TagEncrypted ename evalue =>
      let? n := decrypt_merged ename tag_name_key in
      let? name := to_utf8 (err_msg WalletEncryptionError "Tag name is invalid utf8") n in
      let? v := decrypt_merged evalue tag_value_key in
      let? value := to_utf8 (err_msg WalletEncryptionError "Tag value is invalid utf8") v in
      Ok (name, value)
  end.

Fixpoint decrypt_tags_loop (etags : list Tag) (tag_name_key tag_value_key : bytes)
    (tags : gmap string string) : outcome (gmap string string) :=
  match etags with
  | [] => Ok tags
  | etag :: etags' =>
      let? (name, value) := decrypt_tag tag_name_key tag_value_key etag in
      decrypt_tags_loop etags' tag_name_key tag_value_key (<[name := value]> tags)
  end.

(** [decrypt_tags]. *)
Definition decrypt_tags (etags : option (list Tag)) (tag_name_key tag_value_key : bytes)
  : outcome (option (gmap string string)) :=
  match etags with
  | None => Ok None
  | Some etags =>
      let? tags := decrypt_tags_loop etags tag_name_key tag_value_key ∅ in Ok (Some tags)
  end.

(** [EncryptedValue::encrypt]; the fresh [value_key] and the two nonces are
    arguments. *)
Definition ev_encrypt (fresh_key nonce1 nonce2 : bytes) (data : string) (key : bytes)
  : EncryptedValue :=
  mkEncryptedValue
    (encrypt_as_not_searchable nonce1 (as_bytes data) fresh_key)
    (encrypt_as_not_searchable nonce2 fresh_key key).

(** [EncryptedValue::decrypt]. *)
Definition ev_decrypt (self : EncryptedValue) (key : bytes) : outcome string :=
  let? value_key_bytes := decrypt_merged (ev_key self) key in
  if (length value_key_bytes =? KEYBYTES)%nat then
    let? data := decrypt_merged (ev_data self) value_key_bytes in
    to_utf8 (err_msg InvalidState "Invalid UTF8 string inside of value") data
  else Err (err_msg InvalidStructure "Invalid value key").

(** [decrypt_storage_record]. *)
Definition decrypt_storage_record (record : StorageRecord) (keys : Keys) : outcome WalletRecord :=
  let? name_bytes := decrypt_merged (sr_id record) (name_key keys) in
  let? decrypted_name := to_utf8 (err_msg WalletEncryptionError "Record is invalid utf8") name_bytes in
  let? decrypted_value :=
    match sr_value record with
    | Some value => out_map Some (ev_decrypt value (value_key keys))
    | None => Ok None
    end in
  let? decrypted_type :=
    match sr_type record with
    | Some type_ =>
        let? t := decrypt_merged type_ (type_key keys) in
        out_map Some (to_utf8 (err_msg WalletEncryptionError "Record type is invalid utf8") t)
    | None => Ok None
    end in
  let? decrypted_tags := decrypt_tags (sr_tags record) (tag_name_key keys) (tag_value_key keys) in
  Ok (mkWalletRecord decrypted_name decrypted_type decrypted_value decrypted_tags).
End Ops.

Definition ENCRYPTED_KEY_LEN : nat := TAGBYTES + NONCEBYTES + KEYBYTES.

(** [EncryptedValue::to_bytes]. *)
Definition ev_to_bytes (self : EncryptedValue) : bytes := ev_key self ++ ev_data self.

(** [EncryptedValue::from_bytes]. *)
Definition ev_from_bytes (joined_data : bytes) : outcome EncryptedValue :=
  if (length joined_data <? ENCRYPTED_KEY_LEN)%nat
  then Err (err_msg InvalidStructure "Unable to split value_key from value: value too short")
  else Ok (mkEncryptedValue (drop ENCRYPTED_KEY_LEN joined_data) (take ENCRYPTED_KEY_LEN joined_data)).

(** The key part of an encrypted value has its length, so the joined bytes can be split. *)
Definition ev_ok (v : EncryptedValue) : Prop := length (ev_key v) = ENCRYPTED_KEY_LEN.

Lemma ev_bytes_roundtrip v : ev_ok v -> ev_from_bytes (ev_to_bytes v) = Ok v.
Proof.
  unfold ev_ok, ev_from_bytes, ev_to_bytes. intros Hk.
  rewrite (proj2 (Nat.ltb_ge _ _)) by (rewrite length_app, Hk; lia).
  rewrite <-Hk, take_app_length, drop_app_length. by destruct v.
Qed.

(** ** Facts *)
Section Facts.
Context {S : Sodium} {L : SodiumLaws S}.

Lemma merged_nonce nonce data key :
  length nonce = NONCEBYTES -> decrypt_merged (nonce ++ seal data nonce key) key = Ok data.
Proof.
  intros Hn. unfold decrypt_merged, decrypt.
  rewrite (proj2 (Nat.ltb_ge _ _)) by (rewrite length_app; lia).
  rewrite <-Hn, take_app_length, drop_app_length, open_seal. done.
Qed.

Lemma searchable_nonce_length data hmac_key :
  length (take NONCEBYTES (authenticate data hmac_key)) = NONCEBYTES.
Proof. rewrite length_take, authenticate_length. done. Qed.

Lemma decrypt_searchable data key hmac_key :
  decrypt_merged (encrypt_as_searchable data key hmac_key) key = Ok data.
Proof. apply merged_nonce, searchable_nonce_length. Qed.

Lemma searchable_inj d1 d2 key hmac_key :
  encrypt_as_searchable d1 key hmac_key = encrypt_as_searchable d2 key hmac_key -> d1 = d2.
Proof.
  intros E. pose proof (decrypt_searchable d1 key hmac_key) as H1.
  rewrite E, decrypt_searchable in H1. by injection H1.
Qed.

Lemma starts_with_tilde s : starts_with_char tilde s = true -> exists t, s = "~" +:+ t.
Proof.
  destruct s as [|a t]; [done|]. cbn. intros ->%Ascii.eqb_eq. by exists t.
Qed.

Lemma rust_string_tail t : rust_string ("~" +:+ t) -> rust_string t.
Proof. done. Qed.

Lemma decrypt_encrypt_tag nk vk hk n v :
  rust_string n -> rust_string v ->
  decrypt_tag nk vk (encrypt_tag nk vk hk (n, v)) = Ok (n, v).
Proof.
  intros Hn Hv. unfold encrypt_tag. destruct (starts_with_char tilde n) eqn:E.
  - apply starts_with_tilde in E as [t ->]. cbn [decrypt_tag].
    change (drop 1 (as_bytes ("~" +:+ t))) with (as_bytes t).
    rewrite decrypt_searchable. unfold to_utf8. by rewrite from_utf8_as_bytes.
  - cbn [decrypt_tag]. rewrite !decrypt_searchable. cbn [obind]. unfold to_utf8.
    by rewrite !from_utf8_as_bytes.
Qed.

Lemma decrypt_tags_loop_encrypted nk vk hk tags acc :
  Forall (fun nv => rust_string nv.1 /\ rust_string nv.2) tags ->
  decrypt_tags_loop (encrypt_tags tags nk vk hk) nk vk acc =
  Ok (foldl (fun m nv => <[nv.1 := nv.2]> m) acc tags).
Proof.
  intros Ht. revert acc. induction Ht as [|[n v] tags [Hn Hv] _ IH]; intros acc; [done|].
  cbn [encrypt_tags map decrypt_tags_loop]. rewrite decrypt_encrypt_tag by done.
  cbn [obind fst snd foldl]. apply IH.
Qed.

Lemma foldl_insert_lookup tags (acc : gmap string string) n :
  NoDup tags.*1 -> foldl (fun m nv => <[nv.1 := nv.2]> m) acc tags !! n =
  match list_to_map (M := gmap string string) tags !! n with Some v => Some v | None => acc !! n end.
Proof.
  revert acc. induction tags as [|[k v] tags IH]; intros acc Hnd; [done|].
  cbn [fmap list_fmap fst] in Hnd. apply NoDup_cons in Hnd as [Hk Hnd].
  cbn [foldl fst snd list_to_map foldr]. rewrite IH by done. cbn.
  destruct (decide (n = k)) as [->|Hne].
  - rewrite (not_elem_of_list_to_map_1 _ _ Hk), !lookup_insert_eq. done.
  - by rewrite !lookup_insert_ne.
Qed.

Lemma foldl_insert_list_to_map tags :
  NoDup tags.*1 ->
  foldl (fun m nv => <[nv.1 := nv.2]> m) (∅ : gmap string string) tags = list_to_map tags.
Proof.
  intros Hnd. apply map_eq. intros n. rewrite foldl_insert_lookup by done.
  destruct (list_to_map tags !! n) eqn:E; [done|]. apply lookup_empty.
Qed.

Lemma decrypt_tags_encrypted nk vk hk tags :
  NoDup tags.*1 -> Forall (fun nv => rust_string nv.1 /\ rust_string nv.2) tags ->
  decrypt_tags (Some (encrypt_tags tags nk vk hk)) nk vk = Ok (Some (list_to_map tags)).
Proof.
  intros Hnd Ht. cbn [decrypt_tags]. rewrite decrypt_tags_loop_encrypted by done.
  cbn [obind]. by rewrite foldl_insert_list_to_map.
Qed.

Lemma ev_decrypt_encrypt fresh n1 n2 data key :
  length fresh = KEYBYTES -> length n1 = NONCEBYTES -> length n2 = NONCEBYTES ->
  rust_string data -> ev_decrypt (ev_encrypt fresh n1 n2 data key) key = Ok data.
Proof.
  intros Hf H1 H2 Hd. unfold ev_decrypt, ev_encrypt. cbn [ev_key ev_data].
  unfold encrypt_as_not_searchable. rewrite (merged_nonce n2 fresh) by done. cbn [obind].
  rewrite Hf, Nat.eqb_refl, (merged_nonce n1) by done. cbn [obind].
  unfold to_utf8. by rewrite from_utf8_as_bytes.
Qed.

Lemma searchable_not_empty data key hmac_key : encrypt_as_searchable data key hmac_key <> [].
Proof.
  unfold encrypt_as_searchable. intros H%(f_equal length). rewrite length_app, seal_length in H. unfold TAGBYTES in H. cbn [length] in H. lia.
Qed.

Lemma ev_encrypt_ok fresh n1 n2 data key :
  length fresh = KEYBYTES -> length n2 = NONCEBYTES -> ev_ok (ev_encrypt fresh n1 n2 data key).
Proof.
  intros Hf H2. unfold ev_ok, ev_encrypt, encrypt_as_not_searchable. cbn [ev_key].
  by rewrite length_app, seal_length, Hf, H2.
Qed.

Lemma ev_bytes_encrypt fresh n1 n2 data key :
  length fresh = KEYBYTES -> length n2 = NONCEBYTES ->
  ev_from_bytes (ev_to_bytes (ev_encrypt fresh n1 n2 data key)) =
  Ok (ev_encrypt fresh n1 n2 data key).
Proof. intros Hf H2. by apply ev_bytes_roundtrip, ev_encrypt_ok. Qed.
End Facts.

(** What [Wallet::add] stores for a record. *)
Definition stored_record {S : Sodium} (keys : Keys) (fresh n1 n2 : bytes)
    (type_ name value : string) (tags : list (string * string)) : StorageRecord :=
  mkStorageRecord
    (encrypt_as_searchable (as_bytes name) (name_key keys) (item_hmac_key keys))
    (Some (ev_encrypt fresh n1 n2 value (value_key keys)))
    (Some (encrypt_as_searchable (as_bytes type_) (type_key keys) (item_hmac_key keys)))
    (Some (encrypt_tags tags (tag_name_key keys) (tag_value_key keys) (tags_hmac_key keys))).

(** ** Properties *)
Section Properties.
Context (S : Sodium) (L : SodiumLaws S).

(** Decrypting the storage record that [Wallet::add] writes gives back the
    record: same name, type and value, and the map of its tags, whatever order
    the tag map was iterated in and whichever tags are plaintext ([~] names). *)
Theorem decrypt_stored_record keys fresh n1 n2 type_ name value tags :
  length fresh = KEYBYTES -> length n1 = NONCEBYTES -> length n2 = NONCEBYTES ->
  rust_string type_ -> rust_string name -> rust_string value ->
  NoDup tags.*1 -> Forall (fun nv => rust_string nv.1 /\ rust_string nv.2) tags ->
  decrypt_storage_record (stored_record keys fresh n1 n2 type_ name value tags) keys =
  Ok (mkWalletRecord name (Some type_) (Some value) (Some (list_to_map tags))).
Proof.
  intros Hf H1 H2 Ht Hn Hv Hnd Htags. unfold decrypt_storage_record, stored_record.
  cbn [sr_id sr_value sr_type sr_tags]. rewrite !decrypt_searchable. cbn [obind].
  unfold to_utf8. rewrite !from_utf8_as_bytes by done. cbn [obind].
  rewrite ev_decrypt_encrypt by done. cbn [out_map obind].
  by rewrite decrypt_tags_encrypted.
Qed.

(** An encrypted value survives being joined to bytes for storage and split
    again, and then decrypts to the plaintext. *)
Theorem encrypted_value_bytes_roundtrip fresh n1 n2 data key :
  length fresh = KEYBYTES -> length n1 = NONCEBYTES -> length n2 = NONCEBYTES ->
  rust_string data ->
  obind (ev_from_bytes (ev_to_bytes (ev_encrypt fresh n1 n2 data key)))
    (fun ev => ev_decrypt ev key) = Ok data.
Proof.
  intros Hf H1 H2 Hd. rewrite ev_bytes_encrypt by done. by apply ev_decrypt_encrypt.
Qed.
End Properties.

(** A concrete cipher for the witnesses: the data and a tag made of key and nonce. *)
Definition demo_mac (nonce key : bytes) : bytes := take TAGBYTES (nonce ++ key ++ replicate 16 0%Z).

#[export] Instance demo_sodium : Sodium := {
  seal data nonce key := (data ++ demo_mac nonce key)%list;
  open data nonce key :=
    let n := (length data - TAGBYTES)%nat in
    if bool_decide (drop n data = demo_mac nonce key) then Some (take n data) else None;
  authenticate data key := take HMACBYTES (data ++ key ++ replicate 32 0%Z)%list
}.

#[export] Instance demo_sodium_laws : SodiumLaws demo_sodium.
Proof.
  assert (Hm : forall nonce key, length (demo_mac nonce key) = TAGBYTES).
  { intros. unfold demo_mac. rewrite length_take, !length_app, length_replicate.
    unfold TAGBYTES. lia. }
  split.
  - intros data nonce key. cbn [open seal demo_sodium]. rewrite length_app, Hm.
    replace (length data + TAGBYTES - TAGBYTES)%nat with (length data) by lia.
    by rewrite drop_app_length, bool_decide_eq_true_2, take_app_length.
  - intros. cbn [seal demo_sodium]. by rewrite length_app, Hm.
  - intros. cbn [authenticate demo_sodium]. rewrite length_take, !length_app, length_replicate.
    unfold HMACBYTES. lia.
Qed.

Definition demo_keys : Keys := mkKeys [1]%Z [2]%Z [3]%Z [4]%Z [5]%Z [6]%Z [7]%Z.
Definition demo_tags : list (string * string) := [("~age", "31"); ("name", "alice")].

Lemma decrypt_stored_record_witness :
  decrypt_storage_record (stored_record demo_keys (replicate 32 9%Z) (replicate 12 1%Z)
    (replicate 12 2%Z) "cred" "id1" "secret" demo_tags) demo_keys =
  Ok (mkWalletRecord "id1" (Some "cred") (Some "secret") (Some (list_to_map demo_tags))).
Proof.
  apply (decrypt_stored_record demo_sodium demo_sodium_laws); try reflexivity.
  - unfold demo_tags. cbn. repeat constructor; set_solver.
  - repeat constructor.
Defined.

Lemma encrypted_value_bytes_roundtrip_witness :
  obind (ev_from_bytes (ev_to_bytes (ev_encrypt (replicate 32 9%Z) (replicate 12 1%Z)
    (replicate 12 2%Z) "secret" [8]%Z))) (fun ev => ev_decrypt ev [8]%Z) = Ok "secret".
Proof.
  apply (encrypted_value_bytes_roundtrip demo_sodium demo_sodium_laws); reflexivity.
Defined.
