(* ===== verification/WalletQuery.v ===== *)
(** * Wallet search: encrypted queries and their SQL

    [language.rs] ([TagName], [TargetValue], [Operator]), [query_encryption.rs]
    and [storage/default/query.rs] of [libindy/indy-wallet/src], and the query
    part of [Wallet::search] of [wallet.rs].

    The SQL text is related to a small syntax of conditions ([Cond]) with its
    printer and its meaning over the tags of one item.  The main theorem follows a
    search from the plaintext query to the rows: the condition sent to the
    database selects exactly the items whose plaintext tags satisfy the query. *)

From stdpp Require Import base list strings numbers gmap.
From Stdlib Require Import ZArith Lia.
From S2P Require Import Prelude Json Wql WalletCrypto.

Open Scope string_scope.

(** ** [language.rs] *)
Inductive TagName :=
  | EncryptedTagName (v : bytes)
  | PlainTagName (v : bytes).

Inductive TargetValue :=
  | Unencrypted (s : string)
  | EncryptedTarget (v : bytes).

Inductive Operator :=
  | OAnd (l : list Operator)
  | OOr (l : list Operator)
  | ONot (o : Operator)
  | OEq (n : TagName) (v : TargetValue)
  | ONeq (n : TagName) (v : TargetValue)
  | OGt (n : TagName) (v : TargetValue)
  | OGte (n : TagName) (v : TargetValue)
  | OLt (n : TagName) (v : TargetValue)
  | OLte (n : TagName) (v : TargetValue)
  | OLike (n : TagName) (v : TargetValue)
  | OIn (n : TagName) (vs : list TargetValue).

(** [TagName::from]. *)
Definition tag_name_from (s : string) : outcome TagName :=
  if bool_decide (s = "") || (starts_with_char tilde s && (String.length s =? 1)%nat)
  then Err (err_msg WalletQueryError "Tag name must not be empty")
  else if starts_with_char tilde s then Ok (PlainTagName (drop 1 (as_bytes s)))
  else Ok (EncryptedTagName (as_bytes s)).

(** [From<String> for TargetValue]. *)
Definition target_value_from (s : string) : TargetValue := Unencrypted s.

(** ** [query_encryption.rs] *)
Section Encryption.
Context {S : Sodium}.

(** [encrypt_name_value]. *)
Definition encrypt_name_value (name value : string) (keys : Keys)
  : outcome (TagName * TargetValue) :=
  let? name := tag_name_from name in
  let value := target_value_from value in
  match name, value with
  | EncryptedTagName name, Unencrypted s =>
      Ok (EncryptedTagName (encrypt_as_searchable name (tag_name_key keys) (tags_hmac_key keys)),
          EncryptedTarget (encrypt_as_searchable (as_bytes s) (tag_value_key keys) (tags_hmac_key keys)))
  | PlainTagName name, Unencrypted s =>
      Ok (PlainTagName (encrypt_as_searchable name (tag_name_key keys) (tags_hmac_key keys)),
          Unencrypted s)
  | _, _ =>
      Err (err_msg WalletQueryError
             "Reached invalid combination of tag name and value while encrypting query")
  end.

Definition transform_leaf (op : TagName -> TargetValue -> Operator) (name value : string)
    (keys : Keys) : outcome Operator :=
  let? (encrypted_name, encrypted_value) := encrypt_name_value name value keys in
  Ok (op encrypted_name encrypted_value).

(** [transform] and [transform_list_operators]. *)
Fixpoint transform (query : Query) (keys : Keys) : outcome Operator :=
  let transform_list_operators := fix go l :=
    match l with
    | [] => Ok []
    | q :: l' => let? o := transform q keys in let? os := go l' in Ok (o :: os)
    end in
  match query with
  | QEq name value => transform_leaf OEq name value keys
  | QNeq name value => transform_leaf ONeq name value keys
  | QGt name value => transform_leaf OGt name value keys
  | QGte name value => transform_leaf OGte name value keys
  | QLt name value => transform_leaf OLt name value keys
  | QLte name value => transform_leaf OLte name value keys
  | QLike name value => transform_leaf OLike name value keys
  | QIn name values =>
      let? ename := tag_name_from name in
      let ename :=
        match ename with
        | EncryptedTagName name =>
            EncryptedTagName (encrypt_as_searchable name (tag_name_key keys) (tags_hmac_key keys))
        | PlainTagName name =>
            PlainTagName (encrypt_as_searchable name (tag_name_key keys) (tags_hmac_key keys))
        end in
      let? encrypted_values :=
        omapM (fun value => out_map snd (encrypt_name_value name value keys)) values in
      Ok (OIn ename encrypted_values)
  | QAnd operators => let? l := transform_list_operators operators in Ok (OAnd l)
  | QOr operators => let? l := transform_list_operators operators in Ok (OOr l)
  | QNot boxed_operator => let? o := transform boxed_operator keys in Ok (ONot o)
  end.

(** [encrypt_query]. *)
Definition encrypt_query (query : Query) (keys : Keys) : outcome Operator := transform query keys.
End Encryption.

(** ** [storage/default/query.rs] *)

(** A bound parameter: [Vec<u8>] is stored as a blob, [String] as text. *)
Inductive SqlArg :=
  | Blob (b : bytes)
  | Text (s : string).

Definition query_error (msg : string) : IndyError := err_msg WalletQueryError msg.

Definition plain_sql (cmp : string) : string :=
  "(i.id in (SELECT item_id FROM tags_plaintext WHERE name = ? AND value " +:+ cmp +:+ " ?))".
Definition encrypted_sql (cmp : string) : string :=
  "(i.id in (SELECT item_id FROM tags_encrypted WHERE name = ? AND value " +:+ cmp +:+ " ?))".

(** [eq_to_sql] and [neq_to_sql], which differ in the operator and the message. *)
Definition eq_neq_to_sql (cmp msg : string) (name : TagName) (value : TargetValue)
    (arguments : list SqlArg) : outcome (string * list SqlArg) :=
  match name, value with
  | PlainTagName queried_name, Unencrypted queried_value =>
      Ok (plain_sql cmp, (arguments ++ [Blob queried_name; Text queried_value])%list)
  | EncryptedTagName queried_name, EncryptedTarget queried_value =>
      Ok (encrypted_sql cmp, (arguments ++ [Blob queried_name; Blob queried_value])%list)
  | _, _ => Err (query_error msg)
  end.
Definition eq_to_sql :=
  eq_neq_to_sql "=" "Invalid combination of tag name and value for equality operator".
Definition neq_to_sql :=
  eq_neq_to_sql "!=" "Invalid combination of tag name and value for inequality operator".

(** [gt_to_sql] .. [like_to_sql]: plaintext tags only. *)
Definition plain_cmp_to_sql (cmp op_name : string) (name : TagName) (value : TargetValue)
    (arguments : list SqlArg) : outcome (string * list SqlArg) :=
  match name, value with
  | PlainTagName queried_name, Unencrypted queried_value =>
      Ok (plain_sql cmp, (arguments ++ [Blob queried_name; Text queried_value])%list)
  | _, _ =>
      Err (query_error ("Invalid combination of tag name and value for " +:+ op_name +:+ " operator"))
  end.
Definition gt_to_sql := plain_cmp_to_sql ">" "$gt".
Definition gte_to_sql := plain_cmp_to_sql ">=" "$gte".
Definition lt_to_sql := plain_cmp_to_sql "<" "$lt".
Definition lte_to_sql := plain_cmp_to_sql "<=" "$lte".
Definition like_to_sql := plain_cmp_to_sql "LIKE" "$like".

(** The loop of [in_to_sql] over [values.iter().enumerate()]: [comma index] says
    whether a comma follows, [target] extracts the value or fails with [msg]. *)
Fixpoint in_loop (comma : nat -> bool) (target : TargetValue -> option SqlArg) (msg : string)
    (index : nat) (values : list TargetValue) (in_string : string) (arguments : list SqlArg)
  : outcome (string * list SqlArg) :=
  match values with
  | [] => Ok (in_string +:+ ")))", arguments)
  | value :: values' =>
      match target value with
      | Some t =>
          let in_string := in_string +:+ "?" in
          let arguments := (arguments ++ [t])%list in
          let in_string := if comma index then in_string +:+ "," else in_string in
          in_loop comma target msg (Datatypes.S index) values' in_string arguments
      | None => Err (query_error msg)
      end
  end.

Definition unencrypted_target (v : TargetValue) : option SqlArg :=
  match v with Unencrypted s => Some (Text s) | EncryptedTarget _ => None end.
Definition encrypted_target (v : TargetValue) : option SqlArg :=
  match v with EncryptedTarget b => Some (Blob b) | Unencrypted _ => None end.

(** [in_to_sql]: for encrypted tags [values.len() - 2] is computed up front. *)
Definition in_to_sql (p : Profile) (name : TagName) (values : list TargetValue)
    (arguments : list SqlArg) : outcome (string * list SqlArg) :=
  match name with
  | PlainTagName queried_name =>
      in_loop (fun index => (index <? length values - 1)%nat) unencrypted_target
        "Encrypted tag value in $in for nonencrypted tag name" 0 values
        "(i.id in (SELECT item_id FROM tags_plaintext WHERE name = ? AND value IN ("
        (arguments ++ [Blob queried_name])%list
  | EncryptedTagName queried_name =>
      let? index_before_last := usize_sub p (Z.of_nat (length values)) 2 in
      in_loop (fun index => (Z.of_nat index <=? index_before_last)%Z) encrypted_target
        "Unencrypted tag value in $in for encrypted tag name" 0 values
        "(i.id in (SELECT item_id FROM tags_encrypted WHERE name = ? AND value IN ("
        (arguments ++ [Blob queried_name])%list
  end.

Section Join.
Context (operator_to_sql : Operator -> list SqlArg -> outcome (string * list SqlArg)).

(** The loop of [join_operators]: a join string after every operand but the last. *)
Definition join_loop (join_str : string) : list Operator -> string -> list SqlArg ->
    outcome (string * list SqlArg) :=
  fix go operators s arguments :=
    match operators with
    | [] => Ok (s +:+ ")", arguments)
    | operator :: operators' =>
        let? (operator_string, arguments) := operator_to_sql operator arguments in
        let s := s +:+ operator_string in
        let s := match operators' with [] => s | _ => s +:+ join_str end in
        go operators' s arguments
    end.

(** [join_operators]. *)
Definition join_operators (operators : list Operator) (join_str : string)
    (arguments : list SqlArg) : outcome (string * list SqlArg) :=
  match operators with
  | [] => Ok ("", arguments)
  | _ => join_loop join_str operators "(" arguments
  end.
End Join.

(** [operator_to_sql], [and_to_sql], [or_to_sql], [not_to_sql]; [arguments] is
    threaded as the vector the code pushes to. *)
Fixpoint operator_to_sql (p : Profile) (op : Operator) (arguments : list SqlArg)
  : outcome (string * list SqlArg) :=
  match op with
  | OEq tag_name target_value => eq_to_sql tag_name target_value arguments
  | ONeq tag_name target_value => neq_to_sql tag_name target_value arguments
  | OGt tag_name target_value => gt_to_sql tag_name target_value arguments
  | OGte tag_name target_value => gte_to_sql tag_name target_value arguments
  | OLt tag_name target_value => lt_to_sql tag_name target_value arguments
  | OLte tag_name target_value => lte_to_sql tag_name target_value arguments
  | OLike tag_name target_value => like_to_sql tag_name target_value arguments
  | OIn tag_name target_values => in_to_sql p tag_name target_values arguments
  | OAnd suboperators => join_operators (operator_to_sql p) suboperators " AND " arguments
  | OOr suboperators => join_operators (operator_to_sql p) suboperators " OR " arguments
  | ONot suboperator =>
      let? (suboperator_string, arguments) := operator_to_sql p suboperator arguments in
      Ok ("NOT (" +:+ suboperator_string +:+ ")", arguments)
  end.

Definition BASE : string :=
  "SELECT i.id, i.name, i.value, i.key, i.type FROM items as i WHERE i.type = ?".

(** [wql_to_sql]. *)
Definition wql_to_sql (p : Profile) (class : bytes) (op : Operator)
  : outcome (string * list SqlArg) :=
  let? (clause_string, arguments) := operator_to_sql p op [Blob class] in
  if bool_decide (clause_string = "") then Ok (BASE, arguments)
  else Ok (BASE +:+ " AND " +:+ clause_string, arguments).

(** [wql_to_sql_count]. *)
Definition wql_to_sql_count (p : Profile) (class : bytes) (op : Operator)
  : outcome (string * list SqlArg) :=
  let? (clause_string, arguments) := operator_to_sql p op [Blob class] in
  let query_string := "SELECT count(*) FROM items as i WHERE i.type = ?" in
  Ok (if bool_decide (clause_string = "") then query_string
      else query_string +:+ " AND " +:+ clause_string, arguments).

(** [Wallet::search] up to the call of the storage: parse, optimise (the default
    query when nothing is left), encrypt, and the SQL of the default storage. *)
Definition search_sql {S : Sodium} (p : Profile) (keys : Keys) (type_ : string) (query : Value)
  : outcome (string * list SqlArg) :=
  match deserialize query with
  | RErr msg => Err (query_error msg)
  | ROk q =>
      let parsed_query := match optimise q with Some q' => q' | None => query_default end in
      let? encrypted_query := encrypt_query parsed_query keys in
      let encrypted_type := encrypt_as_searchable (as_bytes type_) (type_key keys) (item_hmac_key keys) in
      wql_to_sql p encrypted_type encrypted_query
  end.

(** ** SQL conditions

    The conditions the code means to write, with their text and their meaning for
    one item, given the rows of the item in the two tag tables.  Parameters are
    bound from left to right. *)
Inductive Cond :=
  | CCmp (enc : bool) (cmp : string)
  | CIn (enc : bool) (n : nat)
  | CNot (c : Cond)
  | CJoin (is_and : bool) (l : list Cond).

Fixpoint marks (n : nat) : string :=
  match n with
  | 0 => ""
  | Datatypes.S n' => match n' with 0 => "?" | _ => "?," +:+ marks n' end
  end.

Fixpoint print_cond (c : Cond) : string :=
  match c with
  | CCmp enc cmp => if enc then encrypted_sql cmp else plain_sql cmp
  | CIn enc n =>
      (if enc
       then "(i.id in (SELECT item_id FROM tags_encrypted WHERE name = ? AND value IN ("
       else "(i.id in (SELECT item_id FROM tags_plaintext WHERE name = ? AND value IN (")
      +:+ marks n +:+ ")))"
  | CNot c => "NOT (" +:+ print_cond c +:+ ")"
  | CJoin is_and l =>
      "(" +:+ String.concat (if is_and then " AND " else " OR ") (map print_cond l) +:+ ")"
  end.

Section CondMeaning.
Context (like : string -> string -> bool).

(** Text comparison is bytewise; blobs are only compared for equality. *)
Definition text_cmp (cmp : string) (stored arg : string) : bool :=
  if String.eqb cmp "=" then String.eqb stored arg
  else if String.eqb cmp "!=" then negb (String.eqb stored arg)
  else if String.eqb cmp ">" then String.ltb arg stored
  else if String.eqb cmp ">=" then String.leb arg stored
  else if String.eqb cmp "<" then String.ltb stored arg
  else if String.eqb cmp "<=" then String.leb stored arg
  else like stored arg.
Definition blob_cmp (cmp : string) (stored arg : bytes) : bool :=
  if String.eqb cmp "=" then bool_decide (stored = arg) else negb (bool_decide (stored = arg)).

(** [i.id in (SELECT item_id FROM tags_plaintext WHERE name = n AND test value)] *)
Definition plain_row (n : bytes) (test : string -> bool) (rows : list Tag) : bool :=
  existsb (fun t => match t with
                    | TagPlainText en v => bool_decide (en = n) && test v
                    | _ => false
                    end) rows.
Definition encrypted_row (n : bytes) (test : bytes -> bool) (rows : list Tag) : bool :=
  existsb (fun t => match t with
                    | TagEncrypted en v => bool_decide (en = n) && test v
                    | _ => false
                    end) rows.

Fixpoint take_texts (n : nat) (args : list SqlArg) : option (list string * list SqlArg) :=
  match n, args with
  | 0, _ => Some ([], args)
  | Datatypes.S n', Text s :: args' =>
      match take_texts n' args' with Some (l, r) => Some (s :: l, r) | None => None end
  | _, _ => None
  end.
Fixpoint take_blobs (n : nat) (args : list SqlArg) : option (list bytes * list SqlArg) :=
  match n, args with
  | 0, _ => Some ([], args)
  | Datatypes.S n', Blob s :: args' =>
      match take_blobs n' args' with Some (l, r) => Some (s :: l, r) | None => None end
  | _, _ => None
  end.

Section Join.
Context (eval_one : Cond -> list SqlArg -> option (bool * list SqlArg)).
Definition eval_all : list Cond -> list SqlArg -> option (list bool * list SqlArg) :=
  fix go l args :=
    match l with
    | [] => Some ([], args)
    | c :: l' =>
        match eval_one c args with
        | Some (b, args') =>
            match go l' args' with
            | Some (bs, args'') => Some (b :: bs, args'')
            | None => None
            end
        | None => None
        end
    end.
End Join.

(** Whether the item with these rows satisfies the condition, and the parameters
    left over; [None] when they do not fit. *)
Fixpoint eval_cond (rows : list Tag) (c : Cond) (args : list SqlArg)
  : option (bool * list SqlArg) :=
  match c with
  | CCmp false cmp =>
      match args with
      | Blob n :: Text v :: args' =>
          Some (plain_row n (fun t => text_cmp cmp t v) rows, args')
      | _ => None
      end
  | CCmp true cmp =>
      match args with
      | Blob n :: Blob v :: args' =>
          Some (encrypted_row n (fun t => blob_cmp cmp t v) rows, args')
      | _ => None
      end
  | CIn false k =>
      match args with
      | Blob n :: args =>
          match take_texts k args with
          | Some (vs, args') =>
              Some (plain_row n (fun t => existsb (String.eqb t) vs) rows, args')
          | None => None
          end
      | _ => None
      end
  | CIn true k =>
      match args with
      | Blob n :: args =>
          match take_blobs k args with
          | Some (vs, args') =>
              Some (encrypted_row n (fun t => existsb (fun v => bool_decide (t = v)) vs) rows, args')
          | None => None
          end
      | _ => None
      end
  | CNot c =>
      match eval_cond rows c args with
      | Some (b, args') => Some (negb b, args')
      | None => None
      end
  | CJoin is_and l =>
      match eval_all (eval_cond rows) l args with
      | Some (bs, args') => Some ((if is_and then forallb id bs else existsb id bs), args')
      | None => None
      end
  end.
End CondMeaning.

(** ** The condition of an operator *)
Definition is_encrypted (n : TagName) : bool :=
  match n with EncryptedTagName _ => true | PlainTagName _ => false end.
Definition name_bytes (n : TagName) : bytes :=
  match n with EncryptedTagName b => b | PlainTagName b => b end.
Definition target_arg (v : TargetValue) : SqlArg :=
  match v with Unencrypted s => Text s | EncryptedTarget b => Blob b end.

Definition leaf_parts (op : Operator) : option (string * TagName * TargetValue) :=
  match op with
  | OEq n v => Some ("=", n, v)
  | ONeq n v => Some ("!=", n, v)
  | OGt n v => Some (">", n, v)
  | OGte n v => Some (">=", n, v)
  | OLt n v => Some ("<", n, v)
  | OLte n v => Some ("<=", n, v)
  | OLike n v => Some ("LIKE", n, v)
  | _ => None
  end.

Fixpoint cond_of (op : Operator) : Cond :=
  match op with
  | OAnd l => CJoin true (map cond_of l)
  | OOr l => CJoin false (map cond_of l)
  | ONot o => CNot (cond_of o)
  | OIn n vs => CIn (is_encrypted n) (length vs)
  | OEq n _ => CCmp (is_encrypted n) "="
  | ONeq n _ => CCmp (is_encrypted n) "!="
  | OGt n _ => CCmp (is_encrypted n) ">"
  | OGte n _ => CCmp (is_encrypted n) ">="
  | OLt n _ => CCmp (is_encrypted n) "<"
  | OLte n _ => CCmp (is_encrypted n) "<="
  | OLike n _ => CCmp (is_encrypted n) "LIKE"
  end.

Fixpoint args_of (op : Operator) : list SqlArg :=
  match op with
  | OAnd l | OOr l => flat_map args_of l
  | ONot o => args_of o
  | OIn n vs => Blob (name_bytes n) :: map target_arg vs
  | OEq n v | ONeq n v | OGt n v | OGte n v | OLt n v | OLte n v | OLike n v =>
      [Blob (name_bytes n); target_arg v]
  end.

(** Operators the SQL generator handles as intended: no empty connective, values of
    the kind of the name, comparisons on plaintext tags only, and no encrypted [$in]
    with fewer than two values. *)
Definition kind_ok (n : TagName) (v : TargetValue) : bool :=
  match n, v with
  | PlainTagName _, Unencrypted _ => true
  | EncryptedTagName _, EncryptedTarget _ => true
  | _, _ => false
  end.

Fixpoint sql_ok (op : Operator) : bool :=
  match op with
  | OAnd l | OOr l => match l with [] => false | _ => forallb sql_ok l end
  | ONot o => sql_ok o
  | OEq n v | ONeq n v => kind_ok n v
  | OGt n v | OGte n v | OLt n v | OLte n v | OLike n v => negb (is_encrypted n) && kind_ok n v
  | OIn n vs => forallb (kind_ok n) vs && (negb (is_encrypted n) || (2 <=? length vs)%nat)
  end.

Section OperatorInd.
Context (P : Operator -> Prop).
Context (PAnd : forall l, Forall P l -> P (OAnd l)) (POr : forall l, Forall P l -> P (OOr l)).
Context (PNot : forall o, P o -> P (ONot o)) (PIn : forall n vs, P (OIn n vs)).
Context (PLeaf : forall op x, leaf_parts op = Some x -> P op).

Fixpoint Operator_nested_ind (o : Operator) : P o :=
  let all := fix go l : Forall P l :=
    match l with
    | [] => Forall_nil_2 _
    | x :: l' => Forall_cons_2 _ _ _ (Operator_nested_ind x) (go l')
    end in
  match o as o0 return P o0 with
  | OAnd l => PAnd l (all l)
  | OOr l => POr l (all l)
  | ONot o => PNot o (Operator_nested_ind o)
  | OIn n vs => PIn n vs
  | OEq n v => PLeaf (OEq n v) _ eq_refl
  | ONeq n v => PLeaf (ONeq n v) _ eq_refl
  | OGt n v => PLeaf (OGt n v) _ eq_refl
  | OGte n v => PLeaf (OGte n v) _ eq_refl
  | OLt n v => PLeaf (OLt n v) _ eq_refl
  | OLte n v => PLeaf (OLte n v) _ eq_refl
  | OLike n v => PLeaf (OLike n v) _ eq_refl
  end.
End OperatorInd.

Lemma forallb_Forall_2 {A} (f : A -> bool) (P : A -> Prop) l :
  Forall (fun x => f x = true -> P x) l -> forallb f l = true -> Forall P l.
Proof.
  induction 1 as [|x l Hx _ IH]; [constructor|].
  cbn. intros [H1 H2]%andb_true_iff. constructor; auto.
Qed.

Lemma string_app_assoc a b c : (a +:+ b) +:+ c = a +:+ (b +:+ c).
Proof. induction a as [|x a IH]; [done|]. exact (f_equal (String x) IH). Qed.

(** ** The text is the printed condition *)
Lemma in_loop_marks comma target msg k vs s args :
  (forall i, comma i = (i <? k + length vs - 1)%nat) ->
  Forall (fun v => target v = Some (target_arg v)) vs ->
  in_loop comma target msg k vs s args =
  Ok (s +:+ (marks (length vs) +:+ ")))"), (args ++ map target_arg vs)%list).
Proof.
  intros Hc Hv. revert k s args Hc. induction Hv as [|v vs Hv _ IH]; intros k s args Hc.
  { cbn. by rewrite app_nil_r. }
  cbn [in_loop map length]. rewrite Hv. rewrite IH.
  - rewrite <-app_assoc. cbn [app]. f_equal. f_equal. rewrite Hc. cbn [length marks].
    destruct (length vs) as [|n] eqn:En.
    + rewrite (proj2 (Nat.ltb_ge _ _)) by lia. by rewrite string_app_assoc.
    + rewrite (proj2 (Nat.ltb_lt _ _)) by lia. by rewrite !string_app_assoc.
  - intros i. rewrite Hc. f_equal. cbn [length]. lia.
Qed.

Lemma in_to_sql_print p n vs args :
  sql_ok (OIn n vs) = true ->
  in_to_sql p n vs args =
  Ok (print_cond (cond_of (OIn n vs)), (args ++ args_of (OIn n vs))%list).
Proof.
  cbn [sql_ok]. intros [Hk Hn]%andb_true_iff. rewrite forallb_forall in Hk.
  destruct n as [n|n]; cbn [in_to_sql is_encrypted negb orb cond_of args_of name_bytes print_cond] in *.
  - apply Nat.leb_le in Hn. unfold usize_sub.
    rewrite (proj2 (Z.leb_le _ _)) by lia. cbn [obind].
    rewrite in_loop_marks; [by rewrite <-app_assoc| |].
    + intros i. destruct (Nat.ltb_spec i (0 + length vs - 1)%nat);
        [apply Z.leb_le|apply Z.leb_gt]; lia.
    + apply Forall_forall. intros v Hv%list_elem_of_In. specialize (Hk v Hv). by destruct v.
  - rewrite in_loop_marks; [by rewrite <-app_assoc|done|].
    apply Forall_forall. intros v Hv%list_elem_of_In. specialize (Hk v Hv). by destruct v.
Qed.

Definition prints (p : Profile) (op : Operator) : Prop :=
  forall args, operator_to_sql p op args =
    Ok (print_cond (cond_of op), (args ++ args_of op)%list).

Lemma join_loop_print p join l s args :
  Forall (prints p) l ->
  join_loop (operator_to_sql p) join l s args =
  Ok (s +:+ (String.concat join (map print_cond (map cond_of l)) +:+ ")"),
      (args ++ flat_map args_of l)%list).
Proof.
  intros Hl. revert s args. induction Hl as [|o l Ho Hl IH]; intros s args.
  { cbn. by rewrite app_nil_r. }
  cbn [join_loop map flat_map]. rewrite Ho. cbn [obind].
  fold (join_loop (operator_to_sql p) join). rewrite IH, app_assoc. f_equal. f_equal.
  destruct l as [|o' l']; cbn [map String.concat]; by rewrite !string_app_assoc.
Qed.

Lemma operator_to_sql_print p op : sql_ok op = true -> prints p op.
Proof.
  induction op as [l IH|l IH|o IH|n vs|op x Hx] using Operator_nested_ind; intros Hok args.
  1,2: cbn [sql_ok] in Hok; destruct l as [|o l]; [done|];
    cbn [operator_to_sql]; unfold join_operators;
    rewrite join_loop_print by (by eapply forallb_Forall_2); reflexivity.
  - cbn [operator_to_sql]. rewrite IH by done. done.
  - by apply in_to_sql_print.
  - destruct op; try done; cbn [sql_ok] in Hok; destruct n, v; try done; reflexivity.
Qed.

(** ** Plaintext queries the wallet can search for

    Tag names are not empty; comparisons and [$like] are on plaintext ([~]) tags; no
    connective is empty; an encrypted tag has two or more [$in] values. *)
Definition valid_name (n : string) : bool :=
  negb (String.eqb n "") && negb (String.eqb n "~").
Definition plain_tag (n : string) : bool := starts_with_char tilde n.

Fixpoint query_ok (q : Query) : bool :=
  match q with
  | QAnd l | QOr l => match l with [] => false | _ => forallb query_ok l end
  | QNot q => query_ok q
  | QEq n _ | QNeq n _ => valid_name n
  | QGt n _ | QGte n _ | QLt n _ | QLte n _ | QLike n _ => valid_name n && plain_tag n
  | QIn n vs => valid_name n && (plain_tag n || (2 <=? length vs)%nat)
  end.

Lemma as_bytes_inj s t : as_bytes s = as_bytes t -> s = t.
Proof. intros E. by rewrite <-(string_of_as_bytes s), E, string_of_as_bytes. Qed.

Lemma lookup_existsb (T : list (string * string)) n test :
  NoDup T.*1 ->
  tag_test (fun n => list_to_map (M := gmap string string) T !! n) n test =
  existsb (fun kv => bool_decide (kv.1 = n) && test kv.2) T.
Proof.
  unfold tag_test. induction T as [|[k v] T IH]; [done|]. intros [Hk Hnd]%NoDup_cons.
  cbn [existsb fst snd list_to_map foldr]. rewrite <-IH by done. cbn [curry].
  destruct (decide (k = n)) as [->|Hne].
  - rewrite bool_decide_eq_true_2 by done. cbn.
    rewrite lookup_insert_eq, (not_elem_of_list_to_map_1 T n Hk). by rewrite orb_false_r.
  - rewrite bool_decide_eq_false_2 by done. cbn. by rewrite lookup_insert_ne.
Qed.

Lemma existsb_map_ext {A B} (f : A -> bool) (g : B -> A) (h : B -> bool) l :
  (forall x, f (g x) = h x) -> existsb f (map g l) = existsb h l.
Proof. intros E. induction l as [|x l IH]; [done|]. cbn. by rewrite E, IH. Qed.

Section Search.
Context {S : Sodium} {L : SodiumLaws S}.
Context (like : string -> string -> bool) (keys : Keys) (T : list (string * string)).
Context (Hnd : NoDup T.*1).

Abbreviation rows := (encrypt_tags T (tag_name_key keys) (tag_value_key keys) (tags_hmac_key keys)).
Abbreviation tags := (fun n => list_to_map (M := gmap string string) T !! n).
Abbreviation enc_name b := (encrypt_as_searchable b (tag_name_key keys) (tags_hmac_key keys)).
Abbreviation enc_value b := (encrypt_as_searchable b (tag_value_key keys) (tags_hmac_key keys)).

Lemma enc_bool_decide k1 k2 s t :
  bool_decide (encrypt_as_searchable (as_bytes s) k1 k2 = encrypt_as_searchable (as_bytes t) k1 k2)
  = bool_decide (s = t).
Proof.
  apply bool_decide_ext. split; [|by intros ->]. intros E%searchable_inj. by apply as_bytes_inj.
Qed.

Lemma plain_row_spec t test :
  plain_row (enc_name (as_bytes t)) test rows = tag_test tags ("~" +:+ t) test.
Proof using L Hnd.
  rewrite lookup_existsb by done. unfold plain_row, encrypt_tags. apply existsb_map_ext.
  intros [k v]. cbn [encrypt_tag fst snd]. destruct (starts_with_char tilde k) eqn:E.
  - apply starts_with_tilde in E as [u ->].
    change (drop 1 (as_bytes ("~" +:+ u))) with (as_bytes u). rewrite enc_bool_decide.
    f_equal. apply bool_decide_ext. split; [by intros ->|].
    change (String tilde u = String tilde t -> u = t). by intros [= ->].
  - rewrite bool_decide_eq_false_2; [done|]. intros ->. done.
Qed.

Lemma encrypted_row_spec n test test' :
  starts_with_char tilde n = false -> (forall v, test' (enc_value (as_bytes v)) = test v) ->
  encrypted_row (enc_name (as_bytes n)) test' rows = tag_test tags n test.
Proof using L Hnd.
  intros Hn Ht. rewrite lookup_existsb by done. unfold encrypted_row, encrypt_tags.
  apply existsb_map_ext. intros [k v]. cbn [encrypt_tag fst snd].
  destruct (starts_with_char tilde k) eqn:E.
  - rewrite bool_decide_eq_false_2; [done|]. intros ->. congruence.
  - by rewrite enc_bool_decide, Ht.
Qed.

(** What the search does for one query: it is encrypted, the SQL generator handles
    it, and the condition means the query. *)
Definition searches (q : Query) (op : Operator) : Prop :=
  transform q keys = Ok op /\ sql_ok op = true /\
  forall rest, eval_cond like rows (cond_of op) (args_of op ++ rest)%list =
               Some (eval like tags q, rest).

(** The two ways a name and its value are encrypted. *)
Lemma valid_name_cases n :
  valid_name n = true ->
  (exists t, n = "~" +:+ t /\ plain_tag n = true /\
    tag_name_from n = Ok (PlainTagName (as_bytes t))) \/
  (plain_tag n = false /\ tag_name_from n = Ok (EncryptedTagName (as_bytes n))).
Proof.
  unfold valid_name, plain_tag, tag_name_from. intros [H1 H2]%andb_true_iff.
  apply negb_true_iff, String.eqb_neq in H1, H2.
  rewrite (bool_decide_eq_false_2 (n = "")) by done. cbn [orb].
  destruct (starts_with_char tilde n) eqn:E; [left|by right].
  apply starts_with_tilde in E as [t ->]. exists t. split; [done|]. split; [done|].
  destruct t; done.
Qed.

Lemma blob_cmp_eq v x : blob_cmp "=" (enc_value (as_bytes x)) (enc_value (as_bytes v)) = String.eqb x v.
Proof using L.
  unfold blob_cmp. cbn [String.eqb Ascii.eqb Bool.eqb]. rewrite enc_bool_decide.
  apply eq_true_iff_eq. by rewrite bool_decide_eq_true, String.eqb_eq.
Qed.
Lemma blob_cmp_neq v x :
  blob_cmp "!=" (enc_value (as_bytes x)) (enc_value (as_bytes v)) = negb (String.eqb x v).
Proof using L. rewrite <-blob_cmp_eq. reflexivity. Qed.

Ltac leaf_case n Hq :=
  let t := fresh "t" in let Hp := fresh "Hp" in let E := fresh "E" in
  let Hv := fresh "Hv" in
  cbn [query_ok] in Hq;
  assert (Hv : valid_name n = true) by
    (first [exact Hq|by apply andb_true_iff in Hq as [? _]]);
  destruct (valid_name_cases n Hv) as [(t & -> & Hp & E)|(Hp & E)];
  [|try (rewrite Hp, andb_false_r in Hq; discriminate Hq)];
  (eexists; split; [cbn [transform]; unfold transform_leaf, encrypt_name_value;
                    rewrite E; reflexivity|]);
  (split; [reflexivity|]); intros rest;
  cbn [cond_of is_encrypted args_of name_bytes target_arg app eval_cond eval];
  f_equal; f_equal;
  first [apply plain_row_spec|
         apply encrypted_row_spec; [done|intros; first [apply blob_cmp_eq|apply blob_cmp_neq]]].

Lemma transform_and l : transform (QAnd l) keys =
  obind (omapM (fun q => transform q keys) l) (fun l => Ok (OAnd l)).
Proof.
  cbn [transform]. f_equal. induction l as [|q l IH]; [done|]. cbn [omapM]. by rewrite IH.
Qed.
Lemma transform_or l : transform (QOr l) keys =
  obind (omapM (fun q => transform q keys) l) (fun l => Ok (OOr l)).
Proof.
  cbn [transform]. f_equal. induction l as [|q l IH]; [done|]. cbn [omapM]. by rewrite IH.
Qed.

Lemma searches_list l :
  Forall (fun q => query_ok q = true -> exists op, searches q op) l ->
  forallb query_ok l = true ->
  exists ops, omapM (fun q => transform q keys) l = Ok ops /\ length ops = length l /\
    forallb sql_ok ops = true /\
    forall rest, eval_all (eval_cond like rows) (map cond_of ops) (flat_map args_of ops ++ rest)%list =
                 Some (map (eval like tags) l, rest).
Proof.
  induction 1 as [|q l Hq _ IH]; cbn [forallb].
  { intros _. by exists []. }
  intros [H1 H2]%andb_true_iff.
  destruct (Hq H1) as (op & Ht & Hs & He). destruct (IH H2) as (ops & Ht' & Hl & Hs' & He').
  exists (op :: ops). cbn [omapM]. rewrite Ht, Ht'. cbn [obind length forallb].
  rewrite Hl, Hs, Hs'. repeat split; try done. intros rest.
  cbn [map flat_map eval_all]. rewrite <-app_assoc, He.
  fold (eval_all (eval_cond like rows)). by rewrite He'.
Qed.

Lemma forallb_id_map {A} (f : A -> bool) l : forallb id (map f l) = forallb f l.
Proof. induction l as [|x l IH]; [done|]. cbn. by rewrite IH. Qed.
Lemma existsb_id_map {A} (f : A -> bool) l : existsb id (map f l) = existsb f l.
Proof. induction l as [|x l IH]; [done|]. cbn. by rewrite IH. Qed.

Lemma omapM_in_values n vs mk :
  (forall v, encrypt_name_value n v keys = Ok (mk v)) ->
  omapM (fun value => out_map snd (encrypt_name_value n value keys)) vs =
  Ok (map (fun v => snd (mk v)) vs).
Proof. intros E. apply omapM_total. intros v. by rewrite E. Qed.

Lemma take_texts_args vs rest :
  take_texts (length vs) (map target_arg (map Unencrypted vs) ++ rest)%list = Some (vs, rest).
Proof. induction vs as [|v vs IH]; [done|]. cbn [length map app take_texts target_arg]. by rewrite IH. Qed.
Lemma take_blobs_args vs rest :
  take_blobs (length vs) (map target_arg (map EncryptedTarget vs) ++ rest)%list = Some (vs, rest).
Proof. induction vs as [|v vs IH]; [done|]. cbn [length map app take_blobs target_arg]. by rewrite IH. Qed.

Lemma searches_in n vs :
  query_ok (QIn n vs) = true -> exists op, searches (QIn n vs) op.
Proof using L Hnd.
  cbn [query_ok]. intros [Hv Hn]%andb_true_iff.
  destruct (valid_name_cases n Hv) as [(t & -> & Hp & E)|(Hp & E)].
  - exists (OIn (PlainTagName (enc_name (as_bytes t))) (map Unencrypted vs)). split; [|split].
    + cbn [transform]. rewrite E. cbn [obind].
      rewrite (omapM_in_values _ vs (fun v => (PlainTagName (enc_name (as_bytes t)), Unencrypted v)));
        [done|]. intros v. unfold encrypt_name_value. by rewrite E.
    + cbn [sql_ok is_encrypted negb orb]. rewrite andb_true_r.
      apply forallb_forall. by intros x (y & <- & _)%in_map_iff.
    + intros rest. cbn [cond_of is_encrypted args_of name_bytes app eval_cond eval].
      rewrite length_map, take_texts_args. f_equal. f_equal. apply plain_row_spec.
  - rewrite Hp in Hn. cbn [orb] in Hn.
    exists (OIn (EncryptedTagName (enc_name (as_bytes n)))
              (map EncryptedTarget (map (fun v => enc_value (as_bytes v)) vs))). split; [|split].
    + cbn [transform]. rewrite E. cbn [obind].
      rewrite (omapM_in_values _ vs (fun v => (EncryptedTagName (enc_name (as_bytes n)),
        EncryptedTarget (enc_value (as_bytes v))))); [by rewrite map_map|].
      intros v. unfold encrypt_name_value. by rewrite E.
    + cbn [sql_ok is_encrypted negb orb]. rewrite !length_map, Hn, andb_true_r.
      apply forallb_forall. by intros x (y & <- & _)%in_map_iff.
    + intros rest. cbn [cond_of is_encrypted args_of name_bytes app eval_cond eval].
      rewrite length_map, take_blobs_args. f_equal. f_equal. apply encrypted_row_spec; [done|].
      intros v. apply existsb_map_ext. intros x. rewrite enc_bool_decide.
      apply eq_true_iff_eq. by rewrite bool_decide_eq_true, String.eqb_eq.
Qed.

Lemma query_searches q : query_ok q = true -> exists op, searches q op.
Proof using L Hnd.
  induction q as [l IH|l IH|q IH|n v|n v|n v|n v|n v|n v|n v|n vs] using Query_nested_ind; intros Hq.
  1,2: destruct l as [|q l]; [done|];
    destruct (searches_list (q :: l) IH Hq) as ([|op ops] & Ht & Hl & Hs & He); [done|].
  - exists (OAnd (op :: ops)). split; [|split; [done|]].
    + by rewrite transform_and, Ht.
    + intros rest. cbn [cond_of args_of eval_cond]. rewrite He. cbn [eval].
      by rewrite forallb_id_map.
  - exists (OOr (op :: ops)). split; [|split; [done|]].
    + by rewrite transform_or, Ht.
    + intros rest. cbn [cond_of args_of eval_cond]. rewrite He. cbn [eval].
      by rewrite existsb_id_map.
  - destruct (IH Hq) as (op & Ht & Hs & He). exists (ONot op). split; [|split; [done|]].
    + cbn [transform]. by rewrite Ht.
    + intros rest. cbn [cond_of args_of eval_cond]. by rewrite He.
  - leaf_case n Hq.
  - leaf_case n Hq.
  - leaf_case n Hq.
  - leaf_case n Hq.
  - leaf_case n Hq.
  - leaf_case n Hq.
  - leaf_case n Hq.
  - by apply searches_in.
Qed.
End Search.

(** ** Placeholders *)
Definition question_mark : Ascii.ascii := Eval cbv in Ascii.ascii_of_nat 63.

Fixpoint placeholders (s : string) : nat :=
  match s with
  | EmptyString => 0
  | String a s' => ((if Ascii.eqb a question_mark then 1 else 0) + placeholders s')%nat
  end.

Lemma placeholders_app a b : placeholders (a +:+ b) = (placeholders a + placeholders b)%nat.
Proof.
  induction a as [|x a IH]; [done|].
  change (String x a +:+ b) with (String x (a +:+ b)). cbn [placeholders]. rewrite IH. lia.
Qed.

(** The text [s] binds exactly the arguments added to [args]. *)
Definition binds (args : list SqlArg) (base : string) (r : outcome (string * list SqlArg)) : Prop :=
  forall s args', r = Ok (s, args') ->
    exists new, args' = (args ++ new)%list /\ placeholders s = (placeholders base + length new)%nat.

Lemma in_loop_binds comma target msg k vs s args :
  binds args s (in_loop comma target msg k vs s args).
Proof.
  revert k s args. induction vs as [|v vs IH]; intros k s args t args'; cbn [in_loop].
  - intros [= <- <-]. exists []. rewrite app_nil_r, placeholders_app. cbn. split; [done|lia].
  - destruct (target v) as [a|]; [|done]. intros (new & -> & E)%IH.
    exists (a :: new). split; [by rewrite <-app_assoc|]. rewrite E. cbn [length].
    destruct (comma k); rewrite !placeholders_app; cbn; lia.
Qed.

Lemma join_loop_binds f join l s args :
  placeholders join = 0 -> Forall (fun o => forall args, binds args "" (f o args)) l ->
  binds args s (join_loop f join l s args).
Proof.
  intros Hj Hl. revert s args. induction Hl as [|o l Ho Hl IH]; intros s args t args'; cbn [join_loop].
  - intros [= <- <-]. exists []. rewrite app_nil_r, placeholders_app. cbn. split; [done|lia].
  - destruct (f o args) as [[so args1]| |] eqn:Eo; [|done|done]. cbn [obind].
    fold (join_loop f join). intros (new & -> & E)%IH.
    destruct (Ho _ _ _ Eo) as (new1 & -> & E1).
    exists (new1 ++ new)%list. split; [by rewrite app_assoc|]. rewrite E, length_app.
    cbn [placeholders] in E1.
    destruct l; rewrite ?placeholders_app, ?Hj, E1; lia.
Qed.

Lemma join_operators_binds f join l args :
  placeholders join = 0 -> Forall (fun o => forall args, binds args "" (f o args)) l ->
  binds args "" (join_operators f l join args).
Proof.
  intros Hj Hl. destruct l as [|o l]; cbn [join_operators].
  - intros s args' [= <- <-]. exists []. by rewrite app_nil_r.
  - apply (join_loop_binds f join (o :: l) "(" args Hj Hl).
Qed.

Lemma operator_to_sql_binds p op args : binds args "" (operator_to_sql p op args).
Proof.
  revert args. induction op as [l IH|l IH|o IH|n vs|op x Hx] using Operator_nested_ind; intros args.
  - by apply join_operators_binds.
  - by apply join_operators_binds.
  - intros s args'. cbn [operator_to_sql].
    destruct (operator_to_sql p o args) as [[so a]| |] eqn:E; cbn [obind]; [|done|done].
    intros [= <- <-]. destruct (IH _ _ _ E) as (new & -> & En). exists new. split; [done|].
    rewrite !placeholders_app, En. cbn. lia.
  - intros s args'. cbn [operator_to_sql]. destruct n as [n|n]; cbn [in_to_sql].
    + destruct (usize_sub _ _ _); cbn [obind]; [|done|done].
      intros (new & -> & En)%in_loop_binds. exists (Blob n :: new). by rewrite <-app_assoc.
    + intros (new & -> & En)%in_loop_binds. exists (Blob n :: new). by rewrite <-app_assoc.
  - intros s args'. destruct op; try done; destruct n, v; try done;
      intros [= <- <-]; eexists; (split; [reflexivity|]); reflexivity.
Qed.

Lemma print_cond_nonempty c : print_cond c <> "".
Proof. by destruct c as [[]|[]| |]. Qed.

(** ** Properties *)
Section Properties.
Context (S : Sodium) (L : SodiumLaws S).
Context (like : string -> string -> bool) (p : Profile) (keys : Keys).

(** Wallet search is exact.  For a JSON query whose optimised form the wallet
    supports, [search] sends the condition [c] after the type filter, with the
    encrypted type and then the parameters of [c]; and for every item, the rows
    [add] stored for its tags satisfy [c] under these parameters exactly when its
    plaintext tags satisfy the query as the caller wrote it. *)
Theorem search_selects_matching type_ q q' :
  printable q = true -> or_uniform q = true -> optimise q = Some q' -> query_ok q' = true ->
  exists c args,
    search_sql p keys type_ (to_value q) =
      Ok (BASE +:+ " AND " +:+ print_cond c,
          Blob (encrypt_as_searchable (as_bytes type_) (type_key keys) (item_hmac_key keys)) :: args)
    /\ forall T : list (string * string), NoDup T.*1 ->
         eval_cond like
           (encrypt_tags T (tag_name_key keys) (tag_value_key keys) (tags_hmac_key keys)) c args =
         Some (eval like (fun n => list_to_map (M := gmap string string) T !! n) q, []).
Proof using L.
  intros Hp Hu Ho Hq.
  destruct (query_searches like keys [] ltac:(constructor) q' Hq) as (op & Ht & Hs & _).
  exists (cond_of op), (args_of op). split.
  - unfold search_sql. destruct (to_value_parses_back q Hp) as (m & Em & Eq).
    rewrite Em. cbn [deserialize]. rewrite Eq, Ho. unfold encrypt_query. rewrite Ht. cbn [obind].
    unfold wql_to_sql. rewrite (operator_to_sql_print p op Hs). cbn [obind app].
    rewrite bool_decide_eq_false_2 by apply print_cond_nonempty. done.
  - intros T HT. destruct (query_searches like keys T HT q' Hq) as (op' & Ht' & _ & He).
    rewrite Ht in Ht'. injection Ht' as <-.
    specialize (He []). rewrite app_nil_r in He. rewrite He. f_equal. f_equal.
    pose proof (optimise_eval like (fun n => list_to_map (M := gmap string string) T !! n) q Hu) as E.
    by rewrite Ho in E.
Qed.
End Properties.

(** Whatever the operator, the statement that [wql_to_sql] builds has exactly
    one placeholder per bound argument. *)
Theorem wql_to_sql_placeholders p class op s args :
  wql_to_sql p class op = Ok (s, args) -> placeholders s = length args.
Proof.
  unfold wql_to_sql. destruct (operator_to_sql p op _) as [[cl a]| |] eqn:E; [|done|done].
  cbn [obind]. destruct (operator_to_sql_binds p op _ _ _ E) as (new & -> & En).
  cbn [placeholders] in En. case_bool_decide as Hc; intros [= <- <-].
  - subst cl. cbn [placeholders] in En. destruct new; [reflexivity|discriminate En].
  - rewrite !placeholders_app, En. reflexivity.
Qed.

(** An [$in] with one value on an encrypted tag below a [$not], which [optimise]
    does not rewrite: [values.len() - 2] underflows, so a debug build panics and a
    release build sends a statement with a comma before the closing parenthesis. *)
Theorem search_not_in_singleton (S : Sodium) keys :
  let query := Object [("$not", Object [("name", Object [("$in", Array [VString "x"])])])] in
  search_sql Debug keys "t" query = Panic /\
  exists args, search_sql Release keys "t" query =
    Ok (BASE +:+ " AND NOT ((i.id in (SELECT item_id FROM tags_encrypted WHERE name = ? AND value IN (?,))))", args).
Proof. split; [reflexivity|]. eexists. reflexivity. Qed.

(** The query [{"$not": {}}] is accepted and becomes the clause [NOT ()], which
    is no SQL expression. *)
Theorem search_not_empty (S : Sodium) p keys :
  exists args, search_sql p keys "t" (Object [("$not", Object [])]) =
    Ok (BASE +:+ " AND NOT ()", args).
Proof. destruct p; eexists; reflexivity. Qed.

(** Ordering and pattern operators on an encrypted tag are refused, wherever
    they stand at the top of a query. *)
Theorem encrypted_comparison_refused (S : Sodium) p keys type_ n v :
  plain_tag n = false -> n <> "" ->
  Forall (fun q => exists msg, obind (encrypt_query q keys) (wql_to_sql p type_) =
                     Err (query_error msg))
    [QGt n v; QGte n v; QLt n v; QLte n v; QLike n v].
Proof.
  intros Hp Hn. unfold plain_tag in Hp.
  assert (E : tag_name_from n = Ok (EncryptedTagName (as_bytes n))).
  { unfold tag_name_from. by rewrite bool_decide_eq_false_2, Hp. }
  repeat constructor; unfold encrypt_query; cbn [transform]; unfold transform_leaf, encrypt_name_value;
    rewrite E; eexists; reflexivity.
Qed.

Definition demo_search : Query :=
  QAnd [QOr [QEq "name" "alice"; QIn "name" ["x"; "y"]; QLike "~age" "3%"];
        QNot (QGte "~age" "40"); QIn "name" ["alice"]].

Lemma search_selects_matching_witness :
  exists c args,
    search_sql Debug demo_keys "cred" (to_value demo_search) =
      Ok (BASE +:+ " AND " +:+ print_cond c,
          Blob (encrypt_as_searchable (as_bytes "cred") (type_key demo_keys) (item_hmac_key demo_keys)) :: args)
    /\ forall T : list (string * string), NoDup T.*1 ->
         eval_cond String.eqb
           (encrypt_tags T (tag_name_key demo_keys) (tag_value_key demo_keys) (tags_hmac_key demo_keys)) c args =
         Some (eval String.eqb (fun n => list_to_map (M := gmap string string) T !! n) demo_search, []).
Proof.
  eapply (search_selects_matching demo_sodium demo_sodium_laws); reflexivity.
Defined.

Lemma wql_to_sql_placeholders_witness :
  placeholders (BASE +:+ " AND " +:+ plain_sql "=") = 3.
Proof.
  apply (wql_to_sql_placeholders Debug [1]%Z (OEq (PlainTagName [2]%Z) (Unencrypted "v")) _
           [Blob [1]%Z; Blob [2]%Z; Text "v"]).
  reflexivity.
Defined.

Lemma encrypted_comparison_refused_witness :
  Forall (fun q => exists msg, obind (encrypt_query q demo_keys) (wql_to_sql Debug [1]%Z) =
                     Err (query_error msg))
    [QGt "name" "1"; QGte "name" "1"; QLt "name" "1"; QLte "name" "1"; QLike "name" "1"].
Proof. apply (encrypted_comparison_refused demo_sodium); done. Defined.
