(* ===== verification/WalletStorage.v ===== *)
(** * The wallet storage interface

    The traits [WalletStorage] and [StorageIterator] of
    [libindy/indy-wallet/src/storage/mod.rs] as a class of operations on a storage, the
    record and search options of [libindy/indy-wallet/src/lib.rs], and what the wallet
    relies on: a storage holds a map from (encrypted type, encrypted name) to items, and
    every operation that fails leaves the map as it was.

    [SqliteStorage] implements the interface; [Wallet] is proved against it. *)

From stdpp Require Import base list strings numbers gmap.
From Stdlib Require Import ZArith Lia.
From S2P Require Import Prelude WalletCrypto WalletQuery.

Open Scope string_scope.

(** ** Operations on a state that can fail *)
Definition SM (S A : Type) : Type := S -> S * outcome A.

Definition sm_ret {S A} (a : A) : SM S A := fun s => (s, Ok a).
Definition sm_fail {S A} (e : IndyError) : SM S A := fun s => (s, Err e).
Definition sm_lift {S A} (m : outcome A) : SM S A := fun s => (s, m).
Definition sm_bind {S A B} (m : SM S A) (k : A -> SM S B) : SM S B :=
  fun s => match m s with
           | (s', Ok a) => k a s'
           | (s', Err e) => (s', Err e)
           | (s', Panic) => (s', Panic)
           end.
Notation "'let*' x ':=' m 'in' k" := (sm_bind m (fun x => k))
  (at level 10, x pattern, m at level 100, k at level 200) : indy_scope.

Lemma sm_bind_inv {S A B} (m : SM S A) (k : A -> SM S B) s s' r :
  sm_bind m k s = (s', r) ->
  (exists s1 a, m s = (s1, Ok a) /\ k a s1 = (s', r)) \/
  (exists e, m s = (s', Err e) /\ r = Err e) \/ (m s = (s', Panic) /\ r = Panic).
Proof. unfold sm_bind. destruct (m s) as [s1 [a|e|]]; naive_solver. Qed.

Lemma sm_bind_ok {S A B} (m : SM S A) (k : A -> SM S B) s s1 a :
  m s = (s1, Ok a) -> sm_bind m k s = k a s1.
Proof. unfold sm_bind. by intros ->. Qed.

(** ** Options *)
Record RecordOptions := mkRecordOptions {
  retrieve_type : bool;
  retrieve_value : bool;
  retrieve_tags : bool
}.

Definition record_options_default : RecordOptions := mkRecordOptions false true false.
Definition record_options_id : RecordOptions := mkRecordOptions false false false.
Definition record_options_id_value : RecordOptions := mkRecordOptions false true false.

Record SearchOptions := mkSearchOptions {
  so_records : bool;
  so_total_count : bool;
  so_type : bool;
  so_value : bool;
  so_tags : bool
}.

Definition search_options_default : SearchOptions := mkSearchOptions true false false true false.
Definition search_options_id_value : SearchOptions := mkSearchOptions true true true true false.

(** serde's reader and writer of the two option records. *)
Class OptionsCodec := {
  read_record_options : string -> option RecordOptions;
  write_record_options : RecordOptions -> string;
  read_search_options : string -> option SearchOptions;
  write_search_options : SearchOptions -> string
}.
Class OptionsCodecLaws (C : OptionsCodec) := {
  read_write_record_options o : read_record_options (write_record_options o) = Some o;
  read_write_search_options o : read_search_options (write_search_options o) = Some o
}.

(** ** The traits *)
Class WalletStorage := {
  storage : Type;
  iter : Type;
  st_get : bytes -> bytes -> string -> SM storage StorageRecord;
  st_add : bytes -> bytes -> EncryptedValue -> list Tag -> SM storage unit;
  st_update : bytes -> bytes -> EncryptedValue -> SM storage unit;
  st_add_tags : bytes -> bytes -> list Tag -> SM storage unit;
  st_update_tags : bytes -> bytes -> list Tag -> SM storage unit;
  st_delete_tags : bytes -> bytes -> list StorageTagName -> SM storage unit;
  st_delete : bytes -> bytes -> SM storage unit;
  st_get_metadata : SM storage bytes;
  st_set_metadata : bytes -> SM storage unit;
  st_get_all : SM storage iter;
  st_search : bytes -> Operator -> option string -> SM storage iter;
  st_close : SM storage unit;
  it_next : SM (storage * iter) (option StorageRecord);
  it_total_count : iter -> SM storage (option nat)
}.

(** ** What a storage holds *)
#[export] Instance StorageTagName_eq_dec : EqDecision StorageTagName.
Proof. solve_decision. Defined.
#[export] Instance StorageTagName_countable : Countable StorageTagName.
Proof.
  refine (inj_countable'
    (fun n => match n with OfEncrypted e => inl e | OfPlain e => inr e end)
    (fun s => match s with inl e => OfEncrypted e | inr e => OfPlain e end) _).
  by intros [].
Defined.

Definition tag_name (t : Tag) : StorageTagName :=
  match t with TagEncrypted n _ => OfEncrypted n | TagPlainText n _ => OfPlain n end.

Abbreviation TagMap := (gmap StorageTagName Tag).

(** A value and the tags, at most one per table and name. *)
Record SItem := mkSItem { si_value : EncryptedValue; si_tags : TagMap }.

Abbreviation View := (gmap (bytes * bytes) SItem).

Definition tag_map (l : list Tag) : TagMap := list_to_map ((fun t => (tag_name t, t)) <$> l).

(** Adding tags replaces those of the same name. *)
Definition put_tags (l : list Tag) (m : TagMap) : TagMap :=
  foldl (fun m t => <[tag_name t := t]> m) m l.
Definition drop_tags (l : list StorageTagName) (m : TagMap) : TagMap :=
  foldl (fun m n => delete n m) m l.

(** The record a storage hands out for an item under given options; the order of the
    tags is not fixed. *)
Definition record_of (o : RecordOptions) (k : bytes * bytes) (i : SItem) (r : StorageRecord) : Prop :=
  sr_id r = k.2 /\
  sr_value r = (if retrieve_value o then Some (si_value i) else None) /\
  sr_type r = (if retrieve_type o then Some k.1 else None) /\
  if retrieve_tags o
  then exists l, sr_tags r = Some l /\ NoDup (tag_name <$> l) /\ tag_map l = si_tags i
  else sr_tags r = None.

(** [get] and [search] read ["{}"] (and no options) without the JSON reader. *)
Definition options_of_get `{OptionsCodec} (options : string) : option RecordOptions :=
  if String.eqb options "{}" then Some record_options_default else read_record_options options.
Definition options_of_search `{OptionsCodec} (options : option string) : option SearchOptions :=
  match options with None => Some search_options_default | Some s => read_search_options s end.

(** ** The contract *)
Inductive is_error {A : Type} : outcome A -> IndyErrorKind -> Prop :=
  | is_error_intro e : is_error (Err e) (err_kind e).

Lemma is_error_inv {A : Type} (r : outcome A) k : is_error r k -> exists e, r = Err e /\ err_kind e = k.
Proof. intros []. eauto. Qed.

(** Types and names are encrypted, and so not empty. *)
Definition key_ok (t n : bytes) : Prop := t <> [] /\ n <> [].

(** [changes v r k new v']: with result [r] the view goes from [v] to [v']: the item at
    [k] becomes [new] on success, and nothing changes on failure. *)
Definition changes {A : Type} (v v' : View) (r : outcome A) (k : bytes * bytes) (new : option SItem) : Prop :=
  match r with
  | Ok _ => v' = match new with Some i => <[k := i]> v | None => delete k v end
  | Err _ => v' = v
  | Panic => False
  end.

Class StorageLaws {C : OptionsCodec} (W : WalletStorage) := {
  (** the view, the invariant of the implementation, and the assumption that no call of
      the back end fails by itself *)
  view : storage -> View;
  st_ok : storage -> Prop;
  healthy : Prop;
  remaining : storage -> iter -> list ((bytes * bytes) * SItem);
  it_options : iter -> RecordOptions;
  it_ok : storage -> iter -> Prop;

  law_add s s' r t n v l :
    st_ok s -> key_ok t n -> ev_ok v -> NoDup (tag_name <$> l) -> st_add t n v l s = (s', r) ->
    st_ok s' /\ changes (view s) (view s') r (t, n) (Some (mkSItem v (tag_map l))) /\
    (r = Ok () -> view s !! (t, n) = None) /\
    (healthy -> if view s !! (t, n) then is_error r WalletItemAlreadyExists else r = Ok ());
  law_update s s' r t n v :
    st_ok s -> key_ok t n -> ev_ok v -> st_update t n v s = (s', r) ->
    st_ok s' /\ changes (view s) (view s') r (t, n)
      ((fun i => mkSItem v (si_tags i)) <$> view s !! (t, n)) /\
    (r = Ok () -> is_Some (view s !! (t, n))) /\
    (healthy -> if view s !! (t, n) then r = Ok () else is_error r WalletItemNotFound);
  law_add_tags s s' r t n l :
    st_ok s -> key_ok t n -> st_add_tags t n l s = (s', r) ->
    st_ok s' /\ changes (view s) (view s') r (t, n)
      ((fun i => mkSItem (si_value i) (put_tags l (si_tags i))) <$> view s !! (t, n)) /\
    (r = Ok () -> is_Some (view s !! (t, n))) /\
    (healthy -> if view s !! (t, n) then r = Ok () else is_error r WalletItemNotFound);
  law_update_tags s s' r t n l :
    st_ok s -> key_ok t n -> NoDup (tag_name <$> l) -> st_update_tags t n l s = (s', r) ->
    st_ok s' /\ changes (view s) (view s') r (t, n)
      ((fun i => mkSItem (si_value i) (tag_map l)) <$> view s !! (t, n)) /\
    (r = Ok () -> is_Some (view s !! (t, n))) /\
    (healthy -> if view s !! (t, n) then r = Ok () else is_error r WalletItemNotFound);
  law_delete_tags s s' r t n l :
    st_ok s -> key_ok t n -> st_delete_tags t n l s = (s', r) ->
    st_ok s' /\ changes (view s) (view s') r (t, n)
      ((fun i => mkSItem (si_value i) (drop_tags l (si_tags i))) <$> view s !! (t, n)) /\
    (r = Ok () -> is_Some (view s !! (t, n))) /\
    (healthy -> if view s !! (t, n) then r = Ok () else is_error r WalletItemNotFound);
  law_delete s s' r t n :
    st_ok s -> key_ok t n -> st_delete t n s = (s', r) ->
    st_ok s' /\ changes (view s) (view s') r (t, n) None /\
    (r = Ok () -> is_Some (view s !! (t, n))) /\
    (healthy -> if view s !! (t, n) then r = Ok () else is_error r WalletItemNotFound);
  law_get s s' r t n options :
    st_ok s -> key_ok t n -> st_get t n options s = (s', r) ->
    st_ok s' /\ view s' = view s /\ r <> Panic /\
    (forall rec, r = Ok rec -> exists o i,
       options_of_get options = Some o /\ view s !! (t, n) = Some i /\ record_of o (t, n) i rec) /\
    (healthy -> forall o, options_of_get options = Some o ->
       if view s !! (t, n) then exists rec, r = Ok rec else is_error r WalletItemNotFound);
  law_get_all s s' r :
    st_ok s -> st_get_all s = (s', r) ->
    st_ok s' /\ view s' = view s /\ r <> Panic /\ (healthy -> exists it, r = Ok it) /\
    forall it, r = Ok it -> it_ok s' it /\
      remaining s' it ≡ₚ map_to_list (view s) /\ it_options it = mkRecordOptions true true true;
  law_next s it s' it' r :
    st_ok s -> it_ok s it -> it_next (s, it) = ((s', it'), r) ->
    st_ok s' /\ it_ok s' it' /\ view s' = view s /\ it_options it' = it_options it /\
    match r with
    | Ok None => remaining s it = [] /\ remaining s' it' = []
    | Ok (Some rec) => exists k i, remaining s it = (k, i) :: remaining s' it' /\
        record_of (it_options it) k i rec
    | Err _ => ~ healthy
    | Panic => False
    end
}.

(** ** Facts on tag maps *)
Lemma tag_map_nil : tag_map [] = ∅.
Proof. done. Qed.

Lemma tag_map_lookup l n t :
  NoDup (tag_name <$> l) -> tag_map l !! n = Some t <-> t ∈ l /\ tag_name t = n.
Proof.
  intros Hnd. unfold tag_map. rewrite <-elem_of_list_to_map.
  - rewrite list_elem_of_fmap. naive_solver.
  - by rewrite <-list_fmap_compose.
Qed.

Lemma tag_map_perm l l' : NoDup (tag_name <$> l) -> l ≡ₚ l' -> tag_map l = tag_map l'.
Proof.
  intros Hnd Hp. unfold tag_map. apply list_to_map_proper; [by rewrite <-list_fmap_compose|].
  by apply fmap_Permutation.
Qed.

(** Distinct names: the order of insertion does not matter. *)
Lemma put_tags_map l : NoDup (tag_name <$> l) -> put_tags l ∅ = tag_map l.
Proof.
  intros Hnd. unfold put_tags.
  enough (H : forall m, foldl (fun m t => <[tag_name t := t]> m) m l = tag_map l ∪ m).
  { by rewrite H, (right_id_L ∅ (∪)). }
  induction l as [|t l IH]; intros m; cbn [foldl].
  - by rewrite tag_map_nil, (left_id_L ∅ (∪)).
  - cbn [fmap list_fmap] in Hnd. apply NoDup_cons in Hnd as [Ht Hnd].
    rewrite IH by done. unfold tag_map. cbn [fmap list_fmap list_to_map foldr].
    rewrite <-insert_union_l, <-insert_union_r; [done|].
    apply not_elem_of_list_to_map_1. by rewrite <-list_fmap_compose.
Qed.

(** ** Sequences of operations *)
Inductive StorageOp :=
  | OpAdd (t n : bytes) (v : EncryptedValue) (l : list Tag)
  | OpUpdate (t n : bytes) (v : EncryptedValue)
  | OpAddTags (t n : bytes) (l : list Tag)
  | OpUpdateTags (t n : bytes) (l : list Tag)
  | OpDeleteTags (t n : bytes) (l : list StorageTagName)
  | OpDelete (t n : bytes).

(** The tags of a call come from a [HashMap]: their names differ. *)
Definition op_valid (o : StorageOp) : Prop :=
  match o with
  | OpAdd t n v l => key_ok t n /\ ev_ok v /\ NoDup (tag_name <$> l)
  | OpUpdate t n v => key_ok t n /\ ev_ok v
  | OpUpdateTags t n l => key_ok t n /\ NoDup (tag_name <$> l)
  | OpAddTags t n _ | OpDeleteTags t n _ | OpDelete t n => key_ok t n
  end.

Definition run_op {W : WalletStorage} (o : StorageOp) : SM storage unit :=
  match o with
  | OpAdd t n v l => st_add t n v l
  | OpUpdate t n v => st_update t n v
  | OpAddTags t n l => st_add_tags t n l
  | OpUpdateTags t n l => st_update_tags t n l
  | OpDeleteTags t n l => st_delete_tags t n l
  | OpDelete t n => st_delete t n
  end.

Fixpoint run_ops {W : WalletStorage} (os : list StorageOp) (c : storage) : storage * list (outcome unit) :=
  match os with
  | [] => (c, [])
  | o :: os' => let (c1, r) := run_op o c in let (c2, rs) := run_ops os' c1 in (c2, r :: rs)
  end.

(** The specification: a map whose operations are guarded by the presence of the item. *)
Definition on_item (k : bytes * bytes) (f : SItem -> SItem) (v : View) : option View :=
  (fun i => <[k := f i]> v) <$> v !! k.
Definition spec_op (o : StorageOp) (v : View) : option View :=
  match o with
  | OpAdd t n x l =>
      match v !! (t, n) with Some _ => None | None => Some (<[(t, n) := mkSItem x (tag_map l)]> v) end
  | OpUpdate t n x => on_item (t, n) (fun i => mkSItem x (si_tags i)) v
  | OpAddTags t n l => on_item (t, n) (fun i => mkSItem (si_value i) (put_tags l (si_tags i))) v
  | OpUpdateTags t n l => on_item (t, n) (fun i => mkSItem (si_value i) (tag_map l)) v
  | OpDeleteTags t n l => on_item (t, n) (fun i => mkSItem (si_value i) (drop_tags l (si_tags i))) v
  | OpDelete t n => (fun _ => base.delete (t, n) v) <$> v !! (t, n)
  end.
Definition op_error (o : StorageOp) : IndyErrorKind :=
  match o with OpAdd _ _ _ _ => WalletItemAlreadyExists | _ => WalletItemNotFound end.

(** One outcome against the specification. *)
Definition follows (healthy : Prop) (o : StorageOp) (v v' : View) (r : outcome unit) : Prop :=
  match r with
  | Ok _ => spec_op o v = Some v'
  | Err e => v' = v /\ (healthy -> spec_op o v = None /\ err_kind e = op_error o)
  | Panic => False
  end.

Fixpoint follows_all (healthy : Prop) (os : list StorageOp) (rs : list (outcome unit)) (v v' : View) : Prop :=
  match os, rs with
  | [], [] => v' = v
  | o :: os', r :: rs' => exists v1, follows healthy o v v1 r /\ follows_all healthy os' rs' v1 v'
  | _, _ => False
  end.

Section Refinement.
Context {C : OptionsCodec} {W : WalletStorage} {WL : StorageLaws W}.

Lemma changed_item (v v' : View) (r : outcome unit) k f e :
  changes v v' r k (f <$> v !! k) -> (r = Ok () -> is_Some (v !! k)) ->
  (healthy -> if v !! k then r = Ok () else is_error r e) ->
  match r with
  | Ok _ => on_item k f v = Some v'
  | Err err => v' = v /\ (healthy -> on_item k f v = None /\ err_kind err = e)
  | Panic => False
  end.
Proof using Type.
  intros Hc Hs Hh. unfold on_item. destruct r as [[]|err|]; cbn in Hc; [| |done].
  - destruct (Hs eq_refl) as [i Hi]. rewrite Hi in *. by rewrite Hc.
  - split; [done|]. intros Hn. specialize (Hh Hn). destruct (v !! k); [done|]. split; [done|].
    by inversion Hh.
Qed.

Lemma run_op_follows o c c' r :
  st_ok c -> op_valid o -> run_op o c = (c', r) ->
  st_ok c' /\ follows healthy o (view c) (view c') r.
Proof using Type.
  intros Hok Hv H. destruct o as [t n v l|t n v|t n l|t n l|t n l|t n]; cbn in H, Hv.
  - destruct Hv as (Hk & Hev & Hnd). apply law_add in H as (Hok' & Hc & Hs & Hh); [|done..]. split; [done|]. unfold follows. cbn.
    destruct r as [[]|e|]; cbn in Hc; [| |done].
    + by rewrite Hs, Hc.
    + split; [done|]. intros Hn. specialize (Hh Hn). destruct (view c !! (t, n)); [|done].
      split; [done|]. by inversion Hh.
  - destruct Hv as [Hk Hev]. apply law_update in H as (Hok' & Hc & Hs & Hh); [|done..]. split; [done|]. by eapply changed_item.
  - apply law_add_tags in H as (Hok' & Hc & Hs & Hh); [|done..]. split; [done|]. by eapply changed_item.
  - destruct Hv as [Hk Hnd]. apply law_update_tags in H as (Hok' & Hc & Hs & Hh); [|done..]. split; [done|]. by eapply changed_item.
  - apply law_delete_tags in H as (Hok' & Hc & Hs & Hh); [|done..]. split; [done|]. by eapply changed_item.
  - apply law_delete in H as (Hok' & Hc & Hs & Hh); [|done..]. split; [done|]. unfold follows. cbn.
    destruct r as [[]|e|]; cbn in Hc; [| |done].
    + destruct (Hs eq_refl) as [i ->]. by rewrite Hc.
    + split; [done|]. intros Hn. specialize (Hh Hn). destruct (view c !! (t, n)); [done|].
      split; [done|]. by inversion Hh.
Qed.

(** Every implementation of the interface follows the specification. *)
Lemma run_ops_follow os s s' rs :
  st_ok s -> Forall op_valid os -> run_ops os s = (s', rs) ->
  st_ok s' /\ follows_all healthy os rs (view s) (view s').
Proof using Type.
  revert s rs. induction os as [|o os IH]; intros s rs Hok Hv; cbn [run_ops].
  { intros [= <- <-]. done. }
  inversion Hv as [|?? Ho Hos]; subst.
  destruct (run_op o s) as [s1 r] eqn:E1. destruct (run_ops os s1) as [s2 rs'] eqn:E2.
  intros [= <- <-]. apply run_op_follows in E1 as [Hok1 H1]; [|done..].
  apply IH in E2 as [Hok2 H2]; [|done..]. split; [done|]. cbn [follows_all]. by eauto.
Qed.
End Refinement.
