(* ===== verification/SqliteStorage.v ===== *)
(** * The SQLite wallet storage

    [libindy/indy-wallet/src/storage/default/mod.rs] and [transaction.rs].  The database
    is the contents of the tables of [_CREATE_SCHEMA] with their keys; a connection also
    has the state its open transaction would roll back to.  Every SQL statement of the
    source is a function on the tables with the meaning SQL gives it; the [SELECT] whose
    text a search computes is run by a parameter.

    Any statement can fail, by an oracle that numbers the statements: a failing statement
    has no effect.  Row identifiers, the order of rows and whether foreign keys are
    enforced are SQLite's and are parameters too. *)

From stdpp Require Import base list strings numbers gmap.
From Stdlib Require Import ZArith Lia.
From S2P Require Import Prelude Errors WalletCrypto WalletQuery WalletStorage.

Open Scope string_scope.

(** ** Tables *)
Record Item := mkItem {
  item_id : Z;
  item_type : bytes;
  item_name : bytes;
  item_value : bytes;
  item_key : bytes
}.

Record TagRow (V : Type) := mkTagRow { row_item : Z; row_name : bytes; row_value : V }.
Arguments mkTagRow {V} _ _ _.
Arguments row_item {V} _.
Arguments row_name {V} _.
Arguments row_value {V} _.

Record Tables := mkTables {
  metadata : list bytes;
  items : list Item;
  tags_encrypted : list (TagRow bytes);
  tags_plaintext : list (TagRow string)
}.

Definition set_metadata (t : Tables) x := mkTables x (items t) (tags_encrypted t) (tags_plaintext t).
Definition set_items (t : Tables) x := mkTables (metadata t) x (tags_encrypted t) (tags_plaintext t).
Definition set_encrypted (t : Tables) x := mkTables (metadata t) (items t) x (tags_plaintext t).
Definition set_plaintext (t : Tables) x := mkTables (metadata t) (items t) (tags_encrypted t) x.

(** What SQLite decides. *)
Class Sqlite := {
  foreign_keys : bool;
  fault : nat -> option SqlError;
  commit_fault : nat -> option SqlError;
  rollback_fault : nat -> option SqlError;
  new_rowid : list Z -> option Z;
  scan : forall {A}, list A -> list A;
  run_select : string -> list SqlArg -> Tables -> list Item + SqlError;
  run_count : string -> list SqlArg -> Tables -> Z + SqlError
}.

(** A connection; [savepoint] is the state before the open transaction. *)
Record Connection := mkConnection {
  db : Tables;
  savepoint : option Tables;
  executed : nat
}.

Section Storage.
Context {Q : Sqlite} {C : OptionsCodec} (p : Profile).

Abbreviation IO := (SM Connection).

Definition counted (c : Connection) : Connection := mkConnection (db c) (savepoint c) (S (executed c)).

(** Run one statement: errors of SQLite are converted by [?]. *)
Definition stmt {A : Type} (f : Tables -> (Tables * A) + SqlError) : IO A :=
  fun c =>
    match fault (executed c) with
    | Some e => (counted c, Err (error_of_sql e))
    | None =>
        match f (db c) with
        | inl (t, a) => (mkConnection t (savepoint c) (S (executed c)), Ok a)
        | inr e => (counted c, Err (error_of_sql e))
        end
    end.
Definition query {A : Type} (f : Tables -> A + SqlError) : IO A :=
  stmt (fun t => match f t with inl a => inl (t, a) | inr e => inr e end).
Definition execute (f : Tables -> Tables) : IO unit := stmt (fun t => inl (f t, ())).

(** ** [transaction.rs] *)
Inductive DropBehavior := DropRollback | DropCommit | DropIgnore.
Record Transaction := mkTransaction { drop_behavior : DropBehavior; committed : bool }.

Definition begin_statement : IO unit :=
  fun c =>
    match fault (executed c) with
    | Some e => (counted c, Err (error_of_sql e))
    | None =>
        match savepoint c with
        | Some _ => (counted c, Err (error_of_sql
            (OtherSqlError "cannot start a transaction within a transaction")))
        | None => (mkConnection (db c) (Some (db c)) (S (executed c)), Ok ())
        end
    end.
Definition commit_statement : IO unit :=
  fun c =>
    match commit_fault (executed c), savepoint c with
    | Some e, _ => (counted c, Err (error_of_sql e))
    | None, None => (counted c, Err (error_of_sql
        (OtherSqlError "cannot commit - no transaction is active")))
    | None, Some _ => (mkConnection (db c) None (S (executed c)), Ok ())
    end.
Definition rollback_statement : IO unit :=
  fun c =>
    match rollback_fault (executed c), savepoint c with
    | Some e, _ => (counted c, Err (error_of_sql e))
    | None, None => (counted c, Err (error_of_sql
        (OtherSqlError "cannot rollback - no transaction is active")))
    | None, Some t => (mkConnection t None (S (executed c)), Ok ())
    end.

(** [Transaction::new] (deferred), [commit_], [rollback_], [finish_] and [Drop]. *)
Definition transaction_new : IO Transaction :=
  let* _ := begin_statement in sm_ret (mkTransaction DropRollback false).
Definition commit_ (tx : Transaction) (c : Connection) : Connection * Transaction * outcome unit :=
  let tx := mkTransaction (drop_behavior tx) true in
  let (c', r) := commit_statement c in (c', tx, r).
Definition rollback_ (tx : Transaction) (c : Connection) : Connection * Transaction * outcome unit :=
  let tx := mkTransaction (drop_behavior tx) true in
  let (c', r) := rollback_statement c in (c', tx, r).
Definition finish_ (tx : Transaction) (c : Connection) : Connection * Transaction * outcome unit :=
  if committed tx then (c, tx, Ok ())
  else match drop_behavior tx with
       | DropCommit => commit_ tx c
       | DropRollback => rollback_ tx c
       | DropIgnore => (c, tx, Ok ())
       end.
Definition drop_transaction (tx : Transaction) (c : Connection) : Connection := (finish_ tx c).1.1.
Definition commit (tx : Transaction) : IO unit :=
  fun c => let '(c', tx', r) := commit_ tx c in (drop_transaction tx' c', r).

(** A function that opens a transaction, works and ends with [tx.commit()?]: an early
    return drops the transaction. *)
Definition in_transaction (body : IO unit) : IO unit :=
  let* tx := transaction_new in
  fun c => match body c with
           | (c', Ok _) => commit tx c'
           | (c', r) => (drop_transaction tx c', r)
           end.

(** ** Statements *)
Definition same_item (t n : bytes) (i : Item) : bool :=
  bool_decide (item_type i = t) && bool_decide (item_name i = n).

(** [SELECT .. FROM items WHERE type = ?1 AND name = ?2] with [query_row]. *)
Definition select_item (t n : bytes) (tb : Tables) : Item + SqlError :=
  match scan (filter (same_item t n) (items tb)) with
  | i :: _ => inl i
  | [] => inr QueryReturnedNoRows
  end.

(** [INSERT INTO items (type, name, value, key) VALUES (..)]: the unique index on type and
    name, and a fresh row id. *)
Definition insert_item (t n value key : bytes) (tb : Tables) : (Tables * Z) + SqlError :=
  if existsb (same_item t n) (items tb) then inr ConstraintViolation
  else match new_rowid (item_id <$> items tb) with
       | Some id => inl (set_items tb (items tb ++ [mkItem id t n value key])%list, id)
       | None => inr (OtherSqlError "database or disk is full")
       end.

(** [UPDATE items SET value = ?1, key = ?2 WHERE type = ?3 AND name = ?4]. *)
Definition update_items (t n value key : bytes) (tb : Tables) : Tables * nat :=
  (set_items tb ((fun i => if same_item t n i
                           then mkItem (item_id i) (item_type i) (item_name i) value key
                           else i) <$> items tb),
   length (filter (same_item t n) (items tb))).

(** [DELETE FROM items where type = ?1 AND name = ?2]; with foreign keys the rows of the
    tag tables go with the item ([ON DELETE CASCADE]). *)
Definition delete_items (t n : bytes) (tb : Tables) : Tables * nat :=
  let gone := filter (same_item t n) (items tb) in
  let ids := item_id <$> gone in
  let keep {V} (l : list (TagRow V)) :=
    if foreign_keys then filter (fun r => row_item r ∉ ids) l else l in
  (mkTables (metadata tb) (filter (fun i => negb (same_item t n i)) (items tb))
     (keep (tags_encrypted tb)) (keep (tags_plaintext tb)),
   length gone).

Section TagTable.
Context {V : Type}.

Definition same_row (id : Z) (n : bytes) (r : TagRow V) : bool :=
  bool_decide (row_item r = id) && bool_decide (row_name r = n).

Definition orphan (tb : Tables) (id : Z) : bool :=
  foreign_keys && negb (existsb (fun i => bool_decide (item_id i = id)) (items tb)).

(** [INSERT [OR REPLACE] INTO tags_.. (item_id, name, value) VALUES (..)]: the primary key
    is (name, item_id), the item must exist. *)
Definition insert_row (replace : bool) (tb : Tables) (id : Z) (n : bytes) (v : V)
    (l : list (TagRow V)) : list (TagRow V) + SqlError :=
  if orphan tb id then inr ConstraintViolation
  else if existsb (same_row id n) l then
    if replace then inl (filter (fun r => negb (same_row id n r)) l ++ [mkTagRow id n v])%list
    else inr ConstraintViolation
  else inl (l ++ [mkTagRow id n v])%list.

Definition rows_of (id : Z) (l : list (TagRow V)) : list (TagRow V) :=
  filter (fun r => row_item r = id) l.
End TagTable.

Definition insert_tag (replace : bool) (id : Z) (tag : Tag) (tb : Tables) : (Tables * unit) + SqlError :=
  match tag with
  | TagEncrypted n v =>
      match insert_row replace tb id n v (tags_encrypted tb) with
      | inl l => inl (set_encrypted tb l, ())
      | inr e => inr e
      end
  | TagPlainText n v =>
      match insert_row replace tb id n v (tags_plaintext tb) with
      | inl l => inl (set_plaintext tb l, ())
      | inr e => inr e
      end
  end.

(** The loop over the tags. *)
Fixpoint insert_tags (replace : bool) (id : Z) (tags : list Tag) : IO unit :=
  match tags with
  | [] => sm_ret ()
  | tag :: tags' => let* _ := stmt (insert_tag replace id tag) in insert_tags replace id tags'
  end.

Definition delete_tag (id : Z) (n : StorageTagName) (tb : Tables) : Tables :=
  match n with
  | OfEncrypted n => set_encrypted tb (filter (fun r => negb (same_row id n r)) (tags_encrypted tb))
  | OfPlain n => set_plaintext tb (filter (fun r => negb (same_row id n r)) (tags_plaintext tb))
  end.

Fixpoint delete_tag_names (id : Z) (names : list StorageTagName) : IO unit :=
  match names with
  | [] => sm_ret ()
  | n :: names' => let* _ := execute (delete_tag id n) in delete_tag_names id names'
  end.

Definition encrypted_tag (r : TagRow bytes) : Tag := TagEncrypted (row_name r) (row_value r).
Definition plain_tag_of (r : TagRow string) : Tag := TagPlainText (row_name r) (row_value r).

(** [SELECT name, value FROM tags_.. WHERE item_id = ?1], one per table. *)
Definition select_encrypted (id : Z) (tb : Tables) : list Tag :=
  encrypted_tag <$> scan (rows_of id (tags_encrypted tb)).
Definition select_plaintext (id : Z) (tb : Tables) : list Tag :=
  plain_tag_of <$> scan (rows_of id (tags_plaintext tb)).

(** ** [impl WalletStorage for SQLiteStorage] *)
Definition malformed (what : string) : IndyError := err_msg InvalidStructure (what +:+ " is malformed json").

(** [get] after its options are read. *)
Definition get_item (type_ id : bytes) (options : RecordOptions) : IO StorageRecord :=
  let* item := query (select_item type_ id) in
  let value := if retrieve_value options
               then Some (mkEncryptedValue (item_value item) (item_key item)) else None in
  let type_ := if retrieve_type options then Some type_ else None in
  let* tags :=
    if retrieve_tags options then
      let* encrypted := query (fun tb => inl (select_encrypted (item_id item) tb)) in
      let* plain := query (fun tb => inl (select_plaintext (item_id item) tb)) in
      sm_ret (Some (encrypted ++ plain)%list)
    else sm_ret None in
  sm_ret (mkStorageRecord id value type_ tags).

Definition get (type_ id : bytes) (options : string) : IO StorageRecord :=
  let* options :=
    if String.eqb options "{}" then sm_ret record_options_default
    else match read_record_options options with
         | Some o => sm_ret o
         | None => sm_fail (malformed "RecordOptions")
         end in
  get_item type_ id options.

Definition add (type_ id : bytes) (value : EncryptedValue) (tags : list Tag) : IO unit :=
  in_transaction (
    let* id := stmt (insert_item type_ id (ev_data value) (ev_key value)) in
    insert_tags false id tags).

Definition update (type_ id : bytes) (value : EncryptedValue) : IO unit :=
  let* n := stmt (fun tb => inl (update_items type_ id (ev_data value) (ev_key value) tb)) in
  match n with
  | 1 => sm_ret ()
  | 0 => sm_fail (err_msg WalletItemNotFound "Item to update not found")
  | _ => sm_fail (err_msg InvalidState
           "More than one row update. Seems wallet structure is inconsistent")
  end.

Definition add_tags (type_ id : bytes) (tags : list Tag) : IO unit :=
  in_transaction (
    let* item := query (select_item type_ id) in
    insert_tags true (item_id item) tags).

Definition update_tags (type_ id : bytes) (tags : list Tag) : IO unit :=
  in_transaction (
    let* item := query (select_item type_ id) in
    let id := item_id item in
    let* _ := execute (fun tb => set_encrypted tb (filter (fun r => row_item r <> id) (tags_encrypted tb))) in
    let* _ := execute (fun tb => set_plaintext tb (filter (fun r => row_item r <> id) (tags_plaintext tb))) in
    insert_tags false id tags).

Definition delete_tags (type_ id : bytes) (tag_names : list StorageTagName) : IO unit :=
  let* item := query (select_item type_ id) in
  in_transaction (delete_tag_names (item_id item) tag_names).

Definition delete (type_ id : bytes) : IO unit :=
  let* row_count := stmt (fun tb => inl (delete_items type_ id tb)) in
  if (row_count =? 1)%nat then sm_ret ()
  else sm_fail (err_msg WalletItemNotFound "Item to delete not found").

Definition get_storage_metadata : IO bytes :=
  query (fun tb => match scan (metadata tb) with m :: _ => inl m | [] => inr QueryReturnedNoRows end).
Definition set_storage_metadata (m : bytes) : IO unit :=
  execute (fun tb => set_metadata tb ((fun _ => m) <$> metadata tb)).

(** ** [SQLiteStorageIterator] *)
Record SQLiteStorageIterator := mkIterator {
  rows : option (list Item);
  tag_retriever : bool;
  sit_options : RecordOptions;
  total_count : option nat
}.

(** [TagRetriever::retrieve]. *)
Definition retrieve (id : Z) : IO (list Tag) :=
  let* plain := query (fun tb => inl (select_plaintext id tb)) in
  let* encrypted := query (fun tb => inl (select_encrypted id tb)) in
  sm_ret (plain ++ encrypted)%list.

(** [StorageIterator::next]; fetching a row is a call that can fail. *)
Definition row_record (it : SQLiteStorageIterator) (row : Item) : IO (option StorageRecord) :=
  let options := sit_options it in
  let value := if retrieve_value options
               then Some (mkEncryptedValue (item_value row) (item_key row)) else None in
  let* tags :=
    if retrieve_tags options then
      if tag_retriever it then let* l := retrieve (item_id row) in sm_ret (Some l)
      else sm_fail (err_msg InvalidState "Fetch tags option set and tag retriever is None")
    else sm_ret None in
  let type_ := if retrieve_type options then Some (item_type row) else None in
  sm_ret (Some (mkStorageRecord (item_name row) value type_ tags)).

Definition next : SM (Connection * SQLiteStorageIterator) (option StorageRecord) :=
  fun '(c, it) =>
    match rows it with
    | None => ((c, it), Ok None)
    | Some rs =>
        match query (fun _ => inl ()) c with
        | (c1, Ok _) =>
            match rs with
            | [] => ((c1, it), Ok None)
            | row :: rest =>
                let it' := mkIterator (Some rest) (tag_retriever it) (sit_options it) (total_count it) in
                let (c2, r) := row_record it row c1 in ((c2, it'), r)
            end
        | (c1, Err e) => ((c1, it), Err e)
        | (c1, Panic) => ((c1, it), Panic)
        end
    end.

Definition get_total_count (it : SQLiteStorageIterator) : IO (option nat) := sm_ret (total_count it).

(** [TagRetriever::new_owned] prepares its two statements. *)
Definition new_retriever : IO unit := query (fun _ => inl ()).

Definition get_all : IO SQLiteStorageIterator :=
  let* rs := query (fun tb => inl (scan (items tb))) in
  let* _ := new_retriever in
  sm_ret (mkIterator (Some rs) true (mkRecordOptions true true true) None).

Definition search (type_ : bytes) (op : Operator) (options : option string) : IO SQLiteStorageIterator :=
  let* search_options :=
    match options with
    | None => sm_ret search_options_default
    | Some s => match read_search_options s with
                | Some o => sm_ret o
                | None => sm_fail (malformed "Search options")
                end
    end in
  let* total :=
    if so_total_count search_options then
      let* (query_string, query_arguments) := sm_lift (wql_to_sql_count p type_ op) in
      let* x := query (run_count query_string query_arguments) in
      sm_ret (Some (Z.to_nat (x mod 2 ^ 64)))
    else sm_ret None in
  if so_records search_options then
    let fetch_options := mkRecordOptions (so_type search_options) (so_value search_options)
                           (so_tags search_options) in
    let* (query_string, query_arguments) := sm_lift (wql_to_sql p type_ op) in
    let* _ := if retrieve_tags fetch_options then new_retriever else sm_ret () in
    let* rs := query (run_select query_string query_arguments) in
    sm_ret (mkIterator (Some rs) (retrieve_tags fetch_options) fetch_options total)
  else sm_ret (mkIterator None false record_options_default total).

Definition close : IO unit := sm_ret ().

Definition SQLiteStorage : WalletStorage := {|
  storage := Connection;
  iter := SQLiteStorageIterator;
  st_get := get;
  st_add := add;
  st_update := update;
  st_add_tags := add_tags;
  st_update_tags := update_tags;
  st_delete_tags := delete_tags;
  st_delete := delete;
  st_get_metadata := get_storage_metadata;
  st_set_metadata := set_storage_metadata;
  st_get_all := get_all;
  st_search := search;
  st_close := close;
  it_next := next;
  it_total_count := get_total_count
|}.
End Storage.

(** ** What the laws need of SQLite

    Row ids are fresh, a scan returns every row once, foreign keys are enforced, and
    transactions can end.  [no_faults] adds that no statement fails by itself. *)
Class SqliteLaws (Q : Sqlite) := {
  cascade : foreign_keys = true;
  commits n : commit_fault n = None;
  rollbacks n : rollback_fault n = None;
  rowid_fresh ids i : new_rowid ids = Some i -> i ∉ ids;
  scan_perm {A : Type} (l : list A) : scan l ≡ₚ l
}.

Definition no_faults {Q : Sqlite} : Prop :=
  (forall n, fault n = None) /\ forall ids, is_Some (new_rowid ids).

(** ** The invariant of the tables: the keys of the schema *)
Definition item_key_of (i : Item) : bytes * bytes := (item_type i, item_name i).
Definition row_key {V} (r : TagRow V) : Z * bytes := (row_item r, row_name r).

Record tables_ok (tb : Tables) : Prop := mkTablesOk {
  ok_ids : NoDup (item_id <$> items tb);
  ok_names : NoDup (item_key_of <$> items tb);
  ok_encrypted : NoDup (row_key <$> tags_encrypted tb);
  ok_plaintext : NoDup (row_key <$> tags_plaintext tb);
  ok_encrypted_items r : r ∈ tags_encrypted tb -> row_item r ∈ item_id <$> items tb;
  ok_plaintext_items r : r ∈ tags_plaintext tb -> row_item r ∈ item_id <$> items tb
}.

(** The tags of an item, and the view of the tables. *)
Definition item_tags (tb : Tables) (id : Z) : list Tag :=
  ((encrypted_tag <$> rows_of id (tags_encrypted tb)) ++
   (plain_tag_of <$> rows_of id (tags_plaintext tb)))%list.
Definition entry (tb : Tables) (i : Item) : SItem :=
  mkSItem (mkEncryptedValue (item_value i) (item_key i)) (tag_map (item_tags tb (item_id i))).
Definition view_of (tb : Tables) : View :=
  list_to_map ((fun i => (item_key_of i, entry tb i)) <$> items tb).

Definition has_tag (tb : Tables) (id : Z) (t : Tag) : Prop :=
  match t with
  | TagEncrypted n v => mkTagRow id n v ∈ tags_encrypted tb
  | TagPlainText n v => mkTagRow id n v ∈ tags_plaintext tb
  end.

Section Facts.
Context {Q : Sqlite} {L : SqliteLaws Q}.

Lemma fmap_NoDup_inj {A B} (f : A -> B) (l : list A) x y :
  NoDup (f <$> l) -> x ∈ l -> y ∈ l -> f x = f y -> x = y.
Proof.
  intros Hnd Hx Hy E. induction l as [|a l IH]; [by apply not_elem_of_nil in Hx|].
  cbn [fmap list_fmap] in Hnd. apply NoDup_cons in Hnd as [Ha Hnd].
  apply elem_of_cons in Hx, Hy. rewrite list_elem_of_fmap in Ha.
  destruct Hx as [->|Hx], Hy as [->|Hy]; naive_solver.
Qed.

Lemma NoDup_fmap_filter {A B} (f : A -> B) (P : A -> Prop) `{forall x, Decision (P x)} l :
  NoDup (f <$> l) -> NoDup (f <$> filter P l).
Proof.
  induction l as [|a l IH]; [done|]. cbn [fmap list_fmap]. intros [Ha Hnd]%NoDup_cons.
  rewrite filter_cons. destruct (decide (P a)); [|auto].
  cbn [fmap list_fmap]. apply NoDup_cons. split; [|auto].
  intros (x & E & Hx)%list_elem_of_fmap. apply Ha, list_elem_of_fmap. exists x. split; [done|].
  by apply list_elem_of_filter in Hx as [_ ?].
Qed.

Lemma elem_rows_of {V} id (l : list (TagRow V)) r : r ∈ rows_of id l <-> r ∈ l /\ row_item r = id.
Proof. unfold rows_of. rewrite list_elem_of_filter. naive_solver. Qed.

Lemma elem_item_tags tb id t : t ∈ item_tags tb id <-> has_tag tb id t.
Proof.
  unfold item_tags. rewrite elem_of_app, !list_elem_of_fmap.
  setoid_rewrite elem_rows_of. destruct t as [n v|n v]; cbn [has_tag].
  - split.
    + intros [([i n' v'] & [= -> ->] & Hr & <-)|([i n' v'] & [=] & _)]. exact Hr.
    + intros H. left. by exists (mkTagRow id n v).
  - split.
    + intros [([i n' v'] & [=] & _)|([i n' v'] & [= -> ->] & Hr & <-)]. exact Hr.
    + intros H. right. by exists (mkTagRow id n v).
Qed.

Lemma rows_of_names {V} id (l : list (TagRow V)) :
  NoDup (row_key <$> l) -> NoDup (row_name <$> rows_of id l).
Proof.
  intros H. apply (NoDup_fmap_1 (fun n => (id, n))). rewrite <-list_fmap_compose.
  erewrite (list_fmap_ext _ row_key (rows_of id l)); [by apply NoDup_fmap_filter|].
  intros i r Hr%list_elem_of_lookup_2. apply elem_rows_of in Hr as [_ <-]. done.
Qed.

Lemma item_tags_NoDup tb id : tables_ok tb -> NoDup (tag_name <$> item_tags tb id).
Proof.
  intros H. unfold item_tags. rewrite fmap_app, <-!list_fmap_compose.
  change (tag_name ∘ encrypted_tag) with (OfEncrypted ∘ row_name (V := bytes)).
  change (tag_name ∘ plain_tag_of) with (OfPlain ∘ row_name (V := string)).
  rewrite !list_fmap_compose. apply NoDup_app. split; [|split].
  - apply NoDup_fmap_2; [intros ?? [=]; done|]. apply rows_of_names, H.
  - intros x (n & -> & _)%list_elem_of_fmap (n' & [=] & _)%list_elem_of_fmap.
  - apply NoDup_fmap_2; [intros ?? [=]; done|]. apply rows_of_names, H.
Qed.

Lemma tag_map_eq tb id m :
  tables_ok tb -> (forall n t, m !! n = Some t <-> has_tag tb id t /\ tag_name t = n) ->
  tag_map (item_tags tb id) = m.
Proof.
  intros Hok Hm. apply map_eq. intros n. apply option_eq. intros t.
  rewrite tag_map_lookup by (by apply item_tags_NoDup). by rewrite elem_item_tags, Hm.
Qed.

Lemma tag_map_spec tb id n t :
  tables_ok tb -> tag_map (item_tags tb id) !! n = Some t <-> has_tag tb id t /\ tag_name t = n.
Proof.
  intros Hok. rewrite tag_map_lookup by (by apply item_tags_NoDup). by rewrite elem_item_tags.
Qed.

Lemma view_lookup tb t n i :
  tables_ok tb ->
  view_of tb !! (t, n) = Some i <->
  exists it, it ∈ items tb /\ item_key_of it = (t, n) /\ entry tb it = i.
Proof.
  intros Hok. unfold view_of. rewrite <-elem_of_list_to_map.
  - rewrite list_elem_of_fmap. split.
    + intros (it & [= Ht Hn ->] & Hi). exists it. unfold item_key_of. by rewrite Ht, Hn.
    + intros (it & Hi & E & <-). exists it. by rewrite E.
  - rewrite <-list_fmap_compose. apply Hok.
Qed.

Lemma view_lookup_item tb it : tables_ok tb -> it ∈ items tb ->
  view_of tb !! item_key_of it = Some (entry tb it).
Proof. intros Hok Hi. apply view_lookup; [done|]. by exists it. Qed.

Lemma view_lookup_none tb t n :
  tables_ok tb ->
  view_of tb !! (t, n) = None <-> forall it, it ∈ items tb -> item_key_of it <> (t, n).
Proof.
  intros Hok. rewrite eq_None_not_Some. split.
  - intros H it Hi E. apply H. exists (entry tb it). apply view_lookup; naive_solver.
  - intros H [i (it & Hi & E & _)%view_lookup]; naive_solver.
Qed.

Lemma same_item_key t n it : same_item t n it = true <-> item_key_of it = (t, n).
Proof.
  unfold same_item, item_key_of. rewrite andb_true_iff, !bool_decide_eq_true. naive_solver.
Qed.
Lemma same_row_key {V} id n (r : TagRow V) : same_row id n r = true <-> row_key r = (id, n).
Proof.
  unfold same_row, row_key. rewrite andb_true_iff, !bool_decide_eq_true. naive_solver.
Qed.

Lemma existsb_elem {A} (f : A -> bool) l : existsb f l = true <-> exists x, x ∈ l /\ f x = true.
Proof.
  rewrite existsb_exists. split; intros (x & Hx & E); exists x; split; try done;
    by apply list_elem_of_In.
Qed.
Lemma existsb_false {A} (f : A -> bool) l : existsb f l = false <-> forall x, x ∈ l -> f x = false.
Proof.
  split.
  - intros H x Hx. destruct (f x) eqn:E; [|done].
    by rewrite (proj2 (existsb_elem f l)) in H; [|exists x].
  - intros H. destruct (existsb f l) eqn:E; [|done]. apply existsb_elem in E as (x & Hx & E).
    by rewrite H in E.
Qed.

(** *** Statements on the tables *)
Lemma select_item_spec tb t n :
  tables_ok tb ->
  match select_item t n tb with
  | inl it => it ∈ items tb /\ item_key_of it = (t, n) /\ view_of tb !! (t, n) = Some (entry tb it)
  | inr e => e = QueryReturnedNoRows /\ view_of tb !! (t, n) = None
  end.
Proof using L.
  intros Hok. unfold select_item.
  pose proof (scan_perm (filter (same_item t n) (items tb))) as Hp.
  destruct (scan (filter (same_item t n) (items tb))) as [|it l].
  - split; [done|]. apply view_lookup_none; [done|]. intros it Hi E.
    symmetry in Hp. apply Permutation_nil_r in Hp.
    assert (Hx : it ∈ filter (same_item t n) (items tb)).
    { apply list_elem_of_filter. split; [|done]. rewrite (proj2 (same_item_key t n it) E). exact I. }
    rewrite Hp in Hx. by apply not_elem_of_nil in Hx.
  - assert (Hx : it ∈ filter (same_item t n) (items tb)) by (rewrite <-Hp; left).
    apply list_elem_of_filter in Hx as [Hs Hi]. apply Is_true_true in Hs. apply same_item_key in Hs.
    split; [done|]. split; [done|]. rewrite <-Hs. by apply view_lookup_item.
Qed.

(** An operation that keeps the items and changes the tags of one of them. *)
Lemma view_set_tags tb tb' it m :
  tables_ok tb -> tables_ok tb' -> items tb' = items tb -> it ∈ items tb ->
  tag_map (item_tags tb' (item_id it)) = m ->
  (forall id, id <> item_id it -> forall t, has_tag tb' id t <-> has_tag tb id t) ->
  view_of tb' = <[item_key_of it := mkSItem (si_value (entry tb it)) m]> (view_of tb).
Proof using Type.
  intros Hok Hok' Hi Hit Hm Hrest. apply map_eq. intros [t n]. apply option_eq. intros x.
  rewrite view_lookup, lookup_insert_Some, view_lookup by done. rewrite Hi. split.
  - intros (j & Hj & E & Hx). destruct (decide (item_id j = item_id it)) as [Eid|Hne].
    + left. assert (j = it) as -> by (by eapply (fmap_NoDup_inj item_id); eauto; apply Hok).
      split; [done|]. rewrite <-Hx. unfold entry. by rewrite Hm.
    + right. split.
      * intros E'. apply Hne. f_equal. rewrite <-E' in E.
        eapply (fmap_NoDup_inj item_key_of); eauto. apply Hok.
      * exists j. split; [done|]. split; [done|]. rewrite <-Hx. unfold entry. f_equal.
        apply tag_map_eq; [done|]. intros k a. rewrite tag_map_spec by done. by rewrite Hrest.
  - intros [[E Hx]|[Hne (j & Hj & E & Hx)]].
    + exists it. split; [done|]. split; [done|]. rewrite <-Hx. unfold entry. by rewrite Hm.
    + exists j. split; [done|]. split; [done|]. rewrite <-Hx. unfold entry. f_equal. symmetry.
      apply tag_map_eq; [done|]. intros k a. rewrite tag_map_spec by done.
      apply and_iff_compat_r. apply Hrest. intros Eid. apply Hne. rewrite <-E. f_equal.
      symmetry. eapply (fmap_NoDup_inj item_id); eauto. apply Hok.
Qed.

(** *** Tag tables *)
Lemma insert_row_spec {V} replace tb id n (v : V) l l' :
  NoDup (row_key <$> l) -> insert_row replace tb id n v l = inl l' ->
  NoDup (row_key <$> l') /\
  (forall r, r ∈ l' <-> r = mkTagRow id n v \/ (r ∈ l /\ row_key r <> (id, n))) /\
  orphan tb id = false.
Proof using Type.
  unfold insert_row. intros Hnd H. destruct (orphan tb id) eqn:Ho; [done|].
  assert (Hf : forall r : TagRow V, Is_true (negb (same_row id n r)) <-> row_key r <> (id, n)).
  { intros r. rewrite <-same_row_key. destruct (same_row id n r); cbn; naive_solver. }
  destruct (existsb (same_row id n) l) eqn:Ex.
  - destruct replace; [|done]. injection H as <-. split; [|split; [|done]].
    + rewrite fmap_app. apply NoDup_app. split; [by apply NoDup_fmap_filter|]. split.
      * intros k (r & -> & Hr)%list_elem_of_fmap Hk. apply list_elem_of_filter in Hr as [Hr _].
        apply Hf in Hr. apply list_elem_of_singleton in Hk. done.
      * apply NoDup_singleton.
    + intros r. rewrite elem_of_app, list_elem_of_singleton, list_elem_of_filter, Hf. naive_solver.
  - injection H as <-. rewrite existsb_false in Ex.
    assert (Hno : forall r, r ∈ l -> row_key r <> (id, n)).
    { intros r Hr Ek. apply same_row_key in Ek. by rewrite Ex in Ek. }
    split; [|split; [|done]].
    + rewrite fmap_app. apply NoDup_app. split; [done|]. split.
      * intros k (r & -> & Hr)%list_elem_of_fmap Hk. apply list_elem_of_singleton in Hk.
        by eapply Hno.
      * apply NoDup_singleton.
    + intros r. rewrite elem_of_app, list_elem_of_singleton. naive_solver.
Qed.

Lemma orphan_item tb it : it ∈ items tb -> orphan tb (item_id it) = false.
Proof using Type.
  intros Hi. unfold orphan. rewrite (proj2 (existsb_elem _ (items tb))).
  - by rewrite andb_false_r.
  - exists it. by rewrite bool_decide_eq_true_2.
Qed.
Lemma orphan_elem tb id : orphan tb id = false -> id ∈ item_id <$> items tb.
Proof using L.
  unfold orphan. rewrite cascade. cbn. intros (it & Hi & E)%negb_false_iff%existsb_elem.
  apply bool_decide_eq_true in E. subst id. by apply list_elem_of_fmap_2.
Qed.

(** The tags after [INSERT] or [INSERT OR REPLACE]. *)
Lemma insert_tag_spec replace tb id tag tb' u :
  tables_ok tb -> insert_tag replace id tag tb = inl (tb', u) ->
  tables_ok tb' /\ items tb' = items tb /\
  forall id' t, has_tag tb' id' t <->
    (id' = id /\ t = tag) \/ (has_tag tb id' t /\ ~ (id' = id /\ tag_name t = tag_name tag)).
Proof using L.
  intros Hok. pose proof Hok as []. destruct tag as [n v|n v]; cbn [insert_tag].
  - destruct (insert_row replace tb id n v (tags_encrypted tb)) as [l|] eqn:E; [|done].
    intros [= <- _]. apply insert_row_spec in E as (Hnd & Hl & Ho); [|done].
    split; [split; cbn; try done|split; [done|]].
    + intros r. rewrite Hl. intros [->|[Hr _]]; [by apply orphan_elem|auto].
    + intros id' t. destruct t as [n' v'|n' v']; cbn [has_tag set_encrypted tags_encrypted tags_plaintext tag_name].
      * rewrite Hl. unfold row_key. cbn. naive_solver.
      * naive_solver.
  - destruct (insert_row replace tb id n v (tags_plaintext tb)) as [l|] eqn:E; [|done].
    intros [= <- _]. apply insert_row_spec in E as (Hnd & Hl & Ho); [|done].
    split; [split; cbn; try done|split; [done|]].
    + intros r. rewrite Hl. intros [->|[Hr _]]; [by apply orphan_elem|auto].
    + intros id' t. destruct t as [n' v'|n' v']; cbn [has_tag set_plaintext tags_encrypted tags_plaintext tag_name].
      * naive_solver.
      * rewrite Hl. unfold row_key. cbn. naive_solver.
Qed.

(** Inserting succeeds for an item and, without [OR REPLACE], a new name. *)
Lemma insert_tag_succeeds replace tb it tag :
  it ∈ items tb ->
  (replace = true \/ forall t, has_tag tb (item_id it) t -> tag_name t <> tag_name tag) ->
  exists tb', insert_tag replace (item_id it) tag tb = inl (tb', ()).
Proof using Type.
  intros Hi Hr. destruct tag as [n v|n v]; cbn [insert_tag]; unfold insert_row;
    rewrite orphan_item by done.
  - destruct (existsb _ (tags_encrypted tb)) eqn:E; [|by eexists].
    destruct Hr as [->|Hr]; [by eexists|]. exfalso.
    apply existsb_elem in E as ([i n' v'] & Hx & [= -> ->]%same_row_key).
    by apply (Hr (TagEncrypted n v')).
  - destruct (existsb _ (tags_plaintext tb)) eqn:E; [|by eexists].
    destruct Hr as [->|Hr]; [by eexists|]. exfalso.
    apply existsb_elem in E as ([i n' v'] & Hx & [= -> ->]%same_row_key).
    by apply (Hr (TagPlainText n v')).
Qed.

Lemma insert_item_spec tb t n value key :
  tables_ok tb ->
  match insert_item t n value key tb with
  | inl (tb', id) =>
      let it := mkItem id t n value key in
      view_of tb !! (t, n) = None /\ tables_ok tb' /\ it ∈ items tb' /\
      view_of tb' = <[(t, n) := mkSItem (mkEncryptedValue value key) ∅]> (view_of tb) /\
      tag_map (item_tags tb' id) = ∅
  | inr e => (e = ConstraintViolation /\ is_Some (view_of tb !! (t, n))) \/
             new_rowid (item_id <$> items tb) = None
  end.
Proof using L.
  intros Hok. unfold insert_item. destruct (existsb (same_item t n) (items tb)) eqn:Ex.
  - left. split; [done|]. apply existsb_elem in Ex as (it & Hi & E%same_item_key).
    rewrite <-E. eexists. by apply view_lookup_item.
  - destruct (new_rowid (item_id <$> items tb)) as [id|] eqn:Er; [|by right].
    apply rowid_fresh in Er. rewrite existsb_false in Ex. cbv zeta.
    assert (Hno : forall it, it ∈ items tb -> item_key_of it <> (t, n)).
    { intros it Hi E. apply same_item_key in E. by rewrite Ex in E. }
    assert (Hv : view_of tb !! (t, n) = None) by (by apply view_lookup_none).
    assert (Htags : item_tags tb id = []).
    { destruct (item_tags tb id) as [|x l] eqn:El; [done|].
      assert (Hx : has_tag tb id x) by (apply elem_item_tags; rewrite El; left).
      destruct x; apply Hok in Hx; cbn in Hx; done. }
    split; [done|]. split.
    { destruct Hok. split; cbn; try done.
      - rewrite fmap_app. apply NoDup_app. split; [done|]. split; [|apply NoDup_singleton].
        intros x Hx ->%list_elem_of_singleton. done.
      - rewrite fmap_app. apply NoDup_app. split; [done|]. split; [|apply NoDup_singleton].
        intros x (it & -> & Hi)%list_elem_of_fmap E%list_elem_of_singleton. by apply (Hno it).
      - intros r Hr. rewrite fmap_app, elem_of_app. left. auto.
      - intros r Hr. rewrite fmap_app, elem_of_app. left. auto. }
    split; [cbn; rewrite elem_of_app, list_elem_of_singleton; by right|]. split.
    + unfold view_of at 1. cbn [items set_items]. rewrite fmap_app. cbn [fmap list_fmap].
      change (entry (set_items tb _)) with (entry tb).
      assert (Ee : entry tb (mkItem id t n value key) = mkSItem (mkEncryptedValue value key) ∅).
      { unfold entry. cbn. by rewrite Htags. }
      rewrite Ee. unfold item_key_of at 2. cbn [item_type item_name].
      rewrite list_to_map_snoc; [done|]. rewrite <-list_fmap_compose.
      intros (it & E & Hi)%list_elem_of_fmap. by apply (Hno it).
    + change (item_tags (set_items tb _) id) with (item_tags tb id). by rewrite Htags.
Qed.

(** *** The tags of one item, statement by statement *)
Definition tags_are (tb0 : Tables) (it : Item) (m : TagMap) (tb : Tables) : Prop :=
  tables_ok tb /\ items tb = items tb0 /\ tag_map (item_tags tb (item_id it)) = m /\
  forall id, id <> item_id it -> forall t, has_tag tb id t <-> has_tag tb0 id t.

Lemma tags_are_start tb it : tables_ok tb -> tags_are tb it (si_tags (entry tb it)) tb.
Proof using Type. intros Hok. do 3 (split; [done|]). done. Qed.

Lemma tags_are_view tb0 it m tb :
  tables_ok tb0 -> it ∈ items tb0 -> tags_are tb0 it m tb ->
  view_of tb = <[item_key_of it := mkSItem (si_value (entry tb0 it)) m]> (view_of tb0).
Proof using Type. intros Hok Hi (Hok' & Hit & Hm & Hrest). by eapply view_set_tags. Qed.

Lemma tags_are_insert tb0 it m tb replace tag tb' u :
  tags_are tb0 it m tb -> insert_tag replace (item_id it) tag tb = inl (tb', u) ->
  tags_are tb0 it (<[tag_name tag := tag]> m) tb'.
Proof using L.
  intros (Hok & Hi & Hm & Hrest) E. apply insert_tag_spec in E as (Hok' & Hi' & Ht); [|done].
  split; [done|]. split; [congruence|]. split.
  - apply tag_map_eq; [done|]. intros n t. rewrite lookup_insert_Some, Ht, <-Hm, tag_map_spec by done.
    split.
    + intros [[<- <-]|[Hn [Hh <-]]]; [by split; [left|]|]. split; [|done]. right. naive_solver.
    + intros [[[_ ->]|[Hh Hn]] <-]; [by left|]. right. naive_solver.
  - intros id Hne t. rewrite Ht, Hrest by done. naive_solver.
Qed.

Lemma tags_are_delete tb0 it m tb n :
  tags_are tb0 it m tb -> tags_are tb0 it (base.delete n m) (delete_tag (item_id it) n tb).
Proof using Type.
  intros (Hok & Hi & Hm & Hrest).
  assert (Ht : forall id t, has_tag (delete_tag (item_id it) n tb) id t <->
                has_tag tb id t /\ ~ (id = item_id it /\ tag_name t = n)).
  { intros id t. destruct n as [n|n], t as [n' v'|n' v']; cbn; try naive_solver;
      rewrite list_elem_of_filter, negb_True, Is_true_true, same_row_key; unfold row_key; cbn;
      naive_solver. }
  assert (Hok' : tables_ok (delete_tag (item_id it) n tb)).
  { destruct Hok. destruct n as [n|n]; split; cbn; try done;
      try (by apply NoDup_fmap_filter); intros r [_ Hr]%list_elem_of_filter; auto. }
  split; [done|]. split; [by destruct n|]. split.
  - apply tag_map_eq; [done|]. intros k t.
    rewrite lookup_delete_Some, Ht, <-Hm, tag_map_spec by done. naive_solver.
  - intros id Hne t. rewrite Ht, Hrest by done. naive_solver.
Qed.

Lemma tags_are_clear tb0 it m tb :
  tags_are tb0 it m tb ->
  let id := item_id it in
  let tb1 := set_encrypted tb (filter (fun r => row_item r <> id) (tags_encrypted tb)) in
  tags_are tb0 it ∅ (set_plaintext tb1 (filter (fun r => row_item r <> id) (tags_plaintext tb1))).
Proof using Type.
  intros (Hok & Hi & Hm & Hrest) id tb1.
  set (tb2 := set_plaintext tb1 _).
  assert (Ht : forall id' t, has_tag tb2 id' t <-> has_tag tb id' t /\ id' <> id).
  { intros id' [n v|n v]; cbn; rewrite list_elem_of_filter; cbn; naive_solver. }
  assert (Hok' : tables_ok tb2).
  { destruct Hok. split; cbn; try done; try (by apply NoDup_fmap_filter);
      intros r [_ Hr]%list_elem_of_filter; auto. }
  split; [done|]. split; [done|]. split.
  - apply tag_map_eq; [done|]. intros k t. rewrite lookup_empty, Ht. naive_solver.
  - intros id' Hne t. rewrite Ht, Hrest by done. naive_solver.
Qed.

(** *** Updating and deleting an item *)
Lemma filter_same_item l t n :
  NoDup (item_key_of <$> l) ->
  match filter (same_item t n) l with
  | [] => forall it, it ∈ l -> item_key_of it <> (t, n)
  | [it] => it ∈ l /\ item_key_of it = (t, n)
  | _ => False
  end.
Proof using Type.
  intros Hnd. pose proof (NoDup_fmap_filter item_key_of (same_item t n) l Hnd) as Hf.
  assert (Hin : forall x, x ∈ filter (same_item t n) l <-> x ∈ l /\ item_key_of x = (t, n)).
  { intros x. rewrite list_elem_of_filter, Is_true_true, same_item_key. naive_solver. }
  destruct (filter (same_item t n) l) as [|x [|y l']].
  - intros it Hi E. by apply (not_elem_of_nil it), Hin.
  - apply Hin. by left.
  - cbn [fmap list_fmap] in Hf. apply NoDup_cons in Hf as [Hx _]. apply Hx.
    assert (Ex : item_key_of x = (t, n)) by (by apply Hin; left).
    assert (Ey : item_key_of y = (t, n)) by (by apply Hin; right; left).
    rewrite Ex, Ey. left.
Qed.

Lemma update_items_spec tb t n value key :
  tables_ok tb ->
  let (tb', k) := update_items t n value key tb in
  tables_ok tb' /\
  match view_of tb !! (t, n) with
  | Some i => k = 1 /\
      view_of tb' = <[(t, n) := mkSItem (mkEncryptedValue value key) (si_tags i)]> (view_of tb)
  | None => k = 0 /\ view_of tb' = view_of tb
  end.
Proof using Type.
  intros Hok. unfold update_items. set (f := fun i : Item => if same_item t n i then _ else i).
  assert (Hid : forall i, item_id (f i) = item_id i) by (intros i; unfold f; by destruct (same_item t n i)).
  assert (Hkey : forall i, item_key_of (f i) = item_key_of i)
    by (intros i; unfold f; by destruct (same_item t n i)).
  assert (Hids : item_id <$> (f <$> items tb) = item_id <$> items tb).
  { rewrite <-list_fmap_compose. apply list_fmap_ext. intros _ i _. apply Hid. }
  assert (Hkeys : item_key_of <$> (f <$> items tb) = item_key_of <$> items tb).
  { rewrite <-list_fmap_compose. apply list_fmap_ext. intros _ i _. apply Hkey. }
  assert (Hok' : tables_ok (set_items tb (f <$> items tb))).
  { destruct Hok. split; cbn [items set_items tags_encrypted tags_plaintext]; rewrite ?Hids, ?Hkeys; done. }
  split; [done|].
  pose proof (filter_same_item (items tb) t n (ok_names tb Hok)) as Hu.
  assert (Hv : forall t' n' x, view_of (set_items tb (f <$> items tb)) !! (t', n') = Some x <->
             exists it, it ∈ items tb /\ item_key_of it = (t', n') /\ entry tb (f it) = x).
  { intros t' n' x. rewrite view_lookup by done. cbn [items set_items]. split.
    - intros (it & (it0 & -> & Hi)%list_elem_of_fmap & E & Hx). exists it0. by rewrite <-Hkey.
    - intros (it & Hi & E & Hx). exists (f it). split; [by apply list_elem_of_fmap_2|].
      by rewrite Hkey. }
  destruct (filter (same_item t n) (items tb)) as [|it [|? ?]]; [| |done].
  - rewrite (proj2 (view_lookup_none tb t n Hok) Hu). split; [done|]. apply map_eq. intros [t' n'].
    apply option_eq. intros x. rewrite Hv, view_lookup by done.
    assert (Hf : forall j, j ∈ items tb -> f j = j).
    { intros j Hj. unfold f. destruct (same_item t n j) eqn:E; [|done].
      apply same_item_key in E. by apply Hu in Hj. }
    split; intros (j & Hj & E & Hx); exists j; (split; [done|]; split; [done|]);
      rewrite Hf in *; done.
  - destruct Hu as [Hi Ek]. pose proof (view_lookup_item tb it Hok Hi) as Hl.
    rewrite Ek in Hl. rewrite Hl. split; [done|].
    apply map_eq. intros [t' n']. apply option_eq. intros x.
    rewrite Hv, lookup_insert_Some, view_lookup by done. unfold f. split.
    + intros (j & Hj & E & Hx). destruct (same_item t n j) eqn:Es.
      * left. apply same_item_key in Es. rewrite <-E, Es. split; [done|]. rewrite <-Hx.
        assert (j = it) as -> by (eapply (fmap_NoDup_inj item_key_of); [apply Hok|done|done|by rewrite Es, Ek]).
        done.
      * right. split; [|by exists j]. intros E'. rewrite <-E' in E. apply same_item_key in E.
        by rewrite E in Es.
    + intros [[E Hx]|[Hne (j & Hj & E & Hx)]].
      * exists it. split; [done|]. rewrite (proj2 (same_item_key t n it) Ek). split; [congruence|done].
      * exists j. split; [done|]. split; [done|]. destruct (same_item t n j) eqn:Es; [|done].
        apply same_item_key in Es. congruence.
Qed.

Lemma delete_items_spec tb t n :
  tables_ok tb ->
  let (tb', k) := delete_items t n tb in
  tables_ok tb' /\ view_of tb' = base.delete (t, n) (view_of tb) /\
  k = match view_of tb !! (t, n) with Some _ => 1 | None => 0 end.
Proof using L.
  intros Hok. unfold delete_items. rewrite cascade.
  pose proof (filter_same_item (items tb) t n (ok_names tb Hok)) as Hu.
  set (gone := filter (same_item t n) (items tb)) in *. set (tb' := mkTables _ _ _ _).
  assert (Hgone : forall j, j ∈ items tb -> item_id j ∈ item_id <$> gone <-> item_key_of j = (t, n)).
  { intros j Hj. rewrite list_elem_of_fmap. split.
    - intros (x & E & Hx). unfold gone in Hx. apply list_elem_of_filter in Hx as [Hs Hx].
      apply Is_true_true, same_item_key in Hs. rewrite <-Hs. f_equal.
      eapply (fmap_NoDup_inj item_id); eauto. apply Hok.
    - intros E. exists j. split; [done|]. unfold gone. apply list_elem_of_filter. split; [|done].
      by apply Is_true_true, same_item_key. }
  assert (Hitems : forall j, j ∈ items tb' <-> j ∈ items tb /\ item_key_of j <> (t, n)).
  { intros j. cbn. rewrite list_elem_of_filter, negb_True, Is_true_true, same_item_key. naive_solver. }
  assert (Hsub : forall id, id ∈ item_id <$> items tb -> id ∉ item_id <$> gone ->
                 id ∈ item_id <$> items tb').
  { intros id (j & -> & Hj)%list_elem_of_fmap Hg. apply list_elem_of_fmap_2. apply Hitems.
    split; [done|]. by rewrite <-Hgone. }
  assert (Hok' : tables_ok tb').
  { destruct Hok. split; cbn; try (by apply NoDup_fmap_filter).
    - intros r [Hg Hr]%list_elem_of_filter. auto.
    - intros r [Hg Hr]%list_elem_of_filter. auto. }
  split; [done|]. split.
  - apply map_eq. intros [t' n']. apply option_eq. intros x.
    rewrite lookup_delete_Some, !view_lookup by done. setoid_rewrite Hitems.
    assert (He : forall j, j ∈ items tb -> item_key_of j <> (t, n) -> entry tb' j = entry tb j).
    { intros j Hj Hne. unfold entry. f_equal. apply tag_map_eq; [done|]. intros k a.
      rewrite tag_map_spec by done. apply and_iff_compat_r. rewrite <-Hgone in Hne by done.
      destruct a as [a v|a v]; cbn; rewrite list_elem_of_filter; cbn; naive_solver. }
    split.
    + intros (j & [Hj Hne] & E & Hx). rewrite He in Hx by done. split; [congruence|]. by exists j.
    + intros (Hne & j & Hj & E & Hx). assert (item_key_of j <> (t, n)) by congruence.
      exists j. by rewrite He.
  - destruct gone as [|it [|? ?]]; [| |done].
    + by rewrite (proj2 (view_lookup_none tb t n Hok) Hu).
    + destruct Hu as [Hi Ek]. pose proof (view_lookup_item tb it Hok Hi) as Hl.
      rewrite Ek in Hl. by rewrite Hl.
Qed.
End Facts.

(** ** A program logic for calls on a connection

    [triple P m R E]: from tables in [P], [m] keeps the open transaction and ends with a
    value and tables in [R] or with an error and tables in [E]; it does not panic. *)
Section Logic.
Context {Q : Sqlite} {L : SqliteLaws Q}.

Definition triple {A : Type} (P : Tables -> Prop) (m : SM Connection A)
    (R : A -> Tables -> Prop) (E : IndyError -> Tables -> Prop) : Prop :=
  forall c c' r, P (db c) -> m c = (c', r) ->
    savepoint c' = savepoint c /\
    match r with Ok a => R a (db c') | Err e => E e (db c') | Panic => False end.

Lemma triple_ret {A : Type} (a : A) P R E : (forall tb, P tb -> R a tb) -> triple P (sm_ret a) R E.
Proof using Type. intros H c c' r HP [= <- <-]. auto. Qed.

Lemma triple_fail {A : Type} e P (R : A -> Tables -> Prop) E :
  (forall tb, P tb -> E e tb) -> triple P (sm_fail e) R E.
Proof using Type. intros H c c' r HP [= <- <-]. auto. Qed.

Lemma triple_bind {A B : Type} (m : SM Connection A) (k : A -> SM Connection B) P R R' E :
  triple P m R E -> (forall a, triple (R a) (k a) R' E) -> triple P (sm_bind m k) R' E.
Proof using Type.
  intros Hm Hk c c' r HP H. apply sm_bind_inv in H as [(c1 & a & Em & Ek)|[(e & Em & ->)|[Em ->]]].
  - apply Hm in Em as [Hs HR]; [|done]. apply Hk in Ek as [Hs' HR']; [|done]. split; [congruence|done].
  - by apply Hm in Em.
  - by apply Hm in Em.
Qed.

Lemma triple_conseq {A : Type} (m : SM Connection A) (P P' : Tables -> Prop) R R' E E' :
  triple P' m R' E' -> (forall tb, P tb -> P' tb) -> (forall a tb, R' a tb -> R a tb) ->
  (forall e tb, E' e tb -> E e tb) -> triple P m R E.
Proof using Type.
  intros H HP HR HE c c' r Hp Em. apply H in Em as [Hs Hr]; [|auto]. split; [done|].
  destruct r; auto.
Qed.

Lemma fault_unhealthy n e : fault n = Some e -> ~ no_faults.
Proof using Type. intros H [Hn _]. congruence. Qed.

Lemma triple_stmt {A : Type} (f : Tables -> (Tables * A) + SqlError) P R E :
  (forall e tb, P tb -> ~ no_faults -> E e tb) ->
  (forall tb, P tb -> match f tb with inl (tb', a) => R a tb' | inr e => E (error_of_sql e) tb end) ->
  triple P (stmt f) R E.
Proof using Type.
  intros Hfault Hf c c' r HP. unfold stmt. destruct (fault (executed c)) as [e|] eqn:Ef.
  - intros [= <- <-]. split; [done|]. apply Hfault; [done|]. by eapply fault_unhealthy.
  - specialize (Hf _ HP). destruct (f (db c)) as [[tb a]|e]; intros [= <- <-]; done.
Qed.

Lemma triple_query {A : Type} (f : Tables -> A + SqlError) P R E :
  (forall e tb, P tb -> ~ no_faults -> E e tb) ->
  (forall tb, P tb -> match f tb with inl a => R a tb | inr e => E (error_of_sql e) tb end) ->
  triple P (query f) R E.
Proof using Type.
  intros Hfault Hf. apply triple_stmt; [done|]. intros tb HP. specialize (Hf tb HP).
  by destruct (f tb).
Qed.

Lemma triple_execute f P R E :
  (forall e tb, P tb -> ~ no_faults -> E e tb) -> (forall tb, P tb -> R () (f tb)) ->
  triple P (execute f) R E.
Proof using Type. intros Hfault Hf. by apply triple_stmt. Qed.

(** A transaction commits what its body did or leaves the tables as they were. *)
Lemma triple_transaction body tb (R : Tables -> Prop) (E : IndyError -> Prop) c c' r :
  db c = tb -> savepoint c = None ->
  (forall e, ~ no_faults -> E e) ->
  triple (fun x => x = tb) body (fun _ => R) (fun e _ => E e) ->
  in_transaction body c = (c', r) ->
  savepoint c' = None /\
  match r with Ok _ => R (db c') | Err e => db c' = tb /\ E e | Panic => False end.
Proof using L.
  intros Hdb Hsp HE Hbody. unfold in_transaction, transaction_new, sm_bind, begin_statement, sm_ret.
  destruct (fault (executed c)) as [e|] eqn:Ef.
  { intros [= <- <-]. cbn. split; [done|]. split; [done|]. by eapply HE, fault_unhealthy. }
  rewrite Hsp. destruct (body _) as [c2 [u|e|]] eqn:Eb; apply Hbody in Eb as [Hs Hr]; try done; cbn in Hs.
  - unfold commit, commit_, commit_statement, drop_transaction, finish_. cbn.
    rewrite commits, Hs. intros [= <- <-]. done.
  - unfold drop_transaction, finish_, rollback_, rollback_statement. cbn.
    rewrite rollbacks, Hs. intros [= <- <-]. done.
Qed.

(** *** The loops *)
Lemma insert_tags_triple tb0 it replace l m (E : IndyError -> Tables -> Prop) :
  it ∈ items tb0 -> (forall e tb, ~ no_faults -> E e tb) ->
  (replace = true \/
    (NoDup (tag_name <$> l) /\ forall t, t ∈ l -> m !! tag_name t = None)) ->
  triple (tags_are tb0 it m) (insert_tags replace (item_id it) l)
    (fun _ => tags_are tb0 it (put_tags l m)) E.
Proof using L.
  intros Hi HE. revert m. induction l as [|t l IH]; intros m Hr; cbn [insert_tags].
  { by apply triple_ret. }
  eapply triple_bind.
  - apply triple_stmt with (R := fun _ => tags_are tb0 it (<[tag_name t := t]> m)).
    { intros; by apply HE. }
    intros tb Ht. destruct (insert_tag_succeeds replace tb it t) as [tb' E'].
    + destruct Ht as (_ & -> & _). done.
    + destruct Hr as [Hr|[_ Hr]]; [by left|right]. intros x Hx En.
      destruct Ht as (Hok & _ & Hm & _).
      assert (Hm' : m !! tag_name t = Some x)
        by (rewrite <-Hm; apply tag_map_spec; [done|]; naive_solver).
      rewrite Hr in Hm'; [done|left].
    + rewrite E'. by eapply tags_are_insert.
  - intros []. change (put_tags (t :: l) m) with (put_tags l (<[tag_name t := t]> m)).
    apply IH. destruct Hr as [->|[Hnd Hr]]; [by left|right].
    cbn [fmap list_fmap] in Hnd. apply NoDup_cons in Hnd as [Ht Hnd]. split; [done|].
    intros x Hx. rewrite lookup_insert_ne; [apply Hr; by right|].
    intros En. apply Ht. rewrite En. by apply list_elem_of_fmap_2.
Qed.

Lemma delete_tags_triple tb0 it l m (E : IndyError -> Tables -> Prop) :
  (forall e tb, ~ no_faults -> E e tb) ->
  triple (tags_are tb0 it m) (delete_tag_names (item_id it) l)
    (fun _ => tags_are tb0 it (drop_tags l m)) E.
Proof using Type.
  intros HE. revert m. induction l as [|n l IH]; intros m; cbn [delete_tag_names].
  { by apply triple_ret. }
  eapply triple_bind with (R := fun _ => tags_are tb0 it (base.delete n m)).
  - apply triple_execute; [intros; by apply HE|]. intros tb Ht. by apply tags_are_delete.
  - intros []. apply (IH (base.delete n m)).
Qed.
End Logic.

(** ** The laws of the interface *)
Section Laws.
Context {Q : Sqlite} {L : SqliteLaws Q} {C : OptionsCodec} (p : Profile).

Definition conn_ok (c : Connection) : Prop := tables_ok (db c) /\ savepoint c = None.
Definition conn_view (c : Connection) : View := view_of (db c).

Lemma is_error_kind {A : Type} e k : err_kind e = k -> is_error (A := A) (Err e) k.
Proof using Type. intros <-. constructor. Qed.

(** The error of looking up an item that is not there. *)
Definition not_found (tb : Tables) (k : bytes * bytes) (e : IndyError) : Prop :=
  no_faults -> view_of tb !! k = None /\ err_kind e = WalletItemNotFound.

Lemma select_triple tb t n (R : Item -> Tables -> Prop) :
  tables_ok tb ->
  (forall it, it ∈ items tb -> item_key_of it = (t, n) -> R it tb) ->
  triple (fun x => x = tb) (query (select_item t n)) R (fun e x => x = tb /\ not_found tb (t, n) e).
Proof using L.
  intros Hok HR. apply triple_query.
  - intros e x -> Hf. by split.
  - intros x ->. pose proof (select_item_spec tb t n Hok) as H.
    destruct (select_item t n tb) as [it|e].
    + destruct H as (Hi & Ek & _). auto.
    + destruct H as [-> Hn]. split; [done|]. by split.
Qed.

(** Operations that look an item up and change its tags in a transaction. *)
Lemma tags_operation tb t n body (g : TagMap -> TagMap) c c' r :
  conn_ok c -> db c = tb ->
  (forall it, it ∈ items tb -> item_key_of it = (t, n) ->
     triple (fun x => x = tb) (body it) (fun _ => tags_are tb it (g (si_tags (entry tb it))))
       (fun e _ => ~ no_faults)) ->
  in_transaction (sm_bind (query (select_item t n)) body) c = (c', r) ->
  conn_ok c' /\
  changes (conn_view c) (conn_view c') r (t, n)
    ((fun i => mkSItem (si_value i) (g (si_tags i))) <$> conn_view c !! (t, n)) /\
  (r = Ok () -> is_Some (conn_view c !! (t, n))) /\
  (no_faults -> if conn_view c !! (t, n) then r = Ok () else is_error r WalletItemNotFound).
Proof using L.
  intros [Hok Hsp] Hdb Hbody Hrun. unfold conn_view. rewrite Hdb in *.
  eapply triple_transaction with (tb := tb) (E := not_found tb (t, n))
    (R := fun tb' => exists it, it ∈ items tb /\ item_key_of it = (t, n) /\
            tags_are tb it (g (si_tags (entry tb it))) tb') in Hrun; [|done|done|by intros|].
  - destruct Hrun as [Hsp' Hr]. destruct r as [[]|e|]; [| |done].
    + destruct Hr as (it & Hi & Ek & Ht). pose proof (view_lookup_item tb it Hok Hi) as Hl.
      rewrite Ek in Hl. rewrite Hl. cbn [fmap option_fmap option_map changes].
      split; [split; [apply Ht|done]|]. split; [|by eauto].
      rewrite (tags_are_view _ _ _ _ Hok Hi Ht). by rewrite Ek.
    + destruct Hr as [Htb He]. unfold conn_ok. rewrite Htb. cbn [changes].
      split; [done|]. split; [done|]. split; [done|].
      intros Hh. destruct (He Hh) as [-> Hk]. by apply is_error_kind.
  - eapply triple_bind.
    + eapply triple_conseq; [apply (select_triple tb t n (fun it x => x = tb /\ it ∈ items tb /\ item_key_of it = (t, n)))| | |];
        [done|by intros|done|by intros ?? H; exact H|by intros e x [_ He]].
    + intros it c1 c1' r1 [Hx [Hi Ek]] E1. eapply Hbody in E1 as [Hs Hr]; [|done..].
      split; [done|]. destruct r1; [by exists it|by intros ?|done].
Qed.

Lemma add_law c c' r t n v l :
  conn_ok c -> NoDup (tag_name <$> l) -> add t n v l c = (c', r) ->
  conn_ok c' /\ changes (conn_view c) (conn_view c') r (t, n) (Some (mkSItem v (tag_map l))) /\
  (r = Ok () -> conn_view c !! (t, n) = None) /\
  (no_faults -> if conn_view c !! (t, n) then is_error r WalletItemAlreadyExists else r = Ok ()).
Proof using L.
  intros [Hok Hsp] Hnd Hrun. unfold conn_view. set (tb := db c) in *.
  eapply triple_transaction with (tb := tb)
    (E := fun e => no_faults -> is_Some (view_of tb !! (t, n)) /\ err_kind e = WalletItemAlreadyExists)
    (R := fun tb' => tables_ok tb' /\ view_of tb !! (t, n) = None /\
            view_of tb' = <[(t, n) := mkSItem v (tag_map l)]> (view_of tb)) in Hrun; [|done|done|by intros|].
  - destruct Hrun as [Hsp' Hr]. destruct r as [[]|e|]; [| |done].
    + destruct Hr as (Hok' & Hn & Hv). rewrite Hn. do 3 (split; [done|]). done.
    + destruct Hr as [Htb He]. unfold conn_ok. rewrite Htb. cbn [changes].
      do 3 (split; [done|]). intros Hh. destruct (He Hh) as [[i ->] Hk]. by apply is_error_kind.
  - eapply triple_bind.
    + eapply triple_stmt with (R := fun id tb1 => exists it, item_id it = id /\ it ∈ items tb1 /\
        item_key_of it = (t, n) /\ si_value (entry tb1 it) = v /\ tables_ok tb1 /\
        view_of tb !! (t, n) = None /\
        view_of tb1 = <[(t, n) := mkSItem v ∅]> (view_of tb) /\ tags_are tb1 it ∅ tb1).
      { by intros. }
      intros x ->. pose proof (insert_item_spec tb t n (ev_data v) (ev_key v) Hok) as H.
      destruct (insert_item _ _ _ _ tb) as [[tb1 id]|e].
      * destruct H as (Hn & Hok1 & Hi & Hv & Ht).
        exists (mkItem id t n (ev_data v) (ev_key v)). split; [done|].
        destruct v as [d k]. cbn [ev_data ev_key] in *. split; [exact Hi|].
        do 5 (split; [done|]). rewrite <-Ht. by apply tags_are_start.
      * intros Hh. destruct H as [[-> Hs]|Hr]; [done|]. destruct (proj2 Hh (item_id <$> items tb)).
        congruence.
    + intros id c1 c1' r1 (it & <- & Hi & Ek & Hval & Hok1 & Hn & Hv & Ht) E1.
      eapply (insert_tags_triple (db c1) it false l ∅
        (fun e _ => no_faults -> is_Some (view_of tb !! (t, n)) /\ err_kind e = WalletItemAlreadyExists))
        in E1; [|done|by intros|by right|done].
      destruct E1 as [Hs Hr]. split; [done|]. destruct r1; [|done|done].
      split; [apply Hr|]. split; [done|]. rewrite (tags_are_view _ _ _ _ Hok1 Hi Hr).
      by rewrite Ek, Hval, Hv, put_tags_map, insert_insert_eq.
Qed.

Lemma start_triple {A : Type} tb it (m : SM Connection A) R E :
  tables_ok tb -> triple (tags_are tb it (si_tags (entry tb it))) m R E ->
  triple (fun x => x = tb) m R E.
Proof using Type.
  intros Hok H. eapply triple_conseq; [exact H| |done|done]. intros x ->. by apply tags_are_start.
Qed.

Lemma add_tags_law c c' r t n l :
  conn_ok c -> add_tags t n l c = (c', r) ->
  conn_ok c' /\
  changes (conn_view c) (conn_view c') r (t, n)
    ((fun i => mkSItem (si_value i) (put_tags l (si_tags i))) <$> conn_view c !! (t, n)) /\
  (r = Ok () -> is_Some (conn_view c !! (t, n))) /\
  (no_faults -> if conn_view c !! (t, n) then r = Ok () else is_error r WalletItemNotFound).
Proof using L.
  intros Hok H. eapply (tags_operation (db c) t n _ (put_tags l)) in H; [done|done|done|].
  intros it Hi _. apply (start_triple _ it); [apply Hok|]. apply insert_tags_triple; [done|by intros|by left].
Qed.

Lemma update_tags_law c c' r t n l :
  conn_ok c -> NoDup (tag_name <$> l) -> update_tags t n l c = (c', r) ->
  conn_ok c' /\
  changes (conn_view c) (conn_view c') r (t, n)
    ((fun i => mkSItem (si_value i) (tag_map l)) <$> conn_view c !! (t, n)) /\
  (r = Ok () -> is_Some (conn_view c !! (t, n))) /\
  (no_faults -> if conn_view c !! (t, n) then r = Ok () else is_error r WalletItemNotFound).
Proof using L.
  intros Hok Hnd H. eapply (tags_operation (db c) t n _ (fun _ => tag_map l)) in H; [done|done|done|].
  intros it Hi _. set (tb := db c). set (id := item_id it).
  set (clear_enc := fun tb => set_encrypted tb (filter (fun r => row_item r <> id) (tags_encrypted tb))).
  eapply triple_bind with (R := fun _ x => x = clear_enc tb).
  { apply triple_execute; [by intros|]. by intros x ->. }
  intros []. eapply triple_bind with (R := fun _ => tags_are tb it ∅).
  { apply triple_execute; [by intros|]. intros x ->. eapply tags_are_clear, tags_are_start, Hok. }
  intros []. eapply triple_conseq; [apply (insert_tags_triple tb it false l ∅ (fun _ _ => ~ no_faults))| |..];
    [done|by intros|right; split; [done|]; intros; apply lookup_empty|done| |done].
  intros [] x. by rewrite put_tags_map.
Qed.

Lemma delete_tags_law c c' r t n l :
  conn_ok c -> delete_tags t n l c = (c', r) ->
  conn_ok c' /\
  changes (conn_view c) (conn_view c') r (t, n)
    ((fun i => mkSItem (si_value i) (drop_tags l (si_tags i))) <$> conn_view c !! (t, n)) /\
  (r = Ok () -> is_Some (conn_view c !! (t, n))) /\
  (no_faults -> if conn_view c !! (t, n) then r = Ok () else is_error r WalletItemNotFound).
Proof using L.
  intros [Hok Hsp] H. unfold conn_view, conn_ok. set (tb := db c) in *.
  assert (Hsel := select_triple tb t n
    (fun it x => x = tb /\ it ∈ items tb /\ item_key_of it = (t, n)) Hok ltac:(done)).
  apply sm_bind_inv in H as [(c1 & it & Em & Ek)|[(e & Em & ->)|[Em ->]]].
  - apply Hsel in Em as [Hs (Htb & Hi & Hkey)]; [|done].
    pose proof (view_lookup_item tb it Hok Hi) as Hl. rewrite Hkey in Hl. rewrite Hl. cbn [fmap option_fmap option_map].
    eapply triple_transaction with (tb := tb) (E := fun _ => ~ no_faults)
      (R := tags_are tb it (drop_tags l (si_tags (entry tb it)))) in Ek; [|done|congruence|done|].
    + destruct Ek as [Hsp' Hr]. destruct r as [[]|e|]; [| |done]; cbn [changes].
      * split; [split; [apply Hr|done]|]. split; [|by eauto].
        rewrite (tags_are_view _ _ _ _ Hok Hi Hr). by rewrite Hkey.
      * destruct Hr as [-> He]. do 3 (split; [done|]). by intros.
    + apply (start_triple _ it); [done|]. by apply delete_tags_triple.
  - apply Hsel in Em as [Hs [Htb He]]; [|done]. rewrite Htb. cbn [changes].
    split; [split; [done|congruence]|]. split; [done|]. split; [done|].
    intros Hh. destruct (He Hh) as [-> Hk]. by apply is_error_kind.
  - by apply Hsel in Em as [_ []].
Qed.

Lemma update_law c c' r t n v :
  conn_ok c -> update t n v c = (c', r) ->
  conn_ok c' /\
  changes (conn_view c) (conn_view c') r (t, n)
    ((fun i => mkSItem v (si_tags i)) <$> conn_view c !! (t, n)) /\
  (r = Ok () -> is_Some (conn_view c !! (t, n))) /\
  (no_faults -> if conn_view c !! (t, n) then r = Ok () else is_error r WalletItemNotFound).
Proof using Type.
  intros [Hok Hsp]. unfold conn_view, conn_ok, update, sm_bind, stmt.
  destruct (fault (executed c)) as [e|] eqn:Ef.
  { intros [= <- <-]. cbn. do 3 (split; [done|]). intros Hh. by apply fault_unhealthy in Ef. }
  pose proof (update_items_spec (db c) t n (ev_data v) (ev_key v) Hok) as H.
  destruct (update_items t n (ev_data v) (ev_key v) (db c)) as [tb' k]. destruct H as [Hok' H].
  destruct (view_of (db c) !! (t, n)) as [i|] eqn:Ev; destruct H as [-> Hv]; intros [= <- <-]; cbn.
  - split; [done|]. split; [by destruct v|]. by eauto.
  - do 3 (split; [done|]). intros _. by apply is_error_kind.
Qed.

Lemma delete_law c c' r t n :
  conn_ok c -> delete t n c = (c', r) ->
  conn_ok c' /\ changes (conn_view c) (conn_view c') r (t, n) None /\
  (r = Ok () -> is_Some (conn_view c !! (t, n))) /\
  (no_faults -> if conn_view c !! (t, n) then r = Ok () else is_error r WalletItemNotFound).
Proof using L.
  intros [Hok Hsp]. unfold conn_view, conn_ok, delete, sm_bind, stmt.
  destruct (fault (executed c)) as [e|] eqn:Ef.
  { intros [= <- <-]. cbn. do 3 (split; [done|]). intros Hh. by apply fault_unhealthy in Ef. }
  pose proof (delete_items_spec (db c) t n Hok) as H.
  destruct (delete_items t n (db c)) as [tb' k]. destruct H as (Hok' & Hv & ->).
  destruct (view_of (db c) !! (t, n)) as [i|] eqn:Ev; intros [= <- <-]; cbn.
  - split; [done|]. split; [done|]. by eauto.
  - split; [done|]. split; [by rewrite Hv, delete_id|]. split; [done|].
    intros _. by apply is_error_kind.
Qed.

(** *** Reading *)
Lemma tags_listed tb id l :
  tables_ok tb -> l ≡ₚ item_tags tb id ->
  NoDup (tag_name <$> l) /\ tag_map l = tag_map (item_tags tb id).
Proof using Type.
  intros Hok Hp. pose proof (item_tags_NoDup tb id Hok) as Hnd. split.
  - by rewrite Hp.
  - symmetry. by apply tag_map_perm.
Qed.

Lemma select_tags_perm tb id :
  (select_encrypted id tb ++ select_plaintext id tb)%list ≡ₚ item_tags tb id.
Proof using L. unfold select_encrypted, select_plaintext, item_tags. by rewrite !scan_perm. Qed.

(** The tags of an item, in either order of the two tables. *)
Definition tags_read (tb : Tables) (o : RecordOptions) (id : Z) (tags : option (list Tag)) : Prop :=
  if retrieve_tags o
  then exists l, tags = Some l /\ NoDup (tag_name <$> l) /\ tag_map l = tag_map (item_tags tb id)
  else tags = None.

(** A call that only reads keeps the tables and fails only by a fault. *)
Definition reads {A : Type} (tb : Tables) (m : SM Connection A) (R : A -> Prop) : Prop :=
  triple (fun x => x = tb) m (fun a x => x = tb /\ R a) (fun _ x => x = tb /\ ~ no_faults).

Lemma reads_bind {A B : Type} tb (m : SM Connection A) (k : A -> SM Connection B) R R' :
  reads tb m R -> (forall a, R a -> reads tb (k a) R') -> reads tb (sm_bind m k) R'.
Proof using Type.
  intros Hm Hk. eapply triple_bind; [exact Hm|]. intros a c c' r [Hc HR] E.
  by apply (Hk a HR) in E.
Qed.
Lemma reads_ret {A : Type} tb (a : A) (R : A -> Prop) : R a -> reads tb (sm_ret a) R.
Proof using Type. intros HR. by apply triple_ret. Qed.
Lemma reads_query {A : Type} tb (f : Tables -> A) :
  reads tb (query (fun tb => inl (f tb))) (fun a => a = f tb).
Proof using Type. apply triple_query; [by intros e x ->|by intros x ->]. Qed.

Lemma retrieve_reads tb id :
  tables_ok tb ->
  reads tb (retrieve id) (fun l => NoDup (tag_name <$> l) /\ tag_map l = tag_map (item_tags tb id)).
Proof using L.
  intros Hok. eapply reads_bind; [apply reads_query|]. intros x ->.
  eapply reads_bind; [apply reads_query|]. intros y ->.
  apply reads_ret, tags_listed; [done|]. by rewrite Permutation_app_comm, select_tags_perm.
Qed.

Lemma get_tags_reads tb id (o : RecordOptions) :
  tables_ok tb ->
  reads tb (if retrieve_tags o then
      let* encrypted := query (fun tb => inl (select_encrypted id tb)) in
      let* plain := query (fun tb => inl (select_plaintext id tb)) in
      sm_ret (Some (encrypted ++ plain)%list)
    else sm_ret None) (tags_read tb o id).
Proof using L.
  intros Hok. unfold tags_read. destruct (retrieve_tags o); [|by apply reads_ret].
  eapply reads_bind; [apply reads_query|]. intros x ->.
  eapply reads_bind; [apply reads_query|]. intros y ->.
  apply reads_ret. eexists. split; [done|]. apply tags_listed; [done|]. apply select_tags_perm.
Qed.

Lemma get_item_triple tb t n o :
  tables_ok tb ->
  triple (fun x => x = tb) (get_item t n o)
    (fun rec x => x = tb /\ exists i, view_of tb !! (t, n) = Some i /\ record_of o (t, n) i rec)
    (fun e x => x = tb /\ not_found tb (t, n) e).
Proof using L.
  intros Hok. eapply triple_bind.
  { by apply (select_triple tb t n (fun it x => x = tb /\ it ∈ items tb /\ item_key_of it = (t, n))). }
  intros it. eapply triple_bind with
    (R := fun tags x => x = tb /\ (it ∈ items tb /\ item_key_of it = (t, n)) /\ tags_read tb o (item_id it) tags).
  - intros c2 c2' r2 [Hc2 Hi] E2.
    apply (get_tags_reads tb (item_id it) o Hok) in E2 as [Hs2 H2]; [|done].
    split; [done|]. destruct r2 as [tags|e|]; [| |done].
    + exact (conj (proj1 H2) (conj Hi (proj2 H2))).
    + destruct H2 as [Htb Hf]. split; [done|]. by intros Hh.
  - intros tags. apply triple_ret. intros x (-> & [Hi Ek] & Ht). split; [done|].
    exists (entry tb it). rewrite <-Ek. split; [by apply view_lookup_item|].
    unfold record_of. rewrite Ek. cbn [sr_id sr_value sr_type sr_tags fst snd].
    do 3 (split; [done|]). exact Ht.
Qed.

Lemma get_law c c' r t n options :
  conn_ok c -> get t n options c = (c', r) ->
  conn_ok c' /\ conn_view c' = conn_view c /\ r <> Panic /\
  (forall rec, r = Ok rec -> exists o i,
     options_of_get options = Some o /\ conn_view c !! (t, n) = Some i /\ record_of o (t, n) i rec) /\
  (no_faults -> forall o, options_of_get options = Some o ->
     if conn_view c !! (t, n) then exists rec, r = Ok rec else is_error r WalletItemNotFound).
Proof using L.
  intros [Hok Hsp] H. unfold conn_ok, conn_view.
  assert (Hcase : (exists o, options_of_get options = Some o /\ get_item t n o c = (c', r)) \/
                  (options_of_get options = None /\ c' = c /\ exists e, r = Err e)).
  { revert H. unfold get, options_of_get, sm_bind at 1.
    destruct (String.eqb options "{}"); [by eauto|].
    destruct (read_record_options options) as [o|]; [by eauto|]. intros [= <- <-]. by eauto. }
  destruct Hcase as [(o & Ho & Hg)|(Ho & -> & e & ->)].
  - apply (get_item_triple (db c) t n o Hok) in Hg as [Hs Hr]; [|done].
    destruct r as [rec|e|]; [| |done].
    + destruct Hr as [-> (i & Hi & Hrec)]. rewrite Hs, Hi. do 3 (split; [done|]). split; [|by eauto].
      intros rec' [= <-]. by exists o, i.
    + destruct Hr as [-> Hf]. rewrite Hs. do 3 (split; [done|]). split; [done|].
      intros Hh o' _. destruct (Hf Hh) as [-> Hk]. by apply is_error_kind.
  - do 3 (split; [done|]). split; [done|]. intros _ o. by rewrite Ho.
Qed.

Definition conn_remaining (c : Connection) (it : SQLiteStorageIterator) : list ((bytes * bytes) * SItem) :=
  match rows it with
  | None => []
  | Some rs => (fun i => (item_key_of i, entry (db c) i)) <$> rs
  end.
Definition iterator_ok (it : SQLiteStorageIterator) : Prop :=
  retrieve_tags (sit_options it) = true -> tag_retriever it = true.

Lemma get_all_law c c' r :
  conn_ok c -> get_all c = (c', r) ->
  conn_ok c' /\ conn_view c' = conn_view c /\ r <> Panic /\ (no_faults -> exists it, r = Ok it) /\
  forall it, r = Ok it -> iterator_ok it /\
    conn_remaining c' it ≡ₚ map_to_list (conn_view c) /\ sit_options it = mkRecordOptions true true true.
Proof using L.
  intros [Hok Hsp] H.
  assert (Hr : reads (db c) get_all
    (fun it => it = mkIterator (Some (scan (items (db c)))) true (mkRecordOptions true true true) None)).
  { eapply reads_bind; [apply reads_query|]. intros rs ->.
    eapply reads_bind; [apply reads_query|]. intros ? _. by apply reads_ret. }
  apply Hr in H as [Hs H]; [|done]. unfold conn_ok, conn_view, conn_remaining.
  destruct r as [it|e|]; [| |done].
  - destruct H as [-> ->]. split; [by rewrite Hs|]. do 2 (split; [done|]). split; [by eauto|].
    intros it [= <-]. split; [done|]. cbn [rows]. split; [|done].
    unfold view_of. rewrite map_to_list_to_map; [by rewrite scan_perm|].
    rewrite <-list_fmap_compose. apply Hok.
  - destruct H as [-> Hf]. rewrite Hs. by do 4 (split; [done|]).
Qed.

Lemma row_record_reads tb it row :
  tables_ok tb -> iterator_ok it ->
  reads tb (row_record it row)
    (fun o => exists rec, o = Some rec /\ record_of (sit_options it) (item_key_of row) (entry tb row) rec).
Proof using L.
  intros Hok Hit. eapply reads_bind with (R := tags_read tb (sit_options it) (item_id row)).
  - unfold tags_read. destruct (retrieve_tags (sit_options it)) eqn:Et; [|by apply reads_ret].
    rewrite Hit by done. eapply reads_bind; [by apply retrieve_reads|].
    intros l Hl. apply reads_ret. by exists l.
  - intros tags Ht. apply reads_ret. eexists. split; [done|]. unfold record_of.
    cbn [sr_id sr_value sr_type sr_tags fst snd item_key_of]. do 3 (split; [done|]). exact Ht.
Qed.

Lemma next_law c it c' it' r :
  conn_ok c -> iterator_ok it -> next (c, it) = ((c', it'), r) ->
  conn_ok c' /\ iterator_ok it' /\ conn_view c' = conn_view c /\ sit_options it' = sit_options it /\
  match r with
  | Ok None => conn_remaining c it = [] /\ conn_remaining c' it' = []
  | Ok (Some rec) => exists k i, conn_remaining c it = (k, i) :: conn_remaining c' it' /\
      record_of (sit_options it) k i rec
  | Err _ => ~ no_faults
  | Panic => False
  end.
Proof using L.
  intros [Hok Hsp] Hit. unfold next, conn_remaining, conn_ok, conn_view.
  destruct (rows it) as [rs|] eqn:Er; [|intros [= <- <- <-]; by rewrite Er].
  destruct (query (fun _ => inl ()) c) as [c1 [u|e|]] eqn:Eq;
    apply (reads_query (db c) (fun _ => ())) in Eq as [Hs Hq]; try done; destruct Hq as [Htb Hq].
  - destruct rs as [|row rest].
    { intros [= <- <- <-]. rewrite Er, Htb, Hs. done. }
    destruct (row_record it row c1) as [c2 r2] eqn:E2. intros [= <- <- <-]. cbn [rows sit_options].
    apply (row_record_reads (db c) it row Hok Hit) in E2 as [Hs2 H2]; [|done].
    destruct r2 as [o|e|]; [| |done].
    + destruct H2 as [Htb2 (rec & -> & Hrec)]. rewrite Htb2, Hs2, Hs. do 4 (split; [done|]). by eauto.
    + destruct H2 as [Htb2 Hf]. by rewrite Htb2, Hs2, Hs.
  - intros [= <- <- <-]. by rewrite Htb, Hs.
Qed.
End Laws.

(** SQLite with enforced foreign keys keeps the contract of the interface. *)
#[export] Instance SQLiteStorage_laws {Q : Sqlite} {L : SqliteLaws Q} {C : OptionsCodec} (p : Profile) :
  StorageLaws (SQLiteStorage p) := {|
  view := conn_view : @storage (SQLiteStorage p) -> View;
  st_ok := conn_ok;
  healthy := no_faults;
  remaining := conn_remaining;
  it_options := sit_options;
  it_ok _ := iterator_ok;
  law_add s s' r t n v l Hs _ _ := add_law s s' r t n v l Hs;
  law_update s s' r t n v Hs _ _ := update_law s s' r t n v Hs;
  law_add_tags s s' r t n l Hs _ := add_tags_law s s' r t n l Hs;
  law_update_tags s s' r t n l Hs _ := update_tags_law s s' r t n l Hs;
  law_delete_tags s s' r t n l Hs _ := delete_tags_law s s' r t n l Hs;
  law_delete s s' r t n Hs _ := delete_law s s' r t n Hs;
  law_get s s' r t n options Hs _ := get_law s s' r t n options Hs;
  law_get_all := get_all_law;
  law_next := next_law
|}.

(** ** The refinement *)
Section Refinement.
Context (Q : Sqlite) (L : SqliteLaws Q) (C : OptionsCodec) (p : Profile).

End Refinement.

(** ** A concrete SQLite *)
Definition max_rowid (ids : list Z) : Z := foldr Z.max 0%Z ids.

Lemma max_rowid_fresh ids : (max_rowid ids + 1)%Z ∉ ids.
Proof.
  assert (H : forall i, i ∈ ids -> (i <= max_rowid ids)%Z).
  { intros i. induction ids as [|j ids IH]; [by intros ?%not_elem_of_nil|].
    cbn. rewrite elem_of_cons. intros [->|Hi]; [lia|]. specialize (IH Hi).
    fold (max_rowid ids). lia. }
  intros Hi%H. lia.
Qed.

(** Ids one above the largest in use, rows in table order; the [n]-th statements in
    [broken] fail with an I/O error and the commits in [no_commit] are refused. *)
Definition demo_sqlite (fk : bool) (broken no_commit : list nat) : Sqlite := {|
  foreign_keys := fk;
  fault n := if bool_decide (n ∈ broken) then Some SystemIoFailure else None;
  commit_fault n := if bool_decide (n ∈ no_commit) then Some (OtherSqlError "busy") else None;
  rollback_fault _ := None;
  new_rowid ids := Some (max_rowid ids + 1)%Z;
  scan _ l := l;
  run_select _ _ tb := inl (items tb);
  run_count _ _ tb := inl (Z.of_nat (length (items tb)))
|}.

#[export] Instance demo_sqlite_laws broken : SqliteLaws (demo_sqlite true broken []).
Proof.
  split; try done. intros ids i [= <-]. apply max_rowid_fresh.
Qed.

Definition empty_connection : Connection := mkConnection (mkTables [[0%Z]] [] [] []) None 0.

Lemma empty_connection_ok : conn_ok empty_connection.
Proof.
  split; [|done]. split; cbn; try (apply NoDup_nil_2); by intros ? ?%not_elem_of_nil.
Qed.

Definition demo_ev : EncryptedValue := mkEncryptedValue [10]%Z (replicate 60 20%Z).
Definition demo_tag_list : list Tag := [TagEncrypted [1]%Z [2]%Z; TagPlainText [1]%Z "x"].

(** The operations need no options. *)
Definition no_options : OptionsCodec := {|
  read_record_options _ := None; write_record_options _ := EmptyString;
  read_search_options _ := None; write_search_options _ := EmptyString
|}.
Definition demo_run {Q : Sqlite} (os : list StorageOp) : Connection * list (outcome unit) :=
  run_ops (W := SQLiteStorage (C := no_options) Debug) os empty_connection.

(** With statement 7 broken, the first tag of the second [add] fails. *)
Definition demo_ops : list StorageOp :=
  [OpAdd [1]%Z [1]%Z demo_ev demo_tag_list; OpAdd [1]%Z [2]%Z demo_ev demo_tag_list;
   OpAdd [1]%Z [1]%Z demo_ev []; OpDeleteTags [1]%Z [1]%Z [OfPlain [1]%Z]; OpDelete [1]%Z [1]%Z].

Lemma demo_ops_valid : Forall op_valid demo_ops.
Proof. repeat constructor; try done; set_solver. Qed.


(** The connection that [open_storage] makes does not set [foreign_keys]: where SQLite's
    default is off, deleting a record leaves its tags behind and the next record, which
    gets the same row id, has them. *)
Theorem deleted_tags_resurface :
  let Q := demo_sqlite false [] [] in
  exists c' r, demo_run [OpAdd [1]%Z [1]%Z demo_ev demo_tag_list; OpDelete [1]%Z [1]%Z;
                        OpAdd [1]%Z [2]%Z demo_ev []] = (c', [Ok (); Ok (); Ok ()]) /\
  snd (get_item [1]%Z [2]%Z (mkRecordOptions false true true) c') = Ok r /\
  sr_tags r = Some demo_tag_list.
Proof. cbv zeta. do 2 eexists. vm_compute. repeat split. Qed.

(** [commit_] marks the transaction as committed before it runs [COMMIT]: when SQLite
    refuses, nothing rolls back, the transaction stays open and every later write fails. *)
Theorem refused_commit_blocks_writes :
  let Q := demo_sqlite true [] [2] in
  snd (demo_run [OpAdd [1]%Z [1]%Z demo_ev []; OpAdd [1]%Z [2]%Z demo_ev [];
                OpAddTags [1]%Z [1]%Z []]) =
  [Err (error_of_sql (OtherSqlError "")); Err (error_of_sql (OtherSqlError ""));
   Err (error_of_sql (OtherSqlError ""))].
Proof. reflexivity. Qed.
