(* ===== verification/StorageType.v ===== *)
(** * Where wallets are kept

    The trait [WalletStorageType] of [libindy/indy-wallet/src/storage/mod.rs], and the world
    its storages live in: several storages can be open at the same time, also on the same
    place, so an open storage is a connection into a shared world, and an operation of the
    trait [WalletStorage] runs on the state the connection has there.

    [SqliteStorageType] implements the interface; [WalletService] is proved against it. *)

From stdpp Require Import base list strings numbers gmap.
From S2P Require Import Prelude WalletCrypto WalletStorage.

Open Scope string_scope.

Class World (W : WalletStorage) := {
  world : Type;
  conn : Type;
  state_of : world -> conn -> storage;
  with_state : conn -> storage -> world -> world
}.

(** Run an operation of an open storage. *)
Definition on {W : WalletStorage} {Wd : World W} {A : Type} (c : conn) (m : SM storage A) : SM world A :=
  fun w => let (s, r) := m (state_of w c) in (with_state c s w, r).

(** [WalletStorageType]: id, configuration, credentials. *)
Record WalletStorageType {W : WalletStorage} {Wd : World W} := mkStorageType {
  ty_create : string -> option string -> option string -> bytes -> SM world unit;
  ty_open : string -> option string -> option string -> SM world conn;
  ty_delete : string -> option string -> option string -> SM world unit
}.
Arguments WalletStorageType W {Wd}.

(** ** What a world promises

    A world maps places to the metadata and the records kept there; [conn_at] is the place
    a connection works on, if that place is still there. *)
Class WorldLaws {C : OptionsCodec} {W : WalletStorage} (WL : StorageLaws W) (Wd : World W) := {
  place : Type;
  place_eq_dec :: EqDecision place;
  stored : world -> place -> option (option bytes * View);
  conn_at : world -> conn -> option place;
  world_ok : world -> Prop;
  meta : storage -> option bytes;

  (** the record operations and reading leave the metadata alone *)
  keeps_meta_add t n v l s : st_ok s -> meta (st_add t n v l s).1 = meta s;
  keeps_meta_update t n v s : st_ok s -> meta (st_update t n v s).1 = meta s;
  keeps_meta_add_tags t n l s : st_ok s -> meta (st_add_tags t n l s).1 = meta s;
  keeps_meta_update_tags t n l s : st_ok s -> meta (st_update_tags t n l s).1 = meta s;
  keeps_meta_delete_tags t n l s : st_ok s -> meta (st_delete_tags t n l s).1 = meta s;
  keeps_meta_delete t n s : st_ok s -> meta (st_delete t n s).1 = meta s;
  keeps_meta_get_all s : st_ok s -> meta (st_get_all s).1 = meta s;
  keeps_meta_next s i : st_ok s -> meta (it_next (s, i)).1.1 = meta s;
  keeps_meta_get t n o s : st_ok s -> meta (st_get t n o s).1 = meta s;
  law_get_metadata s : st_ok s ->
    let (s', r) := st_get_metadata s in
    st_ok s' /\ view s' = view s /\ meta s' = meta s /\ r <> Panic /\
    (healthy -> forall m, meta s = Some m -> r = Ok m);
  law_set_metadata m s : st_ok s ->
    let (s', r) := st_set_metadata m s in
    st_ok s' /\ view s' = view s /\ r <> Panic /\ (healthy -> r = Ok ()) /\
    meta s' = (if r is Ok _ then (fun _ => m) <$> meta s else meta s);
  law_close s : st_ok s ->
    let (s', r) := st_close s in st_ok s' /\ view s' = view s /\ meta s' = meta s /\ r <> Panic /\ (healthy -> r = Ok ());

  (** a connection works on the contents of its place *)
  conn_state w c p :
    world_ok w -> conn_at w c = Some p ->
    st_ok (state_of w c) /\ stored w p = Some (meta (state_of w c), view (state_of w c));
  law_with_state w c p s :
    world_ok w -> conn_at w c = Some p -> st_ok s ->
    world_ok (with_state c s w) /\
    (forall c', conn_at (with_state c s w) c' = conn_at w c') /\
    forall q, stored (with_state c s w) q = if decide (q = p) then Some (meta s, view s) else stored w q
}.

(** ** What a storage type promises on top: where it keeps a wallet, and which places go
    when one is deleted. *)
Class StorageTypeLaws {C : OptionsCodec} {W : WalletStorage} {WL : StorageLaws W} {Wd : World W}
    (DL : WorldLaws WL Wd) (T : WalletStorageType W) := {
  place_of : string -> option string -> option string -> option place;
  free : world -> place -> Prop;
  covers : place -> place -> Prop;

  covers_refl p : covers p p;
  free_with_state w c s p : free w p -> free (with_state c s w) p;
  free_not_stored w p : world_ok w -> free w p -> stored w p = None;
  law_create w id cfg cred m p :
    world_ok w -> healthy -> place_of id cfg cred = Some p ->
    let (w', r) := ty_create T id cfg cred m w in
    world_ok w' /\ (forall c q, conn_at w c = Some q -> conn_at w' c = Some q) /\
    (free w p -> r = Ok () /\
       forall q, stored w' q = if decide (q = p) then Some (Some m, ∅) else stored w q) /\
    (is_Some (stored w p) -> is_error r WalletAlreadyExists /\ w' = w);
  law_open w id cfg cred p :
    world_ok w -> healthy -> place_of id cfg cred = Some p ->
    let (w', r) := ty_open T id cfg cred w in
    world_ok w' /\ (forall q, stored w' q = stored w q) /\
    (forall c q, conn_at w c = Some q -> conn_at w' c = Some q) /\
    if stored w p then exists c, r = Ok c /\ conn_at w c = None /\ conn_at w' c = Some p
    else free w p -> is_error r WalletNotFound /\ w' = w;
  law_delete w id cfg cred p :
    world_ok w -> healthy -> place_of id cfg cred = Some p ->
    let (w', r) := ty_delete T id cfg cred w in
    world_ok w' /\
    if stored w p then
      r = Ok () /\ free w' p /\
      (forall q, covers p q -> stored w' q = None) /\
      (forall q, ~ covers p q -> stored w' q = stored w q) /\
      (forall c q, conn_at w c = Some q -> ~ covers p q -> conn_at w' c = Some q)
    else free w p -> is_error r WalletNotFound /\ w' = w
}.
