(* ===== verification/SqliteStorageType.v ===== *)
(** * Creating, opening and deleting SQLite storages

    [SQLiteStorageType] of [libindy/indy-wallet/src/storage/default/mod.rs]: databases are
    files found by path, and several connections can be open on one file.

    A path is the list of its components from the root, with [.] and [..] resolved (a file
    system without symbolic links).  A disk has files, which name inodes, directories, the
    tables of each inode (the file may be gone while a connection still uses it), and the
    open connections.  The JSON reader of the configuration, the two base directories and
    the errors of the file system are parameters. *)

From stdpp Require Import base list strings numbers gmap.
From Stdlib Require Import ZArith Lia.
From S2P Require Import Prelude Errors WalletCrypto WalletStorage SqliteStorage StorageType.

Open Scope string_scope.

Definition _SQLITE_DB : string := "sqlite.db".

(** [Config] of the default storage. *)
Record SqliteConfig := mkSqliteConfig { path : option string }.

(** ** Paths *)
Abbreviation Path := (list string).
Definition slash : Ascii.ascii := Ascii.ascii_of_nat 47.

Fixpoint split_slash (s : string) : list string :=
  match s with
  | EmptyString => [""]
  | String a s' =>
      if Ascii.eqb a slash then "" :: split_slash s'
      else match split_slash s' with
           | x :: l => String a x :: l
           | [] => [String a ""]
           end
  end.

Definition enter (p : Path) (c : string) : Path :=
  if String.eqb c "" || String.eqb c "." then p
  else if String.eqb c ".." then removelast p
  else (p ++ [c])%list.

(** [PathBuf::push]: an absolute path replaces, a relative one is appended. *)
Definition path_push (p : Path) (s : string) : Path :=
  foldl enter (if starts_with_char slash s then [] else p) (split_slash s).
Definition parent (p : Path) : Path := removelast p.

(** ** The disk *)
Record OpenFile := mkOpenFile {
  of_path : Path;
  of_inode : nat;
  of_savepoint : option Tables;
  of_executed : nat
}.
Record Disk := mkDisk {
  files : gmap Path nat;
  dirs : gset Path;
  inodes : gmap nat Tables;
  conns : gmap nat OpenFile
}.

(** What the file system answers: errors of creating a directory, opening a database,
    removing a file and removing a directory; the files a failed removal leaves; and
    whether the database reports the WAL mode. *)
Class FileSystem := {
  mkdir_error : Path -> option IndyError;
  open_error : Path -> option IndyError;
  remove_error : Path -> option IndyError;
  remove_dir_error : Path -> option (IndyError * list Path);
  journal_wal : Path -> bool
}.

Definition no_tables : Tables := mkTables [] [] [] [].

Definition exists_ (d : Disk) (p : Path) : bool :=
  bool_decide (is_Some (files d !! p)) || bool_decide (p ∈ dirs d).

Fixpoint prefixes (p : Path) : list Path :=
  match p with
  | [] => [[]]
  | c :: p' => [] :: map (cons c) (prefixes p')
  end.

Section Type_.
Context {Q : Sqlite} {F : FileSystem} (read_config : string -> option SqliteConfig)
  (wallet_home_path current_dir : Path).

Definition _db_path (id : string) (config : option SqliteConfig) : Path :=
  let base := match config with
              | Some (mkSqliteConfig (Some p)) => path_push current_dir p
              | _ => wallet_home_path
              end in
  path_push (path_push base id) _SQLITE_DB.

(** [config.map(from_str).map_or(Ok(None), |v| v.map(Some))]. *)
Definition parse_config (config : option string) : outcome (option SqliteConfig) :=
  match config with
  | None => Ok None
  | Some s => match read_config s with
              | Some c => Ok (Some c)
              | None => Err (err_msg InvalidStructure "Malformed config json")
              end
  end.

(** [DirBuilder::new().recursive(true).create(dir)]. *)
Definition create_dir_all (dir : Path) : SM Disk unit :=
  fun d =>
    match mkdir_error dir with
    | Some e => (d, Err e)
    | None =>
        if existsb (fun q => bool_decide (is_Some (files d !! q))) (prefixes dir)
        then (d, Err (err_msg IOError "Not a directory"))
        else (mkDisk (files d) (dirs d ∪ list_to_set (prefixes dir)) (inodes d) (conns d), Ok ())
    end.

(** [Connection::open] creates a missing file. *)
Definition connection_open (p : Path) : SM Disk nat :=
  fun d =>
    match open_error p with
    | Some e => (d, Err e)
    | None =>
        match files d !! p with
        | Some ino => (d, Ok ino)
        | None =>
            if bool_decide (p ∈ dirs d)
            then (d, Err (error_of_sql (OtherSqlError "unable to open database file")))
            else let ino := fresh (dom (inodes d)) in
                 (mkDisk (<[p := ino]> (files d)) (dirs d) (<[ino := no_tables]> (inodes d)) (conns d), Ok ino)
        end
    end.

Definition remove_file (p : Path) : SM Disk unit :=
  fun d => match remove_error p with
           | Some e => (d, Err e)
           | None => (mkDisk (base.delete p (files d)) (dirs d) (inodes d) (conns d), Ok ())
           end.

Definition below (dir p : Path) : bool := bool_decide (dir `prefix_of` p).

(** [fs::remove_dir_all]: everything below the directory goes. *)
Definition remove_dir_all (dir : Path) : SM Disk unit :=
  fun d =>
    match remove_dir_error dir with
    | Some (e, left_) =>
        (mkDisk (filter (fun pi => negb (below dir pi.1) || bool_decide (pi.1 ∈ left_)) (files d))
           (dirs d) (inodes d) (conns d), Err e)
    | None =>
        (mkDisk (filter (fun pi => negb (below dir pi.1)) (files d))
           (filter (fun p => negb (below dir p)) (dirs d)) (inodes d) (conns d), Ok ())
    end.

Definition set_inode (ino : nat) (tb : Tables) (d : Disk) : Disk :=
  mkDisk (files d) (dirs d) (<[ino := tb]> (inodes d)) (conns d).

(** [create_storage]: the schema and the metadata row are two statements on a new
    connection; a failure removes the file. *)
Definition create_storage (id : string) (config credentials : option string) (metadata_ : bytes)
  : SM Disk unit :=
  let* config := sm_lift (parse_config config) in
  let db_path := _db_path id config in
  fun d =>
    if exists_ d db_path
    then (d, Err (err_msg WalletAlreadyExists "Wallet database file already exists"))
    else
      (let* _ := create_dir_all (parent db_path) in
       let* ino := connection_open db_path in
       fun d1 =>
         let fill := let* _ := execute (fun _ => no_tables) in
                     execute (fun tb => set_metadata tb (metadata tb ++ [metadata_])%list) in
         let (c, r) := fill (mkConnection no_tables None 0) in
         let d2 := set_inode ino (db c) d1 in
         match r with
         | Ok _ => (d2, Ok ())
         | Err e => (let* _ := remove_file db_path in sm_fail e) d2
         | Panic => (d2, Panic)
         end) d.

(** [open_storage]: a new connection.  Neither pragma turns foreign keys on. *)
Definition open_storage (id : string) (config credentials : option string) : SM Disk nat :=
  let* config := sm_lift (parse_config config) in
  let db_file_path := _db_path id config in
  fun d =>
    if negb (exists_ d db_file_path)
    then (d, Err (err_msg WalletNotFound "No wallet database exists"))
    else
      (let* ino := connection_open db_file_path in
       fun d1 =>
         let pragmas := let* _ := query (fun _ => inl ()) in
                        if journal_wal db_file_path then query (fun _ => inl ()) else sm_ret () in
         match pragmas (mkConnection (default no_tables (inodes d1 !! ino)) None 0) with
         | (c, Ok _) =>
             let k := fresh (dom (conns d1)) in
             (mkDisk (files d1) (dirs d1) (inodes d1)
                (<[k := mkOpenFile db_file_path ino (savepoint c) (executed c)]> (conns d1)), Ok k)
         | (_, Err e) => (d1, Err e)
         | (_, Panic) => (d1, Panic)
         end) d.

(** [delete_storage] removes the directory of the database. *)
Definition delete_storage (id : string) (config credentials : option string) : SM Disk unit :=
  let* config := sm_lift (parse_config config) in
  let db_file_path := _db_path id config in
  fun d =>
    if negb (exists_ d db_file_path)
    then (d, Err (err_msg WalletNotFound "Wallet storage file isn't found"))
    else remove_dir_all (parent db_file_path) d.

End Type_.

(** ** SQLite databases on a disk as a world of storages *)
Section Instance_.
Context {Q : Sqlite} {C : OptionsCodec} (p : Profile).

Definition connection_of (d : Disk) (k : nat) : Connection :=
  match conns d !! k with
  | Some f => mkConnection (default no_tables (inodes d !! of_inode f)) (of_savepoint f) (of_executed f)
  | None => mkConnection no_tables None 0
  end.
Definition with_connection (k : nat) (c : Connection) (d : Disk) : Disk :=
  match conns d !! k with
  | Some f => mkDisk (files d) (dirs d) (<[of_inode f := db c]> (inodes d))
                (<[k := mkOpenFile (of_path f) (of_inode f) (savepoint c) (executed c)]> (conns d))
  | None => d
  end.

#[export] Instance sqlite_world : World (SQLiteStorage p) := {|
  world := Disk;
  conn := nat;
  state_of := connection_of : Disk -> nat -> @storage (SQLiteStorage p);
  with_state := with_connection : nat -> @storage (SQLiteStorage p) -> Disk -> Disk
|}.

Definition SQLiteStorageType {F : FileSystem} (read_config : string -> option SqliteConfig) (home cwd : Path)
  : WalletStorageType (SQLiteStorage p) := {|
  ty_create := create_storage read_config home cwd : _ -> _ -> _ -> _ -> SM (@world _ sqlite_world) unit;
  ty_open := open_storage read_config home cwd : _ -> _ -> _ -> SM (@world _ sqlite_world) (@conn _ sqlite_world);
  ty_delete := delete_storage read_config home cwd : _ -> _ -> _ -> SM (@world _ sqlite_world) unit
|}.
End Instance_.

(** ** Operations and the metadata table *)
Section Metadata.
Context {Q : Sqlite} {C : OptionsCodec}.

Definition metadata_is (m : list bytes) (c : Connection) : Prop :=
  metadata (db c) = m /\ forall tb, savepoint c = Some tb -> metadata tb = m.
Definition keeps_metadata {A : Type} (o : SM Connection A) : Prop :=
  forall m c, metadata_is m c -> metadata_is m (o c).1.

Lemma keeps_ret {A : Type} (a : A) : keeps_metadata (sm_ret a).
Proof. by intros m c. Qed.
Lemma keeps_fail {A : Type} e : keeps_metadata (A := A) (sm_fail e).
Proof. by intros m c. Qed.
Lemma keeps_bind {A B : Type} (o : SM Connection A) (k : A -> SM Connection B) :
  keeps_metadata o -> (forall a, keeps_metadata (k a)) -> keeps_metadata (sm_bind o k).
Proof.
  intros Ho Hk m c Hc. specialize (Ho m c Hc). unfold sm_bind.
  destruct (o c) as [c1 [a|e|]]; cbn [fst] in *; [by apply Hk|done..].
Qed.
Lemma keeps_stmt {A : Type} (f : Tables -> (Tables * A) + SqlError) :
  (forall tb tb' a, f tb = inl (tb', a) -> metadata tb' = metadata tb) -> keeps_metadata (stmt f).
Proof.
  intros Hf m c [Hm Hs]. unfold stmt. destruct (fault (executed c)); [by split|].
  destruct (f (db c)) as [[tb a]|e] eqn:E; [|by split]. split; [|done]. cbn. by rewrite (Hf _ _ _ E).
Qed.
Lemma keeps_query {A : Type} (f : Tables -> A + SqlError) : keeps_metadata (query f).
Proof. apply keeps_stmt. intros tb tb' a. destruct (f tb); [by intros [= <- _]|done]. Qed.
Lemma keeps_transaction o : keeps_metadata o -> keeps_metadata (in_transaction o).
Proof.
  intros Ho. unfold in_transaction. apply keeps_bind.
  - unfold transaction_new. apply keeps_bind; [|intros; apply keeps_ret].
    intros m c [Hm Hs]. unfold begin_statement. destruct (fault (executed c)); [by split|].
    destruct (savepoint c) eqn:E; (split; [done|]); cbn; [by rewrite E|]. by intros tb [= <-].
  - intros tx m c Hc. specialize (Ho m c Hc). destruct (o c) as [c1 r]. cbn [fst] in Ho.
    assert (Hcm : forall c', metadata_is m c' -> metadata_is m (commit_ tx c').1.1).
    { intros c' [H1 H2]. unfold commit_, commit_statement.
      destruct (commit_fault (executed c')), (savepoint c') eqn:E; (split; [done|]); cbn; rewrite ?E; done. }
    assert (Hrb : forall c', metadata_is m c' -> metadata_is m (rollback_ tx c').1.1).
    { intros c' [H1 H2]. unfold rollback_, rollback_statement.
      destruct (rollback_fault (executed c')), (savepoint c') as [t|] eqn:E; split; cbn; rewrite ?E; auto; done. }
    assert (Hd : metadata_is m (drop_transaction tx c1)).
    { unfold drop_transaction, finish_. destruct (committed tx); [done|]. destruct (drop_behavior tx); auto. }
    destruct r; try done. unfold commit. specialize (Hcm c1 Ho). revert Hcm. unfold commit_.
    destruct (commit_statement c1) as [c2 r2]. cbn. done.
Qed.

Lemma keeps_execute f : (forall tb, metadata (f tb) = metadata tb) -> keeps_metadata (execute f).
Proof. intros Hf. apply keeps_stmt. intros tb tb' []. by intros [= <-]. Qed.

Lemma keeps_insert_tags replace id l : keeps_metadata (insert_tags replace id l).
Proof.
  induction l as [|tag l IH]; cbn [insert_tags]; [apply keeps_ret|].
  apply keeps_bind; [|done]. apply keeps_stmt. intros tb tb' []. unfold insert_tag.
  destruct tag; destruct (insert_row _ _ _ _ _ _); (done || by intros [= <-]).
Qed.

Lemma keeps_add t n v l : keeps_metadata (add t n v l).
Proof.
  apply keeps_transaction, keeps_bind.
  - apply keeps_stmt. intros tb tb' a. unfold insert_item. destruct (existsb _ _); [done|].
    destruct (new_rowid _); [|done]. by intros [= <- _].
  - intros id. apply keeps_insert_tags.
Qed.
Lemma keeps_update t n v : keeps_metadata (update t n v).
Proof.
  apply keeps_bind.
  - apply keeps_stmt. intros tb tb' a. unfold update_items. by intros [= <- _].
  - intros [|[|k]]; (apply keeps_ret || apply keeps_fail).
Qed.
Lemma keeps_add_tags t n l : keeps_metadata (add_tags t n l).
Proof. apply keeps_transaction, keeps_bind; [apply keeps_query|]. intros it. apply keeps_insert_tags. Qed.
Lemma keeps_update_tags t n l : keeps_metadata (update_tags t n l).
Proof.
  apply keeps_transaction, keeps_bind; [apply keeps_query|]. intros it.
  do 2 (apply keeps_bind; [by apply keeps_execute|intros _]). apply keeps_insert_tags.
Qed.
Lemma keeps_delete_tags t n l : keeps_metadata (delete_tags t n l).
Proof.
  apply keeps_bind; [apply keeps_query|]. intros it. apply keeps_transaction.
  induction l as [|x l IH]; cbn [delete_tag_names]; [apply keeps_ret|].
  apply keeps_bind; [|done]. apply keeps_execute. by intros tb; destruct x.
Qed.
Lemma keeps_delete t n : keeps_metadata (delete t n).
Proof.
  apply keeps_bind.
  - apply keeps_stmt. intros tb tb' a. unfold delete_items. by intros [= <- _].
  - intros k. destruct (k =? 1)%nat; [apply keeps_ret|apply keeps_fail].
Qed.
Lemma keeps_get_all : keeps_metadata get_all.
Proof. do 2 (apply keeps_bind; [apply keeps_query|intros ?]). apply keeps_ret. Qed.
Lemma keeps_next i : keeps_metadata (fun c => let '((c', _), r) := next (c, i) in (c', r)).
Proof.
  intros m c Hc. unfold next. destruct (rows i) as [rs|]; [|done].
  pose proof (keeps_query (fun _ => inl ()) m c Hc) as H. destruct (query _ c) as [c1 [[]|e|]]; [|done..].
  cbn [fst] in H. destruct rs as [|row rest]; [done|].
  assert (Hk : keeps_metadata (row_record i row)).
  { apply keeps_bind; [|intros; apply keeps_ret]. destruct (retrieve_tags _); [|apply keeps_ret].
    destruct (tag_retriever i); [|apply keeps_fail]. apply keeps_bind; [|intros; apply keeps_ret].
    do 2 (apply keeps_bind; [apply keeps_query|intros ?]). apply keeps_ret. }
  specialize (Hk m c1 H). by destruct (row_record i row c1).
Qed.

Lemma keeps_get t n o : keeps_metadata (get t n o).
Proof.
  apply keeps_bind.
  - destruct (String.eqb o "{}"); [apply keeps_ret|].
    destruct (read_record_options o); [apply keeps_ret|apply keeps_fail].
  - intros o'. apply keeps_bind; [apply keeps_query|]. intros it.
    apply keeps_bind; [|intros; apply keeps_ret]. destruct (retrieve_tags o'); [|apply keeps_ret].
    apply keeps_bind; [apply keeps_query|]. intros l. apply keeps_bind; [apply keeps_query|].
    intros l'. apply keeps_ret.
Qed.
End Metadata.

(** ** The disk keeps the contract *)
Record disk_ok (d : Disk) : Prop := mkDiskOk {
  file_tables p ino : files d !! p = Some ino -> exists tb, inodes d !! ino = Some tb /\ tables_ok tb;
  file_inj p q ino : files d !! p = Some ino -> files d !! q = Some ino -> p = q;
  conn_inode k f : conns d !! k = Some f -> is_Some (inodes d !! of_inode f);
  conn_idle k f : conns d !! k = Some f -> of_savepoint f = None;
  file_dirs p ino q : files d !! p = Some ino -> q `prefix_of` parent p -> q ∈ dirs d;
  file_leaf p q i j : files d !! p = Some i -> files d !! q = Some j -> p `prefix_of` q -> p = q
}.

Definition single_row (tb : Tables) : option bytes := match metadata tb with [m] => Some m | _ => None end.

Definition disk_stored (d : Disk) (p : Path) : option (option bytes * View) :=
  ino ← files d !! p; tb ← inodes d !! ino; Some (single_row tb, view_of tb).
Definition disk_conn_at (d : Disk) (k : nat) : option Path :=
  f ← conns d !! k; if decide (files d !! of_path f = Some (of_inode f)) then Some (of_path f) else None.

Lemma disk_conn_at_Some d k p :
  disk_conn_at d k = Some p <-> exists f, conns d !! k = Some f /\ of_path f = p /\ files d !! p = Some (of_inode f).
Proof.
  unfold disk_conn_at. destruct (conns d !! k) as [f|]; cbn; [|naive_solver].
  destruct (decide _) as [H|H]; naive_solver.
Qed.

Lemma disk_stored_file d p : disk_ok d -> is_Some (disk_stored d p) <-> is_Some (files d !! p).
Proof.
  intros Hd. unfold disk_stored. destruct (files d !! p) as [ino|] eqn:E; cbn; [|by split; intros []].
  destruct (file_tables d Hd p ino E) as (tb & -> & _). cbn. by split; eexists.
Qed.

Lemma parent_prefix (p : Path) : parent p `prefix_of` p.
Proof.
  unfold parent. destruct p as [|x p]; [done|].
  destruct (@exists_last _ (x :: p) ltac:(done)) as (l & y & ->). rewrite removelast_last. by eexists.
Qed.

Lemma prefix_parent (q p : Path) : q `prefix_of` p -> q <> p -> q `prefix_of` parent p.
Proof.
  intros [r ->] Hne. unfold parent. destruct r as [|x r]; [by rewrite app_nil_r in Hne|].
  rewrite removelast_app by done. by eexists.
Qed.

Lemma elem_prefixes (q p : Path) : q ∈ prefixes p <-> q `prefix_of` p.
Proof.
  revert q. induction p as [|c p IH]; intros q; cbn [prefixes].
  - rewrite list_elem_of_singleton. split; [by intros ->|apply prefix_nil_inv].
  - rewrite elem_of_cons. split.
    + intros [->|Hq]; [apply prefix_nil|]. apply list_elem_of_In, in_map_iff in Hq as (r & <- & Hr).
      apply prefix_cons, IH. by apply list_elem_of_In.
    + destruct q as [|x q]; [by left|]. intros Hp. right. apply prefix_cons_inv_1 in Hp as Hx. subst x.
      apply prefix_cons_inv_2, IH in Hp. by apply list_elem_of_In, in_map, list_elem_of_In.
Qed.

Section Laws.
Context {Q : Sqlite} {L : SqliteLaws Q} {C : OptionsCodec} (p : Profile).

Lemma with_connection_ok d k q c :
  disk_ok d -> disk_conn_at d k = Some q -> conn_ok c ->
  disk_ok (with_connection k c d) /\
  (forall k', disk_conn_at (with_connection k c d) k' = disk_conn_at d k') /\
  forall r, disk_stored (with_connection k c d) r =
    if decide (r = q) then Some (single_row (db c), conn_view c) else disk_stored d r.
Proof using Type.
  intros Hd (f & Hk & Hp & Hf)%disk_conn_at_Some [Htb Hsp]. unfold with_connection. rewrite Hk. split; [|split].
  - destruct Hd as [H1 H2 H3 H4 H5 H6]. split; cbn [files dirs inodes conns]; try done.
    + intros r ino Hr. destruct (decide (ino = of_inode f)) as [->|Hne].
      * exists (db c). by rewrite lookup_insert_eq.
      * rewrite lookup_insert_ne by done. by apply H1 in Hr.
    + intros k' f' Hk'. rewrite lookup_insert_is_Some'. right. apply lookup_insert_Some in Hk' as [[<- <-]|[_ Hk']]; cbn; eauto.
    + intros k' f' Hk'. apply lookup_insert_Some in Hk' as [[<- <-]|[_ Hk']]; cbn; eauto.
  - intros k'. unfold disk_conn_at. cbn [conns files]. destruct (decide (k' = k)) as [->|Hne].
    + by rewrite lookup_insert_eq, Hk.
    + by rewrite lookup_insert_ne.
  - intros r. unfold disk_stored. cbn [files inodes]. destruct (decide (r = q)) as [->|Hne].
    + rewrite Hf. cbn. by rewrite lookup_insert_eq.
    + destruct (files d !! r) as [ino|] eqn:E; cbn; [|done]. rewrite lookup_insert_ne; [done|].
      intros <-. by apply Hne, (file_inj d Hd r q (of_inode f)).
Qed.

Lemma connection_of_ok d k q :
  disk_ok d -> disk_conn_at d k = Some q ->
  conn_ok (connection_of d k) /\
  disk_stored d q = Some (single_row (db (connection_of d k)), conn_view (connection_of d k)).
Proof using Type.
  intros Hd (f & Hk & Hp & Hf)%disk_conn_at_Some. unfold connection_of. rewrite Hk.
  destruct (file_tables d Hd q _ Hf) as (tb & Htb & Hok). rewrite Htb. split.
  - split; [done|]. by eapply conn_idle.
  - unfold disk_stored. rewrite Hf. cbn. by rewrite Htb.
Qed.

Lemma keeps_row {A : Type} (o : SM Connection A) c :
  keeps_metadata o -> conn_ok c -> single_row (db (o c).1) = single_row (db c).
Proof using Type.
  intros Ho [_ Hs]. destruct (Ho (metadata (db c)) c) as [H _].
  - split; [done|]. by rewrite Hs.
  - unfold single_row. by rewrite H.
Qed.

Lemma keeps_row_next c i : conn_ok c -> single_row (db (next (c, i)).1.1) = single_row (db c).
Proof using Type.
  intros Hc. pose proof (keeps_row _ c (keeps_next i) Hc) as H. cbv beta in H.
  by destruct (next (c, i)) as [[? ?] ?].
Qed.

Lemma get_metadata_law c :
  conn_ok c ->
  let (c', r) := get_storage_metadata c in
  conn_ok c' /\ conn_view c' = conn_view c /\ single_row (db c') = single_row (db c) /\ r <> Panic /\
  (no_faults -> forall m, single_row (db c) = Some m -> r = Ok m).
Proof using L.
  intros [Htb Hsp]. unfold get_storage_metadata, query, stmt.
  destruct (fault (executed c)) as [e|] eqn:Ef.
  { split; [by split|]. do 3 (split; [done|]). intros [Hn _]. by rewrite Hn in Ef. }
  destruct (scan (metadata (db c))) as [|m l] eqn:Es; (split; [by split|]); do 3 (split; [done|]);
    intros _ m'; unfold single_row; destruct (metadata (db c)) as [|x [|]]; try done; intros [= <-];
    pose proof (scan_perm [x]) as Hp; rewrite Es in Hp; symmetry in Hp; apply Permutation_length_1_inv in Hp;
    by simplify_eq.
Qed.

#[export] Instance sqlite_world_laws : WorldLaws (SQLiteStorage_laws p) (sqlite_world p).
Proof using Type.
  refine {| place := Path; stored := disk_stored : @world _ (sqlite_world p) -> _; conn_at := disk_conn_at;
            world_ok := disk_ok; meta := (fun c : @storage (SQLiteStorage p) => single_row (db c)) |};
    cbn [storage st_add st_update st_get st_get_metadata st_set_metadata st_close SQLiteStorage
         st_ok view healthy SQLiteStorage_laws world conn state_of with_state sqlite_world].
  - intros. apply keeps_row; [apply keeps_add|done].
  - intros. apply keeps_row; [apply keeps_update|done].
  - intros. apply keeps_row; [apply keeps_add_tags|done].
  - intros. apply keeps_row; [apply keeps_update_tags|done].
  - intros. apply keeps_row; [apply keeps_delete_tags|done].
  - intros. apply keeps_row; [apply keeps_delete|done].
  - intros. apply keeps_row; [apply keeps_get_all|done].
  - intros. by apply keeps_row_next.
  - intros. apply keeps_row; [apply keeps_get|done].
  - apply get_metadata_law.
  - intros m c [Htb Hsp]. unfold set_storage_metadata, execute, stmt.
    destruct (fault (executed c)) as [e|] eqn:Ef.
    { split; [by split|]. do 2 (split; [done|]). split; [intros [Hn _]; by rewrite Hn in Ef|done]. }
    split; [split; [|done]; destruct Htb; by split|]. do 2 (split; [done|]). split; [done|].
    unfold single_row. cbn. by destruct (metadata (db c)) as [|? [|]].
  - intros c Hc. by unfold close.
  - intros. by apply connection_of_ok.
  - intros. by apply with_connection_ok.
Defined.
End Laws.

(** A file system without errors of its own. *)
Class FileSystemLaws (F : FileSystem) := {
  no_mkdir_error q : mkdir_error q = None;
  no_open_error q : open_error q = None;
  no_remove_dir_error q : remove_dir_error q = None
}.

Definition disk_free (d : Disk) (q : Path) : Prop :=
  exists_ d q = false /\ forall r, r `prefix_of` parent q -> files d !! r = None.
Definition disk_covers (q r : Path) : Prop := parent q `prefix_of` r.

Lemma exists_false d q : exists_ d q = false <-> files d !! q = None /\ q ∉ dirs d.
Proof.
  unfold exists_. rewrite orb_false_iff, !bool_decide_eq_false. by rewrite <-eq_None_not_Some.
Qed.
Lemma exists_file d q ino : files d !! q = Some ino -> exists_ d q = true.
Proof. intros H. unfold exists_. by rewrite H, bool_decide_eq_true_2 by (by eexists). Qed.
Lemma below_true q r : Is_true (negb (below q r)) <-> ~ q `prefix_of` r.
Proof. unfold below. case_bool_decide; cbn; naive_solver. Qed.

Lemma disk_free_check d q :
  exists_ d q = false -> existsb (fun r => bool_decide (is_Some (files d !! r))) (prefixes (parent q)) = false ->
  disk_free d q.
Proof.
  intros Hex Hb. split; [done|]. intros r Hr%elem_prefixes. apply eq_None_not_Some. intros Hs.
  apply (proj1 (existsb_false _ _)) with (x := r) in Hb; [|done]. by apply bool_decide_eq_false in Hb.
Qed.

Section TypeLaws.
Context {Q : Sqlite} {L : SqliteLaws Q} {C : OptionsCodec} {F : FileSystem} {FL : FileSystemLaws F}.
Context (p : Profile) (read_config : string -> option SqliteConfig) (home cwd : Path).

Lemma db_path_not_dir id cfg :
  ~ _db_path home cwd id cfg `prefix_of` parent (_db_path home cwd id cfg).
Proof using Type.
  unfold _db_path at 2, parent. set (dir := path_push _ id).
  change (path_push dir _SQLITE_DB) with (dir ++ ["sqlite.db"])%list. rewrite removelast_last.
  intros [r Hr]. apply (f_equal length) in Hr. revert Hr. unfold _db_path. fold dir.
  change (path_push dir _SQLITE_DB) with (dir ++ ["sqlite.db"])%list. rewrite !length_app. cbn. lia.
Qed.

(** A new file, and its contents. *)
Lemma new_file_ok d q tb :
  disk_ok d -> disk_free d q -> tables_ok tb ->
  let ino := fresh (dom (inodes d)) in
  let d' := mkDisk (<[q := ino]> (files d)) (dirs d ∪ list_to_set (prefixes (parent q))) (<[ino := tb]> (inodes d)) (conns d) in
  disk_ok d' /\ (forall k r, disk_conn_at d k = Some r -> disk_conn_at d' k = Some r) /\
  forall r, disk_stored d' r = if decide (r = q) then Some (single_row tb, view_of tb) else disk_stored d r.
Proof using Type.
  intros Hd [[Hq Hdir]%exists_false Hup] Htb ino d'. pose proof Hd as [H1 H2 H3 H4 H5 H6].
  assert (Hino : inodes d !! ino = None) by (apply not_elem_of_dom, is_fresh).
  assert (Hnew : forall r i, files d !! r = Some i -> i <> ino).
  { intros r i Hr ->. apply H1 in Hr as (t & Ht & _). by rewrite Hino in Ht. }
  split; [|split].
  - split; cbn [files dirs inodes conns d'].
    + intros r i [[<- <-]|[Hne Hr]]%lookup_insert_Some; [exists tb; by rewrite lookup_insert_eq|].
      rewrite lookup_insert_ne by (intros E; by apply (Hnew r i)). eauto.
    + intros r s i [[<- <-]|[Hne Hr]]%lookup_insert_Some [[<- E]|[Hne' Hs]]%lookup_insert_Some; try done.
      * by apply Hnew in Hs.
      * subst i. by apply Hnew in Hr.
      * eauto.
    + intros k f Hk. rewrite lookup_insert_is_Some'. right. eauto.
    + done.
    + intros r i s [[<- <-]|[Hne Hr]]%lookup_insert_Some Hs; rewrite elem_of_union; [right|left; eauto].
      by rewrite elem_of_list_to_set, elem_prefixes.
    + intros r s i j [[<- <-]|[Hne Hr]]%lookup_insert_Some [[<- <-]|[Hne' Hs]]%lookup_insert_Some Hp; try done.
      * exfalso. apply Hdir. apply (H5 s j); [done|]. by apply prefix_parent.
      * exfalso. assert (Hn : files d !! r = None) by (apply Hup, prefix_parent; done). congruence.
      * eauto.
  - intros k r. rewrite !disk_conn_at_Some. cbn [conns files d']. intros (f & Hk & Hp & Hf). exists f.
    split; [done|]. split; [done|]. rewrite lookup_insert_ne; [done|]. intros <-. congruence.
  - intros r. unfold disk_stored. cbn [files inodes d']. destruct (decide (r = q)) as [->|Hne].
    + rewrite lookup_insert_eq. cbn. by rewrite lookup_insert_eq.
    + rewrite lookup_insert_ne by done. destruct (files d !! r) as [i|] eqn:E; cbn; [|done].
      rewrite lookup_insert_ne; [done|]. intros Ei. by apply (Hnew r i).
Qed.

Lemma create_storage_free d id cfg cfg' cred m :
  no_faults -> parse_config read_config cfg = Ok cfg' -> disk_free d (_db_path home cwd id cfg') ->
  let q := _db_path home cwd id cfg' in
  let ino := fresh (dom (inodes d)) in
  create_storage read_config home cwd id cfg cred m d =
  (mkDisk (<[q := ino]> (files d)) (dirs d ∪ list_to_set (prefixes (parent q)))
     (<[ino := mkTables [m] [] [] []]> (inodes d)) (conns d), Ok ()).
Proof using FL.
  intros [Hn _] Hc [Hex Hup] q ino. fold q in Hex, Hup. unfold create_storage, sm_bind at 1, sm_lift. rewrite Hc.
  fold q. rewrite Hex. unfold sm_bind at 1, create_dir_all. rewrite no_mkdir_error.
  rewrite (proj2 (existsb_false _ _)).
  2:{ intros r Hr. rewrite Hup by (by apply elem_prefixes). by rewrite bool_decide_eq_false_2 by (by intros []). }
  unfold sm_bind at 1, connection_open. rewrite no_open_error. cbn [files dirs inodes conns].
  apply exists_false in Hex as [Hq Hdir]. rewrite Hq.
  rewrite bool_decide_eq_false_2.
  2:{ rewrite elem_of_union, elem_of_list_to_set, elem_prefixes. intros [?|Hr]; [done|].
      by apply db_path_not_dir in Hr. }
  clearbody q. unfold execute, sm_bind, stmt. cbn [executed db savepoint]. rewrite !Hn.
  unfold set_inode. cbn [files dirs inodes conns db set_metadata metadata no_tables app]. by rewrite insert_insert_eq.
Qed.

(** Opening a database that exists. *)
Lemma open_storage_file d id cfg cfg' cred ino :
  no_faults -> disk_ok d -> parse_config read_config cfg = Ok cfg' ->
  files d !! _db_path home cwd id cfg' = Some ino ->
  exists f, open_storage read_config home cwd id cfg cred d =
    (mkDisk (files d) (dirs d) (inodes d) (<[fresh (dom (conns d)) := f]> (conns d)), Ok (fresh (dom (conns d)))) /\
    of_path f = _db_path home cwd id cfg' /\ of_inode f = ino /\ of_savepoint f = None.
Proof using FL.
  intros [Hn _] Hd Hc Hf. set (q := _db_path home cwd id cfg') in *. unfold open_storage, sm_bind at 1, sm_lift.
  rewrite Hc. fold q. clearbody q. rewrite (exists_file d q ino Hf). cbn [negb].
  unfold sm_bind at 1, connection_open. rewrite no_open_error, Hf.
  unfold query, sm_bind, stmt. cbn [executed db savepoint]. rewrite Hn.
  destruct (journal_wal q); cbn [executed db savepoint]; rewrite ?Hn; cbn [executed db savepoint sm_ret];
    (eexists; split; [reflexivity|done]).
Qed.

Lemma new_conn_ok d k f ino :
  disk_ok d -> conns d !! k = None -> files d !! of_path f = Some ino -> of_inode f = ino -> of_savepoint f = None ->
  let d' := mkDisk (files d) (dirs d) (inodes d) (<[k := f]> (conns d)) in
  disk_ok d' /\ (forall q, disk_stored d' q = disk_stored d q) /\
  (forall k' q, disk_conn_at d k' = Some q -> disk_conn_at d' k' = Some q) /\
  disk_conn_at d k = None /\ disk_conn_at d' k = Some (of_path f).
Proof using Type.
  intros Hd Hk Hf <- Hs d'. pose proof Hd as [H1 H2 H3 H4 H5 H6]. split; [|split; [done|split; [|split]]].
  - split; cbn [files dirs inodes conns d']; try done.
    + intros k' f' [[_ <-]|[_ Hk']]%lookup_insert_Some; [|eauto].
      destruct (H1 _ _ Hf) as (tb & -> & _). by eexists.
    + intros k' f' [[_ <-]|[_ Hk']]%lookup_insert_Some; [done|eauto].
  - intros k' q. rewrite !disk_conn_at_Some. cbn [conns files d']. intros (f' & Hk' & Hp & Hf'). exists f'.
    rewrite lookup_insert_ne; [done|]. intros <-. congruence.
  - unfold disk_conn_at. by rewrite Hk.
  - apply disk_conn_at_Some. exists f. cbn [conns files d']. by rewrite lookup_insert_eq.
Qed.

Lemma remove_parent_ok d q :
  disk_ok d ->
  exists d', remove_dir_all (parent q) d = (d', Ok ()) /\ disk_ok d' /\
    (is_Some (files d !! q) -> disk_free d' q) /\
    (forall r, disk_covers q r -> disk_stored d' r = None) /\
    (forall r, ~ disk_covers q r -> disk_stored d' r = disk_stored d r) /\
    (forall k r, disk_conn_at d k = Some r -> ~ disk_covers q r -> disk_conn_at d' k = Some r).
Proof using FL.
  intros Hd. unfold remove_dir_all. rewrite no_remove_dir_error. eexists. split; [reflexivity|]. set (d' := mkDisk _ _ _ _).
  assert (Hl : forall r i, files d' !! r = Some i <-> files d !! r = Some i /\ ~ parent q `prefix_of` r).
  { intros r i. unfold d'. cbn [files]. rewrite map_lookup_filter_Some. cbn [fst]. by rewrite below_true. }
  assert (Hdirs : forall r, r ∈ dirs d' <-> r ∈ dirs d /\ ~ parent q `prefix_of` r).
  { intros r. unfold d'. cbn [dirs]. rewrite elem_of_filter, below_true. naive_solver. }
  assert (Hgone : forall r, parent q `prefix_of` r -> files d' !! r = None).
  { intros r Hr. apply eq_None_not_Some. intros [i [_ Hn]%Hl]. done. }
  pose proof Hd as [H1 H2 H3 H4 H5 H6]. split; [|split; [|split; [|split]]].
  - split; cbn [inodes conns d']; try done.
    + intros r i [Hr _]%Hl. eauto.
    + intros r s i [Hr _]%Hl [Hs _]%Hl. eauto.
    + intros r i s [Hr Hn]%Hl Hs. apply Hdirs. split; [eauto|]. intros Hq. apply Hn. etrans; [done|].
      etrans; [done|]. apply parent_prefix.
    + intros r s i j [Hr _]%Hl [Hs _]%Hl. eauto.
  - intros [ino Hf]. split.
    + apply exists_false. split; [apply Hgone, parent_prefix|]. intros [_ Hn]%Hdirs. apply Hn, parent_prefix.
    + intros r Hr. apply eq_None_not_Some. intros [i [Hi Hn]%Hl]. assert (r = q) as ->.
      { eapply H6; [done|done|]. etrans; [done|]. apply parent_prefix. }
      apply Hn, parent_prefix.
  - intros r Hr. unfold disk_stored. by rewrite Hgone.
  - intros r Hr. unfold disk_stored. destruct (files d !! r) as [i|] eqn:E.
    + by rewrite (proj2 (Hl r i)).
    + destruct (files d' !! r) as [i|] eqn:E'; [|done]. apply Hl in E' as [E' _]. congruence.
  - intros k r Hk Hr. apply disk_conn_at_Some in Hk as (f & Hk & Hp & Hi). apply disk_conn_at_Some.
    exists f. split; [done|]. split; [done|]. by apply Hl.
Qed.

Definition disk_place_of (id : string) (config credentials : option string) : option Path :=
  match parse_config read_config config with Ok c => Some (_db_path home cwd id c) | _ => None end.

Lemma disk_place_inv id cfg cred q :
  disk_place_of id cfg cred = Some q -> exists c, parse_config read_config cfg = Ok c /\ q = _db_path home cwd id c.
Proof using Type. unfold disk_place_of. destruct (parse_config _ _) as [c| |]; [|done..]. intros [= <-]. eauto. Qed.

Lemma create_storage_law d id cfg c cred m :
  disk_ok d -> no_faults -> parse_config read_config cfg = Ok c ->
  let q := _db_path home cwd id c in
  let (d', res) := create_storage read_config home cwd id cfg cred m d in
  disk_ok d' /\ (forall k q', disk_conn_at d k = Some q' -> disk_conn_at d' k = Some q') /\
  (disk_free d q -> res = Ok () /\
     forall r, disk_stored d' r = if decide (r = q) then Some (Some m, ∅) else disk_stored d r) /\
  (is_Some (disk_stored d q) -> is_error res WalletAlreadyExists /\ d' = d).
Proof using FL.
  intros Hd Hh Hc q. destruct (create_storage read_config home cwd id cfg cred m d) as [d' res] eqn:E.
  destruct (exists_ d q) eqn:Hex; [|destruct (existsb (fun r => bool_decide (is_Some (files d !! r))) (prefixes (parent q))) eqn:Hb].
  - unfold create_storage, sm_bind at 1, sm_lift in E. rewrite Hc in E. fold q in E. rewrite Hex in E.
    injection E as <- <-. split; [done|]. split; [done|]. split; [|done]. intros [Hf _]. congruence.
  - unfold create_storage, sm_bind at 1, sm_lift in E. rewrite Hc in E. fold q in E. rewrite Hex in E.
    unfold sm_bind at 1, create_dir_all in E. rewrite no_mkdir_error, Hb in E. injection E as <- <-.
    split; [done|]. split; [done|]. split.
    + intros [_ Hf]. apply existsb_elem in Hb as (r & Hr%elem_prefixes & Hs). rewrite Hf in Hs by done.
      by apply bool_decide_eq_true in Hs as [].
    + rewrite disk_stored_file by done. apply exists_false in Hex as [-> _]. by intros [].
  - assert (Hfree : disk_free d q) by (by apply disk_free_check).
    rewrite (create_storage_free d id cfg c cred m Hh Hc Hfree) in E. injection E as <- <-.
    destruct (new_file_ok d q (mkTables [m] [] [] []) Hd Hfree) as (H1 & H2 & H3).
    { split; cbn; try (apply NoDup_nil_2); by intros ? ?%not_elem_of_nil. }
    split; [done|]. split; [done|]. split; [by split|].
    rewrite disk_stored_file by done. apply exists_false in Hex as [-> _]. by intros [].
Qed.

(** A path without a file, as opening and deleting see it. *)
Lemma not_stored d q : disk_ok d -> disk_stored d q = None -> files d !! q = None.
Proof using Type.
  intros Hd Hs. apply eq_None_not_Some. rewrite <-disk_stored_file by done. rewrite Hs. by intros [].
Qed.

Lemma open_storage_law d id cfg c cred :
  disk_ok d -> no_faults -> parse_config read_config cfg = Ok c ->
  let q := _db_path home cwd id c in
  let (d', res) := open_storage read_config home cwd id cfg cred d in
  disk_ok d' /\ (forall r, disk_stored d' r = disk_stored d r) /\
  (forall k q', disk_conn_at d k = Some q' -> disk_conn_at d' k = Some q') /\
  if disk_stored d q then exists k, res = Ok k /\ disk_conn_at d k = None /\ disk_conn_at d' k = Some q
  else disk_free d q -> is_error res WalletNotFound /\ d' = d.
Proof using FL.
  intros Hd Hh Hc q. destruct (disk_stored d q) as [x|] eqn:Hs.
  - destruct (proj1 (disk_stored_file d q Hd) (ex_intro _ x Hs)) as [ino Hf].
    destruct (open_storage_file d id cfg c cred ino Hh Hd Hc Hf) as (f & -> & Hp & Hi & Hsp). fold q in Hp.
    destruct (new_conn_ok d (fresh (dom (conns d))) f ino Hd) as (H1 & H2 & H3 & H4 & H5);
      [apply not_elem_of_dom, is_fresh|by rewrite Hp|done|done|].
    split; [done|]. split; [done|]. split; [done|]. eexists. rewrite <-Hp. done.
  - apply not_stored in Hs; [|done]. unfold open_storage, sm_bind at 1, sm_lift. rewrite Hc. fold q.
    destruct (exists_ d q) eqn:Hex; cbn [negb].
    + unfold sm_bind at 1, connection_open. rewrite no_open_error, Hs.
      unfold exists_ in Hex. rewrite Hs in Hex. rewrite bool_decide_eq_false_2 in Hex by (by intros []).
      cbn [orb] in Hex. rewrite Hex. split; [done|]. split; [done|]. split; [done|].
      intros [[_ Hn]%exists_false _]. by apply bool_decide_eq_true in Hex.
    + split; [done|]. split; [done|]. split; [done|]. done.
Qed.

Lemma delete_storage_law d id cfg c cred :
  disk_ok d -> no_faults -> parse_config read_config cfg = Ok c ->
  let q := _db_path home cwd id c in
  let (d', res) := delete_storage read_config home cwd id cfg cred d in
  disk_ok d' /\
  if disk_stored d q then
    res = Ok () /\ disk_free d' q /\
    (forall r, disk_covers q r -> disk_stored d' r = None) /\
    (forall r, ~ disk_covers q r -> disk_stored d' r = disk_stored d r) /\
    (forall k r, disk_conn_at d k = Some r -> ~ disk_covers q r -> disk_conn_at d' k = Some r)
  else disk_free d q -> is_error res WalletNotFound /\ d' = d.
Proof using FL.
  intros Hd _ Hc q. unfold delete_storage, sm_bind at 1, sm_lift. rewrite Hc. fold q. clearbody q.
  destruct (remove_parent_ok d q Hd) as (d' & -> & H1 & H2 & H3). destruct (disk_stored d q) as [x|] eqn:Hs.
  - assert (Hf : is_Some (files d !! q)) by (apply disk_stored_file; eauto).
    destruct Hf as [ino Hf]. rewrite (exists_file d q ino Hf). cbn [negb]. split; [done|]. split; [done|].
    split; [apply H2; eauto|done].
  - destruct (exists_ d q) eqn:Hex; cbn [negb]; [|done]. split; [done|]. intros [Hn _]. congruence.
Qed.

#[export] Instance sqlite_type_laws :
  StorageTypeLaws (sqlite_world_laws p) (SQLiteStorageType p read_config home cwd).
Proof using FL.
  refine {| place_of := disk_place_of : _ -> _ -> _ -> option (@place _ _ _ _ (sqlite_world_laws p));
            free := disk_free : @world _ (sqlite_world p) -> @place _ _ _ _ (sqlite_world_laws p) -> Prop;
            covers := disk_covers : @place _ _ _ _ (sqlite_world_laws p) -> _ -> Prop |};
    cbn [world conn place stored conn_at world_ok healthy SQLiteStorage_laws sqlite_world sqlite_world_laws
         ty_create ty_open ty_delete SQLiteStorageType].
  - apply parent_prefix.
  - intros d k c q [H1 H2]. unfold state_of, with_state, sqlite_world, with_connection. by destruct (conns d !! k).
  - intros d q Hd [[Hq _]%exists_false _]. unfold disk_stored. by rewrite Hq.
  - intros d id cfg cred m q Hd Hh (c & Hc & ->)%disk_place_inv. set (q := _db_path home cwd id c).
    by apply create_storage_law.
  - intros d id cfg cred q Hd Hh (c & Hc & ->)%disk_place_inv. by apply open_storage_law.
  - intros d id cfg cred q Hd Hh (c & Hc & ->)%disk_place_inv. by apply delete_storage_law.
Defined.
End TypeLaws.

(** ** Properties *)
Section Properties.
Context (Q : Sqlite) (L : SqliteLaws Q) (F : FileSystem) (FL : FileSystemLaws F).
Context (read_config : string -> option SqliteConfig) (home cwd : Path).

(** The life of a storage.  On a disk without faults, with a readable configuration and
    a free path: creating a storage succeeds; it can then be opened, is empty, and gives
    back the metadata it was created with; creating it again is refused with
    [WalletAlreadyExists] and changes nothing; deleting it succeeds, and then it can be
    neither opened nor deleted ([WalletNotFound]).  Databases outside its directory are as
    they were before. *)
Theorem storage_lifecycle id config cfg cred m d :
  no_faults -> disk_ok d -> parse_config read_config config = Ok cfg ->
  let q := _db_path home cwd id cfg in
  disk_free d q ->
  exists d1 k d2 d3,
    create_storage read_config home cwd id config cred m d = (d1, Ok ()) /\
    open_storage read_config home cwd id config cred d1 = (d2, Ok k) /\
    conn_view (connection_of d2 k) = ∅ /\ (get_storage_metadata (connection_of d2 k)).2 = Ok m /\
    (exists e, create_storage read_config home cwd id config cred m d2 = (d2, Err e) /\
       err_kind e = WalletAlreadyExists) /\
    delete_storage read_config home cwd id config cred d2 = (d3, Ok ()) /\
    (exists e, open_storage read_config home cwd id config cred d3 = (d3, Err e) /\ err_kind e = WalletNotFound) /\
    (exists e, delete_storage read_config home cwd id config cred d3 = (d3, Err e) /\ err_kind e = WalletNotFound) /\
    disk_ok d3 /\ forall r, ~ parent q `prefix_of` r -> disk_stored d3 r = disk_stored d r.
Proof using L FL.
  intros Hh Hd Hc q Hfree.
  pose proof (create_storage_law read_config home cwd d id config cfg cred m Hd Hh Hc) as H1.
  destruct (create_storage _ _ _ id config cred m d) as [d1 r1]. destruct H1 as (Hd1 & _ & H1 & _).
  destruct (H1 Hfree) as [-> Hs1]. fold q in Hs1. assert (Hq1 : disk_stored d1 q = Some (Some m, ∅)) by (rewrite Hs1; by destruct (decide _)).
  pose proof (open_storage_law read_config home cwd d1 id config cfg cred Hd1 Hh Hc) as H2.
  destruct (open_storage _ _ _ id config cred d1) as [d2 r2] eqn:E2. destruct H2 as (Hd2 & Hs2 & _ & H2).
  fold q in H2. rewrite Hq1 in H2. destruct H2 as (k & -> & _ & Hk).
  destruct (connection_of_ok d2 k q Hd2 Hk) as [Hconn Hst]. rewrite Hs2, Hq1 in Hst. injection Hst as Hm Hv.
  pose proof (create_storage_law read_config home cwd d2 id config cfg cred m Hd2 Hh Hc) as H3. fold q in H3.
  destruct (create_storage _ _ _ id config cred m d2) as [d2' r3] eqn:E3. destruct H3 as (_ & _ & _ & H3).
  destruct H3 as [(e3 & -> & K3)%is_error_inv ->]; [rewrite Hs2, Hq1; by eexists|].
  pose proof (delete_storage_law read_config home cwd d2 id config cfg cred Hd2 Hh Hc) as H4. fold q in H4.
  destruct (delete_storage _ _ _ id config cred d2) as [d3 r4] eqn:E4. destruct H4 as (Hd3 & H4).
  rewrite Hs2, Hq1 in H4. destruct H4 as (-> & Hfree3 & Hcov & Hkeep & _).
  assert (Hq3 : disk_stored d3 q = None) by apply Hcov, parent_prefix.
  pose proof (open_storage_law read_config home cwd d3 id config cfg cred Hd3 Hh Hc) as H5. fold q in H5.
  destruct (open_storage _ _ _ id config cred d3) as [d3' r5] eqn:E5.
  destruct H5 as (_ & _ & _ & H5). rewrite Hq3 in H5. destruct (H5 Hfree3) as [(e5 & -> & K5)%is_error_inv ->].
  pose proof (delete_storage_law read_config home cwd d3 id config cfg cred Hd3 Hh Hc) as H6. fold q in H6.
  destruct (delete_storage _ _ _ id config cred d3) as [d3' r6] eqn:E6.
  destruct H6 as (_ & H6). rewrite Hq3 in H6. destruct (H6 Hfree3) as [(e6 & -> & K6)%is_error_inv ->].
  exists d1, k, d2, d3. do 3 (split; [done|]). split.
  { pose proof (get_metadata_law (connection_of d2 k) Hconn) as Hg.
    destruct (get_storage_metadata (connection_of d2 k)) as [c r]. destruct Hg as (_ & _ & _ & _ & Hg). by apply Hg. }
    split; [eauto|]. split; [done|]. split; [eauto|]. split; [eauto|]. split; [done|].
  intros r Hr. rewrite Hkeep by done. rewrite Hs2, Hs1. destruct (decide (r = q)) as [->|]; [|done].
  exfalso. apply Hr, parent_prefix.
Qed.
End Properties.

(** ** Examples *)
Definition demo_read_config (s : string) : option SqliteConfig :=
  if String.eqb s "bad" then None else Some (mkSqliteConfig (Some s)).

#[export] Instance demo_fs : FileSystem := {|
  mkdir_error _ := None;
  open_error _ := None;
  remove_error _ := None;
  remove_dir_error _ := None;
  journal_wal _ := true
|}.
#[export] Instance demo_fs_laws : FileSystemLaws demo_fs.
Proof. by split. Qed.

Definition empty_disk : Disk := mkDisk ∅ ∅ ∅ ∅.
Lemma empty_disk_ok : disk_ok empty_disk.
Proof. split; cbn; intros *; by rewrite lookup_empty. Qed.

Lemma demo_no_faults : @no_faults (demo_sqlite true [] []).
Proof. split; [done|]. intros ids. by eexists. Qed.

Lemma storage_lifecycle_witness :
  let Q := demo_sqlite true [] [] in
  let home := ["home"] in
  let q := ["tmp"; "w"; "sqlite.db"] in
  exists d1 k d2 d3,
    create_storage demo_read_config home [] "w" (Some "/tmp") None [5]%Z empty_disk = (d1, Ok ()) /\
    open_storage demo_read_config home [] "w" (Some "/tmp") None d1 = (d2, Ok k) /\
    conn_view (connection_of d2 k) = ∅ /\ (get_storage_metadata (connection_of d2 k)).2 = Ok [5]%Z /\
    (exists e, create_storage demo_read_config home [] "w" (Some "/tmp") None [5]%Z d2 = (d2, Err e) /\
       err_kind e = WalletAlreadyExists) /\
    delete_storage demo_read_config home [] "w" (Some "/tmp") None d2 = (d3, Ok ()) /\
    (exists e, open_storage demo_read_config home [] "w" (Some "/tmp") None d3 = (d3, Err e) /\ err_kind e = WalletNotFound) /\
    (exists e, delete_storage demo_read_config home [] "w" (Some "/tmp") None d3 = (d3, Err e) /\ err_kind e = WalletNotFound) /\
    disk_ok d3 /\ forall r, ~ parent q `prefix_of` r -> disk_stored d3 r = disk_stored empty_disk r.
Proof.
  exact (storage_lifecycle (demo_sqlite true [] []) (demo_sqlite_laws []) demo_fs demo_fs_laws demo_read_config
    ["home"] [] "w" (Some "/tmp") (Some (mkSqliteConfig (Some "/tmp"))) None [5]%Z empty_disk
    demo_no_faults empty_disk_ok eq_refl (conj eq_refl (fun r _ => lookup_empty r))).
Defined.

(** Deleting a wallet removes its directory: a wallet whose id puts it below goes with it,
    and a wallet with the id [.] takes all others along. *)
Theorem delete_takes_nested_wallets :
  let Q := demo_sqlite true [] [] in
  let create id := create_storage demo_read_config ["home"] [] id None None [0]%Z in
  let delete id := delete_storage demo_read_config ["home"] [] id None None in
  let open id := open_storage demo_read_config ["home"] [] id None None in
  ((let* _ := create "a" in let* _ := create "a/b" in let* _ := delete "a" in open "a/b") empty_disk).2 =
    Err (err_msg WalletNotFound "No wallet database exists") /\
  ((let* _ := create "alice" in let* _ := create "." in let* _ := delete "." in open "alice") empty_disk).2 =
    Err (err_msg WalletNotFound "No wallet database exists").
Proof. split; vm_compute; reflexivity. Qed.
