(* ===== verification/Wallet.v ===== *)
(** * Wallet operations

    [Wallet] of [libindy/indy-wallet/src/wallet.rs] and [WalletIterator] of [iterator.rs]
    over any storage that keeps the contract of [WalletStorage].  The specification is a
    plaintext map from (type, name) to a value and tags: the theorems show that the
    encrypted wallet behaves as that map, so that encryption is transparent to callers.

    Fresh keys and nonces are arguments of the operations that draw them. *)

From stdpp Require Import base list strings numbers gmap.
From Stdlib Require Import ZArith Lia.
From S2P Require Import Prelude Json Wql WalletCrypto WalletQuery WalletStorage SqliteStorage Errors.

Open Scope string_scope.

(** What [EncryptedValue::encrypt] draws: a key and two nonces. *)
Record Randomness := mkRandomness { rnd_key : bytes; rnd_nonce1 : bytes; rnd_nonce2 : bytes }.
Definition randomness_ok (r : Randomness) : Prop :=
  length (rnd_key r) = KEYBYTES /\ length (rnd_nonce1 r) = NONCEBYTES /\ length (rnd_nonce2 r) = NONCEBYTES.

Section Wallet.
Context {S : Sodium} {C : OptionsCodec} {W : WalletStorage}.

(** [Wallet]; its storage is the state of the operations. *)
Record Wallet := mkWallet { wallet_id : string; wallet_keys : Keys }.

Definition encrypted_type (self : Wallet) (type_ : string) : bytes :=
  encrypt_as_searchable (as_bytes type_) (type_key (wallet_keys self)) (item_hmac_key (wallet_keys self)).
Definition encrypted_name (self : Wallet) (name : string) : bytes :=
  encrypt_as_searchable (as_bytes name) (name_key (wallet_keys self)) (item_hmac_key (wallet_keys self)).
Definition encrypted_tags (self : Wallet) (tags : list (string * string)) : list Tag :=
  encrypt_tags tags (tag_name_key (wallet_keys self)) (tag_value_key (wallet_keys self))
    (tags_hmac_key (wallet_keys self)).
Definition encrypted_value (self : Wallet) (rnd : Randomness) (value : string) : EncryptedValue :=
  ev_encrypt (rnd_key rnd) (rnd_nonce1 rnd) (rnd_nonce2 rnd) value (value_key (wallet_keys self)).

Definition wallet_add (self : Wallet) (rnd : Randomness) (type_ name value : string)
    (tags : list (string * string)) : SM storage unit :=
  let etype := encrypted_type self type_ in
  let ename := encrypted_name self name in
  let evalue := encrypted_value self rnd value in
  let etags := encrypted_tags self tags in
  let* _ := st_add etype ename evalue etags in
  sm_ret ().

Definition wallet_add_tags (self : Wallet) (type_ name : string) (tags : list (string * string))
  : SM storage unit :=
  let* _ := st_add_tags (encrypted_type self type_) (encrypted_name self name) (encrypted_tags self tags) in
  sm_ret ().

Definition wallet_update_tags (self : Wallet) (type_ name : string) (tags : list (string * string))
  : SM storage unit :=
  let* _ := st_update_tags (encrypted_type self type_) (encrypted_name self name) (encrypted_tags self tags) in
  sm_ret ().

Definition wallet_delete_tags (self : Wallet) (type_ name : string) (tag_names : list string)
  : SM storage unit :=
  let encrypted_tag_names :=
    encrypt_tag_names tag_names (tag_name_key (wallet_keys self)) (tags_hmac_key (wallet_keys self)) in
  let* _ := st_delete_tags (encrypted_type self type_) (encrypted_name self name) encrypted_tag_names in
  sm_ret ().

Definition wallet_update (self : Wallet) (rnd : Randomness) (type_ name new_value : string)
  : SM storage unit :=
  let* _ := st_update (encrypted_type self type_) (encrypted_name self name)
              (encrypted_value self rnd new_value) in
  sm_ret ().

Definition wallet_get (self : Wallet) (type_ name options : string) : SM storage WalletRecord :=
  let* result := st_get (encrypted_type self type_) (encrypted_name self name) options in
  let* value := sm_lift (match sr_value result with
                         | None => Ok None
                         | Some ev => out_map Some (ev_decrypt ev (value_key (wallet_keys self)))
                         end) in
  let* tags := sm_lift (decrypt_tags (sr_tags result) (tag_name_key (wallet_keys self))
                          (tag_value_key (wallet_keys self))) in
  sm_ret (mkWalletRecord name ((fun _ => type_) <$> sr_type result) value tags).

Definition wallet_delete (self : Wallet) (type_ name : string) : SM storage unit :=
  let* _ := st_delete (encrypted_type self type_) (encrypted_name self name) in
  sm_ret ().

(** [search]; the query is the JSON value of the text. *)
Definition wallet_search (self : Wallet) (type_ : string) (query : Value) (options : option string)
  : SM storage iter :=
  let* parsed_query :=
    match deserialize query with
    | RErr msg => sm_fail (query_error msg)
    | ROk q => sm_ret (match optimise q with Some q' => q' | None => query_default end)
    end in
  let* encrypted_query := sm_lift (encrypt_query parsed_query (wallet_keys self)) in
  st_search (encrypted_type self type_) encrypted_query options.

Definition wallet_close : SM storage unit := st_close.
Definition wallet_get_all : SM storage iter := st_get_all.

(** [WalletIterator::next] and [get_total_count]. *)
Definition wallet_next (self : Wallet) : SM (storage * iter) (option WalletRecord) :=
  let* next_storage_entity := it_next in
  match next_storage_entity with
  | Some r => sm_lift (out_map Some (decrypt_storage_record r (wallet_keys self)))
  | None => sm_ret None
  end.
Definition wallet_total_count (i : iter) : SM storage (option nat) := it_total_count i.

(** Calling [next] until there is no record; [fuel] bounds the number of calls. *)
Fixpoint drain (self : Wallet) (fuel : nat) : SM (storage * iter) (list WalletRecord) :=
  match fuel with
  | 0 => fun s => (s, Panic)
  | Datatypes.S fuel' =>
      let* r := wallet_next self in
      match r with
      | None => sm_ret []
      | Some r => let* rs := drain self fuel' in sm_ret (r :: rs)
      end
  end.
End Wallet.

(** ** The specification *)
Record PlainRecord := mkPlainRecord { pr_value : string; pr_tags : gmap string string }.
Abbreviation PlainWallet := (gmap (string * string) PlainRecord).

Inductive WalletOp :=
  | WAdd (rnd : Randomness) (t n v : string) (tags : list (string * string))
  | WUpdate (rnd : Randomness) (t n v : string)
  | WAddTags (t n : string) (tags : list (string * string))
  | WUpdateTags (t n : string) (tags : list (string * string))
  | WDeleteTags (t n : string) (names : list string)
  | WDelete (t n : string).

Definition rust_tags (l : list (string * string)) : Prop :=
  NoDup l.*1 /\ Forall (fun nv => rust_string nv.1 /\ rust_string nv.2) l.

Definition wallet_op_valid (o : WalletOp) : Prop :=
  match o with
  | WAdd rnd t n v l => randomness_ok rnd /\ rust_string t /\ rust_string n /\ rust_string v /\ rust_tags l
  | WUpdate rnd t n v => randomness_ok rnd /\ rust_string t /\ rust_string n /\ rust_string v
  | WAddTags t n l | WUpdateTags t n l => rust_string t /\ rust_string n /\ rust_tags l
  | WDeleteTags t n _ | WDelete t n => rust_string t /\ rust_string n
  end.

Definition on_record (k : string * string) (f : PlainRecord -> PlainRecord) (w : PlainWallet)
  : option PlainWallet := (fun r => <[k := f r]> w) <$> w !! k.

(** The new map, or [None] when the operation must fail. *)
Definition wallet_spec (o : WalletOp) (w : PlainWallet) : option PlainWallet :=
  match o with
  | WAdd _ t n v l =>
      match w !! (t, n) with
      | Some _ => None
      | None => Some (<[(t, n) := mkPlainRecord v (list_to_map l)]> w)
      end
  | WUpdate _ t n v => on_record (t, n) (fun r => mkPlainRecord v (pr_tags r)) w
  | WAddTags t n l =>
      on_record (t, n) (fun r => mkPlainRecord (pr_value r) (list_to_map l ∪ pr_tags r)) w
  | WUpdateTags t n l => on_record (t, n) (fun r => mkPlainRecord (pr_value r) (list_to_map l)) w
  | WDeleteTags t n l =>
      on_record (t, n) (fun r => mkPlainRecord (pr_value r) (foldl (fun m x => base.delete x m) (pr_tags r) l)) w
  | WDelete t n => (fun _ => base.delete (t, n) w) <$> w !! (t, n)
  end.
Definition wallet_error (o : WalletOp) : IndyErrorKind :=
  match o with WAdd _ _ _ _ _ => WalletItemAlreadyExists | _ => WalletItemNotFound end.

Definition run_wallet_op `{Sodium} {W : WalletStorage} (self : Wallet) (o : WalletOp) : SM storage unit :=
  match o with
  | WAdd rnd t n v l => wallet_add self rnd t n v l
  | WUpdate rnd t n v => wallet_update self rnd t n v
  | WAddTags t n l => wallet_add_tags self t n l
  | WUpdateTags t n l => wallet_update_tags self t n l
  | WDeleteTags t n l => wallet_delete_tags self t n l
  | WDelete t n => wallet_delete self t n
  end.

(** ** Encryption of keys and tags *)
Section Facts.
Context {S : Sodium} {SL : SodiumLaws S} (self : Wallet).

Definition wkey (k : string * string) : bytes * bytes :=
  (encrypted_type self k.1, encrypted_name self k.2).
Lemma wkey_ok t n : key_ok (encrypted_type self t) (encrypted_name self n).
Proof using SL. split; apply searchable_not_empty. Qed.
#[local] Instance wkey_inj : Inj (=) (=) wkey.
Proof using SL.
  intros [t n] [t' n'] [= Ht Hn]. cbn in Ht, Hn.
  apply searchable_inj, as_bytes_inj in Ht. apply searchable_inj, as_bytes_inj in Hn. congruence.
Qed.

Definition encrypt_one (nv : string * string) : Tag :=
  encrypt_tag (tag_name_key (wallet_keys self)) (tag_value_key (wallet_keys self))
    (tags_hmac_key (wallet_keys self)) nv.
Definition tkey (n : string) : StorageTagName := tag_name (encrypt_one (n, "")).

Lemma tag_name_encrypt n v : tag_name (encrypt_one (n, v)) = tkey n.
Proof using Type. unfold tkey, encrypt_one, encrypt_tag. by destruct (starts_with_char tilde n). Qed.

#[local] Instance tkey_inj : Inj (=) (=) tkey.
Proof using SL.
  intros n n'. unfold tkey, encrypt_one, encrypt_tag.
  destruct (starts_with_char tilde n) eqn:E, (starts_with_char tilde n') eqn:E'; cbn; try done.
  - intros [= H]. apply starts_with_tilde in E as [t ->], E' as [t' ->].
    change (drop 1 (as_bytes ("~" +:+ t))) with (as_bytes t) in H.
    change (drop 1 (as_bytes ("~" +:+ t'))) with (as_bytes t') in H.
    by apply searchable_inj, as_bytes_inj in H as ->.
  - intros [= H]. by apply searchable_inj, as_bytes_inj in H.
Qed.

Lemma encrypt_tag_names_fmap l :
  encrypt_tag_names l (tag_name_key (wallet_keys self)) (tags_hmac_key (wallet_keys self)) = tkey <$> l.
Proof using Type.
  unfold encrypt_tag_names. change (map ?f l) with (f <$> l). apply list_fmap_ext. intros _ n _.
  unfold tkey, encrypt_one, encrypt_tag. by destruct (starts_with_char tilde n).
Qed.

(** The encrypted form of a tag map. *)
Definition enc_tags (m : gmap string string) : TagMap :=
  kmap tkey (map_imap (fun n v => Some (encrypt_one (n, v))) m).

Lemma enc_tags_empty : enc_tags ∅ = ∅.
Proof using Type. unfold enc_tags. rewrite map_imap_empty. apply kmap_empty. Qed.

Lemma enc_tags_insert n v m : enc_tags (<[n := v]> m) = <[tkey n := encrypt_one (n, v)]> (enc_tags m).
Proof using SL. unfold enc_tags. rewrite (map_imap_insert_Some _ n v m (encrypt_one (n, v))) by done.
  by rewrite (kmap_insert tkey). Qed.

Lemma enc_tags_delete n m : enc_tags (base.delete n m) = base.delete (tkey n) (enc_tags m).
Proof using SL. unfold enc_tags. rewrite map_imap_delete. by rewrite (kmap_delete tkey). Qed.

Lemma put_encrypted l m :
  put_tags (encrypted_tags self l) (enc_tags m) = enc_tags (foldl (fun m nv => <[nv.1 := nv.2]> m) m l).
Proof using SL.
  unfold put_tags. revert m. induction l as [|[n v] l IH]; intros m; [done|].
  cbn [encrypted_tags encrypt_tags map foldl]. rewrite <-IH. f_equal. cbn [fst snd].
  rewrite enc_tags_insert. by rewrite <-(tag_name_encrypt n v).
Qed.

Lemma foldl_insert_union (l : list (string * string)) (m : gmap string string) :
  NoDup l.*1 -> foldl (fun m nv => <[nv.1 := nv.2]> m) m l = list_to_map l ∪ m.
Proof using Type.
  intros Hnd. apply map_eq. intros n. rewrite foldl_insert_lookup by done.
  rewrite lookup_union. destruct (list_to_map l !! n), (m !! n); done.
Qed.

Lemma encrypted_names_NoDup l : NoDup l.*1 -> NoDup (tag_name <$> encrypted_tags self l).
Proof using SL.
  intros Hnd. unfold encrypted_tags, encrypt_tags. change (map ?f l) with (f <$> l).
  rewrite <-list_fmap_compose.
  erewrite (list_fmap_ext _ (tkey ∘ fst)); [|intros _ [n v] _; apply tag_name_encrypt].
  rewrite list_fmap_compose. by apply NoDup_fmap_2; [apply _|].
Qed.

Lemma tag_map_encrypted l : NoDup l.*1 -> tag_map (encrypted_tags self l) = enc_tags (list_to_map l).
Proof using SL.
  intros Hnd. rewrite <-put_tags_map by (by apply encrypted_names_NoDup).
  rewrite <-enc_tags_empty, put_encrypted, foldl_insert_union by done.
  by rewrite (right_id_L ∅ (∪)).
Qed.

Lemma drop_encrypted l m :
  drop_tags (tkey <$> l) (enc_tags m) = enc_tags (foldl (fun m x => base.delete x m) m l).
Proof using SL.
  unfold drop_tags. revert m. induction l as [|n l IH]; intros m; [done|].
  cbn [fmap list_fmap foldl]. by rewrite <-enc_tags_delete, IH.
Qed.

(** ** The encrypted wallet stands for a plaintext one *)
Definition item_rep (i : SItem) (r : PlainRecord) : Prop :=
  ev_decrypt (si_value i) (value_key (wallet_keys self)) = Ok (pr_value r) /\
  si_tags i = enc_tags (pr_tags r) /\
  map_Forall (fun n v => rust_string n /\ rust_string v) (pr_tags r) /\ rust_string (pr_value r).

Definition represents (v : View) (w : PlainWallet) : Prop :=
  map_Forall (fun k _ => rust_string k.1 /\ rust_string k.2) w /\
  exists e : gmap (string * string) SItem, v = kmap wkey e /\ map_Forall2 (fun _ => item_rep) e w.

Lemma represents_empty : represents ∅ ∅.
Proof using Type.
  split; [apply map_Forall_empty|]. exists ∅. split; [by rewrite kmap_empty|apply map_Forall2_empty].
Qed.

Lemma represents_lookup v w k :
  represents v w -> option_Forall2 item_rep (v !! wkey k) (w !! k).
Proof using SL. intros (_ & e & -> & He). rewrite (lookup_kmap wkey). apply He. Qed.

Lemma represents_insert v w k i r :
  represents v w -> rust_string k.1 -> rust_string k.2 -> item_rep i r ->
  represents (<[wkey k := i]> v) (<[k := r]> w).
Proof using SL.
  intros (Hk & e & -> & He) H1 H2 Hi. split; [by apply map_Forall_insert_2|].
  exists (<[k := i]> e). split; [by rewrite (kmap_insert wkey)|]. by apply map_Forall2_insert_2.
Qed.

Lemma represents_delete v w k : represents v w -> represents (base.delete (wkey k) v) (base.delete k w).
Proof using SL.
  intros (Hk & e & -> & He). split; [by apply map_Forall_delete|].
  exists (base.delete k e). split; [by rewrite (kmap_delete wkey)|]. by apply map_Forall2_delete.
Qed.

Lemma rust_tags_map l m :
  rust_tags l -> map_Forall (fun n v => rust_string n /\ rust_string v) m ->
  map_Forall (fun n v => rust_string n /\ rust_string v) (list_to_map l ∪ m : gmap string string).
Proof using Type.
  intros [Hnd Hl] Hm n v. rewrite lookup_union_Some_raw.
  intros [H|[_ H]]; [|by apply (Hm n v)].
  apply elem_of_list_to_map_2 in H. by apply (proj1 (Forall_forall _ _) Hl (n, v)).
Qed.

(** The tags of an item are the encryptions of its plaintext tags, in some order. *)
Lemma enc_tags_list l m :
  NoDup (tag_name <$> l) -> tag_map l = enc_tags m ->
  exists l', l = encrypted_tags self l' /\ l' ≡ₚ map_to_list m.
Proof using SL.
  intros Hnd Ht.
  assert (Hp : l ≡ₚ encrypted_tags self (map_to_list m)).
  { apply NoDup_Permutation.
    - by eapply NoDup_fmap_1.
    - eapply (NoDup_fmap_1 tag_name). apply encrypted_names_NoDup, NoDup_fst_map_to_list.
    - intros t. assert (Hl : t ∈ l <-> tag_map l !! tag_name t = Some t)
        by (rewrite tag_map_lookup by done; naive_solver).
      rewrite Hl, Ht, <-(list_to_map_to_list m) at 1.
      rewrite <-tag_map_encrypted by apply NoDup_fst_map_to_list.
      rewrite tag_map_lookup by (apply encrypted_names_NoDup, NoDup_fst_map_to_list). naive_solver. }
  apply Permutation_map_inv in Hp as (l' & -> & Hl'). by exists l'.
Qed.

Lemma permuted_names (l : list (string * string)) (m : gmap string string) :
  l ≡ₚ map_to_list m -> NoDup l.*1 /\ list_to_map l = m.
Proof using Type.
  intros Hl. assert (Hnd : NoDup l.*1) by (rewrite Hl; apply NoDup_fst_map_to_list).
  split; [done|]. rewrite (list_to_map_proper l (map_to_list m)) by done. apply list_to_map_to_list.
Qed.

Lemma decrypt_item_tags l m :
  NoDup (tag_name <$> l) -> tag_map l = enc_tags m ->
  map_Forall (fun n v => rust_string n /\ rust_string v) m ->
  decrypt_tags (Some l) (tag_name_key (wallet_keys self)) (tag_value_key (wallet_keys self)) = Ok (Some m).
Proof using SL.
  intros Hnd Ht Hm. destruct (enc_tags_list l m Hnd Ht) as (l' & -> & Hl').
  destruct (permuted_names l' m Hl') as [Hnd' <-]. apply decrypt_tags_encrypted; [done|].
  apply Forall_forall. intros [n v] Hx. apply (Hm n v), elem_of_list_to_map; done.
Qed.
End Facts.

(** ** Refinement *)
Section Refinement.
Context {S : Sodium} {SL : SodiumLaws S} {C : OptionsCodec} {W : WalletStorage} {WL : StorageLaws W}.
Context (self : Wallet).

Lemma bind_unit {T} (m : SM T unit) s : (let* _ := m in sm_ret ()) s = m s.
Proof using Type. unfold sm_bind, sm_ret. destruct (m s) as [s' [[]|e|]]; done. Qed.

(** The result of an operation against the specification. *)
Definition wallet_follows (o : WalletOp) (w : PlainWallet) (v' : View) (r : outcome unit) : Prop :=
  match r with
  | Ok _ => exists w', wallet_spec o w = Some w' /\ represents self v' w'
  | Err e => represents self v' w /\ (healthy -> wallet_spec o w = None /\ err_kind e = wallet_error o)
  | Panic => False
  end.

Lemma follows_on_record (o : WalletOp) (v v' : View) (w : PlainWallet) (r : outcome unit) (t n : string) f g :
  represents self v w -> rust_string t -> rust_string n ->
  wallet_spec o w = on_record (t, n) g w -> wallet_error o = WalletItemNotFound ->
  (forall i x, item_rep self i x -> item_rep self (f i) (g x)) ->
  changes v v' r (wkey self (t, n)) (f <$> v !! wkey self (t, n)) ->
  (r = Ok () -> is_Some (v !! wkey self (t, n))) ->
  (healthy -> if v !! wkey self (t, n) then r = Ok () else is_error r WalletItemNotFound) ->
  wallet_follows o w v' r.
Proof using SL.
  intros Hrep Ht Hn Hspec Herr Hfg Hc Hs Hh. unfold wallet_follows. rewrite Hspec, Herr. unfold on_record.
  pose proof (represents_lookup self v w (t, n) Hrep) as Hl.
  destruct r as [[]|e|]; cbn [changes] in Hc; [| |done].
  - destruct (Hs eq_refl) as [i Hi]. rewrite Hi in Hl, Hc. inversion Hl as [? x Hx E1 E2|]; subst.
    eexists. split; [done|]. cbn [fmap option_fmap option_map]. apply represents_insert; auto.
  - subst v'. split; [done|]. intros Hn'. specialize (Hh Hn').
    destruct (v !! wkey self (t, n)) as [i|]; [done|]. inversion Hl. split; [done|]. by inversion Hh.
Qed.

Lemma wallet_op_follows o s s' r w :
  st_ok s -> represents self (view s) w -> wallet_op_valid o -> run_wallet_op self o s = (s', r) ->
  st_ok s' /\ wallet_follows o w (view s') r.
Proof using SL.
  intros Hok Hrep Hv H.
  destruct o as [rnd t n v l|rnd t n v|t n l|t n l|t n l|t n]; cbn [wallet_op_valid] in Hv;
    cbn [run_wallet_op] in H.
  - unfold wallet_add in H. rewrite bind_unit in H. destruct Hv as ((Hk & H1 & H2) & Ht & Hn & Hval & Htags).
    apply law_add in H as (Hok' & Hc & Hs & Hh); [|done|apply wkey_ok|by apply ev_encrypt_ok|by apply encrypted_names_NoDup, Htags].
    split; [done|]. pose proof (represents_lookup self (view s) w (t, n) Hrep) as Hl.
    unfold wallet_follows. cbn [wallet_spec wallet_error]. fold (wkey self (t, n)) in *.
    change (encrypted_type self t, encrypted_name self n) with (wkey self (t, n)) in *.
    destruct r as [[]|e|]; cbn [changes] in Hc; [| |done].
    + rewrite Hs in Hl by done. inversion Hl. eexists. split; [done|]. rewrite Hc.
      apply represents_insert; [done..|]. split; [by apply ev_decrypt_encrypt|]. cbn [si_tags pr_tags].
      split; [apply tag_map_encrypted, Htags|].
      split; [|done].
      rewrite <-(right_id_L ∅ (∪) (list_to_map l)). apply rust_tags_map; [done|apply map_Forall_empty].
    + rewrite Hc. split; [done|]. intros Hh'. specialize (Hh Hh').
      destruct (view s !! wkey self (t, n)); [|done]. inversion Hl. split; [done|]. by inversion Hh.
  - unfold wallet_update in H. rewrite bind_unit in H. destruct Hv as ((Hk & H1 & H2) & Ht & Hn & Hval).
    apply law_update in H as (Hok' & Hc & Hs & Hh); [|done|apply wkey_ok|by apply ev_encrypt_ok]. split; [done|].
    eapply (follows_on_record _ _ _ _ _ t n); [exact Hrep|done|done|reflexivity|reflexivity| |exact Hc|exact Hs|exact Hh].
    cbv beta. intros i x (_ & Htg & Hr & _). split; [by apply ev_decrypt_encrypt|done].
  - unfold wallet_add_tags in H. rewrite bind_unit in H. destruct Hv as (Ht & Hn & Htags).
    apply law_add_tags in H as (Hok' & Hc & Hs & Hh); [|done|apply wkey_ok]. split; [done|].
    eapply (follows_on_record _ _ _ _ _ t n); [exact Hrep|done|done|reflexivity|reflexivity| |exact Hc|exact Hs|exact Hh].
    cbv beta. intros i x (Hval & Htg & Hr & Hrv). split; [done|]. cbn [si_tags pr_tags].
    rewrite Htg, put_encrypted, foldl_insert_union by apply Htags. split; [done|].
    split; [by apply rust_tags_map|done].
  - unfold wallet_update_tags in H. rewrite bind_unit in H. destruct Hv as (Ht & Hn & Htags).
    apply law_update_tags in H as (Hok' & Hc & Hs & Hh); [|done|apply wkey_ok|by apply encrypted_names_NoDup, Htags].
    split; [done|]. eapply (follows_on_record _ _ _ _ _ t n); [exact Hrep|done|done|reflexivity|reflexivity| |exact Hc|exact Hs|exact Hh].
    cbv beta. intros i x (Hval & Htg & Hr & Hrv). split; [done|].
    cbn [si_tags pr_tags]. split; [apply tag_map_encrypted, Htags|]. split; [|done].
    rewrite <-(right_id_L ∅ (∪) (list_to_map l)). apply rust_tags_map; [done|apply map_Forall_empty].
  - unfold wallet_delete_tags in H. rewrite bind_unit, encrypt_tag_names_fmap in H. destruct Hv as (Ht & Hn).
    apply law_delete_tags in H as (Hok' & Hc & Hs & Hh); [|done|apply wkey_ok]. split; [done|].
    eapply (follows_on_record _ _ _ _ _ t n); [exact Hrep|done|done|reflexivity|reflexivity| |exact Hc|exact Hs|exact Hh].
    cbv beta. intros i x (Hval & Htg & Hr & Hrv). split; [done|]. cbn [si_tags pr_tags].
    rewrite Htg, drop_encrypted. split; [done|]. split; [|done].
    clear -Hr. revert Hr. generalize (pr_tags x) as m. induction l as [|y l IH]; intros m Hm; [done|].
    cbn [foldl]. by apply IH, map_Forall_delete.
  - unfold wallet_delete in H. rewrite bind_unit in H. destruct Hv as (Ht & Hn).
    apply law_delete in H as (Hok' & Hc & Hs & Hh); [|done|apply wkey_ok]. split; [done|].
    pose proof (represents_lookup self (view s) w (t, n) Hrep) as Hl.
    unfold wallet_follows. cbn [wallet_spec wallet_error].
    change (encrypted_type self t, encrypted_name self n) with (wkey self (t, n)) in *.
    destruct r as [[]|e|]; cbn [changes] in Hc; [| |done].
    + destruct (Hs eq_refl) as [i Hi]. rewrite Hi in Hl. inversion Hl as [? x Hx E1 E2|]; subst.
      eexists. split; [done|]. rewrite Hc. by apply represents_delete.
    + rewrite Hc. split; [done|]. intros Hh'. specialize (Hh Hh').
      destruct (view s !! wkey self (t, n)); [done|]. inversion Hl. split; [done|]. by inversion Hh.
Qed.

(** *** Reading *)
Definition shown (o : RecordOptions) (k : string * string) (r : PlainRecord) : WalletRecord :=
  mkWalletRecord k.2 (if retrieve_type o then Some k.1 else None)
    (if retrieve_value o then Some (pr_value r) else None)
    (if retrieve_tags o then Some (pr_tags r) else None).

Lemma decrypt_record_tags o k i r rec :
  item_rep self i r -> record_of o k i rec ->
  decrypt_tags (sr_tags rec) (tag_name_key (wallet_keys self)) (tag_value_key (wallet_keys self)) =
  Ok (if retrieve_tags o then Some (pr_tags r) else None).
Proof using SL.
  intros (_ & Ht & Hr & _) (_ & _ & _ & Htags). destruct (retrieve_tags o); [|by rewrite Htags].
  destruct Htags as (l & -> & Hnd & Hl). apply decrypt_item_tags; [done|congruence|done].
Qed.

Lemma decrypt_record o k i r rec :
  rust_string k.1 -> rust_string k.2 -> item_rep self i r -> record_of o (wkey self k) i rec ->
  decrypt_storage_record rec (wallet_keys self) = Ok (shown o k r).
Proof using SL.
  intros H1 H2 Hi Hrec. pose proof (decrypt_record_tags _ _ _ _ _ Hi Hrec) as Htags.
  destruct Hrec as (Hid & Hval & Hty & _). unfold decrypt_storage_record.
  rewrite Hid, Hval, Hty, Htags. cbn [wkey fst snd]. unfold encrypted_name, encrypted_type.
  rewrite decrypt_searchable. cbn [obind]. unfold to_utf8 at 1. rewrite from_utf8_as_bytes by done.
  cbn [obind]. destruct Hi as (Hv & _). unfold shown.
  destruct (retrieve_value o), (retrieve_type o); cbn [out_map obind]; rewrite ?Hv; cbn [out_map obind];
    rewrite ?decrypt_searchable; cbn [obind]; unfold to_utf8; rewrite ?from_utf8_as_bytes by done; done.
Qed.

Lemma wallet_get_shows s s' r w t n options :
  st_ok s -> represents self (view s) w -> rust_string t -> rust_string n ->
  wallet_get self t n options s = (s', r) ->
  st_ok s' /\ view s' = view s /\ r <> Panic /\
  (forall rec, r = Ok rec -> exists o x,
     options_of_get options = Some o /\ w !! (t, n) = Some x /\ rec = shown o (t, n) x) /\
  (healthy -> forall o, options_of_get options = Some o ->
     if w !! (t, n) then exists rec, r = Ok rec else is_error r WalletItemNotFound).
Proof using SL.
  intros Hok Hrep Ht Hn. unfold wallet_get.
  destruct (st_get (encrypted_type self t) (encrypted_name self n) options s) as [s1 r1] eqn:E.
  pose proof E as E'. apply law_get in E' as (Hok1 & Hv1 & Hp1 & Hr1 & Hh1); [|done|apply wkey_ok].
  change (encrypted_type self t, encrypted_name self n) with (wkey self (t, n)) in *.
  pose proof (represents_lookup self (view s) w (t, n) Hrep) as Hl.
  destruct r1 as [rec|e|]; [| |done].
  - destruct (Hr1 rec eq_refl) as (o & i & Ho & Hi & Hrec). rewrite Hi in Hl.
    inversion Hl as [? x Hx E1 E2|]; subst. erewrite sm_bind_ok by exact E.
    unfold sm_bind at 1, sm_lift at 1. rewrite (decrypt_record_tags _ _ _ _ _ Hx Hrec).
    destruct Hrec as (_ & Hval & Hty & _). rewrite Hval, Hty.
    assert (Hok' : match (if retrieve_value o then Some (si_value i) else None) with
                   | None => Ok None
                   | Some ev => out_map Some (ev_decrypt ev (value_key (wallet_keys self)))
                   end = Ok (if retrieve_value o then Some (pr_value x) else None)).
    { destruct (retrieve_value o); [|done]. destruct Hx as [-> _]. done. }
    rewrite Hok'. unfold sm_bind, sm_lift, sm_ret. intros [= <- <-].
    split; [done|]. split; [done|]. split; [done|]. split; [|by eauto].
    intros rec' [= <-]. exists o, x. split; [done|]. split; [done|]. unfold shown. f_equal.
    by destruct (retrieve_type o).
  - unfold sm_bind at 1. rewrite E. intros [= <- <-]. do 3 (split; [done|]). split; [done|].
    intros Hh o Ho. specialize (Hh1 Hh o Ho). destruct (view s !! wkey self (t, n)) as [i|].
    + by destruct Hh1.
    + inversion Hl; subst. inversion Hh1; subst. constructor.
Qed.

(** *** Listing all records *)
Definition lists (L : list ((bytes * bytes) * SItem)) (pl : list ((string * string) * PlainRecord)) : Prop :=
  Forall2 (fun ki kx => ki.1 = wkey self kx.1 /\ item_rep self ki.2 kx.2 /\
             rust_string kx.1.1 /\ rust_string kx.1.2) L pl.

Lemma represents_lists v w L :
  represents self v w -> L ≡ₚ map_to_list v -> exists pl, pl ≡ₚ map_to_list w /\ lists L pl.
Proof using SL.
  intros (Hk & e & -> & He) HL.
  assert (Hinj := wkey_inj self).
  assert (Hm : map_to_list (kmap (wkey self) e : View) ≡ₚ prod_map (wkey self) id <$> map_to_list e).
  { unfold kmap. apply map_to_list_to_map. rewrite <-list_fmap_compose.
    change (fst ∘ prod_map (wkey self) id) with (wkey self ∘ fst (B := SItem)).
    rewrite list_fmap_compose. apply NoDup_fmap_2; [done|]. apply NoDup_fst_map_to_list. }
  rewrite Hm in HL. apply Permutation_map_inv in HL as (Le & -> & HLe).
  set (g := fun ki : (string * string) * SItem => (ki.1, default (mkPlainRecord "" ∅) (w !! ki.1))).
  assert (Hin : forall k i, (k, i) ∈ Le -> exists x, w !! k = Some x /\ item_rep self i x).
  { intros k i Hki. rewrite <-HLe in Hki. apply elem_of_map_to_list in Hki.
    specialize (He k). rewrite Hki in He. inversion He; subst. by eauto. }
  exists (g <$> Le). split.
  - apply NoDup_Permutation.
    + apply (NoDup_fmap_1 fst). rewrite <-list_fmap_compose. change (fst ∘ g) with (fst (A := string * string) (B := SItem)).
      rewrite <-HLe. apply NoDup_fst_map_to_list.
    + apply NoDup_map_to_list.
    + intros [k x]. rewrite elem_of_map_to_list, list_elem_of_fmap. split.
      * intros ([k' i] & [= -> ->] & Hi). cbn [fst]. by destruct (Hin k' i Hi) as (y & -> & _).
      * intros Hx. specialize (He k). rewrite Hx in He. inversion He as [i ? Hi E1 E2|]; subst.
        exists (k, i). split; [unfold g; cbn; by rewrite Hx|]. rewrite <-HLe. by apply elem_of_map_to_list.
  - unfold lists. change (map ?f Le) with (f <$> Le).
    apply Forall2_fmap, Forall_Forall2_diag, Forall_forall. intros [k i] Hki. cbn.
    destruct (Hin k i Hki) as (x & Hx & Hi). rewrite Hx. cbn. split; [done|]. split; [done|].
    apply (Hk k x Hx).
Qed.

(** One call of [next]. *)
Lemma next_lists s i pl :
  healthy -> st_ok s -> it_ok s i -> lists (remaining s i) pl ->
  exists s' i', st_ok s' /\ it_ok s' i' /\ view s' = view s /\ it_options i' = it_options i /\
    match pl with
    | [] => wallet_next self (s, i) = ((s', i'), Ok None)
    | kx :: pl' => wallet_next self (s, i) = ((s', i'), Ok (Some (shown (it_options i) kx.1 kx.2))) /\
                   lists (remaining s' i') pl'
    end.
Proof using SL.
  intros Hh Hok Hit Hl. unfold wallet_next, sm_bind.
  destruct (it_next (s, i)) as [[s1 i1] r] eqn:En.
  apply law_next in En as (Hok1 & Hit1 & Hv1 & Ho1 & Hr); [|done..].
  exists s1, i1. do 4 (split; [done|]). destruct r as [[rec|]|e|]; [| |done|done].
  - destruct Hr as (k & x & Hrem & Hrec). rewrite Hrem in Hl.
    inversion Hl as [|? [[t n] y] ? pl' Hhd Htl]; subst. cbn in Hhd. destruct Hhd as (-> & Hi & H1 & H2).
    rewrite (decrypt_record (it_options i) (t, n) x y rec) by done. by unfold sm_lift.
  - destruct Hr as [Hrem _]. rewrite Hrem in Hl. by inversion Hl; subst.
Qed.

Lemma drain_lists fuel s i pl :
  healthy -> st_ok s -> it_ok s i -> lists (remaining s i) pl -> length pl < fuel ->
  exists s' i', drain self fuel (s, i) = ((s', i'), Ok ((fun kx => shown (it_options i) kx.1 kx.2) <$> pl)) /\
    st_ok s' /\ view s' = view s.
Proof using SL.
  intros Hh. revert s i pl. induction fuel as [|fuel IH]; intros s i pl Hok Hit Hl Hf; [lia|].
  destruct (next_lists s i pl Hh Hok Hit Hl) as (s1 & i1 & Hok1 & Hit1 & Hv1 & Ho1 & Hn).
  cbn [drain]. destruct pl as [|kx pl].
  - rewrite (sm_bind_ok _ _ _ _ _ Hn). by exists s1, i1.
  - destruct Hn as [Hn Hl1]. cbn [length] in Hf. rewrite (sm_bind_ok _ _ _ _ _ Hn).
    destruct (IH s1 i1 pl Hok1 Hit1 Hl1 ltac:(lia)) as (s2 & i2 & Ed & Hok2 & Hv2).
    unfold sm_bind. rewrite Ed. exists s2, i2. rewrite Ho1. split; [done|]. split; [done|congruence].
Qed.
End Refinement.

(** ** Properties *)
Section Properties.
Context (S : Sodium) (SL : SodiumLaws S) (C : OptionsCodec) (W : WalletStorage) (WL : StorageLaws W).
Context (self : Wallet).

Fixpoint run_wallet_ops (os : list WalletOp) (s : storage) : storage * list (outcome unit) :=
  match os with
  | [] => (s, [])
  | o :: os' =>
      let (s1, r) := run_wallet_op self o s in
      let (s2, rs) := run_wallet_ops os' s1 in (s2, r :: rs)
  end.

(** A sequence of results against the specification: what succeeded took effect, in
    order, and what failed had none; on a healthy storage failures are the specified ones. *)
Fixpoint results_follow (os : list WalletOp) (rs : list (outcome unit)) (w w' : PlainWallet) : Prop :=
  match os, rs with
  | [], [] => w' = w
  | o :: os', Ok _ :: rs' => exists w1, wallet_spec o w = Some w1 /\ results_follow os' rs' w1 w'
  | o :: os', Err e :: rs' =>
      (healthy -> wallet_spec o w = None /\ err_kind e = wallet_error o) /\ results_follow os' rs' w w'
  | _, _ => False
  end.

(** C20: An encrypted wallet behaves as a plaintext map of records.  For every storage that
    keeps the contract of the interface and every sequence of operations, the contents after
    the sequence decrypt to the map obtained by applying, in order, exactly the operations
    that returned [Ok]; no operation panics; and when the storage itself does not fail an
    operation fails exactly when its record is missing (present, for [add]), with that
    error. *)
Theorem wallet_refines_records os s s' rs w :
  st_ok s -> represents self (view s) w -> Forall wallet_op_valid os ->
  run_wallet_ops os s = (s', rs) ->
  exists w', results_follow os rs w w' /\ st_ok s' /\ represents self (view s') w'.
Proof using SL.
  revert s w rs. induction os as [|o os IH]; intros s w rs Hok Hrep Hv; cbn [run_wallet_ops].
  { intros [= <- <-]. by exists w. }
  inversion Hv as [|?? Ho Hos]; subst.
  destruct (run_wallet_op self o s) as [s1 r] eqn:E1. destruct (run_wallet_ops os s1) as [s2 rs'] eqn:E2.
  intros [= <- <-]. eapply wallet_op_follows in E1 as [Hok1 H1]; [|done..].
  destruct r as [[]|e|]; cbn [wallet_follows] in H1; [| |done].
  - destruct H1 as (w1 & Hw1 & Hrep1). destruct (IH _ _ _ Hok1 Hrep1 Hos E2) as (w' & Hf & H).
    exists w'. split; [cbn; eauto|done].
  - destruct H1 as [Hrep1 Hh]. destruct (IH _ _ _ Hok1 Hrep1 Hos E2) as (w' & Hf & H).
    exists w'. by split.
Qed.

(** Reading a record: [get] never panics, changes nothing, and when it succeeds returns
    the plaintext record stored under the type and name, restricted to the fields the
    options ask for; on a healthy storage with readable options it succeeds exactly when
    the record exists and otherwise reports that the item was not found. *)
Theorem wallet_get_reads_record s s' r w t n options :
  st_ok s -> represents self (view s) w -> rust_string t -> rust_string n ->
  wallet_get self t n options s = (s', r) ->
  st_ok s' /\ view s' = view s /\ r <> Panic /\
  (forall rec, r = Ok rec -> exists o x,
     options_of_get options = Some o /\ w !! (t, n) = Some x /\ rec = shown o (t, n) x) /\
  (healthy -> forall o, options_of_get options = Some o ->
     if w !! (t, n) then exists rec, r = Ok rec else is_error r WalletItemNotFound).
Proof using SL. apply wallet_get_shows. Qed.
End Properties.

(** ** Examples *)
Definition bit (b : bool) : string := if b then "1" else "0".
Definition read_bits (s : string) : list bool :=
  map (fun a => bool_decide (a = Ascii.ascii_of_nat 49)) (String.list_ascii_of_string s).

(** A codec of options: one character per field. *)
#[export] Instance demo_options : OptionsCodec := {
  write_record_options o := bit (retrieve_type o) +:+ bit (retrieve_value o) +:+ bit (retrieve_tags o);
  read_record_options s :=
    match read_bits s with [a; b; c] => Some (mkRecordOptions a b c) | _ => None end;
  write_search_options o :=
    bit (so_records o) +:+ bit (so_total_count o) +:+ bit (so_type o) +:+ bit (so_value o) +:+ bit (so_tags o);
  read_search_options s :=
    match read_bits s with [a; b; c; d; e] => Some (mkSearchOptions a b c d e) | _ => None end
}.
#[export] Instance demo_options_laws : OptionsCodecLaws demo_options.
Proof. split; [intros [[] [] []]|intros [[] [] [] [] []]]; reflexivity. Qed.

Definition demo_wallet : Wallet := mkWallet "w" demo_keys.
Definition demo_rnd : Randomness := mkRandomness (replicate 32 9%Z) (replicate 12 1%Z) (replicate 12 2%Z).

Definition demo_wallet_ops : list WalletOp :=
  [WAdd demo_rnd "cred" "a" "secret" [("~age", "31"); ("name", "alice")];
   WAdd demo_rnd "cred" "a" "other" [];
   WAddTags "cred" "a" [("name", "bob")];
   WDeleteTags "cred" "a" ["~age"];
   WUpdate demo_rnd "cred" "b" "x"].

Lemma demo_wallet_ops_valid : Forall wallet_op_valid demo_wallet_ops.
Proof. repeat constructor; set_solver. Qed.

Lemma empty_represents : represents (S := demo_sodium) demo_wallet (conn_view empty_connection) ∅.
Proof. apply represents_empty. Qed.

Lemma wallet_refines_records_witness :
  let Q := demo_sqlite true [] [] in
  let St := SQLiteStorage Debug in
  let (s', rs) := run_wallet_ops demo_sodium St demo_wallet demo_wallet_ops empty_connection in
  (exists w', results_follow demo_options St _ demo_wallet_ops rs ∅ w' /\ conn_ok s' /\
     represents demo_wallet (conn_view s') w') /\
  rs = [Ok (); Err (err_msg WalletItemAlreadyExists "Wallet item already exists"); Ok (); Ok ();
        Err (err_msg WalletItemNotFound "Item to update not found")].
Proof.
  cbv zeta. destruct (run_wallet_ops _ _ _ _ _) as [s' rs] eqn:E. split.
  - exact (wallet_refines_records demo_sodium demo_sodium_laws demo_options
      (@SQLiteStorage (demo_sqlite true [] []) demo_options Debug) (@SQLiteStorage_laws _ (demo_sqlite_laws []) _ Debug) demo_wallet
      demo_wallet_ops empty_connection s' rs ∅ empty_connection_ok empty_represents demo_wallet_ops_valid E).
  - apply (f_equal snd) in E. cbn [snd] in E. rewrite <-E. vm_compute. reflexivity.
Defined.

(** A connection with one record, and what it stands for. *)
Definition one_record : WalletOp := WAdd demo_rnd "cred" "a" "secret" [("~age", "31"); ("name", "alice")].
Definition one_record_plain : PlainWallet :=
  {[ ("cred", "a") := mkPlainRecord "secret" (list_to_map [("~age", "31"); ("name", "alice")]) ]}.
Definition one_record_connection {Q : Sqlite} : Connection :=
  (run_wallet_op (W := @SQLiteStorage Q demo_options Debug) demo_wallet one_record empty_connection).1.

Lemma one_record_valid : wallet_op_valid one_record.
Proof. repeat constructor; set_solver. Qed.

Lemma one_record_ok {Q : Sqlite} {L : SqliteLaws Q} :
  (run_wallet_op (W := @SQLiteStorage Q demo_options Debug) demo_wallet one_record empty_connection).2 = Ok () ->
  conn_ok one_record_connection /\ represents demo_wallet (conn_view one_record_connection) one_record_plain.
Proof.
  unfold one_record_connection.
  destruct (run_wallet_op (W := @SQLiteStorage Q demo_options Debug) demo_wallet one_record empty_connection) as [s' r] eqn:E.
  cbn [fst snd]. intros ->.
  eapply (wallet_op_follows (WL := SQLiteStorage_laws Debug) demo_wallet one_record) in E as [Hok H].
  - split; [exact Hok|]. destruct H as (w' & Hs & H).
    assert (Hw : wallet_spec one_record ∅ = Some one_record_plain) by reflexivity.
    rewrite Hw in Hs. by injection Hs as <-.
  - exact empty_connection_ok.
  - exact empty_represents.
  - exact one_record_valid.
Qed.

Lemma wallet_get_reads_record_witness :
  let Q := demo_sqlite true [] [] in
  let (s', r) := wallet_get (W := SQLiteStorage Debug) demo_wallet "cred" "a" "101" one_record_connection in
  (conn_ok s' /\ conn_view s' = conn_view one_record_connection /\ r <> Panic /\
   (forall rec, r = Ok rec -> exists o x,
      options_of_get "101" = Some o /\ one_record_plain !! ("cred", "a") = Some x /\ rec = shown o ("cred", "a") x) /\
   (no_faults -> forall o, options_of_get "101" = Some o ->
      if one_record_plain !! ("cred", "a") then exists rec, r = Ok rec else is_error r WalletItemNotFound)) /\
  (forall rec, r = Ok rec -> wr_value rec = None /\ wr_type rec = Some "cred").
Proof.
  cbv zeta. destruct (wallet_get _ _ _ _ _) as [s' r] eqn:E.
  destruct (one_record_ok (L := demo_sqlite_laws []) ltac:(by vm_compute)) as [Hok Hrep].
  assert (H := wallet_get_reads_record demo_sodium demo_sodium_laws demo_options
    (@SQLiteStorage (demo_sqlite true [] []) demo_options Debug) (@SQLiteStorage_laws _ (demo_sqlite_laws []) _ Debug) demo_wallet
    one_record_connection s' r one_record_plain "cred" "a" "101" Hok Hrep eq_refl eq_refl E).
  split; [exact H|]. intros rec ->. destruct H as (_ & _ & _ & H & _).
  destruct (H rec eq_refl) as (o & x & [= <-] & _ & ->). done.
Defined.
