(* ===== verification/WalletSearch.v ===== *)
(** * Searching a wallet, end to end

    [Wallet::search] over the SQLite storage: from the JSON query to the decrypted records
    the iterator returns.  The parts are [Wql] (parsing and optimisation), [WalletQuery]
    (encryption of the query and its SQL), [SqliteStorage] (running it) and [Wallet]
    (decrypting the rows).

    The one thing taken from SQLite is that the statement with a given [WHERE] clause
    returns the rows that satisfy it. *)

From stdpp Require Import base list strings numbers gmap.
From Stdlib Require Import ZArith Lia Permutation.
From S2P Require Import Prelude Errors Json Wql WalletCrypto WalletQuery WalletStorage SqliteStorage Wallet.

Open Scope string_scope.

Section Engine.
Context {Q : Sqlite} (like : string -> string -> bool).

(** The value of a condition on the tags of an item. *)
Definition cond_holds (tb : Tables) (c : Cond) (args : list SqlArg) (i : Item) : bool :=
  match eval_cond like (item_tags tb (item_id i)) c args with Some (b, _) => b | None => false end.

Definition matching (tb : Tables) (class : bytes) (c : Cond) (args : list SqlArg) : list Item :=
  filter (fun i => bool_decide (item_type i = class) && cond_holds tb c args i) (items tb).

(** SQLite runs the statements of a search whose [WHERE] clause is the condition [c]. *)
Definition answers (c : Cond) (args : list SqlArg) : Prop :=
  forall class tb,
    (forall i, i ∈ items tb -> item_type i = class ->
       exists b, eval_cond like (item_tags tb (item_id i)) c args = Some (b, [])) ->
    (exists rs, run_select (BASE +:+ " AND " +:+ print_cond c) (Blob class :: args) tb = inl rs /\
       rs ≡ₚ matching tb class c args) /\
    run_count ("SELECT count(*) FROM items as i WHERE i.type = ?" +:+ " AND " +:+ print_cond c)
      (Blob class :: args) tb = inl (Z.of_nat (length (matching tb class c args))).
End Engine.

Section Search.
Context (S : Sodium) (SL : SodiumLaws S) (C : OptionsCodec) (Q : Sqlite) (L : SqliteLaws Q).
Context (like : string -> string -> bool) (p : Profile) (self : Wallet).

#[local] Instance St : WalletStorage := SQLiteStorage p.

(** The records a query selects. *)
Definition selected (type_ : string) (q : Query) (kx : (string * string) * PlainRecord) : bool :=
  bool_decide (kx.1.1 = type_) && eval like (fun n => pr_tags kx.2 !! n) q.

Lemma Forall2_filter {A B} (R : A -> B -> Prop) (f : A -> bool) (g : B -> bool) l l' :
  Forall2 R l l' -> (forall x y, x ∈ l -> R x y -> f x = g y) -> Forall2 R (filter f l) (filter g l').
Proof using Type.
  induction 1 as [|x y l l' Hxy _ IH]; intros Hfg; [constructor|].
  rewrite !filter_cons. rewrite (Hfg x y) by (by left || done).
  assert (Forall2 R (filter f l) (filter g l')) by (apply IH; intros; apply Hfg; [by right|done]).
  destruct (decide (g y)); [by constructor|done].
Qed.

(** The condition sent to SQLite, on the rows of an item that stands for a record. *)
Lemma cond_of_record q q' op tb i x :
  or_uniform q = true -> optimise q = Some q' -> query_ok q' = true ->
  encrypt_query q' (wallet_keys self) = Ok op ->
  tables_ok tb -> item_rep self (entry tb i) x ->
  eval_cond like (item_tags tb (item_id i)) (cond_of op) (args_of op) =
  Some (eval like (fun n => pr_tags x !! n) q, []).
Proof using SL.
  intros Hu Ho Hq He Hok (_ & Ht & _).
  destruct (enc_tags_list self _ _ (item_tags_NoDup tb (item_id i) Hok) Ht) as (T & HT & Hp).
  destruct (permuted_names _ _ Hp) as [Hnd <-].
  destruct (query_searches like (wallet_keys self) T Hnd q' Hq) as (op' & Ht' & _ & Hev).
  unfold encrypt_query in He. rewrite He in Ht'. injection Ht' as <-.
  specialize (Hev []). rewrite app_nil_r in Hev. rewrite HT. unfold encrypted_tags. rewrite Hev.
  do 2 f_equal. pose proof (optimise_eval like (fun n => list_to_map (M := gmap string string) T !! n) q Hu) as E.
  by rewrite Ho in E.
Qed.

Lemma matching_lists q q' op tb w type_ :
  or_uniform q = true -> optimise q = Some q' -> query_ok q' = true ->
  encrypt_query q' (wallet_keys self) = Ok op ->
  tables_ok tb -> represents self (view_of tb) w ->
  (forall i, i ∈ items tb -> exists b, eval_cond like (item_tags tb (item_id i)) (cond_of op) (args_of op) = Some (b, [])) /\
  forall rs, rs ≡ₚ matching like tb (encrypted_type self type_) (cond_of op) (args_of op) ->
    exists pl, pl ≡ₚ filter (selected type_ q) (map_to_list w) /\
      lists self ((fun i => (item_key_of i, entry tb i)) <$> rs) pl.
Proof using SL.
  intros Hu Ho Hq He Hok Hrep.
  destruct (represents_lists self (view_of tb) w ((fun i => (item_key_of i, entry tb i)) <$> items tb) Hrep)
    as (pl0 & Hpl0 & Hl0).
  { unfold view_of. rewrite map_to_list_to_map; [done|]. rewrite <-list_fmap_compose. apply Hok. }
  unfold lists in Hl0. rewrite Forall2_fmap_l in Hl0.
  assert (Hc : forall i (kx : (string * string) * PlainRecord),
    item_key_of i = wkey self kx.1 /\ item_rep self (entry tb i) kx.2 /\ rust_string kx.1.1 /\ rust_string kx.1.2 ->
    eval_cond like (item_tags tb (item_id i)) (cond_of op) (args_of op) =
    Some (eval like (fun n => pr_tags kx.2 !! n) q, [])).
  { intros i kx (_ & Hi & _). by eapply cond_of_record. }
  split.
  - intros i Hi. apply list_elem_of_lookup_1 in Hi as [j Hj].
    destruct (Forall2_lookup_l _ _ _ _ _ Hl0 Hj) as (kx & _ & Hkx). eexists. by apply Hc in Hkx.
  - intros rs Hrs. symmetry in Hrs.
    assert (Hf := Forall2_filter _
      (fun i => bool_decide (item_type i = encrypted_type self type_) && cond_holds like tb (cond_of op) (args_of op) i)
      (selected type_ q) _ _ Hl0).
    eapply (Permutation_Forall2 Hrs) in Hf as (pl & Hpl & HF).
    + exists pl. split; [by rewrite <-Hpl, Hpl0|]. unfold lists. by rewrite Forall2_fmap_l.
    + intros i [[t n] x] _ Hix. unfold selected, cond_holds. rewrite (Hc i _ Hix). f_equal.
      destruct Hix as ([= Ht Hn] & _). cbn in *. rewrite Ht. apply bool_decide_ext. split; [|by intros ->].
      intros E. by apply searchable_inj, as_bytes_inj in E.
Qed.

Lemma query_runs {A : Type} (f : Tables -> A + SqlError) c a :
  no_faults -> f (db c) = inl a ->
  exists c', query f c = (c', Ok a) /\ db c' = db c /\ savepoint c' = savepoint c.
Proof using Type.
  intros [Hn _] Hf. unfold query, stmt. rewrite Hn, Hf. by eexists.
Qed.

(** The storage's part: the statements are built and run. *)
Lemma search_runs c class op options o rs n :
  no_faults -> options_of_search options = Some o -> so_records o = true ->
  operator_to_sql p op [Blob class] = Ok (print_cond (cond_of op), Blob class :: args_of op) ->
  run_select (BASE +:+ " AND " +:+ print_cond (cond_of op)) (Blob class :: args_of op) (db c) = inl rs ->
  run_count ("SELECT count(*) FROM items as i WHERE i.type = ?" +:+ " AND " +:+ print_cond (cond_of op))
    (Blob class :: args_of op) (db c) = inl (Z.of_nat n) -> (Z.of_nat n < 2 ^ 64)%Z ->
  exists c1, search p class op options c =
    (c1, Ok (mkIterator (Some rs) (so_tags o) (mkRecordOptions (so_type o) (so_value o) (so_tags o))
               (if so_total_count o then Some n else None))) /\
    db c1 = db c /\ savepoint c1 = savepoint c.
Proof using Type.
  intros Hh Hopt Hrec Hsql Hsel Hcount Hn. unfold search.
  assert (E0 : match options with
    | None => sm_ret search_options_default
    | Some s => match read_search_options s with
                | Some o => sm_ret o
                | None => sm_fail (malformed "Search options")
                end
    end = (sm_ret o : SM Connection SearchOptions)).
  { destruct options as [s|]; cbn in Hopt; [by rewrite Hopt|congruence]. }
  rewrite E0. unfold sm_bind at 1, sm_ret at 1. rewrite Hrec. unfold wql_to_sql_count, wql_to_sql.
  rewrite Hsql. cbn [obind]. rewrite !bool_decide_eq_false_2 by apply print_cond_nonempty.
  destruct (query_runs _ c _ Hh Hcount) as (ca & Ea & Hda & Hsa).
  assert (E1 : exists c1, (if so_total_count o then
      let* (query_string, query_arguments) := sm_lift (Ok ("SELECT count(*) FROM items as i WHERE i.type = ?" +:+ " AND " +:+ print_cond (cond_of op), Blob class :: args_of op)) in
      let* x := query (run_count query_string query_arguments) in
      sm_ret (Some (Z.to_nat (x mod 2 ^ 64)))
    else sm_ret None) c = (c1, Ok (if so_total_count o then Some n else None)) /\
    db c1 = db c /\ savepoint c1 = savepoint c).
  { destruct (so_total_count o); [|by eexists]. exists ca. unfold sm_lift, sm_bind at 1.
    rewrite (sm_bind_ok _ _ _ _ _ Ea). unfold sm_ret. rewrite Z.mod_small by lia. by rewrite Nat2Z.id. }
  destruct E1 as (c1 & E1 & Hd1 & Hs1). rewrite (sm_bind_ok _ _ _ _ _ E1).
  unfold sm_lift, sm_bind at 1. cbn [retrieve_tags].
  assert (E2 : exists c2, (if so_tags o then new_retriever else sm_ret ()) c1 = (c2, Ok ()) /\
                 db c2 = db c /\ savepoint c2 = savepoint c).
  { destruct (so_tags o); [|by eexists]. destruct (query_runs (fun _ => inl ()) c1 () Hh eq_refl) as (c2 & E2 & Hd2 & Hs2).
    exists c2. split; [exact E2|]. split; congruence. }
  destruct E2 as (c2 & E2 & Hd2 & Hs2). rewrite (sm_bind_ok _ _ _ _ _ E2).
  rewrite <-Hd2 in Hsel. destruct (query_runs _ c2 _ Hh Hsel) as (c3 & E3 & Hd3 & Hs3).
  rewrite (sm_bind_ok _ _ _ _ _ E3). exists c3. split; [done|]. split; congruence.
Qed.

End Search.

(** ** Example *)
Definition demo_optimised : Query :=
  match optimise demo_search with Some q => q | None => query_default end.
Definition demo_op : Operator :=
  match encrypt_query demo_optimised demo_keys with Ok op => op | _ => OAnd [] end.

(** A SQLite that runs the statements of this search. *)
Definition search_sqlite : Sqlite := {|
  foreign_keys := true;
  fault _ := None;
  commit_fault _ := None;
  rollback_fault _ := None;
  new_rowid ids := Some (max_rowid ids + 1)%Z;
  scan _ l := l;
  run_select _ args tb :=
    match args with
    | Blob class :: args' => inl (matching String.eqb tb class (cond_of demo_op) args')
    | _ => inr (OtherSqlError "wrong number of parameters")
    end;
  run_count _ args tb :=
    match args with
    | Blob class :: args' => inl (Z.of_nat (length (matching String.eqb tb class (cond_of demo_op) args')))
    | _ => inr (OtherSqlError "wrong number of parameters")
    end
|}.

#[local] Instance search_sqlite_laws : SqliteLaws search_sqlite.
Proof. split; try done. intros ids i [= <-]. apply max_rowid_fresh. Qed.

Lemma search_sqlite_answers : @answers search_sqlite String.eqb (cond_of demo_op) (args_of demo_op).
Proof. intros class tb _. split; [|done]. eexists. split; [reflexivity|done]. Qed.


Lemma demo_search_selects :
  filter (selected String.eqb "cred" demo_search) (map_to_list one_record_plain) =
  map_to_list one_record_plain.
Proof. vm_compute. reflexivity. Qed.
