(* ===== verification/KeyDerivation.v ===== *)
(** * Master keys and wallet metadata

    Key derivation of [libindy/indy-wallet/src/encryption.rs], the serialisation of a
    wallet's keys of [wallet.rs], and the metadata of [lib.rs] that stores them: what
    ties a passphrase to the keys of a wallet.

    Argon2, base58, MessagePack and the JSON codec of the metadata are parameters; the
    codecs are assumed to read back what they write. *)

From stdpp Require Import base list strings numbers gmap.
From Stdlib Require Import ZArith Lia.
From S2P Require Import Prelude WalletCrypto.

Open Scope string_scope.

Definition SALTBYTES : nat := 32.

(** [KeyDerivationMethod] of [indy-api-types/src/domain/wallet/mod.rs]. *)
Inductive KeyDerivationMethod := RAW | ARGON2I_MOD | ARGON2I_INT.

(** [KeyDerivationData]. *)
Inductive KeyDerivationData :=
  | Raw (passphrase : string)
  | Argon2iMod (passphrase : string) (salt : bytes)
  | Argon2iInt (passphrase : string) (salt : bytes).

(** [Metadata], [MetadataArgon] and [MetadataRaw] of [lib.rs]. *)
Inductive Metadata :=
  | MetadataArgon (keys master_key_salt : bytes)
  | MetadataRaw (keys : bytes).

Definition get_keys (self : Metadata) : bytes :=
  match self with MetadataArgon keys _ => keys | MetadataRaw keys => keys end.

(** The codecs and Argon2. *)
Class KeyCodec := {
  from_base58 : string -> option bytes;
  pwhash : string -> bytes -> KeyDerivationMethod -> option bytes;
  keys_to_vec : Keys -> bytes;
  keys_from_slice : bytes -> option Keys;
  metadata_to_vec : Metadata -> bytes;
  metadata_from_slice : bytes -> option Metadata
}.
Class KeyCodecLaws (K : KeyCodec) := {
  keys_back k : keys_from_slice (keys_to_vec k) = Some k;
  metadata_back m : metadata_from_slice (metadata_to_vec m) = Some m;
  pwhash_length p s d k : pwhash p s d = Some k -> length k = KEYBYTES
}.

Section Keys.
Context {S : Sodium} {K : KeyCodec}.

(** [from_slice] of the wrapped sodium types. *)
Definition salt_from_slice (slice : bytes) : option bytes :=
  if (length slice =? SALTBYTES)%nat then Some slice else None.
Definition key_from_slice (slice : bytes) : option bytes :=
  if (length slice =? KEYBYTES)%nat then Some slice else None.

Definition master_key_salt_from_slice (slice : bytes) : outcome bytes :=
  match salt_from_slice slice with
  | Some salt => Ok salt
  | None => Err (err_msg WalletAccessFailed "Invalid master key salt")
  end.

(** [from_passphrase_with_new_salt]; the fresh salt is an argument. *)
Definition from_passphrase_with_new_salt (salt : bytes) (passphrase : string)
    (derivation_method : KeyDerivationMethod) : KeyDerivationData :=
  match derivation_method with
  | ARGON2I_INT => Argon2iInt passphrase salt
  | ARGON2I_MOD => Argon2iMod passphrase salt
  | RAW => Raw passphrase
  end.

Definition from_passphrase_and_metadata (passphrase : string) (metadata : Metadata)
    (derivation_method : KeyDerivationMethod) : outcome KeyDerivationData :=
  match derivation_method, metadata with
  | RAW, MetadataRaw _ => Ok (Raw passphrase)
  | ARGON2I_INT, MetadataArgon _ master_key_salt =>
      let? salt := master_key_salt_from_slice master_key_salt in Ok (Argon2iInt passphrase salt)
  | ARGON2I_MOD, MetadataArgon _ master_key_salt =>
      let? salt := master_key_salt_from_slice master_key_salt in Ok (Argon2iMod passphrase salt)
  | _, _ => Err (err_msg WalletAccessFailed "Invalid combination of KeyDerivationMethod and Metadata")
  end.

(** [_derive_master_key], through [chacha20poly1305_ietf::derive_key] and [pwhash]. *)
Definition _derive_master_key (passphrase : string) (salt : bytes) (m : KeyDerivationMethod) : outcome bytes :=
  match m with
  | RAW => Err (err_msg InvalidStructure "Can't derive key")
  | _ => match pwhash passphrase salt m with
         | Some key => Ok key
         | None => Err (err_msg InvalidState "Can't derive key")
         end
  end.

Definition _raw_master_key (passphrase : string) : outcome bytes :=
  match from_base58 passphrase with
  | None => Err (err_msg InvalidStructure
      "The base58 input contained a character not part of the base58 alphabet")
  | Some b => match key_from_slice b with
              | Some key => Ok key
              | None => Err (err_msg InvalidStructure "Invalid mastery key")
              end
  end.

Definition calc_master_key (self : KeyDerivationData) : outcome bytes :=
  match self with
  | Raw passphrase => _raw_master_key passphrase
  | Argon2iInt passphrase salt => _derive_master_key passphrase salt ARGON2I_INT
  | Argon2iMod passphrase salt => _derive_master_key passphrase salt ARGON2I_MOD
  end.

(** [Keys::serialize_encrypted] and [deserialize_encrypted]; serialising seven byte
    arrays does not fail. *)
Definition serialize_encrypted (nonce : bytes) (self : Keys) (master_key : bytes) : outcome bytes :=
  Ok (encrypt_as_not_searchable nonce (keys_to_vec self) master_key).
Definition deserialize_encrypted (b master_key : bytes) : outcome Keys :=
  let? decrypted := decrypt_merged b master_key in
  match keys_from_slice decrypted with
  | Some keys => Ok keys
  | None => Err (err_msg InvalidState "Invalid bytes for Key")
  end.

(** [WalletService::_prepare_metadata] and [_restore_keys]. *)
Definition _prepare_metadata (nonce master_key : bytes) (key_data : KeyDerivationData) (keys : Keys)
  : outcome bytes :=
  let? encrypted_keys := serialize_encrypted nonce keys master_key in
  let metadata :=
    match key_data with
    | Raw _ => MetadataRaw encrypted_keys
    | Argon2iInt _ salt | Argon2iMod _ salt => MetadataArgon encrypted_keys salt
    end in
  Ok (metadata_to_vec metadata).

Definition _restore_keys (metadata : Metadata) (master_key : bytes) : outcome Keys :=
  match deserialize_encrypted (get_keys metadata) master_key with
  | Ok res => Ok res
  | Err _ => Err (err_msg WalletAccessFailed "Invalid master key provided")
  | Panic => Panic
  end.
End Keys.

(** ** Facts *)
Section Facts.
Context {S : Sodium} {SL : SodiumLaws S} {K : KeyCodec} {KL : KeyCodecLaws K}.

Definition metadata_of (nonce master_key : bytes) (key_data : KeyDerivationData) (keys : Keys) : Metadata :=
  let ek := encrypt_as_not_searchable nonce (keys_to_vec keys) master_key in
  match key_data with
  | Raw _ => MetadataRaw ek
  | Argon2iInt _ salt | Argon2iMod _ salt => MetadataArgon ek salt
  end.

Lemma prepare_metadata_is nonce mk kd keys :
  _prepare_metadata nonce mk kd keys = Ok (metadata_to_vec (metadata_of nonce mk kd keys)).
Proof using Type. by destruct kd. Qed.

Lemma get_keys_metadata nonce mk kd keys :
  get_keys (metadata_of nonce mk kd keys) = encrypt_as_not_searchable nonce (keys_to_vec keys) mk.
Proof using Type. by destruct kd. Qed.

Lemma restore_keys_prepared nonce mk kd keys :
  length nonce = NONCEBYTES -> _restore_keys (metadata_of nonce mk kd keys) mk = Ok keys.
Proof using SL KL.
  intros Hn. unfold _restore_keys, deserialize_encrypted. rewrite get_keys_metadata.
  unfold encrypt_as_not_searchable. rewrite merged_nonce by done. cbn [obind]. by rewrite keys_back.
Qed.

Lemma derivation_from_metadata nonce mk keys passphrase salt m :
  length salt = SALTBYTES ->
  from_passphrase_and_metadata passphrase
    (metadata_of nonce mk (from_passphrase_with_new_salt salt passphrase m) keys) m =
  Ok (from_passphrase_with_new_salt salt passphrase m).
Proof using Type.
  intros Hs. destruct m; cbn; [done|..]; unfold master_key_salt_from_slice, salt_from_slice;
    by rewrite Hs.
Qed.

(** The passphrase that created a wallet opens it.  From the metadata written with a
    passphrase, a method and a fresh salt, the same passphrase and method derive the same
    master key, and that key decrypts the wallet's keys; another method than the one the
    metadata was made for (raw against Argon2) is refused with [WalletAccessFailed]. *)
Theorem passphrase_restores_keys passphrase m salt nonce keys mk :
  length salt = SALTBYTES -> length nonce = NONCEBYTES ->
  let key_data := from_passphrase_with_new_salt salt passphrase m in
  calc_master_key key_data = Ok mk ->
  exists stored metadata,
    _prepare_metadata nonce mk key_data keys = Ok stored /\
    metadata_from_slice stored = Some metadata /\
    obind (from_passphrase_and_metadata passphrase metadata m) calc_master_key = Ok mk /\
    _restore_keys metadata mk = Ok keys /\
    forall m', m <> m' -> (m = RAW \/ m' = RAW) ->
      exists msg, from_passphrase_and_metadata passphrase metadata m' = Err (err_msg WalletAccessFailed msg).
Proof using SL KL.
  intros Hs Hn key_data Hmk. exists (metadata_to_vec (metadata_of nonce mk key_data keys)), (metadata_of nonce mk key_data keys).
  split; [apply prepare_metadata_is|]. split; [apply metadata_back|].
  split; [unfold key_data; by rewrite derivation_from_metadata|].
  split; [by apply restore_keys_prepared|].
  intros m' Hne Hraw. destruct m, m'; cbn; try done; try (by destruct Hraw); by eexists.
Qed.

(** A wrong master key is reported as such: when the authenticated decryption of the
    stored keys fails, restoring them fails with [WalletAccessFailed] and nothing else. *)
Theorem wrong_master_key_refused nonce mk mk' kd keys :
  length nonce = NONCEBYTES ->
  open (seal (keys_to_vec keys) nonce mk) nonce mk' = None ->
  _restore_keys (metadata_of nonce mk kd keys) mk' =
  Err (err_msg WalletAccessFailed "Invalid master key provided").
Proof using Type.
  intros Hn Ho. unfold _restore_keys, deserialize_encrypted. rewrite get_keys_metadata.
  unfold encrypt_as_not_searchable, decrypt_merged, decrypt.
  rewrite (proj2 (Nat.ltb_ge _ _)) by (rewrite length_app; lia).
  by rewrite <-Hn, take_app_length, drop_app_length, Ho.
Qed.
End Facts.

(** ** Example *)
Definition take_key (l : bytes) : bytes := take KEYBYTES (l ++ replicate 32 0%Z)%list.
Lemma take_key_length l : length (take_key l) = KEYBYTES.
Proof. unfold take_key. rewrite length_take, length_app, length_replicate. unfold KEYBYTES. lia. Qed.

(** Length-prefixed fields; a passphrase is its own key, padded. *)
Definition put_field (b : bytes) : bytes := Z.of_nat (length b) :: b.
Definition get_field (l : bytes) : option (bytes * bytes) :=
  match l with
  | n :: l' => Some (take (Z.to_nat n) l', drop (Z.to_nat n) l')
  | [] => None
  end.
Lemma get_put_field b l : get_field (put_field b ++ l)%list = Some (b, l).
Proof. cbn. by rewrite Nat2Z.id, take_app_length, drop_app_length. Qed.

Definition demo_keys_to_vec (k : Keys) : bytes :=
  (put_field (type_key k) ++ put_field (name_key k) ++ put_field (value_key k) ++ put_field (item_hmac_key k) ++
   put_field (tag_name_key k) ++ put_field (tag_value_key k) ++ put_field (tags_hmac_key k) ++ [])%list.
Definition demo_keys_from_slice (l : bytes) : option Keys :=
  '(a, l) ← get_field l; '(b, l) ← get_field l; '(c, l) ← get_field l; '(d, l) ← get_field l;
  '(e, l) ← get_field l; '(f, l) ← get_field l; '(g, l) ← get_field l;
  Some (mkKeys a b c d e f g).

#[export] Instance demo_key_codec : KeyCodec := {
  from_base58 s := Some (take_key (as_bytes s));
  pwhash p s _ := Some (take_key (as_bytes p ++ s)%list);
  keys_to_vec := demo_keys_to_vec;
  keys_from_slice := demo_keys_from_slice;
  metadata_to_vec m :=
    match m with
    | MetadataArgon k s => (1%Z :: put_field k ++ put_field s ++ [])%list
    | MetadataRaw k => (0%Z :: put_field k ++ [])%list
    end;
  metadata_from_slice l :=
    match l with
    | 1%Z :: l => '(k, l) ← get_field l; '(s, _) ← get_field l; Some (MetadataArgon k s)
    | 0%Z :: l => '(k, _) ← get_field l; Some (MetadataRaw k)
    | _ => None
    end
}.

#[export] Instance demo_key_codec_laws : KeyCodecLaws demo_key_codec.
Proof.
  split.
  - intros k. cbn [keys_from_slice keys_to_vec demo_key_codec].
    unfold demo_keys_from_slice, demo_keys_to_vec. destruct k.
    by repeat (rewrite get_put_field; cbn [mbind option_bind]).
  - intros [k s|k]; cbn [metadata_from_slice metadata_to_vec demo_key_codec];
      by repeat (rewrite get_put_field; cbn [mbind option_bind]).
  - intros p s d k [= <-]. apply take_key_length.
Qed.

Definition demo_salt : bytes := replicate 32 3%Z.
Definition demo_nonce : bytes := replicate 12 4%Z.
Definition demo_key_data : KeyDerivationData := from_passphrase_with_new_salt demo_salt "pass" ARGON2I_MOD.

Lemma passphrase_restores_keys_witness :
  exists stored metadata,
    _prepare_metadata demo_nonce (take_key (as_bytes "pass" ++ demo_salt)%list) demo_key_data demo_keys = Ok stored /\
    metadata_from_slice stored = Some metadata /\
    obind (from_passphrase_and_metadata "pass" metadata ARGON2I_MOD) calc_master_key =
      Ok (take_key (as_bytes "pass" ++ demo_salt)%list) /\
    _restore_keys metadata (take_key (as_bytes "pass" ++ demo_salt)%list) = Ok demo_keys /\
    forall m', ARGON2I_MOD <> m' -> (ARGON2I_MOD = RAW \/ m' = RAW) ->
      exists msg, from_passphrase_and_metadata "pass" metadata m' = Err (err_msg WalletAccessFailed msg).
Proof.
  exact (passphrase_restores_keys (SL := demo_sodium_laws) (KL := demo_key_codec_laws) "pass" ARGON2I_MOD
    demo_salt demo_nonce demo_keys _ eq_refl eq_refl eq_refl).
Defined.

Lemma wrong_master_key_refused_witness :
  _restore_keys (metadata_of demo_nonce [1]%Z demo_key_data demo_keys) [2]%Z =
  Err (err_msg WalletAccessFailed "Invalid master key provided").
Proof. apply (wrong_master_key_refused (S := demo_sodium)); vm_compute; reflexivity. Defined.
