(* ===== verification/ChunkStream.v ===== *)
(** * Encrypted byte streams

    [Writer] and [Reader] of
    [libindy/indy-utils/src/crypto/chacha20poly1305_ietf/sodium.rs]: data is cut into
    chunks, each sealed under the next nonce.  The inner writer and reader are files in
    memory: the bytes written so far and the bytes not yet read.

    The theorems show that what is written is read back, whatever sizes the writes and the
    reads have, and that reading always returns. *)

From stdpp Require Import base list strings numbers.
From Stdlib Require Import ZArith Lia.
From S2P Require Import Prelude WalletCrypto.

Open Scope string_scope.

(** The kinds of [io::Error] the reader produces. *)
Inductive IoError := UnexpectedEof | InvalidData.

Section Stream.
Context {S : Sodium} (increment : bytes -> bytes).

(** ** [Writer] *)
Record Writer := mkWriter {
  wr_buffer : bytes;
  wr_chunk_size : nat;
  wr_key : bytes;
  wr_nonce : bytes;
  wr_inner : bytes
}.

Definition writer_new (inner key nonce : bytes) (chunk_size : nat) : Writer :=
  mkWriter [] chunk_size key nonce inner.

(** The loop of [write] over the buffer from [chunk_start] on: the chunks written, the
    nonce after them and how far they reach.  [None] is a loop that does not end. *)
Fixpoint write_chunks (fuel : nat) (buffer : bytes) (chunk_size : nat) (key nonce : bytes)
    (chunk_start : nat) (inner : bytes) : option (bytes * bytes * nat) :=
  if (chunk_start + chunk_size <=? length buffer)%nat then
    match fuel with
    | 0 => None
    | Datatypes.S fuel' =>
        let chunk := take chunk_size (drop chunk_start buffer) in
        write_chunks fuel' buffer chunk_size key (increment nonce) (chunk_start + chunk_size)
          (inner ++ seal chunk nonce key)%list
    end
  else Some (inner, nonce, chunk_start).

(** [write]; also [write_all], which calls it once. *)
Definition write (self : Writer) (buf : bytes) : option Writer :=
  let buffer := (wr_buffer self ++ buf)%list in
  match write_chunks (length buffer) buffer (wr_chunk_size self) (wr_key self) (wr_nonce self) 0 (wr_inner self) with
  | Some (inner, nonce, chunk_start) =>
      let buffer := if (0 <? chunk_start)%nat then drop chunk_start buffer else buffer in
      Some (mkWriter buffer (wr_chunk_size self) (wr_key self) nonce inner)
  | None => None
  end.

Definition flush (self : Writer) : Writer :=
  if bool_decide (wr_buffer self <> [])
  then mkWriter (wr_buffer self) (wr_chunk_size self) (wr_key self) (increment (wr_nonce self))
         (wr_inner self ++ seal (wr_buffer self) (wr_nonce self) (wr_key self))%list
  else self.

(** ** [Reader] *)
Record Reader := mkReader {
  rd_rest : bytes;
  rd_chunk_buffer : nat;
  rd_key : bytes;
  rd_nonce : bytes;
  rd_inner : bytes
}.

(** [Reader::new] allocates [chunk_size + TAGBYTES] bytes: the addition is checked in a
    debug build, and a capacity above [isize::MAX] panics. *)
Definition reader_new (p : Profile) (inner key nonce : bytes) (chunk_size : Z) : outcome Reader :=
  let sum := (chunk_size + Z.of_nat TAGBYTES)%Z in
  let? capacity := if (sum <=? usize_max)%Z then Ok sum
                   else match p with Debug => Panic | Release => Ok (sum mod 2 ^ 64)%Z end in
  if (2 ^ 63 - 1 <? capacity)%Z then Panic
  else Ok (mkReader [] (Z.to_nat capacity) key nonce inner).

(** [_read_chunk]: as much of the chunk buffer as the file fills. *)
Definition _read_chunk (self : Reader) : (bytes * Reader) + IoError :=
  let chunk := take (rd_chunk_buffer self) (rd_inner self) in
  if (length chunk =? 0)%nat then inr UnexpectedEof
  else inl (chunk, mkReader (rd_rest self) (rd_chunk_buffer self) (rd_key self) (rd_nonce self)
                     (drop (rd_chunk_buffer self) (rd_inner self))).

(** The loop of [read] that consumes chunks; [buf] is what is filled so far of [n]. *)
Fixpoint read_chunks (fuel n : nat) (buf : bytes) (self : Reader) : option ((bytes * Reader) + IoError) :=
  if (length buf <? n)%nat then
    match fuel with
    | 0 => None
    | Datatypes.S fuel' =>
        match _read_chunk self with
        | inr e => Some (inr e)
        | inl (chunk, self) =>
            match decrypt chunk (rd_key self) (rd_nonce self) with
            | Ok chunk =>
                let to_copy := Nat.min (length chunk) (n - length buf) in
                let buf' := (buf ++ take to_copy chunk)%list in
                let rest := if (length buf' =? n)%nat && (to_copy <? length chunk)%nat
                            then (rd_rest self ++ drop to_copy chunk)%list else rd_rest self in
                read_chunks fuel' n buf'
                  (mkReader rest (rd_chunk_buffer self) (rd_key self) (increment (rd_nonce self)) (rd_inner self))
            | _ => Some (inr InvalidData)
            end
        end
    end
  else Some (inl (buf, self)).

(** [read] into a buffer of [n] bytes; every chunk takes at least one byte of the file, so
    one more round than there are bytes is enough. *)
Definition read (self : Reader) (n : nat) : option ((bytes * Reader) + IoError) :=
  let to_copy := Nat.min (length (rd_rest self)) n in
  read_chunks (Datatypes.S (length (rd_inner self))) n (take to_copy (rd_rest self))
    (mkReader (drop to_copy (rd_rest self)) (rd_chunk_buffer self) (rd_key self) (rd_nonce self) (rd_inner self)).
End Stream.

(** ** The stream a sequence of writes produces *)
Section Facts.
Context {S : Sodium} {SL : SodiumLaws S} (increment : bytes -> bytes).

Fixpoint enc_stream (fuel cs : nat) (key nonce data : bytes) : bytes :=
  match fuel, data with
  | _, [] => []
  | 0, _ => []
  | Datatypes.S fuel', _ =>
      (seal (take cs data) nonce key ++ enc_stream fuel' cs key (increment nonce) (drop cs data))%list
  end.
Definition stream (cs : nat) (key nonce data : bytes) : bytes := enc_stream (length data) cs key nonce data.

Lemma enc_stream_fuel f1 f2 cs key nonce data :
  0 < cs -> length data <= f1 -> length data <= f2 ->
  enc_stream f1 cs key nonce data = enc_stream f2 cs key nonce data.
Proof using Type.
  intros Hcs. revert f2 nonce data. induction f1 as [|f1 IH]; intros f2 nonce data H1 H2.
  - destruct data; [|cbn in H1; lia]. by destruct f2.
  - destruct data as [|b data]; [by destruct f2|]. destruct f2 as [|f2]; [cbn in H2; lia|].
    cbn [enc_stream]. f_equal. apply IH; rewrite length_drop; cbn in *; lia.
Qed.

Lemma stream_cons cs key nonce data :
  0 < cs -> data <> [] ->
  stream cs key nonce data =
  (seal (take cs data) nonce key ++ stream cs key (increment nonce) (drop cs data))%list.
Proof using Type.
  intros Hcs Hne. destruct data as [|b data]; [done|]. unfold stream. cbn [length enc_stream].
  f_equal. apply enc_stream_fuel; [done|rewrite length_drop; cbn [length]; lia|done].
Qed.

Lemma stream_nil cs key nonce : stream cs key nonce [] = [].
Proof using Type. done. Qed.

(** *** Writing *)
(** After writing [data] in any pieces: full chunks are out, the rest is buffered. *)
Definition writes (cs : nat) (key nonce0 inner0 data : bytes) (w : Writer) : Prop :=
  wr_chunk_size w = cs /\ wr_key w = key /\ length (wr_buffer w) < cs /\
  forall tail, (wr_inner w ++ stream cs key (wr_nonce w) (wr_buffer w ++ tail))%list =
               (inner0 ++ stream cs key nonce0 (data ++ tail))%list.

Lemma write_chunks_stream fuel buffer cs key nonce start inner :
  0 < cs -> start <= length buffer -> length buffer - start <= fuel ->
  exists inner' nonce' start',
    write_chunks increment fuel buffer cs key nonce start inner = Some (inner', nonce', start') /\
    start <= start' <= length buffer /\ length buffer - start' < cs /\
    forall tail, (inner' ++ stream cs key nonce' (drop start' buffer ++ tail))%list =
                 (inner ++ stream cs key nonce (drop start buffer ++ tail))%list.
Proof using Type.
  intros Hcs. revert nonce start inner. induction fuel as [|fuel IH]; intros nonce start inner Hs Hf;
    cbn [write_chunks]; destruct (start + cs <=? length buffer)%nat eqn:E.
  - apply Nat.leb_le in E. lia.
  - apply Nat.leb_gt in E. exists inner, nonce, start. split; [done|]. split; [lia|]. split; [lia|done].
  - apply Nat.leb_le in E.
    destruct (IH (increment nonce) (start + cs) (inner ++ seal (take cs (drop start buffer)) nonce key)%list)
      as (inner' & nonce' & start' & Ew & H1 & H2 & H3); [lia|lia|].
    exists inner', nonce', start'. split; [done|]. split; [lia|]. split; [done|].
    intros tail. rewrite H3, <-app_assoc. f_equal.
    rewrite (stream_cons cs key nonce (drop start buffer ++ tail)); [|done|].
    + rewrite take_app_le by (rewrite length_drop; lia). f_equal. f_equal.
      rewrite drop_app_le by (rewrite length_drop; lia). by rewrite drop_drop.
    + intros Hnil. apply (f_equal length) in Hnil. rewrite length_app, length_drop in Hnil. cbn in Hnil. lia.
  - apply Nat.leb_gt in E. exists inner, nonce, start. split; [done|]. split; [lia|]. split; [lia|done].
Qed.

Lemma writes_new cs key nonce inner :
  0 < cs -> writes cs key nonce inner [] (writer_new inner key nonce cs).
Proof using Type. intros Hcs. by split. Qed.

Lemma writes_write cs key nonce0 inner0 data w buf :
  0 < cs -> writes cs key nonce0 inner0 data w ->
  exists w', write increment w buf = Some w' /\ writes cs key nonce0 inner0 (data ++ buf)%list w'.
Proof using Type.
  intros Hcs (Hc & Hk & Hb & Hw). unfold write.
  destruct (write_chunks_stream (length (wr_buffer w ++ buf)%list) (wr_buffer w ++ buf)%list cs key (wr_nonce w) 0 (wr_inner w))
    as (inner' & nonce' & start' & E & H1 & H2 & H3); [done|lia|lia|].
  rewrite Hc, Hk, E.
  assert (Hd : (if (0 <? start')%nat then drop start' (wr_buffer w ++ buf)%list else (wr_buffer w ++ buf)%list) =
               drop start' (wr_buffer w ++ buf)%list) by (by destruct start').
  rewrite Hd. eexists. split; [done|]. split; [done|]. split; [done|]. cbn [wr_buffer wr_inner wr_nonce].
  split; [rewrite length_drop; lia|]. intros tail. rewrite H3, drop_0.
  rewrite <-!app_assoc. apply Hw.
Qed.

Lemma writes_flush cs key nonce0 inner0 data w :
  0 < cs -> writes cs key nonce0 inner0 data w ->
  wr_inner (flush increment w) = (inner0 ++ stream cs key nonce0 data)%list.
Proof using Type.
  intros Hcs (Hc & Hk & Hb & Hw). specialize (Hw []). rewrite !app_nil_r in Hw. rewrite <-Hw. unfold flush.
  case_bool_decide as Hne.
  - cbn [wr_inner]. rewrite (stream_cons cs key (wr_nonce w)) by done.
    rewrite take_ge, drop_ge by lia. by rewrite Hk, stream_nil, app_nil_r.
  - rewrite Hne. by rewrite stream_nil, app_nil_r.
Qed.

(** *** Reading *)
(** The reader has [data] left to give. *)
Definition reads_as (cs : nat) (data : bytes) (r : Reader) : Prop :=
  rd_chunk_buffer r = cs + TAGBYTES /\
  exists later, data = (rd_rest r ++ later)%list /\ rd_inner r = stream cs (rd_key r) (rd_nonce r) later.

(** The next chunk of a stream and what is left of the file. *)
Lemma read_chunk_stream cs r later :
  0 < cs -> rd_chunk_buffer r = cs + TAGBYTES -> later <> [] ->
  rd_inner r = stream cs (rd_key r) (rd_nonce r) later ->
  exists chunk inner', _read_chunk r =
      inl (chunk, mkReader (rd_rest r) (rd_chunk_buffer r) (rd_key r) (rd_nonce r) inner') /\
    decrypt chunk (rd_key r) (rd_nonce r) = Ok (take cs later) /\
    inner' = stream cs (rd_key r) (increment (rd_nonce r)) (drop cs later) /\
    length inner' < length (rd_inner r).
Proof using SL.
  intros Hcs Hb Hne Hi. rewrite stream_cons in Hi by done.
  set (ct := seal (take cs later) (rd_nonce r) (rd_key r)) in *.
  assert (Hl : length ct = Nat.min cs (length later) + TAGBYTES) by (unfold ct; by rewrite seal_length, length_take).
  assert (Hc : take (cs + TAGBYTES) (rd_inner r) = ct /\
            drop (cs + TAGBYTES) (rd_inner r) = stream cs (rd_key r) (increment (rd_nonce r)) (drop cs later)).
  { rewrite Hi. destruct (decide (cs <= length later)).
    - rewrite Nat.min_l in Hl by done. rewrite <-Hl. by rewrite take_app_length, drop_app_length.
    - rewrite (drop_ge later) by lia. rewrite stream_nil, app_nil_r, take_ge, drop_ge by lia. done. }
  destruct Hc as [Hct Hcd]. exists ct, (drop (cs + TAGBYTES) (rd_inner r)).
  unfold _read_chunk. rewrite Hb, Hct. rewrite (proj2 (Nat.eqb_neq _ _)) by (unfold TAGBYTES in Hl; lia).
  split; [done|]. split; [unfold decrypt, ct; by rewrite open_seal|]. split; [done|].
  rewrite Hcd, Hi, length_app. unfold TAGBYTES in Hl. lia.
Qed.

Lemma read_chunks_stream fuel cs n buf r later :
  0 < cs -> rd_chunk_buffer r = cs + TAGBYTES -> rd_inner r = stream cs (rd_key r) (rd_nonce r) later ->
  (length buf < n -> rd_rest r = []) -> length buf <= n -> n <= length buf + length later ->
  length (rd_inner r) < fuel ->
  exists r', read_chunks increment fuel n buf r =
      Some (inl ((buf ++ take (n - length buf) later)%list, r')) /\
    reads_as cs (rd_rest r ++ drop (n - length buf) later)%list r'.
Proof using SL.
  intros Hcs. revert buf r later. induction fuel as [|fuel IH]; intros buf r later Hb Hi Hrest Hle Hlen Hf; [lia|].
  cbn [read_chunks]. destruct (length buf <? n)%nat eqn:E; cycle 1.
  { apply Nat.ltb_ge in E. replace (n - length buf) with 0 by lia. rewrite take_0, drop_0, app_nil_r.
    exists r. split; [done|]. split; [done|]. by exists later. }
  apply Nat.ltb_lt in E. specialize (Hrest E).
  assert (Hne : later <> []) by (intros ->; cbn in Hlen; lia).
  destruct (read_chunk_stream cs r later Hcs Hb Hne Hi) as (ct & inner' & Er & Hd & Hi' & Hlt).
  rewrite Er. cbn [rd_key rd_nonce rd_rest rd_chunk_buffer rd_inner]. rewrite Hd, Hrest. cbn [app].
  set (need := n - length buf).
  assert (Hct : length (take cs later) = Nat.min cs (length later)) by apply length_take.
  assert (Hpos : 0 < length later) by (destruct later; [done|cbn; lia]).
  destruct (decide (length (take cs later) < need)) as [Hsmall|Hbig].
  - rewrite Nat.min_l by lia. rewrite firstn_all. rewrite Nat.ltb_irrefl, andb_false_r.
    assert (Hcs' : length (take cs later) = cs) by (unfold need in Hsmall; lia).
    destruct (IH (buf ++ take cs later)%list
      (mkReader [] (rd_chunk_buffer r) (rd_key r) (increment (rd_nonce r)) inner') (drop cs later))
      as (r' & Er' & Hr'); cbn [rd_key rd_nonce rd_rest rd_chunk_buffer rd_inner]; rewrite ?length_app, ?length_drop;
      try done; try (unfold need in *; lia).
    exists r'. rewrite Er'. rewrite length_app, Hcs' in Hr' |- *. split.
    + rewrite <-app_assoc. do 4 f_equal. rewrite <-(take_drop cs later) at 3.
      rewrite take_app, take_take, Hcs'. f_equal; [f_equal; unfold need in *; lia|]. f_equal. unfold need. lia.
    + cbn [app rd_rest] in *. rewrite drop_drop in Hr'. replace (cs + (n - (length buf + cs))) with need in Hr' by (unfold need in *; lia).
      done.
  - rewrite Nat.min_r by lia.
    assert (Hlb : length (buf ++ take need (take cs later))%list = n) by (rewrite length_app, length_take; unfold need in *; lia).
    assert (Htake : take need (take cs later) = take need later).
    { rewrite take_take. f_equal. lia. }
    rewrite Hlb, Nat.eqb_refl. cbn [andb].
    destruct fuel as [|fuel]; [lia|]. cbn [read_chunks]. rewrite Hlb, Nat.ltb_irrefl. rewrite Htake.
    eexists. split; [done|]. split; [done|]. cbn [rd_key rd_nonce rd_rest rd_chunk_buffer rd_inner].
    exists (drop cs later). split; [|done].
    assert (Hrest' : (if (need <? length (take cs later))%nat then drop need (take cs later) else []) = drop need (take cs later)).
    { destruct (need <? length (take cs later))%nat eqn:En; [done|]. apply Nat.ltb_ge in En. by rewrite drop_ge by lia. }
    rewrite Hrest', <-(take_drop cs later) at 1. rewrite drop_app_le by lia. done.
Qed.

(** One call of [read] when the stream has enough data. *)
Lemma read_stream cs data r n :
  0 < cs -> reads_as cs data r -> n <= length data ->
  exists r', read increment r n = Some (inl (take n data, r')) /\ reads_as cs (drop n data) r'.
Proof using SL.
  intros Hcs (Hb & later & -> & Hi) Hn. unfold read. rewrite length_app in Hn.
  set (k := Nat.min (length (rd_rest r)) n).
  assert (Hk : length (take k (rd_rest r)) = k) by (rewrite length_take; lia).
  destruct (read_chunks_stream (Datatypes.S (length (rd_inner r))) cs n (take k (rd_rest r))
    (mkReader (drop k (rd_rest r)) (rd_chunk_buffer r) (rd_key r) (rd_nonce r) (rd_inner r)) later)
    as (r' & Er & Hr'); cbn [rd_key rd_nonce rd_rest rd_chunk_buffer rd_inner]; rewrite ?Hk; try done; try lia.
  { intros. apply drop_ge. unfold k in *. lia. }
  exists r'. rewrite Er, Hk. cbn [rd_rest] in Hr'. rewrite Hk in Hr'.
  rewrite take_app, drop_app. unfold k in *. destruct (decide (length (rd_rest r) <= n)).
  - rewrite Nat.min_l in * by lia. rewrite !(take_ge (rd_rest r)), !(drop_ge (rd_rest r)) in * by lia. done.
  - rewrite Nat.min_r in * by lia. replace (n - n) with 0 in * by lia.
    replace (n - length (rd_rest r)) with 0 by lia. rewrite take_0, drop_0 in *. done.
Qed.

(** Asking for more than the stream has. *)
Lemma read_chunks_eof fuel cs n buf r later :
  0 < cs -> rd_chunk_buffer r = cs + TAGBYTES -> rd_inner r = stream cs (rd_key r) (rd_nonce r) later ->
  length buf + length later < n -> length (rd_inner r) < fuel ->
  read_chunks increment fuel n buf r = Some (inr UnexpectedEof).
Proof using SL.
  intros Hcs. revert buf r later. induction fuel as [|fuel IH]; intros buf r later Hb Hi Hn Hf; [lia|].
  cbn [read_chunks]. rewrite (proj2 (Nat.ltb_lt _ _)) by lia.
  destruct later as [|b later0] eqn:El.
  { unfold _read_chunk. rewrite Hi, stream_nil, take_nil. done. }
  rewrite <-El in *. assert (Hne : later <> []) by (by subst).
  destruct (read_chunk_stream cs r later Hcs Hb Hne Hi) as (ct & inner' & Er & Hd & Hi' & Hlt).
  rewrite Er. cbn [rd_key rd_nonce rd_rest rd_chunk_buffer rd_inner]. rewrite Hd.
  assert (Hct : length (take cs later) = Nat.min cs (length later)) by apply length_take.
  rewrite Nat.min_l by lia. rewrite firstn_all, Nat.ltb_irrefl, andb_false_r.
  eapply (IH _ _ (drop cs later)); cbn [rd_key rd_nonce rd_rest rd_chunk_buffer rd_inner]; try done; [|lia].
  rewrite length_app, length_drop. lia.
Qed.

Lemma read_stream_eof cs data r n :
  0 < cs -> reads_as cs data r -> length data < n -> read increment r n = Some (inr UnexpectedEof).
Proof using SL.
  intros Hcs (Hb & later & -> & Hi) Hn. rewrite length_app in Hn. unfold read.
  eapply (read_chunks_eof _ cs _ _ _ later); cbn [rd_key rd_nonce rd_rest rd_chunk_buffer rd_inner]; try done; [|lia].
  rewrite length_take. lia.
Qed.

(** *** Termination *)
Lemma read_chunks_returns fuel n buf r :
  length (rd_inner r) < fuel -> exists x, read_chunks increment fuel n buf r = Some x.
Proof using Type.
  revert buf r. induction fuel as [|fuel IH]; intros buf r Hf; [lia|]. cbn [read_chunks].
  destruct (length buf <? n)%nat; [|by eexists]. unfold _read_chunk.
  destruct (length (take (rd_chunk_buffer r) (rd_inner r)) =? 0)%nat eqn:E; [by eexists|].
  apply Nat.eqb_neq in E. rewrite length_take in E.
  cbn [rd_key rd_nonce rd_rest rd_chunk_buffer rd_inner].
  destruct (decrypt _ _ _); [|by eexists|by eexists]. apply IH.
  cbn [rd_inner]. rewrite length_drop. lia.
Qed.

(** *** Sequences of writes and reads *)
Fixpoint write_pieces (w : Writer) (pieces : list bytes) : option Writer :=
  match pieces with
  | [] => Some w
  | x :: pieces' => match write increment w x with Some w' => write_pieces w' pieces' | None => None end
  end.
Fixpoint read_pieces (r : Reader) (sizes : list nat) : option ((list bytes * Reader) + IoError) :=
  match sizes with
  | [] => Some (inl ([], r))
  | n :: sizes' =>
      match read increment r n with
      | Some (inl (b, r')) =>
          match read_pieces r' sizes' with
          | Some (inl (bs, r'')) => Some (inl (b :: bs, r''))
          | o => o
          end
      | Some (inr e) => Some (inr e)
      | None => None
      end
  end.
Fixpoint split_sizes (data : bytes) (sizes : list nat) : list bytes :=
  match sizes with [] => [] | n :: sizes' => take n data :: split_sizes (drop n data) sizes' end.

Lemma write_pieces_writes cs key nonce0 inner0 pieces data w :
  0 < cs -> writes cs key nonce0 inner0 data w ->
  exists w', write_pieces w pieces = Some w' /\ writes cs key nonce0 inner0 (data ++ concat pieces)%list w'.
Proof using Type.
  intros Hcs. revert data w. induction pieces as [|x pieces IH]; intros data w Hw; cbn [write_pieces concat].
  { rewrite app_nil_r. by exists w. }
  destruct (writes_write _ _ _ _ _ _ x Hcs Hw) as (w1 & -> & H1).
  destruct (IH _ _ H1) as (w2 & E2 & H2). exists w2. by rewrite app_assoc.
Qed.

Lemma read_pieces_reads cs sizes data r :
  0 < cs -> reads_as cs data r ->
  if (sum_list sizes <=? length data)%nat
  then exists r', read_pieces r sizes = Some (inl (split_sizes data sizes, r')) /\
                  reads_as cs (drop (sum_list sizes) data) r'
  else read_pieces r sizes = Some (inr UnexpectedEof).
Proof using SL.
  intros Hcs. revert data r. induction sizes as [|n sizes IH]; intros data r Hr; cbn [read_pieces split_sizes].
  { rewrite drop_0. by exists r. }
  change (sum_list (n :: sizes)) with (n + sum_list sizes).
  destruct (decide (n <= length data)) as [Hn|Hn].
  - destruct (read_stream cs data r n Hcs Hr Hn) as (r1 & -> & H1). specialize (IH _ _ H1).
    rewrite length_drop in IH.
    assert (E : (sum_list sizes <=? length data - n)%nat = (n + sum_list sizes <=? length data)%nat).
    { destruct (Nat.leb_spec (sum_list sizes) (length data - n)), (Nat.leb_spec (n + sum_list sizes) (length data)); lia. }
    rewrite E in IH. revert IH. destruct (n + sum_list sizes <=? length data)%nat; intros IH.
    + destruct IH as (r' & -> & H'). exists r'. split; [done|]. by rewrite drop_drop in H'.
    + by rewrite IH.
  - rewrite (proj2 (Nat.leb_gt _ _)) by lia. by rewrite (read_stream_eof cs data) by (done || lia).
Qed.
End Facts.

(** ** Properties *)
Section Properties.
Context (S : Sodium) (SL : SodiumLaws S) (increment : bytes -> bytes).

(** Encrypted streams round-trip.  Data written in pieces of any sizes and flushed is
    read back in pieces of any other sizes, byte for byte, for every chunk size the reader
    can allocate; a read that goes beyond the end of the data fails with [UnexpectedEof]
    instead of returning less. *)
Theorem stream_roundtrip p cs key nonce pieces sizes :
  0 < cs -> (Z.of_nat (cs + TAGBYTES) < 2 ^ 63)%Z ->
  let data := concat pieces in
  exists w r,
    write_pieces increment (writer_new [] key nonce cs) pieces = Some w /\
    reader_new p (wr_inner (flush increment w)) key nonce (Z.of_nat cs) = Ok r /\
    if (sum_list sizes <=? length data)%nat
    then exists r', read_pieces increment r sizes = Some (inl (split_sizes data sizes, r'))
    else read_pieces increment r sizes = Some (inr UnexpectedEof).
Proof using SL.
  intros Hcs Hmax data.
  destruct (write_pieces_writes increment cs key nonce [] pieces [] _ Hcs (writes_new increment cs key nonce [] Hcs))
    as (w & Ew & Hw).
  apply (writes_flush increment) in Hw as Hf; [|done]. cbn [app] in Hf.
  exists w, (mkReader [] (cs + TAGBYTES) key nonce (stream increment cs key nonce data)).
  split; [done|]. split.
  - unfold reader_new. rewrite Hf. rewrite <-Nat2Z.inj_add.
    rewrite (proj2 (Z.leb_le _ _)) by (unfold usize_max; lia). cbn [obind].
    rewrite (proj2 (Z.ltb_ge _ _)) by lia. by rewrite Nat2Z.id.
  - pose proof (read_pieces_reads increment cs sizes data
      (mkReader [] (cs + TAGBYTES) key nonce (stream increment cs key nonce data)) Hcs) as H.
    revert H. destruct (sum_list sizes <=? length data)%nat; intros H.
    + destruct H as (r' & E & _); [by split; [|exists data]|]. by exists r'.
    + apply H. by split; [|exists data].
Qed.

(** C38: Reading an encrypted stream always ends: for every file, whatever its contents and
    whatever chunk size its header names, a call of [read] returns after at most one round
    per byte left in the file. *)
Theorem read_terminates r n : exists x, read increment r n = Some x.
Proof using Type. unfold read. apply read_chunks_returns. cbn [rd_inner]. lia. Qed.
End Properties.

(** A chunk size of zero makes [write] loop for ever; [export_continue] uses 1024. *)
Lemma zero_chunk_size_loops (S : Sodium) increment fuel buffer key nonce inner :
  write_chunks increment fuel buffer 0 key nonce 0 inner = None.
Proof.
  revert nonce inner. induction fuel as [|fuel IH]; intros nonce inner; cbn; [done|]. apply IH.
Qed.

(** A file whose header names a chunk size of nearly [usize::MAX] panics the reader instead
    of being refused. *)
Theorem huge_chunk_size_panics p inner key nonce :
  reader_new p inner key nonce (2 ^ 63)%Z = Panic /\ reader_new Debug inner key nonce usize_max = Panic.
Proof. by destruct p. Qed.

Lemma stream_roundtrip_witness :
  exists w r,
    write_pieces (S := demo_sodium) (map (Z.add 1)) (writer_new [] [7]%Z (replicate 12 0%Z) 3)
      [[1; 2]%Z; []; [3; 4; 5; 6; 7]%Z; [8]%Z] = Some w /\
    reader_new Debug (wr_inner (flush (S := demo_sodium) (map (Z.add 1)) w)) [7]%Z (replicate 12 0%Z) 3%Z = Ok r /\
    exists r', read_pieces (S := demo_sodium) (map (Z.add 1)) r [1; 4; 3] =
      Some (inl ([[1]%Z; [2; 3; 4; 5]%Z; [6; 7; 8]%Z], r')).
Proof.
  exact (stream_roundtrip demo_sodium demo_sodium_laws (map (Z.add 1)) Debug 3 [7]%Z (replicate 12 0%Z)
    [[1; 2]%Z; []; [3; 4; 5; 6; 7]%Z; [8]%Z] [1; 4; 3] ltac:(lia) ltac:(by vm_compute)).
Defined.
