(* ===== verification/ExportImport.v ===== *)
(** * Wallet export and import

    [libindy/indy-wallet/src/export_import.rs]: an export file is a plain header (length,
    MessagePack) followed by an encrypted stream with the hash of the header, one
    length-prefixed record after the other, and a zero length.

    MessagePack, the hash and the iteration order of [HashMap] are parameters; so are the
    random numbers of every record that import adds to the new wallet. *)

From stdpp Require Import base list strings numbers gmap.
From Stdlib Require Import ZArith Lia.
From S2P Require Import Prelude WalletCrypto WalletStorage SqliteStorage Wallet KeyDerivation ChunkStream.

Open Scope string_scope.

Definition CHUNK_SIZE : nat := 1024.
Definition HASHBYTES : nat := 32.

(** [EncryptionMethod] and [Header]. *)
Inductive EncryptionMethod :=
  | ChaCha20Poly1305IETF (salt nonce : bytes) (chunk_size : Z)
  | ChaCha20Poly1305IETFInteractive (salt nonce : bytes) (chunk_size : Z)
  | ChaCha20Poly1305IETFRaw (nonce : bytes) (chunk_size : Z).

Record Header := mkHeader { encryption_method : EncryptionMethod; time : Z; version : Z }.

(** [Record] of [indy-api-types/src/domain/wallet/mod.rs]. *)
Record ExportRecord := mkExportRecord {
  er_type : string;
  er_id : string;
  er_value : string;
  er_tags : gmap string string
}.

Class ExportCodec := {
  header_to_vec : Header -> bytes;
  header_from_slice : bytes -> option Header;
  record_to_vec : ExportRecord -> bytes;
  record_from_slice : bytes -> option ExportRecord;
  file_hash : bytes -> bytes;
  iter_tags : gmap string string -> list (string * string)
}.
Class ExportCodecLaws (E : ExportCodec) := {
  header_back h : header_from_slice (header_to_vec h) = Some h;
  record_back r : record_from_slice (record_to_vec r) = Some r;
  header_nonempty h : 0 < length (header_to_vec h);
  record_nonempty r : 0 < length (record_to_vec r);
  file_hash_length b : length (file_hash b) = HASHBYTES;
  iter_tags_perm m : iter_tags m ≡ₚ map_to_list m
}.

(** [len as u32] in little-endian order, and [read_u32]. *)
Definition write_u32 (n : nat) : bytes := le_bytes 4 (Z.of_nat n mod 2 ^ 32).
Definition read_u32 (b : bytes) : nat := Z.to_nat (of_le_bytes b).

(** A loop that does not end has no result; it is kept apart from [Err] as [Panic]. *)
Definition returns {A : Type} (o : option A) : outcome A :=
  match o with Some a => Ok a | None => Panic end.

Section ExportImport.
Context {S : Sodium} {K : KeyCodec} {E : ExportCodec} (increment : bytes -> bytes) (p : Profile).

(** [_map_io_err]: the two kinds the reader produces. *)
Definition _map_io_err (e : IoError) : IndyError := err_msg InvalidStructure "Invalid export file format".

(** ** Export *)
Section Export.
Context {W : WalletStorage} (wallet : Wallet).

Definition missing (what : string) : IndyError :=
  err_msg InvalidState ("No " +:+ what +:+ " fetched for exported record").
Definition ok_or {A : Type} (o : option A) (e : IndyError) : outcome A :=
  match o with Some a => Ok a | None => Err e end.

Definition record_bytes (r : ExportRecord) : bytes :=
  let b := record_to_vec r in (write_u32 (length b) ++ b)%list.

(** The loop over the records. *)
Fixpoint export_loop (fuel : nat) (writer : Writer) : SM (storage * iter) Writer :=
  match fuel with
  | 0 => fun s => (s, Panic)
  | Datatypes.S fuel' =>
      let* r := wallet_next wallet in
      match r with
      | None => sm_ret writer
      | Some rec =>
          let* type_ := sm_lift (ok_or (wr_type rec) (missing "type")) in
          let* value := sm_lift (ok_or (wr_value rec) (missing "value")) in
          let* tags := sm_lift (ok_or (wr_tags rec) (missing "tags")) in
          let record := record_to_vec (mkExportRecord type_ (wr_id rec) value tags) in
          let* writer := sm_lift (returns (write increment writer (write_u32 (length record)))) in
          let* writer := sm_lift (returns (write increment writer record)) in
          export_loop fuel' writer
      end
  end.

Definition export_header (key_data : KeyDerivationData) (nonce : bytes) (now version : Z) : Header :=
  let chunk_size := Z.of_nat CHUNK_SIZE in
  mkHeader (match key_data with
            | Argon2iMod _ salt => ChaCha20Poly1305IETF salt nonce chunk_size
            | Argon2iInt _ salt => ChaCha20Poly1305IETFInteractive salt nonce chunk_size
            | Raw _ => ChaCha20Poly1305IETFRaw nonce chunk_size
            end) now version.

(** [export_continue] into a new file; the result is the contents of the file. *)
Definition export_continue (fuel : nat) (nonce : bytes) (now version : Z) (key : bytes)
    (key_data : KeyDerivationData) : SM storage bytes :=
  let header := header_to_vec (export_header key_data nonce now version) in
  let plain := (write_u32 (length header) ++ header)%list in
  let* writer := sm_lift (returns (write increment (writer_new plain key nonce CHUNK_SIZE) (file_hash header))) in
  let* records := wallet_get_all in
  fun s =>
    let '((s', _), r) := (let* writer := export_loop fuel writer in
                          let* writer := sm_lift (returns (write increment writer (write_u32 0))) in
                          sm_ret (wr_inner (flush increment writer))) (s, records) in
    (s', r).
End Export.

(** ** Import *)
(** [read_exact] on the plain file. *)
Definition take_exact (n : nat) (file : bytes) : outcome (bytes * bytes) :=
  if (length file <? n)%nat then Err (_map_io_err UnexpectedEof) else Ok (take n file, drop n file).

Definition nonce_from_slice (b : bytes) : outcome bytes :=
  if (length b =? NONCEBYTES)%nat then Ok b else Err (err_msg InvalidStructure "Invalid nonce").

(** [preparse_file_to_import]: the rest of the file, how to derive the key, the nonce, the
    chunk size and the bytes of the header. *)
Definition preparse_file_to_import (file : bytes) (passphrase : string)
  : outcome (bytes * KeyDerivationData * bytes * Z * bytes) :=
  let? (len, reader) := take_exact 4 file in
  let header_len := read_u32 len in
  if (header_len =? 0)%nat then Err (err_msg InvalidStructure "Invalid header length")
  else
    let? (header_bytes, reader) := take_exact header_len reader in
    let? header := ok_or (header_from_slice header_bytes)
                     (err_msg InvalidStructure "Header is malformed json") in
    if negb (version header =? 0)%Z then Err (err_msg InvalidStructure "Unsupported version")
    else
      let salted salt nonce chunk_size mk :=
        let? salt := ok_or (salt_from_slice salt) (err_msg InvalidStructure "Invalid salt") in
        let? nonce := nonce_from_slice nonce in
        Ok (mk passphrase salt, nonce, chunk_size) in
      let? (key_data, nonce, chunk_size) :=
        match encryption_method header with
        | ChaCha20Poly1305IETF salt nonce chunk_size => salted salt nonce chunk_size Argon2iMod
        | ChaCha20Poly1305IETFInteractive salt nonce chunk_size => salted salt nonce chunk_size Argon2iInt
        | ChaCha20Poly1305IETFRaw nonce chunk_size =>
            let? nonce := nonce_from_slice nonce in Ok (Raw passphrase, nonce, chunk_size)
        end in
      Ok (reader, key_data, nonce, chunk_size, header_bytes).

(** [read_exact] on the encrypted stream. *)
Definition read_exact (reader : Reader) (n : nat) : outcome (bytes * Reader) :=
  match read increment reader n with
  | Some (inl x) => Ok x
  | Some (inr e) => Err (_map_io_err e)
  | None => Panic
  end.

Section Import.
Context {W : WalletStorage} (wallet : Wallet) (rnds : nat -> Randomness).

(** The loop over the records; [i] counts them. *)
Fixpoint import_loop (fuel i : nat) (reader : Reader) : SM storage unit :=
  match fuel with
  | 0 => fun s => (s, Panic)
  | Datatypes.S fuel' =>
      let* (len, reader) := sm_lift (read_exact reader 4) in
      let record_len := read_u32 len in
      if (record_len =? 0)%nat then sm_ret ()
      else
        let* (record, reader) := sm_lift (read_exact reader record_len) in
        let* record := sm_lift (ok_or (record_from_slice record)
                                  (err_msg InvalidStructure "Record is malformed msgpack")) in
        let* _ := wallet_add wallet (rnds i) (er_type record) (er_id record) (er_value record)
                    (iter_tags (er_tags record)) in
        import_loop fuel' (Datatypes.S i) reader
  end.

Definition finish_import (fuel : nat) (file key nonce : bytes) (chunk_size : Z) (header_bytes : bytes)
  : SM storage unit :=
  let* reader := sm_lift (reader_new p file key nonce chunk_size) in
  let* (header_hash, reader) := sm_lift (read_exact reader HASHBYTES) in
  if negb (bool_decide (file_hash header_bytes = header_hash))
  then sm_fail (err_msg InvalidStructure "Invalid header hash")
  else import_loop fuel 0 reader.
End Import.
End ExportImport.

(** ** Facts *)
Lemma read_write_u32 n : (Z.of_nat n < 2 ^ 32)%Z -> read_u32 (write_u32 n) = n.
Proof.
  intros Hn. unfold read_u32, write_u32. rewrite Z.mod_small by lia.
  rewrite of_le_bytes_le by lia. apply Nat2Z.id.
Qed.
Lemma length_write_u32 n : length (write_u32 n) = 4.
Proof. apply length_le_bytes. Qed.

Lemma take_u32 n l : take 4 (write_u32 n ++ l)%list = write_u32 n.
Proof. by rewrite <-(length_write_u32 n), take_app_length. Qed.
Lemma drop_u32 n l : drop 4 (write_u32 n ++ l)%list = l.
Proof. by rewrite <-(length_write_u32 n), drop_app_length. Qed.

Lemma lift_ok {T A B : Type} (m : outcome A) (k : A -> SM T B) s a :
  m = Ok a -> sm_bind (sm_lift m) k s = k a s.
Proof. by intros ->. Qed.

(** The record of the file for a record of the wallet. *)
Definition exported (kx : (string * string) * PlainRecord) : ExportRecord :=
  mkExportRecord kx.1.1 kx.1.2 (pr_value kx.2) (pr_tags kx.2).

Section Facts.
Context {S : Sodium} {SL : SodiumLaws S} {K : KeyCodec} {E : ExportCodec} {EL : ExportCodecLaws E}.
Context {C : OptionsCodec} (increment : bytes -> bytes) (p : Profile).

Definition body (pl : list ((string * string) * PlainRecord)) : bytes :=
  concat ((record_bytes ∘ exported) <$> pl).

Lemma body_cons kx pl : body (kx :: pl) = (record_bytes (exported kx) ++ body pl)%list.
Proof using Type. done. Qed.

Lemma export_loop_writes {W : WalletStorage} {WL : StorageLaws W} wallet fuel w cs key nonce0 inner0 data s i pl :
  healthy -> st_ok s -> it_ok s i -> lists wallet (remaining s i) pl -> length pl < fuel ->
  it_options i = mkRecordOptions true true true -> 0 < cs -> writes increment cs key nonce0 inner0 data w ->
  exists s' i' w', export_loop increment wallet fuel w (s, i) = ((s', i'), Ok w') /\
    writes increment cs key nonce0 inner0 (data ++ body pl)%list w' /\ st_ok s' /\ view s' = view s.
Proof using SL.
  intros Hh. revert w data s i pl.
  induction fuel as [|fuel IH]; intros w data s i pl Hok Hit Hl Hf Ho Hcs Hw; [lia|].
  destruct (next_lists wallet s i pl Hh Hok Hit Hl) as (s1 & i1 & Hok1 & Hit1 & Hv1 & Ho1 & Hn).
  cbn [export_loop]. destruct pl as [|[[t n] x] pl].
  - rewrite (sm_bind_ok _ _ _ _ _ Hn). exists s1, i1, w. split; [done|]. by rewrite app_nil_r.
  - destruct Hn as [Hn Hl1]. cbn [length] in Hf. rewrite (sm_bind_ok _ _ _ _ _ Hn). rewrite Ho.
    cbn [fst snd]. set (b := record_to_vec (exported ((t, n), x))).
    destruct (writes_write increment _ _ _ _ _ _ (write_u32 (length b)) Hcs Hw) as (w1 & E1 & Hw1).
    destruct (writes_write increment _ _ _ _ _ _ b Hcs Hw1) as (w2 & E2 & Hw2).
    destruct (IH w2 _ s1 i1 pl Hok1 Hit1 Hl1 ltac:(lia) ltac:(congruence) Hcs Hw2)
      as (s2 & i2 & w3 & E3 & Hw3 & Hok2 & Hv2).
    exists s2, i2, w3. split.
    + do 3 (erewrite lift_ok by reflexivity).
      etransitivity; [apply lift_ok; exact (f_equal returns E1)|].
      etransitivity; [apply lift_ok; exact (f_equal returns E2)|]. exact E3.
    + split; [|split; [done|congruence]]. rewrite body_cons. unfold record_bytes. fold b.
      by rewrite !app_assoc.
Qed.

(** The file of an export. *)
Definition export_file (key_data : KeyDerivationData) (nonce : bytes) (now : Z) (key : bytes)
    (pl : list ((string * string) * PlainRecord)) : bytes :=
  let header := header_to_vec (export_header key_data nonce now 0) in
  (write_u32 (length header) ++ header ++
   stream increment CHUNK_SIZE key nonce (file_hash header ++ body pl ++ write_u32 0))%list.

Lemma export_continue_file {W : WalletStorage} {WL : StorageLaws W} wallet fuel nonce now key key_data s w :
  healthy -> st_ok s -> represents wallet (view s) w -> size w < fuel ->
  exists s' pl, export_continue increment wallet fuel nonce now 0 key key_data s =
      (s', Ok (export_file key_data nonce now key pl)) /\
    pl ≡ₚ map_to_list w /\ st_ok s' /\ view s' = view s.
Proof using SL.
  intros Hh Hok Hrep Hf. unfold export_continue. set (header := header_to_vec _).
  assert (Hcs : 0 < CHUNK_SIZE) by (unfold CHUNK_SIZE; lia).
  destruct (writes_write increment _ _ _ _ _ _ (file_hash header) Hcs
    (writes_new increment CHUNK_SIZE key nonce (write_u32 (length header) ++ header)%list Hcs)) as (w1 & E1 & Hw1).
  erewrite lift_ok by (by rewrite E1).
  destruct (wallet_get_all s) as [s1 r] eqn:Ega. pose proof Ega as Eg.
  apply law_get_all in Eg as (Hok1 & Hv1 & Hp & Hg & Hi); [|done]. destruct (Hg Hh) as [i ->].
  destruct (Hi i eq_refl) as (Hit & Hrem & Ho).
  destruct (represents_lists wallet _ _ _ Hrep Hrem) as (pl & Hpl & Hl).
  rewrite (sm_bind_ok _ _ _ _ _ Ega).
  assert (Hlen : length pl < fuel) by (rewrite Hpl, length_map_to_list; done).
  destruct (export_loop_writes wallet fuel w1 _ _ _ _ _ s1 i pl Hh Hok1 Hit Hl Hlen Ho Hcs Hw1)
    as (s2 & i2 & w2 & E2 & Hw2 & Hok2 & Hv2).
  rewrite (sm_bind_ok _ _ _ _ _ E2).
  destruct (writes_write increment _ _ _ _ _ _ (write_u32 0) Hcs Hw2) as (w3 & E3 & Hw3).
  erewrite lift_ok by (by rewrite E3). unfold sm_ret.
  exists s2, pl. split; [|split; [done|]; split; [done|congruence]].
  do 2 f_equal. rewrite (writes_flush increment _ _ _ _ _ _ Hcs Hw3). unfold export_file. fold header.
  cbn [app]. by rewrite <-!app_assoc.
Qed.

(** *** Reading the file back *)
Lemma preparse_export_file passphrase salt m nonce now key pl :
  length salt = SALTBYTES -> length nonce = NONCEBYTES ->
  let key_data := from_passphrase_with_new_salt salt passphrase m in
  let header := header_to_vec (export_header key_data nonce now 0) in
  (Z.of_nat (length header) < 2 ^ 32)%Z ->
  preparse_file_to_import (export_file key_data nonce now key pl) passphrase =
  Ok (stream increment CHUNK_SIZE key nonce (file_hash header ++ body pl ++ write_u32 0)%list,
      key_data, nonce, Z.of_nat CHUNK_SIZE, header).
Proof using EL.
  intros Hs Hn key_data header Hlen. unfold export_file. fold header. unfold preparse_file_to_import, take_exact.
  set (rest := stream _ _ _ _ _). rewrite (proj2 (Nat.ltb_ge _ _)) by (rewrite length_app, length_write_u32; lia).
  cbn [obind]. rewrite take_u32, drop_u32, read_write_u32 by done.
  pose proof (header_nonempty (export_header key_data nonce now 0)) as Hne. fold header in Hne.
  rewrite (proj2 (Nat.eqb_neq _ _)) by lia.
  rewrite (proj2 (Nat.ltb_ge _ _)) by (rewrite length_app; lia). cbn [obind].
  rewrite take_app_length, drop_app_length. unfold header at 1. rewrite header_back. cbn [ok_or obind].
  change (version (export_header key_data nonce now 0)) with 0%Z. cbn [Z.eqb negb].
  unfold export_header. cbn [encryption_method]. unfold salt_from_slice, nonce_from_slice, key_data.
  destruct m; cbn [from_passphrase_with_new_salt]; rewrite ?Hs, ?Hn, ?Nat.eqb_refl; cbn [ok_or obind];
    rewrite ?Hn, ?Nat.eqb_refl; done.
Qed.

Lemma read_exact_stream cs data r n :
  0 < cs -> reads_as increment cs data r -> n <= length data ->
  exists r', read_exact increment r n = Ok (take n data, r') /\ reads_as increment cs (drop n data) r'.
Proof using SL.
  intros Hcs Hr Hn. destruct (read_stream increment cs data r n Hcs Hr Hn) as (r' & Er & Hr').
  exists r'. unfold read_exact. by rewrite Er.
Qed.

Lemma read_exact_app cs a data r :
  0 < cs -> reads_as increment cs (a ++ data)%list r ->
  exists r', read_exact increment r (length a) = Ok (a, r') /\ reads_as increment cs data r'.
Proof using SL.
  intros Hcs Hr. destruct (read_exact_stream cs _ r (length a) Hcs Hr) as (r' & Er & Hr').
  { rewrite length_app. lia. }
  rewrite take_app_length in Er. rewrite drop_app_length in Hr'. by exists r'.
Qed.

Definition importable (kx : (string * string) * PlainRecord) : Prop :=
  rust_string kx.1.1 /\ rust_string kx.1.2 /\ rust_string (pr_value kx.2) /\
  map_Forall (fun n v => rust_string n /\ rust_string v) (pr_tags kx.2) /\
  (Z.of_nat (length (record_to_vec (exported kx))) < 2 ^ 32)%Z.

Lemma rust_tags_iter m :
  map_Forall (fun n v => rust_string n /\ rust_string v) m -> rust_tags (iter_tags m).
Proof using EL.
  intros Hm. destruct (permuted_names _ _ (iter_tags_perm m)) as [Hnd _]. split; [done|].
  apply Forall_forall. intros [n v] Hx. rewrite iter_tags_perm in Hx.
  apply elem_of_map_to_list in Hx. by apply (Hm n v).
Qed.

(** Adding a record that is not there, on a healthy storage. *)
Lemma add_new_record {W : WalletStorage} {WL : StorageLaws W} wallet rnd s w kx :
  healthy -> st_ok s -> represents wallet (view s) w -> randomness_ok rnd -> importable kx -> w !! kx.1 = None ->
  exists s', wallet_add wallet rnd kx.1.1 kx.1.2 (pr_value kx.2) (iter_tags (pr_tags kx.2)) s = (s', Ok ()) /\
    st_ok s' /\ represents wallet (view s') (<[kx.1 := kx.2]> w).
Proof using SL EL.
  intros Hh Hok Hrep Hr (H1 & H2 & H3 & H4 & _) Hnew. destruct kx as [[t n] [v tags]]. cbn [fst snd pr_value pr_tags] in *.
  destruct (wallet_add wallet rnd t n v (iter_tags tags) s) as [s' r] eqn:Ea.
  eapply (wallet_op_follows wallet (WAdd rnd t n v (iter_tags tags))) in Ea as [Hok' Hf];
    [|done|done|by split; [|split; [|split; [|split; [|apply rust_tags_iter]]]]].
  destruct (permuted_names _ _ (iter_tags_perm tags)) as [_ Htags].
  exists s'. destruct r as [[]|e|]; cbn in Hf; [| |done].
  - destruct Hf as (w' & Hw & Hrep'). rewrite Hnew in Hw. injection Hw as <-. rewrite Htags in Hrep'. done.
  - destruct Hf as [_ Hf]. destruct (Hf Hh) as [Hs _]. by rewrite Hnew in Hs.
Qed.

Lemma import_loop_adds {W : WalletStorage} {WL : StorageLaws W} wallet rnds fuel i r s w pl :
  healthy -> st_ok s -> represents wallet (view s) w -> (forall n, randomness_ok (rnds n)) ->
  NoDup pl.*1 -> Forall importable pl -> (forall kx, kx ∈ pl -> w !! kx.1 = None) -> length pl < fuel ->
  reads_as increment CHUNK_SIZE (body pl ++ write_u32 0)%list r ->
  exists s', import_loop increment wallet rnds fuel i r s = (s', Ok ()) /\ st_ok s' /\
    represents wallet (view s') (list_to_map pl ∪ w).
Proof using SL EL.
  intros Hh. revert i r s w pl. induction fuel as [|fuel IH]; intros i r s w pl Hok Hrep Hrnd Hnd Himp Hnew Hf Hr; [lia|].
  assert (Hcs : 0 < CHUNK_SIZE) by (unfold CHUNK_SIZE; lia).
  cbn [import_loop]. destruct pl as [|kx pl].
  - cbn [body] in Hr. change (body []) with (@nil Z) in Hr. cbn [app] in Hr.
    rewrite <-(app_nil_r (write_u32 0)) in Hr.
    destruct (read_exact_app _ (write_u32 0) [] r Hcs Hr) as (r1 & E1 & _). rewrite length_write_u32 in E1.
    erewrite lift_ok by exact E1. cbv beta iota. rewrite read_write_u32 by lia. exists s.
    split; [done|]. split; [done|]. by rewrite list_to_map_nil, (left_id_L ∅ (∪)).
  - apply Forall_cons in Himp as [Hkx Himp]. cbn [fmap list_fmap] in Hnd. apply NoDup_cons in Hnd as [Hk Hnd].
    rewrite body_cons in Hr. unfold record_bytes in Hr. set (b := record_to_vec (exported kx)) in *.
    rewrite <-!app_assoc in Hr.
    destruct (read_exact_app _ _ _ r Hcs Hr) as (r1 & E1 & Hr1). rewrite length_write_u32 in E1.
    destruct (read_exact_app _ b _ r1 Hcs Hr1) as (r2 & E2 & Hr2).
    erewrite lift_ok by exact E1. cbv beta iota. rewrite read_write_u32 by apply Hkx.
    rewrite (proj2 (Nat.eqb_neq _ _)) by (pose proof (record_nonempty (exported kx)); unfold b; lia).
    erewrite lift_ok by exact E2. cbv beta iota. unfold b at 1. erewrite lift_ok by (by rewrite record_back).
    destruct (add_new_record wallet (rnds i) s w kx) as (s1 & Ea & Hok1 & Hrep1); [done|done|done|done|done|apply Hnew; left|].
    cbn [exported er_type er_id er_value er_tags]. rewrite (sm_bind_ok _ _ _ _ _ Ea).
    destruct (IH (Datatypes.S i) r2 s1 (<[kx.1 := kx.2]> w) pl) as (s2 & El & Hok2 & Hrep2); [done|done|done|done|done| |cbn in Hf; lia|done|].
    { intros y Hy. rewrite lookup_insert_ne; [apply Hnew; by right|].
      intros Ey. apply Hk. rewrite Ey. by apply list_elem_of_fmap_2. }
    exists s2. split; [done|]. split; [done|]. destruct kx as [k x]. cbn [fst snd list_to_map foldr] in *.
    change (list_to_map ((k, x) :: pl)) with (<[k := x]> (list_to_map pl) : PlainWallet).
    rewrite <-insert_union_l, insert_union_r; [done|]. by apply not_elem_of_list_to_map_1.
Qed.
End Facts.

(** ** Properties *)
Section Properties.
Context (S : Sodium) (SL : SodiumLaws S) (K : KeyCodec) (E : ExportCodec) (EL : ExportCodecLaws E).
Context (C : OptionsCodec) (increment : bytes -> bytes) (p : Profile).

Lemma importable_records wallet v w :
  represents wallet v w ->
  map_Forall (fun k x => (Z.of_nat (length (record_to_vec (exported (k, x)))) < 2 ^ 32)%Z) w ->
  Forall importable (map_to_list w).
Proof using Type.
  intros (Hk & e & _ & He) Hrl. apply Forall_forall. intros [k x] Hkx%elem_of_map_to_list.
  destruct (Hk k x Hkx) as [H1 H2].
  specialize (He k). rewrite Hkx in He. inversion He as [i ? Hi E0 E0'|]; subst.
  destruct Hi as (_ & _ & H3 & H4). by split; [|split; [|split; [|split; [|apply Hrl]]]].
Qed.

Lemma reader_of_file data key nonce file :
  file = stream increment CHUNK_SIZE key nonce data ->
  exists r, reader_new p file key nonce (Z.of_nat CHUNK_SIZE) = Ok r /\ reads_as increment CHUNK_SIZE data r.
Proof using Type.
  intros ->. eexists. split.
  - unfold reader_new. change (Z.of_nat CHUNK_SIZE + Z.of_nat TAGBYTES)%Z with 1040%Z.
    change (1040 <=? usize_max)%Z with true. cbn [obind]. change (2 ^ 63 - 1 <? 1040)%Z with false. done.
  - split; [done|]. by exists data.
Qed.

(** Exporting a wallet and importing the file gives the wallet back.  Exporting from a
    healthy storage succeeds and leaves the wallet as it was; the passphrase of the export
    derives the key of the file from the file's own header; and importing the file into any
    empty wallet, with its own keys and its own storage, succeeds and yields exactly the
    plaintext records of the exported wallet. *)
Lemma export_then_import
    (W1 : WalletStorage) (L1 : StorageLaws W1)
    wallet1 passphrase m salt nonce now key fuel (s1 : @storage W1) w :
  @healthy _ W1 L1 -> st_ok s1 -> represents wallet1 (view s1) w ->
  length salt = SALTBYTES -> length nonce = NONCEBYTES ->
  calc_master_key (from_passphrase_with_new_salt salt passphrase m) = Ok key ->
  (Z.of_nat (length (header_to_vec (export_header (from_passphrase_with_new_salt salt passphrase m)
                                     nonce now 0))) < 2 ^ 32)%Z ->
  map_Forall (fun k x => (Z.of_nat (length (record_to_vec (exported (k, x)))) < 2 ^ 32)%Z) w ->
  size w < fuel ->
  exists s1' file rest key_data nonce' chunk_size header_bytes,
    export_continue increment wallet1 fuel nonce now 0 key
      (from_passphrase_with_new_salt salt passphrase m) s1 = (s1', Ok file) /\
    st_ok s1' /\ view s1' = view s1 /\
    preparse_file_to_import file passphrase = Ok (rest, key_data, nonce', chunk_size, header_bytes) /\
    calc_master_key key_data = Ok key /\
    forall (W2 : WalletStorage) (L2 : StorageLaws W2) wallet2 rnds (s2 : @storage W2),
      @healthy _ W2 L2 -> st_ok s2 -> represents wallet2 (view s2) ∅ -> (forall n, randomness_ok (rnds n)) ->
      exists s2', finish_import increment p wallet2 rnds fuel rest key nonce' chunk_size header_bytes s2 = (s2', Ok ()) /\
        st_ok s2' /\ represents wallet2 (view s2') w.
Proof using SL EL.
  intros Hh1 Hok1 Hrep1 Hs Hn Hkey Hhl Hrl Hf.
  destruct (export_continue_file increment wallet1 fuel nonce now key (from_passphrase_with_new_salt salt passphrase m)
    s1 w Hh1 Hok1 Hrep1 Hf) as (s1' & pl & Eexp & Hpl & Hok1' & Hv1).
  pose proof (preparse_export_file increment passphrase salt m nonce now key pl Hs Hn Hhl) as Epre.
  set (kd := from_passphrase_with_new_salt salt passphrase m) in *. set (header := header_to_vec _) in *.
  destruct (reader_of_file (file_hash header ++ body pl ++ write_u32 0)%list key nonce _ eq_refl) as (r & Er & Hr).
  assert (Hcs : 0 < CHUNK_SIZE) by (unfold CHUNK_SIZE; lia).
  destruct (read_exact_app increment _ _ _ r Hcs Hr) as (r1 & E1 & Hr1). rewrite file_hash_length in E1.
  exists s1', (export_file increment kd nonce now key pl). do 5 eexists.
  split; [exact Eexp|]. split; [done|]. split; [done|]. split; [exact Epre|]. split; [done|].
  intros W2 L2 wallet2 rnds s2 Hh2 Hok2 Hrep2 Hrnd.
  destruct (import_loop_adds increment wallet2 rnds fuel 0 r1 s2 ∅ pl Hh2 Hok2 Hrep2 Hrnd)
    as (s2' & Eimp & Hok2' & Hrep2').
  - rewrite Hpl. apply NoDup_fst_map_to_list.
  - rewrite Hpl. by eapply importable_records.
  - intros. apply lookup_empty.
  - rewrite Hpl, length_map_to_list. done.
  - done.
  - exists s2'. split; [|split; [done|]].
    + unfold finish_import. rewrite (lift_ok _ _ _ _ Er), (lift_ok _ _ _ _ E1). cbv beta iota.
      by rewrite bool_decide_eq_true_2.
    + rewrite (right_id_L ∅ (∪)) in Hrep2'.
      rewrite (list_to_map_proper pl (map_to_list w)) in Hrep2' by (done || rewrite Hpl; apply NoDup_fst_map_to_list).
      by rewrite list_to_map_to_list in Hrep2'.
Qed.

(** A file that cannot be authenticated imports nothing: when the first chunk does not
    open under the derived key, or the hash in the stream is not that of the header that was
    read, [finish_import] fails with [InvalidStructure] before it touches the wallet. *)
Theorem import_refuses_foreign_file (W : WalletStorage) wallet rnds fuel file key nonce header_bytes (s : @storage W) :
  (match open (take (CHUNK_SIZE + TAGBYTES) file) nonce key with
   | None => True
   | Some chunk => HASHBYTES <= length chunk /\ take HASHBYTES chunk <> file_hash header_bytes
   end) ->
  exists msg, finish_import increment p wallet rnds fuel file key nonce (Z.of_nat CHUNK_SIZE) header_bytes s =
    (s, Err (err_msg InvalidStructure msg)).
Proof using Type.
  intros Hopen. unfold finish_import.
  assert (Er : reader_new p file key nonce (Z.of_nat CHUNK_SIZE) =
               Ok (mkReader [] (CHUNK_SIZE + TAGBYTES) key nonce file)).
  { unfold reader_new. change (Z.of_nat CHUNK_SIZE + Z.of_nat TAGBYTES)%Z with 1040%Z.
    change (1040 <=? usize_max)%Z with true. cbn [obind]. change (2 ^ 63 - 1 <? 1040)%Z with false. done. }
  rewrite (lift_ok _ _ _ _ Er). unfold read_exact, read.
  cbn [rd_rest rd_inner rd_chunk_buffer rd_key rd_nonce length Nat.min take drop read_chunks].
  change (0 <? HASHBYTES)%nat with true. cbv iota. unfold _read_chunk.
  cbn [rd_rest rd_inner rd_chunk_buffer rd_key rd_nonce].
  destruct (length (take (CHUNK_SIZE + TAGBYTES) file) =? 0)%nat eqn:E0; [by eexists|].
  unfold decrypt. cbn [rd_rest rd_inner rd_chunk_buffer rd_key rd_nonce].
  destruct (open _ nonce key) as [chunk|] eqn:Eo; [|by eexists].
  destruct Hopen as [Hlen Hne]. rewrite Nat.sub_0_r, Nat.min_r by done. cbn [app].
  apply Nat.eqb_neq in E0. rewrite length_take in E0. assert (Hfile : 0 < length file) by lia.
  destruct (length file) as [|n] eqn:El; [lia|]. cbn [read_chunks].
  assert (Htl : length (take HASHBYTES chunk) = HASHBYTES) by (rewrite length_take; lia).
  rewrite Htl. change (HASHBYTES <? HASHBYTES)%nat with false. cbv iota.
  unfold sm_bind at 1, sm_lift. rewrite bool_decide_eq_false_2 by (intros Eh; by apply Hne). by eexists.
Qed.
End Properties.

(** ** Example *)
(** A codec through stdpp's encoding of countable types as numbers. *)
Definition demo_header (h : Header) : (bytes * bytes * Z) + (bytes * bytes * Z) + (bytes * Z) :=
  match encryption_method h with
  | ChaCha20Poly1305IETF s n c => inl (inl (s, n, c))
  | ChaCha20Poly1305IETFInteractive s n c => inl (inr (s, n, c))
  | ChaCha20Poly1305IETFRaw n c => inr (n, c)
  end.
Definition demo_method (x : (bytes * bytes * Z) + (bytes * bytes * Z) + (bytes * Z)) : EncryptionMethod :=
  match x with
  | inl (inl (s, n, c)) => ChaCha20Poly1305IETF s n c
  | inl (inr (s, n, c)) => ChaCha20Poly1305IETFInteractive s n c
  | inr (n, c) => ChaCha20Poly1305IETFRaw n c
  end.

#[export] Instance demo_export_codec : ExportCodec := {
  header_to_vec h := [Z.pos (countable.encode (demo_header h, time h, version h))];
  header_from_slice l :=
    match l with
    | [Z.pos n] => '(x, t, v) ← countable.decode n; Some (mkHeader (demo_method x) t v)
    | _ => None
    end;
  record_to_vec r := [Z.pos (countable.encode (er_type r, er_id r, er_value r, map_to_list (er_tags r)))];
  record_from_slice l :=
    match l with
    | [Z.pos n] => '(t, i, v, tags) ← countable.decode n; Some (mkExportRecord t i v (list_to_map tags))
    | _ => None
    end;
  file_hash b := take HASHBYTES (b ++ replicate 32 0%Z)%list;
  iter_tags m := map_to_list m
}.
#[export] Instance demo_export_codec_laws : ExportCodecLaws demo_export_codec.
Proof.
  split; try (intros; cbn; lia); try done.
  - intros [[] t v]; cbn -[countable.encode countable.decode]; by rewrite countable.decode_encode.
  - intros [t i v tags]; cbn -[countable.encode countable.decode]. rewrite countable.decode_encode. cbn.
    by rewrite list_to_map_to_list.
  - intros b. cbn [file_hash demo_export_codec]. rewrite length_take, length_app, length_replicate.
    unfold HASHBYTES. lia.
Qed.

Definition other_wallet : Wallet := mkWallet "copy" (mkKeys [11]%Z [12]%Z [13]%Z [14]%Z [15]%Z [16]%Z [17]%Z).

Lemma import_refuses_foreign_file_witness :
  let W := @SQLiteStorage (demo_sqlite true [] []) demo_options Debug in
  exists msg, finish_import (S := demo_sodium) (map (Z.add 1)) Debug other_wallet (fun _ => demo_rnd) 2 [1; 2; 3]%Z [7]%Z
    (replicate 12 0%Z) (Z.of_nat CHUNK_SIZE) [5]%Z (empty_connection : @storage W) =
    (empty_connection, Err (err_msg InvalidStructure msg)).
Proof.
  cbv zeta. apply (import_refuses_foreign_file demo_sodium demo_export_codec (map (Z.add 1)) Debug
    (@SQLiteStorage (demo_sqlite true [] []) demo_options Debug)).
  vm_compute. exact I.
Defined.
