(* ===== verification/WalletService.v ===== *)
(** * The wallet service

    [WalletService] of [libindy/indy-wallet/src/lib.rs]: registered storage types, open
    wallets by handle, the ids of open wallets, and the openings and imports that wait for
    their keys (the service prepares, the caller derives the keys, the service continues).
    The process around it is part of the state: the counter of handles, the world of the
    storages and the export files.

    Random keys, nonces and salts are arguments of the operations that draw them.  The JSON
    codecs of values and objects, and the errors of the file system of exports, are
    parameters. *)

From stdpp Require Import base list strings numbers gmap.
From Stdlib Require Import ZArith Lia.
From S2P Require Import Prelude Errors Json Wql WalletCrypto WalletQuery WalletStorage StorageType SqliteStorage SqliteStorageType Wallet KeyDerivation ChunkStream ExportImport.

Open Scope string_scope.

(** ** Configuration *)
Record Config := mkConfig {
  cfg_id : string;
  storage_type : option string;
  storage_config : option Value
}.
Record Credentials := mkCredentials {
  cr_key : string;
  rekey : option string;
  storage_credentials : option Value;
  key_derivation_method : KeyDerivationMethod;
  rekey_derivation_method : KeyDerivationMethod
}.
Record ExportConfig := mkExportConfig {
  ec_key : string;
  ec_path : string;
  ec_method : KeyDerivationMethod
}.

(** [indy_utils::sequence::get_next_id]: a counter of [usize], cast to [i32]. *)
Definition as_i32 (n : Z) : Z := let m := (n mod 2 ^ 32)%Z in if (m <? 2 ^ 31)%Z then m else (m - 2 ^ 32)%Z.

(** [rsplitn(2, "::").next()]: what follows the last [::]. *)
Definition colon : Ascii.ascii := Ascii.ascii_of_nat 58.
Fixpoint last_segment (seg s : string) : string :=
  match s with
  | EmptyString => seg
  | String a s' =>
      match s' with
      | String b s'' => if Ascii.eqb a colon && Ascii.eqb b colon then last_segment "" s''
                        else last_segment (seg +:+ String a "") s'
      | EmptyString => seg +:+ String a ""
      end
  end.
Definition short_type_name (type_name : string) : string := last_segment "" type_name.

Definition PREFIX : string := "Indy".
Definition add_prefix (type_ : string) : string := PREFIX +:+ "::" +:+ type_.

(** serde's reader and writer of the objects of a type, with the name of the type. *)
Class Serde (T : Type) := {
  type_name : string;
  to_json : T -> option string;
  from_json : string -> option T
}.
Arguments type_name T {_}.

Class Platform := {
  value_to_string : Value -> string;
  export_dir_error : string -> option IndyError;
  export_open_error : string -> option IndyError;
  import_open_error : string -> option IndyError
}.

Section Service.
Context {S : Sodium} {C : OptionsCodec} {K : KeyCodec} {E : ExportCodec} {W : WalletStorage} {Wd : World W} {Pf : Platform}.
Context (increment : bytes -> bytes) (p : Profile).

Record OpenWallet := mkOpenWallet { ow_wallet : Wallet; ow_conn : conn }.
Record PendingOpen := mkPendingOpen {
  po_id : string;
  po_storage : conn;
  po_metadata : Metadata;
  po_rekey : option KeyDerivationData
}.
Record PendingImport := mkPendingImport {
  pi_reader : bytes;
  pi_nonce : bytes;
  pi_chunk_size : Z;
  pi_header : bytes;
  pi_key_data : KeyDerivationData
}.

Record Service := mkService {
  storage_types : gmap string (WalletStorageType W);
  wallets : gmap Z OpenWallet;
  wallet_ids : gset string;
  pending_for_open : gmap Z PendingOpen;
  pending_for_import : gmap Z PendingImport;
  ids_counter : Z;
  the_world : world;
  export_files : gmap string bytes
}.

Definition set_storage_types x (s : Service) := mkService x (wallets s) (wallet_ids s) (pending_for_open s) (pending_for_import s) (ids_counter s) (the_world s) (export_files s).
Definition set_wallets x (s : Service) := mkService (storage_types s) x (wallet_ids s) (pending_for_open s) (pending_for_import s) (ids_counter s) (the_world s) (export_files s).
Definition set_wallet_ids x (s : Service) := mkService (storage_types s) (wallets s) x (pending_for_open s) (pending_for_import s) (ids_counter s) (the_world s) (export_files s).
Definition set_pending_open x (s : Service) := mkService (storage_types s) (wallets s) (wallet_ids s) x (pending_for_import s) (ids_counter s) (the_world s) (export_files s).
Definition set_pending_import x (s : Service) := mkService (storage_types s) (wallets s) (wallet_ids s) (pending_for_open s) x (ids_counter s) (the_world s) (export_files s).
Definition set_counter x (s : Service) := mkService (storage_types s) (wallets s) (wallet_ids s) (pending_for_open s) (pending_for_import s) x (the_world s) (export_files s).
Definition set_world x (s : Service) := mkService (storage_types s) (wallets s) (wallet_ids s) (pending_for_open s) (pending_for_import s) (ids_counter s) x (export_files s).
Definition set_exports x (s : Service) := mkService (storage_types s) (wallets s) (wallet_ids s) (pending_for_open s) (pending_for_import s) (ids_counter s) (the_world s) x.

Abbreviation SV := (SM Service).
Definition gets {A : Type} (f : Service -> A) : SV A := fun s => (s, Ok (f s)).
Definition modify (f : Service -> Service) : SV unit := fun s => (f s, Ok ()).
Definition in_world {A : Type} (m : SM world A) : SV A :=
  fun s => let (w, r) := m (the_world s) in (set_world w s, r).

(** [WalletService::new] in a process that has not given out any id. *)
Definition service_new (default_type : WalletStorageType W) (w : world) (files : gmap string bytes) : Service :=
  mkService {[ "default" := default_type ]} ∅ ∅ ∅ ∅ 1 w files.

(** [register_wallet_storage]; the type is the one [PluggedStorageType::new] makes of the
    caller's functions. *)
Definition register_wallet_storage (type_ : string) (plugged : WalletStorageType W) : SV unit :=
  let* types := gets storage_types in
  match types !! type_ with
  | Some _ => sm_fail (err_msg WalletStorageTypeAlreadyRegistered
                ("Wallet storage is already registered for type: " +:+ type_))
  | None => modify (set_storage_types (<[type_ := plugged]> types))
  end.

Definition _get_config_and_cred_for_storage (config : Config) (credentials : Credentials)
    (types : gmap string (WalletStorageType W)) : outcome (WalletStorageType W * option string * option string) :=
  match types !! default "default" (storage_type config) with
  | None => Err (err_msg UnknownWalletStorageType "Unknown wallet storage type")
  | Some ty => Ok (ty, value_to_string <$> storage_config config, value_to_string <$> storage_credentials credentials)
  end.

Definition _get_wallet_id (config : Config) : string :=
  let wallet_path := default "" (storage_config config ≫= fun v => as_str (index v "path")) in
  cfg_id config +:+ wallet_path.

Definition _is_id_from_config_not_used (config : Config) : SV unit :=
  let* ids := gets wallet_ids in
  if bool_decide (_get_wallet_id config ∈ ids)
  then sm_fail (err_msg WalletAlreadyOpened ("Wallet " +:+ _get_wallet_id config +:+ " already opened"))
  else sm_ret ().

Definition next_wallet_handle : SV Z :=
  fun s => (set_counter (ids_counter s + 1)%Z s, Ok (as_i32 (ids_counter s + 1))).

Definition _open_storage (config : Config) (credentials : Credentials) : SV conn :=
  let* types := gets storage_types in
  let* (ty, scfg, scred) := sm_lift (_get_config_and_cred_for_storage config credentials types) in
  in_world (ty_open ty (cfg_id config) scfg scred).

(** ** Creating *)
Definition _create_wallet (keys : Keys) (nonce : bytes) (config : Config) (credentials : Credentials)
    (key_data : KeyDerivationData) (master_key : bytes) : SV Keys :=
  let* types := gets storage_types in
  let* (ty, scfg, scred) := sm_lift (_get_config_and_cred_for_storage config credentials types) in
  let* metadata := sm_lift (_prepare_metadata nonce master_key key_data keys) in
  let* _ := in_world (ty_create ty (cfg_id config) scfg scred metadata) in
  sm_ret keys.

Definition create_wallet (keys : Keys) (nonce : bytes) (config : Config) (credentials : Credentials)
    (key_data : KeyDerivationData) (master_key : bytes) : SV unit :=
  let* _ := _create_wallet keys nonce config credentials key_data master_key in sm_ret ().

(** ** Opening and closing *)
Definition _open_storage_and_fetch_metadata (config : Config) (credentials : Credentials)
  : SV (conn * Metadata * KeyDerivationData) :=
  let* c := _open_storage config credentials in
  let* b := in_world (on c st_get_metadata) in
  let* metadata := sm_lift (ok_or (metadata_from_slice b) (err_msg InvalidState "Cannot deserialize metadata")) in
  let* kd := sm_lift (from_passphrase_and_metadata (cr_key credentials) metadata (key_derivation_method credentials)) in
  sm_ret (c, metadata, kd).

Definition open_wallet_prepare (rekey_salt : bytes) (config : Config) (credentials : Credentials)
  : SV (Z * KeyDerivationData * option KeyDerivationData) :=
  let* _ := _is_id_from_config_not_used config in
  let* (c, metadata, kd) := _open_storage_and_fetch_metadata config credentials in
  let* wallet_handle := next_wallet_handle in
  let rekey_data := (fun r => from_passphrase_with_new_salt rekey_salt r (rekey_derivation_method credentials))
                    <$> rekey credentials in
  let* _ := modify (fun s => set_pending_open
              (<[wallet_handle := mkPendingOpen (_get_wallet_id config) c metadata rekey_data]> (pending_for_open s)) s) in
  sm_ret (wallet_handle, kd, rekey_data).

Definition open_wallet_continue (nonce : bytes) (wallet_handle : Z) (master_key : bytes) (rekey_key : option bytes) : SV Z :=
  let* pending := gets (fun s => pending_for_open s !! wallet_handle) in
  let* _ := modify (fun s => set_pending_open (base.delete wallet_handle (pending_for_open s)) s) in
  let* po := sm_lift (ok_or pending (err_msg InvalidState "Open data not found")) in
  let* keys := sm_lift (_restore_keys (po_metadata po) master_key) in
  let* _ := match rekey_key, po_rekey po with
            | Some rk, Some rekey_data =>
                let* metadata := sm_lift (_prepare_metadata nonce rk rekey_data keys) in
                in_world (on (po_storage po) (st_set_metadata metadata))
            | _, _ => sm_ret ()
            end in
  let* _ := modify (fun s => set_wallets
              (<[wallet_handle := mkOpenWallet (mkWallet (po_id po) keys) (po_storage po)]> (wallets s)) s) in
  let* _ := modify (fun s => set_wallet_ids ({[po_id po]} ∪ wallet_ids s) s) in
  sm_ret wallet_handle.

Definition unknown_handle : IndyError := err_msg InvalidWalletHandle "Unknown wallet handle".

Definition close_wallet (handle : Z) : SV unit :=
  let* found := gets (fun s => wallets s !! handle) in
  match found with
  | Some ow =>
      let* _ := modify (fun s => set_wallets (base.delete handle (wallets s)) s) in
      let* _ := modify (fun s => set_wallet_ids (wallet_ids s ∖ {[wallet_id (ow_wallet ow)]}) s) in
      in_world (on (ow_conn ow) wallet_close)
  | None => sm_fail unknown_handle
  end.

(** ** Deleting *)
Definition delete_wallet_prepare (config : Config) (credentials : Credentials) : SV (Metadata * KeyDerivationData) :=
  let* ids := gets wallet_ids in
  if bool_decide (_get_wallet_id config ∈ ids)
  then sm_fail (err_msg InvalidState ("Wallet has to be closed before deleting: " +:+ _get_wallet_id config))
  else
    let* (_, metadata, kd) := _open_storage_and_fetch_metadata config credentials in
    sm_ret (metadata, kd).

Definition delete_wallet_continue (config : Config) (credentials : Credentials) (metadata : Metadata)
    (master_key : bytes) : SV unit :=
  let* _ := sm_lift (_restore_keys metadata master_key) in
  let* types := gets storage_types in
  let* (ty, scfg, scred) := sm_lift (_get_config_and_cred_for_storage config credentials types) in
  in_world (ty_delete ty (cfg_id config) scfg scred).

(** ** Records *)
Definition with_wallet {A : Type} (wallet_handle : Z) (f : Wallet -> SM storage A) : SV A :=
  let* found := gets (fun s => wallets s !! wallet_handle) in
  match found with
  | Some ow => in_world (on (ow_conn ow) (f (ow_wallet ow)))
  | None => sm_fail unknown_handle
  end.

Definition _map_wallet_storage_error (err : IndyError) (type_ name : string) : IndyError :=
  match err_kind err with
  | WalletItemAlreadyExists =>
      err_msg WalletItemAlreadyExists ("Wallet item already exists with type: " +:+ type_ +:+ ", id: " +:+ name)
  | WalletItemNotFound =>
      err_msg WalletItemNotFound ("Wallet item not found with type: " +:+ type_ +:+ ", id: " +:+ name)
  | _ => err
  end.
Definition map_err {T A : Type} (f : IndyError -> IndyError) (m : SM T A) : SM T A :=
  fun s => match m s with
           | (s', Err e) => (s', Err (f e))
           | r => r
           end.
Definition mapped {A : Type} (type_ name : string) (m : SM storage A) : SM storage A :=
  map_err (fun e => _map_wallet_storage_error e type_ name) m.

Definition add_record (rnd : Randomness) (wallet_handle : Z) (type_ name value : string)
    (tags : list (string * string)) : SV unit :=
  with_wallet wallet_handle (fun wallet => mapped type_ name (wallet_add wallet rnd type_ name value tags)).
Definition update_record_value (rnd : Randomness) (wallet_handle : Z) (type_ name value : string) : SV unit :=
  with_wallet wallet_handle (fun wallet => mapped type_ name (wallet_update wallet rnd type_ name value)).
Definition add_record_tags (wallet_handle : Z) (type_ name : string) (tags : list (string * string)) : SV unit :=
  with_wallet wallet_handle (fun wallet => mapped type_ name (wallet_add_tags wallet type_ name tags)).
Definition update_record_tags (wallet_handle : Z) (type_ name : string) (tags : list (string * string)) : SV unit :=
  with_wallet wallet_handle (fun wallet => mapped type_ name (wallet_update_tags wallet type_ name tags)).
Definition delete_record_tags (wallet_handle : Z) (type_ name : string) (tag_names : list string) : SV unit :=
  with_wallet wallet_handle (fun wallet => mapped type_ name (wallet_delete_tags wallet type_ name tag_names)).
Definition delete_record (wallet_handle : Z) (type_ name : string) : SV unit :=
  with_wallet wallet_handle (fun wallet => mapped type_ name (wallet_delete wallet type_ name)).
Definition get_record (wallet_handle : Z) (type_ name options_json : string) : SV WalletRecord :=
  with_wallet wallet_handle (fun wallet => mapped type_ name (wallet_get wallet type_ name options_json)).

Definition check (handle : Z) : SV unit :=
  let* found := gets (fun s => wallets s !! handle) in
  match found with Some _ => sm_ret () | None => sm_fail unknown_handle end.

(** ** Objects: records whose type is that of the object *)
Section Objects.
Context (T : Type) {Sd : Serde T}.

Definition object_type : string := add_prefix (short_type_name (type_name T)).
Definition serialize (object : T) : outcome string :=
  ok_or (to_json object) (err_msg InvalidState ("Cannot serialize " +:+ short_type_name (type_name T))).

Definition add_indy_record (rnd : Randomness) (wallet_handle : Z) (name value : string)
    (tags : list (string * string)) : SV unit :=
  add_record rnd wallet_handle object_type name value tags.
Definition add_indy_object (rnd : Randomness) (wallet_handle : Z) (name : string) (object : T)
    (tags : list (string * string)) : SV string :=
  let* object_json := sm_lift (serialize object) in
  let* _ := add_indy_record rnd wallet_handle name object_json tags in
  sm_ret object_json.
Definition update_indy_object (rnd : Randomness) (wallet_handle : Z) (name : string) (object : T) : SV string :=
  with_wallet wallet_handle (fun wallet =>
    let* object_json := sm_lift (serialize object) in
    let* _ := wallet_update wallet rnd object_type name object_json in
    sm_ret object_json).
Definition delete_indy_record (wallet_handle : Z) (name : string) : SV unit :=
  delete_record wallet_handle object_type name.
Definition get_indy_record (wallet_handle : Z) (name options_json : string) : SV WalletRecord :=
  get_record wallet_handle object_type name options_json.
Definition get_indy_record_value (wallet_handle : Z) (name options_json : string) : SV string :=
  let* record := with_wallet wallet_handle (fun wallet => wallet_get wallet object_type name options_json) in
  sm_lift (ok_or (wr_value record)
             (err_msg InvalidState (short_type_name (type_name T) +:+ " not found for id: " +:+ name))).
Definition get_indy_object (wallet_handle : Z) (name options_json : string) : SV T :=
  let* record_value := get_indy_record_value wallet_handle name options_json in
  sm_lift (ok_or (from_json record_value)
             (err_msg InvalidState ("Cannot deserialize " +:+ short_type_name (type_name T)))).

(** A missing item as [None]. *)
Definition not_found_as {T' A : Type} (default_ : A) (m : SM T' A) : SM T' A :=
  fun s => match m s with
           | (s', Err e) => if decide (err_kind e = WalletItemNotFound) then (s', Ok default_) else (s', Err e)
           | r => r
           end.
Definition get_indy_opt_object (wallet_handle : Z) (name options_json : string) : SV (option T) :=
  not_found_as None (let* x := get_indy_object wallet_handle name options_json in sm_ret (Some x)).

Definition record_exists (wallet_handle : Z) (name : string) : SV bool :=
  with_wallet wallet_handle (fun wallet =>
    not_found_as false (let* _ := wallet_get wallet object_type name (write_record_options record_options_id) in
                        sm_ret true)).
Definition upsert_indy_object (rnd : Randomness) (wallet_handle : Z) (name : string) (object : T) : SV string :=
  let* found := record_exists wallet_handle name in
  if found : bool then update_indy_object rnd wallet_handle name object
  else add_indy_object rnd wallet_handle name object [].
End Objects.

(** ** Search *)
Record WalletSearch := mkWalletSearch { ws_wallet : Wallet; ws_conn : conn; ws_iter : iter }.

Definition search_records (wallet_handle : Z) (type_ : string) (query : Value) (options_json : string) : SV WalletSearch :=
  let* found := gets (fun s => wallets s !! wallet_handle) in
  match found with
  | Some ow =>
      let* it := in_world (on (ow_conn ow) (wallet_search (ow_wallet ow) type_ query (Some options_json))) in
      sm_ret (mkWalletSearch (ow_wallet ow) (ow_conn ow) it)
  | None => sm_fail unknown_handle
  end.
Definition search_indy_records (T : Type) {Sd : Serde T} (wallet_handle : Z) (query : Value) (options_json : string)
  : SV WalletSearch := search_records wallet_handle (object_type T) query options_json.
(** [unimplemented!()]. *)
Definition search_all_records (wallet_handle : Z) : SV WalletSearch := fun s => (s, Panic).

Definition search_total_count (ws : WalletSearch) : SV (option nat) :=
  in_world (on (ws_conn ws) (wallet_total_count (ws_iter ws))).
Definition fetch_next_record : SM (Service * WalletSearch) (option WalletRecord) :=
  fun '(s, ws) =>
    let '((st, it), r) := wallet_next (ws_wallet ws) (state_of (the_world s) (ws_conn ws), ws_iter ws) in
    ((set_world (with_state (ws_conn ws) st (the_world s)) s, mkWalletSearch (ws_wallet ws) (ws_conn ws) it), r).

(** ** Export and import *)
(** [export_wallet]: the file is created before the records are read; [left_over] is what a
    failed export leaves in it. *)
Definition export_wallet (fuel : nat) (nonce : bytes) (now : Z) (left_over : bytes) (wallet_handle : Z)
    (export_config : ExportConfig) (version : Z) (key_data : KeyDerivationData) (key : bytes) : SV unit :=
  if negb (version =? 0)%Z then sm_fail (err_msg InvalidState "Unsupported version")
  else
    let* found := gets (fun s => wallets s !! wallet_handle) in
    let* ow := sm_lift (ok_or found unknown_handle) in
    let path := ec_path export_config in
    let* _ := match export_dir_error path with Some e => sm_fail e | None => sm_ret () end in
    let* files := gets export_files in
    let* _ := match export_open_error path, files !! path with
              | Some e, _ => sm_fail e
              | None, Some _ => sm_fail (err_msg IOError "File exists")
              | None, None => sm_ret ()
              end in
    fun s =>
      match in_world (on (ow_conn ow) (export_continue increment (ow_wallet ow) fuel nonce now version key key_data)) s with
      | (s', Ok file) => (set_exports (<[path := file]> (export_files s')) s', Ok ())
      | (s', Err e) => (set_exports (<[path := left_over]> (export_files s')) s', Err e)
      | (s', Panic) => (set_exports (<[path := left_over]> (export_files s')) s', Panic)
      end.

Definition import_wallet_prepare (salt : bytes) (config : Config) (credentials : Credentials)
    (export_config : ExportConfig) : SV (Z * KeyDerivationData * KeyDerivationData) :=
  let path := ec_path export_config in
  let* files := gets export_files in
  let* file := sm_lift (match import_open_error path with
                        | Some e => Err e
                        | None => ok_or (files !! path) (err_msg IOError "No such file or directory")
                        end) in
  let* (reader, import_key_derivation_data, nonce, chunk_size, header_bytes) :=
    sm_lift (preparse_file_to_import file (ec_key export_config)) in
  let key_data := from_passphrase_with_new_salt salt (cr_key credentials) (key_derivation_method credentials) in
  let* wallet_handle := next_wallet_handle in
  let* _ := modify (fun s => set_pending_import
              (<[wallet_handle := mkPendingImport reader nonce chunk_size header_bytes key_data]> (pending_for_import s)) s) in
  sm_ret (wallet_handle, key_data, import_key_derivation_data).

(** The end of [import_wallet_continue]: a failed import deletes the new wallet. *)
Definition import_finish (fuel : nat) (rnds : nat -> Randomness) (config : Config) (credentials : Credentials)
    (keys : Keys) (pi : PendingImport) (import_key master_key : bytes) (c : conn) (metadata : bytes) : SV unit :=
  fun s =>
    match in_world (on c (finish_import increment p (mkWallet (_get_wallet_id config) keys) rnds fuel (pi_reader pi)
            import_key (pi_nonce pi) (pi_chunk_size pi) (pi_header pi))) s with
    | (s1, Err e) =>
        (let* metadata := sm_lift (ok_or (metadata_from_slice metadata)
                                     (err_msg InvalidState "Cannot deserialize metadata")) in
         let* _ := delete_wallet_continue config credentials metadata master_key in
         sm_fail e) s1
    | r => r
    end.

Definition import_wallet_continue (fuel : nat) (keys : Keys) (keys_nonce : bytes) (rnds : nat -> Randomness)
    (wallet_handle : Z) (config : Config) (credentials : Credentials) (import_key master_key : bytes) : SV unit :=
  let* pending := gets (fun s => pending_for_import s !! wallet_handle) in
  let* _ := modify (fun s => set_pending_import (base.delete wallet_handle (pending_for_import s)) s) in
  let* pi := sm_lift (returns pending) in
  let* keys := _create_wallet keys keys_nonce config credentials (pi_key_data pi) master_key in
  let* _ := _is_id_from_config_not_used config in
  let* c := _open_storage config credentials in
  let* metadata := in_world (on c st_get_metadata) in
  import_finish fuel rnds config credentials keys pi import_key master_key c metadata.
End Service.

(** ** Handles and ids *)
Section Invariant.
Context {S : Sodium} {C : OptionsCodec} {K : KeyCodec} {E : ExportCodec} {W : WalletStorage} {Wd : World W} {Pf : Platform}.
Context (increment : bytes -> bytes) (p : Profile).

(** One call of the service, or of another part of the process that draws an id. *)
Inductive service_step : Service -> Service -> Prop :=
  | step_id s : service_step s (set_counter (ids_counter s + 1)%Z s)
  | step_register t ty s : service_step s (register_wallet_storage t ty s).1
  | step_create keys nonce config credentials kd mk s :
      service_step s (create_wallet keys nonce config credentials kd mk s).1
  | step_open_prepare salt config credentials s : service_step s (open_wallet_prepare salt config credentials s).1
  | step_open_continue nonce h key rekey_key s : service_step s (open_wallet_continue nonce h key rekey_key s).1
  | step_close h s : service_step s (close_wallet h s).1
  | step_delete_prepare config credentials s : service_step s (delete_wallet_prepare config credentials s).1
  | step_delete_continue config credentials md mk s :
      service_step s (delete_wallet_continue config credentials md mk s).1
  | step_record {A : Type} h (f : Wallet -> SM storage A) s : service_step s (with_wallet h f s).1
  | step_search h t query options s : service_step s (search_records h t query options s).1
  | step_next ws s : service_step s (fetch_next_record (s, ws)).1.1
  | step_export fuel nonce now left_over h ec version kd key s :
      service_step s (export_wallet increment fuel nonce now left_over h ec version kd key s).1
  | step_import_prepare salt config credentials ec s :
      service_step s (import_wallet_prepare salt config credentials ec s).1
  | step_import_continue fuel keys nonce rnds h config credentials ik mk s :
      service_step s (import_wallet_continue increment p fuel keys nonce rnds h config credentials ik mk s).1.

(** What a handle can stand for. *)
Definition used (s : Service) (h : Z) : Prop :=
  is_Some (wallets s !! h) \/ is_Some (pending_for_open s !! h) \/ is_Some (pending_for_import s !! h).

Record service_ok (s : Service) : Prop := mkServiceOk {
  ok_counter : (1 <= ids_counter s)%Z;
  ok_open_ids id : id ∈ wallet_ids s -> exists h ow, wallets s !! h = Some ow /\ wallet_id (ow_wallet ow) = id;
  ok_handles h : used s h -> exists n, (1 < n <= ids_counter s)%Z /\ h = as_i32 n;
  ok_wallet h : is_Some (wallets s !! h) -> pending_for_open s !! h = None /\ pending_for_import s !! h = None;
  ok_pending h : is_Some (pending_for_open s !! h) -> pending_for_import s !! h = None
}.

Lemma as_i32_inj n k : (1 < n <= 2 ^ 32)%Z -> (1 < k <= 2 ^ 32)%Z -> as_i32 n = as_i32 k -> n = k.
Proof using Type.
  intros Hn Hk. unfold as_i32.
  assert (H : forall x, (1 < x <= 2 ^ 32)%Z -> (x mod 2 ^ 32 = if x =? 2 ^ 32 then 0 else x)%Z).
  { intros x Hx. destruct (Z.eqb_spec x (2 ^ 32)) as [->|]; [done|]. apply Z.mod_small. lia. }
  rewrite !H by done. destruct (Z.eqb_spec n (2 ^ 32)), (Z.eqb_spec k (2 ^ 32));
    repeat match goal with |- context [Z.ltb ?a ?b] => destruct (Z.ltb_spec a b) end; lia.
Qed.

(** Operations that touch only the storages and the export files. *)
Definition quiet {A : Type} (m : SM Service A) : Prop :=
  forall s, exists w ex, (m s).1 = set_world w (set_exports ex s).

Lemma quiet_same {A : Type} (m : SM Service A) : (forall s, (m s).1 = s) -> quiet m.
Proof using Type. intros H s. exists (the_world s), (export_files s). rewrite H. by destruct s. Qed.
Lemma quiet_bind {A B : Type} (m : SM Service A) (k : A -> SM Service B) :
  quiet m -> (forall a, quiet (k a)) -> quiet (sm_bind m k).
Proof using Type.
  intros Hm Hk s. unfold sm_bind. destruct (Hm s) as (w & ex & H). destruct (m s) as [s1 [a| |]]; cbn [fst] in H; [|eauto..].
  destruct (Hk a s1) as (w' & ex' & ->). exists w', ex'. by rewrite H.
Qed.
Lemma quiet_lift {A : Type} (o : outcome A) : quiet (sm_lift o).
Proof using Type. by apply quiet_same. Qed.
Lemma quiet_gets {A : Type} (f : Service -> A) : quiet (gets f).
Proof using Type. by apply quiet_same. Qed.
Lemma quiet_ret {A : Type} (a : A) : quiet (sm_ret a).
Proof using Type. by apply quiet_same. Qed.
Lemma quiet_fail {A : Type} e : quiet (sm_fail (A := A) e).
Proof using Type. by apply quiet_same. Qed.
Lemma quiet_in_world {A : Type} (m : SM world A) : quiet (in_world m).
Proof using Type.
  intros s. unfold in_world. destruct (m (the_world s)) as [w r]. exists w, (export_files s). by destruct s.
Qed.

Create HintDb quiet.
#[local] Hint Resolve quiet_lift quiet_gets quiet_ret quiet_fail quiet_in_world : quiet.
Ltac quiet := repeat first [ solve [eauto with quiet] | apply quiet_bind; [|intros ?] | case_match ].

Lemma quiet_open_storage config credentials : quiet (_open_storage config credentials).
Proof using Type. unfold _open_storage. quiet. Qed.
#[local] Hint Resolve quiet_open_storage : quiet.
Lemma quiet_fetch config credentials : quiet (_open_storage_and_fetch_metadata config credentials).
Proof using Type. unfold _open_storage_and_fetch_metadata. quiet. Qed.
Lemma quiet_create keys nonce config credentials kd mk : quiet (_create_wallet keys nonce config credentials kd mk).
Proof using Type. unfold _create_wallet. quiet. Qed.
Lemma quiet_not_used config : quiet (_is_id_from_config_not_used config).
Proof using Type. unfold _is_id_from_config_not_used. quiet. Qed.
Lemma quiet_delete config credentials md mk : quiet (delete_wallet_continue config credentials md mk).
Proof using Type. unfold delete_wallet_continue. quiet. Qed.
Lemma quiet_with_wallet {A : Type} h (f : Wallet -> SM storage A) : quiet (with_wallet h f).
Proof using Type. unfold with_wallet. quiet. Qed.
#[local] Hint Resolve quiet_fetch quiet_create quiet_not_used quiet_delete quiet_with_wallet : quiet.

Lemma quiet_export fuel nonce now left_over h ec version kd key :
  quiet (export_wallet increment fuel nonce now left_over h ec version kd key).
Proof using Type.
  unfold export_wallet. case_match; [quiet|]. do 2 (apply quiet_bind; [quiet|intros ?]).
  apply quiet_bind; [quiet|intros _]. apply quiet_bind; [quiet|intros ?]. apply quiet_bind; [quiet|intros _]. intros s.
  destruct (quiet_in_world (on (ow_conn a0) (export_continue increment (ow_wallet a0) fuel nonce now version key kd)) s)
    as (w & ex & Hq). destruct (in_world _ s) as [s' r]. cbn [fst] in Hq. subst s'. destruct r; by do 2 eexists.
Qed.
Lemma quiet_import_finish fuel rnds config credentials keys pi ik mk c md :
  quiet (import_finish increment p fuel rnds config credentials keys pi ik mk c md).
Proof using Type.
  intros s. unfold import_finish. set (m := on c _). destruct (quiet_in_world m s) as (w & ex & H).
  destruct (in_world m s) as [s' [| |]]; cbn [fst] in H; [by eauto| |by eauto]. subst s'.
  match goal with |- context [sm_bind ?m ?k ?s] => assert (Hq : quiet (sm_bind m k)) by quiet; destruct (Hq s) as (w' & ex' & ->) end.
  by do 2 eexists.
Qed.

Lemma quiet_ok {A : Type} (m : SM Service A) s : quiet m -> service_ok s -> service_ok (m s).1.
Proof using Type. intros Hm [H1 H2 H3 H4 H5]. destruct (Hm s) as (w & ex & ->). by split. Qed.

Lemma quiet_counter {A : Type} (m : SM Service A) s : quiet m -> ids_counter (m s).1 = ids_counter s.
Proof using Type. intros Hm. by destruct (Hm s) as (w & ex & ->). Qed.

(** The next handle is not in use while the counter fits 32 bits. *)
Lemma next_handle_fresh s :
  service_ok s -> (ids_counter s + 1 <= 2 ^ 32)%Z -> ~ used s (as_i32 (ids_counter s + 1)).
Proof using Type.
  intros Hs Hb Hu. apply (ok_handles s Hs) in Hu as (n & Hn & E1). pose proof (ok_counter s Hs).
  apply as_i32_inj in E1; lia.
Qed.

Lemma not_used s h :
  ~ used s h -> wallets s !! h = None /\ pending_for_open s !! h = None /\ pending_for_import s !! h = None.
Proof using Type. unfold used. rewrite !eq_None_not_Some. tauto. Qed.

Lemma tick_ok s : service_ok s -> service_ok (set_counter (ids_counter s + 1)%Z s).
Proof using Type.
  intros [H1 H2 H3 H4 H5]. split; cbn; try done; [lia|].
  intros h Hu. destruct (H3 h Hu) as (n & Hn & ->). exists n. split; [lia|done].
Qed.

Lemma new_open_ok s po :
  service_ok s -> (ids_counter s + 1 <= 2 ^ 32)%Z -> let h := as_i32 (ids_counter s + 1) in
  service_ok (set_pending_open (<[h := po]> (pending_for_open s)) (set_counter (ids_counter s + 1)%Z s)).
Proof using Type.
  intros Hs Hb h. destruct (not_used s h (next_handle_fresh s Hs Hb)) as (F1 & F2 & F3).
  pose proof Hs as [H1 H2 H3 H4 H5]. split; cbn; [lia|done|..].
  - intros h' Hu. destruct (decide (h' = h)) as [->|Hne]; [exists (ids_counter s + 1)%Z; split; [lia|done]|].
    destruct (H3 h') as (n & Hn & ->); [|exists n; split; [lia|done]].
    unfold used in *. cbn in Hu. by rewrite lookup_insert_ne in Hu.
  - intros h' Hu. rewrite lookup_insert_ne by (intros <-; rewrite F1 in Hu; by destruct Hu). auto.
  - intros h' [<-|[_ Hu]]%lookup_insert_is_Some; [done|]. by apply H5.
Qed.

Lemma new_import_ok s pi :
  service_ok s -> (ids_counter s + 1 <= 2 ^ 32)%Z -> let h := as_i32 (ids_counter s + 1) in
  service_ok (set_pending_import (<[h := pi]> (pending_for_import s)) (set_counter (ids_counter s + 1)%Z s)).
Proof using Type.
  intros Hs Hb h. destruct (not_used s h (next_handle_fresh s Hs Hb)) as (F1 & F2 & F3).
  pose proof Hs as [H1 H2 H3 H4 H5]. split; cbn; [lia|done|..].
  - intros h' Hu. destruct (decide (h' = h)) as [->|Hne]; [exists (ids_counter s + 1)%Z; split; [lia|done]|].
    destruct (H3 h') as (n & Hn & ->); [|exists n; split; [lia|done]].
    unfold used in *. cbn in Hu. by rewrite lookup_insert_ne in Hu.
  - intros h' Hu. rewrite lookup_insert_ne by (intros <-; rewrite F1 in Hu; by destruct Hu). auto.
  - intros h' Hu. rewrite lookup_insert_ne by (intros <-; rewrite F2 in Hu; by destruct Hu). auto.
Qed.

Lemma drop_open_ok s h : service_ok s -> service_ok (set_pending_open (base.delete h (pending_for_open s)) s).
Proof using Type.
  intros [H1 H2 H3 H4 H5]. split; cbn; try done.
  - intros h' Hu. apply H3. unfold used in *. cbn in Hu. rewrite lookup_delete_is_Some in Hu. tauto.
  - intros h' Hu. destruct (H4 h' Hu) as [E1 E2]. split; [|done]. apply eq_None_not_Some.
    rewrite lookup_delete_is_Some. rewrite E1. by intros [_ []].
  - intros h' [_ Hu]%lookup_delete_is_Some. auto.
Qed.

Lemma drop_import_ok s h : service_ok s -> service_ok (set_pending_import (base.delete h (pending_for_import s)) s).
Proof using Type.
  intros [H1 H2 H3 H4 H5]. assert (Hd : forall h', pending_for_import s !! h' = None -> base.delete h (pending_for_import s) !! h' = None).
  { intros h' Hn. apply eq_None_not_Some. rewrite lookup_delete_is_Some, Hn. by intros [_ []]. }
  split; cbn; try done.
  - intros h' Hu. apply H3. unfold used in *. cbn in Hu. rewrite lookup_delete_is_Some in Hu. tauto.
  - intros h' Hu. destruct (H4 h' Hu). auto.
  - intros h' Hu. auto.
Qed.

(** The end of an opening: the handle moves from the pending openings to the wallets. *)
Lemma opened_ok s h id po ow :
  service_ok s -> pending_for_open s !! h = Some po -> wallet_id (ow_wallet ow) = id ->
  service_ok (set_wallet_ids ({[id]} ∪ wallet_ids s) (set_wallets (<[h := ow]> (wallets s))
    (set_pending_open (base.delete h (pending_for_open s)) s))).
Proof using Type.
  intros Hs Hpo Hid. pose proof Hs as [H1 H2 H3 H4 H5]. split; cbn; [done|..].
  - intros id' [->%elem_of_singleton|Hi]%elem_of_union.
    + exists h, ow. by rewrite lookup_insert_eq.
    + destruct (decide (wallets s !! h = None)) as [Hn|Hn].
      * destruct (H2 id' Hi) as (h' & ow' & Hw & E1). exists h', ow'. rewrite lookup_insert_ne; [done|]. intros <-. congruence.
      * exfalso. destruct (H4 h) as [E1 _]; [|congruence]. by destruct (wallets s !! h).
  - intros h' Hu. apply H3. unfold used in *. cbn in Hu. destruct (decide (h' = h)) as [->|Hne]; [eauto|].
    rewrite lookup_insert_ne, lookup_delete_ne in Hu by done. done.
  - intros h' [<-|Hu]%lookup_insert_is_Some.
    + split; [apply lookup_delete_eq|]. apply H5. by eexists.
    + destruct (H4 h' (proj2 Hu)) as [E1 E2]. split; [|done]. rewrite lookup_delete_ne by apply Hu. done.
  - intros h' [_ Hu]%lookup_delete_is_Some. auto.
Qed.

Lemma closed_ok s h ow :
  service_ok s -> wallets s !! h = Some ow ->
  service_ok (set_wallet_ids (wallet_ids s ∖ {[wallet_id (ow_wallet ow)]}) (set_wallets (base.delete h (wallets s)) s)).
Proof using Type.
  intros [H1 H2 H3 H4 H5] Hl. split; cbn; try done.
  - intros id [Hi Hne%not_elem_of_singleton]%elem_of_difference. destruct (H2 id Hi) as (h' & ow' & Hw & E1).
    exists h', ow'. rewrite lookup_delete_ne; [done|]. intros <-. congruence.
  - intros h' Hu. apply H3. unfold used in *. cbn in Hu. rewrite lookup_delete_is_Some in Hu. tauto.
  - intros h' [_ Hu]%lookup_delete_is_Some. auto.
Qed.

Lemma open_prepare_shape salt config credentials s s' :
  (open_wallet_prepare salt config credentials s).1 = s' ->
  exists w ex, let s2 := set_world w (set_exports ex s) in
    s' = s2 \/ exists po, s' = set_pending_open (<[as_i32 (ids_counter s + 1) := po]> (pending_for_open s2))
                             (set_counter (ids_counter s + 1)%Z s2).
Proof using Type.
  intros E1. unfold open_wallet_prepare, sm_bind at 1 in E1.
  destruct (quiet_not_used config s) as (w1 & ex1 & H1).
  destruct (_is_id_from_config_not_used config s) as [s1 [[]| |]]; cbn [fst] in *; [|exists w1, ex1; subst; by left..].
  unfold sm_bind at 1 in E1. destruct (quiet_fetch config credentials s1) as (w2 & ex2 & H2). exists w2, ex2.
  destruct (_open_storage_and_fetch_metadata config credentials s1) as [s2 [[[c md] kd]| |]]; cbn [fst] in *;
    [|subst; by left..].
  subst. right. by eexists.
Qed.

Lemma import_prepare_shape salt config credentials ec s s' :
  (import_wallet_prepare salt config credentials ec s).1 = s' ->
  s' = s \/ exists pi, s' = set_pending_import (<[as_i32 (ids_counter s + 1) := pi]> (pending_for_import s))
                            (set_counter (ids_counter s + 1)%Z s).
Proof using Type.
  unfold import_wallet_prepare, gets, sm_bind at 1, sm_lift at 1, sm_bind at 1.
  destruct (match import_open_error _ with Some _ => _ | None => _ end) as [file| |]; [|by left..].
  unfold sm_bind at 1, sm_lift at 1. destruct (preparse_file_to_import file _) as [[[[[r kd] n] cs] hb]| |]; [|by left..].
  cbn. intros <-. right. by eexists.
Qed.

Lemma open_continue_ok nonce h key rk s :
  service_ok s -> service_ok (open_wallet_continue nonce h key rk s).1.
Proof using Type.
  intros Hs. unfold open_wallet_continue. unfold gets at 1, sm_bind at 1. unfold modify at 1, sm_bind at 1.
  pose proof (drop_open_ok s h Hs) as H1. set (s1 := set_pending_open (base.delete h (pending_for_open s)) s) in *. unfold sm_bind at 1, sm_lift at 1, ok_or.
  destruct (pending_for_open s !! h) as [po|] eqn:Hpo; [|done].
  unfold sm_bind at 1, sm_lift at 1. destruct (_restore_keys (po_metadata po) key) as [keys| |]; [|done..].
  set (m := match rk with Some _ => _ | None => _ end). assert (Hq : quiet m) by (unfold m; quiet).
  unfold sm_bind at 1. destruct (Hq s1) as (w & ex & Em). destruct (m s1) as [s2 r]. cbn [fst] in Em. subst s2.
  assert (Hq2 : service_ok (set_world w (set_exports ex s))) by (destruct Hs; by split).
  destruct r as [[]| |]; [|destruct H1; by split..].
  exact (opened_ok _ h (po_id po) po (mkOpenWallet (mkWallet (po_id po) keys) (po_storage po)) Hq2 Hpo eq_refl).
Qed.

Lemma close_ok h s : service_ok s -> service_ok (close_wallet h s).1.
Proof using Type.
  intros Hs. unfold close_wallet, gets, sm_bind at 1. destruct (wallets s !! h) as [ow|] eqn:Hl; [|done].
  unfold modify, sm_bind. apply (quiet_ok (in_world (on (ow_conn ow) wallet_close))); [apply quiet_in_world|].
  exact (closed_ok s h ow Hs Hl).
Qed.

Lemma import_continue_ok fuel keys nonce rnds h config credentials ik mk s :
  service_ok s -> service_ok (import_wallet_continue increment p fuel keys nonce rnds h config credentials ik mk s).1.
Proof using Type.
  intros Hs. unfold import_wallet_continue. unfold gets at 1, sm_bind at 1. unfold modify at 1, sm_bind at 1.
  apply quiet_ok; [|by apply drop_import_ok]. quiet. apply quiet_import_finish.
Qed.

Lemma service_step_ok s s' :
  service_step s s' -> service_ok s -> (ids_counter s' <= 2 ^ 32)%Z -> service_ok s'.
Proof using Type.
  intros Hstep Hs Hb. destruct Hstep.
  - by apply tick_ok.
  - unfold register_wallet_storage, gets, sm_bind. destruct (storage_types s !! t); [done|]. destruct Hs; by split.
  - apply quiet_ok; [unfold create_wallet; quiet|done].
  - destruct (open_prepare_shape salt config credentials s _ eq_refl) as (w & ex & [E1|[po E1]]); rewrite E1 in *;
      (assert (H2 : service_ok (set_world w (set_exports ex s))) by (destruct Hs; by split)); [done|].
    by apply (new_open_ok (set_world w (set_exports ex s))).
  - by apply open_continue_ok.
  - by apply close_ok.
  - apply quiet_ok; [unfold delete_wallet_prepare; quiet|done].
  - apply quiet_ok; [quiet|done].
  - apply quiet_ok; [quiet|done].
  - apply quiet_ok; [unfold search_records; quiet|done].
  - unfold fetch_next_record. destruct (wallet_next _ _) as [[st it] r]. destruct Hs; by split.
  - apply quiet_ok; [apply quiet_export|done].
  - destruct (import_prepare_shape salt config credentials ec s _ eq_refl) as [E1|[pi E1]]; rewrite E1 in *; [done|].
    by apply new_import_ok.
  - by apply import_continue_ok.
Qed.

Lemma prepare_counter {A : Type} (m : SM Service A) s : quiet m -> (ids_counter s <= ids_counter (m s).1)%Z.
Proof using Type. intros Hq. by rewrite quiet_counter. Qed.

Lemma service_step_counter s s' : service_step s s' -> (ids_counter s <= ids_counter s')%Z.
Proof using Type.
  intros []; try (apply prepare_counter; unfold create_wallet, delete_wallet_prepare, search_records; quiet; fail).
  - cbn. lia.
  - unfold register_wallet_storage, gets, sm_bind. destruct (storage_types s0 !! t); cbn; lia.
  - destruct (open_prepare_shape salt config credentials s0 _ eq_refl) as (w & ex & [->|[po ->]]); cbn; lia.
  - unfold open_wallet_continue. unfold gets at 1, sm_bind at 1. unfold modify at 1, sm_bind at 1.
    set (s1 := set_pending_open _ s0). unfold sm_bind at 1, sm_lift at 1, ok_or. destruct (pending_for_open s0 !! h) as [po|]; [|done].
    unfold sm_bind at 1, sm_lift at 1. destruct (_restore_keys (po_metadata po) key) as [keys| |]; [|done..].
    set (m := match rekey_key with Some _ => _ | None => _ end). assert (Hq : quiet m) by (unfold m; quiet).
    unfold sm_bind at 1. pose proof (prepare_counter m s1 Hq) as H1. destruct (m s1) as [s2 [[]| |]]; cbn [fst] in H1; done.
  - unfold close_wallet, gets, sm_bind at 1. destruct (wallets s0 !! h) as [ow|]; [|done].
    unfold modify, sm_bind. by rewrite (quiet_counter _ _ (quiet_in_world _)).
  - unfold fetch_next_record. by destruct (wallet_next _ _) as [[st it] r].
  - apply prepare_counter, quiet_export.
  - destruct (import_prepare_shape salt config credentials ec s0 _ eq_refl) as [->|[pi ->]]; cbn; lia.
  - unfold import_wallet_continue. unfold gets at 1, sm_bind at 1. unfold modify at 1, sm_bind at 1.
    rewrite quiet_counter; [done|]. quiet. apply quiet_import_finish.
Qed.

Lemma rtc_counter s s' : rtc service_step s s' -> (ids_counter s <= ids_counter s')%Z.
Proof using Type. induction 1 as [|x y z Hxy _ IH]; [lia|]. apply service_step_counter in Hxy. lia. Qed.

Lemma rtc_steps_ok s s' :
  rtc service_step s s' -> service_ok s -> (ids_counter s' <= 2 ^ 32)%Z -> service_ok s'.
Proof using Type.
  intros Hr. induction Hr as [|s1 s2 s3 H12 H23 IH]; [done|]. intros Hs Hb.
  apply IH; [|done]. eapply service_step_ok; [done..|]. apply rtc_counter in H23. lia.
Qed.

Lemma service_new_ok ty w files : service_ok (service_new ty w files).
Proof using Type. split; cbn; try done; intros *; unfold used; cbn; rewrite ?lookup_empty; try (by intros []); set_solver. Qed.

(** Handles and ids of the service.  In every state the service can reach, as long as the
    process has given out fewer than 2^32 ids: an id that counts as opened belongs to an open
    wallet (so it never stays locked once its wallets are closed), a handle stands for at
    most one of an open wallet, a pending opening and a pending import, and the handle the
    next opening or import gets is not in use. *)
Theorem handles_and_ids ty w files s :
  rtc service_step (service_new ty w files) s -> (ids_counter s < 2 ^ 32)%Z ->
  (forall id, id ∈ wallet_ids s -> exists h ow, wallets s !! h = Some ow /\ wallet_id (ow_wallet ow) = id) /\
  (forall h, is_Some (wallets s !! h) -> pending_for_open s !! h = None /\ pending_for_import s !! h = None) /\
  (forall h, is_Some (pending_for_open s !! h) -> pending_for_import s !! h = None) /\
  ~ used s (as_i32 (ids_counter s + 1)).
Proof using Type.
  intros Hr Hb. enough (Hs : service_ok s).
  { pose proof Hs as []. do 3 (split; [done|]). apply next_handle_fresh; [done|lia]. }
  eapply rtc_steps_ok; [done|apply service_new_ok|lia].
Qed.
End Invariant.

(** ** Examples *)
#[export] Instance demo_platform : Platform := {|
  value_to_string v := default "" (as_str (index v "path"));
  export_dir_error _ := None;
  export_open_error _ := None;
  import_open_error _ := None
|}.

Definition demo_storage : WalletStorage := @SQLiteStorage (demo_sqlite true [] []) demo_options Debug.
Definition demo_world : World demo_storage := @sqlite_world (demo_sqlite true [] []) demo_options Debug.
Definition demo_type : @WalletStorageType demo_storage demo_world :=
  @SQLiteStorageType (demo_sqlite true [] []) demo_options Debug demo_fs demo_read_config ["home"] [].
#[export] Existing Instances demo_storage demo_world.

Definition demo_service : Service := service_new demo_type empty_disk ∅.
Definition demo_config : Config := mkConfig "w" None None.
Definition demo_credentials : Credentials := mkCredentials "pass" None None ARGON2I_MOD ARGON2I_MOD.
Definition demo_master_key : bytes := take_key (as_bytes "pass" ++ demo_salt)%list.

Definition demo_create (config : Config) : SM Service unit :=
  create_wallet demo_keys demo_nonce config demo_credentials demo_key_data demo_master_key.

Lemma handles_and_ids_witness :
  let s1 := (demo_create demo_config demo_service).1 in
  let s := (open_wallet_prepare demo_salt demo_config demo_credentials s1).1 in
  ((forall id, id ∈ wallet_ids s -> exists h ow, wallets s !! h = Some ow /\ wallet_id (ow_wallet ow) = id) /\
   (forall h, is_Some (wallets s !! h) -> pending_for_open s !! h = None /\ pending_for_import s !! h = None) /\
   (forall h, is_Some (pending_for_open s !! h) -> pending_for_import s !! h = None) /\
   ~ used s (as_i32 (ids_counter s + 1))) /\ ids_counter s = 2%Z.
Proof.
  cbv zeta. split; [|vm_compute; reflexivity].
  apply (handles_and_ids (map (Z.add 1)) Debug demo_type empty_disk ∅).
  - eapply rtc_l; [exact (step_create _ _ demo_keys demo_nonce demo_config demo_credentials demo_key_data demo_master_key demo_service)|].
    apply rtc_once. exact (step_open_prepare _ _ demo_salt demo_config demo_credentials (demo_create demo_config demo_service).1).
  - vm_compute. reflexivity.
Defined.

Lemma some_check {A : Type} (o : option A) : (if o then true else false) = true -> is_Some o.
Proof. by destruct o. Qed.

(** The opened ids are checked when an opening is prepared and recorded when it continues:
    two openings prepared one after the other both succeed.  Closing one of them then
    unlocks the id while the other is still open, so that the wallet can be deleted. *)
Theorem two_openings_share_an_id :
  let run := (let* _ := demo_create demo_config in
              let* _ := open_wallet_prepare demo_salt demo_config demo_credentials in
              let* _ := open_wallet_prepare demo_salt demo_config demo_credentials in
              let* h := open_wallet_continue demo_nonce 2 demo_master_key None in
              let* h' := open_wallet_continue demo_nonce 3 demo_master_key None in
              let* _ := close_wallet h in
              let* _ := delete_wallet_prepare demo_config demo_credentials in
              sm_ret h') demo_service in
  run.2 = Ok 3%Z /\ is_Some (wallets run.1 !! 3%Z) /\ wallet_ids run.1 = ∅.
Proof. split; [vm_compute; reflexivity|]. split; [apply some_check; vm_compute; reflexivity|vm_compute; reflexivity]. Qed.

(** The id of a wallet is its name followed by its path, without a separator: wallets in
    different places can have the same id, and then only one of them can be open. *)
Definition config_a : Config := mkConfig "w" None (Some (Object [("path", VString "/a")])).
Definition config_b : Config := mkConfig "w/a" None None.

Theorem ids_of_places_collide :
  disk_place_of demo_read_config ["home"] [] (cfg_id config_a) (value_to_string <$> storage_config config_a) None <>
  disk_place_of demo_read_config ["home"] [] (cfg_id config_b) (value_to_string <$> storage_config config_b) None /\
  ((let* _ := demo_create config_a in
    let* _ := demo_create config_b in
    let* _ := open_wallet_prepare demo_salt config_a demo_credentials in
    let* _ := open_wallet_continue demo_nonce 2 demo_master_key None in
    open_wallet_prepare demo_salt config_b demo_credentials) demo_service).2 =
  Err (err_msg WalletAlreadyOpened "Wallet w/a already opened").
Proof. split; [vm_compute; congruence|vm_compute; reflexivity]. Qed.

(** An import creates the wallet before it checks that the id is not open; when the check
    fails, the new wallet stays behind. *)
Theorem refused_import_leaves_wallet :
  let run := (let* _ := demo_create config_a in
              let* _ := open_wallet_prepare demo_salt config_a demo_credentials in
              let* _ := open_wallet_continue demo_nonce 2 demo_master_key None in
              let* _ := modify (set_pending_import {[ 7%Z := mkPendingImport [] [] 0 [] demo_key_data ]}) in
              import_wallet_continue (map (Z.add 1)) Debug 2 demo_keys demo_nonce (fun _ => demo_rnd) 7
                config_b demo_credentials [] demo_master_key) demo_service in
  run.2 = Err (err_msg WalletAlreadyOpened "Wallet w/a already opened") /\
  is_Some (files (the_world run.1) !! ["home"; "w"; "a"; "sqlite.db"]).
Proof. split; [vm_compute; reflexivity|apply some_check; vm_compute; reflexivity]. Qed.
