(* ===== verification/WalletLife.v ===== *)
(** * The life of a wallet

    What the operations of [WalletService] do to wallets: creating, opening, rotating the
    passphrase, working with records and objects, closing, exporting, importing, deleting.
    Everything is proved for any storage that keeps the contracts of [WalletStorage] and
    [StorageType]; the examples use SQLite. *)

From stdpp Require Import base list strings numbers gmap.
From Stdlib Require Import ZArith Lia.
From S2P Require Import Prelude Errors Json Wql WalletCrypto WalletQuery WalletStorage StorageType SqliteStorage SqliteStorageType Wallet KeyDerivation ChunkStream ExportImport WalletService.

Open Scope string_scope.

(** ** Facts *)
Section Facts.
Context {S : Sodium} {SL : SodiumLaws S} {C : OptionsCodec} {K : KeyCodec} {KL : KeyCodecLaws K}.
Context {E : ExportCodec} {W : WalletStorage} {WL : StorageLaws W} {Wd : World W} {DL : WorldLaws WL Wd} {Pf : Platform}.
Context (T : WalletStorageType W) {TL : StorageTypeLaws DL T}.

(** Where a configuration puts its wallet. *)
Definition located (s : Service) (config : Config) (credentials : Credentials) (q : place) : Prop :=
  storage_types s !! default "default" (storage_type config) = Some T /\
  place_of (cfg_id config) (value_to_string <$> storage_config config)
    (value_to_string <$> storage_credentials credentials) = Some q.

(** A wallet at rest: the passphrase opens it, it has these keys and these records. *)
Definition opens (md : Metadata) (passphrase : string) (m : KeyDerivationMethod) (keys : Keys) (mk : bytes) : Prop :=
  exists kd, from_passphrase_and_metadata passphrase md m = Ok kd /\ calc_master_key kd = Ok mk /\
    _restore_keys md mk = Ok keys.
Definition kept (w : world) (q : place) (passphrase : string) (m : KeyDerivationMethod) (keys : Keys)
    (plain : PlainWallet) : Prop :=
  exists md v mk, stored w q = Some (Some (metadata_to_vec md), v) /\ opens md passphrase m keys mk /\
    represents (mkWallet "" keys) v plain.

(** What an operation may do to the rest of the world. *)
Definition preserved (w w' : world) (q : place) : Prop :=
  world_ok w' /\ (forall c r, conn_at w c = Some r -> conn_at w' c = Some r) /\
  forall r, r <> q -> stored w' r = stored w r.

Lemma preserved_refl w q : world_ok w -> preserved w w q.
Proof using Type. by split. Qed.
Lemma preserved_trans w1 w2 w3 q : preserved w1 w2 q -> preserved w2 w3 q -> preserved w1 w3 q.
Proof using Type.
  intros (H1 & H2 & H3) (H4 & H5 & H6). split; [done|]. split; [auto|]. intros r Hr. by rewrite H6, H3.
Qed.

(** Metadata made for a passphrase opens with it. *)
Lemma prepared_opens nonce salt passphrase m keys mk :
  length salt = SALTBYTES -> length nonce = NONCEBYTES ->
  calc_master_key (from_passphrase_with_new_salt salt passphrase m) = Ok mk ->
  opens (metadata_of nonce mk (from_passphrase_with_new_salt salt passphrase m) keys) passphrase m keys mk.
Proof using SL KL.
  intros Hs Hn Hk. exists (from_passphrase_with_new_salt salt passphrase m).
  split; [by apply derivation_from_metadata|]. split; [done|]. by apply restore_keys_prepared.
Qed.

(** An operation of an open storage. *)
Lemma on_conn {A : Type} (m : SM storage A) c q w st r :
  world_ok w -> conn_at w c = Some q -> m (state_of w c) = (st, r) -> st_ok st ->
  exists w', on c m w = (w', r) /\ preserved w w' q /\ conn_at w' c = Some q /\ stored w' q = Some (meta st, view st).
Proof using Type.
  intros Hw Hc Hm Hst. unfold on. rewrite Hm. eexists. split; [done|].
  destruct (law_with_state w c q st Hw Hc Hst) as (H1 & H2 & H3). split; [|split].
  - split; [done|]. split; [intros ? ?; by rewrite H2|]. intros r' Hr. rewrite H3. by rewrite decide_False.
  - by rewrite H2.
  - rewrite H3. by rewrite decide_True.
Qed.

Lemma in_world_eq {A : Type} (m : SM world A) s w r :
  m (the_world s) = (w, r) -> in_world m s = (set_world w s, r).
Proof using Type. unfold in_world. by intros ->. Qed.

Lemma config_for_storage s config credentials q :
  located s config credentials q ->
  _get_config_and_cred_for_storage config credentials (storage_types s) =
  Ok (T, value_to_string <$> storage_config config, value_to_string <$> storage_credentials credentials).
Proof using Type. intros [Ht _]. unfold _get_config_and_cred_for_storage. by rewrite Ht. Qed.

(** *** Creating *)
Lemma create_wallet_step keys nonce config credentials salt m mk s q :
  healthy -> world_ok (the_world s) -> located s config credentials q -> free (the_world s) q ->
  length salt = SALTBYTES -> length nonce = NONCEBYTES ->
  let kd := from_passphrase_with_new_salt salt (cr_key credentials) m in
  calc_master_key kd = Ok mk ->
  exists w', _create_wallet keys nonce config credentials kd mk s = (set_world w' s, Ok keys) /\
    preserved (the_world s) w' q /\ stored w' q = Some (Some (metadata_to_vec (metadata_of nonce mk kd keys)), ∅).
Proof using TL.
  intros Hh Hw Hl Hf Hs Hn kd Hk. unfold _create_wallet, gets, sm_bind at 1.
  rewrite (lift_ok _ _ _ _ (config_for_storage s config credentials q Hl)).
  rewrite (lift_ok _ _ _ _ (prepare_metadata_is nonce mk kd keys)). destruct Hl as [_ Hp].
  pose proof (law_create (the_world s) (cfg_id config) _ _ (metadata_to_vec (metadata_of nonce mk kd keys)) q Hw Hh Hp) as H.
  destruct (ty_create T _ _ _ _ (the_world s)) as [w' r] eqn:Ec. destruct H as (Hw' & Hc & H & _).
  destruct (H Hf) as [-> Hst]. exists w'. split; [|split].
  - by rewrite (sm_bind_ok _ _ _ _ _ (in_world_eq _ s w' (Ok ()) Ec)).
  - split; [done|]. split; [done|]. intros r Hr. rewrite Hst. by rewrite decide_False.
  - rewrite Hst. by rewrite decide_True.
Qed.

(** *** Opening *)
Lemma open_storage_step config credentials s q x :
  healthy -> world_ok (the_world s) -> located s config credentials q -> stored (the_world s) q = Some x ->
  exists w' c, _open_storage config credentials s = (set_world w' s, Ok c) /\
    preserved (the_world s) w' q /\ stored w' q = Some x /\ conn_at w' c = Some q /\ conn_at (the_world s) c = None.
Proof using TL.
  intros Hh Hw Hl Hx. unfold _open_storage, gets, sm_bind at 1.
  rewrite (lift_ok _ _ _ _ (config_for_storage s config credentials q Hl)). destruct Hl as [_ Hp].
  pose proof (law_open (the_world s) (cfg_id config) _ _ q Hw Hh Hp) as H.
  destruct (ty_open T _ _ _ (the_world s)) as [w' r] eqn:Ec. destruct H as (Hw' & Hst & Hc & H).
  rewrite Hx in H. destruct H as (c & -> & Hnew & Hat). exists w', c.
  split; [by apply in_world_eq|]. split; [split; [done|]; split; [done|]; by intros; rewrite Hst|].
  by rewrite Hst.
Qed.

Lemma fetch_metadata_step config credentials s q md v keys mk :
  healthy -> world_ok (the_world s) -> located s config credentials q ->
  stored (the_world s) q = Some (Some (metadata_to_vec md), v) ->
  opens md (cr_key credentials) (key_derivation_method credentials) keys mk ->
  exists w' c kd, _open_storage_and_fetch_metadata config credentials s = (set_world w' s, Ok (c, md, kd)) /\
    preserved (the_world s) w' q /\ stored w' q = Some (Some (metadata_to_vec md), v) /\
    conn_at w' c = Some q /\ conn_at (the_world s) c = None /\ calc_master_key kd = Ok mk.
Proof using KL TL.
  intros Hh Hw Hl Hst (kd & Hkd & Hmk & _).
  destruct (open_storage_step config credentials s q _ Hh Hw Hl Hst) as (w1 & c & E1 & Hp1 & Hs1 & Hc1 & Hnew).
  unfold _open_storage_and_fetch_metadata. rewrite (sm_bind_ok _ _ _ _ _ E1).
  destruct (conn_state w1 c q (proj1 Hp1) Hc1) as [Hok Hcs]. rewrite Hs1 in Hcs. injection Hcs as Hm Hv.
  pose proof (law_get_metadata (state_of w1 c) Hok) as Hg.
  destruct (st_get_metadata (state_of w1 c)) as [st r] eqn:Eg. destruct Hg as (Hok' & Hv' & Hm' & _ & Hr).
  rewrite (Hr Hh _ (eq_sym Hm)) in Eg.
  destruct (on_conn st_get_metadata c q w1 st _ (proj1 Hp1) Hc1 Eg Hok') as (w2 & E2 & Hp2 & Hc2 & Hs2).
  rewrite (sm_bind_ok _ _ _ _ _ (in_world_eq (on c st_get_metadata) (set_world w1 s) w2 _ E2)).
  rewrite (lift_ok _ _ _ _ (f_equal (fun o => ok_or o _) (metadata_back md))).
  rewrite (lift_ok _ _ _ _ Hkd). exists w2, c, kd. split; [done|].
  split; [by eapply preserved_trans|]. split; [by rewrite Hs2, Hm', Hv', <-Hm, <-Hv|]. done.
Qed.

(** The commands of an opening in order: prepare, derive the keys, continue. *)
Definition open_wallet (rekey_salt nonce : bytes) (config : Config) (credentials : Credentials) : SM Service Z :=
  let* (h, kd, rekey_data) := open_wallet_prepare rekey_salt config credentials in
  let* key := sm_lift (calc_master_key kd) in
  let* rekey_key := match rekey_data with
                    | Some d => let* k := sm_lift (calc_master_key d) in sm_ret (Some k)
                    | None => sm_ret None
                    end in
  open_wallet_continue nonce h key rekey_key.

(** The passphrase and the method after an opening. *)
Definition final_key (c : Credentials) : string := default (cr_key c) (rekey c).
Definition final_method (c : Credentials) : KeyDerivationMethod :=
  match rekey c with Some _ => rekey_derivation_method c | None => key_derivation_method c end.

(** An open wallet with these keys on this place. *)
Definition attached (s : Service) (h : Z) (q : place) (id : string) (keys : Keys) : Prop :=
  exists c, wallets s !! h = Some (mkOpenWallet (mkWallet id keys) c) /\ conn_at (the_world s) c = Some q.

(** Rotating the master key. *)
Lemma rekey_step c q s nonce salt keys plain md v passphrase m mk :
  healthy -> world_ok (the_world s) -> conn_at (the_world s) c = Some q ->
  stored (the_world s) q = Some (Some (metadata_to_vec md), v) -> represents (mkWallet "" keys) v plain ->
  length salt = SALTBYTES -> length nonce = NONCEBYTES ->
  let kd := from_passphrase_with_new_salt salt passphrase m in
  calc_master_key kd = Ok mk ->
  exists w', (let* metadata := sm_lift (_prepare_metadata nonce mk kd keys) in
              in_world (on c (st_set_metadata metadata))) s = (set_world w' s, Ok ()) /\
    preserved (the_world s) w' q /\ conn_at w' c = Some q /\ kept w' q passphrase m keys plain.
Proof using SL KL.
  intros Hh Hw Hc Hst Hrep Hs Hn kd Hk.
  rewrite (lift_ok _ _ _ _ (prepare_metadata_is nonce mk kd keys)).
  destruct (conn_state _ c q Hw Hc) as [Hok Hcs]. rewrite Hst in Hcs. injection Hcs as Hm Hv.
  pose proof (law_set_metadata (metadata_to_vec (metadata_of nonce mk kd keys)) (state_of (the_world s) c) Hok) as Hg.
  destruct (st_set_metadata _ (state_of (the_world s) c)) as [st r] eqn:Eg. destruct Hg as (Hok' & Hv' & _ & Hr & Hm').
  rewrite (Hr Hh) in Eg, Hm'. rewrite <-Hm in Hm'. cbn in Hm'.
  destruct (on_conn _ c q _ st _ Hw Hc Eg Hok') as (w2 & E2 & Hp2 & Hc2 & Hs2).
  exists w2. split; [by apply in_world_eq|]. split; [done|]. split; [done|].
  exists (metadata_of nonce mk kd keys), v, mk. rewrite Hs2, Hm', Hv', <-Hv.
  split; [done|]. split; [by apply prepared_opens|done].
Qed.

Lemma open_prepare_step salt config credentials s q md v keys mk :
  healthy -> world_ok (the_world s) -> located s config credentials q ->
  stored (the_world s) q = Some (Some (metadata_to_vec md), v) ->
  opens md (cr_key credentials) (key_derivation_method credentials) keys mk ->
  _get_wallet_id config ∉ wallet_ids s ->
  let h := as_i32 (ids_counter s + 1) in
  let rd := (fun r => from_passphrase_with_new_salt salt r (rekey_derivation_method credentials)) <$> rekey credentials in
  exists w' c kd,
    open_wallet_prepare salt config credentials s =
      (set_pending_open (<[h := mkPendingOpen (_get_wallet_id config) c md rd]> (pending_for_open s))
         (set_counter (ids_counter s + 1)%Z (set_world w' s)), Ok (h, kd, rd)) /\
    preserved (the_world s) w' q /\ stored w' q = Some (Some (metadata_to_vec md), v) /\
    conn_at w' c = Some q /\ conn_at (the_world s) c = None /\ calc_master_key kd = Ok mk.
Proof using KL TL.
  intros Hh Hw Hl Hst Hop Hid h rd.
  destruct (fetch_metadata_step config credentials s q md v keys mk Hh Hw Hl Hst Hop) as (w1 & c & kd & E1 & H).
  exists w1, c, kd. split; [|done].
  assert (Hfree : _is_id_from_config_not_used config s = (s, Ok ())).
  { unfold _is_id_from_config_not_used, gets, sm_bind. by rewrite bool_decide_eq_false_2. }
  unfold open_wallet_prepare. rewrite (sm_bind_ok _ _ _ _ _ Hfree), (sm_bind_ok _ _ _ _ _ E1). reflexivity.
Qed.

Lemma open_continue_step nonce s h id c q md v keys mk plain credentials salt rk :
  healthy -> world_ok (the_world s) -> conn_at (the_world s) c = Some q ->
  stored (the_world s) q = Some (Some (metadata_to_vec md), v) -> represents (mkWallet "" keys) v plain ->
  opens md (cr_key credentials) (key_derivation_method credentials) keys mk ->
  length salt = SALTBYTES -> length nonce = NONCEBYTES ->
  let rd := (fun r => from_passphrase_with_new_salt salt r (rekey_derivation_method credentials)) <$> rekey credentials in
  pending_for_open s !! h = Some (mkPendingOpen id c md rd) ->
  option_Forall2 (fun d k => calc_master_key d = Ok k) rd rk ->
  exists w', open_wallet_continue nonce h mk rk s =
      (set_wallet_ids ({[id]} ∪ wallet_ids s)
        (set_wallets (<[h := mkOpenWallet (mkWallet id keys) c]> (wallets s))
          (set_world w' (set_pending_open (base.delete h (pending_for_open s)) s))), Ok h) /\
    preserved (the_world s) w' q /\ conn_at w' c = Some q /\
    kept w' q (final_key credentials) (final_method credentials) keys plain.
Proof using SL KL.
  intros Hh Hw Hc Hst Hrep Hop Hs Hn rd Hpo Hrk. set (s1 := set_pending_open (base.delete h (pending_for_open s)) s).
  pose proof Hop as (kd & _ & _ & Hkeys).
  assert (Hstart : open_wallet_continue nonce h mk rk s =
    (let* _ := match rk, rd with
               | Some rk, Some rekey_data =>
                   let* metadata := sm_lift (_prepare_metadata nonce rk rekey_data keys) in
                   in_world (on c (st_set_metadata metadata))
               | _, _ => sm_ret ()
               end in
     let* _ := modify (fun s => set_wallets (<[h := mkOpenWallet (mkWallet id keys) c]> (wallets s)) s) in
     let* _ := modify (fun s => set_wallet_ids ({[id]} ∪ wallet_ids s) s) in
     sm_ret h) s1).
  { unfold open_wallet_continue. unfold gets at 1, sm_bind at 1. rewrite Hpo.
    unfold modify at 1, sm_bind at 1. fold s1. unfold ok_or, sm_bind at 1, sm_lift at 1. cbn [po_metadata po_rekey po_storage po_id].
    rewrite (lift_ok _ _ _ _ Hkeys). done. }
  rewrite Hstart. clear Hstart. unfold rd in *. unfold final_key, final_method.
  destruct (rekey credentials) as [pw|]; cbn [fmap option_fmap option_map] in *.
  - inversion Hrk as [? k Hk|]; subst.
    destruct (rekey_step c q s1 nonce salt keys plain md v pw (rekey_derivation_method credentials) k
      Hh Hw Hc Hst Hrep Hs Hn Hk) as (w2 & E2 & Hp2 & Hc2 & Hk2).
    rewrite (sm_bind_ok _ _ _ _ _ E2). exists w2. done.
  - inversion Hrk; subst. exists (the_world s). split; [by destruct s|]. split; [by apply preserved_refl|]. split; [done|].
    exists md, v, mk. done.
Qed.

Lemma open_wallet_step salt nonce config credentials s q keys plain :
  healthy -> world_ok (the_world s) -> located s config credentials q ->
  kept (the_world s) q (cr_key credentials) (key_derivation_method credentials) keys plain ->
  _get_wallet_id config ∉ wallet_ids s ->
  length salt = SALTBYTES -> length nonce = NONCEBYTES ->
  (forall r, rekey credentials = Some r ->
     exists mk, calc_master_key (from_passphrase_with_new_salt salt r (rekey_derivation_method credentials)) = Ok mk) ->
  let h := as_i32 (ids_counter s + 1) in
  exists s', open_wallet salt nonce config credentials s = (s', Ok h) /\
    preserved (the_world s) (the_world s') q /\ attached s' h q (_get_wallet_id config) keys /\
    kept (the_world s') q (final_key credentials) (final_method credentials) keys plain /\
    storage_types s' = storage_types s /\ wallet_ids s' = {[_get_wallet_id config]} ∪ wallet_ids s /\
    (forall h', h' <> h -> wallets s' !! h' = wallets s !! h') /\ ids_counter s' = (ids_counter s + 1)%Z /\
    export_files s' = export_files s.
Proof using SL KL TL.
  intros Hh Hw Hl (md & v & mk & Hst & Hop & Hrep) Hid Hs Hn Hrk h.
  destruct (open_prepare_step salt config credentials s q md v keys mk Hh Hw Hl Hst Hop Hid)
    as (w1 & c & kd & E1 & Hp1 & Hs1 & Hc1 & _ & Hmk). fold h in E1.
  set (rd := (fun r => _) <$> rekey credentials) in *. set (s1 := set_pending_open _ _) in *.
  assert (Hex : exists rk, (match rd with
                    | Some d => let* k := sm_lift (calc_master_key d) in sm_ret (Some k)
                    | None => sm_ret None
                    end : SM Service (option bytes)) s1 = (s1, Ok rk) /\ option_Forall2 (fun d k => calc_master_key d = Ok k) rd rk).
  { unfold rd. destruct (rekey credentials) as [pw|]; cbn.
    - destruct (Hrk pw eq_refl) as [k Hk]. exists (Some k). unfold sm_bind, sm_lift. rewrite Hk. by split; [|constructor].
    - exists None. by split; [|constructor]. }
  destruct Hex as (rk & Erk & Hrk').
  destruct (open_continue_step nonce s1 h (_get_wallet_id config) c q md v keys mk plain credentials salt rk)
    as (w2 & E2 & Hp2 & Hc2 & Hk2); try done; [apply Hp1|by apply lookup_insert_eq|].
  unfold open_wallet. rewrite (sm_bind_ok _ _ _ _ _ E1), (lift_ok _ _ _ _ Hmk), (sm_bind_ok _ _ _ _ _ Erk), E2.
  eexists. split; [done|]. cbn [the_world storage_types wallet_ids wallets ids_counter export_files
    set_wallet_ids set_wallets set_world set_pending_open set_counter s1].
  split; [by eapply preserved_trans|]. split; [exists c; split; [apply lookup_insert_eq|done]|].
  split; [done|]. do 2 (split; [done|]). split; [|done]. intros h' Hne. by rewrite lookup_insert_ne.
Qed.

(** *** Record operations *)
Definition op_type (o : WalletOp) : string :=
  match o with
  | WAdd _ t _ _ _ | WUpdate _ t _ _ | WAddTags t _ _ | WUpdateTags t _ _ | WDeleteTags t _ _ | WDelete t _ => t
  end.
Definition op_name (o : WalletOp) : string :=
  match o with
  | WAdd _ _ n _ _ | WUpdate _ _ n _ | WAddTags _ n _ | WUpdateTags _ n _ | WDeleteTags _ n _ | WDelete _ n => n
  end.
Definition run_service_op (h : Z) (o : WalletOp) : SM Service unit :=
  match o with
  | WAdd rnd t n v l => add_record rnd h t n v l
  | WUpdate rnd t n v => update_record_value rnd h t n v
  | WAddTags t n l => add_record_tags h t n l
  | WUpdateTags t n l => update_record_tags h t n l
  | WDeleteTags t n l => delete_record_tags h t n l
  | WDelete t n => delete_record h t n
  end.
Lemma run_service_op_eq h o :
  run_service_op h o = with_wallet h (fun wallet => mapped (op_type o) (op_name o) (run_wallet_op wallet o)).
Proof using Type. by destruct o. Qed.

(** The error a caller sees. *)
Definition service_error (o : WalletOp) : IndyError :=
  err_msg (wallet_error o)
    ((match o with WAdd _ _ _ _ _ => "Wallet item already exists" | _ => "Wallet item not found" end)
     +:+ " with type: " +:+ op_type o +:+ ", id: " +:+ op_name o).
Definition service_follows (o : WalletOp) (plain plain' : PlainWallet) (r : outcome unit) : Prop :=
  match r with
  | Ok _ => wallet_spec o plain = Some plain'
  | Err e => plain' = plain /\ (healthy -> wallet_spec o plain = None /\ e = service_error o)
  | Panic => False
  end.

Lemma mapped_error o e :
  err_kind e = wallet_error o -> _map_wallet_storage_error e (op_type o) (op_name o) = service_error o.
Proof using Type. unfold _map_wallet_storage_error. intros ->. by destruct o. Qed.

Lemma bind_state {A : Type} (m : SM storage A) s : (sm_bind m (fun _ => sm_ret ()) s).1 = (m s).1.
Proof using Type. unfold sm_bind. by destruct (m s) as [? [| |]]. Qed.

Lemma keeps_meta_op o wallet s : st_ok s -> meta (run_wallet_op wallet o s).1 = meta s.
Proof using Type.
  intros Hs. destruct o; cbn [run_wallet_op];
    unfold wallet_add, wallet_update, wallet_add_tags, wallet_update_tags, wallet_delete_tags, wallet_delete;
    rewrite bind_state.
  - by apply keeps_meta_add.
  - by apply keeps_meta_update.
  - by apply keeps_meta_add_tags.
  - by apply keeps_meta_update_tags.
  - by apply keeps_meta_delete_tags.
  - by apply keeps_meta_delete.
Qed.

(** Fields of the service that an operation of a storage leaves alone. *)
Definition same_service (s s' : Service) : Prop := exists w, s' = set_world w s.

Lemma with_wallet_step {A : Type} s h q id keys (f : Wallet -> SM storage A) st r :
  world_ok (the_world s) -> attached s h q id keys ->
  (forall c, conn_at (the_world s) c = Some q -> wallets s !! h = Some (mkOpenWallet (mkWallet id keys) c) ->
     f (mkWallet id keys) (state_of (the_world s) c) = (st, r) /\ st_ok st) ->
  exists w', with_wallet h f s = (set_world w' s, r) /\ preserved (the_world s) w' q /\
    attached (set_world w' s) h q id keys /\ stored w' q = Some (meta st, view st).
Proof using Type.
  intros Hw (c & Hh & Hc) Hf. destruct (Hf c Hc Hh) as [Ef Hst].
  destruct (on_conn (f (mkWallet id keys)) c q (the_world s) st r Hw Hc Ef Hst) as (w' & E1 & Hp & Hc' & Hs').
  exists w'. unfold with_wallet, gets, sm_bind. rewrite Hh. split; [by apply in_world_eq|].
  split; [done|]. split; [|done]. by exists c.
Qed.

Lemma kept_state w c q pw m keys plain :
  world_ok w -> conn_at w c = Some q -> kept w q pw m keys plain ->
  st_ok (state_of w c) /\ represents (mkWallet "" keys) (view (state_of w c)) plain /\
  exists md mk, meta (state_of w c) = Some (metadata_to_vec md) /\ opens md pw m keys mk.
Proof using Type.
  intros Hw Hc (md & v & mk & Hst & Hop & Hrep). destruct (conn_state w c q Hw Hc) as [Hok Hcs].
  rewrite Hst in Hcs. injection Hcs as Hm Hv. rewrite <-Hv. split; [done|]. split; [done|]. eauto.
Qed.

(** An operation on the records of an open wallet, whatever the caller makes of its result. *)
Lemma op_step {A : Type} s h q id keys pw m plain o (g : outcome unit -> outcome A) (f : Wallet -> SM storage A) :
  world_ok (the_world s) -> attached s h q id keys -> kept (the_world s) q pw m keys plain -> wallet_op_valid o ->
  (forall wallet st st' r, run_wallet_op wallet o st = (st', r) -> f wallet st = (st', g r)) ->
  exists w' r plain', with_wallet h f s = (set_world w' s, g r) /\ preserved (the_world s) w' q /\
    attached (set_world w' s) h q id keys /\ kept w' q pw m keys plain' /\
    match r with
    | Ok _ => wallet_spec o plain = Some plain'
    | Err e => plain' = plain /\ (healthy -> wallet_spec o plain = None /\ err_kind e = wallet_error o)
    | Panic => False
    end.
Proof using SL.
  intros Hw Ha Hk Hv Hf. pose proof Ha as (c & Hh & Hc).
  destruct (kept_state _ c q pw m keys plain Hw Hc Hk) as (Hok & Hrep & md & mk & Hm & Hop).
  destruct (run_wallet_op (mkWallet id keys) o (state_of (the_world s) c)) as [st r0] eqn:Eo.
  pose proof Eo as Ef. eapply wallet_op_follows in Ef as [Hok' Hfol]; [|done|exact Hrep|done].
  pose proof (keeps_meta_op o (mkWallet id keys) _ Hok) as Hmeta. rewrite Eo in Hmeta. cbn [fst] in Hmeta.
  destruct (with_wallet_step s h q id keys f st (g r0) Hw Ha) as (w' & Ew & Hp & Ha' & Hs').
  { intros c' Hc' Hh'. assert (c' = c) as -> by congruence. split; [by apply Hf|done]. }
  assert (Hkeep : forall plain', represents (mkWallet "" keys) (view st) plain' -> kept w' q pw m keys plain').
  { intros plain' Hr. exists md, (view st), mk. by rewrite Hs', Hmeta, Hm. }
  exists w', r0. destruct r0 as [[]|e|]; cbn [wallet_follows] in Hfol; [| |done].
  - destruct Hfol as (plain' & Hspec & Hr). exists plain'. split_and!; auto.
  - destruct Hfol as [Hr Hhl]. exists plain. split_and!; auto.
Qed.

Lemma service_op_step s h q id keys pw m plain o s' r :
  world_ok (the_world s) -> attached s h q id keys -> kept (the_world s) q pw m keys plain -> wallet_op_valid o ->
  run_service_op h o s = (s', r) ->
  same_service s s' /\ preserved (the_world s) (the_world s') q /\ attached s' h q id keys /\
  exists plain', kept (the_world s') q pw m keys plain' /\ service_follows o plain plain' r.
Proof using SL.
  intros Hw Ha Hk Hv. rewrite run_service_op_eq.
  destruct (op_step s h q id keys pw m plain o
    (fun r => match r with Err e => Err (_map_wallet_storage_error e (op_type o) (op_name o)) | r => r end)
    (fun wallet => mapped (op_type o) (op_name o) (run_wallet_op wallet o)) Hw Ha Hk Hv)
    as (w' & r0 & plain' & -> & Hp & Ha' & Hk' & Hf).
  { intros wallet st st' r0 E1. unfold mapped, map_err. rewrite E1. by destruct r0. }
  intros [= <- <-]. split; [by eexists|]. split; [done|]. split; [done|]. exists plain'. split; [done|].
  destruct r0 as [[]|e|]; cbn [service_follows]; [done| |done]. destruct Hf as [-> Hhl]. split; [done|].
  intros Hh. destruct (Hhl Hh) as [? ?]. split; [done|]. by apply mapped_error.
Qed.

Lemma service_op_ok s h q id keys pw m plain plain' o :
  world_ok (the_world s) -> attached s h q id keys -> kept (the_world s) q pw m keys plain -> wallet_op_valid o ->
  (run_service_op h o s).2 = Ok () -> wallet_spec o plain = Some plain' ->
  let s' := (run_service_op h o s).1 in
  world_ok (the_world s') /\ attached s' h q id keys /\ kept (the_world s') q pw m keys plain' /\
  storage_types s' = storage_types s /\ wallet_ids s' = wallet_ids s /\ export_files s' = export_files s.
Proof using SL.
  intros Hw Ha Hk Hv Hr Hs. destruct (run_service_op h o s) as [s' r] eqn:E1. cbn [fst snd] in *. subst r.
  eapply service_op_step in E1 as ([w ->] & Hp & Ha' & plain1 & Hk' & Hf); [|done..].
  cbn [service_follows] in Hf. rewrite Hs in Hf. injection Hf as <-. split; [apply Hp|]. by split; [|split].
Qed.

(** *** Closing *)
Lemma close_wallet_step s h q id keys pw m plain :
  healthy -> world_ok (the_world s) -> attached s h q id keys -> kept (the_world s) q pw m keys plain ->
  exists w', close_wallet h s =
      (set_world w' (set_wallet_ids (wallet_ids s ∖ {[id]}) (set_wallets (base.delete h (wallets s)) s)), Ok ()) /\
    preserved (the_world s) w' q /\ kept w' q pw m keys plain.
Proof using Type.
  intros Hh Hw (c & Hl & Hc) Hk.
  destruct (kept_state _ c q pw m keys plain Hw Hc Hk) as (Hok & Hrep & md & mk & Hm & Hop).
  pose proof (law_close (state_of (the_world s) c) Hok) as Hcl.
  destruct (st_close (state_of (the_world s) c)) as [st r] eqn:Ec. destruct Hcl as (Hok' & Hv & Hm' & _ & Hr).
  rewrite (Hr Hh) in Ec. destruct (on_conn st_close c q (the_world s) st _ Hw Hc Ec Hok') as (w' & E1 & Hp & _ & Hs').
  exists w'. split; [|split; [done|]].
  - unfold close_wallet. unfold gets, sm_bind at 1. rewrite Hl. unfold modify, sm_bind.
    cbn [ow_wallet wallet_id ow_conn]. by apply in_world_eq.
  - exists md, (view st), mk. by rewrite Hs', Hm', Hm, Hv.
Qed.

(** *** Reading *)
Lemma keeps_meta_wallet_get wallet t n options s : st_ok s -> meta (wallet_get wallet t n options s).1 = meta s.
Proof using Type.
  intros Hs. pose proof (keeps_meta_get (encrypted_type wallet t) (encrypted_name wallet n) options s Hs) as Hm.
  unfold wallet_get, sm_bind. destruct (st_get _ _ options s) as [s1 [rec|e|]]; cbn [fst] in *; [|done..].
  unfold sm_lift. destruct (match sr_value rec with Some _ => _ | None => _ end); [|done..].
  by destruct (decrypt_tags _ _ _).
Qed.

(** What [wallet_get] answers for an open wallet, and that nothing changes. *)
Lemma get_step s h q id keys pw m plain t n options o :
  healthy -> world_ok (the_world s) -> attached s h q id keys -> kept (the_world s) q pw m keys plain ->
  rust_string t -> rust_string n -> options_of_get options = Some o ->
  exists r, match plain !! (t, n) with
            | Some x => r = Ok (shown o (t, n) x)
            | None => is_error r WalletItemNotFound
            end /\
    forall (A : Type) (g : outcome WalletRecord -> outcome A) (f : Wallet -> SM storage A),
      (forall wallet st st' r', wallet_get wallet t n options st = (st', r') -> f wallet st = (st', g r')) ->
      exists w', with_wallet h f s = (set_world w' s, g r) /\ preserved (the_world s) w' q /\
        attached (set_world w' s) h q id keys /\ kept w' q pw m keys plain.
Proof using SL.
  intros Hh Hw Ha Hk Ht Hn Ho. pose proof Ha as (c & Hl & Hc).
  destruct (kept_state _ c q pw m keys plain Hw Hc Hk) as (Hok & Hrep & md & mk & Hm & Hop).
  destruct (wallet_get (mkWallet id keys) t n options (state_of (the_world s) c)) as [st r] eqn:Eg.
  pose proof (keeps_meta_wallet_get (mkWallet id keys) t n options _ Hok) as Hmeta. rewrite Eg in Hmeta. cbn [fst] in Hmeta.
  destruct (wallet_get_shows (mkWallet id keys) _ st r plain t n options Hok Hrep Ht Hn Eg) as (Hok' & Hv & _ & Hr & Hhl).
  exists r. split.
  - specialize (Hhl Hh o Ho). destruct (plain !! (t, n)) as [x|] eqn:Hx; [|done]. destruct Hhl as [rec ->].
    destruct (Hr rec eq_refl) as (o' & x' & Ho' & Hx' & ->). congruence.
  - intros A g f Hf. destruct (with_wallet_step s h q id keys f st (g r) Hw Ha) as (w' & Ew & Hp & Ha' & Hs').
    { intros c' Hc' Hl'. assert (c' = c) as -> by congruence. split; [|done]. by apply Hf. }
    exists w'. split; [done|]. split; [done|]. split; [done|].
    exists md, (view st), mk. by rewrite Hs', Hmeta, Hm, Hv.
Qed.

Lemma get_record_step s h q id keys pw m plain t n options o :
  healthy -> world_ok (the_world s) -> attached s h q id keys -> kept (the_world s) q pw m keys plain ->
  rust_string t -> rust_string n -> options_of_get options = Some o ->
  exists w', preserved (the_world s) w' q /\ attached (set_world w' s) h q id keys /\ kept w' q pw m keys plain /\
    get_record h t n options s = (set_world w' s,
      match plain !! (t, n) with
      | Some x => Ok (shown o (t, n) x)
      | None => Err (err_msg WalletItemNotFound ("Wallet item not found with type: " +:+ t +:+ ", id: " +:+ n))
      end).
Proof using SL.
  intros Hh Hw Ha Hk Ht Hn Ho. destruct (get_step s h q id keys pw m plain t n options o Hh Hw Ha Hk Ht Hn Ho) as (r & Hr & Hg).
  destruct (Hg _ (fun r => match r with Err e => Err (_map_wallet_storage_error e t n) | r => r end)
    (fun wallet => mapped t n (wallet_get wallet t n options))) as (w' & Ew & Hp & Ha' & Hk').
  { intros wallet st st' r' E1. unfold mapped, map_err. rewrite E1. by destruct r'. }
  exists w'. split; [done|]. split; [done|]. split; [done|]. unfold get_record. rewrite Ew. f_equal.
  destruct (plain !! (t, n)) as [x|]; [by rewrite Hr|]. destruct (is_error_inv _ _ Hr) as (e & -> & He).
  unfold _map_wallet_storage_error. by rewrite He.
Qed.

(** *** Sequences of record operations *)
Fixpoint run_service_ops (h : Z) (os : list WalletOp) (s : Service) : Service * list (outcome unit) :=
  match os with
  | [] => (s, [])
  | o :: os' =>
      let (s1, r) := run_service_op h o s in
      let (s2, rs) := run_service_ops h os' s1 in (s2, r :: rs)
  end.
Fixpoint service_follow_all (os : list WalletOp) (rs : list (outcome unit)) (plain plain' : PlainWallet) : Prop :=
  match os, rs with
  | [], [] => plain' = plain
  | o :: os', r :: rs' => exists plain1, service_follows o plain plain1 r /\ service_follow_all os' rs' plain1 plain'
  | _, _ => False
  end.

Lemma same_service_trans s1 s2 s3 : same_service s1 s2 -> same_service s2 s3 -> same_service s1 s3.
Proof using Type. intros [w ->] [w' ->]. by exists w'. Qed.

Lemma service_ops_step os s h q id keys pw m plain s' rs :
  world_ok (the_world s) -> attached s h q id keys -> kept (the_world s) q pw m keys plain ->
  Forall wallet_op_valid os -> run_service_ops h os s = (s', rs) ->
  same_service s s' /\ preserved (the_world s) (the_world s') q /\ attached s' h q id keys /\
  exists plain', kept (the_world s') q pw m keys plain' /\ service_follow_all os rs plain plain'.
Proof using SL.
  revert s plain rs. induction os as [|o os IH]; intros s plain rs Hw Ha Hk Hv; cbn [run_service_ops].
  { intros [= <- <-]. split; [by exists (the_world s); destruct s|]. split; [by apply preserved_refl|]. split; [done|]. by exists plain. }
  apply Forall_cons in Hv as [Ho Hos].
  destruct (run_service_op h o s) as [s1 r] eqn:E1. destruct (run_service_ops h os s1) as [s2 rs'] eqn:E2.
  intros [= <- <-]. eapply service_op_step in E1 as (Hs1 & Hp1 & Ha1 & plain1 & Hk1 & Hf1); [|done..].
  destruct (IH s1 plain1 rs' (proj1 Hp1) Ha1 Hk1 Hos E2) as (Hs2 & Hp2 & Ha2 & plain2 & Hk2 & Hf2).
  split; [by eapply same_service_trans|]. split; [by eapply preserved_trans|]. split; [done|].
  exists plain2. split; [done|]. cbn. eauto.
Qed.

(** The credentials that open the wallet after an opening with [c]. *)
Definition next_credentials (c : Credentials) : Credentials :=
  mkCredentials (final_key c) None (storage_credentials c) (final_method c) (rekey_derivation_method c).

(** Creating and opening a wallet. *)
Lemma create_and_open config credentials keys nonce salt mk s q (salt1 nonce1 : bytes) :
  healthy -> world_ok (the_world s) -> located s config credentials q -> free (the_world s) q ->
  _get_wallet_id config ∉ wallet_ids s ->
  Forall (fun x => length x = SALTBYTES) [salt; salt1] -> Forall (fun x => length x = NONCEBYTES) [nonce; nonce1] ->
  calc_master_key (from_passphrase_with_new_salt salt (cr_key credentials) (key_derivation_method credentials)) = Ok mk ->
  (forall r, rekey credentials = Some r ->
     exists k, calc_master_key (from_passphrase_with_new_salt salt1 r (rekey_derivation_method credentials)) = Ok k) ->
  exists s1 s2,
    create_wallet keys nonce config credentials
      (from_passphrase_with_new_salt salt (cr_key credentials) (key_derivation_method credentials)) mk s = (s1, Ok ()) /\
    open_wallet salt1 nonce1 config credentials s1 = (s2, Ok (as_i32 (ids_counter s + 1))) /\
    preserved (the_world s) (the_world s2) q /\ attached s2 (as_i32 (ids_counter s + 1)) q (_get_wallet_id config) keys /\
    kept (the_world s2) q (final_key credentials) (final_method credentials) keys ∅ /\
    storage_types s2 = storage_types s /\ wallet_ids s2 = {[_get_wallet_id config]} ∪ wallet_ids s /\
    export_files s2 = export_files s.
Proof using SL KL TL.
  intros Hh Hw Hl Hf Hid [Hs [Hs1 _]%Forall_cons]%Forall_cons [Hn [Hn1 _]%Forall_cons]%Forall_cons Hmk Hrk.
  destruct (create_wallet_step keys nonce config credentials salt _ mk s q Hh Hw Hl Hf Hs Hn Hmk) as (w1 & E1 & Hp1 & Hst1).
  set (s1 := set_world w1 s) in *.
  assert (Hk1 : kept (the_world s1) q (cr_key credentials) (key_derivation_method credentials) keys ∅).
  { eexists _, _, _. split; [exact Hst1|]. split; [by apply prepared_opens|]. apply represents_empty. }
  destruct (open_wallet_step salt1 nonce1 config credentials s1 q keys ∅ Hh (proj1 Hp1) Hl Hk1 Hid Hs1 Hn1 Hrk)
    as (s2 & E2 & Hp2 & Ha2 & Hk2 & Ht2 & Hids2 & _ & _ & He2).
  exists s1, s2. split; [unfold create_wallet; by rewrite (sm_bind_ok _ _ _ _ _ E1)|]. split; [exact E2|].
  split; [by eapply preserved_trans|]. done.
Qed.


(** *** Objects *)
Section Objects.
Context {CL : OptionsCodecLaws C} (T0 : Type) {Sd : Serde T0}.

Lemma record_exists_step s h q id keys pw m plain name :
  healthy -> world_ok (the_world s) -> attached s h q id keys -> kept (the_world s) q pw m keys plain ->
  rust_string (object_type T0) -> rust_string name ->
  exists w', record_exists T0 h name s = (set_world w' s, Ok (bool_decide (is_Some (plain !! (object_type T0, name))))) /\
    preserved (the_world s) w' q /\ attached (set_world w' s) h q id keys /\ kept w' q pw m keys plain.
Proof using SL CL.
  intros Hh Hw Ha Hk Ht Hn.
  assert (Ho : exists o, options_of_get (write_record_options record_options_id) = Some o).
  { unfold options_of_get. destruct (String.eqb _ _); [by eexists|]. rewrite read_write_record_options. by eexists. }
  destruct Ho as [o Ho].
  destruct (get_step s h q id keys pw m plain _ _ _ o Hh Hw Ha Hk Ht Hn Ho) as (r & Hr & Hg).
  destruct (Hg _ (fun r => match r with
                           | Ok _ => Ok true
                           | Err e => if decide (err_kind e = WalletItemNotFound) then Ok false else Err e
                           | Panic => Panic
                           end)
    (fun wallet => not_found_as false (let* _ := wallet_get wallet (object_type T0) name (write_record_options record_options_id) in
                                       sm_ret true))) as (w' & Ew & H).
  { intros wallet st st' r' E1. unfold not_found_as, sm_bind. rewrite E1. destruct r' as [|e|]; try done.
    by destruct (decide _). }
  exists w'. split; [|done]. unfold record_exists. rewrite Ew. f_equal.
  destruct (plain !! (object_type T0, name)) as [x|].
  - rewrite Hr. by rewrite bool_decide_eq_true_2.
  - destruct (is_error_inv _ _ Hr) as (e & -> & ->). by rewrite bool_decide_eq_false_2 by (by intros []).
Qed.

Lemma get_object_step s h q id keys pw m plain name options o x r :
  healthy -> world_ok (the_world s) -> attached s h q id keys -> kept (the_world s) q pw m keys plain ->
  rust_string (object_type T0) -> rust_string name -> options_of_get options = Some o -> retrieve_value o = true ->
  plain !! (object_type T0, name) = Some r -> from_json (pr_value r) = Some x ->
  exists w', get_indy_object T0 h name options s = (set_world w' s, Ok x) /\
    preserved (the_world s) w' q /\ attached (set_world w' s) h q id keys /\ kept w' q pw m keys plain.
Proof using SL.
  intros Hh Hw Ha Hk Ht Hn Ho Hval Hr Hx.
  destruct (get_step s h q id keys pw m plain _ _ _ o Hh Hw Ha Hk Ht Hn Ho) as (res & Hres & Hg).
  rewrite Hr in Hres. destruct (Hg _ (fun r => r) (fun wallet => wallet_get wallet (object_type T0) name options)) as (w' & Ew & H).
  { done. }
  exists w'. split; [|done]. unfold get_indy_object, get_indy_record_value, sm_bind. rewrite Ew, Hres.
  cbn [shown wr_value]. rewrite Hval. unfold sm_lift, ok_or. by rewrite Hx.
Qed.

(** Writing an object, by whichever of the two ways. *)
Lemma write_object_step s h q id keys pw m plain name rnd x j :
  healthy -> world_ok (the_world s) -> attached s h q id keys -> kept (the_world s) q pw m keys plain ->
  randomness_ok rnd -> rust_string (object_type T0) -> rust_string name -> rust_string j -> to_json x = Some j ->
  let k := (object_type T0, name) in
  exists w', (if bool_decide (is_Some (plain !! k)) then update_indy_object T0 rnd h name x
              else add_indy_object T0 rnd h name x []) s = (set_world w' s, Ok j) /\
    preserved (the_world s) w' q /\ attached (set_world w' s) h q id keys /\
    kept w' q pw m keys (<[k := mkPlainRecord j (default ∅ (pr_tags <$> plain !! k))]> plain).
Proof using SL.
  intros Hh Hw Ha Hk Hrnd Ht Hn Hj Hx k. destruct (plain !! k) as [r|] eqn:Ek.
  - rewrite bool_decide_eq_true_2 by (by eexists).
    destruct (op_step s h q id keys pw m plain (WUpdate rnd (object_type T0) name j)
      (fun r => match r with Ok _ => Ok j | Err e => Err e | Panic => Panic end)
      (fun wallet => let* object_json := sm_lift (serialize T0 x) in
                     let* _ := wallet_update wallet rnd (object_type T0) name object_json in
                     sm_ret object_json) Hw Ha Hk) as (w' & r0 & plain' & Ew & Hp & Ha' & Hk' & Hf).
    { done. }
    { intros wallet st st' r0 E1. unfold serialize, sm_lift, sm_bind at 1, ok_or. rewrite Hx. cbn [run_wallet_op] in E1.
      unfold sm_bind. rewrite E1. by destruct r0 as [[]| |]. }
    exists w'. unfold update_indy_object. rewrite Ew. cbn [wallet_spec] in Hf. unfold on_record in Hf. fold k in Hf.
    rewrite Ek in Hf. destruct r0 as [[]|e|]; [|by destruct (proj2 Hf Hh)|done]. by injection Hf as <-.
  - rewrite bool_decide_eq_false_2 by (by intros []). unfold add_indy_object, add_indy_record.
    rewrite (lift_ok _ _ _ j) by (unfold serialize, ok_or; by rewrite Hx).
    destruct (add_record rnd h (object_type T0) name j [] s) as [s1 r0] eqn:Ea.
    destruct (service_op_step s h q id keys pw m plain (WAdd rnd (object_type T0) name j []) s1 r0 Hw Ha Hk)
      as ([w' ->] & Hp & Ha' & plain' & Hk' & Hf); [|exact Ea|].
    { split; [done|]. do 3 (split; [done|]). split; [apply NoDup_nil_2|constructor]. }
    exists w'. unfold sm_bind. rewrite Ea. unfold service_follows in Hf. cbn [wallet_spec] in Hf. fold k in Hf.
    rewrite Ek in Hf. destruct r0 as [[]|e|]; [|by destruct (proj2 Hf Hh)|done]. by injection Hf as <-.
Qed.
End Objects.

(** Writing an object and reading it back.  On healthy storage, [upsert_indy_object] on an
    open wallet succeeds whether or not the object is there, returns its JSON, keeps the tags
    of an existing record and changes no other record; [get_indy_object] then returns the
    object, for all options that ask for the value. *)
Theorem upsert_then_get {CL : OptionsCodecLaws C} (T0 : Type) {Sd : Serde T0} s h q id keys pw m plain rnd name x j options o :
  healthy -> world_ok (the_world s) -> attached s h q id keys -> kept (the_world s) q pw m keys plain ->
  randomness_ok rnd -> rust_string (object_type T0) -> rust_string name -> rust_string j ->
  to_json x = Some j -> from_json j = Some x ->
  options_of_get options = Some o -> retrieve_value o = true ->
  let k := (object_type T0, name) in
  exists w1 w2,
    upsert_indy_object T0 rnd h name x s = (set_world w1 s, Ok j) /\
    kept w1 q pw m keys (<[k := mkPlainRecord j (default ∅ (pr_tags <$> plain !! k))]> plain) /\
    preserved (the_world s) w1 q /\ attached (set_world w1 s) h q id keys /\
    get_indy_object T0 h name options (set_world w1 s) = (set_world w2 s, Ok x).
Proof using SL.
  intros Hh Hw Ha Hk Hrnd Ht Hn Hj Hx Hx' Ho Hval k.
  destruct (record_exists_step T0 s h q id keys pw m plain name Hh Hw Ha Hk Ht Hn) as (w1 & E1 & Hp1 & Ha1 & Hk1).
  destruct (write_object_step T0 (set_world w1 s) h q id keys pw m plain name rnd x j Hh (proj1 Hp1) Ha1 Hk1 Hrnd Ht Hn Hj Hx)
    as (w2 & E2 & Hp2 & Ha2 & Hk2).
  destruct (get_object_step T0 (set_world w2 s) h q id keys pw m _ name options o x _ Hh (proj1 Hp2) Ha2 Hk2 Ht Hn Ho Hval
    (lookup_insert_eq _ _ _) Hx') as (w3 & E3 & _).
  exists w2, w3. split; [|split; [done|split; [by eapply preserved_trans|by split]]].
  unfold upsert_indy_object. rewrite (sm_bind_ok _ _ _ _ _ E1). exact E2.
Qed.

(** *** Deleting *)
Lemma delete_wallet_step config credentials md mk keys s q x :
  healthy -> world_ok (the_world s) -> located s config credentials q -> stored (the_world s) q = Some x ->
  _restore_keys md mk = Ok keys ->
  exists w', delete_wallet_continue config credentials md mk s = (set_world w' s, Ok ()) /\
    free w' q /\ (forall r, ~ covers q r -> stored w' r = stored (the_world s) r).
Proof using Type.
  intros Hh Hw Hl Hx Hk. unfold delete_wallet_continue. rewrite (lift_ok _ _ _ _ Hk). unfold gets, sm_bind at 1.
  rewrite (lift_ok _ _ _ _ (config_for_storage s config credentials q Hl)). destruct Hl as [_ Hp].
  pose proof (law_delete (the_world s) (cfg_id config) _ _ q Hw Hh Hp) as H.
  destruct (ty_delete T _ _ _ (the_world s)) as [w' r] eqn:Ed. destruct H as (Hw' & H). rewrite Hx in H.
  destruct H as (-> & Hf & _ & Hkeep & _). exists w'. split; [by apply in_world_eq|]. done.
Qed.

(** *** Export and import *)
Section Streams.
Context {EL : ExportCodecLaws E} (increment : bytes -> bytes) (p : Profile).

Lemma export_loop_meta wallet fuel : forall writer s i,
  st_ok s -> it_ok s i -> meta (export_loop increment wallet fuel writer (s, i)).1.1 = meta s.
Proof using Type.
  induction fuel as [|fuel IH]; intros writer s i Hs Hi; [done|]. cbn [export_loop].
  pose proof (keeps_meta_next s i Hs) as Hm. unfold sm_bind at 1, wallet_next, sm_bind at 1.
  destruct (it_next (s, i)) as [[s1 i1] r] eqn:En. cbn [fst] in Hm.
  apply law_next in En as (Hs1 & Hi1 & _); [|done..].
  destruct r as [[rec|]|e|]; [|done..]. unfold sm_lift at 1.
  destruct (out_map Some (decrypt_storage_record rec (wallet_keys wallet))) as [[rec'|]|e|]; [|done..].
  rewrite <-Hm. unfold sm_bind, sm_lift.
  destruct (ok_or (wr_type rec') _); [|done..]. destruct (ok_or (wr_value rec') _); [|done..].
  destruct (ok_or (wr_tags rec') _); [|done..]. destruct (returns _); [|done..]. destruct (returns _); [|done..].
  by apply IH.
Qed.

Lemma export_keeps_meta wallet fuel nonce now version key kd s :
  st_ok s -> meta (export_continue increment wallet fuel nonce now version key kd s).1 = meta s.
Proof using Type.
  intros Hs. unfold export_continue, sm_bind at 1, sm_lift at 1. destruct (returns _) as [writer| |]; [|done..].
  pose proof (keeps_meta_get_all s Hs) as Hm. unfold sm_bind at 1, wallet_get_all.
  destruct (st_get_all s) as [s1 r] eqn:Eg. cbn [fst] in Hm.
  apply law_get_all in Eg as (Hs1 & _ & _ & _ & Hi); [|done]. destruct r as [i|e|]; [|done..].
  destruct (Hi i eq_refl) as [Hi' _]. pose proof (export_loop_meta wallet fuel writer s1 i Hs1 Hi') as Hl.
  unfold sm_bind. destruct (export_loop increment wallet fuel writer (s1, i)) as [[s2 i2] [w'| |]]; cbn [fst] in Hl;
    [|by rewrite <-Hm..]. unfold sm_lift, sm_ret. destruct (returns _); by rewrite <-Hm.
Qed.

Lemma import_loop_keeps wallet rnds fuel : (forall n, randomness_ok (rnds n)) -> forall i reader s,
  st_ok s -> st_ok (import_loop increment wallet rnds fuel i reader s).1 /\
    meta (import_loop increment wallet rnds fuel i reader s).1 = meta s.
Proof using SL EL.
  intros Hrnd. induction fuel as [|fuel IH]; intros i reader s Hs; [done|]. cbn [import_loop]. unfold sm_bind, sm_lift.
  destruct (read_exact increment reader 4) as [[len r1]| |]; [|done..]. destruct (read_u32 len =? 0)%nat; [done|].
  destruct (read_exact increment r1 _) as [[b r2]| |]; [|done..].
  destruct (ok_or (record_from_slice b) _) as [rec| |]; [|done..].
  pose proof (keeps_meta_op (WAdd (rnds i) (er_type rec) (er_id rec) (er_value rec) (iter_tags (er_tags rec))) wallet s Hs) as Hm.
  cbn [run_wallet_op] in Hm.
  destruct (wallet_add wallet (rnds i) (er_type rec) (er_id rec) (er_value rec) (iter_tags (er_tags rec)) s) as [s1 r] eqn:Ea.
  cbn [fst] in Hm. assert (Hs1 : st_ok s1).
  { unfold wallet_add in Ea. rewrite bind_unit in Ea. destruct (Hrnd i) as (Hk & _ & H2).
    apply law_add in Ea as [Hs1 _]; [done|done|apply wkey_ok|by apply ev_encrypt_ok|].
    apply encrypted_names_NoDup, (permuted_names _ (er_tags rec)), iter_tags_perm. }
  destruct r as [[]| |]; [|done..]. rewrite <-Hm. by apply IH.
Qed.

Lemma finish_import_keeps wallet rnds fuel file key nonce cs hb s :
  (forall n, randomness_ok (rnds n)) -> st_ok s -> st_ok (finish_import increment p wallet rnds fuel file key nonce cs hb s).1 /\
    meta (finish_import increment p wallet rnds fuel file key nonce cs hb s).1 = meta s.
Proof using SL EL.
  intros Hrnd Hs. unfold finish_import, sm_bind, sm_lift. destruct (reader_new _ _ _ _ _); [|done..].
  destruct (read_exact _ _ _) as [[hh r1]| |]; [|done..]. destruct (negb _); [done|]. by apply import_loop_keeps.
Qed.

(** An import up to the point where the records are read. *)
Lemma import_start fuel keys nonce rnds h config credentials import_key mk s q pi salt :
  healthy -> world_ok (the_world s) -> located s config credentials q -> free (the_world s) q ->
  _get_wallet_id config ∉ wallet_ids s -> length salt = SALTBYTES -> length nonce = NONCEBYTES ->
  pending_for_import s !! h = Some pi ->
  pi_key_data pi = from_passphrase_with_new_salt salt (cr_key credentials) (key_derivation_method credentials) ->
  calc_master_key (pi_key_data pi) = Ok mk ->
  exists w' c md,
    import_wallet_continue increment p fuel keys nonce rnds h config credentials import_key mk s =
      import_finish increment p fuel rnds config credentials keys pi import_key mk c (metadata_to_vec md)
        (set_world w' (set_pending_import (base.delete h (pending_for_import s)) s)) /\
    preserved (the_world s) w' q /\ conn_at w' c = Some q /\ conn_at (the_world s) c = None /\
    stored w' q = Some (Some (metadata_to_vec md), ∅) /\
    opens md (cr_key credentials) (key_derivation_method credentials) keys mk.
Proof using SL KL TL.
  intros Hh Hw Hl Hf Hid Hs Hn Hpi Hkd Hmk. set (s0 := set_pending_import (base.delete h (pending_for_import s)) s).
  rewrite Hkd in Hmk.
  destruct (create_wallet_step keys nonce config credentials salt _ mk s0 q Hh Hw Hl Hf Hs Hn Hmk) as (w1 & E1 & Hp1 & Hst1).
  rewrite <-Hkd in E1. set (md := metadata_of _ _ _ _) in Hst1.
  assert (Hop : opens md (cr_key credentials) (key_derivation_method credentials) keys mk) by (by apply prepared_opens).
  destruct (open_storage_step config credentials (set_world w1 s0) q _ Hh (proj1 Hp1) Hl Hst1) as (w2 & c & E2 & Hp2 & Hs2 & Hc2 & Hnew).
  assert (Hfree : _is_id_from_config_not_used config (set_world w1 s0) = (set_world w1 s0, Ok ())).
  { unfold _is_id_from_config_not_used, gets, sm_bind. by rewrite bool_decide_eq_false_2. }
  destruct (conn_state w2 c q (proj1 Hp2) Hc2) as [Hok Hcs]. rewrite Hs2 in Hcs. injection Hcs as Hm Hv.
  pose proof (law_get_metadata (state_of w2 c) Hok) as Hg.
  destruct (st_get_metadata (state_of w2 c)) as [st r] eqn:Eg. destruct Hg as (Hok' & Hv' & Hm' & _ & Hr).
  rewrite (Hr Hh _ (eq_sym Hm)) in Eg.
  destruct (on_conn st_get_metadata c q w2 st _ (proj1 Hp2) Hc2 Eg Hok') as (w3 & E3 & Hp3 & Hc3 & Hs3).
  exists w3, c, md. split.
  - unfold import_wallet_continue. unfold gets at 1, sm_bind at 1. rewrite Hpi. unfold modify at 1, sm_bind at 1. fold s0.
    unfold returns at 1, sm_lift at 1, sm_bind at 1.
    rewrite (sm_bind_ok _ _ _ _ _ E1), (sm_bind_ok _ _ _ _ _ Hfree), (sm_bind_ok _ _ _ _ _ E2).
    by rewrite (sm_bind_ok _ _ _ _ _ (in_world_eq (on c st_get_metadata) (set_world w2 (set_world w1 s0)) w3 _ E3)).
  - split; [eapply preserved_trans; [exact Hp1|by eapply preserved_trans]|]. split; [done|].
    split; [|split; [by rewrite Hs3, Hm', Hv', <-Hm, <-Hv|done]].
    destruct (conn_at (the_world s) c) as [r0|] eqn:Er0; [|done]. apply Hp1 in Er0. cbn in Er0, Hnew. congruence.
Qed.
End Streams.

(** C37: A failed import leaves no wallet behind.  When the import of a file into a free place
    fails while its records are read, the wallet created for it is deleted: the place is free
    again, every wallet outside its directory is untouched, and the service is as before
    except that the pending import is gone. *)
Theorem failed_import_leaves_nothing {EL : ExportCodecLaws E} increment p fuel keys nonce rnds h config credentials
    import_key mk s s' q pi salt e :
  healthy -> world_ok (the_world s) -> located s config credentials q -> free (the_world s) q ->
  _get_wallet_id config ∉ wallet_ids s -> length salt = SALTBYTES -> length nonce = NONCEBYTES ->
  pending_for_import s !! h = Some pi ->
  pi_key_data pi = from_passphrase_with_new_salt salt (cr_key credentials) (key_derivation_method credentials) ->
  calc_master_key (pi_key_data pi) = Ok mk -> (forall n, randomness_ok (rnds n)) ->
  import_wallet_continue increment p fuel keys nonce rnds h config credentials import_key mk s = (s', Err e) ->
  free (the_world s') q /\
  (forall r, ~ covers q r -> stored (the_world s') r = stored (the_world s) r) /\
  s' = set_world (the_world s') (set_pending_import (base.delete h (pending_for_import s)) s).
Proof using SL KL TL.
  intros Hh Hw Hl Hf Hid Hs Hn Hpi Hkd Hmk Hrnd.
  destruct (import_start increment p fuel keys nonce rnds h config credentials import_key mk s q pi salt
    Hh Hw Hl Hf Hid Hs Hn Hpi Hkd Hmk) as (w1 & c & md & -> & Hp1 & Hc1 & _ & Hst1 & kd & _ & _ & Hkeys).
  set (s0 := set_pending_import _ s). unfold import_finish.
  destruct (conn_state w1 c q (proj1 Hp1) Hc1) as [Hok Hcs]. rewrite Hst1 in Hcs. injection Hcs as Hm Hv.
  set (wallet := mkWallet _ keys).
  pose proof (finish_import_keeps increment p wallet rnds fuel (pi_reader pi) import_key (pi_nonce pi) (pi_chunk_size pi)
    (pi_header pi) _ Hrnd Hok) as [Hok' Hm'].
  destruct (finish_import increment p wallet rnds fuel (pi_reader pi) import_key (pi_nonce pi) (pi_chunk_size pi)
    (pi_header pi) (state_of w1 c)) as [st r] eqn:Ei. cbn [fst] in Hok', Hm'.
  destruct (on_conn _ c q w1 st r (proj1 Hp1) Hc1 Ei Hok') as (w2 & E2 & Hp2 & _ & Hs2).
  rewrite (in_world_eq _ (set_world w1 s0) w2 r E2). destruct r as [[]|e0|]; [done| |done].
  rewrite (lift_ok _ _ _ _ (f_equal (fun o => ok_or o _) (metadata_back md))).
  destruct (delete_wallet_step config credentials md mk keys (set_world w2 s0) q _ Hh (proj1 Hp2) Hl Hs2 Hkeys)
    as (w3 & E3 & Hfree & Hkeep). rewrite (sm_bind_ok _ _ _ _ _ E3). intros [= <- <-].
  split; [done|]. split; [|done]. cbn [the_world set_world]. intros r Hr. rewrite Hkeep by done.
  assert (Hne : r <> q) by (intros ->; apply Hr, covers_refl).
  cbn. by rewrite (proj2 (proj2 Hp2)), (proj2 (proj2 Hp1)).
Qed.

Lemma on_free {A : Type} (m : SM storage A) c q w : free w q -> free (on c m w).1 q.
Proof using Type. intros Hf. unfold on. destruct (m (state_of w c)). cbn. by apply free_with_state. Qed.

Lemma kept_other w w' q r pw m keys plain :
  preserved w w' q -> r <> q -> kept w r pw m keys plain -> kept w' r pw m keys plain.
Proof using Type. intros (_ & _ & Hs) Hne (md & v & mk & Hst & H). exists md, v, mk. by rewrite Hs. Qed.

(** Exporting an open wallet: the world keeps it, and the file can be imported. *)
Lemma export_step {EL : ExportCodecLaws E} increment p fuel nonce now left_over s h q id keys pw m plain
    passphrase pm salt key ec :
  healthy -> world_ok (the_world s) -> attached s h q id keys -> kept (the_world s) q pw m keys plain ->
  export_dir_error (ec_path ec) = None -> export_open_error (ec_path ec) = None ->
  export_files s !! ec_path ec = None -> length salt = SALTBYTES -> length nonce = NONCEBYTES ->
  let kd := from_passphrase_with_new_salt salt passphrase pm in
  calc_master_key kd = Ok key ->
  (Z.of_nat (length (header_to_vec (export_header kd nonce now 0))) < 2 ^ 32)%Z ->
  map_Forall (fun k x => (Z.of_nat (length (record_to_vec (exported (k, x)))) < 2 ^ 32)%Z) plain ->
  size plain < fuel ->
  exists w' file rest kd' nonce' cs hb,
    export_wallet increment fuel nonce now left_over h ec 0 kd key s =
      (set_exports (<[ec_path ec := file]> (export_files s)) (set_world w' s), Ok ()) /\
    preserved (the_world s) w' q /\ kept w' q pw m keys plain /\
    (forall r, free (the_world s) r -> free w' r) /\
    preparse_file_to_import file passphrase = Ok (rest, kd', nonce', cs, hb) /\ calc_master_key kd' = Ok key /\
    forall wallet2 rnds s2, st_ok s2 -> represents wallet2 (view s2) ∅ -> (forall n, randomness_ok (rnds n)) ->
      exists s2', finish_import increment p wallet2 rnds fuel rest key nonce' cs hb s2 = (s2', Ok ()) /\
        st_ok s2' /\ represents wallet2 (view s2') plain.
Proof using SL TL.
  intros Hh Hw Ha Hk Hd Ho Hfile Hs Hn kd Hkey Hhl Hrl Hf. pose proof Ha as (c & Hl & Hc).
  destruct (kept_state _ c q pw m keys plain Hw Hc Hk) as (Hok & Hrep & md & mk & Hm & Hop).
  destruct (export_then_import S SL K E EL C increment p W WL (mkWallet id keys) passphrase pm salt nonce now key fuel
    (state_of (the_world s) c) plain Hh Hok Hrep Hs Hn Hkey Hhl Hrl Hf)
    as (st & file & rest & kd' & nonce' & cs & hb & Ee & Hok' & Hv & Epre & Hkey' & Himp).
  pose proof (export_keeps_meta increment (mkWallet id keys) fuel nonce now 0 key kd _ Hok) as Hm'. fold kd in Ee. rewrite Ee in Hm'. cbn [fst] in Hm'.
  destruct (on_conn _ c q _ st _ Hw Hc Ee Hok') as (w' & E1 & Hp & _ & Hs').
  exists w', file, rest, kd', nonce', cs, hb. split; [|split; [done|split; [|split; [|split; [done|split; [done|]]]]]].
  - unfold export_wallet. change (negb (0 =? 0)%Z) with false. cbv iota. unfold gets at 1, sm_bind at 1. rewrite Hl.
    unfold ok_or, sm_lift at 1, sm_bind at 1. rewrite Hd. unfold sm_ret at 1, sm_bind at 1. unfold gets at 1, sm_bind at 1.
    rewrite Ho, Hfile. unfold sm_ret at 1, sm_bind at 1. cbn [ow_conn ow_wallet].
    by rewrite (in_world_eq _ s w' _ E1).
  - exists md, (view st), mk. by rewrite Hs', Hm', Hm, Hv.
  - intros r Hr. pose proof (on_free (export_continue increment (mkWallet id keys) fuel nonce now 0 key kd) c r _ Hr) as Hfr.
    by rewrite E1 in Hfr.
  - intros wallet2 rnds s2. by apply Himp.
Qed.

(** C25: Exporting a wallet and importing the file copies it.  On healthy storage an open
    wallet exports to a new file; importing that file under another configuration and other
    credentials, with the passphrase of the export, creates a wallet that opens with those
    credentials and holds exactly the plaintext records of the exported one; the exported
    wallet stays open and unchanged. *)
Theorem exported_wallet_imports {EL : ExportCodecLaws E} increment p fuel nonce now left_over s h q id keys pw m plain
    salt key ec config credentials q2 salt2 nonce2 keys2 mk2 rnds :
  healthy -> world_ok (the_world s) -> attached s h q id keys -> kept (the_world s) q pw m keys plain ->
  export_dir_error (ec_path ec) = None -> export_open_error (ec_path ec) = None -> import_open_error (ec_path ec) = None ->
  export_files s !! ec_path ec = None ->
  located s config credentials q2 -> free (the_world s) q2 -> _get_wallet_id config ∉ wallet_ids s ->
  Forall (fun x => length x = SALTBYTES) [salt; salt2] -> Forall (fun x => length x = NONCEBYTES) [nonce; nonce2] ->
  (forall n, randomness_ok (rnds n)) ->
  let kd := from_passphrase_with_new_salt salt (ec_key ec) (ec_method ec) in
  calc_master_key kd = Ok key ->
  calc_master_key (from_passphrase_with_new_salt salt2 (cr_key credentials) (key_derivation_method credentials)) = Ok mk2 ->
  (Z.of_nat (length (header_to_vec (export_header kd nonce now 0))) < 2 ^ 32)%Z ->
  map_Forall (fun k x => (Z.of_nat (length (record_to_vec (exported (k, x)))) < 2 ^ 32)%Z) plain ->
  size plain < fuel ->
  exists s1 s2 h2 kd2 import_kd s3,
    export_wallet increment fuel nonce now left_over h ec 0 kd key s = (s1, Ok ()) /\
    import_wallet_prepare salt2 config credentials ec s1 = (s2, Ok (h2, kd2, import_kd)) /\
    calc_master_key kd2 = Ok mk2 /\ calc_master_key import_kd = Ok key /\
    import_wallet_continue increment p fuel keys2 nonce2 rnds h2 config credentials key mk2 s2 = (s3, Ok ()) /\
    kept (the_world s3) q2 (cr_key credentials) (key_derivation_method credentials) keys2 plain /\
    kept (the_world s3) q pw m keys plain /\ attached s3 h q id keys.
Proof using SL KL TL.
  intros Hh Hw Ha Hk Hd Ho Hi Hfile Hl2 Hf2 Hid [Hs [Hs2 _]%Forall_cons]%Forall_cons [Hn [Hn2 _]%Forall_cons]%Forall_cons
    Hrnd kd Hkey Hmk2 Hhl Hrl Hf.
  destruct (export_step increment p fuel nonce now left_over s h q id keys pw m plain (ec_key ec) (ec_method ec) salt key ec
    Hh Hw Ha Hk Hd Ho Hfile Hs Hn Hkey Hhl Hrl Hf)
    as (w1 & file & rest & kd' & nonce' & cs & hb & E1 & Hp1 & Hk1 & Hfr1 & Epre & Hkey' & Himp).
  set (s1 := set_exports _ _) in E1. set (h2 := as_i32 (ids_counter s + 1)).
  set (kd2 := from_passphrase_with_new_salt salt2 _ _) in *. set (pi := mkPendingImport rest nonce' cs hb kd2).
  set (s2 := set_pending_import (<[h2 := pi]> (pending_for_import s)) (set_counter (ids_counter s + 1)%Z s1)).
  assert (E2 : import_wallet_prepare salt2 config credentials ec s1 = (s2, Ok (h2, kd2, kd'))).
  { unfold import_wallet_prepare, gets, sm_bind at 1, s1. cbn [export_files set_exports]. rewrite Hi, lookup_insert_eq.
    unfold ok_or, sm_lift at 1, sm_bind at 1. by rewrite (lift_ok _ _ _ _ Epre). }
  destruct (import_start increment p fuel keys2 nonce2 rnds h2 config credentials key mk2 s2 q2 pi salt2)
    as (w2 & c & md & E3 & Hp2 & Hc2 & _ & Hst2 & Hop2); try done; [apply Hp1|by apply Hfr1|by apply lookup_insert_eq|].
  destruct (conn_state w2 c q2 (proj1 Hp2) Hc2) as [Hok Hcs]. rewrite Hst2 in Hcs. injection Hcs as Hm Hv.
  destruct (Himp (mkWallet (_get_wallet_id config) keys2) rnds (state_of w2 c) Hok) as (st & Ei & Hok' & Hrep');
    [rewrite <-Hv; apply represents_empty|done|].
  pose proof (finish_import_keeps increment p (mkWallet (_get_wallet_id config) keys2) rnds fuel rest key nonce' cs hb _ Hrnd Hok) as [_ Hm'].
  rewrite Ei in Hm'. cbn [fst] in Hm'.
  destruct (on_conn _ c q2 w2 st _ (proj1 Hp2) Hc2 Ei Hok') as (w3 & E4 & Hp3 & _ & Hs3).
  assert (Hne : q <> q2).
  { intros ->. destruct Hk as (? & ? & ? & Hst & _). by rewrite free_not_stored in Hst. }
  pose proof (preserved_trans _ _ _ _ Hp2 Hp3) as Hp23.
  exists s1, s2, h2, kd2, kd'. eexists. split; [done|]. split; [done|]. split; [done|]. split; [done|]. split.
  - rewrite E3. unfold import_finish. erewrite in_world_eq by exact E4. reflexivity.
  - cbn [the_world set_world]. split; [|split].
    + exists md, (view st), mk2. by rewrite Hs3, Hm', <-Hm.
    + eapply kept_other; [exact Hp23|done|done].
    + destruct Ha as (c0 & Hl & Hc0). exists c0. split; [done|]. by apply Hp23, Hp1.
Qed.
End Facts.

(** ** Examples *)
#[local] Instance demo_storage_laws : StorageLaws demo_storage :=
  @SQLiteStorage_laws _ (demo_sqlite_laws []) demo_options Debug.
#[local] Instance demo_world_laws : WorldLaws demo_storage_laws demo_world :=
  @sqlite_world_laws _ (demo_sqlite_laws []) demo_options Debug.
#[local] Instance demo_type_laws : StorageTypeLaws demo_world_laws demo_type :=
  @sqlite_type_laws _ (demo_sqlite_laws []) demo_options demo_fs demo_fs_laws Debug demo_read_config ["home"] [].

Definition demo_place : Path := ["home"; "w"; "sqlite.db"].
Definition rotating : Credentials := mkCredentials "pass" (Some "new") None ARGON2I_MOD RAW.

Lemma demo_free : disk_free empty_disk demo_place.
Proof. apply disk_free_check; vm_compute; reflexivity. Qed.


(** The service with one open wallet. *)
Definition demo_opened : Service :=
  (open_wallet demo_salt demo_nonce demo_config demo_credentials (demo_create demo_config demo_service).1).1.

Lemma demo_opened_ok :
  preserved (the_world demo_service) (the_world demo_opened) demo_place /\ attached demo_opened 2 demo_place "w" demo_keys /\
  kept (the_world demo_opened) demo_place "pass" ARGON2I_MOD demo_keys ∅ /\
  storage_types demo_opened = {[ "default" := demo_type ]} /\ wallet_ids demo_opened = {["w"]} /\
  export_files demo_opened = ∅.
Proof.
  destruct (create_and_open (SL := demo_sodium_laws) (KL := demo_key_codec_laws) (WL := demo_storage_laws) (DL := demo_world_laws)
    (TL := demo_type_laws) demo_type demo_config demo_credentials demo_keys demo_nonce demo_salt demo_master_key demo_service
    demo_place demo_salt demo_nonce) as (s1 & s2 & E1 & E2 & Hw & Ha & Hk & Ht & Hi & He).
  - exact demo_no_faults.
  - exact empty_disk_ok.
  - split; reflexivity.
  - exact demo_free.
  - set_solver.
  - repeat constructor.
  - repeat constructor.
  - reflexivity.
  - intros r Hr. discriminate Hr.
  - unfold demo_opened, demo_create. change demo_key_data with (from_passphrase_with_new_salt demo_salt
      (cr_key demo_credentials) (key_derivation_method demo_credentials)). rewrite E1. cbn [fst]. rewrite E2. cbn [fst].
    split; [exact Hw|]. split; [exact Ha|]. split; [exact Hk|]. split; [exact Ht|]. split; [|exact He].
    rewrite Hi. vm_compute. reflexivity.
Qed.

#[local] Opaque demo_opened.

#[local] Instance demo_serde : Serde string := {|
  type_name := "indy::domain::crypto::did::Did";
  to_json s := Some s;
  from_json s := Some s
|}.

Lemma upsert_then_get_witness :
  object_type string = "Indy::Did" /\
  exists w1 w2 : @world demo_storage demo_world,
    upsert_indy_object string demo_rnd 2 "did1" "{}" demo_opened = (set_world w1 demo_opened, Ok "{}") /\
    kept w1 demo_place "pass" ARGON2I_MOD demo_keys
      {[ ("Indy::Did", "did1") := mkPlainRecord "{}" ∅ ]} /\
    preserved (the_world demo_opened) w1 demo_place /\ attached (set_world w1 demo_opened) 2 demo_place "w" demo_keys /\
    get_indy_object string 2 "did1" "010" (set_world w1 demo_opened) = (set_world w2 demo_opened, Ok "{}").
Proof.
  destruct demo_opened_ok as ((Hw & _) & Ha & Hk & _). split; [reflexivity|].
  exact (upsert_then_get (SL := demo_sodium_laws) (CL := demo_options_laws) (WL := demo_storage_laws) (DL := demo_world_laws) string
    demo_opened 2 demo_place "w" demo_keys "pass" ARGON2I_MOD ∅ demo_rnd "did1" "{}" "{}" "010" (mkRecordOptions false true false)
    demo_no_faults Hw Ha Hk (conj eq_refl (conj eq_refl eq_refl)) eq_refl eq_refl eq_refl eq_refl eq_refl eq_refl eq_refl).
Defined.

(** An import of a file that is no export. *)
Definition demo_import (s : Service) : Service * outcome unit :=
  import_wallet_continue (map (Z.add 1)) Debug 2 demo_keys demo_nonce (fun _ => demo_rnd) 7 demo_config demo_credentials
    [7]%Z demo_master_key s.
Definition demo_pending : Service :=
  set_pending_import {[ 7%Z := mkPendingImport [1; 2; 3]%Z (replicate 12 0%Z) (Z.of_nat CHUNK_SIZE) [5]%Z demo_key_data ]} demo_service.

Lemma failed_import_leaves_nothing_witness :
  let s' := (demo_import demo_pending).1 in
  disk_free (the_world s') demo_place /\
  (forall r, ~ disk_covers demo_place r -> disk_stored (the_world s') r = disk_stored (the_world demo_pending) r) /\
  s' = set_world (the_world s') (set_pending_import (base.delete 7%Z (pending_for_import demo_pending)) demo_pending).
Proof.
  cbv zeta. assert (H : (demo_import demo_pending).2 = Err (err_msg InvalidStructure "Invalid export file format"))
    by (vm_compute; reflexivity).
  destruct (demo_import demo_pending) as [s' r] eqn:E1. cbn [fst snd] in *. subst r.
  exact (failed_import_leaves_nothing (SL := demo_sodium_laws) (KL := demo_key_codec_laws) (EL := demo_export_codec_laws)
    (WL := demo_storage_laws) (DL := demo_world_laws) (TL := demo_type_laws) demo_type (map (Z.add 1)) Debug 2 demo_keys demo_nonce (fun _ => demo_rnd) 7 demo_config
    demo_credentials [7]%Z demo_master_key demo_pending s' demo_place
    (mkPendingImport [1; 2; 3]%Z (replicate 12 0%Z) (Z.of_nat CHUNK_SIZE) [5]%Z demo_key_data) demo_salt _
    demo_no_faults empty_disk_ok (conj eq_refl eq_refl) demo_free (not_elem_of_empty _) eq_refl eq_refl eq_refl eq_refl eq_refl
    (fun _ => conj eq_refl (conj eq_refl eq_refl)) E1).
Defined.

(** The open wallet with a record. *)
Definition demo_filled : Service := (run_service_op 2 one_record demo_opened).1.
Lemma demo_filled_ok :
  disk_ok (the_world demo_filled) /\ attached demo_filled 2 demo_place "w" demo_keys /\
  kept (the_world demo_filled) demo_place "pass" ARGON2I_MOD demo_keys one_record_plain /\
  storage_types demo_filled = {[ "default" := demo_type ]} /\ wallet_ids demo_filled = {["w"]} /\
  export_files demo_filled = ∅.
Proof.
  destruct demo_opened_ok as ((Hw & _) & Ha & Hk & Ht & Hi & He).
  destruct (service_op_ok (SL := demo_sodium_laws) (WL := demo_storage_laws) (DL := demo_world_laws) demo_opened 2 demo_place
    "w" demo_keys "pass" ARGON2I_MOD ∅ one_record_plain one_record Hw Ha Hk one_record_valid) as (Hw' & Ha' & Hk' & Ht' & Hi' & He').
  - vm_compute. reflexivity.
  - reflexivity.
  - split; [exact Hw'|]. split; [exact Ha'|]. split; [exact Hk'|].
    split; [exact (eq_trans Ht' Ht)|]. split; [exact (eq_trans Hi' Hi)|exact (eq_trans He' He)].
Qed.

#[local] Opaque demo_filled.

Definition copy_config : Config := mkConfig "copy" None None.
Definition copy_credentials : Credentials := mkCredentials "other" None None ARGON2I_INT RAW.
Definition copy_place : Path := ["home"; "copy"; "sqlite.db"].
Definition copy_keys : Keys := mkKeys [11]%Z [12]%Z [13]%Z [14]%Z [15]%Z [16]%Z [17]%Z.
Definition demo_export_config : ExportConfig := mkExportConfig "exp" "/tmp/export" ARGON2I_MOD.

Lemma exported_wallet_imports_witness :
  let kd := from_passphrase_with_new_salt demo_salt "exp" ARGON2I_MOD in
  let key := take_key (as_bytes "exp" ++ demo_salt)%list in
  let mk2 := take_key (as_bytes "other" ++ demo_salt)%list in
  exists s1 s2 h2 kd2 import_kd s3,
    export_wallet (map (Z.add 1)) 2 demo_nonce 1700000000 [] 2 demo_export_config 0 kd key demo_filled = (s1, Ok ()) /\
    import_wallet_prepare demo_salt copy_config copy_credentials demo_export_config s1 = (s2, Ok (h2, kd2, import_kd)) /\
    calc_master_key kd2 = Ok mk2 /\ calc_master_key import_kd = Ok key /\
    import_wallet_continue (map (Z.add 1)) Debug 2 copy_keys demo_nonce (fun _ => demo_rnd) h2 copy_config copy_credentials
      key mk2 s2 = (s3, Ok ()) /\
    kept (the_world s3) copy_place "other" ARGON2I_INT copy_keys one_record_plain /\
    kept (the_world s3) demo_place "pass" ARGON2I_MOD demo_keys one_record_plain /\ attached s3 2 demo_place "w" demo_keys.
Proof.
  cbv zeta. destruct demo_filled_ok as (Hw & Ha & Hk & Ht & Hi & He).
  apply (exported_wallet_imports (SL := demo_sodium_laws) (KL := demo_key_codec_laws) (EL := demo_export_codec_laws)
    (WL := demo_storage_laws) (DL := demo_world_laws) (TL := demo_type_laws) demo_type (map (Z.add 1)) Debug 2 demo_nonce 1700000000 [] demo_filled 2 demo_place "w" demo_keys
    "pass" ARGON2I_MOD one_record_plain demo_salt (take_key (as_bytes "exp" ++ demo_salt)%list) demo_export_config copy_config
    copy_credentials copy_place demo_salt demo_nonce copy_keys (take_key (as_bytes "other" ++ demo_salt)%list) (fun _ => demo_rnd)).
  - exact demo_no_faults.
  - exact Hw.
  - exact Ha.
  - exact Hk.
  - reflexivity.
  - reflexivity.
  - reflexivity.
  - rewrite He. apply lookup_empty.
  - split; [rewrite Ht; reflexivity|reflexivity].
  - apply disk_free_check; vm_compute; reflexivity.
  - rewrite Hi. apply not_elem_of_singleton. vm_compute. congruence.
  - repeat constructor.
  - repeat constructor.
  - intros n. repeat constructor.
  - reflexivity.
  - reflexivity.
  - cbn [header_to_vec demo_export_codec length]. lia.
  - intros k x _. cbn [record_to_vec demo_export_codec length]. lia.
  - vm_compute. lia.
Defined.
