(* ===== verification/WalletCommands.v ===== *)
(** * The wallet commands

    [WalletCommandExecutor] of [libindy/src/commands/wallet.rs], between the calls of the
    application and [WalletService].  A call sends a command to the queue of the worker
    thread; an operation that needs a master key stores the application's callback, sends
    [DeriveKey] for the key, and goes on with another command when a thread of the pool has
    derived it.  Commands of several calls interleave, and threads of the pool finish in any
    order.

    A callback of the application is a number.  The closures that the executor itself passes
    to [DeriveKey] are the constructors of [DeriveCallback], with what they capture.  What
    an execution draws from its surroundings (salts, keys, nonces, the clock, the fuel of the
    loops of export and import) is a record [Draws].  base64, hex, base58 and the seeded
    generator are parameters.

    Shown: no callback is lost or called twice, whatever the interleaving; every continuation
    finds its callback and what the service prepared for it; the commands end, with every
    callback called unless the worker thread panics; and a call on its own does what the
    operations of the service do one after the other. *)

From stdpp Require Import base list strings numbers gmap pretty.
From Stdlib Require Import ZArith Lia.
From S2P Require Import Prelude Errors Json Wql WalletCrypto WalletQuery WalletStorage StorageType SqliteStorage SqliteStorageType Wallet KeyDerivation ChunkStream ExportImport WalletService WalletLife.

Open Scope string_scope.

(** ** Seeds: [CryptoService::convert_seed] of [services/crypto/mod.rs] *)
Definition SEEDBYTES : nat := 32.

Class SeedCodec := {
  seed_from_base64 : string -> option bytes;
  seed_from_hex : string -> option bytes;
  to_base58 : bytes -> string;
  randombytes_deterministic : nat -> bytes -> bytes
}.

Fixpoint ends_with (c : Ascii.ascii) (s : string) : bool :=
  match s with
  | EmptyString => false
  | String a EmptyString => Ascii.eqb a c
  | String _ s' => ends_with c s'
  end.

(** [ed25519_sign::Seed::from_slice] and [randombytes::Seed::from_slice]. *)
Definition sign_seed_from_slice (bs : bytes) : outcome bytes :=
  if (length bs =? SEEDBYTES)%nat then Ok bs else Err (err_msg InvalidStructure "Invalid bytes for Seed").
Definition random_seed_from_slice (bs : bytes) : outcome bytes :=
  if negb (length bs =? SEEDBYTES)%nat
  then Err (err_msg InvalidStructure ("Invalid seed length, expected: 32, provided: " +:+ pretty (N.of_nat (length bs))))
  else Ok bs.

Section Seeds.
Context {Sc : SeedCodec}.

Definition convert_seed (seed : option string) : outcome (option bytes) :=
  match seed with
  | None => Ok None
  | Some seed =>
      let? bs :=
        if (length (as_bytes seed) =? SEEDBYTES)%nat then Ok (as_bytes seed)
        else if ends_with (Ascii.ascii_of_nat 61) seed then
          let? decoded := ok_or (seed_from_base64 seed)
                            (err_msg InvalidStructure "Can't deserialize Seed from Base64 string") in
          if (length decoded =? SEEDBYTES)%nat then Ok decoded
          else Err (err_msg InvalidStructure
                 "Trying to use invalid base64 encoded `seed`. The number of bytes must be 32 ")
        else if (length (as_bytes seed) =? SEEDBYTES * 2)%nat then
          ok_or (seed_from_hex seed) (err_msg InvalidStructure "Seed is invalid hex")
        else Err (err_msg InvalidStructure
               "Trying to use invalid `seed`. It can be either 32 bytes string or base64 string or 64 bytes HEX string") in
      let? res := sign_seed_from_slice bs in
      Ok (Some res)
  end.

(** [_generate_key]; the random key is an argument. *)
Record KeyConfig := mkKeyConfig { kc_seed : option string }.
Definition _generate_key (random_key : bytes) (config : option KeyConfig) : outcome string :=
  let seed := config ≫= kc_seed in
  let? converted := convert_seed seed in
  let? key := match converted with
              | Some seed => let? s := random_seed_from_slice seed in Ok (randombytes_deterministic KEYBYTES s)
              | None => Ok random_key
              end in
  Ok (to_base58 key).
End Seeds.

(** ** Commands *)
Section Commands.
Context {S : Sodium} {C : OptionsCodec} {K : KeyCodec} {E : ExportCodec} {W : WalletStorage} {Wd : World W} {Pf : Platform}.
Context {Sc : SeedCodec} (increment : bytes -> bytes) (p : Profile).

Abbreviation Callback := nat (only parsing).

(** The closures that wait for a derived key. *)
Inductive DeriveCallback :=
  | ThenCreate (config : Config) (credentials : Credentials) (key_data : KeyDerivationData) (cb_id : Z)
  | ThenOpen (wallet_handle : Z) (rekey_data : option KeyDerivationData)
  | ThenRekey (wallet_handle : Z) (key : bytes)
  | ThenDelete (config : Config) (credentials : Credentials) (metadata : Metadata) (cb_id : Z)
  | ThenExport (wallet_handle : Z) (export_config : ExportConfig) (key_data : KeyDerivationData) (cb_id : Z)
  | ThenImport (config : Config) (credentials : Credentials) (key_data : KeyDerivationData) (wallet_handle cb_id : Z)
  | ThenImportKey (config : Config) (credentials : Credentials) (import_key_result : outcome bytes)
      (wallet_handle cb_id : Z).

Inductive WalletCommand :=
  | RegisterWalletType (type_ : string) (plugged : WalletStorageType W) (cb : Callback)
  | Create (config : Config) (credentials : Credentials) (cb : Callback)
  | CreateContinue (config : Config) (credentials : Credentials) (key_data : KeyDerivationData)
      (key_result : outcome bytes) (cb_id : Z)
  | Open (config : Config) (credentials : Credentials) (cb : Callback)
  | OpenContinue (wallet_handle : Z) (key_result : outcome (bytes * option bytes))
  | Close (wallet_handle : Z) (cb : Callback)
  | Delete (config : Config) (credentials : Credentials) (cb : Callback)
  | DeleteContinue (config : Config) (credentials : Credentials) (metadata : Metadata)
      (key_result : outcome bytes) (cb_id : Z)
  | Export (wallet_handle : Z) (export_config : ExportConfig) (cb : Callback)
  | ExportContinue (wallet_handle : Z) (export_config : ExportConfig) (key_data : KeyDerivationData)
      (key_result : outcome bytes) (cb_id : Z)
  | Import (config : Config) (credentials : Credentials) (import_config : ExportConfig) (cb : Callback)
  | ImportContinue (config : Config) (credentials : Credentials) (key_result : outcome (bytes * bytes))
      (wallet_handle cb_id : Z)
  | GenerateKey (config : option KeyConfig) (cb : Callback)
  | DeriveKey (key_data : KeyDerivationData) (cb : DeriveCallback).

(** What a callback of the application is called with. *)
Inductive Answer :=
  | Done (r : outcome unit)
  | Opened (r : outcome Z)
  | Generated (r : outcome string).

(** The executor, the queue of the worker thread, the jobs of the thread pool and the calls
    of callbacks so far. *)
Record Process := mkProcess {
  wallet_service : Service;
  open_callbacks : gmap Z Callback;
  pending_callbacks : gmap Z Callback;
  queue : list WalletCommand;
  jobs : list (KeyDerivationData * DeriveCallback);
  answers : list (Callback * Answer)
}.

Definition executor_new (service : Service) : Process := mkProcess service ∅ ∅ [] [] [].

Definition set_service x (st : Process) := mkProcess x (open_callbacks st) (pending_callbacks st) (queue st) (jobs st) (answers st).
Definition set_open x (st : Process) := mkProcess (wallet_service st) x (pending_callbacks st) (queue st) (jobs st) (answers st).
Definition set_pending x (st : Process) := mkProcess (wallet_service st) (open_callbacks st) x (queue st) (jobs st) (answers st).
Definition set_queue x (st : Process) := mkProcess (wallet_service st) (open_callbacks st) (pending_callbacks st) x (jobs st) (answers st).
Definition set_jobs x (st : Process) := mkProcess (wallet_service st) (open_callbacks st) (pending_callbacks st) (queue st) x (answers st).

(** [CommandExecutor::instance().send]. *)
Definition send (c : WalletCommand) (st : Process) : Process := set_queue (queue st ++ [c])%list st.

(** Calling a callback with the result of an operation; a panic ends the worker thread. *)
Definition call {A : Type} (kind : outcome A -> Answer) (cb : Callback) (r : Service * outcome A) (st : Process)
  : option Process :=
  match r.2 with
  | Panic => None
  | res => Some (mkProcess r.1 (open_callbacks st) (pending_callbacks st) (queue st) (jobs st)
                   (answers st ++ [(cb, kind res)])%list)
  end.

(** [try_cb!]: the callback gets the error, or the execution goes on. *)
Definition try_cb {A B : Type} (kind : outcome B -> Answer) (r : Service * outcome A) (cb : Callback)
    (st : Process) (k : A -> Process -> option Process) : option Process :=
  match r.2 with
  | Ok a => k a (set_service r.1 st)
  | Err e => call kind cb (r.1, Err e) st
  | Panic => None
  end.

(** [get_cb!]: a missing callback is logged. *)
Definition get_cb (cb_id : Z) (st : Process) (k : Callback -> Process -> option Process) : option Process :=
  match pending_callbacks st !! cb_id with
  | Some cb => k cb (set_pending (base.delete cb_id (pending_callbacks st)) st)
  | None => Some st
  end.

(** A callback put aside under the next id. *)
Definition put_cb (cb : Callback) (st : Process) : Z * Process :=
  let cb_id := as_i32 (ids_counter (wallet_service st) + 1) in
  (cb_id, set_pending (<[cb_id := cb]> (pending_callbacks st))
            (set_service (next_wallet_handle (wallet_service st)).1 st)).

(** [key_result.and_then(...)] on the service. *)
Definition and_then {A B : Type} (key_result : outcome A) (f : A -> SM Service B) : SM Service B :=
  sm_bind (sm_lift key_result) f.

(** What an execution takes from its surroundings. *)
Record Draws := mkDraws {
  dr_salt : bytes;
  dr_keys : Keys;
  dr_nonce : bytes;
  dr_random_key : bytes;
  dr_now : Z;
  dr_left_over : bytes;
  dr_rnds : nat -> Randomness;
  dr_fuel : nat
}.

Section Execute.
Context (d : Draws).

Definition _create (config : Config) (credentials : Credentials) (cb : Callback) (st : Process) : option Process :=
  let key_data := from_passphrase_with_new_salt (dr_salt d) (cr_key credentials) (key_derivation_method credentials) in
  let (cb_id, st) := put_cb cb st in
  Some (send (DeriveKey key_data (ThenCreate config credentials key_data cb_id)) st).

Definition _create_continue (cb_id : Z) (config : Config) (credentials : Credentials) (key_data : KeyDerivationData)
    (key_result : outcome bytes) (st : Process) : option Process :=
  get_cb cb_id st (fun cb st =>
    call Done cb (and_then key_result (fun key =>
      create_wallet (dr_keys d) (dr_nonce d) config credentials key_data key) (wallet_service st)) st).

Definition _open (config : Config) (credentials : Credentials) (cb : Callback) (st : Process) : option Process :=
  try_cb Opened (open_wallet_prepare (dr_salt d) config credentials (wallet_service st)) cb st
    (fun '(wallet_handle, key_derivation_data, rekey_data) st =>
       let st := set_open (<[wallet_handle := cb]> (open_callbacks st)) st in
       Some (send (DeriveKey key_derivation_data (ThenOpen wallet_handle rekey_data)) st)).

(** [open_callbacks.remove(&wallet_handle).unwrap()]. *)
Definition _open_continue (wallet_handle : Z) (key_result : outcome (bytes * option bytes)) (st : Process)
  : option Process :=
  match open_callbacks st !! wallet_handle with
  | None => None
  | Some cb =>
      let st := set_open (base.delete wallet_handle (open_callbacks st)) st in
      call Opened cb (and_then key_result (fun '(key, rekey) =>
        open_wallet_continue (dr_nonce d) wallet_handle key rekey) (wallet_service st)) st
  end.

Definition _close (wallet_handle : Z) (cb : Callback) (st : Process) : option Process :=
  call Done cb (close_wallet wallet_handle (wallet_service st)) st.

Definition _delete (config : Config) (credentials : Credentials) (cb : Callback) (st : Process) : option Process :=
  try_cb Done (delete_wallet_prepare config credentials (wallet_service st)) cb st
    (fun '(metadata, key_derivation_data) st =>
       let (cb_id, st) := put_cb cb st in
       Some (send (DeriveKey key_derivation_data (ThenDelete config credentials metadata cb_id)) st)).

Definition _delete_continue (cb_id : Z) (config : Config) (credentials : Credentials) (metadata : Metadata)
    (key_result : outcome bytes) (st : Process) : option Process :=
  get_cb cb_id st (fun cb st =>
    call Done cb (and_then key_result (fun key =>
      delete_wallet_continue config credentials metadata key) (wallet_service st)) st).

Definition _export (wallet_handle : Z) (export_config : ExportConfig) (cb : Callback) (st : Process) : option Process :=
  let key_data := from_passphrase_with_new_salt (dr_salt d) (ec_key export_config) (ec_method export_config) in
  let (cb_id, st) := put_cb cb st in
  Some (send (DeriveKey key_data (ThenExport wallet_handle export_config key_data cb_id)) st).

Definition _export_continue (cb_id wallet_handle : Z) (export_config : ExportConfig) (key_data : KeyDerivationData)
    (key_result : outcome bytes) (st : Process) : option Process :=
  get_cb cb_id st (fun cb st =>
    call Done cb (and_then key_result (fun key =>
      export_wallet increment (dr_fuel d) (dr_nonce d) (dr_now d) (dr_left_over d) wallet_handle export_config 0
        key_data key) (wallet_service st)) st).

Definition _import (config : Config) (credentials : Credentials) (import_config : ExportConfig) (cb : Callback)
    (st : Process) : option Process :=
  try_cb Done (import_wallet_prepare (dr_salt d) config credentials import_config (wallet_service st)) cb st
    (fun '(wallet_handle, key_data, import_key_data) st =>
       let (cb_id, st) := put_cb cb st in
       Some (send (DeriveKey import_key_data (ThenImport config credentials key_data wallet_handle cb_id)) st)).

Definition _import_continue (cb_id wallet_handle : Z) (config : Config) (credentials : Credentials)
    (key_result : outcome (bytes * bytes)) (st : Process) : option Process :=
  get_cb cb_id st (fun cb st =>
    call Done cb (and_then key_result (fun '(import_key, master_key) =>
      import_wallet_continue increment p (dr_fuel d) (dr_keys d) (dr_nonce d) (dr_rnds d) wallet_handle config
        credentials import_key master_key) (wallet_service st)) st).

(** [_derive_key]: a job for the thread pool. *)
Definition _derive_key (key_data : KeyDerivationData) (cb : DeriveCallback) (st : Process) : option Process :=
  Some (set_jobs (jobs st ++ [(key_data, cb)])%list st).

Definition execute (command : WalletCommand) (st : Process) : option Process :=
  match command with
  | RegisterWalletType type_ plugged cb => call Done cb (register_wallet_storage type_ plugged (wallet_service st)) st
  | Create config credentials cb => _create config credentials cb st
  | CreateContinue config credentials key_data key_result cb_id =>
      _create_continue cb_id config credentials key_data key_result st
  | Open config credentials cb => _open config credentials cb st
  | OpenContinue wallet_handle key_result => _open_continue wallet_handle key_result st
  | Close wallet_handle cb => _close wallet_handle cb st
  | Delete config credentials cb => _delete config credentials cb st
  | DeleteContinue config credentials metadata key_result cb_id =>
      _delete_continue cb_id config credentials metadata key_result st
  | Export wallet_handle export_config cb => _export wallet_handle export_config cb st
  | ExportContinue wallet_handle export_config key_data key_result cb_id =>
      _export_continue cb_id wallet_handle export_config key_data key_result st
  | Import config credentials import_config cb => _import config credentials import_config cb st
  | ImportContinue config credentials key_result wallet_handle cb_id =>
      _import_continue cb_id wallet_handle config credentials key_result st
  | GenerateKey config cb => call Generated cb (wallet_service st, _generate_key (dr_random_key d) config) st
  | DeriveKey key_data cb => _derive_key key_data cb st
  end.
End Execute.

(** The command that a closure sends when it is called with the key. *)
Definition resume (k : DeriveCallback) (key_result : outcome bytes) : WalletCommand :=
  match k with
  | ThenCreate config credentials key_data cb_id => CreateContinue config credentials key_data key_result cb_id
  | ThenOpen wallet_handle rekey_data =>
      match key_result, rekey_data with
      | Ok key, Some rekey_data => DeriveKey rekey_data (ThenRekey wallet_handle key)
      | _, _ => OpenContinue wallet_handle (out_map (fun kr => (kr, None)) key_result)
      end
  | ThenRekey wallet_handle key => OpenContinue wallet_handle (out_map (fun rekey => (key, Some rekey)) key_result)
  | ThenDelete config credentials metadata cb_id => DeleteContinue config credentials metadata key_result cb_id
  | ThenExport wallet_handle export_config key_data cb_id =>
      ExportContinue wallet_handle export_config key_data key_result cb_id
  | ThenImport config credentials key_data wallet_handle cb_id =>
      DeriveKey key_data (ThenImportKey config credentials key_result wallet_handle cb_id)
  | ThenImportKey config credentials import_key_result wallet_handle cb_id =>
      ImportContinue config credentials
        (let? import_key := import_key_result in out_map (fun key => (import_key, key)) key_result) wallet_handle cb_id
  end.

(** A job of the thread pool: [cb(key_data.calc_master_key())]. *)
Definition run_job (j : KeyDerivationData * DeriveCallback) : WalletCommand := resume j.2 (calc_master_key j.1).

(** ** Steps *)

(** The worker thread takes the next command, or a thread of the pool ends a job. *)
Inductive internal_step : Process -> Process -> Prop :=
  | step_worker d c q st st' :
      queue st = c :: q -> execute d c (set_queue q st) = Some st' -> internal_step st st'
  | step_pool j1 j j2 st :
      jobs st = (j1 ++ j :: j2)%list -> internal_step st (send (run_job j) (set_jobs (j1 ++ j2)%list st)).

(** What the other executors of the worker thread do to the service. *)
Inductive other_use : Service -> Service -> Prop :=
  | use_id s : other_use s (set_counter (ids_counter s + 1)%Z s)
  | use_record {A : Type} h (f : Wallet -> SM storage A) s : other_use s (with_wallet h f s).1
  | use_search h t query options s : other_use s (search_records h t query options s).1
  | use_next ws s : other_use s (fetch_next_record (s, ws)).1.1.
Inductive other_step (st : Process) : Process -> Prop :=
  | step_other s' : other_use (wallet_service st) s' -> other_step st (set_service s' st).

(** The commands of the application, with their callback. *)
Definition callback_of (c : WalletCommand) : option Callback :=
  match c with
  | RegisterWalletType _ _ cb | Create _ _ cb | Open _ _ cb | Close _ cb | Delete _ _ cb | Export _ _ cb
  | Import _ _ _ cb | GenerateKey _ cb => Some cb
  | _ => None
  end.

(** The states of a process, with the callbacks that the application has passed so far. *)
Inductive reachable : list Callback -> Process -> Prop :=
  | reach_start ty w files : reachable [] (executor_new (service_new ty w files))
  | reach_send sent st c cb : reachable sent st -> callback_of c = Some cb -> reachable (cb :: sent) (send c st)
  | reach_step sent st st' : reachable sent st -> internal_step st st' -> reachable sent st'
  | reach_other sent st st' : reachable sent st -> other_step st st' -> reachable sent st'.

(** The callbacks not called yet. *)
Definition waiting (st : Process) : list Callback :=
  (omap callback_of (queue st) ++ (map_to_list (open_callbacks st)).*2 ++ (map_to_list (pending_callbacks st)).*2)%list.

(** The executions and jobs that a command still takes. *)
Definition callback_weight (k : DeriveCallback) : nat :=
  match k with
  | ThenOpen _ (Some _) => 4
  | ThenImport _ _ _ _ _ => 4
  | _ => 2
  end.
Definition command_weight (c : WalletCommand) : nat :=
  match c with
  | DeriveKey _ k => 1 + callback_weight k
  | Create _ _ _ | Delete _ _ _ | Export _ _ _ => 4
  | Open _ _ _ | Import _ _ _ _ => 6
  | _ => 1
  end.
Definition weight (st : Process) : nat :=
  sum_list (command_weight <$> queue st) + sum_list ((callback_weight ∘ snd) <$> jobs st).
End Commands.

(** ** Tickets: what a continuation will look up *)
Section Tickets.
Context {S : Sodium} {C : OptionsCodec} {K : KeyCodec} {E : ExportCodec} {W : WalletStorage} {Wd : World W} {Pf : Platform}.
Context {Sc : SeedCodec} (increment : bytes -> bytes) (p : Profile).

Inductive Ticket :=
  | OpenTicket (h : Z)
  | PendingTicket (cb_id : Z)
  | ImportTicket (h cb_id : Z).

Definition callback_ticket (k : DeriveCallback) : Ticket :=
  match k with
  | ThenOpen h _ | ThenRekey h _ => OpenTicket h
  | ThenCreate _ _ _ i | ThenDelete _ _ _ i | ThenExport _ _ _ i => PendingTicket i
  | ThenImport _ _ _ h i | ThenImportKey _ _ _ h i => ImportTicket h i
  end.
Definition command_ticket (c : WalletCommand) : option Ticket :=
  match c with
  | DeriveKey _ k => Some (callback_ticket k)
  | OpenContinue h _ => Some (OpenTicket h)
  | CreateContinue _ _ _ _ i | DeleteContinue _ _ _ _ i | ExportContinue _ _ _ _ i => Some (PendingTicket i)
  | ImportContinue _ _ _ h i => Some (ImportTicket h i)
  | _ => None
  end.

Definition open_id (t : Ticket) : option Z := match t with OpenTicket h => Some h | _ => None end.
Definition pending_id (t : Ticket) : option Z :=
  match t with PendingTicket i | ImportTicket _ i => Some i | OpenTicket _ => None end.
Definition import_handle (t : Ticket) : option Z := match t with ImportTicket h _ => Some h | _ => None end.

Definition tickets (st : Process) : list Ticket :=
  (omap command_ticket (queue st) ++ ((callback_ticket ∘ snd) <$> jobs st))%list.

Lemma resume_ticket k r : command_ticket (resume k r) = Some (callback_ticket k).
Proof using Type. destruct k as [|? [] | | | | |], r; reflexivity. Qed.
Lemma resume_callback k r : callback_of (resume k r) = None.
Proof using Type. destruct k as [|? [] | | | | |], r; reflexivity. Qed.
Lemma callback_or_ticket c cb : callback_of c = Some cb -> command_ticket c = None.
Proof using Type. by destruct c. Qed.

(** A process in balance: the tickets are the keys of the callbacks, each with what the
    service prepared for it, and every callback passed so far is called or waits. *)
Definition issued (s : Service) (i : Z) : Prop := exists n, (1 < n <= ids_counter s)%Z /\ i = as_i32 n.

Record balanced (sent : list nat) (ts : list Ticket) (clients : list nat) (op pend : gmap Z nat)
    (called : list nat) (s : Service) : Prop := mkBalanced {
  bal_service : service_ok s;
  bal_open : omap open_id ts ≡ₚ (map_to_list op).*1;
  bal_pending : omap pending_id ts ≡ₚ (map_to_list pend).*1;
  bal_imports : NoDup (omap import_handle ts);
  bal_count : sent ≡ₚ (called ++ clients ++ (map_to_list op).*2 ++ (map_to_list pend).*2)%list;
  bal_open_data h : h ∈ omap open_id ts -> is_Some (pending_for_open s !! h);
  bal_import_data h : h ∈ omap import_handle ts -> is_Some (pending_for_import s !! h);
  bal_issued i : i ∈ omap pending_id ts -> issued s i
}.
Definition in_balance (sent : list nat) (st : Process) : Prop :=
  balanced sent (tickets st) (omap callback_of (queue st)) (open_callbacks st) (pending_callbacks st)
    (answers st).*1 (wallet_service st).

#[export] Instance balanced_perm :
  Proper ((≡ₚ) ==> (≡ₚ) ==> (≡ₚ) ==> (=) ==> (=) ==> (≡ₚ) ==> (=) ==> impl) balanced.
Proof using Type.
  intros sent sent' Hs ts ts' Ht cl cl' Hc op ? <- pe ? <- ca ca' Ha s ? <- [H1 H2 H3 H4 H5 H6 H7 H8].
  split; [done|..].
  - by rewrite <-Ht.
  - by rewrite <-Ht.
  - by rewrite <-Ht.
  - by rewrite <-Hs, <-Hc, <-Ha.
  - intros h. rewrite <-Ht. apply H6.
  - intros h. rewrite <-Ht. apply H7.
  - intros h. rewrite <-Ht. apply H8.
Qed.

Lemma keys_lookup (m : gmap Z nat) i : i ∈ (map_to_list m).*1 <-> is_Some (m !! i).
Proof using Type.
  rewrite list_elem_of_fmap. split.
  - intros ([j x] & -> & Hx%elem_of_map_to_list). by eexists.
  - intros [x Hx]. exists (i, x). by rewrite elem_of_map_to_list.
Qed.
Lemma keys_insert (m : gmap Z nat) i x :
  m !! i = None -> (map_to_list (<[i:=x]> m)).*1 ≡ₚ i :: (map_to_list m).*1 /\
  (map_to_list (<[i:=x]> m)).*2 ≡ₚ x :: (map_to_list m).*2.
Proof using Type. intros H. by rewrite map_to_list_insert. Qed.
Lemma keys_delete (m : gmap Z nat) i x :
  m !! i = Some x -> (map_to_list m).*1 ≡ₚ i :: (map_to_list (base.delete i m)).*1 /\
  (map_to_list m).*2 ≡ₚ x :: (map_to_list (base.delete i m)).*2.
Proof using Type. intros H. by rewrite <-(map_to_list_delete m i x H). Qed.

(** The service after a step: what is prepared stays prepared. *)
Lemma balanced_service sent ts cl op pe ca s s' :
  balanced sent ts cl op pe ca s -> service_ok s' -> (ids_counter s <= ids_counter s')%Z ->
  (forall h, h ∈ omap open_id ts -> is_Some (pending_for_open s !! h) -> is_Some (pending_for_open s' !! h)) ->
  (forall h, h ∈ omap import_handle ts -> is_Some (pending_for_import s !! h) -> is_Some (pending_for_import s' !! h)) ->
  balanced sent ts cl op pe ca s'.
Proof using Type.
  intros [H1 H2 H3 H4 H5 H6 H7 H8] Hs Hc Ho Hi. split; try done; [by auto..|].
  intros i (n & Hn & ->)%H8. exists n. split; [lia|done].
Qed.

Lemma balanced_answer sent ts cl op pe ca s cb :
  balanced sent ts (cb :: cl) op pe ca s -> balanced sent ts cl op pe (ca ++ [cb])%list s.
Proof using Type.
  intros [H1 H2 H3 H4 H5 H6 H7 H8]. split; try done. rewrite H5. by rewrite <-app_assoc.
Qed.

Lemma open_fresh sent ts cl op pe ca s h :
  balanced sent ts cl op pe ca s -> pending_for_open s !! h = None -> op !! h = None.
Proof using Type.
  intros H Hn. apply eq_None_not_Some. rewrite <-keys_lookup, <-(bal_open _ _ _ _ _ _ _ H).
  intros [x Hx]%(bal_open_data _ _ _ _ _ _ _ H). congruence.
Qed.
Lemma issued_fresh sent ts cl op pe ca s :
  balanced sent ts cl op pe ca s -> (ids_counter s + 1 <= 2 ^ 32)%Z -> pe !! as_i32 (ids_counter s + 1) = None.
Proof using Type.
  intros H Hb. apply eq_None_not_Some. rewrite <-keys_lookup, <-(bal_pending _ _ _ _ _ _ _ H).
  intros (n & Hn & En)%(bal_issued _ _ _ _ _ _ _ H). pose proof (ok_counter _ (bal_service _ _ _ _ _ _ _ H)).
  apply as_i32_inj in En; lia.
Qed.

(** An opening puts its callback aside. *)
Lemma balanced_new_open sent ts cl op pe ca s cb h :
  balanced sent ts (cb :: cl) op pe ca s -> op !! h = None -> is_Some (pending_for_open s !! h) ->
  balanced sent (OpenTicket h :: ts) cl (<[h := cb]> op) pe ca s.
Proof using Type.
  intros [H1 H2 H3 H4 H5 H6 H7 H8] Hn Hp. destruct (keys_insert op h cb Hn) as [E1 E2].
  split; cbn; try done.
  - by rewrite E1, H2.
  - rewrite H5, E2. cbn. by rewrite Permutation_middle.
  - intros h' [->|Hh]%elem_of_cons; auto.
Qed.

(** Another command puts its callback aside under a new id. *)
Lemma balanced_new_pending sent ts cl op pe ca s cb t :
  let i := as_i32 (ids_counter s + 1) in
  balanced sent ts (cb :: cl) op pe ca s -> (ids_counter s + 1 <= 2 ^ 32)%Z ->
  pending_id t = Some i -> open_id t = None ->
  (forall h, import_handle t = Some h -> h ∉ omap import_handle ts /\ is_Some (pending_for_import s !! h)) ->
  balanced sent (t :: ts) cl op (<[i := cb]> pe) ca (set_counter (ids_counter s + 1)%Z s).
Proof using Type.
  intros i H Hb Ht Ho Hi. pose proof (issued_fresh _ _ _ _ _ _ _ H Hb) as Hn. fold i in Hn.
  destruct H as [H1 H2 H3 H4 H5 H6 H7 H8]. destruct (keys_insert pe i cb Hn) as [E1 E2].
  split; cbn; [by apply tick_ok|..]; rewrite ?Ht, ?Ho; try done.
  - by rewrite E1, H3.
  - destruct (import_handle t) as [h|] eqn:Eh; [|done]. constructor; [by apply Hi|done].
  - rewrite H5, E2. cbn. solve_Permutation.
  - intros h Hh. destruct (import_handle t) as [h'|] eqn:Eh; [|by apply H7].
    apply elem_of_cons in Hh as [->|Hh]; [by apply Hi|by apply H7].
  - intros j [->|Hj]%elem_of_cons.
    + exists (ids_counter s + 1)%Z. pose proof (ok_counter s H1). cbn. split; [lia|done].
    + destruct (H8 j Hj) as (n & Hb' & ->). exists n. cbn. split; [lia|done].
Qed.

(** A continuation takes its callback back. *)
Lemma balanced_take_open sent ts cl op pe ca s h :
  balanced sent (OpenTicket h :: ts) cl op pe ca s ->
  exists cb, op !! h = Some cb /\ h ∉ omap open_id ts /\ balanced sent ts (cb :: cl) (base.delete h op) pe ca s.
Proof using Type.
  intros [H1 H2 H3 H4 H5 H6 H7 H8]. cbn in *.
  destruct (proj1 (keys_lookup op h)) as [cb Hcb]; [rewrite <-H2; apply elem_of_cons; by left|].
  destruct (keys_delete op h cb Hcb) as [E1 E2]. rewrite E1 in H2. apply Permutation_cons_inv in H2.
  assert (Hn : h ∉ omap open_id ts).
  { rewrite H2, keys_lookup, lookup_delete_eq. apply is_Some_None. }
  exists cb. split; [done|]. split; [done|]. split; try done.
  - rewrite H5, E2. cbn. solve_Permutation.
  - intros h' Hh. apply H6. by right.
Qed.

Lemma balanced_take_pending sent ts cl op pe ca s t i :
  balanced sent (t :: ts) cl op pe ca s -> pending_id t = Some i -> open_id t = None ->
  exists cb, pe !! i = Some cb /\ (forall h, import_handle t = Some h -> h ∉ omap import_handle ts) /\
    balanced sent ts (cb :: cl) op (base.delete i pe) ca s.
Proof using Type.
  intros [H1 H2 H3 H4 H5 H6 H7 H8] Ht Ho. cbn in *. rewrite Ht, Ho in *.
  destruct (proj1 (keys_lookup pe i)) as [cb Hcb]; [rewrite <-H3; apply elem_of_cons; by left|].
  destruct (keys_delete pe i cb Hcb) as [E1 E2]. rewrite E1 in H3. apply Permutation_cons_inv in H3.
  exists cb. split; [done|]. split.
  - intros h Eh. rewrite Eh in H4. by apply NoDup_cons in H4 as [? _].
  - split; try done.
    + destruct (import_handle t); [by apply NoDup_cons in H4 as [_ ?]|done].
    + rewrite H5, E2. cbn. solve_Permutation.
    + intros h Hh. apply H7. destruct (import_handle t); [by right|done].
    + intros j Hj. apply H8. by right.
Qed.

(** ** What the operations of the service keep *)
Definition calm {A : Type} (m : SM Service A) : Prop :=
  forall s, pending_for_open (m s).1 = pending_for_open s /\ pending_for_import (m s).1 = pending_for_import s /\
    ids_counter (m s).1 = ids_counter s.

Lemma calm_quiet {A : Type} (m : SM Service A) : quiet m -> calm m.
Proof using Type. intros H s. by destruct (H s) as (w & ex & ->). Qed.
Lemma calm_bind {A B : Type} (m : SM Service A) (k : A -> SM Service B) :
  calm m -> (forall a, calm (k a)) -> calm (sm_bind m k).
Proof using Type.
  intros Hm Hk s. unfold sm_bind. destruct (Hm s) as (E1 & E2 & E3). destruct (m s) as [s1 [a| |]]; cbn [fst] in *; [|done..].
  destruct (Hk a s1) as (-> & -> & ->). done.
Qed.
Lemma calm_wallets x : calm (modify (fun s => set_wallets (x s) s)).
Proof using Type. by intros s. Qed.
Lemma calm_ids x : calm (modify (fun s => set_wallet_ids (x s) s)).
Proof using Type. by intros s. Qed.

Lemma quiet_prepare_delete config credentials : quiet (delete_wallet_prepare config credentials).
Proof using Type.
  unfold delete_wallet_prepare. apply quiet_bind; [apply quiet_gets|intros ids]. case_bool_decide; [apply quiet_fail|].
  apply quiet_bind; [apply quiet_fetch|]. intros [[c md] kd]. apply quiet_ret.
Qed.
Lemma quiet_create_wallet keys nonce config credentials kd mk : quiet (create_wallet keys nonce config credentials kd mk).
Proof using Type. apply quiet_bind; [apply quiet_create|]. intros _. apply quiet_ret. Qed.
Lemma calm_register t ty : calm (register_wallet_storage t ty).
Proof using Type. intros s. unfold register_wallet_storage, gets, sm_bind. by destruct (storage_types s !! t). Qed.
Lemma register_ok t ty s : service_ok s -> service_ok (register_wallet_storage t ty s).1.
Proof using Type.
  intros Hs. unfold register_wallet_storage, gets, sm_bind. destruct (storage_types s !! t); [done|]. destruct Hs. by split.
Qed.
Lemma calm_close h : calm (close_wallet h).
Proof using Type.
  apply calm_bind; [apply calm_quiet, quiet_gets|]. intros [ow|]; [|apply calm_quiet, quiet_fail].
  apply calm_bind; [apply calm_wallets|intros _]. apply calm_bind; [apply calm_ids|intros _].
  apply calm_quiet, quiet_in_world.
Qed.

Lemma calm_opened_tail nonce key rekey_key wallet_handle pending :
  calm (let* po := sm_lift (ok_or pending (err_msg InvalidState "Open data not found")) in
        let* keys := sm_lift (_restore_keys (po_metadata po) key) in
        let* _ := match rekey_key, po_rekey po with
                  | Some rk, Some rekey_data =>
                      let* metadata := sm_lift (_prepare_metadata nonce rk rekey_data keys) in
                      in_world (on (po_storage po) (st_set_metadata metadata))
                  | _, _ => sm_ret ()
                  end in
        let* _ := modify (fun s => set_wallets
                    (<[wallet_handle := mkOpenWallet (mkWallet (po_id po) keys) (po_storage po)]> (wallets s)) s) in
        let* _ := modify (fun s => set_wallet_ids ({[po_id po]} ∪ wallet_ids s) s) in
        sm_ret wallet_handle).
Proof using Type.
  apply calm_bind; [apply calm_quiet, quiet_lift|intros po]. apply calm_bind; [apply calm_quiet, quiet_lift|intros keys].
  apply calm_bind; [|intros _].
  { apply calm_quiet. repeat case_match; first [apply quiet_ret | apply quiet_bind; [apply quiet_lift|intros ?; apply quiet_in_world]]. }
  apply calm_bind; [apply calm_wallets|intros _]. apply calm_bind; [apply calm_ids|intros _]. apply calm_quiet, quiet_ret.
Qed.

(** [open_wallet_continue] and [import_wallet_continue] take their own entry and no other. *)
Lemma open_continue_takes nonce h key rekey_key s :
  let s' := (open_wallet_continue nonce h key rekey_key s).1 in
  pending_for_open s' = base.delete h (pending_for_open s) /\ pending_for_import s' = pending_for_import s /\
  ids_counter s' = ids_counter s.
Proof using Type.
  unfold open_wallet_continue, gets, modify at 1. unfold sm_bind at 1 2.
  exact (calm_opened_tail nonce key rekey_key h (pending_for_open s !! h) (set_pending_open _ s)).
Qed.
Lemma import_continue_takes fuel keys nonce rnds h config credentials ik mk s :
  let s' := (import_wallet_continue increment p fuel keys nonce rnds h config credentials ik mk s).1 in
  pending_for_open s' = pending_for_open s /\ pending_for_import s' = base.delete h (pending_for_import s) /\
  ids_counter s' = ids_counter s.
Proof using Type.
  unfold import_wallet_continue, gets, modify at 1. unfold sm_bind at 1 2.
  match goal with |- context [sm_bind ?m ?k ?s1] => assert (Hc : calm (sm_bind m k)); [|exact (Hc s1)] end.
  apply calm_quiet. apply quiet_bind; [apply quiet_lift|intros pi]. apply quiet_bind; [apply quiet_create|intros keys'].
  apply quiet_bind; [apply quiet_not_used|intros _]. apply quiet_bind; [apply quiet_open_storage|intros c].
  apply quiet_bind; [apply quiet_in_world|intros md]. apply quiet_import_finish.
Qed.

(** The results of the two operations that give out handles. *)
Lemma open_prepare_result salt config credentials s :
  let (s', r) := open_wallet_prepare salt config credentials s in
  exists w ex, let s2 := set_world w (set_exports ex s) in
    match r with
    | Ok (h, _, _) => h = as_i32 (ids_counter s + 1) /\ exists po,
        s' = set_pending_open (<[h := po]> (pending_for_open s2)) (set_counter (ids_counter s + 1)%Z s2)
    | _ => s' = s2
    end.
Proof using Type.
  unfold open_wallet_prepare, sm_bind at 1.
  destruct (quiet_not_used config s) as (w1 & ex1 & H1).
  destruct (_is_id_from_config_not_used config s) as [s1 [[]| |]]; cbn [fst] in *; [|by exists w1, ex1..].
  unfold sm_bind at 1. destruct (quiet_fetch config credentials s1) as (w2 & ex2 & H2).
  destruct (_open_storage_and_fetch_metadata config credentials s1) as [s2 [[[c md] kd]| |]]; cbn [fst] in *; subst;
    exists w2, ex2; [|done..].
  cbn. split; [done|]. by eexists.
Qed.
Lemma import_prepare_result salt config credentials ec s :
  let (s', r) := import_wallet_prepare salt config credentials ec s in
  match r with
  | Ok (h, _, _) => h = as_i32 (ids_counter s + 1) /\ exists pi,
      s' = set_pending_import (<[h := pi]> (pending_for_import s)) (set_counter (ids_counter s + 1)%Z s)
  | _ => s' = s
  end.
Proof using Type.
  unfold import_wallet_prepare, gets, sm_bind at 1, sm_lift at 1, sm_bind at 1.
  destruct (match import_open_error _ with Some _ => _ | None => _ end) as [file| |]; [|done..].
  unfold sm_bind at 1, sm_lift at 1. destruct (preparse_file_to_import file _) as [[[[[r kd] n] cs] hb]| |]; [|done..].
  cbn. split; [done|]. by eexists.
Qed.

(** ** Steps keep the balance *)

(** A process with one more command in hand. *)
Definition holding (c : WalletCommand) (sent : list nat) (st : Process) : Prop :=
  balanced sent (option_list (command_ticket c) ++ tickets st)%list
    (option_list (callback_of c) ++ omap callback_of (queue st))%list
    (open_callbacks st) (pending_callbacks st) (answers st).*1 (wallet_service st).

Lemma holding_send c sent st : holding c sent st -> in_balance sent (send c st).
Proof using Type.
  unfold holding, in_balance, tickets, send. cbn. rewrite !omap_app. cbn.
  intros H. eapply balanced_perm; [..|exact H]; try done;
    [destruct (command_ticket c)|destruct (callback_of c)]; cbn; solve_Permutation.
Qed.
Lemma holding_take c q sent st : queue st = c :: q -> in_balance sent st -> holding c sent (set_queue q st).
Proof using Type.
  unfold holding, in_balance, tickets. cbn. intros -> H. cbn in H.
  by destruct (command_ticket c), (callback_of c).
Qed.
Lemma holding_job j1 j j2 sent st :
  jobs st = (j1 ++ j :: j2)%list -> in_balance sent st -> holding (run_job j) sent (set_jobs (j1 ++ j2)%list st).
Proof using Type.
  unfold holding, in_balance, tickets, run_job. cbn. rewrite resume_ticket, resume_callback. intros -> H.
  eapply balanced_perm; [..|exact H]; try done. rewrite !fmap_app. cbn. solve_Permutation.
Qed.

(** A callback in hand is called with the result of an operation. *)
Lemma call_balanced {A : Type} (kind : outcome A -> Answer) cb r sent st st' :
  balanced sent (tickets st) (cb :: omap callback_of (queue st)) (open_callbacks st) (pending_callbacks st)
    (answers st).*1 r.1 ->
  call kind cb r st = Some st' -> in_balance sent st'.
Proof using Type.
  intros H%balanced_answer Hc. unfold call in Hc. destruct r as [s' [a|e|]]; cbn in *; [| |discriminate];
    injection Hc as <-; unfold in_balance, tickets; cbn; by rewrite fmap_app.
Qed.

Lemma and_then_run {A B : Type} (a : A) (f : A -> SM Service B) : and_then (Ok a) f = f a.
Proof using Type. reflexivity. Qed.
Lemma and_then_calm {A B : Type} (r : outcome A) (f : A -> SM Service B) : (forall a, calm (f a)) -> calm (and_then r f).
Proof using Type. intros H. apply calm_bind; [apply calm_quiet, quiet_lift|done]. Qed.
Lemma and_then_ok {A B : Type} (r : outcome A) (f : A -> SM Service B) s :
  (forall a, service_ok (f a s).1) -> service_ok s -> service_ok (and_then r f s).1.
Proof using Type. intros H Hs. by destruct r; cbn. Qed.

Lemma balanced_calm {A : Type} sent ts cl op pe ca s (m : SM Service A) :
  balanced sent ts cl op pe ca s -> calm m -> service_ok (m s).1 -> balanced sent ts cl op pe ca (m s).1.
Proof using Type.
  intros H Hm Hok. destruct (Hm s) as (E1 & E2 & E3).
  apply (balanced_service _ _ _ _ _ _ s); [done|done|lia|..]; intros h _; by rewrite ?E1, ?E2.
Qed.

(** The continuations that look their callback up by its id. *)
Lemma get_cb_balanced sent t i st st' k :
  balanced sent (t :: tickets st) (omap callback_of (queue st)) (open_callbacks st) (pending_callbacks st)
    (answers st).*1 (wallet_service st) ->
  pending_id t = Some i -> open_id t = None -> get_cb i st k = Some st' ->
  exists cb, let st1 := set_pending (base.delete i (pending_callbacks st)) st in
    k cb st1 = Some st' /\ (forall h, import_handle t = Some h -> h ∉ omap import_handle (tickets st)) /\
    balanced sent (tickets st1) (cb :: omap callback_of (queue st1)) (open_callbacks st1) (pending_callbacks st1)
      (answers st1).*1 (wallet_service st1).
Proof using Type.
  intros H Hi Ho Hg. destruct (balanced_take_pending _ _ _ _ _ _ _ _ _ H Hi Ho) as (cb & Hcb & Hh & H').
  unfold get_cb in Hg. rewrite Hcb in Hg. by exists cb.
Qed.

(** Those whose operation leaves the pending openings and imports alone. *)
Lemma continue_balanced {A : Type} sent i st st' kr (m : A -> SM Service unit) :
  balanced sent (PendingTicket i :: tickets st) (omap callback_of (queue st)) (open_callbacks st)
    (pending_callbacks st) (answers st).*1 (wallet_service st) ->
  (forall key, quiet (m key)) ->
  get_cb i st (fun cb st => call Done cb (and_then kr m (wallet_service st)) st) = Some st' -> in_balance sent st'.
Proof using Type.
  intros H Hm Hg. pose proof (bal_service _ _ _ _ _ _ _ H) as Hs.
  destruct (get_cb_balanced _ _ _ _ _ _ H eq_refl eq_refl Hg) as (cb & Hc & _ & H').
  refine (call_balanced Done cb _ _ _ _ _ Hc). apply (balanced_calm _ _ _ _ _ _ _ _ H').
  - apply and_then_calm. intros key. by apply calm_quiet.
  - apply and_then_ok; [|done]. intros key. by apply quiet_ok.
Qed.

(** The commands that put their callback aside and ask for a key. *)
Lemma put_cb_balanced sent cb st kd k t :
  let i := as_i32 (ids_counter (wallet_service st) + 1) in
  balanced sent (tickets st) (cb :: omap callback_of (queue st)) (open_callbacks st) (pending_callbacks st)
    (answers st).*1 (wallet_service st) ->
  (ids_counter (wallet_service st) + 1 <= 2 ^ 32)%Z ->
  callback_ticket k = t -> pending_id t = Some i -> open_id t = None ->
  (forall h, import_handle t = Some h ->
     h ∉ omap import_handle (tickets st) /\ is_Some (pending_for_import (wallet_service st) !! h)) ->
  in_balance sent (send (DeriveKey kd k) (put_cb cb st).2).
Proof using Type.
  intros i H Hb Hk Hi Ho Hh. apply holding_send. unfold holding. cbn. rewrite Hk.
  exact (balanced_new_pending _ _ _ _ _ _ _ _ _ H Hb Hi Ho Hh).
Qed.

Lemma balanced_error {A B : Type} (kind : outcome B -> Answer) cb (r : Service * outcome A) sent st st' k :
  balanced sent (tickets st) (cb :: omap callback_of (queue st)) (open_callbacks st) (pending_callbacks st)
    (answers st).*1 r.1 ->
  (forall a, r.2 = Ok a -> k a (set_service r.1 st) = Some st' -> in_balance sent st') ->
  try_cb kind r cb st k = Some st' -> in_balance sent st'.
Proof using Type.
  intros H Hk Ht. unfold try_cb in Ht. destruct r as [s [a|e|]]; cbn in *; [by apply (Hk a)| |discriminate].
  exact (call_balanced kind cb (s, Err e) sent st st' H Ht).
Qed.

Lemma open_balanced d config credentials cb sent st st' :
  balanced sent (tickets st) (cb :: omap callback_of (queue st)) (open_callbacks st) (pending_callbacks st)
    (answers st).*1 (wallet_service st) ->
  _open d config credentials cb st = Some st' -> (ids_counter (wallet_service st') <= 2 ^ 32)%Z -> in_balance sent st'.
Proof using Type.
  intros H Ho Hb. unfold _open in Ho. set (s := wallet_service st) in *.
  pose proof (bal_service _ _ _ _ _ _ _ H) as Hs. pose proof (open_prepare_result (dr_salt d) config credentials s) as Hr.
  destruct (open_wallet_prepare (dr_salt d) config credentials s) as [s' r]. destruct Hr as (w & ex & Hr). cbn zeta in Hr.
  assert (H2 : balanced sent (tickets st) (cb :: omap callback_of (queue st)) (open_callbacks st)
    (pending_callbacks st) (answers st).*1 (set_world w (set_exports ex s))).
  { apply (balanced_service _ _ _ _ _ _ s); try done. destruct Hs. by split. }
  destruct r as [[[h kd] rk]|e|]; cbn [try_cb snd fst] in Ho; [|subst s'|discriminate].
  - destruct Hr as [-> [po ->]]. injection Ho as <-. cbn in Hb.
    apply holding_send. unfold holding. cbn. apply balanced_new_open.
    + apply (balanced_service _ _ _ _ _ _ _ _ H2); cbn; [|lia| |done].
      * exact (new_open_ok _ po (bal_service _ _ _ _ _ _ _ H2) Hb).
      * intros h _ Hh. apply lookup_insert_is_Some'. by right.
    + apply (open_fresh _ _ _ _ _ _ _ _ H). apply not_used, next_handle_fresh; done.
    + cbn. by rewrite lookup_insert_eq.
  - refine (call_balanced Opened cb _ sent st st' _ Ho). exact H2.
Qed.

Lemma open_continue_balanced d h kr sent st st' :
  balanced sent (OpenTicket h :: tickets st) (omap callback_of (queue st)) (open_callbacks st) (pending_callbacks st)
    (answers st).*1 (wallet_service st) ->
  _open_continue d h kr st = Some st' -> in_balance sent st'.
Proof using Type.
  intros H Hc. pose proof (bal_service _ _ _ _ _ _ _ H) as Hs.
  destruct (balanced_take_open _ _ _ _ _ _ _ _ H) as (cb & Hcb & Hn & H').
  unfold _open_continue in Hc. rewrite Hcb in Hc. refine (call_balanced Opened cb _ sent _ _ _ Hc).
  destruct kr as [[key rk]|e|]; [|exact H'..]. rewrite and_then_run. cbn beta iota.
  destruct (open_continue_takes (dr_nonce d) h key rk (wallet_service st)) as (E1 & E2 & E3).
  apply (balanced_service _ _ _ _ _ _ _ _ H'); [by apply open_continue_ok|exact (Z.eq_le_incl _ _ (eq_sym E3))|..].
  - intros h' Hh. cbn [wallet_service set_open]. rewrite E1, lookup_delete_ne; [done|]. by intros <-.
  - intros h' _. cbn [wallet_service set_open]. by rewrite E2.
Qed.

Lemma delete_balanced config credentials cb sent st st' :
  balanced sent (tickets st) (cb :: omap callback_of (queue st)) (open_callbacks st) (pending_callbacks st)
    (answers st).*1 (wallet_service st) ->
  _delete config credentials cb st = Some st' -> (ids_counter (wallet_service st') <= 2 ^ 32)%Z -> in_balance sent st'.
Proof using Type.
  intros H Hd Hb. pose proof (bal_service _ _ _ _ _ _ _ H) as Hs. pose proof (quiet_prepare_delete config credentials) as Hq.
  pose proof (balanced_calm _ _ _ _ _ _ _ _ H (calm_quiet _ Hq) (quiet_ok _ _ Hq Hs)) as H2. revert Hd.
  apply balanced_error; [exact H2|]. intros [md kd] _ Hk. injection Hk as <-.
  apply (put_cb_balanced sent cb (set_service _ st) kd _ _ H2 Hb eq_refl); done.
Qed.

Lemma import_balanced d config credentials ec cb sent st st' :
  balanced sent (tickets st) (cb :: omap callback_of (queue st)) (open_callbacks st) (pending_callbacks st)
    (answers st).*1 (wallet_service st) ->
  _import d config credentials ec cb st = Some st' -> (ids_counter (wallet_service st') <= 2 ^ 32)%Z ->
  in_balance sent st'.
Proof using Type.
  intros H Hi Hb. pose proof (bal_service _ _ _ _ _ _ _ H) as Hs. unfold _import in Hi.
  pose proof (import_prepare_result (dr_salt d) config credentials ec (wallet_service st)) as Hr.
  destruct (import_wallet_prepare (dr_salt d) config credentials ec (wallet_service st)) as [s' r].
  destruct r as [[[h kd] ik]|e|]; cbn [try_cb snd fst] in Hi; [|subst s'|discriminate].
  - destruct Hr as [-> [pi ->]]. injection Hi as <-. cbn in Hb. set (s := wallet_service st) in *.
    assert (Hf : ~ used s (as_i32 (ids_counter s + 1))) by (apply next_handle_fresh; [done|lia]).
    set (s1 := set_pending_import _ _). set (k := ThenImport _ _ _ _ _).
    apply (put_cb_balanced sent cb (set_service s1 st) ik k (callback_ticket k)); [|exact Hb|reflexivity..|]; cbn.
    + apply (balanced_service _ _ _ _ _ _ _ _ H); cbn; [|lia|done|].
      * apply (new_import_ok s pi Hs). lia.
      * intros h _ Hh. apply lookup_insert_is_Some'. by right.
    + intros h [= <-]. split; [|by rewrite lookup_insert_eq].
      intros Hh%(bal_import_data _ _ _ _ _ _ _ H). apply Hf. right. by right.
  - refine (call_balanced Done cb _ sent st st' _ Hi). exact H.
Qed.

Lemma import_continue_balanced d i h config credentials kr sent st st' :
  balanced sent (ImportTicket h i :: tickets st) (omap callback_of (queue st)) (open_callbacks st)
    (pending_callbacks st) (answers st).*1 (wallet_service st) ->
  _import_continue increment p d i h config credentials kr st = Some st' -> in_balance sent st'.
Proof using Type.
  intros H Hc. pose proof (bal_service _ _ _ _ _ _ _ H) as Hs.
  destruct (get_cb_balanced _ _ _ _ _ _ H eq_refl eq_refl Hc) as (cb & Hc' & Hn & H').
  refine (call_balanced Done cb _ sent _ _ _ Hc'). destruct kr as [[ik mk]|e|]; [|exact H'..]. rewrite and_then_run. cbn beta iota.
  destruct (import_continue_takes (dr_fuel d) (dr_keys d) (dr_nonce d) (dr_rnds d) h config credentials ik mk (wallet_service st))
    as (E1 & E2 & E3).
  apply (balanced_service _ _ _ _ _ _ _ _ H'); [by apply import_continue_ok|exact (Z.eq_le_incl _ _ (eq_sym E3))|..].
  - intros h' _. cbn [wallet_service set_pending]. by rewrite E1.
  - intros h' Hh. cbn [wallet_service set_pending]. rewrite E2, lookup_delete_ne; [done|]. intros <-. by apply (Hn h).
Qed.

(** Executing a command keeps the balance. *)
Lemma execute_balanced d c sent st st' :
  holding c sent st -> execute increment p d c st = Some st' -> (ids_counter (wallet_service st') <= 2 ^ 32)%Z ->
  in_balance sent st'.
Proof using Type.
  unfold holding. intros H He Hb. pose proof (bal_service _ _ _ _ _ _ _ H) as Hs. destruct c; cbn in H, He.
  - refine (call_balanced Done _ _ _ _ _ _ He). apply (balanced_calm _ _ _ _ _ _ _ _ H (calm_register _ _)).
    by apply register_ok.
  - injection He as <-. by apply (put_cb_balanced _ _ _ _ _ _ H Hb eq_refl).
  - refine (continue_balanced _ _ _ _ _ _ H _ He). intros key. apply quiet_create_wallet.
  - by apply (open_balanced d config credentials cb sent st).
  - by apply (open_continue_balanced d wallet_handle key_result sent st).
  - refine (call_balanced Done _ _ _ _ _ _ He). apply (balanced_calm _ _ _ _ _ _ _ _ H (calm_close _)). by apply close_ok.
  - by apply (delete_balanced config credentials cb sent st).
  - refine (continue_balanced _ _ _ _ _ _ H _ He). intros key. apply quiet_delete.
  - injection He as <-. by apply (put_cb_balanced _ _ _ _ _ _ H Hb eq_refl).
  - refine (continue_balanced _ _ _ _ _ _ H _ He). intros key. apply quiet_export.
  - by apply (import_balanced d config credentials import_config cb sent st).
  - by apply (import_continue_balanced d cb_id wallet_handle config credentials key_result sent st).
  - refine (call_balanced Generated _ _ _ _ _ _ He). exact H.
  - injection He as <-. unfold in_balance, tickets. cbn. eapply balanced_perm; [..|exact H]; try done.
    rewrite fmap_app. cbn. solve_Permutation.
Qed.

(** The executor changes the service by its operations only. *)
Lemma call_service {A : Type} (kind : outcome A -> Answer) cb r st st' :
  call kind cb r st = Some st' -> wallet_service st' = r.1.
Proof using Type. unfold call. destruct r as [s [a|e|]]; [intros [= <-]..|discriminate]; reflexivity. Qed.
Lemma try_service {A B : Type} (kind : outcome B -> Answer) cb (r : Service * outcome A) st st' k :
  try_cb kind r cb st k = Some st' ->
  wallet_service st' = r.1 \/ exists a, r.2 = Ok a /\ k a (set_service r.1 st) = Some st'.
Proof using Type.
  unfold try_cb. destruct r as [s [a|e|]]; cbn [fst snd]; [eauto| |discriminate]. intros H%call_service. by left.
Qed.
Lemma get_cb_service i st st' k :
  get_cb i st k = Some st' ->
  st' = st \/ exists cb, k cb (set_pending (base.delete i (pending_callbacks st)) st) = Some st'.
Proof using Type. unfold get_cb. destruct (pending_callbacks st !! i); [eauto|]. intros [= <-]. by left. Qed.

Abbreviation steps := (rtc (service_step increment p)).

Lemma and_then_steps {A B : Type} (r : outcome A) (f : A -> SM Service B) s :
  (forall a, service_step increment p s (f a s).1) -> steps s (and_then r f s).1.
Proof using Type. intros H. destruct r as [a| |]; [apply rtc_once, H|apply rtc_refl..]. Qed.
Lemma get_cb_steps {A : Type} i st st' (kr : outcome A) (m : A -> SM Service unit) :
  get_cb i st (fun cb st => call Done cb (and_then kr m (wallet_service st)) st) = Some st' ->
  (forall a, service_step increment p (wallet_service st) (m a (wallet_service st)).1) ->
  steps (wallet_service st) (wallet_service st').
Proof using Type.
  intros [->|[cb Hc%call_service]]%get_cb_service H; [apply rtc_refl|]. rewrite Hc. by apply and_then_steps.
Qed.

Lemma execute_steps d c st st' :
  execute increment p d c st = Some st' -> steps (wallet_service st) (wallet_service st').
Proof using Type.
  set (s := wallet_service st). intros He. destruct c; cbn in He.
  - apply call_service in He as ->. apply rtc_once, step_register.
  - injection He as <-. apply rtc_once, step_id.
  - apply (get_cb_steps _ _ _ _ _ He). intros key. apply step_create.
  - apply try_service in He as [->|([[h kd] rk] & _ & Hk)]; [apply rtc_once, step_open_prepare|].
    injection Hk as <-. apply rtc_once, step_open_prepare.
  - unfold _open_continue in He. destruct (open_callbacks st !! wallet_handle); [|discriminate].
    apply call_service in He as ->. apply and_then_steps. intros [key rk]. apply step_open_continue.
  - apply call_service in He as ->. apply rtc_once, step_close.
  - apply try_service in He as [->|([md kd] & _ & Hk)]; [apply rtc_once, step_delete_prepare|].
    injection Hk as <-. eapply rtc_l; [apply step_delete_prepare|]. apply rtc_once, step_id.
  - apply (get_cb_steps _ _ _ _ _ He). intros key. apply step_delete_continue.
  - injection He as <-. apply rtc_once, step_id.
  - apply (get_cb_steps _ _ _ _ _ He). intros key. apply step_export.
  - apply try_service in He as [->|([[h kd] ik] & _ & Hk)]; [apply rtc_once, step_import_prepare|].
    injection Hk as <-. eapply rtc_l; [apply step_import_prepare|]. apply rtc_once, step_id.
  - apply (get_cb_steps _ _ _ _ _ He). intros [ik mk]. apply step_import_continue.
  - apply call_service in He as ->. apply rtc_refl.
  - injection He as <-. apply rtc_refl.
Qed.

Lemma other_use_step s s' : other_use s s' -> service_step increment p s s'.
Proof using Type. intros []; constructor. Qed.

Lemma other_use_kept s s' : other_use s s' ->
  pending_for_open s' = pending_for_open s /\ pending_for_import s' = pending_for_import s /\
  (ids_counter s <= ids_counter s')%Z.
Proof using Type.
  intros [].
  - cbn. split; [done|]. split; [done|lia].
  - destruct (calm_quiet _ (quiet_with_wallet h f) s0) as (-> & -> & ->). done.
  - assert (Hq : quiet (search_records h t query options)).
    { apply quiet_bind; [apply quiet_gets|]. intros [ow|]; [|apply quiet_fail].
      apply quiet_bind; [apply quiet_in_world|]. intros it. apply quiet_ret. }
    destruct (calm_quiet _ Hq s0) as (-> & -> & ->). done.
  - unfold fetch_next_record. by destruct (wallet_next _ _) as [[st it] r].
Qed.

Lemma internal_counter st st' :
  internal_step increment p st st' -> (ids_counter (wallet_service st) <= ids_counter (wallet_service st'))%Z.
Proof using Type. intros [d c q st1 st2 Hq He|j1 j j2 st1 Hj]; [|done]. by apply execute_steps, rtc_counter in He. Qed.

(** Every state of the process is in balance. *)
Lemma reachable_balance sent st :
  reachable increment p sent st -> (ids_counter (wallet_service st) <= 2 ^ 32)%Z -> in_balance sent st.
Proof using Type.
  induction 1 as [ty w files|sent st c cb Hr IH Hc|sent st st' Hr IH Hs|sent st st' Hr IH [s' Hu]]; intros Hb.
  - split; cbn; rewrite ?map_to_list_empty; try done; [apply service_new_ok|apply NoDup_nil_2|..]; intros h []%elem_of_nil.
  - apply holding_send. unfold holding. rewrite Hc, (callback_or_ticket c cb Hc). cbn.
    destruct (IH Hb) as [H1 H2 H3 H4 H5 H6 H7 H8]. split; try done. rewrite H5. cbn. by rewrite Permutation_middle.
  - specialize (IH ltac:(apply internal_counter in Hs; lia)). destruct Hs as [d c q st1 st2 Hq He|j1 j j2 st1 Hj].
    + by eapply execute_balanced; [apply (holding_take c q)|..].
    + by apply holding_send, holding_job.
  - destruct (other_use_kept _ _ Hu) as (E1 & E2 & E3). cbn in Hb. specialize (IH ltac:(lia)).
    pose proof (bal_service _ _ _ _ _ _ _ IH) as Hs.
    apply (balanced_service _ _ _ _ _ _ _ _ IH); cbn; [|done|intros h _; by rewrite E1|intros h _; by rewrite E2].
    apply (service_step_ok increment p _ _ (other_use_step _ _ Hu) Hs Hb).
Qed.
End Tickets.

(** ** The commands end *)
Section Progress.
Context {S : Sodium} {C : OptionsCodec} {K : KeyCodec} {E : ExportCodec} {W : WalletStorage} {Wd : World W} {Pf : Platform}.
Context {Sc : SeedCodec} (increment : bytes -> bytes) (p : Profile).

Lemma resume_weight k r : command_weight (resume k r) < callback_weight k.
Proof using Type. destruct k as [|? [] | | | | |], r; cbn; lia. Qed.

Lemma send_weight c st : weight (send c st) = weight st + command_weight c.
Proof using Type. unfold weight, send. cbn. rewrite fmap_app, sum_list_with_app. cbn. lia. Qed.

Lemma same_weight st st' : queue st = queue st' -> jobs st = jobs st' -> weight st = weight st'.
Proof using Type. unfold weight. by intros -> ->. Qed.

Lemma call_weight {A : Type} (kind : outcome A -> Answer) cb r st st' :
  call kind cb r st = Some st' -> weight st' = weight st.
Proof using Type. unfold call. destruct r as [s [a|e|]]; [intros [= <-]..|discriminate]; reflexivity. Qed.
Lemma try_weight {A B : Type} (kind : outcome B -> Answer) cb (r : Service * outcome A) st st' k n :
  (forall a st0 st1, weight st0 = weight st -> k a st0 = Some st1 -> weight st1 <= weight st + n) ->
  try_cb kind r cb st k = Some st' -> weight st' <= weight st + n.
Proof using Type.
  intros Hk. unfold try_cb. destruct r as [s [a|e|]]; cbn [fst snd]; [by apply Hk|intros ->%call_weight; lia|discriminate].
Qed.
Lemma get_cb_weight i st st' k :
  (forall cb st0 st1, weight st0 = weight st -> k cb st0 = Some st1 -> weight st1 = weight st) ->
  get_cb i st k = Some st' -> weight st' = weight st.
Proof using Type.
  intros Hk. unfold get_cb. destruct (pending_callbacks st !! i) as [cb|]; [by apply Hk|]. by intros [= <-].
Qed.

Lemma execute_weight d c st st' :
  execute increment p d c st = Some st' -> weight st' < weight st + command_weight c.
Proof using Type.
  intros He. assert (Hget : forall i k, (forall cb st0 st1, k cb st0 = Some st1 -> weight st1 = weight st0) ->
    get_cb i st k = Some st' -> weight st' = weight st).
  { intros i k Hk. apply get_cb_weight. intros cb st0 st1 E1 E2. by rewrite (Hk _ _ _ E2). }
  destruct c; cbn [execute] in He; cbn [command_weight].
  1, 6, 13: apply call_weight in He; lia.
  2, 6, 8, 10: apply Hget in He; [lia|]; intros cb st0 st1; apply call_weight.
  - injection He as <-. rewrite send_weight, (same_weight _ st) by reflexivity. cbn [command_weight callback_weight]. lia.
  - enough (weight st' <= weight st + 5) by lia. revert He. apply try_weight. intros [[h kd] rk] st0 st1 Hw [= <-].
    rewrite send_weight, (same_weight _ st0) by reflexivity. destruct rk; cbn [command_weight callback_weight]; lia.
  - unfold _open_continue in He. destruct (open_callbacks st !! _); [|discriminate]. apply call_weight in He.
    rewrite (same_weight (set_open _ st) st) in He by reflexivity. lia.
  - enough (weight st' <= weight st + 3) by lia. revert He. apply try_weight. intros [md kd] st0 st1 Hw [= <-].
    rewrite send_weight, (same_weight _ st0) by reflexivity. cbn [command_weight callback_weight]. lia.
  - injection He as <-. rewrite send_weight, (same_weight _ st) by reflexivity. cbn [command_weight callback_weight]. lia.
  - enough (weight st' <= weight st + 5) by lia. revert He. apply try_weight. intros [[h kd] ik] st0 st1 Hw [= <-].
    rewrite send_weight, (same_weight _ st0) by reflexivity. cbn [command_weight callback_weight]. lia.
  - injection He as <-. unfold weight, set_jobs. cbn. rewrite fmap_app, sum_list_with_app. cbn. lia.
Qed.

Lemma internal_weight st st' : internal_step increment p st st' -> weight st' < weight st.
Proof using Type.
  intros [d c q st1 st2 Hq He|j1 j j2 st1 Hj].
  - apply execute_weight in He. unfold weight in *. rewrite Hq. cbn in *. lia.
  - rewrite send_weight. pose proof (resume_weight j.2 (calc_master_key j.1)). unfold weight. cbn. rewrite Hj.
    rewrite !fmap_app, !sum_list_with_app. cbn. unfold run_job. lia.
Qed.

Lemma quiet_process sent st :
  reachable increment p sent st -> (ids_counter (wallet_service st) <= 2 ^ 32)%Z -> queue st = [] -> jobs st = [] ->
  open_callbacks st = ∅ /\ pending_callbacks st = ∅ /\ (answers st).*1 ≡ₚ sent.
Proof using Type.
  intros Hr Hb Hq Hj. destruct (reachable_balance increment p sent st Hr Hb) as [_ H2 H3 _ H5 _ _ _].
  unfold tickets in *. rewrite Hq, Hj in *. cbn in *.
  assert (Hm : forall m : gmap Z nat, [] ≡ₚ (map_to_list m).*1 -> m = ∅).
  { intros m Hm%Permutation_nil_l. symmetry in Hm. by apply fmap_nil_inv, map_to_list_empty_iff in Hm. }
  rewrite (Hm _ H2), (Hm _ H3) in *. rewrite !map_to_list_empty in H5. cbn in H5. by rewrite app_nil_r in H5.
Qed.

(** Steps of the worker and the pool, with the other executors in between. *)
Definition own_step (st st' : Process) : Prop :=
  exists st1, rtc other_step st st1 /\ internal_step increment p st1 st'.

Lemma other_weight st st' : rtc other_step st st' -> weight st' = weight st.
Proof using Type. induction 1 as [|x y z [s' _] _ IH]; [done|]. by rewrite IH. Qed.
Lemma own_weight st st' : own_step st st' -> weight st' < weight st.
Proof using Type. intros (st1 & <-%other_weight & H%internal_weight). done. Qed.
Lemma own_reachable sent st st' : own_step st st' -> reachable increment p sent st -> reachable increment p sent st'.
Proof using Type.
  intros (st1 & Ho & Hs) Hr. eapply reach_step; [|done]. clear Hs.
  induction Ho as [|x y z Hxy _ IH]; [done|]. apply IH. by eapply reach_other.
Qed.
End Progress.

(** ** Theorems *)
Section Theorems.
Context {S : Sodium} {C : OptionsCodec} {K : KeyCodec} {E : ExportCodec} {W : WalletStorage} {Wd : World W} {Pf : Platform}.
Context {Sc : SeedCodec} (increment : bytes -> bytes) (p : Profile).

(** C36: No callback of the application is lost and none is called twice.  However the
    commands of different calls, the jobs of the thread pool and the other executors
    interleave, in every state of a process that has given out at most 2^32 ids: the
    callbacks called so far together with those that wait (in the queue, for an opened
    wallet or for a derived key) are exactly the callbacks the application passed, each as
    often as it was passed; and when the queue and the pool are empty, nothing waits. *)
Theorem no_callback_lost sent st :
  reachable increment p sent st -> (ids_counter (wallet_service st) <= 2 ^ 32)%Z ->
  ((answers st).*1 ++ waiting st)%list ≡ₚ sent /\
  (queue st = [] -> jobs st = [] -> waiting st = [] /\ (answers st).*1 ≡ₚ sent).
Proof using Type.
  intros Hr Hb. split; [symmetry; apply (reachable_balance increment p sent st Hr Hb)|]. intros Hq Hj.
  destruct (quiet_process increment p sent st Hr Hb Hq Hj) as (E1 & E2 & Hp). split; [|done].
  unfold waiting. by rewrite Hq, E1, E2.
Qed.

(** A continuation finds what it looks up.  A command of the executor's own that is in
    the queue still has its callback, and the service still has the opening or the import
    that it prepared for it, whatever ran in between: [unwrap] on the open callbacks does
    not panic, no answer is dropped as "No pending command", and a missing entry never
    fails an opening or panics an import. *)
Theorem continuations_find_callbacks sent st c :
  reachable increment p sent st -> (ids_counter (wallet_service st) <= 2 ^ 32)%Z -> c ∈ queue st ->
  match c with
  | OpenContinue h _ => is_Some (open_callbacks st !! h) /\ is_Some (pending_for_open (wallet_service st) !! h)
  | CreateContinue _ _ _ _ i | DeleteContinue _ _ _ _ i | ExportContinue _ _ _ _ i => is_Some (pending_callbacks st !! i)
  | ImportContinue _ _ _ h i =>
      is_Some (pending_callbacks st !! i) /\ is_Some (pending_for_import (wallet_service st) !! h)
  | _ => True
  end.
Proof using Type.
  intros Hr Hb Hc. destruct (reachable_balance increment p sent st Hr Hb) as [_ H2 H3 _ _ H6 H7 _].
  assert (Hin : forall (f : Ticket -> option Z) t i, command_ticket c = Some t -> f t = Some i -> i ∈ omap f (tickets st)).
  { intros f t i Ht Hi. apply list_elem_of_omap. exists t. split; [|done]. apply elem_of_app. left.
    apply list_elem_of_omap. by exists c. }
  assert (Ho : forall h, command_ticket c = Some (OpenTicket h) -> is_Some (open_callbacks st !! h)).
  { intros h Ht. rewrite <-keys_lookup, <-H2. by eapply Hin. }
  assert (Hp : forall t i, command_ticket c = Some t -> pending_id t = Some i -> is_Some (pending_callbacks st !! i)).
  { intros t i Ht Hi. rewrite <-keys_lookup, <-H3. by eapply Hin. }
  destruct c; try exact I; try (by eapply Hp).
  - split; [by apply Ho|]. apply H6. by eapply Hin.
  - split; [by eapply Hp|]. apply H7. by eapply Hin.
Qed.

(** The commands end, and every call is answered.  From every state of a process, the
    worker and the pool take at most [weight] steps while the application sends nothing more
    (a create, delete or export takes four, an open or import six).  Where they cannot go on,
    either the queue and the pool are empty and every callback has been called exactly as
    often as it was passed, or the worker panics in the next command, whatever it draws. *)
Theorem every_call_answered sent st n st' :
  reachable increment p sent st -> nsteps (own_step increment p) n st st' ->
  (ids_counter (wallet_service st') <= 2 ^ 32)%Z ->
  n <= weight st /\
  ((forall st'', ~ internal_step increment p st' st'') ->
   (queue st' = [] /\ jobs st' = [] /\ (answers st').*1 ≡ₚ sent) \/
   exists c q, queue st' = c :: q /\ forall d, execute increment p d c (set_queue q st') = None).
Proof using Type.
  intros Hr Hn Hb. assert (H : n + weight st' <= weight st /\ reachable increment p sent st').
  { induction Hn as [|n st st1 st' H1 Hn IH]; [split; [lia|done]|].
    destruct (IH (own_reachable increment p _ _ _ H1 Hr) Hb) as [IH1 IH2]. apply own_weight in H1. split; [lia|done]. }
  destruct H as [Hw Hr']. split; [lia|]. intros Hstuck. destruct (queue st') as [|c q] eqn:Hq.
  - left. destruct (jobs st') as [|j js] eqn:Hj; [by split; [|split; [|apply (quiet_process increment p sent st')]]|].
    destruct (Hstuck _ (step_pool increment p [] j js st' Hj)).
  - right. exists c, q. split; [done|]. intros d. destruct (execute increment p d c _) as [st2|] eqn:He; [|done].
    destruct (Hstuck _ (step_worker increment p d c q st' st2 Hq He)).
Qed.
End Theorems.

(** ** A call on its own *)
Section Alone.
Context {S : Sodium} {C : OptionsCodec} {K : KeyCodec} {E : ExportCodec} {W : WalletStorage} {Wd : World W} {Pf : Platform}.
Context {Sc : SeedCodec} (increment : bytes -> bytes) (p : Profile) (d : Draws).

(** The worker takes a command if there is one, otherwise the pool ends its first job. *)
Definition next_step (st : Process) : option Process :=
  match queue st, jobs st with
  | c :: q, _ => execute increment p d c (set_queue q st)
  | [], j :: js => Some (send (run_job j) (set_jobs js st))
  | [], [] => Some st
  end.
Fixpoint drain (n : nat) (st : Process) : option Process :=
  match n with
  | 0 => Some st
  | Datatypes.S n => next_step st ≫= drain n
  end.

(** The operations of the service that a call stands for, one after the other. *)
Definition finish {A : Type} (kind : outcome A -> Answer) (r : Service * outcome A) : option (Service * Answer) :=
  match r.2 with Panic => None | res => Some (r.1, kind res) end.
Definition in_order (c : WalletCommand) (s : Service) : option (Service * Answer) :=
  match c with
  | RegisterWalletType type_ plugged _ => finish Done (register_wallet_storage type_ plugged s)
  | Create config credentials _ =>
      let kd := from_passphrase_with_new_salt (dr_salt d) (cr_key credentials) (key_derivation_method credentials) in
      finish Done ((let* _ := next_wallet_handle in
                    let* key := sm_lift (calc_master_key kd) in
                    create_wallet (dr_keys d) (dr_nonce d) config credentials kd key) s)
  | Open config credentials _ => finish Opened (open_wallet (dr_salt d) (dr_nonce d) config credentials s)
  | Close h _ => finish Done (close_wallet h s)
  | Delete config credentials _ =>
      finish Done ((let* (metadata, kd) := delete_wallet_prepare config credentials in
                    let* _ := next_wallet_handle in
                    let* key := sm_lift (calc_master_key kd) in
                    delete_wallet_continue config credentials metadata key) s)
  | Export h ec _ =>
      let kd := from_passphrase_with_new_salt (dr_salt d) (ec_key ec) (ec_method ec) in
      finish Done ((let* _ := next_wallet_handle in
                    let* key := sm_lift (calc_master_key kd) in
                    export_wallet increment (dr_fuel d) (dr_nonce d) (dr_now d) (dr_left_over d) h ec 0 kd key) s)
  | Import config credentials ec _ =>
      finish Done ((let* (h, kd, ikd) := import_wallet_prepare (dr_salt d) config credentials ec in
                    let* _ := next_wallet_handle in
                    let* import_key := sm_lift (calc_master_key ikd) in
                    let* key := sm_lift (calc_master_key kd) in
                    import_wallet_continue increment p (dr_fuel d) (dr_keys d) (dr_nonce d) (dr_rnds d) h config
                      credentials import_key key) s)
  | GenerateKey config _ => finish Generated (s, _generate_key (dr_random_key d) config)
  | _ => None
  end.

Definition idle (s : Service) (ans : list (nat * Answer)) : Process := mkProcess s ∅ ∅ [] [] ans.
Definition ended (cb : nat) (ans : list (nat * Answer)) (r : option (Service * Answer)) : option Process :=
  (fun '(s, a) => idle s (ans ++ [(cb, a)])%list) <$> r.

Lemma drain_idle n s ans : drain n (idle s ans) = Some (idle s ans).
Proof using Type. induction n; [done|]. exact IHn. Qed.
Lemma call_drain {A : Type} (kind : outcome A -> Answer) cb r n s ans :
  call kind cb r (idle s ans) ≫= drain n = ended cb ans (finish kind r).
Proof using Type.
  unfold call, finish, ended. destruct r as [s' [a|e|]]; cbn [fst snd]; [| |done]; exact (drain_idle n s' _).
Qed.
Lemma try_drain {A B : Type} (kind : outcome B -> Answer) cb (r : Service * outcome A) k (m : A -> SM Service B) n s ans :
  (forall a, r.2 = Ok a -> k a (idle r.1 ans) ≫= drain n = ended cb ans (finish kind (m a r.1))) ->
  try_cb kind r cb (idle s ans) k ≫= drain n =
  ended cb ans (finish kind (match r with (s', Ok a) => m a s' | (s', Err e) => (s', Err e) | (s', Panic) => (s', Panic) end)).
Proof using Type.
  intros H. unfold try_cb. destruct r as [s' [a|e|]]; cbn [fst snd] in *; [by apply H|apply call_drain|done].
Qed.

(** A callback put aside comes back when its continuation runs. *)
Lemma get_put_cb {A : Type} cb i s ans n kr (m : A -> SM Service unit) :
  get_cb i (mkProcess s ∅ {[i := cb]} [] [] ans)
    (fun cb st => call Done cb (and_then kr m (wallet_service st)) st) ≫= drain n =
  ended cb ans (finish Done (and_then kr m s)).
Proof using Type.
  unfold get_cb. cbn. rewrite lookup_singleton_eq, delete_singleton_eq. exact (call_drain Done cb _ n s ans).
Qed.

Lemma open_drain n s ans cb h kr :
  _open_continue d h kr (mkProcess s {[h := cb]} ∅ [] [] ans) ≫= drain n =
  ended cb ans (finish Opened (and_then kr (fun '(key, rekey) => open_wallet_continue (dr_nonce d) h key rekey) s)).
Proof using Type.
  unfold _open_continue. cbn. rewrite lookup_singleton_eq, delete_singleton_eq. exact (call_drain Opened cb _ n s ans).
Qed.

Abbreviation tick s := (set_counter (ids_counter s + 1)%Z s).
Abbreviation next_id s := (as_i32 (ids_counter s + 1)).

Lemma create_alone config credentials cb s ans :
  drain 6 (send (Create config credentials cb) (idle s ans)) = ended cb ans (in_order (Create config credentials cb) s).
Proof using Type.
  set (kd := from_passphrase_with_new_salt (dr_salt d) (cr_key credentials) (key_derivation_method credentials)).
  exact (get_put_cb cb (next_id s) (tick s) ans 2 (calc_master_key kd)
    (fun key => create_wallet (dr_keys d) (dr_nonce d) config credentials kd key)).
Qed.
Lemma export_alone h ec cb s ans :
  drain 6 (send (Export h ec cb) (idle s ans)) = ended cb ans (in_order (Export h ec cb) s).
Proof using Type.
  set (kd := from_passphrase_with_new_salt (dr_salt d) (ec_key ec) (ec_method ec)).
  exact (get_put_cb cb (next_id s) (tick s) ans 2 (calc_master_key kd)
    (fun key => export_wallet increment (dr_fuel d) (dr_nonce d) (dr_now d) (dr_left_over d) h ec 0 kd key)).
Qed.
Lemma delete_alone config credentials cb s ans :
  drain 6 (send (Delete config credentials cb) (idle s ans)) = ended cb ans (in_order (Delete config credentials cb) s).
Proof using Type.
  refine (try_drain Done cb (delete_wallet_prepare config credentials s) _
    (fun '(metadata, kd) => let* _ := next_wallet_handle in
                            let* key := sm_lift (calc_master_key kd) in
                            delete_wallet_continue config credentials metadata key) 5 s ans _).
  intros [md kd] _. set (s' := (delete_wallet_prepare config credentials s).1).
  exact (get_put_cb cb (next_id s') (tick s') ans 2 (calc_master_key kd)
    (fun key => delete_wallet_continue config credentials md key)).
Qed.
Lemma import_alone config credentials ec cb s ans :
  drain 6 (send (Import config credentials ec cb) (idle s ans)) =
  ended cb ans (in_order (Import config credentials ec cb) s).
Proof using Type.
  refine (try_drain Done cb (import_wallet_prepare (dr_salt d) config credentials ec s) _
    (fun '(h, kd, ikd) => let* _ := next_wallet_handle in
       let* import_key := sm_lift (calc_master_key ikd) in
       let* key := sm_lift (calc_master_key kd) in
       import_wallet_continue increment p (dr_fuel d) (dr_keys d) (dr_nonce d) (dr_rnds d) h config
         credentials import_key key) 5 s ans _).
  intros [[h kd] ikd] _. set (s' := (import_wallet_prepare (dr_salt d) config credentials ec s).1).
  etransitivity; [exact (get_put_cb cb (next_id s') (tick s') ans 0
    (let? import_key := calc_master_key ikd in out_map (fun key => (import_key, key)) (calc_master_key kd))
    (fun '(import_key, master_key) => import_wallet_continue increment p (dr_fuel d) (dr_keys d) (dr_nonce d) (dr_rnds d)
       h config credentials import_key master_key))|].
  do 2 f_equal. unfold and_then, sm_bind, sm_lift, next_wallet_handle.
  destruct (calc_master_key ikd); [|done..]. by destruct (calc_master_key kd).
Qed.
Lemma open_alone config credentials cb s ans :
  drain 6 (send (Open config credentials cb) (idle s ans)) = ended cb ans (in_order (Open config credentials cb) s).
Proof using Type.
  refine (try_drain Opened cb (open_wallet_prepare (dr_salt d) config credentials s) _
    (fun '(h, kd, rekey_data) => let* key := sm_lift (calc_master_key kd) in
       let* rekey_key := match rekey_data with
                         | Some rd => let* k := sm_lift (calc_master_key rd) in sm_ret (Some k)
                         | None => sm_ret None
                         end in
       open_wallet_continue (dr_nonce d) h key rekey_key) 5 s ans _).
  intros [[h kd] rekey_data] _. set (s' := (open_wallet_prepare (dr_salt d) config credentials s).1).
  change (drain 3 (mkProcess s' {[h := cb]} ∅ [resume (ThenOpen h rekey_data) (calc_master_key kd)] [] ans) =
    ended cb ans (finish Opened (and_then (calc_master_key kd) (fun key =>
      let* rekey_key := match rekey_data with
                        | Some rd => let* k := sm_lift (calc_master_key rd) in sm_ret (Some k)
                        | None => sm_ret None
                        end in
      open_wallet_continue (dr_nonce d) h key rekey_key) s'))).
  destruct (calc_master_key kd) as [key|e|]; [destruct rekey_data as [rd|]|..].
  - etransitivity; [exact (open_drain 0 s' ans cb h (out_map (fun rekey => (key, Some rekey)) (calc_master_key rd)))|].
    do 2 f_equal. unfold and_then, sm_bind, sm_lift. by destruct (calc_master_key rd).
  - exact (open_drain 2 s' ans cb h (Ok (key, None))).
  - exact (open_drain 2 s' ans cb h (Err e)).
  - exact (open_drain 2 s' ans cb h Panic).
Qed.

(** A call on its own does what the operations of the service do one after the other.
    When nothing else is under way, sending a command of the application and letting the
    worker and the pool run ends within six steps, in the state and with the answer that the
    operations of [WalletService] behind it give in order: prepare, derive the keys, continue,
    stopping at the first error.  A process where an operation panics ends there; otherwise
    the callback is called once and nothing is left in the queue, the pool and the maps of
    callbacks. *)
Theorem call_alone sent st c cb :
  reachable increment p sent st -> (ids_counter (wallet_service st) <= 2 ^ 32)%Z ->
  queue st = [] -> jobs st = [] -> callback_of c = Some cb ->
  drain 6 (send c st) =
  (fun '(s, a) => mkProcess s ∅ ∅ [] [] (answers st ++ [(cb, a)])%list) <$> in_order c (wallet_service st).
Proof using Type.
  intros Hr Hb Hq Hj Hc. destruct (quiet_process increment p sent st Hr Hb Hq Hj) as (Ho & Hp & _).
  destruct st as [s op pe q js ans]. cbn in *. subst. change (mkProcess s ∅ ∅ [] [] ans) with (idle s ans).
  destruct c; try discriminate; injection Hc as ->.
  - exact (call_drain Done cb _ 5 s ans).
  - apply create_alone.
  - apply open_alone.
  - exact (call_drain Done cb _ 5 s ans).
  - apply delete_alone.
  - apply export_alone.
  - apply import_alone.
  - exact (call_drain Generated cb _ 5 s ans).
Qed.

(** Every step of [drain] is a step of the process. *)
Lemma drain_reachable n : forall sent st st',
  reachable increment p sent st -> drain n st = Some st' -> reachable increment p sent st'.
Proof using Type.
  induction n as [|n IH]; intros sent st st' Hr; cbn; [by intros [= <-]|].
  destruct (next_step st) as [st1|] eqn:Hn; [|discriminate]. cbn. apply IH. unfold next_step in Hn.
  destruct (queue st) as [|c q] eqn:Hq; [destruct (jobs st) as [|j js] eqn:Hj|].
  - by injection Hn as <-.
  - injection Hn as <-. exact (reach_step increment p _ _ _ Hr (step_pool increment p [] j js st Hj)).
  - exact (reach_step increment p _ _ _ Hr (step_worker increment p d c q st st1 Hq Hn)).
Qed.
End Alone.

(** ** Seeds and keys *)
Section SeedFacts.
Context {Sc : SeedCodec}.

(** The seeds that are accepted: 32 bytes as they are, base64 that ends in [=], or 64 hex
    digits, the latter two only if they decode to 32 bytes. *)
Theorem accepted_seeds s b :
  convert_seed (Some s) = Ok (Some b) <->
  length b = SEEDBYTES /\
  (if decide (length (as_bytes s) = SEEDBYTES) then b = as_bytes s
   else if ends_with (Ascii.ascii_of_nat 61) s then seed_from_base64 s = Some b
   else length (as_bytes s) = SEEDBYTES * 2 /\ seed_from_hex s = Some b).
Proof using Type.
  assert (Hs : forall x, length x = SEEDBYTES -> sign_seed_from_slice x = Ok x).
  { intros x Hx. unfold sign_seed_from_slice. by rewrite Hx. }
  assert (Hi : forall x, sign_seed_from_slice x = Ok b -> length x = SEEDBYTES /\ b = x).
  { intros x. unfold sign_seed_from_slice. destruct (Nat.eqb_spec (length x) SEEDBYTES); [intros [= ->]|]; done. }
  unfold convert_seed. destruct (Nat.eqb_spec (length (as_bytes s)) SEEDBYTES) as [E1|E1].
  { rewrite decide_True by done. cbn. rewrite Hs by done. cbn. split; [by intros [= <-]|by intros [_ ->]]. }
  rewrite decide_False by done. destruct (ends_with _ s).
  - destruct (seed_from_base64 s) as [x|]; cbn; [|naive_solver].
    destruct (Nat.eqb_spec (length x) SEEDBYTES) as [E2|E2]; cbn; [rewrite Hs by done; cbn; naive_solver|naive_solver].
  - destruct (Nat.eqb_spec (length (as_bytes s)) (SEEDBYTES * 2)) as [E2|E2]; [|cbn; naive_solver].
    destruct (seed_from_hex s) as [x|]; cbn; [|naive_solver]. split.
    + destruct (sign_seed_from_slice x) as [y| |] eqn:Ey; cbn; [|done..]. intros [= ->]. apply Hi in Ey. naive_solver.
    + intros (Hl & _ & [= ->]). by rewrite Hs.
Qed.

(** A key made from a seed depends on nothing else, and an accepted seed always gives one. *)
Theorem seeded_key s b random_key :
  convert_seed (Some s) = Ok (Some b) ->
  _generate_key random_key (Some (mkKeyConfig (Some s))) = Ok (to_base58 (randombytes_deterministic KEYBYTES b)).
Proof using Type.
  intros H. unfold _generate_key. cbn [mbind option_bind kc_seed]. rewrite H. apply accepted_seeds in H as [Hl _].
  cbn. unfold random_seed_from_slice. by rewrite Hl.
Qed.
End SeedFacts.

(** ** An opening whose key cannot be derived *)
Section Leak.
Context {S : Sodium} {C : OptionsCodec} {K : KeyCodec} {E : ExportCodec} {W : WalletStorage} {Wd : World W} {Pf : Platform}.
Context {Sc : SeedCodec} (increment : bytes -> bytes) (p : Profile) (d : Draws).

(** The callback gets the error, and the service keeps the opening, with the open storage,
    although nothing can continue it any more. *)
Theorem failed_derivation_keeps_opening config credentials cb s ans s' h kd rk e :
  open_wallet_prepare (dr_salt d) config credentials s = (s', Ok (h, kd, rk)) -> calc_master_key kd = Err e ->
  drain increment p d 6 (send (Open config credentials cb) (idle s ans)) =
    Some (idle s' (ans ++ [(cb, Opened (Err e))])%list) /\ is_Some (pending_for_open s' !! h).
Proof using Type.
  intros Hp Hk. split.
  - rewrite open_alone. cbn [in_order]. unfold open_wallet. rewrite (sm_bind_ok _ _ _ _ _ Hp). cbn beta iota.
    unfold sm_bind at 1, sm_lift at 1. rewrite Hk. reflexivity.
  - pose proof (open_prepare_result (dr_salt d) config credentials s) as H. rewrite Hp in H.
    destruct H as (w & ex & _ & po & ->). cbn. by rewrite lookup_insert_eq.
Qed.
End Leak.

(** ** Examples *)
#[local] Instance demo_seed_codec : SeedCodec := {|
  seed_from_base64 s := Some (as_bytes s);
  seed_from_hex s := Some (take 32 (as_bytes s));
  to_base58 b := "key";
  randombytes_deterministic n b := take n b
|}.
Definition demo_draws : Draws :=
  mkDraws demo_salt demo_keys demo_nonce (replicate 32 5%Z) 0 [] (fun _ => demo_rnd) 2.
Definition demo_start : Process := executor_new demo_service.
Definition demo_run (n : nat) (st : Process) : Process := default demo_start (drain (map (Z.add 1)) Debug demo_draws n st).

Lemma some_default {A : Type} (o : option A) (x : A) : (if o then true else false) = true -> o = Some (default x o).
Proof. by destruct o. Qed.
Lemma demo_run_reachable n sent st :
  reachable (map (Z.add 1)) Debug sent st -> (if drain (map (Z.add 1)) Debug demo_draws n st then true else false) = true ->
  reachable (map (Z.add 1)) Debug sent (demo_run n st).
Proof. intros Hr H. exact (drain_reachable _ _ demo_draws n sent st _ Hr (some_default _ demo_start H)). Qed.

(** A wallet is created, and opened before it is there: the opening fails at once. *)
Definition demo_early : Process := demo_run 2 (send (Open demo_config demo_credentials 2) (send (Create demo_config demo_credentials 1) demo_start)).
Lemma no_callback_lost_witness :
  (((answers demo_early).*1 ++ waiting demo_early)%list ≡ₚ [2; 1] /\
   (queue demo_early = [] -> jobs demo_early = [] -> waiting demo_early = [] /\ (answers demo_early).*1 ≡ₚ [2; 1])) /\
  (answers demo_early).*1 = [2] /\ waiting demo_early = [1].
Proof.
  split; [|split; vm_compute; reflexivity]. apply (no_callback_lost (map (Z.add 1)) Debug).
  - apply demo_run_reachable; [|vm_compute; reflexivity].
    apply reach_send; [apply reach_send; [exact (reach_start _ _ demo_type empty_disk ∅)|reflexivity]|reflexivity].
  - vm_compute. discriminate.
Defined.

(** The wallet is created, then opened; the key is derived. *)
Definition demo_created : Process := demo_run 6 (send (Create demo_config demo_credentials 1) demo_start).
Definition demo_opening : Process := demo_run 3 (send (Open demo_config demo_credentials 2) demo_created).
Definition head_handle {W : WalletStorage} {Wd : World W} (q : list WalletCommand) : option Z :=
  match q with OpenContinue h _ :: _ => Some h | _ => None end.
Lemma head_handle_in {W : WalletStorage} {Wd : World W} (q : list WalletCommand) h :
  head_handle q = Some h -> exists kr, OpenContinue h kr ∈ q.
Proof. destruct q as [|[] q]; try discriminate. intros [= ->]. eexists. left. Qed.

Lemma demo_opening_reachable : reachable (map (Z.add 1)) Debug [2; 1] demo_opening.
Proof.
  apply demo_run_reachable; [|vm_compute; reflexivity]. apply reach_send; [|reflexivity].
  apply demo_run_reachable; [|vm_compute; reflexivity].
  apply reach_send; [exact (reach_start _ _ demo_type empty_disk ∅)|reflexivity].
Qed.
Lemma continuations_find_callbacks_witness :
  is_Some (open_callbacks demo_opening !! 3%Z) /\ is_Some (pending_for_open (wallet_service demo_opening) !! 3%Z).
Proof.
  destruct (head_handle_in (queue demo_opening) 3 ltac:(vm_compute; reflexivity)) as [kr Hkr].
  refine (continuations_find_callbacks (map (Z.add 1)) Debug [2; 1] demo_opening _ demo_opening_reachable _ Hkr).
  vm_compute. discriminate.
Defined.

Definition demo_key_call : Process := send (GenerateKey None 1) demo_start.
Definition demo_key_done : Process := demo_run 1 demo_key_call.
Lemma every_call_answered_witness :
  (1 <= weight demo_key_call /\
   ((forall st'', ~ internal_step (map (Z.add 1)) Debug demo_key_done st'') ->
    (queue demo_key_done = [] /\ jobs demo_key_done = [] /\ (answers demo_key_done).*1 ≡ₚ [1]) \/
    exists c q, queue demo_key_done = c :: q /\
      forall d, execute (map (Z.add 1)) Debug d c (set_queue q demo_key_done) = None)) /\
  (answers demo_key_done).*1 = [1].
Proof.
  split; [|vm_compute; reflexivity]. apply (every_call_answered (map (Z.add 1)) Debug [1]).
  - apply reach_send; [exact (reach_start _ _ demo_type empty_disk ∅)|reflexivity].
  - apply (nsteps_l _ 0 _ demo_key_done _); [|apply nsteps_O]. exists demo_key_call. split; [apply rtc_refl|].
    exact (step_worker _ _ demo_draws (GenerateKey None 1) [] demo_key_call demo_key_done eq_refl eq_refl).
  - vm_compute. discriminate.
Defined.

Lemma call_alone_witness :
  drain (map (Z.add 1)) Debug demo_draws 6 (send (Open demo_config demo_credentials 2) demo_created) =
  (fun '(s, a) => mkProcess s ∅ ∅ [] [] (answers demo_created ++ [(2, a)])%list) <$>
    in_order (map (Z.add 1)) Debug demo_draws (Open demo_config demo_credentials 2) (wallet_service demo_created).
Proof.
  apply (call_alone (map (Z.add 1)) Debug demo_draws [1]).
  - apply demo_run_reachable; [|vm_compute; reflexivity].
    apply reach_send; [exact (reach_start _ _ demo_type empty_disk ∅)|reflexivity].
  - vm_compute. discriminate.
  - apply nil_length_inv. vm_compute. reflexivity.
  - apply nil_length_inv. vm_compute. reflexivity.
  - reflexivity.
Defined.
