(* ===== verification/Trie.v ===== *)
(** * Patricia Merkle trie of state proofs

    [libindy/src/services/pool/state_proof/node.rs].  [RlpItem] is the view the [rlp]
    crate gives of encoded bytes; the byte encoding itself and SHA3-256 are outside
    the repository and enter as the parameters [rlp_list] and [get_hash].

    Recursion through the node database is bounded by the stack: [fuel] is the
    number of frames left, and running out of it aborts the process like a panic.
    [Stored] is the abstract content of a trie; the lookups are proved against it. *)

From stdpp Require Import base list strings numbers gmap.
From Stdlib Require Import ZArith Lia.
From S2P Require Import Prelude.

(** ** Data *)
Inductive Node :=
  | Leaf (path value : bytes)
  | Extension (path : bytes) (next : Node)
  | Full (nodes : list (option Node)) (value : option bytes)
  | Hash (hash : bytes)
  | Blank.

Definition RADIX : nat := 16.
Definition FULL_SIZE : nat := RADIX + 1.
Definition PAIR_SIZE : nat := 2.
Definition HASH_SIZE : nat := 32.
Definition IS_LEAF_MASK : Z := 32.
Definition IS_PATH_ODD_MASK : Z := 16.

(** Encoded items: data, lists, and items whose header the crate rejects. *)
Inductive RlpItem :=
  | Data (b : bytes)
  | RList (l : list RlpItem)
  | Malformed.

Inductive RlpDecoderError :=
  | RlpMalformed
  | RlpExpectedToBeData
  | Custom (msg : string).

Inductive decoded (A : Type) :=
  | DOk (a : A)
  | DErr (e : RlpDecoderError)
  | DPanic.
Arguments DOk {A} _.
Arguments DErr {A} _.
Arguments DPanic {A}.

Definition dbind {A B} (m : decoded A) (k : A -> decoded B) : decoded B :=
  match m with DOk a => k a | DErr e => DErr e | DPanic => DPanic end.

(** [as_val::<Vec<u8>>]. *)
Definition as_bytes_val (i : RlpItem) : decoded bytes :=
  match i with Data b => DOk b | RList _ => DErr RlpExpectedToBeData | Malformed => DErr RlpMalformed end.

(** [UntrustedRlp::is_empty]: empty data or an empty list. *)
Definition rlp_is_empty (i : RlpItem) : bool :=
  match i with Data [] => true | RList [] => true | _ => false end.

(** [rlp_append]. *)
Fixpoint encode (n : Node) : RlpItem :=
  match n with
  | Hash hash => Data hash
  | Leaf path value => RList [Data path; Data value]
  | Extension path next => RList [Data path; encode next]
  | Full nodes value =>
      RList ((fix go l := match l with
               | [] => []
               | Some node :: l' => encode node :: go l'
               | None :: l' => Data [] :: go l'
               end) nodes ++ [Data (default [] value)])
  | Blank => Data []
  end.

(** The end of the [FULL_SIZE] branch: item 16 is the value. *)
Definition decode_value (nodes : list (option Node)) (item : RlpItem) : decoded Node :=
  if rlp_is_empty item then DOk (Full nodes None)
  else dbind (as_bytes_val item) (fun v => DOk (Full nodes (Some v))).

(** The loop of the [FULL_SIZE] branch over the children, [k] of them left. *)
Definition decode_children (decode : RlpItem -> decoded Node) :=
  fix go (k : nat) (l : list RlpItem) (nodes : list (option Node)) {struct l} : decoded Node :=
    match k, l with
    | S k', cur :: l' =>
        match cur with
        | Malformed => DErr RlpMalformed
        | Data [] => go k' l' (nodes ++ [None])
        | _ => dbind (decode cur) (fun n => go k' l' (nodes ++ [Some n]))
        end
    | _, item :: _ => decode_value nodes item
    | _, [] => DErr RlpMalformed
    end.

(** [decode]. *)
Fixpoint decode (rlp : RlpItem) : decoded Node :=
  match rlp with
  | RList [item0; item1] =>
      dbind (as_bytes_val item0) (fun path =>
        match path with
        | [] => DPanic
        | flags :: _ =>
            if (Z.land flags IS_LEAF_MASK =? IS_LEAF_MASK)%Z
            then dbind (as_bytes_val item1) (fun value => DOk (Leaf path value))
            else if (Z.land flags IS_LEAF_MASK =? 0)%Z
            then dbind (decode item1) (fun next => DOk (Extension path next))
            else DErr (Custom "Path contains incorrect flags byte")
        end)
  | RList l =>
      if length l =? FULL_SIZE then decode_children decode RADIX l []
      else DErr (Custom "Unexpected data")
  | Data b =>
      if length b =? HASH_SIZE then DOk (Hash b)
      else if length b =? 0 then DOk Blank
      else DErr (Custom "Unexpected data")
  | Malformed => DErr RlpMalformed
  end.

(** ** Paths *)

(** [path_to_nibbles]. *)
Definition path_to_nibbles (path : bytes) : list Z :=
  flat_map (fun s => [Z.shiftr s 4; Z.land s 15]) path.

(** [parse_path]. *)
Definition parse_path (path : bytes) : outcome (bool * list Z) :=
  match path with
  | [] => Panic
  | flags :: rest =>
      let is_leaf := (Z.land flags IS_LEAF_MASK =? IS_LEAF_MASK)%Z in
      let is_odd := (Z.land flags IS_PATH_ODD_MASK =? IS_PATH_ODD_MASK)%Z in
      let nibbles := path_to_nibbles rest in
      Ok (is_leaf, if is_odd then Z.land flags 15 :: nibbles else nibbles)
  end.

Definition malformed_utf8 : IndyError :=
  err_msg InvalidStructure "Patricia Merkle Trie contains malformed utf8 string".

(** The loop of [_nibbles_to_str]: [nibbles[x+1]] panics on an odd length; the shift
    drops the high bits, the [u8] sum cannot overflow for nibbles. *)
Fixpoint join_nibbles (nibbles : list Z) : outcome bytes :=
  match nibbles with
  | [] => Ok []
  | [_] => Panic
  | h :: l :: rest =>
      let b := (Z.shiftl h 4 mod 256 + l)%Z in
      if (b <? 256)%Z then let? bs := join_nibbles rest in Ok (b :: bs) else Panic
  end.

(** [_nibbles_to_str]. *)
Definition nibbles_to_str (nibbles : list Z) : outcome string :=
  let? res := join_nibbles nibbles in
  match from_utf8 res with Some s => Ok s | None => Err malformed_utf8 end.

(** [slice::starts_with]. *)
Definition starts_with (l p : list Z) : bool := bool_decide (take (length p) l = p).

(** ** Traversal *)
Abbreviation TrieDB := (gmap (list Z) Node).

Definition leaf_flag_error : IndyError :=
  err_msg InvalidState "Incorrect Patricia Merkle Trie: node marked as leaf but path contains extension flag".
Definition extension_flag_error : IndyError :=
  err_msg InvalidState "Incorrect Patricia Merkle Trie: node marked as extension but path contains leaf flag".
Definition incomplete_db_error : IndyError :=
  err_msg InvalidStructure "Incomplete key-value DB for Patricia Merkle Trie to get value by the key".
Definition empty_hash_error : IndyError :=
  err_msg InvalidState "Incorrect Patricia Merkle Trie: empty hash node when it should not be empty".
Definition value_format_error : IndyError :=
  err_msg InvalidStructure "Unexpected data format of value in Patricia Merkle Trie".

(** [NodeHash::from_slice] asserts the length. *)
Definition node_hash (hash : bytes) : outcome bytes :=
  if length hash =? HASH_SIZE then Ok hash else Panic.

(** [_get_node]. *)
Fixpoint _get_node (fuel : nat) (db : TrieDB) (self : Node) (path seen_path : list Z)
  : outcome (option (Node * list Z)) :=
  match fuel with
  | 0 => Panic
  | S fuel' =>
      match self with
      | Full nodes _ =>
          match path with
          | [] => Ok (Some (self, seen_path))
          | x :: path' =>
              match nodes !! Z.to_nat x with
              | Some (Some next) => _get_node fuel' db next path' (seen_path ++ [x])
              | Some None => Ok None
              | None => Panic
              end
          end
      | Hash hash =>
          let? hash := node_hash hash in
          match db !! hash with
          | Some next => _get_node fuel' db next path seen_path
          | None => Err incomplete_db_error
          end
      | Leaf p _ =>
          let? (is_leaf, pair_path) := parse_path p in
          if negb is_leaf then Err leaf_flag_error
          else if starts_with pair_path path then Ok (Some (self, seen_path))
          else Ok None
      | Extension p next =>
          let? (is_leaf, pair_path) := parse_path p in
          if is_leaf then Err extension_flag_error
          else if starts_with path pair_path
          then _get_node fuel' db next (drop (length pair_path) path) (seen_path ++ pair_path)
          else if starts_with pair_path path then Ok (Some (self, seen_path))
          else Ok None
      | Blank => Ok None
      end
  end.

(** [get_node]. *)
Definition get_node (fuel : nat) (db : TrieDB) (self : Node) (path : bytes)
  : outcome (option (Node * list Z)) :=
  _get_node fuel db self (path_to_nibbles path) [].

(** The match of [_get_value] on the node found. *)
Definition found_value (found : option (Node * list Z)) : outcome (option bytes) :=
  match found with
  | Some (Full _ value, _) => Ok value
  | Some (Hash _, _) => Ok None
  | Some (Leaf p value, _) =>
      let? (is_leaf, _) := parse_path p in
      if negb is_leaf then Err leaf_flag_error else Ok (Some value)
  | Some (Extension _ _, _) => Ok None
  | Some (Blank, _) => Ok None
  | None => Ok None
  end.

(** [_get_value]. *)
Definition _get_value (fuel : nat) (db : TrieDB) (self : Node) (path : list Z)
  : outcome (option bytes) :=
  let? found := _get_node fuel db self path [] in found_value found.

(** The loop over the children in [_get_all_values]. *)
Definition collect_children {A} (visit : Node -> list Z -> outcome (list A)) (prefix : list Z) :=
  fix go (nibble : nat) (nodes : list (option Node)) (res : list A) : outcome (list A) :=
    match nodes with
    | [] => Ok res
    | None :: nodes' => go (S nibble) nodes' res
    | Some next :: nodes' =>
        let? sub_res := visit next (prefix ++ [Z.of_nat nibble]) in
        go (S nibble) nodes' (res ++ sub_res)
    end.

Section Values.
(** [UntrustedRlp::new(v).as_list::<Vec<u8>>().unwrap_or_default()]. *)
Context (rlp_list : bytes -> list bytes).

(** The single element of the list, as the pops of the code find it. *)
Definition single_value (v : bytes) : option bytes :=
  match rlp_list v with [val] => Some val | _ => None end.

(** [get_value]. *)
Definition get_value (fuel : nat) (db : TrieDB) (self : Node) (path : bytes)
  : outcome (option bytes) :=
  let? found := _get_value fuel db self (path_to_nibbles path) in
  match found with
  | Some v =>
      match single_value v with
      | Some val => Ok (Some val)
      | None => Err value_format_error
      end
  | None => Ok None
  end.

(** [get_str_value]. *)
Definition get_str_value (fuel : nat) (db : TrieDB) (self : Node) (path : bytes)
  : outcome (option string) :=
  let? value := get_value fuel db self path in
  match value with
  | Some vec =>
      match from_utf8 vec with Some s => Ok (Some s) | None => Err malformed_utf8 end
  | None => Ok None
  end.

Definition utf8_value (val : bytes) : outcome string :=
  match from_utf8 val with Some s => Ok s | None => Err malformed_utf8 end.

(** [_get_all_values]. *)
Fixpoint _get_all_values (fuel : nat) (db : TrieDB) (self : Node) (prefix : list Z)
  : outcome (list (list Z * string)) :=
  match fuel with
  | 0 => Panic
  | S fuel' =>
      match self with
      | Full nodes value =>
          let? res := collect_children (_get_all_values fuel' db) prefix 0 nodes [] in
          match value with
          | Some v =>
              match single_value v with
              | Some val => let? s := utf8_value val in Ok (res ++ [(prefix, s)])
              | None => Ok res
              end
          | None => Ok res
          end
      | Hash hash =>
          let? hash := node_hash hash in
          match db !! hash with
          | Some next => _get_all_values fuel' db next prefix
          | None => Err empty_hash_error
          end
      | Leaf p v =>
          let? (is_leaf, pair_path) := parse_path p in
          if negb is_leaf then Err leaf_flag_error
          else match single_value v with
               | Some val => let? s := utf8_value val in Ok [(prefix ++ pair_path, s)]
               | None => Err value_format_error
               end
      | Extension p next =>
          let? (is_leaf, pair_path) := parse_path p in
          if is_leaf then Err extension_flag_error
          else _get_all_values fuel' db next (prefix ++ pair_path)
      | Blank => Ok []
      end
  end.

(** [get_all_values]. *)
Definition get_all_values (fuel : nat) (db : TrieDB) (self : Node) (prefix : option bytes)
  : outcome (list (string * string)) :=
  let? node_and_prefix :=
    match prefix with
    | Some prf => get_node fuel db self prf
    | None => Ok (Some (self, []))
    end in
  match node_and_prefix with
  | Some (node, prf) =>
      let? vals := _get_all_values fuel db node prf in
      omapM (fun kv => let? k := nibbles_to_str kv.1 in Ok (k, kv.2)) vals
  | None => Ok []
  end.
End Values.

(** ** Content of a trie

    The values a trie holds, by nibble path: the specification of the lookups. *)
Inductive Stored (db : TrieDB) : Node -> list Z -> bytes -> Prop :=
  | stored_leaf p v np :
      parse_path p = Ok (true, np) -> Stored db (Leaf p v) np v
  | stored_extension p next np q v :
      parse_path p = Ok (false, np) -> Stored db next q v -> Stored db (Extension p next) (np ++ q) v
  | stored_value nodes v : Stored db (Full nodes (Some v)) [] v
  | stored_child nodes value x c q v :
      (0 <= x)%Z -> nodes !! Z.to_nat x = Some (Some c) -> Stored db c q v ->
      Stored db (Full nodes value) (x :: q) v
  | stored_hash h n q v :
      length h = HASH_SIZE -> db !! h = Some n -> Stored db n q v -> Stored db (Hash h) q v.

Lemma starts_with_app l s : starts_with (l ++ s) l = true.
Proof. unfold starts_with. by rewrite take_app_length, bool_decide_eq_true_2. Qed.

Lemma starts_with_true l p : starts_with l p = true <-> exists s, l = p ++ s.
Proof.
  split; [|intros [s ->]; apply starts_with_app].
  unfold starts_with. intros E%bool_decide_eq_true. exists (drop (length p) l).
  rewrite <-E at 1. by rewrite take_drop.
Qed.

(** A result other than a panic does not depend on the fuel. *)
Lemma get_node_more_fuel fuel k db n path seen r :
  _get_node fuel db n path seen = r -> r <> Panic -> _get_node (fuel + k) db n path seen = r.
Proof.
  revert n path seen. induction fuel as [|fuel IH]; intros n path seen Hr Hp; [by subst|].
  cbn [Nat.add _get_node] in *. destruct n as [p v|p next|nodes v|h|]; try done.
  - destruct (parse_path p) as [[il pp]| |]; cbn [obind] in *; try done.
    repeat (break_match_goal; try done); by apply IH.
  - destruct path as [|x path]; [done|]. repeat (break_match_goal; try done); by apply IH.
  - destruct (node_hash h); cbn [obind] in *; try done.
    repeat (break_match_goal; try done); by apply IH.
Qed.

Lemma get_value_more_fuel fuel fuel' db n path r :
  fuel <= fuel' -> _get_value fuel db n path = r -> r <> Panic -> _get_value fuel' db n path = r.
Proof.
  unfold _get_value. intros Hle Hr Hp. replace fuel' with (fuel + (fuel' - fuel)) by lia.
  destruct (_get_node fuel db n path []) as [o| |] eqn:E; cbn [obind] in Hr; [| |by subst];
    by rewrite (get_node_more_fuel _ _ _ _ _ _ _ E).
Qed.

(** ** The lookup finds what is stored *)
Lemma get_node_complete db n path v :
  Stored db n path v ->
  exists fuel, forall seen, exists m seen',
    _get_node fuel db n path seen = Ok (Some (m, seen')) /\ found_value (Some (m, seen')) = Ok (Some v).
Proof.
  induction 1 as [p v np Hp|p next np q v Hp _ [f IH]|nodes v|nodes value x c q v Hx Hc _ [f IH]
                 |h n q v Hl Hh _ [f IH]].
  - exists 1. intros seen. exists (Leaf p v), seen. cbn [_get_node found_value].
    rewrite Hp. cbn [obind negb]. rewrite <-(app_nil_r np) at 1. by rewrite starts_with_app.
  - exists (S f). intros seen. destruct (IH (seen ++ np)) as (m & seen' & E & Hv).
    exists m, seen'. split; [|done]. cbn [_get_node]. rewrite Hp. cbn [obind].
    by rewrite starts_with_app, drop_app_length.
  - exists 1. intros seen. by exists (Full nodes (Some v)), seen.
  - exists (S f). intros seen. destruct (IH (seen ++ [x])) as (m & seen' & E & Hv).
    exists m, seen'. split; [|done]. cbn [_get_node]. by rewrite Hc.
  - exists (S f). intros seen. destruct (IH seen) as (m & seen' & E & Hv).
    exists m, seen'. split; [|done]. cbn [_get_node]. unfold node_hash. rewrite Hl. cbn [obind Nat.eqb HASH_SIZE].
    by rewrite Hh.
Qed.

Lemma get_value_complete db n path v :
  Stored db n path v ->
  exists fuel0, forall fuel, fuel0 <= fuel -> _get_value fuel db n path = Ok (Some v).
Proof.
  intros [fuel0 Hf]%get_node_complete. exists fuel0. intros fuel Hle.
  apply (get_value_more_fuel fuel0 fuel); [done| |done].
  destruct (Hf []) as (m & seen' & E & Hv). unfold _get_value. by rewrite E.
Qed.

Lemma get_node_sound fuel db n path seen m seen' v :
  Forall (fun x => 0 <= x)%Z path ->
  _get_node fuel db n path seen = Ok (Some (m, seen')) -> found_value (Some (m, seen')) = Ok (Some v) ->
  exists s, Stored db n (path ++ s) v.
Proof.
  revert n path seen. induction fuel as [|fuel IH]; intros n path seen Hn Hg Hv; [done|].
  cbn [_get_node] in Hg. destruct n as [p val|p next|nodes val|h|]; try done.
  - destruct (parse_path p) as [[il pp]| |] eqn:Ep; cbn [obind] in Hg; try done.
    destruct il; [|done]. cbn [negb] in Hg.
    destruct (starts_with pp path) eqn:Es; [|done]. injection Hg as <- <-.
    cbn [found_value] in Hv. rewrite Ep in Hv. injection Hv as ->.
    apply starts_with_true in Es as [s ->]. exists s. by constructor.
  - destruct (parse_path p) as [[il pp]| |] eqn:Ep; cbn [obind] in Hg; try done.
    destruct il; [done|]. destruct (starts_with path pp) eqn:Es.
    + apply starts_with_true in Es as [q ->]. rewrite drop_app_length in Hg.
      apply Forall_app in Hn as [_ Hn]. destruct (IH _ _ _ Hn Hg Hv) as [s Hs].
      exists s. rewrite <-app_assoc. by constructor.
    + destruct (starts_with pp path); [|done]. by injection Hg as <- <-.
  - destruct path as [|x path].
    + injection Hg as <- <-. injection Hv as ->. exists []. constructor.
    + destruct (nodes !! Z.to_nat x) as [[c|]|] eqn:Ec; try done.
      inversion Hn as [|? ? Hx Hn']; subst. destruct (IH _ _ _ Hn' Hg Hv) as [s Hs].
      exists s. by econstructor.
  - unfold node_hash in Hg. destruct (length h =? HASH_SIZE) eqn:El; [|done]. cbn [obind] in Hg.
    apply Nat.eqb_eq in El. destruct (db !! h) as [c|] eqn:Ec; [|done].
    destruct (IH _ _ _ Hn Hg Hv) as [s Hs]. exists s. by econstructor.
Qed.

Lemma get_value_sound fuel db n path v :
  Forall (fun x => 0 <= x)%Z path -> _get_value fuel db n path = Ok (Some v) ->
  exists s, Stored db n (path ++ s) v.
Proof.
  unfold _get_value. intros Hp Hv.
  destruct (_get_node fuel db n path []) as [[[m seen']|]| |] eqn:E; try done.
  by eapply get_node_sound.
Qed.

Lemma get_value_none fuel db n path v :
  _get_value fuel db n path = Ok None -> ~ Stored db n path v.
Proof.
  intros H0 [f1 H1]%get_value_complete. specialize (H1 (fuel + f1) ltac:(lia)).
  rewrite (get_value_more_fuel fuel (fuel + f1) _ _ _ _ ltac:(lia) H0) in H1; done.
Qed.

Lemma stored_unique db n path v v' : Stored db n path v -> Stored db n path v' -> v = v'.
Proof.
  intros [f H]%get_value_complete [f' H']%get_value_complete.
  specialize (H (f + f') ltac:(lia)). specialize (H' (f + f') ltac:(lia)). congruence.
Qed.

(** ** The enumeration *)
Lemma collect_children_spec {A} (visit : Node -> list Z -> outcome (list A)) prefix k nodes res out :
  collect_children visit prefix k nodes res = Ok out ->
  forall x, x ∈ out <-> x ∈ res \/ exists i c sub, nodes !! i = Some (Some c) /\
    visit c (prefix ++ [Z.of_nat (k + i)]) = Ok sub /\ x ∈ sub.
Proof.
  revert k res. induction nodes as [|[c|] nodes IH]; intros k res; cbn [collect_children].
  - intros [= ->] x. split; [by left|]. by intros [?|(i & c & sub & ? & _)].
  - destruct (visit c (prefix ++ [Z.of_nat k])) as [sub| |] eqn:Ev; cbn [obind]; try done.
    intros H x. rewrite (IH _ _ H), elem_of_app. split.
    + intros [[Hr|Hs]|(i & c' & sub' & Hi & Hv & Hx)]; [by left|right|right].
      * exists 0, c, sub. by rewrite Nat.add_0_r.
      * exists (S i), c', sub'. by rewrite <-Nat.add_succ_comm.
    + intros [Hr|([|i] & c' & sub' & Hi & Hv & Hx)]; [by left; left| |right].
      * injection Hi as <-. rewrite Nat.add_0_r, Ev in Hv. injection Hv as <-. by left; right.
      * exists i, c', sub'. by rewrite Nat.add_succ_comm.
  - intros H x. rewrite (IH _ _ H). split.
    + intros [Hr|(i & c' & sub' & Hi & Hv & Hx)]; [by left|right].
      exists (S i), c', sub'. by rewrite <-Nat.add_succ_comm.
    + intros [Hr|([|i] & c' & sub' & Hi & Hv & Hx)]; [by left|done|right].
      exists i, c', sub'. by rewrite Nat.add_succ_comm.
Qed.

(** A loop that ends has visited every child. *)
Lemma collect_children_visited {A} (visit : Node -> list Z -> outcome (list A)) prefix k nodes res out i c :
  collect_children visit prefix k nodes res = Ok out -> nodes !! i = Some (Some c) ->
  exists sub, visit c (prefix ++ [Z.of_nat (k + i)]) = Ok sub.
Proof.
  revert k res i. induction nodes as [|[c'|] nodes IH]; intros k res i; cbn [collect_children]; [done| |].
  - destruct (visit c' _) as [sub| |] eqn:Ev; cbn [obind]; try done. intros H.
    destruct i as [|i]; [intros [= <-]; exists sub; by rewrite Nat.add_0_r|].
    intros Hi. rewrite <-Nat.add_succ_comm. by apply (IH _ _ _ H).
  - intros H. destruct i as [|i]; [done|]. intros Hi. rewrite <-Nat.add_succ_comm. by apply (IH _ _ _ H).
Qed.

Section Enumeration.
Context (rlp_list : bytes -> list bytes).

Definition listed (db : TrieDB) (n : Node) (prefix k : list Z) (s : string) : Prop :=
  exists q v val, k = prefix ++ q /\ Stored db n q v /\
    single_value rlp_list v = Some val /\ from_utf8 val = Some s.

Lemma listed_full_iff db nodes value prefix k s :
  listed db (Full nodes value) prefix k s <->
  (exists v val, value = Some v /\ k = prefix /\ single_value rlp_list v = Some val /\ from_utf8 val = Some s)
  \/ exists i c, nodes !! i = Some (Some c) /\ listed db c (prefix ++ [Z.of_nat i]) k s.
Proof.
  unfold listed. split.
  - intros (q & v & val & -> & Hs & Hv & Hu). inversion Hs; subst; [left|right].
    + exists v, val. by rewrite app_nil_r.
    + exists (Z.to_nat x), c. split; [done|]. exists q0, v, val.
      by rewrite <-app_assoc, Z2Nat.id.
  - intros [(v & val & -> & -> & Hv & Hu)|(i & c & Hi & q & v & val & -> & Hs & Hv & Hu)].
    + exists [], v, val. rewrite app_nil_r. repeat split; try done. constructor.
    + exists (Z.of_nat i :: q), v, val. rewrite <-app_assoc. repeat split; try done.
      econstructor; [lia|by rewrite Nat2Z.id|done].
Qed.

Lemma utf8_value_ok val s : utf8_value val = Ok s <-> from_utf8 val = Some s.
Proof. unfold utf8_value. destruct (from_utf8 val); naive_solver. Qed.

Lemma all_values_spec fuel db n prefix out :
  _get_all_values rlp_list fuel db n prefix = Ok out ->
  forall k s, (k, s) ∈ out <-> listed db n prefix k s.
Proof.
  revert n prefix out. induction fuel as [|fuel IH]; intros n prefix out H k s; [done|].
  cbn [_get_all_values] in H. destruct n as [p v|p next|nodes value|h|].
  - destruct (parse_path p) as [[il pp]| |] eqn:Ep; cbn [obind] in H; try done.
    destruct il; [|done]. cbn [negb] in H.
    destruct (single_value rlp_list v) as [val|] eqn:Ev; [|done].
    destruct (utf8_value val) as [t| |] eqn:Eu; cbn [obind] in H; try done. injection H as <-.
    apply utf8_value_ok in Eu. rewrite list_elem_of_singleton. split.
    + intros [= -> ->]. exists pp, v, val. repeat split; try done. by constructor.
    + intros (q & v' & val' & -> & Hs & Hv & Hu). inversion Hs; subst. congruence.
  - destruct (parse_path p) as [[il pp]| |] eqn:Ep; cbn [obind] in H; try done.
    destruct il; [done|]. rewrite (IH _ _ _ H). unfold listed. split.
    + intros (q & v & val & -> & Hs & Hv & Hu). exists (pp ++ q), v, val.
      rewrite <-app_assoc. repeat split; try done. by constructor.
    + intros (q & v & val & -> & Hs & Hv & Hu). inversion Hs; subst.
      exists q0, v, val. rewrite <-app_assoc. repeat split; try done. congruence.
  - destruct (collect_children _ prefix 0 nodes []) as [res| |] eqn:Ec; cbn [obind] in H; try done.
    assert (Hch : forall k s, (k, s) ∈ res <->
              exists i c, nodes !! i = Some (Some c) /\ listed db c (prefix ++ [Z.of_nat i]) k s).
    { intros k' s'. rewrite (collect_children_spec _ _ _ _ _ _ Ec). split.
      - intros [[]%not_elem_of_nil|(i & c & sub & Hi & Hv & Hx)].
        exists i, c. split; [done|]. by apply (IH _ _ _ Hv).
      - intros (i & c & Hi & Hl). right.
        destruct (collect_children_visited _ _ _ _ _ _ _ _ Ec Hi) as [sub Hv].
        exists i, c, sub. split; [done|]. split; [done|]. by apply (IH _ _ _ Hv). }
    rewrite listed_full_iff, <-Hch.
    destruct value as [v|]; [destruct (single_value rlp_list v) as [val|] eqn:Ev|].
    + destruct (utf8_value val) as [t| |] eqn:Eu; cbn [obind] in H; try done. injection H as <-.
      apply utf8_value_ok in Eu. rewrite elem_of_app, list_elem_of_singleton. split.
      * intros [Hr|[= -> ->]]; [by right|left]. by exists v, val.
      * intros [(v' & val' & [= <-] & -> & Hv & Hu)|Hr]; [right|by left]. congruence.
    + injection H as <-. split; [by right|]. intros [(v' & val' & [= <-] & -> & Hv & Hu)|Hr]; congruence.
    + injection H as <-. split; [by right|]. by intros [(v' & val' & ? & _)|Hr].
  - unfold node_hash in H. destruct (length h =? HASH_SIZE) eqn:El; [|done]. cbn [obind] in H.
    apply Nat.eqb_eq in El. destruct (db !! h) as [c|] eqn:Ed; [|done]. rewrite (IH _ _ _ H).
    unfold listed. split; intros (q & v & val & -> & Hs & Hv & Hu); exists q, v, val;
      repeat split; try done; [by econstructor|]. inversion Hs; subst. by simplify_eq.
  - injection H as <-. split; [by intros []%not_elem_of_nil|].
    intros (q & v & val & _ & Hs & _). inversion Hs.
Qed.
End Enumeration.

(** ** Nibbles and path flags *)
Definition is_nibble (x : Z) : Prop := (0 <= x < 16)%Z.

Lemma shiftr_4 b : Z.shiftr b 4 = (b / 16)%Z.
Proof. by rewrite Z.shiftr_div_pow2. Qed.
Lemma land_15 b : Z.land b 15 = (b mod 16)%Z.
Proof. change 15%Z with (Z.ones 4). by rewrite Z.land_ones. Qed.

Lemma path_to_nibbles_range path :
  Forall is_byte path -> Forall is_nibble (path_to_nibbles path).
Proof.
  induction 1 as [|b l Hb _ IH]; cbn; [done|]. unfold is_byte, is_nibble in *.
  rewrite shiftr_4, land_15. repeat constructor; try apply IH;
    try (apply Z.mod_pos_bound; lia); [apply Z.div_pos; lia|apply Z.div_lt_upper_bound; lia].
Qed.

Lemma path_to_nibbles_nonneg path :
  Forall is_byte path -> Forall (fun x => 0 <= x)%Z (path_to_nibbles path).
Proof. intros H%path_to_nibbles_range. eapply Forall_impl; [done|]. unfold is_nibble. lia. Qed.

Lemma join_path_to_nibbles path :
  Forall is_byte path -> join_nibbles (path_to_nibbles path) = Ok path.
Proof.
  induction 1 as [|b l Hb _ IH]; [done|].
  change (path_to_nibbles (b :: l)) with (Z.shiftr b 4 :: Z.land b 15 :: path_to_nibbles l).
  cbn [join_nibbles]. rewrite IH, shiftr_4, land_15, Z.shiftl_mul_pow2 by lia. unfold is_byte in Hb.
  change (2 ^ 4)%Z with 16%Z.
  rewrite (Z.mod_small (b / 16 * 16)) by (split; [apply Z.mul_nonneg_nonneg; [apply Z.div_pos|]|
    pose proof (Z.mul_div_le b 16)]; lia).
  replace (b / 16 * 16 + b mod 16)%Z with b by (rewrite (Z.div_mod b 16) at 1; lia).
  by rewrite (proj2 (Z.ltb_lt _ _)) by lia.
Qed.

(** The hex-prefix encoding that [parse_path] reads. *)
Fixpoint pack_nibbles (l : list Z) : bytes :=
  match l with
  | h :: l :: rest => (16 * h + l)%Z :: pack_nibbles rest
  | _ => []
  end.
Definition hex_prefix (is_leaf : bool) (nibbles : list Z) : bytes :=
  let flag := (if is_leaf then 32 else 0)%Z in
  if Nat.even (length nibbles) then flag :: pack_nibbles nibbles
  else match nibbles with
       | x :: rest => (flag + 16 + x)%Z :: pack_nibbles rest
       | [] => []
       end.

Lemma list_ind_two {A} (P : list A -> Prop) :
  P [] -> (forall x, P [x]) -> (forall x y l, P l -> P (x :: y :: l)) -> forall l, P l.
Proof. intros H0 H1 H2. fix go 1. intros [|x [|y l]]; [done|done|apply H2, go]. Qed.

Lemma path_to_nibbles_pack l :
  Forall is_nibble l -> Nat.even (length l) = true -> path_to_nibbles (pack_nibbles l) = l.
Proof.
  induction l as [|h|h x l IH] using list_ind_two; [done|done|]. intros Hl He.
  inversion Hl as [|? ? Hh Hl1]; subst. inversion Hl1 as [|? ? Hx Hl2]; subst.
  change (pack_nibbles (h :: x :: l)) with ((16 * h + x)%Z :: pack_nibbles l).
  change (path_to_nibbles ((16 * h + x)%Z :: pack_nibbles l))
    with (Z.shiftr (16 * h + x) 4 :: Z.land (16 * h + x) 15 :: path_to_nibbles (pack_nibbles l)).
  rewrite (IH Hl2 He), shiftr_4, land_15. unfold is_nibble in *.
  f_equal; [|f_equal].
  - rewrite Z.mul_comm, Z.div_add_l by lia. rewrite Z.div_small; lia.
  - rewrite Z.add_comm, Z.mul_comm, Z_mod_plus_full. apply Z.mod_small. lia.
Qed.

Lemma nibble_cases (P : Z -> Prop) x :
  Forall P [0;1;2;3;4;5;6;7;8;9;10;11;12;13;14;15]%Z -> is_nibble x -> P x.
Proof.
  intros HP Hx. unfold is_nibble in Hx. rewrite Forall_forall in HP. apply HP.
  rewrite !elem_of_cons. lia.
Qed.

Lemma parse_hex_prefix is_leaf l :
  Forall is_nibble l -> parse_path (hex_prefix is_leaf l) = Ok (is_leaf, l).
Proof.
  intros Hl. unfold hex_prefix. destruct (Nat.even (length l)) eqn:He.
  - unfold parse_path. rewrite path_to_nibbles_pack by done. by destruct is_leaf.
  - destruct l as [|x l]; [done|]. inversion Hl as [|? ? Hx Hl']; subst.
    unfold parse_path. rewrite path_to_nibbles_pack; [|done|].
    + pattern x. apply nibble_cases; [|exact Hx]. destruct is_leaf; repeat constructor.
    + rewrite <-Nat.negb_odd. cbn [length] in He. rewrite Nat.even_succ in He. by rewrite He.
Qed.

(** ** Encoding and decoding nodes *)
Section NodeInd.
Context (P : Node -> Prop).
Context (PLeaf : forall p v, P (Leaf p v)) (PExt : forall p n, P n -> P (Extension p n)).
Context (PFull : forall nodes v, Forall (fun o => match o with Some n => P n | None => True end) nodes ->
           P (Full nodes v)).
Context (PHash : forall h, P (Hash h)) (PBlank : P Blank).

Fixpoint Node_nested_ind (n : Node) : P n :=
  match n with
  | Leaf p v => PLeaf p v
  | Extension p next => PExt p next (Node_nested_ind next)
  | Full nodes v =>
      PFull nodes v
        ((fix go l : Forall (fun o => match o with Some n => P n | None => True end) l :=
            match l with
            | [] => Forall_nil_2 _
            | o :: l' =>
                Forall_cons_2 _ o l'
                  (match o return match o with Some n => P n | None => True end with
                   | Some n => Node_nested_ind n
                   | None => I
                   end) (go l')
            end) nodes)
  | Hash h => PHash h
  | Blank => PBlank
  end.
End NodeInd.

Definition leaf_flag (p : bytes) : bool :=
  match p with b :: _ => (Z.land b IS_LEAF_MASK =? IS_LEAF_MASK)%Z | [] => false end.
Definition extension_flag (p : bytes) : bool :=
  match p with b :: _ => (Z.land b IS_LEAF_MASK =? 0)%Z | [] => false end.

(** Nodes with an unambiguous encoding: flags that fit the constructor, 16 children
    none of which is blank, no empty value in a full node, hashes of 32 bytes. *)
Fixpoint node_ok (n : Node) : bool :=
  match n with
  | Leaf p _ => leaf_flag p
  | Extension p next => extension_flag p && node_ok next
  | Full nodes value =>
      (length nodes =? RADIX) &&
      forallb (fun o => match o with
                        | Some Blank => false
                        | Some n => node_ok n
                        | None => true
                        end) nodes &&
      match value with Some [] => false | _ => true end
  | Hash h => length h =? HASH_SIZE
  | Blank => true
  end.

Fixpoint encode_children (nodes : list (option Node)) : list RlpItem :=
  match nodes with
  | [] => []
  | Some node :: l' => encode node :: encode_children l'
  | None :: l' => Data [] :: encode_children l'
  end.

Lemma encode_full nodes value :
  encode (Full nodes value) = RList (encode_children nodes ++ [Data (default [] value)]).
Proof.
  reflexivity.
Qed.

Lemma encode_children_length nodes : length (encode_children nodes) = length nodes.
Proof. induction nodes as [|[n|] nodes IH]; cbn; auto. Qed.

Lemma decode_full_list l :
  length l = FULL_SIZE -> decode (RList l) = decode_children decode RADIX l [].
Proof.
  intros Hl. destruct l as [|x [|y [|z l]]]; try done.
  change (decode (RList (x :: y :: z :: l)))
    with (if length (x :: y :: z :: l) =? FULL_SIZE
          then decode_children decode RADIX (x :: y :: z :: l) []
          else DErr (Custom "Unexpected data")).
  by rewrite Hl.
Qed.

Lemma encode_child n : n <> Blank -> node_ok n = true -> encode n <> Data [] /\ encode n <> Malformed.
Proof. destruct n as [| | |h|]; try done. cbn. intros _ H. destruct h; done. Qed.

Lemma decode_children_encoded nodes value k acc :
  Forall (fun o => match o with
                   | Some n => n <> Blank /\ node_ok n = true /\ decode (encode n) = DOk n
                   | None => True
                   end) nodes ->
  length nodes = k ->
  decode_children decode k (encode_children nodes ++ [Data value]) acc = decode_value (acc ++ nodes) (Data value).
Proof.
  intros Hn. revert k acc. induction Hn as [|[n|] nodes Hn _ IH]; intros k acc <-.
  - cbn. by rewrite app_nil_r.
  - destruct Hn as (Hb & Hok & Hd). destruct (encode_child n Hb Hok) as [H1 H2].
    cbn [encode_children app length decode_children].
    destruct (encode n) as [[|b bs]|l|] eqn:Ee; try done; rewrite Hd; cbn [dbind];
      rewrite IH by done; by rewrite <-app_assoc.
  - cbn [encode_children app length decode_children]. rewrite IH by done. by rewrite <-app_assoc.
Qed.

Lemma decode_encode n : node_ok n = true -> decode (encode n) = DOk n.
Proof.
  induction n as [p v|p next IH|nodes value IH|h|] using Node_nested_ind; intros Hok.
  - destruct p as [|b p]; [done|]. cbn in Hok |- *. by rewrite Hok.
  - destruct p as [|b p]; [done|]. cbn [node_ok extension_flag] in Hok.
    apply andb_true_iff in Hok as [Hf Hok]. cbn [encode decode as_bytes_val dbind].
    rewrite (IH Hok), Hf. apply Z.eqb_eq in Hf. by rewrite Hf.
  - cbn [node_ok] in Hok. apply andb_true_iff in Hok as [[Hl Hc]%andb_true_iff Hv].
    apply Nat.eqb_eq in Hl. rewrite encode_full, decode_full_list
      by (rewrite length_app, encode_children_length, Hl; done).
    rewrite decode_children_encoded; [| |done].
    + cbn [app]. destruct value as [[|b v]|]; done.
    + rewrite forallb_forall in Hc. rewrite Forall_forall in IH |- *.
      intros o Ho. specialize (IH o Ho). specialize (Hc o ltac:(first [done|by apply list_elem_of_In])).
      destruct o as [n|]; [|done]. destruct n; try done; (split; [done|split; [done|by apply IH]]).
  - cbn in Hok |- *. by rewrite Hok.
  - done.
Qed.

(** ** Properties *)

(** Decoding an encoded node gives the node back, for every node whose flags fit
    its kind, with 16 non-blank children and non-empty values. *)
Theorem node_codec_roundtrip n : node_ok n = true -> decode (encode n) = DOk n.
Proof. apply decode_encode. Qed.

(** [parse_path] inverts the hex-prefix encoding, for odd and even lengths and
    both flags, and the nibbles of a UTF-8 key are turned back into the key. *)
Theorem path_roundtrip is_leaf l s :
  Forall is_nibble l -> rust_string s ->
  parse_path (hex_prefix is_leaf l) = Ok (is_leaf, l) /\
  nibbles_to_str (path_to_nibbles (as_bytes s)) = Ok s.
Proof.
  intros Hl Hs. split; [by apply parse_hex_prefix|].
  unfold nibbles_to_str. rewrite join_path_to_nibbles by auto with indy. cbn [obind].
  by rewrite from_utf8_as_bytes.
Qed.

(** A stored value is found.  If the trie with this database stores [v] at the
    nibbles of [key], then with enough stack [get_value] returns the single RLP
    element of [v]; only the nodes on the way to the key need to be in the database. *)
Theorem get_value_finds_stored rlp_list db n key v val :
  Stored db n (path_to_nibbles key) v -> single_value rlp_list v = Some val ->
  exists fuel0, forall fuel, fuel0 <= fuel -> get_value rlp_list fuel db n key = Ok (Some val).
Proof.
  intros [fuel0 Hf]%get_value_complete Hv. exists fuel0. intros fuel Hle.
  unfold get_value. rewrite (Hf fuel Hle). cbn [obind]. by rewrite Hv.
Qed.

(** What [get_value] answers is right: a value is stored at a key that extends
    the one asked for, at the key itself if no stored key extends it strictly; and
    the answer "no value" means that nothing is stored at the key. *)
Theorem get_value_answers rlp_list fuel db n key r :
  Forall is_byte key -> get_value rlp_list fuel db n key = Ok r ->
  match r with
  | Some val => exists s v, Stored db n (path_to_nibbles key ++ s) v /\
      single_value rlp_list v = Some val /\
      ((forall s' v', s' <> [] -> ~ Stored db n (path_to_nibbles key ++ s') v') -> s = [])
  | None => forall v, ~ Stored db n (path_to_nibbles key) v
  end.
Proof.
  intros Hk. unfold get_value.
  destruct (_get_value fuel db n (path_to_nibbles key)) as [[v|]| |] eqn:E; cbn [obind]; try done.
  - destruct (single_value rlp_list v) as [val|] eqn:Ev; [|done]. intros [= <-].
    destruct (get_value_sound fuel db n _ v (path_to_nibbles_nonneg key Hk) E) as [s Hs].
    exists s, v. split; [done|]. split; [done|]. intros Hno.
    destruct s as [|x s]; [done|]. by destruct (Hno (x :: s) v).
  - intros [= <-] v. by apply (get_value_none fuel).
Qed.

(** [_get_all_values] lists exactly the stored values that are one RLP string,
    each under its full path. *)
Theorem get_all_values_exact rlp_list fuel db n prefix out :
  _get_all_values rlp_list fuel db n prefix = Ok out ->
  forall k s, (k, s) ∈ out <-> listed rlp_list db n prefix k s.
Proof. apply all_values_spec. Qed.

(** Two schemas of one issuer, versions 1.0 and 1.10, and their database. *)
Definition demo_rlp_list (v : bytes) : list bytes := [v].
Definition demo_key (s : string) : list Z := path_to_nibbles (as_bytes s).
Definition demo_node_hash : bytes := replicate 32 7%Z.
Definition demo_branch : Node :=
  Full (<[0 := Some (Leaf (hex_prefix true []) (as_bytes "old"))]>
         (<[1 := Some (Leaf (hex_prefix true (demo_key "0")) (as_bytes "new"))]> (replicate 16 None))) None.
Definition demo_root : Node := Extension (hex_prefix false (demo_key "s:1." ++ [3%Z])) (Hash demo_node_hash).
Definition demo_db : TrieDB := {[ demo_node_hash := demo_branch ]}.

(** The lookup accepts a strict prefix of a stored key: with "s:1.0" and
    "s:1.10" stored, asking for "s:1.1" answers the value of "s:1.10", though the
    trie stores nothing at "s:1.1". *)
Theorem get_value_accepts_strict_prefix :
  get_str_value demo_rlp_list 4 demo_db demo_root (as_bytes "s:1.1") = Ok (Some "new") /\
  forall v, ~ Stored demo_db demo_root (demo_key "s:1.1") v.
Proof.
  split; [vm_compute; reflexivity|]. intros v Hs.
  remember (demo_key "s:1.1") as k eqn:Ek. vm_compute in Ek.
  inversion Hs as [|p next np q v' Hp Hq| | |]; subst.
  vm_compute in Hp. injection Hp as <-. cbn [app] in *. simplify_eq.
  inversion Hq as [| | | |h n q' v' _ Hh Hn]; subst.
  vm_compute in Hh. injection Hh as <-.
  inversion Hn as [| | |nodes value x c q' v'' Hx Hc Hl|]; subst.
  vm_compute in Hc. injection Hc as <-. inversion Hl as [p v' np Hp| | | |]; subst.
  vm_compute in Hp. discriminate Hp.
Qed.

(** A two-item node with an empty path, which a peer can send, makes the decoder
    panic on [path[0]]. *)
Theorem decode_empty_path_panics item : decode (RList [Data []; item]) = DPanic.
Proof. reflexivity. Qed.

Lemma node_codec_roundtrip_witness : decode (encode demo_branch) = DOk demo_branch.
Proof. apply node_codec_roundtrip. reflexivity. Defined.

Lemma path_roundtrip_witness :
  parse_path (hex_prefix true [1; 2; 3]%Z) = Ok (true, [1; 2; 3]%Z) /\
  nibbles_to_str (path_to_nibbles (as_bytes "did:2:name")) = Ok "did:2:name"%string.
Proof. apply path_roundtrip; [repeat constructor; by unfold is_nibble|reflexivity]. Defined.

Lemma demo_stored : Stored demo_db demo_root (path_to_nibbles (as_bytes "s:1.10")) (as_bytes "new").
Proof.
  change (path_to_nibbles (as_bytes "s:1.10")) with ((demo_key "s:1." ++ [3%Z]) ++ (1%Z :: demo_key "0")).
  eapply stored_extension; [reflexivity|]. eapply stored_hash; [done|reflexivity|].
  eapply stored_child; [lia|reflexivity|]. by constructor.
Qed.

Lemma get_value_finds_stored_witness :
  exists fuel0, forall fuel, fuel0 <= fuel ->
    get_value demo_rlp_list fuel demo_db demo_root (as_bytes "s:1.10") = Ok (Some (as_bytes "new")).
Proof. eapply get_value_finds_stored; [apply demo_stored|reflexivity]. Defined.

Lemma get_value_answers_witness :
  get_value demo_rlp_list 3 demo_db demo_root (as_bytes "s:1.2") = Ok None /\
  forall v, ~ Stored demo_db demo_root (path_to_nibbles (as_bytes "s:1.2")) v.
Proof.
  split; [vm_compute; reflexivity|].
  apply (get_value_answers demo_rlp_list 3 demo_db demo_root (as_bytes "s:1.2") None);
    [apply as_bytes_range|vm_compute; reflexivity].
Defined.

Definition demo_values_listed : list (list Z * string) :=
  [(demo_key "s:1.0", "old"%string); (demo_key "s:1.10", "new"%string)].

Lemma get_all_values_exact_witness :
  _get_all_values demo_rlp_list 4 demo_db demo_root [] = Ok demo_values_listed /\
  forall k s, (k, s) ∈ demo_values_listed <-> listed demo_rlp_list demo_db demo_root [] k s.
Proof.
  split; [vm_compute; reflexivity|].
  apply (get_all_values_exact demo_rlp_list 4). vm_compute. reflexivity.
Defined.
