(* ===== verification/External.v ===== *)
(** * Third-party codecs and hashes used by the ledger client

    The crates [base64], [rust-base58], [serde_json], [rmp-serde], [hex], [rlp],
    [sha3] and [openssl] are outside the repository: [Codec] lists the functions the
    code calls, and the theorems that need a documented behaviour of them take it as
    a hypothesis.  [str::parse::<u64>] and [u64] arithmetic are the language's and are
    defined here. *)

From stdpp Require Import base list strings numbers gmap pretty.
From Stdlib Require Import ZArith Lia.
From S2P Require Import Prelude Json Trie.

Class Codec := {
  base64_encode : bytes -> string;
  base64_decode : string -> option bytes;
  from_base58 : string -> option bytes;
  to_base58 : bytes -> string;
  json_from_str : string -> option Value;
  json_to_string : Value -> string;
  rmp_to_vec : Value -> option bytes;
  rmp_to_vec_named : Value -> option bytes;
  hex_encode : bytes -> string;
  openssl_hash : bytes -> outcome bytes;
  rlp_items : bytes -> option (list RlpItem);
  rlp_encode : RlpItem -> bytes;
  sha3_256 : bytes -> bytes
}.

(** [UntrustedRlp::new(v).as_list::<Vec<u8>>().unwrap_or_default()]. *)
Definition rlp_list {C : Codec} (v : bytes) : list bytes :=
  match rlp_items v with
  | Some items => default [] (mapM (fun i => match i with Data b => Some b | _ => None end) items)
  | None => []
  end.

Fixpoint decode_all (items : list RlpItem) : decoded (list Node) :=
  match items with
  | [] => DOk []
  | i :: items' => dbind (decode i) (fun n => dbind (decode_all items') (fun ns => DOk (n :: ns)))
  end.

(** [UntrustedRlp::new(v).as_list::<Node>().unwrap_or_default()]. *)
Definition rlp_nodes {C : Codec} (v : bytes) : outcome (list Node) :=
  match rlp_items v with
  | Some items =>
      match decode_all items with
      | DOk ns => Ok ns
      | DErr _ => Ok []
      | DPanic => Panic
      end
  | None => Ok []
  end.

(** [Node::get_hash]. *)
Definition get_hash {C : Codec} (n : Node) : bytes := sha3_256 (rlp_encode (encode n)).

(** ** [u64] *)
Definition u64_sub (p : Profile) (a b : Z) : outcome Z := usize_sub p a b.

Definition usize_add (p : Profile) (a b : Z) : outcome Z :=
  if (a + b <? 2 ^ 64)%Z then Ok (a + b)%Z
  else match p with Debug => Panic | Release => Ok ((a + b) mod 2 ^ 64)%Z end.

(** [u64::next_power_of_two]: overflow panics in a debug build and gives 0 in a
    release build. *)
Definition next_power_of_two (p : Profile) (n : Z) : outcome Z :=
  let r := (2 ^ Z.log2_up n)%Z in
  if (r <? 2 ^ 64)%Z then Ok r
  else match p with Debug => Panic | Release => Ok 0%Z end.

Definition digit (a : Ascii.ascii) : option Z :=
  let d := (byte_of_ascii a - 48)%Z in
  if (0 <=? d)%Z && (d <=? 9)%Z then Some d else None.

Fixpoint parse_digits (acc : Z) (s : string) : option Z :=
  match s with
  | EmptyString => Some acc
  | String a s' =>
      match digit a with
      | Some d =>
          let acc' := (acc * 10 + d)%Z in
          if (acc' <? 2 ^ 64)%Z then parse_digits acc' s' else None
      | None => None
      end
  end.

Definition plus_sign : Ascii.ascii := Eval cbv in Ascii.ascii_of_nat 43.

(** [str::parse::<u64>]: an optional plus sign, then at least one digit. *)
Definition parse_u64 (s : string) : option Z :=
  let digits := match s with
                | String a s' => if Ascii.eqb a plus_sign then s' else s
                | EmptyString => s
                end in
  match digits with EmptyString => None | _ => parse_digits 0 digits end.

(** [format!("{}", n)]. *)
Definition u64_to_string (n : Z) : string := pretty (Z.to_N n).

Lemma digit_pretty x : (x < 10)%N -> digit (pretty_N_char x) = Some (Z.of_N x).
Proof.
  intros Hx.
  assert (Hc : x ∈ [0; 1; 2; 3; 4; 5; 6; 7; 8; 9]%N) by (rewrite !elem_of_cons; lia).
  rewrite !elem_of_cons in Hc. destruct_or? Hc; subst; try reflexivity.
  by apply not_elem_of_nil in Hc.
Qed.

Lemma parse_digits_pretty_go x s :
  (Z.of_N x < 2 ^ 64)%Z -> parse_digits 0 (pretty_N_go x s) = parse_digits (Z.of_N x) s.
Proof.
  revert s. induction (N.lt_wf_0 x) as [x _ IH]. intros s Hx.
  destruct (decide (0 < x)%N) as [Hp|Hp].
  - rewrite pretty_N_go_step by done.
    assert (Hd : (x `div` 10 < x)%N) by (apply N.div_lt; lia).
    rewrite IH by (try done; lia). cbn [parse_digits].
    rewrite digit_pretty by (apply N.mod_lt; lia).
    replace (Z.of_N (x `div` 10) * 10 + Z.of_N (x `mod` 10))%Z with (Z.of_N x)
      by (rewrite (N.div_mod x 10) at 1; lia).
    by rewrite (proj2 (Z.ltb_lt _ _) Hx).
  - assert (x = 0%N) as -> by lia. done.
Qed.

(** What [format!] prints, [parse] reads back. *)
Lemma parse_u64_to_string n : (0 <= n < 2 ^ 64)%Z -> parse_u64 (u64_to_string n) = Some n.
Proof.
  intros Hn. unfold u64_to_string, parse_u64, pretty, pretty_N.
  destruct (decide (Z.to_N n = 0%N)) as [E|E]; [assert (n = 0)%Z as -> by lia; done|].
  pose proof (parse_digits_pretty_go (Z.to_N n) "" ltac:(lia)) as Hp.
  rewrite Z2N.id in Hp by lia. cbn [parse_digits] in Hp.
  destruct (pretty_N_go (Z.to_N n) "") as [|a s].
  - cbn in Hp. injection Hp as <-. done.
  - destruct (Ascii.eqb a plus_sign) eqn:Ea; [|done].
    apply Ascii.eqb_eq in Ea as ->. done.
Qed.

Lemma utf8_ascii l : Forall (fun b => 0 <= b < 128)%Z l -> utf8_valid l = true.
Proof.
  induction 1 as [|b l Hb _ IH]; [done|]. cbn [utf8_valid]. unfold in_range.
  rewrite (proj2 (Z.leb_le 0 b)), (proj2 (Z.leb_le b 127)) by lia. done.
Qed.

Lemma pretty_go_ascii x s :
  Forall (fun b => 0 <= b < 128)%Z (as_bytes s) ->
  Forall (fun b => 0 <= b < 128)%Z (as_bytes (pretty_N_go x s)).
Proof.
  revert s. induction (N.lt_wf_0 x) as [x _ IH]. intros s Hs.
  destruct (decide (0 < x)%N) as [Hp|Hp].
  - rewrite pretty_N_go_step by done. apply IH; [apply N.div_lt; lia|].
    cbn [as_bytes]. constructor; [|done].
    pose proof (digit_pretty (x `mod` 10)%N ltac:(apply N.mod_lt; lia)) as Hd.
    unfold digit in Hd. destruct (_ && _) eqn:E; [|done].
    apply andb_true_iff in E as [H1%Z.leb_le H2%Z.leb_le]. lia.
  - assert (x = 0%N) as -> by lia. done.
Qed.

Lemma u64_to_string_utf8 n : (0 <= n < 2 ^ 64)%Z -> rust_string (u64_to_string n).
Proof.
  intros Hn. unfold rust_string, u64_to_string, pretty, pretty_N. apply utf8_ascii.
  destruct (decide _); [cbn; repeat constructor; done|]. apply pretty_go_ascii. constructor.
Qed.
