(* ===== verification/JsonText.v ===== *)
(** * JSON values and their texts

    What serde_json does between values and texts.  A text that is read gives a value whose
    objects have their keys in order, the last of several equal keys winning; a struct is
    written with its members in the order of their declaration, which a value keeps here as an
    object that is not in order.  [normal] is what is read back, [value_wf] that nothing has
    to be reordered.  [JsonText] states that texts are read back, [JsonLaws] the part of it for
    values in order. *)

From stdpp Require Import base list sets strings numbers sorting.
From Stdlib Require Import ZArith Lia.
From S2P Require Import Prelude Json Trie External.

Open Scope string_scope.

(** Objects have their keys in order, at every depth. *)
Fixpoint value_wf (v : Value) : Prop :=
  match v with
  | Array l => (fix all l := match l with [] => True | x :: l' => value_wf x /\ all l' end) l
  | Object m => sorted_keys m /\ (fix all m := match m with [] => True | (_, x) :: m' => value_wf x /\ all m' end) m
  | _ => True
  end.
Definition values_wf (m : list (string * Value)) : Prop := Forall (fun kv => value_wf kv.2) m.

Lemma object_wf m : value_wf (Object m) <-> sorted_keys m /\ values_wf m.
Proof.
  unfold values_wf. cbn [value_wf]. apply and_iff_compat_l. induction m as [|[k x] m IH]; [by split|].
  rewrite Forall_cons. cbn [snd]. by rewrite IH.
Qed.
Lemma values_wf_insert k v m : value_wf v -> values_wf m -> values_wf (map_insert k v m).
Proof.
  intros Hv. unfold values_wf. induction 1 as [|[k' x] m Hx Hm IH]; cbn [map_insert]; [by constructor|].
  destruct (String.compare k k'); by repeat constructor.
Qed.
Lemma object_wf_insert k v m : value_wf v -> value_wf (Object m) -> value_wf (Object (map_insert k v m)).
Proof. intros Hv [Hs Hm]%object_wf. apply object_wf. split; [by apply map_insert_sorted|by apply values_wf_insert]. Qed.
Lemma object_wf_remove k m : value_wf (Object m) -> value_wf (Object (map_remove k m)).
Proof.
  intros [Hs Hm]%object_wf. apply object_wf. split.
  2: { apply Forall_forall. intros kv [_ Hin]%list_elem_of_filter. by eapply Forall_forall in Hm. }
  unfold sorted_keys, map_remove in *. induction m as [|[k' x] m IH]; [done|]. cbn [fmap list_fmap fst] in Hs.
  apply StronglySorted_inv in Hs as [Hs Hf]. inversion Hm; subst. rewrite filter_cons. cbn [fst].
  destruct (decide (k' <> k)); [|by apply IH]. cbn [fmap list_fmap fst]. constructor; [by apply IH|].
  apply Forall_forall. intros y (kv & -> & Hin)%list_elem_of_fmap. apply list_elem_of_filter in Hin as [_ Hin].
  eapply Forall_forall; [exact Hf|]. by apply list_elem_of_fmap_2.
Qed.
Lemma map_get_wf k m v : value_wf (Object m) -> map_get k m = Some v -> value_wf v.
Proof.
  intros [_ Hm]%object_wf. induction Hm as [|[k' x] m Hx _ IH]; [done|]. cbn [map_get].
  destruct (String.eqb k k'); [by intros [= <-]|done].
Qed.

(** What is read of a value that was written. *)
Fixpoint normal (v : Value) : Value :=
  match v with
  | Array l => Array (map normal l)
  | Object m => Object (map_of_list (map (fun kv => (kv.1, normal kv.2)) m))
  | v => v
  end.

(** serde_json reads what it writes. *)
Class JsonLaws (C : Codec) := { json_back v : value_wf v -> json_from_str (json_to_string v) = Some v }.
Class JsonText (C : Codec) := { json_text v : json_from_str (json_to_string v) = Some (normal v) }.

(** ** Normal forms *)
Lemma array_wf l : value_wf (Array l) <-> Forall value_wf l.
Proof. cbn. induction l as [|x l IH]; [by split|]. rewrite Forall_cons. by rewrite IH. Qed.

Lemma map_of_list_sorted l : sorted_keys (map_of_list l).
Proof.
  induction l as [|kv l IH] using rev_ind; [constructor|]. rewrite map_of_list_snoc. by apply map_insert_sorted.
Qed.
Lemma map_of_list_wf l : values_wf l -> values_wf (map_of_list l).
Proof.
  unfold values_wf. induction l as [|kv l IH] using rev_ind; [constructor|]. rewrite map_of_list_snoc, Forall_app.
  intros [Hl Hk]. apply values_wf_insert; [by inversion Hk|by apply IH].
Qed.
Lemma normal_wf v : value_wf (normal v).
Proof.
  induction v as [|b|n|s|l IH|m IH] using Value_nested_ind; cbn [normal]; try exact I.
  - apply array_wf, Forall_map. done.
  - apply object_wf. split; [apply map_of_list_sorted|]. apply map_of_list_wf. unfold values_wf. by apply Forall_map.
Qed.

(** Adding a key after all others. *)
Lemma map_insert_last k v m : Forall (fun k' => string_lt k' k) m.*1 -> map_insert k v m = (m ++ [(k, v)])%list.
Proof.
  induction m as [|[k' x] m IH]; [done|]. cbn [fmap list_fmap fst map_insert app]. intros [Hk Hm]%Forall_cons.
  unfold string_lt in Hk. rewrite String.compare_antisym, Hk. cbn. by rewrite IH.
Qed.
Lemma map_of_list_id m : sorted_keys m -> map_of_list m = m.
Proof.
  unfold sorted_keys. induction m as [|[k v] m IH] using rev_ind; [done|]. rewrite fmap_app. cbn [fmap list_fmap fst].
  intros Hs. rewrite map_of_list_snoc. cbn [fst snd].
  assert (StronglySorted string_lt m.*1 /\ Forall (fun k' => string_lt k' k) m.*1) as [Hm Hk].
  { clear IH v. induction m.*1 as [|a l IH]; [by repeat constructor|]. cbn in Hs. apply StronglySorted_inv in Hs as [Hs Hf].
    destruct (IH Hs). apply Forall_app in Hf as [Hf Hk]. split; constructor; try done. by inversion Hk. }
  rewrite IH by done. by apply map_insert_last.
Qed.
Lemma normal_id v : value_wf v -> normal v = v.
Proof.
  induction v as [|b|n|s|l IH|m IH] using Value_nested_ind; try done; cbn [normal].
  - intros Hl%array_wf. f_equal. induction IH as [|x l Hx _ IHl]; [done|]. inversion Hl; subst. cbn. by rewrite Hx, IHl.
  - intros [Hs Hm]%object_wf. f_equal. rewrite <-(map_of_list_id m Hs) at 2. f_equal. clear Hs.
    induction IH as [|[k x] m Hx _ IHm]; [done|]. inversion Hm; subst. cbn in *. by rewrite Hx, IHm.
Qed.
#[export] Instance json_text_laws (C : Codec) : JsonText C -> JsonLaws C.
Proof. intros T. constructor. intros v Hv. by rewrite json_text, normal_id. Qed.

Lemma map_get_of_list k l : map_get k (map_of_list l) = map_get k (reverse l).
Proof.
  induction l as [|[k' v] l IH] using rev_ind; [done|]. rewrite map_of_list_snoc, reverse_app. cbn [fst snd reverse].
  change (reverse [(k', v)] ++ reverse l)%list with ((k', v) :: reverse l). cbn [map_get].
  destruct (String.eqb_spec k k') as [->|Hne]; [apply map_get_insert_eq|]. by rewrite map_get_insert_ne.
Qed.
Lemma map_keys_of_list k l : k ∈ (map_of_list l).*1 <-> k ∈ l.*1.
Proof.
  induction l as [|[k' v] l IH] using rev_ind; [done|]. rewrite map_of_list_snoc, map_keys_insert, fmap_app, elem_of_app.
  rewrite IH. set_solver.
Qed.
(** Each entry of an object in order is what its key finds. *)
Lemma sorted_map_get k v m : sorted_keys m -> In (k, v) m -> map_get k m = Some v.
Proof.
  intros Hs%sorted_keys_NoDup. induction m as [|[k' v'] m IH]; [done|]. cbn [fmap list_fmap fst] in Hs.
  apply NoDup_cons in Hs as [Hk Hs]. cbn [map_get]. intros [[= <- <-]|Hin]; [by rewrite String.eqb_refl|].
  destruct (String.eqb_spec k k') as [->|Hne]; [|by apply IH].
  exfalso. apply Hk, list_elem_of_fmap. exists (k', v). split; [done|]. by apply list_elem_of_In.
Qed.
