(* ===== verification/Verkey.v ===== *)
(** * Verification keys as texts

    [libindy/src/utils/crypto/verkey_builder.rs]: a verification key is base58 text, with the
    name of its crypto type after a colon when that is not the default, or abbreviated to
    what follows the DID, after a tilde.  The node list of a pool and the crypto service both
    read keys this way.  base58 is a parameter ([Codec] of [External]). *)

From stdpp Require Import base list strings numbers.
From S2P Require Import Prelude Errors Json Identifiers Trie External.

Open Scope string_scope.

Definition DEFAULT_CRYPTO_TYPE : string := "ed25519".

(** The parts before and after the first colon. *)
Fixpoint split_colon (s : string) : option (string * string) :=
  match s with
  | EmptyString => None
  | String a s' =>
      if is_delimiter a then Some ("", s')
      else match split_colon s' with Some (v, c) => Some (String a v, c) | None => None end
  end.

Definition split_verkey (verkey : string) : string * string :=
  match split_colon verkey with
  | Some (v, cryptoname) => (v, if String.eqb cryptoname "" then DEFAULT_CRYPTO_TYPE else cryptoname)
  | None => (verkey, DEFAULT_CRYPTO_TYPE)
  end.
Definition verkey_get_cryptoname (verkey : string) : string :=
  match split_colon verkey with
  | Some (_, cryptoname) => if String.eqb cryptoname "" then DEFAULT_CRYPTO_TYPE else cryptoname
  | None => DEFAULT_CRYPTO_TYPE
  end.

(** [strip_prefix]: what follows a tilde. *)
Definition after_tilde (s : string) : option string :=
  match s with String a s' => if Ascii.eqb a (Ascii.ascii_of_nat 126) then Some s' else None | EmptyString => None end.

Definition not_base58 : IndyError :=
  err_msg InvalidStructure "The base58 input contained a character not part of the base58 alphabet".

Section Builder.
Context {C : Codec}.

Definition base58 (s : string) : outcome bytes :=
  match from_base58 s with Some b => Ok b | None => Err not_base58 end.

Definition build_full_verkey (dest : string) (verkey : option string) : outcome string :=
  match verkey with
  | Some verkey =>
      let (verkey, crypto_type) :=
        match Identifiers.split verkey with
        | v :: c :: _ => (v, Some c)
        | _ => (verkey, None)
        end in
      let? verkey :=
        match after_tilde verkey with
        | Some rest =>
            let? result := base58 dest in
            let? ending := base58 rest in
            Ok (to_base58 (result ++ ending))
        | None => Ok verkey
        end in
      Ok (match crypto_type with Some c => verkey +:+ ":" +:+ c | None => verkey end)
  | None => Ok dest
  end.
End Builder.

