(* ===== verification/PluggedStorage.v ===== *)
(** * Plugged storages

    [libindy/indy-wallet/src/storage/plugged/mod.rs]: a wallet storage behind functions an
    application registers ([indy_register_wallet_storage]).  Keys go out as base64, tags and
    tag names as JSON texts, values as bytes; what comes back is read from pointers that live
    as long as a handle, which a guard frees.

    [Plugin] lists the registered functions: a call takes the state of the plugin to the next,
    with an error code and what it wrote through its pointers.  [PluginLaws] is what the
    documentation of these functions (the module [wallet] of [indy-api-types/src/lib.rs])
    promises.  Shown: on a plugin that keeps the promises the plugged storage keeps the contract of
    [WalletStorage.v], so that the theorems about wallets hold for it ([PluggedLaws.v]); and
    whatever a plugin answers, its handles are used only while they live and are freed
    ([PluggedHandles.v]).

    Texts of queries are put together without escaping, and a storage that cannot be closed
    panics when it is dropped ([query_text_injection], [drop_panics] of [PluggedHandles.v]). *)

From stdpp Require Import base list strings numbers gmap.
From Stdlib Require Import ZArith Lia.
From S2P Require Import Prelude Errors Json Trie External WalletCrypto WalletQuery WalletStorage.

Open Scope string_scope.

(** ** What an application registers

    The type of a function is that of the module [wallet]; a [*const c_char] is the bytes
    before the first zero, a null pointer is [None]. *)
Class Plugin := {
  plugin : Type;
  create_handler : string -> option string -> option string -> string -> plugin -> plugin * ErrorCode;
  open_handler : string -> option string -> option string -> plugin -> plugin * (ErrorCode * Z);
  close_handler : Z -> plugin -> plugin * ErrorCode;
  delete_handler : string -> option string -> option string -> plugin -> plugin * ErrorCode;
  add_record_handler : Z -> string -> string -> bytes -> string -> plugin -> plugin * ErrorCode;
  update_record_value_handler : Z -> string -> string -> bytes -> plugin -> plugin * ErrorCode;
  update_record_tags_handler : Z -> string -> string -> string -> plugin -> plugin * ErrorCode;
  add_record_tags_handler : Z -> string -> string -> string -> plugin -> plugin * ErrorCode;
  delete_record_tags_handler : Z -> string -> string -> string -> plugin -> plugin * ErrorCode;
  delete_record_handler : Z -> string -> string -> plugin -> plugin * ErrorCode;
  get_record_handler : Z -> string -> string -> string -> plugin -> plugin * (ErrorCode * Z);
  get_record_id_handler : Z -> Z -> plugin -> plugin * (ErrorCode * option bytes);
  get_record_type_handler : Z -> Z -> plugin -> plugin * (ErrorCode * option bytes);
  get_record_value_handler : Z -> Z -> plugin -> plugin * (ErrorCode * option bytes);
  get_record_tags_handler : Z -> Z -> plugin -> plugin * (ErrorCode * option bytes);
  free_record_handler : Z -> Z -> plugin -> plugin * ErrorCode;
  get_storage_metadata_handler : Z -> plugin -> plugin * (ErrorCode * (option bytes * Z));
  set_storage_metadata_handler : Z -> string -> plugin -> plugin * ErrorCode;
  free_storage_metadata_handler : Z -> Z -> plugin -> plugin * ErrorCode;
  search_records_handler : Z -> string -> string -> string -> plugin -> plugin * (ErrorCode * Z);
  search_all_records_handler : Z -> plugin -> plugin * (ErrorCode * Z);
  get_search_total_count_handler : Z -> Z -> plugin -> plugin * (ErrorCode * nat);
  fetch_search_next_record_handler : Z -> Z -> plugin -> plugin * (ErrorCode * Z);
  free_search_handler : Z -> Z -> plugin -> plugin * ErrorCode
}.

(** serde's JSON of [HashMap<String, String>] and [Vec<String>], and the order in which a
    [HashMap] is iterated. *)
Class TagsCodec := {
  map_order : gmap string string -> list (string * string);
  tags_to_text : list (string * string) -> string;
  tags_from_text : string -> option (gmap string string);
  names_to_text : list string -> string;
  names_from_text : string -> option (list string)
}.

(** ** Helpers *)
Definition quote : string := String (Ascii.ascii_of_nat 34) "".
Definition quoted (s : string) : string := quote +:+ s +:+ quote.

Fixpoint has_char (c : Ascii.ascii) (s : string) : bool :=
  match s with EmptyString => false | String a s' => Ascii.eqb a c || has_char c s' end.
Definition has_nul : string -> bool := has_char Ascii.zero.

(** [CString::new] and [NulError]. *)
Definition c_string (s : string) : outcome string :=
  if has_nul s then Err (err_msg InvalidState "Null symbols in payments strings") else Ok s.
Definition c_string_opt (s : option string) : outcome (option string) :=
  match s with Some s => out_map Some (c_string s) | None => Ok None end.

(** [CStr::from_ptr(p).to_str()]: following a null pointer ends the process. *)
Definition read_c_str (p : option bytes) (message : string) : outcome string :=
  match p with
  | None => Panic
  | Some l => match from_utf8 l with Some s => Ok s | None => Err (err_msg InvalidState message) end
  end.

(** [base64::decode] of [indy-utils]. *)
Definition decode_base64 {C : Codec} (s : string) : outcome bytes :=
  match base64_decode s with
  | Some l => Ok l
  | None => Err (err_msg InvalidStructure "Invalid base64 sequence")
  end.
Definition to_indy {A} (r : outcome A) (kind : IndyErrorKind) (message : string) : outcome A :=
  match r with Err _ => Err (err_msg kind message) | r => r end.

(** [ResourceGuard]: the handle is freed however the body returns, and what freeing answers is
    not looked at.  A body that panics has followed a null pointer: nothing runs after it. *)
Definition guarded {S A} (free : SM S ErrorCode) (body : SM S A) : SM S A :=
  fun s => match body s with
           | (s', Panic) => (s', Panic)
           | (s', r) => ((free s').1, r)
           end.

(** ** The text of a query ([language.rs]) *)
Section QueryText.
Context {C : Codec}.

Definition tag_name_to_string (n : TagName) : string :=
  match n with
  | EncryptedTagName v => quoted (base64_encode v)
  | PlainTagName v => quoted ("~" +:+ base64_encode v)
  end.
Definition target_to_string (v : TargetValue) : string :=
  match v with
  | Unencrypted s => quoted s
  | EncryptedTarget v => quoted (base64_encode v)
  end.

Definition text_pair (name value : string) : string := "{" +:+ name +:+ ":" +:+ value +:+ "}".
Definition text_list (l : list string) : string := "[" +:+ String.concat "," l +:+ "]".

Fixpoint operator_to_string (o : Operator) : string :=
  match o with
  | OEq n v => text_pair (tag_name_to_string n) (target_to_string v)
  | ONeq n v => text_pair (tag_name_to_string n) (text_pair (quoted "$neq") (target_to_string v))
  | OGt n v => text_pair (tag_name_to_string n) (text_pair (quoted "$gt") (target_to_string v))
  | OGte n v => text_pair (tag_name_to_string n) (text_pair (quoted "$gte") (target_to_string v))
  | OLt n v => text_pair (tag_name_to_string n) (text_pair (quoted "$lt") (target_to_string v))
  | OLte n v => text_pair (tag_name_to_string n) (text_pair (quoted "$lte") (target_to_string v))
  | OLike n v => text_pair (tag_name_to_string n) (text_pair (quoted "$like") (target_to_string v))
  | OIn n vs => text_pair (tag_name_to_string n) (text_pair (quoted "$in") (text_list (map target_to_string vs)))
  | OAnd l =>
      match l with
      | [] => "{}"
      | _ :: _ => text_pair (quoted "$and") (text_list (map operator_to_string l))
      end
  | OOr l =>
      match l with
      | [] => "{}"
      | _ :: _ => text_pair (quoted "$or") (text_list (map operator_to_string l))
      end
  | ONot o => text_pair (quoted "$not") (operator_to_string o)
  end.
End QueryText.

(** ** Tags as texts *)
Section Tags.
Context {C : Codec} {T : TagsCodec}.

(** The entry of a tag: encrypted values are base64, plain ones are kept. *)
Definition tag_entry (tag : Tag) : string * string :=
  match tag with
  | TagEncrypted name value => (base64_encode name, base64_encode value)
  | TagPlainText name value => ("~" +:+ base64_encode name, value)
  end.

Definition _tags_to_json (tags : list Tag) : string :=
  tags_to_text (map_order (foldl (fun string_tags tag => <[(tag_entry tag).1 := (tag_entry tag).2]> string_tags) ∅ tags)).

Definition bad_tag_key : string := "Unable to decode tag key from base64".

Definition tag_of_entry (kv : string * string) : outcome Tag :=
  let (k, v) := kv in
  match k with
  | String a key =>
      if Ascii.eqb a tilde
      then let? name := to_indy (decode_base64 key) InvalidState bad_tag_key in Ok (TagPlainText name v)
      else
        let? name := to_indy (decode_base64 k) InvalidState bad_tag_key in
        let? value := to_indy (decode_base64 v) InvalidState "Unable to decode tag value from base64" in
        Ok (TagEncrypted name value)
  | EmptyString =>
      let? name := to_indy (decode_base64 k) InvalidState bad_tag_key in
      let? value := to_indy (decode_base64 v) InvalidState "Unable to decode tag value from base64" in
      Ok (TagEncrypted name value)
  end.

Definition _tags_from_json (json : string) : outcome (list Tag) :=
  match tags_from_text json with
  | None => Err (err_msg InvalidState "Unable to deserialize tags from json")
  | Some string_tags => omapM tag_of_entry (map_order string_tags)
  end.

Definition name_text (n : StorageTagName) : string :=
  match n with
  | OfEncrypted name => base64_encode name
  | OfPlain name => "~" +:+ base64_encode name
  end.

Definition _tags_names_to_json (tag_names : list StorageTagName) : string :=
  names_to_text (map name_text tag_names).
End Tags.

(** ** The storage *)
Record PluggedStorage {P : Plugin} := mkPlugged { ps_plugin : plugin; ps_handle : Z }.
Arguments PluggedStorage P : clear implicits.
Arguments mkPlugged {P} _ _.

Record PluggedStorageIterator := mkPluggedIterator {
  pi_storage : Z; pi_search : Z; pi_options : SearchOptions
}.

Section Operations.
Context {P : Plugin} {C : Codec} {T : TagsCodec} {O : OptionsCodec}.

Abbreviation IO := (SM (PluggedStorage P)).

(** A call of the plugin. *)
Definition ffi {A} (f : plugin -> plugin * A) : IO A :=
  fun s => let (pl, a) := f (ps_plugin s) in (mkPlugged pl (ps_handle s), Ok a).
(** [self.handle]. *)
Definition self_handle : IO Z := fun s => (s, Ok (ps_handle s)).
(** [if err != ErrorCode::Success { return Err(err.into()) }]. *)
Definition check (err : ErrorCode) : IO unit := sm_lift (result_of_code err).

Definition read_value (h record_handle : Z) : IO EncryptedValue :=
  let* (err, value) := ffi (get_record_value_handler h record_handle) in
  let* _ := check err in
  sm_lift (match value with Some value => ev_from_bytes value | None => Panic end).

Definition read_tags (h record_handle : Z) : IO (list Tag) :=
  let* (err, tags) := ffi (get_record_tags_handler h record_handle) in
  let* _ := check err in
  sm_lift (let? tags_json := read_c_str tags "Tags contains non-utf8 symbol" in _tags_from_json tags_json).

Definition read_key (get : Z -> Z -> plugin -> plugin * (ErrorCode * option bytes)) (message : string)
    (h record_handle : Z) : IO bytes :=
  let* (err, key) := ffi (get h record_handle) in
  let* _ := check err in
  sm_lift (let? text := read_c_str key message in decode_base64 text).

Definition when {A} (b : bool) (m : IO A) : IO (option A) :=
  if b then let* a := m in sm_ret (Some a) else sm_ret None.

Definition get (type_ id : bytes) (options : string) : IO StorageRecord :=
  let* type_cstr := sm_lift (c_string (base64_encode type_)) in
  let* id_cstr := sm_lift (c_string (base64_encode id)) in
  let* options_cstr := sm_lift (c_string options) in
  let* options :=
    sm_lift (match read_record_options options with
             | Some o => Ok o
             | None => Err (err_msg InvalidStructure "RecordRetrieveOptions is malformed json")
             end) in
  let* h := self_handle in
  let* (err, record_handle) := ffi (get_record_handler h type_cstr id_cstr options_cstr) in
  let* _ := check err in
  guarded (ffi (free_record_handler h record_handle))
    (let* value := when (retrieve_value options) (read_value h record_handle) in
     let* tags := when (retrieve_tags options) (read_tags h record_handle) in
     sm_ret (mkStorageRecord id value (if retrieve_type options then Some type_ else None) tags)).

Definition add (type_ id : bytes) (value : EncryptedValue) (tags : list Tag) : IO unit :=
  let* type_ := sm_lift (c_string (base64_encode type_)) in
  let* id := sm_lift (c_string (base64_encode id)) in
  let* tags := sm_lift (c_string (_tags_to_json tags)) in
  let* h := self_handle in
  let* err := ffi (add_record_handler h type_ id (ev_to_bytes value) tags) in
  if decide (err = ErrorCode_WalletItemAlreadyExists)
  then sm_fail (err_msg WalletItemAlreadyExists "Wallet item already exists")
  else check err.

Definition add_tags (type_ id : bytes) (tags : list Tag) : IO unit :=
  let* type_ := sm_lift (c_string (base64_encode type_)) in
  let* id := sm_lift (c_string (base64_encode id)) in
  let* tags := sm_lift (c_string (_tags_to_json tags)) in
  let* h := self_handle in
  let* err := ffi (add_record_tags_handler h type_ id tags) in
  check err.

Definition update_tags (type_ id : bytes) (tags : list Tag) : IO unit :=
  let* type_ := sm_lift (c_string (base64_encode type_)) in
  let* id := sm_lift (c_string (base64_encode id)) in
  let* tags := sm_lift (c_string (_tags_to_json tags)) in
  let* h := self_handle in
  let* err := ffi (update_record_tags_handler h type_ id tags) in
  check err.

Definition delete_tags (type_ id : bytes) (tag_names : list StorageTagName) : IO unit :=
  let* type_ := sm_lift (c_string (base64_encode type_)) in
  let* id := sm_lift (c_string (base64_encode id)) in
  let* tag_names := sm_lift (c_string (_tags_names_to_json tag_names)) in
  let* h := self_handle in
  let* err := ffi (delete_record_tags_handler h type_ id tag_names) in
  check err.

Definition update (type_ id : bytes) (value : EncryptedValue) : IO unit :=
  let* type_ := sm_lift (c_string (base64_encode type_)) in
  let* id := sm_lift (c_string (base64_encode id)) in
  let* h := self_handle in
  let* err := ffi (update_record_value_handler h type_ id (ev_to_bytes value)) in
  check err.

Definition delete (type_ id : bytes) : IO unit :=
  let* type_ := sm_lift (c_string (base64_encode type_)) in
  let* id := sm_lift (c_string (base64_encode id)) in
  let* h := self_handle in
  let* err := ffi (delete_record_handler h type_ id) in
  check err.

Definition get_storage_metadata : IO bytes :=
  let* h := self_handle in
  let* (err, (metadata, metadata_handle)) := ffi (get_storage_metadata_handler h) in
  let* _ := check err in
  guarded (ffi (free_storage_metadata_handler h metadata_handle))
    (sm_lift (let? text := read_c_str metadata "Metadata contains non-utf8 symbol" in decode_base64 text)).

Definition set_storage_metadata (metadata : bytes) : IO unit :=
  let* metadata := sm_lift (c_string (base64_encode metadata)) in
  let* h := self_handle in
  let* err := ffi (set_storage_metadata_handler h metadata) in
  check err.

(** ** Searches *)
Definition get_all : IO PluggedStorageIterator :=
  let* h := self_handle in
  let* (err, search_handle) := ffi (search_all_records_handler h) in
  let* _ := check err in
  sm_ret (mkPluggedIterator h search_handle (mkSearchOptions true false true true true)).

Definition search (type_ : bytes) (query : Operator) (options : option string) : IO PluggedStorageIterator :=
  let* type_ := sm_lift (c_string (base64_encode type_)) in
  let* query := sm_lift (c_string (operator_to_string query)) in
  let text := default "{}" options in
  let* options_cstr := sm_lift (c_string text) in
  let* options :=
    sm_lift (match read_search_options text with
             | Some o => Ok o
             | None => Err (err_msg InvalidStructure "Search options is malformed json")
             end) in
  let* h := self_handle in
  let* (err, search_handle) := ffi (search_records_handler h type_ query options_cstr) in
  let* _ := check err in
  sm_ret (mkPluggedIterator h search_handle options).

(** [PluggedStorageIterator::next]; the iterator itself does not change. *)
Definition next_record (it : PluggedStorageIterator) : IO (option StorageRecord) :=
  let h := pi_storage it in
  let* (err, record_handle) := ffi (fetch_search_next_record_handler h (pi_search it)) in
  if decide (err = ErrorCode_WalletItemNotFound) then sm_ret None
  else
    let* _ := check err in
    guarded (ffi (free_record_handler h record_handle))
      (let* type_ := when (so_type (pi_options it))
                       (read_key get_record_type_handler "Record type contains non-utf8 symbol" h record_handle) in
       let* id := read_key get_record_id_handler "Record id contains non-utf8 symbol" h record_handle in
       let* value := when (so_value (pi_options it)) (read_value h record_handle) in
       let* tags := when (so_tags (pi_options it)) (read_tags h record_handle) in
       sm_ret (Some (mkStorageRecord id value type_ tags))).
Definition next : SM (PluggedStorage P * PluggedStorageIterator) (option StorageRecord) :=
  fun '(s, it) => let (s', r) := next_record it s in ((s', it), r).

Definition get_total_count (it : PluggedStorageIterator) : IO (option nat) :=
  if so_total_count (pi_options it) then
    let* (err, total_count) := ffi (get_search_total_count_handler (pi_storage it) (pi_search it)) in
    let* _ := check err in
    sm_ret (Some total_count)
  else sm_ret None.

Definition drop_iterator (it : PluggedStorageIterator) : IO unit :=
  let* _ := ffi (free_search_handler (pi_storage it) (pi_search it)) in sm_ret ().

(** ** Closing and dropping *)
Definition set_handle (h : Z) : IO unit := fun s => (mkPlugged (ps_plugin s) h, Ok ()).

Definition close : IO unit :=
  let* h := self_handle in
  let* err := ffi (close_handler h) in
  let* _ := check err in
  set_handle (-1).

Definition unwrap {A} (m : IO A) : IO A :=
  fun s => let (s', r) := m s in (s', match r with Err _ => Panic | r => r end).

Definition drop_storage : IO unit :=
  let* h := self_handle in
  if (0 <=? h)%Z then unwrap close else sm_ret ().

#[local] Instance Plugged : WalletStorage := {|
  storage := PluggedStorage P;
  iter := PluggedStorageIterator;
  st_get := get;
  st_add := add;
  st_update := update;
  st_add_tags := add_tags;
  st_update_tags := update_tags;
  st_delete_tags := delete_tags;
  st_delete := delete;
  st_get_metadata := get_storage_metadata;
  st_set_metadata := set_storage_metadata;
  st_get_all := get_all;
  st_search := search;
  st_close := close;
  it_next := next;
  it_total_count := get_total_count
|}.

(** ** The storage type: the plugin is shared by its storages *)
Definition create_storage (id : string) (config credentials : option string) (metadata : bytes) : SM plugin unit :=
  let* name := sm_lift (c_string id) in
  let* metadata := sm_lift (c_string (base64_encode metadata)) in
  let* config := sm_lift (c_string_opt config) in
  let* credentials := sm_lift (c_string_opt credentials) in
  fun pl => let (pl', err) := create_handler name config credentials metadata pl in (pl', result_of_code err).

Definition open_storage (id : string) (config credentials : option string) : SM plugin (PluggedStorage P) :=
  let* id := sm_lift (c_string id) in
  let* config := sm_lift (c_string_opt config) in
  let* credentials := sm_lift (c_string_opt credentials) in
  fun pl =>
    let '(pl', (err, handle)) := open_handler id config credentials pl in
    (pl', out_map (fun _ => mkPlugged pl' handle) (result_of_code err)).

Definition delete_storage (id : string) (config credentials : option string) : SM plugin unit :=
  let* id := sm_lift (c_string id) in
  let* config := sm_lift (c_string_opt config) in
  let* credentials := sm_lift (c_string_opt credentials) in
  fun pl => let (pl', err) := delete_handler id config credentials pl in (pl', result_of_code err).
End Operations.

(** ** What the codecs promise

    base64 uses letters, digits and three signs; JSON escapes control characters.  [bytes] are
    integers of which only those of a [u8] occur, and strings are UTF-8. *)
Class WireLaws (C : Codec) (T : TagsCodec) (O : OptionsCodec) := {
  base64_roundtrip (l : bytes) : base64_decode (base64_encode l) = Some l;
  base64_text l : rust_string (base64_encode l);
  base64_no_nul l : has_nul (base64_encode l) = false;
  base64_not_empty l : l <> [] -> base64_encode l <> "";
  base64_no_dash l : has_char (Ascii.ascii_of_nat 45) (base64_encode l) = false;
  base64_no_tilde l : starts_with_char tilde (base64_encode l) = false;
  map_order_perm m : map_order m ≡ₚ map_to_list m;
  tags_text_roundtrip l : NoDup l.*1 -> tags_from_text (tags_to_text l) = Some (list_to_map l);
  tags_text_no_nul l : has_nul (tags_to_text l) = false;
  tags_text_useful l : tags_to_text l <> "" /\ rust_string (tags_to_text l);
  names_text_roundtrip l : names_from_text (names_to_text l) = Some l;
  names_text_no_nul l : has_nul (names_to_text l) = false;
  names_text_useful l : names_to_text l <> "" /\ rust_string (names_to_text l);
  options_default : read_record_options "{}" = Some record_options_default;
  options_not_empty : read_record_options "" = None;
  options_no_nul text o : read_record_options text = Some o -> has_nul text = false;
  options_text text o : read_record_options text = Some o -> rust_string text
}.

(** ** What a plugin promises *)
Record PItem := mkPItem { pit_value : bytes; pit_tags : gmap string string }.
Abbreviation Content := (gmap (string * string) PItem).
Abbreviation PEntry := ((string * string) * PItem)%type.

(** What can be seen of a plugin: the storages with their metadata, the open handles, the
    records handed out and what is left of the searches, by keys made of their handles. *)
Record Observed := mkObserved {
  ob_places : gmap string (string * Content);
  ob_opened : gmap Z string;
  ob_records : gmap (Z * Z) (RecordOptions * PEntry);
  ob_searches : gmap (Z * Z) (RecordOptions * list PEntry)
}.

Definition set_place (p : string) (x : string * Content) (o : Observed) : Observed :=
  mkObserved (<[p := x]> (ob_places o)) (ob_opened o) (ob_records o) (ob_searches o).
Definition del_place (p : string) (o : Observed) : Observed :=
  mkObserved (base.delete p (ob_places o)) (ob_opened o) (ob_records o) (ob_searches o).
Definition set_opened (h : Z) (p : string) (o : Observed) : Observed :=
  mkObserved (ob_places o) (<[h := p]> (ob_opened o)) (ob_records o) (ob_searches o).
Definition del_opened (h : Z) (o : Observed) : Observed :=
  mkObserved (ob_places o) (base.delete h (ob_opened o)) (ob_records o) (ob_searches o).
Definition set_record (k : Z * Z) (x : RecordOptions * PEntry) (o : Observed) : Observed :=
  mkObserved (ob_places o) (ob_opened o) (<[k := x]> (ob_records o)) (ob_searches o).
Definition del_record (k : Z * Z) (o : Observed) : Observed :=
  mkObserved (ob_places o) (ob_opened o) (base.delete k (ob_records o)) (ob_searches o).
Definition set_search (k : Z * Z) (x : RecordOptions * list PEntry) (o : Observed) : Observed :=
  mkObserved (ob_places o) (ob_opened o) (ob_records o) (<[k := x]> (ob_searches o)).
Definition del_search (k : Z * Z) (o : Observed) : Observed :=
  mkObserved (ob_places o) (ob_opened o) (ob_records o) (base.delete k (ob_searches o)).

(** A call is expected to succeed with a new state ([inr]) or to fail with a code ([inl]).
    Any call may fail on its own unless the plugin is flawless, and a failed call changes
    nothing. *)
Definition promised (flawless : Prop) (o o' : Observed) (err : ErrorCode) (want : ErrorCode + Observed) : Prop :=
  match want with
  | inr new => err = ErrorCode_Success /\ o' = new \/ err <> ErrorCode_Success /\ o' = o /\ ~ flawless
  | inl code => err <> ErrorCode_Success /\ o' = o /\ (flawless -> err = code)
  end.

(** Plugins need not take empty texts, and keys are base64. *)
Definition c_text (s : string) : Prop := s <> "" /\ rust_string s.
Definition key_text {C : Codec} (s : string) : Prop := exists l, l <> [] /\ s = base64_encode l.

(** A record may hold more than was asked for. *)
Definition holds_more (o' o : RecordOptions) : Prop :=
  (retrieve_type o = true -> retrieve_type o' = true) /\ (retrieve_value o = true -> retrieve_value o' = true) /\
  (retrieve_tags o = true -> retrieve_tags o' = true).

(** The storage behind a handle. *)
Definition open_at (o : Observed) (h : Z) (p md : string) (c : Content) : Prop :=
  ob_opened o !! h = Some p /\ ob_places o !! p = Some (md, c).

(** A change of a record that has to be there. *)
Definition changed (o : Observed) (p md : string) (c : Content) (k : string * string) (f : PItem -> PItem) :
    ErrorCode + Observed :=
  match c !! k with
  | Some i => inr (set_place p (md, <[k := f i]> c) o)
  | None => inl ErrorCode_WalletItemNotFound
  end.

Class PluginLaws {C : Codec} {T : TagsCodec} {O : OptionsCodec} (P : Plugin) := {
  observe : plugin -> Observed;
  plugin_ok : plugin -> Prop;
  flawless : Prop;
  names_place : string -> option string -> option string -> option string;
  (** whether handles are numbered by storage or altogether *)
  own_key : Z -> Z -> Z * Z;

  pl_create s id config cred metadata p :
    plugin_ok s -> names_place id config cred = Some p -> c_text metadata ->
    let (s', err) := create_handler id config cred metadata s in
    plugin_ok s' /\ promised flawless (observe s) (observe s') err
      (match ob_places (observe s) !! p with
       | Some _ => inl ErrorCode_WalletAlreadyExistsError
       | None => inr (set_place p (metadata, ∅) (observe s))
       end);
  pl_open s id config cred p :
    plugin_ok s -> names_place id config cred = Some p ->
    let '(s', (err, h)) := open_handler id config cred s in
    plugin_ok s' /\ promised flawless (observe s) (observe s') err
      (match ob_places (observe s) !! p with
       | Some _ => inr (set_opened h p (observe s))
       | None => inl ErrorCode_WalletNotFoundError
       end) /\
    (err = ErrorCode_Success -> (0 <= h)%Z /\ ob_opened (observe s) !! h = None);
  pl_delete_storage s id config cred p :
    plugin_ok s -> names_place id config cred = Some p ->
    let (s', err) := delete_handler id config cred s in
    plugin_ok s' /\ promised flawless (observe s) (observe s') err
      (match ob_places (observe s) !! p with
       | Some _ => inr (del_place p (observe s))
       | None => inl ErrorCode_WalletNotFoundError
       end);
  pl_close s h p :
    plugin_ok s -> ob_opened (observe s) !! h = Some p ->
    let (s', err) := close_handler h s in
    plugin_ok s' /\ promised flawless (observe s) (observe s') err (inr (del_opened h (observe s)));

  pl_add s h p md c t n v json tags :
    plugin_ok s -> key_text t -> key_text n -> c_text json -> open_at (observe s) h p md c -> tags_from_text json = Some tags -> v <> [] ->
    let (s', err) := add_record_handler h t n v json s in
    plugin_ok s' /\ promised flawless (observe s) (observe s') err
      (match c !! (t, n) with
       | Some _ => inl ErrorCode_WalletItemAlreadyExists
       | None => inr (set_place p (md, <[(t, n) := mkPItem v tags]> c) (observe s))
       end);
  pl_update s h p md c t n v :
    plugin_ok s -> key_text t -> key_text n -> open_at (observe s) h p md c -> v <> [] ->
    let (s', err) := update_record_value_handler h t n v s in
    plugin_ok s' /\ promised flawless (observe s) (observe s') err
      (changed (observe s) p md c (t, n) (fun i => mkPItem v (pit_tags i)));
  pl_update_tags s h p md c t n json tags :
    plugin_ok s -> key_text t -> key_text n -> c_text json -> open_at (observe s) h p md c -> tags_from_text json = Some tags ->
    let (s', err) := update_record_tags_handler h t n json s in
    plugin_ok s' /\ promised flawless (observe s) (observe s') err
      (changed (observe s) p md c (t, n) (fun i => mkPItem (pit_value i) tags));
  pl_add_tags s h p md c t n json tags :
    plugin_ok s -> key_text t -> key_text n -> c_text json -> open_at (observe s) h p md c -> tags_from_text json = Some tags ->
    let (s', err) := add_record_tags_handler h t n json s in
    plugin_ok s' /\ promised flawless (observe s) (observe s') err
      (changed (observe s) p md c (t, n) (fun i => mkPItem (pit_value i) (tags ∪ pit_tags i)));
  pl_delete_tags s h p md c t n json names :
    plugin_ok s -> key_text t -> key_text n -> c_text json -> open_at (observe s) h p md c -> names_from_text json = Some names ->
    let (s', err) := delete_record_tags_handler h t n json s in
    plugin_ok s' /\ promised flawless (observe s) (observe s') err
      (changed (observe s) p md c (t, n)
         (fun i => mkPItem (pit_value i) (foldl (fun m name => base.delete name m) (pit_tags i) names)));
  pl_delete s h p md c t n :
    plugin_ok s -> key_text t -> key_text n -> open_at (observe s) h p md c ->
    let (s', err) := delete_record_handler h t n s in
    plugin_ok s' /\ promised flawless (observe s) (observe s') err
      (match c !! (t, n) with
       | Some _ => inr (set_place p (md, base.delete (t, n) c) (observe s))
       | None => inl ErrorCode_WalletItemNotFound
       end);

  pl_get_record s h p md c t n text o :
    plugin_ok s -> key_text t -> key_text n -> c_text text -> open_at (observe s) h p md c -> read_record_options text = Some o ->
    let '(s', (err, r)) := get_record_handler h t n text s in
    plugin_ok s' /\ exists o', holds_more o' o /\ promised flawless (observe s) (observe s') err
      (match c !! (t, n) with
       | Some i => inr (set_record (own_key h r) (o', ((t, n), i)) (observe s))
       | None => inl ErrorCode_WalletItemNotFound
       end);
  pl_get_id s h p r o k i :
    plugin_ok s -> ob_opened (observe s) !! h = Some p -> ob_records (observe s) !! own_key h r = Some (o, (k, i)) ->
    let '(s', (err, out)) := get_record_id_handler h r s in
    plugin_ok s' /\ promised flawless (observe s) (observe s') err (inr (observe s)) /\
    (err = ErrorCode_Success -> out = Some (as_bytes k.2));
  pl_get_type s h p r o k i :
    plugin_ok s -> ob_opened (observe s) !! h = Some p -> ob_records (observe s) !! own_key h r = Some (o, (k, i)) ->
    let '(s', (err, out)) := get_record_type_handler h r s in
    plugin_ok s' /\ promised flawless (observe s) (observe s') err (inr (observe s)) /\
    (err = ErrorCode_Success -> retrieve_type o = true -> out = Some (as_bytes k.1));
  pl_get_value s h p r o k i :
    plugin_ok s -> ob_opened (observe s) !! h = Some p -> ob_records (observe s) !! own_key h r = Some (o, (k, i)) ->
    let '(s', (err, out)) := get_record_value_handler h r s in
    plugin_ok s' /\ promised flawless (observe s) (observe s') err (inr (observe s)) /\
    (err = ErrorCode_Success -> retrieve_value o = true -> out = Some (pit_value i));
  pl_get_tags s h p r o k i :
    plugin_ok s -> ob_opened (observe s) !! h = Some p -> ob_records (observe s) !! own_key h r = Some (o, (k, i)) ->
    let '(s', (err, out)) := get_record_tags_handler h r s in
    plugin_ok s' /\ promised flawless (observe s) (observe s') err (inr (observe s)) /\
    (err = ErrorCode_Success -> retrieve_tags o = true ->
       exists l json, out = Some l /\ from_utf8 l = Some json /\ tags_from_text json = Some (pit_tags i));
  pl_free_record s h p r :
    plugin_ok s -> ob_opened (observe s) !! h = Some p -> is_Some (ob_records (observe s) !! own_key h r) ->
    let (s', err) := free_record_handler h r s in
    plugin_ok s' /\ promised flawless (observe s) (observe s') err (inr (del_record (own_key h r) (observe s)));

  pl_get_metadata s h p md c :
    plugin_ok s -> open_at (observe s) h p md c ->
    let '(s', (err, (out, m))) := get_storage_metadata_handler h s in
    plugin_ok s' /\ promised flawless (observe s) (observe s') err (inr (observe s)) /\
    (err = ErrorCode_Success -> out = Some (as_bytes md));
  pl_free_metadata s h m :
    plugin_ok s ->
    plugin_ok (free_storage_metadata_handler h m s).1 /\
    observe (free_storage_metadata_handler h m s).1 = observe s;
  pl_set_metadata s h p md c md' :
    plugin_ok s -> c_text md' -> open_at (observe s) h p md c ->
    let (s', err) := set_storage_metadata_handler h md' s in
    plugin_ok s' /\ promised flawless (observe s) (observe s') err (inr (set_place p (md', c) (observe s)));

  (** [search_records] makes no promise here: its query is a text. *)
  pl_search_all s h p md c :
    plugin_ok s -> open_at (observe s) h p md c ->
    let '(s', (err, q)) := search_all_records_handler h s in
    plugin_ok s' /\ exists l, l ≡ₚ map_to_list c /\
    promised flawless (observe s) (observe s') err
      (inr (set_search (own_key h q) (mkRecordOptions true true true, l) (observe s)));
  pl_fetch s h p q o l :
    plugin_ok s -> ob_opened (observe s) !! h = Some p -> ob_searches (observe s) !! own_key h q = Some (o, l) ->
    let '(s', (err, r)) := fetch_search_next_record_handler h q s in
    plugin_ok s' /\
    match l with
    | [] => promised flawless (observe s) (observe s') err (inl ErrorCode_WalletItemNotFound)
    | x :: l' =>
        promised flawless (observe s) (observe s') err
          (inr (set_record (own_key h r) (o, x) (set_search (own_key h q) (o, l') (observe s)))) /\
        err <> ErrorCode_WalletItemNotFound
    end;
  pl_free_search s h p q :
    plugin_ok s -> ob_opened (observe s) !! h = Some p -> is_Some (ob_searches (observe s) !! own_key h q) ->
    let (s', err) := free_search_handler h q s in
    plugin_ok s' /\ promised flawless (observe s) (observe s') err (inr (del_search (own_key h q) (observe s)))
}.
