(* ===== verification/PluggedLaws.v ===== *)
(** * Plugged storages keep the contract

    On a plugin that keeps its promises ([PluginLaws]) a plugged storage keeps the contract of
    [WalletStorage.v]: what the plugin stores are the encoded records of a view
    ([content_of]), reading gives them back, and failures of the plugin change nothing.  So
    sequences of operations follow the specification ([plugged_refines_map]) and the theorems
    about wallets hold.  A storage that was created at a free place opens as an empty one with
    the metadata it was created with ([created_storage_opens]). *)

From stdpp Require Import base list strings numbers gmap.
From Stdlib Require Import ZArith Lia.
From S2P Require Import Prelude Errors Json Trie External WalletCrypto WalletQuery WalletStorage PluggedStorage.

Open Scope string_scope.

(** ** What a plugin stores of a wallet *)
Section Encoding.
Context {C : Codec} {T : TagsCodec} {O : OptionsCodec} {WL : WireLaws C T O}.

Lemma base64_inj : Inj (=) (=) base64_encode.
Proof using WL. intros a b H. apply (f_equal base64_decode) in H. rewrite !base64_roundtrip in H. congruence. Qed.
#[local] Existing Instance base64_inj.

Lemma text_of_base64 l : from_utf8 (as_bytes (base64_encode l)) = Some (base64_encode l).
Proof using WL. apply from_utf8_as_bytes, base64_text. Qed.

Lemma decode_encoded l : decode_base64 (base64_encode l) = Ok l.
Proof using WL. unfold decode_base64. by rewrite base64_roundtrip. Qed.

Lemma encoded_key l : l <> [] -> key_text (base64_encode l).
Proof using Type. by exists l. Qed.
Lemma encoded_text l : l <> [] -> c_text (base64_encode l).
Proof using WL. intros Hl. split; [by apply base64_not_empty|apply base64_text]. Qed.
Lemma tags_text l : c_text (_tags_to_json l).
Proof using WL. apply tags_text_useful. Qed.
Lemma names_text l : c_text (_tags_names_to_json l).
Proof using WL. apply names_text_useful. Qed.
Lemma options_useful text o : read_record_options text = Some o -> c_text text.
Proof using WL. intros Ho. split; [intros ->; by rewrite options_not_empty in Ho|by eapply options_text]. Qed.

Lemma c_string_encoded l : c_string (base64_encode l) = Ok (base64_encode l).
Proof using WL. unfold c_string. by rewrite base64_no_nul. Qed.

Lemma read_encoded l message :
  (let? text := read_c_str (Some (as_bytes (base64_encode l))) message in decode_base64 text) = Ok l.
Proof using WL. unfold read_c_str. rewrite text_of_base64. apply decode_encoded. Qed.

(** *** Tags *)
Definition value_text (t : Tag) : string := (tag_entry t).2.

Lemma entry_name t : (tag_entry t).1 = name_text (tag_name t).
Proof using Type. by destruct t. Qed.

#[local] Instance name_text_inj : Inj (=) (=) name_text.
Proof using WL.
  intros [a|a] [b|b]; cbn [name_text]; intros H.
  - by apply base64_inj in H as ->.
  - pose proof (base64_no_tilde a) as Ha. by rewrite H in Ha.
  - pose proof (base64_no_tilde b) as Hb. by rewrite <-H in Hb.
  - injection H as H. by apply base64_inj in H as ->.
Qed.

Lemma entry_read t : tag_of_entry (tag_entry t) = Ok t.
Proof using WL.
  destruct t as [n v|n v]; cbn [tag_entry tag_of_entry].
  - pose proof (base64_no_tilde n) as Hn. rewrite !decode_encoded. cbn [to_indy obind].
    destruct (base64_encode n) as [|a s]; [done|]. unfold starts_with_char in Hn. by rewrite Hn.
  - transitivity (let? name := to_indy (decode_base64 (base64_encode n)) InvalidState bad_tag_key in Ok (TagPlainText name v));
      [reflexivity|]. by rewrite decode_encoded.
Qed.

(** The entries of a map of tags. *)
Definition named (m : TagMap) : Prop := map_Forall (fun n t => tag_name t = n) m.
Definition text_map (m : TagMap) : gmap string string := kmap name_text (value_text <$> m).

Lemma text_map_insert t m : text_map (<[tag_name t := t]> m) = <[(tag_entry t).1 := (tag_entry t).2]> (text_map m).
Proof using WL. unfold text_map. by rewrite fmap_insert, (kmap_insert name_text), entry_name. Qed.

Lemma text_map_put l m :
  foldl (fun s tag => <[(tag_entry tag).1 := (tag_entry tag).2]> s) (text_map m) l = text_map (put_tags l m).
Proof using WL. unfold put_tags. revert m. induction l as [|t l IH]; intros m; [done|]. cbn [foldl]. by rewrite <-text_map_insert, IH. Qed.

Lemma text_map_drop l m :
  foldl (fun s name => base.delete name s) (text_map m) (map name_text l) = text_map (drop_tags l m).
Proof using WL.
  unfold drop_tags. revert m. induction l as [|n l IH]; intros m; [done|]. cbn [foldl map].
  rewrite <-IH. f_equal. unfold text_map. by rewrite fmap_delete, (kmap_delete name_text).
Qed.

Lemma text_map_union m m' : text_map (m ∪ m') = text_map m ∪ text_map m'.
Proof using WL. unfold text_map. by rewrite map_fmap_union, (kmap_union name_text). Qed.

Lemma put_tags_union l m : put_tags l m = put_tags l ∅ ∪ m.
Proof using Type.
  enough (H : forall m0, put_tags l (m0 ∪ m) = put_tags l m0 ∪ m).
  { rewrite <-(left_id_L ∅ (∪) m) at 1. apply H. }
  unfold put_tags. induction l as [|t l IH]; intros m0; [done|]. cbn [foldl]. by rewrite insert_union_l, IH.
Qed.

Lemma named_put l m : named m -> named (put_tags l m).
Proof using Type.
  unfold put_tags. revert m. induction l as [|t l IH]; intros m Hm; [done|]. cbn [foldl]. apply IH.
  by apply map_Forall_insert_2.
Qed.
Lemma named_drop l m : named m -> named (drop_tags l m).
Proof using Type.
  unfold drop_tags. revert m. induction l as [|n l IH]; intros m Hm; [done|]. cbn [foldl].
  by apply IH, map_Forall_delete.
Qed.

Lemma map_written (m : gmap string string) : tags_from_text (tags_to_text (map_order m)) = Some m.
Proof using WL.
  assert (Hnd : NoDup (map_order m).*1) by (rewrite map_order_perm; apply NoDup_fst_map_to_list).
  rewrite tags_text_roundtrip by done. f_equal.
  by rewrite (list_to_map_proper _ _ Hnd (map_order_perm m)), list_to_map_to_list.
Qed.

Lemma tags_json_read l : tags_from_text (_tags_to_json l) = Some (text_map (put_tags l ∅)).
Proof using WL.
  unfold _tags_to_json. rewrite <-text_map_put, map_written. unfold text_map. by rewrite fmap_empty, kmap_empty.
Qed.

(** Reading the entries back, in any order. *)
Lemma entries_read l0 m :
  named m -> l0 ≡ₚ map_to_list (text_map m) ->
  exists l, omapM tag_of_entry l0 = Ok l /\ NoDup (tag_name <$> l) /\ tag_map l = m.
Proof using WL.
  intros Hm Hl. unfold text_map in Hl. rewrite (map_to_list_kmap name_text), map_to_list_fmap in Hl.
  assert (He : prod_map name_text id <$> (prod_map id value_text <$> map_to_list m) =
               map tag_entry (map_to_list m).*2).
  { change (map ?f ?l) with (f <$> l). rewrite <-!list_fmap_compose. apply list_fmap_ext.
    intros i [n t] Ht. apply list_elem_of_lookup_2, elem_of_map_to_list, Hm in Ht. cbn.
    by rewrite <-Ht, <-entry_name, <-surjective_pairing. }
  rewrite He in Hl. apply Permutation_map_inv in Hl as (l & -> & Hl).
  assert (Hp : (fun t => (tag_name t, t)) <$> l ≡ₚ map_to_list m).
  { rewrite <-Hl, <-list_fmap_compose. rewrite <-(list_fmap_id (map_to_list m)) at 2.
    apply reflexive_eq, list_fmap_ext. intros i [n t] Ht.
    apply list_elem_of_lookup_2, elem_of_map_to_list, Hm in Ht. cbn. by rewrite Ht. }
  assert (Hnd : NoDup ((fun t => (tag_name t, t)) <$> l).*1) by (rewrite Hp; apply NoDup_fst_map_to_list).
  exists l. split; [|split].
  - apply omapM_ok. apply Forall2_fmap_l, Forall_Forall2_diag, Forall_true. apply entry_read.
  - by rewrite <-list_fmap_compose in Hnd.
  - unfold tag_map. by rewrite (list_to_map_proper _ _ Hnd Hp), list_to_map_to_list.
Qed.

Lemma tags_read_back l json m :
  from_utf8 l = Some json -> tags_from_text json = Some (text_map m) -> named m ->
  exists tags, (let? tags_json := read_c_str (Some l) "Tags contains non-utf8 symbol" in _tags_from_json tags_json) = Ok tags /\
    NoDup (tag_name <$> tags) /\ tag_map tags = m.
Proof using WL.
  intros Hl Hj Hm. unfold read_c_str. rewrite Hl. cbn [obind]. unfold _tags_from_json. rewrite Hj.
  by apply entries_read; [|apply map_order_perm].
Qed.

(** *** Records *)
Definition enc_key (k : bytes * bytes) : string * string := (base64_encode k.1, base64_encode k.2).
Definition enc_item (i : SItem) : PItem := mkPItem (ev_to_bytes (si_value i)) (text_map (si_tags i)).
Definition fine (i : SItem) : Prop := ev_ok (si_value i) /\ named (si_tags i).
Definition content_of (v : View) : Content := kmap enc_key (enc_item <$> v).

Lemma enc_key_inj : Inj (=) (=) enc_key.
Proof using WL. intros [a b] [c d] H. injection H as H1%base64_inj H2%base64_inj. by subst. Qed.
#[local] Existing Instance enc_key_inj.

(** What a content means. *)
Definition dec_item (i : PItem) : option SItem :=
  match ev_from_bytes (pit_value i), omapM tag_of_entry (map_to_list (pit_tags i)) with
  | Ok v, Ok l => Some (mkSItem v (tag_map l))
  | _, _ => None
  end.
Definition dec_entry (x : PEntry) : option ((bytes * bytes) * SItem) :=
  t ← base64_decode x.1.1; n ← base64_decode x.1.2; i ← dec_item x.2; Some ((t, n), i).
Definition view_of_content (c : Content) : View := list_to_map (omap dec_entry (map_to_list c)).

Definition enc_entry (x : (bytes * bytes) * SItem) : PEntry := (enc_key x.1, enc_item x.2).

Lemma dec_enc_item i : fine i -> dec_item (enc_item i) = Some i.
Proof using WL.
  intros [Hv Hm]. unfold dec_item, enc_item. cbn [pit_value pit_tags]. rewrite ev_bytes_roundtrip by done.
  destruct (entries_read _ _ Hm (Permutation_refl _)) as (l & -> & _ & ->). by destruct i.
Qed.

Lemma dec_enc_entry x : fine x.2 -> dec_entry (enc_entry x) = Some x.
Proof using WL.
  intros Hx. unfold dec_entry, enc_entry. cbn [fst snd enc_key]. rewrite !base64_roundtrip. cbn.
  rewrite dec_enc_item by done. by destruct x as [[] ?].
Qed.

Lemma dec_enc_list l : Forall (fun x => fine x.2) l -> omap dec_entry (map enc_entry l) = l.
Proof using WL.
  induction 1 as [|x l Hx _ IH]; [done|]. cbn [map]. cbn. rewrite dec_enc_entry by done. cbn. by f_equal.
Qed.

Lemma content_list v : map_to_list (content_of v) ≡ₚ map enc_entry (map_to_list v).
Proof using WL.
  unfold content_of. rewrite (map_to_list_kmap enc_key), map_to_list_fmap, <-list_fmap_compose.
  apply reflexive_eq, list_fmap_ext. by intros i [k x] _.
Qed.

Lemma view_content v : map_Forall (fun _ => fine) v -> view_of_content (content_of v) = v.
Proof using WL.
  intros Hv. assert (Hp : omap dec_entry (map_to_list (content_of v)) ≡ₚ map_to_list v).
  { rewrite (omap_Permutation _ _ _ (content_list v)), dec_enc_list; [done|].
    apply map_Forall_to_list in Hv. eapply Forall_impl; [exact Hv|]. by intros [k x]. }
  unfold view_of_content. rewrite (list_to_map_proper _ (map_to_list v)); [apply list_to_map_to_list| |done].
  rewrite Hp. apply NoDup_fst_map_to_list.
Qed.

Lemma content_lookup v t n : content_of v !! (base64_encode t, base64_encode n) = enc_item <$> v !! (t, n).
Proof using WL.
  unfold content_of. change (base64_encode t, base64_encode n) with (enc_key (t, n)).
  by rewrite (lookup_kmap enc_key), lookup_fmap.
Qed.
Lemma content_insert v t n i :
  <[(base64_encode t, base64_encode n) := enc_item i]> (content_of v) = content_of (<[(t, n) := i]> v).
Proof using WL.
  unfold content_of. rewrite fmap_insert, (kmap_insert enc_key). done.
Qed.
Lemma content_delete v t n :
  base.delete (base64_encode t, base64_encode n) (content_of v) = content_of (base.delete (t, n) v).
Proof using WL. unfold content_of. by rewrite fmap_delete, (kmap_delete enc_key). Qed.
End Encoding.

(** ** The contract of the interface *)
Section Laws.
Context {P : Plugin} {C : Codec} {T : TagsCodec} {O : OptionsCodec} {WL : WireLaws C T O} {PL : PluginLaws P}.
#[local] Existing Instances base64_inj enc_key_inj.

(** A storage in use: its handle is open at the place [p], which holds the view [v]. *)
Definition stands (s : PluggedStorage P) (p md : string) (v : View) : Prop :=
  plugin_ok (ps_plugin s) /\ open_at (observe (ps_plugin s)) (ps_handle s) p md (content_of v) /\
  map_Forall (fun _ => fine) v.
Definition plugged_ok (s : PluggedStorage P) : Prop := exists p md v, stands s p md v.
Definition plugged_view (s : PluggedStorage P) : View :=
  match ob_opened (observe (ps_plugin s)) !! ps_handle s ≫= (fun p => ob_places (observe (ps_plugin s)) !! p) with
  | Some (_, c) => view_of_content c
  | None => ∅
  end.

Lemma stands_view s p md v : stands s p md v -> plugged_view s = v.
Proof using WL. intros (_ & [Ho Hp] & Hv). unfold plugged_view. rewrite Ho. cbn. rewrite Hp. by apply view_content. Qed.
Lemma stands_ok s p md v : stands s p md v -> plugged_ok s.
Proof using Type. by exists p, md, v. Qed.

(** The same storage after a call that left its place alone. *)
Lemma stands_same pl pl' h p md v :
  stands (mkPlugged pl h) p md v -> plugin_ok pl' ->
  ob_opened (observe pl') = ob_opened (observe pl) -> ob_places (observe pl') = ob_places (observe pl) ->
  stands (mkPlugged pl' h) p md v.
Proof using Type. intros (_ & [Ho Hp] & Hv) Hok E1 E2. split; [done|]. split; [|done]. split; cbn in *; congruence. Qed.

Lemma stands_set pl pl' h p md v v' :
  stands (mkPlugged pl h) p md v -> plugin_ok pl' ->
  observe pl' = set_place p (md, content_of v') (observe pl) -> map_Forall (fun _ => fine) v' ->
  stands (mkPlugged pl' h) p md v'.
Proof using Type.
  intros (_ & [Ho Hp] & _) Hok E Hv. split; [done|]. split; [|done].
  split; cbn [ps_plugin ps_handle] in *; rewrite E; cbn; [done|]. by rewrite lookup_insert_eq.
Qed.

Lemma result_ok err : result_of_code err = Ok () <-> err = ErrorCode_Success.
Proof using Type. unfold result_of_code. destruct (decide (err = ErrorCode_Success)); by split. Qed.
Lemma result_err err : err <> ErrorCode_Success -> result_of_code err = Err (error_of_code err).
Proof using Type. intros H. unfold result_of_code. by destruct (decide (err = ErrorCode_Success)). Qed.

(** A call that changes a record. *)
Lemma changed_law pl pl' h p md v err t n f g :
  stands (mkPlugged pl h) p md v -> plugin_ok pl' ->
  promised flawless (observe pl) (observe pl') err
    (changed (observe pl) p md (content_of v) (base64_encode t, base64_encode n) f) ->
  (forall i, v !! (t, n) = Some i -> f (enc_item i) = enc_item (g i) /\ fine (g i)) ->
  let s := mkPlugged pl h in let s' := mkPlugged pl' h in let r := result_of_code err in
  plugged_ok s' /\ changes (plugged_view s) (plugged_view s') r (t, n) (g <$> plugged_view s !! (t, n)) /\
  (r = Ok () -> is_Some (plugged_view s !! (t, n))) /\
  (flawless -> if plugged_view s !! (t, n) then r = Ok () else is_error r WalletItemNotFound).
Proof using WL.
  intros Hs Hok Hp Hf. cbv zeta. rewrite (stands_view _ _ _ _ Hs). unfold changed in Hp.
  rewrite content_lookup in Hp. destruct (v !! (t, n)) as [i|] eqn:Ei; cbn [fmap option_fmap option_map] in Hp |- *.
  - destruct (Hf i eq_refl) as [Hfi Hg]. rewrite Hfi, content_insert in Hp.
    destruct Hp as [[-> Ho]|(He & Ho & Hfl)].
    + assert (Hs' : stands (mkPlugged pl' h) p md (<[(t, n) := g i]> v)).
      { eapply stands_set; [done..|]. apply map_Forall_insert_2; [done|]. apply Hs. }
      split; [by eapply stands_ok|]. rewrite (stands_view _ _ _ _ Hs'). by cbn.
    + rewrite result_err by done.
      assert (Hs' : stands (mkPlugged pl' h) p md v) by (by eapply stands_same; [done|done|rewrite Ho..]).
      split; [by eapply stands_ok|]. rewrite (stands_view _ _ _ _ Hs'). by cbn.
  - destruct Hp as (He & Ho & Hfl). rewrite result_err by done.
    assert (Hs' : stands (mkPlugged pl' h) p md v) by (by eapply stands_same; [done|done|rewrite Ho..]).
    split; [by eapply stands_ok|]. rewrite (stands_view _ _ _ _ Hs'). cbn. do 2 (split; [done|]).
    intros Hh. rewrite (Hfl Hh). apply (is_error_intro (error_of_code ErrorCode_WalletItemNotFound)).
Qed.

(** Programs start by turning their arguments into C strings. *)
Lemma lift_bind {A B : Type} (r : outcome A) (a : A) (k : A -> SM (PluggedStorage P) B) s :
  r = Ok a -> sm_bind (sm_lift r) k s = k a s.
Proof using Type. by intros ->. Qed.

Lemma tags_text_ok l : c_string (_tags_to_json l) = Ok (_tags_to_json l).
Proof using WL. unfold c_string, _tags_to_json. by rewrite tags_text_no_nul. Qed.
Lemma names_text_ok l : c_string (_tags_names_to_json l) = Ok (_tags_names_to_json l).
Proof using WL. unfold c_string, _tags_names_to_json. by rewrite names_text_no_nul. Qed.

Lemma ev_bytes_not_empty v : ev_ok v -> ev_to_bytes v <> [].
Proof using Type. unfold ev_ok, ev_to_bytes. destruct (ev_key v); [done|]. by cbn. Qed.

Ltac start :=
  repeat first [ rewrite (lift_bind _ _ _ _ (c_string_encoded _))
               | rewrite (lift_bind _ _ _ _ (tags_text_ok _))
               | rewrite (lift_bind _ _ _ _ (names_text_ok _)) ];
  unfold self_handle at 1, sm_bind at 1, sm_bind at 1, ffi at 1, check, sm_lift;
  cbn [ps_handle ps_plugin].

Lemma plugged_update_law s s' r t n v :
  plugged_ok s -> key_ok t n -> ev_ok v -> update t n v s = (s', r) ->
  plugged_ok s' /\ changes (plugged_view s) (plugged_view s') r (t, n)
    ((fun i => mkSItem v (si_tags i)) <$> plugged_view s !! (t, n)) /\
  (r = Ok () -> is_Some (plugged_view s !! (t, n))) /\
  (flawless -> if plugged_view s !! (t, n) then r = Ok () else is_error r WalletItemNotFound).
Proof using WL.
  intros (p & md & x & Hs) [Ht Hn] Hv. destruct s as [pl h]. unfold update. start.
  pose proof Hs as (Hok & Ho & Hf).
  pose proof (pl_update pl h p md _ (base64_encode t) (base64_encode n) (ev_to_bytes v) Hok (encoded_key t Ht) (encoded_key n Hn) Ho (ev_bytes_not_empty v Hv)) as Hp.
  destruct (update_record_value_handler _ _ _ _ _) as [pl' err]. destruct Hp as [Hok' Hp]. intros [= <- <-].
  eapply changed_law; [done..|]. intros i Hi. split; [done|]. split; [done|]. apply (Hf _ _ Hi).
Qed.

Lemma plugged_add_tags_law s s' r t n l :
  plugged_ok s -> key_ok t n -> add_tags t n l s = (s', r) ->
  plugged_ok s' /\ changes (plugged_view s) (plugged_view s') r (t, n)
    ((fun i => mkSItem (si_value i) (put_tags l (si_tags i))) <$> plugged_view s !! (t, n)) /\
  (r = Ok () -> is_Some (plugged_view s !! (t, n))) /\
  (flawless -> if plugged_view s !! (t, n) then r = Ok () else is_error r WalletItemNotFound).
Proof using WL.
  intros (p & md & x & Hs) [Ht Hn]. destruct s as [pl h]. unfold add_tags. start.
  pose proof Hs as (Hok & Ho & Hf).
  pose proof (pl_add_tags pl h p md _ (base64_encode t) (base64_encode n) _ _ Hok (encoded_key t Ht) (encoded_key n Hn) (tags_text l) Ho (tags_json_read l)) as Hp.
  destruct (add_record_tags_handler _ _ _ _ _) as [pl' err]. destruct Hp as [Hok' Hp]. intros [= <- <-].
  eapply changed_law; [done..|]. intros i Hi. destruct (Hf _ _ Hi) as [Hv Hm]. split; [|by split; [|apply named_put]].
  unfold enc_item. cbn. by rewrite <-text_map_union, <-put_tags_union.
Qed.

Lemma plugged_update_tags_law s s' r t n l :
  plugged_ok s -> key_ok t n -> NoDup (tag_name <$> l) -> update_tags t n l s = (s', r) ->
  plugged_ok s' /\ changes (plugged_view s) (plugged_view s') r (t, n)
    ((fun i => mkSItem (si_value i) (tag_map l)) <$> plugged_view s !! (t, n)) /\
  (r = Ok () -> is_Some (plugged_view s !! (t, n))) /\
  (flawless -> if plugged_view s !! (t, n) then r = Ok () else is_error r WalletItemNotFound).
Proof using WL.
  intros (p & md & x & Hs) [Ht Hn] Hnd. destruct s as [pl h]. unfold update_tags. start.
  pose proof Hs as (Hok & Ho & Hf).
  pose proof (pl_update_tags pl h p md _ (base64_encode t) (base64_encode n) _ _ Hok (encoded_key t Ht) (encoded_key n Hn) (tags_text l) Ho (tags_json_read l)) as Hp.
  rewrite put_tags_map in Hp by done.
  destruct (update_record_tags_handler _ _ _ _ _) as [pl' err]. destruct Hp as [Hok' Hp]. intros [= <- <-].
  eapply changed_law; [done..|]. intros i Hi. destruct (Hf _ _ Hi) as [Hv Hm]. split; [done|]. split; [done|].
  cbn. rewrite <-put_tags_map by done. by apply named_put.
Qed.

Lemma plugged_delete_tags_law s s' r t n l :
  plugged_ok s -> key_ok t n -> delete_tags t n l s = (s', r) ->
  plugged_ok s' /\ changes (plugged_view s) (plugged_view s') r (t, n)
    ((fun i => mkSItem (si_value i) (drop_tags l (si_tags i))) <$> plugged_view s !! (t, n)) /\
  (r = Ok () -> is_Some (plugged_view s !! (t, n))) /\
  (flawless -> if plugged_view s !! (t, n) then r = Ok () else is_error r WalletItemNotFound).
Proof using WL.
  intros (p & md & x & Hs) [Ht Hn]. destruct s as [pl h]. unfold delete_tags. start.
  pose proof Hs as (Hok & Ho & Hf).
  pose proof (pl_delete_tags pl h p md _ (base64_encode t) (base64_encode n) (_tags_names_to_json l) _ Hok (encoded_key t Ht) (encoded_key n Hn) (names_text l) Ho
    (names_text_roundtrip _)) as Hp.
  destruct (delete_record_tags_handler _ _ _ _ _) as [pl' err]. destruct Hp as [Hok' Hp]. intros [= <- <-].
  eapply changed_law; [done..|]. intros i Hi. destruct (Hf _ _ Hi) as [Hv Hm]. split; [|by split; [|apply named_drop]].
  unfold enc_item. cbn. by rewrite text_map_drop.
Qed.

(** A call whose state afterwards is known. *)
Lemma place_set pl pl' h p md v v' err :
  stands (mkPlugged pl h) p md v -> plugin_ok pl' -> map_Forall (fun _ => fine) v' ->
  promised flawless (observe pl) (observe pl') err (inr (set_place p (md, content_of v') (observe pl))) ->
  plugged_ok (mkPlugged pl' h) /\
  (result_of_code err = Ok () /\ plugged_view (mkPlugged pl' h) = v' \/
   (exists e, result_of_code err = Err e) /\ err <> ErrorCode_Success /\ plugged_view (mkPlugged pl' h) = v /\ ~ flawless).
Proof using WL.
  intros Hs Hok Hv [[-> Ho]|(He & Ho & Hfl)].
  - assert (Hs' : stands (mkPlugged pl' h) p md v') by by eapply stands_set.
    split; [by eapply stands_ok|]. left. split; [done|]. by eapply stands_view.
  - assert (Hs' : stands (mkPlugged pl' h) p md v) by (by eapply stands_same; [done|done|rewrite Ho..]).
    split; [by eapply stands_ok|]. right. split; [by rewrite result_err; eauto|]. split; [done|]. by rewrite (stands_view _ _ _ _ Hs').
Qed.

Lemma place_kept pl pl' h p md v err code :
  stands (mkPlugged pl h) p md v -> plugin_ok pl' ->
  promised flawless (observe pl) (observe pl') err (inl code) ->
  plugged_ok (mkPlugged pl' h) /\ plugged_view (mkPlugged pl' h) = v /\ err <> ErrorCode_Success /\
  (flawless -> err = code).
Proof using WL.
  intros Hs Hok (He & Ho & Hfl).
  assert (Hs' : stands (mkPlugged pl' h) p md v) by (by eapply stands_same; [done|done|rewrite Ho..]).
  split; [by eapply stands_ok|]. by rewrite (stands_view _ _ _ _ Hs').
Qed.

Lemma plugged_delete_law s s' r t n :
  plugged_ok s -> key_ok t n -> delete t n s = (s', r) ->
  plugged_ok s' /\ changes (plugged_view s) (plugged_view s') r (t, n) None /\
  (r = Ok () -> is_Some (plugged_view s !! (t, n))) /\
  (flawless -> if plugged_view s !! (t, n) then r = Ok () else is_error r WalletItemNotFound).
Proof using WL.
  intros (p & md & x & Hs) [Ht Hn]. destruct s as [pl h]. unfold delete. start.
  pose proof Hs as (Hok & Ho & Hf). rewrite (stands_view _ _ _ _ Hs).
  pose proof (pl_delete pl h p md _ (base64_encode t) (base64_encode n) Hok (encoded_key t Ht) (encoded_key n Hn) Ho) as Hp. rewrite content_lookup in Hp.
  destruct (delete_record_handler _ _ _ _) as [pl' err]. destruct Hp as [Hok' Hp]. intros [= <- <-].
  destruct (x !! (t, n)) as [i|] eqn:Ei; cbn [fmap option_fmap option_map] in Hp.
  - rewrite content_delete in Hp.
    destruct (place_set _ _ _ _ _ _ _ _ Hs Hok' (map_Forall_delete _ _ _ Hf) Hp)
      as [Hok2 [[-> ->]|([e ->] & _ & -> & Hnf)]]; by cbn.
  - destruct (place_kept _ _ _ _ _ _ _ _ Hs Hok' Hp) as (Hok2 & -> & He & Hfl). rewrite result_err by done.
    cbn. do 3 (split; [done|]). intros Hh. rewrite (Hfl Hh).
    apply (is_error_intro (error_of_code ErrorCode_WalletItemNotFound)).
Qed.

Lemma plugged_add_law s s' r t n v l :
  plugged_ok s -> key_ok t n -> ev_ok v -> NoDup (tag_name <$> l) -> add t n v l s = (s', r) ->
  plugged_ok s' /\ changes (plugged_view s) (plugged_view s') r (t, n) (Some (mkSItem v (tag_map l))) /\
  (r = Ok () -> plugged_view s !! (t, n) = None) /\
  (flawless -> if plugged_view s !! (t, n) then is_error r WalletItemAlreadyExists else r = Ok ()).
Proof using WL.
  intros (p & md & x & Hs) [Ht Hn] Hv Hnd. destruct s as [pl h]. unfold add. start.
  pose proof Hs as (Hok & Ho & Hf). rewrite (stands_view _ _ _ _ Hs).
  pose proof (pl_add pl h p md _ (base64_encode t) (base64_encode n) (ev_to_bytes v) _ _ Hok (encoded_key t Ht) (encoded_key n Hn) (tags_text l) Ho (tags_json_read l)
    (ev_bytes_not_empty v Hv)) as Hp.
  rewrite content_lookup, put_tags_map in Hp by done.
  destruct (add_record_handler _ _ _ _ _ _) as [pl' err]. destruct Hp as [Hok' Hp].
  set (exists_err := err_msg WalletItemAlreadyExists "Wallet item already exists").
  assert (Hres : (if decide (err = ErrorCode_WalletItemAlreadyExists) then sm_fail exists_err
                  else fun s => (s, result_of_code err)) (mkPlugged pl' h) =
                 (mkPlugged pl' h, if decide (err = ErrorCode_WalletItemAlreadyExists) then Err exists_err
                                   else result_of_code err)) by by destruct (decide _).
  rewrite Hres. intros [= <- <-].
  destruct (x !! (t, n)) as [i|] eqn:Ei; cbn [fmap option_fmap option_map] in Hp.
  - destruct (place_kept _ _ _ _ _ _ _ _ Hs Hok' Hp) as (Hok2 & -> & He & Hfl). rewrite result_err by done.
    split; [done|]. destruct (decide _) as [->|Hne].
    + cbn. do 2 (split; [done|]). intros _. apply (is_error_intro exists_err).
    + cbn. do 2 (split; [done|]). intros Hh. by destruct Hne; apply Hfl.
  - change (mkPItem (ev_to_bytes v) (text_map (tag_map l))) with (enc_item (mkSItem v (tag_map l))) in Hp.
    rewrite content_insert in Hp.
    assert (Hf' : map_Forall (fun _ => fine) (<[(t, n) := mkSItem v (tag_map l)]> x)).
    { apply map_Forall_insert_2; [|done]. split; [done|]. cbn. rewrite <-put_tags_map by done.
      by apply named_put, map_Forall_empty. }
    destruct (place_set _ _ _ _ _ _ _ _ Hs Hok' Hf' Hp) as [Hok2 [[Hr ->]|([e Hr] & He & -> & Hnf)]].
    + apply result_ok in Hr as ->. by cbn.
    + split; [done|]. destruct (decide _); [done|]. by rewrite Hr.
Qed.

(** *** Reading a record through its handle *)

(** The record [(o, (k, i))] is at the handle [r], and the storage stands. *)
Definition holding (s : PluggedStorage P) (p md : string) (v : View) (r : Z) (o : RecordOptions) (e : PEntry) : Prop :=
  stands s p md v /\ ob_records (observe (ps_plugin s)) !! own_key (ps_handle s) r = Some (o, e).

(** A read leaves everything as it was, gives what is wanted, and fails only by a flaw. *)
Definition reads_as {A} (m : SM (PluggedStorage P) A) (s : PluggedStorage P) (R : A -> Prop) : Prop :=
  forall s' res, m s = (s', res) ->
    plugin_ok (ps_plugin s') /\ ps_handle s' = ps_handle s /\ observe (ps_plugin s') = observe (ps_plugin s) /\
    match res with Ok a => R a | Err _ => ~ flawless | Panic => False end.

Lemma reads_as_bind {A B} (m : SM (PluggedStorage P) A) (k : A -> SM (PluggedStorage P) B) s R Q :
  reads_as m s R ->
  (forall a s', R a -> plugin_ok (ps_plugin s') -> ps_handle s' = ps_handle s ->
     observe (ps_plugin s') = observe (ps_plugin s) -> reads_as (k a) s' Q) ->
  reads_as (sm_bind m k) s Q.
Proof using Type.
  intros Hm Hk s' res. unfold sm_bind. destruct (m s) as [s1 [a|e|]] eqn:Em;
    destruct (Hm _ _ Em) as (Hok & Hh & Ho & Hr); [|by intros [= <- <-]|done].
  intros Ek. destruct (Hk a s1 Hr Hok Hh Ho _ _ Ek) as (H1 & H2 & H3 & H4).
  split; [done|]. split; [congruence|]. split; [congruence|done].
Qed.

Lemma reads_as_ret {A} (a : A) s (R : A -> Prop) : plugin_ok (ps_plugin s) -> R a -> reads_as (sm_ret a) s R.
Proof using Type. intros Hok HR s' res [= <- <-]. done. Qed.

Lemma reads_when {A} (b : bool) (m : SM (PluggedStorage P) A) s R :
  plugin_ok (ps_plugin s) -> (b = true -> reads_as m s R) ->
  reads_as (when b m) s (fun x => if b then exists a, x = Some a /\ R a else x = None).
Proof using Type.
  intros Hok Hm. unfold when. destruct b; [|by apply reads_as_ret].
  eapply reads_as_bind; [by apply Hm|]. intros a s' Ha Hok' _ _. apply reads_as_ret; eauto.
Qed.

(** A getter of the plugin, and what is made of its answer. *)
Lemma reads_getter {A} (call : plugin -> plugin * (ErrorCode * option bytes)) (use : option bytes -> outcome A) s R :
  (let '(pl', (err, out)) := call (ps_plugin s) in
   plugin_ok pl' /\ promised flawless (observe (ps_plugin s)) (observe pl') err (inr (observe (ps_plugin s))) /\
   (err = ErrorCode_Success -> exists a, use out = Ok a /\ R a)) ->
  reads_as (let* (err, out) := ffi call in let* _ := check err in sm_lift (use out)) s R.
Proof using Type.
  intros H s' res. unfold sm_bind at 1, ffi. destruct (call (ps_plugin s)) as [pl' [err out]].
  destruct H as (Hok & Hp & Hu). unfold check, sm_bind, sm_lift.
  destruct Hp as [[-> Ho]|(He & Ho & Hfl)].
  - destruct (Hu eq_refl) as (a & -> & HR). by intros [= <- <-].
  - rewrite result_err by done. by intros [= <- <-].
Qed.

Lemma holding_open s p md v r o e : holding s p md v r o e -> ob_opened (observe (ps_plugin s)) !! ps_handle s = Some p.
Proof using Type. by intros ((_ & [Ho _] & _) & _). Qed.

Lemma read_value_reads s p md v r o k i :
  holding s p md v r o (enc_key k, enc_item i) -> fine i -> retrieve_value o = true ->
  reads_as (read_value (ps_handle s) r) s (fun x => x = si_value i).
Proof using WL.
  intros Hh [Hv _] Ho. pose proof (pl_get_value (ps_plugin s) _ p r o _ _ (proj1 (proj1 Hh)) (holding_open _ _ _ _ _ _ _ Hh) (proj2 Hh)) as Hg.
  apply reads_getter. destruct (get_record_value_handler _ _ _) as [pl' [err out]]. destruct Hg as (Hok & Hp & Hout).
  split; [done|]. split; [done|]. intros He. rewrite (Hout He Ho). cbn. eexists. by rewrite ev_bytes_roundtrip.
Qed.

Definition tags_fine (i : SItem) (l : list Tag) : Prop := NoDup (tag_name <$> l) /\ tag_map l = si_tags i.

Lemma read_tags_reads s p md v r o k i :
  holding s p md v r o (enc_key k, enc_item i) -> fine i -> retrieve_tags o = true ->
  reads_as (read_tags (ps_handle s) r) s (tags_fine i).
Proof using WL.
  intros Hh [_ Hm] Ho. pose proof (pl_get_tags (ps_plugin s) _ p r o _ _ (proj1 (proj1 Hh)) (holding_open _ _ _ _ _ _ _ Hh) (proj2 Hh)) as Hg.
  apply (reads_getter _ (fun tags => let? tags_json := read_c_str tags "Tags contains non-utf8 symbol" in _tags_from_json tags_json)).
  destruct (get_record_tags_handler _ _ _) as [pl' [err out]]. destruct Hg as (Hok & Hp & Hout).
  split; [done|]. split; [done|]. intros He. destruct (Hout He Ho) as (l & json & -> & Hl & Hj).
  destruct (tags_read_back l json (si_tags i) Hl Hj Hm) as (tags & E & Ht). by exists tags.
Qed.

Lemma read_id_reads s p md v r o k i :
  holding s p md v r o (enc_key k, enc_item i) ->
  reads_as (read_key get_record_id_handler "Record id contains non-utf8 symbol" (ps_handle s) r) s (fun x => x = k.2).
Proof using WL.
  intros Hh. pose proof (pl_get_id (ps_plugin s) _ p r o _ _ (proj1 (proj1 Hh)) (holding_open _ _ _ _ _ _ _ Hh) (proj2 Hh)) as Hg.
  apply (reads_getter _ (fun key => let? text := read_c_str key "Record id contains non-utf8 symbol" in decode_base64 text)).
  destruct (get_record_id_handler _ _ _) as [pl' [err out]]. destruct Hg as (Hok & Hp & Hout).
  split; [done|]. split; [done|]. intros He. rewrite (Hout He). cbn [enc_key snd]. rewrite read_encoded. by eexists.
Qed.

Lemma read_type_reads s p md v r o k i :
  holding s p md v r o (enc_key k, enc_item i) -> retrieve_type o = true ->
  reads_as (read_key get_record_type_handler "Record type contains non-utf8 symbol" (ps_handle s) r) s (fun x => x = k.1).
Proof using WL.
  intros Hh Ho. pose proof (pl_get_type (ps_plugin s) _ p r o _ _ (proj1 (proj1 Hh)) (holding_open _ _ _ _ _ _ _ Hh) (proj2 Hh)) as Hg.
  apply (reads_getter _ (fun key => let? text := read_c_str key "Record type contains non-utf8 symbol" in decode_base64 text)).
  destruct (get_record_type_handler _ _ _) as [pl' [err out]]. destruct Hg as (Hok & Hp & Hout).
  split; [done|]. split; [done|]. intros He. rewrite (Hout He Ho). cbn [enc_key fst]. rewrite read_encoded. by eexists.
Qed.

Lemma holding_same s s' p md v r o e :
  holding s p md v r o e -> plugin_ok (ps_plugin s') -> ps_handle s' = ps_handle s ->
  observe (ps_plugin s') = observe (ps_plugin s) -> holding s' p md v r o e.
Proof using Type.
  intros ((_ & [Ho Hp] & Hv) & Hr) Hok Hh E. unfold holding, stands, open_at. rewrite E, Hh. done.
Qed.

(** The guard frees the record, whatever the body did. *)
Lemma guarded_reads {A} (body : SM (PluggedStorage P) A) s p md v r o e R s' res :
  holding s p md v r o e -> reads_as body s R ->
  guarded (ffi (free_record_handler (ps_handle s) r)) body s = (s', res) ->
  stands s' p md v /\ ps_handle s' = ps_handle s /\
  ob_searches (observe (ps_plugin s')) = ob_searches (observe (ps_plugin s)) /\
  match res with Ok a => R a | Err _ => ~ flawless | Panic => False end.
Proof using Type.
  intros Hh Hb. unfold guarded. destruct (body s) as [s1 r1] eqn:Eb.
  destruct (Hb _ _ Eb) as (Hok & Hhd & Ho & Hr).
  pose proof (holding_same _ s1 _ _ _ _ _ _ Hh Hok Hhd Ho) as Hh1.
  pose proof (pl_free_record (ps_plugin s1) (ps_handle s1) p r Hok (holding_open _ _ _ _ _ _ _ Hh1)
    (mk_is_Some _ _ (proj2 Hh1))) as Hf. rewrite Hhd in Hf.
  assert (H : forall x : outcome A, match x with Ok a => R a | Err _ => ~ flawless | Panic => False end ->
            ((ffi (free_record_handler (ps_handle s) r) s1).1, x) = (s', res) ->
            stands s' p md v /\ ps_handle s' = ps_handle s /\
            ob_searches (observe (ps_plugin s')) = ob_searches (observe (ps_plugin s)) /\
            match res with Ok a => R a | Err _ => ~ flawless | Panic => False end).
  { intros x Hx [= <- <-]. unfold ffi. destruct (free_record_handler _ _ _) as [pl' err]. destruct Hf as [Hok' Hp].
    destruct Hh1 as [(_ & [H1 H2] & H3) _]. unfold stands, open_at. cbn [fst ps_plugin ps_handle].
    destruct Hp as [[_ Ep]|(_ & Ep & _)]; rewrite Ep; cbn; split_and!; try done; by rewrite Ho. }
  destruct r1 as [a|err|]; [by apply H..|done].
Qed.

Lemma options_of_get_read text : options_of_get text = read_record_options text.
Proof using WL.
  unfold options_of_get. destruct (String.eqb_spec text "{}") as [->|]; [|done]. by rewrite options_default.
Qed.

(** What the two readers make of a record. *)
Lemma get_body_reads s p md v r o' o k i :
  holding s p md v r o' (enc_key k, enc_item i) -> holds_more o' o -> fine i ->
  reads_as (let* value := when (retrieve_value o) (read_value (ps_handle s) r) in
            let* tags := when (retrieve_tags o) (read_tags (ps_handle s) r) in
            sm_ret (mkStorageRecord k.2 value (if retrieve_type o then Some k.1 else None) tags)) s
    (record_of o k i).
Proof using WL.
  intros Hh (_ & Hmv & Hmt) Hi.
  eapply reads_as_bind; [apply reads_when; [apply Hh|intros Hb; exact (read_value_reads _ _ _ _ _ _ _ _ Hh Hi (Hmv Hb))]|].
  intros value s1 Hval Hok1 Hh1 Ho1. rewrite <-Hh1.
  pose proof (holding_same _ s1 _ _ _ _ _ _ Hh Hok1 Hh1 Ho1) as Hs1.
  eapply reads_as_bind; [apply reads_when; [done|intros Hb; exact (read_tags_reads _ _ _ _ _ _ _ _ Hs1 Hi (Hmt Hb))]|].
  intros tags s2 Htags Hok2 _ _. apply reads_as_ret; [done|]. unfold record_of. cbn.
  split; [done|]. split; [by destruct (retrieve_value o); [destruct Hval as (? & -> & ->)|]|]. split; [done|].
  destruct (retrieve_tags o); [|done]. destruct Htags as (l & -> & Ht). by exists l.
Qed.

Lemma plugged_get_law s s' r t n options :
  plugged_ok s -> key_ok t n -> get t n options s = (s', r) ->
  plugged_ok s' /\ plugged_view s' = plugged_view s /\ r <> Panic /\
  (forall rec, r = Ok rec -> exists o i,
     options_of_get options = Some o /\ plugged_view s !! (t, n) = Some i /\ record_of o (t, n) i rec) /\
  (flawless -> forall o, options_of_get options = Some o ->
     if plugged_view s !! (t, n) then exists rec, r = Ok rec else is_error r WalletItemNotFound).
Proof using WL.
  intros (p & md & v & Hs) [Ht Hn]. rewrite options_of_get_read. unfold get.
  rewrite !(lift_bind _ _ _ _ (c_string_encoded _)). rewrite (stands_view _ _ _ _ Hs).
  assert (Hfail : forall e : IndyError, (s, Err e) = (s', r) -> read_record_options options = None ->
    plugged_ok s' /\ plugged_view s' = v /\ r <> Panic /\
    (forall rec, r = Ok rec -> exists o i, read_record_options options = Some o /\ v !! (t, n) = Some i /\ record_of o (t, n) i rec) /\
    (flawless -> forall o, read_record_options options = Some o ->
       if v !! (t, n) then exists rec, r = Ok rec else is_error r WalletItemNotFound)).
  { intros e [= <- <-] Hno. split; [by eapply stands_ok|]. split; [by eapply stands_view|]. rewrite Hno. done. }
  unfold sm_bind at 1, sm_lift at 1, c_string. destruct (has_nul options) eqn:En.
  { intros H. apply (Hfail _ H). destruct (read_record_options options) eqn:E; [|done].
    apply options_no_nul in E. congruence. }
  unfold sm_bind at 1, sm_lift at 1. destruct (read_record_options options) as [o|] eqn:Eo; [|intros H; by apply (Hfail _ H)].
  clear Hfail. destruct s as [pl h]. unfold self_handle at 1, sm_bind at 1, sm_bind at 1, ffi at 1. cbn [ps_handle ps_plugin].
  pose proof Hs as (Hok & Ho & Hf).
  pose proof (pl_get_record pl h p md _ (base64_encode t) (base64_encode n) options o Hok
    (encoded_key t Ht) (encoded_key n Hn) (options_useful _ _ Eo) Ho Eo) as Hp. rewrite content_lookup in Hp.
  destruct (get_record_handler _ _ _ _ _) as [pl' [err rh]]. destruct Hp as (Hok' & o' & Hmore & Hp).
  unfold sm_bind at 1, check, sm_lift at 1.
  destruct (v !! (t, n)) as [i|] eqn:Ei; cbn [fmap option_fmap option_map] in Hp.
  - destruct Hp as [[-> Hob]|(He & Hob & Hfl)].
    + assert (Hh : holding (mkPlugged pl' h) p md v rh o' (enc_key (t, n), enc_item i)).
      { split; [by eapply stands_same; [done|done|rewrite Hob..]|]. cbn. rewrite Hob. cbn. by rewrite lookup_insert_eq. }
      intros Hg. eapply guarded_reads in Hg; [|exact Hh|exact (get_body_reads _ _ _ _ _ _ _ _ _ Hh Hmore (Hf _ _ Ei))].
      destruct Hg as (Hs' & _ & _ & Hr). split; [by eapply stands_ok|]. split; [by eapply stands_view|].
      destruct r as [rec|e|]; [|by split; [|split; [|intros Hh'; destruct (Hr Hh')]]|done].
      split; [done|]. split; [|by eauto]. intros rec' [= <-]. by exists o, i.
    + rewrite result_err by done. intros [= <- <-].
      assert (Hs' : stands (mkPlugged pl' h) p md v) by (by eapply stands_same; [done|done|rewrite Hob..]).
      split; [by eapply stands_ok|]. split; [by eapply stands_view|]. done.
  - destruct (place_kept _ _ _ _ _ _ _ _ Hs Hok' Hp) as (Hok2 & Hv2 & He & Hfl). rewrite result_err by done.
    intros [= <- <-]. do 2 (split; [done|]). split; [done|]. split; [done|]. intros Hh o2 _. rewrite (Hfl Hh).
    apply (is_error_intro (error_of_code ErrorCode_WalletItemNotFound)).
Qed.

(** *** Iterators *)
Definition plugged_options (it : PluggedStorageIterator) : RecordOptions :=
  mkRecordOptions (so_type (pi_options it)) (so_value (pi_options it)) (so_tags (pi_options it)).
Definition plugged_remaining (s : PluggedStorage P) (it : PluggedStorageIterator) : list ((bytes * bytes) * SItem) :=
  match ob_searches (observe (ps_plugin s)) !! own_key (pi_storage it) (pi_search it) with
  | Some (_, l) => omap dec_entry l
  | None => []
  end.

(** The search [l] is left at the handles of the iterator. *)
Definition searching (s : PluggedStorage P) (it : PluggedStorageIterator) (l : list ((bytes * bytes) * SItem)) : Prop :=
  pi_storage it = ps_handle s /\ Forall (fun x => fine x.2) l /\
  ob_searches (observe (ps_plugin s)) !! own_key (pi_storage it) (pi_search it) = Some (plugged_options it, map enc_entry l).
Definition plugged_it_ok (s : PluggedStorage P) (it : PluggedStorageIterator) : Prop := exists l, searching s it l.

Lemma searching_remaining s it l : searching s it l -> plugged_remaining s it = l.
Proof using WL. intros (_ & Hf & Hs). unfold plugged_remaining. rewrite Hs. by apply dec_enc_list. Qed.

Lemma plugged_get_all_law s s' r :
  plugged_ok s -> get_all s = (s', r) ->
  plugged_ok s' /\ plugged_view s' = plugged_view s /\ r <> Panic /\ (flawless -> exists it, r = Ok it) /\
  forall it, r = Ok it -> plugged_it_ok s' it /\
    plugged_remaining s' it ≡ₚ map_to_list (plugged_view s) /\ plugged_options it = mkRecordOptions true true true.
Proof using WL.
  intros (p & md & v & Hs). destruct s as [pl h]. pose proof Hs as (Hok & Ho & Hf). rewrite (stands_view _ _ _ _ Hs).
  unfold get_all, self_handle, sm_bind at 1, sm_bind at 1, ffi. cbn [ps_handle ps_plugin].
  pose proof (pl_search_all pl h p md _ Hok Ho) as Hp.
  destruct (search_all_records_handler _ _) as [pl' [err q]]. destruct Hp as (Hok' & l & Hl & Hp).
  unfold check, sm_bind, sm_lift. destruct Hp as [[-> Hob]|(He & Hob & Hfl)].
  - intros [= <- <-].
    assert (Hs' : stands (mkPlugged pl' h) p md v) by (by eapply stands_same; [done|done|rewrite Hob..]).
    split; [by eapply stands_ok|]. split; [by eapply stands_view|]. split; [done|]. split; [by eauto|].
    intros it [= <-]. rewrite content_list in Hl. apply Permutation_map_inv in Hl as (l' & -> & Hl').
    match goal with |- plugged_it_ok _ ?it /\ _ => assert (Hit : searching (mkPlugged pl' h) it l') end.
    { split; [done|]. split; [|cbn; rewrite Hob; cbn; by rewrite lookup_insert_eq].
      rewrite <-Hl'. apply map_Forall_to_list in Hf. eapply Forall_impl; [exact Hf|]. by intros []. }
    split; [by exists l'|]. split; [|done]. by rewrite (searching_remaining _ _ _ Hit), Hl'.
  - rewrite result_err by done. intros [= <- <-].
    assert (Hs' : stands (mkPlugged pl' h) p md v) by (by eapply stands_same; [done|done|rewrite Hob..]).
    split; [by eapply stands_ok|]. by split; [eapply stands_view|].
Qed.

Lemma next_body_reads s p md v r it k i :
  holding s p md v r (plugged_options it) (enc_key k, enc_item i) -> fine i ->
  reads_as (let* type_ := when (so_type (pi_options it))
                            (read_key get_record_type_handler "Record type contains non-utf8 symbol" (ps_handle s) r) in
            let* id := read_key get_record_id_handler "Record id contains non-utf8 symbol" (ps_handle s) r in
            let* value := when (so_value (pi_options it)) (read_value (ps_handle s) r) in
            let* tags := when (so_tags (pi_options it)) (read_tags (ps_handle s) r) in
            sm_ret (Some (mkStorageRecord id value type_ tags))) s
    (fun o => exists rec, o = Some rec /\ record_of (plugged_options it) k i rec).
Proof using WL.
  intros Hh Hi. eapply reads_as_bind; [apply reads_when; [apply Hh|intros Hb; exact (read_type_reads _ _ _ _ _ _ _ _ Hh Hb)]|].
  intros type_ s1 Htype Hok1 Hh1 Ho1. pose proof (holding_same _ s1 _ _ _ _ _ _ Hh Hok1 Hh1 Ho1) as Hs1. rewrite <-Hh1.
  eapply reads_as_bind; [exact (read_id_reads _ _ _ _ _ _ _ _ Hs1)|].
  intros id s2 Hid Hok2 Hh2 Ho2. pose proof (holding_same _ s2 _ _ _ _ _ _ Hs1 Hok2 Hh2 Ho2) as Hs2. rewrite <-Hh2.
  eapply reads_as_bind; [apply reads_when; [done|intros Hb; exact (read_value_reads _ _ _ _ _ _ _ _ Hs2 Hi Hb)]|].
  intros value s3 Hval Hok3 Hh3 Ho3. pose proof (holding_same _ s3 _ _ _ _ _ _ Hs2 Hok3 Hh3 Ho3) as Hs3. rewrite <-Hh3.
  eapply reads_as_bind; [apply reads_when; [done|intros Hb; exact (read_tags_reads _ _ _ _ _ _ _ _ Hs3 Hi Hb)]|].
  intros tags s4 Htags Hok4 _ _. apply reads_as_ret; [done|]. eexists. split; [done|]. unfold record_of. cbn.
  split; [done|]. split; [by destruct (so_value _); [destruct Hval as (? & -> & ->)|]|].
  split; [by destruct (so_type _); [destruct Htype as (? & -> & ->)|]|].
  destruct (so_tags _); [|done]. destruct Htags as (l & -> & Ht). by exists l.
Qed.

(** After a failed call the iterator is where it was. *)
Lemma searching_same pl pl' h it l :
  searching (mkPlugged pl h) it l -> observe pl' = observe pl -> searching (mkPlugged pl' h) it l.
Proof using Type. unfold searching. cbn. by intros H ->. Qed.

Lemma plugged_next_law s it s' it' r :
  plugged_ok s -> plugged_it_ok s it -> next (s, it) = ((s', it'), r) ->
  plugged_ok s' /\ plugged_it_ok s' it' /\ plugged_view s' = plugged_view s /\
  plugged_options it' = plugged_options it /\
  match r with
  | Ok None => plugged_remaining s it = [] /\ plugged_remaining s' it' = []
  | Ok (Some rec) => exists k i, plugged_remaining s it = (k, i) :: plugged_remaining s' it' /\
      record_of (plugged_options it) k i rec
  | Err _ => ~ flawless
  | Panic => False
  end.
Proof using WL.
  intros (p & md & v & Hs) (l & Hit). destruct s as [pl h]. pose proof Hs as (Hok & [Ho _] & _).
  rewrite (stands_view _ _ _ _ Hs), (searching_remaining _ _ _ Hit). pose proof Hit as (Hsh & Hl & Hse).
  unfold next. destruct (next_record it (mkPlugged pl h)) as [s1 r1] eqn:En. intros [= <- <- <-].
  unfold next_record, sm_bind at 1, ffi at 1 in En. rewrite Hsh in En, Hse. cbn [ps_handle ps_plugin] in *.
  pose proof (pl_fetch pl h p (pi_search it) _ _ Hok Ho Hse) as Hp.
  destruct (fetch_search_next_record_handler _ _ _) as [pl' [err rh]]. destruct Hp as [Hok' Hp].
  assert (Hback : observe pl' = observe pl -> stands (mkPlugged pl' h) p md v /\ searching (mkPlugged pl' h) it l).
  { intros E. split; [by eapply stands_same; [done|done|rewrite E..]|by eapply searching_same]. }
  destruct l as [|[k i] l].
  - destruct Hp as (He & Hob & Hfl). destruct (Hback Hob) as [Hs1 Hit1].
    assert (Hend : s1 = mkPlugged pl' h /\ match r1 with Ok None => True | Err _ => ~ flawless | _ => False end).
    { destruct (decide _) as [->|Hne]; [by injection En as <- <-|].
      unfold sm_bind, check, sm_lift in En. rewrite result_err in En by done. injection En as <- <-.
      split; [done|]. intros Hf. by destruct Hne; apply Hfl. }
    destruct Hend as [-> Hr]. split; [by eapply stands_ok|]. split; [by eexists|]. split; [by eapply stands_view|].
    split; [done|]. destruct r1 as [[]| |]; try done. split; [done|]. by apply searching_remaining.
  - destruct Hp as [Hp Hnf]. destruct (decide _) as [|_]; [done|]. unfold sm_bind at 1, check, sm_lift at 1 in En.
    destruct Hp as [[-> Hob]|(He & Hob & Hfl)].
    + assert (Hh : holding (mkPlugged pl' h) p md v rh (plugged_options it) (enc_key k, enc_item i)).
      { split; [by eapply stands_same; [done|done|rewrite Hob..]|]. cbn. rewrite Hob. cbn. by rewrite lookup_insert_eq. }
      apply Forall_cons in Hl as [Hi Hl].
      eapply guarded_reads in En; [|exact Hh|exact (next_body_reads _ _ _ _ _ _ _ _ Hh Hi)].
      destruct En as (Hs1 & Hh1 & Hse1 & Hr). cbn [ps_handle ps_plugin] in Hh1, Hse1.
      assert (Hit1 : searching s1 it l).
      { split; [by rewrite Hsh|]. split; [done|]. rewrite Hse1, Hsh, Hob. cbn. by rewrite lookup_insert_eq. }
      split; [by eapply stands_ok|]. split; [by eexists|]. split; [by eapply stands_view|]. split; [done|].
      destruct r1 as [o|e|]; [|done..]. destruct Hr as (rec & -> & Hrec). exists k, i.
      by rewrite (searching_remaining _ _ _ Hit1).
    + rewrite result_err in En by done. injection En as <- <-. destruct (Hback Hob) as [Hs1 Hit1].
      split; [by eapply stands_ok|]. split; [by eexists|]. by split; [eapply stands_view|].
Qed.

(** A plugged storage keeps the contract of the interface. *)
#[local] Instance Plugged_laws : StorageLaws (Plugged (P := P)) := {|
  view := plugged_view : @storage (Plugged (P := P)) -> View;
  st_ok := plugged_ok;
  healthy := flawless;
  remaining := plugged_remaining;
  it_options := plugged_options;
  it_ok := plugged_it_ok;
  law_add := plugged_add_law;
  law_update := plugged_update_law;
  law_add_tags := plugged_add_tags_law;
  law_update_tags := plugged_update_tags_law;
  law_delete_tags := plugged_delete_tags_law;
  law_delete := plugged_delete_law;
  law_get := plugged_get_law;
  law_get_all := plugged_get_all_law;
  law_next := plugged_next_law
|}.
End Laws.

(** ** Creating and opening *)
Section Places.
Context {P : Plugin} {C : Codec} {T : TagsCodec} {O : OptionsCodec} {WL : WireLaws C T O} {PL : PluginLaws P}.

Lemma opt_text s : match s with Some s => has_nul s = false | None => True end -> c_string_opt s = Ok s.
Proof using Type. destruct s as [s|]; [|done]. unfold c_string_opt, c_string. by intros ->. Qed.

Lemma content_empty : content_of ∅ = ∅.
Proof using Type. unfold content_of. by rewrite fmap_empty, kmap_empty. Qed.

Lemma metadata_read s p md v :
  flawless -> stands s p (base64_encode md) v ->
  exists s', get_storage_metadata s = (s', Ok md) /\ stands s' p (base64_encode md) v.
Proof using WL.
  intros Hfl Hs. destruct s as [pl h]. pose proof Hs as (Hok & Ho & Hv).
  unfold get_storage_metadata, self_handle, sm_bind at 1, sm_bind at 1, ffi at 1. cbn [ps_handle ps_plugin].
  pose proof (pl_get_metadata pl h p _ _ Hok Ho) as Hg.
  destruct (get_storage_metadata_handler h pl) as [pl' [err [out m]]]. destruct Hg as (Hok' & Hp & Hout).
  destruct Hp as [[-> Hob]|(_ & _ & Hn)]; [|done]. rewrite (Hout eq_refl).
  unfold sm_bind, check, sm_lift, guarded. rewrite read_encoded. cbn [result_of_code]. unfold ffi. cbn [ps_plugin ps_handle].
  destruct (pl_free_metadata pl' h m Hok') as [Hok2 Hob2]. destruct (free_storage_metadata_handler h m pl') as [pl2 e2].
  eexists. split; [reflexivity|]. cbn in Hok2, Hob2. eapply stands_same; [done|done|rewrite Hob2, Hob..]; done.
Qed.

(** A storage made at a free place opens there, empty and with its metadata. *)
Theorem created_storage_opens id config cred md pl p :
  flawless -> plugin_ok pl -> names_place id config cred = Some p -> ob_places (observe pl) !! p = None -> md <> [] ->
  has_nul id = false -> match config with Some s => has_nul s = false | None => True end ->
  match cred with Some s => has_nul s = false | None => True end ->
  exists pl1 s s', create_storage id config cred md pl = (pl1, Ok ()) /\
    open_storage id config cred pl1 = (ps_plugin s, Ok s) /\ (0 <= ps_handle s)%Z /\
    plugged_ok s /\ plugged_view s = ∅ /\ get_storage_metadata s = (s', Ok md).
Proof using WL.
  intros Hfl Hok Hp Hfree Hmd Hid Hcfg Hcr.
  assert (Eid : c_string id = Ok id) by (unfold c_string; by rewrite Hid).
  unfold create_storage, open_storage.
  pose proof (pl_create pl id config cred (base64_encode md) p Hok Hp (encoded_text md Hmd)) as Hc.
  destruct (create_handler _ _ _ _ pl) as [pl1 err] eqn:Ec. destruct Hc as [Hok1 Hc]. rewrite Hfree in Hc.
  destruct Hc as [[-> Hob1]|(_ & _ & Hn)]; [|done].
  pose proof (pl_open pl1 id config cred p Hok1 Hp) as Hop.
  destruct (open_handler _ _ _ pl1) as [pl2 [err h]] eqn:Eo. destruct Hop as (Hok2 & Hop & Hh).
  rewrite Hob1 in Hop. cbn in Hop. rewrite lookup_insert_eq in Hop.
  destruct Hop as [[-> Hob2]|(_ & _ & Hn)]; [|done]. destruct (Hh eq_refl) as [Hpos _].
  assert (Hs : stands (mkPlugged pl2 h) p (base64_encode md) ∅).
  { split; [done|]. split; [|apply map_Forall_empty]. cbn. rewrite Hob2. cbn. rewrite content_empty.
    by split; cbn; rewrite lookup_insert_eq. }
  destruct (metadata_read _ _ _ _ Hfl Hs) as (s' & Em & _).
  exists pl1, (mkPlugged pl2 h), s'. split; [|split; [|split; [done|]]].
  - unfold sm_bind, sm_lift. rewrite Eid, c_string_encoded, !opt_text by done. by rewrite Ec.
  - unfold sm_bind, sm_lift. rewrite Eid, !opt_text by done. by rewrite Eo.
  - split; [by eapply stands_ok|]. split; [by eapply stands_view|done].
Qed.
End Places.

(** ** The refinement *)

