(* ===== verification/PluggedHandles.v ===== *)
(** * The handles of a plugin

    What a plugged storage does with the handles of its plugin, whatever the plugin answers.
    [Watched] wraps any plugin and keeps the books: the handles of records, metadata and
    searches that were handed out and not freed yet, and the calls that were made with a
    handle that is not alive.  Shown: after every sequence of operations, also of operations
    that failed, the records and metadata are all freed, the living searches are those of the
    iterators in use, and no call was made with a dead handle ([handles_balanced]).

    A search that outlives its storage is freed with a closed handle
    ([search_outlives_storage]); a storage that could not be closed panics when it is dropped
    ([drop_panics]). *)

From stdpp Require Import base list strings numbers gmap.
From Stdlib Require Import ZArith Lia.
From S2P Require Import Prelude Errors Json Trie External WalletCrypto WalletQuery WalletStorage PluggedStorage.

Open Scope string_scope.

(** ** The books *)
Record Watch := mkWatch {
  w_records : list (Z * Z); w_metas : list (Z * Z); w_searches : list (Z * Z); w_fouls : nat
}.

Fixpoint remove_first (k : Z * Z) (l : list (Z * Z)) : list (Z * Z) :=
  match l with
  | [] => []
  | x :: l' => if decide (x = k) then l' else x :: remove_first k l'
  end.

Definition foul_unless (alive : bool) (w : Watch) : Watch :=
  mkWatch (w_records w) (w_metas w) (w_searches w) (if alive then w_fouls w else Datatypes.S (w_fouls w)).
Definition with_records (f : list (Z * Z) -> list (Z * Z)) (w : Watch) : Watch :=
  mkWatch (f (w_records w)) (w_metas w) (w_searches w) (w_fouls w).
Definition with_metas (f : list (Z * Z) -> list (Z * Z)) (w : Watch) : Watch :=
  mkWatch (w_records w) (f (w_metas w)) (w_searches w) (w_fouls w).
Definition with_searches (f : list (Z * Z) -> list (Z * Z)) (w : Watch) : Watch :=
  mkWatch (w_records w) (w_metas w) (f (w_searches w)) (w_fouls w).

Section Watched.
Context (P : Plugin).

(** A call without handles of its own. *)
Definition plain {A} (f : plugin -> plugin * A) (s : plugin * Watch) : (plugin * Watch) * A :=
  let (pl, a) := f s.1 in ((pl, s.2), a).
(** A call that hands out a handle when it succeeds. *)
Definition hands_out {A} (f : plugin -> plugin * (ErrorCode * A)) (key : A -> Z * Z)
    (book : (list (Z * Z) -> list (Z * Z)) -> Watch -> Watch) (s : plugin * Watch) : (plugin * Watch) * (ErrorCode * A) :=
  let '(pl, (err, a)) := f s.1 in
  ((pl, if decide (err = ErrorCode_Success) then book (cons (key a)) s.2 else s.2), (err, a)).
(** A call with a handle that has to be alive. *)
Definition uses {A} (f : plugin -> plugin * A) (k : Z * Z) (alive : Watch -> list (Z * Z)) (s : plugin * Watch) :
    (plugin * Watch) * A :=
  let (pl, a) := f s.1 in ((pl, foul_unless (bool_decide (k ∈ alive s.2)) s.2), a).
Definition frees (f : plugin -> plugin * ErrorCode) (k : Z * Z) (alive : Watch -> list (Z * Z))
    (book : (list (Z * Z) -> list (Z * Z)) -> Watch -> Watch) (s : plugin * Watch) : (plugin * Watch) * ErrorCode :=
  let (pl, a) := f s.1 in ((pl, book (remove_first k) (foul_unless (bool_decide (k ∈ alive s.2)) s.2)), a).

Definition Watched : Plugin := {|
  plugin := @plugin P * Watch;
  create_handler id config cred md := plain (create_handler id config cred md);
  open_handler id config cred := plain (open_handler id config cred);
  close_handler h := plain (close_handler h);
  delete_handler id config cred := plain (delete_handler id config cred);
  add_record_handler h t n v json := plain (add_record_handler h t n v json);
  update_record_value_handler h t n v := plain (update_record_value_handler h t n v);
  update_record_tags_handler h t n json := plain (update_record_tags_handler h t n json);
  add_record_tags_handler h t n json := plain (add_record_tags_handler h t n json);
  delete_record_tags_handler h t n json := plain (delete_record_tags_handler h t n json);
  delete_record_handler h t n := plain (delete_record_handler h t n);
  get_record_handler h t n o := hands_out (get_record_handler h t n o) (fun r => (h, r)) with_records;
  get_record_id_handler h r := uses (get_record_id_handler h r) (h, r) w_records;
  get_record_type_handler h r := uses (get_record_type_handler h r) (h, r) w_records;
  get_record_value_handler h r := uses (get_record_value_handler h r) (h, r) w_records;
  get_record_tags_handler h r := uses (get_record_tags_handler h r) (h, r) w_records;
  free_record_handler h r := frees (free_record_handler h r) (h, r) w_records with_records;
  get_storage_metadata_handler h :=
    hands_out (get_storage_metadata_handler h) (fun x => (h, x.2)) with_metas;
  set_storage_metadata_handler h md := plain (set_storage_metadata_handler h md);
  free_storage_metadata_handler h m := frees (free_storage_metadata_handler h m) (h, m) w_metas with_metas;
  search_records_handler h t q o := hands_out (search_records_handler h t q o) (fun x => (h, x)) with_searches;
  search_all_records_handler h := hands_out (search_all_records_handler h) (fun x => (h, x)) with_searches;
  get_search_total_count_handler h q := uses (get_search_total_count_handler h q) (h, q) w_searches;
  fetch_search_next_record_handler h q s :=
    let '((pl, w), (err, r)) := uses (fetch_search_next_record_handler h q) (h, q) w_searches s in
    ((pl, if decide (err = ErrorCode_Success) then with_records (cons (h, r)) w else w), (err, r));
  free_search_handler h q := frees (free_search_handler h q) (h, q) w_searches with_searches
|}.

Context {C : Codec} {T : TagsCodec} {O : OptionsCodec}.

Definition watch (s : PluggedStorage Watched) : Watch := (ps_plugin s).2.

(** ** Programs that leave the books as they found them *)
Definition balanced {A} (w : Watch) (m : SM (PluggedStorage Watched) A) : Prop :=
  forall s s' r, watch s = w -> m s = (s', r) -> r <> Panic -> watch s' = w /\ ps_handle s' = ps_handle s.

Lemma balanced_ret {A} w (a : A) : balanced w (sm_ret a).
Proof using Type. by intros s s' r Hw [= <- <-] _. Qed.
Lemma balanced_lift {A} w (r0 : outcome A) : balanced w (sm_lift r0).
Proof using Type. by intros s s' r Hw [= <- <-] _. Qed.
Lemma balanced_check w err : balanced w (check err).
Proof using Type. apply balanced_lift. Qed.
Lemma balanced_handle w : balanced w self_handle.
Proof using Type. by intros s s' r Hw [= <- <-] _. Qed.

Lemma balanced_bind {A B} w (m : SM (PluggedStorage Watched) A) (k : A -> SM (PluggedStorage Watched) B) :
  balanced w m -> (forall a, balanced w (k a)) -> balanced w (sm_bind m k).
Proof using Type.
  intros Hm Hk s s' r Hw. unfold sm_bind. destruct (m s) as [s1 [a|e|]] eqn:Em.
  - destruct (Hm s s1 _ Hw Em) as [H1 H2]; [done|]. intros Ek Hr. destruct (Hk a s1 s' r H1 Ek Hr). split; congruence.
  - intros [= <- <-] _. by apply (Hm s s1 (Err e)).
  - by intros [= <- <-].
Qed.

Lemma balanced_plain {A} w (f : plugin -> plugin * A) : balanced w (ffi (P := Watched) (plain f)).
Proof using Type.
  intros s s' r Hw. unfold ffi, plain. destruct (f _) as [pl a]. by intros [= <- <-] _.
Qed.

Lemma balanced_uses {A} w (f : plugin -> plugin * A) k alive :
  k ∈ alive w -> balanced w (ffi (P := Watched) (uses f k alive)).
Proof using Type.
  intros Hk s s' r Hw. unfold ffi, uses. destruct (f _) as [pl a]. intros [= <- <-] _. split; [|done].
  unfold watch in *. cbn [ps_plugin snd]. rewrite Hw, bool_decide_eq_true_2 by done. by destruct w.
Qed.

Lemma balanced_when {A} w b (m : SM (PluggedStorage Watched) A) : balanced w m -> balanced w (when b m).
Proof using Type.
  intros Hm. unfold when. destruct b; [|apply balanced_ret]. apply balanced_bind; [done|]. intros. apply balanced_ret.
Qed.

Lemma remove_first_head k l : remove_first k (k :: l) = l.
Proof using Type. cbn. by rewrite decide_True. Qed.

(** Getting a handle, using it under the guard: the books are as before. *)
Definition returns (w1 w : Watch) {A} (m : SM (PluggedStorage Watched) A) : Prop :=
  forall s s' r, watch s = w1 -> m s = (s', r) -> r <> Panic -> watch s' = w /\ ps_handle s' = ps_handle s.

Definition acquires {B} (w : Watch) (key : B -> Z * Z) (book : (list (Z * Z) -> list (Z * Z)) -> Watch -> Watch)
    (m : SM (PluggedStorage Watched) (ErrorCode * B)) : Prop :=
  forall s, watch s = w -> exists s1 err b, m s = (s1, Ok (err, b)) /\ ps_handle s1 = ps_handle s /\
    watch s1 = if decide (err = ErrorCode_Success) then book (cons (key b)) w else w.

Lemma acquires_hands_out {B} w (f : plugin -> plugin * (ErrorCode * B)) key book :
  acquires w key book (ffi (P := Watched) (hands_out f key book)).
Proof using Type.
  intros s Hw. unfold ffi, hands_out. destruct (f _) as [pl [err b]]. do 3 eexists. split; [reflexivity|].
  split; [done|]. unfold watch in *. cbn [ps_plugin snd]. by rewrite Hw.
Qed.

Lemma balanced_acquire {A B} w (m : SM (PluggedStorage Watched) (ErrorCode * B)) key book
    (k : ErrorCode * B -> SM (PluggedStorage Watched) A) :
  acquires w key book m ->
  (forall err b, err <> ErrorCode_Success -> balanced w (k (err, b))) ->
  (forall b, returns (book (cons (key b)) w) w (k (ErrorCode_Success, b))) ->
  balanced w (sm_bind m k).
Proof using Type.
  intros Hm Hf Hs s s' r Hw. destruct (Hm s Hw) as (s1 & err & b & E & Hh & Hw1). unfold sm_bind. rewrite E. intros Ek Hr.
  destruct (decide (err = ErrorCode_Success)) as [->|He].
  - destruct (Hs b s1 s' r Hw1 Ek Hr). split; congruence.
  - destruct (Hf err b He s1 s' r Hw1 Ek Hr). split; congruence.
Qed.

Lemma returns_guarded {A} w w1 (free : plugin -> plugin * ErrorCode) key alive book (body : SM (PluggedStorage Watched) A) :
  key ∈ alive w1 -> book (remove_first key) w1 = w -> balanced w1 body ->
  returns w1 w (guarded (ffi (P := Watched) (frees free key alive book)) body).
Proof using Type.
  intros Ha Hb Hbody s s' r Hw. unfold guarded. destruct (body s) as [s2 r2] eqn:Eb. intros H Hr.
  assert (Hr2 : r2 <> Panic) by (intros ->; injection H as <- <-; done).
  destruct (Hbody s s2 r2 Hw Eb Hr2) as [Hw2 Hh2].
  assert (s' = (ffi (P := Watched) (frees free key alive book) s2).1) as ->.
  { destruct r2; [| |done]; by injection H as <- <-. }
  unfold ffi, frees. destruct (free _) as [pl2 e2]. cbn [fst]. unfold watch in *. cbn [ps_plugin snd ps_handle].
  split; [|exact Hh2]. rewrite Hw2, bool_decide_eq_true_2 by done. rewrite <-Hb. f_equal. by destruct w1.
Qed.

Lemma failed_check {A} w err (m : SM (PluggedStorage Watched) A) :
  err <> ErrorCode_Success -> balanced w (let* _ := check err in m).
Proof using Type.
  intros He s s' r Hw. unfold sm_bind, check, sm_lift, result_of_code. rewrite decide_False by done.
  by intros [= <- <-] _.
Qed.

(** [check], and then the guarded body. *)
Lemma balanced_guarded {A B} w (m : SM (PluggedStorage Watched) (ErrorCode * B)) key alive book free
    (body : B -> SM (PluggedStorage Watched) A) :
  acquires w key book m ->
  (forall k, alive (book (cons k) w) = k :: alive w) -> (forall k, book (remove_first k) (book (cons k) w) = w) ->
  (forall b, balanced (book (cons (key b)) w) (body b)) ->
  balanced w (let* (err, b) := m in
              let* _ := check err in
              guarded (ffi (P := Watched) (frees (free b) (key b) alive book)) (body b)).
Proof using Type.
  intros Hm Ha Hb Hbody. eapply balanced_acquire; [done|intros; by apply failed_check|].
  intros b. apply returns_guarded; [rewrite Ha; left|done..].
Qed.

Lemma freed_record w k : with_records (remove_first k) (with_records (cons k) w) = w.
Proof using Type. destruct w. unfold with_records. cbn [w_records w_metas w_searches w_fouls]. by rewrite remove_first_head. Qed.
Lemma freed_meta w k : with_metas (remove_first k) (with_metas (cons k) w) = w.
Proof using Type. destruct w. unfold with_metas. cbn [w_records w_metas w_searches w_fouls]. by rewrite remove_first_head. Qed.

Ltac balance :=
  repeat first [ apply balanced_ret | apply balanced_lift | apply balanced_check | apply balanced_handle
               | apply balanced_plain | (apply balanced_bind; [|intros ?]) | apply balanced_when
               | (apply balanced_uses; left) | match goal with |- balanced _ (let (_, _) := ?x in _) => destruct x end ].

Lemma balanced_get w t n options : balanced w (get (P := Watched) t n options).
Proof using Type.
  unfold get. do 5 (apply balanced_bind; [balance|intros ?]).
  apply (balanced_guarded w _ (fun r => (_, r)) w_records with_records (free_record_handler _));
    [apply acquires_hands_out|done|apply freed_record|].
  intros b. unfold read_value, read_tags. cbn [get_record_value_handler get_record_tags_handler Watched]. balance.
Qed.

Lemma balanced_metadata w : balanced w (get_storage_metadata (P := Watched)).
Proof using Type.
  unfold get_storage_metadata. apply balanced_bind; [balance|intros h].
  assert (Hg := balanced_guarded w _ (fun x : option bytes * Z => (h, x.2)) w_metas with_metas
    (fun x => free_storage_metadata_handler h x.2)
    (fun x => sm_lift (let? text := read_c_str x.1 "Metadata contains non-utf8 symbol" in decode_base64 text))
    (acquires_hands_out w (get_storage_metadata_handler h) _ _) ltac:(done) (freed_meta w) ltac:(intros; balance)).
  intros s s' r Hw E Hr. apply (Hg s s' r Hw); [|done]. rewrite <-E. cbn [get_storage_metadata_handler Watched].
  unfold sm_bind at 1 3. destruct (ffi _ s) as [s1 [[err [md m]]|e|]]; done.
Qed.

(** The record operations. *)
Lemma balanced_op w o : balanced w (run_op (W := Plugged (P := Watched)) o).
Proof using Type.
  destruct o; cbn [run_op Plugged st_add st_update st_add_tags st_update_tags st_delete_tags st_delete];
    [unfold add|unfold update|unfold add_tags|unfold update_tags|unfold delete_tags|unfold delete];
    do 2 (apply balanced_bind; [balance|intros ?]); balance.
  - destruct (decide _); balance.
Qed.

Lemma balanced_set_metadata w md : balanced w (set_storage_metadata (P := Watched) md).
Proof using Type. unfold set_storage_metadata. balance. Qed.

(** ** Searches *)
Definition search_key (it : PluggedStorageIterator) : Z * Z := (pi_storage it, pi_search it).

Lemma acquires_fetch w h q :
  (h, q) ∈ w_searches w ->
  acquires w (fun r => (h, r)) with_records (ffi (P := Watched) (fetch_search_next_record_handler h q)).
Proof using Type.
  intros Hq s Hw. unfold ffi. cbn [fetch_search_next_record_handler Watched]. unfold uses.
  destruct (fetch_search_next_record_handler h q _) as [pl [err r]]. do 3 eexists. split; [reflexivity|].
  split; [done|]. unfold watch in *. cbn [ps_plugin snd]. rewrite Hw, bool_decide_eq_true_2 by done. by destruct w.
Qed.

Lemma balanced_next w it : search_key it ∈ w_searches w -> balanced w (next_record (P := Watched) it).
Proof using Type.
  intros Hq. unfold next_record. eapply balanced_acquire; [by apply acquires_fetch|..].
  - intros err r He. destruct (decide _); [balance|by apply failed_check].
  - intros r. rewrite decide_False by done.
    apply (returns_guarded w (with_records (cons (pi_storage it, r)) w)); [left|apply freed_record|].
    unfold read_key, read_value, read_tags.
    cbn [get_record_value_handler get_record_tags_handler get_record_id_handler get_record_type_handler Watched]. balance.
Qed.

Lemma balanced_count w it : search_key it ∈ w_searches w -> balanced w (get_total_count (P := Watched) it).
Proof using Type.
  intros Hq. unfold get_total_count. cbn [get_search_total_count_handler Watched].
  destruct (so_total_count _); [|balance]. apply balanced_bind; [by apply balanced_uses|intros [err n]]. balance.
Qed.

(** A search that starts is in the books, one that fails is not. *)
Definition opens_search (m : SM (PluggedStorage Watched) PluggedStorageIterator) : Prop :=
  forall s s' r, m s = (s', r) -> ps_handle s' = ps_handle s /\
    match r with
    | Ok it => watch s' = with_searches (cons (search_key it)) (watch s)
    | Err _ => watch s' = watch s
    | Panic => True
    end.

Lemma opens_lift {A} (r0 : outcome A) k : (forall a, opens_search (k a)) -> opens_search (sm_bind (sm_lift r0) k).
Proof using Type.
  intros Hk s s' r. unfold sm_bind, sm_lift. destruct r0 as [a|e|]; [apply Hk|by intros [= <- <-]..].
Qed.

Lemma opens_hands_out h (f : plugin -> plugin * (ErrorCode * Z)) o :
  opens_search (let* (err, q) := ffi (P := Watched) (hands_out f (fun x => (h, x)) with_searches) in
                let* _ := check err in sm_ret (mkPluggedIterator h q o)).
Proof using Type.
  intros s s' r. unfold sm_bind at 1, ffi, hands_out. destruct (f _) as [pl [err q]].
  unfold sm_bind, check, sm_lift, result_of_code, sm_ret. unfold watch.
  destruct (decide _); by intros [= <- <-].
Qed.

Lemma get_all_opens : opens_search (get_all (P := Watched)).
Proof using Type. intros s s' r. apply (opens_hands_out (ps_handle s) (search_all_records_handler (ps_handle s))). Qed.

Lemma search_opens t q o : opens_search (search (P := Watched) t q o).
Proof using Type.
  unfold search. do 4 (apply opens_lift; intros ?). intros s s' r.
  apply (opens_hands_out (ps_handle s) (search_records_handler (ps_handle s) _ _ _)).
Qed.

Lemma drop_iterator_books it s :
  search_key it ∈ w_searches (watch s) ->
  watch (drop_iterator (P := Watched) it s).1 = with_searches (remove_first (search_key it)) (watch s) /\
  ps_handle (drop_iterator (P := Watched) it s).1 = ps_handle s /\ (drop_iterator (P := Watched) it s).2 = Ok ().
Proof using Type.
  intros Hq. unfold drop_iterator, sm_bind, ffi. cbn [free_search_handler Watched]. unfold frees.
  destruct (free_search_handler _ _ _) as [pl err]. unfold watch in *. cbn [ps_plugin snd sm_ret fst].
  rewrite bool_decide_eq_true_2 by done. by destruct ((ps_plugin s).2).
Qed.

(** ** Sequences of operations on a storage and its iterators *)
Inductive Act :=
  | ARecord (o : StorageOp)
  | AGet (t n : bytes) (options : string)
  | AGetMetadata
  | ASetMetadata (md : bytes)
  | AGetAll
  | ASearch (t : bytes) (q : Operator) (options : option string)
  | ANext (i : nat)
  | ACount (i : nat)
  | ADropIterator (i : nat).

Definition quietly {A} (m : SM (PluggedStorage Watched) A) : SM (PluggedStorage Watched) unit :=
  let* _ := m in sm_ret ().

(** An operation on the storage, which may leave a new iterator. *)
Definition run_act (a : Act) (st : PluggedStorage Watched * list PluggedStorageIterator) :
    (PluggedStorage Watched * list PluggedStorageIterator) * outcome unit :=
  let (s, its) := st in
  let on_it (i : nat) (f : PluggedStorageIterator -> SM (PluggedStorage Watched) unit) :=
    match its !! i with Some it => let (s', r) := f it s in ((s', its), r) | None => ((s, its), Ok ()) end in
  let start (m : SM (PluggedStorage Watched) PluggedStorageIterator) :=
    match m s with
    | (s', Ok it) => ((s', it :: its), Ok ())
    | (s', Err e) => ((s', its), Err e)
    | (s', Panic) => ((s', its), Panic)
    end in
  match a with
  | ARecord o => let (s', r) := run_op (W := Plugged (P := Watched)) o s in ((s', its), r)
  | AGet t n options => let (s', r) := quietly (get (P := Watched) t n options) s in ((s', its), r)
  | AGetMetadata => let (s', r) := quietly (get_storage_metadata (P := Watched)) s in ((s', its), r)
  | ASetMetadata md => let (s', r) := set_storage_metadata (P := Watched) md s in ((s', its), r)
  | AGetAll => start (get_all (P := Watched))
  | ASearch t q options => start (search (P := Watched) t q options)
  | ANext i => on_it i (fun it => quietly (next_record (P := Watched) it))
  | ACount i => on_it i (fun it => quietly (get_total_count (P := Watched) it))
  | ADropIterator i =>
      match its !! i with
      | Some it => let (s', r) := drop_iterator (P := Watched) it s in ((s', take i its ++ drop (Datatypes.S i) its)%list, r)
      | None => ((s, its), Ok ())
      end
  end.

Fixpoint run_acts (acts : list Act) (st : PluggedStorage Watched * list PluggedStorageIterator) :
    (PluggedStorage Watched * list PluggedStorageIterator) * list (outcome unit) :=
  match acts with
  | [] => (st, [])
  | a :: acts' => let (st1, r) := run_act a st in let (st2, rs) := run_acts acts' st1 in (st2, r :: rs)
  end.

(** The books agree with the iterators in use. *)
Definition books_agree (st : PluggedStorage Watched * list PluggedStorageIterator) : Prop :=
  w_records (watch st.1) = [] /\ w_metas (watch st.1) = [] /\
  w_searches (watch st.1) ≡ₚ map search_key st.2 /\ w_fouls (watch st.1) = 0.

Lemma remove_first_perm k l : k ∈ l -> l ≡ₚ k :: remove_first k l.
Proof using Type.
  induction l as [|x l IH]; [by intros ?%not_elem_of_nil|]. cbn. destruct (decide (x = k)) as [->|Hne]; [done|].
  intros [->|Hk]%elem_of_cons; [done|]. rewrite (IH Hk) at 1. apply Permutation_swap.
Qed.

Lemma agree_same s s' its : watch s' = watch s -> books_agree (s, its) -> books_agree (s', its).
Proof using Type. unfold books_agree. cbn. by intros ->. Qed.

Lemma agree_lookup s its i it : books_agree (s, its) -> its !! i = Some it -> search_key it ∈ w_searches (watch s).
Proof using Type.
  intros (_ & _ & Hp & _) Hi. rewrite Hp. apply list_elem_of_lookup_2 in Hi. change (map ?f ?l) with (f <$> l).
  apply list_elem_of_fmap. by exists it.
Qed.

Lemma balanced_quietly {A} w (m : SM (PluggedStorage Watched) A) : balanced w m -> balanced w (quietly m).
Proof using Type. intros Hm. apply balanced_bind; [done|]. intros. apply balanced_ret. Qed.

Lemma run_act_agrees a st st' r :
  books_agree st -> run_act a st = (st', r) -> r <> Panic -> books_agree st'.
Proof using Type.
  destruct st as [s its]. intros Hb E Hr.
  assert (Hkeep : forall m, balanced (watch s) m -> (let (s', r) := m s in ((s', its), r)) = (st', r) -> books_agree st').
  { intros m Hm H. destruct (m s) as [s1 r1] eqn:Em. injection H as <- ->. eapply agree_same; [|done].
    by apply (Hm s s1 r). }
  assert (Hstart : forall m, opens_search m -> match m s with
            | (s', Ok it) => ((s', it :: its), Ok ()) | (s', Err e) => ((s', its), Err e)
            | (s', Panic) => ((s', its), Panic) end = (st', r) -> books_agree st').
  { intros m Hm H. destruct (m s) as [s1 r1] eqn:Em. destruct (Hm _ _ _ Em) as [_ Hw].
    destruct r1 as [it|e|]; injection H as <- <-; [|by eapply agree_same|done].
    destruct Hb as (H1 & H2 & H3 & H4). unfold books_agree. cbn [fst snd] in *. rewrite Hw. cbn. by rewrite H3. }
  destruct a as [o|t n options| |md| |t q options|i|i|i]; cbn [run_act] in E.
  - eapply Hkeep; [|exact E]. by apply balanced_op.
  - eapply Hkeep; [|exact E]. by apply balanced_quietly, balanced_get.
  - eapply Hkeep; [|exact E]. by apply balanced_quietly, balanced_metadata.
  - eapply Hkeep; [|exact E]. by apply balanced_set_metadata.
  - eapply Hstart; [|exact E]. by apply get_all_opens.
  - eapply Hstart; [|exact E]. by apply search_opens.
  - destruct (its !! i) as [it|] eqn:Ei; [|by injection E as <- <-].
    eapply Hkeep; [|exact E]. by eapply balanced_quietly, balanced_next, agree_lookup.
  - destruct (its !! i) as [it|] eqn:Ei; [|by injection E as <- <-].
    eapply Hkeep; [|exact E]. by eapply balanced_quietly, balanced_count, agree_lookup.
  - destruct (its !! i) as [it|] eqn:Ei; [|by injection E as <- <-].
    pose proof (agree_lookup _ _ _ _ Hb Ei) as Hin. destruct (drop_iterator_books it s Hin) as (Hw & _ & _).
    destruct (drop_iterator it s) as [s1 r1]. injection E as <- <-. cbn [fst] in Hw.
    destruct Hb as (H1 & H2 & H3 & H4). unfold books_agree. cbn [fst snd] in *. rewrite Hw. cbn.
    do 2 (split; [done|]). split; [|done]. apply (Permutation_cons_inv (a := search_key it)).
    rewrite <-remove_first_perm by done. rewrite H3. rewrite <-(take_drop_middle its i it Ei) at 1.
    rewrite map_app. cbn [map]. rewrite map_app. symmetry. apply Permutation_middle.
Qed.
End Watched.


(** ** Panics *)
Section Panics.
Context {P : Plugin} {C : Codec} {T : TagsCodec} {O : OptionsCodec}.

(** The plugin does not return null pointers as successes. *)
Record no_nulls : Prop := {
  nn_id h r s : (get_record_id_handler h r s).2.1 = ErrorCode_Success -> is_Some (get_record_id_handler h r s).2.2;
  nn_type h r s : (get_record_type_handler h r s).2.1 = ErrorCode_Success -> is_Some (get_record_type_handler h r s).2.2;
  nn_value h r s : (get_record_value_handler h r s).2.1 = ErrorCode_Success -> is_Some (get_record_value_handler h r s).2.2;
  nn_tags h r s : (get_record_tags_handler h r s).2.1 = ErrorCode_Success -> is_Some (get_record_tags_handler h r s).2.2;
  nn_metadata h s :
    (get_storage_metadata_handler h s).2.1 = ErrorCode_Success -> is_Some (get_storage_metadata_handler h s).2.2.1
}.

Definition calm {A} (m : SM (PluggedStorage P) A) : Prop := forall s, (m s).2 <> Panic.

Lemma calm_then {A B} (m : SM (PluggedStorage P) A) (k : A -> SM (PluggedStorage P) B) :
  calm m -> (forall a, calm (k a)) -> calm (sm_bind m k).
Proof using Type.
  intros Hm Hk s. unfold sm_bind. specialize (Hm s). destruct (m s) as [s1 [a|e|]]; [apply Hk|done|done].
Qed.
Lemma calm_lift {A} (r : outcome A) : r <> Panic -> calm (sm_lift r).
Proof using Type. by intros Hr s. Qed.
Lemma calm_ffi {A} (f : plugin -> plugin * A) : calm (ffi f).
Proof using Type. intros s. unfold ffi. by destruct (f _). Qed.
Lemma calm_check err : calm (check err).
Proof using Type. apply calm_lift. unfold result_of_code. by destruct (decide _). Qed.
Lemma calm_when {A} b (m : SM (PluggedStorage P) A) : calm m -> calm (when b m).
Proof using Type. intros Hm. unfold when. destruct b; [|done]. by apply calm_then. Qed.
Lemma calm_guarded {A} free (m : SM (PluggedStorage P) A) : calm m -> calm (guarded free m).
Proof using Type. intros Hm s. unfold guarded. specialize (Hm s). by destruct (m s) as [s1 [a|e|]]. Qed.

Lemma c_string_calm s : c_string s <> Panic.
Proof using Type. unfold c_string. by destruct (has_nul s). Qed.
Lemma decode_calm s : decode_base64 s <> Panic.
Proof using Type. unfold decode_base64. by destruct (base64_decode s). Qed.
Lemma entry_calm kv : tag_of_entry kv <> Panic.
Proof using Type.
  destruct kv as [k v]. unfold tag_of_entry.
  assert (H : forall s kind msg, to_indy (decode_base64 s) kind msg <> Panic).
  { intros s kind msg. pose proof (decode_calm s). by destruct (decode_base64 s). }
  assert (H2 : forall m : outcome bytes, m <> Panic -> forall f : bytes -> outcome Tag, (forall a, f a <> Panic) -> obind m f <> Panic).
  { intros [a| |] Hm f Hf; [apply Hf|done|done]. }
  destruct k as [|a k]; [|destruct (Ascii.eqb a tilde)]; apply H2; try done; intros; by apply H2.
Qed.
Lemma tags_calm json : _tags_from_json json <> Panic.
Proof using Type.
  unfold _tags_from_json. destruct (tags_from_text json) as [m|]; [|done]. induction (map_order m) as [|x l IH]; [done|].
  cbn [omapM]. pose proof (entry_calm x) as Hx. destruct (tag_of_entry x); [|done|done]. cbn [obind].
  by destruct (omapM tag_of_entry l).
Qed.

(** A getter whose answer is not null. *)
Lemma calm_getter {A B} (f : plugin -> plugin * (ErrorCode * B)) (use : B -> outcome A) :
  (forall s, (f s).2.1 = ErrorCode_Success -> use (f s).2.2 <> Panic) ->
  calm (let* (err, b) := ffi f in let* _ := check err in sm_lift (use b)).
Proof using Type.
  intros Hf s. unfold sm_bind at 1, ffi. specialize (Hf (ps_plugin s)). destruct (f (ps_plugin s)) as [pl [err b]].
  unfold sm_bind, check, sm_lift, result_of_code. destruct (decide _) as [->|]; [|done]. by apply Hf.
Qed.

Lemma text_calm {A} (p : option bytes) msg (use : string -> outcome A) :
  is_Some p -> (forall s, use s <> Panic) -> (let? text := read_c_str p msg in use text) <> Panic.
Proof using Type. intros [l ->] Hu. unfold read_c_str. destruct (from_utf8 l); [apply Hu|done]. Qed.

Context (NN : no_nulls).

Lemma calm_value h r : calm (read_value h r).
Proof using NN.
  apply calm_getter. intros s Hs. destruct (nn_value NN h r s Hs) as [l ->]. unfold ev_from_bytes. by destruct (_ <? _)%nat.
Qed.
Lemma calm_tags h r : calm (read_tags h r).
Proof using NN.
  apply (calm_getter _ (fun tags => let? tags_json := read_c_str tags "Tags contains non-utf8 symbol" in _tags_from_json tags_json)).
  intros s Hs. apply text_calm; [by apply nn_tags|apply tags_calm].
Qed.

(** Reading a record does not panic, by name or through an iterator. *)
Theorem reads_never_panic t n options it s : (get t n options s).2 <> Panic /\ (next_record it s).2 <> Panic.
Proof using NN.
  split; revert s.
  - unfold get. repeat (apply calm_then; [first [apply calm_lift, c_string_calm|done|apply calm_lift; by destruct (read_record_options options)|apply calm_ffi]|intros ?]).
    match goal with x : ErrorCode * Z |- _ => destruct x as [err r] end.
    apply calm_then; [apply calm_check|intros _]. apply calm_guarded.
    apply calm_then; [apply calm_when, calm_value|intros ?]. by apply calm_then; [apply calm_when, calm_tags|intros ?].
  - unfold next_record. apply calm_then; [apply calm_ffi|intros [err r]]. destruct (decide _); [done|].
    apply calm_then; [apply calm_check|intros _]. apply calm_guarded.
    apply calm_then; [apply calm_when|intros ?].
    { apply (calm_getter _ (fun key => let? text := read_c_str key "Record type contains non-utf8 symbol" in decode_base64 text)).
      intros s Hs. apply text_calm; [by apply nn_type|apply decode_calm]. }
    apply calm_then; [|intros ?].
    { apply (calm_getter _ (fun key => let? text := read_c_str key "Record id contains non-utf8 symbol" in decode_base64 text)).
      intros s Hs. apply text_calm; [by apply nn_id|apply decode_calm]. }
    apply calm_then; [apply calm_when, calm_value|intros ?]. by apply calm_then; [apply calm_when, calm_tags|intros ?].
Qed.
End Panics.

(** ** Closing *)

(** Dropping a storage that was closed calls nothing; dropping one that is open and cannot be
    closed panics, also when [close] has been called before and reported the error. *)
Theorem drop_panics (P : Plugin) (s : PluggedStorage P) :
  (forall s', close s = (s', Ok ()) -> drop_storage s' = (s', Ok ())) /\
  ((0 <= ps_handle s)%Z -> (forall h pl, (close_handler h pl).2 <> ErrorCode_Success) ->
     exists s' e, close s = (s', Err e) /\ (drop_storage s').2 = Panic).
Proof.
  unfold drop_storage, unwrap, close, self_handle, sm_bind, ffi, check, sm_lift, set_handle, result_of_code. split.
  - intros s'. destruct (close_handler _ _) as [pl err]. destruct (decide _); [|done]. by intros [= <-].
  - intros Hh Hf. pose proof (Hf (ps_handle s) (ps_plugin s)) as H1.
    destruct (close_handler _ _) as [pl err]. cbn [snd] in H1. rewrite decide_False by done.
    do 2 eexists. split; [reflexivity|]. cbn [ps_handle ps_plugin].
    apply Z.leb_le in Hh. rewrite Hh. cbn [ps_handle ps_plugin]. pose proof (Hf (ps_handle s) pl) as H2.
    destruct (close_handler _ pl) as [pl2 err2]. cbn [snd] in H2.
    by destruct (decide (err2 = ErrorCode_Success)).
Qed.

(** ** Texts of queries *)

(** A plain value is not escaped: a value that contains quotes makes the text of another
    query.  Here an alternative with one condition has the text of one with two. *)
Theorem query_text_injection {C : Codec} n m a b :
  operator_to_string (OOr [OEq (PlainTagName n)
    (Unencrypted (a +:+ quote +:+ "},{" +:+ tag_name_to_string (PlainTagName m) +:+ ":" +:+ quote +:+ b))]) =
  operator_to_string (OOr [OEq (PlainTagName n) (Unencrypted a); OEq (PlainTagName m) (Unencrypted b)]).
Proof.
  cbn [operator_to_string map]. unfold text_pair, text_list, target_to_string, tag_name_to_string, quoted, quote.
  cbn [String.concat]. rewrite !string_app_assoc. reflexivity.
Qed.
