(* ===== verification/InmemWallet.v ===== *)
(** * The in-memory storage plugin

    [libindy/indy-utils/src/inmem_wallet.rs]: the plugin that comes with libindy and that its
    tests register.  The maps behind its locks are the fields of [InmemWallet]; [Inmem] is the
    plugin.  Handles are cast from the counter of [sequence.rs], by [as_i32] in the code.

    It does not keep all the promises a plugged storage relies on: adding a record that is
    there replaces it ([inmem_add_replaces]), a search ignores its query and takes types by
    prefix ([inmem_search_is_loose]), and the error codes of creating, opening and deleting are
    others ([inmem_codes]).  [Corrected] changes just that, and keeps them
    ([Corrected_laws]), so that the theorems of [PluggedLaws.v] hold for it. *)

From stdpp Require Import base list strings numbers gmap.
From Stdlib Require Import ZArith Lia.
From S2P Require Import Prelude Errors Json Trie External WalletCrypto WalletQuery WalletStorage WalletService PluggedStorage PluggedLaws PluggedHandles.

Open Scope string_scope.

(** ** State *)
Record InmemWalletRecord := mkInmemRecord {
  ir_type : string; ir_id : string; ir_value : bytes; ir_tags : string
}.
Record InmemWalletEntity := mkInmemEntity {
  ie_metadata : string; ie_records : gmap string InmemWalletRecord
}.

Record InmemWallet := mkInmem {
  INMEM_WALLETS : gmap string InmemWalletEntity;
  INMEM_OPEN_WALLETS : gmap Z string;
  ACTIVE_METADATAS : gmap Z string;
  ACTIVE_RECORDS : gmap Z InmemWalletRecord;
  ACTIVE_SEARCHES : gmap Z (list InmemWalletRecord);
  IDS_COUNTER : Z
}.

Definition set_wallets (x : gmap string InmemWalletEntity) (s : InmemWallet) : InmemWallet :=
  mkInmem x (INMEM_OPEN_WALLETS s) (ACTIVE_METADATAS s) (ACTIVE_RECORDS s) (ACTIVE_SEARCHES s) (IDS_COUNTER s).
Definition set_open (x : gmap Z string) (s : InmemWallet) : InmemWallet :=
  mkInmem (INMEM_WALLETS s) x (ACTIVE_METADATAS s) (ACTIVE_RECORDS s) (ACTIVE_SEARCHES s) (IDS_COUNTER s).
Definition set_metadatas (x : gmap Z string) (s : InmemWallet) : InmemWallet :=
  mkInmem (INMEM_WALLETS s) (INMEM_OPEN_WALLETS s) x (ACTIVE_RECORDS s) (ACTIVE_SEARCHES s) (IDS_COUNTER s).
Definition set_records (x : gmap Z InmemWalletRecord) (s : InmemWallet) : InmemWallet :=
  mkInmem (INMEM_WALLETS s) (INMEM_OPEN_WALLETS s) (ACTIVE_METADATAS s) x (ACTIVE_SEARCHES s) (IDS_COUNTER s).
Definition set_searches (x : gmap Z (list InmemWalletRecord)) (s : InmemWallet) : InmemWallet :=
  mkInmem (INMEM_WALLETS s) (INMEM_OPEN_WALLETS s) (ACTIVE_METADATAS s) (ACTIVE_RECORDS s) x (IDS_COUNTER s).
Definition set_ids (x : Z) (s : InmemWallet) : InmemWallet :=
  mkInmem (INMEM_WALLETS s) (INMEM_OPEN_WALLETS s) (ACTIVE_METADATAS s) (ACTIVE_RECORDS s) (ACTIVE_SEARCHES s) x.

(** ** The functions *)

(** [check_useful_c_str!]: not empty and UTF-8. *)
Definition useful (s : string) : bool := negb (String.eqb s "") && utf8_valid (as_bytes s).

Section Functions.
Context (cast : Z -> Z) {T : TagsCodec} (order : gmap string InmemWalletRecord -> list (string * InmemWalletRecord)).

(** [sequence::get_next_id]. *)
Definition get_next_id (s : InmemWallet) : InmemWallet * Z :=
  (set_ids (IDS_COUNTER s + 1)%Z s, cast (IDS_COUNTER s + 1)%Z).

(** A call that leaves what its pointers point to alone: handles are [-1], pointers null. *)
Definition failed {A} (none : A) (err : ErrorCode) : ErrorCode * A := (err, none).
Definition code (err : ErrorCode) : ErrorCode := err.

Definition create (id : string) (_ _ : option string) (metadata : string) (s : InmemWallet) : InmemWallet * ErrorCode :=
  if negb (useful id) then (s, ErrorCode_CommonInvalidStructure)
  else if negb (useful metadata) then (s, ErrorCode_CommonInvalidStructure)
  else
    match INMEM_WALLETS s !! id with
    | Some _ => (s, ErrorCode_CommonInvalidState)
    | None => (set_wallets (<[id := mkInmemEntity metadata ∅]> (INMEM_WALLETS s)) s, ErrorCode_Success)
    end.

Definition open (id : string) (_ _ : option string) (s : InmemWallet) : InmemWallet * (ErrorCode * Z) :=
  if negb (useful id) then (s, (ErrorCode_CommonInvalidStructure, -1)%Z)
  else
    match INMEM_WALLETS s !! id with
    | None => (s, (ErrorCode_CommonInvalidState, -1)%Z)
    | Some _ =>
        let (s, xhandle) := get_next_id s in
        (set_open (<[xhandle := id]> (INMEM_OPEN_WALLETS s)) s, (ErrorCode_Success, xhandle))
    end.

Definition build_record_id (type_ id : string) : string := type_ +:+ "-" +:+ id.

(** The open wallet of a handle, or the error the functions return. *)
Definition with_wallet {A} (xhandle : Z) (fail : ErrorCode -> A)
    (k : string -> InmemWalletEntity -> InmemWallet * A) (s : InmemWallet) : InmemWallet * A :=
  match INMEM_OPEN_WALLETS s !! xhandle with
  | None => (s, fail ErrorCode_CommonInvalidState)
  | Some id =>
      match INMEM_WALLETS s !! id with
      | None => (s, fail ErrorCode_CommonInvalidState)
      | Some wallet => k id wallet
      end
  end.

(** [wallet.records] replaced. *)
Definition put_wallet_records (id : string) (wallet : InmemWalletEntity) (records : gmap string InmemWalletRecord)
    (s : InmemWallet) : InmemWallet :=
  set_wallets (<[id := mkInmemEntity (ie_metadata wallet) records]> (INMEM_WALLETS s)) s.

Definition add_record (xhandle : Z) (type_ id : string) (value : bytes) (tags_json : string) (s : InmemWallet) :
    InmemWallet * ErrorCode :=
  if negb (useful type_) then (s, ErrorCode_CommonInvalidStructure)
  else if negb (useful id) then (s, ErrorCode_CommonInvalidStructure)
  else if (length value =? 0)%nat then (s, ErrorCode_CommonInvalidStructure)
  else if negb (useful tags_json) then (s, ErrorCode_CommonInvalidStructure)
  else
    with_wallet xhandle code (fun wallet_id wallet =>
      (put_wallet_records wallet_id wallet
         (<[build_record_id type_ id := mkInmemRecord type_ id value tags_json]> (ie_records wallet)) s,
       ErrorCode_Success)) s.

(** [records.get_mut(..)] and what is done to the record. *)
Definition change_record (xhandle : Z) (type_ id : string)
    (change : InmemWalletRecord -> ErrorCode + InmemWalletRecord) (s : InmemWallet) : InmemWallet * ErrorCode :=
  with_wallet xhandle code (fun wallet_id wallet =>
    match ie_records wallet !! build_record_id type_ id with
    | None => (s, ErrorCode_WalletItemNotFound)
    | Some record =>
        match change record with
        | inl err => (s, err)
        | inr record =>
            (put_wallet_records wallet_id wallet (<[build_record_id type_ id := record]> (ie_records wallet)) s,
             ErrorCode_Success)
        end
    end) s.

Definition update_record_value (xhandle : Z) (type_ id : string) (joined_value : bytes) (s : InmemWallet) :
    InmemWallet * ErrorCode :=
  if negb (useful type_) then (s, ErrorCode_CommonInvalidStructure)
  else if negb (useful id) then (s, ErrorCode_CommonInvalidStructure)
  else if (length joined_value =? 0)%nat then (s, ErrorCode_CommonInvalidStructure)
  else change_record xhandle type_ id
         (fun record => inr (mkInmemRecord (ir_type record) (ir_id record) joined_value (ir_tags record))) s.

Definition with_tags (record : InmemWalletRecord) (tags : string) : InmemWalletRecord :=
  mkInmemRecord (ir_type record) (ir_id record) (ir_value record) tags.

Definition add_record_tags (xhandle : Z) (type_ id tags_json : string) (s : InmemWallet) : InmemWallet * ErrorCode :=
  if negb (useful type_) then (s, ErrorCode_CommonInvalidStructure)
  else if negb (useful id) then (s, ErrorCode_CommonInvalidStructure)
  else if negb (useful tags_json) then (s, ErrorCode_CommonInvalidStructure)
  else change_record xhandle type_ id
         (fun record =>
            match tags_from_text tags_json, tags_from_text (ir_tags record) with
            | Some new_tags, Some curr_tags => inr (with_tags record (tags_to_text (map_order (new_tags ∪ curr_tags))))
            | _, _ => inl ErrorCode_CommonInvalidStructure
            end) s.

Definition update_record_tags (xhandle : Z) (type_ id tags_json : string) (s : InmemWallet) : InmemWallet * ErrorCode :=
  if negb (useful type_) then (s, ErrorCode_CommonInvalidStructure)
  else if negb (useful id) then (s, ErrorCode_CommonInvalidStructure)
  else if negb (useful tags_json) then (s, ErrorCode_CommonInvalidStructure)
  else change_record xhandle type_ id (fun record => inr (with_tags record tags_json)) s.

Definition delete_record_tags (xhandle : Z) (type_ id tag_names : string) (s : InmemWallet) : InmemWallet * ErrorCode :=
  if negb (useful type_) then (s, ErrorCode_CommonInvalidStructure)
  else if negb (useful id) then (s, ErrorCode_CommonInvalidStructure)
  else if negb (useful tag_names) then (s, ErrorCode_CommonInvalidStructure)
  else change_record xhandle type_ id
         (fun record =>
            match tags_from_text (ir_tags record), names_from_text tag_names with
            | Some curr_tags, Some tags_delete =>
                inr (with_tags record
                       (tags_to_text (map_order (foldl (fun m tag_name => base.delete tag_name m) curr_tags tags_delete))))
            | _, _ => inl ErrorCode_CommonInvalidStructure
            end) s.

Definition delete_record (xhandle : Z) (type_ id : string) (s : InmemWallet) : InmemWallet * ErrorCode :=
  if negb (useful type_) then (s, ErrorCode_CommonInvalidStructure)
  else if negb (useful id) then (s, ErrorCode_CommonInvalidStructure)
  else
    with_wallet xhandle code (fun wallet_id wallet =>
      match ie_records wallet !! build_record_id type_ id with
      | None => (s, ErrorCode_WalletItemNotFound)
      | Some _ =>
          (put_wallet_records wallet_id wallet (base.delete (build_record_id type_ id) (ie_records wallet)) s,
           ErrorCode_Success)
      end) s.

Definition get_record (xhandle : Z) (type_ id options_json : string) (s : InmemWallet) : InmemWallet * (ErrorCode * Z) :=
  if negb (useful type_) then (s, (ErrorCode_CommonInvalidStructure, -1)%Z)
  else if negb (useful id) then (s, (ErrorCode_CommonInvalidStructure, -1)%Z)
  else if negb (useful options_json) then (s, (ErrorCode_CommonInvalidStructure, -1)%Z)
  else
    with_wallet xhandle (failed (-1)%Z) (fun _ wallet =>
      match ie_records wallet !! build_record_id type_ id with
      | None => (s, (ErrorCode_WalletItemNotFound, -1)%Z)
      | Some record =>
          let (s, record_handle) := get_next_id s in
          (set_records (<[record_handle := record]> (ACTIVE_RECORDS s)) s, (ErrorCode_Success, record_handle))
      end) s.

(** The four getters. *)
Definition get_field (field : InmemWalletRecord -> bytes) (xhandle record_handle : Z) (s : InmemWallet) :
    InmemWallet * (ErrorCode * option bytes) :=
  match INMEM_OPEN_WALLETS s !! xhandle with
  | None => (s, (ErrorCode_CommonInvalidState, None))
  | Some _ =>
      match ACTIVE_RECORDS s !! record_handle with
      | None => (s, (ErrorCode_CommonInvalidState, None))
      | Some record => (s, (ErrorCode_Success, Some (field record)))
      end
  end.
Definition get_record_id := get_field (fun record => as_bytes (ir_id record)).
Definition get_record_type := get_field (fun record => as_bytes (ir_type record)).
Definition get_record_value := get_field ir_value.
Definition get_record_tags := get_field (fun record => as_bytes (ir_tags record)).

Definition free_record (xhandle record_handle : Z) (s : InmemWallet) : InmemWallet * ErrorCode :=
  match INMEM_OPEN_WALLETS s !! xhandle with
  | None => (s, ErrorCode_CommonInvalidState)
  | Some _ =>
      match ACTIVE_RECORDS s !! record_handle with
      | None => (s, ErrorCode_CommonInvalidState)
      | Some _ => (set_records (base.delete record_handle (ACTIVE_RECORDS s)) s, ErrorCode_Success)
      end
  end.

Definition get_storage_metadata (xhandle : Z) (s : InmemWallet) : InmemWallet * (ErrorCode * (option bytes * Z)) :=
  with_wallet xhandle (failed (None, -1)%Z) (fun _ wallet =>
    let (s, handle) := get_next_id s in
    (set_metadatas (<[handle := ie_metadata wallet]> (ACTIVE_METADATAS s)) s,
     (ErrorCode_Success, (Some (as_bytes (ie_metadata wallet)), handle)))) s.

Definition set_storage_metadata (xhandle : Z) (metadata : string) (s : InmemWallet) : InmemWallet * ErrorCode :=
  if negb (useful metadata) then (s, ErrorCode_CommonInvalidStructure)
  else
    with_wallet xhandle code (fun wallet_id wallet =>
      (set_wallets (<[wallet_id := mkInmemEntity metadata (ie_records wallet)]> (INMEM_WALLETS s)) s,
       ErrorCode_Success)) s.

Definition free_storage_metadata (xhandle metadata_handler : Z) (s : InmemWallet) : InmemWallet * ErrorCode :=
  match INMEM_OPEN_WALLETS s !! xhandle with
  | None => (s, ErrorCode_CommonInvalidState)
  | Some _ =>
      match ACTIVE_METADATAS s !! metadata_handler with
      | None => (s, ErrorCode_CommonInvalidState)
      | Some _ => (set_metadatas (base.delete metadata_handler (ACTIVE_METADATAS s)) s, ErrorCode_Success)
      end
  end.

(** [key.starts_with(&type_)]: the query and the options are not looked at. *)
Definition search_records (xhandle : Z) (type_ _query_json _options_json : string) (s : InmemWallet) :
    InmemWallet * (ErrorCode * Z) :=
  if negb (useful type_) then (s, (ErrorCode_CommonInvalidStructure, -1)%Z)
  else
    with_wallet xhandle (failed (-1)%Z) (fun _ wallet =>
      let search_records :=
        map snd (filter (fun kr => String.prefix type_ kr.1 = true) (order (ie_records wallet))) in
      let (s, search_handle) := get_next_id s in
      (set_searches (<[search_handle := search_records]> (ACTIVE_SEARCHES s)) s, (ErrorCode_Success, search_handle))) s.

Definition search_all_records (xhandle : Z) (s : InmemWallet) : InmemWallet * (ErrorCode * Z) :=
  with_wallet xhandle (failed (-1)%Z) (fun _ wallet =>
    let search_records := map snd (order (ie_records wallet)) in
    let (s, search_handle) := get_next_id s in
    (set_searches (<[search_handle := search_records]> (ACTIVE_SEARCHES s)) s, (ErrorCode_Success, search_handle))) s.

Definition get_search_total_count (xhandle search_handle : Z) (s : InmemWallet) : InmemWallet * (ErrorCode * nat) :=
  match INMEM_OPEN_WALLETS s !! xhandle with
  | None => (s, (ErrorCode_CommonInvalidState, 0))
  | Some _ =>
      match ACTIVE_SEARCHES s !! search_handle with
      | Some records => (s, (ErrorCode_Success, length records))
      | None => (s, (ErrorCode_CommonInvalidState, 0))
      end
  end.

(** [records.pop()] takes the last one. *)
Definition fetch_search_next_record (xhandle search_handle : Z) (s : InmemWallet) : InmemWallet * (ErrorCode * Z) :=
  match INMEM_OPEN_WALLETS s !! xhandle with
  | None => (s, (ErrorCode_CommonInvalidState, -1)%Z)
  | Some _ =>
      match ACTIVE_SEARCHES s !! search_handle with
      | None => (s, (ErrorCode_CommonInvalidState, -1)%Z)
      | Some records =>
          match rev records with
          | [] => (s, (ErrorCode_WalletItemNotFound, -1)%Z)
          | record :: rest =>
              let s := set_searches (<[search_handle := rev rest]> (ACTIVE_SEARCHES s)) s in
              let (s, handle) := get_next_id s in
              (set_records (<[handle := record]> (ACTIVE_RECORDS s)) s, (ErrorCode_Success, handle))
          end
      end
  end.

Definition free_search (xhandle search_handle : Z) (s : InmemWallet) : InmemWallet * ErrorCode :=
  match INMEM_OPEN_WALLETS s !! xhandle with
  | None => (s, ErrorCode_CommonInvalidState)
  | Some _ =>
      match ACTIVE_SEARCHES s !! search_handle with
      | None => (s, ErrorCode_CommonInvalidState)
      | Some _ => (set_searches (base.delete search_handle (ACTIVE_SEARCHES s)) s, ErrorCode_Success)
      end
  end.

Definition close (xhandle : Z) (s : InmemWallet) : InmemWallet * ErrorCode :=
  match INMEM_OPEN_WALLETS s !! xhandle with
  | None => (s, ErrorCode_CommonInvalidState)
  | Some _ => (set_open (base.delete xhandle (INMEM_OPEN_WALLETS s)) s, ErrorCode_Success)
  end.

Definition delete (name : string) (_ _ : option string) (s : InmemWallet) : InmemWallet * ErrorCode :=
  if negb (useful name) then (s, ErrorCode_CommonInvalidStructure)
  else
    match INMEM_WALLETS s !! name with
    | None => (s, ErrorCode_CommonInvalidState)
    | Some _ => (set_wallets (base.delete name (INMEM_WALLETS s)) s, ErrorCode_Success)
    end.

Definition cleanup (s : InmemWallet) : InmemWallet := set_open ∅ (set_wallets ∅ s).

Definition Inmem : Plugin := {|
  plugin := InmemWallet;
  create_handler := create;
  open_handler := open;
  close_handler := close;
  delete_handler := delete;
  add_record_handler := add_record;
  update_record_value_handler := update_record_value;
  update_record_tags_handler := update_record_tags;
  add_record_tags_handler := add_record_tags;
  delete_record_tags_handler := delete_record_tags;
  delete_record_handler := delete_record;
  get_record_handler := get_record;
  get_record_id_handler := get_record_id;
  get_record_type_handler := get_record_type;
  get_record_value_handler := get_record_value;
  get_record_tags_handler := get_record_tags;
  free_record_handler := free_record;
  get_storage_metadata_handler := get_storage_metadata;
  set_storage_metadata_handler := set_storage_metadata;
  free_storage_metadata_handler := free_storage_metadata;
  search_records_handler := search_records;
  search_all_records_handler := search_all_records;
  get_search_total_count_handler := get_search_total_count;
  fetch_search_next_record_handler := fetch_search_next_record;
  free_search_handler := free_search
|}.
End Functions.

(** ** With the documented answers *)
Section Corrected.
Context (cast : Z -> Z) {T : TagsCodec} (order : gmap string InmemWalletRecord -> list (string * InmemWalletRecord)).

(** [create], [open], [delete] and [add_record] with the codes that tell what is the matter. *)
Definition corrected_create (id : string) (config cred : option string) (metadata : string) (s : InmemWallet) :=
  if bool_decide (is_Some (INMEM_WALLETS s !! id)) then (s, ErrorCode_WalletAlreadyExistsError)
  else create id config cred metadata s.
Definition corrected_open (id : string) (config cred : option string) (s : InmemWallet) :=
  if bool_decide (is_Some (INMEM_WALLETS s !! id)) then open cast id config cred s
  else (s, (ErrorCode_WalletNotFoundError, -1)%Z).
Definition corrected_delete (id : string) (config cred : option string) (s : InmemWallet) :=
  if bool_decide (is_Some (INMEM_WALLETS s !! id)) then delete id config cred s
  else (s, ErrorCode_WalletNotFoundError).
Definition corrected_add (xhandle : Z) (type_ id : string) (value : bytes) (tags_json : string) (s : InmemWallet) :=
  let present :=
    match INMEM_OPEN_WALLETS s !! xhandle with
    | Some p =>
        match INMEM_WALLETS s !! p with
        | Some wallet => bool_decide (is_Some (ie_records wallet !! build_record_id type_ id))
        | None => false
        end
    | None => false
    end in
  if present then (s, ErrorCode_WalletItemAlreadyExists) else add_record xhandle type_ id value tags_json s.

Definition Corrected : Plugin := {|
  plugin := InmemWallet;
  create_handler := corrected_create;
  open_handler := corrected_open;
  close_handler := close;
  delete_handler := corrected_delete;
  add_record_handler := corrected_add;
  update_record_value_handler := update_record_value;
  update_record_tags_handler := update_record_tags;
  add_record_tags_handler := add_record_tags;
  delete_record_tags_handler := delete_record_tags;
  delete_record_handler := delete_record;
  get_record_handler := get_record cast;
  get_record_id_handler := get_record_id;
  get_record_type_handler := get_record_type;
  get_record_value_handler := get_record_value;
  get_record_tags_handler := get_record_tags;
  free_record_handler := free_record;
  get_storage_metadata_handler := get_storage_metadata cast;
  set_storage_metadata_handler := set_storage_metadata;
  free_storage_metadata_handler := free_storage_metadata;
  search_records_handler := search_records cast order;
  search_all_records_handler := search_all_records cast order;
  get_search_total_count_handler := get_search_total_count;
  fetch_search_next_record_handler := fetch_search_next_record cast;
  free_search_handler := free_search
|}.

Context {C : Codec} {O : OptionsCodec} {WL : WireLaws C T O}.
(** Handles do not repeat and are not negative: true of [as_i32] up to [2 ^ 31]. *)
Context (cast_inj : Inj (=) (=) cast) (cast_pos : forall n, (0 < n)%Z -> (0 <= cast n)%Z).
Context (order_perm : forall m, order m ≡ₚ map_to_list m).

(** *** Keys *)
Definition dash : Ascii.ascii := Ascii.ascii_of_nat 45.

Lemma dash_inj t t' n n' :
  has_char dash t = false -> has_char dash t' = false -> build_record_id t n = build_record_id t' n' -> t = t' /\ n = n'.
Proof using Type.
  unfold build_record_id. revert t'. induction t as [|a t IH]; intros [|a' t'] Ht Ht' E; cbn in E.
  - by injection E.
  - injection E as <- _. by cbn in Ht'.
  - injection E as -> _. by cbn in Ht.
  - injection E as <- E. cbn in Ht, Ht'. apply orb_false_iff in Ht as [_ Ht]. apply orb_false_iff in Ht' as [_ Ht'].
    by destruct (IH t' Ht Ht' E) as [-> ->].
Qed.

Lemma key_no_dash t : key_text t -> has_char dash t = false.
Proof using WL. intros (l & _ & ->). apply base64_no_dash. Qed.

Lemma key_useful t : key_text t -> useful t = true.
Proof using WL.
  intros (l & Hl & ->). unfold useful. destruct (encoded_text l Hl) as [Hne Hu].
  destruct (String.eqb_spec (base64_encode l) ""); [done|]. exact Hu.
Qed.
Lemma text_useful t : c_text t -> useful t = true.
Proof using Type. intros [Hne Hu]. unfold useful. destruct (String.eqb_spec t ""); [done|]. exact Hu. Qed.

(** *** What is stored *)
Definition item_of (r : InmemWalletRecord) : PItem := mkPItem (ir_value r) (default ∅ (tags_from_text (ir_tags r))).
Definition entry_of (r : InmemWalletRecord) : PEntry := ((ir_type r, ir_id r), item_of r).
Definition record_fine (r : InmemWalletRecord) : Prop :=
  key_text (ir_type r) /\ key_text (ir_id r) /\ is_Some (tags_from_text (ir_tags r)) /\ rust_string (ir_tags r).
Definition records_fine (m : gmap string InmemWalletRecord) : Prop :=
  map_Forall (fun k r => k = build_record_id (ir_type r) (ir_id r) /\ record_fine r) m.
Definition content (m : gmap string InmemWalletRecord) : Content := list_to_map (entry_of <$> (map_to_list m).*2).

Lemma content_nodup m : records_fine m -> NoDup (entry_of <$> (map_to_list m).*2).*1.
Proof using Type.
  intros Hm. apply (NoDup_fmap_1 (fun k => build_record_id k.1 k.2)).
  assert (E : (fun k : string * string => build_record_id k.1 k.2) <$> (entry_of <$> (map_to_list m).*2).*1 = (map_to_list m).*1).
  { rewrite <-!list_fmap_compose. apply list_fmap_ext. intros i [k r] Hi.
    apply list_elem_of_lookup_2, elem_of_map_to_list, Hm in Hi as [-> _]. done. }
  rewrite E. apply NoDup_fst_map_to_list.
Qed.

Lemma inmem_content_lookup m t n i :
  records_fine m ->
  content m !! (t, n) = Some i <-> exists r, m !! build_record_id t n = Some r /\ entry_of r = ((t, n), i).
Proof using Type.
  intros Hm. unfold content. rewrite <-elem_of_list_to_map by by apply content_nodup.
  rewrite list_elem_of_fmap. setoid_rewrite list_elem_of_fmap. split.
  - intros (r & He & [k r'] & -> & Hr). apply elem_of_map_to_list in Hr. destruct (Hm _ _ Hr) as [-> _].
    exists r'. cbn in *. injection He as -> -> ->. done.
  - intros (r & Hr & He). exists r. split; [done|]. exists (build_record_id t n, r). split; [done|].
    by apply elem_of_map_to_list.
Qed.

Lemma inmem_content_get m t n :
  records_fine m -> key_text t -> key_text n -> content m !! (t, n) = item_of <$> m !! build_record_id t n.
Proof using WL.
  intros Hm Ht Hn. apply option_eq. intros i. rewrite inmem_content_lookup by done. split.
  - intros (r & -> & He). by injection He as _ _ <-.
  - destruct (m !! build_record_id t n) as [r|] eqn:Er; [|done]. intros [= <-]. exists r. split; [done|].
    destruct (Hm _ _ Er) as (Hk & Hkt & _). apply dash_inj in Hk as [-> ->]; [done|by apply key_no_dash..].
Qed.

Lemma inmem_content_insert m r :
  records_fine m -> record_fine r ->
  content (<[build_record_id (ir_type r) (ir_id r) := r]> m) = <[(ir_type r, ir_id r) := item_of r]> (content m).
Proof using WL.
  intros Hm Hr. assert (Hm' : records_fine (<[build_record_id (ir_type r) (ir_id r) := r]> m)) by by apply map_Forall_insert_2.
  apply map_eq. intros [t n]. apply option_eq. intros i. rewrite inmem_content_lookup by done.
  destruct (decide ((ir_type r, ir_id r) = (t, n))) as [[= <- <-]|Hne].
  - rewrite !lookup_insert_eq. split; [intros (r' & [= <-] & He); by injection He as <-|]. intros [= <-]. by exists r.
  - rewrite (lookup_insert_ne (content m)) by done. rewrite inmem_content_lookup by done. split; intros (r' & Hl & He); exists r'; (split; [|done]).
    + rewrite lookup_insert_ne in Hl; [done|]. intros Hb. rewrite Hb, lookup_insert_eq in Hl. injection Hl as <-.
      apply Hne. unfold entry_of in He. congruence.
    + rewrite lookup_insert_ne; [done|]. intros Hb. destruct (Hm _ _ Hl) as (_ & Hkt & _). injection He as <- <- _.
      apply dash_inj in Hb as [Hb1 Hb2]; [by rewrite Hb1, Hb2 in Hne|apply key_no_dash, Hr|by apply key_no_dash].
Qed.

Lemma inmem_content_delete m t n :
  records_fine m -> key_text t -> key_text n ->
  content (base.delete (build_record_id t n) m) = base.delete (t, n) (content m).
Proof using WL.
  intros Hm Ht Hn. assert (Hm' : records_fine (base.delete (build_record_id t n) m)) by by apply map_Forall_delete.
  apply map_eq. intros [t' n']. apply option_eq. intros i. rewrite inmem_content_lookup by done.
  destruct (decide ((t, n) = (t', n'))) as [[= <- <-]|Hne].
  - rewrite !lookup_delete_eq. split; [by intros (? & ? & ?)|done].
  - rewrite (lookup_delete_ne (content m)) by done. rewrite inmem_content_lookup by done. split; intros (r' & Hl & He); exists r'; (split; [|done]).
    + by apply lookup_delete_Some in Hl as [_ ?].
    + rewrite lookup_delete_ne; [done|]. intros Hb. destruct (Hm _ _ Hl) as (_ & Hkt & _). injection He as <- <- _.
      apply dash_inj in Hb as [Hb1 Hb2]; [by rewrite Hb1, Hb2 in Hne|by apply key_no_dash..].
Qed.

Lemma content_entries m : records_fine m -> map entry_of (map snd (order m)) ≡ₚ map_to_list (content m).
Proof using order_perm.
  intros Hm. unfold content. rewrite map_to_list_to_map by by apply content_nodup.
  change (map ?f ?l) with (f <$> l). by rewrite order_perm.
Qed.
(** *** What can be seen of the state *)
Definition all_options : RecordOptions := mkRecordOptions true true true.
Definition entity_view (e : InmemWalletEntity) : string * Content := (ie_metadata e, content (ie_records e)).
Definition seen_record (r : InmemWalletRecord) : RecordOptions * PEntry := (all_options, entry_of r).
Definition seen_search (l : list InmemWalletRecord) : RecordOptions * list PEntry := (all_options, map entry_of (rev l)).
Definition inmem_observe (s : InmemWallet) : Observed :=
  mkObserved (entity_view <$> INMEM_WALLETS s) (INMEM_OPEN_WALLETS s)
    (kmap (pair 0%Z) (seen_record <$> ACTIVE_RECORDS s)) (kmap (pair 0%Z) (seen_search <$> ACTIVE_SEARCHES s)).

Record inmem_ok (s : InmemWallet) : Prop := {
  io_wallets : map_Forall (fun _ e => records_fine (ie_records e)) (INMEM_WALLETS s);
  io_records : map_Forall (fun _ => record_fine) (ACTIVE_RECORDS s);
  io_searches : map_Forall (fun _ => Forall record_fine) (ACTIVE_SEARCHES s);
  io_counter : (0 <= IDS_COUNTER s)%Z;
  io_open : map_Forall (fun h _ => exists n, (0 < n <= IDS_COUNTER s)%Z /\ h = cast n) (INMEM_OPEN_WALLETS s)
}.

#[local] Instance pair0_inj : Inj (=) (=) (pair (A := Z) (B := Z) 0%Z).
Proof using Type. by intros a b [= ->]. Qed.

Lemma see_wallet id e s :
  inmem_observe (set_wallets (<[id := e]> (INMEM_WALLETS s)) s) = set_place id (entity_view e) (inmem_observe s).
Proof using Type. unfold inmem_observe, set_place. cbn. by rewrite fmap_insert. Qed.
Lemma see_no_wallet id s :
  inmem_observe (set_wallets (base.delete id (INMEM_WALLETS s)) s) = del_place id (inmem_observe s).
Proof using Type. unfold inmem_observe, del_place. cbn. by rewrite fmap_delete. Qed.
Lemma see_record r x s :
  inmem_observe (set_records (<[r := x]> (ACTIVE_RECORDS s)) s) = set_record (0%Z, r) (seen_record x) (inmem_observe s).
Proof using Type. unfold inmem_observe, set_record. cbn. by rewrite fmap_insert, (kmap_insert (pair 0%Z)). Qed.
Lemma see_no_record r s :
  inmem_observe (set_records (base.delete r (ACTIVE_RECORDS s)) s) = del_record (0%Z, r) (inmem_observe s).
Proof using Type. unfold inmem_observe, del_record. cbn. by rewrite fmap_delete, (kmap_delete (pair 0%Z)). Qed.
Lemma see_search q l s :
  inmem_observe (set_searches (<[q := l]> (ACTIVE_SEARCHES s)) s) = set_search (0%Z, q) (seen_search l) (inmem_observe s).
Proof using Type. unfold inmem_observe, set_search. cbn. by rewrite fmap_insert, (kmap_insert (pair 0%Z)). Qed.
Lemma see_no_search q s :
  inmem_observe (set_searches (base.delete q (ACTIVE_SEARCHES s)) s) = del_search (0%Z, q) (inmem_observe s).
Proof using Type. unfold inmem_observe, del_search. cbn. by rewrite fmap_delete, (kmap_delete (pair 0%Z)). Qed.

Lemma seen_record_at s r x :
  ob_records (inmem_observe s) !! (0%Z, r) = Some x -> exists rec, ACTIVE_RECORDS s !! r = Some rec /\ x = seen_record rec.
Proof using Type.
  cbn. rewrite (lookup_kmap (pair 0%Z)), lookup_fmap. destruct (ACTIVE_RECORDS s !! r) as [rec|]; [|done].
  intros [= <-]. eauto.
Qed.
Lemma seen_search_at s q x :
  ob_searches (inmem_observe s) !! (0%Z, q) = Some x -> exists l, ACTIVE_SEARCHES s !! q = Some l /\ x = seen_search l.
Proof using Type.
  cbn. rewrite (lookup_kmap (pair 0%Z)), lookup_fmap. destruct (ACTIVE_SEARCHES s !! q) as [l|]; [|done].
  intros [= <-]. eauto.
Qed.

Lemma open_entity s h p md c :
  inmem_ok s -> open_at (inmem_observe s) h p md c ->
  exists e, INMEM_OPEN_WALLETS s !! h = Some p /\ INMEM_WALLETS s !! p = Some e /\ md = ie_metadata e /\
    c = content (ie_records e) /\ records_fine (ie_records e).
Proof using Type.
  intros Hok [Ho Hp]. cbn in Ho, Hp. rewrite lookup_fmap in Hp. destruct (INMEM_WALLETS s !! p) as [e|] eqn:Ee; [|done].
  injection Hp as <- <-. exists e. do 4 (split; [done|]). by apply (io_wallets _ Hok _ _ Ee).
Qed.

Lemma with_wallet_ok {A} h (fail : ErrorCode -> A) k s p e :
  INMEM_OPEN_WALLETS s !! h = Some p -> INMEM_WALLETS s !! p = Some e -> with_wallet h fail k s = k p e.
Proof using Type. unfold with_wallet. by intros -> ->. Qed.

Lemma ok_wallet_set s p e :
  inmem_ok s -> records_fine (ie_records e) -> inmem_ok (set_wallets (<[p := e]> (INMEM_WALLETS s)) s).
Proof using Type. intros [] He. split; [by apply map_Forall_insert_2|done..]. Qed.

(** *** The laws *)
Lemma change_law s h p md c t n change f :
  inmem_ok s -> key_text t -> key_text n -> open_at (inmem_observe s) h p md c ->
  (forall r, record_fine r -> exists r', change r = inr r' /\ ir_type r' = ir_type r /\ ir_id r' = ir_id r /\
     record_fine r' /\ item_of r' = f (item_of r)) ->
  let (s', err) := change_record h t n change s in
  inmem_ok s' /\ promised True (inmem_observe s) (inmem_observe s') err (changed (inmem_observe s) p md c (t, n) f).
Proof using WL.
  intros Hok Ht Hn Ho Hc. destruct (open_entity _ _ _ _ _ Hok Ho) as (e & E1 & E2 & -> & -> & Hf).
  unfold change_record. erewrite with_wallet_ok by done. unfold changed. rewrite inmem_content_get by done.
  destruct (ie_records e !! build_record_id t n) as [r|] eqn:Er; cbn [fmap option_fmap option_map]; [|done].
  destruct (Hf _ _ Er) as [Hk Hr]. apply dash_inj in Hk as [-> ->]; [|by apply key_no_dash|apply key_no_dash, Hr].
  destruct (Hc r Hr) as (r' & -> & Ht' & Hn' & Hr' & Hi). rewrite <-Ht', <-Hn'. split.
  - apply ok_wallet_set; [done|]. cbn. by apply map_Forall_insert_2.
  - left. split; [done|]. unfold put_wallet_records. rewrite see_wallet. unfold entity_view. cbn.
    rewrite inmem_content_insert by done. by rewrite Hi.
Qed.

Ltac accept :=
  repeat match goal with
  | H : key_text ?t |- context [useful ?t] => rewrite (key_useful t H)
  | H : c_text ?t |- context [useful ?t] => rewrite (text_useful t H)
  | H : ?v <> [] |- context [(length ?v =? 0)%nat] =>
      rewrite (proj2 (Nat.eqb_neq (length v) 0)) by (by destruct v)
  end; cbn [negb].

Lemma tags_changed r m :
  record_fine r ->
  record_fine (with_tags r (tags_to_text (map_order m))) /\
  item_of (with_tags r (tags_to_text (map_order m))) = mkPItem (ir_value r) m.
Proof using WL.
  intros (Ht & Hn & _). unfold record_fine, item_of. cbn. rewrite map_written. cbn.
  split; [|done]. split_and!; try done. apply tags_text_useful.
Qed.

Lemma inmem_update s h p md c t n v :
  inmem_ok s -> key_text t -> key_text n -> open_at (inmem_observe s) h p md c -> v <> [] ->
  let (s', err) := update_record_value h t n v s in
  inmem_ok s' /\ promised True (inmem_observe s) (inmem_observe s') err
    (changed (inmem_observe s) p md c (t, n) (fun i => mkPItem v (pit_tags i))).
Proof using WL.
  intros Hok Ht Hn Ho Hv. unfold update_record_value. accept. apply change_law; [done..|]. intros r Hr.
  eexists. split; [done|]. by repeat split; try apply Hr.
Qed.

Lemma inmem_update_tags s h p md c t n json tags :
  inmem_ok s -> key_text t -> key_text n -> c_text json -> open_at (inmem_observe s) h p md c ->
  tags_from_text json = Some tags ->
  let (s', err) := update_record_tags h t n json s in
  inmem_ok s' /\ promised True (inmem_observe s) (inmem_observe s') err
    (changed (inmem_observe s) p md c (t, n) (fun i => mkPItem (pit_value i) tags)).
Proof using WL.
  intros Hok Ht Hn Hj Ho Htags. unfold update_record_tags. accept. apply change_law; [done..|]. intros r (H1 & H2 & _).
  eexists. split; [done|]. split; [done|]. split; [done|]. unfold record_fine, item_of. cbn. rewrite Htags. cbn.
  split; [|done]. split_and!; try done. apply Hj.
Qed.

Lemma inmem_add_tags s h p md c t n json tags :
  inmem_ok s -> key_text t -> key_text n -> c_text json -> open_at (inmem_observe s) h p md c ->
  tags_from_text json = Some tags ->
  let (s', err) := add_record_tags h t n json s in
  inmem_ok s' /\ promised True (inmem_observe s) (inmem_observe s') err
    (changed (inmem_observe s) p md c (t, n) (fun i => mkPItem (pit_value i) (tags ∪ pit_tags i))).
Proof using WL.
  intros Hok Ht Hn Hj Ho Htags. unfold add_record_tags. accept. rewrite Htags. apply change_law; [done..|].
  intros r Hr. pose proof Hr as (_ & _ & [m Hm] & _). rewrite Hm. destruct (tags_changed r (tags ∪ m) Hr) as [Hf Hi].
  eexists. split; [done|]. split; [done|]. split; [done|]. split; [done|]. rewrite Hi. unfold item_of. cbn. by rewrite Hm.
Qed.

Lemma inmem_delete_tags s h p md c t n json names :
  inmem_ok s -> key_text t -> key_text n -> c_text json -> open_at (inmem_observe s) h p md c ->
  names_from_text json = Some names ->
  let (s', err) := delete_record_tags h t n json s in
  inmem_ok s' /\ promised True (inmem_observe s) (inmem_observe s') err
    (changed (inmem_observe s) p md c (t, n)
       (fun i => mkPItem (pit_value i) (foldl (fun m name => base.delete name m) (pit_tags i) names))).
Proof using WL.
  intros Hok Ht Hn Hj Ho Hnames. unfold delete_record_tags. accept. rewrite Hnames. apply change_law; [done..|].
  intros r Hr. pose proof Hr as (_ & _ & [m Hm] & _). rewrite Hm.
  destruct (tags_changed r (foldl (fun m name => base.delete name m) m names) Hr) as [Hf Hi].
  eexists. split; [done|]. split; [done|]. split; [done|]. split; [done|]. rewrite Hi. unfold item_of. cbn. by rewrite Hm.
Qed.

Lemma inmem_delete s h p md c t n :
  inmem_ok s -> key_text t -> key_text n -> open_at (inmem_observe s) h p md c ->
  let (s', err) := delete_record h t n s in
  inmem_ok s' /\ promised True (inmem_observe s) (inmem_observe s') err
    (match c !! (t, n) with
     | Some _ => inr (set_place p (md, base.delete (t, n) c) (inmem_observe s))
     | None => inl ErrorCode_WalletItemNotFound
     end).
Proof using WL.
  intros Hok Ht Hn Ho. destruct (open_entity _ _ _ _ _ Hok Ho) as (e & E1 & E2 & -> & -> & Hf).
  unfold delete_record. accept. erewrite with_wallet_ok by done. rewrite inmem_content_get by done.
  destruct (ie_records e !! build_record_id t n) as [r|] eqn:Er; cbn [fmap option_fmap option_map]; [|done]. split.
  - apply ok_wallet_set; [done|]. by apply map_Forall_delete.
  - left. split; [done|]. unfold put_wallet_records. rewrite see_wallet. unfold entity_view. cbn.
    by rewrite inmem_content_delete.
Qed.

Lemma inmem_add s h p md c t n v json tags :
  inmem_ok s -> key_text t -> key_text n -> c_text json -> open_at (inmem_observe s) h p md c ->
  tags_from_text json = Some tags -> v <> [] ->
  let (s', err) := corrected_add h t n v json s in
  inmem_ok s' /\ promised True (inmem_observe s) (inmem_observe s') err
    (match c !! (t, n) with
     | Some _ => inl ErrorCode_WalletItemAlreadyExists
     | None => inr (set_place p (md, <[(t, n) := mkPItem v tags]> c) (inmem_observe s))
     end).
Proof using WL.
  intros Hok Ht Hn Hj Ho Htags Hv. destruct (open_entity _ _ _ _ _ Hok Ho) as (e & E1 & E2 & -> & -> & Hf).
  unfold corrected_add. rewrite E1, E2, inmem_content_get by done.
  destruct (ie_records e !! build_record_id t n) as [r|] eqn:Er; cbn [fmap option_fmap option_map].
  { rewrite bool_decide_eq_true_2 by done. done. }
  rewrite bool_decide_eq_false_2 by by intros []. unfold add_record. accept. erewrite with_wallet_ok by done.
  set (r := mkInmemRecord t n v json).
  assert (Hr : record_fine r) by (unfold record_fine; cbn; rewrite Htags; split_and!; try done; apply Hj). split.
  - apply ok_wallet_set; [done|]. cbn. by apply map_Forall_insert_2.
  - left. split; [done|]. unfold put_wallet_records. rewrite see_wallet. unfold entity_view. cbn.
    pose proof (inmem_content_insert (ie_records e) r Hf Hr) as Hi. cbn in Hi. rewrite Hi.
    unfold item_of. cbn. by rewrite Htags.
Qed.
Lemma ok_next s : inmem_ok s -> inmem_ok (set_ids (IDS_COUNTER s + 1)%Z s).
Proof using Type.
  intros []. split; cbn; try done; [lia|]. intros h q Hh. destruct (io_open0 _ _ Hh) as (n & Hn & ->). exists n. split; [lia|done].
Qed.
Lemma ok_record s r x : inmem_ok s -> record_fine x -> inmem_ok (set_records (<[r := x]> (ACTIVE_RECORDS s)) s).
Proof using Type. intros [] Hx. split; try done. by apply map_Forall_insert_2. Qed.
Lemma ok_search s q l : inmem_ok s -> Forall record_fine l -> inmem_ok (set_searches (<[q := l]> (ACTIVE_SEARCHES s)) s).
Proof using Type. intros [] Hx. split; try done. by apply map_Forall_insert_2. Qed.

Lemma inmem_get_record s h p md c t n text o :
  inmem_ok s -> key_text t -> key_text n -> c_text text -> open_at (inmem_observe s) h p md c ->
  let '(s', (err, r)) := get_record cast h t n text s in
  inmem_ok s' /\ exists o', holds_more o' o /\ promised True (inmem_observe s) (inmem_observe s') err
    (match c !! (t, n) with
     | Some i => inr (set_record (0%Z, r) (o', ((t, n), i)) (inmem_observe s))
     | None => inl ErrorCode_WalletItemNotFound
     end).
Proof using WL.
  intros Hok Ht Hn Hx Ho. destruct (open_entity _ _ _ _ _ Hok Ho) as (e & E1 & E2 & -> & -> & Hf).
  unfold get_record. accept. erewrite with_wallet_ok by done. rewrite inmem_content_get by done.
  destruct (ie_records e !! build_record_id t n) as [r|] eqn:Er; cbn [fmap option_fmap option_map].
  2: { split; [done|]. by exists all_options. }
  destruct (Hf _ _ Er) as [Hk Hr]. unfold get_next_id. split.
  - apply ok_record; [by apply ok_next|done].
  - exists all_options. split; [done|]. left. split; [done|].
    apply dash_inj in Hk as [-> ->]; [|by apply key_no_dash|apply key_no_dash, Hr]. apply (see_record _ _ (set_ids _ s)).
Qed.

(** A getter, with the record its handle stands for. *)
Lemma inmem_getter s h p r x field :
  INMEM_OPEN_WALLETS s !! h = Some p -> ob_records (inmem_observe s) !! (0%Z, r) = Some x ->
  exists rec, ACTIVE_RECORDS s !! r = Some rec /\ x = seen_record rec /\
    get_field field h r s = (s, (ErrorCode_Success, Some (field rec))).
Proof using Type.
  intros Ho Hr. apply seen_record_at in Hr as (rec & Hr & ->). exists rec. do 2 (split; [done|]).
  unfold get_field. by rewrite Ho, Hr.
Qed.

Lemma unchanged s : promised True (inmem_observe s) (inmem_observe s) ErrorCode_Success (inr (inmem_observe s)).
Proof using Type. by left. Qed.

Lemma inmem_get_id s h p r o k i :
  inmem_ok s -> INMEM_OPEN_WALLETS s !! h = Some p -> ob_records (inmem_observe s) !! (0%Z, r) = Some (o, (k, i)) ->
  let '(s', (err, out)) := get_record_id h r s in
  inmem_ok s' /\ promised True (inmem_observe s) (inmem_observe s') err (inr (inmem_observe s)) /\
  (err = ErrorCode_Success -> out = Some (as_bytes k.2)).
Proof using Type.
  intros Hok Ho Hr. unfold get_record_id. destruct (inmem_getter s h p r _ (fun rec => as_bytes (ir_id rec)) Ho Hr) as (rec & _ & E & ->).
  injection E as -> -> ->. split; [done|]. by split; [apply unchanged|].
Qed.
Lemma inmem_get_type s h p r o k i :
  inmem_ok s -> INMEM_OPEN_WALLETS s !! h = Some p -> ob_records (inmem_observe s) !! (0%Z, r) = Some (o, (k, i)) ->
  let '(s', (err, out)) := get_record_type h r s in
  inmem_ok s' /\ promised True (inmem_observe s) (inmem_observe s') err (inr (inmem_observe s)) /\
  (err = ErrorCode_Success -> retrieve_type o = true -> out = Some (as_bytes k.1)).
Proof using Type.
  intros Hok Ho Hr. unfold get_record_type. destruct (inmem_getter s h p r _ (fun rec => as_bytes (ir_type rec)) Ho Hr) as (rec & _ & E & ->).
  injection E as -> -> ->. split; [done|]. by split; [apply unchanged|].
Qed.
Lemma inmem_get_value s h p r o k i :
  inmem_ok s -> INMEM_OPEN_WALLETS s !! h = Some p -> ob_records (inmem_observe s) !! (0%Z, r) = Some (o, (k, i)) ->
  let '(s', (err, out)) := get_record_value h r s in
  inmem_ok s' /\ promised True (inmem_observe s) (inmem_observe s') err (inr (inmem_observe s)) /\
  (err = ErrorCode_Success -> retrieve_value o = true -> out = Some (pit_value i)).
Proof using Type.
  intros Hok Ho Hr. unfold get_record_value. destruct (inmem_getter s h p r _ ir_value Ho Hr) as (rec & _ & E & ->).
  injection E as -> -> ->. split; [done|]. by split; [apply unchanged|].
Qed.
Lemma inmem_get_tags s h p r o k i :
  inmem_ok s -> INMEM_OPEN_WALLETS s !! h = Some p -> ob_records (inmem_observe s) !! (0%Z, r) = Some (o, (k, i)) ->
  let '(s', (err, out)) := get_record_tags h r s in
  inmem_ok s' /\ promised True (inmem_observe s) (inmem_observe s') err (inr (inmem_observe s)) /\
  (err = ErrorCode_Success -> retrieve_tags o = true ->
     exists l json, out = Some l /\ from_utf8 l = Some json /\ tags_from_text json = Some (pit_tags i)).
Proof using Type.
  intros Hok Ho Hr. unfold get_record_tags.
  destruct (inmem_getter s h p r _ (fun rec => as_bytes (ir_tags rec)) Ho Hr) as (rec & Ha & E & ->).
  injection E as -> -> ->. split; [done|]. split; [apply unchanged|]. intros _ _.
  destruct (io_records _ Hok _ _ Ha) as (_ & _ & [m Hm] & Hu). exists (as_bytes (ir_tags rec)), (ir_tags rec).
  split; [done|]. split; [by apply from_utf8_as_bytes|]. cbn. by rewrite Hm.
Qed.

Lemma inmem_free_record s h p r :
  inmem_ok s -> INMEM_OPEN_WALLETS s !! h = Some p -> is_Some (ob_records (inmem_observe s) !! (0%Z, r)) ->
  let (s', err) := free_record h r s in
  inmem_ok s' /\ promised True (inmem_observe s) (inmem_observe s') err (inr (del_record (0%Z, r) (inmem_observe s))).
Proof using Type.
  intros Hok Ho [x Hr]. apply seen_record_at in Hr as (rec & Hr & ->). unfold free_record. rewrite Ho, Hr. split.
  - destruct Hok. split; try done. by apply map_Forall_delete.
  - left. split; [done|]. apply see_no_record.
Qed.

Lemma inmem_get_metadata s h p md c :
  inmem_ok s -> open_at (inmem_observe s) h p md c ->
  let '(s', (err, (out, m))) := get_storage_metadata cast h s in
  inmem_ok s' /\ promised True (inmem_observe s) (inmem_observe s') err (inr (inmem_observe s)) /\
  (err = ErrorCode_Success -> out = Some (as_bytes md)).
Proof using Type.
  intros Hok Ho. destruct (open_entity _ _ _ _ _ Hok Ho) as (e & E1 & E2 & -> & -> & Hf).
  unfold get_storage_metadata. erewrite with_wallet_ok by done. unfold get_next_id. split; [|split; [by left|done]].
  by destruct (ok_next _ Hok).
Qed.
Lemma inmem_free_metadata s h m :
  inmem_ok s -> inmem_ok (free_storage_metadata h m s).1 /\ inmem_observe (free_storage_metadata h m s).1 = inmem_observe s.
Proof using Type.
  intros Hok. unfold free_storage_metadata. destruct (INMEM_OPEN_WALLETS s !! h); [|done].
  destruct (ACTIVE_METADATAS s !! m); [|done]. split; [by destruct Hok|done].
Qed.
Lemma inmem_set_metadata s h p md c md' :
  inmem_ok s -> c_text md' -> open_at (inmem_observe s) h p md c ->
  let (s', err) := set_storage_metadata h md' s in
  inmem_ok s' /\ promised True (inmem_observe s) (inmem_observe s') err (inr (set_place p (md', c) (inmem_observe s))).
Proof using Type.
  intros Hok Hm Ho. destruct (open_entity _ _ _ _ _ Hok Ho) as (e & E1 & E2 & -> & -> & Hf).
  unfold set_storage_metadata. accept. erewrite with_wallet_ok by done. split; [by apply ok_wallet_set|].
  left. split; [done|]. by rewrite see_wallet.
Qed.

Lemma order_fine m : records_fine m -> Forall record_fine (map snd (order m)).
Proof using order_perm.
  intros Hm. apply Forall_fmap, Forall_forall. intros [k r] Hr. rewrite order_perm in Hr.
  apply elem_of_map_to_list, Hm in Hr. apply Hr.
Qed.

Lemma inmem_search_all s h p md c :
  inmem_ok s -> open_at (inmem_observe s) h p md c ->
  let '(s', (err, q)) := search_all_records cast order h s in
  inmem_ok s' /\ exists l, l ≡ₚ map_to_list c /\
  promised True (inmem_observe s) (inmem_observe s') err
    (inr (set_search (0%Z, q) (all_options, l) (inmem_observe s))).
Proof using order_perm.
  intros Hok Ho. destruct (open_entity _ _ _ _ _ Hok Ho) as (e & E1 & E2 & -> & -> & Hf).
  unfold search_all_records. erewrite with_wallet_ok by done. unfold get_next_id. split.
  - apply (ok_search (set_ids _ s)); [by apply ok_next|by apply order_fine].
  - exists (map entry_of (rev (map snd (order (ie_records e))))). split.
    + rewrite map_rev. rewrite <-Permutation_rev. by apply content_entries.
    + left. split; [done|]. apply (see_search _ _ (set_ids _ s)).
Qed.

Lemma inmem_fetch s h p q o l :
  inmem_ok s -> INMEM_OPEN_WALLETS s !! h = Some p -> ob_searches (inmem_observe s) !! (0%Z, q) = Some (o, l) ->
  let '(s', (err, r)) := fetch_search_next_record cast h q s in
  inmem_ok s' /\
  match l with
  | [] => promised True (inmem_observe s) (inmem_observe s') err (inl ErrorCode_WalletItemNotFound)
  | x :: l' =>
      promised True (inmem_observe s) (inmem_observe s') err
        (inr (set_record (0%Z, r) (o, x) (set_search (0%Z, q) (o, l') (inmem_observe s)))) /\
      err <> ErrorCode_WalletItemNotFound
  end.
Proof using Type.
  intros Hok Ho Hq. apply seen_search_at in Hq as (recs & Hq & E). injection E as -> ->.
  unfold fetch_search_next_record. rewrite Ho, Hq. pose proof (io_searches _ Hok _ _ Hq) as Hf.
  apply Forall_rev in Hf. destruct (rev recs) as [|x rest]; [done|]. apply Forall_cons in Hf as [Hx Hrest].
  unfold get_next_id. cbn [map]. split; [|split; [|done]].
  - apply ok_record; [|done]. apply (ok_next (set_searches _ s)), ok_search; [done|]. by apply Forall_rev.
  - left. split; [done|]. rewrite (see_record _ _ (set_ids _ (set_searches _ s))).
    change (inmem_observe (set_ids ?n ?s)) with (inmem_observe s). rewrite see_search. unfold seen_search.
    by rewrite rev_involutive.
Qed.
Lemma inmem_free_search s h p q :
  inmem_ok s -> INMEM_OPEN_WALLETS s !! h = Some p -> is_Some (ob_searches (inmem_observe s) !! (0%Z, q)) ->
  let (s', err) := free_search h q s in
  inmem_ok s' /\ promised True (inmem_observe s) (inmem_observe s') err (inr (del_search (0%Z, q) (inmem_observe s))).
Proof using Type.
  intros Hok Ho [x Hr]. apply seen_search_at in Hr as (l & Hr & ->). unfold free_search. rewrite Ho, Hr. split.
  - destruct Hok. split; try done. by apply map_Forall_delete.
  - left. split; [done|]. apply see_no_search.
Qed.
(** Storages are found by their name. *)
Definition inmem_place (id : string) (_ _ : option string) : option string := if useful id then Some id else None.

Lemma place_useful id config cred p : inmem_place id config cred = Some p -> p = id /\ useful id = true.
Proof using Type. unfold inmem_place. destruct (useful id); [|done]. by intros [= ->]. Qed.

Lemma seen_place s p : ob_places (inmem_observe s) !! p = entity_view <$> INMEM_WALLETS s !! p.
Proof using Type. cbn. apply lookup_fmap. Qed.

Lemma inmem_create s id config cred metadata p :
  inmem_ok s -> inmem_place id config cred = Some p -> c_text metadata ->
  let (s', err) := corrected_create id config cred metadata s in
  inmem_ok s' /\ promised True (inmem_observe s) (inmem_observe s') err
    (match ob_places (inmem_observe s) !! p with
     | Some _ => inl ErrorCode_WalletAlreadyExistsError
     | None => inr (set_place p (metadata, ∅) (inmem_observe s))
     end).
Proof using Type.
  intros Hok Hp Hm. apply place_useful in Hp as [-> Hu]. rewrite seen_place. unfold corrected_create, create. rewrite Hu. accept.
  destruct (INMEM_WALLETS s !! id) as [e|]; cbn; [done|]. split; [by apply ok_wallet_set|]. left. split; [done|]. apply see_wallet.
Qed.

Lemma inmem_open s id config cred p :
  inmem_ok s -> inmem_place id config cred = Some p ->
  let '(s', (err, h)) := corrected_open id config cred s in
  inmem_ok s' /\ promised True (inmem_observe s) (inmem_observe s') err
    (match ob_places (inmem_observe s) !! p with
     | Some _ => inr (set_opened h p (inmem_observe s))
     | None => inl ErrorCode_WalletNotFoundError
     end) /\
  (err = ErrorCode_Success -> (0 <= h)%Z /\ ob_opened (inmem_observe s) !! h = None).
Proof using cast_inj cast_pos.
  intros Hok Hp. apply place_useful in Hp as [-> Hu]. rewrite seen_place. unfold corrected_open, open. rewrite Hu.
  destruct (INMEM_WALLETS s !! id) as [e|]; cbn; [|done]. pose proof (io_counter _ Hok) as Hc. split; [|split; [by left|intros _; split]].
  - destruct (ok_next _ Hok). split; try done. cbn. apply map_Forall_insert_2; [|done]. eexists. split; [|done]. lia.
  - apply cast_pos. lia.
  - destruct (INMEM_OPEN_WALLETS s !! cast (IDS_COUNTER s + 1)%Z) eqn:E; [|done].
    destruct (io_open _ Hok _ _ E) as (n & Hn & Heq%cast_inj). lia.
Qed.

Lemma inmem_delete_storage s id config cred p :
  inmem_ok s -> inmem_place id config cred = Some p ->
  let (s', err) := corrected_delete id config cred s in
  inmem_ok s' /\ promised True (inmem_observe s) (inmem_observe s') err
    (match ob_places (inmem_observe s) !! p with
     | Some _ => inr (del_place p (inmem_observe s))
     | None => inl ErrorCode_WalletNotFoundError
     end).
Proof using Type.
  intros Hok Hp. apply place_useful in Hp as [-> Hu]. rewrite seen_place. unfold corrected_delete, delete. rewrite Hu.
  destruct (INMEM_WALLETS s !! id) as [e|]; cbn; [|done]. split; [|left; split; [done|apply see_no_wallet]].
  destruct Hok. split; try done. by apply map_Forall_delete.
Qed.

Lemma inmem_close s h p :
  inmem_ok s -> INMEM_OPEN_WALLETS s !! h = Some p ->
  let (s', err) := close h s in
  inmem_ok s' /\ promised True (inmem_observe s) (inmem_observe s') err (inr (del_opened h (inmem_observe s))).
Proof using Type.
  intros Hok Ho. unfold close. rewrite Ho. split; [|by left]. destruct Hok. split; try done. by apply map_Forall_delete.
Qed.

(** With its answers corrected, the in-memory plugin keeps its promises. *)
Definition Corrected_laws : PluginLaws Corrected := {|
  observe := inmem_observe : @plugin Corrected -> Observed;
  plugin_ok := inmem_ok;
  flawless := True;
  names_place := inmem_place;
  own_key _ r := (0%Z, r);
  pl_create := inmem_create;
  pl_open := inmem_open;
  pl_delete_storage := inmem_delete_storage;
  pl_close := inmem_close;
  pl_add := inmem_add;
  pl_update := inmem_update;
  pl_update_tags := inmem_update_tags;
  pl_add_tags := inmem_add_tags;
  pl_delete_tags := inmem_delete_tags;
  pl_delete := inmem_delete;
  pl_get_record s h p md c t n text o Hok Ht Hn Hx Ho _ := inmem_get_record s h p md c t n text o Hok Ht Hn Hx Ho;
  pl_get_id := inmem_get_id;
  pl_get_type := inmem_get_type;
  pl_get_value := inmem_get_value;
  pl_get_tags := inmem_get_tags;
  pl_free_record := inmem_free_record;
  pl_get_metadata := inmem_get_metadata;
  pl_free_metadata := inmem_free_metadata;
  pl_set_metadata := inmem_set_metadata;
  pl_search_all := inmem_search_all;
  pl_fetch := inmem_fetch;
  pl_free_search := inmem_free_search
|}.

Definition empty_inmem : InmemWallet := mkInmem ∅ ∅ ∅ ∅ ∅ 1.
Lemma empty_inmem_ok : inmem_ok empty_inmem.
Proof using Type. split; [apply map_Forall_empty..|by cbn|apply map_Forall_empty]. Qed.
End Corrected.

(** ** Examples *)
Module InmemDemo.

(** Anything countable as a text of two digits. *)
Definition d0 : Ascii.ascii := Ascii.ascii_of_nat 48.
Definition d1 : Ascii.ascii := Ascii.ascii_of_nat 49.
Fixpoint pos_text (p : positive) : string :=
  match p with xH => "1" | xO p => String d0 (pos_text p) | xI p => String d1 (pos_text p) end.
Fixpoint text_pos (s : string) : option positive :=
  match s with
  | EmptyString => None
  | String a EmptyString => Some xH
  | String a s' => (if Ascii.eqb a d1 then xI else xO) <$> text_pos s'
  end.
Definition to_text {A} `{Countable A} (a : A) : string := pos_text (countable.encode a).
Definition of_text {A} `{Countable A} (s : string) : option A := text_pos s ≫= countable.decode.

Lemma pos_text_pos p : text_pos (pos_text p) = Some p.
Proof.
  assert (H : forall a p, text_pos (String a (pos_text p)) = (if Ascii.eqb a d1 then xI else xO) <$> text_pos (pos_text p))
    by (intros a q; cbn [text_pos]; by destruct q).
  induction p as [p IH|p IH|]; [by cbn [pos_text]; rewrite H, IH..|done].
Qed.
Lemma of_to_text {A} `{Countable A} (a : A) : of_text (to_text a) = Some a.
Proof. unfold of_text, to_text. rewrite pos_text_pos. apply countable.decode_encode. Qed.

(** Two digits are useful texts. *)
Lemma pos_text_useful p : pos_text p <> "" /\ rust_string (pos_text p).
Proof. split; [by destruct p|]. induction p as [p IH|p IH|]; [exact IH..|done]. Qed.
Lemma pos_text_char c p : Ascii.eqb d0 c = false -> Ascii.eqb d1 c = false -> has_char c (pos_text p) = false.
Proof.
  intros H0 H1. induction p as [p IH|p IH|]; cbn [pos_text has_char]; [by rewrite H1|by rewrite H0|].
  transitivity (Ascii.eqb d1 c || false); [done|by rewrite H1].
Qed.

Definition codec : Codec := {|
  base64_encode l := if bool_decide (l = []) then "" else to_text l;
  base64_decode s := if bool_decide (s = "") then Some [] else of_text s;
  from_base58 _ := None; to_base58 _ := "";
  json_from_str _ := None; json_to_string _ := "";
  rmp_to_vec _ := None; rmp_to_vec_named _ := None;
  hex_encode _ := ""; openssl_hash _ := Panic; rlp_items _ := None; rlp_encode _ := []; sha3_256 _ := []
|}.
Definition tags_codec : TagsCodec := {|
  map_order m := map_to_list m;
  tags_to_text l := to_text l;
  tags_from_text s := list_to_map <$> of_text s;
  names_to_text l := to_text l;
  names_from_text s := of_text s
|}.
Definition options_codec : OptionsCodec := {|
  read_record_options s :=
    if bool_decide (s = "{}") then Some record_options_default
    else if bool_decide (s = "all") then Some (mkRecordOptions true true true) else None;
  write_record_options _ := "all";
  read_search_options _ := Some search_options_default;
  write_search_options _ := ""
|}.

Definition wire_laws : WireLaws codec tags_codec options_codec.
Proof.
  assert (H : forall l : bytes, base64_encode (Codec := codec) l = "" /\ l = [] \/
            exists p, base64_encode (Codec := codec) l = pos_text p /\ l <> []).
  { intros l. cbn. destruct (bool_decide_reflect (l = [])); [by left|right]. by eexists. }
  split.
  - intros l. cbn. destruct (bool_decide_reflect (l = [])) as [->|Hl]; [done|].
    rewrite bool_decide_eq_false_2 by apply (proj1 (pos_text_useful _)). apply of_to_text.
  - intros l. destruct (H l) as [[-> _]|(p & -> & _)]; [done|apply pos_text_useful].
  - intros l. destruct (H l) as [[-> _]|(p & -> & _)]; [done|by apply pos_text_char].
  - intros l Hl. destruct (H l) as [[_ ?]|(p & -> & _)]; [done|apply pos_text_useful].
  - intros l. destruct (H l) as [[-> _]|(p & -> & _)]; [done|by apply pos_text_char].
  - intros l. destruct (H l) as [[-> _]|(p & -> & _)]; [done|by destruct p].
  - done.
  - intros l _. change ((list_to_map <$> of_text (to_text l)) = Some (list_to_map l : gmap string string)). by rewrite of_to_text.
  - intros l. by apply pos_text_char.
  - intros l. apply pos_text_useful.
  - intros l. apply of_to_text.
  - intros l. by apply pos_text_char.
  - intros l. apply pos_text_useful.
  - done.
  - done.
  - intros text o. cbn. destruct (bool_decide_reflect (text = "{}")) as [->|]; [done|].
    by destruct (bool_decide_reflect (text = "all")) as [->|].
  - intros text o. cbn. destruct (bool_decide_reflect (text = "{}")) as [->|]; [done|].
    by destruct (bool_decide_reflect (text = "all")) as [->|].
Qed.
End InmemDemo.

#[local] Existing Instances InmemDemo.codec InmemDemo.tags_codec InmemDemo.options_codec InmemDemo.wire_laws.

Definition demo_inmem : Plugin := Inmem as_i32 map_to_list.
Definition demo_corrected : Plugin := Corrected (fun n => n) map_to_list.
#[local] Instance demo_corrected_laws : PluginLaws demo_corrected :=
  Corrected_laws (fun n => n) map_to_list (fun _ _ H => H) (fun n H => Z.lt_le_incl 0 n H) (fun m => Permutation_refl _).

Definition demo_value (z : Z) : EncryptedValue := mkEncryptedValue [z] (replicate 60 7%Z).
Definition demo_plugged_ops : list StorageOp :=
  [OpAdd [1]%Z [1]%Z (demo_value 1) [TagEncrypted [1]%Z [2]%Z; TagPlainText [3]%Z "x"];
   OpAdd [1]%Z [1]%Z (demo_value 2) []; OpAddTags [1]%Z [1]%Z [TagPlainText [3]%Z "y"]; OpDelete [2]%Z [1]%Z;
   OpDeleteTags [1]%Z [1]%Z [OfEncrypted [1]%Z]].

Lemma demo_plugged_ops_valid : Forall op_valid demo_plugged_ops.
Proof.
  unfold demo_plugged_ops. repeat apply Forall_cons_2; [| | | | |apply Forall_nil_2]; cbn [op_valid].
  - split; [done|]. split; [done|]. cbn. apply NoDup_cons_2; [|apply NoDup_singleton]. by intros ?%list_elem_of_singleton.
  - split; [done|]. split; [done|apply NoDup_nil_2].
  - done.
  - done.
  - done.
Qed.


(** The plugin of the code, with an open storage. *)
Definition demo_state : InmemWallet := set_ids 2 (set_open {[ 2%Z := "w" ]} (set_wallets {[ "w" := mkInmemEntity "m" ∅ ]} empty_inmem)).
Definition demo_acts : list Act :=
  [ARecord (OpAdd [1]%Z [1]%Z (demo_value 1) [TagPlainText [3]%Z "x"]); AGet [1]%Z [1]%Z "all"; AGet [1]%Z [2]%Z "all";
   AGetMetadata; AGetAll; ANext 0; ANext 0; AGetAll; ADropIterator 1].
Definition demo_watched : PluggedStorage (Watched demo_inmem) :=
  mkPlugged (P := Watched demo_inmem) (demo_state, mkWatch [] [] [] 0) 2.


(** ** What the plugin does differently *)

(** A record that is there is replaced. *)
Theorem inmem_add_replaces :
  let run := run_ops (W := Plugged (P := demo_inmem))
    [OpAdd [1]%Z [1]%Z (demo_value 1) []; OpAdd [1]%Z [1]%Z (demo_value 2) []] (mkPlugged (P := demo_inmem) demo_state 2) in
  run.2 = [Ok (); Ok ()] /\
  out_map sr_value (PluggedStorage.get (P := demo_inmem) [1]%Z [1]%Z "all" run.1).2 = Ok (Some (demo_value 2)).
Proof. vm_compute. split; reflexivity. Qed.

(** A search whose storage was closed can no longer be freed: dropping the iterator leaves its
    records in the plugin. *)
Theorem search_outlives_storage :
  let started := PluggedStorage.get_all (P := demo_inmem) (mkPlugged (P := demo_inmem) demo_state 2) in
  let closed := PluggedStorage.close (P := demo_inmem) started.1 in
  exists it, started.2 = Ok it /\ closed.2 = Ok () /\
    size (ACTIVE_SEARCHES (ps_plugin (drop_iterator (P := demo_inmem) it closed.1).1)) = 1.
Proof. cbv zeta. eexists. split; [vm_compute; reflexivity|]. split; vm_compute; reflexivity. Qed.

(** The query of a search does not matter, and records of a type that only begins like the
    one that is searched are found. *)
Theorem inmem_search_is_loose cast order h t query query' options options' s :
  search_records cast order h t query options s = search_records cast order h t query' options' s /\
  forall r, ir_type r = t +:+ "x" -> order {[ build_record_id (ir_type r) (ir_id r) := r ]} = [(build_record_id (ir_type r) (ir_id r), r)] ->
    map snd (filter (fun kr => String.prefix t kr.1 = true) (order {[ build_record_id (ir_type r) (ir_id r) := r ]})) = [r].
Proof.
  split; [done|]. intros r Hr ->.
  assert (Hp : String.prefix t (build_record_id (ir_type r) (ir_id r)) = true).
  { rewrite Hr. unfold build_record_id. rewrite string_app_assoc. clear Hr. induction t as [|a t IH]; [done|].
    change (String.prefix (String a t) _) with
      (if Ascii.ascii_dec a a then String.prefix t (t +:+ "x" +:+ "-" +:+ ir_id r) else false).
    destruct (Ascii.ascii_dec a a) as [_|Hn]; [exact IH|by destruct Hn]. }
  rewrite filter_cons_True by done. done.
Qed.

(** A name that is taken or unknown is an invalid state, not a wallet that exists or is missing. *)
Theorem inmem_codes cast id config cred metadata s :
  useful id = true -> useful metadata = true ->
  (is_Some (INMEM_WALLETS s !! id) -> create id config cred metadata s = (s, ErrorCode_CommonInvalidState)) /\
  (INMEM_WALLETS s !! id = None ->
     open cast id config cred s = (s, (ErrorCode_CommonInvalidState, -1)%Z) /\
     delete id config cred s = (s, ErrorCode_CommonInvalidState)).
Proof.
  intros Hid Hm. unfold create, open, delete. rewrite Hid, Hm. cbn [negb]. split; [by intros [e ->]|by intros ->].
Qed.
