(* ===== verification/ObjectStore.v ===== *)
(** * Objects in a wallet

    The command executors of libindy ([commands/crypto.rs], [did.rs], [ledger.rs],
    [pairwise.rs]) keep keys, DIDs and the like as objects in a wallet, through a few calls of
    [WalletService].  [ObjectStore] lists these calls and [ObjectLaws] what they do to the
    records of an open wallet; the executors are modelled and verified against this interface.

    [WalletObjects] is the wallet service, over any storage, and [WalletObjects_laws] shows
    that it keeps the laws on a storage without faults.  [MapObjects] keeps the records of open
    wallets in a map; it is what the examples run on. *)

From stdpp Require Import base list strings numbers gmap.
From Stdlib Require Import ZArith Lia.
From S2P Require Import Prelude Errors Json Wql WalletCrypto WalletQuery WalletStorage StorageType SqliteStorage SqliteStorageType Wallet KeyDerivation ChunkStream ExportImport WalletService WalletLife.

Open Scope string_scope.

(** ** The calls

    The handle is that of an open wallet, the string the name of the object; its type gives
    the type of the record.  [obj_get] reads with [RecordOptions::id_value()], [obj_value]
    is [get_indy_record_value] with the options of the caller.  Objects are added without
    tags. *)
Class ObjectStore := {
  store : Type;
  obj_get : forall (T : Type) {Sd : Serde T}, Z -> string -> SM store T;
  obj_get_opt : forall (T : Type) {Sd : Serde T}, Z -> string -> SM store (option T);
  obj_value : forall (T : Type) {Sd : Serde T}, Z -> string -> string -> SM store string;
  obj_add : forall (T : Type) {Sd : Serde T}, Randomness -> Z -> string -> T -> SM store string;
  obj_add_record : forall (T : Type) {Sd : Serde T}, Randomness -> Z -> string -> string -> SM store unit;
  obj_update : forall (T : Type) {Sd : Serde T}, Randomness -> Z -> string -> T -> SM store string;
  obj_upsert : forall (T : Type) {Sd : Serde T}, Randomness -> Z -> string -> T -> SM store string;
  obj_delete : forall (T : Type) {Sd : Serde T}, Z -> string -> SM store unit;
  obj_exists : forall (T : Type) {Sd : Serde T}, Z -> string -> SM store bool;
  obj_record : forall (T : Type) {Sd : Serde T}, Z -> string -> SM store WalletRecord
}.

(** Whatever a call answers, [P] holds of the state and the answer. *)
Definition ends {S A : Type} (m : SM S A) (s : S) (P : S -> outcome A -> Prop) : Prop := P (m s).1 (m s).2.

Section Laws.
Context {O : ObjectStore}.

(** What reading an object gives when the record has this value. *)
Definition read_object (T : Type) {Sd : Serde T} (value : string) : outcome T :=
  ok_or (from_json value) (err_msg InvalidState ("Cannot deserialize " +:+ short_type_name (type_name T))).

Class ObjectLaws := {
  (** the wallet with this handle is open, works, and has these records *)
  holds : store -> Z -> PlainWallet -> Prop;

  law_obj_get (T : Type) {Sd : Serde T} s h w n :
    holds s h w -> rust_string (object_type T) -> rust_string n ->
    ends (obj_get T h n) s (fun s' r => holds s' h w /\
      match w !! (object_type T, n) with
      | Some rec => r = read_object T (pr_value rec)
      | None => is_error r WalletItemNotFound
      end);
  law_obj_get_opt (T : Type) {Sd : Serde T} s h w n :
    holds s h w -> rust_string (object_type T) -> rust_string n ->
    ends (obj_get_opt T h n) s (fun s' r => holds s' h w /\
      match w !! (object_type T, n) with
      | Some rec => r = out_map Some (read_object T (pr_value rec))
      | None => r = Ok None
      end);
  law_obj_value (T : Type) {Sd : Serde T} s h w n :
    holds s h w -> rust_string (object_type T) -> rust_string n ->
    ends (obj_value T h n "{}") s (fun s' r => holds s' h w /\
      match w !! (object_type T, n) with
      | Some rec => r = Ok (pr_value rec)
      | None => is_error r WalletItemNotFound
      end);
  law_obj_add (T : Type) {Sd : Serde T} s h w rnd n x j :
    holds s h w -> rust_string (object_type T) -> rust_string n -> randomness_ok rnd ->
    to_json x = Some j -> rust_string j ->
    ends (obj_add T rnd h n x) s (fun s' r =>
      match w !! (object_type T, n) with
      | Some _ => is_error r WalletItemAlreadyExists /\ holds s' h w
      | None => r = Ok j /\ holds s' h (<[(object_type T, n) := mkPlainRecord j ∅]> w)
      end);
  law_obj_add_record (T : Type) {Sd : Serde T} s h w rnd n j :
    holds s h w -> rust_string (object_type T) -> rust_string n -> randomness_ok rnd -> rust_string j ->
    ends (obj_add_record T rnd h n j) s (fun s' r =>
      match w !! (object_type T, n) with
      | Some _ => is_error r WalletItemAlreadyExists /\ holds s' h w
      | None => r = Ok () /\ holds s' h (<[(object_type T, n) := mkPlainRecord j ∅]> w)
      end);
  law_obj_update (T : Type) {Sd : Serde T} s h w rnd n x j :
    holds s h w -> rust_string (object_type T) -> rust_string n -> randomness_ok rnd ->
    to_json x = Some j -> rust_string j ->
    ends (obj_update T rnd h n x) s (fun s' r =>
      match w !! (object_type T, n) with
      | Some rec => r = Ok j /\ holds s' h (<[(object_type T, n) := mkPlainRecord j (pr_tags rec)]> w)
      | None => is_error r WalletItemNotFound /\ holds s' h w
      end);
  law_obj_upsert (T : Type) {Sd : Serde T} s h w rnd n x j :
    holds s h w -> rust_string (object_type T) -> rust_string n -> randomness_ok rnd ->
    to_json x = Some j -> rust_string j ->
    ends (obj_upsert T rnd h n x) s (fun s' r => r = Ok j /\
      holds s' h (<[(object_type T, n) := mkPlainRecord j (default ∅ (pr_tags <$> w !! (object_type T, n)))]> w));
  law_obj_delete (T : Type) {Sd : Serde T} s h w n :
    holds s h w -> rust_string (object_type T) -> rust_string n ->
    ends (obj_delete T h n) s (fun s' r =>
      match w !! (object_type T, n) with
      | Some _ => r = Ok () /\ holds s' h (base.delete (object_type T, n) w)
      | None => is_error r WalletItemNotFound /\ holds s' h w
      end);
  law_obj_exists (T : Type) {Sd : Serde T} s h w n :
    holds s h w -> rust_string (object_type T) -> rust_string n ->
    ends (obj_exists T h n) s (fun s' r => holds s' h w /\ r = Ok (bool_decide (is_Some (w !! (object_type T, n)))));
  law_obj_record (T : Type) {Sd : Serde T} s h w n :
    holds s h w -> rust_string (object_type T) -> rust_string n ->
    ends (obj_record T h n) s (fun s' r => holds s' h w /\
      match w !! (object_type T, n) with
      | Some rec => exists o, r = Ok (shown o (object_type T, n) rec)
      | None => is_error r WalletItemNotFound
      end)
}.
End Laws.
Arguments ObjectLaws : clear implicits.

(** ** The wallet service *)
Section Wallets.
Context {S : Sodium} {C : OptionsCodec} {W : WalletStorage} {Wd : World W}.

Definition id_value_options : string := write_record_options record_options_id_value.

Definition WalletObjects : ObjectStore := {|
  store := Service;
  obj_get T Sd h n := get_indy_object T h n id_value_options;
  obj_get_opt T Sd h n := get_indy_opt_object T h n id_value_options;
  obj_value T Sd h n o := get_indy_record_value T h n o;
  obj_add T Sd rnd h n x := add_indy_object T rnd h n x [];
  obj_add_record T Sd rnd h n v := add_indy_record T rnd h n v [];
  obj_update T Sd rnd h n x := update_indy_object T rnd h n x;
  obj_upsert T Sd rnd h n x := upsert_indy_object T rnd h n x;
  obj_delete T Sd h n := delete_indy_record T h n;
  obj_exists T Sd h n := record_exists T h n;
  obj_record T Sd h n := get_indy_record T h n (write_record_options record_options_id)
|}.
End Wallets.

Section WalletLaws.
Context {S : Sodium} {SL : SodiumLaws S} {C : OptionsCodec} {CL : OptionsCodecLaws C} {K : KeyCodec} {KL : KeyCodecLaws K}.
Context {E : ExportCodec} {W : WalletStorage} {WL : StorageLaws W} {Wd : World W} {DL : WorldLaws WL Wd} {Pf : Platform}.

Definition wallet_holds (s : Service) (h : Z) (w : PlainWallet) : Prop :=
  healthy /\ world_ok (the_world s) /\
  exists q id keys pw m, attached s h q id keys /\ kept (the_world s) q pw m keys w.

Lemma wallet_holds_step s h w' plain q id keys pw m :
  healthy -> preserved (the_world s) w' q -> attached (set_world w' s) h q id keys -> kept w' q pw m keys plain ->
  wallet_holds (set_world w' s) h plain.
Proof using Type. intros Hh [Hw _] Ha Hk. split; [done|]. split; [done|]. by exists q, id, keys, pw, m. Qed.

(** Reading calls: [f] makes [g r] of the answer [r] of the wallet. *)
Lemma wallet_reads {A : Type} s h w t n options o (g : outcome WalletRecord -> outcome A) (f : Wallet -> SM storage A) :
  wallet_holds s h w -> rust_string t -> rust_string n -> options_of_get options = Some o ->
  (forall wallet st st' r, wallet_get wallet t n options st = (st', r) -> f wallet st = (st', g r)) ->
  ends (with_wallet h f) s (fun s' r' => wallet_holds s' h w /\ exists r, r' = g r /\
    match w !! (t, n) with
    | Some x => r = Ok (shown o (t, n) x)
    | None => is_error r WalletItemNotFound
    end).
Proof using SL.
  intros (Hh & Hw & q & id & keys & pw & m & Ha & Hk) Ht Hn Ho Hf.
  destruct (get_step s h q id keys pw m w t n options o Hh Hw Ha Hk Ht Hn Ho) as (r & Hr & Hg).
  destruct (Hg _ g f Hf) as (w' & Ew & Hp & Ha' & Hk'). unfold ends. rewrite Ew. split; [|by exists r].
  by eapply wallet_holds_step.
Qed.

(** Writing calls. *)
Lemma wallet_writes {A : Type} s h w o (g : outcome unit -> outcome A) (f : Wallet -> SM storage A) :
  wallet_holds s h w -> wallet_op_valid o ->
  (forall wallet st st' r, run_wallet_op wallet o st = (st', r) -> f wallet st = (st', g r)) ->
  ends (with_wallet h f) s (fun s' r' => exists r, r' = g r /\
    match wallet_spec o w with
    | Some w' => r = Ok () /\ wallet_holds s' h w'
    | None => is_error r (wallet_error o) /\ wallet_holds s' h w
    end).
Proof using SL.
  intros (Hh & Hw & q & id & keys & pw & m & Ha & Hk) Hv Hf.
  destruct (op_step s h q id keys pw m w o g f Hw Ha Hk Hv Hf) as (w' & r & plain' & Ew & Hp & Ha' & Hk' & Hr).
  assert (H' : wallet_holds (set_world w' s) h plain') by (by eapply wallet_holds_step).
  unfold ends. rewrite Ew. exists r. split; [done|]. destruct r as [[]|e|]; [|destruct Hr as [-> Hr]|done].
  - by rewrite Hr.
  - destruct (Hr Hh) as [-> <-]. split; [constructor|done].
Qed.

Lemma options_of_id_value : exists o, options_of_get id_value_options = Some o /\ retrieve_value o = true.
Proof using CL.
  unfold options_of_get, id_value_options. destruct (String.eqb _ _); [by eexists|].
  rewrite read_write_record_options. by eexists.
Qed.

Lemma ends_mono {T A : Type} (m : SM T A) s (P Q : T -> outcome A -> Prop) :
  ends m s P -> (forall s' r, P s' r -> Q s' r) -> ends m s Q.
Proof using Type. unfold ends. auto. Qed.

Lemma ends_bind {T A B : Type} (m : SM T A) (k : A -> SM T B) s P Q :
  ends m s P ->
  (forall s' r, P s' r -> match r with
                          | Ok a => ends (k a) s' Q
                          | Err e => Q s' (Err e)
                          | Panic => Q s' Panic
                          end) ->
  ends (sm_bind m k) s Q.
Proof using Type.
  unfold ends, sm_bind. destruct (m s) as [s1 r]. cbn. intros HP HQ. specialize (HQ _ _ HP). by destruct r.
Qed.

(** The error of the service names the record; its kind is that of the wallet. *)
Definition map_result {A : Type} (t n : string) (r : outcome A) : outcome A :=
  match r with Err e => Err (_map_wallet_storage_error e t n) | r => r end.
Lemma map_result_error {A : Type} t n (r : outcome A) k : is_error r k -> is_error (map_result t n r) k.
Proof using Type.
  intros He. destruct (is_error_inv _ _ He) as (e & -> & <-). cbn.
  assert (err_kind (_map_wallet_storage_error e t n) = err_kind e) as <-; [|constructor].
  unfold _map_wallet_storage_error. by destruct (err_kind e) eqn:Hk.
Qed.

Lemma value_read (T : Type) {Sd : Serde T} s h w n options o :
  wallet_holds s h w -> rust_string (object_type T) -> rust_string n ->
  options_of_get options = Some o -> retrieve_value o = true ->
  ends (get_indy_record_value T h n options) s (fun s' r => wallet_holds s' h w /\
    match w !! (object_type T, n) with
    | Some rec => r = Ok (pr_value rec)
    | None => is_error r WalletItemNotFound
    end).
Proof using SL.
  intros Hs Ht Hn Ho Hval. unfold get_indy_record_value. eapply ends_bind.
  { eapply (wallet_reads s h w (object_type T) n options o (fun r => r)); [done..|]. intros ???? E1. exact E1. }
  intros s' r (H & r0 & -> & Hr). destruct (w !! _) as [x|].
  - subst r0. unfold ends, sm_lift, ok_or, shown. cbn. by rewrite Hval.
  - destruct Hr. by split.
Qed.

Lemma object_read (T : Type) {Sd : Serde T} s h w n :
  wallet_holds s h w -> rust_string (object_type T) -> rust_string n ->
  ends (get_indy_object T h n id_value_options) s (fun s' r => wallet_holds s' h w /\
    match w !! (object_type T, n) with
    | Some rec => r = read_object T (pr_value rec)
    | None => is_error r WalletItemNotFound
    end).
Proof using SL CL.
  intros Hs Ht Hn. destruct options_of_id_value as (o & Ho & Hval). unfold get_indy_object. eapply ends_bind.
  { by eapply value_read. }
  intros s' r [H Hr]. destruct (w !! _) as [x|]; [subst r; by split|]. destruct Hr. by split.
Qed.

Lemma record_added (T : Type) {Sd : Serde T} s h w rnd n j :
  wallet_holds s h w -> rust_string (object_type T) -> rust_string n -> randomness_ok rnd -> rust_string j ->
  ends (add_indy_record T rnd h n j []) s (fun s' r =>
    match w !! (object_type T, n) with
    | Some _ => is_error r WalletItemAlreadyExists /\ wallet_holds s' h w
    | None => r = Ok () /\ wallet_holds s' h (<[(object_type T, n) := mkPlainRecord j ∅]> w)
    end).
Proof using SL.
  intros Hs Ht Hn Hrnd Hj. unfold add_indy_record, add_record. eapply ends_mono.
  { eapply (wallet_writes s h w (WAdd rnd (object_type T) n j [])
      (map_result (object_type T) n)); [done| |].
    { split; [done|]. do 3 (split; [done|]). split; [apply NoDup_nil_2|constructor]. }
    intros wallet st st' r E1. unfold mapped, map_err. cbn in E1. rewrite E1. by destruct r. }
  intros s' r (r0 & -> & H). cbn [wallet_spec] in H. destruct (w !! _) as [x|].
  - destruct H as [He H]. cbn [wallet_error] in He. split; [|done].
    by apply map_result_error.
  - by destruct H as [-> H].
Qed.

Lemma object_added (T : Type) {Sd : Serde T} s h w rnd n x j :
  wallet_holds s h w -> rust_string (object_type T) -> rust_string n -> randomness_ok rnd ->
  to_json x = Some j -> rust_string j ->
  ends (add_indy_object T rnd h n x []) s (fun s' r =>
    match w !! (object_type T, n) with
    | Some _ => is_error r WalletItemAlreadyExists /\ wallet_holds s' h w
    | None => r = Ok j /\ wallet_holds s' h (<[(object_type T, n) := mkPlainRecord j ∅]> w)
    end).
Proof using SL.
  intros Hs Ht Hn Hrnd Hx Hj. unfold add_indy_object.
  assert (Ej : serialize T x = Ok j) by (unfold serialize, ok_or; by rewrite Hx).
  unfold ends. rewrite (lift_ok _ _ _ _ Ej). change (ends (let* _ := add_indy_record T rnd h n j [] in sm_ret j) s
    (fun s' r => match w !! (object_type T, n) with
    | Some _ => is_error r WalletItemAlreadyExists /\ wallet_holds s' h w
    | None => r = Ok j /\ wallet_holds s' h (<[(object_type T, n) := mkPlainRecord j ∅]> w)
    end)).
  eapply ends_bind; [by apply record_added|]. intros s' r H. destruct (w !! _).
  - destruct H as [He H]. destruct He. done.
  - destruct H as [-> H]. done.
Qed.

Lemma object_updated (T : Type) {Sd : Serde T} s h w rnd n x j :
  wallet_holds s h w -> rust_string (object_type T) -> rust_string n -> randomness_ok rnd ->
  to_json x = Some j -> rust_string j ->
  ends (update_indy_object T rnd h n x) s (fun s' r =>
    match w !! (object_type T, n) with
    | Some rec => r = Ok j /\ wallet_holds s' h (<[(object_type T, n) := mkPlainRecord j (pr_tags rec)]> w)
    | None => is_error r WalletItemNotFound /\ wallet_holds s' h w
    end).
Proof using SL.
  intros Hs Ht Hn Hrnd Hx Hj. eapply ends_mono.
  { eapply (wallet_writes s h w (WUpdate rnd (object_type T) n j)
      (fun r => match r with Ok _ => Ok j | Err e => Err e | Panic => Panic end)); [done|done|].
    intros wallet st st' r E1. unfold serialize, sm_lift, sm_bind at 1, ok_or. rewrite Hx. cbn [run_wallet_op] in E1.
    unfold sm_bind. rewrite E1. by destruct r as [[]| |]. }
  intros s' r (r0 & -> & H). cbn [wallet_spec] in H. unfold on_record in H.
  destruct (w !! _) as [rec|]; cbn [fmap option_fmap option_map] in H.
  - by destruct H as [-> H].
  - destruct H as [He H]. cbn [wallet_error] in He. destruct (is_error_inv _ _ He) as (e & -> & Hk). split; [|done].
    rewrite <-Hk. constructor.
Qed.

Lemma existence_read (T : Type) {Sd : Serde T} s h w n :
  wallet_holds s h w -> rust_string (object_type T) -> rust_string n ->
  ends (record_exists T h n) s (fun s' r => wallet_holds s' h w /\
    r = Ok (bool_decide (is_Some (w !! (object_type T, n))))).
Proof using SL CL.
  intros (Hh & Hw & q & id & keys & pw & m & Ha & Hk) Ht Hn.
  destruct (record_exists_step T s h q id keys pw m w n Hh Hw Ha Hk Ht Hn) as (w' & Ew & Hp & Ha' & Hk').
  unfold ends. rewrite Ew. split; [|done]. by eapply wallet_holds_step.
Qed.

Lemma object_upserted (T : Type) {Sd : Serde T} s h w rnd n x j :
  wallet_holds s h w -> rust_string (object_type T) -> rust_string n -> randomness_ok rnd ->
  to_json x = Some j -> rust_string j ->
  ends (upsert_indy_object T rnd h n x) s (fun s' r => r = Ok j /\
    wallet_holds s' h (<[(object_type T, n) := mkPlainRecord j (default ∅ (pr_tags <$> w !! (object_type T, n)))]> w)).
Proof using SL CL.
  intros Hs Ht Hn Hrnd Hx Hj. unfold upsert_indy_object. eapply ends_bind; [by apply existence_read|].
  intros s' r [H ->]. destruct (w !! (object_type T, n)) as [rec|] eqn:Ew.
  - rewrite bool_decide_eq_true_2 by (by eexists).
    eapply ends_mono; [by eapply object_updated|]. intros s2 r2. by rewrite Ew.
  - rewrite bool_decide_eq_false_2 by (by intros []).
    eapply ends_mono; [by eapply object_added|]. intros s2 r2. by rewrite Ew.
Qed.

Lemma object_deleted (T : Type) {Sd : Serde T} s h w n :
  wallet_holds s h w -> rust_string (object_type T) -> rust_string n ->
  ends (delete_indy_record T h n) s (fun s' r =>
    match w !! (object_type T, n) with
    | Some _ => r = Ok () /\ wallet_holds s' h (base.delete (object_type T, n) w)
    | None => is_error r WalletItemNotFound /\ wallet_holds s' h w
    end).
Proof using SL.
  intros Hs Ht Hn. eapply ends_mono.
  { eapply (wallet_writes s h w (WDelete (object_type T) n)
      (map_result (object_type T) n)); [done|done|].
    intros wallet st st' r E1. unfold mapped, map_err. cbn in E1. rewrite E1. by destruct r. }
  intros s' r (r0 & -> & H). cbn [wallet_spec] in H. destruct (w !! _) as [rec|]; cbn [fmap option_fmap option_map] in H.
  - by destruct H as [-> H].
  - destruct H as [He H]. cbn [wallet_error] in He. split; [|done].
    by apply map_result_error.
Qed.

Lemma object_read_opt (T : Type) {Sd : Serde T} s h w n :
  wallet_holds s h w -> rust_string (object_type T) -> rust_string n ->
  ends (get_indy_opt_object T h n id_value_options) s (fun s' r => wallet_holds s' h w /\
    match w !! (object_type T, n) with
    | Some rec => r = out_map Some (read_object T (pr_value rec))
    | None => r = Ok None
    end).
Proof using SL CL.
  intros Hs Ht Hn. pose proof (object_read T s h w n Hs Ht Hn) as H. revert H.
  unfold ends, get_indy_opt_object, not_found_as, sm_bind.
  destruct (get_indy_object T h n id_value_options s) as [s1 r]. cbn [fst snd]. intros [H Hr].
  destruct (w !! _) as [rec|].
  - subst r. unfold read_object, ok_or. destruct (from_json (pr_value rec)); [done|]. cbn. by rewrite decide_False.
  - destruct (is_error_inv _ _ Hr) as (e & -> & Hk). by rewrite decide_True.
Qed.

Lemma record_read (T : Type) {Sd : Serde T} s h w n :
  wallet_holds s h w -> rust_string (object_type T) -> rust_string n ->
  ends (get_indy_record T h n (write_record_options record_options_id)) s (fun s' r => wallet_holds s' h w /\
    match w !! (object_type T, n) with
    | Some rec => exists o, r = Ok (shown o (object_type T, n) rec)
    | None => is_error r WalletItemNotFound
    end).
Proof using SL CL.
  intros Hs Ht Hn. assert (Ho : exists o, options_of_get (write_record_options record_options_id) = Some o).
  { unfold options_of_get. destruct (String.eqb _ _); [by eexists|]. rewrite read_write_record_options. by eexists. }
  destruct Ho as [o Ho]. unfold get_indy_record, get_record. eapply ends_mono.
  { eapply (wallet_reads s h w (object_type T) n _ o (map_result (object_type T) n)); [done..|].
    intros wallet st st' r E1. unfold mapped, map_err. rewrite E1. by destruct r. }
  intros s' r (H & r0 & -> & Hr). split; [done|]. destruct (w !! _) as [x|]; [subst r0; by exists o|]. by apply map_result_error.
Qed.

(** The wallet service keeps the laws. *)
Definition WalletObjects_laws : ObjectLaws (@WalletObjects S C W Wd) := {|
  holds := wallet_holds : @store (@WalletObjects S C W Wd) -> Z -> PlainWallet -> Prop;
  law_obj_get T Sd := object_read T;
  law_obj_get_opt T Sd := object_read_opt T;
  law_obj_value T Sd s h w n H1 H2 H3 := value_read T s h w n "{}" record_options_default H1 H2 H3 eq_refl eq_refl;
  law_obj_add T Sd := object_added T;
  law_obj_add_record T Sd := record_added T;
  law_obj_update T Sd := object_updated T;
  law_obj_upsert T Sd := object_upserted T;
  law_obj_delete T Sd := object_deleted T;
  law_obj_exists T Sd := existence_read T;
  law_obj_record T Sd := record_read T
|}.
End WalletLaws.

(** ** Records in a map *)
Section Maps.

Definition in_map {A : Type} (h : Z) (f : PlainWallet -> PlainWallet * outcome A) : SM (gmap Z PlainWallet) A :=
  fun s => match s !! h with
           | Some w => let (w', r) := f w in (<[h := w']> s, r)
           | None => (s, Err unknown_handle)
           end.
Definition item_not_found {A : Type} : outcome A := Err (err_msg WalletItemNotFound "Wallet item not found").
Definition map_value (k : string * string) (w : PlainWallet) : PlainWallet * outcome string :=
  (w, match w !! k with Some rec => Ok (pr_value rec) | None => item_not_found end).
Definition map_add (k : string * string) (j : string) (w : PlainWallet) : PlainWallet * outcome unit :=
  match w !! k with
  | Some _ => (w, Err (err_msg WalletItemAlreadyExists "Wallet item already exists"))
  | None => (<[k := mkPlainRecord j ∅]> w, Ok ())
  end.
Definition map_update (k : string * string) (j : string) (w : PlainWallet) : PlainWallet * outcome unit :=
  match w !! k with
  | Some rec => (<[k := mkPlainRecord j (pr_tags rec)]> w, Ok ())
  | None => (w, item_not_found)
  end.
Definition map_write (T : Type) {Sd : Serde T} (h : Z) (x : T)
    (f : string -> PlainWallet -> PlainWallet * outcome unit) : SM (gmap Z PlainWallet) string :=
  let* j := sm_lift (serialize T x) in
  let* _ := in_map h (f j) in
  sm_ret j.

Definition MapObjects : ObjectStore := {|
  store := gmap Z PlainWallet;
  obj_get T Sd h n := let* v := in_map h (map_value (object_type T, n)) in sm_lift (read_object T v);
  obj_get_opt T Sd h n :=
    not_found_as None
      (let* v := in_map h (map_value (object_type T, n)) in
       let* x := sm_lift (read_object T v) in sm_ret (Some x));
  obj_value T Sd h n _ := in_map h (map_value (object_type T, n));
  obj_add T Sd _ h n x := map_write T h x (map_add (object_type T, n));
  obj_add_record T Sd _ h n v := in_map h (map_add (object_type T, n) v);
  obj_update T Sd _ h n x := map_write T h x (map_update (object_type T, n));
  obj_upsert T Sd _ h n x :=
    map_write T h x (fun j w => if w !! (object_type T, n) then map_update (object_type T, n) j w
                                else map_add (object_type T, n) j w);
  obj_delete T Sd h n :=
    in_map h (fun w => match w !! (object_type T, n) with
                       | Some _ => (base.delete (object_type T, n) w, Ok ())
                       | None => (w, item_not_found)
                       end);
  obj_exists T Sd h n := in_map h (fun w => (w, Ok (bool_decide (is_Some (w !! (object_type T, n))))));
  obj_record T Sd h n :=
    in_map h (fun w => (w, match w !! (object_type T, n) with
                           | Some rec => Ok (shown record_options_id (object_type T, n) rec)
                           | None => item_not_found
                           end))
|}.

Ltac map_law :=
  intros; unfold ends, map_write, in_map, map_value, map_add, map_update, serialize, not_found_as, sm_bind, sm_lift, ok_or in *;
  repeat match goal with
         | H : _ !! _ = Some _ |- _ => progress rewrite H
         | H : to_json _ = Some _ |- _ => rewrite H
         end; cbn;
  repeat match goal with |- context [match ?w !! ?k with _ => _ end] => destruct (w !! k) eqn:? end; cbn;
  unfold read_object, ok_or; try (destruct (from_json _)); cbn;
  repeat (rewrite lookup_insert_eq || rewrite decide_True by done || rewrite decide_False by done);
  repeat split; try done; try (by rewrite insert_id); try (by apply lookup_insert_eq); try (by exists record_options_id); try constructor.

Definition MapObjects_laws : ObjectLaws MapObjects.
Proof.
  refine {| holds := fun (s : @store MapObjects) h w => (s : gmap Z PlainWallet) !! h = Some w |}.
  all: cbn [MapObjects store obj_get obj_get_opt obj_value obj_add obj_add_record obj_update obj_upsert obj_delete obj_exists obj_record].
  all: map_law.
Defined.
End Maps.

(** ** Going through all objects of a type

    [search_indy_records] with the query [{}] and [SearchOptions::id_value()], or
    [RecordOptions::id_value()], which leaves out the type and the count nobody reads, then
    [fetch_next_record] until there is none.  A cursor shows the names and values it will give. *)
Class ObjectSearch (O : ObjectStore) := {
  cursor : Type;
  obj_search : forall (T : Type) {Sd : Serde T}, Z -> SM store cursor;
  obj_next : cursor -> SM store (cursor * option (string * option string))
}.

(** The objects of a type in a wallet, by name. *)
Definition objects_of (T : Type) {Sd : Serde T} (w : PlainWallet) (l : list (string * string)) : Prop :=
  NoDup l.*1 /\ forall n v, (n, v) ∈ l <-> exists rec, w !! (object_type T, n) = Some rec /\ pr_value rec = v.

Class ObjectSearchLaws {O : ObjectStore} (OL : ObjectLaws O) (Os : ObjectSearch O) := {
  showing : store -> Z -> cursor -> list (string * string) -> Prop;
  law_obj_search (T : Type) {Sd : Serde T} s h w :
    holds s h w -> rust_string (object_type T) ->
    ends (obj_search T h) s (fun s' r => holds s' h w /\
      exists c l, r = Ok c /\ showing s' h c l /\ objects_of T w l);
  law_obj_next s h w c l :
    holds s h w -> showing s h c l ->
    ends (obj_next c) s (fun s' r => holds s' h w /\
      exists c', showing s' h c' (tail l) /\ r = Ok (c', (fun nv => (nv.1, Some nv.2)) <$> head l));
  (** an update of an object that was shown does not disturb the cursor *)
  law_showing_update (T : Type) {Sd : Serde T} s h c l rnd n x :
    showing s h c l -> n ∉ l.*1 -> showing (obj_update T rnd h n x s).1 h c l
}.

Section WalletSearches.
Context {S : Sodium} {C : OptionsCodec} {W : WalletStorage} {Wd : World W}.

Definition search_id_value_options : string := write_search_options (mkSearchOptions true true true true false).
Definition WalletObjectSearch : ObjectSearch (@WalletObjects S C W Wd) := {|
  cursor := WalletSearch : Type;
  obj_search T Sd h := (search_indy_records T h (Object []) search_id_value_options : SM (@store (@WalletObjects S C W Wd)) WalletSearch);
  obj_next ws := fun s =>
    let '((s', ws'), r) := fetch_next_record (s, ws) in
    (s', out_map (fun rec => (ws', (fun x => (wr_id x, wr_value x)) <$> rec)) r)
|}.
End WalletSearches.

(** The map gives the objects as they are when the search starts. *)
Definition map_objects (t : string) (w : PlainWallet) : list (string * string) :=
  omap (fun '((t', n), rec) => if String.eqb t' t then Some (n, pr_value rec) else None) (map_to_list w).
Definition MapObjectSearch : ObjectSearch MapObjects := {|
  cursor := list (string * string);
  obj_search T Sd h := (in_map h (fun w => (w, Ok (map_objects (object_type T) w))) : SM (@store MapObjects) _);
  obj_next l := sm_ret (tail l, (fun nv => (nv.1, Some nv.2)) <$> head l)
|}.

Lemma elem_of_map_objects t w n v :
  (n, v) ∈ map_objects t w <-> exists rec, w !! (t, n) = Some rec /\ pr_value rec = v.
Proof.
  unfold map_objects. rewrite list_elem_of_omap. split.
  - intros ([[t' n'] rec] & Hin & Hs). destruct (String.eqb_spec t' t) as [->|]; [|done]. injection Hs as <- <-.
    exists rec. split; [by apply elem_of_map_to_list|done].
  - intros (rec & Hl & <-). exists ((t, n), rec). split; [by apply elem_of_map_to_list|]. by rewrite String.eqb_refl.
Qed.
Lemma map_objects_NoDup t w : NoDup (map_objects t w).*1.
Proof.
  unfold map_objects. pose proof (NoDup_fst_map_to_list w) as Hd. induction (map_to_list w) as [|[[t' n] rec] l IH]; [constructor|].
  cbn [fmap list_fmap fst] in Hd. apply NoDup_cons in Hd as [Hn Hd]. cbn [omap list_omap].
  destruct (String.eqb_spec t' t) as [->|]; [|by apply IH]. cbn [fmap list_fmap fst]. constructor; [|by apply IH].
  intros ([n' v] & Hn' & Hin)%list_elem_of_fmap. cbn in Hn'. subst n'. apply list_elem_of_omap in Hin as ([[t'' n''] rec'] & Hin & Hs).
  destruct (String.eqb_spec t'' t) as [->|]; [|done]. injection Hs as <- <-. apply Hn, list_elem_of_fmap. by exists ((t, n''), rec').
Qed.
Definition MapObjectSearch_laws : ObjectSearchLaws MapObjects_laws MapObjectSearch.
Proof.
  refine (@Build_ObjectSearchLaws MapObjects MapObjects_laws MapObjectSearch (fun _ _ c l => c = l) _ _ _).
  - intros T Sd s h w Hs _. unfold ends. cbn. unfold in_map. cbn in Hs. rewrite Hs. cbn. split; [by rewrite insert_id|].
    exists (map_objects (object_type T) w), (map_objects (object_type T) w). split; [done|]. split; [done|].
    split; [apply map_objects_NoDup|]. intros n v. apply elem_of_map_objects.
  - intros s h w c l Hs ->. unfold ends. cbn. split; [done|]. by exists (tail l).
  - done.
Defined.

(** ** Rules for the calls

    [ends m s Q] is the weakest precondition of [m]; the rules compute it through a program that
    works on the objects of a wallet. *)
Class SerdeLaws (T : Type) {Sd : Serde T} := {
  serde_back (x : T) : exists j, to_json x = Some j /\ rust_string j /\ from_json j = Some x;
  serde_type : rust_string (object_type T)
}.
(** A record that reads as this object. *)
Definition record_is {T : Type} {Sd : Serde T} (rec : PlainRecord) (x : T) : Prop := from_json (pr_value rec) = Some x.
Definition object_is {T : Type} {Sd : Serde T} (w : PlainWallet) (n : string) (x : T) : Prop :=
  exists rec, w !! (object_type T, n) = Some rec /\ record_is rec x.
Definition no_object (T : Type) {Sd : Serde T} (w : PlainWallet) (n : string) : Prop := w !! (object_type T, n) = None.

Section Rules.
Context {O : ObjectStore} {OL : ObjectLaws O}.

Lemma ends_seq {S A B : Type} (m : SM S A) (k : A -> SM S B) s Q :
  ends m s (fun s' r => match r with Ok a => ends (k a) s' Q | Err e => Q s' (Err e) | Panic => Q s' Panic end) ->
  ends (sm_bind m k) s Q.
Proof using Type. unfold ends, sm_bind. by destruct (m s) as [s' [a|e|]]. Qed.
Lemma ends_lift {S A : Type} (r : outcome A) (s : S) (Q : S -> outcome A -> Prop) : Q s r -> ends (sm_lift r) s Q.
Proof using Type. done. Qed.
Lemma ends_ret {S A : Type} (a : A) (s : S) (Q : S -> outcome A -> Prop) : Q s (Ok a) -> ends (sm_ret a) s Q.
Proof using Type. done. Qed.
Lemma ends_is {S A : Type} (m : SM S A) s (Q : S -> outcome A -> Prop) : ends m s Q -> exists s' r, m s = (s', r) /\ Q s' r.
Proof using Type. unfold ends. destruct (m s) as [s' r]. eauto. Qed.

Context (T : Type) {Sd : Serde T} {SL : SerdeLaws T}.

Lemma ends_get s h w n (x : T) Q :
  holds s h w -> rust_string n -> object_is w n x -> (forall s', holds s' h w -> Q s' (Ok x)) -> ends (obj_get T h n) s Q.
Proof using SL.
  intros Hs Hn (rec & Hl & Hr) HQ. eapply ends_mono; [by apply law_obj_get; [..|apply serde_type|]|].
  intros s' r [Hs' H]. rewrite Hl in H. subst r. unfold read_object. rewrite Hr. by apply HQ.
Qed.
Lemma ends_get_none s h w n Q :
  holds s h w -> rust_string n -> no_object T w n ->
  (forall s' e, holds s' h w -> err_kind e = WalletItemNotFound -> Q s' (Err e)) -> ends (obj_get T h n) s Q.
Proof using SL.
  intros Hs Hn Hl HQ. eapply ends_mono; [by apply law_obj_get; [..|apply serde_type|]|].
  intros s' r [Hs' H]. unfold no_object in Hl. rewrite Hl in H. destruct (is_error_inv _ _ H) as (e & -> & He). by apply HQ.
Qed.
Lemma ends_add s h w rnd n (x : T) Q :
  holds s h w -> rust_string n -> randomness_ok rnd -> no_object T w n ->
  (forall s' j, from_json j = Some x -> holds s' h (<[(object_type T, n) := mkPlainRecord j ∅]> w) -> Q s' (Ok j)) ->
  ends (obj_add T rnd h n x) s Q.
Proof using SL.
  intros Hs Hn Hr Hl HQ. destruct (serde_back x) as (j & Hj & Hrj & Hb).
  eapply ends_mono; [by apply law_obj_add; [..|apply serde_type| | |exact Hj|]|].
  intros s' r H. unfold no_object in Hl. rewrite Hl in H. destruct H as [-> H]. by apply HQ.
Qed.
Lemma ends_add_taken s h w rnd n (x : T) Q :
  holds s h w -> rust_string n -> randomness_ok rnd -> is_Some (w !! (object_type T, n)) ->
  (forall s' e, holds s' h w -> err_kind e = WalletItemAlreadyExists -> Q s' (Err e)) -> ends (obj_add T rnd h n x) s Q.
Proof using SL.
  intros Hs Hn Hr [rec Hl] HQ. destruct (serde_back x) as (j & Hj & Hrj & Hb).
  eapply ends_mono; [by apply law_obj_add; [..|apply serde_type| | |exact Hj|]|].
  intros s' r H. rewrite Hl in H. destruct H as [H Hs']. destruct (is_error_inv _ _ H) as (e & -> & He). by apply HQ.
Qed.
Lemma ends_update s h w rnd n (x : T) rec Q :
  holds s h w -> rust_string n -> randomness_ok rnd -> w !! (object_type T, n) = Some rec ->
  (forall s' j, from_json j = Some x -> holds s' h (<[(object_type T, n) := mkPlainRecord j (pr_tags rec)]> w) -> Q s' (Ok j)) ->
  ends (obj_update T rnd h n x) s Q.
Proof using SL.
  intros Hs Hn Hr Hl HQ. destruct (serde_back x) as (j & Hj & Hrj & Hb).
  eapply ends_mono; [by apply law_obj_update; [..|apply serde_type| | |exact Hj|]|].
  intros s' r H. rewrite Hl in H. destruct H as [-> H]. by apply HQ.
Qed.
Lemma ends_delete s h w n Q :
  holds s h w -> rust_string n -> is_Some (w !! (object_type T, n)) ->
  (forall s', holds s' h (base.delete (object_type T, n) w) -> Q s' (Ok ())) -> ends (obj_delete T h n) s Q.
Proof using SL.
  intros Hs Hn [rec Hl] HQ. eapply ends_mono; [by apply law_obj_delete; [..|apply serde_type|]|].
  intros s' r H. rewrite Hl in H. destruct H as [-> H]. by apply HQ.
Qed.
Lemma ends_value s h w n Q :
  holds s h w -> rust_string n ->
  (forall s', holds s' h w ->
     match w !! (object_type T, n) with
     | Some rec => Q s' (Ok (pr_value rec))
     | None => forall e, err_kind e = WalletItemNotFound -> Q s' (Err e)
     end) -> ends (obj_value T h n "{}") s Q.
Proof using SL.
  intros Hs Hn HQ. eapply ends_mono; [by apply law_obj_value; [..|apply serde_type|]|].
  intros s' r [Hs' H]. specialize (HQ s' Hs'). destruct (w !! _); [by subst r|].
  destruct (is_error_inv _ _ H) as (e & -> & He). by apply HQ.
Qed.
Lemma ends_add_record s h w rnd n j Q :
  holds s h w -> rust_string n -> randomness_ok rnd -> rust_string j -> no_object T w n ->
  (forall s', holds s' h (<[(object_type T, n) := mkPlainRecord j ∅]> w) -> Q s' (Ok ())) ->
  ends (obj_add_record T rnd h n j) s Q.
Proof using SL.
  intros Hs Hn Hr Hj Hl HQ. eapply ends_mono; [by apply law_obj_add_record; [..|apply serde_type| | |]|].
  intros s' r H. unfold no_object in Hl. rewrite Hl in H. destruct H as [-> H]. by apply HQ.
Qed.
End Rules.
