(* ===== verification/RecordStore.v ===== *)
(** * Records of an open wallet

    The calls of [WalletService] on records of any type, with values and tags, as the non-secrets
    and the cache commands use them.  [RecordStore] lists them, [RecordLaws] says what they do to
    the records of an open wallet, in terms of the specification [wallet_spec] of [Wallet.v].

    [WalletRecords] is the wallet service, over any storage; [WalletRecords_laws] shows that it
    keeps the laws on a storage without faults.  [MapRecords] keeps the records in a map.  That a
    search changes no records ([RecordSearchLaws]) is shown of the map only, for the contract of
    storages does not speak of searches. *)

From stdpp Require Import base list strings numbers gmap.
From Stdlib Require Import ZArith Lia.
From S2P Require Import Prelude Errors Json Wql WalletCrypto WalletQuery WalletStorage StorageType Wallet KeyDerivation ExportImport WalletService WalletLife ObjectStore.

Open Scope string_scope.

(** ** The calls

    [rec_op] is one of [add_record], [update_record_value], [add_record_tags],
    [update_record_tags], [delete_record_tags] and [delete_record]. *)
Class RecordStore := {
  rstore : Type;
  rcursor : Type;
  rec_op : Z -> WalletOp -> SM rstore unit;
  rec_get : Z -> string -> string -> string -> SM rstore WalletRecord;
  rec_search : Z -> string -> Value -> string -> SM rstore rcursor;
  rec_next : SM (rstore * rcursor) (option WalletRecord);
  rec_count : rcursor -> SM rstore (option nat)
}.

Section Laws.
Context {C : OptionsCodec} {R : RecordStore}.
Class RecordLaws := {
  (** the wallet with this handle is open, works, and has these records *)
  rholds : rstore -> Z -> PlainWallet -> Prop;
  law_rec_op s h w o :
    rholds s h w -> wallet_op_valid o ->
    ends (rec_op h o) s (fun s' r =>
      match wallet_spec o w with
      | Some w' => r = Ok () /\ rholds s' h w'
      | None => is_error r (wallet_error o) /\ rholds s' h w
      end);
  law_rec_get s h w t n options o :
    rholds s h w -> rust_string t -> rust_string n -> options_of_get options = Some o ->
    ends (rec_get h t n options) s (fun s' r => rholds s' h w /\
      match w !! (t, n) with
      | Some x => r = Ok (shown o (t, n) x)
      | None => is_error r WalletItemNotFound
      end)
}.
Class RecordSearchLaws (RL : RecordLaws) := {
  law_rec_get_keeps s h w h' t n options : rholds s h w -> ends (rec_get h' t n options) s (fun s' r => r <> Panic /\ rholds s' h w);
  law_rec_search s h w h' t query options : rholds s h w -> ends (rec_search h' t query options) s (fun s' r => r <> Panic /\ rholds s' h w);
  law_rec_next s c h w : rholds s h w -> ends rec_next (s, c) (fun s' r => r <> Panic /\ rholds s'.1 h w);
  law_rec_count s c h w : rholds s h w -> ends (rec_count c) s (fun s' r => r <> Panic /\ rholds s' h w)
}.
End Laws.
Arguments RecordLaws {C} R.
Arguments RecordSearchLaws {C R} RL.

(** ** The wallet service *)
Section Wallets.
Context {S : Sodium} {C : OptionsCodec} {W : WalletStorage} {Wd : World W}.
Definition service_op (h : Z) (o : WalletOp) : SM Service unit :=
  match o with
  | WAdd rnd t n v l => add_record rnd h t n v l
  | WUpdate rnd t n v => update_record_value rnd h t n v
  | WAddTags t n l => add_record_tags h t n l
  | WUpdateTags t n l => update_record_tags h t n l
  | WDeleteTags t n l => delete_record_tags h t n l
  | WDelete t n => delete_record h t n
  end.
Definition WalletRecords : RecordStore := {|
  rstore := Service;
  rcursor := WalletSearch;
  rec_op := service_op;
  rec_get := get_record;
  rec_search := search_records;
  rec_next := fetch_next_record;
  rec_count := search_total_count
|}.
End Wallets.

Section WalletLaws.
Context {S : Sodium} {SL : SodiumLaws S} {C : OptionsCodec} {CL : OptionsCodecLaws C} {K : KeyCodec} {KL : KeyCodecLaws K}.
Context {E : ExportCodec} {W : WalletStorage} {WL : StorageLaws W} {Wd : World W} {DL : WorldLaws WL Wd} {Pf : Platform}.

Lemma op_runs s h w o :
  wallet_holds s h w -> wallet_op_valid o ->
  ends (service_op h o) s (fun s' r =>
    match wallet_spec o w with
    | Some w' => r = Ok () /\ wallet_holds s' h w'
    | None => is_error r (wallet_error o) /\ wallet_holds s' h w
    end).
Proof using SL.
  intros Hs Hv.
  assert (H : exists t n, service_op h o = with_wallet h (fun wallet => mapped t n (run_wallet_op wallet o))) by (destruct o; by eexists _, _).
  destruct H as (t & n & ->). eapply ends_mono.
  { eapply (wallet_writes s h w o (map_result t n)); [done..|]. intros wallet st st' r E1. unfold mapped, map_err. rewrite E1. by destruct r. }
  intros s' r (r0 & -> & H). destruct (wallet_spec o w).
  - by destruct H as [-> H].
  - destruct H as [He H]. split; [by apply map_result_error|done].
Qed.
Lemma get_runs s h w t n options o :
  wallet_holds s h w -> rust_string t -> rust_string n -> options_of_get options = Some o ->
  ends (get_record h t n options) s (fun s' r => wallet_holds s' h w /\
    match w !! (t, n) with
    | Some x => r = Ok (shown o (t, n) x)
    | None => is_error r WalletItemNotFound
    end).
Proof using SL.
  intros Hs Ht Hn Ho. unfold get_record. eapply ends_mono.
  { eapply (wallet_reads s h w t n options o (map_result t n)); [done..|]. intros wallet st st' r E1. unfold mapped, map_err. rewrite E1. by destruct r. }
  intros s' r (H & r0 & -> & Hr). split; [done|]. destruct (w !! (t, n)); [by subst r0|]. by apply map_result_error.
Qed.
Definition WalletRecords_laws : RecordLaws WalletRecords :=
  {| rholds := (wallet_holds : @rstore WalletRecords -> Z -> PlainWallet -> Prop); law_rec_op := op_runs; law_rec_get := get_runs |}.
End WalletLaws.

(** ** Records in a map

    A search gives the records of the type whose tags satisfy the query as they are when it
    starts; the order of the map is that of the results. *)
Section Maps.
Context {C : OptionsCodec}.
Definition map_op (o : WalletOp) (w : PlainWallet) : PlainWallet * outcome unit :=
  match wallet_spec o w with
  | Some w' => (w', Ok ())
  | None => (w, Err (err_msg (wallet_error o) "Wallet item"))
  end.
Definition map_get (t n options : string) (w : PlainWallet) : PlainWallet * outcome WalletRecord :=
  (w, match options_of_get options with
      | Some o => match w !! (t, n) with Some x => Ok (shown o (t, n) x) | None => item_not_found end
      | None => Err (err_msg InvalidStructure "Cannot deserialize options")
      end).
Definition map_records (t : string) (o : SearchOptions) (q : Query) (w : PlainWallet) : list WalletRecord :=
  omap (fun '((t', n), x) =>
    if String.eqb t' t && eval String.eqb (fun tag => pr_tags x !! tag) q
    then Some (shown (mkRecordOptions (so_type o) (so_value o) (so_tags o)) (t, n) x) else None) (map_to_list w).
Definition map_search (t : string) (query : Value) (options : string) (w : PlainWallet) : PlainWallet * outcome (list WalletRecord) :=
  (w, match deserialize query with
      | RErr msg => Err (query_error msg)
      | ROk q =>
          match options_of_search (Some options) with
          | Some o => Ok (if so_records o then map_records t o q w else [])
          | None => Err (err_msg InvalidStructure "Cannot deserialize options")
          end
      end).
Definition MapRecords : RecordStore := {|
  rstore := gmap Z PlainWallet;
  rcursor := list WalletRecord;
  rec_op h o := in_map h (map_op o);
  rec_get h t n options := in_map h (map_get t n options);
  rec_search h t query options := in_map h (map_search t query options);
  rec_next := fun '(s, l) => ((s, tail l), Ok (head l));
  rec_count l := sm_ret (Some (length l))
|}.

Definition MapRecords_laws : RecordLaws MapRecords.
Proof.
  refine {| rholds := fun (s : @rstore MapRecords) h w => (s : gmap Z PlainWallet) !! h = Some w |}.
  - intros s h w o Hs _. unfold ends. cbn. unfold in_map. rewrite Hs. unfold map_op.
    destruct (wallet_spec o w); cbn; [|split; [|by rewrite insert_id]].
    + split; [done|apply lookup_insert_eq].
    + change (wallet_error o) with (err_kind (err_msg (wallet_error o) "Wallet item")) at 2. constructor.
  - intros s h w t n options o Hs _ _ Ho. unfold ends. cbn. unfold in_map, map_get. rewrite Hs, Ho. cbn. split; [by rewrite insert_id|].
    destruct (w !! (t, n)); [done|]. constructor.
Defined.
Lemma in_map_reads {A : Type} (h' : Z) (f : PlainWallet -> outcome A) (s : gmap Z PlainWallet) (h : Z) (w : PlainWallet) :
  s !! h = Some w -> (forall w, f w <> Panic) -> ends (in_map h' (fun w => (w, f w))) s (fun s' r => r <> Panic /\ s' !! h = Some w).
Proof using Type.
  intros Hs Hf. unfold ends, in_map. destruct (s !! h') as [w'|] eqn:Eh; [|done]. cbn. split; [apply Hf|]. by rewrite insert_id.
Qed.
Definition MapRecords_search_laws : RecordSearchLaws MapRecords_laws.
Proof.
  split.
  - intros s h w h' t n options Hs. cbn. apply in_map_reads; [done|]. intros w'. destruct (options_of_get options); [|done]. by destruct (w' !! (t, n)).
  - intros s h w h' t query options Hs. cbn. apply in_map_reads; [done|]. intros w'. destruct (deserialize query); [|done].
    by destruct (options_of_search (Some options)).
  - by intros.
  - by intros.
Qed.
End Maps.
