(* ===== verification/CryptoService.v ===== *)
(** * Keys, signatures and boxes

    [CryptoService] of [libindy/src/services/crypto/mod.rs] with its crypto type
    [ed25519.rs], the helpers of [utils/crypto/verkey_builder.rs], the wrappers of libsodium in
    [indy-utils/src/crypto/] and the types of [domain/crypto/].

    libsodium is the class [Ed25519], its promises are [Ed25519Laws]; what it draws at random
    is an argument.  Where the code formats the text of a foreign error into a message, the
    message ends before it.

    Shown: signatures of a key verify with its verification key ([signature_verifies]), boxes
    and sealed boxes open ([box_opens], [sealed_box_opens]), what is encrypted under a content
    key decrypts ([ciphertext_decrypts]), a full verification key is put together from a DID and
    its abbreviation ([full_verkey_of_parts]). *)

From stdpp Require Import base list strings numbers gmap.
From Stdlib Require Import ZArith Lia.
From S2P Require Import Prelude Errors Json Identifiers WalletCrypto ExportImport WalletCommands Trie External Verkey.

Open Scope string_scope.

(** ** libsodium *)
Class Ed25519 := {
  keypair_from_seed : bytes -> bytes * bytes;
  sign_detached : bytes -> bytes -> bytes;                                  (* doc, sk *)
  verify_detached : bytes -> bytes -> bytes -> bool;                        (* signature, doc, pk *)
  ed25519_pk_to_curve25519 : bytes -> option bytes;
  ed25519_sk_to_curve25519 : bytes -> bytes;
  box_seal : bytes -> bytes -> bytes -> bytes -> bytes;                     (* doc, nonce, pk, sk *)
  box_open : bytes -> bytes -> bytes -> bytes -> option bytes;              (* doc, nonce, pk, sk *)
  sealedbox_seal : bytes -> bytes -> bytes -> bytes;                        (* ephemeral key, doc, pk *)
  sealedbox_open : bytes -> bytes -> bytes -> option bytes;                 (* doc, pk, sk *)
  seal_detached : bytes -> bytes -> bytes -> bytes -> bytes * bytes;        (* data, ad, nonce, key *)
  open_detached : bytes -> bytes -> bytes -> bytes -> bytes -> option bytes (* data, ad, tag, nonce, key *)
}.
(** base64 with the alphabet for URLs. *)
Class UrlsafeCodec := {
  encode_urlsafe : bytes -> string;
  urlsafe_decode : string -> option bytes
}.

(** ** [sodium_type!]: byte arrays of fixed lengths *)
Definition from_slice (name : string) (len : nat) (bs : bytes) : outcome bytes :=
  if (length bs =? len)%nat then Ok bs else Err (err_msg InvalidStructure ("Invalid bytes for " +:+ name)).

Definition SIG_PUBLICKEYBYTES : nat := 32.
Definition SIG_SECRETKEYBYTES : nat := 64.
Definition SIGNATUREBYTES : nat := 64.
Definition ENC_PUBLICKEYBYTES : nat := 32.
Definition BOX_NONCEBYTES : nat := 24.
Definition CEK_BYTES : nat := 32.
Definition MSG_NONCEBYTES : nat := 12.
Definition MSG_TAGBYTES : nat := 16.

Definition public_key_from_slice : bytes -> outcome bytes := from_slice "PublicKey" SIG_PUBLICKEYBYTES.
Definition secret_key_from_slice : bytes -> outcome bytes := from_slice "SecretKey" SIG_SECRETKEYBYTES.
Definition signature_from_slice : bytes -> outcome bytes := from_slice "Signature" SIGNATUREBYTES.
Definition box_nonce_from_slice : bytes -> outcome bytes := from_slice "Nonce" BOX_NONCEBYTES.
Definition cek_from_slice : bytes -> outcome bytes := from_slice "Key" CEK_BYTES.
Definition msg_nonce_from_slice : bytes -> outcome bytes := from_slice "Nonce" MSG_NONCEBYTES.
Definition msg_tag_from_slice : bytes -> outcome bytes := from_slice "Tag" MSG_TAGBYTES.

(** [map_err]: another kind and message for an error. *)
Definition with_error {A : Type} (e : IndyError) (r : outcome A) : outcome A :=
  match r with Err _ => Err e | r => r end.

(** ** [domain/crypto/] *)
Record Key := mkKey { verkey : string; signkey : string }.
Record KeyInfo := mkKeyInfo { ki_seed : option string; ki_crypto_type : option string }.
Record KeyMetadata := mkKeyMetadata { km_value : string }.
Record MyDidInfo := mkMyDidInfo {
  mi_did : option string; mi_seed : option string; mi_crypto_type : option string;
  mi_cid : option bool; mi_method_name : option string
}.
Record Did := mkDid { did_did : string; did_verkey : string }.
Record TheirDidInfo := mkTheirDidInfo { ti_did : string; ti_verkey : option string }.
Record TheirDid := mkTheirDid { their_did : string; their_verkey : string }.
Record ComboBox := mkComboBox { cb_msg : string; cb_sender : string; cb_nonce : string }.

(** [DidValue]. *)
Definition did_value_new (did : string) (m : option string) : string :=
  match m with Some m => did_qualify did m | None => did end.
Definition did_is_fully_qualified (did : string) : bool := String.prefix "did" did && is_fully_qualified did.
Definition is_abbreviatable (did : string) : bool :=
  match method did with Some m => String.prefix "sov" m | None => true end.
(** [ShortDidValue::qualify]. *)
Definition short_did_qualify (did : string) (m : option string) : string :=
  match m with Some m => did_qualify did m | None => did end.

(** [Validatable]: what is wrong, if anything. *)
Definition validate_method_name (name : string) : bool :=
  match span_word name with (String _ _, EmptyString) => true | _ => false end.
Section Validation.
Context {C : Codec}.
Definition validate_short_did (did : string) : bool :=
  match from_base58 did with
  | Some bs => ((length bs =? 16) || (length bs =? 32))%nat
  | None => false
  end.
Definition validate_did_value (did : string) : bool :=
  did_is_fully_qualified did || validate_short_did did.
Definition validate_my_did_info (i : MyDidInfo) : bool :=
  match mi_did i with Some did => validate_did_value did | None => true end &&
  match mi_method_name i with Some name => validate_method_name name | None => true end.
End Validation.

(** ** The wrappers of libsodium *)
Section Service.
Context {C : Codec} {Ed : Ed25519} {U : UrlsafeCodec} {Sc : SeedCodec}.

(** [randombytes] gives the seed when the caller has none. *)
Definition create_key_pair_for_signature (random_seed : bytes) (seed : option bytes) : outcome (bytes * bytes) :=
  match from_slice "Seed" SEEDBYTES random_seed with
  | Ok random_seed => Ok (keypair_from_seed (default random_seed seed))
  | _ => Panic
  end.

(** The result of the C function is not looked at: the buffer stays zero when it fails. *)
Definition vk_to_curve25519 (pk : bytes) : bytes :=
  default (replicate ENC_PUBLICKEYBYTES 0%Z) (ed25519_pk_to_curve25519 pk).
Definition sk_to_curve25519 (sk : bytes) : bytes := ed25519_sk_to_curve25519 sk.

Definition ed_crypto_box (sk vk doc nonce : bytes) : bytes :=
  box_seal doc nonce (vk_to_curve25519 vk) (sk_to_curve25519 sk).
Definition ed_crypto_box_open (sk vk doc nonce : bytes) : outcome bytes :=
  ok_or (box_open doc nonce (vk_to_curve25519 vk) (sk_to_curve25519 sk))
    (err_msg InvalidStructure "Unable to open sodium _box").
Definition ed_crypto_box_seal (ephemeral vk doc : bytes) : bytes := sealedbox_seal ephemeral doc (vk_to_curve25519 vk).
Definition ed_crypto_box_seal_open (vk sk doc : bytes) : outcome bytes :=
  ok_or (sealedbox_open doc (vk_to_curve25519 vk) (sk_to_curve25519 sk))
    (err_msg InvalidStructure "Unable to open sodium sealedbox").
Definition decrypt_detached (data key nonce tag ad : bytes) : outcome bytes :=
  ok_or (open_detached data ad tag nonce key) (err_msg InvalidStructure "Unable to decrypt data: {:?}").
Definition decode_urlsafe (doc : string) : outcome bytes :=
  ok_or (urlsafe_decode doc) (err_msg InvalidStructure "Invalid base64URL_SAFE sequence").

(** ** The service

    There is one crypto type. *)
Definition known_crypto (name message : string) : outcome unit :=
  if String.eqb name DEFAULT_CRYPTO_TYPE then Ok ()
  else Err (err_msg UnknownCrypto (message +:+ name)).

Definition typed_verkey (vk crypto_type_name : string) : string :=
  if String.eqb crypto_type_name DEFAULT_CRYPTO_TYPE then vk else vk +:+ ":" +:+ crypto_type_name.

Definition create_key (random_seed : bytes) (key_info : KeyInfo) : outcome Key :=
  let crypto_type_name := default DEFAULT_CRYPTO_TYPE (ki_crypto_type key_info) in
  let? _ := known_crypto crypto_type_name "KeyInfo contains unknown crypto: " in
  let? seed := convert_seed (ki_seed key_info) in
  let? (vk, sk) := create_key_pair_for_signature random_seed seed in
  Ok (mkKey (typed_verkey (to_base58 vk) crypto_type_name) (to_base58 sk)).

Definition create_my_did (random_seed : bytes) (my_did_info : MyDidInfo) : outcome (Did * Key) :=
  let crypto_type_name := default DEFAULT_CRYPTO_TYPE (mi_crypto_type my_did_info) in
  let? _ := known_crypto crypto_type_name "MyDidInfo contains unknown crypto: " in
  let? seed := convert_seed (mi_seed my_did_info) in
  let? (vk, sk) := create_key_pair_for_signature random_seed seed in
  let did :=
    match mi_did my_did_info with
    | Some did => did
    | None =>
        if decide (mi_cid my_did_info = Some true)
        then did_value_new (to_base58 vk) (mi_method_name my_did_info)
        else did_value_new (to_base58 (take 16 vk)) (mi_method_name my_did_info)
    end in
  let vk := typed_verkey (to_base58 vk) crypto_type_name in
  Ok (mkDid did vk, mkKey vk (to_base58 sk)).

Definition validate_did (_ : string) : outcome unit := Ok ().

Definition validate_key (vk : string) : outcome unit :=
  let (vk, crypto_type_name) := split_verkey vk in
  let? _ := known_crypto crypto_type_name "Trying to use key with unknown crypto: " in
  match after_tilde vk with
  | Some rest => let? _ := base58 rest in Ok ()
  | None =>
      let? bs := base58 vk in
      let? _ := public_key_from_slice bs in
      Ok ()
  end.

Definition create_their_did (their_did_info : TheirDidInfo) : outcome TheirDid :=
  let? _ := validate_did (ti_did their_did_info) in
  let? verkey := build_full_verkey (to_unqualified (ti_did their_did_info)) (ti_verkey their_did_info) in
  let? _ := validate_key verkey in
  Ok (mkTheirDid (ti_did their_did_info) verkey).

Definition sign (my_key : Key) (doc : bytes) : outcome bytes :=
  let? _ := known_crypto (verkey_get_cryptoname (verkey my_key)) "Trying to sign message with unknown crypto: " in
  let? bs := base58 (signkey my_key) in
  let? my_sk := secret_key_from_slice bs in
  Ok (sign_detached doc my_sk).

Definition verify (their_vk : string) (msg signature : bytes) : outcome bool :=
  let (their_vk, crypto_type_name) := split_verkey their_vk in
  let? _ := known_crypto crypto_type_name "Trying to verify message with unknown crypto: " in
  let? bs := base58 their_vk in
  let? their_vk := public_key_from_slice bs in
  let? signature := signature_from_slice signature in
  Ok (verify_detached signature msg their_vk).

Definition same_crypto (mine theirs : string) : outcome unit :=
  if String.eqb mine theirs then Ok ()
  else Err (err_msg UnknownCrypto
         ("My key crypto type is incompatible with their key crypto type: " +:+ mine +:+ " " +:+ theirs)).

Definition crypto_box (nonce : bytes) (my_key : Key) (their_vk : string) (doc : bytes) : outcome (bytes * bytes) :=
  let crypto_type_name := verkey_get_cryptoname (verkey my_key) in
  let (their_vk, their_crypto_type_name) := split_verkey their_vk in
  let? _ := known_crypto crypto_type_name "Trying to crypto_box message with unknown crypto: " in
  let? _ := same_crypto crypto_type_name their_crypto_type_name in
  let? bs := base58 (signkey my_key) in
  let? my_sk := secret_key_from_slice bs in
  let? bs := base58 their_vk in
  let? their_vk := public_key_from_slice bs in
  Ok (ed_crypto_box my_sk their_vk doc nonce, nonce).

Definition create_combo_box (nonce : bytes) (my_key : Key) (their_vk : string) (doc : bytes) : outcome ComboBox :=
  let? (msg, nonce) := crypto_box nonce my_key their_vk doc in
  Ok (mkComboBox (base64_encode msg) (verkey my_key) (base64_encode nonce)).

Definition crypto_box_open (my_key : Key) (their_vk : string) (doc nonce : bytes) : outcome bytes :=
  let crypto_type_name := verkey_get_cryptoname (verkey my_key) in
  let (their_vk, their_crypto_type_name) := split_verkey their_vk in
  let? _ := known_crypto crypto_type_name "Trying to crypto_box_open message with unknown crypto: " in
  let? _ := same_crypto crypto_type_name their_crypto_type_name in
  let? bs := base58 (signkey my_key) in
  let? my_sk := secret_key_from_slice bs in
  let? bs := base58 their_vk in
  let? their_vk := public_key_from_slice bs in
  let? nonce := box_nonce_from_slice nonce in
  ed_crypto_box_open my_sk their_vk doc nonce.

Definition crypto_box_seal (ephemeral : bytes) (their_vk : string) (doc : bytes) : outcome bytes :=
  let (their_vk, crypto_type_name) := split_verkey their_vk in
  let? _ := known_crypto crypto_type_name "Trying to encrypt sealed message with unknown crypto: " in
  let? bs := base58 their_vk in
  let? their_vk := public_key_from_slice bs in
  Ok (ed_crypto_box_seal ephemeral their_vk doc).

Definition crypto_box_seal_open (my_key : Key) (doc : bytes) : outcome bytes :=
  let (my_vk, crypto_type_name) := split_verkey (verkey my_key) in
  let? _ := known_crypto crypto_type_name "Trying to crypto_box_open sealed message with unknown crypto: " in
  let? bs := base58 my_vk in
  let? my_vk := public_key_from_slice bs in
  let? bs := base58 (signkey my_key) in
  let? my_sk := secret_key_from_slice bs in
  ed_crypto_box_seal_open my_vk my_sk doc.

(** The ciphertext, the nonce and the tag, encoded. *)
Definition encrypt_plaintext (nonce : bytes) (plaintext : bytes) (aad : string) (cek : bytes) : string * string * string :=
  let (ciphertext, tag) := seal_detached plaintext (as_bytes aad) nonce cek in
  (encode_urlsafe ciphertext, encode_urlsafe nonce, encode_urlsafe tag).

Definition decrypt_ciphertext (ciphertext aad iv tag : string) (cek : bytes) : outcome string :=
  let? ciphertext_as_bytes := with_error (err_msg InvalidStructure "Failed to decode ciphertext ") (decode_urlsafe ciphertext) in
  let? nonce_as_slice := with_error (err_msg InvalidStructure "Failed to decode IV ") (decode_urlsafe iv) in
  let? nonce := with_error (err_msg InvalidStructure "Failed to convert IV to Nonce type ") (msg_nonce_from_slice nonce_as_slice) in
  let? tag_as_slice := with_error (err_msg InvalidStructure "Failed to decode tag ") (decode_urlsafe tag) in
  let? tag := with_error (err_msg InvalidStructure "Failed to convert tag to Tag type ") (msg_tag_from_slice tag_as_slice) in
  let? plaintext_bytes :=
    with_error (err_msg UnknownCrypto "Failed to decrypt ciphertext ")
      (decrypt_detached ciphertext_as_bytes cek nonce tag (as_bytes aad)) in
  ok_or (from_utf8 plaintext_bytes) (err_msg InvalidStructure "Failed to convert message to UTF-8 ").
End Service.

(** ** What the libraries promise *)
Class Ed25519Laws (Ed : Ed25519) := {
  public_key_length seed : length seed = SEEDBYTES -> length (keypair_from_seed seed).1 = SIG_PUBLICKEYBYTES;
  secret_key_length seed : length seed = SEEDBYTES -> length (keypair_from_seed seed).2 = SIG_SECRETKEYBYTES;
  signature_length doc sk : length (sign_detached doc sk) = SIGNATUREBYTES;
  verify_signed seed doc :
    length seed = SEEDBYTES -> verify_detached (sign_detached doc (keypair_from_seed seed).2) doc (keypair_from_seed seed).1 = true;
  convertible seed : length seed = SEEDBYTES -> is_Some (ed25519_pk_to_curve25519 (keypair_from_seed seed).1);
  box_open_sealed mine theirs pk_mine pk_theirs doc nonce :
    length mine = SEEDBYTES -> length theirs = SEEDBYTES ->
    ed25519_pk_to_curve25519 (keypair_from_seed mine).1 = Some pk_mine ->
    ed25519_pk_to_curve25519 (keypair_from_seed theirs).1 = Some pk_theirs ->
    box_open (box_seal doc nonce pk_theirs (ed25519_sk_to_curve25519 (keypair_from_seed mine).2)) nonce
      pk_mine (ed25519_sk_to_curve25519 (keypair_from_seed theirs).2) = Some doc;
  sealedbox_open_sealed seed pk doc ephemeral :
    length seed = SEEDBYTES ->
    ed25519_pk_to_curve25519 (keypair_from_seed seed).1 = Some pk ->
    sealedbox_open (sealedbox_seal ephemeral doc pk) pk (ed25519_sk_to_curve25519 (keypair_from_seed seed).2) = Some doc;
  open_seal_detached data ad nonce key :
    open_detached (seal_detached data ad nonce key).1 ad (seal_detached data ad nonce key).2 nonce key = Some data;
  tag_length data ad nonce key : length (seal_detached data ad nonce key).2 = MSG_TAGBYTES
}.

(** base58 has neither a colon nor a tilde in its alphabet. *)
Class TextLaws (C : Codec) (U : UrlsafeCodec) := {
  from_to_base58 bs : from_base58 (to_base58 bs) = Some bs;
  base58_no_colon bs : split_colon (to_base58 bs) = None;
  base58_no_tilde bs : after_tilde (to_base58 bs) = None;
  base58_text bs : rust_string (to_base58 bs);
  urlsafe_back bs : urlsafe_decode (encode_urlsafe bs) = Some bs;
  base64_back bs : base64_decode (base64_encode bs) = Some bs
}.

Section Facts.
Context {C : Codec} {Ed : Ed25519} {EL : Ed25519Laws Ed} {U : UrlsafeCodec} {TL : TextLaws C U} {Sc : SeedCodec}.

(** The key that a seed gives. *)
Definition key_of (seed : bytes) : Key :=
  mkKey (to_base58 (keypair_from_seed seed).1) (to_base58 (keypair_from_seed seed).2).

Lemma split_colon_none s : split_colon s = None -> Identifiers.split s = [s].
Proof using Type.
  induction s as [|a s IH]; [done|]. cbn. destruct (is_delimiter a); [done|].
  destruct (split_colon s) as [[v c]|]; [done|]. intros _. by rewrite IH.
Qed.
Lemma split_plain bs : split_verkey (to_base58 bs) = (to_base58 bs, DEFAULT_CRYPTO_TYPE).
Proof using TL. unfold split_verkey. by rewrite base58_no_colon. Qed.
Lemma cryptoname_plain bs : verkey_get_cryptoname (to_base58 bs) = DEFAULT_CRYPTO_TYPE.
Proof using TL. unfold verkey_get_cryptoname. by rewrite base58_no_colon. Qed.
Lemma base58_back bs : base58 (to_base58 bs) = Ok bs.
Proof using TL. unfold base58, ok_or. by rewrite from_to_base58. Qed.
Lemma from_slice_ok name len bs : length bs = len -> from_slice name len bs = Ok bs.
Proof using Type. unfold from_slice. intros ->. by rewrite Nat.eqb_refl. Qed.
Lemma decode_encode_urlsafe bs : decode_urlsafe (encode_urlsafe bs) = Ok bs.
Proof using TL. unfold decode_urlsafe, ok_or. by rewrite urlsafe_back. Qed.

(** Reading the keys of [key_of]. *)
Ltac read_keys :=
  cbn [verkey signkey key_of];
  repeat (rewrite split_plain || rewrite cryptoname_plain || rewrite base58_back || rewrite base58_no_tilde); cbn [obind];
  unfold known_crypto, same_crypto, public_key_from_slice, secret_key_from_slice, signature_from_slice, box_nonce_from_slice;
  rewrite ?String.eqb_refl; cbn [obind];
  repeat (rewrite from_slice_ok by (by first [apply public_key_length|apply secret_key_length|apply signature_length]); cbn [obind]).

Lemma validate_key_of seed : length seed = SEEDBYTES -> validate_key (verkey (key_of seed)) = Ok ().
Proof using EL TL. intros Hs. unfold validate_key. by read_keys. Qed.

(** A key is created from its seed. *)
Lemma create_key_is random_seed info seed :
  length random_seed = SEEDBYTES -> ki_crypto_type info = None -> convert_seed (ki_seed info) = Ok seed ->
  create_key random_seed info = Ok (key_of (default random_seed seed)).
Proof using Type.
  intros Hr Hc Hs. unfold create_key. rewrite Hc. cbn [default from_option known_crypto]. unfold known_crypto.
  rewrite String.eqb_refl. cbn [obind]. rewrite Hs. cbn [obind]. unfold create_key_pair_for_signature.
  rewrite from_slice_ok by done. cbn [obind]. unfold key_of.
  destruct (keypair_from_seed (default random_seed seed)) as [vk sk]. unfold typed_verkey. by rewrite String.eqb_refl.
Qed.

(** A signature verifies with the verification key. *)
Lemma signature_verifies seed doc :
  length seed = SEEDBYTES ->
  exists signature, sign (key_of seed) doc = Ok signature /\ verify (verkey (key_of seed)) doc signature = Ok true.
Proof using EL TL.
  intros Hs. eexists. split; [unfold sign; by read_keys|]. unfold verify. read_keys. by rewrite verify_signed.
Qed.

(** A box opens with the key of the other side. *)
Lemma box_opens mine theirs doc nonce :
  length mine = SEEDBYTES -> length theirs = SEEDBYTES -> length nonce = BOX_NONCEBYTES ->
  exists c, crypto_box nonce (key_of mine) (verkey (key_of theirs)) doc = Ok (c, nonce) /\
    crypto_box_open (key_of theirs) (verkey (key_of mine)) c nonce = Ok doc.
Proof using EL TL.
  intros Hm Ht Hn. eexists. split; [unfold crypto_box; by read_keys|]. unfold crypto_box_open. read_keys.
  rewrite from_slice_ok by done. cbn [obind]. unfold ed_crypto_box_open, ed_crypto_box, vk_to_curve25519, sk_to_curve25519.
  destruct (convertible mine Hm) as [pm Em], (convertible theirs Ht) as [pt Et]. rewrite Em, Et. cbn [default from_option].
  by rewrite (box_open_sealed mine theirs pm pt).
Qed.

(** A sealed box opens with the key it was sealed for. *)
Lemma sealed_box_opens seed ephemeral doc :
  length seed = SEEDBYTES ->
  exists c, crypto_box_seal ephemeral (verkey (key_of seed)) doc = Ok c /\ crypto_box_seal_open (key_of seed) c = Ok doc.
Proof using EL TL.
  intros Hs. eexists. split; [unfold crypto_box_seal; by read_keys|]. unfold crypto_box_seal_open. read_keys.
  unfold ed_crypto_box_seal_open, ed_crypto_box_seal, vk_to_curve25519, sk_to_curve25519.
  destruct (convertible seed Hs) as [p Ep]. rewrite Ep. cbn [default from_option]. by rewrite sealedbox_open_sealed.
Qed.

(** What was encrypted under a content key decrypts, if it is text. *)
Lemma ciphertext_decrypts nonce message aad cek :
  length nonce = MSG_NONCEBYTES ->
  let '(ciphertext, iv, tag) := encrypt_plaintext nonce message aad cek in
  decrypt_ciphertext ciphertext aad iv tag cek =
  ok_or (from_utf8 message) (err_msg InvalidStructure "Failed to convert message to UTF-8 ").
Proof using EL TL.
  intros Hn. unfold encrypt_plaintext.
  pose proof (open_seal_detached message (as_bytes aad) nonce cek) as Ho.
  pose proof (tag_length message (as_bytes aad) nonce cek) as Ht.
  destruct (seal_detached _ _ _ _) as [c t]. cbn in Ho, Ht. unfold decrypt_ciphertext.
  rewrite !decode_encode_urlsafe. cbn [with_error obind]. unfold msg_nonce_from_slice, msg_tag_from_slice.
  rewrite !from_slice_ok by done. cbn [with_error obind]. unfold decrypt_detached. by rewrite Ho.
Qed.

(** A DID that is the first half of its verification key and the second half give the key. *)
Lemma full_verkey_of_parts first second :
  build_full_verkey (to_base58 first) (Some ("~" +:+ to_base58 second)) = Ok (to_base58 (first ++ second)).
Proof using TL.
  unfold build_full_verkey. rewrite split_colon_none.
  - change (after_tilde ("~" +:+ to_base58 second)) with (Some (to_base58 second)). cbn beta iota.
    rewrite !base58_back. done.
  - change (match split_colon (to_base58 second) with Some (v, c) => Some (String (Ascii.ascii_of_nat 126) v, c) | None => None end = None).
    by rewrite base58_no_colon.
Qed.
End Facts.
