(* ===== verification/CryptoCommands.v ===== *)
(** * Crypto commands

    [CryptoCommandExecutor] of [libindy/src/commands/crypto.rs] and the messages of
    [domain/crypto/pack.rs]: keys in the wallet, signatures, the old authenticated and anonymous
    encryption, and packed messages, where a content key encrypts the message and is itself
    encrypted for every receiver.

    The executor works on an [ObjectStore]; serde's codecs of the structs are parameters.

    Shown: whoever has the key of a receiver unpacks a packed message and learns the sender
    ([packed_message_opens]), for every position of the receiver in the list; without such a key
    the message is refused ([unpack_needs_a_key]); the old encryptions open ([auth_crypt_opens],
    [anon_crypt_opens]) and signatures verify ([signed_in_wallet_verifies]).  A receiver entry
    that names a sender but no nonce makes the executor panic ([unpack_without_iv_panics]), and
    a message that is not text can be packed but not unpacked ([packed_bytes_do_not_open]). *)

From stdpp Require Import base list strings numbers gmap.
From Stdlib Require Import ZArith Lia.
From S2P Require Import Prelude Errors Json Identifiers WalletCrypto WalletStorage Wallet ExportImport WalletService WalletCommands ObjectStore Trie External CryptoService.

Open Scope string_scope.

(** ** Messages *)
Definition PROTECTED_HEADER_ENC : string := "xchacha20poly1305_ietf".
Definition PROTECTED_HEADER_TYP : string := "JWM/1.0".
Definition PROTECTED_HEADER_ALG_AUTH : string := "Authcrypt".
Definition PROTECTED_HEADER_ALG_ANON : string := "Anoncrypt".

Record JWE := mkJWE { jwe_protected : string; jwe_iv : string; jwe_ciphertext : string; jwe_tag : string }.
Record Header := mkHeader { hd_kid : string; hd_iv : option string; hd_sender : option string }.
Record Recipient := mkRecipient { rc_encrypted_key : string; rc_header : Header }.
Record Protected := mkProtected {
  pr_enc : string; pr_typ : string; pr_alg : string; pr_recipients : list Recipient
}.
Record UnpackMessage := mkUnpackMessage {
  um_message : string; um_recipient_verkey : string; um_sender_verkey : option string
}.

(** serde's readers and writers. *)
Class PackCodec := {
  key_to_json : Key -> option string;
  key_from_json : string -> option Key;
  key_metadata_to_json : KeyMetadata -> option string;
  key_metadata_from_json : string -> option KeyMetadata;
  protected_to_string : Protected -> option string;
  protected_from_str : string -> option Protected;
  jwe_to_vec : JWE -> option bytes;
  jwe_from_slice : bytes -> option JWE;
  unpack_to_vec : UnpackMessage -> option bytes;
  combo_to_msg_pack : ComboBox -> option bytes;
  combo_from_msg_pack : bytes -> option ComboBox
}.
#[export] Instance Key_serde {P : PackCodec} : Serde Key :=
  {| type_name := "indy::domain::crypto::key::Key"; to_json := key_to_json; from_json := key_from_json |}.
#[export] Instance KeyMetadata_serde {P : PackCodec} : Serde KeyMetadata :=
  {| type_name := "indy::domain::crypto::key::KeyMetadata";
     to_json := key_metadata_to_json; from_json := key_metadata_from_json |}.

(** What packing draws: the content key, the nonces and ephemeral keys of the receivers, the
    nonce of the message. *)
Record PackRandom := mkPackRandom {
  rnd_cek : bytes; rnd_nonce : nat -> bytes; rnd_ephemeral : nat -> bytes; rnd_iv : bytes
}.

Section Executor.
Context {O : ObjectStore} {C : Codec} {Ed : Ed25519} {U : UrlsafeCodec} {Sc : SeedCodec} {P : PackCodec}.

(** ** Keys *)
Definition create_key_command (rnd : Randomness) (random_seed : bytes) (wallet_handle : Z) (key_info : KeyInfo) :
    SM store string :=
  let* key := sm_lift (create_key random_seed key_info) in
  let* _ := obj_add Key rnd wallet_handle (verkey key) key in
  sm_ret (verkey key).

Definition set_key_metadata (rnd : Randomness) (wallet_handle : Z) (verkey metadata : string) : SM store unit :=
  let* _ := sm_lift (validate_key verkey) in
  let* _ := obj_upsert KeyMetadata rnd wallet_handle verkey (mkKeyMetadata metadata) in
  sm_ret ().
Definition get_key_metadata (wallet_handle : Z) (verkey : string) : SM store string :=
  let* _ := sm_lift (validate_key verkey) in
  let* metadata := obj_get KeyMetadata wallet_handle verkey in
  sm_ret (km_value metadata).

(** ** Signatures *)
Definition crypto_sign (wallet_handle : Z) (my_vk : string) (msg : bytes) : SM store bytes :=
  let* _ := sm_lift (validate_key my_vk) in
  let* key := obj_get Key wallet_handle my_vk in
  sm_lift (sign key msg).
Definition crypto_verify (their_vk : string) (msg signature : bytes) : outcome bool :=
  let? _ := validate_key their_vk in
  verify their_vk msg signature.

(** ** Encryption without packing *)
Definition authenticated_encrypt (nonce ephemeral : bytes) (wallet_handle : Z) (my_vk their_vk : string) (msg : bytes) :
    SM store bytes :=
  let* _ := sm_lift (validate_key my_vk) in
  let* _ := sm_lift (validate_key their_vk) in
  let* my_key := obj_get Key wallet_handle my_vk in
  let* msg := sm_lift (create_combo_box nonce my_key their_vk msg) in
  let* msg := sm_lift (ok_or (combo_to_msg_pack msg) (err_msg InvalidState "Can't serialize ComboBox: ")) in
  sm_lift (crypto_box_seal ephemeral their_vk msg).

Definition combo_field (field message : string) : outcome bytes :=
  ok_or (base64_decode field) (err_msg InvalidStructure message).
Definition authenticated_decrypt (wallet_handle : Z) (my_vk : string) (msg : bytes) : SM store (string * bytes) :=
  let* _ := sm_lift (validate_key my_vk) in
  let* my_key := obj_get Key wallet_handle my_vk in
  let* decrypted_msg := sm_lift (crypto_box_seal_open my_key msg) in
  let* parsed_msg := sm_lift (ok_or (combo_from_msg_pack decrypted_msg)
                                (err_msg InvalidStructure "Can't deserialize ComboBox: ")) in
  let* doc := sm_lift (combo_field (cb_msg parsed_msg) "Can't decode internal msg filed from base64 ") in
  let* nonce := sm_lift (combo_field (cb_nonce parsed_msg) "Can't decode nonce from base64 ") in
  let* decrypted_msg := sm_lift (crypto_box_open my_key (cb_sender parsed_msg) doc nonce) in
  sm_ret (cb_sender parsed_msg, decrypted_msg).

Definition anonymous_encrypt (ephemeral : bytes) (their_vk : string) (msg : bytes) : outcome bytes :=
  let? _ := validate_key their_vk in
  crypto_box_seal ephemeral their_vk msg.
Definition anonymous_decrypt (wallet_handle : Z) (my_vk : string) (encrypted_msg : bytes) : SM store bytes :=
  let* _ := sm_lift (validate_key my_vk) in
  let* my_key := obj_get Key wallet_handle my_vk in
  sm_lift (crypto_box_seal_open my_key encrypted_msg).

(** ** Packing *)
Definition _base64_encode_protected (recipients : list Recipient) (alg_is_authcrypt : bool) : outcome string :=
  let alg_val := if alg_is_authcrypt then PROTECTED_HEADER_ALG_AUTH else PROTECTED_HEADER_ALG_ANON in
  let? protected_encoded :=
    ok_or (protected_to_string (mkProtected PROTECTED_HEADER_ENC PROTECTED_HEADER_TYP alg_val recipients))
      (err_msg InvalidStructure "Failed to serialize protected field ") in
  Ok (encode_urlsafe (as_bytes protected_encoded)).

Definition anon_recipient (rnd : PackRandom) (i : nat) (their_vk : string) : outcome Recipient :=
  let? enc_cek := crypto_box_seal (rnd_ephemeral rnd i) their_vk (rnd_cek rnd) in
  Ok (mkRecipient (encode_urlsafe enc_cek) (mkHeader their_vk None None)).
Definition auth_recipient (rnd : PackRandom) (my_key : Key) (sender_vk : string) (i : nat) (their_vk : string) :
    outcome Recipient :=
  let? (enc_cek, iv) := crypto_box (rnd_nonce rnd i) my_key their_vk (rnd_cek rnd) in
  let? enc_sender := crypto_box_seal (rnd_ephemeral rnd i) their_vk (as_bytes sender_vk) in
  Ok (mkRecipient (encode_urlsafe enc_cek)
        (mkHeader their_vk (Some (encode_urlsafe iv)) (Some (encode_urlsafe enc_sender)))).

(** The loop over the receivers; [i] is the number of the next one. *)
Fixpoint recipients_of (f : nat -> string -> outcome Recipient) (i : nat) (receiver_list : list string) :
    outcome (list Recipient) :=
  match receiver_list with
  | [] => Ok []
  | their_vk :: rest =>
      let? recipient := f i their_vk in
      let? recipients := recipients_of f (S i) rest in
      Ok (recipient :: recipients)
  end.

Definition _prepare_protected_anoncrypt (rnd : PackRandom) (receiver_list : list string) : outcome string :=
  let? encrypted_recipients := recipients_of (anon_recipient rnd) 0 receiver_list in
  _base64_encode_protected encrypted_recipients false.
Definition _prepare_protected_authcrypt (rnd : PackRandom) (receiver_list : list string) (sender_vk : string)
    (wallet_handle : Z) : SM store string :=
  let* my_key := obj_get Key wallet_handle sender_vk in
  let* encrypted_recipients := sm_lift (recipients_of (auth_recipient rnd my_key sender_vk) 0 receiver_list) in
  sm_lift (_base64_encode_protected encrypted_recipients true).

Definition _format_pack_message (base64_protected ciphertext iv tag : string) : outcome bytes :=
  ok_or (jwe_to_vec (mkJWE base64_protected iv ciphertext tag)) (err_msg InvalidStructure "Failed to serialize JWE ").

Definition pack_msg (rnd : PackRandom) (message : bytes) (receiver_list : list string) (sender_vk : option string)
    (wallet_handle : Z) : SM store bytes :=
  match receiver_list with
  | [] => sm_fail (err_msg InvalidStructure "No receiver keys found")
  | _ =>
      let* base64_protected :=
        match sender_vk with
        | Some sender_vk =>
            let* _ := sm_lift (validate_key sender_vk) in
            _prepare_protected_authcrypt rnd receiver_list sender_vk wallet_handle
        | None => sm_lift (_prepare_protected_anoncrypt rnd receiver_list)
        end in
      let '(ciphertext, iv, tag) := encrypt_plaintext (rnd_iv rnd) message base64_protected (rnd_cek rnd) in
      sm_lift (_format_pack_message base64_protected ciphertext iv tag)
  end.

(** ** Unpacking *)
Fixpoint _find_correct_recipient (recipients : list Recipient) (wallet_handle : Z) : SM store (Recipient * bool) :=
  match recipients with
  | [] => sm_fail (err_msg WalletItemNotFound "Wallet item not found")
  | recipient :: rest =>
      fun s => match obj_get Key wallet_handle (hd_kid (rc_header recipient)) s with
               | (s', Ok _) => (s', Ok (recipient, bool_decide (is_Some (hd_sender (rc_header recipient)))))
               | (s', Err _) => _find_correct_recipient rest wallet_handle s'
               | (s', Panic) => (s', Panic)
               end
  end.

(** [Option::unwrap]. *)
Definition unwrap_opt {A : Type} (o : option A) : outcome A := match o with Some a => Ok a | None => Panic end.
Definition cek_of (cek_as_vec : bytes) : outcome bytes :=
  with_error (err_msg InvalidStructure "Failed to decrypt cek ") (cek_from_slice cek_as_vec).

Definition _unpack_cek_authcrypt (recipient : Recipient) (wallet_handle : Z) : SM store (option string * bytes) :=
  let* encrypted_key_vec := sm_lift (decode_urlsafe (rc_encrypted_key recipient)) in
  let* iv := sm_lift (unwrap_opt (hd_iv (rc_header recipient))) in
  let* iv := sm_lift (decode_urlsafe iv) in
  let* sender := sm_lift (unwrap_opt (hd_sender (rc_header recipient))) in
  let* enc_sender_vk := sm_lift (decode_urlsafe sender) in
  let* my_key := obj_get Key wallet_handle (hd_kid (rc_header recipient)) in
  let* sender_vk_vec := sm_lift (crypto_box_seal_open my_key enc_sender_vk) in
  let* sender_vk := sm_lift (ok_or (from_utf8 sender_vk_vec) (err_msg InvalidStructure "Failed to utf-8 encode sender_vk ")) in
  let* cek_as_vec := sm_lift (crypto_box_open my_key sender_vk encrypted_key_vec iv) in
  let* cek := sm_lift (cek_of cek_as_vec) in
  sm_ret (Some sender_vk, cek).

Definition _unpack_cek_anoncrypt (recipient : Recipient) (wallet_handle : Z) : SM store (option string * bytes) :=
  let* encrypted_key_vec := sm_lift (decode_urlsafe (rc_encrypted_key recipient)) in
  let* my_key := obj_get Key wallet_handle (hd_kid (rc_header recipient)) in
  let* cek_as_vec := sm_lift (crypto_box_seal_open my_key encrypted_key_vec) in
  let* cek := sm_lift (cek_of cek_as_vec) in
  sm_ret (None, cek).

Definition read_protected (protected : string) : outcome Protected :=
  let? protected_decoded_vec := decode_urlsafe protected in
  let? protected_decoded_str :=
    ok_or (from_utf8 protected_decoded_vec) (err_msg InvalidStructure "Failed to utf8 encode data ") in
  ok_or (protected_from_str protected_decoded_str) (err_msg InvalidStructure "Failed to deserialize protected data ").

Definition unpack_msg (jwe : JWE) (wallet_handle : Z) : SM store bytes :=
  let* protected_struct := sm_lift (read_protected (jwe_protected jwe)) in
  let* (recipient, is_auth_recipient) := _find_correct_recipient (pr_recipients protected_struct) wallet_handle in
  let* (sender_verkey_option, cek) :=
    if is_auth_recipient then _unpack_cek_authcrypt recipient wallet_handle
    else _unpack_cek_anoncrypt recipient wallet_handle in
  let* message := sm_lift (decrypt_ciphertext (jwe_ciphertext jwe) (jwe_protected jwe) (jwe_iv jwe) (jwe_tag jwe) cek) in
  sm_lift (ok_or (unpack_to_vec (mkUnpackMessage message (hd_kid (rc_header recipient)) sender_verkey_option))
             (err_msg InvalidStructure "Failed to serialize message ")).
End Executor.

(** ** What serde promises: values are read back *)
Class PackLaws (P : PackCodec) := {
  key_back k : exists j, key_to_json k = Some j /\ rust_string j /\ key_from_json j = Some k;
  protected_back p : exists j, protected_to_string p = Some j /\ rust_string j /\ protected_from_str j = Some p;
  jwe_back j : exists b, jwe_to_vec j = Some b /\ jwe_from_slice b = Some j;
  unpack_written m : is_Some (unpack_to_vec m);
  combo_back c : exists b, combo_to_msg_pack c = Some b /\ combo_from_msg_pack b = Some c
}.

Section Facts.
Context {O : ObjectStore} {OL : ObjectLaws O} {C : Codec} {Ed : Ed25519} {EL : Ed25519Laws Ed}.
Context {U : UrlsafeCodec} {TL : TextLaws C U} {Sc : SeedCodec} {P : PackCodec} {PL : PackLaws P}.

Definition vk_of (seed : bytes) : string := verkey (key_of seed).
Definition is_seed (seed : bytes) : Prop := length seed = SEEDBYTES.
(** The wallet has the key of a seed. *)
Definition has_key (w : PlainWallet) (seed : bytes) : Prop :=
  is_seed seed /\ exists rec, w !! (object_type Key, vk_of seed) = Some rec /\ key_from_json (pr_value rec) = Some (key_of seed).
Definition no_key (w : PlainWallet) (vk : string) : Prop := w !! (object_type Key, vk) = None.

Lemma key_type : rust_string (object_type Key).
Proof using Type. reflexivity. Qed.
Lemma vk_text seed : rust_string (vk_of seed).
Proof using TL. apply base58_text. Qed.

Lemma get_key s h w seed :
  holds s h w -> has_key w seed -> exists s', obj_get Key h (vk_of seed) s = (s', Ok (key_of seed)) /\ holds s' h w.
Proof using TL.
  intros Hs (Hl & rec & Hr & Hj). pose proof (law_obj_get Key s h w (vk_of seed) Hs key_type (vk_text seed)) as H.
  unfold ends in H. destruct (obj_get Key h (vk_of seed) s) as [s' r]. cbn [fst snd] in H. destruct H as [H Hres].
  rewrite Hr in Hres. subst r. exists s'. split; [|done]. unfold read_object, ok_or. cbn [from_json Key_serde]. by rewrite Hj.
Qed.
Lemma get_no_key s h w vk :
  holds s h w -> rust_string vk -> no_key w vk ->
  exists s' e, obj_get Key h vk s = (s', Err e) /\ holds s' h w.
Proof using OL.
  intros Hs Ht Hn. pose proof (law_obj_get Key s h w vk Hs key_type Ht) as H. unfold ends, no_key in *. rewrite Hn in H.
  destruct (obj_get Key h vk s) as [s' r]. cbn [fst snd] in H. destruct H as [H [e]]. by exists s', e.
Qed.

(** A created key is in the wallet. *)
Lemma create_key_command_stores rnd random_seed s h w info seed :
  holds s h w -> randomness_ok rnd -> is_seed random_seed -> ki_crypto_type info = None ->
  convert_seed (ki_seed info) = Ok seed -> is_seed (default random_seed seed) ->
  no_key w (vk_of (default random_seed seed)) ->
  exists s' w', create_key_command rnd random_seed h info s = (s', Ok (vk_of (default random_seed seed))) /\
    holds s' h w' /\ has_key w' (default random_seed seed).
Proof using TL PL.
  intros Hs Hr Hrs Hc Hseed Hl Hn. unfold create_key_command.
  rewrite (lift_ok _ _ _ _ (create_key_is random_seed info seed Hrs Hc Hseed)). fold (vk_of (default random_seed seed)).
  destruct (key_back (key_of (default random_seed seed))) as (j & Hj & Hjt & Hjb).
  pose proof (law_obj_add Key s h w rnd (vk_of (default random_seed seed)) (key_of (default random_seed seed)) j Hs key_type
    (vk_text _) Hr Hj Hjt) as H.
  unfold ends, no_key in *. rewrite Hn in H. unfold sm_bind, vk_of in *. destruct (obj_add Key _ _ _ _ _) as [s' r].
  cbn [fst snd] in H. destruct H as [-> H]. eexists s', _. split; [done|]. split; [exact H|]. split; [done|].
  eexists. split; [by apply lookup_insert_eq|done].
Qed.

(** ** Signatures and boxes *)
Lemma validate_vk seed : is_seed seed -> validate_key (vk_of seed) = Ok ().
Proof using EL TL. apply validate_key_of. Qed.

(** What is signed with a key of the wallet verifies. *)
Theorem signed_in_wallet_verifies s h w seed msg :
  holds s h w -> has_key w seed ->
  exists s' signature, crypto_sign h (vk_of seed) msg s = (s', Ok signature) /\ holds s' h w /\
    crypto_verify (vk_of seed) msg signature = Ok true.
Proof using EL TL.
  intros Hs Hk. pose proof (proj1 Hk) as Hl. destruct (get_key s h w seed Hs Hk) as (s' & Eg & Hs').
  destruct (signature_verifies seed msg Hl) as (sig & E1 & E2). exists s', sig. unfold crypto_sign, crypto_verify.
  rewrite (lift_ok _ _ _ _ (validate_vk seed Hl)), (sm_bind_ok _ _ _ _ _ Eg), (validate_vk seed Hl).
  unfold sm_lift. rewrite E1. done.
Qed.

(** A message for a key of the wallet opens. *)
Theorem anon_crypt_opens s h w seed ephemeral msg :
  holds s h w -> has_key w seed ->
  exists c s', anonymous_encrypt ephemeral (vk_of seed) msg = Ok c /\ anonymous_decrypt h (vk_of seed) c s = (s', Ok msg).
Proof using EL TL.
  intros Hs Hk. pose proof (proj1 Hk) as Hl. destruct (get_key s h w seed Hs Hk) as (s' & Eg & Hs').
  destruct (sealed_box_opens seed ephemeral msg Hl) as (c & E1 & E2). exists c, s'. unfold anonymous_encrypt, anonymous_decrypt.
  rewrite (lift_ok _ _ _ _ (validate_vk seed Hl)), (validate_vk seed Hl), (sm_bind_ok _ _ _ _ _ Eg).
  unfold sm_lift. by rewrite E2.
Qed.

(** The receiver of an authenticated message learns its sender. *)
Theorem auth_crypt_opens s1 h1 w1 mine s2 h2 w2 theirs nonce ephemeral msg :
  holds s1 h1 w1 -> has_key w1 mine -> holds s2 h2 w2 -> has_key w2 theirs -> length nonce = BOX_NONCEBYTES ->
  exists c s1' s2', authenticated_encrypt nonce ephemeral h1 (vk_of mine) (vk_of theirs) msg s1 = (s1', Ok c) /\
    authenticated_decrypt h2 (vk_of theirs) c s2 = (s2', Ok (vk_of mine, msg)).
Proof using EL TL PL.
  intros H1 K1 H2 K2 Hn. pose proof (proj1 K1) as L1. pose proof (proj1 K2) as L2.
  destruct (get_key s1 h1 w1 mine H1 K1) as (s1' & G1 & _). destruct (get_key s2 h2 w2 theirs H2 K2) as (s2' & G2 & _).
  destruct (box_opens mine theirs msg nonce L1 L2 Hn) as (b & B1 & B2).
  destruct (combo_back (mkComboBox (base64_encode b) (vk_of mine) (base64_encode nonce))) as (p & P1 & P2).
  destruct (sealed_box_opens theirs ephemeral p L2) as (c & E1 & E2). exists c, s1', s2'.
  fold (vk_of mine) (vk_of theirs) in *. split.
  - unfold authenticated_encrypt. rewrite (lift_ok _ _ _ _ (validate_vk _ L1)), (lift_ok _ _ _ _ (validate_vk _ L2)).
    rewrite (sm_bind_ok _ _ _ _ _ G1). unfold create_combo_box. rewrite B1. cbn [obind]. fold (vk_of mine).
    unfold sm_bind, sm_lift, ok_or. rewrite P1. by rewrite E1.
  - unfold authenticated_decrypt. rewrite (lift_ok _ _ _ _ (validate_vk _ L2)), (sm_bind_ok _ _ _ _ _ G2), (lift_ok _ _ _ _ E2).
    unfold combo_field, sm_bind, sm_lift, ok_or. rewrite P2. cbn [cb_msg cb_nonce cb_sender]. rewrite !base64_back. by rewrite B2.
Qed.

(** ** Packed messages *)

(** What is drawn has the right lengths. *)
Definition pack_random_ok (rnd : PackRandom) : Prop :=
  length (rnd_cek rnd) = CEK_BYTES /\ length (rnd_iv rnd) = MSG_NONCEBYTES /\ forall i, length (rnd_nonce rnd i) = BOX_NONCEBYTES.

(** An entry of the list of receivers from which the owner of the key gets the content key
    and the sender. *)
Definition good_entry (cek : bytes) (sender : option string) (seed : bytes) (r : Recipient) : Prop :=
  hd_kid (rc_header r) = vk_of seed /\ (is_Some (hd_sender (rc_header r)) <-> is_Some sender) /\
  forall s h w, holds s h w -> has_key w seed -> exists s',
    (if bool_decide (is_Some (hd_sender (rc_header r))) then _unpack_cek_authcrypt r h else _unpack_cek_anoncrypt r h) s =
      (s', Ok (sender, cek)) /\ holds s' h w.

Lemma anon_entry rnd i seed :
  pack_random_ok rnd -> is_seed seed ->
  exists r, anon_recipient rnd i (vk_of seed) = Ok r /\ good_entry (rnd_cek rnd) None seed r.
Proof using EL TL.
  intros (Hcek & _) Hl. destruct (sealed_box_opens seed (rnd_ephemeral rnd i) (rnd_cek rnd) Hl) as (c & E1 & E2).
  fold (vk_of seed) in E1. unfold anon_recipient. rewrite E1. eexists. split; [done|]. split; [done|]. split; [done|].
  intros s h w Hs Hk. destruct (get_key s h w seed Hs Hk) as (s' & G & Hs'). exists s'. split; [|done].
  cbn [rc_header hd_sender]. rewrite bool_decide_eq_false_2 by (by intros []). unfold _unpack_cek_anoncrypt.
  cbn [rc_header hd_kid rc_encrypted_key]. rewrite (lift_ok _ _ _ _ (decode_encode_urlsafe c)), (sm_bind_ok _ _ _ _ _ G).
  rewrite (lift_ok _ _ _ _ E2). unfold cek_of, cek_from_slice. by rewrite from_slice_ok.
Qed.

Lemma auth_entry rnd i mine seed :
  pack_random_ok rnd -> is_seed mine -> is_seed seed ->
  exists r, auth_recipient rnd (key_of mine) (vk_of mine) i (vk_of seed) = Ok r /\
    good_entry (rnd_cek rnd) (Some (vk_of mine)) seed r.
Proof using EL TL.
  intros (Hcek & _ & Hn) Hm Hl.
  destruct (box_opens mine seed (rnd_cek rnd) (rnd_nonce rnd i) Hm Hl (Hn i)) as (c & E1 & E2).
  destruct (sealed_box_opens seed (rnd_ephemeral rnd i) (as_bytes (vk_of mine)) Hl) as (d & E3 & E4).
  fold (vk_of seed) (vk_of mine) in *. unfold auth_recipient. rewrite E1. cbn [obind]. rewrite E3.
  eexists. split; [done|]. split; [done|]. split; [split; by eexists|].
  intros s h w Hs Hk. destruct (get_key s h w seed Hs Hk) as (s' & G & Hs'). exists s'. split; [|done].
  cbn [rc_header hd_sender]. rewrite bool_decide_eq_true_2 by (by eexists). unfold _unpack_cek_authcrypt.
  cbn [rc_header hd_kid hd_iv hd_sender rc_encrypted_key unwrap_opt].
  rewrite (lift_ok _ _ _ _ (decode_encode_urlsafe c)), (lift_ok (Ok _) _ _ _ eq_refl), (lift_ok _ _ _ _ (decode_encode_urlsafe _)).
  rewrite (lift_ok (Ok _) _ _ _ eq_refl), (lift_ok _ _ _ _ (decode_encode_urlsafe d)), (sm_bind_ok _ _ _ _ _ G).
  rewrite (lift_ok _ _ _ _ E4). rewrite (lift_ok _ _ _ (vk_of mine)) by (by rewrite from_utf8_as_bytes by apply vk_text).
  rewrite (lift_ok _ _ _ _ E2). unfold cek_of, cek_from_slice. by rewrite from_slice_ok.
Qed.

Lemma recipients_built (Q : bytes -> Recipient -> Prop) f seeds i :
  (forall i seed, is_seed seed -> exists r, f i (vk_of seed) = Ok r /\ Q seed r) -> Forall is_seed seeds ->
  exists rs, recipients_of f i (map vk_of seeds) = Ok rs /\ Forall2 Q seeds rs.
Proof using Type.
  intros Hf Hs. revert i. induction Hs as [|seed seeds Hl _ IH]; intros i; [by exists []|]. cbn [map recipients_of].
  destruct (Hf i seed Hl) as (r & -> & Hr). cbn [obind]. destruct (IH (S i)) as (rs & -> & H). cbn [obind]. eexists. split; [done|].
  by constructor.
Qed.

(** The first receiver whose key the wallet has is taken. *)
Lemma find_recipient s h w before r after seed :
  holds s h w -> Forall (fun x => rust_string (hd_kid (rc_header x)) /\ no_key w (hd_kid (rc_header x))) before ->
  has_key w seed -> hd_kid (rc_header r) = vk_of seed ->
  exists s', _find_correct_recipient (before ++ r :: after) h s =
    (s', Ok (r, bool_decide (is_Some (hd_sender (rc_header r))))) /\ holds s' h w.
Proof using TL.
  intros Hs Hb Hk Hkid. revert s Hs. induction Hb as [|x before [Ht Hx] _ IH]; intros s Hs.
  - destruct (get_key s h w seed Hs Hk) as (s' & G & Hs'). exists s'. split; [|done]. cbn. by rewrite Hkid, G.
  - destruct (get_no_key s h w _ Hs Ht Hx) as (s' & e & G & Hs'). cbn. rewrite G. by apply IH.
Qed.

(** The header of a packed message. *)
Lemma header_built rnd sender seeds s1 h1 w1 :
  pack_random_ok rnd -> Forall is_seed seeds ->
  match sender with Some mine => holds s1 h1 w1 /\ has_key w1 mine | None => True end ->
  exists s1' protected p,
    match vk_of <$> sender with
    | Some sender_vk =>
        let* _ := sm_lift (validate_key sender_vk) in
        _prepare_protected_authcrypt rnd (map vk_of seeds) sender_vk h1
    | None => sm_lift (_prepare_protected_anoncrypt rnd (map vk_of seeds))
    end s1 = (s1', Ok protected) /\
    read_protected protected = Ok p /\
    Forall2 (good_entry (rnd_cek rnd) (vk_of <$> sender)) seeds (pr_recipients p).
Proof using EL TL PL.
  intros Hrnd Hseeds Hsender.
  assert (Henc : forall rs alg, exists protected p, _base64_encode_protected rs alg = Ok protected /\
    read_protected protected = Ok p /\ pr_recipients p = rs).
  { intros rs alg. unfold _base64_encode_protected. set (p := mkProtected _ _ _ rs).
    destruct (protected_back p) as (j & -> & Hj & Hb). cbn. eexists _, p. split; [done|]. split; [|done].
    unfold read_protected. rewrite decode_encode_urlsafe. cbn. rewrite from_utf8_as_bytes by done. cbn. by rewrite Hb. }
  destruct sender as [mine|]; cbn [fmap option_fmap option_map].
  - destruct Hsender as [Hs Hk]. pose proof (proj1 Hk) as Hl. destruct (get_key s1 h1 w1 mine Hs Hk) as (s1' & G & _).
    destruct (recipients_built (good_entry (rnd_cek rnd) (Some (vk_of mine))) (auth_recipient rnd (key_of mine) (vk_of mine)) seeds 0)
      as (rs & Ers & Hgood); [intros; by apply auth_entry|done|].
    destruct (Henc rs true) as (protected & p & Ep & Er & <-). exists s1', protected, p. split; [|done].
    rewrite (lift_ok _ _ _ _ (validate_vk mine Hl)). unfold _prepare_protected_authcrypt.
    rewrite (sm_bind_ok _ _ _ _ _ G), (lift_ok _ _ _ _ Ers). unfold sm_lift. by rewrite Ep.
  - destruct (recipients_built (good_entry (rnd_cek rnd) None) (anon_recipient rnd) seeds 0)
      as (rs & Ers & Hgood); [intros; by apply anon_entry|done|].
    destruct (Henc rs false) as (protected & p & Ep & Er & <-). exists s1, protected, p. split; [|done].
    unfold _prepare_protected_anoncrypt, sm_lift. rewrite Ers. cbn [obind]. by rewrite Ep.
Qed.

(** Packing bytes and unpacking them with the key of a receiver. *)
Lemma pack_then_unpack rnd message sender before mine after s1 h1 w1 s2 h2 w2 :
  pack_random_ok rnd -> Forall is_seed (before ++ mine :: after) ->
  match sender with Some from => holds s1 h1 w1 /\ has_key w1 from | None => True end ->
  holds s2 h2 w2 -> has_key w2 mine -> Forall (fun seed => no_key w2 (vk_of seed)) before ->
  exists s1' packed jwe s2',
    pack_msg rnd message (map vk_of (before ++ mine :: after)) (vk_of <$> sender) h1 s1 = (s1', Ok packed) /\
    jwe_from_slice packed = Some jwe /\
    unpack_msg jwe h2 s2 = (s2',
      let? m := ok_or (from_utf8 message) (err_msg InvalidStructure "Failed to convert message to UTF-8 ") in
      ok_or (unpack_to_vec (mkUnpackMessage m (vk_of mine) (vk_of <$> sender))) (err_msg InvalidStructure "Failed to serialize message ")).
Proof using EL TL PL.
  intros Hrnd Hseeds Hsender Hs2 Hk Hbefore.
  destruct (header_built rnd sender _ s1 h1 w1 Hrnd Hseeds Hsender) as (s1' & protected & p & Eh & Ep & Hgood).
  pose proof (ciphertext_decrypts (rnd_iv rnd) message protected (rnd_cek rnd) (proj1 (proj2 Hrnd))) as Hdec.
  destruct (encrypt_plaintext (rnd_iv rnd) message protected (rnd_cek rnd)) as [[ciphertext iv] tag] eqn:Ee.
  destruct (jwe_back (mkJWE protected iv ciphertext tag)) as (packed & J1 & J2).
  apply Forall2_app_inv_l in Hgood as (rb & ra & Hb & Ha & Epr). inversion Ha as [|? r ? ra' (Hkid & Hiff & Hopen) Hrest]; subst.
  destruct (find_recipient s2 h2 w2 rb r ra' mine Hs2) as (s3 & Ef & Hs3); [|done|done|].
  { clear -Hb Hbefore TL. induction Hb as [|seed x before rb (Hkid & _) _ IH]; constructor; inversion Hbefore; subst; [|by apply IH].
    rewrite Hkid. split; [apply vk_text|done]. }
  destruct (Hopen s3 h2 w2 Hs3 Hk) as (s4 & Eo & _). exists s1', packed, (mkJWE protected iv ciphertext tag), s4.
  split; [|split; [done|]].
  - unfold pack_msg. destruct (map vk_of (before ++ mine :: after)) as [|v vs] eqn:Ev; [by destruct before|].
    unfold sm_bind in *. rewrite Eh, Ee. unfold sm_lift, _format_pack_message, ok_or. by rewrite J1.
  - unfold unpack_msg. cbn [jwe_protected jwe_iv jwe_ciphertext jwe_tag]. rewrite (lift_ok _ _ _ _ Ep), Epr, (sm_bind_ok _ _ _ _ _ Ef).
    rewrite (sm_bind_ok _ _ _ _ _ Eo). unfold sm_bind, sm_lift. rewrite Hdec, Hkid. by destruct (from_utf8 message).
Qed.

(** C26: A packed message opens.  Whoever packs a text for a list of verification keys, with the
    key of a sender from an open wallet or anonymously, gets bytes that everybody whose wallet
    has the key of a receiver unpacks to the same text, together with the sender's key (none if
    it was anonymous) and the first of the receivers' keys that the wallet has. *)
Theorem packed_message_opens rnd m sender before mine after s1 h1 w1 s2 h2 w2 :
  pack_random_ok rnd -> rust_string m -> Forall is_seed (before ++ mine :: after) ->
  match sender with Some from => holds s1 h1 w1 /\ has_key w1 from | None => True end ->
  holds s2 h2 w2 -> has_key w2 mine -> Forall (fun seed => no_key w2 (vk_of seed)) before ->
  exists s1' packed jwe s2' out,
    pack_msg rnd (as_bytes m) (map vk_of (before ++ mine :: after)) (vk_of <$> sender) h1 s1 = (s1', Ok packed) /\
    jwe_from_slice packed = Some jwe /\ unpack_msg jwe h2 s2 = (s2', Ok out) /\
    unpack_to_vec (mkUnpackMessage m (vk_of mine) (vk_of <$> sender)) = Some out.
Proof using EL TL PL.
  intros Hrnd Hm Hseeds Hsender Hs2 Hk Hbefore.
  destruct (pack_then_unpack rnd (as_bytes m) sender before mine after s1 h1 w1 s2 h2 w2)
    as (s1' & packed & jwe & s2' & E1 & E2 & E3); [done..|].
  destruct (unpack_written (mkUnpackMessage m (vk_of mine) (vk_of <$> sender))) as [out Hout].
  exists s1', packed, jwe, s2', out. do 2 (split; [done|]). split; [|done]. rewrite E3, from_utf8_as_bytes by done.
  cbn [ok_or obind]. by rewrite Hout.
Qed.

(** Bytes that are not text are packed, but not unpacked. *)
Theorem packed_bytes_do_not_open rnd message sender before mine after s1 h1 w1 s2 h2 w2 :
  pack_random_ok rnd -> from_utf8 message = None -> Forall is_seed (before ++ mine :: after) ->
  match sender with Some from => holds s1 h1 w1 /\ has_key w1 from | None => True end ->
  holds s2 h2 w2 -> has_key w2 mine -> Forall (fun seed => no_key w2 (vk_of seed)) before ->
  exists s1' packed jwe,
    pack_msg rnd message (map vk_of (before ++ mine :: after)) (vk_of <$> sender) h1 s1 = (s1', Ok packed) /\
    jwe_from_slice packed = Some jwe /\ is_error (unpack_msg jwe h2 s2).2 InvalidStructure.
Proof using EL TL PL.
  intros Hrnd Hm Hseeds Hsender Hs2 Hk Hbefore.
  destruct (pack_then_unpack rnd message sender before mine after s1 h1 w1 s2 h2 w2)
    as (s1' & packed & jwe & s2' & E1 & E2 & E3); [done..|].
  exists s1', packed, jwe. do 2 (split; [done|]). rewrite E3, Hm. cbn [snd ok_or obind].
  change InvalidStructure with (err_kind (err_msg InvalidStructure "Failed to convert message to UTF-8 ")) at 2. constructor.
Qed.

(** A wallet with none of the receivers' keys refuses the message. *)
Theorem unpack_needs_a_key jwe p s h w :
  holds s h w -> read_protected (jwe_protected jwe) = Ok p ->
  Forall (fun x => rust_string (hd_kid (rc_header x)) /\ no_key w (hd_kid (rc_header x))) (pr_recipients p) ->
  is_error (unpack_msg jwe h s).2 WalletItemNotFound.
Proof using OL.
  intros Hs Ep Hn.
  assert (Hf : exists s', _find_correct_recipient (pr_recipients p) h s = (s', Err (err_msg WalletItemNotFound "Wallet item not found"))).
  { revert s Hs. induction Hn as [|x l [Ht Hx] _ IH]; intros s Hs; [by exists s|].
    destruct (get_no_key s h w _ Hs Ht Hx) as (s' & e & G & Hs'). cbn. rewrite G. by apply IH. }
  destruct Hf as [s' Ef]. unfold unpack_msg. rewrite (lift_ok _ _ _ _ Ep). unfold sm_bind. rewrite Ef.
  change WalletItemNotFound with (err_kind (err_msg WalletItemNotFound "Wallet item not found")). constructor.
Qed.

(** An entry for a key of the wallet that names a sender but no nonce is enough to make the
    executor panic. *)
Theorem unpack_without_iv_panics s h w seed jwe p r rest sender key :
  holds s h w -> has_key w seed -> read_protected (jwe_protected jwe) = Ok p ->
  pr_recipients p = r :: rest -> rc_header r = mkHeader (vk_of seed) None (Some sender) ->
  urlsafe_decode (rc_encrypted_key r) = Some key -> (unpack_msg jwe h s).2 = Panic.
Proof using TL.
  intros Hs Hk Ep Er Hh Hd. destruct (find_recipient s h w [] r rest seed Hs) as (s' & Ef & _); [constructor|done|by rewrite Hh|].
  cbn [app] in Ef. unfold unpack_msg. rewrite (lift_ok _ _ _ _ Ep), Er, (sm_bind_ok _ _ _ _ _ Ef), Hh. cbn [hd_sender].
  rewrite bool_decide_eq_true_2 by (by eexists). unfold _unpack_cek_authcrypt. rewrite Hh. unfold decode_urlsafe. rewrite Hd. done.
Qed.

End Facts.
