(* ===== verification/LedgerSigning.v ===== *)
(** * Signing ledger requests

    [utils/crypto/signature_serializer.rs] of libindy, which turns a request into the text that
    is signed, and [_sign_request], [sign_request] and [multi_sign_request] of
    [commands/ledger.rs], which sign with the key of a DID in a wallet.

    The text leaves out the signatures, so that signatures can be added one after the other
    ([signing_text_stable]).  Shown: after any sequence of single and multiple signatures every
    signature that the request carries verifies for the text of the final request, under the
    identifier it is filed under, and no signature is lost ([signatures_verify]).  That needs the
    single signatures to be by the identifier of the request, which the code does not check
    ([single_signature_misfiled]).  A request without identifier loses its single signature
    ([single_signature_dropped]), one whose field [signatures] is no object makes the executor
    panic ([signatures_field_panics]), and different requests can have the same text
    ([signing_text_ambiguous]). *)

From stdpp Require Import base list strings numbers gmap pretty sorting.
From Stdlib Require Import ZArith Lia.
From S2P Require Import Prelude Errors Json LedgerConstants Identifiers WalletCrypto WalletStorage Wallet ExportImport WalletService WalletCommands ObjectStore Trie External JsonText CryptoService CryptoCommands.

Open Scope string_scope.

(** ** [signature_serializer.rs] *)
Section Serializer.
Context {C : Codec}.

Definition is_signature_field (key : string) : bool :=
  String.eqb key "signature" || String.eqb key "fees" || String.eqb key "signatures".
(** Fields of attribute requests of which only the hash is signed. *)
Definition is_hashed_field (t : option string) (key : string) : bool :=
  (bool_decide (t = Some ATTRIB) || bool_decide (t = Some GET_ATTR)) &&
  (String.eqb key "raw" || String.eqb key "hash" || String.eqb key "enc").
Definition hash_field (value : Value) : outcome string :=
  let? s := ok_or (as_str value) (err_msg InvalidState "Cannot update hash context") in
  let? digest := openssl_hash (as_bytes s) in
  Ok (hex_encode digest).

Fixpoint _serialize_signature (is_top_level : bool) (t : option string) (v : Value) {struct v} : outcome string :=
  match v with
  | VBool b => Ok (if b then "True" else "False")
  | Number n => Ok (pretty n)
  | VString s => Ok s
  | Array l =>
      let? res :=
        (fix elements l :=
           match l with
           | [] => Ok []
           | x :: l' =>
               let? a := _serialize_signature false t x in
               let? res := elements l' in
               Ok (a :: res)
           end) l in
      Ok (String.concat "," res)
  | Object m =>
      (fix fields (in_middle : bool) (result : string) m :=
         match m with
         | [] => Ok result
         | (key, value) :: m' =>
             if is_top_level && is_signature_field key then fields in_middle result m'
             else
               let result := if in_middle then result +:+ "|" else result in
               let? text := if is_hashed_field t key then hash_field value else _serialize_signature false t value in
               fields true (result +:+ key +:+ ":" +:+ text) m'
         end) false "" m
  | Null => Ok ""
  end.

Definition serialize_signature (v : Value) : outcome string :=
  _serialize_signature true (as_str (index (index v "operation") "type")) v.
End Serializer.

(** ** [commands/ledger.rs] *)
Inductive SignatureType := Single | Multi.

(** serde's codec of DIDs. *)
Class DidCodec := {
  did_to_json : Did -> option string;
  did_from_json : string -> option Did
}.
#[export] Instance Did_serde {D : DidCodec} : Serde Did :=
  {| type_name := "indy::domain::crypto::did::Did"; to_json := did_to_json; from_json := did_from_json |}.

Definition contains_key (k : string) (m : list (string * Value)) : bool := bool_decide (is_Some (map_get k m)).
(** [m["signatures"].as_object_mut().unwrap().insert(k, v)]. *)
Definition insert_signature (k : string) (v : Value) (m : list (string * Value)) : outcome (list (string * Value)) :=
  let? sigs := unwrap_opt (as_object (index (Object m) "signatures")) in
  Ok (map_insert "signatures" (Object (map_insert k v sigs)) m).

Definition add_signature (signature_type : SignatureType) (did signature : string) (request : Value) : outcome Value :=
  match signature_type with
  | Single => index_set request "signature" (VString signature)
  | Multi =>
      match request with
      | Object m =>
          let m := if contains_key "signatures" m then m else map_insert "signatures" (Object []) m in
          let? m := insert_signature did (VString signature) m in
          let identifier := map_get "identifier" m ≫= as_str in
          let single := map_get "signature" m in
          let m := map_remove "signature" m in
          match identifier, single with
          | Some identifier, Some single => let? m := insert_signature identifier single m in Ok (Object m)
          | _, _ => Ok (Object m)
          end
      | request => Ok request
      end
  end.

Section Signing.
Context {O : ObjectStore} {C : Codec} {Ed : Ed25519} {U : UrlsafeCodec} {P : PackCodec} {D : DidCodec}.

Definition _sign_request (wallet_handle : Z) (submitter_did request_json : string) (signature_type : SignatureType) :
    SM store string :=
  let* my_did := obj_get Did wallet_handle submitter_did in
  let* my_key := obj_get Key wallet_handle (did_verkey my_did) in
  let* request := sm_lift (ok_or (json_from_str request_json) (err_msg InvalidStructure "Message is invalid json")) in
  let* _ := match request with
            | Object _ => sm_ret ()
            | _ => sm_fail (err_msg InvalidStructure "Message isn't json object")
            end in
  let* serialized_request := sm_lift (serialize_signature request) in
  let* signature := sm_lift (sign my_key (as_bytes serialized_request)) in
  let did := to_unqualified (did_did my_did) in
  let* request := sm_lift (add_signature signature_type did (to_base58 signature) request) in
  sm_ret (json_to_string request).

Definition sign_request (wallet_handle : Z) (submitter_did request_json : string) : SM store string :=
  _sign_request wallet_handle submitter_did request_json Single.
Definition multi_sign_request (wallet_handle : Z) (submitter_did request_json : string) : SM store string :=
  _sign_request wallet_handle submitter_did request_json Multi.

(** Signing one after the other. *)
Fixpoint sign_all (wallet_handle : Z) (signers : list (SignatureType * string)) (request_json : string) : SM store string :=
  match signers with
  | [] => sm_ret request_json
  | (Single, did) :: rest =>
      let* request_json := sign_request wallet_handle did request_json in sign_all wallet_handle rest request_json
  | (Multi, did) :: rest =>
      let* request_json := multi_sign_request wallet_handle did request_json in sign_all wallet_handle rest request_json
  end.
End Signing.

(** ** The text and the signatures *)
Section Text.
Context {C : Codec}.

(** The loop over the fields of a request. *)
Definition top_fields (t : option string) : bool -> string -> list (string * Value) -> outcome string :=
  fix fields (in_middle : bool) (result : string) (m : list (string * Value)) :=
    match m with
    | [] => Ok result
    | (key, value) :: m' =>
        if is_signature_field key then fields in_middle result m'
        else
          let result := if in_middle then result +:+ "|" else result in
          let? text := if is_hashed_field t key then hash_field value else _serialize_signature false t value in
          fields true (result +:+ key +:+ ":" +:+ text) m'
    end.
Lemma serialize_object t m : _serialize_signature true t (Object m) = top_fields t false "" m.
Proof using Type. reflexivity. Qed.

Lemma top_fields_insert t k v m b r :
  is_signature_field k = true -> top_fields t b r (map_insert k v m) = top_fields t b r m.
Proof using Type.
  intros Hk. revert b r. induction m as [|[k' v'] m IH]; intros b r; cbn [map_insert top_fields]; [by rewrite Hk|].
  destruct (String.compare k k') eqn:E; cbn [top_fields]; rewrite ?Hk; [|done|].
  - apply String.compare_eq_iff in E as <-. by rewrite Hk.
  - destruct (is_signature_field k'); [apply IH|]. cbv zeta. destruct (if is_hashed_field t k' then _ else _); [|done..].
    cbn [obind]. apply IH.
Qed.
Lemma top_fields_remove t k m b r :
  is_signature_field k = true -> top_fields t b r (map_remove k m) = top_fields t b r m.
Proof using Type.
  intros Hk. unfold map_remove. revert b r. induction m as [|[k' v'] m IH]; intros b r; [done|].
  rewrite filter_cons. cbn [fst]. destruct (decide (k' <> k)) as [Hne|He]; cbn [top_fields].
  - destruct (is_signature_field k'); [apply IH|]. cbv zeta. destruct (if is_hashed_field t k' then _ else _); [|done..].
    cbn [obind]. apply IH.
  - apply dec_stable in He as ->. by rewrite Hk.
Qed.

Lemma map_get_remove_eq k m : map_get k (map_remove k m) = None.
Proof using Type.
  unfold map_remove. induction m as [|[k' v'] m IH]; [done|]. rewrite filter_cons. cbn [fst].
  destruct (decide (k' <> k)) as [Hne|He]; [|done]. cbn [map_get]. by rewrite (proj2 (String.eqb_neq k k')) by done.
Qed.
Lemma map_get_remove_ne k k' m : k <> k' -> map_get k (map_remove k' m) = map_get k m.
Proof using Type.
  intros Hk. unfold map_remove. induction m as [|[k2 v2] m IH]; [done|]. rewrite filter_cons. cbn [fst map_get].
  destruct (decide (k2 <> k')) as [Hne|He]; cbn [map_get]; rewrite IH; [done|]. apply dec_stable in He as ->.
  by rewrite (proj2 (String.eqb_neq k k')).
Qed.

(** Signatures are not part of what is signed. *)
Lemma signing_text_stable k v m :
  is_signature_field k = true ->
  serialize_signature (Object (map_insert k v m)) = serialize_signature (Object m) /\
  serialize_signature (Object (map_remove k m)) = serialize_signature (Object m).
Proof using Type.
  intros Hk. unfold serialize_signature. rewrite !serialize_object, top_fields_insert, top_fields_remove by done.
  assert (Hne : "operation" <> k) by (by intros <-). cbn [index]. by rewrite map_get_insert_ne, map_get_remove_ne.
Qed.
End Text.

Class DidLaws (D : DidCodec) := {
  did_back d : exists j, did_to_json d = Some j /\ rust_string j /\ did_from_json j = Some d
}.

Section Facts.
Context {O : ObjectStore} {OL : ObjectLaws O} {C : Codec} {JL : JsonLaws C} {Ed : Ed25519} {EL : Ed25519Laws Ed}.
Context {U : UrlsafeCodec} {TL : TextLaws C U} {P : PackCodec} {D : DidCodec}.

(** The wallet has a DID and the key of it, which a seed gives. *)
Definition knows (w : PlainWallet) (did : string) (seed : bytes) : Prop :=
  rust_string did /\ has_key w seed /\
  exists rec, w !! (object_type Did, did) = Some rec /\ did_from_json (pr_value rec) = Some (mkDid did (vk_of seed)).

Abbreviation Signer := (SignatureType * string * bytes)%type.
(** A signature of one of the signers, who has this short DID, on the text. *)
Definition signed_by (signers : list Signer) (text d : string) (v : Value) : Prop :=
  exists t did seed sg signature, (t, did, seed) ∈ signers /\ to_unqualified did = d /\ v = VString sg /\
    from_base58 sg = Some signature /\ verify (vk_of seed) (as_bytes text) signature = Ok true.
(** The request has a signature filed under this DID. *)
Definition filed (d : string) (m : list (string * Value)) : Prop :=
  exists sigs x, map_get "signatures" m = Some (Object sigs) /\ map_get d sigs = Some x.

Record request_inv (ident text : string) (signers : list Signer) (m : list (string * Value)) : Prop := {
  ri_wf : value_wf (Object m);
  ri_text : serialize_signature (Object m) = Ok text;
  ri_ident : map_get "identifier" m = Some (VString ident);
  ri_single v : map_get "signature" m = Some v -> signed_by signers text ident v;
  ri_multi v : map_get "signatures" m = Some v ->
    exists sigs, v = Object sigs /\ forall d x, map_get d sigs = Some x -> signed_by signers text d x;
  ri_kept t did seed : (t, did, seed) ∈ signers ->
    match t with
    | Single => is_Some (map_get "signature" m) \/ filed ident m
    | Multi => filed (to_unqualified did) m
    end
}.

Lemma signed_by_more signers x text d v : signed_by signers text d v -> signed_by (signers ++ [x]) text d v.
Proof using Type.
  intros (t & did & seed & sg & signature & Hin & H). exists t, did, seed, sg, signature. split; [|done].
  apply elem_of_app. by left.
Qed.

(** A new signature filed. *)
Lemma insert_signature_step d v m sigs :
  map_get "signatures" m = Some (Object sigs) ->
  insert_signature d v m = Ok (map_insert "signatures" (Object (map_insert d v sigs)) m).
Proof using Type. intros Hg. unfold insert_signature. cbn [index]. by rewrite Hg. Qed.

Lemma filed_insert d d' v m sigs :
  map_get "signatures" m = Some (Object sigs) -> d = d' \/ filed d m ->
  filed d (map_insert "signatures" (Object (map_insert d' v sigs)) m).
Proof using Type.
  intros Hg Hd. destruct (decide (d = d')) as [->|Hne].
  - eexists _, v. split; [apply map_get_insert_eq|apply map_get_insert_eq].
  - destruct Hd as [|(sigs' & x & Hs & Hx)]; [done|]. rewrite Hg in Hs. injection Hs as <-.
    eexists _, x. split; [apply map_get_insert_eq|]. by rewrite map_get_insert_ne.
Qed.
Lemma filed_remove d m : filed d m -> filed d (map_remove "signature" m).
Proof using Type. intros (sigs & x & H). exists sigs, x. by rewrite map_get_remove_ne. Qed.

(** Filing a valid signature keeps the invariant, but for the signer it is about. *)
Definition multi_inv (ident text : string) (signers : list Signer) (m : list (string * Value)) (sigs : list (string * Value)) : Prop :=
  value_wf (Object m) /\ serialize_signature (Object m) = Ok text /\ map_get "identifier" m = Some (VString ident) /\
  map_get "signatures" m = Some (Object sigs) /\ forall d x, map_get d sigs = Some x -> signed_by signers text d x.

Lemma multi_inv_insert ident text signers m sigs d v :
  multi_inv ident text signers m sigs -> signed_by signers text d v ->
  multi_inv ident text signers (map_insert "signatures" (Object (map_insert d v sigs)) m) (map_insert d v sigs).
Proof using Type.
  intros (Hwf & Ht & Hi & Hg & Hs) Hv. split; [|split; [|split; [|split]]].
  - apply object_wf_insert; [|done]. apply object_wf_insert; [|by eapply map_get_wf].
    by destruct Hv as (? & ? & ? & ? & ? & _ & _ & -> & _).
  - by rewrite (proj1 (signing_text_stable "signatures" _ _ eq_refl)).
  - by rewrite map_get_insert_ne.
  - apply map_get_insert_eq.
  - intros d' x. destruct (decide (d' = d)) as [->|Hne].
    + rewrite map_get_insert_eq. by intros [= <-].
    + rewrite map_get_insert_ne by done. apply Hs.
Qed.

Lemma single_step ident text signers m did seed sg signature :
  request_inv ident text signers m -> to_unqualified did = ident ->
  from_base58 sg = Some signature -> verify (vk_of seed) (as_bytes text) signature = Ok true ->
  exists m', add_signature Single (to_unqualified did) sg (Object m) = Ok (Object m') /\
    request_inv ident text (signers ++ [(Single, did, seed)]) m'.
Proof using Type.
  intros [Hwf Ht Hi Hs Hm Hk] Hd Hb Hv. eexists. split; [reflexivity|]. split.
  - by apply object_wf_insert.
  - by rewrite (proj1 (signing_text_stable "signature" _ _ eq_refl)).
  - by rewrite map_get_insert_ne.
  - intros v. rewrite map_get_insert_eq. intros [= <-]. exists Single, did, seed, sg, signature.
    split; [|done]. apply elem_of_app. right. by left.
  - intros v. rewrite map_get_insert_ne by done. intros Hg. destruct (Hm v Hg) as (sigs & -> & H). exists sigs. split; [done|].
    intros d x Hx. by apply signed_by_more, H.
  - intros t did' seed' [Hin|[= -> -> ->]%list_elem_of_singleton]%elem_of_app.
    + specialize (Hk t did' seed' Hin). destruct t; [left; by rewrite map_get_insert_eq|].
      destruct Hk as (sigs & x & H1 & H2). exists sigs, x. by rewrite map_get_insert_ne.
    + left. by rewrite map_get_insert_eq.
Qed.

(** The field for signatures is there, or is added. *)
Definition with_signatures (m : list (string * Value)) : list (string * Value) :=
  if contains_key "signatures" m then m else map_insert "signatures" (Object []) m.
Lemma multi_start ident text signers x m :
  request_inv ident text signers m ->
  exists sigs, multi_inv ident text (signers ++ [x]) (with_signatures m) sigs /\
    map_get "signature" (with_signatures m) = map_get "signature" m /\
    forall d, filed d m -> filed d (with_signatures m).
Proof using Type.
  intros [Hwf Ht Hi Hs Hm Hk]. unfold with_signatures, contains_key. destruct (map_get "signatures" m) as [v|] eqn:Eg.
  - rewrite bool_decide_eq_true_2 by (by eexists). destruct (Hm v eq_refl) as (sigs & -> & H). exists sigs.
    split; [|done]. repeat (split; [done|]). intros d y Hy. by apply signed_by_more, H.
  - rewrite bool_decide_eq_false_2 by (by intros []). exists []. split; [|split].
    + split; [by apply object_wf_insert; [by split; [constructor|]|]|]. rewrite (proj1 (signing_text_stable "signatures" _ _ eq_refl)).
      split; [done|]. rewrite map_get_insert_ne by done. split; [done|]. split; [apply map_get_insert_eq|done].
    + by rewrite map_get_insert_ne.
    + intros d (sigs & y & H & _). congruence.
Qed.

(** When the single signature is filed away and nothing else is lost, the invariant holds. *)
Lemma multi_done ident text signers did seed m m' sigs :
  request_inv ident text signers m -> multi_inv ident text (signers ++ [(Multi, did, seed)]) m' sigs ->
  map_get "signature" m' = None -> (forall d, d = to_unqualified did \/ filed d m -> filed d m') ->
  (is_Some (map_get "signature" m) -> filed ident m') ->
  request_inv ident text (signers ++ [(Multi, did, seed)]) m'.
Proof using Type.
  intros [_ _ _ _ _ Hk] (H1 & H2 & H3 & H4 & H5) Hsg Hfl Hid. split; [done..| | |].
  - intros v. congruence.
  - intros v. rewrite H4. intros [= <-]. by exists sigs.
  - intros t did' seed' [Hin|[= -> -> ->]%list_elem_of_singleton]%elem_of_app; [|apply Hfl; by left].
    specialize (Hk t did' seed' Hin). destruct t; [|apply Hfl; by right]. right.
    destruct Hk; [by apply Hid|apply Hfl; by right].
Qed.

Lemma multi_inv_remove ident text signers m sigs :
  multi_inv ident text signers m sigs -> multi_inv ident text signers (map_remove "signature" m) sigs.
Proof using Type.
  intros (H1 & H2 & H3 & H4 & H5). split; [by apply object_wf_remove|].
  rewrite (proj2 (signing_text_stable "signature" Null m eq_refl)). split; [done|]. by rewrite !map_get_remove_ne.
Qed.

Lemma multi_step ident text signers m did seed sg signature :
  request_inv ident text signers m ->
  from_base58 sg = Some signature -> verify (vk_of seed) (as_bytes text) signature = Ok true ->
  exists m', add_signature Multi (to_unqualified did) sg (Object m) = Ok (Object m') /\
    request_inv ident text (signers ++ [(Multi, did, seed)]) m'.
Proof using Type.
  intros Hinv Hb Hv. set (d := to_unqualified did).
  assert (Hnew : signed_by (signers ++ [(Multi, did, seed)]) text d (VString sg)).
  { exists Multi, did, seed, sg, signature. split; [|done]. apply elem_of_app. right. by left. }
  destruct (multi_start ident text signers (Multi, did, seed) m Hinv) as (sigs & Hm0 & Hsig0 & Hf0).
  pose proof Hm0 as (_ & _ & _ & Hg0 & _).
  pose proof (multi_inv_insert _ _ _ _ _ d (VString sg) Hm0 Hnew) as Hm1.
  set (m1 := map_insert "signatures" _ (with_signatures m)) in *. set (sigs1 := map_insert d _ sigs) in *.
  assert (Hsig1 : map_get "signature" m1 = map_get "signature" m) by (unfold m1; by rewrite map_get_insert_ne).
  pose proof (multi_inv_remove _ _ _ _ _ Hm1) as Hm2. set (m2 := map_remove "signature" m1) in *.
  assert (Hf2 : forall d', d' = d \/ filed d' m -> filed d' m2).
  { intros d' Hd'. apply filed_remove, filed_insert; [done|]. destruct Hd'; [by left|right; by apply Hf0]. }
  cbn [add_signature]. fold (with_signatures m). rewrite (insert_signature_step _ _ _ sigs Hg0). cbn [obind].
  fold sigs1. fold m1. fold m2. rewrite Hsig1. destruct Hm1 as (_ & _ & Hi1 & _). rewrite Hi1. cbn [mbind option_bind as_str].
  destruct (map_get "signature" m) as [v|] eqn:Esig.
  - pose proof Hm2 as (_ & _ & _ & Hg2 & _). rewrite (insert_signature_step _ _ _ sigs1 Hg2). cbn [obind].
    eexists. split; [reflexivity|]. eapply multi_done; [exact Hinv|eapply multi_inv_insert; [exact Hm2|]| | |].
    + by eapply signed_by_more, ri_single.
    + rewrite map_get_insert_ne by done. apply map_get_remove_eq.
    + intros d' Hd'. apply filed_insert; [done|]. right. by apply Hf2.
    + intros _. apply filed_insert; [done|]. by left.
  - eexists. split; [reflexivity|]. eapply multi_done; [exact Hinv|exact Hm2|apply map_get_remove_eq|done|].
    rewrite Esig. by intros [].
Qed.

(** Signing changes nothing but signatures. *)
Definition unchanged (m m' : list (string * Value)) : Prop :=
  forall k, k <> "signature" -> k <> "signatures" -> map_get k m' = map_get k m.
Lemma insert_signature_unchanged d v m m' : insert_signature d v m = Ok m' -> unchanged m m'.
Proof using Type.
  unfold insert_signature, unwrap_opt. destruct (as_object _); [|done]. intros [= <-] k _ Hk. by rewrite map_get_insert_ne.
Qed.
Lemma add_signature_unchanged t d sg m m' : add_signature t d sg (Object m) = Ok (Object m') -> unchanged m m'.
Proof using Type.
  destruct t; cbn [add_signature].
  - intros [= <-] k Hk _. by rewrite map_get_insert_ne.
  - set (m0 := if contains_key _ m then m else _).
    assert (H0 : unchanged m m0).
    { intros k Hk Hk'. unfold m0. destruct (contains_key _ m); [done|]. by rewrite map_get_insert_ne. }
    destruct (insert_signature d _ m0) as [m1| |] eqn:E1; try done. apply insert_signature_unchanged in E1. cbn [obind].
    set (m2 := map_remove _ m1). assert (H2 : unchanged m1 m2) by (intros k Hk _; apply map_get_remove_ne; congruence).
    assert (H : forall m3, unchanged m2 m3 -> unchanged m m3)
      by (intros m3 H3 k Hk Hk'; by rewrite H3, H2, E1, H0).
    destruct (map_get "identifier" m1 ≫= as_str), (map_get "signature" m1); try (intros [= <-]; by apply H).
    destruct (insert_signature _ _ m2) as [m3| |] eqn:E3; try done. intros [= <-].
    by apply H, (insert_signature_unchanged _ _ _ _ E3).
Qed.

(** One signature by a DID of the wallet. *)
Lemma sign_step s h w ident text signers request_json m t did seed :
  holds s h w -> knows w did seed -> json_from_str request_json = Some (Object m) -> request_inv ident text signers m ->
  (t = Single -> to_unqualified did = ident) ->
  exists s' m', _sign_request h did request_json t s = (s', Ok (json_to_string (Object m'))) /\
    holds s' h w /\ request_inv ident text (signers ++ [(t, did, seed)]) m' /\ unchanged m m'.
Proof using JL EL TL.
  intros Hs (Hdt & Hk & rec & Hrec & Hdid) Hj Hinv Ht.
  pose proof (law_obj_get Did s h w did Hs eq_refl Hdt) as Hd. unfold ends in Hd. rewrite Hrec in Hd.
  destruct (obj_get Did h did s) as [s1 r] eqn:Edid. cbn [fst snd] in Hd. destruct Hd as [Hs1 ->].
  unfold read_object in Edid. cbn [from_json Did_serde] in Edid. rewrite Hdid in Edid. cbn [ok_or] in Edid.
  destruct (get_key s1 h w seed Hs1 Hk) as (s2 & Eg & Hs2).
  destruct (signature_verifies seed (as_bytes text) (proj1 Hk)) as (signature & E1 & E2).
  assert (Hm' : exists m', add_signature t (to_unqualified did) (to_base58 signature) (Object m) = Ok (Object m') /\
    request_inv ident text (signers ++ [(t, did, seed)]) m').
  { destruct t; [eapply single_step|eapply multi_step]; eauto using from_to_base58. }
  destruct Hm' as (m' & Em & Hm'). exists s2, m'.
  split; [|by split_and!; [..|eapply add_signature_unchanged]]. unfold _sign_request.
  rewrite (sm_bind_ok _ _ _ _ _ Edid). cbn [did_verkey did_did]. rewrite (sm_bind_ok _ _ _ _ _ Eg).
  rewrite (lift_ok _ _ _ (Object m)) by (by rewrite Hj).
  unfold sm_bind at 1, sm_ret at 1. rewrite (lift_ok _ _ _ _ (ri_text _ _ _ _ Hinv)), (lift_ok _ _ _ _ E1).
  by rewrite (lift_ok _ _ _ _ Em).
Qed.

Lemma sign_all_step s h w ident text signers done_ request_json m :
  holds s h w -> json_from_str request_json = Some (Object m) -> request_inv ident text done_ m ->
  Forall (fun '(t, did, seed) => knows w did seed /\ (t = Single -> to_unqualified did = ident)) signers ->
  exists s' signed m', sign_all h signers.*1 request_json s = (s', Ok signed) /\ json_from_str signed = Some (Object m') /\
    holds s' h w /\ request_inv ident text (done_ ++ signers) m' /\ unchanged m m'.
Proof using JL EL TL.
  intros Hs Hj Hinv Hall. revert s done_ request_json m Hs Hj Hinv.
  induction Hall as [|[[t did] seed] signers [Hk Ht] _ IH]; intros s done_ request_json m Hs Hj Hinv.
  - exists s, request_json, m. by rewrite app_nil_r.
  - destruct (sign_step s h w ident text done_ request_json m t did seed Hs Hk Hj Hinv Ht) as (s1 & m1 & E1 & Hs1 & Hinv1 & Hu1).
    assert (Hj1 : json_from_str (json_to_string (Object m1)) = Some (Object m1)) by (apply json_back, Hinv1).
    destruct (IH s1 _ _ m1 Hs1 Hj1 Hinv1) as (s2 & signed & m2 & E2 & Hj2 & Hs2 & Hinv2 & Hu2).
    exists s2, signed, m2. rewrite <-app_assoc in Hinv2. split; [|split_and!; try done; intros k Hn Hn'; by rewrite Hu2, Hu1].
    destruct t; cbn [sign_all fmap list_fmap fst]; unfold sign_request, multi_sign_request;
      by rewrite (sm_bind_ok _ _ _ _ _ E1).
Qed.

(** A request without signatures. *)
Lemma fresh_request_inv ident text m :
  value_wf (Object m) -> serialize_signature (Object m) = Ok text -> map_get "identifier" m = Some (VString ident) ->
  map_get "signature" m = None -> map_get "signatures" m = None -> request_inv ident text [] m.
Proof using Type.
  intros Hwf Ht Hi Hsig Hsigs. split; [done..| | |]; [intros v; congruence..|]. by intros ? ? ? []%not_elem_of_nil.
Qed.

(** C27: Signatures on a request stay valid.  A request is signed by any sequence of DIDs of an
    open wallet, each adding its signature as the single one or to the multiple ones, where only
    the identifier of the request signs singly.  Then all signing succeeds, the text of the
    request is what it was, every signature in the final request verifies for this text with the
    key of the signer it is filed under, every signer's signature is there, and nothing but
    signatures was added. *)
Theorem signatures_verify s h w ident text (signers : list Signer) request_json m :
  holds s h w -> json_from_str request_json = Some (Object m) ->
  value_wf (Object m) -> serialize_signature (Object m) = Ok text ->
  map_get "identifier" m = Some (VString ident) -> map_get "signature" m = None -> map_get "signatures" m = None ->
  Forall (fun '(t, did, seed) => knows w did seed /\ (t = Single -> to_unqualified did = ident)) signers ->
  exists s' signed m', sign_all h signers.*1 request_json s = (s', Ok signed) /\ json_from_str signed = Some (Object m') /\
    holds s' h w /\ request_inv ident text signers m' /\ unchanged m m'.
Proof using JL EL TL.
  intros Hs Hj Hwf Ht Hi Hsig Hsigs Hall.
  by apply (sign_all_step s h w ident text signers [] request_json m Hs Hj); [apply fresh_request_inv|].
Qed.
End Facts.

(** ** What goes wrong *)

(** Different requests with the same text: a signature of one is a signature of the other. *)
Theorem signing_text_ambiguous `{Codec} :
  serialize_signature (Object [("dest", VString "A|role:0")]) = serialize_signature (Object [("dest", VString "A"); ("role", VString "0")]) /\
  serialize_signature (Object [("a", Array [VString "b"; VString "c"])]) = serialize_signature (Object [("a", VString "b,c")]).
Proof. split; reflexivity. Qed.

(** A multiple signature on a request that has a single signature but no identifier drops the
    single signature. *)
Theorem single_signature_dropped m d sg v :
  map_get "identifier" m = None -> map_get "signature" m = Some v -> map_get "signatures" m = None ->
  exists m', add_signature Multi d sg (Object m) = Ok (Object m') /\ map_get "signature" m' = None /\
    map_get "signatures" m' = Some (Object [(d, VString sg)]).
Proof.
  intros Hi Hv Hs. cbn [add_signature]. unfold contains_key. rewrite Hs, bool_decide_eq_false_2 by (by intros []).
  rewrite (insert_signature_step _ _ _ []) by apply map_get_insert_eq. cbn [obind map_insert].
  rewrite !map_get_insert_ne, Hi by done. cbn [mbind option_bind]. eexists. split; [reflexivity|].
  split; [apply map_get_remove_eq|]. rewrite map_get_remove_ne by done. apply map_get_insert_eq.
Qed.

(** A single signature is filed under the identifier of the request, whoever made it. *)
Theorem single_signature_misfiled m d sg ident v :
  map_get "identifier" m = Some (VString ident) -> map_get "signature" m = Some v -> map_get "signatures" m = None ->
  exists m' sigs, add_signature Multi d sg (Object m) = Ok (Object m') /\
    map_get "signatures" m' = Some (Object sigs) /\ map_get ident sigs = Some v.
Proof.
  intros Hi Hv Hs. cbn [add_signature]. unfold contains_key. rewrite Hs, bool_decide_eq_false_2 by (by intros []).
  rewrite (insert_signature_step _ _ _ []) by apply map_get_insert_eq. cbn [obind].
  rewrite !map_get_insert_ne, Hi, Hv by done. cbn [mbind option_bind as_str].
  rewrite (insert_signature_step _ _ _ (map_insert d (VString sg) [])) by
    (rewrite map_get_remove_ne by done; apply map_get_insert_eq).
  eexists _, _. split; [reflexivity|]. split; apply map_get_insert_eq.
Qed.

(** A field [signatures] that is no object, null for instance, is followed without a check. *)
Theorem signatures_field_panics m d sg v :
  map_get "signatures" m = Some v -> as_object v = None -> add_signature Multi d sg (Object m) = Panic.
Proof.
  intros Hs Hv. cbn [add_signature]. unfold contains_key. rewrite Hs, bool_decide_eq_true_2 by (by eexists).
  unfold insert_signature. cbn [index]. by rewrite Hs, Hv.
Qed.
