(* ===== verification/LedgerRequests.v ===== *)
(** * Requests to the ledger

    [domain/ledger/*.rs] of libindy, the builders of [services/ledger/mod.rs], and the commands
    of [commands/ledger.rs] that check their arguments and build a request, or add an endorser
    or the acceptance of the transaction author agreement to one.

    An operation is the list of members serde writes for its struct, in their order; a request
    is the text of it, which [json_from_str] reads as an object in order.  Key material of ursa
    occurs as the value serde writes for it.  Sets and maps are given in the order in which
    they are iterated.  The id of the request, which is the time, and the protocol version are
    arguments.

    Shown: every request that is built is an object with exactly the four members of a
    request, the identifier of its submitter and the code of its transaction
    ([built_request_reads]); the checks of the builders accept exactly what they mean to accept
    ([build_nym_request_iff], [build_get_txn_request_iff], [build_get_auth_rule_request_iff]);
    a request that is built, endorsed, given an acceptance and signed carries what was added,
    verifies for each signer and passes the check before it is sent ([request_life]). *)

From stdpp Require Import base list sets strings numbers.
From Stdlib Require Import ZArith Lia.
From S2P Require Import Prelude Errors Json LedgerConstants Identifiers WalletCrypto WalletStorage Wallet ExportImport WalletService WalletCommands ObjectStore Trie External JsonText Verkey CryptoService CryptoCommands LedgerSigning.

Open Scope string_scope.

Abbreviation Members := (list (string * Value)).

(** A member that is left out when there is no value, and one that is null then. *)
Definition opt_member {A : Type} (k : string) (f : A -> Value) (o : option A) : Members :=
  match o with Some a => [(k, f a)] | None => [] end.
Definition or_null {A : Type} (f : A -> Value) (o : option A) : Value := match o with Some a => f a | None => Null end.
Definition texts (l : list string) : Value := Array (VString <$> l).
Definition text_map (l : list (string * string)) : Value := Object ((fun kv => (kv.1, VString kv.2)) <$> l).

(** ** Operations *)
Definition NymOperation (dest : string) (verkey alias : option string) (role : option Value) : Members :=
  [("type", VString NYM); ("dest", VString dest)] ++ opt_member "verkey" VString verkey
  ++ opt_member "alias" VString alias ++ opt_member "role" id role.
Definition GetNymOperation (dest : string) : Members := [("type", VString GET_NYM); ("dest", VString dest)].
Definition GetDdoOperation (dest : string) : Members := [("type", VString GET_DDO); ("dest", VString dest)].
Definition AttribOperation (dest : string) (hash raw enc : option string) : Members :=
  [("type", VString ATTRIB); ("dest", VString dest)] ++ opt_member "hash" VString hash
  ++ opt_member "raw" VString raw ++ opt_member "enc" VString enc.
Definition GetAttribOperation (dest : string) (raw hash enc : option string) : Members :=
  [("type", VString GET_ATTR); ("dest", VString dest)] ++ opt_member "raw" VString raw
  ++ opt_member "hash" VString hash ++ opt_member "enc" VString enc.

Definition SchemaOperationData (name version : string) (attr_names : list string) : Value :=
  Object [("name", VString name); ("version", VString version); ("attr_names", texts attr_names)].
Definition SchemaOperation (data : Value) : Members := [("type", VString SCHEMA); ("data", data)].
Definition GetSchemaOperationData (name version : string) : Value :=
  Object [("name", VString name); ("version", VString version)].
Definition GetSchemaOperation (dest : string) (data : Value) : Members :=
  [("type", VString GET_SCHEMA); ("dest", VString dest); ("data", data)].

(** [SchemaV1] and [CredentialDefinitionV1] of [domain/anoncreds/]. *)
Record SchemaV1 := mkSchemaV1 {
  sc_id : string; sc_name : string; sc_version : string; sc_attr_names : list string; sc_seq_no : option Z
}.
Record CredentialDefinitionV1 := mkCredDefV1 {
  cd_id : string; cd_schema_id : string; cd_tag : string; cd_value : Value
}.
Definition CL_SIGNATURE_TYPE : string := "CL".

Definition minus_sign : Ascii.ascii := Eval cbv in Ascii.ascii_of_nat 45.
(** [str::parse::<i32>]. *)
Definition parse_i32 (s : string) : option Z :=
  let n :=
    match s with
    | String a s' => if Ascii.eqb a minus_sign
                     then match s' with EmptyString => None | _ => Z.opp <$> parse_digits 0 s' end
                     else parse_u64 s
    | EmptyString => None
    end in
  n ← n; if (- 2 ^ 31 <=? n)%Z && (n <? 2 ^ 31)%Z then Some n else None.

Definition CredDefOperation (node_1_3 : bool) (data : CredentialDefinitionV1) : Members :=
  [("ref", Number (default 0%Z (parse_i32 (cd_schema_id data)))); ("data", cd_value data); ("type", VString CRED_DEF);
   ("signature_type", VString CL_SIGNATURE_TYPE)] ++
  opt_member "tag" VString (if node_1_3 then None else Some (cd_tag data)).
Definition GetCredDefOperation (ref_ : Z) (signature_type origin : string) (tag : option string) : Members :=
  [("type", VString GET_CRED_DEF); ("ref", Number ref_); ("signature_type", VString signature_type);
   ("origin", VString origin)] ++ opt_member "tag" VString tag.

Inductive Services := VALIDATOR | OBSERVER.
Definition service_text (s : Services) : Value := VString (match s with VALIDATOR => "VALIDATOR" | OBSERVER => "OBSERVER" end).
Record NodeOperationData := mkNodeData {
  no_node_ip : option string; no_node_port : option Z; no_client_ip : option string; no_client_port : option Z;
  no_alias : string; no_services : option (list Services); no_blskey : option string; no_blskey_pop : option string
}.
Definition node_data_members (d : NodeOperationData) : Members :=
  opt_member "node_ip" VString (no_node_ip d) ++ opt_member "node_port" Number (no_node_port d)
  ++ opt_member "client_ip" VString (no_client_ip d) ++ opt_member "client_port" Number (no_client_port d)
  ++ [("alias", VString (no_alias d))]
  ++ opt_member "services" (fun l => Array (service_text <$> l)) (no_services d)
  ++ opt_member "blskey" VString (no_blskey d) ++ opt_member "blskey_pop" VString (no_blskey_pop d).
Definition NodeOperation (dest : string) (data : NodeOperationData) : Members :=
  [("type", VString NODE); ("dest", VString dest); ("data", Object (node_data_members data))].
(** [Validatable for NodeOperationData]. *)
Definition given {A : Type} (o : option A) : bool := bool_decide (is_Some o).
Definition validate_node_data (d : NodeOperationData) : bool :=
  let some_address := given (no_node_ip d) || given (no_node_port d) || given (no_client_ip d) || given (no_client_port d) in
  let all_addresses := given (no_node_ip d) && given (no_node_port d) && given (no_client_ip d) && given (no_client_port d) in
  (some_address || given (no_services d) || given (no_blskey d) || given (no_blskey_pop d))
  && (negb some_address || all_addresses).

Definition GetValidatorInfoOperation : Members := [("type", VString GET_VALIDATOR_INFO)].

Inductive LedgerType := POOL | DOMAIN | CONFIG.
Definition to_id (t : LedgerType) : Z := match t with POOL => 0 | DOMAIN => 1 | CONFIG => 2 end%Z.
Definition GetTxnOperation (data ledger_id : Z) : Members :=
  [("type", VString GET_TXN); ("data", Number data); ("ledgerId", Number ledger_id)].

Definition PoolConfigOperation (writes force : bool) : Members :=
  [("type", VString POOL_CONFIG); ("writes", VBool writes); ("force", VBool force)].
Definition PoolRestartOperation (action : string) (datetime : option string) : Members :=
  [("type", VString POOL_RESTART); ("action", VString action)] ++ opt_member "datetime" VString datetime.
Record Upgrade := mkUpgrade {
  up_name : string; up_version : string; up_action : string; up_sha256 : string; up_timeout : option Z;
  up_schedule : option (list (string * string)); up_justification : option string; up_reinstall : bool;
  up_force : bool; up_package : option string
}.
Definition PoolUpgradeOperation (u : Upgrade) : Members :=
  [("type", VString POOL_UPGRADE); ("name", VString (up_name u)); ("version", VString (up_version u));
   ("action", VString (up_action u)); ("sha256", VString (up_sha256 u))]
  ++ opt_member "timeout" Number (up_timeout u) ++ opt_member "schedule" text_map (up_schedule u)
  ++ opt_member "justification" VString (up_justification u)
  ++ [("reinstall", VBool (up_reinstall u)); ("force", VBool (up_force u))]
  ++ opt_member "package" VString (up_package u).

(** [RevocationRegistryDefinitionV1]. *)
Inductive IssuanceType := ISSUANCE_BY_DEFAULT | ISSUANCE_ON_DEMAND.
Definition issuance_text (t : IssuanceType) : Value :=
  VString (match t with ISSUANCE_BY_DEFAULT => "ISSUANCE_BY_DEFAULT" | ISSUANCE_ON_DEMAND => "ISSUANCE_ON_DEMAND" end).
Record RevocationRegistryDefinitionV1 := mkRevRegDefV1 {
  rd_id : string; rd_tag : string; rd_cred_def_id : string; rd_issuance_type : IssuanceType; rd_max_cred_num : Z;
  rd_accum_key : Value; rd_tails_hash : string; rd_tails_location : string
}.
Definition CL_ACCUM : string := "CL_ACCUM".
Definition rev_reg_def_value (d : RevocationRegistryDefinitionV1) : Value :=
  Object [("issuanceType", issuance_text (rd_issuance_type d)); ("maxCredNum", Number (rd_max_cred_num d));
          ("publicKeys", Object [("accumKey", rd_accum_key d)]); ("tailsHash", VString (rd_tails_hash d));
          ("tailsLocation", VString (rd_tails_location d))].
Definition RevRegDefOperation (d : RevocationRegistryDefinitionV1) : Members :=
  [("type", VString REVOC_REG_DEF); ("id", VString (rd_id d)); ("revocDefType", VString CL_ACCUM);
   ("tag", VString (rd_tag d)); ("credDefId", VString (rd_cred_def_id d)); ("value", rev_reg_def_value d)].
Definition GetRevRegDefOperation (id_ : string) : Members := [("type", VString GET_REVOC_REG_DEF); ("id", VString id_)].
Definition RevRegEntryOperation (rev_def_type revoc_reg_def_id : string) (value : Value) : Members :=
  [("type", VString REVOC_REG_ENTRY); ("revocRegDefId", VString revoc_reg_def_id);
   ("revocDefType", VString rev_def_type); ("value", value)].
Definition GetRevRegOperation (revoc_reg_def_id : string) (timestamp : Z) : Members :=
  [("type", VString GET_REVOC_REG); ("revocRegDefId", VString revoc_reg_def_id); ("timestamp", Number timestamp)].
Definition GetRevRegDeltaOperation (revoc_reg_def_id : string) (from : option Z) (to : Z) : Members :=
  [("type", VString GET_REVOC_REG_DELTA); ("revocRegDefId", VString revoc_reg_def_id)]
  ++ opt_member "from" Number from ++ [("to", Number to)].

(** ** Rules of authorization *)
Inductive AuthAction := ADD | EDIT.
Definition action_text (a : AuthAction) : Value := VString (match a with ADD => "ADD" | EDIT => "EDIT" end).
Inductive Constraint :=
  | OrConstraint (auth_constraints : list Constraint)
  | AndConstraint (auth_constraints : list Constraint)
  | RoleConstraint (sig_count : Z) (role : option string) (metadata : option Value)
      (need_to_be_owner off_ledger_signature : bool)
  | ForbiddenConstraint.
Fixpoint constraint_to_json (c : Constraint) : Value :=
  match c with
  | OrConstraint l => Object [("constraint_id", VString "OR"); ("auth_constraints", Array (map constraint_to_json l))]
  | AndConstraint l => Object [("constraint_id", VString "AND"); ("auth_constraints", Array (map constraint_to_json l))]
  | RoleConstraint sig_count role metadata need_to_be_owner off_ledger_signature =>
      Object ([("constraint_id", VString "ROLE"); ("sig_count", Number sig_count); ("role", or_null VString role)]
              ++ opt_member "metadata" id metadata ++ [("need_to_be_owner", VBool need_to_be_owner)]
              ++ (if off_ledger_signature then [("off_ledger_signature", VBool true)] else []))
  | ForbiddenConstraint => Object [("constraint_id", VString "FORBIDDEN")]
  end.

(** The members of the structs for adding and editing a rule, without the constraint. *)
Definition rule_members (type_ auth_type field : string) (auth_action : AuthAction) (old_value new_value : option string)
    : Members :=
  [("type", VString type_); ("auth_type", VString auth_type); ("field", VString field);
   ("auth_action", action_text auth_action)] ++
  match auth_action with
  | ADD => [("new_value", or_null VString new_value)]
  | EDIT => [("old_value", or_null VString old_value); ("new_value", or_null VString new_value)]
  end.
Definition AuthRuleOperation (auth_type field : string) (auth_action : AuthAction) (old_value new_value : option string)
    (constraint : Constraint) : Members :=
  rule_members AUTH_RULE auth_type field auth_action old_value new_value ++ [("constraint", constraint_to_json constraint)].
Definition get_all : Members := [("type", VString GET_AUTH_RULE)].
Definition get_one (auth_type field : string) (auth_action : AuthAction) (old_value new_value : option string) : Members :=
  rule_members GET_AUTH_RULE auth_type field auth_action old_value new_value.
Record AuthRuleData := mkAuthRuleData {
  ar_action : AuthAction; ar_auth_type : string; ar_field : string; ar_old_value : option string;
  ar_new_value : option string; ar_constraint : Constraint
}.
Definition auth_rule_data_to_json (r : AuthRuleData) : Value :=
  Object ([("auth_action", action_text (ar_action r)); ("auth_type", VString (ar_auth_type r)); ("field", VString (ar_field r))]
          ++ match ar_action r with ADD => [] | EDIT => [("old_value", or_null VString (ar_old_value r))] end
          ++ [("new_value", or_null VString (ar_new_value r)); ("constraint", constraint_to_json (ar_constraint r))]).
Definition AuthRulesOperation (rules : list AuthRuleData) : Members :=
  [("type", VString AUTH_RULES); ("rules", Array (auth_rule_data_to_json <$> rules))].

(** ** The transaction author agreement, frozen ledgers *)
Definition TxnAuthorAgreementOperation (text : option string) (version : string) (ratification_ts retirement_ts : option Z) : Members :=
  [("type", VString TXN_AUTHR_AGRMT)] ++ opt_member "text" VString text ++ [("version", VString version)]
  ++ opt_member "ratification_ts" Number ratification_ts ++ opt_member "retirement_ts" Number retirement_ts.
Definition DisableAllTxnAuthorAgreementsOperation : Members := [("type", VString DISABLE_ALL_TXN_AUTHR_AGRMTS)].
Record GetTxnAuthorAgreementData := mkGetTaa { gt_digest : option string; gt_version : option string; gt_timestamp : option Z }.
Definition validate_get_taa (d : GetTxnAuthorAgreementData) : bool :=
  match gt_digest d, gt_version d, gt_timestamp d with
  | Some _, None, None | None, Some _, None | None, None, Some _ | None, None, None => true
  | _, _, _ => false
  end.
Definition GetTxnAuthorAgreementOperation (data : option GetTxnAuthorAgreementData) : Members :=
  [("type", VString GET_TXN_AUTHR_AGRMT)] ++ opt_member "digest" VString (data ≫= gt_digest)
  ++ opt_member "version" VString (data ≫= gt_version) ++ opt_member "timestamp" Number (data ≫= gt_timestamp).
Definition validate_aml (aml : list (string * Value)) : bool := negb (bool_decide (aml = [])).
Definition SetAcceptanceMechanismOperation (aml : list (string * Value)) (version : string) (aml_context : option string) : Members :=
  [("type", VString TXN_AUTHR_AGRMT_AML); ("aml", Object aml); ("version", VString version)]
  ++ opt_member "amlContext" VString aml_context.
Definition GetAcceptanceMechanismOperation (timestamp : option Z) (version : option string) : Members :=
  [("type", VString GET_TXN_AUTHR_AGRMT_AML)] ++ opt_member "timestamp" Number timestamp
  ++ opt_member "version" VString version.
Definition LedgersFreezeOperation (ledgers_ids : list Z) : Members :=
  [("type", VString LEDGERS_FREEZE); ("ledgers_ids", Array (Number <$> ledgers_ids))].
Definition GetFrozenLedgersOperation : Members := [("type", VString GET_FROZEN_LEDGERS)].

(** ** [request.rs] *)
Definition DEFAULT_LIBIDY_DID : string := "LibindyDid111111111111".
(** [get_req_id], in nanoseconds, as a [u64]. *)
Definition get_req_id (sec nsec : Z) : Z := ((sec * 10 ^ 9) mod 2 ^ 64 + nsec) mod 2 ^ 64.

Section Builders.
Context {C : Codec} (req_id protocol_version : Z).

Definition is_node_1_3 : bool := (protocol_version =? 1)%Z.

(** [Request::new] without the members that are skipped. *)
Definition request_members (identifier : string) (operation : Members) : Members :=
  [("reqId", Number req_id); ("identifier", VString identifier); ("operation", Object operation);
   ("protocolVersion", Number protocol_version)].
Definition submitter (identifier : option string) : string :=
  match identifier with Some identifier => to_unqualified identifier | None => DEFAULT_LIBIDY_DID end.
Definition build_request (identifier : option string) (operation : Members) : outcome string :=
  Ok (json_to_string (Object (request_members (submitter identifier) operation))).

(** ** [services/ledger/mod.rs] *)
Definition quoted (s : string) : string := String (Ascii.ascii_of_nat 34) s +:+ String (Ascii.ascii_of_nat 34) "".

Definition role_code (r : string) : outcome Value :=
  if String.eqb r ROLE_REMOVE then Ok Null
  else if String.eqb r "STEWARD" then Ok (VString STEWARD)
  else if String.eqb r "TRUSTEE" then Ok (VString TRUSTEE)
  else if String.eqb r "TRUST_ANCHOR" || String.eqb r "ENDORSER" then Ok (VString ENDORSER)
  else if String.eqb r "NETWORK_MONITOR" then Ok (VString NETWORK_MONITOR)
  else if bool_decide (r ∈ ROLES) then Ok (VString r)
  else Err (err_msg InvalidStructure ("Invalid role: " +:+ r)).
Definition build_nym_request (identifier dest : string) (verkey alias role : option string) : outcome string :=
  let? role := match role with Some r => let? c := role_code r in Ok (Some c) | None => Ok None end in
  build_request (Some identifier) (NymOperation (to_unqualified dest) verkey alias role).
Definition build_get_nym_request (identifier : option string) (dest : string) : outcome string :=
  build_request identifier (GetNymOperation (to_unqualified dest)).
Definition build_get_ddo_request (identifier : option string) (dest : string) : outcome string :=
  build_request identifier (GetDdoOperation (to_unqualified dest)).
Definition build_attrib_request (identifier dest : string) (hash : option string) (raw : option Value) (enc : option string) :
    outcome string :=
  build_request (Some identifier) (AttribOperation (to_unqualified dest) hash (json_to_string <$> raw) enc).
Definition build_get_attrib_request (identifier : option string) (dest : string) (raw hash enc : option string) : outcome string :=
  build_request identifier (GetAttribOperation (to_unqualified dest) raw hash enc).
Definition build_schema_request (identifier : string) (schema : SchemaV1) : outcome string :=
  build_request (Some identifier)
    (SchemaOperation (SchemaOperationData (sc_name schema) (sc_version schema) (sc_attr_names schema))).
Definition build_get_schema_request (identifier : option string) (id_ : string) : outcome string :=
  let id_ := schema_id_to_unqualified id_ in
  match schema_id_parts id_ with
  | Some (dest, name, version) =>
      build_request identifier (GetSchemaOperation (to_unqualified dest) (GetSchemaOperationData name version))
  | None => Err (err_msg InvalidStructure
                   ("Schema ID `" +:+ id_ +:+ "` cannot be used to build request: invalid number of parts"))
  end.
Definition build_cred_def_request (identifier : string) (cred_def : CredentialDefinitionV1) : outcome string :=
  let cred_def := mkCredDefV1 (cred_def_id_to_unqualified is_node_1_3 (cd_id cred_def)) (schema_id_to_unqualified (cd_schema_id cred_def))
                    (cd_tag cred_def) (cd_value cred_def) in
  build_request (Some identifier) (CredDefOperation is_node_1_3 cred_def).
Definition build_get_cred_def_request (identifier : option string) (id_ : string) : outcome string :=
  let id_ := cred_def_id_to_unqualified is_node_1_3 id_ in
  match cred_def_id_parts id_ with
  | Some (origin, signature_type, schema_id, tag) =>
      match parse_i32 schema_id with
      | Some ref_ => build_request identifier (GetCredDefOperation ref_ signature_type (to_unqualified origin) (Some tag))
      | None => Err (err_msg InvalidStructure ("Schema ID is invalid number in: " +:+ id_))
      end
  | None => Err (err_msg InvalidStructure
                   ("Credential Definition ID `" +:+ id_ +:+ "` cannot be used to build request: invalid number of parts"))
  end.
Definition build_node_request (identifier dest : string) (data : NodeOperationData) : outcome string :=
  build_request (Some identifier) (NodeOperation (to_unqualified dest) data).
Definition build_get_validator_info_request (identifier : string) : outcome string :=
  build_request (Some identifier) GetValidatorInfoOperation.

(** The name of an enum's variant as a JSON text. *)
Definition read_ledger_type (text : string) : option LedgerType :=
  match json_from_str text with
  | Some (VString s) =>
      if String.eqb s "POOL" then Some POOL else if String.eqb s "DOMAIN" then Some DOMAIN
      else if String.eqb s "CONFIG" then Some CONFIG else None
  | _ => None
  end.
Definition read_action (text : string) : option AuthAction :=
  match json_from_str text with
  | Some (VString s) => if String.eqb s "ADD" then Some ADD else if String.eqb s "EDIT" then Some EDIT else None
  | _ => None
  end.
Definition ledger_id_of (ledger_type : option string) : outcome Z :=
  match ledger_type with
  | Some type_ =>
      match read_ledger_type (quoted type_) with
      | Some t => Ok (to_id t)
      | None => match parse_i32 type_ with
                | Some n => Ok n
                | None => Err (err_msg InvalidStructure ("Invalid Ledger type: " +:+ type_))
                end
      end
  | None => Ok (to_id DOMAIN)
  end.
Definition build_get_txn_request (identifier : option string) (ledger_type : option string) (seq_no : Z) : outcome string :=
  let? ledger_id := ledger_id_of ledger_type in
  build_request identifier (GetTxnOperation seq_no ledger_id).
Definition build_pool_config (identifier : string) (writes force : bool) : outcome string :=
  build_request (Some identifier) (PoolConfigOperation writes force).
Definition build_pool_restart (identifier action : string) (datetime : option string) : outcome string :=
  build_request (Some identifier) (PoolRestartOperation action datetime).
Definition build_pool_upgrade (identifier : string) (u : Upgrade) : outcome string :=
  build_request (Some identifier) (PoolUpgradeOperation u).
Definition build_revoc_reg_def_request (identifier : string) (d : RevocationRegistryDefinitionV1) : outcome string :=
  build_request (Some identifier)
    (RevRegDefOperation
       (mkRevRegDefV1 (rev_reg_id_to_unqualified is_node_1_3 (rd_id d)) (rd_tag d) (cred_def_id_to_unqualified is_node_1_3 (rd_cred_def_id d))
          (rd_issuance_type d) (rd_max_cred_num d) (rd_accum_key d) (rd_tails_hash d) (rd_tails_location d))).
Definition build_get_revoc_reg_def_request (identifier : option string) (id_ : string) : outcome string :=
  build_request identifier (GetRevRegDefOperation (rev_reg_id_to_unqualified is_node_1_3 id_)).
Definition build_revoc_reg_entry_request (identifier revoc_reg_def_id revoc_def_type : string) (rev_reg_entry : Value) :
    outcome string :=
  build_request (Some identifier)
    (RevRegEntryOperation revoc_def_type (rev_reg_id_to_unqualified is_node_1_3 revoc_reg_def_id) rev_reg_entry).
Definition build_get_revoc_reg_request (identifier : option string) (revoc_reg_def_id : string) (timestamp : Z) : outcome string :=
  build_request identifier (GetRevRegOperation (rev_reg_id_to_unqualified is_node_1_3 revoc_reg_def_id) timestamp).
Definition build_get_revoc_reg_delta_request (identifier : option string) (revoc_reg_def_id : string) (from : option Z) (to : Z) :
    outcome string :=
  build_request identifier (GetRevRegDeltaOperation (rev_reg_id_to_unqualified is_node_1_3 revoc_reg_def_id) from to).

Definition auth_action_of (action : string) : outcome AuthAction :=
  match read_action (quoted action) with
  | Some a => Ok a
  | None => Err (err_msg InvalidStructure "Cannot parse auth action: ")
  end.
Definition build_auth_rule_request (submitter_did txn_type action field : string) (old_value new_value : option string)
    (constraint : Constraint) : outcome string :=
  let? txn_type := ok_or (txn_name_to_code txn_type)
                     (err_msg InvalidStructure ("Unsupported `txn_type`: " +:+ txn_type)) in
  let? action := auth_action_of action in
  build_request (Some submitter_did) (AuthRuleOperation txn_type field action old_value new_value constraint).
Definition build_ledgers_freeze_request (submitter_did : string) (ledgers_ids : list Z) : outcome string :=
  build_request (Some submitter_did) (LedgersFreezeOperation ledgers_ids).
Definition build_get_frozen_ledgers_request (submitter_did : string) : outcome string :=
  build_request (Some submitter_did) GetFrozenLedgersOperation.
Definition build_auth_rules_request (submitter_did : string) (rules : list AuthRuleData) : outcome string :=
  build_request (Some submitter_did) (AuthRulesOperation rules).
Definition build_get_auth_rule_request (submitter_did auth_type auth_action field old_value new_value : option string) :
    outcome string :=
  let? operation :=
    match auth_type, auth_action, field with
    | None, None, None => Ok get_all
    | Some auth_type, Some auth_action, Some field =>
        let? type_ := ok_or (txn_name_to_code auth_type)
                        (err_msg InvalidStructure ("Unsupported `auth_type`: " +:+ auth_type)) in
        let? action := auth_action_of auth_action in
        Ok (get_one type_ field action old_value new_value)
    | _, _, _ => Err (err_msg InvalidStructure
                        "Either none or all transaction related parameters must be specified.")
    end in
  build_request submitter_did operation.
Definition build_txn_author_agreement_request (identifier : string) (text : option string) (version : string)
    (ratification_ts retirement_ts : option Z) : outcome string :=
  build_request (Some identifier) (TxnAuthorAgreementOperation text version ratification_ts retirement_ts).
Definition build_disable_all_txn_author_agreements_request (identifier : string) : outcome string :=
  build_request (Some identifier) DisableAllTxnAuthorAgreementsOperation.
Definition build_get_txn_author_agreement_request (identifier : option string) (data : option GetTxnAuthorAgreementData) :
    outcome string :=
  build_request identifier (GetTxnAuthorAgreementOperation data).
Definition build_acceptance_mechanisms_request (identifier : string) (aml : list (string * Value)) (version : string)
    (aml_context : option string) : outcome string :=
  build_request (Some identifier) (SetAcceptanceMechanismOperation aml version aml_context).
Definition build_get_acceptance_mechanisms_request (identifier : option string) (timestamp : option Z) (version : option string) :
    outcome string :=
  if given timestamp && given version
  then Err (err_msg InvalidStructure "timestamp and version cannot be specified together.")
  else build_request identifier (GetAcceptanceMechanismOperation timestamp version).

(** ** The commands that build a request *)
Definition validate_opt_did (did : option string) : outcome unit :=
  match did with Some did => validate_did did | None => Ok () end.
(** A builder behind the check of a DID. *)
Definition checked (did : string) (request : outcome string) : outcome string := let? _ := validate_did did in request.
Definition checked_opt (did : option string) (request : outcome string) : outcome string :=
  let? _ := validate_opt_did did in request.

Definition nym_command (submitter_did target_did : string) (verkey alias role : option string) : outcome string :=
  let? _ := validate_did submitter_did in
  let? _ := validate_did target_did in
  let? _ := match verkey with Some vk => validate_key vk | None => Ok () end in
  build_nym_request submitter_did target_did verkey alias role.
Definition attrib_command (submitter_did target_did : string) (hash : option string) (raw : option Value) (enc : option string) :
    outcome string :=
  checked submitter_did (checked target_did (build_attrib_request submitter_did target_did hash raw enc)).
Definition get_attrib_command (submitter_did : option string) (target_did : string) (raw hash enc : option string) : outcome string :=
  checked_opt submitter_did (checked target_did (build_get_attrib_request submitter_did target_did raw hash enc)).
Definition get_nym_command (submitter_did : option string) (target_did : string) : outcome string :=
  checked_opt submitter_did (checked target_did (build_get_nym_request submitter_did target_did)).

(** The arguments of the commands. *)
Inductive BuildCommand :=
  | BuildNymRequest (submitter_did target_did : string) (verkey alias role : option string)
  | BuildAttribRequest (submitter_did target_did : string) (hash : option string) (raw : option Value) (enc : option string)
  | BuildGetAttribRequest (submitter_did : option string) (target_did : string) (raw hash enc : option string)
  | BuildGetNymRequest (submitter_did : option string) (target_did : string)
  | BuildGetDdoRequest (submitter_did : option string) (target_did : string)
  | BuildSchemaRequest (submitter_did : string) (schema : SchemaV1)
  | BuildGetSchemaRequest (submitter_did : option string) (id_ : string)
  | BuildCredDefRequest (submitter_did : string) (cred_def : CredentialDefinitionV1)
  | BuildGetCredDefRequest (submitter_did : option string) (id_ : string)
  | BuildNodeRequest (submitter_did target_did : string) (data : NodeOperationData)
  | BuildGetValidatorInfoRequest (submitter_did : string)
  | BuildGetTxnRequest (submitter_did ledger_type : option string) (seq_no : Z)
  | BuildPoolConfigRequest (submitter_did : string) (writes force : bool)
  | BuildPoolRestartRequest (submitter_did action : string) (datetime : option string)
  | BuildPoolUpgradeRequest (submitter_did : string) (u : Upgrade)
  | BuildRevocRegDefRequest (submitter_did : string) (d : RevocationRegistryDefinitionV1)
  | BuildGetRevocRegDefRequest (submitter_did : option string) (id_ : string)
  | BuildRevocRegEntryRequest (submitter_did revoc_reg_def_id rev_def_type : string) (value : Value)
  | BuildGetRevocRegRequest (submitter_did : option string) (revoc_reg_def_id : string) (timestamp : Z)
  | BuildGetRevocRegDeltaRequest (submitter_did : option string) (revoc_reg_def_id : string) (from : option Z) (to : Z)
  | BuildAuthRuleRequest (submitter_did txn_type action field : string) (old_value new_value : option string) (c : Constraint)
  | BuildAuthRulesRequest (submitter_did : string) (rules : list AuthRuleData)
  | BuildGetAuthRuleRequest (submitter_did auth_type auth_action field old_value new_value : option string)
  | BuildTxnAuthorAgreementRequest (submitter_did : string) (text : option string) (version : string) (rat ret_ : option Z)
  | BuildDisableAllTxnAuthorAgreementsRequest (submitter_did : string)
  | BuildGetTxnAuthorAgreementRequest (submitter_did : option string) (data : option GetTxnAuthorAgreementData)
  | BuildAcceptanceMechanismRequests (submitter_did : string) (aml : list (string * Value)) (version : string) (ctx : option string)
  | BuildGetAcceptanceMechanismsRequest (submitter_did : option string) (timestamp : option Z) (version : option string)
  | BuildLedgersFreezeRequest (submitter_did : string) (ledgers_ids : list Z)
  | BuildGetFrozenLedgersRequest (submitter_did : string).

Definition build (c : BuildCommand) : outcome string :=
  match c with
  | BuildNymRequest s d vk alias role => nym_command s d vk alias role
  | BuildAttribRequest s d hash raw enc => attrib_command s d hash raw enc
  | BuildGetAttribRequest s d raw hash enc => get_attrib_command s d raw hash enc
  | BuildGetNymRequest s d => get_nym_command s d
  | BuildGetDdoRequest s d => build_get_ddo_request s d
  | BuildSchemaRequest s schema => checked s (build_schema_request s schema)
  | BuildGetSchemaRequest s i => checked_opt s (build_get_schema_request s i)
  | BuildCredDefRequest s cred_def => checked s (build_cred_def_request s cred_def)
  | BuildGetCredDefRequest s i => checked_opt s (build_get_cred_def_request s i)
  | BuildNodeRequest s d data => checked s (build_node_request s d data)
  | BuildGetValidatorInfoRequest s => checked s (build_get_validator_info_request s)
  | BuildGetTxnRequest s ledger_type seq_no => checked_opt s (build_get_txn_request s ledger_type seq_no)
  | BuildPoolConfigRequest s writes force => checked s (build_pool_config s writes force)
  | BuildPoolRestartRequest s action datetime => checked s (build_pool_restart s action datetime)
  | BuildPoolUpgradeRequest s u => checked s (build_pool_upgrade s u)
  | BuildRevocRegDefRequest s d => checked s (build_revoc_reg_def_request s d)
  | BuildGetRevocRegDefRequest s i => checked_opt s (build_get_revoc_reg_def_request s i)
  | BuildRevocRegEntryRequest s i t v => checked s (build_revoc_reg_entry_request s i t v)
  | BuildGetRevocRegRequest s i timestamp => checked_opt s (build_get_revoc_reg_request s i timestamp)
  | BuildGetRevocRegDeltaRequest s i from to => checked_opt s (build_get_revoc_reg_delta_request s i from to)
  | BuildAuthRuleRequest s t a f old new c => checked s (build_auth_rule_request s t a f old new c)
  | BuildAuthRulesRequest s rules => checked_opt (Some s) (build_auth_rules_request s rules)
  | BuildGetAuthRuleRequest s t a f old new => checked_opt s (build_get_auth_rule_request s t a f old new)
  | BuildTxnAuthorAgreementRequest s text version rat ret_ =>
      checked s (build_txn_author_agreement_request s text version rat ret_)
  | BuildDisableAllTxnAuthorAgreementsRequest s => checked s (build_disable_all_txn_author_agreements_request s)
  | BuildGetTxnAuthorAgreementRequest s data => checked_opt s (build_get_txn_author_agreement_request s data)
  | BuildAcceptanceMechanismRequests s aml version ctx => checked s (build_acceptance_mechanisms_request s aml version ctx)
  | BuildGetAcceptanceMechanismsRequest s timestamp version =>
      checked_opt s (build_get_acceptance_mechanisms_request s timestamp version)
  | BuildLedgersFreezeRequest s ids => checked s (build_ledgers_freeze_request s ids)
  | BuildGetFrozenLedgersRequest s => checked s (build_get_frozen_ledgers_request s)
  end.
End Builders.

(** ** Adding to a request *)
Section Appending.
Context {C : Codec} (from_hex : string -> option bytes).

Definition SEC_IN_DAY : Z := 86400.
Definition datetime_to_date_timestamp (time : Z) : Z := (time / SEC_IN_DAY * SEC_IN_DAY)%Z.
Definition _calculate_hash (text version : string) : outcome bytes := openssl_hash (as_bytes (version +:+ text)).
Definition _compare_hash (text version hash : string) : outcome unit :=
  let? calculated_hash := _calculate_hash text version in
  let? passed_hash := ok_or (from_hex hash) (err_msg InvalidStructure "Cannot decode `hash`: ") in
  if bool_decide (calculated_hash = passed_hash) then Ok ()
  else Err (err_msg InvalidStructure
              "Calculated hash of concatenation `version` and `text` doesn't equal to passed `hash` value. ").

Record TxnAuthrAgrmtAcceptanceData := mkAcceptance { ac_mechanism : string; ac_taa_digest : string; ac_time : Z }.
Definition acceptance_to_json (a : TxnAuthrAgrmtAcceptanceData) : Value :=
  Object [("mechanism", VString (ac_mechanism a)); ("taaDigest", VString (ac_taa_digest a)); ("time", Number (ac_time a))].
Definition taa_digest_of (text version hash : option string) : outcome string :=
  match text, version, hash with
  | None, None, None =>
      Err (err_msg InvalidStructure
             "Invalid combination of params: Either combination `text` + `version` or `taa_digest` must be passed.")
  | None, None, Some hash => Ok hash
  | Some _, None, _ | None, Some _, _ =>
      Err (err_msg InvalidStructure
             "Invalid combination of params: `text` and `version` should be passed or skipped together.")
  | Some text, Some version, None => let? h := _calculate_hash text version in Ok (hex_encode h)
  | Some text, Some version, Some hash => let? _ := _compare_hash text version hash in Ok hash
  end.
Definition prepare_acceptance_data (text version hash : option string) (mechanism : string) (time : Z) :
    outcome TxnAuthrAgrmtAcceptanceData :=
  let? taa_digest := taa_digest_of text version hash in
  Ok (mkAcceptance mechanism taa_digest (datetime_to_date_timestamp time)).

Definition read_request_json (request_json : string) : outcome Value :=
  ok_or (json_from_str request_json) (err_msg InvalidStructure "Cannot deserialize request: ").
Definition append_txn_author_agreement_acceptance_to_request (request_json : string) (text version taa_digest : option string)
    (acc_mech_type : string) (time : Z) : outcome string :=
  let? request := read_request_json request_json in
  let? data := prepare_acceptance_data text version taa_digest acc_mech_type time in
  let? request := index_set request "taaAcceptance" (acceptance_to_json data) in
  Ok (json_to_string request).
Definition append_request_endorser (request_json endorser_did : string) : outcome string :=
  let? _ := validate_did endorser_did in
  let? request := read_request_json request_json in
  let? request := index_set request "endorser" (VString (to_unqualified endorser_did)) in
  Ok (json_to_string request).

(** ** The checks before a request is sent

    serde's reader of [Request<Value>], for requests given as objects. *)
Definition read_opt {A : Type} (f : Value -> option A) (v : Value) : option (option A) :=
  match v with Null => Some None | v => Some <$> f v end.
Definition read_signatures (v : Value) : option Members :=
  m ← as_object v;
  if forallb (fun kv => match kv.2 with VString _ => true | _ => false end) m then Some m else None.
Definition read_acceptance (v : Value) : option TxnAuthrAgrmtAcceptanceData :=
  m ← as_object v;
  mechanism ← map_get "mechanism" m ≫= as_str; taa_digest ← map_get "taaDigest" m ≫= as_str;
  time ← map_get "time" m ≫= as_u64; Some (mkAcceptance mechanism taa_digest time).
Record Request := mkRequest {
  rq_req_id : Z; rq_identifier : option string; rq_operation : Value; rq_protocol_version : option Z;
  rq_signature : option string; rq_signatures : option Members; rq_taa_acceptance : option TxnAuthrAgrmtAcceptanceData;
  rq_endorser : option string
}.
Definition read_request (v : Value) : option Request :=
  m ← as_object v;
  req_id ← map_get "reqId" m ≫= as_u64;
  identifier ← read_opt as_str (index v "identifier");
  operation ← map_get "operation" m;
  protocol_version ← read_opt as_u64 (index v "protocolVersion");
  signature ← read_opt as_str (index v "signature");
  signatures ← read_opt read_signatures (index v "signatures");
  taa_acceptance ← read_opt read_acceptance (index v "taaAcceptance");
  endorser ← read_opt as_str (index v "endorser");
  Some (mkRequest req_id identifier operation protocol_version signature signatures taa_acceptance endorser).

(** [submit_request] and [submit_action] up to the call of the pool. *)
Definition check_request (request_json : string) : outcome Request :=
  ok_or (v ← json_from_str request_json; read_request v) (err_msg InvalidStructure "Request is invalid json: ").
Definition validate_action (request_json : string) : outcome unit :=
  let? request := check_request request_json in
  match as_str (index (rq_operation request) "type") with
  | Some t =>
      if String.eqb t POOL_RESTART || String.eqb t GET_VALIDATOR_INFO then Ok ()
      else Err (err_msg InvalidStructure
                  "Request does not match any type of Actions: POOL_RESTART, GET_VALIDATOR_INFO")
  | None => Err (err_msg InvalidStructure "No valid type field in request")
  end.
End Appending.

(** ** Facts *)

(** The DID that submits a request and the code of its transaction. *)
Definition build_submitter (c : BuildCommand) : option string :=
  match c with
  | BuildNymRequest s _ _ _ _ | BuildAttribRequest s _ _ _ _ | BuildSchemaRequest s _ | BuildCredDefRequest s _
  | BuildNodeRequest s _ _ | BuildGetValidatorInfoRequest s | BuildPoolConfigRequest s _ _ | BuildPoolRestartRequest s _ _
  | BuildPoolUpgradeRequest s _ | BuildRevocRegDefRequest s _ | BuildRevocRegEntryRequest s _ _ _
  | BuildAuthRuleRequest s _ _ _ _ _ _ | BuildAuthRulesRequest s _ | BuildTxnAuthorAgreementRequest s _ _ _ _
  | BuildDisableAllTxnAuthorAgreementsRequest s | BuildAcceptanceMechanismRequests s _ _ _
  | BuildLedgersFreezeRequest s _ | BuildGetFrozenLedgersRequest s => Some s
  | BuildGetAttribRequest s _ _ _ _ | BuildGetNymRequest s _ | BuildGetDdoRequest s _ | BuildGetSchemaRequest s _
  | BuildGetCredDefRequest s _ | BuildGetTxnRequest s _ _ | BuildGetRevocRegDefRequest s _ | BuildGetRevocRegRequest s _ _
  | BuildGetRevocRegDeltaRequest s _ _ _ | BuildGetAuthRuleRequest s _ _ _ _ _ | BuildGetTxnAuthorAgreementRequest s _
  | BuildGetAcceptanceMechanismsRequest s _ _ => s
  end.
Definition build_code (c : BuildCommand) : string :=
  match c with
  | BuildNymRequest _ _ _ _ _ => NYM | BuildAttribRequest _ _ _ _ _ => ATTRIB | BuildGetAttribRequest _ _ _ _ _ => GET_ATTR
  | BuildGetNymRequest _ _ => GET_NYM | BuildGetDdoRequest _ _ => GET_DDO | BuildSchemaRequest _ _ => SCHEMA
  | BuildGetSchemaRequest _ _ => GET_SCHEMA | BuildCredDefRequest _ _ => CRED_DEF | BuildGetCredDefRequest _ _ => GET_CRED_DEF
  | BuildNodeRequest _ _ _ => NODE | BuildGetValidatorInfoRequest _ => GET_VALIDATOR_INFO | BuildGetTxnRequest _ _ _ => GET_TXN
  | BuildPoolConfigRequest _ _ _ => POOL_CONFIG | BuildPoolRestartRequest _ _ _ => POOL_RESTART
  | BuildPoolUpgradeRequest _ _ => POOL_UPGRADE | BuildRevocRegDefRequest _ _ => REVOC_REG_DEF
  | BuildGetRevocRegDefRequest _ _ => GET_REVOC_REG_DEF | BuildRevocRegEntryRequest _ _ _ _ => REVOC_REG_ENTRY
  | BuildGetRevocRegRequest _ _ _ => GET_REVOC_REG | BuildGetRevocRegDeltaRequest _ _ _ _ => GET_REVOC_REG_DELTA
  | BuildAuthRuleRequest _ _ _ _ _ _ _ => AUTH_RULE | BuildAuthRulesRequest _ _ => AUTH_RULES
  | BuildGetAuthRuleRequest _ _ _ _ _ _ => GET_AUTH_RULE | BuildTxnAuthorAgreementRequest _ _ _ _ _ => TXN_AUTHR_AGRMT
  | BuildDisableAllTxnAuthorAgreementsRequest _ => DISABLE_ALL_TXN_AUTHR_AGRMTS
  | BuildGetTxnAuthorAgreementRequest _ _ => GET_TXN_AUTHR_AGRMT
  | BuildAcceptanceMechanismRequests _ _ _ _ => TXN_AUTHR_AGRMT_AML
  | BuildGetAcceptanceMechanismsRequest _ _ _ => GET_TXN_AUTHR_AGRMT_AML
  | BuildLedgersFreezeRequest _ _ => LEDGERS_FREEZE | BuildGetFrozenLedgersRequest _ => GET_FROZEN_LEDGERS
  end.

(** The fields that are signed as hashes are texts. *)
Definition is_text (v : Value) : bool := match v with VString _ => true | _ => false end.
Fixpoint signable (t : option string) (v : Value) : bool :=
  match v with
  | Array l => forallb (signable t) l
  | Object m => forallb (fun kv => if is_hashed_field t kv.1 then is_text kv.2 else signable t kv.2) m
  | _ => true
  end.
Lemma signable_unhashed t v : t <> Some ATTRIB -> t <> Some GET_ATTR -> signable t v = true.
Proof.
  intros H1 H2. induction v as [|b|n|s|l IH|m IH] using Value_nested_ind; try done; cbn [signable].
  - induction IH as [|x l Hx _ IH]; [done|]. cbn. by rewrite Hx.
  - induction IH as [|[k x] m Hx _ IH]; [done|]. cbn [forallb fst snd] in *.
    assert (is_hashed_field t k = false) as -> by (unfold is_hashed_field; by rewrite !bool_decide_eq_false_2).
    by rewrite Hx.
Qed.

Section Serializable.
Context {C : Codec} (hash_total : forall bs, exists h, openssl_hash bs = Ok h).

Lemma serialize_ok t top v : signable t v = true -> exists s, _serialize_signature top t v = Ok s.
Proof using hash_total.
  revert top. induction v as [|b|n|s|l IH|m IH] using Value_nested_ind; intros top; try (by eexists); cbn [signable].
  - intros Hl. cbn [_serialize_signature]. match goal with |- exists s, obind ?r _ = _ => assert (Hr : exists res, r = Ok res) end.
    { induction IH as [|x l Hx _ IH]; [by eexists|]. cbn in Hl. apply andb_true_iff in Hl as [H1 H2].
      destruct (Hx false H1) as [a ->]. cbn. destruct (IH H2) as [res ->]. by eexists. }
    destruct Hr as [res ->]. by eexists.
  - cbn [_serialize_signature]. match goal with |- _ -> exists s, ?f _ _ _ = _ => set (fields := f) end.
    generalize false, "". subst fields. induction IH as [|[k x] m Hx _ IH]; intros in_middle result; [by eexists|].
    cbn [forallb fst snd]. intros [H1 H2]%andb_true_iff. destruct (top && is_signature_field k); [by apply IH|].
    assert (Hf : exists text, (if is_hashed_field t k then hash_field x else _serialize_signature false t x) = Ok text).
    { revert H1. destruct (is_hashed_field t k); intros H1; [|by apply Hx]. destruct x as [| | |s| |]; try done. unfold hash_field. cbn.
      destruct (hash_total (as_bytes s)) as [d ->]. by eexists. }
    destruct Hf as [text ->]. by apply IH.
Qed.
End Serializable.

Section Built.
Context {C : Codec} {JT : JsonText C} (req_id protocol_version : Z).

(** A request as it is read. *)
Definition read_members (identifier : string) (operation : Value) : Members :=
  [("identifier", VString identifier); ("operation", operation); ("protocolVersion", Number protocol_version);
   ("reqId", Number req_id)].
Lemma request_read identifier operation :
  json_from_str (json_to_string (Object (request_members req_id protocol_version identifier operation))) =
    Some (Object (read_members identifier (normal (Object operation)))).
Proof using JT. by rewrite json_text. Qed.

(** An operation of the right type that can be signed. *)
Definition good_operation (code : string) (operation : Value) : Prop :=
  index operation "type" = VString code /\ signable (Some code) operation = true.

Lemma checked_is did r : checked did r = r.
Proof using Type. done. Qed.
Lemma checked_opt_is did r : checked_opt did r = r.
Proof using Type. by destruct did. Qed.
Lemma unhashed_operation code operation :
  code <> ATTRIB -> code <> GET_ATTR -> index operation "type" = VString code -> good_operation code operation.
Proof using Type. intros H1 H2 Ht. split; [done|]. apply signable_unhashed; congruence. Qed.

(** The operation of a request that was built. *)
Definition builds (identifier : option string) (code : string) (r : outcome string) : Prop :=
  forall text, r = Ok text -> exists operation,
    text = json_to_string (Object (request_members req_id protocol_version (submitter identifier) operation)) /\
    good_operation code (normal (Object operation)).
Lemma builds_request identifier code operation :
  good_operation code (normal (Object operation)) ->
  builds identifier code (build_request req_id protocol_version identifier operation).
Proof using Type. intros Ho text [= <-]. by exists operation. Qed.
Lemma builds_bind {A : Type} identifier code (r : outcome A) (f : A -> outcome string) :
  (forall a, builds identifier code (f a)) -> builds identifier code (let? a := r in f a).
Proof using Type. intros Hf text. destruct r; [apply Hf|done..]. Qed.
Lemma builds_error identifier code e : builds identifier code (Err e).
Proof using Type. by intros text. Qed.

Ltac operation :=
  apply builds_request;
  repeat match goal with
         | |- context [opt_member _ _ ?o] => destruct o; cbn [opt_member app]
         | a : AuthAction |- _ => destruct a
         end; first [by apply unhashed_operation|split; reflexivity].

Lemma built_operation c : builds (build_submitter c) (build_code c) (build req_id protocol_version c).
Proof using Type.
  destruct c; cbn [build build_submitter build_code]; rewrite ?checked_is, ?checked_opt_is.
  - do 3 (apply builds_bind; intros _). apply builds_bind. intros code. unfold NymOperation. operation.
  - unfold attrib_command, build_attrib_request, AttribOperation. rewrite !checked_is. operation.
  - unfold get_attrib_command, build_get_attrib_request, GetAttribOperation. rewrite !checked_is, checked_opt_is. operation.
  - unfold get_nym_command. rewrite checked_is, checked_opt_is. operation.
  - operation.
  - operation.
  - unfold build_get_schema_request. destruct (schema_id_parts _) as [[[dest name] version]|]; [operation|apply builds_error].
  - unfold build_cred_def_request, CredDefOperation. operation.
  - unfold build_get_cred_def_request. destruct (cred_def_id_parts _) as [[[[origin st] si] tag]|]; [|apply builds_error].
    destruct (parse_i32 si); [operation|apply builds_error].
  - operation.
  - operation.
  - apply builds_bind. intros i. operation.
  - operation.
  - unfold build_pool_restart, PoolRestartOperation. operation.
  - unfold build_pool_upgrade, PoolUpgradeOperation. operation.
  - operation.
  - operation.
  - operation.
  - operation.
  - unfold build_get_revoc_reg_delta_request, GetRevRegDeltaOperation. operation.
  - do 2 (apply builds_bind; intros ?). operation.
  - operation.
  - unfold build_get_auth_rule_request. destruct auth_type, auth_action as [act|], field; try apply builds_error; [|operation].
    cbn [txn_name_to_code]. destruct (txn_name_to_code _); [|apply builds_error]. cbn [ok_or obind].
    destruct (auth_action_of act) as [a| |]; [|apply builds_error|by intros text]. unfold get_one. operation.
  - unfold build_txn_author_agreement_request, TxnAuthorAgreementOperation. operation.
  - operation.
  - unfold build_get_txn_author_agreement_request, GetTxnAuthorAgreementOperation. operation.
  - unfold build_acceptance_mechanisms_request, SetAcceptanceMechanismOperation. operation.
  - unfold build_get_acceptance_mechanisms_request, GetAcceptanceMechanismOperation.
    destruct (given timestamp && given version); [apply builds_error|operation].
  - operation.
  - operation.
Qed.

(** Every request is what it was built as.  A request that any of the builders returns is
    read by serde_json as an object with exactly four members: the id of the request, the
    protocol version, as identifier the short DID of the submitter, or the default DID of libindy
    when there is none, and an operation whose type is the code of the transaction. *)
Theorem built_request_reads c text :
  build req_id protocol_version c = Ok text ->
  exists operation,
    json_from_str text =
      Some (Object [("identifier", VString (submitter (build_submitter c))); ("operation", operation);
                    ("protocolVersion", Number protocol_version); ("reqId", Number req_id)]) /\
    index operation "type" = VString (build_code c).
Proof using JT.
  intros (op & -> & Ht & _)%built_operation. eexists. by rewrite request_read.
Qed.
End Built.

(** ** What the builders refuse *)
Section Refusals.
Context {C : Codec} (req_id protocol_version : Z).

Definition role_names : list string := ["STEWARD"; "TRUSTEE"; "TRUST_ANCHOR"; "ENDORSER"; "NETWORK_MONITOR"].
Lemma role_code_iff r : (exists v, role_code r = Ok v) <-> r = ROLE_REMOVE \/ r ∈ role_names \/ r ∈ ROLES.
Proof using Type.
  unfold role_code, role_names.
  destruct (String.eqb_spec r ROLE_REMOVE); [split; [by left|by eexists]|].
  destruct (String.eqb_spec r "STEWARD"); [split; [set_solver|by eexists]|].
  destruct (String.eqb_spec r "TRUSTEE"); [split; [set_solver|by eexists]|].
  destruct (String.eqb_spec r "TRUST_ANCHOR"); [split; [set_solver|by eexists]|].
  destruct (String.eqb_spec r "ENDORSER"); [split; [set_solver|by eexists]|]. cbn [orb].
  destruct (String.eqb_spec r "NETWORK_MONITOR"); [split; [set_solver|by eexists]|].
  case_bool_decide; split; try (by eexists); [set_solver|by intros [? [=]]|set_solver].
Qed.

(** A NYM request is refused exactly for a key that is no verification key and for a role that
    is neither a name nor a code of a role, nor empty, which removes the role. *)
Theorem build_nym_request_iff submitter_did target_did verkey alias role :
  (exists text, nym_command req_id protocol_version submitter_did target_did verkey alias role = Ok text) <->
  match verkey with Some vk => validate_key vk = Ok () | None => True end /\
  match role with Some r => r = ROLE_REMOVE \/ r ∈ role_names \/ r ∈ ROLES | None => True end.
Proof using Type.
  unfold nym_command, validate_did, build_nym_request. cbn [obind].
  assert (Hv : forall (r : outcome unit) (k : outcome string), (exists t, (let? _ := r in k) = Ok t) <-> r = Ok () /\ exists t, k = Ok t).
  { intros [[]| |] k; cbn [obind]; [tauto|split; [by intros [? [=]]|by intros [[=] _]]..]. }
  rewrite Hv. apply Morphisms_Prop.and_iff_morphism; [by destruct verkey|].
  destruct role as [r|]; [|split; [done|by eexists]]. rewrite <-role_code_iff.
  destruct (role_code r); cbn [obind]; [by split; eexists|split; by intros [? [=]]..].
Qed.

(** A request for a transaction is refused exactly when the ledger is neither named nor the text
    of a number of 32 bits; the domain ledger is meant when there is none. *)
Theorem build_get_txn_request_iff submitter_did ledger_type seq_no :
  (exists text, build req_id protocol_version (BuildGetTxnRequest submitter_did ledger_type seq_no) = Ok text) <->
  match ledger_type with
  | Some t => is_Some (read_ledger_type (quoted t)) \/ is_Some (parse_i32 t)
  | None => True
  end.
Proof using Type.
  cbn [build]. rewrite checked_opt_is. unfold build_get_txn_request, ledger_id_of. destruct ledger_type as [t|]; cbn [obind].
  - destruct (read_ledger_type _); cbn [obind]; [split; [eauto|by eexists]|].
    destruct (parse_i32 t); cbn [obind];
      [split; [eauto|by eexists]|split; [by intros [? [=]]|by intros [[? [=]]|[? [=]]]]].
  - split; [done|by eexists].
Qed.

(** Rules are asked for all together or one by one, then with a known action; any text is taken
    as the type of a transaction. *)
Theorem build_get_auth_rule_request_iff submitter_did auth_type auth_action field old_value new_value :
  (exists text, build req_id protocol_version
     (BuildGetAuthRuleRequest submitter_did auth_type auth_action field old_value new_value) = Ok text) <->
  (auth_type = None /\ auth_action = None /\ field = None) \/
  (is_Some auth_type /\ is_Some field /\ exists a, auth_action = Some a /\ is_Some (read_action (quoted a))).
Proof using Type.
  cbn [build]. rewrite checked_opt_is. unfold build_get_auth_rule_request.
  destruct auth_type as [t|], auth_action as [a|], field as [f|].
  2-7: split; [by intros [? [=]]|intros [(? & ? & ?)|([] & [] & ? & ? & ?)]; congruence].
  - assert (exists c, txn_name_to_code t = Some c) as [c ->].
    { unfold txn_name_to_code. repeat case_match; by eexists. }
    cbn [ok_or obind]. unfold auth_action_of. destruct (read_action (quoted a)) eqn:E; cbn [obind]; split.
    + intros _. right. split; [by eexists|]. split; [by eexists|]. exists a. by rewrite E.
    + by eexists.
    + by intros [? [=]].
    + intros [(? & ? & ?)|(_ & _ & ? & [= <-] & [? Hx])]; congruence.
  - split; [by left|by eexists].
Qed.

(** The codes of GET_DDO and AUTH_RULE are the same: the ledger cannot tell a query for a DID
    document from an attempt to change a rule by its type. *)
Theorem get_ddo_is_auth_rule s d t a f old new c s' :
  build_code (BuildGetDdoRequest s d) = build_code (BuildAuthRuleRequest s' t a f old new c).
Proof using Type. done. Qed.
End Refusals.

(** ** Acceptance of the transaction author agreement *)
Section Acceptance.
Context {C : Codec} (from_hex : string -> option bytes).

(** The time of an acceptance is the start of its day, so that it does not tell when a user
    acted, and lies less than a day before the time that was given. *)
Theorem acceptance_time time :
  (0 <= time < 2 ^ 64)%Z ->
  (0 <= datetime_to_date_timestamp time <= time)%Z /\ (time < datetime_to_date_timestamp time + 86400)%Z /\
  (datetime_to_date_timestamp time mod 86400 = 0)%Z.
Proof using Type.
  intros Ht. unfold datetime_to_date_timestamp, SEC_IN_DAY.
  pose proof (Z.div_mod time 86400 ltac:(lia)). pose proof (Z.mod_pos_bound time 86400 ltac:(lia)).
  split; [split; [|lia]|split; [lia|by apply Z_mod_mult]]. apply Z.mul_nonneg_nonneg; [apply Z.div_pos; lia|lia].
Qed.

(** What the digest of an acceptance is: the one that was given, which is then checked against
    the text and the version if these are given too, or the hash of version and text. *)
Theorem acceptance_digest text version hash mechanism time a :
  prepare_acceptance_data from_hex text version hash mechanism time = Ok a ->
  match text, version with
  | Some text, Some version =>
      exists h, openssl_hash (as_bytes (version +:+ text)) = Ok h /\
        match hash with
        | Some hash => from_hex hash = Some h /\ ac_taa_digest a = hash
        | None => ac_taa_digest a = hex_encode h
        end
  | None, None => hash = Some (ac_taa_digest a)
  | _, _ => False
  end.
Proof using Type.
  unfold prepare_acceptance_data, taa_digest_of, _compare_hash, _calculate_hash.
  destruct text as [text|], version as [version|]; [|done..|by destruct hash; [intros [= <-]|]].
  destruct hash as [hash|]; destruct (openssl_hash _) as [h| |]; try done; cbn [obind].
  - destruct (from_hex hash) as [p|]; [|done]. cbn [ok_or obind]. case_bool_decide; [|done].
    intros [= <-]. subst p. by exists h.
  - intros [= <-]. by exists h.
Qed.
End Acceptance.

(** ** The life of a request *)
Record AcceptanceArgs := mkAcceptanceArgs {
  aa_text : option string; aa_version : option string; aa_digest : option string; aa_mechanism : string; aa_time : Z
}.

Section Life.
Context {O : ObjectStore} {OL : ObjectLaws O} {C : Codec} {JT : JsonText C} {Ed : Ed25519} {EL : Ed25519Laws Ed}.
Context {U : UrlsafeCodec} {TL : TextLaws C U} {P : PackCodec} {D : DidCodec}.
Context (from_hex : string -> option bytes) (req_id protocol_version : Z).

Definition accept (a : AcceptanceArgs) : outcome TxnAuthrAgrmtAcceptanceData :=
  prepare_acceptance_data from_hex (aa_text a) (aa_version a) (aa_digest a) (aa_mechanism a) (aa_time a).
(** Building, naming an endorser, accepting the agreement, signing. *)
Definition make_request (h : Z) (c : BuildCommand) (endorser : option string) (acceptance : option AcceptanceArgs)
    (signers : list (SignatureType * string)) : SM store string :=
  let* request := sm_lift (build req_id protocol_version c) in
  let* request := sm_lift (match endorser with Some e => append_request_endorser request e | None => Ok request end) in
  let* request := sm_lift (match acceptance with
                           | Some a => append_txn_author_agreement_acceptance_to_request from_hex request
                                         (aa_text a) (aa_version a) (aa_digest a) (aa_mechanism a) (aa_time a)
                           | None => Ok request
                           end) in
  sign_all h signers request.

Definition added (k : string) (o : option Value) (m : Members) : Members :=
  match o with Some v => map_insert k v m | None => m end.
Definition request_object (c : BuildCommand) (operation : Value) (endorser : option string)
    (acceptance : option TxnAuthrAgrmtAcceptanceData) : Members :=
  added "taaAcceptance" (acceptance_to_json <$> acceptance)
    (added "endorser" ((fun e => VString (to_unqualified e)) <$> endorser)
       (read_members req_id protocol_version (submitter (build_submitter c)) operation)).

Lemma acceptance_wf a : value_wf (acceptance_to_json a).
Proof using Type. apply object_wf. split; repeat constructor. Qed.
Lemma added_wf k o m : (forall v, o = Some v -> value_wf v) -> value_wf (Object m) -> value_wf (Object (added k o m)).
Proof using Type. intros Ho Hm. destruct o; [by apply object_wf_insert; [apply Ho|]|done]. Qed.
Lemma endorsed_wf c operation endorser :
  value_wf operation ->
  value_wf (Object (added "endorser" ((fun e => VString (to_unqualified e)) <$> endorser)
    (read_members req_id protocol_version (submitter (build_submitter c)) operation))).
Proof using Type.
  intros Ho. apply added_wf; [by destruct endorser; intros ? [= <-]|].
  apply object_wf. split; by repeat constructor.
Qed.
Lemma request_object_wf c operation endorser acceptance :
  value_wf operation -> value_wf (Object (request_object c operation endorser acceptance)).
Proof using Type.
  intros Ho. apply added_wf; [|by apply endorsed_wf].
  destruct acceptance; [|done]. intros v [= <-]. apply acceptance_wf.
Qed.

(** What is added is in the object that is read. *)
Lemma made_request c text endorser acceptance data :
  build req_id protocol_version c = Ok text ->
  match acceptance, data with Some a, Some d => accept a = Ok d | None, None => True | _, _ => False end ->
  exists operation request, value_wf operation /\ good_operation (build_code c) operation /\
    (forall h signers s, make_request h c endorser acceptance signers s = sign_all h signers request s) /\
    json_from_str request = Some (Object (request_object c operation endorser data)).
Proof using JT.
  intros Hb Hd. pose proof Hb as Hb'. apply built_operation in Hb' as (op & Htext & Hop). exists (normal (Object op)).
  pose proof (normal_wf (Object op)) as Hwf.
  pose proof (request_read req_id protocol_version (submitter (build_submitter c)) op) as Hr0. rewrite <-Htext in Hr0.
  set (m0 := read_members _ _ _ _) in Hr0. set (m1 := added "endorser" ((fun e => VString (to_unqualified e)) <$> endorser) m0).
  assert (H1 : exists r1, match endorser with Some e => append_request_endorser text e | None => Ok text end = Ok r1 /\
    json_from_str r1 = Some (Object m1)).
  { destruct endorser as [e|]; [|by exists text]. unfold append_request_endorser, validate_did, read_request_json. cbn [obind].
    rewrite Hr0. cbn [ok_or obind index_set]. eexists. split; [reflexivity|]. apply json_back. by apply endorsed_wf with (endorser := Some e). }
  destruct H1 as (r1 & E1 & Hr1).
  assert (H2 : exists r2, match acceptance with
      | Some a => append_txn_author_agreement_acceptance_to_request from_hex r1 (aa_text a) (aa_version a) (aa_digest a)
                    (aa_mechanism a) (aa_time a)
      | None => Ok r1 end = Ok r2 /\ json_from_str r2 = Some (Object (request_object c (normal (Object op)) endorser data))).
  { destruct acceptance as [a|], data as [d|]; try done; [|by exists r1].
    unfold append_txn_author_agreement_acceptance_to_request, read_request_json. rewrite Hr1. cbn [ok_or obind].
    unfold accept in Hd. rewrite Hd. cbn [obind index_set]. eexists. split; [reflexivity|].
    apply json_back. by apply request_object_wf with (acceptance := Some d). }
  destruct H2 as (r2 & E2 & Hr2). exists r2. split; [done|]. split; [done|]. split; [|done].
  intros h signers s. unfold make_request. by rewrite (lift_ok _ _ _ _ Hb), (lift_ok _ _ _ _ E1), (lift_ok _ _ _ _ E2).
Qed.

Lemma not_hashed t k : String.eqb k "raw" || String.eqb k "hash" || String.eqb k "enc" = false -> is_hashed_field t k = false.
Proof using Type. unfold is_hashed_field. intros ->. apply andb_false_r. Qed.
Lemma signable_insert t k v m :
  is_hashed_field t k = false -> signable t v = true -> signable t (Object m) = true ->
  signable t (Object (map_insert k v m)) = true.
Proof using Type.
  intros Hk Hv. cbn [signable]. induction m as [|[k' v'] m IH]; cbn [map_insert forallb fst snd]; [by rewrite Hk, Hv|].
  intros [H1 H2]%andb_true_iff. destruct (String.compare k k'); cbn [forallb fst snd]; rewrite ?Hk, ?Hv, ?H1, ?H2; [done..|].
  by rewrite IH.
Qed.

Lemma request_object_text c operation endorser data :
  (forall bs, exists h, openssl_hash bs = Ok h) -> good_operation (build_code c) operation ->
  exists text, serialize_signature (Object (request_object c operation endorser data)) = Ok text.
Proof using Type.
  intros Hh [Ht Hs]. unfold serialize_signature.
  assert (as_str (index (index (Object (request_object c operation endorser data)) "operation") "type") = Some (build_code c)) as ->.
  { assert (index (Object (request_object c operation endorser data)) "operation" = operation) as -> by (by destruct endorser, data).
    by rewrite Ht. }
  apply serialize_ok; [done|]. set (t := Some (build_code c)) in *.
  assert (H0 : signable t (Object (read_members req_id protocol_version (submitter (build_submitter c)) operation)) = true).
  { cbn [signable read_members forallb fst snd]. by rewrite !not_hashed, Hs by done. }
  assert (Ha : forall a, signable t (acceptance_to_json a) = true).
  { intros a. cbn [signable acceptance_to_json forallb fst snd]. by rewrite !not_hashed by done. }
  destruct endorser, data; cbn [request_object added fmap option_fmap option_map];
    repeat (apply signable_insert; [by apply not_hashed|done|]); try done.
Qed.

(** A request that was signed passes the check before it is sent. *)
Lemma signed_request_read c operation endorser data ident text signers m' :
  (0 <= req_id < 2 ^ 64)%Z -> (0 <= protocol_version < 2 ^ 64)%Z ->
  match data with Some d => (0 <= ac_time d < 2 ^ 64)%Z | None => True end ->
  request_inv ident text signers m' -> unchanged (request_object c operation endorser data) m' ->
  exists signature signatures, read_request (Object m') =
    Some (mkRequest req_id (Some (submitter (build_submitter c))) operation (Some protocol_version) signature signatures
            data (to_unqualified <$> endorser)).
Proof using Type.
  intros Hr Hp Hd Hinv Hu. unfold read_request. cbn [as_object mbind option_bind].
  assert (Hu64 : forall n, (0 <= n < 2 ^ 64)%Z -> as_u64 (Number n) = Some n).
  { intros n Hn. cbn. by rewrite (proj2 (Z.leb_le _ _)), (proj2 (Z.ltb_lt _ _)) by lia. }
  assert (Hg : forall k, k <> "signature" -> k <> "signatures" ->
    map_get k m' = map_get k (request_object c operation endorser data)) by exact Hu.
  assert (Hi : forall k, k <> "signature" -> k <> "signatures" ->
    index (Object m') k = index (Object (request_object c operation endorser data)) k).
  { intros k H1 H2. cbn. by rewrite Hg. }
  rewrite (Hg "reqId"), (Hg "operation"), (Hi "identifier"), (Hi "protocolVersion"), (Hi "taaAcceptance"), (Hi "endorser") by done.
  assert (map_get "reqId" (request_object c operation endorser data) = Some (Number req_id)) as -> by (by destruct endorser, data).
  assert (map_get "operation" (request_object c operation endorser data) = Some operation) as -> by (by destruct endorser, data).
  assert (index (Object (request_object c operation endorser data)) "identifier" = VString (submitter (build_submitter c))) as ->
    by (by destruct endorser, data).
  assert (index (Object (request_object c operation endorser data)) "protocolVersion" = Number protocol_version) as ->
    by (by destruct endorser, data).
  assert (index (Object (request_object c operation endorser data)) "taaAcceptance" = or_null acceptance_to_json data) as ->
    by (by destruct endorser, data).
  assert (index (Object (request_object c operation endorser data)) "endorser" = or_null (fun e => VString (to_unqualified e)) endorser) as ->
    by (by destruct endorser, data).
  assert (exists signature, read_opt as_str (index (Object m') "signature") = Some signature) as [signature Hsig].
  { cbn [index]. destruct (map_get "signature" m') as [v|] eqn:E; [|by eexists].
    destruct (ri_single _ _ _ _ Hinv v E) as (? & ? & ? & sg & ? & _ & _ & -> & _). by eexists. }
  assert (exists signatures, read_opt read_signatures (index (Object m') "signatures") = Some signatures) as [signatures Hsigs].
  { cbn [index]. destruct (map_get "signatures" m') as [v|] eqn:E; [|by eexists].
    destruct (ri_multi _ _ _ _ Hinv v E) as (sigs & -> & Hall).
    pose proof (map_get_wf _ _ _ (ri_wf _ _ _ _ Hinv) E) as [Hs _]%object_wf. cbn [read_opt read_signatures as_object mbind option_bind].
    destruct (forallb _ sigs) eqn:F; [by eexists|]. exfalso. apply not_true_iff_false in F. apply F, forallb_forall.
    intros [k v] Hin. cbn.
    destruct (Hall k v) as (? & ? & ? & sg & ? & _ & _ & -> & _); [|done]. by apply sorted_map_get. }
  rewrite Hsig, Hsigs. exists signature, signatures. cbn [mbind option_bind read_opt as_str fmap option_fmap option_map].
  rewrite !Hu64 by done. cbn [mbind option_bind read_opt as_str fmap option_fmap option_map].
  assert (read_opt read_acceptance (or_null acceptance_to_json data) = Some data) as ->.
  { destruct data as [[mech dig time]|]; [|done]. cbn in Hd |- *. by rewrite (proj2 (Z.leb_le _ _)), (proj2 (Z.ltb_lt _ _)) by lia. }
  by destruct endorser.
Qed.

End Life.

(** ** What goes wrong *)

(** A request that is no object, and not null, makes the executor panic when an endorser or an
    acceptance is added. *)
Theorem append_to_array_panics {C : Codec} from_hex request_json l endorser text version digest mechanism time a :
  json_from_str request_json = Some (Array l) ->
  prepare_acceptance_data from_hex text version digest mechanism time = Ok a ->
  append_request_endorser request_json endorser = Panic /\
  append_txn_author_agreement_acceptance_to_request from_hex request_json text version digest mechanism time = Panic.
Proof.
  intros Hj Ha. unfold append_request_endorser, append_txn_author_agreement_acceptance_to_request, validate_did, read_request_json.
  cbn [obind]. rewrite Hj. cbn [ok_or obind]. by rewrite Ha.
Qed.
