(* ===== verification/CacheCommands.v ===== *)
(** * Cache commands

    [CacheCommandExecutor] of [libindy/src/commands/cache.rs]: schemas and credential definitions
    of the ledger are kept as records in a wallet, with the time they were stored as a tag, and
    served from there while they are fresh.  What is not there is asked from the ledger executor,
    whose answer comes back as a command.

    The clock is [None] before 1970; the code keeps its seconds as [i32].  Subtractions of [i32]
    that overflow panic in debug builds and wrap in release builds.

    Shown: what the ledger answered is stored and served exactly as long as the caller accepts
    its age, and asked for again after that ([cache_serves_fresh]).  Purging by age never works:
    its query compares the tag with a number, and queries compare with texts
    ([purge_by_age_fails]). *)

From stdpp Require Import base list strings numbers gmap pretty.
From Stdlib Require Import ZArith Lia.
From S2P Require Import Prelude Errors Json Wql WalletCrypto WalletQuery WalletStorage StorageType Wallet ExportImport WalletService WalletLife ObjectStore External RecordStore LedgerRequests.

Open Scope string_scope.

Definition CRED_DEF_CACHE : string := "cred_def_cache".
Definition SCHEMA_CACHE : string := "schema_cache".
Record PurgeOptions := mkPurgeOptions { max_age : option Z }.
Record GetCacheOptions := mkGetCacheOptions {
  no_cache : option bool; no_update : option bool; no_store : option bool; min_fresh : option Z
}.

(** ** Numbers as texts *)
Definition i32_to_string (n : Z) : string := if (n <? 0)%Z then String minus_sign (u64_to_string (- n)) else u64_to_string n.
Definition in_i32 (n : Z) : Prop := (- 2 ^ 31 <= n < 2 ^ 31)%Z.
Definition i32_sub (p : Profile) (a b : Z) : outcome Z :=
  let d := (a - b)%Z in
  if ((- 2 ^ 31 <=? d) && (d <? 2 ^ 31))%Z then Ok d else match p with Debug => Panic | Release => Ok (as_i32 d) end.

Lemma u64_digits n : (0 <= n < 2 ^ 64)%Z -> parse_digits 0 (u64_to_string n) = Some n /\ exists a s, u64_to_string n = String a s.
Proof.
  intros Hn. unfold u64_to_string, pretty, pretty_N. case_decide as E; [assert (n = 0)%Z as -> by lia; split; [done|by eexists _, _]|].
  pose proof (parse_digits_pretty_go (Z.to_N n) "" ltac:(lia)) as Hp. rewrite Z2N.id in Hp by lia. split; [exact Hp|].
  destruct (pretty_N_go (Z.to_N n) "") as [|a s]; [injection Hp; lia|by eexists _, _].
Qed.
Lemma parse_i32_to_string n : in_i32 n -> parse_i32 (i32_to_string n) = Some n.
Proof.
  intros Hn. unfold in_i32 in Hn. unfold parse_i32, i32_to_string.
  assert (Hr : ((- 2 ^ 31 <=? n) && (n <? 2 ^ 31))%Z = true) by (rewrite (proj2 (Z.leb_le _ _)), (proj2 (Z.ltb_lt _ _)) by lia; done).
  destruct (Z.ltb_spec n 0) as [Hneg|Hpos].
  - destruct (u64_digits (- n) ltac:(lia)) as [Hd (a & s & E)]. rewrite Ascii.eqb_refl. rewrite E in *. rewrite Hd. cbn [fmap option_fmap option_map mbind option_bind].
    rewrite Z.opp_involutive. by rewrite Hr.
  - pose proof (parse_u64_to_string n ltac:(lia)) as Hu. destruct (u64_digits n ltac:(lia)) as [Hd (a & s & E)]. rewrite E in *.
    destruct (Ascii.eqb_spec a minus_sign) as [->|_]; [discriminate Hd|]. rewrite Hu. cbn [mbind option_bind]. by rewrite Hr.
Qed.

(** ** The executor *)
Abbreviation Callback := nat (only parsing).
Inductive Which := Schemas | CredDefs.
Definition cache_of (c : Which) : string := match c with Schemas => SCHEMA_CACHE | CredDefs => CRED_DEF_CACHE end.
(** [LedgerCommand::GetSchema] or [GetCredDef], with what its closure captures. *)
Record LedgerCall := mkLedgerCall {
  lc_which : Which; lc_pool : Z; lc_submitter : string; lc_id : string;
  lc_wallet : Z; lc_options : GetCacheOptions; lc_cb_id : Z
}.

Section Executor.
Context {C : OptionsCodec} {R : RecordStore} (p : Profile).

Inductive CacheCommand :=
  | GetSchema (pool_handle wallet_handle : Z) (submitter_did id_ : string) (options : GetCacheOptions) (cb : Callback)
  | GetSchemaContinue (wallet_handle : Z) (ledger_response : outcome (string * string)) (options : GetCacheOptions) (cb_id : Z)
  | GetCredDef (pool_handle wallet_handle : Z) (submitter_did id_ : string) (options : GetCacheOptions) (cb : Callback)
  | GetCredDefContinue (wallet_handle : Z) (ledger_response : outcome (string * string)) (options : GetCacheOptions) (cb_id : Z)
  | PurgeSchemaCache (wallet_handle : Z) (options : PurgeOptions) (cb : Callback)
  | PurgeCredDefCache (wallet_handle : Z) (options : PurgeOptions) (cb : Callback).
(** The command that the closure of a call sends. *)
Definition continue_with (l : LedgerCall) (r : outcome (string * string)) : CacheCommand :=
  match lc_which l with
  | Schemas => GetSchemaContinue (lc_wallet l) r (lc_options l) (lc_cb_id l)
  | CredDefs => GetCredDefContinue (lc_wallet l) r (lc_options l) (lc_cb_id l)
  end.
Inductive Answer := AText (r : outcome string) | ADone (r : outcome unit).

Record Process := mkProcess {
  cached : rstore;
  ids : Z;
  pending_callbacks : gmap Z Callback;
  asked : list LedgerCall;
  answers : list (Callback * Answer)
}.
Definition set_cached x (st : Process) := mkProcess x (ids st) (pending_callbacks st) (asked st) (answers st).
Definition answer (cb : Callback) (a : Answer) (st : Process) : Process :=
  mkProcess (cached st) (ids st) (pending_callbacks st) (asked st) (answers st ++ [(cb, a)])%list.

(** [duration_since(UNIX_EPOCH)], in seconds. *)
Context (clock : option Z) (rnd : Randomness) (fuel : nat).

Definition get_seconds_since_epoch : outcome Z :=
  match clock with
  | Some secs => Ok (as_i32 secs)
  | None => Err (err_msg InvalidState "Cannot get time: ")
  end.
(** The text of the options, by what is read from it: value and tags. *)
Definition cache_record_options : string := write_record_options (mkRecordOptions false true true).
Definition get_record_from_cache (wallet_handle : Z) (id_ : string) (options : GetCacheOptions) (which_cache : string) :
    SM rstore (option WalletRecord) :=
  if negb (default false (no_cache options))
  then not_found_as None (let* record := rec_get wallet_handle which_cache id_ cache_record_options in sm_ret (Some record))
  else sm_ret None.

(** [check_cache!]: the answer of the cache, if it gives one. *)
Definition timestamp_of (record : WalletRecord) : Z :=
  default (-1)%Z (parse_i32 (default "-1" (default ∅ (wr_tags record) !! "timestamp"))).
Definition check_cache (cache : option WalletRecord) (options : GetCacheOptions) : outcome (option (outcome string)) :=
  match cache with
  | Some record =>
      let value := Ok (default "" (wr_value record)) in
      let min_fresh := default (-1)%Z (min_fresh options) in
      if (0 <=? min_fresh)%Z then
        match get_seconds_since_epoch with
        | Ok ts =>
            let? oldest := i32_sub p ts min_fresh in
            Ok (if (oldest <=? timestamp_of record)%Z then Some value else None)
        | Err err => Ok (Some (Err err))
        | Panic => Panic
        end
      else Ok (Some value)
  | None => Ok None
  end.

(** [get_schema] and [get_cred_def]: they differ in the cache and the request. *)
Definition get_cached (which : Which) (pool_handle wallet_handle : Z) (submitter_did id_ : string) (options : GetCacheOptions)
    (cb : Callback) (st : Process) : option Process :=
  match get_record_from_cache wallet_handle id_ options (cache_of which) (cached st) with
  | (_, Panic) => None
  | (s', Err err) => Some (answer cb (AText (Err err)) (set_cached s' st))
  | (s', Ok cache) =>
      let st := set_cached s' st in
      match check_cache cache options with
      | Ok (Some r) => Some (answer cb (AText r) st)
      | Ok None =>
          if default false (no_update options) then Some (answer cb (AText (Err (err_msg LedgerItemNotFound ""))) st)
          else
            let cb_id := as_i32 (ids st + 1) in
            Some (mkProcess (cached st) (ids st + 1) (<[cb_id := cb]> (pending_callbacks st))
                    (asked st ++ [mkLedgerCall which pool_handle submitter_did id_ wallet_handle options cb_id])%list (answers st))
      | Err _ | Panic => None
      end
  end.
Definition get_schema := get_cached Schemas.
Definition get_cred_def := get_cached CredDefs.

(** A clock before 1970 counts as 0 here.  The error of the deletion is ignored. *)
Definition stored_timestamp : Z := match clock with Some secs => as_i32 secs | None => 0%Z end.
Definition _delete_and_add_record (wallet_handle : Z) (options : GetCacheOptions) (id_ json which_cache : string) : SM rstore unit :=
  if negb (default false (no_store options)) then
    let* _ := fun s => match rec_op wallet_handle (WDelete which_cache id_) s with
                       | (s', Panic) => (s', Panic)
                       | (s', _) => (s', Ok ())
                       end in
    rec_op wallet_handle (WAdd rnd which_cache id_ json [("timestamp", i32_to_string stored_timestamp)])
  else sm_ret ().

(** [_get_schema_continue] and [_get_cred_def_continue]; [expect] panics without a callback. *)
Definition continue_cached (which : Which) (wallet_handle : Z) (ledger_response : outcome (string * string)) (options : GetCacheOptions)
    (cb_id : Z) (st : Process) : option Process :=
  cb ← pending_callbacks st !! cb_id;
  let st := mkProcess (cached st) (ids st) (base.delete cb_id (pending_callbacks st)) (asked st) (answers st) in
  match ledger_response with
  | Ok (id_, json) =>
      match _delete_and_add_record wallet_handle options id_ json (cache_of which) (cached st) with
      | (s', Ok _) => Some (answer cb (AText (Ok json)) (set_cached s' st))
      | (s', Err err) => Some (answer cb (AText (Err (err_msg InvalidState "continue failed: "))) (set_cached s' st))
      | (_, Panic) => None
      end
  | Err err => Some (answer cb (AText (Err err)) st)
  | Panic => None
  end.
Definition _get_schema_continue := continue_cached Schemas.
Definition _get_cred_def_continue := continue_cached CredDefs.

Definition build_query (max_age : Z) : outcome Value :=
  if (0 <=? max_age)%Z then
    let? ts := get_seconds_since_epoch in
    let? oldest := i32_sub p ts max_age in
    Ok (Object [("timestamp", Object [("$lt", Number oldest)])])
  else Ok (Object []).
Fixpoint purge_loop (wallet_handle : Z) (which_cache : string) (fuel : nat) : SM (rstore * rcursor) unit :=
  match fuel with
  | 0 => fun s => (s, Panic)
  | S fuel' =>
      let* record := rec_next in
      match record with
      | Some record =>
          let* _ := fun '(s, c) => let (s', r) := rec_op wallet_handle (WDelete which_cache (wr_id record)) s in ((s', c), r) in
          purge_loop wallet_handle which_cache fuel'
      | None => sm_ret ()
      end
  end.
(** The text of the options, by what is read from it: the records without type, value and tags. *)
Definition purge_options : string := write_search_options (mkSearchOptions true false false false false).
Definition purge_cache (which : Which) (wallet_handle : Z) (options : PurgeOptions) : SM rstore unit :=
  let* query := sm_lift (build_query (default (-1)%Z (max_age options))) in
  let* search := rec_search wallet_handle (cache_of which) query purge_options in
  fun s => let '((s', _), r) := purge_loop wallet_handle (cache_of which) fuel (s, search) in (s', r).
Definition purge_schema_cache := purge_cache Schemas.
Definition purge_cred_def_cache := purge_cache CredDefs.

Definition finish (cb : Callback) (m : SM rstore unit) (st : Process) : option Process :=
  match m (cached st) with
  | (_, Panic) => None
  | (s', r) => Some (answer cb (ADone r) (set_cached s' st))
  end.
Definition execute (command : CacheCommand) (st : Process) : option Process :=
  match command with
  | GetSchema pool h submitter id_ options cb => get_schema pool h submitter id_ options cb st
  | GetSchemaContinue h r options cb_id => _get_schema_continue h r options cb_id st
  | GetCredDef pool h submitter id_ options cb => get_cred_def pool h submitter id_ options cb st
  | GetCredDefContinue h r options cb_id => _get_cred_def_continue h r options cb_id st
  | PurgeSchemaCache h options cb => finish cb (purge_schema_cache h options) st
  | PurgeCredDefCache h options cb => finish cb (purge_cred_def_cache h options) st
  end.
End Executor.

Section Facts.
Context {C : OptionsCodec} {CL : OptionsCodecLaws C} {R : RecordStore} {RL : RecordLaws R} (p : Profile).

(** An item of the ledger in the cache, stored at this time. *)
Definition cached_at (w : PlainWallet) (which : Which) (id_ json : string) (time : Z) : Prop :=
  exists x, w !! (cache_of which, id_) = Some x /\ pr_value x = json /\ pr_tags x !! "timestamp" = Some (i32_to_string time).
(** Whether the caller takes an item of this age. *)
Definition fresh (options : GetCacheOptions) (stored now : Z) : bool :=
  match min_fresh options with
  | Some m => (m <? 0)%Z || (now - m <=? stored)%Z
  | None => true
  end.
Definition epoch_time (t : Z) : Prop := (0 <= t < 2 ^ 31)%Z.

Lemma as_i32_time t : epoch_time t -> as_i32 t = t.
Proof using Type. intros Ht. unfold epoch_time in Ht. unfold as_i32. rewrite Z.mod_small by lia. by rewrite (proj2 (Z.ltb_lt _ _)) by lia. Qed.
(** The text of three members is not that of none. *)
Context (Htext : cache_record_options <> "{}").
Lemma cache_options : options_of_get cache_record_options = Some (mkRecordOptions false true true).
Proof using CL Htext.
  unfold options_of_get. destruct (String.eqb_spec cache_record_options "{}"); [done|]. apply read_write_record_options.
Qed.

(** Storing replaces what is there. *)
Lemma stored_in_cache rnd t s h w options id_ json which :
  rholds s h w -> randomness_ok rnd -> rust_string id_ -> rust_string json -> rust_string (i32_to_string t) -> epoch_time t ->
  default false (no_store options) = false ->
  exists s' w', _delete_and_add_record (Some t) rnd h options id_ json (cache_of which) s = (s', Ok ()) /\ rholds s' h w' /\
    cached_at w' which id_ json t /\ forall k, k <> (cache_of which, id_) -> w' !! k = w !! k.
Proof using RL.
  intros Hs Hr Hi Hj Ht Hep Hno. unfold _delete_and_add_record. rewrite Hno. cbn [negb].
  assert (Htype : rust_string (cache_of which)) by (by destruct which).
  set (o := WAdd rnd (cache_of which) id_ json _).
  assert (Hdel : exists s1 w1 r, rec_op h (WDelete (cache_of which) id_) s = (s1, r) /\ r <> Panic /\ rholds s1 h w1 /\
    w1 = base.delete (cache_of which, id_) w).
  { destruct (ends_is _ _ _ (law_rec_op s h w (WDelete (cache_of which) id_) Hs (conj Htype Hi))) as (s1 & r & E & H).
    cbn [wallet_spec wallet_error] in H. destruct (w !! (cache_of which, id_)) eqn:El; cbn [fmap option_fmap option_map] in H.
    - destruct H as [-> H]. by eexists s1, _, _.
    - destruct H as [He H]. exists s1, w, r. split; [done|]. split; [by destruct He|]. split; [done|]. by rewrite delete_id. }
  destruct Hdel as (s1 & w1 & r1 & E1 & Hr1 & Hs1 & ->). unfold sm_bind. rewrite E1.
  assert (Hv : wallet_op_valid o).
  { split; [done|]. do 3 (split; [done|]). unfold stored_timestamp. rewrite (as_i32_time t Hep). split; [|by repeat constructor].
    apply NoDup_singleton. }
  destruct (ends_is _ _ _ (law_rec_op s1 h _ o Hs1 Hv)) as (s2 & r2 & E2 & H2). cbn [wallet_spec o] in H2. rewrite lookup_delete_eq in H2.
  destruct H2 as [-> H2]. exists s2. eexists. split; [destruct r1; done|]. split; [exact H2|]. split.
  - eexists. split; [apply lookup_insert_eq|]. cbn [pr_value pr_tags]. split; [done|]. unfold stored_timestamp. rewrite (as_i32_time t Hep). by rewrite list_to_map_cons, lookup_insert_eq.
  - intros k Hk. by rewrite lookup_insert_ne, lookup_delete_ne.
Qed.

(** What the cache answers for a record of this time. *)
Lemma check_cache_time t x options :
  epoch_time t -> in_i32 (default (-1)%Z (min_fresh options)) ->
  forall stored, default ∅ (wr_tags x) !! "timestamp" = Some (i32_to_string stored) -> epoch_time stored ->
  check_cache p (Some t) (Some x) options = Ok (if fresh options stored t then Some (Ok (default "" (wr_value x))) else None).
Proof using Type.
  intros Ht Hm stored Hts Hst. unfold check_cache, fresh, get_seconds_since_epoch, timestamp_of. rewrite Hts. cbn [from_option id].
  rewrite parse_i32_to_string by (unfold in_i32, epoch_time in *; lia). cbn [from_option id]. rewrite (as_i32_time t Ht).
  destruct (min_fresh options) as [m|]; cbn [from_option id] in *; [|done].
  destruct (Z.leb_spec 0 m) as [Hpos|Hneg].
  - rewrite (proj2 (Z.ltb_ge _ _) Hpos). cbn [orb]. unfold i32_sub. unfold in_i32, epoch_time in *.
    rewrite (proj2 (Z.leb_le _ _)), (proj2 (Z.ltb_lt _ _)) by lia. cbn [obind andb]. done.
  - by rewrite (proj2 (Z.ltb_lt _ _) Hneg).
Qed.

(** The commands for a schema or a credential definition. *)
Definition get_command (which : Which) := match which with Schemas => GetSchema | CredDefs => GetCredDef end.
Definition continue_command (which : Which) := match which with Schemas => GetSchemaContinue | CredDefs => GetCredDefContinue end.

(** The answer to a call when the item was stored at this time. *)
Definition served (which : Which) (pool h : Z) (submitter id_ json : string) (options : GetCacheOptions) (cb : Callback)
    (stored now : Z) (st st' : Process) : Prop :=
  if negb (default false (no_cache options)) && fresh options stored now
  then answers st' = (answers st ++ [(cb, AText (Ok json))])%list /\ asked st' = asked st
  else if default false (no_update options)
  then asked st' = asked st /\ exists e, err_kind e = LedgerItemNotFound /\ answers st' = (answers st ++ [(cb, AText (Err e))])%list
  else let i := as_i32 (ids st + 1) in
       answers st' = answers st /\ asked st' = (asked st ++ [mkLedgerCall which pool submitter id_ h options i])%list /\
       pending_callbacks st' !! i = Some cb.

Lemma cache_serves rnd fuel t h w which id_ json stored options pool submitter cb st :
  rholds (cached st) h w -> rust_string id_ -> cached_at w which id_ json stored -> epoch_time stored -> epoch_time t ->
  in_i32 (default (-1)%Z (min_fresh options)) ->
  exists st', execute p (Some t) rnd fuel (get_command which pool h submitter id_ options cb) st = Some st' /\
    rholds (cached st') h w /\ served which pool h submitter id_ json options cb stored t st st'.
Proof using RL CL Htext.
  intros Hs Hi (x & Hx & Hval & Hts) Hst Ht Hm.
  assert (He : execute p (Some t) rnd fuel (get_command which pool h submitter id_ options cb) st =
    get_cached p (Some t) which pool h submitter id_ options cb st) by (by destruct which).
  rewrite He. unfold get_cached, get_record_from_cache, served.
  destruct (default false (no_cache options)); cbn [negb andb].
  - cbn. destruct (default false (no_update options)); (eexists; split; [reflexivity|split; [done|]]).
    + split; [done|]. eexists. by split; [|reflexivity].
    + split_and!; [done..|]. apply lookup_insert_eq.
  - assert (Htype : rust_string (cache_of which)) by (by destruct which).
    destruct (ends_is _ _ _ (law_rec_get (cached st) h w (cache_of which) id_ cache_record_options _ Hs Htype Hi cache_options)) as (s1 & r & E & Hs1 & Hr).
    rewrite Hx in Hr. subst r. unfold not_found_as, sm_bind. rewrite E. cbn [sm_ret].
    rewrite (check_cache_time t (shown (mkRecordOptions false true true) (cache_of which, id_) x) options Ht Hm stored Hts Hst). cbn [shown wr_value retrieve_value from_option id]. rewrite Hval.
    destruct (fresh options stored t); [by eexists|].
    destruct (default false (no_update options)); (eexists; split; [reflexivity|split; [done|]]).
    + split; [done|]. eexists. by split; [|reflexivity].
    + split_and!; [done..|]. apply lookup_insert_eq.
Qed.

(** C35: The cache of schemas and of credential definitions.  When the ledger has answered a call,
    the item is stored, in place of an older one, and the call answered with it; a later call for
    it is answered from the wallet exactly when it allows the cache and takes an item of that
    age, and otherwise asks the ledger again, or fails when it forbids that. *)
Theorem cache_serves_fresh rnd fuel h w which id_ json options cb_id cb st t :
  rholds (cached st) h w -> pending_callbacks st !! cb_id = Some cb -> randomness_ok rnd -> rust_string id_ -> rust_string json ->
  rust_string (i32_to_string t) -> epoch_time t -> default false (no_store options) = false ->
  exists st1 w1, execute p (Some t) rnd fuel (continue_command which h (Ok (id_, json)) options cb_id) st = Some st1 /\
    answers st1 = (answers st ++ [(cb, AText (Ok json))])%list /\ pending_callbacks st1 = base.delete cb_id (pending_callbacks st) /\
    rholds (cached st1) h w1 /\ cached_at w1 which id_ json t /\ (forall k, k <> (cache_of which, id_) -> w1 !! k = w !! k) /\
    forall rnd' t' pool submitter options' cb', epoch_time t' -> in_i32 (default (-1)%Z (min_fresh options')) ->
      exists st2, execute p (Some t') rnd' fuel (get_command which pool h submitter id_ options' cb') st1 = Some st2 /\
        rholds (cached st2) h w1 /\ served which pool h submitter id_ json options' cb' t t' st1 st2.
Proof using RL CL Htext.
  intros Hs Hcb Hr Hi Hj Ht Hep Hno. destruct (stored_in_cache rnd t (cached st) h w options id_ json which) as (s1 & w1 & E & Hs1 & Hc & Hother); try done.
  assert (He : execute p (Some t) rnd fuel (continue_command which h (Ok (id_, json)) options cb_id) st =
    continue_cached (Some t) rnd which h (Ok (id_, json)) options cb_id st) by (by destruct which).
  rewrite He. unfold continue_cached. rewrite Hcb. cbn [mbind option_bind cached]. rewrite E. eexists _, w1. split; [reflexivity|].
  split_and!; [done..|]. intros rnd' t' pool submitter options' cb' Ht' Hm. by apply (cache_serves rnd' fuel t' h w1).
Qed.
End Facts.

(** ** Purging by age *)
Section Purge.
Context {S : Sodium} {C : OptionsCodec} {W : WalletStorage} {Wd : World W}.

(** On every wallet of the wallet service, purging the entries older than an age fails with the
    error of a query that cannot be read. *)
Theorem purge_by_age_fails p secs fuel which h age s ow :
  wallets s !! h = Some ow -> (0 <= age < 2 ^ 31)%Z -> epoch_time secs ->
  exists s', purge_cache (R := WalletRecords) p (Some secs) fuel which h (mkPurgeOptions (Some age)) s =
    (s', Err (query_error "$lt must be used with string")).
Proof using Type.
  intros Hw Hage Hs. unfold purge_cache. cbn [max_age from_option id]. unfold build_query, get_seconds_since_epoch.
  rewrite (proj2 (Z.leb_le _ _)) by lia. rewrite (as_i32_time secs Hs). cbn [obind]. unfold i32_sub. unfold epoch_time in Hs.
  rewrite (proj2 (Z.leb_le _ _)), (proj2 (Z.ltb_lt _ _)) by lia. cbn [andb obind]. unfold sm_bind, sm_lift.
  cbn [rec_search WalletRecords]. unfold search_records, gets, sm_bind. rewrite Hw. unfold in_world, on, wallet_search.
  assert (Hd : deserialize (Object [("timestamp", Object [("$lt", Number (secs - age))])]) = RErr "$lt must be used with string") by reflexivity.
  rewrite Hd. by eexists.
Qed.
End Purge.
