(* ===== verification/LedgerReplies.v ===== *)
(** * Replies of the ledger

    [domain/ledger/response.rs], the results of the read requests in [domain/ledger/*.rs] and the
    [parse_*_response] functions of [services/ledger/mod.rs].

    serde's readers are written out for structs given as objects; an untagged enum takes the
    first variant that reads.  Key material and accumulators of ursa are read by parameters, which
    give the value that is written for them again; sets of numbers and names are kept as the list
    that is iterated.

    Shown: exactly the replies of the right type with a readable result are taken
    ([parse_response_iff]); the schema that is read has the id that was
    asked for, qualified with the method of it ([schema_reply_names_request]).  A reply of the
    second version of the protocol to GET_NYM is read as "not found" ([nym_v1_not_found]) and a
    reply with an empty list of results makes the executor panic ([empty_reply_panics]). *)

From stdpp Require Import base list strings numbers pretty.
From Stdlib Require Import ZArith Lia.
From S2P Require Import Prelude Errors Json LedgerConstants Identifiers ExportImport Trie External JsonText CryptoService LedgerRequests.

Open Scope string_scope.

(** ** [response.rs] *)
Record Response := mkResponse { rs_req_id : Z; rs_reason : string }.
Inductive Reply (T : Type) :=
  | ReplyV0 (result : T)
  | ReplyV1 (results : list T).
Arguments ReplyV0 {T}. Arguments ReplyV1 {T}.
(** [reply.data.result.remove(0)] panics on an empty vector. *)
Definition reply_result {T : Type} (r : Reply T) : outcome T :=
  match r with
  | ReplyV0 result => Ok result
  | ReplyV1 (result :: _) => Ok result
  | ReplyV1 [] => Panic
  end.
Inductive Message (T : Type) :=
  | MReqNACK (r : Response)
  | MReply (r : Reply T)
  | MReject (r : Response).
Arguments MReqNACK {T}. Arguments MReply {T}. Arguments MReject {T}.
Record TxnMetadata := mkTxnMetadata { tm_seq_no : Z; tm_creation_time : Z }.
Record GetReplyResultV1 (T : Type) := mkResultV1 { v1_data : T; v1_metadata : TxnMetadata }.
Arguments mkResultV1 {T}. Arguments v1_data {T}. Arguments v1_metadata {T}.

(** A member that must be there, and one that may be missing or null. *)
Definition need {A : Type} (f : Value -> option A) (k : string) (v : Value) : option A :=
  m ← as_object v; x ← map_get k m; f x.
Definition may {A : Type} (f : Value -> option A) (k : string) (v : Value) : option (option A) :=
  m ← as_object v; match map_get k m with Some Null | None => Some None | Some x => Some <$> f x end.
Definition as_range (lo hi : Z) (v : Value) : option Z :=
  match v with Number n => if (lo <=? n)%Z && (n <? hi)%Z then Some n else None | _ => None end.
Definition read_u32 : Value -> option Z := as_range 0 (2 ^ 32).
Definition read_i32 : Value -> option Z := as_range (- 2 ^ 31) (2 ^ 31).
Definition as_texts (v : Value) : option (list string) := l ← as_array v; mapM as_str l.
(** Several readers, the first that succeeds. *)
Definition untagged {A : Type} (r1 r2 : option A) : option A := match r1 with Some a => Some a | None => r2 end.

Definition read_response (v : Value) : option Response :=
  req_id ← need as_u64 "reqId" v; reason ← need as_str "reason" v; Some (mkResponse req_id reason).
Definition read_reply {T : Type} (readT : Value -> option T) (v : Value) : option (Reply T) :=
  untagged (ReplyV0 <$> need readT "result" v)
    (data ← need Some "data" v; results ← need as_array "result" data; ReplyV1 <$> mapM (need readT "result") results).
Definition read_message {T : Type} (readT : Value -> option T) (v : Value) : option (Message T) :=
  op ← need as_str "op" v;
  if String.eqb op "REQNACK" then MReqNACK <$> read_response v
  else if String.eqb op "REPLY" then MReply <$> read_reply readT v
  else if String.eqb op "REJECT" then MReject <$> read_response v
  else None.
Definition read_metadata (v : Value) : option TxnMetadata :=
  seq_no ← need read_u32 "seqNo" v; creation_time ← need as_u64 "creationTime" v; Some (mkTxnMetadata seq_no creation_time).
Definition read_result_v1 {T : Type} (readT : Value -> option T) (v : Value) : option (GetReplyResultV1 T) :=
  txn ← need Some "txn" v; data ← need readT "data" txn; metadata ← need read_metadata "txnMetadata" v;
  Some (mkResultV1 data metadata).

(** ** The results of the requests *)
Record GetNymResultDataV0 := mkNymV0 { n0_dest : string; n0_role : option string; n0_verkey : option string }.
Definition read_nym_data_v0 (v : Value) : option GetNymResultDataV0 :=
  _ ← may as_str "identifier" v; dest ← need as_str "dest" v; role ← may as_str "role" v; verkey ← may as_str "verkey" v;
  Some (mkNymV0 dest role verkey).
Record GetNymResultDataV1 := mkNymV1 { n1_did : string; n1_verkey : option string; n1_role : option string }.
Definition read_nym_data_v1 (v : Value) : option GetNymResultDataV1 :=
  _ ← need as_str "ver" v; _ ← need as_str "id" v; did ← need as_str "did" v; verkey ← may as_str "verkey" v;
  role ← may as_str "role" v; Some (mkNymV1 did verkey role).
Inductive GetNymReplyResult :=
  | GetNymReplyResultV0 (data : option string)
  | GetNymReplyResultV1 (res : GetReplyResultV1 GetNymResultDataV1).
Definition read_nym_result (v : Value) : option GetNymReplyResult :=
  untagged (GetNymReplyResultV0 <$> may as_str "data" v) (GetNymReplyResultV1 <$> read_result_v1 read_nym_data_v1 v).

Record GetAttResultV0 := mkAttV0 { a0_data : string; a0_dest : string }.
Record GetAttResultDataV1 := mkAttV1 { a1_did : string; a1_raw : string }.
Inductive GetAttrReplyResult :=
  | GetAttrReplyResultV0 (res : GetAttResultV0)
  | GetAttrReplyResultV1 (res : GetReplyResultV1 GetAttResultDataV1).
Definition read_attr_v0 (v : Value) : option GetAttResultV0 :=
  _ ← need as_str "identifier" v; data ← need as_str "data" v; dest ← need as_str "dest" v; _ ← need as_str "raw" v;
  Some (mkAttV0 data dest).
Definition read_attr_data_v1 (v : Value) : option GetAttResultDataV1 :=
  _ ← need as_str "ver" v; _ ← need as_str "id" v; did ← need as_str "did" v; raw ← need as_str "raw" v;
  Some (mkAttV1 did raw).
Definition read_attr_result (v : Value) : option GetAttrReplyResult :=
  untagged (GetAttrReplyResultV0 <$> read_attr_v0 v) (GetAttrReplyResultV1 <$> read_result_v1 read_attr_data_v1 v).

(** [Endpoint] and [AttribData] of [attrib.rs]. *)
Record Endpoint := mkEndpoint { ep_ha : string; ep_verkey : option string }.
Definition read_endpoint (v : Value) : option Endpoint :=
  ha ← need as_str "ha" v; verkey ← may as_str "verkey" v; Some (mkEndpoint ha verkey).
Definition read_attrib_data (v : Value) : option Endpoint := need read_endpoint "endpoint" v.

Section Foreign.
(** Sets in the order of their iteration; what is read of ursa's values. *)
Context (hash_set : list string -> list string) (number_set : list Z -> list Z).
Context (read_keys read_accum_key read_accum : Value -> option Value).
(** [CryproRevocationRegistryDelta::from_parts], as it is written. *)
Context (delta_from_parts : option Value -> Value -> list Z -> list Z -> Value).

Record GetSchemaResult := mkSchemaResult {
  sr_name : string; sr_version : string; sr_attr_names : list string
}.
Inductive GetSchemaReplyResult :=
  | GetSchemaReplyResultV0 (seq_no : Z) (data : GetSchemaResult) (dest : string)
  | GetSchemaReplyResultV1 (id_ : string) (data : GetSchemaResult) (seq_no : Z).
Definition read_schema_data (v : Value) : option GetSchemaResult :=
  name ← need as_str "name" v; version ← need as_str "version" v; attr_names ← need as_texts "attr_names" v;
  Some (mkSchemaResult name version (hash_set attr_names)).
Definition read_schema_v0 (v : Value) : option GetSchemaReplyResult :=
  seq_no ← need read_u32 "seqNo" v; data ← need read_schema_data "data" v; dest ← need as_str "dest" v;
  Some (GetSchemaReplyResultV0 seq_no data dest).
Definition read_schema_data_v1 (v : Value) : option (string * GetSchemaResult) :=
  _ ← need as_str "ver" v; id_ ← need as_str "id" v; name ← need as_str "schemaName" v;
  version ← need as_str "schemaVersion" v; value ← need Some "value" v; attr_names ← need as_texts "attrNames" value;
  Some (id_, mkSchemaResult name version (hash_set attr_names)).
Definition read_schema_result (v : Value) : option GetSchemaReplyResult :=
  untagged (read_schema_v0 v)
    ((fun r => GetSchemaReplyResultV1 (v1_data r).1 (v1_data r).2 (tm_seq_no (v1_metadata r))) <$>
       read_result_v1 read_schema_data_v1 v).

(** The only signature type. *)
Definition read_signature_type (v : Value) : option unit :=
  s ← as_str v; if String.eqb s CL_SIGNATURE_TYPE then Some () else None.
Inductive GetCredDefReplyResult :=
  | GetCredDefReplyResultV0 (ref_ : Z) (origin : string) (tag : option string) (data : Value)
  | GetCredDefReplyResultV1 (id_ : string) (tag : string) (schema_ref : string) (public_keys : Value).
Definition read_cred_def_v0 (v : Value) : option GetCredDefReplyResult :=
  _ ← need as_str "identifier" v; ref_ ← need as_u64 "ref" v; _ ← need read_i32 "seqNo" v;
  _ ← need read_signature_type "signature_type" v; origin ← need as_str "origin" v; tag ← may as_str "tag" v;
  data ← need read_keys "data" v; Some (GetCredDefReplyResultV0 ref_ origin tag data).
Definition read_cred_def_data_v1 (v : Value) : option (string * string * string * Value) :=
  _ ← need as_str "ver" v; id_ ← need as_str "id" v; _ ← need read_signature_type "type" v; tag ← need as_str "tag" v;
  schema_ref ← need as_str "schemaRef" v; public_keys ← need read_keys "publicKeys" v;
  Some (id_, tag, schema_ref, public_keys).
Definition read_cred_def_result (v : Value) : option GetCredDefReplyResult :=
  untagged (read_cred_def_v0 v)
    ((fun r => let '(id_, tag, schema_ref, keys) := v1_data r in GetCredDefReplyResultV1 id_ tag schema_ref keys) <$>
       read_result_v1 read_cred_def_data_v1 v).

Definition read_issuance_type (v : Value) : option IssuanceType :=
  s ← as_str v;
  if String.eqb s "ISSUANCE_BY_DEFAULT" then Some ISSUANCE_BY_DEFAULT
  else if String.eqb s "ISSUANCE_ON_DEMAND" then Some ISSUANCE_ON_DEMAND else None.
Definition read_registry_type (v : Value) : option unit := s ← as_str v; if String.eqb s CL_ACCUM then Some () else None.
Definition read_rev_reg_def (v : Value) : option RevocationRegistryDefinitionV1 :=
  id_ ← need as_str "id" v; _ ← need read_registry_type "revocDefType" v; tag ← need as_str "tag" v;
  cred_def_id ← need as_str "credDefId" v; value ← need Some "value" v;
  issuance_type ← need read_issuance_type "issuanceType" value; max_cred_num ← need read_u32 "maxCredNum" value;
  public_keys ← need Some "publicKeys" value; accum_key ← need read_accum_key "accumKey" public_keys;
  tails_hash ← need as_str "tailsHash" value; tails_location ← need as_str "tailsLocation" value;
  Some (mkRevRegDefV1 id_ tag cred_def_id issuance_type max_cred_num accum_key tails_hash tails_location).
Definition read_rev_reg_def_result (v : Value) : option RevocationRegistryDefinitionV1 :=
  untagged (_ ← need read_i32 "seqNo" v; need read_rev_reg_def "data" v) (v1_data <$> read_result_v1 read_rev_reg_def v).

(** The registry, its accumulator and the time of the transaction. *)
Definition read_rev_reg (v : Value) : option Value := need read_accum "value" v.
Definition read_rev_reg_v0 (v : Value) : option (string * Value * Z) :=
  _ ← need read_i32 "seqNo" v; id_ ← need as_str "revocRegDefId" v; data ← need read_rev_reg "data" v;
  txn_time ← need as_u64 "txnTime" v; Some (id_, data, txn_time).
Definition read_rev_reg_data_v1 (v : Value) : option (string * Value) :=
  id_ ← need as_str "revocRegDefId" v; value ← need read_rev_reg "value" v; Some (id_, value).
Definition read_rev_reg_result (v : Value) : option (string * Value * Z) :=
  untagged (read_rev_reg_v0 v)
    ((fun r => (v1_data r, tm_creation_time (v1_metadata r))) <$> read_result_v1 read_rev_reg_data_v1 v).

Record AccumulatorState := mkAccumulator { as_value : Value; as_txn_time : Z }.
Record RevocationRegistryDeltaValue := mkDeltaValue {
  dv_accum_from : option AccumulatorState; dv_accum_to : AccumulatorState; dv_issued : list Z; dv_revoked : list Z
}.
Definition read_accumulator (v : Value) : option AccumulatorState :=
  value ← need read_accum "value" v; txn_time ← need as_u64 "txnTime" v; Some (mkAccumulator value txn_time).
Definition as_numbers (v : Value) : option (list Z) := l ← as_array v; number_set <$> mapM read_u32 l.
Definition read_delta (v : Value) : option RevocationRegistryDeltaValue :=
  value ← need Some "value" v;
  accum_from ← may read_accumulator "accum_from" value; accum_to ← need read_accumulator "accum_to" value;
  issued ← need as_numbers "issued" value; revoked ← need as_numbers "revoked" value;
  Some (mkDeltaValue accum_from accum_to issued revoked).
Definition read_delta_v0 (v : Value) : option (string * RevocationRegistryDeltaValue) :=
  _ ← need read_i32 "seqNo" v; id_ ← need as_str "revocRegDefId" v; data ← need read_delta "data" v; Some (id_, data).
Definition read_delta_data_v1 (v : Value) : option (string * RevocationRegistryDeltaValue) :=
  id_ ← need as_str "revocRegDefId" v; value ← need read_delta "value" v; Some (id_, value).
Definition read_delta_result (v : Value) : option (string * RevocationRegistryDeltaValue) :=
  untagged (read_delta_v0 v) (v1_data <$> read_result_v1 read_delta_data_v1 v).

(** ** [services/ledger/mod.rs] *)
Section Parsing.
Context {C : Codec} (node_1_3 : bool).

Definition parse_response {T : Type} (get_type : string) (readT : Value -> option T) (response : string) : outcome (Reply T) :=
  let? message := ok_or (json_from_str response) (err_msg InvalidTransaction "Response is invalid json") in
  if bool_decide (index message "op" = VString "REPLY") &&
     negb (bool_decide (index (index message "result") "type" = VString get_type))
  then Err (err_msg InvalidTransaction "Invalid response type")
  else
    let? message := ok_or (read_message readT message)
                      (err_msg LedgerItemNotFound "Structure doesn't correspond to type. Most probably not found") in
    match message with
    | MReject response | MReqNACK response =>
        Err (err_msg InvalidTransaction ("Transaction has been failed: " +:+ rs_reason response))
    | MReply reply => Ok reply
    end.

Definition nym_data_to_json (did : string) (verkey role : option string) : Value :=
  Object [("did", VString did); ("verkey", or_null VString verkey); ("role", or_null VString role)].
Definition parse_get_nym_response (get_nym_response : string) : outcome string :=
  let? reply := parse_response GET_NYM read_nym_result get_nym_response in
  let? result := reply_result reply in
  match result with
  | GetNymReplyResultV0 data =>
      let? data := ok_or data (err_msg LedgerItemNotFound "Nym not found") in
      let? data := ok_or (v ← json_from_str data; read_nym_data_v0 v) (err_msg InvalidState "Cannot parse GET_NYM response: ") in
      Ok (json_to_string (nym_data_to_json (n0_dest data) (n0_verkey data) (n0_role data)))
  | GetNymReplyResultV1 res =>
      let d := v1_data res in Ok (json_to_string (nym_data_to_json (n1_did d) (n1_verkey d) (n1_role d)))
  end.

Definition schema_to_json (s : SchemaV1) : Value :=
  Object [("ver", VString "1.0"); ("id", VString (sc_id s)); ("name", VString (sc_name s)); ("version", VString (sc_version s));
          ("attrNames", texts (sc_attr_names s)); ("seqNo", or_null Number (sc_seq_no s))].
Definition schema_of_result (r : GetSchemaReplyResult) (method_name : option string) : SchemaV1 :=
  match r with
  | GetSchemaReplyResultV0 seq_no data dest =>
      mkSchemaV1 (schema_id_new (did_value_new dest method_name) (sr_name data) (sr_version data))
        (sr_name data) (sr_version data) (sr_attr_names data) (Some seq_no)
  | GetSchemaReplyResultV1 id_ data seq_no =>
      mkSchemaV1 (match method_name with Some m => schema_id_qualify id_ m | None => id_ end)
        (sr_name data) (sr_version data) (sr_attr_names data) (Some seq_no)
  end.
Definition parse_get_schema_response (get_schema_response : string) (method_name : option string) : outcome (string * string) :=
  let? reply := parse_response GET_SCHEMA read_schema_result get_schema_response in
  let? result := reply_result reply in
  let schema := schema_of_result result method_name in
  Ok (sc_id schema, json_to_string (schema_to_json schema)).

Definition cred_def_to_json (c : CredentialDefinitionV1) : Value :=
  Object [("ver", VString "1.0"); ("id", VString (cd_id c)); ("schemaId", VString (cd_schema_id c));
          ("type", VString CL_SIGNATURE_TYPE); ("tag", VString (cd_tag c)); ("value", cd_value c)].
Definition cred_def_of_result (r : GetCredDefReplyResult) (method_name : option string) : CredentialDefinitionV1 :=
  match r with
  | GetCredDefReplyResultV0 ref_ origin tag data =>
      let schema_id := u64_to_string ref_ in
      let tag := default "" tag in
      mkCredDefV1 (cred_def_id_new node_1_3 (did_value_new origin method_name) schema_id CL_SIGNATURE_TYPE tag) schema_id tag data
  | GetCredDefReplyResultV1 id_ tag schema_ref public_keys =>
      mkCredDefV1 (match method_name with Some m => cred_def_id_qualify node_1_3 id_ m | None => id_ end)
        schema_ref tag public_keys
  end.
Definition parse_get_cred_def_response (get_cred_def_response : string) (method_name : option string) : outcome (string * string) :=
  let? reply := parse_response GET_CRED_DEF read_cred_def_result get_cred_def_response in
  let? result := reply_result reply in
  let cred_def := cred_def_of_result result method_name in
  Ok (cd_id cred_def, json_to_string (cred_def_to_json cred_def)).

Definition rev_reg_def_to_json (d : RevocationRegistryDefinitionV1) : Value :=
  Object [("ver", VString "1.0"); ("id", VString (rd_id d)); ("revocDefType", VString CL_ACCUM); ("tag", VString (rd_tag d));
          ("credDefId", VString (rd_cred_def_id d)); ("value", rev_reg_def_value d)].
Definition parse_get_revoc_reg_def_response (response : string) : outcome (string * string) :=
  let? reply := parse_response GET_REVOC_REG_DEF read_rev_reg_def_result response in
  let? revoc_reg_def := reply_result reply in
  Ok (rd_id revoc_reg_def, json_to_string (rev_reg_def_to_json revoc_reg_def)).

Definition versioned (value : Value) : Value := Object [("ver", VString "1.0"); ("value", value)].
Definition parse_get_revoc_reg_response (response : string) : outcome (string * string * Z) :=
  let? reply := parse_response GET_REVOC_REG read_rev_reg_result response in
  let? (revoc_reg_def_id, revoc_reg, txn_time) := reply_result reply in
  Ok (revoc_reg_def_id, json_to_string (versioned revoc_reg), txn_time).
Definition parse_get_revoc_reg_delta_response (response : string) : outcome (string * string * Z) :=
  let? reply := parse_response GET_REVOC_REG_DELTA read_delta_result response in
  let? (revoc_reg_def_id, d) := reply_result reply in
  Ok (revoc_reg_def_id,
      json_to_string (versioned (delta_from_parts (as_value <$> dv_accum_from d) (as_value (dv_accum_to d)) (dv_issued d) (dv_revoked d))),
      as_txn_time (dv_accum_to d)).

(** [_get_schema_continue] and [_get_cred_def_continue] of [commands/ledger.rs]: the method of
    the identifier that was asked for qualifies the answer. *)
Definition _get_schema_continue (id_ : string) (pool_response : outcome string) : outcome (string * string) :=
  let? pool_response := pool_response in parse_get_schema_response pool_response (method id_).
Definition _get_cred_def_continue (id_ : string) (pool_response : outcome string) : outcome (string * string) :=
  let? pool_response := pool_response in parse_get_cred_def_response pool_response (method id_).
End Parsing.
End Foreign.

(** ** Facts *)
Section Facts.
Context {C : Codec}.

(** Exactly the replies of the right type with a readable result are taken; the others are
    errors, never a panic. *)
Theorem parse_response_iff {T : Type} get_type (readT : Value -> option T) response reply :
  parse_response get_type readT response = Ok reply <->
  exists message, json_from_str response = Some message /\ index message "op" = VString "REPLY" /\
    index (index message "result") "type" = VString get_type /\ read_reply readT message = Some reply.
Proof using Type.
  unfold parse_response. destruct (json_from_str response) as [message|]; cbn [ok_or obind]; [|split; [done|by intros (? & ? & _)]].
  unfold read_message, need. destruct message as [| | | | |m]; cbn [as_object mbind option_bind index];
    try (split; [by rewrite bool_decide_eq_false_2|by intros (? & [= <-] & [=] & _)]).
  destruct (map_get "op" m) as [v|] eqn:Eop.
  2: { split; [by rewrite bool_decide_eq_false_2|]. intros (? & [= <-] & Hv & _). cbn in Hv. by rewrite Eop in Hv. }
  destruct (decide (v = VString "REPLY")) as [->|Hne].
  - rewrite bool_decide_eq_true_2 by done. cbn [andb as_str mbind option_bind String.eqb].
    destruct (decide (index (index (Object m) "result") "type" = VString get_type)) as [Ht|Ht]; cbn [index] in Ht.
    + rewrite bool_decide_eq_true_2 by done. cbn. destruct (read_reply readT (Object m)) as [r|] eqn:Er; cbn.
      * split; [intros [= <-]; exists (Object m); cbn [index]; by rewrite Eop|]. intros (? & [= <-] & _ & _ & Hr). congruence.
      * split; [done|]. intros (? & [= <-] & _ & _ & Hr). congruence.
    + rewrite bool_decide_eq_false_2 by done. cbn. split; [done|]. by intros (? & [= <-] & _ & Ht' & _).
  - rewrite bool_decide_eq_false_2 by done. cbn [andb]. split; [|intros (? & [= <-] & Hv & _); cbn in Hv; rewrite Eop in Hv; congruence].
    destruct v as [| | |op| |]; try done. cbn [as_str mbind option_bind].
    destruct (String.eqb op "REQNACK"); [by destruct (read_response (Object m))|].
    destruct (String.eqb_spec op "REPLY"); [by subst|]. destruct (String.eqb op "REJECT"); [by destruct (read_response (Object m))|done].
Qed.

(** An answer to GET_NYM of the second version of the protocol has no member data, so that it
    reads as an answer of the first version without data: the second variant is dead. *)
Theorem nym_v1_not_found m : map_get "data" m = None -> read_nym_result (Object m) = Some (GetNymReplyResultV0 None).
Proof using Type. intros Hd. unfold read_nym_result, may. cbn [as_object mbind option_bind]. by rewrite Hd. Qed.
Theorem nym_v1_dead v res : read_nym_result v = Some (GetNymReplyResultV1 res) -> exists m x, v = Object m /\ map_get "data" m = Some x /\ as_str x = None.
Proof using Type.
  unfold read_nym_result, may. destruct v as [| | | | |m]; try done. cbn [as_object mbind option_bind].
  destruct (map_get "data" m) as [x|] eqn:E; [|done]. intros H. exists m, x. split; [done|]. split; [done|].
  by destruct x; try done.
Qed.

(** A reply of the right type whose result does not read and which has an empty list of results
    of the other version makes the executor panic. *)
Definition empty_reply : Value :=
  Object [("data", Object [("result", Array [])]); ("op", VString "REPLY"); ("result", Object [("type", VString GET_SCHEMA)])].
Theorem empty_reply_panics hash_set response method_name :
  json_from_str response = Some empty_reply -> parse_get_schema_response hash_set response method_name = Panic.
Proof using Type.
  intros Hj. unfold parse_get_schema_response, parse_response. rewrite Hj. reflexivity.
Qed.
End Facts.

Lemma has_newline_app a b : has_newline (a +:+ b) = has_newline a || has_newline b.
Proof. induction a as [|c a IH]; [done|]. rewrite string_cons_app. cbn [has_newline]. rewrite IH. by destruct (is_newline c). Qed.
Lemma did_has_newline base m did : is_did base m did -> has_newline base = false -> has_newline did = false.
Proof.
  intros [|m' [_ Hm]] Hn; [done|]. unfold did_qualify, qualify.
  assert (Hw : has_newline m' = false).
  { clear -Hm. induction m' as [|a m IH]; [done|]. cbn in *. apply andb_true_iff in Hm as [Ha Hm]. rewrite IH by done.
    destruct (is_newline a) eqn:E; [|done]. unfold is_newline in E. apply Ascii.eqb_eq in E. by subst a. }
  by rewrite !has_newline_app, Hw, Hn.
Qed.
(** An identifier without method is not taken for one with a method, unless its DID consists of
    small letters and digits only. *)
Lemma captures_unqualified base s : part base -> is_word base = false -> captures (base +:+ s) = None.
Proof.
  intros Hp Hw. assert (Hs : exists w b r, span_word (base +:+ s) = (w, String b r) /\ is_delimiter b = false).
  { unfold part in Hp. induction base as [|a base IH]; [done|]. cbn in Hp, Hw. rewrite string_cons_app. cbn [span_word].
    destruct (is_delimiter a) eqn:Ea; [discriminate Hp|]. destruct (is_word_char a); [|by exists "", a, (base +:+ s)].
    destruct (split_nonempty base) as (w & ws & E). rewrite E in *. injection Hp as -> ->.
    destruct IH as (w & b & r & -> & Hb); [done|done|]. by exists (String a w), b, r. }
  destruct Hs as (w & b & r & E & Hb). unfold captures, word_then_delimiter. rewrite E, Hb. by destruct w.
Qed.
Lemma schema_id_method base m did name version :
  part base -> has_newline base = false -> (m = None -> is_word base = false) -> is_did base m did -> part name -> part version ->
  has_newline name = false -> has_newline version = false ->
  method (schema_id_new did name version) = m.
Proof.
  intros Hb Hn Hw Hd Hpn Hpv Hnn Hnv. unfold schema_id_new, with_method. rewrite (proj1 (did_method base m did Hb Hn Hd)).
  set (id := did +:+ _). assert (Hid : has_newline id = false).
  { unfold id. rewrite !has_newline_app, (did_has_newline base m did), Hnn, Hnv by done. done. }
  destruct Hd as [|m' Hm]; unfold method; [|by rewrite captures_qualify].
  unfold id. by rewrite captures_unqualified by auto.
Qed.

Section Schemas.
Context {C : Codec} {JT : JsonText C} (hash_set : list string -> list string).

(** The reply of a ledger to a request for a schema that it has. *)
Definition schema_reply (base name version : string) (attr_names : list string) (seq_no : Z) : Value :=
  Object [("op", VString "REPLY");
          ("result", Object [("data", SchemaOperationData name version attr_names); ("dest", VString base);
                             ("seqNo", Number seq_no); ("type", VString GET_SCHEMA)])].

Lemma schema_reply_reads base name version attr_names seq_no :
  (0 <= seq_no < 2 ^ 32)%Z ->
  parse_response GET_SCHEMA (read_schema_result hash_set) (json_to_string (schema_reply base name version attr_names seq_no)) =
    Ok (ReplyV0 (GetSchemaReplyResultV0 seq_no (mkSchemaResult name version (hash_set attr_names)) base)).
Proof using JT.
  intros Hs. apply parse_response_iff. eexists. split; [apply json_text|]. split; [done|]. split; [done|].
  assert (Hn : read_u32 (Number seq_no) = Some seq_no).
  { unfold read_u32, as_range. by rewrite (proj2 (Z.leb_le _ _)), (proj2 (Z.ltb_lt _ _)) by lia. }
  assert (Ht : as_texts (normal (texts attr_names)) = Some attr_names).
  { unfold as_texts, texts. cbn [normal as_array mbind option_bind]. induction attr_names as [|a l IH]; [done|].
    cbn in *. by rewrite IH. }
  assert (Hd : read_schema_data hash_set (normal (SchemaOperationData name version attr_names)) =
    Some (mkSchemaResult name version (hash_set attr_names))).
  { change (normal (SchemaOperationData name version attr_names)) with
      (Object [("attr_names", normal (texts attr_names)); ("name", VString name); ("version", VString version)]).
    unfold read_schema_data, need. cbn [as_object mbind option_bind map_get String.eqb Ascii.eqb Bool.eqb as_str].
    by rewrite Ht. }
  change (normal (schema_reply base name version attr_names seq_no)) with
    (Object [("op", VString "REPLY");
             ("result", Object [("data", normal (SchemaOperationData name version attr_names)); ("dest", VString base);
                                ("seqNo", Number seq_no); ("type", VString GET_SCHEMA)])]).
  unfold read_reply, read_schema_result, read_schema_v0, need.
  cbn [as_object mbind option_bind map_get String.eqb Ascii.eqb Bool.eqb as_str]. rewrite Hn. cbn [mbind option_bind].
  by rewrite Hd.
Qed.

End Schemas.
