(* ===== verification/DidCommands.v ===== *)
(** * DID commands

    [DidCommandExecutor] of [libindy/src/commands/did.rs]: DIDs with their keys, temporary keys,
    metadata and endpoints as objects in a wallet, and the two commands that ask the ledger when
    the wallet does not know: they are put aside ([_defer_command]), a request is handed to the
    ledger executor, and its answer ([GetNymAck], [GetAttribAck]) stores what was found and
    executes the command again.

    The executor works on an [ObjectStore]; the worker thread is the state [Process], with the
    queue of commands, the commands put aside, the requests under way and the calls of callbacks.
    [execute] gives [None] when the thread panics.  [deferred_commands] is a [RefCell]: [borrowed]
    is whether it is borrowed.  In [_execute_deferred_command] the borrow of the [if let] lasts for
    its body, hence while the command is executed again. *)

From stdpp Require Import base list strings numbers gmap.
From Stdlib Require Import ZArith Lia.
From S2P Require Import Prelude Errors Json LedgerConstants Identifiers WalletCrypto WalletStorage Wallet ExportImport WalletService WalletCommands ObjectStore Trie External JsonText Verkey CryptoService CryptoCommands LedgerSigning LedgerRequests LedgerReplies.

Open Scope string_scope.

(** ** Objects *)
Record TemporaryDid := mkTemporaryDid { td_did : string; td_verkey : string }.
Record DidMetadata := mkDidMetadata { dm_value : string }.
Record DidWithMeta := mkDidWithMeta {
  dw_did : string; dw_verkey : string; dw_temp_verkey : option string; dw_metadata : option string
}.
Record Pairwise := mkPairwise { pw_my_did : string; pw_their_did : string; pw_metadata : option string }.
(** [From<TemporaryDid> for Did]. *)
Definition did_from_temporary (t : TemporaryDid) : Did := mkDid (td_did t) (td_verkey t).

(** serde's codecs. *)
Class DidObjects := {
  temporary_to_json : TemporaryDid -> option string;
  temporary_from_json : string -> option TemporaryDid;
  their_did_to_json : TheirDid -> option string;
  their_did_from_json : string -> option TheirDid;
  did_metadata_to_json : DidMetadata -> option string;
  did_metadata_from_json : string -> option DidMetadata;
  endpoint_to_json : Endpoint -> option string;
  endpoint_from_json : string -> option Endpoint;
  pairwise_to_json : Pairwise -> option string;
  pairwise_from_json : string -> option Pairwise;
  did_with_meta_to_string : DidWithMeta -> option string;
  dids_to_string : list DidWithMeta -> option string
}.
Section Codecs.
Context {Do : DidObjects}.
#[export] Instance TemporaryDid_serde : Serde TemporaryDid :=
  {| type_name := "indy::domain::crypto::did::TemporaryDid"; to_json := temporary_to_json; from_json := temporary_from_json |}.
#[export] Instance TheirDid_serde : Serde TheirDid :=
  {| type_name := "indy::domain::crypto::did::TheirDid"; to_json := their_did_to_json; from_json := their_did_from_json |}.
#[export] Instance DidMetadata_serde : Serde DidMetadata :=
  {| type_name := "indy::domain::crypto::did::DidMetadata"; to_json := did_metadata_to_json; from_json := did_metadata_from_json |}.
#[export] Instance Endpoint_serde : Serde Endpoint :=
  {| type_name := "indy::domain::ledger::attrib::Endpoint"; to_json := endpoint_to_json; from_json := endpoint_from_json |}.
#[export] Instance Pairwise_serde : Serde Pairwise :=
  {| type_name := "indy::domain::pairwise::Pairwise"; to_json := pairwise_to_json; from_json := pairwise_from_json |}.
End Codecs.

Section Executor.
Context {O : ObjectStore} {Os : ObjectSearch O} {C : Codec} {Ed : Ed25519} {U : UrlsafeCodec} {Sc : SeedCodec} {P : PackCodec}.
Context {D : DidCodec} {Do : DidObjects}.

(** What an execution draws: the seed of a key and the randomness of the wallet; the id and the
    protocol version of a request. *)
Record Draws := mkDraws { dr_seed : bytes; dr_rnd : nat -> Randomness; dr_req_id : Z; dr_protocol : Z; dr_fuel : nat }.
Context (d : Draws).

Definition _wallet_get_my_did (wallet_handle : Z) (my_did : string) : SM store Did := obj_get Did wallet_handle my_did.
Definition _wallet_get_their_did (wallet_handle : Z) (their_did : string) : SM store TheirDid :=
  obj_get TheirDid wallet_handle their_did.

(** ** Own DIDs *)

(** A call whose error is ignored: the answer is there or not. *)
Definition attempt {A : Type} (m : SM store A) : SM store (option A) :=
  fun s => match m s with
           | (s', Ok a) => (s', Ok (Some a))
           | (s', Err _) => (s', Ok None)
           | (s', Panic) => (s', Panic)
           end.

Definition create_and_store_my_did (wallet_handle : Z) (my_did_info : MyDidInfo) : SM store (string * string) :=
  let* (did, key) := sm_lift (create_my_did (dr_seed d) my_did_info) in
  let* current := attempt (_wallet_get_my_did wallet_handle (did_did did)) in
  match current with
  | Some current_did =>
      if String.eqb (did_verkey did) (did_verkey current_did) then sm_ret (did_did did, did_verkey did)
      else sm_fail (err_msg DIDAlreadyExists
             ("DID " +:+ quoted (did_did did) +:+
              " already exists but with different Verkey. You should specify Seed used for initial generation"))
  | None =>
      let* _ := obj_add Did (dr_rnd d 0) wallet_handle (did_did did) did in
      let* _ := attempt (obj_add Key (dr_rnd d 1) wallet_handle (verkey key) key) in
      sm_ret (did_did did, did_verkey did)
  end.

Definition replace_keys_start (wallet_handle : Z) (key_info : KeyInfo) (my_did : string) : SM store string :=
  let* _ := sm_lift (validate_did my_did) in
  let* my_did := _wallet_get_my_did wallet_handle my_did in
  let* temporary_key := sm_lift (create_key (dr_seed d) key_info) in
  let my_temporary_did := mkTemporaryDid (did_did my_did) (verkey temporary_key) in
  let* _ := obj_add Key (dr_rnd d 0) wallet_handle (verkey temporary_key) temporary_key in
  let* _ := obj_add TemporaryDid (dr_rnd d 1) wallet_handle (td_did my_temporary_did) my_temporary_did in
  sm_ret (td_verkey my_temporary_did).

Definition replace_keys_apply (wallet_handle : Z) (my_did : string) : SM store unit :=
  let* _ := sm_lift (validate_did my_did) in
  let* my_did := _wallet_get_my_did wallet_handle my_did in
  let* my_temporary_did := obj_get TemporaryDid wallet_handle (did_did my_did) in
  let my_did := did_from_temporary my_temporary_did in
  let* _ := obj_update Did (dr_rnd d 0) wallet_handle (did_did my_did) my_did in
  let* _ := obj_delete TemporaryDid wallet_handle (did_did my_did) in
  sm_ret ().

Definition store_their_did (wallet_handle : Z) (their_did_info : TheirDidInfo) : SM store unit :=
  let* their_did := sm_lift (create_their_did their_did_info) in
  let* _ := obj_upsert TheirDid (dr_rnd d 0) wallet_handle (CryptoService.their_did their_did) their_did in
  sm_ret ().

Definition get_my_did_with_meta (wallet_handle : Z) (my_did : string) : SM store string :=
  let* did := obj_get Did wallet_handle my_did in
  let* metadata := obj_get_opt DidMetadata wallet_handle (did_did did) in
  let* temp_verkey := obj_get_opt TemporaryDid wallet_handle (did_did did) in
  sm_lift (ok_or (did_with_meta_to_string
                    (mkDidWithMeta (did_did did) (did_verkey did) (td_verkey <$> temp_verkey) (dm_value <$> metadata)))
             (err_msg InvalidState "Can't serialize DID")).

(** [while let Some(record) = search.fetch_next_record()?]: the loop over a search with the value
    of each record read; the fuel bounds the number of records. *)
Fixpoint for_each {A B : Type} (fuel : nat) (c : cursor) (missing : IndyError) (read : string -> outcome A)
    (body : string -> A -> B -> SM store B) (b : B) : SM store B :=
  match fuel with
  | 0 => fun s => (s, Panic)
  | S fuel' =>
      let* (c', next) := obj_next c in
      match next with
      | None => sm_ret b
      | Some (n, value) =>
          let* value := sm_lift (ok_or value missing) in
          let* x := sm_lift (read value) in
          let* b := body n x b in
          for_each fuel' c' missing read body b
      end
  end.

Definition no_value : IndyError := err_msg InvalidState "No value for DID record".
Definition read_as {A : Type} (f : string -> option A) (text : string) (value : string) : outcome A :=
  ok_or (f value) (err_msg InvalidState text).
Definition list_my_dids_with_meta (wallet_handle : Z) : SM store string :=
  let* did_search := obj_search Did wallet_handle in
  let* metadata_search := obj_search DidMetadata wallet_handle in
  let* temporarydid_search := obj_search TemporaryDid wallet_handle in
  let* metadata_map :=
    for_each (dr_fuel d) metadata_search no_value (read_as did_metadata_from_json "Cannot deserialize Did: ")
      (fun did_id (m : DidMetadata) (acc : gmap string string) => sm_ret (<[did_id := dm_value m]> acc)) ∅ in
  let* temporarydid_map :=
    for_each (dr_fuel d) temporarydid_search no_value (read_as temporary_from_json "Cannot deserialize Did: ")
      (fun _ (t : TemporaryDid) (acc : gmap string string) => sm_ret (<[td_did t := td_verkey t]> acc)) ∅ in
  let* (dids, _, _) :=
    for_each (dr_fuel d) did_search no_value (read_as did_from_json "Cannot deserialize Did: ")
      (fun _ (x : Did) '(dids, temporarydid_map, metadata_map) =>
         sm_ret ((dids ++ [mkDidWithMeta (did_did x) (did_verkey x) (temporarydid_map !! did_did x) (metadata_map !! did_did x)])%list,
                 base.delete (did_did x) temporarydid_map, base.delete (did_did x) metadata_map))
      ([], temporarydid_map : gmap string string, metadata_map : gmap string string) in
  sm_lift (ok_or (dids_to_string dids) (err_msg InvalidState "Can't serialize DIDs list")).

Definition key_for_local_did (wallet_handle : Z) (did : string) : SM store string :=
  let* _ := sm_lift (validate_did did) in
  fun s => match _wallet_get_my_did wallet_handle did s with
           | (s', Ok my_did) => (s', Ok (did_verkey my_did))
           | (s', Err err) =>
               if decide (err_kind err = WalletItemNotFound)
               then (let* their_did := _wallet_get_their_did wallet_handle did in sm_ret (their_verkey their_did)) s'
               else (s', Err err)
           | (s', Panic) => (s', Panic)
           end.

Definition set_endpoint_for_did (wallet_handle : Z) (did : string) (endpoint : Endpoint) : SM store unit :=
  let* _ := sm_lift (validate_did did) in
  let* _ := sm_lift (match ep_verkey endpoint with Some transport_key => validate_key transport_key | None => Ok () end) in
  let* _ := obj_upsert Endpoint (dr_rnd d 0) wallet_handle did endpoint in
  sm_ret ().
Definition set_did_metadata (wallet_handle : Z) (did metadata : string) : SM store unit :=
  let* _ := sm_lift (validate_did did) in
  let* _ := obj_upsert DidMetadata (dr_rnd d 0) wallet_handle did (mkDidMetadata metadata) in
  sm_ret ().
Definition get_did_metadata (wallet_handle : Z) (did : string) : SM store string :=
  let* _ := sm_lift (validate_did did) in
  let* metadata := obj_get DidMetadata wallet_handle did in
  sm_ret (dm_value metadata).

(** [split_at(16)] panics on fewer bytes. *)
Definition abbreviate_verkey (did verkey : string) : outcome string :=
  let? _ := validate_did did in
  let? _ := validate_key verkey in
  if negb (is_abbreviatable did) then Ok verkey
  else
    let? did := base58 (to_unqualified did) in
    let? dverkey := base58 verkey in
    if (length dverkey <? 16)%nat then Panic
    else Ok (if bool_decide (take 16 dverkey = did) then "~" +:+ to_base58 (drop 16 dverkey) else verkey).

(** ** Qualifying a DID *)
Definition update_dependent_entity_reference (T : Type) {Sd : Serde T} (rnd : Randomness) (wallet_handle : Z) (id_ new_id : string) :
    SM store unit :=
  let* record := attempt (obj_value T wallet_handle id_ "{}") in
  match record with
  | Some record =>
      let* _ := obj_delete T wallet_handle id_ in
      obj_add_record T rnd wallet_handle new_id record
  | None => sm_ret ()
  end.

Definition qualify_did (wallet_handle : Z) (did method_ : string) : SM store string :=
  let* _ := sm_lift (validate_did did) in
  let* curr_did := obj_get Did wallet_handle did in
  let curr_did := mkDid (did_value_new (to_unqualified did) (Some method_)) (did_verkey curr_did) in
  let* _ := obj_delete Did wallet_handle did in
  let* _ := obj_add Did (dr_rnd d 0) wallet_handle (did_did curr_did) curr_did in
  let* temp_did := attempt (obj_get TemporaryDid wallet_handle did) in
  let* _ := match temp_did with
            | Some temp_did =>
                let* _ := obj_delete TemporaryDid wallet_handle did in
                let* _ := obj_add TemporaryDid (dr_rnd d 1) wallet_handle (did_did curr_did)
                            (mkTemporaryDid (did_did curr_did) (td_verkey temp_did)) in
                sm_ret ()
            | None => sm_ret ()
            end in
  let* _ := update_dependent_entity_reference DidMetadata (dr_rnd d 2) wallet_handle did (did_did curr_did) in
  let* _ := update_dependent_entity_reference Endpoint (dr_rnd d 3) wallet_handle did (did_did curr_did) in
  let* pairwise_search := obj_search Pairwise wallet_handle in
  let* _ :=
    for_each (dr_fuel d) pairwise_search (err_msg InvalidState "No value for Pairwise record")
      (read_as pairwise_from_json "Cannot deserialize Pairwise: ")
      (fun _ pairwise i =>
         if String.eqb (pw_my_did pairwise) did
         then let* _ := obj_update Pairwise (dr_rnd d i) wallet_handle (pw_their_did pairwise)
                          (mkPairwise (did_did curr_did) (pw_their_did pairwise) (pw_metadata pairwise)) in
              sm_ret (S i)
         else sm_ret (S i)) 4 in
  sm_ret (did_did curr_did).

(** ** Answers of the ledger *)
Definition _get_nym_ack (wallet_handle : Z) (did : string) (get_nym_reply_result : outcome string) : SM store unit :=
  let* get_nym_reply := sm_lift get_nym_reply_result in
  let* get_nym_response := sm_lift (ok_or (v ← json_from_str get_nym_reply; read_reply read_nym_result v)
                                      (err_msg InvalidState "Invalid GetNymReplyResult json")) in
  let* result := sm_lift (reply_result get_nym_response) in
  let* their_did_info :=
    match result with
    | GetNymReplyResultV0 (Some data) =>
        let* data := sm_lift (ok_or (v ← json_from_str data; read_nym_data_v0 v)
                                (err_msg InvalidState "Invalid GetNymResultData json")) in
        sm_ret (mkTheirDidInfo (short_did_qualify (n0_dest data) (method did)) (n0_verkey data))
    | GetNymReplyResultV0 None => sm_fail (err_msg WalletItemNotFound "Their DID isn't found on the ledger")
    | GetNymReplyResultV1 res =>
        sm_ret (mkTheirDidInfo (short_did_qualify (n1_did (v1_data res)) (method did)) (n1_verkey (v1_data res)))
    end in
  let* their_did := sm_lift (create_their_did their_did_info) in
  let* _ := obj_add TheirDid (dr_rnd d 0) wallet_handle (CryptoService.their_did their_did) their_did in
  sm_ret ().

Definition _get_attrib_ack (wallet_handle : Z) (get_attrib_reply_result : outcome string) : SM store unit :=
  let* get_attrib_reply := sm_lift get_attrib_reply_result in
  let* get_attrib_reply := sm_lift (ok_or (v ← json_from_str get_attrib_reply; read_reply read_attr_result v)
                                      (err_msg InvalidState "Invalid GetAttrReplyResult json")) in
  let* result := sm_lift (reply_result get_attrib_reply) in
  let (raw, did) := match result with
                    | GetAttrReplyResultV0 res => (a0_data res, a0_dest res)
                    | GetAttrReplyResultV1 res => (a1_raw (v1_data res), a1_did (v1_data res))
                    end in
  let* endpoint := sm_lift (ok_or (v ← json_from_str raw; read_attrib_data v) (err_msg InvalidState "Invalid GetAttReply json")) in
  let* _ := obj_add Endpoint (dr_rnd d 0) wallet_handle did endpoint in
  sm_ret ().

(** ** Commands *)
Abbreviation Callback := nat (only parsing).
Inductive DidCommand :=
  | CreateAndStoreMyDid (wallet_handle : Z) (my_did_info : MyDidInfo) (cb : Callback)
  | ReplaceKeysStart (wallet_handle : Z) (key_info : KeyInfo) (did : string) (cb : Callback)
  | ReplaceKeysApply (wallet_handle : Z) (my_did : string) (cb : Callback)
  | StoreTheirDid (wallet_handle : Z) (their_did_info : TheirDidInfo) (cb : Callback)
  | GetMyDidWithMeta (wallet_handle : Z) (my_did : string) (cb : Callback)
  | ListMyDidsWithMeta (wallet_handle : Z) (cb : Callback)
  | KeyForDid (pool_handle wallet_handle : Z) (did : string) (cb : Callback)
  | KeyForLocalDid (wallet_handle : Z) (did : string) (cb : Callback)
  | SetEndpointForDid (wallet_handle : Z) (did : string) (endpoint : Endpoint) (cb : Callback)
  | GetEndpointForDid (wallet_handle pool_handle : Z) (did : string) (cb : Callback)
  | SetDidMetadata (wallet_handle : Z) (did metadata : string) (cb : Callback)
  | GetDidMetadata (wallet_handle : Z) (did : string) (cb : Callback)
  | AbbreviateVerkey (did verkey : string) (cb : Callback)
  | QualifyDid (wallet_handle : Z) (did method_ : string) (cb : Callback)
  | GetNymAck (wallet_handle : Z) (did : string) (result : outcome string) (deferred_cmd_id : Z)
  | GetAttribAck (wallet_handle : Z) (result : outcome string) (deferred_cmd_id : Z).

(** What a callback is called with. *)
Inductive Answer :=
  | APair (r : outcome (string * string))
  | AText (r : outcome string)
  | ADone (r : outcome unit)
  | AEndpoint (r : outcome (string * option string)).
(** The closure that the ledger executor calls with the answer of the pool. *)
Inductive Ack := NymAck (wallet_handle : Z) (did : string) (deferred_cmd_id : Z) | AttribAck (wallet_handle deferred_cmd_id : Z).
Definition acknowledge (a : Ack) (result : outcome string) : DidCommand :=
  match a with
  | NymAck wallet_handle did deferred_cmd_id => GetNymAck wallet_handle did result deferred_cmd_id
  | AttribAck wallet_handle deferred_cmd_id => GetAttribAck wallet_handle result deferred_cmd_id
  end.

Record Process := mkProcess {
  objects : store;
  ids_counter : Z;
  deferred_commands : gmap Z DidCommand;
  borrowed : bool;
  queue : list DidCommand;
  requests : list (Z * string * Ack);
  answers : list (Callback * Answer)
}.
Definition set_objects x (st : Process) :=
  mkProcess x (ids_counter st) (deferred_commands st) (borrowed st) (queue st) (requests st) (answers st).
Definition set_deferred x (st : Process) :=
  mkProcess (objects st) (ids_counter st) x (borrowed st) (queue st) (requests st) (answers st).
Definition set_borrowed x (st : Process) :=
  mkProcess (objects st) (ids_counter st) (deferred_commands st) x (queue st) (requests st) (answers st).
Definition answer (cb : Callback) (a : Answer) (st : Process) : Process :=
  mkProcess (objects st) (ids_counter st) (deferred_commands st) (borrowed st) (queue st) (requests st)
    (answers st ++ [(cb, a)])%list.

(** [cb(self.operation(...))]. *)
Definition call {A : Type} (kind : outcome A -> Answer) (cb : Callback) (m : SM store A) (st : Process) : option Process :=
  match m (objects st) with
  | (_, Panic) => None
  | (s', r) => Some (answer cb (kind r) (set_objects s' st))
  end.

(** [borrow_mut] of a borrowed [RefCell] panics. *)
Definition _defer_command (cmd : DidCommand) (st : Process) : option (Z * Process) :=
  if borrowed st then None
  else
    let deferred_cmd_id := as_i32 (ids_counter st + 1) in
    Some (deferred_cmd_id,
          mkProcess (objects st) (ids_counter st + 1) (<[deferred_cmd_id := cmd]> (deferred_commands st)) (borrowed st)
            (queue st) (requests st) (answers st)).
Definition submit (pool_handle : Z) (request : string) (ack : Ack) (st : Process) : Process :=
  mkProcess (objects st) (ids_counter st) (deferred_commands st) (borrowed st) (queue st)
    (requests st ++ [(pool_handle, request, ack)])%list (answers st).
Definition _fetch_their_did_from_ledger (wallet_handle pool_handle : Z) (did : string) (deferred_cmd : DidCommand) (st : Process) :
    option Process :=
  '(deferred_cmd_id, st) ← _defer_command deferred_cmd st;
  match build_get_nym_request (dr_req_id d) (dr_protocol d) None did with
  | Ok get_nym_request => Some (submit pool_handle get_nym_request (NymAck wallet_handle did deferred_cmd_id) st)
  | _ => None
  end.
Definition _fetch_attrib_from_ledger (wallet_handle pool_handle : Z) (did : string) (deferred_cmd : DidCommand) (st : Process) :
    option Process :=
  '(deferred_cmd_id, st) ← _defer_command deferred_cmd st;
  match build_get_attrib_request (dr_req_id d) (dr_protocol d) None did (Some "endpoint") None None with
  | Ok get_attrib_request => Some (submit pool_handle get_attrib_request (AttribAck wallet_handle deferred_cmd_id) st)
  | _ => None
  end.

Definition key_for_did (pool_handle wallet_handle : Z) (did : string) (cb : Callback) (st : Process) : option Process :=
  match validate_did did with
  | Ok _ =>
      match _wallet_get_my_did wallet_handle did (objects st) with
      | (s', Ok my_did) => Some (answer cb (AText (Ok (did_verkey my_did))) (set_objects s' st))
      | (_, Panic) => None
      | (s', Err err) =>
          let st := set_objects s' st in
          if decide (err_kind err = WalletItemNotFound) then
            match _wallet_get_their_did wallet_handle did (objects st) with
            | (s', Ok their_did) => Some (answer cb (AText (Ok (their_verkey their_did))) (set_objects s' st))
            | (_, Panic) => None
            | (s', Err err) =>
                let st := set_objects s' st in
                if decide (err_kind err = WalletItemNotFound)
                then _fetch_their_did_from_ledger wallet_handle pool_handle did
                       (KeyForDid pool_handle wallet_handle did cb) st
                else Some (answer cb (AText (Err err)) st)
            end
          else Some (answer cb (AText (Err err)) st)
      end
  | Err err => Some (answer cb (AText (Err err)) st)
  | Panic => None
  end.

Definition get_endpoint_for_did (wallet_handle pool_handle : Z) (did : string) (cb : Callback) (st : Process) : option Process :=
  match validate_did did with
  | Ok _ =>
      match obj_get Endpoint wallet_handle did (objects st) with
      | (s', Ok endpoint) => Some (answer cb (AEndpoint (Ok (ep_ha endpoint, ep_verkey endpoint))) (set_objects s' st))
      | (_, Panic) => None
      | (s', Err err) =>
          let st := set_objects s' st in
          if decide (err_kind err = WalletItemNotFound)
          then _fetch_attrib_from_ledger wallet_handle pool_handle did
                 (GetEndpointForDid wallet_handle pool_handle did cb) st
          else Some (answer cb (AEndpoint (Err err)) st)
      end
  | Err err => Some (answer cb (AEndpoint (Err err)) st)
  | Panic => None
  end.

Definition _call_error_cb (command : DidCommand) (err : IndyError) (st : Process) : Process :=
  match command with
  | CreateAndStoreMyDid _ _ cb => answer cb (APair (Err err)) st
  | ReplaceKeysStart _ _ _ cb => answer cb (AText (Err err)) st
  | ReplaceKeysApply _ _ cb => answer cb (ADone (Err err)) st
  | StoreTheirDid _ _ cb => answer cb (ADone (Err err)) st
  | KeyForDid _ _ _ cb => answer cb (AText (Err err)) st
  | GetEndpointForDid _ _ _ cb => answer cb (AEndpoint (Err err)) st
  | _ => st
  end.

(** The commands that do not come back here: all but the acknowledgements. *)
Definition execute_call (command : DidCommand) (st : Process) : option Process :=
  match command with
  | CreateAndStoreMyDid h my_did_info cb => call APair cb (create_and_store_my_did h my_did_info) st
  | ReplaceKeysStart h key_info did cb => call AText cb (replace_keys_start h key_info did) st
  | ReplaceKeysApply h did cb => call ADone cb (replace_keys_apply h did) st
  | StoreTheirDid h their_did_info cb => call ADone cb (store_their_did h their_did_info) st
  | GetMyDidWithMeta h my_did cb => call AText cb (get_my_did_with_meta h my_did) st
  | ListMyDidsWithMeta h cb => call AText cb (list_my_dids_with_meta h) st
  | KeyForDid pool_handle h did cb => key_for_did pool_handle h did cb st
  | KeyForLocalDid h did cb => call AText cb (key_for_local_did h did) st
  | SetEndpointForDid h did endpoint cb => call ADone cb (set_endpoint_for_did h did endpoint) st
  | GetEndpointForDid h pool_handle did cb => get_endpoint_for_did h pool_handle did cb st
  | SetDidMetadata h did metadata cb => call ADone cb (set_did_metadata h did metadata) st
  | GetDidMetadata h did cb => call AText cb (get_did_metadata h did) st
  | AbbreviateVerkey did vk cb => call AText cb (sm_lift (abbreviate_verkey did vk)) st
  | QualifyDid h did method_ cb => call AText cb (qualify_did h did method_) st
  | GetNymAck _ _ _ _ | GetAttribAck _ _ _ => Some st
  end.

(** The commands that are put aside are never acknowledgements, so executing them again is
    [execute_call]. *)
Definition _execute_deferred_command (deferred_cmd_id : Z) (err : option IndyError) (st : Process) : option Process :=
  if borrowed st then None
  else
    match deferred_commands st !! deferred_cmd_id with
    | Some cmd =>
        let st := set_borrowed true (set_deferred (base.delete deferred_cmd_id (deferred_commands st)) st) in
        set_borrowed false <$>
          match err with
          | Some err => Some (_call_error_cb cmd err st)
          | None => execute_call cmd st
          end
    | None => Some st
    end.
Definition run_ack (m : SM store unit) (deferred_cmd_id : Z) (st : Process) : option Process :=
  match m (objects st) with
  | (_, Panic) => None
  | (s', Ok _) => _execute_deferred_command deferred_cmd_id None (set_objects s' st)
  | (s', Err err) => _execute_deferred_command deferred_cmd_id (Some err) (set_objects s' st)
  end.
Definition get_nym_ack (wallet_handle : Z) (did : string) (result : outcome string) (deferred_cmd_id : Z) (st : Process) :
    option Process := run_ack (_get_nym_ack wallet_handle did result) deferred_cmd_id st.
Definition get_attrib_ack (wallet_handle : Z) (result : outcome string) (deferred_cmd_id : Z) (st : Process) : option Process :=
  run_ack (_get_attrib_ack wallet_handle result) deferred_cmd_id st.

Definition execute (command : DidCommand) (st : Process) : option Process :=
  match command with
  | GetNymAck h did result deferred_cmd_id => get_nym_ack h did result deferred_cmd_id st
  | GetAttribAck h result deferred_cmd_id => get_attrib_ack h result deferred_cmd_id st
  | command => execute_call command st
  end.
End Executor.
