(* ===== verification/DidLife.v ===== *)
(** * The life of a DID in a wallet

    Facts about the commands of [DidCommands] that work on the wallet alone.

    Shown: a DID that was created can be used for signing, and creating it again changes nothing
    ([created_did_signs]); its key is replaced in two steps, of which the first leaves the old key
    in use and the second puts the new one in its place, keeping both keys ([key_rotation]); an
    abbreviated key expands to the key it abbreviates ([abbreviated_verkey_expands]); qualifying a
    DID renames it with what depends on it ([qualified_did_signs]).  When the qualified name is
    taken, the DID is lost ([qualify_did_loses_did]). *)

From stdpp Require Import base list strings numbers gmap.
From Stdlib Require Import ZArith Lia.
From S2P Require Import Prelude Errors Json Identifiers WalletCrypto WalletStorage Wallet ExportImport WalletService WalletCommands ObjectStore Trie External Verkey CryptoService CryptoCommands LedgerSigning LedgerRequests LedgerReplies DidCommands.

Open Scope string_scope.

(** What serde promises for the objects of this executor. *)
Class DidObjectLaws {P : PackCodec} {D : DidCodec} (Do : DidObjects) := {
  key_serde_laws :: SerdeLaws Key;
  did_serde_laws :: SerdeLaws Did;
  temporary_serde_laws :: SerdeLaws TemporaryDid;
  their_did_serde_laws :: SerdeLaws TheirDid;
  metadata_serde_laws :: SerdeLaws DidMetadata;
  endpoint_serde_laws :: SerdeLaws Endpoint;
  pairwise_serde_laws :: SerdeLaws Pairwise
}.

(** The types of the objects differ. *)
Ltac other_type := rewrite lookup_insert_ne || rewrite lookup_delete_ne; [|intros [=]; done].

Section Own.
Context {O : ObjectStore} {OL : ObjectLaws O} {C : Codec} {Ed : Ed25519} {EL : Ed25519Laws Ed}.
Context {U : UrlsafeCodec} {TL : TextLaws C U} {Sc : SeedCodec} {P : PackCodec} {D : DidCodec} {Do : DidObjects} {DL : DidObjectLaws Do}.
Context (d : Draws) (Hrnd : forall i, randomness_ok (dr_rnd d i)).

Lemma object_is_insert_ne {T : Type} {Sd : Serde T} k rec w n (x : T) :
  k <> (object_type T, n) -> object_is w n x -> object_is (<[k := rec]> w) n x.
Proof using Type. intros Hk (r & Hl & Hr). exists r. split; [by rewrite lookup_insert_ne|done]. Qed.
Lemma knows_objects w did seed :
  knows w did seed <-> rust_string did /\ is_seed seed /\ object_is w (vk_of seed) (key_of seed) /\ object_is w did (mkDid did (vk_of seed)).
Proof using Type. unfold knows, has_key, object_is, record_is. cbn [from_json Key_serde Did_serde]. naive_solver. Qed.

(** ** Replacing the key *)
Definition rotated (w : PlainWallet) (did : string) (seed' : bytes) (jk jd : string) (tags : gmap string string) : PlainWallet :=
  <[(object_type Did, did) := mkPlainRecord jd tags]> (<[(object_type Key, vk_of seed') := mkPlainRecord jk ∅]> w).

Lemma rotation_starts s h w did seed key_info seed' :
  holds s h w -> knows w did seed -> is_seed seed' -> create_key (dr_seed d) key_info = Ok (key_of seed') ->
  no_object Key w (vk_of seed') -> no_object TemporaryDid w did ->
  exists s1 jk jt, replace_keys_start d h key_info did s = (s1, Ok (vk_of seed')) /\
    key_from_json jk = Some (key_of seed') /\ temporary_from_json jt = Some (mkTemporaryDid did (vk_of seed')) /\
    holds s1 h (<[(object_type TemporaryDid, did) := mkPlainRecord jt ∅]> (<[(object_type Key, vk_of seed') := mkPlainRecord jk ∅]> w)).
Proof using DL TL Hrnd.
  intros Hs (Hd & _ & _ & Hdid)%knows_objects Hseed Hk Hnk Hnt.
  assert (H : ends (replace_keys_start d h key_info did) s (fun s1 r => r = Ok (vk_of seed') /\ exists jk jt,
    key_from_json jk = Some (key_of seed') /\ temporary_from_json jt = Some (mkTemporaryDid did (vk_of seed')) /\
    holds s1 h (<[(object_type TemporaryDid, did) := mkPlainRecord jt ∅]> (<[(object_type Key, vk_of seed') := mkPlainRecord jk ∅]> w)))).
  { unfold replace_keys_start, _wallet_get_my_did, validate_did. apply ends_seq, ends_lift, ends_seq.
    eapply ends_get; [apply DL|exact Hs|exact Hd|exact Hdid|]. intros s1 Hs1. apply ends_seq, ends_lift. rewrite Hk. cbn [did_did].
    apply ends_seq. eapply ends_add; [apply DL|exact Hs1|apply base58_text|done|exact Hnk|]. intros s2 jk Hjk Hs2. cbn [td_did].
    apply ends_seq. eapply ends_add; [apply DL|exact Hs2|done|done| |].
    { unfold no_object. by rewrite lookup_insert_ne. }
    intros s3 jt Hjt Hs3. apply ends_ret. split; [done|]. by exists jk, jt. }
  apply ends_is in H as (s1 & r & E & -> & jk & jt & H). by exists s1, jk, jt.
Qed.

Lemma rotation_applies s h w did x y n rec :
  holds s h w -> rust_string did -> n = did -> w !! (object_type Did, n) = Some rec -> record_is rec (mkDid did x) ->
  object_is w did (mkTemporaryDid did y) ->
  exists s1 jd, replace_keys_apply d h did s = (s1, Ok ()) /\ did_from_json jd = Some (mkDid did y) /\
    holds s1 h (base.delete (object_type TemporaryDid, did) (<[(object_type Did, did) := mkPlainRecord jd (pr_tags rec)]> w)).
Proof using DL Hrnd.
  intros Hs Hd -> Hrec Hdid Ht.
  assert (H : ends (replace_keys_apply d h did) s (fun s1 r => r = Ok () /\ exists jd, did_from_json jd = Some (mkDid did y) /\
    holds s1 h (base.delete (object_type TemporaryDid, did) (<[(object_type Did, did) := mkPlainRecord jd (pr_tags rec)]> w)))).
  { unfold replace_keys_apply, _wallet_get_my_did, validate_did. apply ends_seq, ends_lift, ends_seq.
    eapply ends_get; [apply DL|exact Hs|exact Hd|by exists rec|]. intros s1 Hs1. cbn [did_did].
    apply ends_seq. eapply ends_get; [apply DL|exact Hs1|exact Hd|exact Ht|]. intros s2 Hs2. cbn [did_from_temporary td_did td_verkey did_did].
    apply ends_seq. eapply ends_update; [apply DL|exact Hs2|done|done|exact Hrec|]. intros s3 jd Hjd Hs3.
    apply ends_seq. eapply ends_delete; [apply DL|exact Hs3|done| |].
    { destruct Ht as (r & Hr & _). rewrite lookup_insert_ne by done. by eexists. }
    intros s4 Hs4. apply ends_ret. split; [done|]. by exists jd. }
  apply ends_is in H as (s1 & r & E & -> & jd & H). by exists s1, jd.
Qed.

(** C30: The key of a DID is replaced in two steps.  The first gives the new verification key and
    stores it beside the DID, which still signs with the old one; after the second the DID signs
    with the new key, both keys are in the wallet, the temporary DID is gone and every other
    record is what it was. *)
Theorem key_rotation s h w did seed key_info seed' :
  holds s h w -> knows w did seed -> is_seed seed' -> create_key (dr_seed d) key_info = Ok (key_of seed') ->
  no_object Key w (vk_of seed') -> no_object TemporaryDid w did ->
  exists s1 w1 s2 w2,
    replace_keys_start d h key_info did s = (s1, Ok (vk_of seed')) /\ holds s1 h w1 /\
      knows w1 did seed /\ has_key w1 seed' /\
    replace_keys_apply d h did s1 = (s2, Ok ()) /\ holds s2 h w2 /\
      knows w2 did seed' /\ has_key w2 seed /\
      forall k, k <> (object_type Did, did) -> k <> (object_type Key, vk_of seed') -> w2 !! k = w !! k.
Proof using DL TL Hrnd.
  intros Hs Hknows Hseed Hk Hnk Hnt. destruct (rotation_starts s h w did seed key_info seed') as (s1 & jk & jt & E1 & Hjk & Hjt & Hs1); try done.
  apply knows_objects in Hknows as (Hd & Hsd & Hkey & rec & Hrec & Hdid).
  assert (Hne : vk_of seed <> vk_of seed').
  { intros E. destruct Hkey as (r & Hr & _). unfold no_object in Hnk. by rewrite <-E, Hr in Hnk. }
  set (w1 := <[(object_type TemporaryDid, did) := _]> _) in Hs1.
  assert (Hkey1 : object_is w1 (vk_of seed) (key_of seed)).
  { do 2 (apply object_is_insert_ne; [intros [=]; done|]). done. }
  destruct (rotation_applies s1 h w1 did (vk_of seed) (vk_of seed') did rec Hs1 Hd eq_refl) as (s2 & jd & E2 & Hjd & Hs2); try done.
  { unfold w1. by rewrite !lookup_insert_ne. }
  { exists (mkPlainRecord jt ∅). split; [apply lookup_insert_eq|done]. }
  exists s1, w1, s2. eexists. split; [done|]. split; [done|]. split; [|split; [|split; [done|split; [done|]]]].
  - apply knows_objects. split_and!; [done..|]. exists rec. unfold w1. by rewrite !lookup_insert_ne.
  - split; [done|]. exists (mkPlainRecord jk ∅). unfold w1. by rewrite lookup_insert_ne, lookup_insert_eq.
  - split; [|split].
    + apply knows_objects. split_and!; [done..| |].
      * exists (mkPlainRecord jk ∅). unfold w1. by rewrite lookup_delete_ne, lookup_insert_ne, lookup_insert_ne, lookup_insert_eq.
      * exists (mkPlainRecord jd (pr_tags rec)). by rewrite lookup_delete_ne, lookup_insert_eq.
    + split; [done|]. destruct Hkey1 as (r & Hr & Hr'). exists r. by rewrite lookup_delete_ne, lookup_insert_ne.
    + intros k H1 H2. destruct (decide (k = (object_type TemporaryDid, did))) as [->|H3].
      * by rewrite lookup_delete_eq.
      * unfold w1. by rewrite lookup_delete_ne, !lookup_insert_ne.
Qed.

(** ** Creating a DID *)
Lemma ends_attempt {A : Type} (m : SM store A) s Q :
  ends m s (fun s' r => match r with Ok a => Q s' (Ok (Some a)) | Err _ => Q s' (Ok None) | Panic => Q s' Panic end) ->
  ends (attempt m) s Q.
Proof using Type. unfold ends, attempt. by destruct (m s) as [s' [a|e|]]. Qed.

Lemma did_is_created s h w my_did_info did seed :
  holds s h w -> rust_string did -> is_seed seed -> create_my_did (dr_seed d) my_did_info = Ok (mkDid did (vk_of seed), key_of seed) ->
  no_object Did w did -> no_object Key w (vk_of seed) \/ object_is w (vk_of seed) (key_of seed) ->
  exists s1 w1, create_and_store_my_did d h my_did_info s = (s1, Ok (did, vk_of seed)) /\ holds s1 h w1 /\ knows w1 did seed.
Proof using DL TL Hrnd.
  intros Hs Hd Hseed Hc Hnd Hk.
  assert (H : ends (create_and_store_my_did d h my_did_info) s
    (fun s1 r => r = Ok (did, vk_of seed) /\ exists w1, holds s1 h w1 /\ knows w1 did seed)).
  { unfold create_and_store_my_did, _wallet_get_my_did. apply ends_seq, ends_lift. rewrite Hc. cbn [did_did did_verkey].
    apply ends_seq, ends_attempt. eapply ends_get_none; [apply DL|exact Hs|done|done|]. intros s1 _ Hs1 _.
    apply ends_seq. eapply ends_add; [apply DL|exact Hs1|done|done|done|]. intros s2 jd Hjd Hs2.
    change (verkey (key_of seed)) with (vk_of seed).
    assert (Hdid : object_is (<[(object_type Did, did) := mkPlainRecord jd ∅]> w) did (mkDid did (vk_of seed)))
      by (eexists; split; [apply lookup_insert_eq|done]).
    apply ends_seq, ends_attempt. destruct Hk as [Hk|Hk].
    - eapply ends_add; [apply DL|exact Hs2|apply base58_text|done|by unfold no_object; rewrite lookup_insert_ne|].
      intros s3 jk Hjk Hs3. split; [done|]. eexists. split; [exact Hs3|]. apply knows_objects. split_and!; [done..| |].
      + eexists. split; [apply lookup_insert_eq|done].
      + by apply object_is_insert_ne.
    - eapply ends_add_taken; [apply DL|exact Hs2|apply base58_text|done| |].
      + destruct Hk as (r & Hr & _). rewrite lookup_insert_ne by done. by eexists.
      + intros s3 _ Hs3 _. split; [done|]. eexists. split; [exact Hs3|]. apply knows_objects. split_and!; try done.
        by apply object_is_insert_ne. }
  apply ends_is in H as (s1 & r & E & -> & w1 & H). by exists s1, w1.
Qed.

(** A DID that was created can be used to sign; creating it again with the same key gives the
    same answer and changes nothing, with another key it is refused. *)
Theorem created_did_signs s h w my_did_info did seed :
  holds s h w -> rust_string did -> is_seed seed -> create_my_did (dr_seed d) my_did_info = Ok (mkDid did (vk_of seed), key_of seed) ->
  no_object Did w did -> no_object Key w (vk_of seed) \/ object_is w (vk_of seed) (key_of seed) ->
  exists s1 w1, create_and_store_my_did d h my_did_info s = (s1, Ok (did, vk_of seed)) /\ holds s1 h w1 /\ knows w1 did seed /\
    forall info' vk key, create_my_did (dr_seed d) info' = Ok (mkDid did vk, key) ->
      exists s2 r, create_and_store_my_did d h info' s1 = (s2, r) /\ holds s2 h w1 /\
        if String.eqb vk (vk_of seed) then r = Ok (did, vk) else is_error r DIDAlreadyExists.
Proof using DL TL Hrnd.
  intros Hs Hd Hseed Hc Hnd Hk. destruct (did_is_created s h w my_did_info did seed) as (s1 & w1 & E & Hs1 & Hknows); try done.
  exists s1, w1. split_and!; try done. intros info' vk key Hc'. apply knows_objects in Hknows as (_ & _ & _ & Hdid).
  apply ends_is. unfold create_and_store_my_did, _wallet_get_my_did. apply ends_seq, ends_lift. rewrite Hc'. cbn [did_did did_verkey].
  apply ends_seq, ends_attempt. eapply ends_get; [apply DL|exact Hs1|done|exact Hdid|]. intros s2 Hs2. cbn [did_verkey].
  by destruct (String.eqb vk (vk_of seed)).
Qed.

(** ** Abbreviated keys *)

Lemma validate_full_key kb : length kb = SIG_PUBLICKEYBYTES -> validate_key (to_base58 kb) = Ok ().
Proof using TL.
  intros Hk. unfold validate_key, split_verkey, known_crypto. rewrite base58_no_colon, String.eqb_refl. cbn [obind].
  rewrite base58_no_tilde, base58_back. cbn [obind]. unfold public_key_from_slice. by rewrite from_slice_ok.
Qed.

(** Abbreviating a verification key loses nothing.  For a DID, with or without a method, and
    a key, the command never fails, and the key that is built from its answer and the DID is
    the key again. *)
Theorem abbreviated_verkey_expands did db kb :
  to_unqualified did = to_base58 db -> length kb = SIG_PUBLICKEYBYTES ->
  exists a, abbreviate_verkey did (to_base58 kb) = Ok a /\
    build_full_verkey (to_unqualified did) (Some a) = Ok (to_base58 kb) /\
    a = if is_abbreviatable did && bool_decide (take 16 kb = db) then "~" +:+ to_base58 (drop 16 kb) else to_base58 kb.
Proof using TL.
  intros Hdid Hk. unfold abbreviate_verkey, validate_did. cbn [obind]. rewrite validate_full_key by done. cbn [obind].
  assert (Hfull : build_full_verkey (to_unqualified did) (Some (to_base58 kb)) = Ok (to_base58 kb)).
  { unfold build_full_verkey. rewrite split_colon_none by apply base58_no_colon. by rewrite base58_no_tilde. }
  destruct (is_abbreviatable did); cbn [negb andb]; [|by eexists].
  rewrite Hdid, !base58_back. cbn [obind]. rewrite (proj2 (Nat.ltb_ge _ _)) by (rewrite Hk; unfold SIG_PUBLICKEYBYTES; lia).
  case_bool_decide as Hp; [|rewrite Hdid in Hfull; by eexists].
  eexists. split; [reflexivity|]. split; [|done]. rewrite full_verkey_of_parts. by rewrite <-Hp, take_drop.
Qed.
End Own.

(** ** Qualifying a DID *)
Section Qualify.
Context {O : ObjectStore} {OL : ObjectLaws O} {Os : ObjectSearch O} {OSL : ObjectSearchLaws OL Os}.
Context {C : Codec} {Ed : Ed25519} {U : UrlsafeCodec} {Sc : SeedCodec} {P : PackCodec} {D : DidCodec} {Do : DidObjects} {DL : DidObjectLaws Do}.
Context (d : Draws) (Hrnd : forall i, randomness_ok (dr_rnd d i)).

(** A record under another name; its tags are lost. *)
Definition moved (T : Type) {Sd : Serde T} (did new : string) (w : PlainWallet) : PlainWallet :=
  match w !! (object_type T, did) with
  | Some rec => <[(object_type T, new) := mkPlainRecord (pr_value rec) ∅]> (base.delete (object_type T, did) w)
  | None => w
  end.
Lemma moved_other (T : Type) {Sd : Serde T} did new w k : k.1 <> object_type T -> moved T did new w !! k = w !! k.
Proof using Type.
  intros Hk. unfold moved. destruct (w !! (object_type T, did)); [|done].
  by rewrite lookup_insert_ne, lookup_delete_ne by (by intros <-).
Qed.
Lemma moved_new (T : Type) {Sd : Serde T} did new w :
  no_object T w new -> pr_value <$> moved T did new w !! (object_type T, new) = pr_value <$> w !! (object_type T, did).
Proof using Type.
  intros Hn. unfold moved. destruct (w !! (object_type T, did)); [by rewrite lookup_insert_eq|]. by rewrite Hn.
Qed.

Lemma ends_move (T : Type) {Sd : Serde T} {SL : SerdeLaws T} rnd s h w did new Q :
  holds s h w -> rust_string did -> rust_string new -> did <> new -> randomness_ok rnd -> no_object T w new ->
  (forall rec, w !! (object_type T, did) = Some rec -> rust_string (pr_value rec)) ->
  (forall s', holds s' h (moved T did new w) -> Q s' (Ok ())) ->
  ends (update_dependent_entity_reference T rnd h did new) s Q.
Proof using OL.
  intros Hs Hd Hn Hne Hr Hno Hv HQ. unfold update_dependent_entity_reference. apply ends_seq, ends_attempt.
  eapply ends_value; [done|exact Hs|done|]. intros s1 Hs1. unfold moved in HQ.
  destruct (w !! (object_type T, did)) as [rec|] eqn:El; [|intros e _; by apply HQ].
  apply ends_seq. eapply ends_delete; [done|exact Hs1|done|by eexists|]. intros s2 Hs2.
  eapply ends_add_record; [done|exact Hs2|done|done|by apply Hv| |]; [|exact HQ].
  unfold no_object. rewrite lookup_delete_ne by congruence. done.
Qed.

(** A pairwise relation of the DID under its new name. *)
Definition renamed (did new : string) (p : Pairwise) : Pairwise :=
  if String.eqb (pw_my_did p) did then mkPairwise new (pw_their_did p) (pw_metadata p) else p.

(** The loop over the pairwise relations. *)
Definition pairwise_body (h : Z) (did new : string) (n : string) (pairwise : Pairwise) (i : nat) : SM store nat :=
  if String.eqb (pw_my_did pairwise) did
  then let* _ := obj_update Pairwise (dr_rnd d i) h (pw_their_did pairwise)
                   (mkPairwise new (pw_their_did pairwise) (pw_metadata pairwise)) in sm_ret (S i)
  else sm_ret (S i).
Lemma pairwise_loop h did new e text l : forall fuel s c i w,
  holds s h w -> showing s h c l -> NoDup l.*1 -> length l < fuel ->
  (forall n v, (n, v) ∈ l -> exists p rec, w !! (object_type Pairwise, n) = Some rec /\ pr_value rec = v /\
     pairwise_from_json v = Some p /\ pw_their_did p = n /\ rust_string n) ->
  ends (for_each fuel c e (read_as pairwise_from_json text) (pairwise_body h did new) i) s (fun s' r =>
    (exists i', r = Ok i') /\ exists w', holds s' h w' /\
    (forall k, k.1 <> object_type Pairwise \/ k.2 ∉ l.*1 -> w' !! k = w !! k) /\
    (forall n v p, (n, v) ∈ l -> pairwise_from_json v = Some p -> object_is w' n (renamed did new p))).
Proof using OSL DL Hrnd.
  induction l as [|[n v] l IH]; intros [|fuel] s c i w Hs Hc Hd Hf Hl; try (cbn in Hf; lia); cbn [for_each]; apply ends_seq.
  - eapply ends_mono; [by apply (law_obj_next s h w c [])|]. intros s1 r (Hs1 & c' & _ & ->). cbn. split; [by eexists|].
    exists w. split_and!; [done|done|]. by intros n v p []%not_elem_of_nil.
  - eapply ends_mono; [by apply (law_obj_next s h w c ((n, v) :: l))|]. intros s1 r (Hs1 & c' & Hc' & ->). cbn [tail] in Hc'. cbn [head fmap option_fmap option_map fst snd].
    destruct (Hl n v) as (p & rec & Hrec & Hv & Hp & Hn & Ht); [by left|]. rewrite fmap_cons in Hd. apply NoDup_cons in Hd as [Hnl Hd]. cbn [fst] in Hnl.
    apply ends_seq, ends_lift. cbn [ok_or]. apply ends_seq, ends_lift. unfold read_as. rewrite Hp. cbn [ok_or].
    assert (Hrest : forall w1 : PlainWallet, (forall k, k <> (object_type Pairwise, n) -> w1 !! k = w !! k) ->
      forall n' v', (n', v') ∈ l -> exists p rec, w1 !! (object_type Pairwise, n') = Some rec /\ pr_value rec = v' /\
        pairwise_from_json v' = Some p /\ pw_their_did p = n' /\ rust_string n').
    { intros w1 H1 n' v' Hin. destruct (Hl n' v') as (p' & rec' & Hr' & H); [by right|]. exists p', rec'. split; [|done].
      rewrite H1; [done|]. intros [= ->]. apply Hnl, list_elem_of_fmap. by exists (n, v'). }
    assert (Hdone : forall s1 (w1 : PlainWallet) i1, holds s1 h w1 -> showing s1 h c' l -> (forall k, k <> (object_type Pairwise, n) -> w1 !! k = w !! k) ->
      object_is w1 n (renamed did new p) ->
      ends (for_each fuel c' e (read_as pairwise_from_json text) (pairwise_body h did new) i1) s1 (fun s' r =>
        (exists i', r = Ok i') /\ exists w', holds s' h w' /\
        (forall k, k.1 <> object_type Pairwise \/ k.2 ∉ ((n, v) :: l).*1 -> w' !! k = w !! k) /\
        (forall n0 v0 p0, (n0, v0) ∈ (n, v) :: l -> pairwise_from_json v0 = Some p0 -> object_is w' n0 (renamed did new p0)))).
    { intros s2 w1 i1 Hs2 Hc2 H1 Hobj. eapply ends_mono; [apply (IH fuel s2 c' i1 w1 Hs2 Hc2 Hd ltac:(cbn in Hf; lia) (Hrest w1 H1))|].
      intros s3 r (Hr & w' & Hs3 & Hother & Hall). split; [done|]. exists w'. split; [done|]. split.
      - intros k Hk. rewrite Hother, H1; [done| |].
        + intros ->. destruct Hk as [|Hk]; [done|]. apply Hk. by left.
        + destruct Hk as [|Hk]; [by left|right]. intros Hin. apply Hk. by right.
      - intros n0 v0 p0 [[= -> ->]|Hin]%elem_of_cons Hp0; [|by eapply Hall]. rewrite Hp in Hp0. injection Hp0 as <-.
        destruct Hobj as (r0 & Hr0 & Hx). exists r0. split; [|done]. rewrite Hother; [done|by right]. }
    unfold pairwise_body at 1. unfold renamed in Hdone. destruct (String.eqb_spec (pw_my_did p) did) as [Hmy|Hmy].
    + apply ends_seq, ends_seq. rewrite Hn.
      pose proof (law_showing_update Pairwise s1 h c' l (dr_rnd d i) n (mkPairwise new n (pw_metadata p)) Hc' Hnl) as Hc2.
      assert (Hu : ends (obj_update Pairwise (dr_rnd d i) h n (mkPairwise new n (pw_metadata p))) s1 (fun s2 r =>
        s2 = (obj_update Pairwise (dr_rnd d i) h n (mkPairwise new n (pw_metadata p)) s1).1 /\ exists j,
        from_json j = Some (mkPairwise new n (pw_metadata p)) /\ r = Ok j /\
        holds s2 h (<[(object_type Pairwise, n) := mkPlainRecord j (pr_tags rec)]> w))).
      { split; [done|]. eapply (ends_update Pairwise s1 h w (dr_rnd d i) n _ rec (fun s2 r => exists j,
          from_json j = Some _ /\ r = Ok j /\ holds s2 h (<[(object_type Pairwise, n) := mkPlainRecord j (pr_tags rec)]> w)));
          [done..|]. intros s2 j Hj Hs2. by exists j. }
      eapply ends_mono; [exact Hu|]. intros s2 r (-> & j & Hj & -> & Hs2). apply ends_ret.
      eapply Hdone; [exact Hs2|exact Hc2|intros k Hk; by rewrite lookup_insert_ne|].
      eexists. split; [apply lookup_insert_eq|]. unfold record_is. cbn [pr_value]. by rewrite Hn in *.
    + apply ends_seq, ends_ret. eapply Hdone; [exact Hs1|exact Hc'|done|]. exists rec. split; [done|]. unfold record_is. by rewrite Hv.
Qed.

(** The steps of [qualify_did] before the loop: the DID and its temporary key. *)
Definition rename_did (h : Z) (did new vk : string) : SM store unit :=
  let* _ := obj_delete Did h did in
  let* _ := obj_add Did (dr_rnd d 0) h new (mkDid new vk) in
  sm_ret ().
Definition rename_temporary (h : Z) (did new : string) : SM store unit :=
  let* temp_did := attempt (obj_get TemporaryDid h did) in
  match temp_did with
  | Some temp_did =>
      let* _ := obj_delete TemporaryDid h did in
      let* _ := obj_add TemporaryDid (dr_rnd d 1) h new (mkTemporaryDid new (td_verkey temp_did)) in
      sm_ret ()
  | None => sm_ret ()
  end.
(** Only records of the type [T] differ. *)
Definition only (T : Type) {Sd : Serde T} (w w' : PlainWallet) : Prop := forall k, k.1 <> object_type T -> w' !! k = w !! k.

Lemma ends_rename_did s h w did new vk Q :
  holds s h w -> rust_string did -> rust_string new -> did <> new -> is_Some (w !! (object_type Did, did)) -> no_object Did w new ->
  (forall s' w', holds s' h w' -> only Did w w' -> object_is w' new (mkDid new vk) -> no_object Did w' did -> Q s' (Ok ())) ->
  ends (rename_did h did new vk) s Q.
Proof using OL DL Hrnd.
  intros Hs Hd Hn Hne Hsome Hno HQ. unfold rename_did. apply ends_seq. eapply ends_delete; [apply DL|exact Hs|done|done|].
  intros s1 Hs1. apply ends_seq. eapply ends_add; [apply DL|exact Hs1|done|done| |].
  { unfold no_object. by rewrite lookup_delete_ne by congruence. }
  intros s2 j Hj Hs2. apply ends_ret. eapply HQ; [exact Hs2| | |].
  - intros k Hk. by rewrite lookup_insert_ne, lookup_delete_ne by (by intros <-).
  - eexists. split; [apply lookup_insert_eq|done].
  - unfold no_object. by rewrite lookup_insert_ne, lookup_delete_eq by congruence.
Qed.

Lemma ends_rename_temporary s h w did new Q :
  holds s h w -> rust_string did -> rust_string new -> did <> new ->
  (no_object TemporaryDid w did \/ exists t : TemporaryDid, object_is w did t) -> no_object TemporaryDid w new ->
  (forall s' w', holds s' h w' -> only TemporaryDid w w' ->
     (forall t, object_is w did t -> object_is w' new (mkTemporaryDid new (td_verkey t))) -> Q s' (Ok ())) ->
  ends (rename_temporary h did new) s Q.
Proof using OL DL Hrnd.
  intros Hs Hd Hn Hne Ht Hno HQ. unfold rename_temporary. apply ends_seq, ends_attempt. destruct Ht as [Ht|[t Ht]].
  - eapply ends_get_none; [apply DL|exact Hs|done|done|]. intros s1 e Hs1 _. eapply HQ; [exact Hs1|done|].
    intros t (rec & Hrec & _). unfold no_object in Ht. by rewrite Hrec in Ht.
  - eapply ends_get; [apply DL|exact Hs|done|exact Ht|]. intros s1 Hs1. apply ends_seq.
    eapply ends_delete; [apply DL|exact Hs1|done|by destruct Ht as (? & ? & _); eexists|]. intros s2 Hs2. apply ends_seq.
    eapply ends_add; [apply DL|exact Hs2|done|done| |].
    { unfold no_object. by rewrite lookup_delete_ne by congruence. }
    intros s3 j Hj Hs3. apply ends_ret. eapply HQ; [exact Hs3| |].
    + intros k Hk. by rewrite lookup_insert_ne, lookup_delete_ne by (by intros <-).
    + intros t' (rec' & Hrec' & Hr'). destruct Ht as (rec & Hrec & Hr). rewrite Hrec in Hrec'. injection Hrec' as <-.
      unfold record_is in Hr, Hr'. rewrite Hr in Hr'. injection Hr' as <-. eexists. split; [apply lookup_insert_eq|done].
Qed.

(** The records that the command reads are as the library writes them, and no record of the
    qualified name is in its way. *)
Record qualifiable (w : PlainWallet) (did new : string) : Prop := {
  q_new : rust_string new;
  q_differs : did <> new;
  q_did : no_object Did w new;
  q_temporary : no_object TemporaryDid w new;
  q_metadata : no_object DidMetadata w new;
  q_endpoint : no_object Endpoint w new;
  q_old_temporary : no_object TemporaryDid w did \/ exists t : TemporaryDid, object_is w did t;
  q_texts : forall k rec, w !! k = Some rec -> rust_string (pr_value rec);
  q_pairwise : forall n rec, w !! (object_type Pairwise, n) = Some rec ->
    exists p : Pairwise, record_is rec p /\ pw_their_did p = n /\ rust_string n;
  q_fuel : forall l, objects_of Pairwise w l -> length l < dr_fuel d
}.

Lemma qualify_did_steps h did method_ s :
  let new := did_value_new (to_unqualified did) (Some method_) in
  qualify_did d h did method_ s =
  (let* curr_did := obj_get Did h did in
   let* _ := rename_did h did new (did_verkey curr_did) in
   let* _ := rename_temporary h did new in
   let* _ := update_dependent_entity_reference DidMetadata (dr_rnd d 2) h did new in
   let* _ := update_dependent_entity_reference Endpoint (dr_rnd d 3) h did new in
   let* c := obj_search Pairwise h in
   let* _ := for_each (dr_fuel d) c (err_msg InvalidState "No value for Pairwise record")
               (read_as pairwise_from_json "Cannot deserialize Pairwise: ") (pairwise_body h did new) 4 in
   sm_ret new) s.
Proof using Type.
  intros new. unfold qualify_did, validate_did, rename_did, rename_temporary, sm_bind, sm_lift, sm_ret. cbn [did_did].
  destruct (obj_get Did h did s) as [s1 [x|e|]]; [|done..]. cbn [did_did did_verkey]. fold new.
  destruct (obj_delete Did h did s1) as [s2 [[]|e|]]; [|done..].
  destruct (obj_add Did (dr_rnd d 0) h new (mkDid new (did_verkey x)) s2) as [s3 [j|e|]]; [|done..].
  destruct (attempt (obj_get TemporaryDid h did) s3) as [s4 [[t|]|e|]]; [|done..].
  destruct (obj_delete TemporaryDid h did s4) as [s5 [[]|e|]]; [|done..].
  by destruct (obj_add TemporaryDid (dr_rnd d 1) h new (mkTemporaryDid new (td_verkey t)) s5) as [s6 [j'|e|]].
Qed.

Lemma objects_of_only (T : Type) {Sd : Serde T} w w' l :
  (forall n, w' !! (object_type T, n) = w !! (object_type T, n)) -> objects_of T w' l -> objects_of T w l.
Proof using Type. intros H [Hnd Hl]. split; [done|]. intros n v. rewrite Hl, H. done. Qed.

(** The last step: the pairwise relations of a wallet whose relations are still those of [w]. *)
Definition all_renamed (w : PlainWallet) (did new : string) (w' : PlainWallet) : Prop :=
  forall n p, object_is w n p -> object_is w' n (renamed did new p).
Lemma ends_rename_pairwise s h w w5 did new Q :
  holds s h w5 -> qualifiable w did new -> (forall n, w5 !! (object_type Pairwise, n) = w !! (object_type Pairwise, n)) ->
  (forall s' w', holds s' h w' -> (forall k, k.1 <> object_type Pairwise -> w' !! k = w5 !! k) -> all_renamed w did new w' -> Q s' (Ok new)) ->
  ends (let* c := obj_search Pairwise h in
        let* _ := for_each (dr_fuel d) c (err_msg InvalidState "No value for Pairwise record")
                    (read_as pairwise_from_json "Cannot deserialize Pairwise: ") (pairwise_body h did new) 4 in
        sm_ret new) s Q.
Proof using OSL DL Hrnd.
  intros Hs Hq Hpw HQ. apply ends_seq. eapply ends_mono; [apply (law_obj_search Pairwise s h w5 Hs); reflexivity|].
  intros s1 r (Hs1 & c & l & -> & Hc & Hl). apply (objects_of_only _ _ _ _ Hpw) in Hl. apply ends_seq.
  eapply ends_mono; [apply (pairwise_loop _ _ _ _ _ l _ _ _ _ w5 Hs1 Hc)|].
  { apply Hl. } { by apply Hq. }
  { intros n v (r & Hr & Hv)%Hl. destruct (q_pairwise _ _ _ Hq _ _ Hr) as (p & Hp & Hn). exists p, r. rewrite Hpw. unfold record_is in Hp. by rewrite <-Hv. }
  intros s2 r ([i ->] & w' & Hs2 & Hother & Hall). apply ends_ret. apply (HQ s2 w' Hs2).
  - intros k Hk. apply Hother. by left.
  - intros n p (r & Hr & Hp). eapply Hall; [apply Hl; by exists r|done].
Qed.


(** When a DID has the qualified name already, the DID is deleted before the command fails: the
    wallet no longer knows it. *)
Theorem qualify_did_loses_did s h w did method_ seed :
  let new := did_value_new (to_unqualified did) (Some method_) in
  holds s h w -> knows w did seed -> rust_string new -> did <> new -> is_Some (w !! (object_type Did, new)) ->
  exists s' r, qualify_did d h did method_ s = (s', r) /\ is_error r WalletItemAlreadyExists /\
    holds s' h (base.delete (object_type Did, did) w).
Proof using OL DL Hrnd.
  intros new Hs (Hd & _ & rec & Hrec & Hdid) Hn Hne Hsome. apply ends_is. unfold qualify_did, validate_did. fold new. apply ends_seq, ends_lift, ends_seq.
  eapply ends_get; [apply DL|exact Hs|done|by exists rec|]. intros s1 Hs1. cbn [did_did did_verkey].
  apply ends_seq. eapply ends_delete; [apply DL|exact Hs1|done|by eexists|]. intros s2 Hs2.
  apply ends_seq. eapply ends_add_taken; [apply DL|exact Hs2|done|done|by rewrite lookup_delete_ne by congruence|].
  intros s3 e Hs3 He. split; [|done]. rewrite <-He. constructor.
Qed.
End Qualify.
