(* ===== verification/PairwiseCommands.v ===== *)
(** * Pairwise commands

    [PairwiseCommandExecutor] of [libindy/src/commands/pairwise.rs]: which of the own DIDs is used
    with which DID of another party.  The objects are those of [DidCommands], which renames them
    when a DID is qualified.

    Shown: a pairwise relation is created only between DIDs the wallet knows, is then found with
    its metadata and listed, and there is at most one for a DID of another party
    ([pairwise_life], [pairwise_needs_dids], [pairwise_listed]). *)

From stdpp Require Import base list strings numbers gmap.
From Stdlib Require Import ZArith Lia.
From S2P Require Import Prelude Errors Json Identifiers WalletCrypto WalletStorage Wallet ExportImport WalletService WalletCommands ObjectStore Trie External Verkey CryptoService CryptoCommands LedgerSigning LedgerRequests LedgerReplies DidCommands DidLife.

Open Scope string_scope.

Record PairwiseInfo := mkPairwiseInfo { pi_my_did : string; pi_metadata : option string }.
(** [From<Pairwise> for PairwiseInfo]. *)
Definition info_from_pairwise (p : Pairwise) : PairwiseInfo := mkPairwiseInfo (pw_my_did p) (pw_metadata p).
(** serde's writers. *)
Class PairwiseCodec := {
  pairwise_info_to_string : PairwiseInfo -> option string;
  pairwise_list_to_string : list string -> option string
}.

Section Executor.
Context {O : ObjectStore} {Os : ObjectSearch O} {P : PackCodec} {D : DidCodec} {Do : DidObjects} {Pc : PairwiseCodec}.
Context (rnd : Randomness) (fuel : nat).

Definition pairwise_exists (wallet_handle : Z) (their_did : string) : SM store bool := obj_exists Pairwise wallet_handle their_did.
Definition create_pairwise (wallet_handle : Z) (their_did my_did : string) (metadata : option string) : SM store unit :=
  let* _ := obj_record Did wallet_handle my_did in
  let* _ := obj_record TheirDid wallet_handle their_did in
  let* _ := obj_add Pairwise rnd wallet_handle their_did (mkPairwise my_did their_did metadata) in
  sm_ret ().
Definition list_pairwise (wallet_handle : Z) : SM store string :=
  let* pairwise_search := obj_search Pairwise wallet_handle in
  let* list_pairwise :=
    for_each fuel pairwise_search (err_msg InvalidStructure "Pairwise not found for id: ") Ok
      (fun _ pairwise_value acc => sm_ret (acc ++ [pairwise_value])%list) [] in
  sm_lift (ok_or (pairwise_list_to_string list_pairwise) (err_msg InvalidState "Can't serialize pairwise list")).
Definition get_pairwise (wallet_handle : Z) (their_did : string) : SM store string :=
  let* pairwise := obj_get Pairwise wallet_handle their_did in
  sm_lift (ok_or (pairwise_info_to_string (info_from_pairwise pairwise)) (err_msg InvalidState "Can't serialize PairwiseInfo")).
Definition set_pairwise_metadata (wallet_handle : Z) (their_did : string) (metadata : option string) : SM store unit :=
  let* pairwise := obj_get Pairwise wallet_handle their_did in
  let* _ := obj_update Pairwise rnd wallet_handle their_did (mkPairwise (pw_my_did pairwise) (pw_their_did pairwise) metadata) in
  sm_ret ().

Inductive PairwiseCommand :=
  | PairwiseExists (wallet_handle : Z) (their_did : string)
  | CreatePairwise (wallet_handle : Z) (their_did my_did : string) (metadata : option string)
  | ListPairwise (wallet_handle : Z)
  | GetPairwise (wallet_handle : Z) (their_did : string)
  | SetPairwiseMetadata (wallet_handle : Z) (their_did : string) (metadata : option string).
(** What the callback is called with. *)
Inductive PairwiseAnswer := PABool (r : outcome bool) | PADone (r : outcome unit) | PAText (r : outcome string).
Definition execute_pairwise (command : PairwiseCommand) (s : store) : store * PairwiseAnswer :=
  match command with
  | PairwiseExists h their_did => let (s', r) := pairwise_exists h their_did s in (s', PABool r)
  | CreatePairwise h their_did my_did metadata => let (s', r) := create_pairwise h their_did my_did metadata s in (s', PADone r)
  | ListPairwise h => let (s', r) := list_pairwise h s in (s', PAText r)
  | GetPairwise h their_did => let (s', r) := get_pairwise h their_did s in (s', PAText r)
  | SetPairwiseMetadata h their_did metadata => let (s', r) := set_pairwise_metadata h their_did metadata s in (s', PADone r)
  end.
End Executor.

Section Facts.
Context {O : ObjectStore} {OL : ObjectLaws O} {Os : ObjectSearch O} {OSL : ObjectSearchLaws OL Os}.
Context {P : PackCodec} {D : DidCodec} {Do : DidObjects} {DL : DidObjectLaws Do} {Pc : PairwiseCodec}.
Context (rnd : Randomness) (Hrnd : randomness_ok rnd).

(** There is an object of this type and name. *)
Definition there (T : Type) {Sd : Serde T} (w : PlainWallet) (n : string) : Prop := is_Some (w !! (object_type T, n)).

Lemma ends_record (T : Type) {Sd : Serde T} {SL : SerdeLaws T} s h w n Q :
  holds s h w -> rust_string n ->
  (there T w n -> forall s' r, holds s' h w -> Q s' (Ok r)) ->
  (no_object T w n -> forall s' e, holds s' h w -> err_kind e = WalletItemNotFound -> Q s' (Err e)) -> ends (obj_record T h n) s Q.
Proof using OL.
  intros Hs Hn Hthere Hnone. eapply ends_mono; [by apply law_obj_record; [..|apply serde_type|]|]. intros s' r [Hs' H].
  unfold there, no_object in *. destruct (w !! (object_type T, n)).
  - destruct H as [o ->]. by apply Hthere.
  - destruct (is_error_inv _ _ H) as (e & -> & He). by apply Hnone.
Qed.

(** The own DID and that of the other party have to be there; the first that is not is reported. *)
Theorem pairwise_needs_dids s h w their_did my_did metadata :
  holds s h w -> rust_string their_did -> rust_string my_did -> no_object Did w my_did \/ no_object TheirDid w their_did ->
  exists s' r, create_pairwise rnd h their_did my_did metadata s = (s', r) /\ is_error r WalletItemNotFound /\ holds s' h w.
Proof using OL DL.
  intros Hs Ht Hm Hno. apply ends_is. unfold create_pairwise. apply ends_seq. eapply ends_record; [apply DL|exact Hs|done| |].
  - intros Hthere s1 r Hs1. apply ends_seq. eapply ends_record; [apply DL|exact Hs1|done| |].
    + intros Htheir. exfalso. unfold there, no_object in *.
      destruct Hno as [Hno|Hno]; [destruct Hthere as [x Hx]|destruct Htheir as [x Hx]]; by rewrite Hno in Hx.
    + intros _ s2 e Hs2 He. split; [|done]. rewrite <-He. constructor.
  - intros _ s1 e Hs1 He. split; [|done]. rewrite <-He. constructor.
Qed.

Lemma ends_get_pairwise s h w n p text Q :
  holds s h w -> rust_string n -> object_is w n p -> pairwise_info_to_string (info_from_pairwise p) = Some text ->
  (forall s', holds s' h w -> Q s' (Ok text)) -> ends (get_pairwise h n) s Q.
Proof using OL DL.
  intros Hs Hn Hp Ht HQ. unfold get_pairwise. apply ends_seq. eapply ends_get; [apply DL|exact Hs|done|exact Hp|].
  intros s1 Hs1. apply ends_lift. rewrite Ht. by apply HQ.
Qed.

(** The life of a pairwise relation.  Between an own DID and a known DID of another party,
    for which there is none yet, it is created; then it exists, is answered with the own DID
    and the metadata, and cannot be created again; new metadata replaces the old and changes
    nothing else. *)
Theorem pairwise_life s h w their_did my_did metadata metadata' text' :
  holds s h w -> rust_string their_did -> rust_string my_did -> there Did w my_did -> there TheirDid w their_did ->
  no_object Pairwise w their_did -> pairwise_info_to_string (mkPairwiseInfo my_did metadata') = Some text' ->
  exists s1 w1, create_pairwise rnd h their_did my_did metadata s = (s1, Ok ()) /\ holds s1 h w1 /\
    object_is w1 their_did (mkPairwise my_did their_did metadata) /\
    (exists s2, pairwise_exists h their_did s1 = (s2, Ok true) /\ holds s2 h w1) /\
    (exists s2 r, create_pairwise rnd h their_did my_did metadata' s1 = (s2, r) /\ is_error r WalletItemAlreadyExists /\ holds s2 h w1) /\
    exists s2 w2, set_pairwise_metadata rnd h their_did metadata' s1 = (s2, Ok ()) /\ holds s2 h w2 /\
      (exists s3, get_pairwise h their_did s2 = (s3, Ok text') /\ holds s3 h w2) /\
      forall k, k <> (object_type Pairwise, their_did) -> w2 !! k = w !! k.
Proof using OL DL Hrnd.
  intros Hs Ht Hm Hdid Htheir Hno Htext.
  assert (Hcreate : forall s w m Q, holds s h w -> there Did w my_did -> there TheirDid w their_did ->
    (forall s', holds s' h w -> ends (let* _ := obj_add Pairwise rnd h their_did (mkPairwise my_did their_did m) in sm_ret ()) s' Q) ->
    ends (create_pairwise rnd h their_did my_did m) s Q).
  { intros s0 w0 m Q H0 [x Hx] [y Hy] HQ. unfold create_pairwise. apply ends_seq. eapply ends_record; [apply DL|exact H0|done| |].
    - intros _ s1 _ Hs1. apply ends_seq. eapply ends_record; [apply DL|exact Hs1|done| |]; [intros _ s2 _ Hs2; by apply HQ|].
      intros Hn. unfold no_object in Hn. by rewrite Hy in Hn.
    - intros Hn. unfold no_object in Hn. by rewrite Hx in Hn. }
  assert (H : ends (create_pairwise rnd h their_did my_did metadata) s (fun s1 r => r = Ok () /\ exists j,
    from_json j = Some (mkPairwise my_did their_did metadata) /\ holds s1 h (<[(object_type Pairwise, their_did) := mkPlainRecord j ∅]> w))).
  { eapply Hcreate; [exact Hs|done|done|]. intros s1 Hs1. apply ends_seq. eapply ends_add; [apply DL|exact Hs1|done|done|done|].
    intros s2 j Hj Hs2. apply ends_ret. eauto. }
  apply ends_is in H as (s1 & r & E1 & -> & j & Hj & Hs1). set (w1 := <[_ := _]> w) in Hs1.
  assert (Hl : w1 !! (object_type Pairwise, their_did) = Some (mkPlainRecord j ∅)) by apply lookup_insert_eq.
  assert (Hp : object_is w1 their_did (mkPairwise my_did their_did metadata)) by (by exists (mkPlainRecord j ∅)).
  exists s1, w1. split_and!; [done..| | |].
  - pose proof (law_obj_exists Pairwise s1 h w1 their_did Hs1 serde_type Ht) as H. apply ends_is in H as (s2 & r & E2 & Hs2 & ->).
    exists s2. split; [|done]. unfold pairwise_exists. rewrite E2, bool_decide_eq_true_2; [done|]. by rewrite Hl.
  - apply ends_is. eapply Hcreate; [exact Hs1|by unfold there, w1; rewrite lookup_insert_ne..|]. intros s2 Hs2. apply ends_seq.
    eapply ends_add_taken; [apply DL|exact Hs2|done|done|by rewrite Hl|]. intros s3 e Hs3 He. split; [|done]. rewrite <-He. constructor.
  - assert (H : ends (set_pairwise_metadata rnd h their_did metadata') s1 (fun s2 r => r = Ok () /\ exists j',
      from_json j' = Some (mkPairwise my_did their_did metadata') /\
      holds s2 h (<[(object_type Pairwise, their_did) := mkPlainRecord j' ∅]> w1))).
    { unfold set_pairwise_metadata. apply ends_seq. eapply ends_get; [apply DL|exact Hs1|done|exact Hp|]. intros s2 Hs2. apply ends_seq.
      eapply ends_update; [apply DL|exact Hs2|done|done|exact Hl|]. intros s3 j' Hj' Hs3. apply ends_ret. eauto. }
    apply ends_is in H as (s2 & r & E2 & -> & j' & Hj' & Hs2). exists s2. eexists. split; [done|]. split; [exact Hs2|]. split.
    + assert (H : ends (get_pairwise h their_did) s2 (fun s3 r => r = Ok text' /\ holds s3 h (<[(object_type Pairwise, their_did) := mkPlainRecord j' ∅]> w1))).
      { eapply ends_get_pairwise; [exact Hs2|done|eexists; split; [apply lookup_insert_eq|exact Hj']|exact Htext|]. by split. }
      apply ends_is in H as (s3 & r & E3 & -> & Hs3). by exists s3.
    + intros k Hk. unfold w1. by rewrite !lookup_insert_ne.
Qed.

Lemma collect_loop h l : forall fuel e s c acc w,
  holds s h w -> showing s h c l -> length l < fuel ->
  ends (for_each fuel c e Ok (fun _ (v : string) acc => sm_ret (acc ++ [v])%list) acc) s
    (fun s' r => r = Ok (acc ++ l.*2)%list /\ holds s' h w).
Proof using OSL.
  induction l as [|[n v] l IH]; intros [|fuel] e s c acc w Hs Hc Hf; try (cbn in Hf; lia); cbn [for_each]; apply ends_seq.
  - eapply ends_mono; [by apply (law_obj_next s h w c [])|]. intros s1 r (Hs1 & c' & _ & ->). cbn. by rewrite app_nil_r.
  - eapply ends_mono; [by apply (law_obj_next s h w c ((n, v) :: l))|]. intros s1 r (Hs1 & c' & Hc' & ->).
    cbn [head fmap option_fmap option_map fst snd]. apply ends_seq, ends_lift. cbn [ok_or]. apply ends_seq, ends_lift, ends_seq, ends_ret.
    eapply ends_mono; [apply (IH fuel e s1 c' _ w Hs1 Hc'); cbn in Hf; lia|]. intros s2 r [-> Hs2]. split; [|done].
    by rewrite <-app_assoc.
Qed.
(** The list is that of the values of all relations, each once. *)
Theorem pairwise_listed fuel s h w :
  holds s h w -> (forall l, objects_of Pairwise w l -> length l < fuel) -> (forall l, is_Some (pairwise_list_to_string l)) ->
  exists s' text l, list_pairwise fuel h s = (s', Ok text) /\ holds s' h w /\ objects_of Pairwise w l /\
    pairwise_list_to_string l.*2 = Some text.
Proof using OSL DL.
  intros Hs Hf Ht.
  assert (H : ends (list_pairwise fuel h) s (fun s' r => holds s' h w /\ exists l text, r = Ok text /\ objects_of Pairwise w l /\
    pairwise_list_to_string l.*2 = Some text)).
  { unfold list_pairwise. apply ends_seq. eapply ends_mono; [apply (law_obj_search Pairwise s h w Hs serde_type)|].
    intros s1 r (Hs1 & c & l & -> & Hc & Hl). apply ends_seq. eapply ends_mono; [apply (collect_loop h l _ _ s1 c [] w Hs1 Hc (Hf l Hl))|].
    intros s2 r [-> Hs2]. apply ends_lift. destruct (Ht l.*2) as [text E]. cbn [app]. rewrite E. split; [done|]. by exists l, text. }
  apply ends_is in H as (s' & r & E & Hs' & l & text & -> & H). by exists s', text, l.
Qed.
End Facts.
