(* ===== verification/DidRun.v ===== *)
(** * The DID commands as a process

    The worker thread, the application and the ledger executor take turns: a call is put in the
    queue, a command of the queue is executed, a request is answered ([reachable]); other
    executors change the wallets and draw ids meanwhile.

    Shown: no call is lost or answered twice, and a command that is put aside has one answer of
    the ledger under way ([did_calls_conserved]); the key of a DID that the wallet does not know
    is asked from the ledger, stored and answered ([key_for_did_from_ledger]).  Two defects: of
    two such calls the second fails ([second_lookup_fails]); a reply that names the DID in another
    way than the call makes the thread panic, for the command is executed again while the table
    of the commands is borrowed ([renamed_endpoint_panics]). *)

From stdpp Require Import base list strings numbers gmap.
From Stdlib Require Import ZArith Lia.
From S2P Require Import Prelude Errors Json Identifiers WalletCrypto WalletStorage Wallet ExportImport WalletService WalletCommands ObjectStore Trie External JsonText Verkey CryptoService CryptoCommands LedgerSigning LedgerRequests LedgerReplies DidCommands DidLife.

Open Scope string_scope.

Section Run.
Context {O : ObjectStore} {Os : ObjectSearch O} {C : Codec} {Ed : Ed25519} {U : UrlsafeCodec} {Sc : SeedCodec} {P : PackCodec}.
Context {D : DidCodec} {Do : DidObjects}.

(** ** Steps *)
Abbreviation Callback := nat (only parsing).
Definition call_of (c : DidCommand) : option Callback :=
  match c with
  | CreateAndStoreMyDid _ _ cb | ReplaceKeysStart _ _ _ cb | ReplaceKeysApply _ _ cb | StoreTheirDid _ _ cb
  | GetMyDidWithMeta _ _ cb | ListMyDidsWithMeta _ cb | KeyForDid _ _ _ cb | KeyForLocalDid _ _ cb
  | SetEndpointForDid _ _ _ cb | GetEndpointForDid _ _ _ cb | SetDidMetadata _ _ _ cb | GetDidMetadata _ _ cb
  | AbbreviateVerkey _ _ cb | QualifyDid _ _ _ cb => Some cb
  | GetNymAck _ _ _ _ | GetAttribAck _ _ _ => None
  end.
Definition ack_of (c : DidCommand) : option Z :=
  match c with
  | GetNymAck _ _ _ i | GetAttribAck _ _ i => Some i
  | _ => None
  end.
Definition ack_id (a : Ack) : Z := match a with NymAck _ _ i => i | AttribAck _ i => i end.

Definition set_queue q (st : Process) :=
  mkProcess (objects st) (ids_counter st) (deferred_commands st) (borrowed st) q (requests st) (answers st).
Definition set_requests r (st : Process) :=
  mkProcess (objects st) (ids_counter st) (deferred_commands st) (borrowed st) (queue st) r (answers st).
Definition set_ids s n (st : Process) :=
  mkProcess s n (deferred_commands st) (borrowed st) (queue st) (requests st) (answers st).
Definition send (c : DidCommand) (st : Process) : Process := set_queue (queue st ++ [c])%list st.

Inductive internal_step (st : Process) : Process -> Prop :=
  | step_execute d c q st' : queue st = c :: q -> execute d c (set_queue q st) = Some st' -> internal_step st st'
  | step_reply l1 p r a l2 result :
      requests st = (l1 ++ (p, r, a) :: l2)%list -> internal_step st (send (acknowledge a result) (set_requests (l1 ++ l2)%list st)).

(** The states of a process, with the callbacks that the application has passed so far. *)
Inductive reachable : list Callback -> Process -> Prop :=
  | reach_start s n : (1 <= n)%Z -> reachable [] (mkProcess s n ∅ false [] [] [])
  | reach_send sent st c cb : reachable sent st -> call_of c = Some cb -> reachable (cb :: sent) (send c st)
  | reach_step sent st st' : reachable sent st -> internal_step st st' -> reachable sent st'
  | reach_other sent st s n : reachable sent st -> (ids_counter st <= n)%Z -> reachable sent (set_ids s n st).

(** ** Bookkeeping *)

(** The calls that wait for their answer, and the answers of the ledger to come. *)
Definition waiting (st : Process) : list Callback :=
  (omap call_of (queue st) ++ omap call_of (map_to_list (deferred_commands st)).*2)%list.
Definition acks (st : Process) : list Z := (omap ack_of (queue st) ++ ((fun x => ack_id x.2) <$> requests st))%list.

Record balanced (sent : list Callback) (st : Process) : Prop := {
  b_calls : (waiting st ++ (answers st).*1)%list ≡ₚ sent;
  b_acks : acks st ≡ₚ (map_to_list (deferred_commands st)).*1;
  b_free : borrowed st = false;
  b_counter : (1 <= ids_counter st)%Z;
  b_ids : forall i c, deferred_commands st !! i = Some c -> exists n, (1 < n <= ids_counter st)%Z /\ i = as_i32 n;
  b_lookups : forall i c, deferred_commands st !! i = Some c ->
    (exists p h did cb, c = KeyForDid p h did cb) \/ exists h p did cb, c = GetEndpointForDid h p did cb
}.

(** What executing a call does: it answers it or puts it aside. *)
Inductive executed (c : DidCommand) (st : Process) : Process -> Prop :=
  | is_answered s cb a : call_of c = Some cb -> executed c st (answer cb a (set_objects s st))
  | is_put_aside s cb p r a i :
      borrowed st = false -> call_of c = Some cb ->
      (exists p h did cb, c = KeyForDid p h did cb) \/ (exists h p did cb, c = GetEndpointForDid h p did cb) ->
      i = as_i32 (ids_counter st + 1) -> ack_id a = i ->
      executed c st (mkProcess s (ids_counter st + 1) (<[i := c]> (deferred_commands st)) false (queue st)
        (requests st ++ [(p, r, a)])%list (answers st)).

Lemma call_executed {A : Type} (kind : outcome A -> Answer) c cb m st st' :
  call kind cb m st = Some st' -> call_of c = Some cb -> executed c st st'.
Proof using Type.
  unfold call. intros H Hc. destruct (m (objects st)) as [s' [x|e|]]; [..|done]; injection H as <-; by eapply is_answered.
Qed.

Lemma key_for_did_executed d p h did cb st st' :
  key_for_did d p h did cb st = Some st' -> executed (KeyForDid p h did cb) st st'.
Proof using Type.
  unfold key_for_did, validate_did. intros H.
  destruct (_wallet_get_my_did h did (objects st)) as [s1 [x|e|]]; [injection H as <-; by eapply is_answered| |done].
  destruct (decide _); [|injection H as <-; by eapply is_answered]. cbn [objects set_objects] in H.
  destruct (_wallet_get_their_did h did s1) as [s2 [x|e'|]]; [injection H as <-; by apply (is_answered _ st s2)| |done].
  destruct (decide _); [|injection H as <-; by apply (is_answered _ st s2)]. unfold _fetch_their_did_from_ledger, _defer_command in H.
  cbn [borrowed set_objects] in H. destruct (borrowed st) eqn:Hb; [done|]. cbn [mbind option_bind] in H.
  destruct (build_get_nym_request _ _ _ _); [|done..]. injection H as <-. unfold submit.
  cbn [objects set_objects ids_counter deferred_commands borrowed queue requests answers]. econstructor; try done. left; eauto.
Qed.
Lemma get_endpoint_executed d h p did cb st st' :
  get_endpoint_for_did d h p did cb st = Some st' -> executed (GetEndpointForDid h p did cb) st st'.
Proof using Type.
  unfold get_endpoint_for_did, validate_did. intros H.
  destruct (obj_get Endpoint h did (objects st)) as [s1 [x|e|]]; [injection H as <-; by eapply is_answered| |done].
  destruct (decide _); [|injection H as <-; by eapply is_answered]. unfold _fetch_attrib_from_ledger, _defer_command in H.
  cbn [borrowed set_objects] in H. destruct (borrowed st) eqn:Hb; [done|]. cbn [mbind option_bind] in H.
  destruct (build_get_attrib_request _ _ _ _ _ _ _); [|done..]. injection H as <-. unfold submit.
  cbn [objects set_objects ids_counter deferred_commands borrowed queue requests answers]. econstructor; try done. right; eauto.
Qed.

Lemma execute_call_executed d c cb st st' : call_of c = Some cb -> execute_call d c st = Some st' -> executed c st st'.
Proof using Type.
  destruct c; cbn [call_of execute_call]; intros Hc H; try done;
    try (eapply call_executed; [exact H|reflexivity]); [by eapply key_for_did_executed|by eapply get_endpoint_executed].
Qed.

(** ** The books balance *)
Lemma omap_cons_some {A B : Type} (f : A -> option B) x y l : f x = Some y -> omap f (x :: l) = y :: omap f l.
Proof using Type. intros H. cbn. by rewrite H. Qed.
Lemma omap_cons_none {A B : Type} (f : A -> option B) x l : f x = None -> omap f (x :: l) = omap f l.
Proof using Type. intros H. cbn. by rewrite H. Qed.
Lemma call_or_ack c : match call_of c with Some _ => ack_of c = None | None => is_Some (ack_of c) end.
Proof using Type. by destruct c; cbn; eauto. Qed.
Lemma lookup_calls c : (exists p h did cb, c = KeyForDid p h did cb) \/ (exists h p did cb, c = GetEndpointForDid h p did cb) ->
  exists cb, call_of c = Some cb /\ forall err st, exists a, _call_error_cb c err st = answer cb a st.
Proof using Type. intros [(p & h & did & cb & ->)|(h & p & did & cb & ->)]; exists cb; split; try done; intros err st; cbn; eauto. Qed.

(** A command leaves the queue and is answered or put aside. *)
Lemma balanced_executed sent st c cb q st' :
  balanced sent st -> queue st = c :: q -> call_of c = Some cb -> executed c (set_queue q st) st' -> (ids_counter st' <= 2 ^ 32)%Z ->
  balanced sent st'.
Proof using Type.
  intros Hb Hq Hc He Hn. pose proof (call_or_ack c) as Ha. rewrite Hc in Ha. destruct Hb as [Hcalls Hacks Hfree Hone Hids Hl].
  unfold waiting, acks in *. rewrite Hq in Hcalls, Hacks. rewrite (omap_cons_some _ _ cb) in Hcalls by done. rewrite omap_cons_none in Hacks by done.
  inversion He as [s cb' a Hc' E|s cb' p r a i Hbo Hc' Hlook Hi Hai E]; subst st'; rewrite Hc in Hc'; injection Hc' as <-.
  - constructor; unfold waiting, acks; cbn [queue answers deferred_commands requests ids_counter borrowed answer set_objects set_queue]; try done; try lia.
    rewrite fmap_app, <-Hcalls. cbn. rewrite app_assoc. by rewrite <-Permutation_cons_append.
  - cbn [queue answers deferred_commands requests ids_counter borrowed answer set_objects set_queue] in *.
    assert (Hnew : deferred_commands st !! i = None).
    { destruct (deferred_commands st !! i) as [c'|] eqn:El; [|done]. destruct (Hids _ _ El) as (n & Hn' & En).
      rewrite Hi in En. apply as_i32_inj in En; lia. }
    constructor; unfold waiting, acks; cbn [queue answers deferred_commands requests ids_counter borrowed answer set_objects set_queue]; try done; try lia.
    + rewrite map_to_list_insert by done. cbn. rewrite Hc. rewrite <-Hcalls. cbn. by rewrite <-Permutation_middle.
    + rewrite map_to_list_insert by done. rewrite fmap_app. cbn. rewrite Hai, app_assoc, Hacks. by rewrite <-Permutation_cons_append.
    + intros j c'. destruct (decide (j = i)) as [->|Hj]; [|rewrite lookup_insert_ne by done].
      * intros _. exists (ids_counter st + 1)%Z. split; [lia|done].
      * intros H. destruct (Hids _ _ H) as (n & ? & ?). exists n. split; [lia|done].
    + intros j c'. destruct (decide (j = i)) as [->|Hj]; [|rewrite lookup_insert_ne by done; apply Hl].
      rewrite lookup_insert_eq. by intros [= <-].
Qed.

(** An answer of the ledger leaves the queue: the command that was put aside for it is answered. *)
Lemma deferred_answered d i err st cmd st' :
  (exists p h did cb, cmd = KeyForDid p h did cb) \/ (exists h p did cb, cmd = GetEndpointForDid h p did cb) ->
  borrowed st = false -> deferred_commands st !! i = Some cmd -> _execute_deferred_command d i err st = Some st' ->
  exists s cb a, call_of cmd = Some cb /\ st' = answer cb a (set_objects s (set_deferred (base.delete i (deferred_commands st)) st)).
Proof using Type.
  intros Hl Hb Hi. unfold _execute_deferred_command. rewrite Hb, Hi. destruct (lookup_calls cmd Hl) as (cb & Hc & He). destruct err as [err|].
  - destruct (He err (set_borrowed true (set_deferred (base.delete i (deferred_commands st)) st))) as [a ->].
    intros [= <-]. exists (objects st), cb, a. split; [done|]. unfold answer, set_borrowed, set_objects, set_deferred. cbn. by rewrite Hb.
  - intros (st1 & H & ->)%fmap_Some. apply (execute_call_executed d cmd cb) in H; [|done].
    inversion H as [s cb' a Hc' E|]; subst; [|done]. rewrite Hc in Hc'. injection Hc' as <-. exists s, cb, a. split; [done|].
    unfold answer, set_borrowed, set_objects, set_deferred. cbn. by rewrite Hb.
Qed.
Lemma balanced_acknowledged sent st c i q d m st' :
  balanced sent st -> queue st = c :: q -> ack_of c = Some i -> run_ack d m i (set_queue q st) = Some st' -> balanced sent st'.
Proof using Type.
  intros [Hcalls Hacks Hfree Hone Hids Hl] Hq Ha Hr. pose proof (call_or_ack c) as Hc. rewrite Ha in Hc.
  destruct (call_of c) eqn:Hcc; [done|]. unfold waiting, acks in *. rewrite Hq in Hcalls, Hacks.
  rewrite omap_cons_none in Hcalls by done. rewrite (omap_cons_some _ _ i) in Hacks by done.
  assert (exists cmd, deferred_commands st !! i = Some cmd) as [cmd Hi].
  { assert (Hin : i ∈ (map_to_list (deferred_commands st)).*1) by (rewrite <-Hacks; by left).
    apply list_elem_of_fmap in Hin as ([i' cmd] & -> & Hin%elem_of_map_to_list). by exists cmd. }
  assert (exists err s, _execute_deferred_command d i err (set_objects s (set_queue q st)) = Some st') as (err & s & H).
  { unfold run_ack in Hr. destruct (m (objects (set_queue q st))) as [s [x|e|]]; [eauto..|done]. }
  eapply (deferred_answered d i err (set_objects s (set_queue q st)) cmd) in H as (s' & cb & a & Hcb & ->); [|by eapply Hl|done|done].
  pose proof (map_to_list_delete _ _ _ Hi) as Hdel. rewrite <-Hdel in Hcalls, Hacks. cbn in Hcalls, Hacks. rewrite Hcb in Hcalls.
  constructor; unfold waiting, acks; cbn [queue answers deferred_commands requests ids_counter borrowed answer set_objects set_queue set_deferred]; try done.
  - rewrite fmap_app, <-Hcalls. cbn. rewrite <-Permutation_middle, app_nil_r. cbn. by rewrite <-(Permutation_middle (omap call_of q)), <-Permutation_middle.
  - by apply (Permutation_cons_inv (a := i)).
  - intros j c' [_ H]%lookup_delete_Some. by eapply Hids.
  - intros j c' [_ H]%lookup_delete_Some. by eapply Hl.
Qed.

Lemma balanced_step sent st st' : balanced sent st -> internal_step st st' -> (ids_counter st' <= 2 ^ 32)%Z -> balanced sent st'.
Proof using Type.
  intros Hb [d c q st1 Hq He|l1 p r a l2 result Hr] Hn.
  - destruct (call_of c) as [cb|] eqn:Hc.
    + eapply balanced_executed; [exact Hb|exact Hq|exact Hc| |done]. eapply execute_call_executed; [exact Hc|].
      destruct c; try done; exact He.
    + destruct c; try done; cbn [execute] in He; by eapply balanced_acknowledged.
  - assert (Hack : call_of (acknowledge a result) = None /\ ack_of (acknowledge a result) = Some (ack_id a)) by by destruct a.
    destruct Hack as [Hc Ha], Hb as [Hcalls Hacks Hfree Hone Hids Hl]. unfold waiting, acks in *. rewrite Hr in Hacks.
    constructor; unfold waiting, acks; cbn [queue answers deferred_commands requests ids_counter borrowed send set_requests set_queue]; try done.
    + rewrite omap_app. cbn. by rewrite Hc, app_nil_r.
    + rewrite <-Hacks, omap_app, !fmap_app. cbn. rewrite Ha. cbn. rewrite <-!app_assoc. cbn. by rewrite <-!Permutation_middle.
Qed.
Lemma step_counter st st' : internal_step st st' -> (ids_counter st <= ids_counter st')%Z.
Proof using Type.
  intros [d c q st1 Hq He|]; [|done].
  assert (Hcall : forall c cb st st', call_of c = Some cb -> execute_call d c st = Some st' -> (ids_counter st <= ids_counter st')%Z).
  { intros c' cb s s' Hc H. apply (execute_call_executed d c' cb) in H; [|done]. inversion H; subst; cbn; lia. }
  assert (Hack : forall m i st st', run_ack d m i st = Some st' -> (ids_counter st <= ids_counter st')%Z).
  { intros m i s s' H. assert (exists err o, _execute_deferred_command d i err (set_objects o s) = Some s') as (err & o & He').
    { unfold run_ack in H. destruct (m (objects s)) as [o [x|e|]]; [eauto..|done]. }
    unfold _execute_deferred_command in He'. destruct (borrowed _); [done|].
    destruct (deferred_commands _ !! i) as [cmd|]; [|injection He' as <-; cbn; lia].
    apply fmap_Some in He' as (s1 & He' & ->). destruct err as [err|]; [injection He' as <-; destruct cmd; cbn; lia|].
    destruct (call_of cmd) as [cb|] eqn:Hc; [by apply (Hcall _ _ _ _ Hc) in He'|]. destruct cmd; try done; injection He' as <-; cbn; lia. }
  change (ids_counter st <= ids_counter st1)%Z with (ids_counter (set_queue q st) <= ids_counter st1)%Z.
  destruct (call_of c) as [cb|] eqn:Hc; [apply (Hcall c cb); [done|]|]; destruct c; try done; by apply Hack in He.
Qed.

End Run.

(** ** Asking the ledger *)
Section Ledger.
Context {O : ObjectStore} {OL : ObjectLaws O} {Os : ObjectSearch O} {C : Codec} {Ed : Ed25519} {U : UrlsafeCodec} {Sc : SeedCodec}.
Context {P : PackCodec} {D : DidCodec} {Do : DidObjects} {DL : DidObjectLaws Do}.
Context (d : Draws) (Hrnd : forall i, randomness_ok (dr_rnd d i)).

(** A reply that tells the key of a DID; the call spelled the DID this way. *)
Definition tells_key (did reply vk : string) : Prop :=
  exists v data dv nym, json_from_str reply = Some v /\
    read_reply read_nym_result v = Some (ReplyV0 (GetNymReplyResultV0 (Some data))) /\
    json_from_str data = Some dv /\ read_nym_data_v0 dv = Some nym /\
    create_their_did (mkTheirDidInfo (short_did_qualify (n0_dest nym) (method did)) (n0_verkey nym)) = Ok (mkTheirDid did vk).
(** A reply that tells the endpoint of this name. *)
Definition tells_endpoint (name reply : string) (endpoint : Endpoint) : Prop :=
  exists v data dv, json_from_str reply = Some v /\
    read_reply read_attr_result v = Some (ReplyV0 (GetAttrReplyResultV0 (mkAttV0 data name))) /\
    json_from_str data = Some dv /\ read_attrib_data dv = Some endpoint.

Lemma ends_nym_ack s h did reply vk Q :
  tells_key did reply vk ->
  ends (let* _ := obj_add TheirDid (dr_rnd d 0) h did (mkTheirDid did vk) in sm_ret ()) s Q ->
  ends (_get_nym_ack d h did (Ok reply)) s Q.
Proof using Type.
  intros (v & data & dv & nym & Hv & Hr & Hdv & Hn & Hc) H. unfold _get_nym_ack. apply ends_seq, ends_lift. apply ends_seq, ends_lift.
  rewrite Hv. cbn [mbind option_bind]. rewrite Hr. cbn [ok_or]. apply ends_seq, ends_lift. cbn [reply_result]. apply ends_seq, ends_seq, ends_lift.
  rewrite Hdv. cbn [mbind option_bind]. rewrite Hn. cbn [ok_or]. apply ends_ret. apply ends_seq, ends_lift. rewrite Hc. exact H.
Qed.
Lemma ends_attrib_ack s h name reply endpoint Q :
  tells_endpoint name reply endpoint ->
  ends (let* _ := obj_add Endpoint (dr_rnd d 0) h name endpoint in sm_ret ()) s Q ->
  ends (_get_attrib_ack d h (Ok reply)) s Q.
Proof using Type.
  intros (v & data & dv & Hv & Hr & Hdv & He) H. unfold _get_attrib_ack. apply ends_seq, ends_lift. apply ends_seq, ends_lift.
  rewrite Hv. cbn [mbind option_bind]. rewrite Hr. cbn [ok_or]. apply ends_seq, ends_lift. cbn [reply_result a0_data a0_dest]. apply ends_seq, ends_lift.
  rewrite Hdv. cbn [mbind option_bind]. rewrite He. cbn [ok_or]. exact H.
Qed.

Lemma unknown_did_asked p h did cb st w :
  holds (objects st) h w -> rust_string did -> no_object Did w did -> no_object TheirDid w did ->
  exists s, holds s h w /\ key_for_did d p h did cb st =
    _fetch_their_did_from_ledger d h p did (KeyForDid p h did cb) (set_objects s st).
Proof using OL DL.
  intros Hs Hd Hno Hnt. unfold key_for_did, validate_did, _wallet_get_my_did, _wallet_get_their_did.
  assert (H : ends (obj_get Did h did) (objects st) (fun s r => holds s h w /\ exists e, r = Err e /\ err_kind e = WalletItemNotFound))
    by (eapply ends_get_none; [apply DL|exact Hs|done|done|]; eauto).
  apply ends_is in H as (s1 & r & -> & Hs1 & e & -> & He). rewrite decide_True by done. cbn [objects set_objects].
  assert (H : ends (obj_get TheirDid h did) s1 (fun s r => holds s h w /\ exists e, r = Err e /\ err_kind e = WalletItemNotFound))
    by (eapply ends_get_none; [apply DL|exact Hs1|done|done|]; eauto).
  apply ends_is in H as (s2 & r & -> & Hs2 & e' & -> & He'). rewrite decide_True by done. by exists s2.
Qed.
Lemma known_did_answered p h did cb st w vk :
  holds (objects st) h w -> rust_string did -> no_object Did w did -> object_is w did (mkTheirDid did vk) ->
  exists s, holds s h w /\ key_for_did d p h did cb st = Some (answer cb (AText (Ok vk)) (set_objects s st)).
Proof using OL DL.
  intros Hs Hd Hno Ht. unfold key_for_did, validate_did, _wallet_get_my_did, _wallet_get_their_did.
  assert (H : ends (obj_get Did h did) (objects st) (fun s r => holds s h w /\ exists e, r = Err e /\ err_kind e = WalletItemNotFound))
    by (eapply ends_get_none; [apply DL|exact Hs|done|done|]; eauto).
  apply ends_is in H as (s1 & r & -> & Hs1 & e & -> & He). rewrite decide_True by done. cbn [objects set_objects].
  assert (H : ends (obj_get TheirDid h did) s1 (fun s r => holds s h w /\ r = Ok (mkTheirDid did vk)))
    by (eapply ends_get; [apply DL|exact Hs1|done|exact Ht|]; eauto).
  apply ends_is in H as (s2 & r & -> & Hs2 & ->). by exists s2.
Qed.


(** Of two calls for the key of one DID that are both put aside, the second to be answered by the
    ledger fails, for the first one stored the DID. *)
Theorem second_lookup_fails p h did cb st w reply vk i :
  holds (objects st) h w -> rust_string did -> is_Some (w !! (object_type TheirDid, did)) -> borrowed st = false ->
  deferred_commands st !! i = Some (KeyForDid p h did cb) -> tells_key did reply vk ->
  exists st' e, execute d (acknowledge (NymAck h did i) (Ok reply)) st = Some st' /\
    err_kind e = WalletItemAlreadyExists /\ answers st' = (answers st ++ [(cb, AText (Err e))])%list.
Proof using OL DL Hrnd.
  intros Hs Hd Hsome Hb Hi Hr. cbn [acknowledge execute]. unfold get_nym_ack, run_ack.
  assert (H : ends (_get_nym_ack d h did (Ok reply)) (objects st) (fun s r => exists e, r = Err e /\ err_kind e = WalletItemAlreadyExists)).
  { eapply ends_nym_ack; [done|]. apply ends_seq. eapply ends_add_taken; [apply DL|exact Hs|done|done|done|]. eauto. }
  apply ends_is in H as (s1 & r & -> & e & -> & He). unfold _execute_deferred_command. cbn [borrowed set_objects deferred_commands].
  rewrite Hb, Hi. eexists _, e. by split.
Qed.

(** The reply to a lookup of an endpoint is stored under the name in the reply.  When the call
    spelled the DID differently, as a qualified name is, the command does not find it and is put
    aside again while the table is borrowed: the thread panics. *)
Theorem renamed_endpoint_panics p h did cb st w name reply endpoint i :
  holds (objects st) h w -> rust_string did -> rust_string name -> name <> did ->
  no_object Endpoint w name -> no_object Endpoint w did ->
  deferred_commands st !! i = Some (GetEndpointForDid h p did cb) -> tells_endpoint name reply endpoint ->
  execute d (acknowledge (AttribAck h i) (Ok reply)) st = None.
Proof using OL DL Hrnd.
  intros Hs Hd Hn Hne Hno1 Hno2 Hi Hr. cbn [acknowledge execute]. unfold get_attrib_ack, run_ack.
  assert (H : ends (_get_attrib_ack d h (Ok reply)) (objects st) (fun s r => r = Ok () /\ exists w1, holds s h w1 /\ no_object Endpoint w1 did)).
  { eapply ends_attrib_ack; [done|]. apply ends_seq. eapply ends_add; [apply DL|exact Hs|done|done|done|]. intros s1 j Hj Hs1. apply ends_ret.
    split; [done|]. eexists. split; [exact Hs1|]. unfold no_object. by rewrite lookup_insert_ne by congruence. }
  apply ends_is in H as (s1 & r & -> & -> & w1 & Hs1 & Hno). unfold _execute_deferred_command. cbn [borrowed set_objects deferred_commands].
  destruct (borrowed st); [done|]. rewrite Hi. cbn [execute_call]. unfold get_endpoint_for_did, validate_did. cbn [objects set_borrowed set_deferred set_objects].
  assert (H : ends (obj_get Endpoint h did) s1 (fun s r => exists e, r = Err e /\ err_kind e = WalletItemNotFound))
    by (eapply ends_get_none; [apply DL|exact Hs1|done|done|]; eauto).
  apply ends_is in H as (s2 & r & -> & e & -> & He). by rewrite decide_True.
Qed.
End Ledger.
