(* ===== verification/CommandSamples.v ===== *)
(** * Concrete libraries for the examples on keys and messages

    Instances of the libraries the crypto service and its clients call, simple enough to compute
    with: texts are the two-digit texts of [InmemWallet.v], a key pair is its seed, signatures
    and boxes name their keys.  They keep the promises of [CryptoService.v] and
    [CryptoCommands.v]; the examples run on records in a map. *)

From stdpp Require Import base list strings numbers gmap.
From Stdlib Require Import ZArith Lia.
From S2P Require Import Prelude Errors Json LedgerConstants Identifiers WalletCrypto WalletStorage Wallet ExportImport WalletService WalletCommands ObjectStore Trie External JsonText Verkey InmemWallet CryptoService CryptoCommands LedgerSigning LedgerRequests.
Import InmemDemo.

Open Scope string_scope.
Open Scope list_scope.

(** ** Texts *)

(** A JSON value as a tree. *)
Abbreviation tree := (gen_tree (bool + Z + string)).
Fixpoint to_tree (v : Value) : tree :=
  match v with
  | Null => GenNode 0 []
  | VBool b => GenLeaf (inl (inl b))
  | Number n => GenLeaf (inl (inr n))
  | VString s => GenLeaf (inr s)
  | Array l => GenNode 1 (map to_tree l)
  | Object m => GenNode 2 (map (fun '(k, x) => GenNode 3 [GenLeaf (inr k); to_tree x]) m)
  end.
Fixpoint of_tree (t : tree) : Value :=
  match t with
  | GenLeaf (inl (inl b)) => VBool b
  | GenLeaf (inl (inr n)) => Number n
  | GenLeaf (inr s) => VString s
  | GenNode 1 l => Array (map of_tree l)
  | GenNode 2 l =>
      Object (map (fun t => match t with GenNode 3 [GenLeaf (inr k); x] => (k, of_tree x) | _ => ("", Null) end) l)
  | _ => Null
  end.
Lemma of_to_tree v : of_tree (to_tree v) = v.
Proof.
  induction v as [|b|n|s|l IH|m IH] using Value_nested_ind; try done; cbn [to_tree of_tree]; f_equal; rewrite map_map.
  - induction IH as [|x l Hx _ IH]; cbn; [done|]. by rewrite Hx, IH.
  - induction IH as [|[k x] m Hx _ IH]; cbn; [done|]. cbn in Hx. by rewrite Hx, IH.
Qed.

Definition sample_codec : Codec := {|
  base64_encode l := to_text l; base64_decode s := of_text s;
  from_base58 s := of_text s; to_base58 l := to_text l;
  json_from_str s := (fun t => normal (of_tree t)) <$> of_text s; json_to_string v := to_text (to_tree v);
  rmp_to_vec _ := None; rmp_to_vec_named _ := None;
  hex_encode l := to_text l; openssl_hash l := Ok l; rlp_items _ := None; rlp_encode _ := []; sha3_256 _ := []
|}.
Definition sample_urlsafe : UrlsafeCodec := {| encode_urlsafe l := to_text l; urlsafe_decode s := of_text s |}.
Definition sample_seeds : SeedCodec := {|
  seed_from_base64 s := of_text s; seed_from_hex s := of_text s; WalletCommands.to_base58 l := to_text l;
  randombytes_deterministic n l := take n l
|}.

Lemma pos_text_no_colon p : split_colon (pos_text p) = None.
Proof. induction p as [p IH|p IH|]; cbn [pos_text split_colon]; [by rewrite IH..|done]. Qed.
Lemma pos_text_no_tilde p : after_tilde (pos_text p) = None.
Proof. by destruct p. Qed.

Definition sample_text_laws : TextLaws sample_codec sample_urlsafe.
Proof.
  split; intros bs; cbn.
  - apply of_to_text.
  - apply pos_text_no_colon.
  - apply pos_text_no_tilde.
  - apply pos_text_useful.
  - apply of_to_text.
  - apply of_to_text.
Qed.

Definition sample_json_text : JsonText sample_codec.
Proof. split. intros v. cbn -[of_text to_text]. rewrite of_to_text. cbn. by rewrite of_to_tree. Qed.

(** ** libsodium *)
Definition checksum (doc : bytes) : Z := foldr Z.add 0%Z doc.
Definition sample_ed25519 : Ed25519 := {|
  keypair_from_seed seed := (seed, seed ++ seed);
  sign_detached doc sk := take 63 (sk ++ replicate 63 0%Z) ++ [checksum doc];
  verify_detached signature doc pk := bool_decide (signature = take 63 (pk ++ pk ++ replicate 63 0%Z) ++ [checksum doc]);
  ed25519_pk_to_curve25519 pk := Some pk;
  ed25519_sk_to_curve25519 sk := take 32 sk;
  box_seal doc nonce pk sk := pk ++ sk ++ doc;
  box_open doc nonce pk sk :=
    if bool_decide (take 32 doc = sk /\ take 32 (drop 32 doc) = pk) then Some (drop 64 doc) else None;
  sealedbox_seal _ doc pk := pk ++ doc;
  sealedbox_open doc pk sk := if bool_decide (take 32 doc = sk) then Some (drop 32 doc) else None;
  seal_detached data ad nonce key := (data, replicate 16 (checksum (data ++ ad ++ nonce ++ key)));
  open_detached data ad tag nonce key :=
    if bool_decide (tag = replicate 16 (checksum (data ++ ad ++ nonce ++ key))) then Some data else None
|}.

Lemma drop_64 (a b c : bytes) : length a = 32 -> length b = 32 -> drop 64 (a ++ b ++ c) = c.
Proof.
  intros Ha Hb. rewrite app_assoc, drop_app_length'; [done|]. rewrite length_app. lia.
Qed.
Definition sample_ed25519_laws : Ed25519Laws sample_ed25519.
Proof.
  split; cbn [keypair_from_seed sign_detached verify_detached ed25519_pk_to_curve25519 ed25519_sk_to_curve25519 box_seal box_open
    sealedbox_seal sealedbox_open seal_detached open_detached sample_ed25519 fst snd]; unfold SEEDBYTES in *.
  - by intros seed ->.
  - intros seed Hs. rewrite length_app, Hs. done.
  - intros doc sk. rewrite length_app, length_take, length_app, length_replicate.
    replace (63 `min` (length sk + 63)) with 63 by lia. done.
  - intros seed doc Hs. rewrite bool_decide_eq_true_2; [done|]. by rewrite <-app_assoc.
  - intros seed _. by eexists.
  - intros mine theirs ? ? doc nonce Hm Ht [= <-] [= <-].
    rewrite !(take_app_length' mine), !(take_app_length' theirs) by done.
    rewrite drop_app_length', take_app_length' by done. rewrite bool_decide_eq_true_2 by done. by rewrite drop_64.
  - intros seed ? doc e Hs [= <-]. rewrite !(take_app_length' seed) by done. rewrite bool_decide_eq_true_2 by done.
    by rewrite drop_app_length'.
  - intros. by rewrite bool_decide_eq_true_2.
  - done.
Qed.

(** ** Structs *)
Definition header_parts (h : Header) := (hd_kid h, hd_iv h, hd_sender h).
Definition recipient_parts (r : Recipient) := (rc_encrypted_key r, header_parts (rc_header r)).
Definition recipient_of_parts (x : string * (string * option string * option string)) : Recipient :=
  let '(k, (a, b, c)) := x in mkRecipient k (mkHeader a b c).
Definition sample_pack_codec : PackCodec := {|
  key_to_json k := Some (to_text (verkey k, signkey k));
  key_from_json s := (fun '(a, b) => mkKey a b) <$> of_text s;
  key_metadata_to_json m := Some (to_text (km_value m));
  key_metadata_from_json s := mkKeyMetadata <$> of_text s;
  protected_to_string p := Some (to_text (pr_enc p, pr_typ p, pr_alg p, map recipient_parts (pr_recipients p)));
  protected_from_str s := (fun '(a, b, c, d) => mkProtected a b c (map recipient_of_parts d)) <$> of_text s;
  jwe_to_vec j := Some (as_bytes (to_text (jwe_protected j, jwe_iv j, jwe_ciphertext j, jwe_tag j)));
  jwe_from_slice b := (fun '(a, b, c, d) => mkJWE a b c d) <$> of_text (string_of_bytes b);
  unpack_to_vec m := Some (as_bytes (to_text (um_message m, um_recipient_verkey m, um_sender_verkey m)));
  combo_to_msg_pack c := Some (as_bytes (to_text (cb_msg c, cb_sender c, cb_nonce c)));
  combo_from_msg_pack b := (fun '(a, b, c) => mkComboBox a b c) <$> of_text (string_of_bytes b)
|}.

Definition sample_pack_laws : PackLaws sample_pack_codec.
Proof.
  split.
  - intros [a b]. eexists. split; [done|]. split; [apply pos_text_useful|]. cbn -[of_text to_text]. by rewrite of_to_text.
  - intros [a b c d]. eexists. split; [done|]. split; [apply pos_text_useful|]. cbn -[of_text to_text]. rewrite of_to_text. cbn.
    rewrite map_map. f_equal. f_equal. rewrite <-(map_id d) at 2. apply map_ext. by intros [? []].
  - intros [a b c d]. eexists. split; [done|]. cbn -[of_text to_text]. rewrite string_of_as_bytes, of_to_text. done.
  - intros m. by eexists.
  - intros [a b c]. eexists. split; [done|]. cbn -[of_text to_text]. rewrite string_of_as_bytes, of_to_text. done.
Qed.

#[export] Existing Instances sample_codec sample_json_text sample_urlsafe sample_seeds sample_text_laws sample_ed25519 sample_ed25519_laws sample_pack_codec sample_pack_laws MapObjects MapObjects_laws.

(** ** Two wallets: handle 1 has the key of one seed, handle 2 that of another *)
Definition alice : bytes := replicate 32 1%Z.
Definition bob : bytes := replicate 32 2%Z.
Definition carol : bytes := replicate 32 3%Z.
Definition key_record (seed : bytes) : PlainRecord := mkPlainRecord (to_text (verkey (key_of seed), signkey (key_of seed))) ∅.
Definition wallet_of (seed : bytes) : PlainWallet := {[ (object_type Key, vk_of seed) := key_record seed ]}.
Definition two_wallets : @store MapObjects := ({[ 1%Z := wallet_of alice; 2%Z := wallet_of bob ]} : gmap Z PlainWallet).

Lemma wallet_of_has_key seed : is_seed seed -> has_key (wallet_of seed) seed.
Proof.
  intros Hs. split; [done|]. exists (key_record seed). split; [apply lookup_singleton_eq|].
  cbn -[of_text to_text]. by rewrite of_to_text.
Qed.
Lemma wallet_of_no_key seed other : seed <> other -> no_key (wallet_of seed) (vk_of other).
Proof.
  intros Hne. unfold no_key, wallet_of. apply lookup_singleton_ne. intros [= H]. apply Hne.
  apply (f_equal from_base58) in H. cbn -[of_text to_text] in H. rewrite !of_to_text in H. congruence.
Qed.

Definition sample_random : PackRandom :=
  mkPackRandom (replicate 32 7%Z) (fun _ => replicate 24 8%Z) (fun _ => []) (replicate 12 9%Z).

Lemma packed_message_opens_witness :
  exists s1' packed jwe s2' out,
    pack_msg sample_random (as_bytes "hi") (map vk_of [carol; bob; alice]) (vk_of <$> Some alice) 1 two_wallets = (s1', Ok packed) /\
    jwe_from_slice packed = Some jwe /\ unpack_msg jwe 2 two_wallets = (s2', Ok out) /\
    unpack_to_vec (mkUnpackMessage "hi" (vk_of bob) (vk_of <$> Some alice)) = Some out.
Proof.
  apply (packed_message_opens sample_random "hi" (Some alice) [carol] bob [alice] two_wallets 1 (wallet_of alice)
    two_wallets 2 (wallet_of bob)).
  - by repeat split.
  - reflexivity.
  - by repeat constructor.
  - split; [reflexivity|]. by apply wallet_of_has_key.
  - reflexivity.
  - by apply wallet_of_has_key.
  - constructor; [|constructor]. by apply wallet_of_no_key.
Defined.

(** ** A wallet with two DIDs *)
Definition sample_did_codec : DidCodec := {|
  did_to_json d := Some (to_text (did_did d, did_verkey d));
  did_from_json s := (fun '(a, b) => mkDid a b) <$> of_text s
|}.
#[export] Existing Instance sample_did_codec.
Definition did_record (did : string) (seed : bytes) : PlainRecord := mkPlainRecord (to_text (did, vk_of seed)) ∅.
Definition did_wallet : PlainWallet :=
  <[(object_type Did, "A") := did_record "A" alice]> (<[(object_type Did, "B") := did_record "B" bob]>
    (<[(object_type Key, vk_of alice) := key_record alice]> {[ (object_type Key, vk_of bob) := key_record bob ]})).
Definition did_store : @store MapObjects := ({[ 1%Z := did_wallet ]} : gmap Z PlainWallet).
Definition sample_request : list (string * Value) :=
  [("identifier", VString "A"); ("operation", Object [("dest", VString "C"); ("type", VString "1")]); ("reqId", Number 7)].

Lemma did_wallet_knows : knows did_wallet "A" alice /\ knows did_wallet "B" bob.
Proof.
  assert (Hkey : forall d s, did_from_json (pr_value (did_record d s)) = Some (mkDid d (vk_of s)))
    by (intros; cbn -[of_text to_text vk_of]; by rewrite of_to_text).
  assert (Hne : vk_of alice <> vk_of bob) by (vm_compute; discriminate).
  assert (Hk : forall s, key_from_json (pr_value (key_record s)) = Some (key_of s))
    by (intros; cbn -[of_text to_text key_of]; rewrite of_to_text; done).
  unfold did_wallet. split; (split; [done|]); split.
  - split; [done|]. exists (key_record alice). split; [|apply Hk].
    rewrite lookup_insert_ne, lookup_insert_ne by done. apply lookup_insert_eq.
  - exists (did_record "A" alice). split; [apply lookup_insert_eq|apply Hkey].
  - split; [done|]. exists (key_record bob). split; [|apply Hk].
    rewrite lookup_insert_ne, lookup_insert_ne, lookup_insert_ne by (try done; congruence). apply lookup_singleton_eq.
  - exists (did_record "B" bob). split; [|apply Hkey]. rewrite lookup_insert_ne by done. apply lookup_insert_eq.
Qed.

Lemma signatures_verify_witness :
  exists s' signed m', sign_all 1 [(Single, "A"); (Multi, "B")] (json_to_string (Object sample_request)) did_store =
    (s', Ok signed) /\ json_from_str signed = Some (Object m') /\ holds s' 1 did_wallet /\
    request_inv "A" "identifier:A|operation:dest:C|type:1|reqId:7" [(Single, "A", alice); (Multi, "B", bob)] m' /\
    unchanged sample_request m'.
Proof.
  apply (signatures_verify did_store 1 did_wallet "A" _ [(Single, "A", alice); (Multi, "B", bob)] _ sample_request).
  - reflexivity.
  - apply json_back. split; [|by repeat split; repeat constructor]. by repeat constructor.
  - split; [|by repeat split; repeat constructor]. by repeat constructor.
  - reflexivity.
  - reflexivity.
  - reflexivity.
  - reflexivity.
  - constructor; [split; [apply did_wallet_knows|done]|]. constructor; [|constructor]. split; [apply did_wallet_knows|done].
Defined.

(** ** A request to change a role, endorsed *)
Definition sample_build : BuildCommand := BuildNymRequest "A" "C" None None (Some "TRUSTEE").
Definition sample_text : string :=
  json_to_string (Object (request_members 7 2 "A" (NymOperation "C" None None (Some (VString TRUSTEE))))).
Definition sample_acceptance : AcceptanceArgs := mkAcceptanceArgs (Some "text") (Some "1") None "click" 100000.

Lemma built_request_reads_witness :
  exists operation,
    json_from_str sample_text =
      Some (Object [("identifier", VString "A"); ("operation", operation); ("protocolVersion", Number 2); ("reqId", Number 7)]) /\
    index operation "type" = VString "1".
Proof. apply (built_request_reads 7 2 sample_build). reflexivity. Defined.

