(* ===== verification/DidSamples.v ===== *)
(** * Examples of DIDs

    Concrete codecs of the objects of the DID commands, and examples that run on records in a
    map, with the libraries of [CommandSamples]. *)

From stdpp Require Import base list strings numbers gmap.
From Stdlib Require Import ZArith Lia.
From S2P Require Import Prelude Errors Json LedgerConstants Identifiers WalletCrypto WalletStorage Wallet ExportImport WalletService WalletCommands ObjectStore Trie External JsonText Verkey InmemWallet CryptoService CryptoCommands LedgerSigning LedgerRequests LedgerReplies CommandSamples DidCommands DidLife DidRun.
Import InmemDemo.

Open Scope string_scope.
Open Scope list_scope.

Definition did_with_meta_parts (x : DidWithMeta) := (dw_did x, dw_verkey x, dw_temp_verkey x, dw_metadata x).
Definition sample_did_objects : DidObjects := {|
  temporary_to_json x := Some (to_text (td_did x, td_verkey x));
  temporary_from_json s := (fun '(a, b) => mkTemporaryDid a b) <$> of_text s;
  their_did_to_json x := Some (to_text (their_did x, their_verkey x));
  their_did_from_json s := (fun '(a, b) => mkTheirDid a b) <$> of_text s;
  did_metadata_to_json x := Some (to_text (dm_value x));
  did_metadata_from_json s := mkDidMetadata <$> of_text s;
  endpoint_to_json x := Some (to_text (ep_ha x, ep_verkey x));
  endpoint_from_json s := (fun '(a, b) => mkEndpoint a b) <$> of_text s;
  pairwise_to_json x := Some (to_text (pw_my_did x, pw_their_did x, pw_metadata x));
  pairwise_from_json s := (fun '(a, b, c) => mkPairwise a b c) <$> of_text s;
  did_with_meta_to_string x := Some (to_text (did_with_meta_parts x));
  dids_to_string l := Some (to_text (map did_with_meta_parts l))
|}.
#[export] Existing Instances sample_did_objects MapObjectSearch MapObjectSearch_laws.

Lemma text_serde {A T : Type} `{Countable A} (f : T -> A) (g : A -> T) (x : T) :
  g (f x) = x -> exists j, Some (to_text (f x)) = Some j /\ rust_string j /\ g <$> of_text j = Some x.
Proof. intros Hx. eexists. split; [done|]. split; [apply pos_text_useful|]. rewrite of_to_text. cbn. by rewrite Hx. Qed.
Definition sample_did_laws : DidObjectLaws sample_did_objects.
Proof.
  split; (split; [|reflexivity]).
  - intros [a b]. exact (text_serde (fun x => (verkey x, signkey x)) (fun '(a, b) => mkKey a b) (mkKey a b) eq_refl).
  - intros [a b]. exact (text_serde (fun x => (did_did x, did_verkey x)) (fun '(a, b) => mkDid a b) (mkDid a b) eq_refl).
  - intros [a b]. exact (text_serde (fun x => (td_did x, td_verkey x)) (fun '(a, b) => mkTemporaryDid a b) (mkTemporaryDid a b) eq_refl).
  - intros [a b]. exact (text_serde (fun x => (their_did x, their_verkey x)) (fun '(a, b) => mkTheirDid a b) (mkTheirDid a b) eq_refl).
  - intros [a]. exact (text_serde dm_value mkDidMetadata (mkDidMetadata a) eq_refl).
  - intros [a b]. exact (text_serde (fun x => (ep_ha x, ep_verkey x)) (fun '(a, b) => mkEndpoint a b) (mkEndpoint a b) eq_refl).
  - intros [a b c]. exact (text_serde (fun x => (pw_my_did x, pw_their_did x, pw_metadata x)) (fun '(a, b, c) => mkPairwise a b c)
      (mkPairwise a b c) eq_refl).
Qed.
#[export] Existing Instance sample_did_laws.


Definition sample_randomness : Randomness := mkRandomness (replicate 32 0%Z) (replicate 12 0%Z) (replicate 12 0%Z).
Definition sample_draws : Draws := mkDraws carol (fun _ => sample_randomness) 7 2 9.
Lemma sample_random_ok i : randomness_ok (dr_rnd sample_draws i).
Proof. by split. Qed.


(** ** A new key for a DID *)
Lemma key_rotation_witness :
  exists s1 w1 s2 w2,
    replace_keys_start sample_draws 1 (mkKeyInfo None None) "A" did_store = (s1, Ok (vk_of carol)) /\ holds s1 1 w1 /\
      knows w1 "A" alice /\ has_key w1 carol /\
    replace_keys_apply sample_draws 1 "A" s1 = (s2, Ok ()) /\ holds s2 1 w2 /\
      knows w2 "A" carol /\ has_key w2 alice /\
      forall k, k <> (object_type Did, "A") -> k <> (object_type Key, vk_of carol) -> w2 !! k = did_wallet !! k.
Proof.
  apply (key_rotation sample_draws sample_random_ok did_store 1 did_wallet "A" alice (mkKeyInfo None None) carol).
  - reflexivity.
  - apply did_wallet_knows.
  - done.
  - reflexivity.
  - vm_compute. reflexivity.
  - vm_compute. reflexivity.
Defined.

(** ** An abbreviated key *)
Definition sample_id : bytes := replicate 16 5%Z.
Definition sample_vk : bytes := sample_id ++ replicate 16 6%Z.
Lemma abbreviated_verkey_expands_witness :
  exists a, abbreviate_verkey (to_base58 sample_id) (to_base58 sample_vk) = Ok a /\
    build_full_verkey (to_unqualified (to_base58 sample_id)) (Some a) = Ok (to_base58 sample_vk) /\
    a = if is_abbreviatable (to_base58 sample_id) && bool_decide (take 16 sample_vk = sample_id)
        then "~" +:+ to_base58 (drop 16 sample_vk) else to_base58 sample_vk.
Proof. apply (abbreviated_verkey_expands (to_base58 sample_id) sample_id sample_vk); vm_compute; reflexivity. Defined.

(** ** A qualified DID, with metadata and a pairwise relation *)
Definition pairwise_record : PlainRecord := mkPlainRecord (to_text ("A", "P", @None string)) ∅.
Definition metadata_record : PlainRecord := mkPlainRecord (to_text "note") ∅.
Definition full_wallet : PlainWallet :=
  <[(object_type Pairwise, "P") := pairwise_record]> (<[(object_type DidMetadata, "A") := metadata_record]> did_wallet).
Definition full_store : @store MapObjects := ({[ 1%Z := full_wallet ]} : gmap Z PlainWallet).

Lemma full_wallet_knows : knows full_wallet "A" alice.
Proof.
  destruct did_wallet_knows as [(Hd & [Hs (rk & Hrk & Hk)] & rd & Hrd & Hdid) _]. unfold full_wallet. split; [done|]. split.
  - split; [done|]. exists rk. by rewrite !lookup_insert_ne.
  - exists rd. by rewrite !lookup_insert_ne.
Qed.
(** The records of the wallet, by kind. *)
Lemma full_wallet_record k rec : full_wallet !! k = Some rec ->
  rust_string (pr_value rec) /\ (k.1 = object_type Pairwise -> k = (object_type Pairwise, "P") /\ rec = pairwise_record).
Proof.
  assert (Ht : forall (A : Type) `{Countable A} (a : A), rust_string (to_text a)) by (intros; apply pos_text_useful).
  unfold full_wallet, did_wallet. intros H.
  repeat (apply lookup_insert_Some in H as [[<- <-]|[_ H]]; [split; [apply Ht|done]|]).
  apply lookup_singleton_Some in H as [<- <-]. split; [apply Ht|done].
Qed.
Lemma full_wallet_qualifiable : qualifiable sample_draws full_wallet "A" "did:sov:A".
Proof.
  split; [reflexivity|discriminate|vm_compute; reflexivity|vm_compute; reflexivity|vm_compute; reflexivity|vm_compute; reflexivity| | | |].
  - left. vm_compute. reflexivity.
  - intros k rec H. by destruct (full_wallet_record k rec H).
  - intros n rec H. apply full_wallet_record in H as [_ H]. destruct (H eq_refl) as [[= ->] ->]. exists (mkPairwise "A" "P" None).
    split; [|done]. unfold record_is. cbn -[of_text to_text]. by rewrite of_to_text.
  - intros l [Hd Hl]. enough (length l.*1 <= length ["P"]) by (rewrite length_fmap in H; cbn in *; lia).
    apply submseteq_length, NoDup_submseteq; [done|]. intros n Hn. apply list_elem_of_fmap in Hn as ([n' v] & -> & Hn).
    apply Hl in Hn as (rec & Hrec & _). apply full_wallet_record in Hrec as [_ Hrec]. destruct (Hrec eq_refl) as [[= ->] _]. by left.
Qed.

(** ** A run: the key of a DID that the wallet does not know *)
Definition key_call : DidCommand := KeyForDid 3 1 "C" 5.
Definition run_start : Process := mkProcess did_store 1 ∅ false [] [] [].
Definition run_asked : Process :=
  default run_start (execute sample_draws key_call (set_queue [] (send key_call run_start))).
Lemma run_asked_is : execute sample_draws key_call (set_queue [] (send key_call run_start)) = Some run_asked.
Proof.
  assert (H : bool_decide (is_Some (execute sample_draws key_call (set_queue [] (send key_call run_start)))) = true) by (vm_compute; reflexivity).
  apply bool_decide_eq_true in H as [st H]. unfold run_asked. by rewrite H.
Qed.

Definition key_data : Value := Object [("dest", VString "C"); ("verkey", VString (vk_of carol))].
Definition key_reply : Value :=
  Object [("op", VString "REPLY");
          ("result", Object [("data", VString (json_to_string key_data)); ("type", VString GET_NYM)])].
Lemma key_reply_tells : tells_key "C" (json_to_string key_reply) (vk_of carol).
Proof.
  eexists _, _, _, (mkNymV0 "C" None (Some (vk_of carol))). split; [apply json_text|]. split; [reflexivity|].
  split; [apply json_text|]. split; [reflexivity|]. vm_compute. reflexivity.
Qed.
