(* ===== verification/RecordSamples.v ===== *)
(** * Examples of records

    Concrete codecs for the commands on records, on pairwise relations and on the cache, and
    examples that run on records in a map. *)

From stdpp Require Import base list strings numbers gmap.
From Stdlib Require Import ZArith Lia.
From S2P Require Import Prelude Errors Json LedgerConstants Identifiers WalletCrypto WalletQuery WalletStorage SqliteStorage Wallet ExportImport WalletService WalletCommands ObjectStore Trie External JsonText Verkey InmemWallet CryptoService CryptoCommands LedgerSigning LedgerRequests LedgerReplies CommandSamples DidCommands DidLife DidSamples RecordStore NonSecrets PairwiseCommands CacheCommands.
Import InmemDemo.

Open Scope string_scope.
Open Scope list_scope.

Definition sample_non_secrets : NonSecretsCodec := {|
  tag_names_from_json s := of_text s;
  record_to_string r := Some (wr_id r);
  search_records_to_string total l := Some (to_text (total, map wr_id (default [] l)))
|}.
#[export] Existing Instances sample_non_secrets MapRecords MapRecords_laws MapRecords_search_laws.

(** ** Records of the application beside a DID *)
Definition note_commands : list (Randomness * NonSecretsCommand) :=
  [(sample_randomness, AddRecord 1 "note" "a" "first" None);
   (sample_randomness, DeleteRecord 1 "Indy::Did" "A");
   (sample_randomness, OpenSearch 1 "note" (Object []) "{}");
   (sample_randomness, UpdateRecordValue 1 "note" "a" "second")].
Definition note_start : NonSecrets := mkNonSecrets (did_store : @rstore MapRecords) ∅ 1.

(** ** A pairwise relation *)
Definition sample_pairwise_codec : PairwiseCodec := {|
  pairwise_info_to_string p := Some (to_text (pi_my_did p, pi_metadata p));
  pairwise_list_to_string l := Some (to_text l)
|}.
#[export] Existing Instance sample_pairwise_codec.
Definition their_record : PlainRecord := mkPlainRecord (to_text ("C", vk_of carol)) ∅.
Definition their_wallet : PlainWallet := <[(object_type TheirDid, "C") := their_record]> did_wallet.
Definition their_store : @store MapObjects := ({[ 1%Z := their_wallet ]} : gmap Z PlainWallet).
Lemma pairwise_life_witness :
  exists s1 w1, create_pairwise sample_randomness 1 "C" "A" None their_store = (s1, Ok ()) /\ holds s1 1 w1 /\
    object_is w1 "C" (mkPairwise "A" "C" None) /\
    (exists s2, pairwise_exists 1 "C" s1 = (s2, Ok true) /\ holds s2 1 w1) /\
    (exists s2 r, create_pairwise sample_randomness 1 "C" "A" (Some "met") s1 = (s2, r) /\ is_error r WalletItemAlreadyExists /\ holds s2 1 w1) /\
    exists s2 w2, set_pairwise_metadata sample_randomness 1 "C" (Some "met") s1 = (s2, Ok ()) /\ holds s2 1 w2 /\
      (exists s3, get_pairwise 1 "C" s2 = (s3, Ok (to_text ("A", Some "met"))) /\ holds s3 1 w2) /\
      forall k, k <> (object_type Pairwise, "C") -> w2 !! k = their_wallet !! k.
Proof.
  apply (pairwise_life sample_randomness (sample_random_ok 0) their_store 1 their_wallet "C" "A" None (Some "met")).
  - reflexivity.
  - done.
  - done.
  - eexists. unfold their_wallet, did_wallet. rewrite lookup_insert_ne by done. apply lookup_insert_eq.
  - eexists. apply lookup_insert_eq.
  - vm_compute. reflexivity.
  - reflexivity.
Defined.

(** ** A schema in the cache *)
Definition cache_wait : CacheCommands.Process := CacheCommands.mkProcess (did_store : @rstore MapRecords) 2 {[ 2%Z := 5 ]} [] [].
Definition cache_any : GetCacheOptions := mkGetCacheOptions None None None None.
Lemma cache_text : cache_record_options <> "{}".
Proof. discriminate. Qed.
Lemma cache_serves_fresh_witness :
  exists st1 w1, CacheCommands.execute Debug (Some 1000%Z) sample_randomness 9 (GetSchemaContinue 1 (Ok ("id", "{}")) cache_any 2) cache_wait = Some st1 /\
    CacheCommands.answers st1 = [(5, CacheCommands.AText (Ok "{}"))] /\ pending_callbacks st1 = base.delete 2%Z {[ 2%Z := 5 ]} /\
    rholds (cached st1) 1 w1 /\ cached_at w1 Schemas "id" "{}" 1000 /\ (forall k, k <> ("schema_cache", "id") -> w1 !! k = did_wallet !! k) /\
    forall rnd' t' pool submitter options' cb', epoch_time t' -> in_i32 (default (-1)%Z (min_fresh options')) ->
      exists st2, CacheCommands.execute Debug (Some t') rnd' 9 (GetSchema pool 1 submitter "id" options' cb') st1 = Some st2 /\
        rholds (cached st2) 1 w1 /\ served Schemas pool 1 submitter "id" "{}" options' cb' 1000 t' st1 st2.
Proof.
  apply (cache_serves_fresh Debug cache_text sample_randomness 9 1 did_wallet Schemas "id" "{}" cache_any 2 5 cache_wait 1000).
  - reflexivity.
  - reflexivity.
  - apply (sample_random_ok 0).
  - done.
  - done.
  - reflexivity.
  - split; vm_compute; [discriminate|reflexivity].
  - reflexivity.
Defined.
