(* ===== verification/AuditProof.v ===== *)
(** * Audit proofs of single transactions

    [_calculate_turns] and [_verify_merkle_tree] of
    [libindy/src/services/pool/state_proof/mod.rs]: a GET_TXN reply carries the audit
    path of a transaction, which the client folds up to the signed root.

    [_calculate_turns] pushes to a vector in a loop; [fuel] bounds how often memory
    lets it push, and exhausting it aborts the process. *)

From stdpp Require Import base list strings numbers gmap.
From Stdlib Require Import ZArith Lia.
From S2P Require Import Prelude Json Trie External MerkleTree MerkleProof Consistency.

(** The loop of [_calculate_turns]. *)
Fixpoint turns_loop (fuel : nat) (p : Profile) (length idx : Z) (result : list bool)
  : outcome (list bool) :=
  match fuel with
  | 0 => Panic
  | S fuel' =>
      if (length =? 1)%Z then Ok result
      else
        let? npot := next_power_of_two p length in
        let middle := (npot / 2)%Z in
        let right := (idx <? middle)%Z in
        let result := result ++ [right] in
        let idx := if right then idx else (idx - middle)%Z in
        let length := if right then middle else (length - middle)%Z in
        turns_loop fuel' p length idx result
  end.

(** [_calculate_turns]. *)
Definition calculate_turns (fuel : nat) (p : Profile) (length idx : Z) : outcome (list bool) :=
  let? result := turns_loop fuel p length idx [] in Ok (reverse result).

Section Verify.
Context {C : Codec}.

(** [str::from_utf8(..)], then [serde_json::from_str::<Vec<String>>(..)]. *)
Definition parse_hashes (proof_nodes : bytes) : option (list string) :=
  match from_utf8 proof_nodes with
  | Some nodes =>
      match json_from_str nodes with
      | Some (Array l) => mapM as_str l
      | _ => None
      end
  | None => None
  end.

(** The sequence number in the key of the pair to verify. *)
Definition parse_seq_no (key : string) : option Z :=
  match base64_decode key with
  | Some key => match from_utf8 key with Some s => parse_u64 s | None => None end
  | None => None
  end.

(** The bytes of the transaction that are hashed. *)
Definition value_bytes (value : string) : option bytes :=
  match json_from_str value with Some v => rmp_to_vec v | None => None end.

(** The loop over [hashes_with_turns]; [None] is [return false]. *)
Fixpoint climb (hash : bytes) (hashes_with_turns : list (string * bool)) : outcome (option bytes) :=
  match hashes_with_turns with
  | [] => Ok (Some hash)
  | (next_hash, turn_right) :: rest =>
      match from_base58 next_hash with
      | None => Ok None
      | Some next_hash =>
          match (if turn_right : bool then hash_nodes openssl_hash hash next_hash
                 else hash_nodes openssl_hash next_hash hash) with
          | Ok hash => climb hash rest
          | Err _ => Ok None
          | Panic => Panic
          end
      end
  end.

(** [_verify_merkle_tree]. *)
Definition verify_merkle_tree (fuel : nat) (p : Profile) (proof_nodes root_hash : bytes)
    (kvs : list (string * option string)) (length_ : Z) : outcome bool :=
  match parse_hashes proof_nodes with
  | None => Ok false
  | Some hashes =>
      match kvs with
      | [] => Panic
      | (key, value) :: _ =>
          match parse_seq_no key with
          | None => Ok false
          | Some seq_no =>
              let? idx := u64_sub p seq_no 1 in
              let? turns := calculate_turns fuel p length_ idx in
              if negb (length hashes =? length turns) then Ok false
              else
                match value with
                | None => Ok false
                | Some value =>
                    match value_bytes value with
                    | None => Ok false
                    | Some value =>
                        match hash_leaf openssl_hash value with
                        | Err _ => Ok false
                        | Panic => Panic
                        | Ok hash =>
                            let? res := climb hash (zip hashes turns) in
                            match res with
                            | Some hash => Ok (bool_decide (hash = root_hash))
                            | None => Ok false
                            end
                        end
                    end
                end
          end
      end
  end.
End Verify.

(** ** Reference audit paths

    RFC 6962: the siblings from the leaf [idx] up, each with the side of the path
    ([true]: the path is the left child). *)
Section Reference.
Context (H : bytes -> bytes).

Fixpoint audit_fuel (fuel idx : nat) (l : list bytes) : list (bytes * bool) :=
  match fuel, l with
  | _, [] => []
  | _, [_] => []
  | 0, _ => []
  | S fuel', _ =>
      let k := split_point (length l) in
      if idx <? k then audit_fuel fuel' idx (take k l) ++ [(mth H (drop k l), true)]
      else audit_fuel fuel' (idx - k) (drop k l) ++ [(mth H (take k l), false)]
  end.
Definition audit (idx : nat) (l : list bytes) : list (bytes * bool) :=
  audit_fuel (length l) idx l.

Lemma audit_fuel_irrel f1 f2 idx l :
  length l <= f1 -> length l <= f2 -> audit_fuel f1 idx l = audit_fuel f2 idx l.
Proof.
  revert f2 idx l. induction f1 as [|f1 IH]; intros f2 idx l H1 H2.
  { destruct l; [by destruct f2|cbn in H1; lia]. }
  destruct l as [|x [|y l]]; [by destruct f2..|].
  destruct f2 as [|f2]; [cbn in H2; lia|]. cbn [audit_fuel].
  destruct (split_exists (length (x :: y :: l))) as (e & r & Hlen & Hr); [cbn; lia|].
  pose proof (pow2_pos e). rewrite Hlen, split_point_spec by done.
  destruct (idx <? 2 ^ e); f_equal; apply IH; rewrite ?length_take, ?length_drop; lia.
Qed.

Lemma audit_split e l1 l2 idx :
  length l1 = 2 ^ e -> 1 <= length l2 <= 2 ^ e ->
  audit idx (l1 ++ l2) =
  if idx <? length l1 then audit idx l1 ++ [(mth H l2, true)]
  else audit (idx - length l1) l2 ++ [(mth H l1, false)].
Proof.
  intros H1 H2. pose proof (pow2_pos e). unfold audit at 1.
  destruct (length (l1 ++ l2)) as [|f] eqn:Ef; rewrite length_app in Ef; [lia|].
  assert (Hs : split_point (length (l1 ++ l2)) = length l1)
    by (rewrite length_app, H1, split_point_spec; lia).
  destruct (l1 ++ l2) as [|x [|y l]] eqn:El.
  { apply (f_equal length) in El. rewrite length_app in El. cbn in El. lia. }
  { apply (f_equal length) in El. rewrite length_app in El. cbn in El. lia. }
  cbn [audit_fuel]. rewrite Hs, <-El, take_app_length, drop_app_length.
  destruct (idx <? length l1); f_equal; apply audit_fuel_irrel; lia.
Qed.
End Reference.

(** ** The turns of the code are those of the reference *)
Lemma next_power_of_two_split p e r :
  1 <= r <= 2 ^ e -> e <= 62 -> next_power_of_two p (Z.of_nat (2 ^ e + r)) = Ok (2 ^ Z.of_nat (S e))%Z.
Proof.
  intros Hr He. unfold next_power_of_two.
  assert (E : Z.log2_up (Z.of_nat (2 ^ e + r)) = Z.of_nat (S e)).
  { apply Z.log2_up_unique; [lia|]. rewrite Nat2Z.inj_add, Nat2Z.inj_pow, Nat2Z.inj_succ.
    rewrite Z.pred_succ, Z.pow_succ_r by lia. assert (Z.of_nat (2 ^ e) = 2 ^ Z.of_nat e)%Z
      by (rewrite Nat2Z.inj_pow; done). lia. }
  rewrite E. rewrite (proj2 (Z.ltb_lt _ _)); [done|]. apply Z.pow_lt_mono_r; lia.
Qed.

Lemma turns_step fuel p e r idx acc :
  1 <= r <= 2 ^ e -> e <= 62 ->
  turns_loop (S fuel) p (Z.of_nat (2 ^ e + r)) idx acc =
  if (idx <? Z.of_nat (2 ^ e))%Z then turns_loop fuel p (Z.of_nat (2 ^ e)) idx (acc ++ [true])
  else turns_loop fuel p (Z.of_nat r) (idx - Z.of_nat (2 ^ e)) (acc ++ [false]).
Proof.
  intros Hr He. pose proof (pow2_pos e). cbn [turns_loop].
  rewrite (proj2 (Z.eqb_neq _ _)) by lia. rewrite next_power_of_two_split by done. cbn [obind].
  rewrite Nat2Z.inj_succ, Z.pow_succ_r, Z.mul_comm, Z.div_mul by lia.
  replace (2 ^ Z.of_nat e)%Z with (Z.of_nat (2 ^ e)) by (rewrite Nat2Z.inj_pow; done).
  destruct (idx <? _)%Z; [done|]. f_equal. lia.
Qed.

Lemma log2_up_bound e n : n <= 2 ^ e -> Nat.log2_up n <= e.
Proof. intros Hn. apply Nat.log2_up_le_mono in Hn. by rewrite Nat.log2_up_pow2 in Hn by lia. Qed.

Lemma turns_loop_audit H p l :
  l <> [] -> forall fuel idx acc, Nat.log2_up (length l) <= 63 -> Nat.log2_up (length l) < fuel ->
  turns_loop fuel p (Z.of_nat (length l)) (Z.of_nat idx) acc = Ok (acc ++ reverse (audit H idx l).*2).
Proof.
  revert l. apply (split_ind (fun l => forall fuel idx acc, Nat.log2_up (length l) <= 63 ->
    Nat.log2_up (length l) < fuel -> turns_loop fuel p (Z.of_nat (length l)) (Z.of_nat idx) acc =
    Ok (acc ++ reverse (audit H idx l).*2))).
  - intros x [|fuel] idx acc _ Hf; [cbn in Hf; lia|]. cbn. by rewrite app_nil_r.
  - intros e l1 l2 H1 H2 IH1 IH2 fuel idx acc H63 Hf.
    rewrite length_app, H1, log2_up_split in H63, Hf by done.
    destruct fuel as [|fuel]; [lia|].
    pose proof (log2_up_bound e (length l2) ltac:(lia)).
    assert (Nat.log2_up (length l1) = e) by (by rewrite H1, Nat.log2_up_pow2 by lia).
    rewrite length_app, H1, turns_step by lia. rewrite (audit_split H e) by done. rewrite <-H1.
    destruct (Nat.ltb_spec idx (length l1)) as [Hi|Hi].
    + rewrite (proj2 (Z.ltb_lt _ _)) by lia. rewrite IH1 by lia.
      rewrite fmap_app, reverse_app. by rewrite <-app_assoc.
    + rewrite (proj2 (Z.ltb_ge _ _)) by lia. rewrite <-Nat2Z.inj_sub by done. rewrite IH2 by lia.
      rewrite fmap_app, reverse_app. by rewrite <-app_assoc.
Qed.

(** ** Folding a path *)
Section Climb.
Context (H : bytes -> bytes).

Definition node_input (h : bytes) (s : bytes * bool) : bytes :=
  1%Z :: (if s.2 then h ++ s.1 else s.1 ++ h).
Definition climb_pure (h : bytes) (steps : list (bytes * bool)) : bytes :=
  foldl (fun h s => H (node_input h s)) h steps.

(** Everything hashed on the way up. *)
Fixpoint climb_inputs (h : bytes) (steps : list (bytes * bool)) : list bytes :=
  match steps with
  | [] => []
  | s :: steps' => node_input h s :: climb_inputs (H (node_input h s)) steps'
  end.

Lemma climb_inputs_snoc h steps s :
  climb_inputs h (steps ++ [s]) = climb_inputs h steps ++ [node_input (climb_pure h steps) s].
Proof. revert h. induction steps as [|s' steps IH]; intros h; [done|]. cbn. by rewrite IH. Qed.

Lemma climb_pure_snoc h steps s :
  climb_pure h (steps ++ [s]) = H (node_input (climb_pure h steps) s).
Proof. unfold climb_pure. by rewrite foldl_app. Qed.

Lemma climb_width w b steps :
  (forall x, length (H x) = w) -> length (climb_pure (H b) steps) = w.
Proof.
  intros Hw. destruct steps as [|s steps _] using rev_ind; [apply Hw|].
  rewrite climb_pure_snoc. apply Hw.
Qed.

Lemma audit_climb l : l <> [] -> forall idx v,
  l !! idx = Some v -> climb_pure (H (0%Z :: v)) (audit H idx l) = mth H l.
Proof.
  revert l. apply (split_ind (fun l => forall idx v,
    l !! idx = Some v -> climb_pure (H (0%Z :: v)) (audit H idx l) = mth H l)).
  - intros x [|idx] v; [intros [= <-]; done|done].
  - intros e l1 l2 H1 H2 IH1 IH2 idx v Hv. rewrite (audit_split H e), (mth_split H e) by done.
    destruct (Nat.ltb_spec idx (length l1)) as [Hi|Hi]; rewrite climb_pure_snoc.
    + rewrite lookup_app_l in Hv by done. by rewrite (IH1 _ _ Hv).
    + rewrite lookup_app_r in Hv by done. by rewrite (IH2 _ _ Hv).
Qed.

Lemma steps_snoc (steps : list (bytes * bool)) (sides : list bool) b :
  steps.*2 = sides ++ [b] -> exists steps' n, steps = steps' ++ [(n, b)] /\ steps'.*2 = sides.
Proof.
  intros E. destruct steps as [|[n b'] steps' _] using rev_ind.
  { apply (f_equal length) in E. rewrite length_app in E. cbn in E. lia. }
  rewrite fmap_app in E. apply app_inj_tail in E as [E1 E2]. cbn in E2. subst b'. by exists steps', n.
Qed.

Lemma climb_sound w S l : (forall x, length (H x) = w) -> no_collision H S -> l <> [] ->
  forall idx b steps,
  idx < length l -> steps.*2 = (audit H idx l).*2 -> tree_inputs (ref_tree H l) ⊆ S ->
  (0%Z :: b) :: climb_inputs (H (0%Z :: b)) steps ⊆ S ->
  climb_pure (H (0%Z :: b)) steps = mth H l -> l !! idx = Some b.
Proof.
  intros Hw Hnc. revert l. apply (split_ind (fun l => forall idx b steps,
    idx < length l -> steps.*2 = (audit H idx l).*2 -> tree_inputs (ref_tree H l) ⊆ S ->
    (0%Z :: b) :: climb_inputs (H (0%Z :: b)) steps ⊆ S ->
    climb_pure (H (0%Z :: b)) steps = mth H l -> l !! idx = Some b)).
  - intros x idx b steps Hi Hs Ht Hc E. cbn in Hi. assert (idx = 0) as -> by lia.
    apply fmap_nil_inv in Hs as ->. cbn in E.
    assert (Hb : 0%Z :: b = 0%Z :: x) by (apply Hnc; [set_solver| |exact E];
      apply Ht; cbn; set_solver). by injection Hb as ->.
  - intros e l1 l2 H1 H2 IH1 IH2 idx b steps Hi Hs Ht Hc E.
    rewrite (ref_tree_split H e) in Ht by done. cbn [tree_inputs] in Ht.
    rewrite (audit_split H e) in Hs by done. rewrite (mth_split H e) in E by done.
    assert (Hnode : 1%Z :: mth H l1 ++ mth H l2 ∈ S) by (apply Ht; set_solver).
    pose proof (pow2_pos e).
    assert (W1 : length (mth H l1) = w) by (apply mth_width; [done|intros ->; cbn in *; lia]).
    assert (W2 : length (mth H l2) = w) by (apply mth_width; [done|intros ->; cbn in *; lia]).
    rewrite length_app in Hi.
    destruct (Nat.ltb_spec idx (length l1)) as [Hl|Hl]; rewrite fmap_app in Hs;
      apply steps_snoc in Hs as (steps' & n & -> & Hs);
      rewrite climb_inputs_snoc in Hc; rewrite climb_pure_snoc in E;
      (apply Hnc in E; [|set_solver|done]); cbn [node_input fst snd] in E; injection E as E;
      pose proof (climb_width w (0%Z :: b) steps' Hw) as Wc.
    + apply app_inj_1 in E as [E _]; [|congruence].
      rewrite lookup_app_l by done. eapply IH1; [done|exact Hs|set_solver|set_solver|done].
    + apply app_inj_2 in E as [_ E]; [|congruence].
      rewrite lookup_app_r by done. eapply IH2; [lia|exact Hs|set_solver|set_solver|done].
Qed.

(** Past the end of the ledger the sides are those of the last leaf. *)
Lemma audit_beyond l : l <> [] -> forall idx, length l - 1 <= idx ->
  (audit H idx l).*2 = (audit H (length l - 1) l).*2.
Proof.
  revert l. apply (split_ind (fun l => forall idx, length l - 1 <= idx ->
    (audit H idx l).*2 = (audit H (length l - 1) l).*2)); [done|].
  intros e l1 l2 H1 H2 _ IH2 idx Hi. rewrite !(audit_split H e) by done.
  rewrite length_app in *.
  rewrite !(proj2 (Nat.ltb_ge _ _)) by lia. rewrite !fmap_app. f_equal.
  rewrite IH2 by lia. f_equal. f_equal. lia.
Qed.
End Climb.

Lemma ledger_log2 (l : list bytes) :
  (Z.of_nat (length l) <= 2 ^ 63)%Z -> Nat.log2_up (length l) <= 63.
Proof. intros Hl. apply log2_up_bound, Nat2Z.inj_le. rewrite Nat2Z.inj_pow. exact Hl. Qed.

Section Bridge.
Context {C : Codec} (H : bytes -> bytes).
Context (digest_total : forall b, openssl_hash b = Ok (H b)).

Lemma climb_pure_eq h hashes hs turns :
  mapM from_base58 hashes = Some hs -> length hashes = length turns ->
  climb h (zip hashes turns) = Ok (Some (climb_pure H h (zip hs turns))).
Proof using digest_total.
  intros Hm%mapM_Some_1. revert h turns.
  induction Hm as [|s x hashes hs Hs _ IH]; intros h [|t turns] Hl; try done.
  cbn [zip zip_with climb]. rewrite Hs. unfold hash_nodes. rewrite !digest_total.
  injection Hl as Hl. destruct t; exact (IH _ _ Hl).
Qed.

(** [_verify_merkle_tree] on a well-formed reply about a ledger of [length l]
    transactions compares the folded path with the root. *)
Lemma verify_merkle_tree_eq fuel p proof_nodes root key value rest l hashes hs n b :
  l <> [] -> Nat.log2_up (length l) <= 63 -> 63 < fuel ->
  parse_hashes proof_nodes = Some hashes -> mapM from_base58 hashes = Some hs ->
  parse_seq_no key = Some n -> (1 <= n)%Z -> value_bytes value = Some b ->
  verify_merkle_tree fuel p proof_nodes root ((key, Some value) :: rest) (Z.of_nat (length l)) =
  let turns := (audit H (Z.to_nat (n - 1)) l).*2 in
  Ok (if length hs =? length turns
      then bool_decide (climb_pure H (H (0%Z :: b)) (zip hs turns) = root) else false).
Proof using digest_total.
  intros Hl H63 Hf Hh Hs Hk Hn Hv. unfold verify_merkle_tree. rewrite Hh, Hk.
  unfold u64_sub, usize_sub. rewrite (proj2 (Z.leb_le _ _) Hn). cbn [obind].
  unfold calculate_turns. replace (n - 1)%Z with (Z.of_nat (Z.to_nat (n - 1))) at 1 by lia.
  rewrite (turns_loop_audit H p l Hl) by lia. cbn [obind app]. rewrite reverse_involutive.
  rewrite (length_mapM _ _ _ Hs). cbn zeta.
  destruct (length hs =? _) eqn:E; [|done]. cbn [negb]. apply Nat.eqb_eq in E.
  rewrite Hv. unfold hash_leaf. rewrite digest_total.
  rewrite (climb_pure_eq _ _ hs) by (try done; by rewrite (length_mapM _ _ _ Hs)). done.
Qed.
(** The reference path of a transaction is accepted. *)
Lemma audit_path_accepted fuel p proof_nodes key value rest l hashes n b :
  (Z.of_nat (length l) <= 2 ^ 63)%Z -> 63 < fuel -> (1 <= n)%Z ->
  l !! Z.to_nat (n - 1) = Some b ->
  parse_hashes proof_nodes = Some hashes ->
  mapM from_base58 hashes = Some (audit H (Z.to_nat (n - 1)) l).*1 ->
  parse_seq_no key = Some n -> value_bytes value = Some b ->
  verify_merkle_tree fuel p proof_nodes (mth H l) ((key, Some value) :: rest) (Z.of_nat (length l)) =
    Ok true.
Proof using digest_total.
  intros Hlen Hf Hn Hb Hh Hs Hk Hv.
  assert (Hl : l <> []) by (intros ->; done).
  rewrite (verify_merkle_tree_eq _ _ _ _ _ _ _ _ hashes _ n b) by (try done; by apply ledger_log2).
  cbn zeta. rewrite !length_fmap, Nat.eqb_refl, zip_fst_snd.
  by rewrite (audit_climb H l Hl _ _ Hb), bool_decide_eq_true_2.
Qed.
End Bridge.

(** ** Properties *)
Section Properties.
Context (C : Codec) (H : bytes -> bytes).
Context (fuel : nat) (p : Profile) (proof_nodes : bytes) (key value : string) (hashes : list string).
Context (hs : list bytes) (n : Z) (b : bytes) (l : list bytes) (rest : list (string * option string)).

(** An accepted audit proof is right.  If SHA-256 does not collide on what the
    ledger and the verifier hash, and the reply names the size of the ledger and a
    sequence number within it, then acceptance against the root of the ledger means
    that the reply carries exactly the transaction with that number. *)
Theorem audit_proof_sound w :
  (forall x, openssl_hash x = Ok (H x)) -> (forall x, length (H x) = w) ->
  l <> [] -> (Z.of_nat (length l) <= 2 ^ 63)%Z -> 63 < fuel ->
  parse_hashes proof_nodes = Some hashes -> mapM from_base58 hashes = Some hs ->
  parse_seq_no key = Some n -> (1 <= n <= Z.of_nat (length l))%Z -> value_bytes value = Some b ->
  no_collision H (tree_inputs (ref_tree H l) ++ (0%Z :: b) ::
    climb_inputs H (H (0%Z :: b)) (zip hs (audit H (Z.to_nat (n - 1)) l).*2)) ->
  verify_merkle_tree fuel p proof_nodes (mth H l) ((key, Some value) :: rest) (Z.of_nat (length l)) =
    Ok true ->
  l !! Z.to_nat (n - 1) = Some b.
Proof.
  intros Hd Hw Hl Hlen Hf Hh Hs Hk Hn Hv Hnc.
  pose proof (ledger_log2 l Hlen) as H63.
  rewrite (verify_merkle_tree_eq H Hd _ _ _ _ _ _ _ _ hashes hs n b) by (try done; lia).
  cbn zeta. intros [= E]. destruct (length hs =? _) eqn:El; [|done].
  apply Nat.eqb_eq in El. apply bool_decide_eq_true in E.
  eapply (climb_sound H w _ l Hw Hnc Hl _ _ (zip hs (audit H (Z.to_nat (n - 1)) l).*2));
    [lia|by rewrite snd_zip by lia|set_solver|set_solver|done].
Qed.

(** An honest audit proof is accepted: the RFC 6962 path of a transaction of the
    ledger verifies against the root, in both builds. *)
Theorem audit_proof_complete :
  (forall x, openssl_hash x = Ok (H x)) ->
  (Z.of_nat (length l) <= 2 ^ 63)%Z -> 63 < fuel -> (1 <= n)%Z ->
  l !! Z.to_nat (n - 1) = Some b ->
  parse_hashes proof_nodes = Some hashes ->
  mapM from_base58 hashes = Some (audit H (Z.to_nat (n - 1)) l).*1 ->
  parse_seq_no key = Some n -> value_bytes value = Some b ->
  verify_merkle_tree fuel p proof_nodes (mth H l) ((key, Some value) :: rest) (Z.of_nat (length l)) =
    Ok true.
Proof. intros Hd. by apply audit_path_accepted. Qed.

(** A sequence number beyond the ledger is not refused: the audit proof of the
    last transaction is accepted as the proof of every later number. *)
Theorem audit_proof_accepts_beyond_end :
  (forall x, openssl_hash x = Ok (H x)) ->
  (Z.of_nat (length l) <= 2 ^ 63)%Z -> 63 < fuel -> (Z.of_nat (length l) < n)%Z ->
  last l = Some b ->
  parse_hashes proof_nodes = Some hashes ->
  mapM from_base58 hashes = Some (audit H (length l - 1) l).*1 ->
  parse_seq_no key = Some n -> value_bytes value = Some b ->
  verify_merkle_tree fuel p proof_nodes (mth H l) ((key, Some value) :: rest) (Z.of_nat (length l)) =
    Ok true.
Proof.
  intros Hd Hlen Hf Hn Hb Hh Hs Hk Hv.
  assert (Hl : l <> []) by (intros ->; done).
  pose proof (ledger_log2 l Hlen) as H63.
  rewrite (verify_merkle_tree_eq H Hd _ _ _ _ _ _ _ _ hashes _ n b) by (try done; lia).
  cbn zeta. rewrite (audit_beyond H l Hl) by lia.
  rewrite !length_fmap, Nat.eqb_refl, zip_fst_snd.
  rewrite last_lookup in Hb. replace (pred (length l)) with (length l - 1) in Hb by lia.
  by rewrite (audit_climb H l Hl _ _ Hb), bool_decide_eq_true_2.
Qed.

(** A reply that claims a ledger of size 0 makes the client push turns until
    memory runs out, however much there is. *)
Theorem audit_proof_size_zero_never_returns :
  parse_hashes proof_nodes = Some hashes -> parse_seq_no key = Some n -> (1 <= n)%Z ->
  verify_merkle_tree fuel p proof_nodes b ((key, Some value) :: rest) 0 = Panic.
Proof.
  intros Hh Hk Hn. unfold verify_merkle_tree. rewrite Hh, Hk.
  unfold u64_sub, usize_sub. rewrite (proj2 (Z.leb_le _ _) Hn). cbn [obind].
  assert (E : forall acc, turns_loop fuel p 0 (n - 1) acc = Panic).
  { clear Hh Hk. induction fuel as [|f IH]; intros acc; [done|].
    cbn [turns_loop Z.eqb next_power_of_two Z.log2_up Z.pow obind].
    change (next_power_of_two p 0) with (Ok 1%Z). cbn [obind].
    change (1 / 2)%Z with 0%Z. rewrite (proj2 (Z.ltb_ge _ _)) by lia.
    rewrite !Z.sub_0_r. apply IH. }
  unfold calculate_turns. by rewrite E.
Qed.
End Properties.

(** A codec for the witnesses: strings stand for their bytes, base58 strings are
    indices into [path], and RLP is given by [items] for the bytes [0]. *)
Fixpoint demo_flatten (i : RlpItem) : bytes :=
  match i with
  | Data d => 1%Z :: Z.of_nat (length d) :: d
  | RList l => 2%Z :: Z.of_nat (length l) :: flat_map demo_flatten l
  | Malformed => [3%Z]
  end.

Definition demo_codec (path : list bytes) (items : list RlpItem) : Codec := {|
  base64_encode := string_of_bytes;
  base64_decode s := Some (as_bytes s);
  from_base58 s := match parse_u64 s with Some n => path !! Z.to_nat n | None => None end;
  to_base58 b := match list_find (b =.) path with
                 | Some (i, _) => u64_to_string (Z.of_nat i)
                 | None => "?"%string
                 end;
  json_from_str s :=
    if String.eqb s "path"
    then Some (Array (map (fun i => VString (u64_to_string (Z.of_nat i))) (seq 0 (length path))))
    else Some (VString s);
  json_to_string v := match v with VString s => s | _ => "object"%string end;
  rmp_to_vec v := match v with VString s => Some (as_bytes s) | _ => None end;
  rmp_to_vec_named v := match v with VString s => Some (as_bytes s) | _ => Some [] end;
  hex_encode := string_of_bytes;
  openssl_hash := demo_digest;
  rlp_items v := if bool_decide (v = [0%Z]) then Some items else Some [Data v];
  rlp_encode := demo_flatten;
  sha3_256 v := demo_hash v ++ replicate 30 0%Z
|}.

Definition demo_audit_codec (idx : nat) : Codec := demo_codec (audit demo_hash idx demo_values).*1 [].

(** Closes a hypothesis about concrete data. *)
Ltac solve_concrete :=
  lazymatch goal with
  | |- no_collision _ _ => apply no_collision_dec; vm_compute; reflexivity
  | |- forall x, _ => intros; reflexivity
  | |- _ => first [lia | vm_compute; first [reflexivity | split; discriminate | discriminate]]
  end.

Lemma audit_proof_sound_witness : demo_values !! 3 = Some [4; 4]%Z.
Proof.
  apply (audit_proof_sound (demo_audit_codec 3) demo_hash 64 Debug (as_bytes "path") "4"
    (string_of_bytes [4; 4]%Z) ["0"; "1"; "2"]%string (audit demo_hash 3 demo_values).*1 4
    [4; 4]%Z demo_values [] 2); solve_concrete.
Defined.

Lemma audit_proof_complete_witness :
  verify_merkle_tree (C := demo_audit_codec 1) 64 Release (as_bytes "path") (mth demo_hash demo_values)
    [("2"%string, Some (string_of_bytes [2; 3]%Z))] 5 = Ok true.
Proof.
  apply (audit_proof_complete (demo_audit_codec 1) demo_hash 64 Release (as_bytes "path") "2"
    (string_of_bytes [2; 3]%Z) ["0"; "1"; "2"]%string 2 [2; 3]%Z demo_values []);
    solve_concrete.
Defined.

Lemma audit_proof_accepts_beyond_end_witness :
  verify_merkle_tree (C := demo_audit_codec 4) 64 Debug (as_bytes "path") (mth demo_hash demo_values)
    [("100"%string, Some (string_of_bytes [5]%Z))] 5 = Ok true.
Proof.
  apply (audit_proof_accepts_beyond_end (demo_audit_codec 4) demo_hash 64 Debug (as_bytes "path") "100"
    (string_of_bytes [5]%Z) ["0"]%string 100 [5]%Z demo_values []);
    solve_concrete.
Defined.

Lemma audit_proof_size_zero_never_returns_witness :
  verify_merkle_tree (C := demo_audit_codec 4) 1000 Release (as_bytes "path") []
    [("3"%string, Some "v"%string)] 0 = Panic.
Proof.
  apply (audit_proof_size_zero_never_returns (demo_audit_codec 4) 1000 Release (as_bytes "path") "3" "v"
    ["0"]%string 3); [by vm_compute|by vm_compute|lia].
Defined.
