(* ===== verification/StateProof.v ===== *)
(** * Verification of state proofs

    [verify_parsed_sp], [_verify_proof], [_verify_proof_range] and
    [_verify_proof_signature] of [libindy/src/services/pool/state_proof/mod.rs], with
    [ParsedSP] and its parts of [types.rs].

    The BLS library is the record [BlsOps]; [slice::binary_search_by_key], whose choice
    among equal keys is unspecified, is the parameter [bsearch].  [fuel] is the stack
    left for the recursive trie lookups and the memory for [_calculate_turns]. *)

From stdpp Require Import base list strings numbers gmap sorting.
From Stdlib Require Import ZArith Lia.
From S2P Require Import Prelude Json MerkleTree MerkleProof Trie External AuditProof.

(** ** Data of [types.rs] *)
Record NumericalSuffixAscendingNoGapsData := mkSuffixData {
  nsd_from : option Z;
  nsd_next : option Z;
  nsd_prefix : string
}.

Inductive KeyValueSimpleDataVerificationType :=
  | VSimple
  | VNumericalSuffixAscendingNoGaps (data : NumericalSuffixAscendingNoGapsData)
  | VMerkleTree (length : Z).

Record KeyValueSimpleData := mkSimpleData {
  sd_kvs : list (string * option string);
  sd_verification_type : KeyValueSimpleDataVerificationType
}.

Record KeyValuesSubTrieData := mkSubTrieData {
  st_sub_trie_prefix : option string;
  st_kvs : list (string * option string)
}.

Inductive KeyValuesInSP :=
  | Simple (data : KeyValueSimpleData)
  | SubTrie (data : KeyValuesSubTrieData).

Record ParsedSP := mkParsedSP {
  proof_nodes : string;
  sp_root_hash : string;
  kvs_to_verify : KeyValuesInSP;
  multi_signature : Value
}.

(** The calls of [ursa::bls]; a failed [verify_multi_sig] is [None]. *)
Class BlsOps := {
  VerKey : Type;
  MultiSignature : Type;
  Generator : Type;
  multi_sig_from_bytes : bytes -> option MultiSignature;
  verify_multi_sig : MultiSignature -> bytes -> list VerKey -> Generator -> option bool
}.

(** A suffix number with the pair it belongs to. *)
Abbreviation entry := (Z * (string * option string))%type.

(** ** Trie proofs *)
Section Proofs.
Context {C : Codec}.

(** The database built from the proof nodes. *)
Definition proof_db (nodes : list Node) : TrieDB :=
  foldl (fun m n => <[get_hash n := n]> m) ∅ nodes.

(** [_verify_proof]. *)
Definition verify_proof (fuel : nat) (proofs_rlp root_hash key : bytes)
    (expected_value : option string) : outcome bool :=
  let? nodes := rlp_nodes proofs_rlp in
  let map := proof_db nodes in
  match map !! root_hash with
  | Some root =>
      match get_str_value rlp_list fuel map root key with
      | Ok value => Ok (bool_decide (value = expected_value))
      | Err _ => Ok false
      | Panic => Panic
      end
  | None => Ok false
  end.

(** [key.starts_with(prefix)] and [key.replacen(prefix, "", 1)]. *)
Fixpoint strip_prefix (prefix key : string) : option string :=
  match prefix, key with
  | EmptyString, _ => Some key
  | String a p, String b k => if Ascii.eqb a b then strip_prefix p k else None
  | _, _ => None
  end.

(** [vals_for_sort_check]: entries under the prefix, [None] without a number. *)
Definition suffix_entry (prefix : string) (kv : string * string) : option (option entry) :=
  match strip_prefix prefix kv.1 with
  | Some suffix =>
      Some (match parse_u64 suffix with
            | Some no => Some (no, (kv.1, Some kv.2))
            | None => None
            end)
  | None => None
  end.

(** [sort_by_key], a stable sort. *)
Fixpoint insert_by_key (x : entry) (l : list entry) : list entry :=
  match l with
  | [] => [x]
  | y :: l' => if (x.1 <=? y.1)%Z then x :: l else y :: insert_by_key x l'
  end.
Definition sort_by_key (l : list entry) : list entry := foldr insert_by_key [] l.

Context (bsearch : list Z -> Z -> bool * nat).

(** The checks of [_verify_proof_range] on the values of the trie. *)
Definition check_range (prefix : string) (from next : option Z)
    (vals : list (string * string)) (kvs : list (string * option string)) : bool :=
  match mapM id (omap (suffix_entry prefix) vals) with
  | None => false
  | Some vals_for_sort =>
      let vals_for_sort := sort_by_key vals_for_sort in
      let vals_with_from :=
        match from with
        | Some from_seqno => drop (bsearch vals_for_sort.*1 from_seqno).2 vals_for_sort
        | None => vals_for_sort
        end in
      match next with
      | Some next_seqno =>
          match bsearch vals_with_from.*1 next_seqno with
          | (true, idx) => bool_decide ((take idx vals_with_from).*2 = kvs)
          | (false, _) => false
          end
      | None => bool_decide (vals_with_from.*2 = kvs)
      end
  end.

(** [_verify_proof_range]. *)
Definition verify_proof_range (fuel : nat) (proofs_rlp root_hash : bytes) (prefix : string)
    (from next : option Z) (kvs : list (string * option string)) : outcome bool :=
  let? nodes := rlp_nodes proofs_rlp in
  let map := proof_db nodes in
  match map !! root_hash with
  | Some root =>
      match get_all_values rlp_list fuel map root (Some (as_bytes prefix)) with
      | Ok vals => Ok (check_range prefix from next vals kvs)
      | Err _ => Ok false
      | Panic => Panic
      end
  | None => Ok false
  end.
End Proofs.

(** ** Signatures *)
Section Signatures.
Context {C : Codec} {B : BlsOps}.

(** [Nodes], in the iteration order of the map. *)
Definition Nodes : Type := list (string * option VerKey).

(** The loop collecting the keys of the participants. *)
Fixpoint collect_ver_keys (nodes : Nodes) (participants : list string) : outcome (list VerKey) :=
  match nodes with
  | [] => Ok []
  | (name, verkey) :: nodes' =>
      if existsb (String.eqb name) participants then
        match verkey with
        | Some blskey => let? ks := collect_ver_keys nodes' participants in Ok (blskey :: ks)
        | None => Err (err_msg InvalidState "Blskey not found for node")
        end
      else collect_ver_keys nodes' participants
  end.

(** [_verify_proof_signature]. *)
Definition verify_proof_signature (p : Profile) (signature : string) (participants : list string)
    (value : bytes) (nodes : Nodes) (f : Z) (gen : Generator) : outcome bool :=
  let? ver_keys := collect_ver_keys nodes participants in
  let? needed := usize_sub p (Z.of_nat (length nodes)) f in
  if (Z.of_nat (length ver_keys) <? needed)%Z then Ok false
  else
    match from_base58 signature with
    | None => Ok false
    | Some signature =>
        match multi_sig_from_bytes signature with
        | None => Ok false
        | Some signature => Ok (default false (verify_multi_sig signature value ver_keys gen))
        end
    end.

(** [_parse_reply_for_proof_signature_checking]. *)
Definition parse_reply_for_proof_signature_checking (json_msg : Value)
  : option (string * list string * bytes) :=
  match as_str (index json_msg "signature"), as_array (index json_msg "participants"),
        rmp_to_vec_named (index json_msg "value") with
  | Some signature, Some participants, Some value =>
      let participants_unwrap := omap as_str participants in
      if length participants =? length participants_unwrap
      then Some (signature, participants_unwrap, value) else None
  | _, _, _ => None
  end.

(** The [KeyValueSimpleDataVerificationType::Simple] loop. *)
Fixpoint verify_simple (fuel : nat) (proof_nodes root_hash : bytes)
    (kvs : list (string * option string)) : outcome bool :=
  match kvs with
  | [] => Ok true
  | (k, v) :: kvs' =>
      match base64_decode k with
      | None => Ok false
      | Some key =>
          let? ok := verify_proof fuel proof_nodes root_hash key v in
          if negb ok then Ok false else verify_simple fuel proof_nodes root_hash kvs'
      end
  end.

Context (bsearch : list Z -> Z -> bool * nat).

Definition verify_kvs (fuel : nat) (p : Profile) (proof_nodes root_hash : bytes)
    (kvs : KeyValuesInSP) : outcome bool :=
  match kvs with
  | Simple kvs =>
      match sd_verification_type kvs with
      | VSimple => verify_simple fuel proof_nodes root_hash (sd_kvs kvs)
      | VNumericalSuffixAscendingNoGaps data =>
          verify_proof_range bsearch fuel proof_nodes root_hash (nsd_prefix data)
            (nsd_from data) (nsd_next data) (sd_kvs kvs)
      | VMerkleTree length =>
          verify_merkle_tree fuel p proof_nodes root_hash (sd_kvs kvs) length
      end
  | SubTrie _ => Ok false
  end.

(** The signature is for the root hash of the proof. *)
Definition signs_root (parsed_sp : ParsedSP) : bool :=
  let value := index (multi_signature parsed_sp) "value" in
  bool_decide (as_str (index value "state_root_hash") = Some (sp_root_hash parsed_sp))
  || bool_decide (as_str (index value "txn_root_hash") = Some (sp_root_hash parsed_sp)).

(** One round of the loop of [verify_parsed_sp]: [Ok false] is [return false]. *)
Definition verify_one_sp (fuel : nat) (p : Profile) (parsed_sp : ParsedSP) (nodes : Nodes)
    (f : Z) (gen : Generator) : outcome bool :=
  if negb (signs_root parsed_sp) then Ok false
  else
    match parse_reply_for_proof_signature_checking (multi_signature parsed_sp) with
    | None => Ok false
    | Some (signature, participants, value) =>
        match verify_proof_signature p signature participants value nodes f gen with
        | Panic => Panic
        | Err _ | Ok false => Ok false
        | Ok true =>
            match base64_decode (proof_nodes parsed_sp) with
            | None => Ok false
            | Some proof_nodes =>
                match from_base58 (sp_root_hash parsed_sp) with
                | None => Ok false
                | Some root_hash => verify_kvs fuel p proof_nodes root_hash (kvs_to_verify parsed_sp)
                end
            end
        end
    end.

(** [verify_parsed_sp]. *)
Fixpoint verify_parsed_sp (fuel : nat) (p : Profile) (parsed_sps : list ParsedSP) (nodes : Nodes)
    (f : Z) (gen : Generator) : outcome bool :=
  match parsed_sps with
  | [] => Ok true
  | parsed_sp :: rest =>
      let? ok := verify_one_sp fuel p parsed_sp nodes f gen in
      if negb ok then Ok false else verify_parsed_sp fuel p rest nodes f gen
  end.
End Signatures.

(** ** Partial databases

    The nodes of a proof are a part of the database of the ledger. *)
Fixpoint node_refs (n : Node) : list bytes :=
  match n with
  | Leaf _ _ | Blank => []
  | Extension _ next => node_refs next
  | Full nodes _ => flat_map (fun o => match o with Some n => node_refs n | None => [] end) nodes
  | Hash h => [h]
  end.

(** Every reference of every node is resolved. *)
Definition complete_db (D : TrieDB) : Prop :=
  forall h n, D !! h = Some n -> forall r, r ∈ node_refs n -> is_Some (D !! r).

Lemma child_refs nodes value i c :
  nodes !! i = Some (Some c) -> node_refs c ⊆ node_refs (Full nodes value).
Proof.
  intros Hi r Hr. cbn [node_refs]. apply list_elem_of_In, in_flat_map. exists (Some c).
  split; [|by apply list_elem_of_In]. by eapply list_elem_of_In, list_elem_of_lookup_2.
Qed.

Lemma get_node_agree db D fuel n path seen r :
  complete_db D -> (forall h n m, db !! h = Some n -> D !! h = Some m -> n = m) ->
  (forall h, h ∈ node_refs n -> is_Some (D !! h)) ->
  _get_node fuel db n path seen = Ok r -> _get_node fuel D n path seen = Ok r.
Proof.
  intros Hc Ha. revert n path seen. induction fuel as [|fuel IH]; intros n path seen Hn Hg; [done|].
  cbn [_get_node] in *. destruct n as [p v|p next|nodes v|h|]; try done.
  - destruct (parse_path p) as [[il pp]| |]; cbn [obind] in *; try done.
    destruct il; [done|]. destruct (starts_with path pp); [by apply IH|done].
  - destruct path as [|x path]; [done|].
    destruct (nodes !! Z.to_nat x) as [[c|]|] eqn:Ec; try done.
    apply IH; [|done]. intros h Hh. by apply Hn, (child_refs nodes v _ c Ec).
  - destruct (node_hash h) as [h'| |] eqn:Eh; cbn [obind] in *; try done.
    assert (h' = h) as -> by (unfold node_hash in Eh; destruct (_ =? _); congruence).
    destruct (Hn h ltac:(cbn; set_solver)) as [m Hm]. rewrite Hm.
    destruct (db !! h) as [next|] eqn:Ed; [|done]. rewrite (Ha _ _ _ Ed Hm) in Hg.
    apply IH; [|done]. intros r' Hr'. by eapply Hc.
Qed.

Section Facts.
Context {C : Codec}.

Lemma proof_db_lookup nodes h n :
  proof_db nodes !! h = Some n -> n ∈ nodes /\ get_hash n = h.
Proof.
  unfold proof_db. induction nodes as [|x nodes IH] using rev_ind; [done|].
  rewrite foldl_app. cbn [foldl]. destruct (decide (get_hash x = h)) as [<-|Hne].
  - rewrite lookup_insert_eq. intros [= <-]. split; [set_solver|done].
  - rewrite lookup_insert_ne by done. intros [? ?]%IH. split; [set_solver|done].
Qed.

(** [get_hash] does not collide on the nodes [ns] and the database [D]. *)
Definition no_node_collision (ns : list Node) (D : TrieDB) : Prop :=
  forall n h m, n ∈ ns -> D !! h = Some m -> get_hash n = get_hash m -> n = m.

(** [D] is addressed by hash. *)
Definition addressed (D : TrieDB) : Prop := forall h m, D !! h = Some m -> get_hash m = h.

Lemma verify_proof_lookup D fuel proofs nodes r key expected :
  rlp_nodes proofs = Ok nodes -> complete_db D -> addressed D -> no_node_collision nodes D ->
  verify_proof fuel proofs r key expected = Ok true ->
  forall root, D !! r = Some root ->
  exists found, get_value rlp_list fuel D root key = Ok found /\
    match found, expected with
    | Some val, Some s => from_utf8 val = Some s
    | None, None => True
    | _, _ => False
    end.
Proof.
  intros Hn Hc Had Hnc. unfold verify_proof. rewrite Hn. cbn [obind].
  destruct (proof_db nodes !! r) as [root'|] eqn:Er; [|done]. intros Hv root Hroot.
  assert (Ha : forall h n m, proof_db nodes !! h = Some n -> D !! h = Some m -> n = m).
  { intros h n m Hp Hm. apply proof_db_lookup in Hp as [Hin Hh].
    eapply Hnc; [done|done|]. rewrite Hh. symmetry. by apply Had. }
  rewrite (Ha _ _ _ Er Hroot) in Hv.
  unfold get_str_value, get_value, _get_value in *.
  destruct (_get_node fuel (proof_db nodes) root _ []) as [o| |] eqn:Eg; cbn [obind] in Hv; try done.
  rewrite (get_node_agree (proof_db nodes) D fuel root _ _ o Hc Ha (Hc r root Hroot) Eg). cbn [obind].
  destruct (found_value o) as [[v|]| |]; cbn [obind] in *; try done.
  - destruct (single_value rlp_list v) as [val|]; cbn [obind] in *; [|done].
    destruct (from_utf8 val) as [s|] eqn:Eu; [|done]. injection Hv as Hv.
    apply bool_decide_eq_true in Hv. subst expected. by exists (Some val).
  - injection Hv as Hv. apply bool_decide_eq_true in Hv. subst expected. by exists None.
Qed.
End Facts.

(** ** Ranges: slicing by binary search is filtering *)
Definition bsearch_ok (bsearch : list Z -> Z -> bool * nat) : Prop :=
  forall l k, StronglySorted Z.lt l ->
    let (found, i) := bsearch l k in
    i <= length l /\ Forall (fun x => x < k)%Z (take i l) /\
    if found then l !! i = Some k else Forall (fun x => k < x)%Z (drop i l).

Definition in_from (from : option Z) (e : entry) : bool :=
  match from with Some k => (k <=? e.1)%Z | None => true end.
Definition in_next (next : option Z) (e : entry) : bool :=
  match next with Some k => (e.1 <? k)%Z | None => true end.

Lemma StronglySorted_drop {A} (R : A -> A -> Prop) l i : StronglySorted R l -> StronglySorted R (drop i l).
Proof. revert i. induction l as [|x l IH]; intros [|i] Hs; try done. inversion Hs; subst. by apply IH. Qed.

Lemma sorted_after {l : list Z} {i k} :
  StronglySorted Z.lt l -> l !! i = Some k -> Forall (fun x => k <= x)%Z (drop i l).
Proof.
  revert i. induction l as [|x l IH]; intros [|i] Hs Hi; try done; inversion Hs as [|? ? Hs' Hx]; subst.
  - injection Hi as ->. constructor; [lia|]. eapply Forall_impl; [exact Hx|]. cbn. lia.
  - by apply IH.
Qed.

Lemma filter_true {A} (f : A -> bool) l : Forall (fun x => f x = true) l -> List.filter f l = l.
Proof. induction 1 as [|x l Hx _ IH]; [done|]. cbn. by rewrite Hx, IH. Qed.
Lemma filter_false {A} (f : A -> bool) l : Forall (fun x => f x = false) l -> List.filter f l = [].
Proof. induction 1 as [|x l Hx _ IH]; [done|]. cbn. by rewrite Hx. Qed.

Lemma filter_drop {A} (f : A -> bool) l i :
  Forall (fun x => f x = false) (take i l) -> Forall (fun x => f x = true) (drop i l) ->
  List.filter f l = drop i l.
Proof.
  intros H1 H2. rewrite <-(take_drop i l) at 1. by rewrite List.filter_app, filter_false, filter_true.
Qed.
Lemma filter_take {A} (f : A -> bool) l i :
  Forall (fun x => f x = true) (take i l) -> Forall (fun x => f x = false) (drop i l) ->
  List.filter f l = take i l.
Proof.
  intros H1 H2. rewrite <-(take_drop i l) at 1.
  by rewrite List.filter_app, filter_true, filter_false, app_nil_r.
Qed.

Lemma bsearch_cut bsearch l k :
  bsearch_ok bsearch -> StronglySorted Z.lt l ->
  Forall (fun x => x < k)%Z (take (bsearch l k).2 l) /\
  Forall (fun x => k <= x)%Z (drop (bsearch l k).2 l).
Proof.
  intros Hb Hs. specialize (Hb l k Hs). destruct (bsearch l k) as [[] i]; cbn [snd];
    destruct Hb as (_ & H1 & H2); (split; [exact H1|]).
  - by eapply sorted_after.
  - eapply Forall_impl; [exact H2|]. cbn. lia.
Qed.

Lemma fmap_cut {A} (P Q : Z -> Prop) (f : A -> Z) l i :
  Forall P (take i (f <$> l)) -> Forall Q (drop i (f <$> l)) ->
  Forall (fun e => P (f e)) (take i l) /\ Forall (fun e => Q (f e)) (drop i l).
Proof. rewrite <-fmap_take, <-fmap_drop, !Forall_fmap. done. Qed.

Lemma drop_from bsearch (l : list entry) from :
  bsearch_ok bsearch -> StronglySorted Z.lt l.*1 ->
  match from with Some k => drop (bsearch l.*1 k).2 l | None => l end =
  List.filter (in_from from) l.
Proof.
  intros Hb Hs. destruct from as [k|].
  - destruct (bsearch_cut bsearch l.*1 k Hb Hs) as [H1 H2].
    destruct (fmap_cut _ _ _ _ _ H1 H2) as [H1' H2'].
    symmetry. apply filter_drop; cbn.
    + eapply Forall_impl; [exact H1'|]. cbn. intros e He. by apply Z.leb_gt.
    + eapply Forall_impl; [exact H2'|]. cbn. intros e He. by apply Z.leb_le.
  - symmetry. apply filter_true, Forall_true. done.
Qed.

Lemma take_next bsearch (l : list entry) k :
  bsearch_ok bsearch -> StronglySorted Z.lt l.*1 ->
  take (bsearch l.*1 k).2 l = List.filter (in_next (Some k)) l.
Proof.
  intros Hb Hs. destruct (bsearch_cut bsearch l.*1 k Hb Hs) as [H1 H2].
  destruct (fmap_cut _ _ _ _ _ H1 H2) as [H1' H2'].
  symmetry. apply filter_take; cbn.
  - eapply Forall_impl; [exact H1'|]. cbn. intros e He. by apply Z.ltb_lt.
  - eapply Forall_impl; [exact H2'|]. cbn. intros e He. by apply Z.ltb_ge.
Qed.

Lemma bsearch_found bsearch l k :
  bsearch_ok bsearch -> StronglySorted Z.lt l -> (bsearch l k).1 = bool_decide (k ∈ l).
Proof.
  intros Hb Hs. specialize (Hb l k Hs). destruct (bsearch l k) as [found i].
  destruct Hb as (_ & H1 & H2). cbn [fst]. symmetry. destruct found.
  - apply bool_decide_eq_true. by eapply list_elem_of_lookup_2.
  - apply bool_decide_eq_false. rewrite <-(take_drop i l), elem_of_app.
    rewrite Forall_forall in H1, H2. intros [H|H]; [apply H1 in H|apply H2 in H]; lia.
Qed.

(** Sorting by a key without duplicates. *)
Lemma insert_by_key_perm x l : insert_by_key x l ≡ₚ x :: l.
Proof.
  induction l as [|y l IH]; [done|]. cbn. destruct (_ <=? _)%Z; [done|]. rewrite IH. constructor.
Qed.
Lemma sort_by_key_perm l : sort_by_key l ≡ₚ l.
Proof. induction l as [|x l IH]; [done|]. cbn. by rewrite insert_by_key_perm, IH. Qed.

Lemma insert_by_key_sorted x l :
  x.1 ∉ l.*1 -> StronglySorted Z.lt l.*1 -> StronglySorted Z.lt (insert_by_key x l).*1.
Proof.
  induction l as [|y l IH]; intros Hx Hs; [repeat constructor|]. cbn [insert_by_key].
  rewrite fmap_cons, not_elem_of_cons in Hx. destruct Hx as [Hne Hx].
  inversion Hs as [|? ? Hs' Hy]; subst. destruct (Z.leb_spec x.1 y.1) as [Hle|Hlt].
  - cbn. constructor; [done|]. constructor; [lia|]. eapply Forall_impl; [exact Hy|]. cbn. lia.
  - cbn. constructor; [by apply IH|]. rewrite insert_by_key_perm. cbn. by constructor.
Qed.

Lemma sort_by_key_sorted l : NoDup l.*1 -> StronglySorted Z.lt (sort_by_key l).*1.
Proof.
  induction l as [|x l IH]; [constructor|]. rewrite fmap_cons. intros [Hx Hnd]%NoDup_cons.
  change (sort_by_key (x :: l)) with (insert_by_key x (sort_by_key l)).
  apply insert_by_key_sorted; [|by apply IH].
  assert (Hp : (sort_by_key l).*1 ≡ₚ l.*1) by apply fmap_Permutation, sort_by_key_perm. by rewrite Hp.
Qed.

Lemma filter_perm {A} (f : A -> bool) l l' : l ≡ₚ l' -> List.filter f l ≡ₚ List.filter f l'.
Proof.
  induction 1 as [|x l l' _ IH|x y l|l1 l2 l3 _ IH1 _ IH2]; [done| | |by etrans]; cbn.
  - destruct (f x); [by constructor|done].
  - destruct (f x), (f y); first [reflexivity|apply perm_swap].
Qed.

Lemma filter_sorted (f : entry -> bool) l :
  StronglySorted Z.lt l.*1 -> StronglySorted Z.lt (List.filter f l).*1.
Proof.
  induction l as [|x l IH]; [done|]. intros Hs. inversion Hs as [|? ? Hs' Hx]; subst. cbn.
  destruct (f x); [|by apply IH]. cbn. constructor; [by apply IH|].
  rewrite Forall_fmap in Hx |- *. rewrite Forall_forall in Hx |- *.
  intros y Hy%list_elem_of_In%filter_In. apply Hx, list_elem_of_In, Hy.
Qed.

Lemma check_range_filter bsearch prefix from next vals kvs entries :
  bsearch_ok bsearch -> mapM id (omap (suffix_entry prefix) vals) = Some entries -> NoDup entries.*1 ->
  check_range bsearch prefix from next vals kvs =
  match next with Some k => bool_decide (k ∈ (List.filter (in_from from) entries).*1) | None => true end
  && bool_decide (kvs = (List.filter (fun e => in_from from e && in_next next e)
                                     (sort_by_key entries)).*2).
Proof.
  intros Hb Hm Hnd. unfold check_range. rewrite Hm. cbn zeta.
  pose proof (sort_by_key_sorted entries Hnd) as Hs.
  rewrite (drop_from bsearch _ from Hb Hs). set (l := sort_by_key entries) in *.
  pose proof (filter_sorted (in_from from) l Hs) as Hsf.
  assert (E : forall next', List.filter (in_next next') (List.filter (in_from from) l) =
                List.filter (fun e => in_from from e && in_next next' e) l).
  { intros next'. clear. induction l as [|x l IH]; [done|]. cbn.
    destruct (in_from from x); cbn; [|done]. destruct (in_next next' x); by rewrite ?IH. }
  assert (Hp : (List.filter (in_from from) l).*1 ≡ₚ (List.filter (in_from from) entries).*1).
  { apply fmap_Permutation, filter_perm, sort_by_key_perm. }
  destruct next as [k|].
  - pose proof (bsearch_found bsearch _ k Hb Hsf) as Hf. pose proof (take_next bsearch _ k Hb Hsf) as Ht.
    rewrite (bool_decide_ext (k ∈ (List.filter (in_from from) entries).*1)
      (k ∈ (List.filter (in_from from) l).*1)) by (by rewrite Hp).
    destruct (bsearch _ k) as [found i]. cbn [fst snd] in *. rewrite <-Hf.
    destruct found; [|done]. rewrite Ht, E. apply bool_decide_ext. split; congruence.
  - rewrite <-(E None), (filter_true (in_next None)) by (apply Forall_forall; done). apply bool_decide_ext. split; congruence.
Qed.

(** ** Signers *)
Section SignerFacts.
Context {C : Codec} {B : BlsOps}.

Definition signers (nodes : Nodes) (participants : list string) : Nodes :=
  List.filter (fun nv => existsb (String.eqb nv.1) participants) nodes.

Lemma collect_ver_keys_signers nodes participants ks :
  collect_ver_keys nodes participants = Ok ks -> Some <$> ks = (signers nodes participants).*2.
Proof.
  revert ks. induction nodes as [|[name vk] nodes IH]; intros ks; cbn [collect_ver_keys].
  { intros [= <-]. done. }
  unfold signers. cbn [List.filter fst]. destruct (existsb (String.eqb name) participants); [|apply IH].
  destruct vk as [k|]; [|done].
  destruct (collect_ver_keys nodes participants) as [ks'| |]; cbn [obind]; try done.
  intros [= <-]. cbn. f_equal. by apply IH.
Qed.

(** What [_verify_proof_signature] has checked when it answers yes. *)
Lemma verify_proof_signature_true p sig participants value nodes f gen :
  (0 <= f <= Z.of_nat (length nodes))%Z ->
  verify_proof_signature p sig participants value nodes f gen = Ok true ->
  exists ks b ms, Some <$> ks = (signers nodes participants).*2 /\
    (Z.of_nat (length nodes) - f <= Z.of_nat (length (signers nodes participants)))%Z /\
    from_base58 sig = Some b /\ multi_sig_from_bytes b = Some ms /\
    verify_multi_sig ms value ks gen = Some true.
Proof.
  intros Hf. unfold verify_proof_signature.
  destruct (collect_ver_keys nodes participants) as [ks| |] eqn:Ek; cbn [obind]; try done.
  apply collect_ver_keys_signers in Ek.
  unfold usize_sub. rewrite (proj2 (Z.leb_le _ _)) by lia. cbn [obind].
  destruct (Z.ltb_spec (Z.of_nat (length ks)) (Z.of_nat (length nodes) - f)%Z) as [|Hk]; [done|].
  destruct (from_base58 sig) as [b|] eqn:Eb; [|done].
  destruct (multi_sig_from_bytes b) as [ms|] eqn:Em; [|done].
  intros [= Hv]. exists ks, b, ms. repeat split; try done.
  - apply (f_equal length) in Ek. rewrite !length_fmap in Ek. lia.
  - by destruct (verify_multi_sig ms value ks gen) as [[]|].
Qed.

Lemma verify_parsed_sp_all bsearch fuel p sps nodes f gen :
  verify_parsed_sp bsearch fuel p sps nodes f gen = Ok true ->
  Forall (fun sp => verify_one_sp bsearch fuel p sp nodes f gen = Ok true) sps.
Proof.
  induction sps as [|sp sps IH]; [constructor|]. cbn [verify_parsed_sp].
  destruct (verify_one_sp bsearch fuel p sp nodes f gen) as [[]| |] eqn:E; cbn [obind negb]; try done.
  intros H. constructor; [done|by apply IH].
Qed.
End SignerFacts.

(** ** Properties *)

(** C5: An accepted state proof tells the truth about the ledger.  Let [D] be the
    complete, hash-addressed node database of the ledger and [root] its node at the
    proof's root hash.  Unless a proof node collides with a node of [D], an accepted
    value is stored in the ledger at a key extending the requested one (at the key
    itself if no stored key extends it), and an accepted absence means that the ledger
    stores nothing at the key. *)
Theorem verify_proof_sound (C : Codec) D fuel proofs nodes r root key expected :
  rlp_nodes proofs = Ok nodes -> complete_db D -> addressed D -> no_node_collision nodes D ->
  D !! r = Some root -> Forall is_byte key ->
  verify_proof fuel proofs r key expected = Ok true ->
  match expected with
  | Some s => exists sfx v val, Stored D root (path_to_nibbles key ++ sfx) v /\
      single_value rlp_list v = Some val /\ from_utf8 val = Some s /\
      ((forall s' v', s' <> [] -> ~ Stored D root (path_to_nibbles key ++ s') v') -> sfx = [])
  | None => forall v, ~ Stored D root (path_to_nibbles key) v
  end.
Proof.
  intros Hn Hc Ha Hnc Hr Hk Hv.
  destruct (verify_proof_lookup D fuel proofs nodes r key expected Hn Hc Ha Hnc Hv root Hr)
    as (found & Hg & Hm).
  unfold get_value in Hg.
  destruct (_get_value fuel D root (path_to_nibbles key)) as [[v|]| |] eqn:E; cbn [obind] in Hg; try done.
  - destruct (single_value rlp_list v) as [val|] eqn:Ev; [|done]. injection Hg as <-.
    destruct expected as [s|]; [|done].
    destruct (get_value_sound fuel D root _ v (path_to_nibbles_nonneg key Hk) E) as [sfx Hs].
    exists sfx, v, val. repeat split; try done. intros Hno.
    destruct sfx as [|x sfx]; [done|]. by destruct (Hno (x :: sfx) v).
  - injection Hg as <-. destruct expected; [done|]. intros v. by apply (get_value_none fuel).
Qed.

(** An honest proof is accepted: if the proof nodes contain the root and the nodes
    on the way to a stored value, the proof of that value verifies, given enough
    stack. *)
Theorem verify_proof_complete (C : Codec) proofs nodes r root key v val s :
  rlp_nodes proofs = Ok nodes -> proof_db nodes !! r = Some root ->
  Stored (proof_db nodes) root (path_to_nibbles key) v ->
  single_value rlp_list v = Some val -> from_utf8 val = Some s ->
  exists fuel0, forall fuel, fuel0 <= fuel -> verify_proof fuel proofs r key (Some s) = Ok true.
Proof.
  intros Hn Hr [fuel0 Hf]%get_value_complete Hv Hs. exists fuel0. intros fuel Hle.
  unfold verify_proof. rewrite Hn. cbn [obind]. rewrite Hr.
  unfold get_str_value, get_value. rewrite (Hf fuel Hle). cbn [obind]. rewrite Hv. cbn [obind].
  rewrite Hs. by rewrite bool_decide_eq_true_2.
Qed.

(** The range check is exact.  For trie values under the prefix with distinct
    numerical suffixes, it accepts a reply exactly when the reply lists, in ascending
    order, the entries with a suffix from [from] on and below [next], and the trie has
    an entry for [next]. *)
Theorem check_range_exact bsearch prefix from next vals kvs entries :
  bsearch_ok bsearch -> mapM id (omap (suffix_entry prefix) vals) = Some entries -> NoDup entries.*1 ->
  check_range bsearch prefix from next vals kvs = true <->
  (forall k, next = Some k -> k ∈ (List.filter (in_from from) entries).*1) /\
  kvs = (List.filter (fun e => in_from from e && in_next next e) (sort_by_key entries)).*2.
Proof.
  intros Hb Hm Hnd. rewrite (check_range_filter bsearch _ _ _ _ _ entries Hb Hm Hnd).
  rewrite andb_true_iff, bool_decide_eq_true. destruct next as [k|].
  - rewrite bool_decide_eq_true. naive_solver.
  - naive_solver.
Qed.


(** ** A two-node proof *)
Definition demo_sp_hash (n : Node) : bytes := get_hash (C := demo_codec [] []) n.
Definition demo_sp_leaf : Node := Leaf (hex_prefix true (demo_key "b")) (as_bytes "v").
Definition demo_sp_root : Node := Extension (hex_prefix false (demo_key "a")) (Hash (demo_sp_hash demo_sp_leaf)).
Definition demo_sp_nodes : list Node := [demo_sp_root; demo_sp_leaf].
Definition demo_sp_codec : Codec :=
  demo_codec [demo_sp_hash demo_sp_root; [9]%Z] (map encode demo_sp_nodes).
Definition demo_sp_db : TrieDB := proof_db (C := demo_sp_codec) demo_sp_nodes.

Lemma demo_sp_lookup h n : demo_sp_db !! h = Some n -> n = demo_sp_root \/ n = demo_sp_leaf.
Proof. intros [Hn _]%(proof_db_lookup (C := demo_sp_codec)). set_solver. Qed.

Lemma demo_sp_complete : complete_db demo_sp_db.
Proof.
  intros h n [->| ->]%demo_sp_lookup r Hr.
  - apply list_elem_of_singleton in Hr as ->. exists demo_sp_leaf. vm_compute. reflexivity.
  - by apply not_elem_of_nil in Hr.
Qed.

Lemma demo_sp_addressed : addressed (C := demo_sp_codec) demo_sp_db.
Proof. intros h m [_ Hm]%(proof_db_lookup (C := demo_sp_codec)). done. Qed.

Lemma demo_sp_no_collision : no_node_collision (C := demo_sp_codec) demo_sp_nodes demo_sp_db.
Proof.
  intros n h m Hn Hm%demo_sp_lookup E.
  assert (Hn' : n = demo_sp_root \/ n = demo_sp_leaf) by set_solver.
  destruct Hn' as [->| ->], Hm as [->| ->]; try done; vm_compute in E; discriminate E.
Qed.

Lemma demo_sp_stored : Stored demo_sp_db demo_sp_root (path_to_nibbles (as_bytes "ab")) (as_bytes "v").
Proof.
  change (path_to_nibbles (as_bytes "ab")) with (demo_key "a" ++ demo_key "b").
  eapply stored_extension; [reflexivity|].
  eapply (stored_hash _ _ demo_sp_leaf); [reflexivity|vm_compute; reflexivity|].
  by constructor.
Qed.

Lemma verify_proof_sound_witness :
  exists sfx v val, Stored demo_sp_db demo_sp_root (path_to_nibbles (as_bytes "ab") ++ sfx) v /\
    single_value (@rlp_list demo_sp_codec) v = Some val /\ from_utf8 val = Some "v"%string /\
    ((forall s' v', s' <> [] -> ~ Stored demo_sp_db demo_sp_root (path_to_nibbles (as_bytes "ab") ++ s') v') ->
     sfx = []).
Proof.
  apply (verify_proof_sound demo_sp_codec demo_sp_db 3 [0%Z] demo_sp_nodes (demo_sp_hash demo_sp_root)
    demo_sp_root (as_bytes "ab") (Some "v"%string)).
  - vm_compute. reflexivity.
  - apply demo_sp_complete.
  - apply demo_sp_addressed.
  - apply demo_sp_no_collision.
  - vm_compute. reflexivity.
  - apply as_bytes_range.
  - vm_compute. reflexivity.
Defined.

Lemma verify_proof_complete_witness :
  exists fuel0, forall fuel, fuel0 <= fuel ->
    verify_proof (C := demo_sp_codec) fuel [0%Z] (demo_sp_hash demo_sp_root) (as_bytes "ab")
      (Some "v"%string) = Ok true.
Proof.
  apply (verify_proof_complete demo_sp_codec [0%Z] demo_sp_nodes _ demo_sp_root _ (as_bytes "v") (as_bytes "v")).
  - vm_compute. reflexivity.
  - vm_compute. reflexivity.
  - apply demo_sp_stored.
  - vm_compute. reflexivity.
  - reflexivity.
Defined.

(** A linear search with the contract of [binary_search_by_key]. *)
Fixpoint linear_search (l : list Z) (k : Z) : bool * nat :=
  match l with
  | [] => (false, 0)
  | x :: l' =>
      if (x <? k)%Z then let (found, i) := linear_search l' k in (found, S i)
      else ((x =? k)%Z, 0)
  end.

Lemma linear_search_ok : bsearch_ok linear_search.
Proof.
  intros l k Hs. induction Hs as [|x l Hs IH Hx]; cbn [linear_search].
  - cbn. split; [lia|]. split; constructor.
  - destruct (Z.ltb_spec x k) as [Hlt|Hge].
    + destruct (linear_search l k) as [found i]. destruct IH as (H1 & H2 & H3). cbn.
      split; [lia|]. split; [by constructor|]. by destruct found.
    + cbn. split; [lia|]. split; [constructor|]. destruct (Z.eqb_spec x k) as [->|Hne]; [done|].
      constructor; [lia|]. eapply Forall_impl; [exact Hx|]. cbn. lia.
Qed.

Definition demo_range : list (string * string) := [("k3", "c"); ("k1", "a"); ("k2", "b")]%string.

Lemma check_range_exact_witness :
  check_range linear_search "k" (Some 1%Z) (Some 3%Z) demo_range
    [("k1", Some "a"); ("k2", Some "b")]%string = true.
Proof.
  apply (check_range_exact linear_search "k" (Some 1%Z) (Some 3%Z) demo_range _
    [(3%Z, ("k3", Some "c")); (1%Z, ("k1", Some "a")); (2%Z, ("k2", Some "b"))]%string).
  - apply linear_search_ok.
  - vm_compute. reflexivity.
  - repeat constructor; set_solver.
  - split; [|vm_compute; reflexivity]. intros k [= <-]. vm_compute. repeat constructor.
Defined.

(** Multi-signatures that verify when three keys take part. *)
Definition demo_bls : BlsOps := {|
  VerKey := string;
  MultiSignature := bytes;
  Generator := unit;
  multi_sig_from_bytes b := Some b;
  verify_multi_sig _ _ ks _ := Some (length ks =? 3)
|}.
Definition demo_pool : Nodes (B := demo_bls) :=
  [("Node1", Some "k1"); ("Node2", Some "k2"); ("Node3", Some "k3"); ("Node4", None)]%string.
Definition demo_sp : ParsedSP :=
  mkParsedSP (string_of_bytes [0%Z]) "0"
    (Simple (mkSimpleData [("ab"%string, Some "v"%string)] VSimple))
    (Object [("participants", Array [VString "Node1"; VString "Node3"; VString "Node2"]);
             ("signature", VString "1");
             ("value", Object [("state_root_hash", VString "0")])]%string).

