(* ===== verification/ReplyParser.v ===== *)
(** * From requests and replies to state proofs

    [parse_key_from_request_for_builtin_sp], [parse_generic_reply_for_proof_checking]
    and the [_parse_reply_for_*] functions of
    [libindy/src/services/pool/state_proof/mod.rs].

    [ProtocolVersion::is_node_1_3()] reads a global and is the argument [node_1_3].  A
    plugged state-proof parser (a C callback) is the parameter [get_sp_parser]. *)

From stdpp Require Import base list strings numbers gmap.
From Stdlib Require Import ZArith Lia.
From S2P Require Import Prelude Json LedgerConstants MerkleTree MerkleProof Trie External AuditProof StateProof.

Open Scope string_scope.

(** ** The request lists of [events.rs] *)
Definition REQUESTS_FOR_STATE_PROOFS : list string :=
  [GET_NYM; GET_TXN_AUTHR_AGRMT; GET_TXN_AUTHR_AGRMT_AML; GET_SCHEMA; GET_CRED_DEF; GET_ATTR;
   GET_REVOC_REG; GET_REVOC_REG_DEF; GET_REVOC_REG_DELTA; GET_AUTH_RULE; GET_TXN].
Definition REQUESTS_FOR_MULTI_STATE_PROOFS : list string := [GET_REVOC_REG_DELTA].
Definition REQUESTS_FOR_STATE_PROOFS_IN_THE_PAST : list string :=
  [GET_REVOC_REG; GET_REVOC_REG_DELTA; GET_TXN_AUTHR_AGRMT; GET_TXN_AUTHR_AGRMT_AML; GET_TXN].
Definition REQUEST_FOR_FULL : list string := [POOL_RESTART; GET_VALIDATOR_INFO].

Definition contains (l : list string) (s : string) : bool := existsb (String.eqb s) l.

(** [Result<_, String>] with panics. *)
Inductive sp_result (A : Type) :=
  | SpOk (a : A)
  | SpErr (msg : string)
  | SpPanic.
Arguments SpOk {A} _.
Arguments SpErr {A} _.
Arguments SpPanic {A}.

Definition sp_bind {A B} (m : sp_result A) (k : A -> sp_result B) : sp_result B :=
  match m with SpOk a => k a | SpErr s => SpErr s | SpPanic => SpPanic end.
Notation "'let#' x ':=' m 'in' k" := (sp_bind m (fun x => k))
  (at level 10, x pattern, m at level 100, k at level 200) : indy_scope.

Definition sp_of {A} (m : outcome A) : sp_result A :=
  match m with Ok a => SpOk a | Err e => SpErr (err_text e) | Panic => SpPanic end.
Definition ok_or {A} (o : option A) (msg : string) : sp_result A :=
  match o with Some a => SpOk a | None => SpErr msg end.

(** [value[k1][k2].. = x]: missing keys are created, [Null] becomes an object, other
    types panic. *)
Fixpoint set_path (ks : list string) (v x : Value) : outcome Value :=
  match ks with
  | [] => Ok x
  | k :: ks' =>
      match v with
      | Object m =>
          let? c := set_path ks' (default Null (map_get k m)) x in Ok (Object (map_insert k c m))
      | Null => let? c := set_path ks' Null x in Ok (Object [(k, c)])
      | _ => Panic
      end
  end.
Definition set_key (k : string) (v x : Value) : sp_result Value := sp_of (set_path [k] v x).

Definition or_else {A} (a b : option A) : option A := match a with Some _ => a | None => b end.

(** The control characters of protocol version 1 and the digits of version 2. *)
Definition marker (node_1_3 : bool) (n : nat) (d : string) : string :=
  if node_1_3 then String (Ascii.ascii_of_nat n) "" else d.

Definition _is_full_taa_state_value_expected (key : bytes) : bool :=
  starts_with key (as_bytes "2:d:").
Definition _if_rev_delta_multi_state_proof_expected (sp_key : bytes) : bool :=
  starts_with sp_key (6%Z :: as_bytes ":") || starts_with sp_key (as_bytes "6:").

Section Parser.
Context {C : Codec}.

Definition hex_hash (b : bytes) : outcome string :=
  let? h := openssl_hash b in Ok (hex_encode h).

(** The [key_suffix] of [parse_key_from_request_for_builtin_sp]; [Ok None] is
    [return None]. *)
Definition key_suffix (node_1_3 : bool) (type_ : string) (json_msg : Value)
  : outcome (option string) :=
  let str k := as_str (index json_msg k) in
  if String.eqb type_ GET_ATTR then
    match or_else (or_else (str "raw") (str "enc")) (str "hash") with
    | Some attr_name =>
        match hex_hash (as_bytes attr_name) with
        | Ok hash => Ok (Some (":" +:+ marker node_1_3 1 "1" +:+ ":" +:+ hash))
        | Err _ => Ok None
        | Panic => Panic
        end
    | None => Ok None
    end
  else if String.eqb type_ GET_CRED_DEF then
    match str "signature_type", as_u64 (index json_msg "ref") with
    | Some sign_type, Some sch_seq_no =>
        let tag := if node_1_3 then None else str "tag" in
        let tag := match tag with Some t => ":" +:+ t | None => "" end in
        Ok (Some (":" +:+ marker node_1_3 3 "3" +:+ ":" +:+ sign_type +:+ ":"
                  +:+ u64_to_string sch_seq_no +:+ tag))
    | _, _ => Ok None
    end
  else if String.eqb type_ GET_NYM || String.eqb type_ GET_REVOC_REG_DEF then Ok (Some "")
  else if String.eqb type_ GET_SCHEMA then
    match as_str (index (index json_msg "data") "name"),
          as_str (index (index json_msg "data") "version") with
    | Some name, Some ver =>
        Ok (Some (":" +:+ marker node_1_3 2 "2" +:+ ":" +:+ name +:+ ":" +:+ ver))
    | _, _ => Ok None
    end
  else if String.eqb type_ GET_REVOC_REG then
    match str "revocRegDefId" with
    | Some id => Ok (Some (marker node_1_3 6 "6" +:+ ":" +:+ id))
    | None => Ok None
    end
  else if String.eqb type_ GET_AUTH_RULE then
    match str "auth_type", str "auth_action", str "field" with
    | Some auth_type, Some auth_action, Some field =>
        let default_old_value := if String.eqb auth_action "ADD" then "*" else "" in
        Ok (Some ("1:" +:+ auth_type +:+ "--" +:+ auth_action +:+ "--" +:+ field +:+ "--"
                  +:+ default default_old_value (str "old_value") +:+ "--"
                  +:+ default "" (str "new_value")))
    | _, _, _ => Ok None
    end
  else if String.eqb type_ GET_REVOC_REG_DELTA then
    match str "revocRegDefId" with
    | Some id =>
        Ok (Some ((if is_null (index json_msg "from") then marker node_1_3 5 "5"
                   else marker node_1_3 6 "6") +:+ ":" +:+ id))
    | None => Ok None
    end
  else if String.eqb type_ GET_TXN_AUTHR_AGRMT then
    match str "version", str "digest", as_u64 (index json_msg "timestamp") with
    | None, None, _ => Ok (Some "2:latest")
    | None, Some digest, None => Ok (Some ("2:d:" +:+ digest))
    | Some version, None, None => Ok (Some ("2:v:" +:+ version))
    | _, _, _ => Ok None
    end
  else if String.eqb type_ GET_TXN_AUTHR_AGRMT_AML then
    match str "version" with
    | Some version => Ok (Some ("3:v:" +:+ version))
    | None => Ok (Some "3:latest")
    end
  else if String.eqb type_ GET_TXN then
    match as_u64 (index json_msg "data") with
    | Some seq_no => Ok (Some (u64_to_string seq_no))
    | None => Ok None
    end
  else Ok None.

(** The [key_prefix]. *)
Definition key_prefix (type_ : string) (json_msg : Value) : outcome (option bytes) :=
  let dest := or_else (as_str (index json_msg "dest")) (as_str (index json_msg "origin")) in
  if String.eqb type_ GET_NYM then
    match dest with
    | Some dest =>
        match openssl_hash (as_bytes dest) with
        | Ok h => Ok (Some h)
        | Err _ => Ok None
        | Panic => Panic
        end
    | None => Ok None
    end
  else if contains [GET_REVOC_REG; GET_REVOC_REG_DELTA; GET_TXN_AUTHR_AGRMT;
                    GET_TXN_AUTHR_AGRMT_AML; GET_AUTH_RULE] type_
  then Ok (Some [])
  else if String.eqb type_ GET_REVOC_REG_DEF then
    Ok (as_bytes <$> as_str (index json_msg "id"))
  else if String.eqb type_ GET_TXN then Ok (Some [])
  else Ok (as_bytes <$> dest).

(** [parse_key_from_request_for_builtin_sp]. *)
Definition parse_key_from_request_for_builtin_sp (node_1_3 : bool) (json_msg : Value)
  : outcome (option bytes) :=
  match as_str (index (index json_msg "operation") "type") with
  | None => Ok None
  | Some type_ =>
      let json_msg := index json_msg "operation" in
      let? suffix := key_suffix node_1_3 type_ json_msg in
      match suffix with
      | None => Ok None
      | Some key_suffix =>
          let? prefix := key_prefix type_ json_msg in
          match prefix with
          | None => Ok None
          | Some key => Ok (Some (key ++ as_bytes key_suffix)%list)
          end
      end
  end.

(** [_calculate_taa_digest]. *)
Definition _calculate_taa_digest (text version : string) : outcome bytes :=
  openssl_hash (as_bytes (version +:+ text)).

(** The attribute of an ATTRIB transaction is stored hashed. *)
Definition hashed_attr (s : string) : outcome Value :=
  if String.eqb s "" then Ok (VString "")
  else out_map VString (hex_hash (as_bytes s)).

(** The GET_TXN branch of [_parse_reply_for_proof_value]. *)
Definition copy_key (parsed_data : Value) (k : string) (value : Value) : sp_result Value :=
  if is_null (index parsed_data k) then SpOk value
  else set_key k value (index parsed_data k).
Definition txn_value (parsed_data : Value) : sp_result (option Value) :=
  if is_null (index parsed_data "txn") && is_null (index parsed_data "txnMetadata") &&
     is_null (index parsed_data "ver") && is_null (index parsed_data "reqSignature")
  then SpOk None
  else
    let# value := copy_key parsed_data "txn" (Object []) in
    let# value := copy_key parsed_data "txnMetadata" value in
    let# value := copy_key parsed_data "ver" value in
    let# value := copy_key parsed_data "reqSignature" value in
    if bool_decide (as_str (index (index value "txn") "type") = Some ATTRIB) then
      let data := index (index value "txn") "data" in
      match as_str (index data "raw") with
      | Some raw =>
          let# h := sp_of (hashed_attr raw) in
          let# value := sp_of (set_path ["txn"; "data"; "raw"] value h) in SpOk (Some value)
      | None =>
          match as_str (index data "enc") with
          | Some enc =>
              let# h := sp_of (hashed_attr enc) in
              let# value := sp_of (set_path ["txn"; "data"; "enc"] value h) in SpOk (Some value)
          | None => SpOk (Some value)
          end
      end
    else SpOk (Some value).

(** The fields put into [value] before the transaction is looked at. *)
Definition value_header (json_msg : Value) (xtype : string) (sp_key : bytes) : sp_result Value :=
  let seq_no := index json_msg "seqNo" in
  let time := index json_msg "txnTime" in
  if String.eqb xtype GET_NYM then
    let# value := set_key "seqNo" (Object []) seq_no in set_key "txnTime" value time
  else if String.eqb xtype GET_AUTH_RULE then SpOk (Object [])
  else if negb (String.eqb xtype GET_TXN_AUTHR_AGRMT) || _is_full_taa_state_value_expected sp_key then
    let# value := set_key "lsn" (Object []) seq_no in set_key "lut" value time
  else SpOk (Object []).

(** The value the state holds for the reply; [SpOk None] is no value. *)
Definition reply_value (value : Value) (data : string) (parsed_data : Value) (xtype : string)
    (sp_key : bytes) : sp_result (option Value) :=
  if String.eqb xtype GET_TXN then txn_value parsed_data
  else if String.eqb xtype GET_NYM then
    let# value := set_key "identifier" value (index parsed_data "identifier") in
    let# value := set_key "role" value (index parsed_data "role") in
    let# value := set_key "verkey" value (index parsed_data "verkey") in SpOk (Some value)
  else if String.eqb xtype GET_ATTR then
    let# h := sp_of (hex_hash (as_bytes data)) in
    let# value := set_key "val" value (VString h) in SpOk (Some value)
  else if contains [GET_CRED_DEF; GET_REVOC_REG_DEF; GET_REVOC_REG; GET_TXN_AUTHR_AGRMT_AML] xtype then
    let# value := set_key "val" value parsed_data in SpOk (Some value)
  else if String.eqb xtype GET_AUTH_RULE then
    match as_array parsed_data with
    | Some (auth_rule :: _) => SpOk (Some (index auth_rule "constraint"))
    | _ => SpOk None
    end
  else if String.eqb xtype GET_SCHEMA then
    match as_object parsed_data with
    | Some map =>
        match map_remove "version" (map_remove "name" map) with
        | [] => SpOk None
        | map => let# value := set_key "val" value (Object map) in SpOk (Some value)
        end
    | None => SpErr "Invalid data for GET_SCHEMA"
    end
  else if String.eqb xtype GET_REVOC_REG_DELTA then
    let accum_to := index (index parsed_data "value") "accum_to" in
    if is_null accum_to then SpOk None
    else let# value := set_key "val" value accum_to in SpOk (Some value)
  else if String.eqb xtype GET_TXN_AUTHR_AGRMT then
    if _is_full_taa_state_value_expected sp_key then
      let# value := set_key "val" value parsed_data in SpOk (Some value)
    else
      match _calculate_taa_digest (default "" (as_str (index parsed_data "text")))
              (default "" (as_str (index parsed_data "version"))) with
      | Ok d => SpOk (Some (VString (hex_encode d)))
      | Err e => SpErr ("Can't calculate expected TAA digest to verify StateProof on the request ("
                        +:+ err_text e +:+ ")")
      | Panic => SpPanic
      end
  else SpErr "Unknown transaction".

(** [_parse_reply_for_proof_value]. *)
Definition _parse_reply_for_proof_value (json_msg : Value) (data : option string)
    (parsed_data : Value) (xtype : string) (sp_key : bytes) : sp_result (option string) :=
  match data with
  | None => SpOk None
  | Some data =>
      let# value := value_header json_msg xtype sp_key in
      let# value := reply_value value data parsed_data xtype sp_key in
      match value with
      | None => SpOk None
      | Some (VString s) => SpOk (Some s)
      | Some value => SpOk (Some (json_to_string value))
      end
  end.

(** [_parse_reply_for_sp]. *)
Definition _parse_reply_for_sp (json_msg : Value) (data : option string) (parsed_data : Value)
    (xtype : string) (sp_key : bytes) : sp_result ParsedSP :=
  let sp := index json_msg "state_proof" in
  let# (proof, root_hash, ver_type, multi_sig) :=
    if negb (String.eqb xtype GET_TXN) then
      let# proof := ok_or (as_str (index sp "proof_nodes")) "No proof" in
      let# root_hash := ok_or (as_str (index sp "root_hash")) "No root hash" in
      SpOk (proof, root_hash, VSimple, index sp "multi_signature")
    else
      let# path := ok_or (as_array (index parsed_data "auditPath")) "No proof" in
      let proof := base64_encode (as_bytes (json_to_string (Array path))) in
      let# root_hash := ok_or (as_str (index parsed_data "rootHash")) "No root hash" in
      let# len := ok_or (as_u64 (index parsed_data "ledgerSize")) "No ledger length for this proof" in
      SpOk (proof, root_hash, VMerkleTree len, index sp "multi_signature") in
  let# value := _parse_reply_for_proof_value json_msg data parsed_data xtype sp_key in
  SpOk (mkParsedSP proof root_hash
          (Simple (mkSimpleData [(base64_encode sp_key, value)] ver_type)) multi_sig).

(** [_parse_reply_for_multi_sp]. *)
Definition _parse_reply_for_multi_sp (parsed_data : Value) (xtype : string) (sp_key : bytes)
  : sp_result (option ParsedSP) :=
  if String.eqb xtype GET_REVOC_REG_DELTA then
    if _if_rev_delta_multi_state_proof_expected sp_key then
      let sp := index parsed_data "stateProofFrom" in
      let# proof := ok_or (as_str (index sp "proof_nodes")) "No proof" in
      let# root_hash := ok_or (as_str (index sp "root_hash")) "No root hash" in
      let accum_from := index (index parsed_data "value") "accum_from" in
      let value :=
        if is_null accum_from then None
        else Some (json_to_string (Object (map_of_list
               [("lsn", index accum_from "seqNo"); ("lut", index accum_from "txnTime");
                ("val", accum_from)]))) in
      SpOk (Some (mkParsedSP proof root_hash
              (Simple (mkSimpleData [(base64_encode sp_key, value)] VSimple))
              (index sp "multi_signature")))
    else SpOk None
  else SpErr "Unsupported transaction".

(** The data of a reply: its text and its JSON value. *)
Definition reply_data (json_msg : Value) : option (option string * Value) :=
  match index json_msg "data" with
  | Null => Some (None, Null)
  | VString str =>
      match json_from_str str with
      | Some parsed_data => Some (Some str, parsed_data)
      | None => None
      end
  | Object map => Some (Some (json_to_string (Object map)), Object map)
  | Array array => Some (Some (json_to_string (Array array)), Array array)
  | _ => None
  end.

(** [_parse_reply_for_builtin_sp]; the caller has checked the assertion. *)
Definition _parse_reply_for_builtin_sp (json_msg : Value) (type_ : string) (key : bytes)
  : outcome (option (list ParsedSP)) :=
  if negb (contains REQUESTS_FOR_STATE_PROOFS type_) then Panic
  else
    match reply_data json_msg with
    | None => Ok None
    | Some (data, parsed_data) =>
        match _parse_reply_for_sp json_msg data parsed_data type_ key with
        | SpPanic => Panic
        | SpErr _ => Ok None
        | SpOk state_proof =>
            if contains REQUESTS_FOR_MULTI_STATE_PROOFS type_ then
              match _parse_reply_for_multi_sp parsed_data type_ key with
              | SpPanic => Panic
              | SpOk (Some state_proof2) => Ok (Some [state_proof; state_proof2])
              | SpOk None => Ok (Some [state_proof])
              | SpErr _ => Ok None
              end
            else Ok (Some [state_proof])
        end
    end.

Context (get_sp_parser : string -> option (string -> option (list ParsedSP))).

(** [CString::new] fails on an inner NUL. *)
Definition has_nul (s : string) : bool := existsb (Z.eqb 0) (as_bytes s).

(** [parse_generic_reply_for_proof_checking]. *)
Definition parse_generic_reply_for_proof_checking (json_msg : Value) (raw_msg : string)
    (sp_key : option bytes) : outcome (option (list ParsedSP)) :=
  match as_str (index json_msg "type") with
  | None => Ok None
  | Some type_ =>
      if contains REQUESTS_FOR_STATE_PROOFS type_ then
        match sp_key with
        | Some sp_key => _parse_reply_for_builtin_sp json_msg type_ sp_key
        | None => Ok None
        end
      else
        match get_sp_parser type_ with
        | Some parser => if has_nul raw_msg then Ok None else Ok (parser raw_msg)
        | None => Ok None
        end
  end.
End Parser.

(** ** No reply makes the parser panic *)
Lemma set_path_ok ks v x : fold_left index ks v <> Null -> ks <> [] -> is_Some (as_object v) ->
  exists m, set_path ks v x = Ok (Object m).
Proof.
  intros Hi Hk [m Hm]. destruct v as [| | | | |m0]; try done. injection Hm as ->.
  destruct ks as [|k ks]; [done|]. clear Hk. revert k m Hi.
  induction ks as [|k' ks IH]; intros k m Hi; [by eexists|].
  change (set_path (k :: k' :: ks) (Object m) x)
    with (obind (set_path (k' :: ks) (default Null (map_get k m)) x)
            (fun c => Ok (Object (map_insert k c m)))).
  cbn [fold_left index] in Hi. destruct (map_get k m) as [[| | | | |m']|]; cbn [index] in Hi;
    try (exfalso; apply Hi; clear; induction ks; done).
  change (default Null (Some (Object m'))) with (Object m'). destruct (IH k' m' Hi) as [m'' E]. rewrite E. by eexists.
Qed.

Lemma set_key_object k m x : set_key k (Object m) x = SpOk (Object (map_insert k x m)).
Proof. reflexivity. Qed.

Section NoPanic.
Context {C : Codec} (Hhash : forall b, openssl_hash b <> Panic).

Lemma hex_hash_no_panic b : hex_hash b <> Panic.
Proof using Hhash. unfold hex_hash. pose proof (Hhash b). by destruct (openssl_hash b). Qed.

Lemma hashed_attr_no_panic s : hashed_attr s <> Panic.
Proof using Hhash.
  unfold hashed_attr. destruct (String.eqb s ""); [done|].
  pose proof (hex_hash_no_panic (as_bytes s)). by destruct (hex_hash _).
Qed.

Definition object_ok (r : sp_result Value) : Prop := exists m, r = SpOk (Object m).

Lemma copy_key_object pd k m : object_ok (copy_key pd k (Object m)).
Proof. unfold copy_key. destruct (is_null _); [by eexists|]. rewrite set_key_object. by eexists. Qed.

Lemma set_attr_no_panic m k h :
  as_str (index (index (index (Object m) "txn") "data") k) <> None ->
  exists m', set_path ["txn"; "data"; k] (Object m) h = Ok (Object m').
Proof.
  intros Ha. apply set_path_ok; [|done|by eexists]. cbn [fold_left]. intros E. by rewrite E in Ha.
Qed.

Lemma txn_value_no_panic pd : txn_value pd <> SpPanic.
Proof using Hhash.
  unfold txn_value. destruct (_ && _); [done|].
  destruct (copy_key_object pd "txn" []) as [m1 ->]. cbn [sp_bind].
  destruct (copy_key_object pd "txnMetadata" m1) as [m2 ->]. cbn [sp_bind].
  destruct (copy_key_object pd "ver" m2) as [m3 ->]. cbn [sp_bind].
  destruct (copy_key_object pd "reqSignature" m3) as [m ->]. cbn [sp_bind].
  destruct (bool_decide _); [|done].
  destruct (as_str (index (index (index (Object m) "txn") "data") "raw")) as [raw|] eqn:Er.
  - pose proof (hashed_attr_no_panic raw). destruct (hashed_attr raw) as [h| |]; try done.
    cbn [sp_of sp_bind]. destruct (set_attr_no_panic m "raw" h) as [m' ->]; [by rewrite Er|done].
  - destruct (as_str (index (index (index (Object m) "txn") "data") "enc")) as [enc|] eqn:Ee; [|done].
    pose proof (hashed_attr_no_panic enc). destruct (hashed_attr enc) as [h| |]; try done.
    cbn [sp_of sp_bind]. destruct (set_attr_no_panic m "enc" h) as [m' ->]; [by rewrite Ee|done].
Qed.

Lemma value_header_object json_msg xtype key : object_ok (value_header json_msg xtype key).
Proof. unfold value_header. repeat case_match; by eexists. Qed.

Lemma reply_value_no_panic m data pd xtype key :
  reply_value (Object m) data pd xtype key <> SpPanic.
Proof using Hhash.
  unfold reply_value, _calculate_taa_digest.
  pose proof (txn_value_no_panic pd). pose proof (hex_hash_no_panic (as_bytes data)).
  repeat case_match; try done; rewrite ?set_key_object in *; cbn [sp_bind] in *; try done.
  - destruct (hex_hash (as_bytes data)); try done.
  - match goal with E : openssl_hash _ = Panic |- _ => by apply Hhash in E end.
Qed.

Lemma parse_value_no_panic json_msg data pd xtype key :
  _parse_reply_for_proof_value json_msg data pd xtype key <> SpPanic.
Proof using Hhash.
  unfold _parse_reply_for_proof_value. destruct data as [d|]; [|done].
  destruct (value_header_object json_msg xtype key) as [m ->]. cbn [sp_bind].
  pose proof (reply_value_no_panic m d pd xtype key).
  destruct (reply_value (Object m) d pd xtype key) as [[[]|]| |]; done.
Qed.

Lemma parse_sp_no_panic json_msg data pd xtype key :
  _parse_reply_for_sp json_msg data pd xtype key <> SpPanic.
Proof using Hhash.
  unfold _parse_reply_for_sp. pose proof (parse_value_no_panic json_msg data pd xtype key).
  destruct (negb _); unfold ok_or; repeat (case_match; cbn [sp_bind] in *; try done);
    destruct (_parse_reply_for_proof_value json_msg data pd xtype key); done.
Qed.

Lemma parse_multi_no_panic pd xtype key : _parse_reply_for_multi_sp pd xtype key <> SpPanic.
Proof.
  unfold _parse_reply_for_multi_sp, ok_or. repeat (case_match; cbn [sp_bind] in *; try done).
Qed.

Lemma parse_builtin_no_panic json_msg type_ key :
  contains REQUESTS_FOR_STATE_PROOFS type_ = true ->
  _parse_reply_for_builtin_sp json_msg type_ key <> Panic.
Proof using Hhash.
  intros Hc. unfold _parse_reply_for_builtin_sp. rewrite Hc. cbn [negb].
  destruct (reply_data json_msg) as [[data pd]|]; [|done].
  pose proof (parse_sp_no_panic json_msg data pd type_ key).
  destruct (_parse_reply_for_sp json_msg data pd type_ key); try congruence.
  destruct (contains REQUESTS_FOR_MULTI_STATE_PROOFS type_); [|done].
  pose proof (parse_multi_no_panic pd type_ key).
  destruct (_parse_reply_for_multi_sp pd type_ key) as [[]| |]; congruence.
Qed.
End NoPanic.

(** ** Properties *)

(** No reply, however malformed, makes the parser panic, and no request makes the
    key computation panic, as long as hashing does not. *)
Theorem parse_reply_never_panics (C : Codec) get_sp_parser json_msg raw key :
  (forall b, openssl_hash b <> Panic) ->
  parse_generic_reply_for_proof_checking get_sp_parser json_msg raw key <> Panic.
Proof.
  intros Hh. unfold parse_generic_reply_for_proof_checking.
  destruct (as_str (index json_msg "type")) as [type_|]; [|done].
  destruct (contains REQUESTS_FOR_STATE_PROOFS type_) eqn:Ec.
  - destruct key; [|done]. by apply parse_builtin_no_panic.
  - repeat case_match; done.
Qed.

(** ** Keys of schemas *)
Definition colon : Z := 58.
Definition schema_request (dest name version : string) : Value :=
  Object (map_of_list [("operation", Object (map_of_list
    [("type", VString GET_SCHEMA); ("dest", VString dest);
     ("data", Object (map_of_list [("name", VString name); ("version", VString version)]))]))]).

Lemma as_bytes_app a b : as_bytes (a +:+ b) = (as_bytes a ++ as_bytes b)%list.
Proof.
  induction a as [|x a IH]; [done|].
  change (String x a +:+ b) with (String x (a +:+ b)). cbn [as_bytes app]. by rewrite IH.
Qed.

Lemma split_at_first (x : Z) l1 l2 r1 r2 :
  x ∉ l1 -> x ∉ l2 -> (l1 ++ x :: r1)%list = (l2 ++ x :: r2)%list -> l1 = l2 /\ r1 = r2.
Proof.
  revert l2. induction l1 as [|a l1 IH]; intros [|b l2] H1 H2 E; cbn in E.
  - by injection E.
  - injection E as -> _. set_solver.
  - injection E as -> _. set_solver.
  - injection E as -> E. destruct (IH l2) as [-> ->]; set_solver.
Qed.

Lemma as_bytes_injective s t : as_bytes s = as_bytes t -> s = t.
Proof. intros E. by rewrite <-(string_of_as_bytes s), E, string_of_as_bytes. Qed.

Lemma schema_key_eq (C : Codec) dest name version :
  parse_key_from_request_for_builtin_sp false (schema_request dest name version) =
  Ok (Some (as_bytes dest ++ colon :: (as_bytes "2" ++ colon :: (as_bytes name ++ colon :: as_bytes version)))%list).
Proof.
  transitivity (Ok (Some (as_bytes dest ++ as_bytes (":2:" +:+ (name +:+ (":" +:+ version)))))%list);
    [reflexivity|]. by rewrite !as_bytes_app.
Qed.

(** The state key of a schema identifies it: two GET_SCHEMA requests whose issuer
    and name contain no colon have the same key only if they ask for the same issuer,
    name and version. *)
Theorem schema_key_injective (C : Codec) d1 n1 v1 d2 n2 v2 :
  colon ∉ as_bytes d1 -> colon ∉ as_bytes n1 -> colon ∉ as_bytes d2 -> colon ∉ as_bytes n2 ->
  parse_key_from_request_for_builtin_sp false (schema_request d1 n1 v1) =
    parse_key_from_request_for_builtin_sp false (schema_request d2 n2 v2) ->
  d1 = d2 /\ n1 = n2 /\ v1 = v2.
Proof.
  intros H1 H2 H3 H4. rewrite !schema_key_eq. intros [= E].
  apply split_at_first in E as [Ed E]; [|done|done].
  injection E as E.
  apply split_at_first in E as [En Ev]; [|done|done].
  auto using as_bytes_injective.
Qed.

(** ** GET_TXN from request to verdict *)
Section GetTxn.
Context (C : Codec) (H : bytes -> bytes).
Context (l : list bytes) (b : bytes) (n : Z) (path : list string) (root : string).
Context (request reply : Value) (data : list (string * Value)) (value : Value).

(** An honest exchange: the request asks for transaction [n]; the reply holds the
    transaction, the size of the ledger, its root and the audit path. *)
Record honest_get_txn : Prop := {
  asked : index (index request "operation") "type" = VString GET_TXN;
  asked_no : as_u64 (index (index request "operation") "data") = Some n;
  replied : index reply "type" = VString GET_TXN;
  replied_data : index reply "data" = Object data;
  has_path : index (Object data) "auditPath" = Array (VString <$> path);
  has_root : index (Object data) "rootHash" = VString root;
  has_size : as_u64 (index (Object data) "ledgerSize") = Some (Z.of_nat (length l));
  has_txn : txn_value (Object data) = SpOk (Some value);
  value_object : as_str value = None
}.

Lemma honest_no_range : honest_get_txn -> (0 <= n < 2 ^ 64)%Z.
Proof.
  intros Hh. pose proof (asked_no Hh) as E. unfold as_u64 in E.
  destruct (index (index request "operation") "data"); try done.
  destruct (_ && _) eqn:Eb; [|done]. injection E as <-.
  apply andb_true_iff in Eb as [H1%Z.leb_le H2%Z.ltb_lt]. done.
Qed.

Lemma honest_key node_1_3 : honest_get_txn ->
  parse_key_from_request_for_builtin_sp node_1_3 request = Ok (Some (as_bytes (u64_to_string n))).
Proof.
  intros Hh. unfold parse_key_from_request_for_builtin_sp. rewrite (asked Hh). cbn [as_str].
  unfold key_suffix. cbn [String.eqb]. rewrite (asked_no Hh). reflexivity.
Qed.

(** The single state proof parsed out of the reply. *)
Lemma honest_reply get_sp_parser raw : honest_get_txn ->
  exists sp, parse_generic_reply_for_proof_checking get_sp_parser reply raw
               (Some (as_bytes (u64_to_string n))) = Ok (Some [sp]) /\
    proof_nodes sp = base64_encode (as_bytes (json_to_string (Array (VString <$> path)))) /\
    sp_root_hash sp = root /\
    kvs_to_verify sp = Simple (mkSimpleData
      [(base64_encode (as_bytes (u64_to_string n)), Some (json_to_string value))]
      (VMerkleTree (Z.of_nat (length l)))).
Proof.
  intros Hh. unfold parse_generic_reply_for_proof_checking. rewrite (replied Hh). cbn [as_str].
  change (contains REQUESTS_FOR_STATE_PROOFS GET_TXN) with true. cbv iota.
  unfold _parse_reply_for_builtin_sp, reply_data.
  change (negb (contains REQUESTS_FOR_STATE_PROOFS GET_TXN)) with false. cbv iota.
  rewrite (replied_data Hh). cbv iota. unfold _parse_reply_for_sp.
  change (negb (String.eqb GET_TXN GET_TXN)) with false. cbv iota.
  rewrite (has_path Hh), (has_root Hh), (has_size Hh). cbn [as_array as_str ok_or sp_bind].
  unfold _parse_reply_for_proof_value.
  destruct (value_header_object reply GET_TXN (as_bytes (u64_to_string n))) as [m ->]. cbn [sp_bind].
  unfold reply_value. change (String.eqb GET_TXN GET_TXN) with true. cbv iota.
  rewrite (has_txn Hh). cbn [sp_bind].
  change (contains REQUESTS_FOR_MULTI_STATE_PROOFS GET_TXN) with false.
  pose proof (value_object Hh) as Hv.
  destruct value; try discriminate Hv; eexists; (split; [reflexivity|]); done.
Qed.

(** An honest node's answer to GET_TXN is accepted, from the request to the
    verdict: the key computed from the request, the proof parsed from the reply and
    the audit path verify against the root of the ledger. *)
Theorem get_txn_reply_verifies bsearch get_sp_parser raw fuel p node_1_3 :
  honest_get_txn ->
  (forall x, openssl_hash x = Ok (H x)) ->
  (forall x, Forall is_byte x -> base64_decode (base64_encode x) = Some x) ->
  json_from_str (json_to_string (Array (VString <$> path))) = Some (Array (VString <$> path)) ->
  rust_string (json_to_string (Array (VString <$> path))) ->
  value_bytes (json_to_string value) = Some b ->
  from_base58 root = Some (mth H l) ->
  mapM from_base58 path = Some (audit H (Z.to_nat (n - 1)) l).*1 ->
  l !! Z.to_nat (n - 1) = Some b -> (1 <= n)%Z -> (Z.of_nat (length l) <= 2 ^ 63)%Z -> 63 < fuel ->
  exists key sp proofs r,
    parse_key_from_request_for_builtin_sp node_1_3 request = Ok (Some key) /\
    parse_generic_reply_for_proof_checking get_sp_parser reply raw (Some key) = Ok (Some [sp]) /\
    base64_decode (proof_nodes sp) = Some proofs /\ from_base58 (sp_root_hash sp) = Some r /\
    verify_kvs bsearch fuel p proofs r (kvs_to_verify sp) = Ok true.
Proof.
  intros Hh Hd H64 Hj Hu Hv Hr Hp Hb Hn Hl Hf.
  destruct (honest_reply get_sp_parser raw Hh) as (sp & Hsp & Hpn & Hrh & Hk).
  exists (as_bytes (u64_to_string n)), sp,
    (as_bytes (json_to_string (Array (VString <$> path)))), (mth H l).
  rewrite (honest_key node_1_3 Hh), Hpn, Hrh, Hk, H64 by apply as_bytes_range.
  do 4 (split; [done|]). cbn [verify_kvs sd_verification_type sd_kvs].
  apply (audit_path_accepted H Hd) with (hashes := path) (n := n) (b := b); try done.
  - unfold parse_hashes. rewrite from_utf8_as_bytes, Hj by done.
    clear. induction path as [|s ps IH]; [done|]. cbn. by rewrite IH.
  - unfold parse_seq_no. rewrite H64 by apply as_bytes_range.
    rewrite from_utf8_as_bytes by (apply u64_to_string_utf8, (honest_no_range Hh)).
    by apply parse_u64_to_string, honest_no_range.
Qed.
End GetTxn.

(** ** Concrete exchanges *)
Lemma parse_reply_never_panics_witness :
  parse_generic_reply_for_proof_checking (C := demo_sp_codec) (fun _ => None)
    (Object [("type", VString GET_TXN); ("data", Object [("txn", Number 7)])]) "" (Some [1%Z]) <> Panic.
Proof. apply (parse_reply_never_panics demo_sp_codec). done. Defined.

Lemma schema_key_injective_witness : "did" = "did" /\ "degree" = "degree" /\ "1.1" = "1.1".
Proof.
  apply (schema_key_injective demo_sp_codec); try reflexivity;
    (intros Hc; vm_compute in Hc; repeat (apply elem_of_cons in Hc as [Hc|Hc]; [discriminate Hc|]);
     by apply not_elem_of_nil in Hc).
Defined.

Definition demo_txns : list bytes := [[1%Z]; as_bytes "txn"; [2%Z]].
Definition demo_txn_path : list string := ["0"; "1"].
Definition demo_txn_codec : Codec :=
  let D := demo_codec ((audit demo_hash 1 demo_txns).*1 ++ [mth demo_hash demo_txns])%list [] in {|
  base64_encode := @base64_encode D;
  base64_decode := @base64_decode D;
  from_base58 := @from_base58 D;
  to_base58 := @to_base58 D;
  json_from_str s :=
    if String.eqb s "path" then Some (Array (VString <$> demo_txn_path)) else Some (VString s);
  json_to_string v := match v with Array _ => "path" | _ => "txn" end;
  rmp_to_vec := @rmp_to_vec D;
  rmp_to_vec_named := @rmp_to_vec_named D;
  hex_encode := @hex_encode D;
  openssl_hash := @openssl_hash D;
  rlp_items := @rlp_items D;
  rlp_encode := @rlp_encode D;
  sha3_256 := @sha3_256 D
|}.
Definition demo_txn_request : Value :=
  Object [("operation", Object [("data", Number 2); ("type", VString GET_TXN)])].
Definition demo_txn_data : list (string * Value) :=
  [("auditPath", Array (VString <$> demo_txn_path)); ("ledgerSize", Number 3);
   ("rootHash", VString "2"); ("txn", Object [("type", VString "1")])].
Definition demo_txn_reply : Value :=
  Object [("data", Object demo_txn_data); ("type", VString GET_TXN)].

Lemma demo_txn_honest :
  honest_get_txn demo_txn_codec demo_txns 2 demo_txn_path "2" demo_txn_request demo_txn_reply
    demo_txn_data (Object [("txn", Object [("type", VString "1")])]).
Proof. split; vm_compute; reflexivity. Qed.

Lemma get_txn_reply_verifies_witness :
  exists key sp proofs r,
    parse_key_from_request_for_builtin_sp (C := demo_txn_codec) false demo_txn_request = Ok (Some key) /\
    parse_generic_reply_for_proof_checking (C := demo_txn_codec) (fun _ => None) demo_txn_reply "" (Some key)
      = Ok (Some [sp]) /\
    @base64_decode demo_txn_codec (proof_nodes sp) = Some proofs /\
    @from_base58 demo_txn_codec (sp_root_hash sp) = Some r /\
    verify_kvs (C := demo_txn_codec) linear_search 64 Debug proofs r (kvs_to_verify sp) = Ok true.
Proof.
  apply (get_txn_reply_verifies demo_txn_codec demo_hash demo_txns (as_bytes "txn") 2 demo_txn_path "2"
    demo_txn_request demo_txn_reply demo_txn_data (Object [("txn", Object [("type", VString "1")])])).
  - apply demo_txn_honest.
  - done.
  - intros x Hx. apply (f_equal Some). by apply as_bytes_of_bytes.
  - reflexivity.
  - reflexivity.
  - reflexivity.
  - vm_compute. reflexivity.
  - vm_compute. reflexivity.
  - reflexivity.
  - lia.
  - vm_compute. discriminate.
  - lia.
Defined.
