(* ===== verification/LedgerCache.v ===== *)
(** * The cached pool ledger

    [libindy/src/services/pool/merkle_tree_factory.rs]: the genesis transactions and
    the binary cache [stored.btxn] from which the Merkle tree of the pool ledger is
    restored.  [PoolFiles] is the directory of one pool: the lines of the genesis file
    and the bytes of the cache, when they exist; reading and writing existing files
    succeeds.  [build_node_state] is in [NodeState]. *)

From stdpp Require Import base list strings numbers gmap.
From Stdlib Require Import ZArith Lia.
From S2P Require Import Prelude Json Trie External MerkleTree MerkleProof AuditProof.

Open Scope string_scope.

Record PoolFiles := mkPoolFiles {
  genesis : option (list string);
  stored : option bytes
}.

(** ** [str::trim]: Unicode white space, as UTF-8 sequences *)
Definition white_space : list bytes :=
  [[9]; [10]; [11]; [12]; [13]; [32]; [194; 133]; [194; 160]; [225; 154; 128];
   [226; 128; 128]; [226; 128; 129]; [226; 128; 130]; [226; 128; 131]; [226; 128; 132];
   [226; 128; 133]; [226; 128; 134]; [226; 128; 135]; [226; 128; 136]; [226; 128; 137];
   [226; 128; 138]; [226; 128; 168]; [226; 128; 169]; [226; 128; 175]; [226; 129; 159];
   [227; 128; 128]]%Z.

Definition strip_one (seqs : list bytes) (l : bytes) : option bytes :=
  match List.filter (fun w => starts_with l w) seqs with
  | w :: _ => Some (drop (length w) l)
  | [] => None
  end.
Fixpoint strip_all (fuel : nat) (seqs : list bytes) (l : bytes) : bytes :=
  match fuel with
  | 0 => l
  | S fuel' => match strip_one seqs l with Some l' => strip_all fuel' seqs l' | None => l end
  end.
Definition trim_bytes (l : bytes) : bytes :=
  let l := strip_all (length l) white_space l in
  rev (strip_all (length l) (map (@rev Z) white_space) (rev l)).
Definition trim (s : string) : string := string_of_bytes (trim_bytes (as_bytes s)).

(** ** Little-endian [u64] *)
(** [write_u64::<LittleEndian>] and [read_u64]; reading fails with [UnexpectedEof]
    when fewer than eight bytes are left. *)
Definition write_u64 (n : nat) : bytes := le_bytes 8 (Z.of_nat n).
Definition read_u64 (f : bytes) : option (Z * bytes) :=
  if (length f <? 8)%nat then None else Some (of_le_bytes (take 8 f), drop 8 f).

Section Factory.
Context {C : Codec}.

(** [_parse_txn_from_json]. *)
Definition parse_txn_from_json (txn : string) : outcome bytes :=
  let txn := trim txn in
  if String.eqb txn "" then Ok []
  else
    match json_from_str txn with
    | None => Err (err_msg InvalidStructure "Genesis txn is mailformed json")
    | Some txn =>
        match rmp_to_vec_named txn with
        | None => Err (err_msg InvalidState "Can't encode genesis txn as message pack")
        | Some b => Ok b
        end
    end.

(** The loop of [_from_genesis]. *)
Fixpoint from_genesis_loop (lines : list string) (mt : MerkleTree) : outcome MerkleTree :=
  match lines with
  | [] => Ok mt
  | line :: lines' =>
      if String.eqb (trim line) "" then from_genesis_loop lines' mt
      else
        let? txn := parse_txn_from_json line in
        let? mt := append openssl_hash mt txn in
        from_genesis_loop lines' mt
  end.

(** [_from_genesis]. *)
Definition from_genesis (lines : list string) : outcome MerkleTree :=
  let? mt := from_vec openssl_hash [] in from_genesis_loop lines mt.

(** The loop of [_from_cache]; every round consumes at least eight bytes, so the
    length of the file bounds the number of rounds. *)
Fixpoint from_cache_loop (fuel : nat) (f : bytes) (mt : MerkleTree) : outcome MerkleTree :=
  match fuel with
  | 0 => Ok mt
  | S fuel' =>
      match read_u64 f with
      | None => Ok mt
      | Some (len, f) =>
          if (Z.of_nat (length f) <? len)%Z
          then Err (err_msg InvalidState "Malformed pool ledger cache file")
          else
            let? mt := append openssl_hash mt (take (Z.to_nat len) f) in
            from_cache_loop fuel' (drop (Z.to_nat len) f) mt
      end
  end.

(** [_from_cache]. *)
Definition from_cache (f : bytes) : outcome MerkleTree :=
  let? mt := from_vec openssl_hash [] in from_cache_loop (S (length f)) f mt.

(** [create]. *)
Definition create (files : PoolFiles) : outcome MerkleTree :=
  match stored files with
  | None =>
      match genesis files with
      | None => Err (err_msg PoolNotCreated "Pool is not created")
      | Some lines => from_genesis lines
      end
  | Some f => from_cache f
  end.

(** [drop_cache]: the new state of the directory. *)
Definition drop_cache (files : PoolFiles) : outcome PoolFiles :=
  match stored files with
  | Some _ => Ok (mkPoolFiles (genesis files) None)
  | None =>
      Err (err_msg InvalidState
        "Can't recover to genesis -- no txns stored. Possible problems in genesis txns.")
  end.

(** [_dump_vec_to_file]: the bytes appended. *)
Definition dump_vec (v : list bytes) : bytes :=
  flat_map (fun line => write_u64 (length line) ++ line)%list v.

(** [_genesis_to_binary]. *)
Definition genesis_to_binary (lines : list string) : outcome (list bytes) :=
  omapM parse_txn_from_json lines.

(** [_dump_genesis_to_stored]: the cache is created before the genesis file is
    parsed, so a parse error leaves it empty. *)
Definition dump_genesis_to_stored (files : PoolFiles) : outcome PoolFiles * PoolFiles :=
  match genesis files with
  | None => (Err (err_msg PoolNotCreated "Pool is not created"), files)
  | Some lines =>
      match genesis_to_binary lines with
      | Ok genesis_vec =>
          let files' := mkPoolFiles (genesis files) (Some (dump_vec genesis_vec)) in
          (Ok files', files')
      | Err e => (Err e, mkPoolFiles (genesis files) (Some []))
      | Panic => (Panic, mkPoolFiles (genesis files) (Some []))
      end
  end.

(** [dump_new_txns]: the result and the directory it leaves behind. *)
Definition dump_new_txns (files : PoolFiles) (txns : list bytes) : outcome unit * PoolFiles :=
  let (res, files) :=
    match stored files with
    | Some _ => (Ok files, files)
    | None => dump_genesis_to_stored files
    end in
  match res with
  | Ok _ =>
      (Ok tt, mkPoolFiles (genesis files) (Some (default [] (stored files) ++ dump_vec txns)%list))
  | Err e => (Err e, files)
  | Panic => (Panic, files)
  end.
End Factory.

(** ** The cache file *)
Lemma read_write_u64 n f :
  (Z.of_nat n < 2 ^ 64)%Z -> read_u64 (write_u64 n ++ f) = Some (Z.of_nat n, f).
Proof.
  intros Hn. unfold read_u64, write_u64.
  assert (Hl : length (le_bytes 8 (Z.of_nat n)) = 8) by apply length_le_bytes.
  rewrite (proj2 (Nat.ltb_ge _ _)) by (rewrite length_app, Hl; lia).
  rewrite <-Hl at 1 3. rewrite take_app_length, drop_app_length, of_le_bytes_le; [done|].
  change (256 ^ Z.of_nat 8)%Z with (2 ^ 64)%Z. lia.
Qed.

Section Facts.
Context {C : Codec} (H : bytes -> bytes).
Context (digest_total : forall b, openssl_hash b = Ok (H b)).

(** Records small enough for a [u64] header, few enough for the tree. *)
Definition cacheable (l : list bytes) : Prop :=
  Forall (fun t => Z.of_nat (length t) < 2 ^ 64)%Z l /\ (N.of_nat (length l) < 2 ^ 64)%N.

Lemma from_cache_loop_dump fuel txns l tail :
  length txns < fuel -> length tail < 8 ->
  Forall (fun t => Z.of_nat (length t) < 2 ^ 64)%Z txns -> (N.of_nat (length (l ++ txns)) < 2 ^ 64)%N ->
  from_cache_loop fuel (dump_vec txns ++ tail) (merkle_of H l) = Ok (merkle_of H (l ++ txns)).
Proof using digest_total.
  intros Hf Ht Hs. revert fuel l Hf. induction Hs as [|t txns Hlen _ IH]; intros fuel l Hf Hb.
  - destruct fuel as [|fuel]; [cbn in Hf; lia|]. rewrite app_nil_r.
    cbn [dump_vec flat_map from_cache_loop app]. unfold read_u64.
    by rewrite (proj2 (Nat.ltb_lt _ _) Ht).
  - destruct fuel as [|fuel]; [cbn in Hf; lia|].
    cbn [dump_vec flat_map from_cache_loop]. rewrite <-!app_assoc, read_write_u64 by exact Hlen.
    rewrite (proj2 (Z.ltb_ge _ _)) by (rewrite length_app; lia).
    rewrite Nat2Z.id, take_app_length, drop_app_length.
    rewrite (append_ref _ H digest_total) by (rewrite length_app in Hb; lia). cbn [obind].
    replace (l ++ t :: txns)%list with ((l ++ [t]) ++ txns)%list by by rewrite <-app_assoc.
    apply IH; [cbn in Hf; lia|]. by rewrite <-app_assoc.
Qed.

Lemma dump_vec_length txns : 8 * length txns <= length (dump_vec txns).
Proof.
  induction txns as [|t txns IH]; [done|].
  change (dump_vec (t :: txns)) with ((write_u64 (length t) ++ t) ++ dump_vec txns)%list.
  rewrite !length_app. unfold write_u64. rewrite length_le_bytes. cbn [length]. lia.
Qed.

Lemma from_cache_dump txns tail :
  cacheable txns -> length tail < 8 -> from_cache (dump_vec txns ++ tail) = Ok (merkle_of H txns).
Proof using digest_total.
  intros [Hs Hb] Ht. unfold from_cache. rewrite (from_vec_ref _ H digest_total). cbn [obind].
  apply (from_cache_loop_dump _ txns [] tail); [|done|done|exact Hb].
  pose proof (dump_vec_length txns). rewrite length_app. lia.
Qed.

Definition blank (line : string) : bool := String.eqb (trim line) "".

Lemma from_genesis_loop_lines lines txns l :
  omapM parse_txn_from_json (List.filter (fun s => negb (blank s)) lines) = Ok txns ->
  (N.of_nat (length (l ++ txns)) < 2 ^ 64)%N ->
  from_genesis_loop lines (merkle_of H l) = Ok (merkle_of H (l ++ txns)).
Proof using digest_total.
  revert txns l. induction lines as [|line lines IH]; intros txns l; cbn [List.filter].
  { intros [= <-] _. cbn. by rewrite app_nil_r. }
  cbn [from_genesis_loop]. unfold blank at 1. destruct (String.eqb (trim line) ""); [apply IH|].
  cbn [negb omapM]. destruct (parse_txn_from_json line) as [t| |]; cbn [obind]; try done.
  destruct (omapM parse_txn_from_json _) as [ts| |]; cbn [obind]; try done. intros [= <-] Hb.
  rewrite (append_ref _ H digest_total) by (rewrite length_app in Hb; cbn in Hb; lia). cbn [obind].
  replace (l ++ t :: ts)%list with ((l ++ [t]) ++ ts)%list by by rewrite <-app_assoc.
  apply IH; [done|]. by rewrite <-app_assoc.
Qed.

Lemma dump_vec_app a b : dump_vec (a ++ b) = (dump_vec a ++ dump_vec b)%list.
Proof. apply flat_map_app. Qed.
End Facts.

(** ** Properties *)
Section Properties.
Context (C : Codec) (H : bytes -> bytes).

(** What is dumped to the cache file is restored: the file with the records of
    [txns], even with a torn length header at its end, gives the Merkle tree of
    exactly these transactions. *)
Theorem cache_roundtrip txns tail :
  (forall b, openssl_hash b = Ok (H b)) -> cacheable txns -> length tail < 8 ->
  from_cache (dump_vec txns ++ tail)%list = Ok (merkle_of H txns).
Proof. intros Hd. by apply from_cache_dump. Qed.

(** Restarting after a catch-up restores the caught-up ledger.  For a genesis
    file without blank lines, dumping new transactions and creating the tree again
    gives the tree of the genesis transactions followed by the new ones, whether or
    not the cache existed before. *)
Theorem dump_then_create lines g old new :
  (forall b, openssl_hash b = Ok (H b)) ->
  forallb (fun s => negb (blank s)) lines = true -> omapM parse_txn_from_json lines = Ok g ->
  cacheable (g ++ old ++ new) ->
  let files0 := mkPoolFiles (Some lines) None in
  let files1 := mkPoolFiles (Some lines) (Some (dump_vec (g ++ old))) in
  create files0 = Ok (merkle_of H g) /\ create files1 = Ok (merkle_of H (g ++ old)) /\
  (dump_new_txns files0 (old ++ new)).1 = Ok tt /\
  create (dump_new_txns files0 (old ++ new)).2 = Ok (merkle_of H (g ++ old ++ new)) /\
  (dump_new_txns files1 new).1 = Ok tt /\
  create (dump_new_txns files1 new).2 = Ok (merkle_of H (g ++ old ++ new)).
Proof.
  intros Hd Hb Hg Hc. pose proof Hc as [Hs Hn].
  assert (Hgo : cacheable (g ++ old)).
  { destruct Hc as [Hs' Hn']. rewrite app_assoc in Hs', Hn'. apply Forall_app in Hs' as [? _].
    split; [done|]. rewrite length_app in Hn'. lia. }
  assert (Hf : List.filter (fun s => negb (blank s)) lines = lines).
  { clear -Hb. induction lines as [|s l IH]; [done|]. cbn in Hb |- *.
    apply andb_true_iff in Hb as [-> Hb]. by rewrite IH. }
  cbn zeta. split_and!.
  - unfold create, from_genesis. cbn [stored genesis]. rewrite (from_vec_ref _ H Hd). cbn [obind].
    rewrite (from_genesis_loop_lines H Hd lines g []); [done|by rewrite Hf|].
    cbn [app]. rewrite length_app in Hn. lia.
  - unfold create. cbn [stored]. rewrite <-(app_nil_r (dump_vec _)). apply from_cache_dump; [done|done|cbn; lia].
  - unfold dump_new_txns, dump_genesis_to_stored, genesis_to_binary. cbn [stored genesis]. by rewrite Hg.
  - unfold dump_new_txns, dump_genesis_to_stored, genesis_to_binary. cbn [stored genesis]. rewrite Hg.
    unfold create. cbn [snd stored from_option id]. rewrite <-dump_vec_app, <-(app_nil_r (dump_vec _)).
    apply from_cache_dump; [done|done|cbn; lia].
  - done.
  - unfold dump_new_txns, create. cbn [snd stored genesis from_option id].
    rewrite <-dump_vec_app, <-app_assoc, <-(app_nil_r (dump_vec _)).
    apply from_cache_dump; [done|done|cbn; lia].
Qed.

(** A blank line in the genesis file breaks this: [_from_genesis] skips it, but
    [_genesis_to_binary] writes it to the cache as an empty transaction, so the tree
    restored from the cache has one more leaf than the tree it was made from. *)
Theorem blank_genesis_line_adds_leaf line t :
  (forall b, openssl_hash b = Ok (H b)) -> blank line = false -> parse_txn_from_json line = Ok t ->
  (Z.of_nat (length t) < 2 ^ 64)%Z ->
  let files := mkPoolFiles (Some [line; ""]) None in
  create files = Ok (merkle_of H [t]) /\
  create (dump_new_txns files []).2 = Ok (merkle_of H [t; []]).
Proof.
  intros Hd Hb Ht Hl. cbn zeta. split.
  - unfold create, from_genesis. cbn [stored genesis]. rewrite (from_vec_ref _ H Hd). cbn [obind].
    rewrite (from_genesis_loop_lines H Hd [line; ""] [t] []); [done| |cbn; lia].
    cbn [List.filter]. rewrite Hb. cbn [negb omapM]. by rewrite Ht.
  - unfold dump_new_txns, dump_genesis_to_stored, genesis_to_binary. cbn [stored genesis omapM].
    rewrite Ht. change (parse_txn_from_json "") with (Ok (A := bytes) []). cbn [obind].
    unfold create. cbn [snd stored from_option id]. apply from_cache_dump; [done| |cbn; lia].
    split; [|cbn; lia]. constructor; [exact Hl|]. constructor; [cbn; lia|constructor].
Qed.
End Properties.

Lemma demo_cacheable l :
  Forall (fun t => Z.of_nat (length t) < 2 ^ 64)%Z l -> length l < 100 -> cacheable l.
Proof. intros Hl Hn. split; [done|]. lia. Qed.

Lemma cache_roundtrip_witness :
  from_cache (C := demo_codec [] []) (dump_vec demo_values ++ [1; 2; 3]%Z)%list =
  Ok (merkle_of demo_hash demo_values).
Proof.
  apply (cache_roundtrip (demo_codec [] []) demo_hash); [done| |cbn; lia].
  apply demo_cacheable; [|cbn; lia]. unfold demo_values. repeat (constructor; [cbn; lia|]). constructor.
Defined.

Lemma dump_then_create_witness :
  create (C := demo_codec [] []) (dump_new_txns (C := demo_codec [] [])
    (mkPoolFiles (Some ["tx1"; " tx2 "]) (Some (dump_vec [as_bytes "tx1"; as_bytes "tx2"; [7%Z]])))
    [[8%Z]]).2 =
  Ok (merkle_of demo_hash [as_bytes "tx1"; as_bytes "tx2"; [7%Z]; [8%Z]]).
Proof.
  apply (dump_then_create (demo_codec [] []) demo_hash ["tx1"; " tx2 "]
    [as_bytes "tx1"; as_bytes "tx2"] [[7%Z]] [[8%Z]]); [done|reflexivity|reflexivity|].
  apply demo_cacheable; [|cbn; lia]. repeat (constructor; [cbn; lia|]). constructor.
Defined.

Lemma blank_genesis_line_adds_leaf_witness :
  let files := mkPoolFiles (Some ["tx1"; ""]) None in
  create (C := demo_codec [] []) files = Ok (merkle_of demo_hash [as_bytes "tx1"]) /\
  create (C := demo_codec [] []) (dump_new_txns (C := demo_codec [] []) files []).2 =
    Ok (merkle_of demo_hash [as_bytes "tx1"; []]).
Proof.
  apply (blank_genesis_line_adds_leaf (demo_codec [] []) demo_hash); [done|reflexivity|reflexivity|cbn; lia].
Defined.
