(* ===== verification/Catchup.v ===== *)
(** * Catching up with the pool ledger

    [libindy/src/services/pool/catchup.rs], [CatchupRep::min_tx] of [types.rs] and
    [_process_catchup_reply] of [request_handler.rs].  The pool directory ([PoolFiles])
    is threaded through; the JSON text of a catch-up request is the parameter
    [catchup_req_json].

    The votes are a [HashMap] from what the nodes answered to the sets of their names:
    an association list in iteration order. *)

From stdpp Require Import base list strings numbers gmap.
From Stdlib Require Import ZArith Lia.
From S2P Require Import Prelude Json Trie External MerkleTree MerkleProof Consistency AuditProof LedgerCache.

Open Scope string_scope.

(** ** [types.rs] *)
Record CatchupReq := mkCatchupReq {
  cr_ledgerId : nat;
  cr_seqNoStart : nat;
  cr_seqNoEnd : nat;
  cr_catchupTill : nat
}.

(** [txns] is a map: its keys are distinct. *)
Record CatchupRep := mkCatchupRep {
  rep_ledgerId : nat;
  rep_consProof : list string;
  rep_txns : list (string * Value)
}.

Definition invalid_key : IndyError := err_msg InvalidStructure "Invalid key in catchup reply".
Definition empty_map : IndyError := err_msg InvalidStructure "Empty map".

(** The loop of [min_tx]. *)
Fixpoint min_tx_loop (txns : list (string * Value)) (min : option Z) : outcome Z :=
  match txns with
  | [] => match min with Some m => Ok m | None => Err empty_map end
  | (k, _) :: txns' =>
      match parse_u64 k with
      | None => Err invalid_key
      | Some val =>
          min_tx_loop txns'
            (Some (match min with None => val | Some m => if (val <? m)%Z then val else m end))
      end
  end.

(** [CatchupRep::min_tx]. *)
Definition min_tx (rep : CatchupRep) : outcome Z := min_tx_loop (rep_txns rep) None.

(** [HashMap::remove]: the value and the map without it. *)
Fixpoint remove_txn (key : string) (txns : list (string * Value))
  : option (Value * list (string * Value)) :=
  match txns with
  | [] => None
  | (k, v) :: txns' =>
      if String.eqb k key then Some (v, txns')
      else match remove_txn key txns' with
           | Some (x, rest) => Some (x, (k, v) :: rest)
           | None => None
           end
  end.

(** ** [catchup.rs] *)
Inductive CatchupProgress :=
  | ShouldBeStarted (target_mt_root : bytes) (target_mt_size : nat) (merkle_tree : MerkleTree)
  | NotNeeded (merkle_tree : MerkleTree)
  | CatchupRestartNeeded (merkle_tree : MerkleTree)
  | InProgress.

Abbreviation VoteKey := (string * nat * option (list string))%type.
Abbreviation Votes := (list (VoteKey * gset string)).

Section Catchup.
Context {C : Codec} (catchup_req_json : CatchupReq -> option string).

(** [build_catchup_req]. *)
Definition build_catchup_req (merkle : MerkleTree) (target_mt_size : nat)
  : outcome (option (string * string)) :=
  if (target_mt_size <=? count merkle)%nat then Ok None
  else
    let seq_no_start := (count merkle + 1)%nat in
    let seq_no_end := target_mt_size in
    let cr := mkCatchupReq 0 seq_no_start seq_no_end target_mt_size in
    let req_id := u64_to_string (Z.of_nat seq_no_start) +:+ u64_to_string (Z.of_nat seq_no_end) in
    match catchup_req_json cr with
    | None => Err (err_msg InvalidState "Cannot serialize CatchupRequest")
    | Some req_json => Ok (Some (req_id, req_json))
    end.

(** The loop of [check_cons_proofs]. *)
Definition decode_proofs (cons_proofs : list string) : outcome (list bytes) :=
  omapM (fun s => match from_base58 s with
                  | Some b => Ok b
                  | None => Err (err_msg InvalidStructure "Can't decode node consistency proof")
                  end) cons_proofs.

(** [check_cons_proofs]. *)
Definition check_cons_proofs (mt : MerkleTree) (cons_proofs : list string)
    (target_mt_root : bytes) (target_mt_size : nat) : outcome unit :=
  let? bytes_proofs := decode_proofs cons_proofs in
  let? ok := consistency_proof openssl_hash mt target_mt_root target_mt_size bytes_proofs in
  if ok then Ok tt
  else Err (err_msg InvalidState "Consistency proof verification failed").

(** [_try_to_catch_up]. *)
Definition _try_to_catch_up (ledger_status : VoteKey) (merkle_tree : MerkleTree)
  : outcome CatchupProgress :=
  let '(target_mt_root, target_mt_size, hashes) := ledger_status in
  let cur_mt_size := count merkle_tree in
  let cur_mt_hash := to_base58 (root_hash merkle_tree) in
  if (target_mt_size =? cur_mt_size)%nat then
    if String.eqb cur_mt_hash target_mt_root then Ok (NotNeeded merkle_tree)
    else Err (err_msg InvalidState "Ledger merkle tree is not acceptable for current tree.")
  else if (cur_mt_size <? target_mt_size)%nat then
    match from_base58 target_mt_root with
    | None =>
        Err (err_msg InvalidStructure "Can't parse target MerkleTree hash from nodes responses")
    | Some target_mt_root =>
        let? _ := match hashes with
                  | None => Ok tt
                  | Some hashes => check_cons_proofs merkle_tree hashes target_mt_root target_mt_size
                  end in
        Ok (ShouldBeStarted target_mt_root target_mt_size merkle_tree)
    end
  else Err (err_msg InvalidState "Local merkle tree greater than mt from ledger").

(** [_try_to_restart_catch_up]. *)
Definition _try_to_restart_catch_up (files : PoolFiles) (err : IndyError)
  : outcome CatchupProgress * PoolFiles :=
  match drop_cache files with
  | Ok files => (let? merkle_tree := create files in Ok (CatchupRestartNeeded merkle_tree), files)
  | _ => (Err err, files)
  end.

Definition votes_sum (nodes_votes : Votes) : nat := sum_list (map (fun kv => size kv.2) nodes_votes).

(** [_if_consensus_reachable]. *)
Definition _if_consensus_reachable (p : Profile) (files : PoolFiles) (nodes_votes : Votes)
    (node_cnt votes_cnt f : nat) : outcome CatchupProgress * PoolFiles :=
  let reps_cnt := votes_sum nodes_votes in
  match
    (let? rest := usize_sub p (Z.of_nat node_cnt) (Z.of_nat reps_cnt) in
     let? positive_votes_cnt := usize_add p (Z.of_nat votes_cnt) rest in
     let? needed := usize_sub p (Z.of_nat node_cnt) (Z.of_nat f) in
     Ok (positive_votes_cnt <? needed)%Z)
  with
  | Ok true => _try_to_restart_catch_up files (err_msg PoolTimeout "No consensus possible")
  | Ok false => (Ok InProgress, files)
  | Err e => (Err e, files)
  | Panic => (Panic, files)
  end.

Definition is_timeout (k : VoteKey) : bool := String.eqb k.1.1 "timeout".

(** [Iterator::max_by_key]: the last of the greatest. *)
Fixpoint max_by_votes (best : option (VoteKey * nat)) (l : list (VoteKey * nat))
  : option (VoteKey * nat) :=
  match l with
  | [] => best
  | x :: l' =>
      max_by_votes (match best with
                    | None => Some x
                    | Some y => if (y.2 <=? x.2)%nat then Some x else Some y
                    end) l'
  end.

(** [check_nodes_responses_on_status]. *)
Definition check_nodes_responses_on_status (p : Profile) (files : PoolFiles) (nodes_votes : Votes)
    (merkle_tree : MerkleTree) (node_cnt f : nat) : outcome CatchupProgress * PoolFiles :=
  let counted := map (fun kv => (kv.1, size kv.2)) nodes_votes in
  let votes := List.filter (fun kn => negb (is_timeout kn.1)) counted in
  let timeout_votes := List.filter (fun kn => is_timeout kn.1) counted in
  match max_by_votes None votes with
  | Some (most_popular_not_timeout_vote, votes_cnt) =>
      if (votes_cnt =? f + 1)%nat then
        match _try_to_catch_up most_popular_not_timeout_vote merkle_tree with
        | Ok progress => (Ok progress, files)
        | Panic => (Panic, files)
        | Err err =>
            match drop_cache files with
            | Ok files =>
                (let? merkle_tree := create files in
                 _try_to_catch_up most_popular_not_timeout_vote merkle_tree, files)
            | _ => (Err err, files)
            end
        end
      else _if_consensus_reachable p files nodes_votes node_cnt votes_cnt f
  | None =>
      match last timeout_votes with
      | Some (_, votes_cnt) =>
          match usize_sub p (Z.of_nat node_cnt) (Z.of_nat f) with
          | Ok needed =>
              if (Z.of_nat votes_cnt =? needed)%Z
              then _try_to_restart_catch_up files (err_msg PoolTimeout "Pool timeout")
              else _if_consensus_reachable p files nodes_votes node_cnt votes_cnt f
          | Err e => (Err e, files)
          | Panic => (Panic, files)
          end
      | None => (Ok InProgress, files)
      end
  end.

(** The loop of [_process_catchup_reply]: the tree and [txns_to_drop]; each round
    removes a transaction, so their number bounds the rounds. *)
Fixpoint append_reply (fuel : nat) (txns : list (string * Value)) (merkle : MerkleTree)
    (txns_to_drop : list bytes) : outcome (MerkleTree * list bytes) :=
  match fuel, txns with
  | _, [] => Ok (merkle, txns_to_drop)
  | 0, _ => Ok (merkle, txns_to_drop)
  | S fuel', _ =>
      let? key := min_tx_loop txns None in
      match remove_txn (u64_to_string key) txns with
      | None => Panic
      | Some (txn, txns) =>
          match rmp_to_vec_named txn with
          | None => Err (err_msg InvalidStructure "Invalid transaction -- can not transform to bytes")
          | Some txn =>
              let? merkle := append openssl_hash merkle txn in
              append_reply fuel' txns merkle (txns_to_drop ++ [txn])%list
          end
      end
  end.

(** [_process_catchup_reply]. *)
Definition _process_catchup_reply (files : PoolFiles) (rep : CatchupRep) (merkle : MerkleTree)
    (target_mt_root : bytes) (target_mt_size : nat) : outcome MerkleTree * PoolFiles :=
  match
    (let? (merkle, txns_to_drop) := append_reply (length (rep_txns rep)) (rep_txns rep) merkle [] in
     let? _ := check_cons_proofs merkle (rep_consProof rep) target_mt_root target_mt_size in
     Ok (merkle, txns_to_drop))
  with
  | Ok (merkle, txns_to_drop) =>
      let (res, files) := dump_new_txns files txns_to_drop in
      (let? _ := res in Ok merkle, files)
  | Err e => (Err e, files)
  | Panic => (Panic, files)
  end.
End Catchup.

(** ** What a processed reply appended *)
Section Facts.
Context {C : Codec} (H : bytes -> bytes).
Context (digest_total : forall b, openssl_hash b = Ok (H b)).

Lemma remove_txn_length key txns x rest :
  remove_txn key txns = Some (x, rest) -> length txns = S (length rest).
Proof.
  revert x rest. induction txns as [|[k v] txns IH]; intros x rest; cbn [remove_txn]; [done|].
  destruct (String.eqb k key); [by intros [= <- <-]|].
  destruct (remove_txn key txns) as [[y r]|]; [|done]. intros [= <- <-]. cbn. by rewrite (IH y r).
Qed.

Lemma append_reply_appends fuel txns l acc mt dropped :
  (N.of_nat (length l + length txns) < 2 ^ 64)%N ->
  append_reply fuel txns (merkle_of H l) acc = Ok (mt, dropped) ->
  exists new, mt = merkle_of H (l ++ new) /\ dropped = (acc ++ new)%list.
Proof using digest_total.
  revert txns l acc. induction fuel as [|fuel IH]; intros txns l acc Hb; cbn [append_reply].
  { destruct txns; intros [= <- <-]; exists []; by rewrite !app_nil_r. }
  destruct txns as [|t txns]; [intros [= <- <-]; exists []; by rewrite !app_nil_r|].
  destruct (min_tx_loop (t :: txns) None) as [key| |]; cbn [obind]; try done.
  destruct (remove_txn (u64_to_string key) (t :: txns)) as [[txn rest]|] eqn:Er; [|done].
  apply remove_txn_length in Er.
  destruct (rmp_to_vec_named txn) as [b|]; [|done].
  rewrite (append_ref _ H digest_total) by lia. cbn [obind].
  intros E. apply IH in E as (new & -> & ->); [|rewrite length_app; cbn [length] in *; lia].
  exists (b :: new). by rewrite <-!app_assoc.
Qed.

Lemma consistency_size l R n ps :
  l <> [] -> consistency_proof openssl_hash (merkle_of H l) R n ps = Ok true -> length l <= n.
Proof.
  intros Hl. unfold consistency_proof. cbn [count merkle_of].
  assert (Hpos : length l <> 0) by (by destruct l).
  rewrite (proj2 (Nat.eqb_neq _ _) Hpos).
  destruct (Nat.eqb_spec (length l) n) as [->|Hne]; [lia|]. cbn [andb].
  destruct (Nat.ltb_spec n (length l)); [done|lia].
Qed.

Lemma check_cons_proofs_ok mt proofs R n :
  check_cons_proofs mt proofs R n = Ok tt ->
  exists ps, decode_proofs proofs = Ok ps /\ consistency_proof openssl_hash mt R n ps = Ok true.
Proof.
  unfold check_cons_proofs. destruct (decode_proofs proofs) as [ps| |]; cbn [obind]; try done.
  destruct (consistency_proof openssl_hash mt R n ps) as [[]| |] eqn:E; cbn [obind]; try done.
  by exists ps.
Qed.

(** A reply with the transactions [k], [k+1], .. of a ledger, in any order. *)
Fixpoint numbered (k : Z) (vs : list Value) : list (string * Value) :=
  match vs with [] => [] | v :: vs' => (u64_to_string k, v) :: numbered (k + 1) vs' end.

Lemma min_tx_loop_min txns m k :
  Forall (fun kv => exists n, parse_u64 kv.1 = Some n /\ (k <= n)%Z) txns ->
  (exists kv, kv ∈ txns /\ parse_u64 kv.1 = Some k) \/ m = Some k ->
  (forall n, m = Some n -> (k <= n)%Z) ->
  min_tx_loop txns m = Ok k.
Proof.
  intros Ht. revert m. induction Ht as [|[key v] txns (n & Hp & Hn) _ IH]; intros m Hk Hm.
  - destruct Hk as [(kv & []%not_elem_of_nil & _)| ->]. done.
  - cbn [min_tx_loop]. cbn [fst] in Hp. rewrite Hp. apply IH.
    + destruct Hk as [(kv & [->|Hin]%elem_of_cons & Hk)| ->].
      * right. cbn [fst] in Hk. rewrite Hp in Hk. injection Hk as ->.
        destruct m as [x|]; [|done]. specialize (Hm x eq_refl).
        destruct (Z.ltb_spec k x); f_equal; lia.
      * left. by exists kv.
      * right. f_equal. destruct (Z.ltb_spec n k); lia.
    + intros x [= <-]. destruct m as [y|]; [|done]. specialize (Hm y eq_refl).
      destruct (Z.ltb_spec n y); lia.
Qed.

Lemma remove_txn_perm key v txns rest :
  txns ≡ₚ (key, v) :: rest -> NoDup txns.*1 ->
  exists rest', remove_txn key txns = Some (v, rest') /\ rest' ≡ₚ rest.
Proof.
  revert rest. induction txns as [|[k x] txns IH]; intros rest Hp Hnd.
  { by apply Permutation_nil in Hp. }
  cbn [fmap list_fmap fst] in Hnd. apply NoDup_cons in Hnd as [Hk Hnd]. cbn [remove_txn].
  destruct (String.eqb_spec k key) as [->|Hne].
  - assert (Hin : (key, v) ∈ (key, x) :: txns) by (rewrite Hp; by constructor).
    apply elem_of_cons in Hin as [[= ->]|Hin].
    + exists txns. split; [done|]. by apply Permutation_cons_inv in Hp.
    + exfalso. apply Hk. by apply (list_elem_of_fmap_2 fst) in Hin.
  - assert (Hin : (k, x) ∈ (key, v) :: rest) by (rewrite <-Hp; by constructor).
    apply elem_of_cons in Hin as [[= -> ->]|Hin]; [done|].
    apply elem_of_Permutation in Hin as [rest1 Hr].
    rewrite Hr, perm_swap in Hp. apply Permutation_cons_inv in Hp.
    destruct (IH rest1 Hp Hnd) as (rest' & -> & Hr'). exists ((k, x) :: rest').
    split; [done|]. by rewrite Hr', Hr.
Qed.

Lemma numbered_keys k vs kv :
  (0 <= k)%Z -> (k + Z.of_nat (length vs) < 2 ^ 64)%Z -> kv ∈ numbered k vs ->
  exists n, parse_u64 kv.1 = Some n /\ (k <= n)%Z /\ kv.1 = u64_to_string n.
Proof.
  revert k. induction vs as [|v vs IH]; intros k Hk Hb Hin; cbn [numbered] in Hin.
  { by apply not_elem_of_nil in Hin. }
  cbn [length] in Hb. apply elem_of_cons in Hin as [->|Hin].
  - exists k. split; [apply parse_u64_to_string; lia|]. split; [lia|done].
  - destruct (IH (k + 1)%Z) as (n & Hn & Hle & E); [lia|lia|done|]. exists n. split; [done|]. split; [lia|done].
Qed.

Lemma numbered_nodup k vs :
  (0 <= k)%Z -> (k + Z.of_nat (length vs) < 2 ^ 64)%Z -> NoDup (numbered k vs).*1.
Proof.
  revert k. induction vs as [|v vs IH]; intros k Hk Hb; [constructor|].
  cbn [length] in Hb. cbn [numbered fmap list_fmap fst]. constructor; [|apply IH; lia].
  intros (kv & E & Hin)%list_elem_of_fmap.
  destruct (numbered_keys (k + 1)%Z vs kv) as (n & Hn & Hle & E'); [lia|lia|done|].
  rewrite <-E, parse_u64_to_string in Hn by lia. injection Hn as <-. lia.
Qed.

Lemma append_reply_numbered vs ts k txns l acc :
  mapM rmp_to_vec_named vs = Some ts -> txns ≡ₚ numbered k vs ->
  (0 <= k)%Z -> (k + Z.of_nat (length vs) < 2 ^ 64)%Z ->
  (N.of_nat (length l + length vs) < 2 ^ 64)%N ->
  append_reply (length vs) txns (merkle_of H l) acc =
  Ok (merkle_of H (l ++ ts), (acc ++ ts)%list).
Proof using digest_total.
  intros Hm. apply mapM_Some_1 in Hm. revert k txns l acc.
  induction Hm as [|v t vs ts Hv _ IH]; intros k txns l acc Hp Hk Hb Hn.
  { cbn [numbered] in Hp. apply Permutation_nil_r in Hp as ->. by rewrite !app_nil_r. }
  cbn [length numbered] in *.
  assert (Hmin : min_tx_loop txns None = Ok k).
  { apply min_tx_loop_min; [|left|done].
    - rewrite Hp. constructor; [exists k; split; [apply parse_u64_to_string; lia|lia]|].
      apply Forall_forall. intros kv Hin. destruct (numbered_keys (k + 1)%Z vs kv) as (n & ? & ? & _);
        [lia|lia|done|]. exists n. split; [done|lia].
    - exists (u64_to_string k, v). split; [rewrite Hp; by constructor|]. apply parse_u64_to_string. lia. }
  destruct (remove_txn_perm (u64_to_string k) v txns (numbered (k + 1) vs) Hp) as (rest & Hr & Hp').
  { assert (E : txns.*1 ≡ₚ (numbered k (v :: vs)).*1) by (by apply fmap_Permutation).
    rewrite E. apply numbered_nodup; [lia|cbn [length]; lia]. }
  destruct txns as [|t0 txns0]; [by apply Permutation_nil_l in Hp|].
  cbn [append_reply]. rewrite Hmin. cbn [obind]. rewrite Hr, Hv.
  rewrite (append_ref _ H digest_total) by lia. cbn [obind].
  rewrite (IH (k + 1)%Z rest); [by rewrite <-!app_assoc|done|lia|lia|].
  rewrite length_app. cbn [length]. lia.
Qed.
End Facts.

(** ** Votes *)
Lemma max_by_votes_in l best k n :
  max_by_votes best l = Some (k, n) -> best = Some (k, n) \/ (k, n) ∈ l.
Proof.
  revert best. induction l as [|x l IH]; intros best; cbn [max_by_votes]; [by left|].
  intros Hm. destruct (IH _ Hm) as [E|Hin]; [|right; by constructor].
  destruct best as [y|].
  - destruct (y.2 <=? x.2)%nat; [right|by left]. injection E as ->. constructor.
  - injection E as ->. right. constructor.
Qed.

Lemma popular_vote votes k n :
  max_by_votes None (List.filter (fun kn => negb (is_timeout kn.1))
    (map (fun kv : VoteKey * gset string => (kv.1, size kv.2)) votes)) = Some (k, n) ->
  is_timeout k = false /\ exists names, (k, names) ∈ votes /\ size names = n.
Proof.
  intros [E|Hin]%max_by_votes_in; [done|].
  apply list_elem_of_In, filter_In in Hin as [Hin Ht]. cbn [fst] in Ht.
  apply negb_true_iff in Ht. split; [done|].
  apply in_map_iff in Hin as ([k' names] & [= <- <-] & Hin). exists names.
  split; [by apply list_elem_of_In|done].
Qed.

(** What a verdict says about the votes. *)
Definition agreed {C : Codec} (votes : Votes) (f : nat) (res : CatchupProgress) : Prop :=
  match res with
  | NotNeeded mt' => exists root size_ hashes names,
      (root, size_, hashes, names) ∈ votes /\ size names = f + 1 /\
      count mt' = size_ /\ to_base58 (root_hash mt') = root
  | ShouldBeStarted target size_ mt' => exists root hashes names,
      (root, size_, hashes, names) ∈ votes /\ size names = f + 1 /\
      from_base58 root = Some target /\ count mt' < size_
  | _ => True
  end.

Section VoteFacts.
Context {C : Codec}.

Lemma try_to_catch_up_agreed root size_ hashes names votes f mt res :
  (root, size_, hashes, names) ∈ votes -> size names = f + 1 ->
  _try_to_catch_up (root, size_, hashes) mt = Ok res -> agreed votes f res.
Proof.
  intros Hin Hn. unfold _try_to_catch_up.
  destruct (Nat.eqb_spec size_ (count mt)) as [->|Hne].
  - destruct (String.eqb_spec (to_base58 (root_hash mt)) root); [|done]. intros [= <-].
    by exists root, (count mt), hashes, names.
  - destruct (Nat.ltb_spec (count mt) size_); [|done].
    destruct (from_base58 root) as [target|] eqn:Er; [|done].
    destruct (match hashes with None => Ok tt | Some h => _ end) as [u| |]; cbn [obind]; try done.
    intros [= <-]. by exists root, hashes, names.
Qed.

Lemma restart_agreed files err votes f res files' :
  _try_to_restart_catch_up files err = (Ok res, files') -> agreed votes f res.
Proof.
  unfold _try_to_restart_catch_up. destruct (drop_cache files); try done.
  intros [= Hc _]. by apply obind_ok in Hc as (mt & _ & [= <-]).
Qed.

Lemma if_consensus_agreed p files votes node_cnt n f res files' :
  _if_consensus_reachable p files votes node_cnt n f = (Ok res, files') -> agreed votes f res.
Proof.
  unfold _if_consensus_reachable.
  destruct (obind _ _) as [[]| |]; try done; [apply restart_agreed|by intros [= <- _]].
Qed.
End VoteFacts.

(** ** Properties *)
Section Properties.
Context (C : Codec) (H : bytes -> bytes).


(** An honest reply is accepted: the transactions from the client's size on, in
    any order, with the consistency proof the ledger computes, give the tree of the
    extended prefix and extend the cache. *)
Theorem catchup_reply_complete files rep L m vs ts files' :
  (forall b, openssl_hash b = Ok (H b)) ->
  m + length vs <= length L -> (Z.of_nat (length L) + 1 < 2 ^ 64)%Z ->
  mapM rmp_to_vec_named vs = Some ts -> ts = take (length vs) (drop m L) ->
  rep_txns rep ≡ₚ numbered (Z.of_nat m + 1) vs ->
  decode_proofs (rep_consProof rep) = Ok (gen_consistency H L (m + length vs)) ->
  dump_new_txns files ts = (Ok tt, files') ->
  _process_catchup_reply files rep (merkle_of H (take m L)) (mth H L) (length L) =
    (Ok (merkle_of H (take (m + length vs) L)), files').
Proof.
  intros Hd Hm Hb Hts Ets Hp Hps Hdump. unfold _process_catchup_reply.
  assert (Hlen : length (rep_txns rep) = length vs).
  { rewrite Hp. generalize (Z.of_nat m + 1)%Z. clear. induction vs as [|v vs IH]; intros k; [done|].
    cbn. by rewrite IH. }
  rewrite Hlen, (append_reply_numbered H Hd vs ts (Z.of_nat m + 1)); try done; [|lia|lia|].
  2: { rewrite length_take. lia. }
  cbn [obind app]. unfold check_cons_proofs. rewrite Hps. cbn [obind].
  assert (E : (take m L ++ ts)%list = take (m + length vs) L)
    by (rewrite Ets, take_take_drop; done).
  rewrite E.
  assert (Hc : consistency_proof openssl_hash (merkle_of H (take (m + length vs) L)) (mth H L)
                 (length L) (gen_consistency H L (m + length vs)) = Ok true)
    by (by apply consistency_accepts).
  rewrite Hc. cbn [obind]. rewrite Hdump. done.
Qed.

(** The size of the result is not checked: a reply without any transaction but
    with a valid proof for the client's current size is accepted, and the client
    reports being synchronised while it is as far behind as before. *)
Theorem catchup_accepts_empty_reply files ledgerId proofs L m files' :
  (forall b, openssl_hash b = Ok (H b)) -> m <= length L ->
  decode_proofs proofs = Ok (gen_consistency H L m) -> dump_new_txns files [] = (Ok tt, files') ->
  _process_catchup_reply files (mkCatchupRep ledgerId proofs []) (merkle_of H (take m L)) (mth H L) (length L)
    = (Ok (merkle_of H (take m L)), files').
Proof.
  intros Hd Hm Hps Hdump. unfold _process_catchup_reply. cbn [rep_txns length append_reply obind rep_consProof].
  unfold check_cons_proofs. rewrite Hps. cbn [obind].
  rewrite (consistency_accepts openssl_hash H L m Hd Hm). cbn [obind]. by rewrite Hdump.
Qed.

(** A transaction number written with a leading zero makes the client panic: the
    key is found by its number and looked up by its canonical text. *)
Theorem catchup_leading_zero_panics files rep v merkle root size :
  rep_txns rep = [("01", v)] ->
  _process_catchup_reply files rep merkle root size = (Panic, files).
Proof. intros E. unfold _process_catchup_reply. rewrite E. reflexivity. Qed.

(** The catch-up target is what the pool agreed on.  A verdict that catch-up is
    not needed or should start for a target is returned only if the last vote counted
    made [f + 1] nodes agree on that root and size: the local tree has them, or the
    target is larger than the local tree. *)
Theorem catchup_target_agreed p files votes mt node_cnt f res files' :
  check_nodes_responses_on_status p files votes mt node_cnt f = (Ok res, files') ->
  agreed votes f res.
Proof.
  unfold check_nodes_responses_on_status.
  destruct (max_by_votes None _) as [[[[root size_] hashes] n]|] eqn:Em.
  - apply popular_vote in Em as [_ (names & Hin & Hn)].
    destruct (Nat.eqb_spec n (f + 1)) as [En|_]; [|apply if_consensus_agreed].
    rewrite <-Hn in En. destruct (_try_to_catch_up (root, size_, hashes) mt) as [pr|e|] eqn:Et; [| |done].
    + intros [= -> _]. by eapply try_to_catch_up_agreed.
    + destruct (drop_cache files) as [files1| |]; try done. intros [= Hc _].
      apply obind_ok in Hc as (mt1 & _ & Ht). by eapply try_to_catch_up_agreed.
  - destruct (last _) as [[k n]|]; [|by intros [= <- _]].
    destruct (usize_sub _ _ _) as [needed| |]; try done.
    destruct (_ =? needed)%Z; [apply restart_agreed|apply if_consensus_agreed].
Qed.

(** A node that answers twice is counted twice: with as many answers as nodes and
    one more, the check for a reachable consensus underflows, which stops a debug
    build. *)
Theorem double_vote_underflows files mt node_cnt f (votes : Votes) k n :
  max_by_votes None (List.filter (fun kn => negb (is_timeout kn.1))
    (map (fun kv : VoteKey * gset string => (kv.1, size kv.2)) votes)) = Some (k, n) ->
  n <> f + 1 -> node_cnt < votes_sum votes ->
  check_nodes_responses_on_status Debug files votes mt node_cnt f = (Panic, files).
Proof.
  intros Hm Hn Hs. unfold check_nodes_responses_on_status. rewrite Hm.
  destruct (Nat.eqb_spec n (f + 1)); [done|]. unfold _if_consensus_reachable, usize_sub.
  rewrite (proj2 (Z.leb_gt (Z.of_nat (votes_sum votes)) (Z.of_nat node_cnt))) by lia. done.
Qed.
End Properties.

(** ** A client with three transactions of a ledger of seven *)
Definition demo_txn (b : bytes) : Value := VString (string_of_bytes b).
Definition demo_sync_codec (m : nat) : Codec := demo_codec (gen_consistency demo_hash demo_ledger m) [].
Definition demo_sync_proof (m : nat) : list string :=
  map (fun i => u64_to_string (Z.of_nat i)) (seq 0 (length (gen_consistency demo_hash demo_ledger m))).
Definition demo_rep : CatchupRep :=
  mkCatchupRep 0 (demo_sync_proof 5) [("5", demo_txn [5]%Z); ("4", demo_txn [4; 4]%Z)].
Definition demo_files : PoolFiles := mkPoolFiles (Some []) (Some []).

Lemma demo_rep_accepted :
  _process_catchup_reply (C := demo_sync_codec 5) demo_files demo_rep
    (merkle_of demo_hash (take 3 demo_ledger)) (mth demo_hash demo_ledger) 7 =
  (Ok (merkle_of demo_hash (take 5 demo_ledger)),
   mkPoolFiles (Some []) (Some (dump_vec [[4; 4]; [5]]%Z))).
Proof. vm_compute. reflexivity. Qed.


Lemma catchup_reply_complete_witness :
  _process_catchup_reply (C := demo_sync_codec 5) demo_files demo_rep
    (merkle_of demo_hash (take 3 demo_ledger)) (mth demo_hash demo_ledger) (length demo_ledger) =
  (Ok (merkle_of demo_hash (take (3 + 2) demo_ledger)),
   mkPoolFiles (Some []) (Some (dump_vec [[4; 4]; [5]]%Z))).
Proof.
  apply (catchup_reply_complete (demo_sync_codec 5) demo_hash demo_files demo_rep demo_ledger 3
    [demo_txn [4; 4]%Z; demo_txn [5]%Z] [[4; 4]; [5]]%Z).
  - done.
  - cbn. lia.
  - vm_compute. reflexivity.
  - reflexivity.
  - reflexivity.
  - apply perm_swap.
  - vm_compute. reflexivity.
  - reflexivity.
Defined.

Lemma catchup_accepts_empty_reply_witness :
  _process_catchup_reply (C := demo_sync_codec 3) demo_files (mkCatchupRep 0 (demo_sync_proof 3) [])
    (merkle_of demo_hash (take 3 demo_ledger)) (mth demo_hash demo_ledger) (length demo_ledger) =
  (Ok (merkle_of demo_hash (take 3 demo_ledger)), demo_files).
Proof.
  apply (catchup_accepts_empty_reply (demo_sync_codec 3) demo_hash);
    [done|cbn; lia|vm_compute; reflexivity|reflexivity].
Defined.

Lemma catchup_leading_zero_panics_witness :
  _process_catchup_reply (C := demo_sync_codec 5) demo_files (mkCatchupRep 0 [] [("01", Null)])
    mt_default [] 7 = (Panic, demo_files).
Proof. apply (catchup_leading_zero_panics (demo_sync_codec 5) _ _ Null). reflexivity. Defined.

Definition demo_votes : Votes :=
  [(("0", 7, None), {["Node1"; "Node2"]}); (("timeout", 0, None), {["Node3"]})].

Lemma catchup_target_agreed_witness :
  agreed (C := demo_sync_codec 5) demo_votes 1
    (ShouldBeStarted (default [] (gen_consistency demo_hash demo_ledger 5 !! 0)) 7 mt_default).
Proof.
  apply (catchup_target_agreed (demo_sync_codec 5) Debug demo_files demo_votes mt_default 4 1 _ demo_files).
  vm_compute. reflexivity.
Defined.

Definition demo_double_votes : Votes :=
  [(("a", 7, None), {["Node1"]}); (("b", 8, None), {["Node1"]}); (("c", 9, None), {["Node1"]});
   (("d", 10, None), {["Node1"]}); (("e", 11, None), {["Node1"]})].

Lemma double_vote_underflows_witness :
  check_nodes_responses_on_status (C := demo_sync_codec 5) Debug demo_files demo_double_votes mt_default 4 1 =
  (Panic, demo_files).
Proof.
  apply (double_vote_underflows (demo_sync_codec 5) _ _ _ _ _ ("e", 11, None) 1);
    [vm_compute; reflexivity|lia|vm_compute; lia].
Defined.
