(* ===== verification/Events.v ===== *)
(** * Events of the pool

    [libindy/src/services/pool/events.rs]: the events of the networker, the pool and a
    request, and the conversion of pool events into request events; the messages of
    [types.rs] they carry; and [get_last_signed_time] of [services/pool/mod.rs] with the
    reply types of [domain/ledger/response.rs].

    The serde-derived parser of [Message] is the parameter [message_from_str].  For
    [parse_response_metadata] the derived reader is written out, for structs given as
    JSON objects. *)

From stdpp Require Import base list strings numbers gmap.
From Stdlib Require Import ZArith Lia.
From S2P Require Import Prelude LedgerConstants Json MerkleTree Trie External StateProof ReplyParser Catchup.

Open Scope string_scope.

(** ** Messages of [types.rs] *)
Record LedgerStatus := mkLedgerStatus {
  ls_txnSeqNo : nat;
  ls_merkleRoot : string;
  ls_ledgerId : Z;
  ls_ppSeqNo : option Z;
  ls_viewNo : option Z;
  ls_protocolVersion : option Z
}.

Record ConsistencyProof := mkConsistencyProof {
  cp_seqNoEnd : nat;
  cp_seqNoStart : nat;
  cp_ledgerId : nat;
  cp_hashes : list string;
  cp_oldMerkleRoot : string;
  cp_newMerkleRoot : string
}.

(** [Reply] and [Response]; only the request id is read. *)
Inductive Reply :=
  | ReplyV0 (result_req_id : Z)
  | ReplyV1 (txn_metadata_req_id : Z).
Definition reply_req_id (r : Reply) : Z := match r with ReplyV0 n => n | ReplyV1 n => n end.

Inductive Response :=
  | ResponseV0 (req_id : Z)
  | ResponseV1 (metadata_req_id : Z).
Definition response_req_id (r : Response) : Z := match r with ResponseV0 n => n | ResponseV1 n => n end.

Inductive Message :=
  | MConsistencyProof (cp : ConsistencyProof)
  | MLedgerStatus (ls : LedgerStatus)
  | MCatchupReq (req : CatchupReq)
  | MCatchupRep (rep : CatchupRep)
  | MReqACK (rep : Response)
  | MReqNACK (rep : Response)
  | MReply (rep : Reply)
  | MReject (rep : Response)
  | MPoolLedgerTxns
  | MPing
  | MPong.

(** ** Events *)
Record RemoteNode := mkRemoteNode {
  rn_name : string;
  rn_public_key : bytes;
  rn_zaddr : string;
  rn_is_blacklisted : bool
}.

Inductive NetworkerEvent :=
  | SendOneRequest (msg req_id : string) (timeout : Z)
  | SendAllRequest (msg req_id : string) (timeout : Z) (nodes : option (list string))
  | Resend (req_id : string) (timeout : Z)
  | NodesStateUpdated (nodes : list RemoteNode)
  | ExtendTimeout (req_id node_alias : string) (timeout : Z)
  | CleanTimeout (req_id : string) (node_alias : option string)
  | NetTimeout.

Inductive PoolEvent :=
  | CheckCache (cmd_id : Z)
  | NodeReply (reply node_alias : string)
  | Close (cmd_id : Z)
  | Refresh (cmd_id : Z)
  | CatchupTargetFound (target_mt_root : bytes) (target_mt_size : nat) (merkle : MerkleTree)
  | CatchupRestart (merkle : MerkleTree)
  | CatchupTargetNotFound (err : IndyError)
  | PoolOutdated
  | Synced (merkle : MerkleTree)
  | NodesBlacklisted
  | SendRequest (cmd_id : Z) (req : string) (timeout : option Z) (nodes : option string)
  | PoolTimeoutEvent (req_id node_alias : string).

Inductive RequestEvent :=
  | RLedgerStatus (ls : LedgerStatus) (node_alias : option string) (merkle : option MerkleTree)
  | RCatchupReq (merkle : MerkleTree) (target_mt_size : nat) (target_mt_root : bytes)
  | RTimeout (req_id node_alias : string)
  | RCatchupRep (rep : CatchupRep) (node_alias : string)
  | CustomSingleRequest (msg req_id : string) (sp_key : option bytes) (timestamps : option Z * option Z)
  | CustomConsensusRequest (msg req_id : string)
  | CustomFullRequest (msg req_id : string) (timeout : option Z) (nodes : option string)
  | RConsistencyProof (cp : ConsistencyProof) (node_alias : string)
  | RReply (rep : Reply) (raw_msg node_alias req_id : string)
  | RReqACK (rep : Response) (raw_msg node_alias req_id : string)
  | RReqNACK (rep : Response) (raw_msg node_alias req_id : string)
  | RReject (rep : Response) (raw_msg node_alias req_id : string)
  | RPoolLedgerTxns
  | RPing
  | RPong
  | RTerminate.

(** [RequestEvent::get_req_id]. *)
Definition get_req_id (e : RequestEvent) : string :=
  match e with
  | CustomSingleRequest _ id _ _ => id
  | CustomConsensusRequest _ id => id
  | CustomFullRequest _ id _ _ => id
  | RReply _ _ _ id => id
  | RReqACK _ _ _ id => id
  | RReqNACK _ _ _ id => id
  | RReject _ _ _ id => id
  | _ => ""
  end.

(** [_parse_timestamp_from_req_for_builtin_sp]. *)
Definition _parse_timestamp_from_req_for_builtin_sp (req : Value) (op : string)
  : option Z * option Z :=
  let operation := index req "operation" in
  if negb (contains REQUESTS_FOR_STATE_PROOFS_IN_THE_PAST op) then (None, None)
  else if String.eqb op GET_TXN then (None, Some 0%Z)
  else if contains [GET_REVOC_REG; GET_TXN_AUTHR_AGRMT; GET_TXN_AUTHR_AGRMT_AML] op
  then (None, as_u64 (index operation "timestamp"))
  else if String.eqb op GET_REVOC_REG_DELTA
  then (as_u64 (index operation "from"), as_u64 (index operation "to"))
  else (None, None).

Section Conversion.
Context {C : Codec} (message_from_str : string -> option Message).
Context (get_sp_parser : string -> option (string -> option (list ParsedSP))).

(** [Message::from_raw_str] and [_parse_msg]. *)
Definition _parse_msg (msg : string) : option Message :=
  if String.eqb msg "po" then Some MPong
  else if String.eqb msg "pi" then Some MPing
  else message_from_str msg.

(** [_parse_req_id_and_op] with [_get_req_json]. *)
Definition _parse_req_id_and_op (msg : string) : outcome (Value * string * string) :=
  match json_from_str msg with
  | None => Err (err_msg InvalidStructure "Invalid request json")
  | Some req_json =>
      match as_u64 (index req_json "reqId") with
      | None => Err (err_msg InvalidStructure "No reqId in request")
      | Some req_id =>
          match as_str (index (index req_json "operation") "type") with
          | None => Err (err_msg InvalidStructure "No operation type in request")
          | Some op => Ok (req_json, u64_to_string req_id, op)
          end
      end
  end.

(** [Into<Option<RequestEvent>> for PoolEvent]. *)
Definition into_request_event (node_1_3 : bool) (e : PoolEvent) : outcome (option RequestEvent) :=
  match e with
  | NodeReply msg node_alias =>
      Ok (match _parse_msg msg with
          | None => None
          | Some parsed => Some
              match parsed with
              | MCatchupReq _ => RCatchupReq mt_default 0 []
              | MCatchupRep rep => RCatchupRep rep node_alias
              | MLedgerStatus ls => RLedgerStatus ls (Some node_alias) None
              | MConsistencyProof cp => RConsistencyProof cp node_alias
              | MReply rep => RReply rep msg node_alias (u64_to_string (reply_req_id rep))
              | MReqACK rep => RReqACK rep msg node_alias (u64_to_string (response_req_id rep))
              | MReqNACK rep => RReqNACK rep msg node_alias (u64_to_string (response_req_id rep))
              | MReject rep => RReject rep msg node_alias (u64_to_string (response_req_id rep))
              | MPoolLedgerTxns => RPoolLedgerTxns
              | MPing => RPing
              | MPong => RPong
              end
          end)
  | SendRequest _ msg timeout nodes =>
      match _parse_req_id_and_op msg with
      | Ok (req, req_id, op) =>
          if contains REQUEST_FOR_FULL op then Ok (Some (CustomFullRequest msg req_id timeout nodes))
          else if bool_decide (is_Some timeout) || bool_decide (is_Some nodes) then Ok None
          else if contains REQUESTS_FOR_STATE_PROOFS op then
            let? key := parse_key_from_request_for_builtin_sp node_1_3 req in
            let timestamps := _parse_timestamp_from_req_for_builtin_sp req op in
            Ok (Some (CustomSingleRequest msg req_id key timestamps))
          else
            match get_sp_parser op with
            | Some _ => Ok (Some (CustomSingleRequest msg req_id None (None, None)))
            | None => Ok (Some (CustomConsensusRequest msg req_id))
            end
      | Err _ => Ok None
      | Panic => Panic
      end
  | PoolTimeoutEvent req_id node_alias => Ok (Some (RTimeout req_id node_alias))
  | _ => Ok None
  end.
End Conversion.

(** ** The time of the last write a reply is signed for *)
Record ResponseMetadata := mkResponseMetadata {
  seq_no : option Z;
  txn_time : option Z;
  last_txn_time : option Z;
  last_seq_no : option Z
}.

Definition _parse_transaction_metadata_v0 (message : Value) : ResponseMetadata :=
  mkResponseMetadata (as_u64 (index message "seqNo")) (as_u64 (index message "txnTime"))
    (as_u64 (index (index (index (index message "state_proof") "multi_signature") "value") "timestamp"))
    None.
Definition _parse_transaction_metadata_v1 (message : Value) : ResponseMetadata :=
  mkResponseMetadata (as_u64 (index (index message "txnMetadata") "seqNo"))
    (as_u64 (index (index message "txnMetadata") "txnTime"))
    (as_u64 (index (index (index (index message "multiSignature") "signedState") "stateMetadata") "timestamp"))
    None.

(** A struct field of type [Value]: the key must be there. *)
Definition field (v : Value) (k : string) : option Value :=
  match v with Object m => map_get k m | _ => None end.

(** [Reply<Value>], untagged: [result], or [data.result], a list of replies; and
    [Reply::result], where [remove(0)] panics on an empty list. *)
Definition reply_result (v : Value) : outcome (option Value) :=
  match field v "result" with
  | Some r => Ok (Some r)
  | None =>
      match field v "data" with
      | Some d =>
          match field d "result" with
          | Some (Array l) =>
              match mapM (fun x => field x "result") l with
              | Some (r :: _) => Ok (Some r)
              | Some [] => Panic
              | None => Ok None
              end
          | _ => Ok None
          end
      | None => Ok None
      end
  end.

Definition cannot_deserialize : IndyError :=
  err_msg InvalidTransaction "Cannot deserialize transaction Response".

(** [parse_response_metadata], with [_handle_response_message_type]. *)
Definition parse_response_metadata {C : Codec} (response : string) : outcome ResponseMetadata :=
  match json_from_str response with
  | None => Err cannot_deserialize
  | Some v =>
      match as_str (index v "op") with
      | Some op =>
          if String.eqb op "REQNACK" || String.eqb op "REJECT" then
            match as_u64 (index v "reqId"), as_str (index v "reason") with
            | Some _, Some reason =>
                Err (err_msg InvalidTransaction ("Transaction has been failed: " +:+ reason))
            | _, _ => Err cannot_deserialize
            end
          else if String.eqb op "REPLY" then
            let? r := reply_result v in
            match r with
            | None => Err cannot_deserialize
            | Some response_result =>
                match as_str (index response_result "ver") with
                | None => Ok (_parse_transaction_metadata_v0 response_result)
                | Some ver =>
                    if String.eqb ver "1" then Ok (_parse_transaction_metadata_v1 response_result)
                    else Err (err_msg InvalidTransaction "Unsupported transaction response version")
                end
            end
          else Err cannot_deserialize
      | None => Err cannot_deserialize
      end
  end.

(** [get_last_signed_time]. *)
Definition get_last_signed_time {C : Codec} (response : string) : outcome (option Z) :=
  match parse_response_metadata response with
  | Ok m => Ok (last_txn_time m)
  | Err _ => Ok None
  | Panic => Panic
  end.
