(* ===== verification/RequestHandler.v ===== *)
(** * Requests to the pool

    [libindy/src/services/pool/request_handler.rs]: the state machine of one request.
    A step is a function from a state and an event to the next state, the event for
    the pool and the effects in order: calls of the networker and acknowledgements of
    commands.  The pool directory is threaded through the catch-up states.

    Parameters: the iteration order [set_iter] of a [HashSet] of responses, the clock
    [now] and the freshness [threshold], and the serialisers of outgoing messages.
    [fuel] is the stack left for state-proof verification. *)

From stdpp Require Import base list strings numbers gmap.
From Stdlib Require Import ZArith Lia.
From S2P Require Import Prelude LedgerConstants Json MerkleTree Trie External AuditProof StateProof ReplyParser.
From S2P Require Import LedgerCache Catchup Events.

Open Scope string_scope.

(** ** State *)
Record NodeResponse := mkNodeResponse {
  nr_raw_msg : string;
  nr_node_alias : string;
  nr_timestamp : Z
}.

Record ConsensusState := mkConsensusState {
  cs_denied_nodes : gset string;
  cs_replies : list (Value * gset string);
  cs_timeout_nodes : gset string
}.

Record CatchupConsensusState := mkCatchupConsensusState {
  cc_replies : Votes;
  cc_merkle_tree : MerkleTree
}.

Record CatchupSingleState := mkCatchupSingleState {
  cu_target_mt_root : bytes;
  cu_target_mt_size : nat;
  cu_merkle_tree : MerkleTree;
  cu_req_id : string
}.

(** The responses of one result: a set under equality of the node alias. *)
Record SingleState := mkSingleState {
  ss_denied_nodes : gset string;
  ss_replies : list (Value * list NodeResponse);
  ss_timeout_nodes : gset string;
  ss_sp_key : option bytes;
  ss_timestamps : option Z * option Z
}.

Record FullState := mkFullState {
  fs_accum_reply : option (list (string * Value));
  fs_nodes_to_send : option (list string)
}.

Inductive RequestState :=
  | Start
  | Single (s : SingleState)
  | Consensus (s : ConsensusState)
  | CatchupSingle (s : CatchupSingleState)
  | CatchupConsensus (s : CatchupConsensusState)
  | FullRequest (s : FullState)
  | Finish.

Inductive Effect :=
  | Net (e : NetworkerEvent)
  | SubmitAck (cmd_id : Z) (msg : string + IndyError).

(** [replies.entry(k).or_insert_with(..)], then the update of the set. *)
Fixpoint upsert {K A} `{EqDecision K} (k : K) (f : A -> A) (new : A) (l : list (K * A)) : list (K * A) :=
  match l with
  | [] => [(k, f new)]
  | (k', a) :: l' => if decide (k' = k) then (k', f a) :: l' else (k', a) :: upsert k f new l'
  end.
Fixpoint assoc {K A} `{EqDecision K} (k : K) (l : list (K * A)) : option A :=
  match l with
  | [] => None
  | (k', a) :: l' => if decide (k' = k) then Some a else assoc k l'
  end.

Lemma upsert_elem {K A} `{EqDecision K} (k k0 : K) (x new : A) f l :
  (k, x) ∈ upsert k0 f new l ->
  (k, x) ∈ l \/ (k = k0 /\ exists old, x = f old /\ ((k0, old) ∈ l \/ old = new)).
Proof.
  induction l as [|[k' a] l IH]; cbn [upsert].
  - intros [= -> ->]%list_elem_of_singleton. right. split; [done|]. exists new. auto.
  - destruct (decide (k' = k0)) as [->|Hne]; intros [[= -> ->]|Hin]%elem_of_cons.
    + right. split; [done|]. exists a. split; [done|]. left. constructor.
    + left. by constructor.
    + left. constructor.
    + destruct (IH Hin) as [Hl|(-> & old & -> & [Ho| ->])].
      * left. by constructor.
      * right. split; [done|]. exists old. split; [done|]. left. by constructor.
      * right. split; [done|]. exists new. auto.
Qed.

Lemma assoc_elem {K A} `{EqDecision K} (k : K) (l : list (K * A)) x : assoc k l = Some x -> (k, x) ∈ l.
Proof.
  induction l as [|[k' a] l IH]; cbn [assoc]; [done|].
  destruct (decide (k' = k)) as [->|]; [intros [= ->]; constructor|]. intros H. constructor. by apply IH.
Qed.

Lemma assoc_upsert {K A} `{EqDecision K} (k : K) f (new : A) l :
  assoc k (upsert k f new l) = Some (f (default new (assoc k l))).
Proof.
  induction l as [|[k' a] l IH]; cbn [upsert assoc].
  - by rewrite decide_True.
  - destruct (decide (k' = k)) as [->|Hne]; cbn [assoc].
    + by rewrite decide_True.
    + by rewrite decide_False.
Qed.

(** [HashSet::insert] keeps an equal element. *)
Definition insert_response (r : NodeResponse) (set : list NodeResponse) : list NodeResponse :=
  if existsb (fun x => String.eqb (nr_node_alias x) (nr_node_alias r)) set then set
  else (set ++ [r])%list.

(** A list as long as a duplicate-free list it covers has no duplicate. *)
Lemma NoDup_of_covered (l l' : list string) :
  NoDup l -> l ⊆ l' -> length l' <= length l -> NoDup l'.
Proof.
  intros Hn Hs Hl. destruct (submseteq_Permutation l l') as [k Hp]; [by apply NoDup_submseteq|].
  destruct k as [|x k]; [by rewrite Hp, app_nil_r|].
  apply Permutation_length in Hp. rewrite length_app in Hp. cbn in Hp. lia.
Qed.

Definition max_list (l : list nat) : nat := foldr Nat.max 0 l.

(** ** Helpers *)
Section Handler.
Context {C : Codec} {B : BlsOps}.
Context (p : Profile) (fuel : nat) (bsearch : list Z -> Z -> bool * nat).
Context (get_sp_parser : string -> option (string -> option (list ParsedSP))).
Context (set_iter : list NodeResponse -> list NodeResponse).
Context (now threshold : Z) (gen : Generator).
Context (ledger_status_json : LedgerStatus -> string).
Context (catchup_req_json : CatchupReq -> option string).

(** [_send_replies], [_send_ok_replies], [_finish_request]. *)
Definition _send_replies (cmd_ids : list Z) (msg : string + IndyError) : list Effect :=
  map (fun id => SubmitAck id msg) cmd_ids.
Definition _send_ok_replies (cmd_ids : list Z) (msg : string) : list Effect :=
  _send_replies cmd_ids (inl msg).
Definition _finish_request (cmd_ids : list Z) : list Effect :=
  _send_replies cmd_ids (inr (err_msg PoolTerminated "Pool is terminated")).
Definition consensus_impossible (cmd_ids : list Z) : list Effect :=
  _send_replies cmd_ids (inr (err_msg PoolTimeout "Consensus is impossible")).

(** [_get_msg_result_without_state_proof]. *)
Definition _get_msg_result_without_state_proof (msg : string) : outcome (Value * Value) :=
  match json_from_str msg with
  | None => Err (err_msg InvalidStructure "Response is malformed json")
  | Some msg =>
      let msg_result := index msg "result" in
      let without_proof :=
        match msg_result with Object m => Object (map_remove "state_proof" m) | v => v end in
      let without_proof :=
        match index without_proof "data", without_proof with
        | Object d, Object m => Object (map_insert "data" (Object (map_remove "stateProofFrom" d)) m)
        | _, v => v
        end in
      Ok (msg_result, without_proof)
  end.

(** [_extract_left_last_write_time]. *)
Definition _extract_left_last_write_time (msg_result : Value) : option Z :=
  match as_str (index msg_result "type") with
  | Some t =>
      if String.eqb t GET_REVOC_REG_DELTA
      then as_u64 (index (index (index (index (index msg_result "data") "stateProofFrom")
                     "multi_signature") "value") "timestamp")
      else None
  | None => None
  end.

(** [time <= _get_freshness_threshold() + last_write_time]. *)
Definition fresh (time last_write_time : Z) : outcome bool :=
  let? limit := usize_add p threshold last_write_time in Ok (time <=? limit)%Z.

(** [_check_freshness]. *)
Definition _check_freshness (msg_result : Value) (requested_timestamps : option Z * option Z)
    (last_write_time : Z) : outcome bool :=
  let left_last_write_time := default 0%Z (_extract_left_last_write_time msg_result) in
  match requested_timestamps with
  | (Some from, Some to) =>
      let? left_ok := fresh from left_last_write_time in
      if left_ok then fresh to last_write_time else Ok false
  | (None, Some to) => fresh to last_write_time
  | (Some from, None) =>
      let? left_ok := fresh from left_last_write_time in
      if left_ok then fresh now last_write_time else Ok false
  | (None, None) => fresh now last_write_time
  end.

(** [_check_state_proof]. *)
Definition _check_state_proof (msg_result : Value) (f : nat) (nodes : Nodes) (raw_msg : string)
    (sp_key : option bytes) (requested_timestamps : option Z * option Z) (last_write_time : Z)
  : outcome bool :=
  let? parsed := parse_generic_reply_for_proof_checking get_sp_parser msg_result raw_msg sp_key in
  let? proof_checking_res :=
    match parsed with
    | Some parsed_sps => verify_parsed_sp bsearch fuel p parsed_sps nodes (Z.of_nat f) gen
    | None => Ok false
    end in
  if proof_checking_res then _check_freshness msg_result requested_timestamps last_write_time
  else Ok false.

(** [SingleState::is_consensus_reachable]. *)
Definition single_reachable (s : SingleState) (total_nodes_cnt : nat) : bool :=
  (size (ss_timeout_nodes s) + size (ss_denied_nodes s)
   + sum_list (map (fun kv => length kv.2) (ss_replies s)) <? total_nodes_cnt)%nat.

(** [SingleState::try_to_continue]. *)
Definition try_to_continue (s : SingleState) (req_id node_alias : string) (cmd_ids : list Z)
    (nodes_cnt : nat) (timeout : Z) : RequestState * list Effect :=
  if single_reachable s nodes_cnt then
    (Single s, [Net (Resend req_id timeout); Net (Resend req_id timeout);
                Net (CleanTimeout req_id (Some node_alias))])
  else
    (Finish, (consensus_impossible cmd_ids ++ [Net (CleanTimeout req_id None)])%list).

(** [ConsensusState::is_consensus_reachable]. *)
Definition consensus_reachable (s : ConsensusState) (f total_nodes_cnt : nat) : outcome bool :=
  let rep_no := sum_list (map (fun kv => size kv.2) (cs_replies s)) in
  let max_no := max_list (map (fun kv => size kv.2) (cs_replies s)) in
  let? a := usize_sub p (Z.of_nat (max_no + total_nodes_cnt)) (Z.of_nat rep_no) in
  let? b := usize_sub p a (Z.of_nat (size (cs_timeout_nodes s))) in
  let? c := usize_sub p b (Z.of_nat (size (cs_denied_nodes s))) in
  Ok (Z.of_nat f <? c)%Z.

(** ** The machine *)
Record RequestSM := mkRequestSM {
  sm_f : nat;
  sm_cmd_ids : list Z;
  sm_nodes : Nodes;
  sm_timeout : Z;
  sm_extended_timeout : Z;
  sm_number_read_nodes : Z;
  sm_state : RequestState
}.

Definition StepResult : Type := outcome (RequestState * option PoolEvent * list Effect).

Definition u8_sub (a b : Z) : outcome Z :=
  if (b <=? a)%Z then Ok (a - b)%Z
  else match p with Debug => Panic | Release => Ok ((a - b) mod 256)%Z end.

Definition parse_node_list (s : string) : option (list string) :=
  match json_from_str s with Some (Array l) => mapM as_str l | _ => None end.

(** The [Start] arm of [handle_event]. *)
Definition handle_start (sm : RequestSM) (re : RequestEvent) : StepResult :=
  match re with
  | RLedgerStatus ls _ (Some merkle) =>
      let req_id := ls_merkleRoot ls in
      Ok (CatchupConsensus (mkCatchupConsensusState [] merkle), None,
          [Net (SendAllRequest (ledger_status_json ls) req_id (sm_extended_timeout sm) None)])
  | RCatchupReq merkle target_mt_size target_mt_root =>
      match build_catchup_req catchup_req_json merkle target_mt_size with
      | Ok (Some (req_id, req_json)) =>
          Ok (CatchupSingle (mkCatchupSingleState target_mt_root target_mt_size merkle req_id), None,
              [Net (SendOneRequest req_json req_id (sm_timeout sm))])
      | Ok None => Ok (Finish, Some (Synced merkle), [])
      | Err e => Ok (Finish, None, _send_replies (sm_cmd_ids sm) (inr e))
      | Panic => Panic
      end
  | CustomSingleRequest msg req_id sp_key timestamps =>
      let? resends := u8_sub (sm_number_read_nodes sm) 1 in
      Ok (Single (mkSingleState ∅ [] ∅ sp_key timestamps), None,
          Net (SendOneRequest msg req_id (sm_timeout sm))
          :: replicate (Z.to_nat resends) (Net (Resend req_id (sm_timeout sm))))
  | CustomFullRequest msg req_id local_timeout nodes_to_send =>
      let timeout := default (sm_extended_timeout sm) local_timeout in
      match nodes_to_send with
      | Some nodes_to_send =>
          match parse_node_list nodes_to_send with
          | Some nodes_to_send =>
              if negb (bool_decide (nodes_to_send = []))
                 && forallb (fun n => existsb (String.eqb n) (sm_nodes sm).*1) nodes_to_send
              then Ok (FullRequest (mkFullState None (Some nodes_to_send)), None,
                       [Net (SendAllRequest msg req_id timeout (Some nodes_to_send))])
              else Ok (Finish, None, _send_replies (sm_cmd_ids sm)
                         (inr (err_msg InvalidStructure "There is no known node in list to send")))
          | None => Ok (Finish, None, _send_replies (sm_cmd_ids sm)
                          (inr (err_msg InvalidStructure "Invalid list of nodes to send")))
          end
      | None =>
          Ok (FullRequest (mkFullState None None), None, [Net (SendAllRequest msg req_id timeout None)])
      end
  | CustomConsensusRequest msg req_id =>
      Ok (Consensus (mkConsensusState ∅ [] ∅), None,
          [Net (SendAllRequest msg req_id (sm_timeout sm) None)])
  | _ => Ok (Start, None, [])
  end.

(** The reply arm of the [Consensus] state. *)
Definition consensus_reply (sm : RequestSM) (s : ConsensusState) (raw_msg node_alias req_id : string)
  : StepResult :=
  match _get_msg_result_without_state_proof raw_msg with
  | Ok (_, result_without_proof) =>
      let replies := upsert result_without_proof (fun set => {[node_alias]} ∪ set) ∅ (cs_replies s) in
      let s := mkConsensusState (cs_denied_nodes s) replies (cs_timeout_nodes s) in
      let cnt := size (default ∅ (assoc result_without_proof replies)) in
      if (sm_f sm <? cnt)%nat then
        Ok (Finish, None, (_send_ok_replies (sm_cmd_ids sm) raw_msg ++ [Net (CleanTimeout req_id None)])%list)
      else
        let? reachable := consensus_reachable s (sm_f sm) (length (sm_nodes sm)) in
        if reachable then Ok (Consensus s, None, [Net (CleanTimeout req_id (Some node_alias))])
        else Ok (Finish, None, (consensus_impossible (sm_cmd_ids sm) ++ [Net (CleanTimeout req_id None)])%list)
  | Err _ =>
      let s := mkConsensusState ({[node_alias]} ∪ cs_denied_nodes s) (cs_replies s) (cs_timeout_nodes s) in
      if (size (cs_denied_nodes s) + length (cs_replies s) =? length (sm_nodes sm))%nat
      then Ok (Finish, None, consensus_impossible (sm_cmd_ids sm))
      else Ok (Consensus s, None, [])
  | Panic => Panic
  end.

(** The [Consensus] arm. *)
Definition handle_consensus (sm : RequestSM) (s : ConsensusState) (re : RequestEvent) : StepResult :=
  match re with
  | RReply _ raw_msg node_alias req_id | RReqNACK _ raw_msg node_alias req_id
  | RReject _ raw_msg node_alias req_id => consensus_reply sm s raw_msg node_alias req_id
  | RReqACK _ _ node_alias req_id =>
      Ok (Consensus s, None, [Net (ExtendTimeout req_id node_alias (sm_extended_timeout sm))])
  | RTimeout req_id node_alias =>
      let s := mkConsensusState (cs_denied_nodes s) (cs_replies s) ({[node_alias]} ∪ cs_timeout_nodes s) in
      let? reachable := consensus_reachable s (sm_f sm) (length (sm_nodes sm)) in
      if reachable then Ok (Consensus s, None, [Net (CleanTimeout req_id (Some node_alias))])
      else Ok (Finish, None, (consensus_impossible (sm_cmd_ids sm) ++ [Net (CleanTimeout req_id None)])%list)
  | RTerminate => Ok (Finish, None, _finish_request (sm_cmd_ids sm))
  | _ => Ok (Consensus s, None, [])
  end.

(** [set.iter().max_by_key(|resp| resp.timestamp)]: the last of the greatest. *)
Fixpoint latest (best : option NodeResponse) (l : list NodeResponse) : option NodeResponse :=
  match l with
  | [] => best
  | x :: l' =>
      latest (match best with
              | None => Some x
              | Some y => if (nr_timestamp y <=? nr_timestamp x)%Z then Some x else Some y
              end) l'
  end.

(** The reply arm of the [Single] state. *)
Definition single_reply (sm : RequestSM) (s : SingleState) (raw_msg node_alias req_id : string)
  : StepResult :=
  let s := mkSingleState (ss_denied_nodes s) (ss_replies s) (ss_timeout_nodes s ∖ {[node_alias]})
             (ss_sp_key s) (ss_timestamps s) in
  let nodes_cnt := length (sm_nodes sm) in
  match _get_msg_result_without_state_proof raw_msg with
  | Ok (result, result_without_proof) =>
      let? signed := get_last_signed_time raw_msg in
      let last_write_time := default 0%Z signed in
      let resp := mkNodeResponse raw_msg node_alias last_write_time in
      let replies := upsert result_without_proof (insert_response resp) [] (ss_replies s) in
      let s := mkSingleState (ss_denied_nodes s) replies (ss_timeout_nodes s) (ss_sp_key s) (ss_timestamps s) in
      let set := default [] (assoc result_without_proof replies) in
      let cnt := length set in
      let soonest := match latest None (set_iter set) with Some r => nr_raw_msg r | None => raw_msg end in
      let? accepted :=
        if (sm_f sm <? cnt)%nat then Ok true
        else _check_state_proof result (sm_f sm) (sm_nodes sm) raw_msg (ss_sp_key s) (ss_timestamps s)
               last_write_time in
      if accepted then
        Ok (Finish, None, Net (CleanTimeout req_id None)
              :: _send_ok_replies (sm_cmd_ids sm) (if (sm_f sm <? cnt)%nat then soonest else raw_msg))
      else
        let (st, effs) := try_to_continue s req_id node_alias (sm_cmd_ids sm) nodes_cnt (sm_timeout sm) in
        Ok (st, None, effs)
  | Err _ =>
      let s := mkSingleState ({[node_alias]} ∪ ss_denied_nodes s) (ss_replies s) (ss_timeout_nodes s)
                 (ss_sp_key s) (ss_timestamps s) in
      let (st, effs) := try_to_continue s req_id node_alias (sm_cmd_ids sm) nodes_cnt (sm_timeout sm) in
      Ok (st, None, effs)
  | Panic => Panic
  end.

(** The [Single] arm. *)
Definition handle_single (sm : RequestSM) (s : SingleState) (re : RequestEvent) : StepResult :=
  match re with
  | RReply _ raw_msg node_alias req_id | RReqNACK _ raw_msg node_alias req_id
  | RReject _ raw_msg node_alias req_id => single_reply sm s raw_msg node_alias req_id
  | RReqACK _ _ node_alias req_id =>
      Ok (Single s, None, [Net (ExtendTimeout req_id node_alias (sm_extended_timeout sm))])
  | RTimeout req_id node_alias =>
      let s := mkSingleState (ss_denied_nodes s) (ss_replies s) ({[node_alias]} ∪ ss_timeout_nodes s)
                 (ss_sp_key s) (ss_timestamps s) in
      let (st, effs) :=
        try_to_continue s req_id node_alias (sm_cmd_ids sm) (length (sm_nodes sm)) (sm_timeout sm) in
      Ok (st, None, effs)
  | RTerminate => Ok (Finish, None, _finish_request (sm_cmd_ids sm))
  | _ => Ok (Single s, None, [])
  end.

(** [_process_catchup_target]: finished or not, the pool event, the new replies. *)
Definition _process_catchup_target (sm : RequestSM) (files : PoolFiles) (merkle_root : string)
    (txn_seq_no : nat) (hashes : option (list string)) (node_alias : string)
    (s : CatchupConsensusState)
  : outcome (bool * option PoolEvent * CatchupConsensusState) * PoolFiles :=
  let key := (merkle_root, txn_seq_no, hashes) in
  let replies := upsert key (fun set => {[node_alias]} ∪ set) ∅ (cc_replies s) in
  let s := mkCatchupConsensusState replies (cc_merkle_tree s) in
  match check_nodes_responses_on_status p files replies (cc_merkle_tree s) (length (sm_nodes sm)) (sm_f sm) with
  | (Ok InProgress, files) => (Ok (false, None, s), files)
  | (Ok (NotNeeded merkle_tree), files) => (Ok (true, Some (Synced merkle_tree), s), files)
  | (Ok (CatchupRestartNeeded merkle_tree), files) =>
      (Ok (false, Some (CatchupRestart merkle_tree), s), files)
  | (Ok (ShouldBeStarted target_mt_root target_mt_size merkle_tree), files) =>
      (Ok (true, Some (CatchupTargetFound target_mt_root target_mt_size merkle_tree), s), files)
  | (Err err, files) => (Ok (true, Some (CatchupTargetNotFound err), s), files)
  | (Panic, files) => (Panic, files)
  end.

(** [_catchup_target_handle_consensus_state]. *)
Definition _catchup_target_handle_consensus_state (sm : RequestSM) (files : PoolFiles)
    (s : CatchupConsensusState) (mt_root : string) (sz : nat) (cons_proof : option (list string))
    (node_alias req_id : string) : StepResult * PoolFiles :=
  match _process_catchup_target sm files mt_root sz cons_proof node_alias s with
  | (Ok (true, result, _), files) => (Ok (Finish, result, [Net (CleanTimeout req_id None)]), files)
  | (Ok (false, Some (CatchupRestart merkle_tree), s), files) =>
      (Ok (CatchupConsensus s, Some (CatchupRestart merkle_tree), [Net (CleanTimeout req_id None)]), files)
  | (Ok (false, result, s), files) =>
      (Ok (CatchupConsensus s, result, [Net (CleanTimeout req_id (Some node_alias))]), files)
  | (Err e, files) => (Err e, files)
  | (Panic, files) => (Panic, files)
  end.

(** The [CatchupConsensus] arm. *)
Definition handle_catchup_consensus (sm : RequestSM) (files : PoolFiles)
    (s : CatchupConsensusState) (re : RequestEvent) : StepResult * PoolFiles :=
  match re with
  | RLedgerStatus ls (Some node_alias) _ =>
      _catchup_target_handle_consensus_state sm files s (ls_merkleRoot ls) (ls_txnSeqNo ls) None
        node_alias (ls_merkleRoot ls)
  | RConsistencyProof cp node_alias =>
      _catchup_target_handle_consensus_state sm files s (cp_newMerkleRoot cp) (cp_seqNoEnd cp)
        (Some (cp_hashes cp)) node_alias (cp_oldMerkleRoot cp)
  | RTimeout req_id node_alias =>
      _catchup_target_handle_consensus_state sm files s "timeout" 0 None node_alias req_id
  | RTerminate => (Ok (Finish, None, _finish_request (sm_cmd_ids sm)), files)
  | _ => (Ok (CatchupConsensus s, None, []), files)
  end.

(** The [CatchupSingle] arm. *)
Definition handle_catchup_single (sm : RequestSM) (files : PoolFiles)
    (s : CatchupSingleState) (re : RequestEvent) : StepResult * PoolFiles :=
  match re with
  | RCatchupRep cr node_alias =>
      match _process_catchup_reply files cr (cu_merkle_tree s) (cu_target_mt_root s) (cu_target_mt_size s) with
      | (Ok merkle, files) =>
          (Ok (Finish, Some (Synced merkle), [Net (CleanTimeout (cu_req_id s) None)]), files)
      | (Err _, files) =>
          (Ok (CatchupSingle s, None,
               [Net (Resend (cu_req_id s) (sm_timeout sm));
                Net (CleanTimeout (cu_req_id s) (Some node_alias))]), files)
      | (Panic, files) => (Panic, files)
      end
  | RTimeout req_id node_alias =>
      (Ok (CatchupSingle s, None,
           [Net (Resend (cu_req_id s) (sm_timeout sm)); Net (CleanTimeout req_id (Some node_alias))]), files)
  | RTerminate => (Ok (Finish, None, _finish_request (sm_cmd_ids sm)), files)
  | _ => (Ok (CatchupSingle s, None, []), files)
  end.

(** [_full_request_handle_consensus_state]. *)
Definition _full_request_handle_consensus_state (sm : RequestSM) (s : FullState)
    (req_id node_alias node_result : string) : StepResult :=
  let accum :=
    match fs_accum_reply s with
    | None => [(node_alias, VString node_result)]
    | Some m => map_insert node_alias (VString node_result) m
    end in
  let s := mkFullState (Some accum) (fs_nodes_to_send s) in
  let required_reply_cnt :=
    match fs_nodes_to_send s with Some l => length l | None => length (sm_nodes sm) end in
  let reply_cnt := length accum in
  if (reply_cnt =? required_reply_cnt)%nat then
    Ok (Finish, None, Net (CleanTimeout req_id None)
          :: _send_ok_replies (sm_cmd_ids sm) (json_to_string (Object accum)))
  else Ok (FullRequest s, None, [Net (CleanTimeout req_id (Some node_alias))]).

(** The [Full] arm. *)
Definition handle_full (sm : RequestSM) (s : FullState) (re : RequestEvent) : StepResult :=
  match re with
  | RReply _ raw_msg node_alias req_id | RReqNACK _ raw_msg node_alias req_id
  | RReject _ raw_msg node_alias req_id =>
      _full_request_handle_consensus_state sm s req_id node_alias raw_msg
  | RTimeout req_id node_alias =>
      _full_request_handle_consensus_state sm s req_id node_alias "timeout"
  | RTerminate => Ok (Finish, None, _finish_request (sm_cmd_ids sm))
  | _ => Ok (FullRequest s, None, [])
  end.

(** [RequestSM::handle_event] on the state. *)
Definition handle_state (sm : RequestSM) (files : PoolFiles) (re : RequestEvent)
  : StepResult * PoolFiles :=
  match sm_state sm with
  | Start => (handle_start sm re, files)
  | Consensus s => (handle_consensus sm s re, files)
  | Single s => (handle_single sm s re, files)
  | CatchupConsensus s => handle_catchup_consensus sm files s re
  | CatchupSingle s => handle_catchup_single sm files s re
  | FullRequest s => (handle_full sm s re, files)
  | Finish => (Ok (Finish, None, []), files)
  end.

(** [RequestSM::step]: the machine in another state. *)
Definition with_state (sm : RequestSM) (st : RequestState) : RequestSM :=
  mkRequestSM (sm_f sm) (sm_cmd_ids sm) (sm_nodes sm) (sm_timeout sm) (sm_extended_timeout sm)
    (sm_number_read_nodes sm) st.

(** [RequestSM::new]. *)
Definition sm_new (f : nat) (cmd_ids : list Z) (nodes : Nodes) (timeout extended_timeout number_read_nodes : Z)
  : RequestSM :=
  mkRequestSM f cmd_ids nodes timeout extended_timeout number_read_nodes Start.

(** [RequestSM::handle_event]. *)
Definition handle_event (sm : RequestSM) (files : PoolFiles) (re : RequestEvent)
  : outcome (RequestSM * option PoolEvent * list Effect) * PoolFiles :=
  match handle_state sm files re with
  | (Ok (st, event, effs), files) => (Ok (with_state sm st, event, effs), files)
  | (Err e, files) => (Err e, files)
  | (Panic, files) => (Panic, files)
  end.

(** [RequestSM::is_terminal]. *)
Definition is_terminal (sm : RequestSM) : bool :=
  match sm_state sm with Finish => true | _ => false end.

(** [RequestHandlerImpl::process_event]. *)
Definition process_event (wrapper : option RequestSM) (files : PoolFiles) (ore : option RequestEvent)
  : outcome (option RequestSM * option PoolEvent * list Effect) * PoolFiles :=
  match ore with
  | Some re =>
      match wrapper with
      | Some w =>
          match handle_event w files re with
          | (Ok (rw, res, effs), files) => (Ok (Some rw, res, effs), files)
          | (Err e, files) => (Err e, files)
          | (Panic, files) => (Panic, files)
          end
      | None => (Ok (None, None, []), files)
      end
  | None => (Ok (wrapper, None, []), files)
  end.

(** ** Runs *)

(** The events a request handles one after the other: final machine and everything
    it emitted. *)
Fixpoint run (sm : RequestSM) (files : PoolFiles) (res : list RequestEvent)
  : outcome (RequestSM * list Effect) * PoolFiles :=
  match res with
  | [] => (Ok (sm, []), files)
  | re :: res' =>
      match handle_event sm files re with
      | (Ok (sm, _, effs), files) =>
          match run sm files res' with
          | (Ok (sm, effs'), files) => (Ok (sm, (effs ++ effs')%list), files)
          | r => r
          end
      | (Err e, files) => (Err e, files)
      | (Panic, files) => (Panic, files)
      end
  end.

(** The acknowledgements among effects. *)
Definition acks (effs : list Effect) : list (Z * (string + IndyError)) :=
  omap (fun e => match e with SubmitAck id msg => Some (id, msg) | Net _ => None end) effs.

(** ** Acknowledgements *)
Lemma acks_app a b : acks (a ++ b) = (acks a ++ acks b)%list.
Proof. apply omap_app. Qed.

Lemma acks_send ids msg : acks (_send_replies ids msg) = map (fun id => (id, msg)) ids.
Proof. induction ids as [|id ids IH]; [done|]. cbn. by rewrite <-IH. Qed.

Lemma acks_replicate n e : acks (replicate n (Net e)) = [].
Proof. by induction n. Qed.

(** Nothing is acknowledged, or the request ends and every command gets the same
    answer. *)
Definition answers_once (sm : RequestSM) (st : RequestState) (effs : list Effect) : Prop :=
  acks effs = [] \/ (st = Finish /\ exists msg, acks effs = map (fun id => (id, msg)) (sm_cmd_ids sm)).

Lemma answered_plain sm msg : answers_once sm Finish (_send_replies (sm_cmd_ids sm) msg).
Proof. right. split; [done|]. exists msg. apply acks_send. Qed.
Hint Resolve answered_plain : indy.

(** ** Requests of commands *)

(** The states of a request a command waits for. *)
Definition custom (st : RequestState) : Prop :=
  match st with Single _ | Consensus _ | FullRequest _ => True | _ => False end.
#[local] Instance custom_dec st : Decision (custom st).
Proof. destruct st; apply _. Defined.

(** The request ends exactly when it answers, and then answers every command. *)
Definition settled (sm : RequestSM) (st : RequestState) (effs : list Effect) : Prop :=
  (st = Finish /\ exists msg, acks effs = map (fun id => (id, msg)) (sm_cmd_ids sm)) \/
  (custom st /\ acks effs = []).

Lemma send_settled sm msg pre post :
  acks pre = [] -> acks post = [] ->
  settled sm Finish (pre ++ _send_replies (sm_cmd_ids sm) msg ++ post)%list.
Proof.
  intros H1 H2. left. split; [done|]. exists msg. by rewrite !acks_app, H1, H2, acks_send, app_nil_r.
Qed.
Lemma send_settled_plain sm msg : settled sm Finish (_send_replies (sm_cmd_ids sm) msg).
Proof. left. split; [done|]. exists msg. apply acks_send. Qed.
Lemma send_settled_pre sm msg e : settled sm Finish (Net e :: _send_replies (sm_cmd_ids sm) msg).
Proof. left. split; [done|]. exists msg. apply (acks_send (sm_cmd_ids sm) msg). Qed.
Lemma send_settled_post sm msg e : settled sm Finish (_send_replies (sm_cmd_ids sm) msg ++ [Net e])%list.
Proof. apply (send_settled sm msg [] [Net e]); done. Qed.
Hint Resolve send_settled_plain send_settled_pre send_settled_post : indy.

Lemma try_to_continue_settled sm s r a n st effs :
  try_to_continue s r a (sm_cmd_ids sm) n (sm_timeout sm) = (st, effs) -> settled sm st effs.
Proof.
  unfold try_to_continue. destruct (single_reachable s n); intros [= <- <-]; [by right|].
  apply send_settled_post.
Qed.

Lemma single_reply_settled sm s raw a r st ev effs :
  single_reply sm s raw a r = Ok (st, ev, effs) -> settled sm st effs.
Proof.
  unfold single_reply, _send_ok_replies.
  destruct (_get_msg_result_without_state_proof raw) as [[u v]| |]; [| |done].
  - intros (t & _ & (b & _ & E)%obind_ok)%obind_ok. destruct b; [simplify_eq; auto with indy|].
    destruct (try_to_continue _ _ _ _ _ _) eqn:Et. simplify_eq. by eapply try_to_continue_settled.
  - destruct (try_to_continue _ _ _ _ _ _) eqn:Et. intros [= <- <- <-]. by eapply try_to_continue_settled.
Qed.

Lemma consensus_reply_settled sm s raw a r st ev effs :
  consensus_reply sm s raw a r = Ok (st, ev, effs) -> settled sm st effs.
Proof.
  unfold consensus_reply, consensus_impossible, _send_ok_replies.
  destruct (_get_msg_result_without_state_proof raw) as [[u v]| |]; [|case_match|done].
  - cbn zeta. case_match; [intros [= <- <- <-]; auto with indy|].
    intros (b & _ & E)%obind_ok. destruct b; simplify_eq; [by right|auto with indy].
  - intros [= <- <- <-]. auto with indy.
  - intros [= <- <- <-]. by right.
Qed.

Lemma handle_state_settled sm files re st ev effs files' :
  custom (sm_state sm) -> handle_state sm files re = (Ok (st, ev, effs), files') -> settled sm st effs.
Proof.
  unfold handle_state. destruct (sm_state sm) as [|s|s|s|s|s|]; cbn [custom];
    intros Hc Hst; try done; injection Hst as E _.
  - unfold handle_single in E. destruct re; simplify_eq; try (by right);
      try (by eapply single_reply_settled); try (by apply send_settled_plain).
    destruct (try_to_continue _ _ _ _ _ _) eqn:Et. simplify_eq. by eapply try_to_continue_settled.
  - unfold handle_consensus in E. destruct re; simplify_eq; try (by right);
      try (by eapply consensus_reply_settled); try (by apply send_settled_plain).
    apply obind_ok in E as (b & _ & E). destruct b; simplify_eq; [by right|apply send_settled_post].
  - unfold handle_full, _full_request_handle_consensus_state, _send_ok_replies in E. cbn zeta in E.
    destruct re; simplify_eq; try (by right); try (by apply send_settled_plain);
      case_match; simplify_eq; first [by right|apply send_settled_pre].
Qed.

Lemma settled_answers sm st effs : settled sm st effs -> answers_once sm st effs.
Proof. intros [H|[_ H]]; [by right|by left]. Qed.

Lemma handle_start_answers sm re st ev effs :
  handle_start sm re = Ok (st, ev, effs) -> answers_once sm st effs.
Proof.
  unfold handle_start. intros E. destruct re; cbn in E;
    repeat (break_match_hyp E; try done); simplify_eq; try (by left); try (by auto with indy).
  obind_inv. simplify_eq. left. apply (acks_replicate _ (Resend _ _)).
Qed.

Lemma catchup_target_no_answer sm files s root sz hs a r st ev effs files' :
  _catchup_target_handle_consensus_state sm files s root sz hs a r = (Ok (st, ev, effs), files') ->
  acks effs = [].
Proof.
  unfold _catchup_target_handle_consensus_state.
  destruct (_process_catchup_target _ _ _ _ _ _ _) as [[[[b res] s']| |] f1]; try done.
  destruct b; [by intros [= <- <- <- <-]|]. destruct res as [[]|]; by intros [= <- <- <- <-].
Qed.

Lemma handle_state_answers sm files re st ev effs files' :
  handle_state sm files re = (Ok (st, ev, effs), files') -> answers_once sm st effs.
Proof.
  intros E. destruct (decide (custom (sm_state sm))) as [Hc|Hc].
  { eapply settled_answers, handle_state_settled; done. }
  unfold handle_state in E. destruct (sm_state sm) as [|s|s|s|s|s|]; try by destruct Hc.
  - injection E as E _. by eapply handle_start_answers.
  - unfold handle_catchup_single in E. destruct re; simplify_eq; try (by left);
      try (by apply answered_plain).
    destruct (_process_catchup_reply _ _ _ _ _) as [[]]; simplify_eq; by left.
  - unfold handle_catchup_consensus in E. destruct re; simplify_eq; try (by left);
      try (by apply answered_plain); try (left; by eapply catchup_target_no_answer).
    destruct node_alias; simplify_eq; [left; by eapply catchup_target_no_answer|by left].
  - simplify_eq. by left.
Qed.

Lemma handle_event_inv sm files re sm' ev effs files' :
  handle_event sm files re = (Ok (sm', ev, effs), files') ->
  exists st, handle_state sm files re = (Ok (st, ev, effs), files') /\ sm' = with_state sm st.
Proof.
  unfold handle_event. destruct (handle_state sm files re) as [[[[st ev'] effs']| |] f]; try done.
  intros [= <- <- <- <-]. by exists st.
Qed.

(** A finished request stays finished and silent. *)
Lemma run_finish sm files res :
  sm_state sm = Finish -> run sm files res = (Ok (sm, []), files).
Proof.
  intros Hs. revert files. induction res as [|re res IH]; intros files; [done|].
  cbn [run]. unfold handle_event, handle_state. rewrite Hs.
  assert (E : with_state sm Finish = sm) by (destruct sm; cbn in *; by subst). rewrite E, IH. done.
Qed.

Lemma run_cons sm files re res sm' effs files' :
  run sm files (re :: res) = (Ok (sm', effs), files') ->
  exists st ev effs1 effs2 files1, handle_state sm files re = (Ok (st, ev, effs1), files1) /\
    run (with_state sm st) files1 res = (Ok (sm', effs2), files') /\ effs = (effs1 ++ effs2)%list.
Proof.
  cbn [run]. destruct (handle_event sm files re) as [[[[sm1 ev] effs1]| |] files1] eqn:E; try done.
  apply handle_event_inv in E as (st & E & ->).
  destruct (run (with_state sm st) files1 res) as [[[sm2 effs2]| |] files2] eqn:Er; try done.
  intros [= <- <- <-]. by exists st, ev, effs1, effs2, files1.
Qed.

Lemma run_answers sm files res sm' effs files' :
  run sm files res = (Ok (sm', effs), files') ->
  acks effs = [] \/ (sm_state sm' = Finish /\
                     exists msg, acks effs = map (fun id => (id, msg)) (sm_cmd_ids sm)).
Proof.
  revert sm files sm' effs files'. induction res as [|re res IH]; intros sm files sm' effs files' Hr.
  { cbn in Hr. simplify_eq. by left. }
  apply run_cons in Hr as (st & ev & effs1 & effs2 & files1 & Hs & Hr & ->). rewrite acks_app.
  destruct (handle_state_answers _ _ _ _ _ _ _ Hs) as [->|[-> [msg Hm]]].
  - by apply IH in Hr.
  - rewrite run_finish in Hr by done. simplify_eq. right. split; [done|].
    exists msg. cbn. by rewrite app_nil_r.
Qed.

(** ** Transitions *)
Inductive allowed : RequestState -> RequestState -> Prop :=
  | from_start st : allowed Start st
  | single_stays s s' : allowed (Single s) (Single s')
  | consensus_stays s s' : allowed (Consensus s) (Consensus s')
  | catchup_single_stays s s' : allowed (CatchupSingle s) (CatchupSingle s')
  | catchup_consensus_stays s s' : allowed (CatchupConsensus s) (CatchupConsensus s')
  | full_stays s s' : allowed (FullRequest s) (FullRequest s')
  | to_finish st : allowed st Finish.
Hint Constructors allowed : indy.

Lemma single_step_allowed s r a ids n t st effs :
  try_to_continue s r a ids n t = (st, effs) -> forall s0, allowed (Single s0) st.
Proof. unfold try_to_continue. destruct (single_reachable s n); intros [= <- <-]; constructor. Qed.

Lemma handle_single_allowed sm s re st ev effs :
  handle_single sm s re = Ok (st, ev, effs) -> allowed (Single s) st.
Proof.
  assert (Hr : forall raw a r, single_reply sm s raw a r = Ok (st, ev, effs) -> allowed (Single s) st).
  { intros raw a r. unfold single_reply.
    destruct (_get_msg_result_without_state_proof raw) as [[u v]| |]; [| |done].
    - intros (t & _ & (b & _ & E)%obind_ok)%obind_ok. destruct b; [simplify_eq; constructor|].
      destruct (try_to_continue _ _ _ _ _ _) eqn:Et. simplify_eq. by eapply single_step_allowed.
    - destruct (try_to_continue _ _ _ _ _ _) eqn:Et. intros. simplify_eq. by eapply single_step_allowed. }
  unfold handle_single. destruct re; intros; simplify_eq; try constructor; try (by eapply Hr).
  destruct (try_to_continue _ _ _ _ _ _) eqn:Et. simplify_eq. by eapply single_step_allowed.
Qed.

Lemma handle_consensus_allowed sm s re st ev effs :
  handle_consensus sm s re = Ok (st, ev, effs) -> allowed (Consensus s) st.
Proof.
  assert (Hr : forall raw a r, consensus_reply sm s raw a r = Ok (st, ev, effs) -> allowed (Consensus s) st).
  { intros raw a r. unfold consensus_reply.
    destruct (_get_msg_result_without_state_proof raw) as [[u v]| |]; [| |done]; cbn zeta; case_match.
    - intros. simplify_eq. constructor.
    - intros ([] & _ & E)%obind_ok; simplify_eq; constructor.
    - intros. simplify_eq. constructor.
    - intros. simplify_eq. constructor. }
  unfold handle_consensus. destruct re; intros E; simplify_eq; try constructor; try (by eapply Hr).
  apply obind_ok in E as ([] & _ & E); simplify_eq; constructor.
Qed.

Lemma catchup_target_allowed sm files s root sz hs a r st ev effs files' :
  _catchup_target_handle_consensus_state sm files s root sz hs a r = (Ok (st, ev, effs), files') ->
  allowed (CatchupConsensus s) st.
Proof.
  unfold _catchup_target_handle_consensus_state.
  destruct (_process_catchup_target _ _ _ _ _ _ _) as [[[[[] res] s']| |] f1]; try done.
  - intros. simplify_eq. constructor.
  - destruct res as [[]|]; intros; simplify_eq; constructor.
Qed.

Lemma handle_state_allowed sm files re st ev effs files' :
  handle_state sm files re = (Ok (st, ev, effs), files') -> allowed (sm_state sm) st.
Proof.
  unfold handle_state. destruct (sm_state sm) as [|s|s|s|s|s|] eqn:Es.
  - constructor.
  - intros [= E _]. by eapply handle_single_allowed.
  - intros [= E _]. by eapply handle_consensus_allowed.
  - unfold handle_catchup_single. destruct re; intros E; simplify_eq; try constructor.
    destruct (_process_catchup_reply _ _ _ _ _) as [[]]; simplify_eq; constructor.
  - unfold handle_catchup_consensus. destruct re; intros E; simplify_eq; try constructor;
      try (by eapply catchup_target_allowed).
    destruct node_alias; simplify_eq; [by eapply catchup_target_allowed|constructor].
  - intros [= E _]. unfold handle_full, _full_request_handle_consensus_state in E. cbn zeta in E.
    destruct re; simplify_eq; try constructor; case_match; simplify_eq; constructor.
  - intros. simplify_eq. constructor.
Qed.

Lemma run_allowed sm files es sm' effs files' :
  run sm files es = (Ok (sm', effs), files') -> allowed (sm_state sm) (sm_state sm').
Proof.
  revert sm files sm' effs files'. induction es as [|re es IH]; intros sm files sm' effs files' Hr.
  { cbn in Hr. simplify_eq. destruct (sm_state sm'); constructor. }
  apply run_cons in Hr as (st & ev & effs1 & effs2 & files1 & Hst & Hr & ->).
  apply handle_state_allowed in Hst. apply IH in Hr. cbn in Hr.
  inversion Hst; subst; inversion Hr; constructor.
Qed.

(** ** Agreement in the [Consensus] state *)

(** The raw message and the node of an answer. *)
Definition reply_of (re : RequestEvent) : option (string * string) :=
  match re with
  | RReply _ raw a _ | RReqNACK _ raw a _ | RReject _ raw a _ => Some (raw, a)
  | _ => None
  end.

(** Node [a] answered with the result [v] in the events [es]. *)
Definition supports (es : list RequestEvent) (v : Value) (a : string) : Prop :=
  exists re raw u, re ∈ es /\ reply_of re = Some (raw, a) /\
    _get_msg_result_without_state_proof raw = Ok (u, v).

Lemma supports_mono es es' v a : es ⊆ es' -> supports es v a -> supports es' v a.
Proof. intros Hs (re & raw & u & Hin & H1 & H2). exists re, raw, u. auto. Qed.

Definition explained (es : list RequestEvent) (replies : list (Value * gset string)) : Prop :=
  forall v set, (v, set) ∈ replies -> forall a, a ∈ set -> supports es v a.

(** [m] is an answer with a result that more than [f] nodes gave. *)
Definition majority (es : list RequestEvent) (f : nat) (m : string) : Prop :=
  exists v u (names : gset string), f < size names /\ (forall a, a ∈ names -> supports es v a) /\
    _get_msg_result_without_state_proof m = Ok (u, v).

Lemma consensus_reply_explained h sm s re raw a r st ev effs :
  reply_of re = Some (raw, a) -> explained h (cs_replies s) ->
  consensus_reply sm s raw a r = Ok (st, ev, effs) ->
  (forall s', st = Consensus s' -> explained (h ++ [re])%list (cs_replies s')) /\
  (forall id m, (id, inl m) ∈ acks effs -> majority (h ++ [re])%list (sm_f sm) m).
Proof.
  intros Hre Hh. unfold consensus_reply.
  destruct (_get_msg_result_without_state_proof raw) as [[u v]| |] eqn:Eg; [| |done].
  2: { cbn zeta. case_match; intros; simplify_eq.
       - split; [done|]. unfold consensus_impossible. rewrite acks_send.
         intros id m (i & ? & ?)%list_elem_of_fmap. done.
       - split; [|intros id m []%not_elem_of_nil]. intros s' [= <-] v set Hin b Hb.
         eapply supports_mono; [|by eapply Hh]. set_solver. }
  set (replies := upsert v _ _ _). cbn zeta.
  assert (Hx : explained (h ++ [re])%list replies).
  { intros v' set Hin b Hb. apply upsert_elem in Hin as [Hin|(-> & old & -> & Hold)].
    - eapply supports_mono; [|by eapply Hh]. set_solver.
    - apply elem_of_union in Hb as [->%elem_of_singleton|Hb].
      + exists re, raw, u. split; [set_solver|done].
      + destruct Hold as [Hin| ->]; [|set_solver].
        eapply supports_mono; [|by eapply Hh]. set_solver. }
  case_match eqn:Ec.
  - intros. simplify_eq. split; [done|]. intros id m. rewrite acks_app. unfold _send_ok_replies.
    rewrite acks_send. intros [Hin|[]%not_elem_of_nil]%elem_of_app.
    apply list_elem_of_fmap in Hin as (i & [= -> ->] & _).
    apply Nat.ltb_lt in Ec.
    destruct (assoc v replies) as [names|] eqn:Ea.
    2: { change (default ∅ None) with (∅ : gset string) in Ec. rewrite size_empty in Ec. lia. }
    exists v, u, names. split; [done|]. split; [|done].
    intros b Hb. by apply (Hx v names (assoc_elem _ _ _ Ea)).
  - intros (b & _ & E)%obind_ok. destruct b; simplify_eq.
    + split; [|intros id m []%not_elem_of_nil]. intros s' [= <-]. exact Hx.
    + split; [done|]. unfold consensus_impossible. rewrite acks_app, acks_send.
      intros id m [(i & ? & ?)%list_elem_of_fmap|[]%not_elem_of_nil]%elem_of_app. done.
Qed.

Lemma no_ok_impossible ids id m msg tail :
  acks tail = [] -> (id, inl m) ∈ acks (_send_replies ids (inr msg) ++ tail)%list -> False.
Proof.
  intros Ht. rewrite acks_app, Ht, app_nil_r, acks_send. by intros (i & ? & ?)%list_elem_of_fmap.
Qed.

Lemma handle_consensus_explained h sm s re st ev effs :
  explained h (cs_replies s) -> handle_consensus sm s re = Ok (st, ev, effs) ->
  (forall s', st = Consensus s' -> explained (h ++ [re])%list (cs_replies s')) /\
  (forall id m, (id, inl m) ∈ acks effs -> majority (h ++ [re])%list (sm_f sm) m).
Proof.
  intros Hh E.
  assert (Hstay : explained (h ++ [re])%list (cs_replies s)).
  { intros v set Hin b Hb. eapply supports_mono; [|by eapply Hh]. set_solver. }
  unfold handle_consensus in E. destruct re; simplify_eq;
    try (by eapply consensus_reply_explained; [reflexivity|..]);
    try (split; [by intros s' [= <-]|intros id m []%not_elem_of_nil]).
  - apply obind_ok in E as (b & _ & E). destruct b; simplify_eq.
    + split; [by intros s' [= <-]|intros id m []%not_elem_of_nil].
    + split; [done|]. intros id m []%no_ok_impossible. done.
  - split; [done|]. intros id m Hin. unfold _finish_request in Hin.
    rewrite <-(app_nil_r (_send_replies _ _)) in Hin. by apply no_ok_impossible in Hin.
Qed.

Lemma consensus_run_majority h es sm files s sm' effs files' id m :
  sm_state sm = Consensus s -> explained h (cs_replies s) ->
  run sm files es = (Ok (sm', effs), files') -> (id, inl m) ∈ acks effs ->
  majority (h ++ es)%list (sm_f sm) m.
Proof.
  revert h sm files s effs. induction es as [|re es IH]; intros h sm files s effs Hs Hh Hr Hin.
  { cbn in Hr. simplify_eq. by apply not_elem_of_nil in Hin. }
  apply run_cons in Hr as (st & ev & effs1 & effs2 & files1 & Hst & Hr & ->).
  pose proof (handle_state_allowed _ _ _ _ _ _ _ Hst) as Hal. rewrite Hs in Hal.
  unfold handle_state in Hst. rewrite Hs in Hst. injection Hst as Hst <-.
  destruct (handle_consensus_explained h sm s re st ev effs1 Hh Hst) as [H1 H2].
  replace (h ++ re :: es)%list with ((h ++ [re]) ++ es)%list by by rewrite <-app_assoc.
  rewrite acks_app in Hin. apply elem_of_app in Hin as [Hin|Hin].
  - destruct (H2 id m Hin) as (v & u & names & Hf & Hn & Hm). exists v, u, names.
    split; [done|]. split; [|done]. intros a Ha. eapply supports_mono; [|by apply Hn]. set_solver.
  - inversion Hal; subst.
    + by eapply (IH (h ++ [re])%list (with_state sm (Consensus s')) files s'); [|apply H1| |].
    + rewrite run_finish in Hr by done. simplify_eq. by apply not_elem_of_nil in Hin.
Qed.

(** ** Answers in the [Single] state *)
Definition response_ok (es : list RequestEvent) (v : Value) (r : NodeResponse) : Prop :=
  exists re u, re ∈ es /\ reply_of re = Some (nr_raw_msg r, nr_node_alias r) /\
    _get_msg_result_without_state_proof (nr_raw_msg r) = Ok (u, v).
Definition set_ok (es : list RequestEvent) (v : Value) (set : list NodeResponse) : Prop :=
  NoDup (map nr_node_alias set) /\ forall r, r ∈ set -> response_ok es v r.
Definition replies_ok (es : list RequestEvent) (replies : list (Value * list NodeResponse)) : Prop :=
  forall v set, (v, set) ∈ replies -> set_ok es v set.

(** [m] was accepted because of its state proof. *)
Definition proven (es : list RequestEvent) (f : nat) (nodes : Nodes) (sp_key : option bytes)
    (timestamps : option Z * option Z) (m : string) : Prop :=
  exists re a u v t, re ∈ es /\ reply_of re = Some (m, a) /\
    _get_msg_result_without_state_proof m = Ok (u, v) /\ get_last_signed_time m = Ok t /\
    _check_state_proof u f nodes m sp_key timestamps (default 0%Z t) = Ok true.

Lemma set_ok_mono es es' v set : es ⊆ es' -> set_ok es v set -> set_ok es' v set.
Proof.
  intros Hs [Hn Hr]. split; [done|]. intros r Hin. destruct (Hr r Hin) as (re & u & ? & ? & ?).
  exists re, u. auto.
Qed.

Lemma insert_response_ok es v r set :
  response_ok es v r -> set_ok es v set -> set_ok es v (insert_response r set).
Proof.
  intros Hr [Hn Hs]. unfold insert_response.
  destruct (existsb _ set) eqn:E; [done|]. split.
  - rewrite map_app. apply NoDup_app. split; [done|]. split; [|apply NoDup_singleton].
    intros x Hx Hx'. apply list_elem_of_singleton in Hx'. subst x.
    apply list_elem_of_In, in_map_iff in Hx as (y & Hy & Hin).
    assert (Ht : existsb (fun x => String.eqb (nr_node_alias x) (nr_node_alias r)) set = true)
      by (apply existsb_exists; exists y; split; [done|by apply String.eqb_eq]).
    congruence.
  - intros x [Hx|Hx]%elem_of_app; [by apply Hs|]. apply list_elem_of_singleton in Hx as ->. done.
Qed.

Lemma upsert_replies_ok es es' v r replies :
  es ⊆ es' -> response_ok es' v r -> replies_ok es replies ->
  replies_ok es' (upsert v (insert_response r) [] replies).
Proof.
  intros Hs Hr Ho v' set [Hin|(-> & old & -> & Hold)]%upsert_elem.
  - eapply set_ok_mono; [done|by apply Ho].
  - apply insert_response_ok; [done|]. destruct Hold as [Hin| ->].
    + eapply set_ok_mono; [done|by apply Ho].
    + split; [constructor|]. by intros x Hx%not_elem_of_nil.
Qed.

Lemma set_majority es f v set m :
  set_ok es v set -> f < length set -> (exists r, r ∈ set /\ nr_raw_msg r = m) -> majority es f m.
Proof.
  intros [Hn Hr] Hf (r & Hin & <-). destruct (Hr r Hin) as (re & u & _ & _ & Hu).
  exists v, u, (list_to_set (map nr_node_alias set)).
  split; [by rewrite size_list_to_set, length_map|]. split; [|done].
  intros a Ha%elem_of_list_to_set%list_elem_of_In%in_map_iff. destruct Ha as (x & <- & Hxin).
  destruct (Hr x) as (re' & u' & ? & ? & ?); [by apply list_elem_of_In|]. by exists re', (nr_raw_msg x), u'.
Qed.

Lemma latest_elem best l r : latest best l = Some r -> best = Some r \/ r ∈ l.
Proof.
  revert best. induction l as [|x l IH]; intros best; cbn [latest]; [by left|].
  intros Hl. destruct (IH _ Hl) as [E|Hin]; [|right; by constructor].
  destruct best as [y|]; [destruct (_ <=? _)%Z|]; simplify_eq; first [by left|right; constructor].
Qed.
Lemma latest_some best l : best <> None \/ l <> [] -> latest best l <> None.
Proof.
  revert best. induction l as [|x l IH]; intros best; cbn [latest]; [naive_solver|].
  intros _. apply IH. left. destruct best as [y|]; [by destruct (_ <=? _)%Z|done].
Qed.

Section SingleRun.
Context (set_iter_perm : forall l, set_iter l ≡ₚ l).
Context (sp_key : option bytes) (timestamps : option Z * option Z).

(** What is known of the state after the events [es]. *)
Definition single_inv (es : list RequestEvent) (s : SingleState) : Prop :=
  replies_ok es (ss_replies s) /\ ss_sp_key s = sp_key /\ ss_timestamps s = timestamps.

Definition single_post (es : list RequestEvent) (sm : RequestSM) (st : RequestState)
    (effs : list Effect) : Prop :=
  (forall s', st = Single s' -> single_inv es s') /\
  (forall id m, (id, inl m) ∈ acks effs ->
     majority es (sm_f sm) m \/ proven es (sm_f sm) (sm_nodes sm) sp_key timestamps m).

Lemma single_post_silent es sm s : single_inv es s -> single_post es sm (Single s) [].
Proof. intros Hi. split; [by intros s' [= <-]|intros id m []%not_elem_of_nil]. Qed.

Lemma single_inv_mono es es' s : es ⊆ es' -> single_inv es s -> single_inv es' s.
Proof.
  intros Hs (Hr & ? & ?). split; [|done]. intros v set Hin.
  eapply set_ok_mono; [done|by apply Hr].
Qed.

Lemma try_to_continue_post es sm s r a n st effs :
  single_inv es s -> try_to_continue s r a (sm_cmd_ids sm) n (sm_timeout sm) = (st, effs) ->
  single_post es sm st effs.
Proof.
  intros Hi. unfold try_to_continue. destruct (single_reachable s n); intros [= <- <-].
  - split; [by intros s' [= <-]|intros id m []%not_elem_of_nil].
  - split; [done|]. intros id m []%no_ok_impossible. done.
Qed.

Lemma soonest_in_set raw (set : list NodeResponse) :
  0 < length set ->
  exists x, x ∈ set /\
    nr_raw_msg x = match latest None (set_iter set) with Some x => nr_raw_msg x | None => raw end.
Proof using set_iter_perm.
  intros Hl. destruct (latest None (set_iter set)) as [x|] eqn:El.
  - exists x. split; [|done]. rewrite <-set_iter_perm.
    by destruct (latest_elem _ _ _ El).
  - exfalso. eapply latest_some; [|exact El]. right. intros E.
    apply (f_equal length) in E. rewrite set_iter_perm in E. cbn in E. lia.
Qed.

Lemma single_reply_post h sm s re raw a r st ev effs :
  reply_of re = Some (raw, a) -> single_inv h s -> single_reply sm s raw a r = Ok (st, ev, effs) ->
  single_post (h ++ [re])%list sm st effs.
Proof using set_iter_perm.
  intros Hre (Hr & Hk & Ht). unfold single_reply. cbn [ss_replies ss_denied_nodes ss_timeout_nodes ss_sp_key ss_timestamps].
  destruct (_get_msg_result_without_state_proof raw) as [[u v]| |] eqn:Eg; [| |done].
  2: { destruct (try_to_continue _ _ _ _ _ _) as [st' effs'] eqn:Et. intros. simplify_eq.
       eapply try_to_continue_post; [|exact Et]. apply (single_inv_mono h); [set_solver|done]. }
  intros (t & Es & (acc & Eacc & E)%obind_ok)%obind_ok.
  set (resp := mkNodeResponse raw a (default 0%Z t)) in *.
  set (replies := upsert v (insert_response resp) [] (ss_replies s)) in *.
  assert (Hresp : response_ok (h ++ [re])%list v resp)
    by (exists re, u; split; [set_solver|done]).
  assert (Hok : replies_ok (h ++ [re])%list replies)
    by (apply (upsert_replies_ok h); [set_solver|done|done]).
  destruct acc.
  - simplify_eq. split; [done|]. intros id m Hin. unfold _send_ok_replies in Hin.
    change (acks (?e :: ?l)) with (acks l) in Hin. rewrite acks_send in Hin. apply list_elem_of_fmap in Hin as (i & [= -> ->] & _).
    destruct (assoc v replies) as [set|] eqn:Ea; [|by unfold replies in Ea; rewrite assoc_upsert in Ea].
    change (default [] (Some set)) with set in *.
    destruct (sm_f sm <? length set)%nat eqn:Hf.
    + apply Nat.ltb_lt in Hf as Hf'. left. apply (set_majority _ _ v set); [by apply Hok, assoc_elem|done|].
      apply soonest_in_set. lia.
    + right. exists re, a, u, v, t. repeat split; try done; [set_solver|].
      by rewrite <-Hk, <-Ht.
  - destruct (try_to_continue _ _ _ _ _ _) as [st' effs'] eqn:Et. simplify_eq.
    eapply try_to_continue_post; [|exact Et]. done.
Qed.

Lemma handle_single_post h sm s re st ev effs :
  single_inv h s -> handle_single sm s re = Ok (st, ev, effs) -> single_post (h ++ [re])%list sm st effs.
Proof using set_iter_perm.
  intros Hi E. assert (Hi' : single_inv (h ++ [re])%list s) by (apply (single_inv_mono h); [set_solver|done]).
  unfold handle_single in E. destruct re; simplify_eq;
    try (by apply single_post_silent); try (by eapply single_reply_post; [reflexivity|..]).
  - destruct (try_to_continue _ _ _ _ _ _) as [st' effs'] eqn:Et. simplify_eq.
    eapply try_to_continue_post; [|exact Et]. done.
  - split; [done|]. intros id m Hin. unfold _finish_request in Hin.
    rewrite <-(app_nil_r (_send_replies _ _)) in Hin. by apply no_ok_impossible in Hin.
Qed.

Lemma single_run_justified h es sm files s sm' effs files' id m :
  sm_state sm = Single s -> single_inv h s ->
  run sm files es = (Ok (sm', effs), files') -> (id, inl m) ∈ acks effs ->
  majority (h ++ es)%list (sm_f sm) m \/
  proven (h ++ es)%list (sm_f sm) (sm_nodes sm) sp_key timestamps m.
Proof using set_iter_perm.
  revert h sm files s effs. induction es as [|re es IH]; intros h sm files s effs Hs Hh Hr Hin.
  { cbn in Hr. simplify_eq. by apply not_elem_of_nil in Hin. }
  apply run_cons in Hr as (st & ev & effs1 & effs2 & files1 & Hst & Hr & ->).
  pose proof (handle_state_allowed _ _ _ _ _ _ _ Hst) as Hal. rewrite Hs in Hal.
  unfold handle_state in Hst. rewrite Hs in Hst. injection Hst as Hst <-.
  destruct (handle_single_post h sm s re st ev effs1 Hh Hst) as [H1 H2].
  replace (h ++ re :: es)%list with ((h ++ [re]) ++ es)%list by by rewrite <-app_assoc.
  rewrite acks_app in Hin. apply elem_of_app in Hin as [Hin|Hin].
  - destruct (H2 id m Hin) as [(v & u & names & Hf & Hn & Hm)|(re' & a & u & v & t & Hp & ?)].
    + left. exists v, u, names. split; [done|]. split; [|done].
      intros a Ha. eapply supports_mono; [|by apply Hn]. set_solver.
    + right. exists re', a, u, v, t. split; [set_solver|done].
  - inversion Hal; subst.
    + by eapply (IH (h ++ [re])%list (with_state sm (Single s')) files s'); [|apply H1| |].
    + rewrite run_finish in Hr by done. simplify_eq. by apply not_elem_of_nil in Hin.
Qed.
End SingleRun.

Lemma run_settled sm files res sm' effs files' :
  custom (sm_state sm) -> run sm files res = (Ok (sm', effs), files') ->
  settled sm (sm_state sm') effs.
Proof.
  revert sm files sm' effs files'. induction res as [|re res IH]; intros sm files sm' effs files' Hc Hr.
  { cbn in Hr. simplify_eq. by right. }
  apply run_cons in Hr as (st & ev & effs1 & effs2 & files1 & Hs & Hr & ->).
  destruct (handle_state_settled _ _ _ _ _ _ _ Hc Hs) as [[-> [msg Hm]]|[Hc' Hn]].
  - rewrite run_finish in Hr by done. simplify_eq. left. split; [done|]. exists msg.
    by rewrite app_nil_r.
  - unfold settled. rewrite acks_app, Hn. by apply IH in Hr.
Qed.

(** ** Requests to every node *)

(** What an event tells about a node: its message, or that it timed out. *)
Definition node_result (re : RequestEvent) : option (string * string) :=
  match re with
  | RReply _ raw a _ | RReqNACK _ raw a _ | RReject _ raw a _ => Some (a, raw)
  | RTimeout _ a => Some (a, "timeout")
  | _ => None
  end.
Definition heard (es : list RequestEvent) (a : string) : Prop :=
  exists re r, re ∈ es /\ node_result re = Some (a, r).

(** The last thing heard of every node. *)
Definition collected (es : list RequestEvent) : list (string * Value) :=
  map_of_list (omap (fun re => (fun ar => (ar.1, VString ar.2)) <$> node_result re) es).

Lemma collected_snoc es re :
  collected (es ++ [re])%list =
  match node_result re with
  | Some (a, r) => map_insert a (VString r) (collected es)
  | None => collected es
  end.
Proof using Type.
  unfold collected. rewrite omap_app. cbn [omap list_omap].
  destruct (node_result re) as [[a r]|]; cbn; [by rewrite map_of_list_snoc|by rewrite app_nil_r].
Qed.

Lemma collected_sorted es : sorted_keys (collected es).
Proof using Type.
  induction es as [|re es IH] using rev_ind; [constructor|]. rewrite collected_snoc.
  destruct (node_result re) as [[a r]|]; [by apply map_insert_sorted|done].
Qed.

Lemma heard_snoc es re a :
  heard (es ++ [re])%list a <-> heard es a \/ exists r, node_result re = Some (a, r).
Proof using Type.
  split.
  - intros (re' & r & [Hin| ->%list_elem_of_singleton]%elem_of_app & H); [left; by exists re', r|eauto].
  - intros [(re' & r & Hin & H)|[r H]]; [exists re', r|exists re, r];
      rewrite elem_of_app, list_elem_of_singleton; auto.
Qed.

Lemma collected_heard es a : a ∈ (collected es).*1 <-> heard es a.
Proof using Type.
  induction es as [|re es IH] using rev_ind.
  { split; [by intros []%not_elem_of_nil|by intros (? & ? & []%not_elem_of_nil & _)]. }
  rewrite collected_snoc, heard_snoc, <-IH.
  destruct (node_result re) as [[b r]|]; [rewrite map_keys_insert|]; split.
  - intros [->|H]; [right; by exists r|by left].
  - intros [H|[r' [= -> ->]]]; [by right|by left].
  - by left.
  - by intros [H|[r' [=]]].
Qed.

(** The value of a node in [collected] is the last result it gave. *)
Definition last_result (es : list RequestEvent) (a : string) : option string :=
  foldl (fun acc re => match node_result re with
                       | Some (b, r) => if decide (b = a) then Some r else acc
                       | None => acc
                       end) None es.

Lemma collected_last es a : map_get a (collected es) = VString <$> last_result es a.
Proof using Type.
  induction es as [|re es IH] using rev_ind; [done|]. rewrite collected_snoc.
  unfold last_result in *. rewrite foldl_app. cbn [foldl].
  destruct (node_result re) as [[b r]|]; [|done]. destruct (decide (b = a)) as [->|Hne].
  - by rewrite map_get_insert_eq.
  - by rewrite map_get_insert_ne.
Qed.

(** As many nodes as the request waits for. *)
Definition required (sm : RequestSM) (ns : option (list string)) : nat :=
  match ns with Some l => length l | None => length (sm_nodes sm) end.

(** The state after the events [h], still waiting. *)
Definition full_inv (h : list RequestEvent) (sm : RequestSM) (ns : option (list string))
    (s : FullState) : Prop :=
  fs_nodes_to_send s = ns /\ default [] (fs_accum_reply s) = collected h /\
  (collected h <> [] -> length (collected h) <> required sm ns).

(** The answer after the events [h]. *)
Definition full_answer (h : list RequestEvent) (sm : RequestSM) (ns : option (list string))
    (m : string) : Prop :=
  m = json_to_string (Object (collected h)) /\ length (collected h) = required sm ns.

Lemma full_node_step h sm ns s re r a raw st ev effs :
  full_inv h sm ns s -> node_result re = Some (a, raw) ->
  _full_request_handle_consensus_state sm s r a raw = Ok (st, ev, effs) ->
  (exists s', st = FullRequest s' /\ acks effs = [] /\ full_inv (h ++ [re])%list sm ns s') \/
  (st = Finish /\ exists m, full_answer (h ++ [re])%list sm ns m /\
     acks effs = map (fun id => (id, inl m)) (sm_cmd_ids sm)).
Proof.
  intros (Hn & Ha & _) Hre. unfold _full_request_handle_consensus_state. cbn zeta.
  set (accum := match fs_accum_reply s with None => _ | Some m => _ end).
  assert (Hacc : accum = collected (h ++ [re])%list).
  { rewrite collected_snoc, Hre, <-Ha. subst accum. by destruct (fs_accum_reply s). }
  clearbody accum. subst accum. cbn [fs_nodes_to_send fs_accum_reply]. rewrite Hn.
  change (match ns with Some l => length l | None => length (sm_nodes sm) end) with (required sm ns).
  case_match eqn:Ec; intros [= <- <- <-].
  - apply Nat.eqb_eq in Ec. right. split; [done|]. eexists. split; [done|].
    apply (acks_send (sm_cmd_ids sm)).
  - apply Nat.eqb_neq in Ec. left. eexists. split; [done|]. split; [done|]. by repeat split.
Qed.

Lemma full_inv_silent h sm ns s re :
  node_result re = None -> full_inv h sm ns s -> full_inv (h ++ [re])%list sm ns s.
Proof. unfold full_inv. by rewrite collected_snoc; intros ->. Qed.

Lemma handle_full_step h sm ns s re st ev effs :
  full_inv h sm ns s -> handle_full sm s re = Ok (st, ev, effs) ->
  (exists s', st = FullRequest s' /\ acks effs = [] /\ full_inv (h ++ [re])%list sm ns s') \/
  (st = Finish /\
   ((re = RTerminate /\ forall id m, (id, inl m) ∉ acks effs) \/
    exists m, full_answer (h ++ [re])%list sm ns m /\
      acks effs = map (fun id => (id, inl m)) (sm_cmd_ids sm))).
Proof.
  intros Hi E. destruct (node_result re) as [[a raw]|] eqn:Hre.
  - assert (Hs : exists r, _full_request_handle_consensus_state sm s r a raw = Ok (st, ev, effs))
      by (destruct re; cbn in Hre, E; simplify_eq; eauto).
    destruct Hs as [r Hs]. destruct (full_node_step _ _ _ _ _ _ _ _ _ _ _ Hi Hre Hs) as [H|[-> H]];
      [by left|right; split; [done|by right]].
  - destruct re; cbn in Hre, E; simplify_eq;
      try (left; eexists; split; [done|]; split; [done|]; by apply full_inv_silent).
    right. split; [done|]. left. split; [done|]. intros id m Hin. unfold _finish_request in Hin.
    rewrite <-(app_nil_r (_send_replies _ _)) in Hin. by apply no_ok_impossible in Hin.
Qed.

Lemma full_run_answer h es sm files ns s sm' effs files' :
  sm_state sm = FullRequest s -> full_inv h sm ns s ->
  run sm files es = (Ok (sm', effs), files') ->
  (exists s', sm_state sm' = FullRequest s' /\ full_inv (h ++ es)%list sm ns s' /\ acks effs = []) \/
  (sm_state sm' = Finish /\
   ((RTerminate ∈ es /\ forall id m, (id, inl m) ∉ acks effs) \/
    exists es1 es2 m, es = (es1 ++ es2)%list /\ full_answer (h ++ es1)%list sm ns m /\
      acks effs = map (fun id => (id, inl m)) (sm_cmd_ids sm))).
Proof.
  revert h sm files s effs. induction es as [|re es IH]; intros h sm files s effs Hs Hh Hr.
  { cbn in Hr. simplify_eq. left. exists s. by rewrite app_nil_r. }
  apply run_cons in Hr as (st & ev & effs1 & effs2 & files1 & Hst & Hr & ->).
  unfold handle_state in Hst. rewrite Hs in Hst. injection Hst as Hst <-. rewrite acks_app.
  destruct (handle_full_step h sm ns s re st ev effs1 Hh Hst) as [(s' & -> & -> & Hi)|[-> Hfin]].
  - destruct (IH (h ++ [re])%list (with_state sm (FullRequest s')) files s' effs2) as [H|[Hf H]]; try done.
    + left. by rewrite <-app_assoc in H.
    + right. split; [done|]. destruct H as [[Hin H]|(es1 & es2 & m & -> & Hm & Ha)].
      * left. split; [by constructor|done].
      * right. exists (re :: es1), es2, m. split; [done|]. by rewrite <-app_assoc in Hm.
  - rewrite run_finish in Hr by done. simplify_eq. rewrite app_nil_r. right. split; [done|].
    destruct Hfin as [[-> H]|(m & Hm & Ha)]; [left; split; [constructor|done]|].
    right. by exists [re], es, m.
Qed.

(** ** A [Single] request ends *)
Definition aliases (replies : list (Value * list NodeResponse)) : list string :=
  concat (map (fun kv => map nr_node_alias kv.2) replies).
Definition accounted (s : SingleState) : gset string :=
  ss_timeout_nodes s ∪ ss_denied_nodes s ∪ list_to_set (aliases (ss_replies s)).

Lemma size_list_to_set_le (l : list string) : size (list_to_set l : gset string) <= length l.
Proof.
  induction l as [|x l IH]; [done|]. cbn [list_to_set length].
  rewrite size_union_alt, size_singleton.
  pose proof (subseteq_size (list_to_set l ∖ {[x]}) (list_to_set l : gset string) ltac:(set_solver)). lia.
Qed.

Lemma size_union_le (X Y : gset string) : size (X ∪ Y) <= size X + size Y.
Proof. rewrite size_union_alt. pose proof (subseteq_size (Y ∖ X) Y ltac:(set_solver)). lia. Qed.

Lemma length_aliases replies : length (aliases replies) = sum_list (map (fun kv => length kv.2) replies).
Proof.
  unfold aliases. induction replies as [|[v set] l IH]; [done|]. cbn.
  by rewrite length_app, length_map, IH.
Qed.

Lemma accounted_size s n : single_reachable s n = true -> size (accounted s) < n.
Proof.
  unfold single_reachable, accounted. rewrite Nat.ltb_lt, <-length_aliases.
  pose proof (size_union_le (ss_timeout_nodes s ∪ ss_denied_nodes s) (list_to_set (aliases (ss_replies s)))).
  pose proof (size_union_le (ss_timeout_nodes s) (ss_denied_nodes s)).
  pose proof (size_list_to_set_le (aliases (ss_replies s))). lia.
Qed.

Lemma insert_response_alias r set a :
  a ∈ map nr_node_alias (insert_response r set) <-> a = nr_node_alias r \/ a ∈ map nr_node_alias set.
Proof.
  unfold insert_response. destruct (existsb _ set) eqn:E.
  - apply existsb_exists in E as (x & Hx & Ex). apply String.eqb_eq in Ex.
    split; [by right|]. intros [->|H]; [|done]. rewrite <-Ex. apply list_elem_of_In, in_map. done.
  - rewrite map_app, elem_of_app. cbn [map]. rewrite list_elem_of_singleton. tauto.
Qed.

Lemma aliases_upsert v r replies a :
  a ∈ aliases (upsert v (insert_response r) [] replies) <-> a = nr_node_alias r \/ a ∈ aliases replies.
Proof.
  unfold aliases. induction replies as [|[k set] l IH]; cbn [upsert].
  - cbn. rewrite list_elem_of_singleton. set_solver.
  - destruct (decide (k = v)) as [->|]; cbn [map concat fst snd]; rewrite !elem_of_app.
    + rewrite insert_response_alias. tauto.
    + rewrite IH. tauto.
Qed.

Definition live_inv (h : list RequestEvent) (n : nat) (s : SingleState) : Prop :=
  (forall a, heard h a -> a ∈ accounted s) /\ ((exists a, heard h a) -> single_reachable s n = true).

Lemma try_to_continue_live h n s r a ids t st effs s' :
  (forall a, heard h a -> a ∈ accounted s) -> try_to_continue s r a ids n t = (st, effs) ->
  st = Single s' -> live_inv h n s'.
Proof.
  intros Ha. unfold try_to_continue. destruct (single_reachable s n) eqn:E; intros [= <- <-]; [|done].
  intros [= <-]. split; [done|]. intros _. exact E.
Qed.

Lemma handle_single_live h sm s re st ev effs s' :
  live_inv h (length (sm_nodes sm)) s -> handle_single sm s re = Ok (st, ev, effs) -> st = Single s' ->
  live_inv (h ++ [re])%list (length (sm_nodes sm)) s'.
Proof.
  intros [Ha Hr] E Hs. destruct (node_result re) as [[a raw]|] eqn:Hre.
  2: { assert (Hh : forall b, heard (h ++ [re])%list b <-> heard h b)
         by (intros b; rewrite heard_snoc, Hre; naive_solver).
       destruct re; cbn in Hre, E; simplify_eq; split; try (intros b; rewrite Hh; apply Ha);
         intros [b Hb%Hh]; apply Hr; by exists b. }
  assert (Hh : forall b, heard (h ++ [re])%list b -> b = a \/ b ∈ accounted s).
  { intros b [Hb|[r' Hb]]%heard_snoc; [right; by apply Ha|left; congruence]. }
  assert (Hreply : forall r, single_reply sm s raw a r = Ok (st, ev, effs) ->
            live_inv (h ++ [re])%list (length (sm_nodes sm)) s').
  { intros r. unfold single_reply.
    destruct (_get_msg_result_without_state_proof raw) as [[u v]| |]; [| |done].
    - intros (t & _ & (b & _ & E')%obind_ok)%obind_ok. destruct b; [by simplify_eq|].
      destruct (try_to_continue _ _ _ _ _ _) as [st' effs'] eqn:Et. injection E' as <- _ _.
      eapply try_to_continue_live; [|exact Et|exact Hs]. intros c Hc%Hh. unfold accounted in *.
      cbn [ss_replies ss_denied_nodes ss_timeout_nodes].
      rewrite !elem_of_union, elem_of_list_to_set, elem_of_difference, aliases_upsert in *.
      cbn [nr_node_alias]. destruct (decide (c = a)); set_solver.
    - destruct (try_to_continue _ _ _ _ _ _) as [st' effs'] eqn:Et. intros [= <- _ _].
      eapply try_to_continue_live; [|exact Et|exact Hs]. intros c Hc%Hh. unfold accounted in *.
      cbn [ss_replies ss_denied_nodes ss_timeout_nodes] in *. destruct (decide (c = a)); set_solver. }
  destruct re; cbn in Hre; simplify_eq; try by eapply Hreply.
  cbn [handle_single] in E. destruct (try_to_continue _ _ _ _ _ _) as [st' effs'] eqn:Et.
  injection E as E _ _. eapply try_to_continue_live; [|exact Et|exact E].
  intros c Hc%Hh. unfold accounted in *. cbn [ss_replies ss_denied_nodes ss_timeout_nodes]. set_solver.
Qed.

Lemma single_run_live h es sm files s sm' effs files' s' :
  sm_state sm = Single s -> live_inv h (length (sm_nodes sm)) s ->
  run sm files es = (Ok (sm', effs), files') -> sm_state sm' = Single s' ->
  live_inv (h ++ es)%list (length (sm_nodes sm)) s'.
Proof.
  revert h sm files s effs. induction es as [|re es IH]; intros h sm files s effs Hs Hh Hr Hs'.
  { cbn in Hr. simplify_eq. rewrite app_nil_r. congruence. }
  apply run_cons in Hr as (st & ev & effs1 & effs2 & files1 & Hst & Hr & ->).
  pose proof (handle_state_allowed _ _ _ _ _ _ _ Hst) as Hal. rewrite Hs in Hal.
  unfold handle_state in Hst. rewrite Hs in Hst. injection Hst as Hst <-.
  replace (h ++ re :: es)%list with ((h ++ [re]) ++ es)%list by by rewrite <-app_assoc.
  inversion Hal as [|? s1| | | | |]; subst.
  - eapply (IH _ (with_state sm (Single s1)) files s1); try done.
    by eapply handle_single_live.
  - rewrite run_finish in Hr by done. by simplify_eq.
Qed.

(** ** Properties of requests *)

(** A request of a command ends exactly when it answers: as long as it runs nothing
    has been acknowledged, and when it has ended every command handle of the request
    has been acknowledged exactly once, all with the same result, whatever events
    (replies, refusals, timeouts, termination) arrived and in whatever order, including
    any that arrived after the end. *)
Theorem commands_answered_once sm files es sm' effs files' :
  custom (sm_state sm) -> run sm files es = (Ok (sm', effs), files') ->
  (is_terminal sm' = true /\ exists msg, acks effs = map (fun id => (id, msg)) (sm_cmd_ids sm)) \/
  (is_terminal sm' = false /\ acks effs = []).
Proof.
  intros Hc Hr. unfold is_terminal. destruct (run_settled _ _ _ _ _ _ Hc Hr) as [[-> H]|[Hs H]]; [by left|].
  right. split; [|done]. by destruct (sm_state sm').
Qed.



(** Progress of a read request: once every node of the pool has replied, refused or
    timed out, the request has ended. *)
Theorem single_request_ends sm files es sp_key timestamps sm' effs files' :
  sm_state sm = Single (mkSingleState ∅ [] ∅ sp_key timestamps) ->
  NoDup (sm_nodes sm).*1 -> sm_nodes sm <> [] ->
  (forall a, a ∈ (sm_nodes sm).*1 -> heard es a) ->
  run sm files es = (Ok (sm', effs), files') -> is_terminal sm' = true.
Proof.
  intros Hs Hn Hne Hall Hr.
  assert (Hc : custom (sm_state sm)) by by rewrite Hs.
  pose proof (run_allowed _ _ _ _ _ _ Hr) as Hal. rewrite Hs in Hal. unfold is_terminal.
  destruct (sm_state sm') as [|s'| | | | |] eqn:Hs'; try done; try by inversion Hal.
  exfalso. destruct (single_run_live [] es sm files _ sm' effs files' s' Hs) as [Ha Hreach]; [|done..|].
  { split; [intros a (? & ? & []%not_elem_of_nil & _)|intros (a & ? & ? & []%not_elem_of_nil & _)]. }
  assert (Hex : exists a, heard es a).
  { destruct (sm_nodes sm) as [|[a k] l]; [done|]. exists a. apply Hall. constructor. }
  apply Hreach, accounted_size in Hex.
  pose proof (subseteq_size (list_to_set (sm_nodes sm).*1) (accounted s')
    ltac:(intros a Hin%elem_of_list_to_set; by apply Ha, Hall)) as Hsz.
  rewrite size_list_to_set, length_fmap in Hsz by done. lia.
Qed.

(** The answer to a request to every node is the JSON object of the last thing heard of
    each node, its message or [timeout], at the first moment as many nodes were heard
    as the request waits for; a request that was not closed and has not ended has
    heard another number of nodes. *)
Theorem full_request_answer sm files ns es sm' effs files' :
  sm_state sm = FullRequest (mkFullState None ns) ->
  run sm files es = (Ok (sm', effs), files') ->
  (is_terminal sm' = true /\
   ((RTerminate ∈ es /\ forall id m, (id, inl m) ∉ acks effs) \/
    exists es1 es2 replies, es = (es1 ++ es2)%list /\
      (forall a, map_get a replies = VString <$> last_result es1 a) /\ sorted_keys replies /\
      length replies = required sm ns /\
      acks effs = map (fun id => (id, inl (json_to_string (Object replies)))) (sm_cmd_ids sm))) \/
  (is_terminal sm' = false /\ acks effs = [] /\
   (collected es <> [] -> length (collected es) <> required sm ns)).
Proof.
  intros Hs Hr. unfold is_terminal.
  destruct (full_run_answer [] es sm files ns _ sm' effs files' Hs) as [(s' & -> & Hi & Ha)|[-> H]].
  - by repeat split.
  - exact Hr.
  - right. split; [done|]. split; [done|]. by destruct Hi as (_ & _ & ?).
  - left. split; [done|]. destruct H as [H|(es1 & es2 & m & -> & [-> Hl] & Ha)]; [by left|]. right.
    exists es1, es2, (collected es1). repeat split; try done; [apply collected_last|apply collected_sorted].
Qed.

(** Progress of a request to every node: with distinct targets, and when only targets
    answer, it has ended once each of them has replied or timed out. *)
Theorem full_request_ends sm files ns es sm' effs files' :
  let targets := default (sm_nodes sm).*1 ns in
  sm_state sm = FullRequest (mkFullState None ns) ->
  NoDup targets -> targets <> [] -> (forall a, heard es a <-> a ∈ targets) ->
  run sm files es = (Ok (sm', effs), files') -> is_terminal sm' = true.
Proof.
  intros targets Hs Hn Hne Hall Hr. unfold is_terminal.
  destruct (full_run_answer [] es sm files ns _ sm' effs files' Hs) as [(s' & -> & Hi & Ha)|[-> H]];
    [by repeat split|exact Hr| |done].
  exfalso. destruct Hi as (_ & _ & Hl). cbn [app] in Hl.
  assert (Hp : (collected es).*1 ≡ₚ targets).
  { apply NoDup_Permutation; [apply sorted_keys_NoDup, collected_sorted|done|].
    intros a. by rewrite collected_heard, Hall. }
  apply Permutation_length in Hp as Hlen. rewrite length_fmap in Hlen.
  apply Hl; [|rewrite Hlen; unfold required, targets; destruct ns; [done|apply length_fmap]].
  intros E. rewrite E in Hp. by apply Hne, Permutation_nil.
Qed.

(** A list of target nodes with a repeated name is accepted, and then the request never
    ends on its own: however often the listed nodes reply or time out, no command is
    acknowledged. *)
Theorem full_request_repeated_node_hangs sm files targets es sm' effs files' :
  sm_state sm = FullRequest (mkFullState None (Some targets)) ->
  ~ NoDup targets -> RTerminate ∉ es -> (forall a, heard es a -> a ∈ targets) ->
  run sm files es = (Ok (sm', effs), files') -> is_terminal sm' = false /\ acks effs = [].
Proof.
  intros Hs Hd Ht Hall Hr. unfold is_terminal.
  destruct (full_run_answer [] es sm files (Some targets) _ sm' effs files' Hs) as [(s' & -> & Hi & Ha)|[-> H]];
    [by repeat split|exact Hr|done|].
  exfalso. destruct H as [[? _]|(es1 & es2 & m & -> & [_ Hl] & _)]; [done|]. cbn [required app] in Hl.
  apply Hd, (NoDup_of_covered (collected es1).*1).
  - apply sorted_keys_NoDup, collected_sorted.
  - intros a (re & r & Hin & Hre)%collected_heard. apply Hall. exists re, r. set_solver.
  - rewrite length_fmap. lia.
Qed.
End Handler.
Arguments RequestSM {B}.

(** ** Concrete requests *)
Definition demo_reply_codec : Codec := {|
  base64_encode := string_of_bytes;
  base64_decode s := Some (as_bytes s);
  from_base58 _ := None;
  to_base58 := string_of_bytes;
  json_from_str s :=
    if String.eqb s "malformed" then None
    else Some (Object [("op", VString "REPLY"); ("result", VString s)]);
  json_to_string v := match v with Object m => String.concat "," m.*1 | _ => "" end;
  rmp_to_vec _ := None;
  rmp_to_vec_named _ := None;
  hex_encode := string_of_bytes;
  openssl_hash b := Ok b;
  rlp_items v := Some [Data v];
  rlp_encode := demo_flatten;
  sha3_256 v := v
|}.

Definition demo_sm (st : RequestState) : RequestSM := mkRequestSM (B := demo_bls) 1 [7; 8]%Z demo_pool 20 60 2 st.

Definition demo_run (p : Profile) (st : RequestState) (es : list RequestEvent) :=
  (run (C := demo_reply_codec) (B := demo_bls) p 3 linear_search (fun _ => None) id 0 300 tt (fun _ => "") (fun _ => None)
     (demo_sm st) demo_files es).1.

Definition demo_reply (a m : string) : RequestEvent := RReply (ReplyV0 1) m a "1".

Definition fresh_consensus : RequestState := Consensus (mkConsensusState ∅ [] ∅).
Definition fresh_single : RequestState := Single (mkSingleState ∅ [] ∅ None (None, None)).
Definition fresh_full : RequestState := FullRequest (mkFullState None None).
Definition demo_events : list RequestEvent :=
  [demo_reply "Node1" "x"; RTimeout "1" "Node2"; demo_reply "Node3" "y"; demo_reply "Node4" "x"].

(** A run with its own arguments, for the theorems above. *)
Ltac demo_apply thm sm evs :=
  eapply (thm demo_reply_codec demo_bls Debug 3 linear_search (fun _ => None) id 0%Z 300%Z tt
            (fun _ => "") (fun _ => None) sm demo_files) with (es := evs).

Lemma demo_heard l es :
  bool_decide (Forall (fun a => a ∈ (collected es).*1) l) = true -> forall a, a ∈ l -> heard es a.
Proof. intros H%bool_decide_eq_true a Ha. rewrite <-collected_heard. rewrite Forall_forall in H. exact (H a Ha). Qed.

Lemma commands_answered_once_witness :
  exists sm' effs, demo_run Debug fresh_single demo_events = Ok (sm', effs) /\
    ((is_terminal sm' = true /\ exists msg, acks effs = map (fun id => (id, msg)) [7; 8]%Z) \/
     (is_terminal sm' = false /\ acks effs = [])).
Proof.
  do 2 eexists. split; [vm_compute; reflexivity|].
  demo_apply (@commands_answered_once) (demo_sm fresh_single) demo_events; [done|vm_compute; reflexivity].
Defined.



Lemma single_request_ends_witness :
  exists sm' effs, demo_run Debug fresh_single demo_events = Ok (sm', effs) /\ is_terminal sm' = true.
Proof.
  do 2 eexists. split; [vm_compute; reflexivity|].
  demo_apply (@single_request_ends) (demo_sm fresh_single) demo_events;
    [reflexivity|by apply (bool_decide_unpack _)|done| |vm_compute; reflexivity].
  apply demo_heard. vm_compute. reflexivity.
Defined.

Lemma full_request_answer_witness :
  exists sm' effs,
    demo_run Debug fresh_full demo_events = Ok (sm', effs) /\
    ((is_terminal sm' = true /\
      ((RTerminate ∈ demo_events /\ forall id m, (id, inl m) ∉ acks effs) \/
       exists es1 es2 replies, demo_events = (es1 ++ es2)%list /\
         (forall a, map_get a replies = VString <$> last_result es1 a) /\ sorted_keys replies /\
         length replies = required (demo_sm fresh_full) None /\
         acks effs = map (fun id => (id, inl (@json_to_string demo_reply_codec (Object replies)))) [7; 8]%Z)) \/
     (is_terminal sm' = false /\ acks effs = [] /\
      (collected demo_events <> [] -> length (collected demo_events) <> required (demo_sm fresh_full) None))).
Proof.
  do 2 eexists. split; [vm_compute; reflexivity|].
  demo_apply (@full_request_answer) (demo_sm fresh_full) demo_events;
    [reflexivity|vm_compute; reflexivity].
Defined.

Lemma full_request_ends_witness :
  exists sm' effs,
    demo_run Debug fresh_full demo_events = Ok (sm', effs) /\
    is_terminal sm' = true.
Proof.
  do 2 eexists. split; [vm_compute; reflexivity|].
  demo_apply (@full_request_ends) (demo_sm fresh_full) demo_events;
    [reflexivity|by apply (bool_decide_unpack _)|done| |vm_compute; reflexivity].
  intros a. rewrite <-collected_heard. by vm_compute in a |- *.
Defined.

Definition repeated_targets : RequestState := FullRequest (mkFullState None (Some ["Node1"; "Node1"])).

Lemma full_request_repeated_node_hangs_witness :
  exists sm' effs,
    demo_run Debug repeated_targets [demo_reply "Node1" "x"; demo_reply "Node1" "x"] = Ok (sm', effs) /\
    is_terminal sm' = false /\ acks effs = [].
Proof.
  do 2 eexists. split; [vm_compute; reflexivity|].
  demo_apply (@full_request_repeated_node_hangs) (demo_sm repeated_targets)
    [demo_reply "Node1" "x"; demo_reply "Node1" "x"];
    [reflexivity|by apply (bool_decide_unpack _)|by intros [?|[?|[]%not_elem_of_nil]%elem_of_cons]%elem_of_cons| |vm_compute; reflexivity].
  intros a. rewrite <-collected_heard. by intros [->|[]%not_elem_of_nil]%elem_of_cons; left.
Defined.

(** Nodes that replied after their timeout are counted twice.  With four nodes and
    [f = 1], two late replies that differ end the request with "Consensus is impossible"
    although the other two nodes have not been heard and could agree. *)
Theorem late_replies_make_consensus_impossible p :
  exists sm' effs,
    demo_run p fresh_consensus
      [RTimeout "1" "Node1"; RTimeout "1" "Node2"; demo_reply "Node1" "x"; demo_reply "Node2" "y"]
    = Ok (sm', effs) /\
    is_terminal sm' = true /\
    acks effs = map (fun id => (id, inr (err_msg PoolTimeout "Consensus is impossible"))) [7; 8]%Z /\
    exists sm2 effs2,
      demo_run p fresh_consensus
        [demo_reply "Node1" "x"; demo_reply "Node2" "y"; demo_reply "Node3" "x"] = Ok (sm2, effs2) /\
      acks effs2 = map (fun id => (id, inl "x")) [7; 8]%Z.
Proof.
  destruct p; do 2 eexists; (split; [vm_compute; reflexivity|]); (split; [done|]); (split; [done|]);
    do 2 eexists; (split; [vm_compute; reflexivity|done]).
Qed.

(** The same double counting takes the number of nodes still to answer below zero: a
    debug build panics, a release build wraps and goes on waiting. *)
Theorem denied_after_timeout_underflows :
  let es := [RTimeout "1" "Node1"; RTimeout "1" "Node2"; demo_reply "Node1" "malformed";
             demo_reply "Node2" "malformed"; demo_reply "Node3" "malformed"; RTimeout "1" "Node3"] in
  demo_run Debug fresh_consensus es = Panic /\
  exists sm' effs, demo_run Release fresh_consensus es = Ok (sm', effs) /\
    is_terminal sm' = false /\ acks effs = [].
Proof.
  cbn zeta. split; [vm_compute; reflexivity|]. do 2 eexists. split; [vm_compute; reflexivity|done].
Qed.
