(* ===== verification/NodeState.v ===== *)
(** * The nodes of the pool

    [build_node_state] of [libindy/src/services/pool/merkle_tree_factory.rs] with the node
    transactions of [types.rs], and [_get_nodes_and_remotes] and [_get_f]
    of [pool.rs]: the pool ledger is replayed into the current data of every node.

    MessagePack bytes become a [Value] by the parameter [rmp_from_slice]; the readers serde
    derives for the transaction structs are written out, for structs given as maps.  The
    iteration order of the [HashMap] of nodes is the parameter [node_iter]. *)

From stdpp Require Import base list strings numbers gmap.
From Stdlib Require Import ZArith Lia.
From S2P Require Import Prelude Json MerkleTree Trie External Verkey AuditProof StateProof Catchup Events.

Open Scope string_scope.

(** ** Node transactions *)
Record NodeData := mkNodeData {
  nd_alias : string;
  nd_client_ip : option string;
  nd_client_port : option Z;
  nd_node_ip : option string;
  nd_node_port : option Z;
  nd_services : option (list string);
  nd_blskey : option string;
  nd_blskey_pop : option string
}.

Record NodeTransactionV0 := mkNodeTransactionV0 {
  v0_data : NodeData;
  v0_dest : string;
  v0_identifier : string;
  v0_txn_id : option string;
  v0_verkey : option string;
  v0_txn_type : string
}.

Record TxnData := mkTxnData { td_data : NodeData; td_dest : string; td_verkey : option string }.
Record TxnMetadata := mkTxnMetadata { tm_req_id : option Z; tm_from : string }.
Record Txn := mkTxn {
  txn_type : string;
  txn_protocol_version : option Z;
  txn_data : TxnData;
  txn_metadata : TxnMetadata
}.
Record Metadata := mkMetadata {
  md_creation_time : option Z;
  md_seq_no : option Z;
  md_txn_id : option string
}.
Record ReqSignatureValue := mkReqSignatureValue { rsv_from : option string; rsv_value : option string }.
Record ReqSignature := mkReqSignature {
  rs_type : option string;
  rs_values : option (list ReqSignatureValue)
}.
Record NodeTransactionV1 := mkNodeTransactionV1 {
  nt_txn : Txn;
  nt_txn_metadata : Metadata;
  nt_req_signature : ReqSignature;
  nt_ver : string
}.

Inductive NodeTransaction :=
  | NTV0 (txn : NodeTransactionV0)
  | NTV1 (txn : NodeTransactionV1).

Definition nt_dest (t : NodeTransactionV1) : string := td_dest (txn_data (nt_txn t)).
Definition nt_data (t : NodeTransactionV1) : NodeData := td_data (txn_data (nt_txn t)).
Definition nt_verkey (t : NodeTransactionV1) : option string := td_verkey (txn_data (nt_txn t)).

(** ** Reading transactions

    A required field must be there; an optional one may be absent or null. *)
Definition required_field {A} (read : Value -> option A) (v : Value) (k : string) : option A :=
  match field v k with Some x => read x | None => None end.
Definition optional_field {A} (read : Value -> option A) (v : Value) (k : string) : option (option A) :=
  match field v k with
  | None | Some Null => Some None
  | Some x => match read x with Some a => Some (Some a) | None => None end
  end.
Definition read_int (lo hi : Z) (v : Value) : option Z :=
  match v with Number n => if (lo <=? n)%Z && (n <? hi)%Z then Some n else None | _ => None end.
Definition read_i32 : Value -> option Z := read_int (- 2 ^ 31) (2 ^ 31).
Definition read_i64 : Value -> option Z := read_int (- 2 ^ 63) (2 ^ 63).
Definition read_strings (v : Value) : option (list string) :=
  match v with Array l => mapM as_str l | _ => None end.

(** [string_or_number], with [#[serde(default)]]. *)
Definition string_or_number (v : Value) : option (option Z) :=
  match v with
  | VString s => match parse_u64 s with Some num => Some (Some num) | None => None end
  | Number _ => match as_u64 v with Some num => Some (Some num) | None => None end
  | Null => Some None
  | _ => None
  end.
Definition port_field (v : Value) (k : string) : option (option Z) :=
  match field v k with Some x => string_or_number x | None => Some None end.

Definition read_object (v : Value) : option Value :=
  match v with Object _ => Some v | _ => None end.

Definition read_node_data (v : Value) : option NodeData :=
  alias ← required_field as_str v "alias";
  client_ip ← optional_field as_str v "client_ip";
  client_port ← port_field v "client_port";
  node_ip ← optional_field as_str v "node_ip";
  node_port ← port_field v "node_port";
  services ← optional_field read_strings v "services";
  blskey ← optional_field as_str v "blskey";
  blskey_pop ← optional_field as_str v "blskey_pop";
  Some (mkNodeData alias client_ip client_port node_ip node_port services blskey blskey_pop).

Definition read_v0 (v : Value) : option NodeTransactionV0 :=
  data ← required_field read_node_data v "data";
  dest ← required_field as_str v "dest";
  identifier ← required_field as_str v "identifier";
  txn_id ← optional_field as_str v "txnId";
  verkey ← optional_field as_str v "verkey";
  txn_type ← required_field as_str v "type";
  Some (mkNodeTransactionV0 data dest identifier txn_id verkey txn_type).

Definition read_txn_data (v : Value) : option TxnData :=
  data ← required_field read_node_data v "data";
  dest ← required_field as_str v "dest";
  verkey ← optional_field as_str v "verkey";
  Some (mkTxnData data dest verkey).

Definition read_txn_metadata (v : Value) : option TxnMetadata :=
  req_id ← optional_field read_i64 v "reqId";
  from ← required_field as_str v "from";
  Some (mkTxnMetadata req_id from).

Definition read_txn (v : Value) : option Txn :=
  txn_type ← required_field as_str v "type";
  protocol_version ← optional_field read_i32 v "protocolVersion";
  data ← required_field read_txn_data v "data";
  metadata ← required_field read_txn_metadata v "metadata";
  Some (mkTxn txn_type protocol_version data metadata).

Definition read_metadata (v : Value) : option Metadata :=
  v ← read_object v;
  creation_time ← optional_field as_u64 v "creationTime";
  seq_no ← optional_field read_i32 v "seqNo";
  txn_id ← optional_field as_str v "txnId";
  Some (mkMetadata creation_time seq_no txn_id).

Definition read_signature_value (v : Value) : option ReqSignatureValue :=
  v ← read_object v;
  from ← optional_field as_str v "from";
  value ← optional_field as_str v "value";
  Some (mkReqSignatureValue from value).

Definition read_req_signature (v : Value) : option ReqSignature :=
  v ← read_object v;
  type_ ← optional_field as_str v "type";
  values ← optional_field (fun x => l ← as_array x; mapM read_signature_value l) v "values";
  Some (mkReqSignature type_ values).

Definition read_v1 (v : Value) : option NodeTransactionV1 :=
  txn ← required_field read_txn v "txn";
  txn_metadata ← required_field read_metadata v "txnMetadata";
  req_signature ← required_field read_req_signature v "reqSignature";
  ver ← required_field as_str v "ver";
  Some (mkNodeTransactionV1 txn txn_metadata req_signature ver).

(** [NodeTransaction], untagged: the first variant that reads. *)
Definition read_node_transaction (v : Value) : option NodeTransaction :=
  match read_v0 v with
  | Some t => Some (NTV0 t)
  | None => NTV1 <$> read_v1 v
  end.

(** [From<NodeTransactionV0> for NodeTransactionV1]. *)
Definition v1_from_v0 (t : NodeTransactionV0) : NodeTransactionV1 :=
  mkNodeTransactionV1
    (mkTxn (v0_txn_type t) None (mkTxnData (v0_data t) (v0_dest t) (v0_verkey t))
       (mkTxnMetadata None (v0_identifier t)))
    (mkMetadata None None (v0_txn_id t))
    (mkReqSignature None None) "1".

Section Nodes.
Context {C : Codec} {B : BlsOps}.
Context (rmp_from_slice : bytes -> option Value).
Context (vk_to_curve25519 : bytes -> option bytes) (ver_key_from_bytes : bytes -> option VerKey).
Context (protocol_version : Z).

(** [x.or(y)]: the new value when there is one. *)
Definition updated {A} (new old : option A) : option A := match new with Some _ => new | None => old end.

Definition update_data (old new : NodeData) : NodeData :=
  mkNodeData (nd_alias old)
    (updated (nd_client_ip new) (nd_client_ip old)) (updated (nd_client_port new) (nd_client_port old))
    (updated (nd_node_ip new) (nd_node_ip old)) (updated (nd_node_port new) (nd_node_port old))
    (updated (nd_services new) (nd_services old)) (updated (nd_blskey new) (nd_blskey old))
    (updated (nd_blskey_pop new) (nd_blskey_pop old)).

(** [NodeTransactionV1::update]. *)
Definition update (self other : NodeTransactionV1) : outcome NodeTransactionV1 :=
  if negb (String.eqb (nt_dest self) (nt_dest other)) then Panic
  else if negb (String.eqb (nd_alias (nt_data self)) (nd_alias (nt_data other))) then Panic
  else
    let data := update_data (nt_data self) (nt_data other) in
    let? verkey :=
      match nt_verkey other with
      | Some v => let? full := build_full_verkey (nt_dest self) (Some v) in Ok (Some full)
      | None => Ok (nt_verkey self)
      end in
    let t := nt_txn self in
    Ok (mkNodeTransactionV1
          (mkTxn (txn_type t) (txn_protocol_version t) (mkTxnData data (nt_dest self) verkey) (txn_metadata t))
          (nt_txn_metadata self) (nt_req_signature self) (nt_ver self)).

(** One transaction of the ledger, in the version the library is set to. *)
Definition decode_txn (gen_txn : bytes) : outcome NodeTransactionV1 :=
  match (v ← rmp_from_slice gen_txn; read_node_transaction v) with
  | None => Err (err_msg InvalidState "MerkleTree contains invalid item")
  | Some (NTV0 txn) =>
      if negb (protocol_version =? 1)%Z
      then Err (err_msg PoolIncompatibleProtocolVersion "Pool Genesis Transactions are of version 1.3")
      else Ok (v1_from_v0 txn)
  | Some (NTV1 txn) =>
      if negb (protocol_version =? 2)%Z
      then Err (err_msg PoolIncompatibleProtocolVersion "Pool Genesis Transactions are of version 1.4")
      else Ok txn
  end.

(** The body of the loop, and [build_node_state]. *)
Definition apply_txn (gen_tnxs : gmap string NodeTransactionV1) (gen_txn : bytes)
  : outcome (gmap string NodeTransactionV1) :=
  let? gen_txn := decode_txn gen_txn in
  match gen_tnxs !! nt_dest gen_txn with
  | Some old => let? new := update old gen_txn in Ok (<[nt_dest gen_txn := new]> gen_tnxs)
  | None => Ok (<[nt_dest gen_txn := gen_txn]> gen_tnxs)
  end.
Fixpoint build_loop (gen_tnxs : gmap string NodeTransactionV1) (txns : list bytes)
  : outcome (gmap string NodeTransactionV1) :=
  match txns with
  | [] => Ok gen_tnxs
  | t :: txns' => let? gen_tnxs := apply_txn gen_tnxs t in build_loop gen_tnxs txns'
  end.
Definition build_node_state (merkle_tree : MerkleTree) : outcome (gmap string NodeTransactionV1) :=
  build_loop ∅ (tree_iter (root merkle_tree)).

(** ** Nodes and their addresses *)
Context (node_iter : gmap string NodeTransactionV1 -> list (string * NodeTransactionV1)).

Definition invalid_dest : IndyError :=
  err_msg InvalidStructure "Invalid field dest in genesis transaction".
Definition invalid_blskey : IndyError :=
  err_msg InvalidStructure "Invalid field blskey in genesis transaction".

Definition or_error {A} (x : option A) (e : IndyError) : outcome A :=
  match x with Some a => Ok a | None => Err e end.

(** The closure mapped over the nodes. *)
Definition node_and_remote (txn : NodeTransactionV1) : outcome (string * option VerKey * RemoteNode) :=
  let data := nt_data txn in
  let? node_verkey := or_error (from_base58 (nt_dest txn)) invalid_dest in
  let? node_verkey := or_error (vk_to_curve25519 node_verkey) invalid_dest in
  if negb (existsb (String.eqb "VALIDATOR") (default [] (nd_services data)))
  then Err (err_msg InvalidState "Node is not a validator")
  else
    let? address :=
      match nd_client_ip data, nd_client_port data with
      | Some client_ip, Some client_port => Ok ("tcp://" +:+ client_ip +:+ ":" +:+ u64_to_string client_port)
      | _, _ => Err (err_msg InvalidState "Client address not found")
      end in
    let remote := mkRemoteNode (nd_alias data) node_verkey address false in
    let? verkey :=
      match nd_blskey data with
      | Some blskey =>
          let? key := or_error (from_base58 blskey) invalid_blskey in
          let? key := or_error (ver_key_from_bytes key) invalid_blskey in
          Ok (Some key)
      | None => Ok None
      end in
    Ok (nd_alias data, verkey, remote).

(** [HashMap::insert]. *)
Fixpoint nodes_insert (alias : string) (verkey : option VerKey) (nodes : Nodes) : Nodes :=
  match nodes with
  | [] => [(alias, verkey)]
  | (a, k) :: nodes' =>
      if String.eqb a alias then (a, verkey) :: nodes' else (a, k) :: nodes_insert alias verkey nodes'
  end.

(** The fold that keeps the good nodes. *)
Fixpoint collect_nodes (txns : list NodeTransactionV1) (acc : Nodes * list RemoteNode)
  : outcome (Nodes * list RemoteNode) :=
  match txns with
  | [] => Ok acc
  | txn :: txns' =>
      match node_and_remote txn with
      | Ok (alias, verkey, remote) =>
          collect_nodes txns' (nodes_insert alias verkey acc.1, (acc.2 ++ [remote])%list)
      | Err _ => collect_nodes txns' acc
      | Panic => Panic
      end
  end.

(** [_get_nodes_and_remotes]. *)
Definition _get_nodes_and_remotes (merkle : MerkleTree) : outcome (Nodes * list RemoteNode) :=
  let? nodes := build_node_state merkle in
  collect_nodes (node_iter nodes).*2 ([], []).

End Nodes.

(** [_get_f]. *)
Definition _get_f (cnt : nat) : nat := if (cnt <? 4)%nat then 0 else ((cnt - 1) / 3)%nat.

(** ** Replaying the ledger *)

(** The transactions of one node, and the last value they give for a field. *)
Definition own_txns (dest : string) (txns : list NodeTransactionV1) : list NodeTransactionV1 :=
  filter (fun t => nt_dest t = dest) txns.
Definition last_given {A} (f : NodeData -> option A) (txns : list NodeTransactionV1) : option A :=
  last (omap (fun t => f (nt_data t)) txns).

Lemma last_given_snoc {A} (f : NodeData -> option A) txns t :
  last_given f (txns ++ [t])%list = updated (f (nt_data t)) (last_given f txns).
Proof.
  unfold last_given. rewrite omap_app. cbn [omap list_omap].
  destruct (f (nt_data t)) as [a|]; cbn [updated]; [by rewrite last_snoc|by rewrite app_nil_r].
Qed.

Lemma own_snoc dest txns t :
  own_txns dest (txns ++ [t])%list =
  if decide (nt_dest t = dest) then (own_txns dest txns ++ [t])%list else own_txns dest txns.
Proof.
  unfold own_txns. rewrite filter_app. cbn [filter list_filter].
  destruct (decide (nt_dest t = dest)); [done|by rewrite app_nil_r].
Qed.

(** The data of a node are those its transactions gave last; all of them have its
    alias. *)
Definition replayed (n : NodeTransactionV1) (own : list NodeTransactionV1) : Prop :=
  let d := nt_data n in
  Forall (fun t => nd_alias (nt_data t) = nd_alias d) own /\
  nd_client_ip d = last_given nd_client_ip own /\ nd_client_port d = last_given nd_client_port own /\
  nd_node_ip d = last_given nd_node_ip own /\ nd_node_port d = last_given nd_node_port own /\
  nd_services d = last_given nd_services own /\ nd_blskey d = last_given nd_blskey own /\
  nd_blskey_pop d = last_given nd_blskey_pop own.

Definition replay_of (m : gmap string NodeTransactionV1) (txns : list NodeTransactionV1) : Prop :=
  forall dest,
    match m !! dest with
    | Some n => own_txns dest txns <> [] /\ nt_dest n = dest /\ replayed n (own_txns dest txns)
    | None => own_txns dest txns = []
    end.

Section Replay.
Context {C : Codec} {B : BlsOps} (rmp_from_slice : bytes -> option Value) (protocol_version : Z).

Lemma replayed_first t : replayed t [t].
Proof.
  assert (H : forall A (f : NodeData -> option A), f (nt_data t) = last_given f [t])
    by (intros A f; unfold last_given; cbn; by destruct (f (nt_data t))).
  unfold replayed. repeat split; try apply H. by repeat constructor.
Qed.

Lemma update_replayed old t new own :
  replayed old own -> update old t = Ok new -> nt_dest new = nt_dest old /\ replayed new (own ++ [t])%list.
Proof.
  intros (Ha & H1 & H2 & H3 & H4 & H5 & H6 & H7). unfold update.
  destruct (String.eqb (nt_dest old) (nt_dest t)) eqn:Ed; cbn [negb]; [|done].
  destruct (String.eqb (nd_alias (nt_data old)) (nd_alias (nt_data t))) eqn:Ea; cbn [negb]; [|done].
  apply String.eqb_eq in Ea. intros (vk & _ & [= <-])%obind_ok. split; [done|].
  unfold replayed. cbn [nt_data nt_txn txn_data td_data update_data nd_alias nd_client_ip nd_client_port
    nd_node_ip nd_node_port nd_services nd_blskey nd_blskey_pop].
  rewrite !last_given_snoc, <-H1, <-H2, <-H3, <-H4, <-H5, <-H6, <-H7. repeat split.
  apply Forall_app. split; [done|]. by repeat constructor.
Qed.

Lemma apply_txn_replay m txns b m' :
  replay_of m txns -> apply_txn rmp_from_slice protocol_version m b = Ok m' ->
  exists t, decode_txn rmp_from_slice protocol_version b = Ok t /\ replay_of m' (txns ++ [t])%list.
Proof.
  intros Hm (t & Ht & E)%obind_ok. exists t. split; [done|].
  pose proof (Hm (nt_dest t)) as Hd. destruct (m !! nt_dest t) as [old|] eqn:El.
  - apply obind_ok in E as (new & Hu & [= <-]). destruct Hd as (Hne & Hod & Hr).
    destruct (update_replayed old t new _ Hr Hu) as [Hnd Hr'].
    intros dest. rewrite own_snoc. destruct (decide (nt_dest t = dest)) as [<-|Hneq].
    + rewrite lookup_insert_eq. split; [by destruct (own_txns _ _)|]. split; [congruence|done].
    + rewrite lookup_insert_ne by done. apply Hm.
  - injection E as <-. intros dest. rewrite own_snoc. destruct (decide (nt_dest t = dest)) as [<-|Hneq].
    + rewrite lookup_insert_eq, Hd. split; [done|]. split; [done|]. apply replayed_first.
    + rewrite lookup_insert_ne by done. apply Hm.
Qed.

Lemma build_loop_replay bs m txns m' :
  replay_of m txns -> build_loop rmp_from_slice protocol_version m bs = Ok m' ->
  exists new, Forall2 (fun b t => decode_txn rmp_from_slice protocol_version b = Ok t) bs new /\
    replay_of m' (txns ++ new)%list.
Proof.
  revert m txns. induction bs as [|b bs IH]; intros m txns Hm; cbn [build_loop].
  { intros [= <-]. exists []. by rewrite app_nil_r. }
  intros (m1 & H1 & H2)%obind_ok. destruct (apply_txn_replay m txns b m1 Hm H1) as (t & Ht & Hr).
  destruct (IH m1 _ Hr H2) as (new & Hn & Hr'). exists (t :: new). split; [by constructor|].
  by rewrite <-app_assoc in Hr'.
Qed.

(** The pool's view of its nodes is the ledger replayed: every transaction of the
    tree decodes, a node is known exactly when a transaction names it, and each field
    of its data is the one its transactions gave last, all under one alias. *)
Theorem node_state_replays_ledger mt m :
  build_node_state rmp_from_slice protocol_version mt = Ok m ->
  exists txns,
    Forall2 (fun b t => decode_txn rmp_from_slice protocol_version b = Ok t) (tree_iter (root mt)) txns /\
    replay_of m txns.
Proof.
  intros H. destruct (build_loop_replay _ ∅ [] m ltac:(intros dest; by rewrite lookup_empty) H) as (new & ? & ?).
  by exists new.
Qed.
End Replay.

(** ** The nodes requests are sent to *)
Section Collect.
Context {C : Codec} {B : BlsOps} (rmp_from_slice : bytes -> option Value) (protocol_version : Z).
Context (vk_to_curve25519 : bytes -> option bytes) (ver_key_from_bytes : bytes -> option VerKey).

Lemma nodes_insert_elem a (k : option VerKey) nodes x :
  x ∈ nodes_insert a k nodes -> x = (a, k) \/ x ∈ nodes.
Proof.
  induction nodes as [|[b kb] nodes IH]; cbn [nodes_insert].
  - intros ->%list_elem_of_singleton. by left.
  - destruct (String.eqb b a) eqn:E.
    + apply String.eqb_eq in E as ->. intros [->|H]%elem_of_cons; [by left|right; by constructor].
    + intros [->|H]%elem_of_cons; [right; constructor|].
      destruct (IH H) as [->|H']; [by left|right; by constructor].
Qed.

Lemma nodes_insert_keys a (k : option VerKey) nodes b :
  b ∈ (nodes_insert a k nodes).*1 <-> b = a \/ b ∈ nodes.*1.
Proof.
  induction nodes as [|[c kc] nodes IH]; cbn [nodes_insert].
  - cbn. rewrite !elem_of_cons. tauto.
  - destruct (String.eqb c a) eqn:E; cbn [fmap list_fmap fst]; rewrite !elem_of_cons.
    + apply String.eqb_eq in E as ->. tauto.
    + cbn [fmap list_fmap] in IH. rewrite IH. tauto.
Qed.

Lemma nodes_insert_NoDup a (k : option VerKey) nodes : NoDup nodes.*1 -> NoDup (nodes_insert a k nodes).*1.
Proof.
  induction nodes as [|[c kc] nodes IH]; cbn [nodes_insert]; [repeat constructor; set_solver|].
  cbn [fmap list_fmap fst]. intros [Hc Hn]%NoDup_cons. destruct (String.eqb c a) eqn:E; cbn [fmap list_fmap fst].
  - by constructor.
  - constructor; [|by apply IH]. intros [->|H]%nodes_insert_keys; [by rewrite String.eqb_refl in E|done].
Qed.

(** What is kept of a list of nodes. *)
Definition kept_node (txns : list NodeTransactionV1) (a : string) (k : option VerKey) (r : RemoteNode) : Prop :=
  exists txn, txn ∈ txns /\ node_and_remote vk_to_curve25519 ver_key_from_bytes txn = Ok (a, k, r).

Lemma kept_cons t txns a k r :
  kept_node (t :: txns) a k r <->
  node_and_remote vk_to_curve25519 ver_key_from_bytes t = Ok (a, k, r) \/ kept_node txns a k r.
Proof.
  unfold kept_node. split.
  - intros (t' & [->|Hin]%elem_of_cons & Ht'); [by left|right; eauto].
  - intros [H|(t' & Hin & Ht')]; [exists t|exists t']; (split; [by constructor|done]).
Qed.

Lemma collect_nodes_spec txns nodes remotes nodes' remotes' :
  collect_nodes vk_to_curve25519 ver_key_from_bytes txns (nodes, remotes) = Ok (nodes', remotes') ->
  NoDup nodes.*1 ->
  NoDup nodes'.*1 /\
  (forall a, a ∈ nodes'.*1 <-> a ∈ nodes.*1 \/ exists k r, kept_node txns a k r) /\
  (forall a k, (a, k) ∈ nodes' -> (a, k) ∈ nodes \/ exists r, kept_node txns a k r) /\
  (forall r, r ∈ remotes' <-> r ∈ remotes \/ exists a k, kept_node txns a k r).
Proof.
  revert nodes remotes. induction txns as [|t txns IH]; intros nodes remotes; cbn [collect_nodes].
  { assert (Hno : forall a k r, ~ kept_node [] a k r) by (intros a k r (? & []%not_elem_of_nil & _)).
    intros [= <- <-] Hn. split; [done|]. split; [|split].
    - intros a. split; [by left|]. intros [H|(k & r & []%Hno)]; done.
    - intros a k H. by left.
    - intros r. split; [by left|]. intros [H|(a & k & []%Hno)]; done. }
  destruct (node_and_remote _ _ t) as [[[a k] r]|e|] eqn:Et; [| |done]; cbn [fst snd]; intros E Hn.
  - destruct (IH _ _ E) as (H1 & H2 & H3 & H4); [by apply nodes_insert_NoDup|]. clear E IH.
    setoid_rewrite kept_cons. rewrite Et. split; [done|]. split; [|split].
    + intros b. rewrite H2, nodes_insert_keys. split.
      * intros [[->|H]|(k' & r' & H)]; [right; by exists k, r; left|by left|right; exists k', r'; by right].
      * intros [H|(k' & r' & [[= <- _ _]|H])]; [left; by right|left; by left|right; by exists k', r'].
    + intros b kb [H|(r' & H)]%H3; [|right; exists r'; by right].
      apply nodes_insert_elem in H as [[= -> ->]|H]; [right; exists r; by left|by left].
    + intros x. rewrite H4, elem_of_app, list_elem_of_singleton. split.
      * intros [[H| ->]|(b & kb & H)]; [by left|right; exists a, k; by left|right; exists b, kb; by right].
      * intros [H|(b & kb & [[= _ _ <-]|H])]; [left; by left|left; by right|right; by exists b, kb].
  - destruct (IH _ _ E Hn) as (H1 & H2 & H3 & H4). clear E IH.
    assert (Hk : forall a k r, kept_node (t :: txns) a k r <-> kept_node txns a k r)
      by (intros a k r; rewrite kept_cons, Et; naive_solver).
    setoid_rewrite Hk. auto.
Qed.

Lemma node_and_remote_ok txn a k r :
  node_and_remote vk_to_curve25519 ver_key_from_bytes txn = Ok (a, k, r) ->
  a = nd_alias (nt_data txn) /\ rn_name r = a /\
  "VALIDATOR" ∈ default [] (nd_services (nt_data txn)) /\
  is_Some (nd_client_ip (nt_data txn)) /\ is_Some (nd_client_port (nt_data txn)).
Proof.
  unfold node_and_remote. intros (v1 & _ & (v2 & _ & E)%obind_ok)%obind_ok.
  destruct (existsb _ _) eqn:Es; cbn [negb] in E; [|done].
  apply obind_ok in E as (addr & Ea & (vk & _ & [= <- <- <-])%obind_ok). split; [done|]. split; [done|].
  apply existsb_exists in Es as (s & Hs & ->%String.eqb_eq). split; [by apply list_elem_of_In|].
  destruct (nd_client_ip _), (nd_client_port _); try done; split; eauto.
Qed.
End Collect.

(** The nodes requests go to: no name occurs twice, the verification keys and the
    addresses are of the same nodes, and each is the alias of a node of the replayed
    ledger that is a validator with a client address. *)
Theorem pool_nodes_are_validators (C : Codec) (B : BlsOps) rmp_from_slice vk_to_curve25519
    ver_key_from_bytes protocol_version node_iter mt nodes remotes :
  (forall m, node_iter m ≡ₚ map_to_list m) ->
  _get_nodes_and_remotes rmp_from_slice vk_to_curve25519 ver_key_from_bytes protocol_version node_iter mt =
    Ok (nodes, remotes) ->
  exists m, build_node_state rmp_from_slice protocol_version mt = Ok m /\
    NoDup nodes.*1 /\
    (forall a, a ∈ nodes.*1 <-> a ∈ map rn_name remotes) /\
    (forall a, a ∈ nodes.*1 -> exists dest n, m !! dest = Some n /\ nd_alias (nt_data n) = a /\
       "VALIDATOR" ∈ default [] (nd_services (nt_data n)) /\
       is_Some (nd_client_ip (nt_data n)) /\ is_Some (nd_client_port (nt_data n))).
Proof.
  intros Hi (m & Hm & E)%obind_ok. exists m. split; [done|].
  destruct (collect_nodes_spec _ _ _ _ _ _ _ E ltac:(constructor)) as (H1 & H2 & _ & H4).
  split; [done|]. split.
  - intros a. rewrite H2. split.
    + intros [[]%not_elem_of_nil|(k & r & Hk)]. apply list_elem_of_fmap. exists r. split; [|apply H4; right; eauto].
      destruct Hk as (n & _ & Hn). by apply node_and_remote_ok in Hn as (_ & <- & _).
    + intros (r & -> & [[]%not_elem_of_nil|(b & k & Hk)]%H4)%list_elem_of_fmap. right. exists k, r.
      destruct Hk as (n & Hin & Hn). exists n. by apply node_and_remote_ok in Hn as Hn'; destruct Hn' as (_ & -> & _).
  - intros a [[]%not_elem_of_nil|(k & r & n & Hin & Hn)]%H2.
    apply list_elem_of_fmap in Hin as ([dest n'] & -> & Hin). rewrite Hi in Hin.
    apply elem_of_map_to_list in Hin. apply node_and_remote_ok in Hn as (-> & _ & ? & ? & ?).
    by exists dest, n'.
Qed.

(** C39: The number of faulty nodes a pool of [n] nodes is taken to tolerate is the
    largest [f] with [3 f < n]. *)
Theorem get_f_is_maximal n : 1 <= n -> 3 * _get_f n < n /\ n <= 3 * (_get_f n + 1).
Proof.
  intros Hn. unfold _get_f. destruct (Nat.ltb_spec n 4); [lia|].
  pose proof (Nat.div_mod (n - 1) 3 ltac:(lia)). pose proof (Nat.mod_upper_bound (n - 1) 3 ltac:(lia)). lia.
Qed.

(** ** A concrete ledger *)
Definition demo_node_txn (alias dest ip : string) (port : Z) (services : list Value) : Value :=
  Object [("reqSignature", Object []);
          ("txn", Object [("data", Object [("data", Object [("alias", VString alias); ("client_ip", VString ip);
                                                            ("client_port", Number port);
                                                            ("services", Array services)]);
                                           ("dest", VString dest)]);
                          ("metadata", Object [("from", VString "steward")]);
                          ("type", VString "0")]);
          ("txnMetadata", Object []);
          ("ver", VString "1")].

(** Two validators; the second is moved and then the first demoted. *)
Definition demo_node_ledger (b : bytes) : option Value :=
  match b with
  | [1%Z] => Some (demo_node_txn "Node1" "0" "10.0.0.1" 9701 [VString "VALIDATOR"])
  | [2%Z] => Some (demo_node_txn "Node2" "1" "10.0.0.2" 9702 [VString "VALIDATOR"])
  | [3%Z] => Some (demo_node_txn "Node2" "1" "10.0.0.3" 9703 [VString "VALIDATOR"])
  | [4%Z] => Some (demo_node_txn "Node1" "0" "10.0.0.1" 9701 [])
  | _ => None
  end.
Definition demo_node_codec : Codec := demo_codec [[7]; [8]]%Z [].
Definition demo_node_tree : MerkleTree := mkMerkleTree (ref_tree demo_hash [[1]; [2]; [3]; [4]]%Z) 2 4 3.

Definition demo_nodes_of (mt : MerkleTree) :=
  _get_nodes_and_remotes (C := demo_node_codec) (B := demo_bls) demo_node_ledger Some (fun _ => None) 2
    map_to_list mt.

Lemma node_state_replays_ledger_witness :
  exists m txns,
    Forall2 (fun b t => decode_txn demo_node_ledger 2 b = Ok t) (tree_iter (root demo_node_tree)) txns /\
    replay_of m txns /\ nd_client_ip <$> (nt_data <$> m !! "1") = Some (Some "10.0.0.3").
Proof.
  destruct (build_node_state (C := demo_node_codec) demo_node_ledger 2 demo_node_tree) as [m| |] eqn:E;
    [|by vm_compute in E..].
  destruct (node_state_replays_ledger (C := demo_node_codec) demo_node_ledger 2 demo_node_tree m E)
    as (txns & H1 & H2).
  exists m, txns. split; [done|]. split; [done|]. vm_compute in E. injection E as <-. reflexivity.
Defined.

Lemma pool_nodes_are_validators_witness :
  exists remotes m, demo_nodes_of demo_node_tree = Ok ([("Node2", None)], remotes) /\
    build_node_state (C := demo_node_codec) demo_node_ledger 2 demo_node_tree = Ok m /\
    (forall a, a ∈ ["Node2"] <-> a ∈ map rn_name remotes).
Proof.
  assert (E : exists r, demo_nodes_of demo_node_tree = Ok ([("Node2", None)], r))
    by (eexists; vm_compute; reflexivity).
  destruct E as [r E].
  destruct (pool_nodes_are_validators demo_node_codec demo_bls demo_node_ledger Some (fun _ => None) 2
              map_to_list demo_node_tree [("Node2", None)] r ltac:(done) E) as (m & Hm & _ & Hn & _).
  exists r, m. by split.
Defined.

Lemma get_f_is_maximal_witness : 3 * _get_f 4 < 4 /\ 4 <= 3 * (_get_f 4 + 1).
Proof. apply get_f_is_maximal. lia. Defined.
