(* ===== verification/Pool.v ===== *)
(** * The pool

    [libindy/src/services/pool/pool.rs]: the state machine of an open pool and the event
    loop of its thread.  The trait [RequestHandler] is the type class [RequestHandlerOps];
    [RequestHandlerLaws] states what the pool relies on, and the pool is verified against
    it.  [RequestHandlerImpl] is its instance.

    A step is a computation in [P]: it threads the pool directory and emits effects, the
    calls of the networker and the acknowledgements of commands, in order.  The iteration
    order of the [HashMap] of request handlers is the parameter [handlers_iter]. *)

From stdpp Require Import base list strings numbers gmap.
From Stdlib Require Import ZArith Lia.
From S2P Require Import Prelude Json MerkleTree Trie External AuditProof StateProof ReplyParser.
From S2P Require Import LedgerCache Catchup Events RequestHandler NodeState.

Open Scope string_scope.

(** ** The interface of request handlers *)

(** [trait RequestHandler]; the networker and the directory of the pool are the effects
    and the files of a call. *)
Class RequestHandlerOps (B : BlsOps) := {
  R : Type;
  rh_new : nat -> list Z -> Nodes -> Z -> Z -> Z -> R;
  rh_process_event : R -> PoolFiles -> option RequestEvent ->
    outcome (R * option PoolEvent * list Effect) * PoolFiles;
  rh_is_terminal : R -> bool
}.
Arguments R {B} _.

(** The event starts a request of a command. *)
Definition is_request (re : RequestEvent) : bool :=
  match re with
  | CustomSingleRequest _ _ _ _ | CustomConsensusRequest _ _ | CustomFullRequest _ _ _ _ => true
  | _ => false
  end.

(** The commands acknowledged by effects. *)
Definition acked (effs : list Effect) : list Z := (acks effs).*1.

(** What a handler promises: [rh_pending] are the commands it still owes an answer.  A
    step answers some of them and owes the others; a terminated or finished handler owes
    nothing. *)
Class RequestHandlerLaws {B : BlsOps} (H : RequestHandlerOps B) := {
  rh_pending : R H -> list Z;
  rh_inv : R H -> Prop;
  rh_new_idle f nodes t e n : rh_inv (rh_new f [] nodes t e n) /\ rh_pending (rh_new f [] nodes t e n) = [];
  rh_step r files re r' ev effs files' :
    rh_inv r -> rh_process_event r files re = (Ok (r', ev, effs), files') ->
    rh_inv r' /\ rh_pending r ≡ₚ (acked effs ++ rh_pending r')%list;
  rh_submit f ids nodes t e n files re r' ev effs files' :
    is_request re = true ->
    rh_process_event (rh_new f ids nodes t e n) files (Some re) = (Ok (r', ev, effs), files') ->
    rh_inv r' /\ ids ≡ₚ (acked effs ++ rh_pending r')%list;
  rh_terminate r files r' ev effs files' :
    rh_inv r -> rh_process_event r files (Some RTerminate) = (Ok (r', ev, effs), files') ->
    rh_pending r' = [];
  rh_finished r : rh_inv r -> rh_is_terminal r = true -> rh_pending r = []
}.

(** ** Effects *)
Inductive PoolEffect :=
  | Req (e : Effect)
  | OpenAck (cmd_id id : Z) (res : option IndyError)
  | RefreshAck (cmd_id : Z) (res : option IndyError)
  | CloseAck (cmd_id : Z).

(** Computations on the directory that emit effects. *)
Definition P (A : Type) : Type := PoolFiles -> outcome (A * list PoolEffect) * PoolFiles.

Definition pret {A} (a : A) : P A := fun files => (Ok (a, []), files).
Definition pbind {A A'} (m : P A) (k : A -> P A') : P A' := fun files =>
  match m files with
  | (Ok (a, e1), files) =>
      match k a files with
      | (Ok (b, e2), files) => (Ok (b, (e1 ++ e2)%list), files)
      | (Err e, files) => (Err e, files)
      | (Panic, files) => (Panic, files)
      end
  | (Err e, files) => (Err e, files)
  | (Panic, files) => (Panic, files)
  end.
Notation "'do' x <- m ; k" := (pbind m (fun x => k))
  (at level 20, x pattern, m at level 100, k at level 200) : indy_scope.

Definition emit (effs : list PoolEffect) : P unit := fun files => (Ok (tt, effs), files).
Definition net (e : NetworkerEvent) : P unit := emit [Req (Net e)].

(** A call whose [Err] is a value, and whose panic ends the thread. *)
Definition attempt {A} (f : PoolFiles -> outcome A) : P (A + IndyError) := fun files =>
  match f files with
  | Ok a => (Ok (inl a, []), files)
  | Err e => (Ok (inr e, []), files)
  | Panic => (Panic, files)
  end.
Definition lift {A} (x : outcome A) : P A := fun files =>
  match x with Ok a => (Ok (a, []), files) | Err e => (Err e, files) | Panic => (Panic, files) end.

(** [merkle_tree_factory::drop_cache]: whether the cache was dropped. *)
Definition drop_cache_files : P bool := fun files =>
  match drop_cache files with Ok files' => (Ok (true, []), files') | _ => (Ok (false, []), files) end.

Definition _close_pool_ack (cmd_id : Z) : P unit := emit [CloseAck cmd_id].
Definition _send_submit_ack (cmd_id : Z) (res : string + IndyError) : P unit :=
  emit [Req (SubmitAck cmd_id res)].
Definition _send_open_refresh_ack (cmd_id id : Z) (is_refresh : bool) (res : option IndyError) : P unit :=
  emit [if is_refresh then RefreshAck cmd_id res else OpenAck cmd_id id res].

Section Pool.
Context {C : Codec} {B : BlsOps} {H : RequestHandlerOps B}.
Context (message_from_str : string -> option Message).
Context (get_sp_parser : string -> option (string -> option (list ParsedSP))).
Context (rmp_from_slice : bytes -> option Value).
Context (vk_to_curve25519 : bytes -> option bytes) (ver_key_from_bytes : bytes -> option VerKey).
Context (node_iter : gmap string NodeTransactionV1 -> list (string * NodeTransactionV1)).
Context (protocol_version : Z).
Context (handlers_iter : gmap string (R H) -> list (string * R H)).

(** ** State *)
Inductive PoolState :=
  | Initialization
  | GettingCatchupTarget (request_handler : R H) (cmd_id : Z) (refresh : bool)
  | Active (request_handlers : gmap string (R H)) (nodes : Nodes)
  | SyncCatchup (request_handler : R H) (cmd_id : Z) (refresh : bool)
  | Terminated
  | Closed.

Record PoolSM := mkPoolSM {
  pool_id : Z;
  pool_timeout : Z;
  pool_extended_timeout : Z;
  pool_number_read_nodes : Z;
  pool_state : PoolState
}.

(** [PoolSM::new]. *)
Definition pool_new (id timeout extended_timeout number_read_nodes : Z) : PoolSM :=
  mkPoolSM id timeout extended_timeout number_read_nodes Initialization.
(** [PoolSM::step]. *)
Definition pool_step (sm : PoolSM) (st : PoolState) : PoolSM :=
  mkPoolSM (pool_id sm) (pool_timeout sm) (pool_extended_timeout sm) (pool_number_read_nodes sm) st.

(** ** Helpers *)
Definition nodes_and_remotes (merkle : MerkleTree) : outcome (Nodes * list RemoteNode) :=
  _get_nodes_and_remotes rmp_from_slice vk_to_curve25519 ver_key_from_bytes protocol_version node_iter merkle.

Definition handle (r : R H) (re : option RequestEvent) : P (R H * option PoolEvent) := fun files =>
  match rh_process_event r files re with
  | (Ok (r, ev, effs), files) => (Ok (r, ev, map Req effs), files)
  | (Err e, files) => (Err e, files)
  | (Panic, files) => (Panic, files)
  end.

(** [R::new] with the settings of the pool. *)
Definition new_handler (sm : PoolSM) (cmd_ids : list Z) (nodes : Nodes) : R H :=
  rh_new (_get_f (length nodes)) cmd_ids nodes (pool_timeout sm) (pool_extended_timeout sm)
    (pool_number_read_nodes sm).

(** [pe.into()]. *)
Definition into (pe : PoolEvent) : P (option RequestEvent) :=
  lift (into_request_event message_from_str get_sp_parser (protocol_version =? 1)%Z pe).

(** [_ledger_status]. *)
Definition _ledger_status (merkle : MerkleTree) : LedgerStatus :=
  mkLedgerStatus (count merkle) (to_base58 (root_hash merkle)) 0 None None
    (if (1 <? protocol_version)%Z then Some protocol_version else None).

(** [_get_request_handler_with_ledger_status_sent]: first the tree and its nodes. *)
Definition tree_and_nodes : P (MerkleTree * (Nodes * list RemoteNode) + IndyError) :=
  do merkle <- attempt create;
  match merkle with
  | inr e => pret (inr e)
  | inl merkle =>
      do nodes <- attempt (fun _ => nodes_and_remotes merkle);
      match nodes with
      | inl nodes => pret (inl (merkle, nodes))
      | inr err =>
          do dropped <- drop_cache_files;
          if dropped : bool then
            do merkle <- attempt create;
            match merkle with
            | inr e => pret (inr e)
            | inl merkle =>
                do nodes <- attempt (fun _ => nodes_and_remotes merkle);
                pret (match nodes with inl nodes => inl (merkle, nodes) | inr e => inr e end)
            end
          else pret (inr err)
      end
  end.

Definition _get_request_handler_with_ledger_status_sent (sm : PoolSM) : P (R H + IndyError) :=
  do found <- tree_and_nodes;
  match found with
  | inr e => pret (inr e)
  | inl (merkle, (nodes, remotes)) =>
      do _ <- net (NodesStateUpdated remotes);
      do (request_handler, _) <- handle (new_handler sm [] nodes)
        (Some (RLedgerStatus (_ledger_status merkle) None (Some merkle)));
      pret (inl request_handler)
  end.

(** [From<..> for ClosedState] terminates the handlers. *)
Fixpoint terminate_all (handlers : list (string * R H)) : P unit :=
  match handlers with
  | [] => pret tt
  | (_, rh) :: handlers' => do _ <- handle rh (Some RTerminate); terminate_all handlers'
  end.

(** ** Events *)

(** The [Initialization] arm. *)
Definition handle_init (sm : PoolSM) (pe : PoolEvent) : P PoolState :=
  match pe with
  | CheckCache cmd_id =>
      do rh <- _get_request_handler_with_ledger_status_sent sm;
      match rh with
      | inl rh => pret (GettingCatchupTarget rh cmd_id false)
      | inr err => do _ <- emit [OpenAck cmd_id (pool_id sm) (Some err)]; pret Terminated
      end
  | Close cmd_id => do _ <- _close_pool_ack cmd_id; pret Closed
  | _ => pret Initialization
  end.

(** [PoolEvent::Synced]: the pool becomes active. *)
Definition become_active (sm : PoolSM) (cmd_id : Z) (refresh : bool) (merkle : MerkleTree) : P PoolState :=
  do found <- attempt (fun _ => nodes_and_remotes merkle);
  match found with
  | inl (nodes, remotes) =>
      do _ <- net (NodesStateUpdated remotes);
      do _ <- _send_open_refresh_ack cmd_id (pool_id sm) refresh None;
      pret (Active ∅ nodes)
  | inr _ => pret Terminated
  end.

(** The [GettingCatchupTarget] arm. *)
Definition handle_target (sm : PoolSM) (rh : R H) (cmd_id : Z) (refresh : bool) (pe : PoolEvent) : P PoolState :=
  do re <- into pe;
  do (rh, ev) <- handle rh re;
  match default pe ev with
  | Close c => do _ <- _close_pool_ack c; do _ <- handle rh (Some RTerminate); pret Closed
  | CatchupTargetNotFound err =>
      do _ <- _send_open_refresh_ack cmd_id (pool_id sm) refresh (Some err); pret Terminated
  | CatchupRestart merkle_tree =>
      do found <- attempt (fun _ => nodes_and_remotes merkle_tree);
      match found with
      | inl (nodes, remotes) =>
          do _ <- net (NodesStateUpdated remotes);
          do (rh, _) <- handle (new_handler sm [] nodes)
            (Some (RLedgerStatus (_ledger_status merkle_tree) None (Some merkle_tree)));
          pret (GettingCatchupTarget rh cmd_id refresh)
      | inr _ => pret Terminated
      end
  | CatchupTargetFound target_mt_root target_mt_size merkle_tree =>
      do found <- attempt (fun _ => nodes_and_remotes merkle_tree);
      match found with
      | inl (nodes, remotes) =>
          do _ <- net (NodesStateUpdated remotes);
          do (rh, _) <- handle (new_handler sm [] nodes)
            (Some (RCatchupReq merkle_tree target_mt_size target_mt_root));
          pret (SyncCatchup rh cmd_id refresh)
      | inr _ => pret Terminated
      end
  | Synced merkle => become_active sm cmd_id refresh merkle
  | _ => pret (GettingCatchupTarget rh cmd_id refresh)
  end.

(** The [SyncCatchup] arm. *)
Definition handle_sync (sm : PoolSM) (rh : R H) (cmd_id : Z) (refresh : bool) (pe : PoolEvent) : P PoolState :=
  do re <- into pe;
  do (rh, ev) <- handle rh re;
  match default pe ev with
  | Close c => do _ <- _close_pool_ack c; do _ <- handle rh (Some RTerminate); pret Closed
  | NodesBlacklisted => pret Terminated
  | Synced merkle => become_active sm cmd_id refresh merkle
  | _ => pret (SyncCatchup rh cmd_id refresh)
  end.

(** The [Terminated] arm. *)
Definition handle_terminated (sm : PoolSM) (pe : PoolEvent) : P PoolState :=
  match pe with
  | Close cmd_id => do _ <- _close_pool_ack cmd_id; pret Closed
  | Refresh cmd_id =>
      do rh <- _get_request_handler_with_ledger_status_sent sm;
      pret (match rh with inl rh => GettingCatchupTarget rh cmd_id true | inr _ => Terminated end)
  | PoolTimeoutEvent req_id _ =>
      do _ <- (if String.eqb req_id "" then net NetTimeout else pret tt); pret Terminated
  | _ => pret Terminated
  end.

(** [PoolEvent::SendRequest] in the [Active] state. *)
Definition send_request (sm : PoolSM) (handlers : gmap string (R H)) (nodes : Nodes) (cmd_id : Z)
    (pe : PoolEvent) : P PoolState :=
  do re <- into pe;
  match re with
  | Some e =>
      do (rh, _) <- handle (new_handler sm [cmd_id] nodes) re;
      pret (Active (<[get_req_id e := rh]> handlers) nodes)
  | None =>
      do _ <- _send_submit_ack cmd_id (inr (err_msg InvalidStructure "Request id not found"));
      pret (Active handlers nodes)
  end.

(** [PoolEvent::NodeReply]: a handler that has ended is removed. *)
Definition node_reply (handlers : gmap string (R H)) (nodes : Nodes) (pe : PoolEvent) : P PoolState :=
  do re <- into pe;
  match re with
  | Some e =>
      match handlers !! get_req_id e with
      | Some rh =>
          do (rh, _) <- handle rh re;
          pret (Active (if rh_is_terminal rh then delete (get_req_id e) handlers
                        else <[get_req_id e := rh]> handlers) nodes)
      | None => pret (Active handlers nodes)
      end
  | None => pret (Active handlers nodes)
  end.

(** The [Active] arm. *)
Definition handle_active (sm : PoolSM) (handlers : gmap string (R H)) (nodes : Nodes) (pe : PoolEvent)
  : P PoolState :=
  match pe with
  | PoolOutdated => pret Terminated
  | Close cmd_id => do _ <- _close_pool_ack cmd_id; do _ <- terminate_all (handlers_iter handlers); pret Closed
  | Refresh cmd_id =>
      do rh <- _get_request_handler_with_ledger_status_sent sm;
      pret (match rh with inl rh => GettingCatchupTarget rh cmd_id true | inr _ => Terminated end)
  | SendRequest cmd_id _ _ _ => send_request sm handlers nodes cmd_id pe
  | NodeReply _ _ => node_reply handlers nodes pe
  | PoolTimeoutEvent req_id _ =>
      match handlers !! req_id with
      | Some rh =>
          do re <- into pe;
          do (rh, _) <- handle rh re;
          pret (Active (<[req_id := rh]> handlers) nodes)
      | None =>
          do _ <- (if String.eqb req_id "" then net NetTimeout else pret tt); pret (Active handlers nodes)
      end
  | _ => pret (Active handlers nodes)
  end.

(** [PoolSM::handle_event]. *)
Definition handle_pool_state (sm : PoolSM) (pe : PoolEvent) : P PoolState :=
  match pool_state sm with
  | Initialization => handle_init sm pe
  | GettingCatchupTarget rh cmd_id refresh => handle_target sm rh cmd_id refresh pe
  | Terminated => handle_terminated sm pe
  | Closed => pret Closed
  | Active handlers nodes => handle_active sm handlers nodes pe
  | SyncCatchup rh cmd_id refresh => handle_sync sm rh cmd_id refresh pe
  end.
Definition handle_pool_event (sm : PoolSM) (pe : PoolEvent) : P PoolSM :=
  do st <- handle_pool_state sm pe; pret (pool_step sm st).

(** [PoolSM::is_terminal]. *)
Definition pool_is_terminal (sm : PoolSM) : bool :=
  match pool_state sm with Closed => true | _ => false end.

(** [PoolThread::_loop]: the events of the queue, in order. *)
Fixpoint pool_loop (sm : PoolSM) (events : list PoolEvent) : P PoolSM :=
  match events with
  | [] => pret sm
  | pe :: events' => do sm <- handle_pool_event sm pe; pool_loop sm events'
  end.

(** ** Transitions and acknowledgements *)
Definition pool_acks (effs : list PoolEffect) : list PoolEffect :=
  List.filter (fun e => match e with Req _ => false | _ => true end) effs.

(** [Q] holds of the result and of the acknowledgements of open, refresh and close. *)
Definition answers {A} (m : P A) (Q : A -> list PoolEffect -> Prop) : Prop :=
  forall files a effs files', m files = (Ok (a, effs), files') -> Q a (pool_acks effs).

Lemma answers_ret {A} (a : A) (Q : A -> list PoolEffect -> Prop) : Q a [] -> answers (pret a) Q.
Proof. by intros HQ files a' effs files' [= <- <- <-]. Qed.

Lemma answers_bind {A A'} (m : P A) (k : A -> P A') (Q : A' -> list PoolEffect -> Prop) :
  answers m (fun a l1 => answers (k a) (fun b l2 => Q b (l1 ++ l2)%list)) -> answers (pbind m k) Q.
Proof.
  intros Hm files b effs files'. unfold pbind.
  destruct (m files) as [[[a e1]| |] f1] eqn:Em; try done.
  destruct (k a f1) as [[[b' e2]| |] f2] eqn:Ek; try done. intros [= <- <- <-].
  unfold pool_acks. rewrite List.filter_app. exact (Hm _ _ _ _ Em _ _ _ _ Ek).
Qed.

Lemma answers_emit effs (Q : unit -> list PoolEffect -> Prop) : Q tt (pool_acks effs) -> answers (emit effs) Q.
Proof. by intros HQ files [] e files' [= <- <-]. Qed.

Lemma answers_attempt {A} (f : PoolFiles -> outcome A) (Q : A + IndyError -> list PoolEffect -> Prop) :
  (forall x, Q x []) -> answers (attempt f) Q.
Proof. intros HQ files a effs files'. unfold attempt. destruct (f files); intros [= <- <- <-]; apply HQ. Qed.

Lemma answers_lift {A} (x : outcome A) (Q : A -> list PoolEffect -> Prop) :
  (forall a, Q a []) -> answers (lift x) Q.
Proof. intros HQ files a effs files'. destruct x; intros [= <- <- <-]. apply HQ. Qed.

Lemma answers_drop (Q : bool -> list PoolEffect -> Prop) : (forall b, Q b []) -> answers drop_cache_files Q.
Proof.
  intros HQ files a effs files'. unfold drop_cache_files. destruct (drop_cache files); intros [= <- <- <-]; apply HQ.
Qed.

Lemma pool_acks_req effs : pool_acks (map Req effs) = [].
Proof. by induction effs. Qed.

Lemma answers_handle r re (Q : R H * option PoolEvent -> list PoolEffect -> Prop) :
  (forall x, Q x []) -> answers (handle r re) Q.
Proof.
  intros HQ files a effs files'. unfold handle.
  destruct (rh_process_event r files re) as [[[[r1 ev1] e1]| |] f1]; try done.
  intros [= <- <- <-]. rewrite pool_acks_req. apply HQ.
Qed.

Ltac answer :=
  repeat lazymatch goal with
  | |- answers (pbind _ _) _ => apply answers_bind
  | |- answers (pret _) _ => apply answers_ret
  | |- answers (emit _) _ => apply answers_emit; cbn [pool_acks List.filter]
  | |- answers (attempt _) _ => apply answers_attempt; intros ?
  | |- answers (lift _) _ => apply answers_lift; intros ?
  | |- answers drop_cache_files _ => apply answers_drop; intros ?
  | |- answers (handle _ _) _ => apply answers_handle; intros ?
  end.

Lemma answers_mono {A} (m : P A) (Q Q' : A -> list PoolEffect -> Prop) :
  (forall a l, Q a l -> Q' a l) -> answers m Q -> answers m Q'.
Proof. intros Hm Hq files a effs files' E. apply Hm. by eapply Hq. Qed.

Lemma tree_and_nodes_answers : answers tree_and_nodes (fun _ l => l = []).
Proof.
  unfold tree_and_nodes. answer. destruct x as [m|e]; answer; [|done].
  destruct x as [ns|e]; answer; [done|]. destruct b; answer; [|done].
  destruct x as [m2|e2]; by answer.
Qed.

Lemma status_sent_answers sm : answers (_get_request_handler_with_ledger_status_sent sm) (fun _ l => l = []).
Proof.
  unfold _get_request_handler_with_ledger_status_sent, net. apply answers_bind.
  eapply answers_mono; [|apply tree_and_nodes_answers]. intros [[m [ns rs]]|e] l ->; answer; [|done].
  destruct x. by answer.
Qed.

(** The acknowledgement of the command that opens or refreshes the pool. *)
Definition ack (sm : PoolSM) (c : Z) (refresh : bool) (res : option IndyError) : PoolEffect :=
  if refresh then RefreshAck c res else OpenAck c (pool_id sm) res.

(** What the end of a step says to the command that waits for the catch-up. *)
Definition catchup_answer (sm : PoolSM) (c : Z) (refresh : bool) (st : PoolState) (l : list PoolEffect) : Prop :=
  match st with
  | Active _ _ => l = [ack sm c refresh None]
  | Terminated => l = [] \/ exists e, l = [ack sm c refresh (Some e)]
  | Closed => exists c', l = [CloseAck c']
  | GettingCatchupTarget _ c' refresh' | SyncCatchup _ c' refresh' => l = [] /\ c' = c /\ refresh' = refresh
  | Initialization => False
  end.

Lemma become_active_answers sm c refresh merkle :
  answers (become_active sm c refresh merkle) (catchup_answer sm c refresh).
Proof.
  unfold become_active, net, _send_open_refresh_ack. answer. destruct x as [[ns rs]|e]; answer; [|by left].
  by destruct refresh.
Qed.

Lemma handle_target_answers sm rh c refresh pe :
  answers (handle_target sm rh c refresh pe) (catchup_answer sm c refresh).
Proof.
  unfold handle_target, into. answer. destruct x as [rh' ev]. unfold net, _close_pool_ack, _send_open_refresh_ack.
  destruct (default pe ev); answer; try done; try (by eexists).
  - destruct x as [[ns rs]|e]; answer; [destruct x; by answer|by left].
  - destruct x as [[ns rs]|e]; answer; [destruct x; by answer|by left].
  - right. exists err. by destruct refresh.
  - apply become_active_answers.
Qed.

Definition not_target (st : PoolState) : Prop :=
  match st with GettingCatchupTarget _ _ _ => False | _ => True end.

Lemma become_active_not_target sm c refresh merkle :
  answers (become_active sm c refresh merkle) (fun st _ => not_target st).
Proof.
  unfold become_active, net, _send_open_refresh_ack. answer. destruct x as [[ns rs]|e]; by answer.
Qed.

Lemma handle_sync_answers sm rh c refresh pe :
  answers (handle_sync sm rh c refresh pe) (fun st l => catchup_answer sm c refresh st l /\ not_target st).
Proof.
  unfold handle_sync, into. answer. destruct x as [rh' ev]. unfold _close_pool_ack.
  destruct (default pe ev); answer; try done; try (by split; [eexists|]).
  - intros files st effs files' E. split; [by eapply become_active_answers|by eapply become_active_not_target].
  - split; [by left|done].
Qed.

(** The command that opens or refreshes a pool is acknowledged by the step that ends the
    catch-up: with success exactly when the pool becomes active, with an error only when
    it is terminated, and not before; closing acknowledges the close command alone. *)
Theorem catchup_acknowledged sm rh c refresh pe files sm' effs files' :
  pool_state sm = GettingCatchupTarget rh c refresh \/ pool_state sm = SyncCatchup rh c refresh ->
  handle_pool_event sm pe files = (Ok (sm', effs), files') ->
  catchup_answer sm c refresh (pool_state sm') (pool_acks effs).
Proof.
  intros Hs. unfold handle_pool_event. revert files sm' effs files'.
  change (answers (do st <- handle_pool_state sm pe; pret (pool_step sm st))
            (fun sm' l => catchup_answer sm c refresh (pool_state sm') l)).
  apply answers_bind. unfold handle_pool_state.
  destruct Hs as [-> | ->].
  - eapply answers_mono; [|apply handle_target_answers]. intros st l Hl. apply answers_ret. by rewrite app_nil_r.
  - eapply answers_mono; [|apply handle_sync_answers]. intros st l [Hl _]. apply answers_ret. by rewrite app_nil_r.
Qed.

(** The table in the comment above [PoolState]; a state may also stay. *)
Inductive pool_allowed : PoolState -> PoolState -> Prop :=
  | init_stays : pool_allowed Initialization Initialization
  | init_target r c f : pool_allowed Initialization (GettingCatchupTarget r c f)
  | target_target r c f r' c' f' : pool_allowed (GettingCatchupTarget r c f) (GettingCatchupTarget r' c' f')
  | target_sync r c f r' c' f' : pool_allowed (GettingCatchupTarget r c f) (SyncCatchup r' c' f')
  | target_active r c f hs ns : pool_allowed (GettingCatchupTarget r c f) (Active hs ns)
  | active_active hs ns hs' : pool_allowed (Active hs ns) (Active hs' ns)
  | active_target hs ns r c f : pool_allowed (Active hs ns) (GettingCatchupTarget r c f)
  | sync_sync r c f r' c' f' : pool_allowed (SyncCatchup r c f) (SyncCatchup r' c' f')
  | sync_active r c f hs ns : pool_allowed (SyncCatchup r c f) (Active hs ns)
  | terminated_target r c f : pool_allowed Terminated (GettingCatchupTarget r c f)
  | to_terminated st : st <> Closed -> pool_allowed st Terminated
  | to_closed st : pool_allowed st Closed.
Hint Constructors pool_allowed : indy.

Lemma handle_pool_state_allowed sm pe :
  answers (handle_pool_state sm pe) (fun st _ => pool_allowed (pool_state sm) st).
Proof.
  unfold handle_pool_state. destruct (pool_state sm) as [|rh c f|hs ns|rh c f| |].
  - unfold handle_init, _close_pool_ack. destruct pe; answer; auto with indy.
    eapply answers_mono; [|apply status_sent_answers]. intros [rh|e] l _; answer; by auto with indy.
  - eapply answers_mono; [|apply handle_target_answers]. intros [] l Hl; cbn in Hl; try done; by auto with indy.
  - unfold handle_active, send_request, node_reply, _close_pool_ack, _send_submit_ack, into, net.
    destruct pe; answer; auto with indy.
    + destruct a as [e|]; answer; auto with indy. destruct (hs !! _); answer; auto with indy.
      destruct x. answer. auto with indy.
    + intros files0 [] effs0 files0' _. answer. auto with indy.
    + eapply answers_mono; [|apply status_sent_answers]. intros [rh|e] l _; answer; by auto with indy.
    + destruct a as [e|]; answer; auto with indy. destruct x. answer. auto with indy.
    + destruct (hs !! _); answer; auto with indy; [destruct x; answer; auto with indy|].
      case_match; answer; auto with indy.
  - eapply answers_mono; [|apply handle_sync_answers]. intros [] l [Hl Hn]; cbn in Hl, Hn; try done; by auto with indy.
  - unfold handle_terminated, _close_pool_ack, net. destruct pe; answer; auto with indy.
    + eapply answers_mono; [|apply status_sent_answers]. intros [rh|e] l _; answer; by auto with indy.
    + case_match; answer; auto with indy.
  - answer. auto with indy.
Qed.

(** The pool moves between its states as the documented table says, and a closed pool
    stays closed. *)
Theorem pool_transitions sm pe files sm' effs files' :
  handle_pool_event sm pe files = (Ok (sm', effs), files') -> pool_allowed (pool_state sm) (pool_state sm').
Proof.
  revert files sm' effs files'. unfold handle_pool_event.
  change (answers (do st <- handle_pool_state sm pe; pret (pool_step sm st))
            (fun sm' _ => pool_allowed (pool_state sm) (pool_state sm'))).
  apply answers_bind. eapply answers_mono; [|apply handle_pool_state_allowed].
  intros st l Hl. by apply answers_ret.
Qed.

(** When the node data of the synced ledger cannot be read, the pool terminates and the
    command that opened or refreshed it is not acknowledged. *)
Theorem unreadable_nodes_leave_open_unanswered sm rh c refresh pe re rh' ev merkle e files effs0 files1 :
  pool_state sm = SyncCatchup rh c refresh ->
  into_request_event message_from_str get_sp_parser (protocol_version =? 1)%Z pe = Ok re ->
  rh_process_event rh files re = (Ok (rh', ev, effs0), files1) ->
  default pe ev = Synced merkle -> nodes_and_remotes merkle = Err e ->
  exists effs, handle_pool_event sm pe files = (Ok (pool_step sm Terminated, effs), files1) /\
    pool_acks effs = [].
Proof.
  intros Hs He Hh Hev Hn.
  exists (map Req effs0). split; [|apply pool_acks_req].
  unfold handle_pool_event, handle_pool_state. rewrite Hs. unfold handle_sync, into, become_active, handle, attempt.
  unfold pbind, lift, pret. rewrite He, Hh. cbn. rewrite Hev, Hn. by rewrite !app_nil_r.
Qed.


(** ** Accounting for commands *)

(** The commands with a submit acknowledgement among effects. *)
Definition submitted (effs : list PoolEffect) : list Z :=
  omap (fun e => match e with Req (SubmitAck id _) => Some id | _ => None end) effs.

Lemma submitted_app a b : submitted (a ++ b) = (submitted a ++ submitted b)%list.
Proof. apply omap_app. Qed.
Lemma submitted_req effs : submitted (map Req effs) = acked effs.
Proof.
  induction effs as [|[e|id m] effs IH]; [done|exact IH|].
  change (id :: submitted (map Req effs) = id :: acked effs). by rewrite IH.
Qed.

(** A computation that starts with answers owed to [L] answers some of them and leaves
    the others, of which [Q] holds. *)
Definition spends {A} (L : list Z) (m : P A) (Q : A -> list Z -> Prop) : Prop :=
  forall files a effs files', m files = (Ok (a, effs), files') ->
    exists L', Q a L' /\ L ≡ₚ (submitted effs ++ L')%list.

Lemma spends_ret {A} L (a : A) (Q : A -> list Z -> Prop) : Q a L -> spends L (pret a) Q.
Proof. intros HQ files a' effs files' [= <- <- <-]. by exists L. Qed.

Lemma spends_bind {A A'} L (m : P A) (k : A -> P A') Q1 Q2 :
  spends L m Q1 -> (forall a L', Q1 a L' -> spends L' (k a) Q2) -> spends L (pbind m k) Q2.
Proof.
  intros H1 H2 files b effs files'. unfold pbind.
  destruct (m files) as [[[a e1]| |] f1] eqn:Em; try done.
  destruct (k a f1) as [[[b' e2]| |] f2] eqn:Ek; try done. intros [= <- <- <-].
  destruct (H1 _ _ _ _ Em) as (L1 & HQ1 & HL1). destruct (H2 a L1 HQ1 _ _ _ _ Ek) as (L2 & HQ2 & HL2).
  exists L2. split; [done|]. by rewrite HL1, HL2, submitted_app, app_assoc.
Qed.

Lemma spends_emit L effs (Q : unit -> list Z -> Prop) :
  submitted effs = [] -> Q tt L -> spends L (emit effs) Q.
Proof. intros Hs HQ files [] e files' [= <- <-]. exists L. by rewrite Hs. Qed.

Lemma spends_attempt {A} L (f : PoolFiles -> outcome A) (Q : A + IndyError -> list Z -> Prop) :
  (forall x, Q x L) -> spends L (attempt f) Q.
Proof.
  intros HQ files a effs files'. unfold attempt. destruct (f files); intros [= <- <- <-]; by exists L.
Qed.

Lemma spends_lift {A} L (x : outcome A) (Q : A -> list Z -> Prop) :
  (forall a, x = Ok a -> Q a L) -> spends L (lift x) Q.
Proof. intros HQ files a effs files'. destruct x; intros [= <- <- <-]. exists L. by split; [apply HQ|]. Qed.

Lemma spends_drop L (Q : bool -> list Z -> Prop) : (forall b, Q b L) -> spends L drop_cache_files Q.
Proof.
  intros HQ files a effs files'. unfold drop_cache_files.
  destruct (drop_cache files); intros [= <- <- <-]; by exists L.
Qed.

Lemma spends_mono {A} L (m : P A) (Q Q' : A -> list Z -> Prop) :
  (forall a L', Q a L' -> Q' a L') -> spends L m Q -> spends L m Q'.
Proof. intros Hm Hs files a effs files' E. destruct (Hs _ _ _ _ E) as (L' & ? & ?). exists L'. auto. Qed.

Context {HL : RequestHandlerLaws H}.

(** A handler that owes nothing: the handlers of catch-ups. *)
Definition idle (r : R H) : Prop := rh_inv r /\ rh_pending r = [].

Lemma spends_handle L L0 r re (Q : R H * option PoolEvent -> list Z -> Prop) :
  rh_inv r -> L ≡ₚ (rh_pending r ++ L0)%list ->
  (forall r' ev, rh_inv r' -> Q (r', ev) (rh_pending r' ++ L0)%list) -> spends L (handle r re) Q.
Proof.
  intros Hi HL0 HQ files [r' ev] effs files'. unfold handle.
  destruct (rh_process_event r files re) as [[[[r1 ev1] e1]| |] f1] eqn:E; try done.
  intros [= <- <- <- <-]. destruct (rh_step _ _ _ _ _ _ _ Hi E) as [Hi' Hp].
  exists (rh_pending r1 ++ L0)%list. split; [by apply HQ|].
  by rewrite HL0, Hp, submitted_req, app_assoc.
Qed.

Lemma spends_idle L r re (Q : R H * option PoolEvent -> list Z -> Prop) :
  idle r -> (forall r' ev, idle r' -> Q (r', ev) L) -> spends L (handle r re) Q.
Proof.
  intros [Hi Hp] HQ files [r' ev] effs files' E. unfold handle in E.
  destruct (rh_process_event r files re) as [[[[r1 ev1] e1]| |] f1] eqn:Er; try done.
  injection E as <- <- <- <-. destruct (rh_step _ _ _ _ _ _ _ Hi Er) as [Hi' Hp'].
  rewrite Hp in Hp'. symmetry in Hp'. apply Permutation_nil_r in Hp'. apply app_nil in Hp' as [Ha Hn].
  exists L. split; [by apply HQ|]. by rewrite submitted_req, Ha.
Qed.

Lemma spends_new L sm ids nodes re (Q : R H * option PoolEvent -> list Z -> Prop) L0 :
  is_request re = true -> L ≡ₚ (ids ++ L0)%list ->
  (forall r' ev, rh_inv r' -> Q (r', ev) (rh_pending r' ++ L0)%list) ->
  spends L (handle (new_handler sm ids nodes) (Some re)) Q.
Proof.
  intros Hre HL0 HQ files [r' ev] effs files' E. unfold handle in E.
  destruct (rh_process_event _ files _) as [[[[r1 ev1] e1]| |] f1] eqn:Er; try done.
  injection E as <- <- <- <-. destruct (rh_submit _ _ _ _ _ _ _ _ _ _ _ _ Hre Er) as [Hi' Hp'].
  exists (rh_pending r1 ++ L0)%list. split; [by apply HQ|]. by rewrite HL0, Hp', submitted_req, app_assoc.
Qed.

Lemma new_idle sm nodes : idle (new_handler sm [] nodes).
Proof. apply rh_new_idle. Qed.

(** Steps without submit acknowledgements. *)
Ltac spend :=
  first
    [ apply spends_ret
    | apply spends_attempt; intros ?
    | apply spends_drop; intros ?
    | apply spends_emit; [reflexivity|]
    | apply spends_idle; [first [assumption|apply new_idle]|intros ? ? ?] ].
Ltac spend_bind Q := eapply (spends_bind _ _ _ Q).

Definition handlers_pending (hs : gmap string (R H)) : list Z :=
  concat (map (fun kr => rh_pending kr.2) (map_to_list hs)).
Definition state_pending (st : PoolState) : list Z :=
  match st with Active hs _ => handlers_pending hs | _ => [] end.
Definition state_ok (st : PoolState) : Prop :=
  match st with
  | GettingCatchupTarget r _ _ | SyncCatchup r _ _ => idle r
  | Active hs _ => map_Forall (fun _ r => rh_inv r) hs
  | _ => True
  end.

(** The commands an event submits. *)
Definition sent (pe : PoolEvent) : list Z :=
  match pe with SendRequest cmd_id _ _ _ => [cmd_id] | _ => [] end.

Lemma pending_lookup (hs : gmap string (R H)) k r :
  hs !! k = Some r -> handlers_pending hs ≡ₚ (rh_pending r ++ handlers_pending (delete k hs))%list.
Proof.
  intros Hk. unfold handlers_pending. by rewrite <-(map_to_list_delete hs k r Hk).
Qed.

Lemma pending_insert (hs : gmap string (R H)) k r :
  handlers_pending (<[k := r]> hs) ≡ₚ (rh_pending r ++ handlers_pending (delete k hs))%list.
Proof. rewrite (pending_lookup _ k r) by apply lookup_insert_eq. by rewrite delete_insert_eq. Qed.

Lemma pending_delete (hs : gmap string (R H)) k : handlers_pending (delete k hs) ⊆+ handlers_pending hs.
Proof.
  destruct (hs !! k) as [r|] eqn:E.
  - rewrite (pending_lookup hs k r E). by apply submseteq_inserts_l.
  - by rewrite delete_id.
Qed.

(** Nothing answered, nothing owed any more. *)
Definition quiet (L : list Z) (st : PoolState) (L' : list Z) : Prop :=
  L' = L /\ state_ok st /\ state_pending st = [].

Lemma tree_and_nodes_spends L : spends L tree_and_nodes (fun _ L' => L' = L).
Proof.
  unfold tree_and_nodes. spend_bind (fun (_ : MerkleTree + IndyError) L' => L' = L); [by spend|].
  intros [merkle|e] L' ->; [|by spend].
  spend_bind (fun (_ : Nodes * list RemoteNode + IndyError) L' => L' = L); [by spend|].
  intros [ns|e] L' ->; [by spend|]. spend_bind (fun (_ : bool) L' => L' = L); [by spend|].
  intros [] L' ->; [|by spend]. spend_bind (fun (_ : MerkleTree + IndyError) L' => L' = L); [by spend|].
  intros [m2|e2] L' ->; [|by spend].
  spend_bind (fun (_ : Nodes * list RemoteNode + IndyError) L' => L' = L); [by spend|].
  intros x L' ->. by spend.
Qed.

Definition found_idle (L : list Z) (x : R H + IndyError) (L' : list Z) : Prop :=
  L' = L /\ match x with inl r => idle r | inr _ => True end.

Lemma status_sent_spends L sm : spends L (_get_request_handler_with_ledger_status_sent sm) (found_idle L).
Proof.
  unfold _get_request_handler_with_ledger_status_sent. eapply spends_bind; [apply tree_and_nodes_spends|].
  intros [[merkle [ns remotes]]|e] L' ->; [|by spend].
  spend_bind (fun (_ : unit) L' => L' = L); [by spend|]. intros [] L' ->.
  spend_bind (fun (x : R H * option PoolEvent) L' => L' = L /\ idle x.1); [by spend|].
  intros [rh ev] L' [-> Hi]. by spend.
Qed.

Lemma become_active_spends L sm cmd_id refresh merkle :
  spends L (become_active sm cmd_id refresh merkle) (quiet L).
Proof.
  unfold become_active. spend_bind (fun (_ : Nodes * list RemoteNode + IndyError) L' => L' = L); [by spend|].
  intros [[ns remotes]|e] L' ->; [|by spend].
  spend_bind (fun (_ : unit) L' => L' = L); [by spend|]. intros [] L' ->.
  spend_bind (fun (_ : unit) L' => L' = L); [apply spends_emit; [by destruct refresh|done]|]. intros [] L' ->.
  by spend.
Qed.

Lemma close_idle_spends L c rh : idle rh ->
  spends L (do _ <- _close_pool_ack c; do _ <- handle rh (Some RTerminate); pret Closed) (quiet L).
Proof.
  intros Hi. spend_bind (fun (_ : unit) L' => L' = L); [by spend|]. intros [] L' ->.
  spend_bind (fun (_ : R H * option PoolEvent) L' => L' = L); [by spend|]. intros _ L' ->. by spend.
Qed.

(** A new catch-up request after an update of the nodes. *)
Lemma restart_spends L sm merkle (re : MerkleTree -> RequestEvent) (k : R H -> PoolState) :
  (forall rh, idle rh -> quiet L (k rh) L) ->
  spends L
    (do found <- attempt (fun _ => nodes_and_remotes merkle);
     match found with
     | inl (nodes, remotes) =>
         do _ <- net (NodesStateUpdated remotes);
         do (rh, _) <- handle (new_handler sm [] nodes) (Some (re merkle));
         pret (k rh)
     | inr _ => pret Terminated
     end) (quiet L).
Proof.
  intros Hk. spend_bind (fun (_ : Nodes * list RemoteNode + IndyError) L' => L' = L); [by spend|].
  intros [[ns remotes]|e] L' ->; [|by spend].
  spend_bind (fun (_ : unit) L' => L' = L); [by spend|]. intros [] L' ->.
  spend_bind (fun (x : R H * option PoolEvent) L' => L' = L /\ idle x.1); [by spend|].
  intros [rh ev] L' [-> Hi]. spend. by apply Hk.
Qed.

Lemma handle_target_spends L sm rh cmd_id refresh pe :
  idle rh -> spends L (handle_target sm rh cmd_id refresh pe) (quiet L).
Proof.
  intros Hi. unfold handle_target. spend_bind (fun (_ : option RequestEvent) L' => L' = L).
  { apply spends_lift. done. }
  intros re L' ->. spend_bind (fun (x : R H * option PoolEvent) L' => L' = L /\ idle x.1); [by spend|].
  intros [rh' ev] L' [-> Hi']. cbn [fst] in Hi'. destruct (default pe ev); try (by spend).
  - by apply close_idle_spends.
  - apply (restart_spends L sm merkle (fun m => RCatchupReq m target_mt_size target_mt_root)
             (fun rh => SyncCatchup rh cmd_id refresh)). done.
  - apply (restart_spends L sm merkle (fun m => RLedgerStatus (_ledger_status m) None (Some m))
             (fun rh => GettingCatchupTarget rh cmd_id refresh)). done.
  - spend_bind (fun (_ : unit) L' => L' = L); [apply spends_emit; [by destruct refresh|done]|].
    intros [] L' ->. by spend.
  - apply become_active_spends.
Qed.

Lemma handle_sync_spends L sm rh cmd_id refresh pe :
  idle rh -> spends L (handle_sync sm rh cmd_id refresh pe) (quiet L).
Proof.
  intros Hi. unfold handle_sync. spend_bind (fun (_ : option RequestEvent) L' => L' = L).
  { apply spends_lift. done. }
  intros re L' ->. spend_bind (fun (x : R H * option PoolEvent) L' => L' = L /\ idle x.1); [by spend|].
  intros [rh' ev] L' [-> Hi']. cbn [fst] in Hi'. destruct (default pe ev); try (by spend).
  - by apply close_idle_spends.
  - apply become_active_spends.
Qed.

Lemma refresh_spends L sm cmd_id :
  spends L (do rh <- _get_request_handler_with_ledger_status_sent sm;
            pret (match rh with inl rh => GettingCatchupTarget rh cmd_id true | inr _ => Terminated end)) (quiet L).
Proof.
  eapply spends_bind; [apply status_sent_spends|]. intros [rh|e] L' [-> Hi]; by spend.
Qed.

Lemma close_spends L c : spends L (do _ <- _close_pool_ack c; pret Closed) (quiet L).
Proof. spend_bind (fun (_ : unit) L' => L' = L); [by spend|]. intros [] L' ->. by spend. Qed.

(** Outside the [Active] state no command is acknowledged or owed. *)
Lemma inactive_quiet L sm pe :
  state_ok (pool_state sm) -> (forall hs ns, pool_state sm <> Active hs ns) ->
  spends L (handle_pool_state sm pe) (quiet L).
Proof.
  intros Hok Hna. unfold handle_pool_state. destruct (pool_state sm) as [|rh c f|hs ns|rh c f| |] eqn:Es.
  - unfold handle_init. destruct pe; try (by spend); [|apply close_spends].
    eapply spends_bind; [apply status_sent_spends|]. intros [rh|e] L' [-> Hi]; [by spend|].
    spend_bind (fun (_ : unit) L' => L' = L); [by spend|]. intros [] L' ->. by spend.
  - by apply handle_target_spends.
  - by destruct (Hna hs ns).
  - by apply handle_sync_spends.
  - unfold handle_terminated. destruct pe; try (by spend); [apply close_spends|apply refresh_spends|].
    spend_bind (fun (_ : unit) L' => L' = L); [case_match; by spend|]. intros [] L' ->. by spend.
  - by spend.
Qed.

(** The event a pool event becomes. *)
Definition event_of (pe : PoolEvent) : outcome (option RequestEvent) :=
  into_request_event message_from_str get_sp_parser (protocol_version =? 1)%Z pe.
(** The id a submitted request is registered under. *)
Definition request_id (pe : PoolEvent) : option string :=
  match pe with
  | SendRequest _ _ _ _ => match event_of pe with Ok (Some e) => Some (get_req_id e) | _ => None end
  | _ => None
  end.

Lemma send_is_request c msg t ns e : event_of (SendRequest c msg t ns) = Ok (Some e) -> is_request e = true.
Proof.
  unfold event_of, into_request_event. destruct (_parse_req_id_and_op msg) as [[[v id] op]| |]; try done.
  destruct (contains REQUEST_FOR_FULL op); [by intros [= <-]|].
  destruct (_ || _); [done|]. destruct (contains REQUESTS_FOR_STATE_PROOFS op).
  - by intros (k & _ & [= <-])%obind_ok.
  - destruct (get_sp_parser op); by intros [= <-].
Qed.

(** Still active, with handlers that owe what is left; [exact] when no handler was
    replaced. *)
Definition still_active (exact : Prop) (keys : gset string) (ns : Nodes) (st : PoolState) (L' : list Z) : Prop :=
  exists hs, st = Active hs ns /\ map_Forall (fun _ r => rh_inv r) hs /\ dom hs ⊆ keys /\
    handlers_pending hs ⊆+ L' /\ (exact -> handlers_pending hs ≡ₚ L').

Lemma stay_active exact L hs ns keys :
  map_Forall (fun _ r => rh_inv r) hs -> dom hs ⊆ keys -> handlers_pending hs ≡ₚ L ->
  still_active exact keys ns (Active hs ns) L.
Proof. intros Hi Hd Hp. exists hs. repeat split; try done. by rewrite Hp. Qed.

Lemma insert_active exact L hs ns keys k r :
  map_Forall (fun _ r => rh_inv r) hs -> rh_inv r -> {[k]} ∪ dom hs ⊆ keys ->
  (rh_pending r ++ handlers_pending (delete k hs))%list ⊆+ L ->
  (exact -> (rh_pending r ++ handlers_pending (delete k hs))%list ≡ₚ L) ->
  still_active exact keys ns (Active (<[k := r]> hs) ns) L.
Proof.
  intros Hi Hr Hd Hp Hx. exists (<[k := r]> hs). split; [done|].
  split; [by apply map_Forall_insert_2|]. split; [by rewrite dom_insert_L|].
  rewrite !pending_insert. done.
Qed.

Lemma send_request_spends sm hs ns c msg t to :
  let pe := SendRequest c msg t to in
  map_Forall (fun _ r => rh_inv r) hs ->
  spends (handlers_pending hs ++ [c]) (send_request sm hs ns c pe)
    (still_active (forall k, request_id pe = Some k -> hs !! k = None)
       (dom hs ∪ match request_id pe with Some k => {[k]} | None => ∅ end) ns).
Proof.
  intros pe Hi. unfold send_request.
  spend_bind (fun (re : option RequestEvent) L' => L' = (handlers_pending hs ++ [c])%list /\ event_of pe = Ok re).
  { apply spends_lift. done. }
  intros [e|] L' [-> He].
  - assert (Hid : request_id pe = Some (get_req_id e)) by (unfold request_id; by rewrite He).
    rewrite Hid. spend_bind (fun (x : R H * option PoolEvent) L' =>
      rh_inv x.1 /\ L' = (rh_pending x.1 ++ handlers_pending hs)%list).
    { eapply (spends_new _ sm [c] ns e _ (handlers_pending hs)); [by eapply send_is_request| |done].
      by rewrite Permutation_app_comm. }
    intros [r ev] L' [Hr ->]. cbn [fst] in *. spend.
    apply insert_active; [done|done|set_solver| |].
    + apply submseteq_app; [done|apply pending_delete].
    + intros Hf. by rewrite delete_id by by apply Hf.
  - spend_bind (fun (_ : unit) L' => L' = handlers_pending hs).
    { intros files [] effs files' [= <- <-]. exists (handlers_pending hs). split; [done|].
      by rewrite Permutation_app_comm. }
    intros [] L' ->. spend. apply stay_active; [done|set_solver|done].
Qed.

Lemma node_reply_spends hs ns msg node exact :
  map_Forall (fun _ r => rh_inv r) hs ->
  spends (handlers_pending hs) (node_reply hs ns (NodeReply msg node)) (still_active exact (dom hs) ns).
Proof.
  intros Hi. unfold node_reply. spend_bind (fun (_ : option RequestEvent) L' => L' = handlers_pending hs).
  { apply spends_lift. done. }
  intros [e|] L' ->; [|spend; by apply stay_active].
  destruct (hs !! get_req_id e) as [r|] eqn:Hr; [|spend; by apply stay_active].
  spend_bind (fun (x : R H * option PoolEvent) L' =>
    rh_inv x.1 /\ L' = (rh_pending x.1 ++ handlers_pending (delete (get_req_id e) hs))%list).
  { eapply spends_handle; [by apply (Hi _ _ Hr)|by apply pending_lookup|done]. }
  intros [r' ev] L' [Hr' ->]. cbn [fst] in *. spend. destruct (rh_is_terminal r') eqn:Et.
  - apply stay_active; [by apply map_Forall_delete|rewrite dom_delete_L; set_solver|].
    by rewrite (rh_finished r' Hr' Et).
  - apply insert_active; [done|done| |done|done]. apply elem_of_dom_2 in Hr. set_solver.
Qed.

Lemma timeout_spends hs ns req_id node exact :
  map_Forall (fun _ r => rh_inv r) hs ->
  spends (handlers_pending hs)
    (match hs !! req_id with
     | Some rh =>
         do re <- into (PoolTimeoutEvent req_id node);
         do (rh, _) <- handle rh re;
         pret (Active (<[req_id := rh]> hs) ns)
     | None => do _ <- (if String.eqb req_id "" then net NetTimeout else pret tt); pret (Active hs ns)
     end) (still_active exact (dom hs) ns).
Proof.
  intros Hi. destruct (hs !! req_id) as [r|] eqn:Hr.
  - spend_bind (fun (_ : option RequestEvent) L' => L' = handlers_pending hs); [by apply spends_lift|].
    intros re L' ->. spend_bind (fun (x : R H * option PoolEvent) L' =>
      rh_inv x.1 /\ L' = (rh_pending x.1 ++ handlers_pending (delete req_id hs))%list).
    { eapply spends_handle; [by apply (Hi _ _ Hr)|by apply pending_lookup|done]. }
    intros [r' ev] L' [Hr' ->]. spend. apply insert_active; [done|done| |done|done].
    apply elem_of_dom_2 in Hr. set_solver.
  - spend_bind (fun (_ : unit) L' => L' = handlers_pending hs); [case_match; by spend|].
    intros [] L' ->. spend. by apply stay_active.
Qed.

(** The events an active pool handles without leaving its state. *)
Definition serving (pe : PoolEvent) : bool :=
  match pe with Close _ | Refresh _ | PoolOutdated => false | _ => true end.

Lemma serving_spends sm hs ns pe :
  serving pe = true -> map_Forall (fun _ r => rh_inv r) hs ->
  spends (handlers_pending hs ++ sent pe) (handle_active sm hs ns pe)
    (still_active (forall k, request_id pe = Some k -> hs !! k = None)
       (dom hs ∪ match request_id pe with Some k => {[k]} | None => ∅ end) ns).
Proof.
  intros Hs Hi. destruct pe; try done; cbn [sent]; try (rewrite app_nil_r);
    cbn [handle_active request_id]; rewrite ?(right_id_L ∅ (∪)).
  all: try (spend; by apply stay_active).
  - by apply node_reply_spends.
  - by apply send_request_spends.
  - by apply timeout_spends.
Qed.

Lemma terminate_all_spends l :
  Forall (fun kr => rh_inv kr.2) l ->
  spends (concat (map (fun kr => rh_pending kr.2) l)) (terminate_all l) (fun _ L' => L' = []).
Proof.
  induction 1 as [|[k r] l Hr Hl IH]; cbn [terminate_all map concat snd]; [by spend|].
  spend_bind (fun (_ : R H * option PoolEvent) L' => L' = concat (map (fun kr => rh_pending kr.2) l)); [|].
  - intros files [r' ev] effs files' E. unfold handle in E.
    destruct (rh_process_event r files _) as [[[[r1 ev1] e1]| |] f1] eqn:Er; try done.
    injection E as <- <- <- <-. destruct (rh_step _ _ _ _ _ _ _ Hr Er) as [_ Hp].
    rewrite (rh_terminate _ _ _ _ _ _ Hr Er), app_nil_r in Hp.
    eexists. split; [done|]. by rewrite Hp, submitted_req.
  - intros _ L' ->. exact IH.
Qed.

Lemma spends_frame {A} L F (m : P A) (Q : A -> list Z -> Prop) :
  spends L m Q -> spends (L ++ F) m (fun a L' => exists L0, L' = (L0 ++ F)%list /\ Q a L0).
Proof.
  intros Hs files a effs files' E. destruct (Hs _ _ _ _ E) as (L0 & HQ & HL0).
  exists (L0 ++ F)%list. split; [by exists L0|]. by rewrite HL0, app_assoc.
Qed.

Lemma spends_weaken {A} L L2 (m : P A) (Q : A -> list Z -> Prop) : L2 ≡ₚ L -> spends L m Q -> spends L2 m Q.
Proof.
  intros Hp Hs files a effs files' E. destruct (Hs _ _ _ _ E) as (L' & HQ & HL'). exists L'.
  split; [done|]. by rewrite Hp.
Qed.

Context (handlers_iter_perm : forall hs, handlers_iter hs ≡ₚ map_to_list hs).

Lemma close_active_spends sm hs ns c :
  map_Forall (fun _ r => rh_inv r) hs ->
  spends (handlers_pending hs) (handle_active sm hs ns (Close c)) (fun st L' => st = Closed /\ L' = []).
Proof using HL handlers_iter_perm.
  intros Hi. cbn [handle_active]. spend_bind (fun (_ : unit) L' => L' = handlers_pending hs); [by spend|].
  intros [] L' ->. eapply spends_bind.
  - eapply spends_weaken; [|apply (terminate_all_spends (handlers_iter hs))].
    + unfold handlers_pending. by rewrite handlers_iter_perm.
    + rewrite handlers_iter_perm. apply Forall_forall. intros [k r] Hin%elem_of_map_to_list. by apply (Hi k).
  - intros _ L' ->. by spend.
Qed.

(** What is left to answer covers what the state owes. *)
Definition covered (st : PoolState) (L' : list Z) : Prop := state_ok st /\ state_pending st ⊆+ L'.

Lemma quiet_covered L st L' : quiet L st L' -> covered st L'.
Proof. intros (-> & Hok & Hp). split; [done|]. rewrite Hp. apply submseteq_nil_l. Qed.

Lemma step_covered sm pe :
  state_ok (pool_state sm) ->
  spends (state_pending (pool_state sm) ++ sent pe) (handle_pool_state sm pe) covered.
Proof using HL handlers_iter_perm.
  intros Hok. destruct (pool_state sm) as [|rh c f|hs ns|rh c f| |] eqn:Es.
  3: { unfold handle_pool_state. rewrite Es. cbn [state_pending state_ok] in *.
       destruct (serving pe) eqn:Hs.
       - eapply spends_mono; [|by apply serving_spends]. intros st L' (hs' & -> & Hi & _ & Hp & _). done.
       - destruct pe; try done; cbn [sent]; rewrite app_nil_r.
         + eapply spends_mono; [|by apply close_active_spends]. intros st L' [-> ->]. done.
         + eapply spends_mono; [apply quiet_covered|apply refresh_spends].
         + eapply spends_mono; [apply (quiet_covered (handlers_pending hs))|by spend]. }
  all: eapply spends_mono; [apply quiet_covered|apply inactive_quiet; by rewrite ?Es].
Qed.

Definition sm_covered (sm : PoolSM) (L' : list Z) : Prop := covered (pool_state sm) L'.

Lemma event_covered sm pe L :
  state_ok (pool_state sm) -> (state_pending (pool_state sm) ++ sent pe)%list ⊆+ L ->
  spends L (handle_pool_event sm pe) sm_covered.
Proof using HL handlers_iter_perm.
  intros Hok [F HF]%submseteq_Permutation. unfold handle_pool_event. eapply spends_weaken; [exact HF|].
  eapply spends_bind; [apply spends_frame, step_covered; exact Hok|].
  intros st L' (L0 & -> & Hst & Hp). spend. split; [done|]. cbn [pool_state pool_step].
  etrans; [exact Hp|]. by apply submseteq_inserts_r.
Qed.

Lemma loop_covered sm es L :
  state_ok (pool_state sm) -> (state_pending (pool_state sm) ++ concat (map sent es))%list ⊆+ L ->
  spends L (pool_loop sm es) sm_covered.
Proof using HL handlers_iter_perm.
  revert sm L. induction es as [|pe es IH]; intros sm L Hok HL'; cbn [pool_loop map concat] in *.
  { spend. split; [done|]. by rewrite app_nil_r in HL'. }
  rewrite app_assoc in HL'. apply submseteq_Permutation in HL' as [F HF].
  eapply spends_weaken; [rewrite <-app_assoc in HF; exact HF|]. eapply spends_bind.
  - apply spends_frame, event_covered; [exact Hok|reflexivity].
  - intros sm' L' (L0 & -> & Hok' & Hp). apply IH; [done|].
    rewrite (app_assoc L0). apply submseteq_inserts_r. by apply submseteq_skips_r.
Qed.

(** C3: No submitted request is answered twice: in any run of an opened pool, over any
    sequence of events, the acknowledged commands are among the submitted ones, each
    acknowledged at most as often as it was submitted. *)
Theorem pool_never_answers_twice id timeout extended_timeout number_read_nodes files es sm' effs files' :
  pool_loop (pool_new id timeout extended_timeout number_read_nodes) es files = (Ok (sm', effs), files') ->
  submitted effs ⊆+ concat (map sent es).
Proof using HL handlers_iter_perm.
  intros E. destruct (loop_covered (pool_new id timeout extended_timeout number_read_nodes) es
    (concat (map sent es)) ltac:(done) ltac:(done) _ _ _ _ E) as (L' & _ & HL').
  rewrite HL'. by apply submseteq_inserts_r.
Qed.

Lemma loop_exact sm hs ns es c :
  pool_state sm = Active hs ns -> map_Forall (fun _ r => rh_inv r) hs ->
  Forall (fun pe => serving pe = true) es -> NoDup (omap request_id es) ->
  (forall k, k ∈ dom hs -> k ∉ omap request_id es) ->
  spends (handlers_pending hs ++ concat (map sent es)) (pool_loop sm (es ++ [Close c]))
    (fun sm' L' => pool_is_terminal sm' = true /\ L' = []).
Proof using HL handlers_iter_perm.
  revert sm hs. induction es as [|pe es IH]; intros sm hs Hs Hi Hall Hnd Hdis; cbn [app pool_loop map concat].
  - rewrite app_nil_r. eapply (spends_bind _ _ _ (fun sm' L' => pool_is_terminal sm' = true /\ L' = [])).
    + unfold handle_pool_event, handle_pool_state. rewrite Hs.
      eapply spends_bind; [by apply close_active_spends|]. intros st L' [-> ->]. by spend.
    + intros sm' L' [Ht ->]. by spend.
  - apply Forall_cons in Hall as [Hpe Hall]. cbn [omap list_omap] in Hnd, Hdis.
    eapply (spends_bind _ _ _ (fun sm' L' => exists hs', pool_state sm' = Active hs' ns /\
      map_Forall (fun _ r => rh_inv r) hs' /\
      dom hs' ⊆ dom hs ∪ match request_id pe with Some k => {[k]} | None => ∅ end /\
      (handlers_pending hs' ++ concat (map sent es))%list ≡ₚ L')).
    + unfold handle_pool_event, handle_pool_state. rewrite Hs. rewrite app_assoc.
      eapply spends_bind; [apply spends_frame, serving_spends; done|].
      intros st L' (L0 & -> & hs' & -> & Hi' & Hd & _ & Hx). spend.
      exists hs'. repeat split; try done. rewrite Hx; [done|]. intros k Hk. apply not_elem_of_dom.
      intros Hin. apply (Hdis k Hin). rewrite Hk. constructor.
    + intros sm' L' (hs' & Hs' & Hi' & Hd & Hp).
      eapply spends_weaken; [symmetry; exact Hp|]. apply IH; try done.
      * by destruct (request_id pe); [apply NoDup_cons in Hnd as [_ ?]|].
      * intros k Hk Hin. destruct (request_id pe) as [k'|] eqn:Ek.
        -- apply NoDup_cons in Hnd as [Hni _]. apply Hd, elem_of_union in Hk as [Hk|Hk].
           ++ apply (Hdis k Hk). by constructor.
           ++ apply elem_of_singleton in Hk as ->. done.
        -- apply Hd, elem_of_union in Hk as [Hk|Hk]; [by apply (Hdis k)|set_solver].
Qed.

(** C4: An active pool answers every request: over any sequence of submissions with
    distinct request ids, replies and timeouts, followed by closing the pool, every
    submitted command is acknowledged exactly as often as it was submitted. *)
Theorem active_pool_answers_every_request sm ns es c files sm' effs files' :
  pool_state sm = Active ∅ ns ->
  Forall (fun pe => serving pe = true) es -> NoDup (omap request_id es) ->
  pool_loop sm (es ++ [Close c]) files = (Ok (sm', effs), files') ->
  pool_is_terminal sm' = true /\ submitted effs ≡ₚ concat (map sent es).
Proof using HL handlers_iter_perm.
  intros Hs Hall Hnd E.
  destruct (loop_exact sm ∅ ns es c Hs ltac:(apply map_Forall_empty) Hall Hnd ltac:(set_solver) _ _ _ _ E)
    as (L' & [Ht ->] & Hp).
  split; [done|]. unfold handlers_pending in Hp. rewrite map_to_list_empty, app_nil_r in Hp. by symmetry.
Qed.

(** Refreshing an active pool forgets the requests that are waiting: their commands
    are not acknowledged then or later, however the run goes on. *)
Theorem refresh_forgets_requests sm hs ns c es files sm' effs files' id :
  pool_state sm = Active hs ns -> map_Forall (fun _ r => rh_inv r) hs ->
  pool_loop sm (Refresh c :: es) files = (Ok (sm', effs), files') ->
  id ∉ concat (map sent es) -> id ∉ submitted effs.
Proof using HL handlers_iter_perm.
  intros Hs Hi E Hni Hin.
  assert (Hsp : spends (concat (map sent es)) (pool_loop sm (Refresh c :: es)) sm_covered).
  { cbn [pool_loop]. eapply (spends_bind _ _ _ (fun sm1 L' => L' = concat (map sent es) /\
      state_ok (pool_state sm1) /\ state_pending (pool_state sm1) = [])).
    - unfold handle_pool_event, handle_pool_state. rewrite Hs. cbn [handle_active].
      eapply spends_bind; [apply refresh_spends|]. intros st L' (-> & Hok & Hp). by spend.
    - intros sm1 L' (-> & Hok & Hp). apply loop_covered; [done|]. by rewrite Hp. }
  destruct (Hsp _ _ _ _ E) as (L' & _ & HL'). apply Hni. rewrite HL'. apply elem_of_app. by left.
Qed.

(** A request submitted while the pool is not active, for example while it catches up,
    is dropped: its command is not acknowledged then or later. *)
Theorem request_outside_active_is_dropped sm id msg t to es files sm' effs files' :
  state_ok (pool_state sm) -> (forall hs ns, pool_state sm <> Active hs ns) ->
  pool_loop sm (SendRequest id msg t to :: es) files = (Ok (sm', effs), files') ->
  id ∉ concat (map sent es) -> id ∉ submitted effs.
Proof using HL handlers_iter_perm.
  intros Hok Hna E Hni Hin.
  assert (Hsp : spends (concat (map sent es)) (pool_loop sm (SendRequest id msg t to :: es)) sm_covered).
  { cbn [pool_loop]. eapply (spends_bind _ _ _ (fun sm1 L' => L' = concat (map sent es) /\
      state_ok (pool_state sm1) /\ state_pending (pool_state sm1) = [])).
    - unfold handle_pool_event.
      eapply spends_bind; [by apply inactive_quiet|]. intros st L' (-> & Hok' & Hp). by spend.
    - intros sm1 L' (-> & Hok' & Hp). apply loop_covered; [done|]. by rewrite Hp. }
  destruct (Hsp _ _ _ _ E) as (L' & _ & HL'). apply Hni. rewrite HL'. apply elem_of_app. by left.
Qed.

End Pool.

(** ** The request handlers of the pool *)
Section Impl.
Context {C : Codec} {B : BlsOps}.
Context (p : Profile) (fuel : nat) (bsearch : list Z -> Z -> bool * nat).
Context (get_sp_parser : string -> option (string -> option (list ParsedSP))).
Context (set_iter : list NodeResponse -> list NodeResponse).
Context (now threshold : Z) (gen : Generator).
Context (ledger_status_json : LedgerStatus -> string).
Context (catchup_req_json : CatchupReq -> option string).

(** [RequestHandlerImpl]. *)
Definition RequestHandlerImpl : RequestHandlerOps B := {|
  R := option (@RequestSM B);
  rh_new f cmd_ids nodes timeout extended_timeout number_read_nodes :=
    Some (sm_new f cmd_ids nodes timeout extended_timeout number_read_nodes);
  rh_process_event r files re :=
    process_event p fuel bsearch get_sp_parser set_iter now threshold gen ledger_status_json catchup_req_json
      r files re;
  rh_is_terminal r := match r with Some sm => is_terminal sm | None => true end
|}.
#[local] Existing Instance RequestHandlerImpl.

(** The commands of a machine that has not finished. *)
Definition impl_pending (r : option (@RequestSM B)) : list Z :=
  match r with
  | Some sm => if is_terminal sm then [] else sm_cmd_ids sm
  | None => []
  end.
Definition impl_inv (r : option (@RequestSM B)) : Prop :=
  match r with
  | Some sm => sm_cmd_ids sm = [] \/ custom (sm_state sm) \/ sm_state sm = Finish
  | None => True
  end.

Lemma acked_map (effs : list Effect) ids msg :
  acks effs = map (fun id => (id, msg)) ids -> acked effs = ids.
Proof. intros E. unfold acked. rewrite E. change (list_fmap _ _ fst) with (fmap (M := list) (A := Z * (string + IndyError)) fst). rewrite <-list_fmap_compose. apply list_fmap_id. Qed.

Lemma settled_accounts (sm : @RequestSM B) st effs :
  settled sm st effs ->
  impl_inv (Some (with_state sm st)) /\
  sm_cmd_ids sm ≡ₚ (acked effs ++ impl_pending (Some (with_state sm st)))%list.
Proof.
  intros [[-> [msg Hm]]|[Hc Hn]].
  - split; [by right; right|]. cbn. by rewrite (acked_map _ _ _ Hm), app_nil_r.
  - split; [by right; left|]. unfold acked. rewrite Hn. cbn. by destruct st.
Qed.

Lemma impl_step r files re r' ev effs files' :
  impl_inv r -> rh_process_event r files re = (Ok (r', ev, effs), files') ->
  impl_inv r' /\ impl_pending r ≡ₚ (acked effs ++ impl_pending r')%list.
Proof.
  intros Hi. cbn [rh_process_event RequestHandlerImpl]. unfold process_event.
  destruct re as [re|]; [|intros [= <- _ <- _]; done].
  destruct r as [sm|]; [|by intros [= <- _ <- _]].
  destruct (handle_event _ _ _ _ _ _ _ _ _ _ sm files re) as [[[[sm' ev'] effs']| |] f1] eqn:E; try done.
  intros [= <- _ <- _]. apply handle_event_inv in E as (st & E & ->).
  destruct Hi as [Hn|[Hc|Hf]].
  - destruct (handle_state_answers _ _ _ _ _ _ _ _ _ _ _ _ _ _ _ _ _ E) as [Ha|[-> [msg Ha]]].
    + split; [by left|]. unfold acked. rewrite Ha. unfold impl_pending. cbn [sm_cmd_ids with_state].
      rewrite Hn. by do 2 case_match.
    + rewrite Hn in Ha. split; [by left|]. unfold acked. rewrite Ha. unfold impl_pending.
      cbn [sm_cmd_ids with_state]. rewrite Hn. by do 2 case_match.
  - assert (Hnt : impl_pending (Some sm) = sm_cmd_ids sm)
      by (unfold impl_pending, is_terminal; by destruct (sm_state sm)).
    rewrite Hnt. eapply settled_accounts, handle_state_settled; done.
  - unfold handle_state in E. rewrite Hf in E. injection E as <- _ <- _. split; [by right; right|].
    unfold impl_pending, is_terminal. cbn. by rewrite Hf.
Qed.

Lemma start_settled (sm : @RequestSM B) re st ev effs :
  sm_state sm = Start -> is_request re = true ->
  handle_start p ledger_status_json catchup_req_json sm re = Ok (st, ev, effs) -> settled sm st effs.
Proof.
  intros Hs Hr E. destruct re; try done; unfold handle_start in E; cbn in E.
  - apply obind_ok in E as (n & _ & [= <- _ <-]). right. split; [done|].
    apply (acks_replicate _ (Resend _ _)).
  - injection E as <- _ <-. by right.
  - destruct nodes as [s|]; [|injection E as <- _ <-; by right].
    destruct (parse_node_list s); [case_match|]; injection E as <- _ <-; first [by right|apply send_settled_plain].
Qed.

(** The machine of [request_handler.rs] keeps the promises of the interface. *)
#[local] Instance RequestHandlerImpl_laws : RequestHandlerLaws RequestHandlerImpl.
Proof.
  refine {| rh_pending := impl_pending : R RequestHandlerImpl -> _; rh_inv := impl_inv |}.
  - intros f nodes t e n. split; [by left|done].
  - apply impl_step.
  - intros f ids nodes t e n files re r' ev effs files' Hr E. cbn [rh_process_event rh_new RequestHandlerImpl] in E. unfold process_event in E.
    destruct (handle_event _ _ _ _ _ _ _ _ _ _ _ files re) as [[[[sm' ev'] effs']| |] f1] eqn:E1; try done.
    injection E as <- _ <- _. apply handle_event_inv in E1 as (st & E1 & ->).
    unfold handle_state in E1. cbn [sm_state sm_new] in E1. injection E1 as E1 _.
    apply start_settled in E1; [|done|done]. by apply settled_accounts in E1.
  - intros r files r' ev effs files' Hi E. destruct r as [sm|].
    2: { cbn in E. by injection E as <- _ _ _. }
    cbn [rh_process_event RequestHandlerImpl] in E. unfold process_event in E. destruct (handle_event _ _ _ _ _ _ _ _ _ _ sm files RTerminate) as [[[[sm' ev'] effs']| |] f1] eqn:E1; try done.
    injection E as <- _ _ _. apply handle_event_inv in E1 as (st & E1 & ->).
    destruct Hi as [Hn|Hi].
    + unfold impl_pending. cbn [sm_cmd_ids with_state]. rewrite Hn. by case_match.
    + unfold handle_state in E1. destruct (sm_state sm); cbn in E1; destruct Hi; try done;
        injection E1 as <- _ _ _; done.
  - intros [sm|] Hi Ht; [|done]. cbn in Ht |- *. by rewrite Ht.
Defined.
End Impl.

(** ** A concrete pool *)
Definition demo_pool_codec : Codec := {|
  base64_encode := string_of_bytes;
  base64_decode s := Some (as_bytes s);
  from_base58 _ := None;
  to_base58 := string_of_bytes;
  json_from_str s :=
    if String.eqb s "request"
    then Some (Object [("operation", Object [("type", VString "1")]); ("reqId", Number 1)])
    else Some (Object [("op", VString "REPLY"); ("result", VString s)]);
  json_to_string _ := "";
  rmp_to_vec _ := None;
  rmp_to_vec_named _ := None;
  hex_encode := string_of_bytes;
  openssl_hash b := Ok b;
  rlp_items v := Some [Data v];
  rlp_encode := demo_flatten;
  sha3_256 v := v
|}.

Definition demo_impl : RequestHandlerOps demo_bls :=
  RequestHandlerImpl (C := demo_pool_codec) (B := demo_bls) Debug 3 linear_search (fun _ => None) id 0 300 tt
    (fun _ => "") (fun _ => None).
Definition demo_laws : RequestHandlerLaws demo_impl :=
  RequestHandlerImpl_laws (C := demo_pool_codec) (B := demo_bls) Debug 3 linear_search (fun _ => None) id 0 300 tt
    (fun _ => "") (fun _ => None).

Definition demo_message (s : string) : option Message := Some (MReply (ReplyV0 1)).

Definition demo_pool_sm (st : PoolState (H := demo_impl)) : PoolSM (H := demo_impl) := mkPoolSM 1 20 60 2 st.
Definition demo_pool_loop (sm : PoolSM (H := demo_impl)) (es : list PoolEvent) :=
  pool_loop (C := demo_pool_codec) demo_message (fun _ => None) (fun _ => None) Some (fun _ => None) map_to_list 2
    map_to_list sm es demo_files.

Definition demo_requests : list PoolEvent :=
  [SendRequest 7 "request" None None; NodeReply "x" "Node1"; SendRequest 8 "not a request" None None;
   PoolTimeoutEvent "1" "Node2"; NodeReply "x" "Node3"].

Definition demo_ok {A} (r : outcome A * PoolFiles) : bool := match r.1 with Ok _ => true | _ => false end.

Lemma demo_ok_inv {A B'} (r : outcome (A * B') * PoolFiles) :
  demo_ok r = true -> exists a b files, r = (Ok (a, b), files).
Proof. destruct r as [[[a b]| |] files]; try done. intros _. by exists a, b, files. Qed.

(** A theorem about the pool with the settings of [demo_pool_loop]. *)
Ltac demo_with thm :=
  eapply (thm demo_pool_codec demo_bls demo_impl demo_message (fun _ => None) (fun _ => None) Some
            (fun _ => None) map_to_list 2%Z map_to_list).

Lemma pool_never_answers_twice_witness :
  exists sm' effs files',
    demo_pool_loop (pool_new 1 20 60 2) [CheckCache 5; SendRequest 7 "request" None None; Close 9]%Z =
      (Ok (sm', effs), files') /\
    submitted effs ⊆+ concat (map sent [CheckCache 5; SendRequest 7 "request" None None; Close 9]%Z).
Proof.
  destruct (demo_ok_inv (demo_pool_loop (pool_new 1 20 60 2)
    [CheckCache 5; SendRequest 7 "request" None None; Close 9]%Z)) as (sm' & effs & files' & E);
    [vm_compute; reflexivity|].
  exists sm', effs, files'. split; [exact E|].
  demo_with (@pool_never_answers_twice); [exact demo_laws|done|exact E].
Defined.

Definition demo_active : PoolSM (H := demo_impl) := demo_pool_sm (Active ∅ demo_pool).

Lemma active_pool_answers_every_request_witness :
  exists sm' effs files',
    demo_pool_loop demo_active (demo_requests ++ [Close 9%Z]) = (Ok (sm', effs), files') /\
    pool_is_terminal sm' = true /\ submitted effs ≡ₚ concat (map sent demo_requests).
Proof.
  destruct (demo_ok_inv (demo_pool_loop demo_active (demo_requests ++ [Close 9%Z])))
    as (sm' & effs & files' & E); [vm_compute; reflexivity|].
  exists sm', effs, files'. split; [exact E|].
  demo_with (@active_pool_answers_every_request); cycle -1; [exact E|exact demo_laws|done|reflexivity| |].
  - by repeat constructor.
  - apply (bool_decide_unpack _). vm_compute. exact I.
Defined.

Definition demo_waiting : gmap string (R demo_impl) := {["1" := Some (demo_sm fresh_consensus)]}.

Lemma refresh_forgets_requests_witness :
  exists sm' effs files',
    demo_pool_loop (demo_pool_sm (Active demo_waiting demo_pool)) [Refresh 5; Close 9]%Z =
      (Ok (sm', effs), files') /\ 7%Z ∉ submitted effs.
Proof.
  destruct (demo_ok_inv (demo_pool_loop (demo_pool_sm (Active demo_waiting demo_pool)) [Refresh 5; Close 9]%Z))
    as (sm' & effs & files' & E); [vm_compute; reflexivity|].
  exists sm', effs, files'. split; [exact E|].
  refine (refresh_forgets_requests (C := demo_pool_codec) (HL := demo_laws) demo_message (fun _ => None)
    (fun _ => None) Some (fun _ => None) map_to_list 2 map_to_list (fun _ => reflexivity _)
    (demo_pool_sm (Active demo_waiting demo_pool)) demo_waiting demo_pool 5 [Close 9%Z] demo_files
    sm' effs files' 7 eq_refl _ E _); [|cbn; apply not_elem_of_nil].
  apply map_Forall_singleton. by right; left.
Defined.

Lemma request_outside_active_is_dropped_witness :
  exists sm' effs files',
    demo_pool_loop (demo_pool_sm Terminated) [SendRequest 7 "request" None None; Close 9]%Z =
      (Ok (sm', effs), files') /\ 7%Z ∉ submitted effs.
Proof.
  destruct (demo_ok_inv (demo_pool_loop (demo_pool_sm Terminated)
    [SendRequest 7 "request" None None; Close 9]%Z)) as (sm' & effs & files' & E); [vm_compute; reflexivity|].
  exists sm', effs, files'. split; [exact E|].
  refine (request_outside_active_is_dropped (C := demo_pool_codec) (HL := demo_laws) demo_message (fun _ => None)
    (fun _ => None) Some (fun _ => None) map_to_list 2 map_to_list (fun _ => reflexivity _)
    (demo_pool_sm Terminated) 7 "request" None None [Close 9%Z] demo_files sm' effs files' _ _ E _);
    [done|done|cbn; apply not_elem_of_nil].
Defined.

Definition demo_syncing : PoolSM (H := demo_impl) := demo_pool_sm (SyncCatchup (H := demo_impl) (None : R demo_impl) 5 false).
Definition demo_pool_event (sm : PoolSM (H := demo_impl)) (pe : PoolEvent) :=
  handle_pool_event (C := demo_pool_codec) demo_message (fun _ => None) (fun _ => None) Some (fun _ => None)
    map_to_list 2 map_to_list sm pe demo_files.

Lemma catchup_acknowledged_witness :
  exists sm' effs files', demo_pool_event demo_syncing (Synced mt_default) = (Ok (sm', effs), files') /\
    catchup_answer demo_syncing 5 false (pool_state sm') (pool_acks effs).
Proof.
  destruct (demo_ok_inv (demo_pool_event demo_syncing (Synced mt_default))) as (sm' & effs & files' & E);
    [vm_compute; reflexivity|].
  exists sm', effs, files'. split; [exact E|].
  demo_with (@catchup_acknowledged); [right; reflexivity|exact E].
Defined.

Lemma pool_transitions_witness :
  exists sm' effs files', demo_pool_event demo_syncing (Synced mt_default) = (Ok (sm', effs), files') /\
    pool_allowed (pool_state demo_syncing) (pool_state sm').
Proof.
  destruct (demo_ok_inv (demo_pool_event demo_syncing (Synced mt_default))) as (sm' & effs & files' & E);
    [vm_compute; reflexivity|].
  exists sm', effs, files'. split; [exact E|].
  demo_with (@pool_transitions). exact E.
Defined.

Definition demo_bad_ledger : MerkleTree := mkMerkleTree (ref_tree demo_hash [[1]]%Z) 0 1 0.

Lemma unreadable_nodes_leave_open_unanswered_witness :
  exists effs, demo_pool_event demo_syncing (Synced demo_bad_ledger) =
      (Ok (pool_step demo_syncing Terminated, effs), demo_files) /\ pool_acks effs = [].
Proof.
  demo_with (@unreadable_nodes_leave_open_unanswered); try reflexivity.
Defined.
