(* ===== verification/VcxErrors.v ===== *)
(** * Errors of libvcx

    [libvcx/src/error/mod.rs] and the tables of [utils/error.rs]: the kinds of error, the
    code the C interface returns for each, the chain of causes an error carries and how it
    is printed (the text becomes the comment of the problem reports sent to the other
    party).

    Shown: no two kinds share a code, and every kind has a text of its own in the table, so
    that the fall-back to the unknown error is never taken for them. *)

From stdpp Require Import base list strings numbers gmap pretty.
From Stdlib Require Import ZArith Lia.
From S2P Require Import Prelude External.

Open Scope string_scope.

Module VcxErrorKind.
(** [VcxErrorKind]. *)
Inductive t :=
  | InvalidState | InvalidConfiguration | InvalidHandle | InvalidJson | InvalidOption
  | InvalidMessagePack | ObjectCacheError | NotReady | IOError | LibindyInvalidStructure
  | TimeoutLibindy | InvalidLibindyParam | AlreadyInitialized | ActionNotSupported
  | CreateConnection | InvalidConnectionHandle | InvalidInviteDetail | InvalidRedirectDetail
  | DeleteConnection | GeneralConnectionError | NoPaymentInformation | InsufficientTokenAmount
  | InvalidPaymentAddress | CreateCredDef | CredDefAlreadyCreated | InvalidCredDefHandle
  | CreateRevRegDef | InvalidRevocationDetails | InvalidRevocationEntry
  | InvalidRevocationTimestamp | InvalidCredentialHandle | CreateCredentialRequest
  | InvalidIssuerCredentialHandle | InvalidCredentialRequest | InvalidCredential
  | InvalidAttributesStructure | InvalidProofHandle | InvalidDisclosedProofHandle
  | InvalidProof | InvalidSchema | InvalidProofCredentialData | CreateProof
  | InvalidProofRequest | CreateSchema | InvalidSchemaHandle | InvalidSchemaSeqNo
  | DuplicationSchema | UnknownSchemaRejection | InvalidGenesisTxnPath | CreatePoolConfig
  | PoolLedgerConnect | InvalidLedgerResponse | NoPoolOpen | PostMessageFailed | WalletCreate
  | MissingWalletName | MissingExportedWalletPath | MissingBackupKey | WalletAccessFailed
  | InvalidWalletHandle | DuplicationWallet | WalletRecordNotFound | DuplicationWalletRecord
  | WalletNotFound | WalletAlreadyOpen | MissingWalletKey | DuplicationMasterSecret
  | DuplicationDid | LoggingError | EncodeError | UnknownError | InvalidDid | InvalidVerkey
  | InvalidNonce | InvalidUrl | MissingPaymentMethod | SerializationError | NotBase58
  | InvalidHttpResponse | NoEndpoint | InvalidMessages | Common (n : Z) | LibndyError (n : Z)
  | UnknownLibndyError | NoAgentInformation.

#[global] Instance t_eq_dec : EqDecision t.
Proof. solve_decision. Defined.

(** The texts of [#[fail(display = ..)]]. *)
Definition display (k : t) : string :=
  match k with
  | InvalidState => "Object is in invalid state for requested operation"
  | InvalidConfiguration => "Invalid Configuration"
  | InvalidHandle => "Obj was not found with handle"
  | InvalidJson => "Invalid JSON string"
  | InvalidOption => "Invalid Option"
  | InvalidMessagePack => "Invalid MessagePack"
  | ObjectCacheError => "Object cache error"
  | NotReady => "Object not ready for specified action"
  | IOError => "IO Error, possibly creating a backup wallet"
  | LibindyInvalidStructure => "Object (json, config, key, credential and etc...) passed to libindy has invalid structure"
  | TimeoutLibindy => "Waiting for callback timed out"
  | InvalidLibindyParam => "Parameter passed to libindy was invalid"
  | AlreadyInitialized => "Library already initialized"
  | ActionNotSupported => "Action is not supported"
  | CreateConnection => "Could not create connection"
  | InvalidConnectionHandle => "Invalid Connection Handle"
  | InvalidInviteDetail => "Invalid invite details structure"
  | InvalidRedirectDetail => "Invalid redirect details structure"
  | DeleteConnection => "Cannot Delete Connection. Check status of connection is appropriate to be deleted from agency."
  | GeneralConnectionError => "Error with Connection"
  | NoPaymentInformation => "No payment information associated with object"
  | InsufficientTokenAmount => "Insufficient amount of tokens to process request"
  | InvalidPaymentAddress => "Invalid payment address"
  | CreateCredDef => "Call to create Credential Definition failed"
  | CredDefAlreadyCreated => "Can't create, Credential Def already on ledger"
  | InvalidCredDefHandle => "Invalid Credential Definition handle"
  | CreateRevRegDef => "Failed to create Revocation Registration Definition"
  | InvalidRevocationDetails => "Invalid Revocation Details"
  | InvalidRevocationEntry => "Unable to Update Revocation Delta On Ledger"
  | InvalidRevocationTimestamp => "Invalid Credential Revocation timestamp"
  | InvalidCredentialHandle => "Invalid credential handle"
  | CreateCredentialRequest => "could not create credential request"
  | InvalidIssuerCredentialHandle => "Invalid Credential Issuer Handle"
  | InvalidCredentialRequest => "Invalid Credential Request"
  | InvalidCredential => "Invalid credential json"
  | InvalidAttributesStructure => "Attributes provided to Credential Offer are not correct, possibly malformed"
  | InvalidProofHandle => "Invalid proof handle"
  | InvalidDisclosedProofHandle => "Obj was not found with handle"
  | InvalidProof => "Proof had invalid format"
  | InvalidSchema => "Schema was invalid or corrupt"
  | InvalidProofCredentialData => "The Proof received does not have valid credentials listed."
  | CreateProof => "Could not create proof"
  | InvalidProofRequest => "Proof Request Passed into Libindy Call Was Invalid"
  | CreateSchema => "Could not create schema"
  | InvalidSchemaHandle => "Invalid Schema Handle"
  | InvalidSchemaSeqNo => "No Schema for that schema sequence number"
  | DuplicationSchema => "Duplicate Schema: Ledger Already Contains Schema For Given DID, Version, and Name Combination"
  | UnknownSchemaRejection => "Unknown Rejection of Schema Creation, refer to libindy documentation"
  | InvalidGenesisTxnPath => "Invalid genesis transactions path."
  | CreatePoolConfig => "Formatting for Pool Config are incorrect."
  | PoolLedgerConnect => "Connection to Pool Ledger."
  | InvalidLedgerResponse => "Invalid response from ledger for paid transaction"
  | NoPoolOpen => "No Pool open. Can't return handle."
  | PostMessageFailed => "Message failed in post"
  | WalletCreate => "Error Creating a wallet"
  | MissingWalletName => "Missing wallet name in config"
  | MissingExportedWalletPath => "Missing exported wallet path in config"
  | MissingBackupKey => "Missing exported backup key in config"
  | WalletAccessFailed => "Attempt to open wallet with invalid credentials"
  | InvalidWalletHandle => "Invalid Wallet or Search Handle"
  | DuplicationWallet => "Indy wallet already exists"
  | WalletRecordNotFound => "Wallet record not found"
  | DuplicationWalletRecord => "Record already exists in the wallet"
  | WalletNotFound => "Wallet not found"
  | WalletAlreadyOpen => "Indy wallet already open"
  | MissingWalletKey => "Configuration is missing wallet key"
  | DuplicationMasterSecret => "Attempted to add a Master Secret that already existed in wallet"
  | DuplicationDid => "Attempted to add a DID to wallet when that DID already exists in wallet"
  | LoggingError => "Logging Error"
  | EncodeError => "Could not encode string to a big integer."
  | UnknownError => "Unknown Error"
  | InvalidDid => "Invalid DID"
  | InvalidVerkey => "Invalid VERKEY"
  | InvalidNonce => "Invalid NONCE"
  | InvalidUrl => "Invalid URL"
  | MissingPaymentMethod => "Configuration is missing the Payment Method parameter"
  | SerializationError => "Unable to serialize"
  | NotBase58 => "Value needs to be base58"
  | InvalidHttpResponse => "Invalid HTTP response."
  | NoEndpoint => "No Endpoint set for Connection Object"
  | InvalidMessages => "Error Retrieving messages from API"
  | Common n => "Common error " ++ u64_to_string n
  | LibndyError n => "Libndy error " ++ u64_to_string n
  | UnknownLibndyError => "Unknown libindy error"
  | NoAgentInformation => "No Agent pairwise information"
  end.

(** [impl From<VcxErrorKind> for u32]. *)
Definition code (k : t) : Z :=
  match k with
  | InvalidState => 1081
  | InvalidConfiguration => 1004
  | InvalidHandle => 1048
  | InvalidJson => 1016
  | InvalidOption => 1007
  | InvalidMessagePack => 1019
  | ObjectCacheError => 1070
  | NotReady => 1005
  | IOError => 1074
  | LibindyInvalidStructure => 1080
  | TimeoutLibindy => 1038
  | InvalidLibindyParam => 1067
  | AlreadyInitialized => 1044
  | ActionNotSupported => 1103
  | CreateConnection => 1061
  | InvalidConnectionHandle => 1003
  | InvalidInviteDetail => 1045
  | InvalidRedirectDetail => 1104
  | DeleteConnection => 1060
  | GeneralConnectionError => 1002
  | NoPaymentInformation => 1071
  | InsufficientTokenAmount => 1064
  | InvalidPaymentAddress => 1066
  | CreateCredDef => 1034
  | CredDefAlreadyCreated => 1039
  | InvalidCredDefHandle => 1037
  | CreateRevRegDef => 1095
  | InvalidRevocationDetails => 1091
  | InvalidRevocationEntry => 1092
  | InvalidRevocationTimestamp => 1093
  | InvalidCredentialHandle => 1053
  | CreateCredentialRequest => 1055
  | InvalidIssuerCredentialHandle => 1015
  | InvalidCredentialRequest => 1018
  | InvalidCredential => 1054
  | InvalidAttributesStructure => 1021
  | InvalidProofHandle => 1017
  | InvalidDisclosedProofHandle => 1049
  | InvalidProof => 1023
  | InvalidSchema => 1031
  | InvalidProofCredentialData => 1027
  | CreateProof => 1056
  | InvalidProofRequest => 1086
  | CreateSchema => 1041
  | InvalidSchemaHandle => 1042
  | InvalidSchemaSeqNo => 1040
  | DuplicationSchema => 1088
  | UnknownSchemaRejection => 1094
  | InvalidGenesisTxnPath => 1024
  | CreatePoolConfig => 1026
  | PoolLedgerConnect => 1025
  | InvalidLedgerResponse => 1082
  | NoPoolOpen => 1030
  | PostMessageFailed => 1010
  | WalletCreate => 1058
  | MissingWalletName => 1076
  | MissingExportedWalletPath => 1077
  | MissingBackupKey => 1078
  | WalletAccessFailed => 1075
  | InvalidWalletHandle => 1057
  | DuplicationWallet => 1051
  | WalletRecordNotFound => 1073
  | DuplicationWalletRecord => 1072
  | WalletNotFound => 1079
  | WalletAlreadyOpen => 1052
  | MissingWalletKey => 1069
  | DuplicationMasterSecret => 1084
  | DuplicationDid => 1083
  | LoggingError => 1090
  | EncodeError => 1022
  | UnknownError => 1001
  | InvalidDid => 1008
  | InvalidVerkey => 1009
  | InvalidNonce => 1011
  | InvalidUrl => 1013
  | MissingPaymentMethod => 1087
  | SerializationError => 1050
  | NotBase58 => 1014
  | InvalidHttpResponse => 1033
  | NoEndpoint => 1006
  | InvalidMessages => 1020
  | Common n => n
  | LibndyError n => n
  | UnknownLibndyError => 1035
  | NoAgentInformation => 1106
  end.

(** The kinds without an argument. *)
Definition named : list t :=
  [InvalidState; InvalidConfiguration; InvalidHandle; InvalidJson; InvalidOption;
   InvalidMessagePack; ObjectCacheError; NotReady; IOError; LibindyInvalidStructure;
   TimeoutLibindy; InvalidLibindyParam; AlreadyInitialized; ActionNotSupported;
   CreateConnection; InvalidConnectionHandle; InvalidInviteDetail; InvalidRedirectDetail;
   DeleteConnection; GeneralConnectionError; NoPaymentInformation; InsufficientTokenAmount;
   InvalidPaymentAddress; CreateCredDef; CredDefAlreadyCreated; InvalidCredDefHandle;
   CreateRevRegDef; InvalidRevocationDetails; InvalidRevocationEntry;
   InvalidRevocationTimestamp; InvalidCredentialHandle; CreateCredentialRequest;
   InvalidIssuerCredentialHandle; InvalidCredentialRequest; InvalidCredential;
   InvalidAttributesStructure; InvalidProofHandle; InvalidDisclosedProofHandle; InvalidProof;
   InvalidSchema; InvalidProofCredentialData; CreateProof; InvalidProofRequest; CreateSchema;
   InvalidSchemaHandle; InvalidSchemaSeqNo; DuplicationSchema; UnknownSchemaRejection;
   InvalidGenesisTxnPath; CreatePoolConfig; PoolLedgerConnect; InvalidLedgerResponse;
   NoPoolOpen; PostMessageFailed; WalletCreate; MissingWalletName; MissingExportedWalletPath;
   MissingBackupKey; WalletAccessFailed; InvalidWalletHandle; DuplicationWallet;
   WalletRecordNotFound; DuplicationWalletRecord; WalletNotFound; WalletAlreadyOpen;
   MissingWalletKey; DuplicationMasterSecret; DuplicationDid; LoggingError; EncodeError;
   UnknownError; InvalidDid; InvalidVerkey; InvalidNonce; InvalidUrl; MissingPaymentMethod;
   SerializationError; NotBase58; InvalidHttpResponse; NoEndpoint; InvalidMessages;
   UnknownLibndyError; NoAgentInformation].
End VcxErrorKind.

(** The errors of [utils/error.rs], in the order of their insertions. *)
Definition errors : list (Z * string) :=
  [(0%Z, "Success");
   (1001%Z, "Unknown Error");
   (1002%Z, "Error with Connection");
   (1003%Z, "Invalid Connection Handle");
   (1004%Z, "Invalid Configuration");
   (1005%Z, "Object not ready for specified action");
   (1006%Z, "No Endpoint set for Connection Object");
   (1007%Z, "Invalid Option");
   (1008%Z, "Invalid DID");
   (1009%Z, "Invalid VERKEY");
   (1010%Z, "Message failed in post");
   (1011%Z, "Invalid NONCE");
   (1012%Z, "Invalid DELEGATE");
   (1013%Z, "Invalid URL");
   (1014%Z, "Value needs to be base58");
   (1015%Z, "Invalid Credential Issuer Handle");
   (1016%Z, "Invalid JSON string");
   (1020%Z, "Error Retrieving messages from API");
   (1019%Z, "Invalid MessagePack");
   (1021%Z, "Attributes provided to Credential Offer are not correct, possibly malformed");
   (1017%Z, "Invalid Proof Handle");
   (1018%Z, "Invalid Credential Request");
   (1022%Z, "Could not encode string to a big integer.");
   (1023%Z, "Proof had invalid format");
   (1024%Z, "Must have valid genesis txn file path");
   (1026%Z, "Formatting for Pool Config are incorrect.");
   (1027%Z, "The Proof received does not have valid credentials listed.");
   (1025%Z, "Connection to Pool Ledger.");
   (1028%Z, "Call to indy submit request failed");
   (1029%Z, "Call to indy credential def request failed");
   (1030%Z, "No Pool open. Can't return handle.");
   (1031%Z, "Schema was invalid or corrupt");
   (1032%Z, "Proof is not compliant to proof request");
   (1033%Z, "Invalid HTTP response.");
   (1034%Z, "Call to create Credential Definition failed");
   (1035%Z, "Unknown libindy error");
   (1038%Z, "Waiting for callback timed out");
   (1036%Z, "Credential Def not in valid json");
   (1037%Z, "Invalid Credential Definition handle");
   (1039%Z, "Can't create, Credential Def already exists in wallet");
   (1040%Z, "No Schema for that schema sequence number");
   (1041%Z, "Could not create schema");
   (1042%Z, "Invalid Schema Handle");
   (1044%Z, "Library already initialized");
   (1045%Z, "Invalid invite details structure");
   (1043%Z, "Invalid master secret");
   (1048%Z, "Obj was not found with handle");
   (1049%Z, "Obj was not found with handle");
   (1050%Z, "Unable to serialize");
   (1051%Z, "Indy wallet already exists");
   (1052%Z, "Indy wallet already open");
   (1053%Z, "Invalid credential handle");
   (1054%Z, "Invalid credential json");
   (1055%Z, "could not create credential request");
   (1056%Z, "could not create proof");
   (1057%Z, "Invalid Wallet or Search Handle");
   (1058%Z, "Error Creating a wallet");
   (1059%Z, "Pool Name in config was invalid");
   (1060%Z, "Cannot Delete Connection. Check status of connection is appropriate to be deleted from agency.");
   (1061%Z, "Could not create connection");
   (1062%Z, "Invalid wallet keys...have you provisioned correctly?");
   (1063%Z, "Common Error");
   (1064%Z, "Insufficient amount of tokens to process request");
   (1065%Z, "Unknown ledger transaction type");
   (1068%Z, "Invalid Payment Details");
   (1066%Z, "Invalid payment address");
   (1067%Z, "Parameter passed to libindy was invalid");
   (1069%Z, "Configuration is missing wallet key");
   (1072%Z, "Record already exists in the wallet");
   (1073%Z, "Wallet record not found");
   (1074%Z, "IO Error, possibly creating a backup wallet");
   (1075%Z, "Attempt to open wallet with invalid credentials");
   (1070%Z, "Object cache error");
   (1071%Z, "No payment information associated with object");
   (213%Z, "Error from Indy: Duplicate Wallet Record");
   (212%Z, "Error from Indy: Wallet Item not found");
   (1076%Z, "Missing wallet name in config");
   (1077%Z, "Missing exported wallet path in config");
   (1078%Z, "Missing exported backup key in config");
   (1079%Z, "Wallet Not Found");
   (1080%Z, "Object (json, config, key, credential and etc...) passed to libindy has invalid structure");
   (1081%Z, "Object is in invalid state for requested operation");
   (1083%Z, "Attempted to add a DID to wallet when that DID already exists in wallet");
   (1084%Z, "Attempted to add a Master Secret that already existed in wallet");
   (1082%Z, "Invalid response from ledger for paid transaction");
   (1085%Z, "Unable to create thread");
   (1086%Z, "Proof Request Passed into Libindy Call Was Invalid");
   (1091%Z, "Invalid Revocation Details");
   (1095%Z, "Failed to create Revocation Registration Definition");
   (1093%Z, "Invalid Credential Revocation timestamp");
   (1092%Z, "Unable to Update Revocation Delta On Ledger");
   (1088%Z, "Duplicate Schema: Ledger Already Contains Schema For Given DID, Version, and Name Combination");
   (1094%Z, "Unknown Rejection of Schema Creation, refer to libindy documentation");
   (1089%Z, "Unknown Libindy Rejection");
   (1087%Z, "Configuration is missing the Payment Method parameter");
   (1090%Z, "Logging Error");
   (1100%Z, "Failed to decode attachment");
   (1101%Z, "This type of attachment can not be used");
   (1102%Z, "Unknown mime type");
   (1103%Z, "Action is not supported");
   (1104%Z, "Invalid redirect details structure");
   (1106%Z, "Agent pairwise information not found")].

(** [insert_c_message]: a number that is there already is a panic. *)
Definition insert_c_message (map : option (gmap Z string)) (error : Z * string) :
    option (gmap Z string) :=
  match map with
  | Some m => match m !! error.1 with Some _ => None | None => Some (<[error.1 := error.2]> m) end
  | None => None
  end.

Definition ERROR_C_MESSAGES : option (gmap Z string) := foldl insert_c_message (Some ∅) errors.

(** [error_message]: an unknown code has the text of [UNKNOWN_ERROR].  The table is there
    ([error_messages_there]). *)
Definition error_message (code_num : Z) : string :=
  match ERROR_C_MESSAGES with
  | Some map =>
      match map !! code_num with Some m => m | None => default "" (map !! 1001%Z) end
  | None => ""
  end.

(** [VcxError]: the kind and the texts below it in the chain of contexts. *)
Record VcxError := mkVcxError { kind : VcxErrorKind.t; causes : list string }.

#[export] Instance VcxError_eq_dec : EqDecision VcxError.
Proof. solve_decision. Defined.

Definition from_msg (k : VcxErrorKind.t) (msg : string) : VcxError := mkVcxError k [msg].

(** [impl From<VcxErrorKind> for VcxError]. *)
Definition vcx_error (k : VcxErrorKind.t) : VcxError :=
  from_msg k (error_message (VcxErrorKind.code k)).

(** [extend] and [map]: the context of the old kind becomes the message. *)
Definition extend (e : VcxError) (msg : string) : VcxError :=
  mkVcxError (kind e) (msg :: causes e).
Definition map_err (e : VcxError) (k : VcxErrorKind.t) (msg : string) : VcxError :=
  mkVcxError k (msg :: causes e).

Definition newline : string := String (Ascii.ascii_of_nat 10) EmptyString.

(** [impl Display for VcxError]. *)
Definition err_to_string (e : VcxError) : string :=
  "Error: " ++ VcxErrorKind.display (kind e) ++ newline ++
  String.concat "" (map (fun c => "  Caused by: " ++ c ++ newline) (causes e)).

(** A Rust [Result] of libvcx, or a panic. *)
Inductive VcxResult (A : Type) :=
  | VOk (a : A)
  | VErr (e : VcxError)
  | VPanic.
Arguments VOk {A} _.
Arguments VErr {A} _.
Arguments VPanic {A}.

#[export] Instance VcxResult_eq_dec {A} `{EqDecision A} : EqDecision (VcxResult A).
Proof. solve_decision. Defined.

(** [option.ok_or(err)]. *)
Definition ok_or {A} (o : option A) (e : VcxError) : VcxResult A :=
  match o with Some a => VOk a | None => VErr e end.

(** ** Codes and texts *)
Lemma named_complete k :
  k ∈ VcxErrorKind.named \/
  (exists n, k = VcxErrorKind.Common n) \/ (exists n, k = VcxErrorKind.LibndyError n).
Proof.
  destruct k; first [right; naive_solver|left; unfold VcxErrorKind.named; set_solver].
Qed.

Lemma codes_NoDup : NoDup (map VcxErrorKind.code VcxErrorKind.named).
Proof. apply (bool_decide_unpack _). by vm_compute. Qed.

(** Two different kinds of error never have the same code, codes taken over from libindy
    apart: a caller of the C interface can tell them apart. *)
Theorem error_codes_distinct k k' :
  k ∈ VcxErrorKind.named -> k' ∈ VcxErrorKind.named ->
  VcxErrorKind.code k = VcxErrorKind.code k' -> k = k'.
Proof.
  intros [i Hi]%list_elem_of_lookup [j Hj]%list_elem_of_lookup Hc.
  assert (i = j) as ->; [|congruence].
  eapply NoDup_lookup; [exact codes_NoDup|..]; rewrite list_lookup_fmap, ?Hi, ?Hj; cbn; [done|].
  by rewrite Hc.
Qed.

Definition has_message (map : gmap Z string) (k : VcxErrorKind.t) : bool :=
  match map !! VcxErrorKind.code k with Some _ => true | None => false end.

Lemma messages_checked :
  match ERROR_C_MESSAGES with
  | Some map => forallb (has_message map) VcxErrorKind.named
  | None => false
  end = true.
Proof. by vm_compute. Qed.

(** No number is used twice, so that the table of messages is made without a panic, and every
    kind has its own entry in it. *)
Theorem error_messages_there :
  exists map, ERROR_C_MESSAGES = Some map /\
    forall k, k ∈ VcxErrorKind.named -> is_Some (map !! VcxErrorKind.code k).
Proof.
  generalize messages_checked. destruct ERROR_C_MESSAGES as [m|]; [|done].
  intros H. exists m. split; [done|]. intros k Hk%list_elem_of_In.
  rewrite forallb_forall in H. specialize (H k Hk). unfold has_message in H.
  destruct (m !! _); [eauto|done].
Qed.
