(* ===== verification/DidDoc.v ===== *)
(** * DID documents

    [libvcx/src/v3/messages/connection/did_doc.rs], [invite.rs], the [Into<DidDoc>] of
    [service.rs] and [validate_verkey] of [messages/validation.rs]: the document in which an
    agent gives its keys and its endpoint, how it is made of an invitation, how its keys are
    found again, and how it is validated.

    Shown: an invitation can be read back from the document made of it
    ([invitation_roundtrip]), and the documents agents make of their keys are valid
    ([built_doc_valid]).  Key references are split at every [#], so that an id with a [#]
    changes the keys ([hash_in_id_changes_key]). *)

From stdpp Require Import base list strings numbers pretty.
From Stdlib Require Import ZArith Lia Ascii.
From S2P Require Import Prelude External ProofRequest VcxErrors.

Open Scope string_scope.

(** [str::split] at one character. *)
Fixpoint split_on (c : ascii) (s : string) : list string :=
  match s with
  | EmptyString => [""]
  | String a s' =>
      if Ascii.eqb a c then "" :: split_on c s'
      else match split_on c s' with
           | w :: ws => String a w :: ws
           | [] => [String a ""]
           end
  end.

(** What the code uses of the [url] and [rust_base58] crates and of the [Debug] format. *)
Class DocCodec := {
  url_parse_error : string -> option string;
  base58_error : string -> string;
  text_debug : string -> string
}.

(** ** Documents *)
Definition CONTEXT : string := "https://w3id.org/did/v1".
Definition KEY_TYPE : string := "Ed25519VerificationKey2018".
Definition KEY_AUTHENTICATION_TYPE : string := "Ed25519SignatureAuthentication2018".
Definition SERVICE_SUFFIX : string := "indy".
Definition SERVICE_TYPE : string := "IndyAgent".

Record Ed25519PublicKey := mkPublicKey {
  pk_id : string; pk_type : string; pk_controller : string; pk_base_58 : string
}.
Record Authentication := mkAuthentication { au_type : string; au_public_key : string }.
Record DocService := mkDocService {
  ds_id : string;
  ds_type : string;
  ds_priority : Z;
  ds_recipient_keys : list string;
  ds_routing_keys : list string;
  ds_endpoint : string
}.
Record DidDoc := mkDidDoc {
  dd_context : string;
  dd_id : string;
  dd_public_key : list Ed25519PublicKey;
  dd_authentication : list Authentication;
  dd_service : list DocService
}.

#[export] Instance Ed25519PublicKey_eq_dec : EqDecision Ed25519PublicKey.
Proof. solve_decision. Defined.
#[export] Instance Authentication_eq_dec : EqDecision Authentication.
Proof. solve_decision. Defined.
#[export] Instance DocService_eq_dec : EqDecision DocService.
Proof. solve_decision. Defined.
#[export] Instance DidDoc_eq_dec : EqDecision DidDoc.
Proof. solve_decision. Defined.

Definition service_default : DocService :=
  mkDocService ("did:example:123456789abcdefghi;" +:+ SERVICE_SUFFIX) SERVICE_TYPE 0 [] [] "".
Definition doc_default : DidDoc := mkDidDoc CONTEXT "" [] [] [service_default].

Definition set_id (d : DidDoc) (id : string) : DidDoc :=
  mkDidDoc (dd_context d) id (dd_public_key d) (dd_authentication d) (dd_service d).

(** [self.service.get_mut(0).map(f)]. *)
Definition on_first_service (f : DocService -> DocService) (l : list DocService) : list DocService :=
  match l with s :: l' => f s :: l' | [] => [] end.

Definition set_service_endpoint (d : DidDoc) (endpoint : string) : DidDoc :=
  mkDidDoc (dd_context d) (dd_id d) (dd_public_key d) (dd_authentication d)
    (on_first_service (fun s =>
       mkDocService (ds_id s) (ds_type s) (ds_priority s) (ds_recipient_keys s) (ds_routing_keys s) endpoint)
       (dd_service d)).

Definition _build_key_reference (did id : string) : string := did +:+ "#" +:+ id.
Definition _key_parts (key : string) : list string := split_on "#" key.
Definition _parse_key_reference (key_reference : string) : string :=
  match _key_parts key_reference with
  | _ :: id :: _ => id
  | [id] => id
  | [] => ""
  end.

Definition push_recipient (key : string) (s : DocService) : DocService :=
  mkDocService (ds_id s) (ds_type s) (ds_priority s) (ds_recipient_keys s ++ [key])%list
    (ds_routing_keys s) (ds_endpoint s).
Definition push_routing (key : string) (s : DocService) : DocService :=
  mkDocService (ds_id s) (ds_type s) (ds_priority s) (ds_recipient_keys s)
    (ds_routing_keys s ++ [key])%list (ds_endpoint s).

(** The two loops of [set_keys]; [id] is the number of the last key. *)
Fixpoint add_recipient_keys (id : nat) (keys : list string) (d : DidDoc) : DidDoc :=
  match keys with
  | [] => d
  | key :: keys' =>
      let key_id := pretty (S id) in
      let key_reference := _build_key_reference (dd_id d) key_id in
      add_recipient_keys (S id) keys'
        (mkDidDoc (dd_context d) (dd_id d)
           (dd_public_key d ++ [mkPublicKey key_id KEY_TYPE (dd_id d) key])%list
           (dd_authentication d ++ [mkAuthentication KEY_AUTHENTICATION_TYPE key_reference])%list
           (on_first_service (push_recipient key_reference) (dd_service d)))
  end.
Fixpoint add_routing_keys (keys : list string) (d : DidDoc) : DidDoc :=
  match keys with
  | [] => d
  | key :: keys' =>
      add_routing_keys keys'
        (mkDidDoc (dd_context d) (dd_id d) (dd_public_key d) (dd_authentication d)
           (on_first_service (push_routing key) (dd_service d)))
  end.

Definition set_keys (d : DidDoc) (recipient_keys routing_keys : list string) : DidDoc :=
  add_routing_keys routing_keys (add_recipient_keys 0 recipient_keys d).

(** The key a text stands for: the first one with that number or that value. *)
Definition find_public_key (d : DidDoc) (id : string) : option Ed25519PublicKey :=
  List.find (fun k => String.eqb (pk_id k) id || String.eqb (pk_base_58 k) id) (dd_public_key d).

Definition key_for_reference (d : DidDoc) (key_reference : string) : string :=
  let id := _parse_key_reference key_reference in
  match find_public_key d id with Some key => pk_base_58 key | None => id end.

Definition resolve_keys (d : DidDoc) : list string * list string :=
  match dd_service d with
  | service :: _ =>
      (map (key_for_reference d) (ds_recipient_keys service),
       map (key_for_reference d) (ds_routing_keys service))
  | [] => ([], [])
  end.
Definition doc_recipient_keys (d : DidDoc) : list string := fst (resolve_keys d).
Definition doc_routing_keys (d : DidDoc) : list string := snd (resolve_keys d).
Definition get_endpoint (d : DidDoc) : string :=
  match dd_service d with service :: _ => ds_endpoint service | [] => "" end.

(** ** Validation *)
Section Validation.
Context {C : Codec} {D : DocCodec}.

(** [messages/validation.rs]. *)
Definition validate_verkey (verkey : string) : VcxResult string :=
  match from_base58 verkey with
  | Some x => if (length x =? 32)%nat then VOk verkey
              else VErr (from_msg VcxErrorKind.InvalidVerkey "Invalid Verkey length")
  | None => VErr (from_msg VcxErrorKind.NotBase58 ("Invalid Verkey: " +:+ base58_error verkey))
  end.

Definition doc_error (text : string) : VcxError :=
  from_msg VcxErrorKind.InvalidJson ("DIDDoc validation failed: " +:+ text).

Definition validate_public_key (d : DidDoc) (target_key : string) : VcxResult Ed25519PublicKey :=
  let id := _parse_key_reference target_key in
  match find_public_key d id with
  | None => VErr (doc_error ("Cannot find PublicKey definition for key: " +:+ text_debug id))
  | Some key =>
      if negb (String.eqb (pk_type key) KEY_TYPE)
      then VErr (doc_error ("Unsupported PublicKey type: " +:+ text_debug (pk_type key)))
      else match validate_verkey (pk_base_58 key) with
           | VOk _ => VOk key
           | VErr e => VErr e
           | VPanic => VPanic
           end
  end.

Definition validate_authentication (d : DidDoc) (target_key : string) : VcxResult unit :=
  match dd_authentication d with
  | [] => VOk ()
  | _ =>
      match List.find (fun k => String.eqb (au_public_key k) target_key ||
                                String.eqb (_parse_key_reference (au_public_key k)) target_key)
              (dd_authentication d) with
      | None => VErr (doc_error ("Cannot find Authentication section for key: " +:+ text_debug target_key))
      | Some key =>
          if negb (String.eqb (au_type key) KEY_AUTHENTICATION_TYPE) && negb (String.eqb (au_type key) KEY_TYPE)
          then VErr (doc_error ("Unsupported Authentication type: " +:+ text_debug (au_type key)))
          else VOk ()
      end
  end.

Definition validate_recipient_key (d : DidDoc) (key : string) : VcxResult unit :=
  match validate_public_key d key with
  | VOk public_key => validate_authentication d (pk_id public_key)
  | VErr e => VErr e
  | VPanic => VPanic
  end.

Definition validate_routing_key (d : DidDoc) (key : string) : VcxResult unit :=
  if (length (_key_parts key) =? 2)%nat then
    match validate_public_key d key with VOk _ => VOk () | VErr e => VErr e | VPanic => VPanic end
  else
    match validate_verkey key with VOk _ => VOk () | VErr e => VErr e | VPanic => VPanic end.

(** Collecting results of [()]: the first error. *)
Fixpoint each_valid {A} (check : A -> VcxResult unit) (l : list A) : VcxResult unit :=
  match l with
  | [] => VOk ()
  | x :: l' => match check x with VOk _ => each_valid check l' | VErr e => VErr e | VPanic => VPanic end
  end.

Definition validate_service (d : DidDoc) (service : DocService) : VcxResult unit :=
  match url_parse_error (ds_endpoint service) with
  | Some err =>
      VErr (doc_error ("Invalid endpoint " +:+ quoted (text_debug (ds_endpoint service)) +:+ ", err: " +:+ err))
  | None =>
      match each_valid (validate_recipient_key d) (ds_recipient_keys service) with
      | VOk _ => each_valid (validate_routing_key d) (ds_routing_keys service)
      | VErr e => VErr e
      | VPanic => VPanic
      end
  end.

Definition validate (d : DidDoc) : VcxResult unit :=
  if negb (String.eqb (dd_context d) CONTEXT)
  then VErr (doc_error ("Unsupported @context value: " +:+ text_debug (dd_context d)))
  else each_valid (validate_service d) (dd_service d).
End Validation.

(** ** Invitations *)
Record Invitation := mkInvitation {
  inv_id : string;
  inv_label : string;
  inv_recipient_keys : list string;
  inv_routing_keys : list string;
  inv_service_endpoint : string
}.

Definition doc_of_invitation (invite : Invitation) : DidDoc :=
  set_keys
    (set_service_endpoint (set_id doc_default (inv_id invite)) (inv_service_endpoint invite))
    (inv_recipient_keys invite) (inv_routing_keys invite).

(** The label stays empty. *)
Definition invitation_of_doc (did_doc : DidDoc) : Invitation :=
  let (recipient_keys, routing_keys) := resolve_keys did_doc in
  mkInvitation (dd_id did_doc) "" recipient_keys routing_keys (get_endpoint did_doc).

(** ** Keys are found again *)

(** A text without the character. *)
Fixpoint lacks (c : ascii) (s : string) : Prop :=
  match s with EmptyString => True | String a s' => Ascii.eqb a c = false /\ lacks c s' end.

Lemma split_on_nonempty c s : exists w ws, split_on c s = w :: ws.
Proof. destruct s as [|a s]; cbn; [eauto|]. destruct (Ascii.eqb a c); [eauto|]. destruct (split_on c s); eauto. Qed.

Lemma split_on_lacks c s : lacks c s -> split_on c s = [s].
Proof. induction s as [|a s IH]; [done|]. intros [Ha Hs]. cbn. by rewrite Ha, IH. Qed.

Lemma split_on_app c w s : split_on c (w +:+ String c s) = (split_on c w ++ split_on c s)%list.
Proof.
  induction w as [|a w IH].
  - change ("" +:+ String c s) with (String c s). cbn [split_on]. by rewrite Ascii.eqb_refl.
  - change (String a w +:+ String c s) with (String a (w +:+ String c s)). cbn [split_on]. rewrite IH.
    destruct (Ascii.eqb a c); [done|]. by destruct (split_on_nonempty c w) as (v & vs & ->).
Qed.

Lemma parse_plain key : lacks "#" key -> _parse_key_reference key = key.
Proof. intros H. unfold _parse_key_reference, _key_parts. by rewrite split_on_lacks. Qed.

Lemma parse_built did id :
  lacks "#" did -> lacks "#" id -> _parse_key_reference (_build_key_reference did id) = id.
Proof.
  intros Hd Hi. unfold _parse_key_reference, _key_parts, _build_key_reference.
  change ("#" +:+ id) with (String "#" id). by rewrite split_on_app, !split_on_lacks.
Qed.

(** The decimal digits are no [#]. *)
Lemma pretty_N_go_lacks c x s : (forall d, Ascii.eqb (pretty_N_char d) c = false) ->
  lacks c s -> lacks c (pretty_N_go x s).
Proof.
  intros Hc. revert s. induction (N.lt_wf_0 x) as [x _ IH]. intros s Hs.
  destruct (decide (0 < x)%N) as [Hx|Hx]; cycle 1.
  - assert (x = 0%N) as -> by lia. done.
  - rewrite pretty_N_go_step by done. apply IH; [apply N.div_lt; lia|]. by split.
Qed.

Lemma numeral_lacks c (n : nat) : (forall d, Ascii.eqb (pretty_N_char d) c = false) -> lacks c (pretty n).
Proof.
  intros Hc. change (lacks c (pretty (N.of_nat n))). unfold pretty, pretty_N. cbv beta.
  case_decide; [split; [apply (Hc 0%N)|done]|]. by apply pretty_N_go_lacks.
Qed.

Lemma numeral_lacks_hash (n : nat) : lacks "#" (pretty n).
Proof. apply numeral_lacks. intros d. unfold pretty_N_char. by repeat case_match. Qed.

(** No key is a decimal number or holds a [#]: verification keys are base58 texts of
    32 bytes. *)
Definition proper_key (key : string) : Prop := lacks "#" key /\ forall n : nat, key <> pretty n.

Fixpoint numbered (n : nat) (keys : list string) : list (string * string) :=
  match keys with [] => [] | key :: keys' => (pretty (S n), key) :: numbered (S n) keys' end.

Definition numbered_key (did : string) (nk : string * string) : Ed25519PublicKey :=
  mkPublicKey nk.1 KEY_TYPE did nk.2.
Definition numbered_auth (did : string) (nk : string * string) : Authentication :=
  mkAuthentication KEY_AUTHENTICATION_TYPE (_build_key_reference did nk.1).
Definition numbered_ref (did : string) (nk : string * string) : string := _build_key_reference did nk.1.

Lemma add_recipient_keys_eq n keys ctx id pks aus s l :
  add_recipient_keys n keys (mkDidDoc ctx id pks aus (s :: l)) =
  mkDidDoc ctx id (pks ++ map (numbered_key id) (numbered n keys))%list
    (aus ++ map (numbered_auth id) (numbered n keys))%list
    (mkDocService (ds_id s) (ds_type s) (ds_priority s)
       (ds_recipient_keys s ++ map (numbered_ref id) (numbered n keys))%list
       (ds_routing_keys s) (ds_endpoint s) :: l).
Proof.
  revert n pks aus s. induction keys as [|key keys IH]; intros n pks aus s; cbn.
  - rewrite !app_nil_r. by destruct s.
  - rewrite IH. cbn. by rewrite <-!app_assoc.
Qed.

Lemma add_routing_keys_eq keys ctx id pks aus s l :
  add_routing_keys keys (mkDidDoc ctx id pks aus (s :: l)) =
  mkDidDoc ctx id pks aus
    (mkDocService (ds_id s) (ds_type s) (ds_priority s) (ds_recipient_keys s)
       (ds_routing_keys s ++ keys)%list (ds_endpoint s) :: l).
Proof.
  revert s. induction keys as [|key keys IH]; intros s; cbn.
  - rewrite app_nil_r. by destruct s.
  - rewrite IH. cbn. by rewrite <-app_assoc.
Qed.

(** The document of an agent with these keys. *)
Definition built_doc (id endpoint : string) (recipient_keys routing_keys : list string) : DidDoc :=
  mkDidDoc CONTEXT id (map (numbered_key id) (numbered 0 recipient_keys))
    (map (numbered_auth id) (numbered 0 recipient_keys))
    [mkDocService (ds_id service_default) SERVICE_TYPE 0
       (map (numbered_ref id) (numbered 0 recipient_keys)) routing_keys endpoint].

Lemma set_keys_built id endpoint recipient_keys routing_keys :
  set_keys (set_service_endpoint (set_id doc_default id) endpoint) recipient_keys routing_keys =
  built_doc id endpoint recipient_keys routing_keys.
Proof.
  unfold set_keys, set_service_endpoint, set_id, doc_default. cbn [on_first_service dd_context dd_id dd_public_key dd_authentication dd_service].
  rewrite add_recipient_keys_eq, add_routing_keys_eq. done.
Qed.

Section Built.
Context (id endpoint : string) (recipient_keys routing_keys : list string).
Context (Hid : lacks "#" id).
Context (Hrec : Forall proper_key recipient_keys) (Hrout : Forall proper_key routing_keys).
Let doc := built_doc id endpoint recipient_keys routing_keys.

Lemma numbered_In n keys i k : (i, k) ∈ numbered n keys -> exists m, n <= m /\ i = pretty (S m) /\ k ∈ keys.
Proof using.
  revert n. induction keys as [|key keys IH]; intros n; cbn; [by intros ?%not_elem_of_nil|].
  intros [[= -> ->]|(m & Hm & -> & Hk)%IH]%elem_of_cons.
  - exists n. split; [done|]. split; [done|left].
  - exists m. split; [lia|]. split; [done|by right].
Qed.

Lemma find_numbered n i k keys : Forall proper_key keys -> (i, k) ∈ numbered n keys ->
  List.find (fun pk => String.eqb (pk_id pk) i || String.eqb (pk_base_58 pk) i)
    (map (numbered_key id) (numbered n keys)) = Some (numbered_key id (i, k)).
Proof using.
  revert n. induction keys as [|key keys IH]; intros n HF; cbn; [by intros ?%not_elem_of_nil|].
  apply Forall_cons in HF as [[_ Hk] HF].
  intros [[= -> ->]|Hin]%elem_of_cons; [by rewrite String.eqb_refl|].
  pose proof (numbered_In _ _ _ _ Hin) as (m & Hm & Hi & _).
  destruct (String.eqb_spec (pretty (S n)) i) as [E|_].
  { rewrite Hi in E. apply (inj pretty) in E. lia. }
  destruct (String.eqb_spec key i) as [E|_]; [by destruct (Hk (S m)); rewrite E|].
  cbn. by apply IH.
Qed.

Lemma find_reference i k : (i, k) ∈ numbered 0 recipient_keys ->
  find_public_key doc (_parse_key_reference (numbered_ref id (i, k))) = Some (numbered_key id (i, k)).
Proof using Hid Hrec.
  intros Hin. pose proof (numbered_In _ _ _ _ Hin) as (m & _ & -> & _).
  unfold numbered_ref. cbn [fst]. rewrite parse_built by (done || apply numeral_lacks_hash).
  by apply find_numbered.
Qed.

Lemma numbered_snd n keys : map snd (numbered n keys) = keys.
Proof using. revert n. induction keys as [|key keys IH]; intros n; cbn; [done|]. by rewrite IH. Qed.

(** A text that is no number names the key it is. *)
Lemma key_itself key : proper_key key -> key_for_reference doc key = key.
Proof using Hid Hrec.
  intros [Hh Hn]. unfold key_for_reference. rewrite parse_plain by done. unfold find_public_key.
  destruct (List.find _ _) as [pk|] eqn:E; [|done].
  apply find_some in E as [Hin Hor]. apply list_elem_of_In, list_elem_of_fmap in Hin as ([i k] & -> & Hin).
  pose proof (numbered_In _ _ _ _ Hin) as (m & _ & -> & _). cbn in *.
  apply orb_true_iff in Hor as [Hor|Hor]; apply String.eqb_eq in Hor; [|done].
  by destruct (Hn (S m)).
Qed.

Lemma resolve_built : resolve_keys doc = (recipient_keys, routing_keys).
Proof using Hid Hrec Hrout.
  unfold resolve_keys. cbn [dd_service doc built_doc ds_recipient_keys ds_routing_keys]. f_equal.
  - rewrite map_map. rewrite <-(numbered_snd 0 recipient_keys) at 2.
    apply map_ext_in. intros [i k] Hin%list_elem_of_In. unfold key_for_reference.
    by rewrite find_reference.
  - rewrite <-(map_id routing_keys) at 2. apply map_ext_in. intros k Hin%list_elem_of_In.
    apply key_itself. by eapply Forall_forall in Hin.
Qed.
End Built.

(** The document made of an invitation resolves to the invitation's keys, endpoint and id:
    an invitation read back from it is the same up to its label, when its id has no [#] and
    its keys are neither numbers nor references. *)
Theorem invitation_roundtrip invite :
  lacks "#" (inv_id invite) ->
  Forall proper_key (inv_recipient_keys invite) -> Forall proper_key (inv_routing_keys invite) ->
  invitation_of_doc (doc_of_invitation invite) =
  mkInvitation (inv_id invite) "" (inv_recipient_keys invite) (inv_routing_keys invite)
    (inv_service_endpoint invite).
Proof.
  intros Hid Hr Hk. unfold invitation_of_doc, doc_of_invitation. rewrite set_keys_built.
  by rewrite resolve_built.
Qed.

(** ** Validation and resolution agree *)
Section Valid.
Context {C : Codec} {D : DocCodec}.

Definition verkey (key : string) : Prop := exists x, from_base58 key = Some x /\ length x = 32.

Lemma validate_verkey_ok key : (exists k, validate_verkey key = VOk k) <-> verkey key.
Proof.
  unfold validate_verkey, verkey. destruct (from_base58 key) as [x|]; [|naive_solver].
  destruct (Nat.eqb_spec (length x) 32); naive_solver.
Qed.

Lemma each_valid_ok {A} (check : A -> VcxResult unit) l :
  each_valid check l = VOk () <-> Forall (fun x => check x = VOk ()) l.
Proof.
  induction l as [|x l IH]; cbn; [done|]. rewrite Forall_cons, <-IH.
  destruct (check x) as [[]| |]; naive_solver.
Qed.

Lemma validate_public_key_ok d key pk :
  validate_public_key d key = VOk pk <->
  find_public_key d (_parse_key_reference key) = Some pk /\ pk_type pk = KEY_TYPE /\ verkey (pk_base_58 pk).
Proof.
  unfold validate_public_key. destruct (find_public_key d _) as [k|]; [|naive_solver].
  destruct (String.eqb_spec (pk_type k) KEY_TYPE); cbn [negb]; [|naive_solver].
  pose proof (validate_verkey_ok (pk_base_58 k)) as Hv.
  destruct (validate_verkey (pk_base_58 k)) as [?| |]; naive_solver.
Qed.

(** The recipient keys of a valid document resolve to verification keys. *)
Lemma valid_recipient_keys d : validate d = VOk () -> Forall verkey (doc_recipient_keys d).
Proof.
  unfold validate. destruct (String.eqb _ _); cbn [negb]; [|done].
  rewrite each_valid_ok. intros HF. unfold doc_recipient_keys, resolve_keys.
  destruct (dd_service d) as [|s l]; [constructor|]. apply Forall_cons in HF as [Hs _].
  unfold validate_service in Hs. destruct (url_parse_error _); [done|].
  destruct (each_valid (validate_recipient_key d) _) as [[]| |] eqn:E; [|done..].
  apply each_valid_ok in E. apply Forall_fmap. eapply Forall_impl; [exact E|].
  intros key Hk. unfold validate_recipient_key in Hk. cbn.
  destruct (validate_public_key d key) as [pk| |] eqn:Epk; [|done..].
  apply validate_public_key_ok in Epk as (Hf & _ & Hv). unfold key_for_reference. by rewrite Hf.
Qed.

(** The documents agents make of their own keys are valid. *)
Lemma built_doc_valid id endpoint recipient_keys routing_keys :
  lacks "#" id -> Forall proper_key recipient_keys -> Forall proper_key routing_keys ->
  Forall verkey recipient_keys -> Forall verkey routing_keys -> url_parse_error endpoint = None ->
  validate (built_doc id endpoint recipient_keys routing_keys) = VOk ().
Proof.
  intros Hid Hr Hk Vr Vk Hu. unfold validate. cbn [dd_context built_doc].
  rewrite String.eqb_refl. cbn [negb]. apply each_valid_ok. constructor; [|constructor].
  unfold validate_service. cbn [ds_endpoint ds_recipient_keys ds_routing_keys]. rewrite Hu.
  assert (each_valid (validate_recipient_key (built_doc id endpoint recipient_keys routing_keys))
            (map (numbered_ref id) (numbered 0 recipient_keys)) = VOk ()) as ->.
  - apply each_valid_ok, Forall_fmap, Forall_forall. intros [i k] Hin. cbn.
    pose proof (numbered_In _ _ _ _ Hin) as (m & _ & Hi & Hkin).
    unfold validate_recipient_key.
    rewrite (proj2 (validate_public_key_ok _ _ (numbered_key id (i, k)))); cycle 1.
    { split; [by apply find_reference|]. split; [done|]. cbn. by eapply Forall_forall in Vr. }
    unfold validate_authentication. cbn [pk_id numbered_key fst dd_authentication built_doc].
    destruct (map (numbered_auth id) _) as [|a0 l0] eqn:E; [done|]. rewrite <-E.
    destruct (List.find _ _) as [a|] eqn:Ef.
    + apply find_some in Ef as [Hin' _]. apply list_elem_of_In, list_elem_of_fmap in Hin' as (? & -> & _). done.
    + exfalso. assert (numbered_auth id (i, k) ∈ map (numbered_auth id) (numbered 0 recipient_keys)) as Ha
        by (by apply list_elem_of_fmap_2).
      apply list_elem_of_In in Ha. eapply find_none in Ef; [|exact Ha]. cbn in Ef.
      rewrite parse_built, String.eqb_refl, orb_true_r in Ef; [done|done|rewrite Hi; apply numeral_lacks_hash].
  - apply each_valid_ok, Forall_forall. intros k Hin. unfold validate_routing_key, _key_parts.
    eapply Forall_forall in Hk as [Hh _]; [|exact Hin]. rewrite split_on_lacks by done. cbn [length Nat.eqb].
    eapply Forall_forall in Vk; [|exact Hin]. apply validate_verkey_ok in Vk as (? & ->). done.
Qed.
End Valid.

(** ** A [#] in an id *)

(** The reference to the key of a document is split at every [#]: with an id that holds one,
    the key of an invitation is replaced by the part of the id after it. *)
Theorem hash_in_id_changes_key :
  doc_recipient_keys (doc_of_invitation (mkInvitation "a#mallory" "" ["alice"] [] "")) = ["mallory"].
Proof. by vm_compute. Qed.

(** A routing key that is a verification key by itself passes validation, but resolves to the
    public key entry that has it as its id, whose value is not looked at. *)
Theorem routing_key_escapes_validation {C : Codec} {D : DocCodec} key value endpoint :
  lacks "#" key -> verkey key -> url_parse_error endpoint = None ->
  let doc := mkDidDoc CONTEXT "" [mkPublicKey key KEY_TYPE "" value] []
               [mkDocService "" SERVICE_TYPE 0 [] [key] endpoint] in
  validate doc = VOk () /\ doc_routing_keys doc = [value].
Proof.
  intros Hh Hv Hu doc. subst doc. split.
  - unfold validate. cbn [dd_context]. rewrite String.eqb_refl. cbn [negb each_valid dd_service].
    unfold validate_service. cbn [ds_endpoint ds_recipient_keys ds_routing_keys]. rewrite Hu. cbn [each_valid].
    unfold validate_routing_key, _key_parts. rewrite split_on_lacks by done. cbn [length Nat.eqb].
    apply validate_verkey_ok in Hv as [k ->]. done.
  - unfold doc_routing_keys, resolve_keys. cbn [dd_service ds_recipient_keys ds_routing_keys map snd].
    unfold key_for_reference. rewrite parse_plain by done. unfold find_public_key. cbn [dd_public_key List.find pk_id].
    by rewrite String.eqb_refl.
Qed.

(** Base58 texts with an [e] are proper keys. *)
Lemma proper_key_e key : lacks "#" key -> ~ lacks "e" key -> proper_key key.
Proof.
  intros Hh He. split; [done|]. intros n ->. apply He, numeral_lacks. intros d.
  unfold pretty_N_char. by repeat case_match.
Qed.

Lemma invitation_roundtrip_witness :
  invitation_of_doc (doc_of_invitation
    (mkInvitation "id" "Faber" ["key"] ["agent"; "agency"] "http://localhost")) =
  mkInvitation "id" "" ["key"] ["agent"; "agency"] "http://localhost".
Proof.
  apply (invitation_roundtrip (mkInvitation "id" "Faber" ["key"] ["agent"; "agency"] "http://localhost"));
    repeat constructor; apply proper_key_e; vm_compute; intuition discriminate.
Defined.
