(* ===== verification/MessageType.v ===== *)
(** * Message types and protocols

    [libvcx/src/v3/messages/a2a/message_family.rs], [message_type.rs] and
    [protocol_registry.rs], with [parse_message_type] of [messages/message_type.rs] and
    [Actors] of [settings.rs]: how the [@type] of a message is written and read, and the
    protocols an agent says it supports.

    The regular expression of [parse_message_type] is written out: it is not anchored and
    greedy, so that it matches at the first [;] whose line has three slashes after it, and
    takes the parts after the last three of them.  The Unicode classes of the DID part are a
    parameter. *)

From stdpp Require Import base list strings numbers.
From Stdlib Require Import ZArith Lia Ascii.
From S2P Require Import Prelude VcxErrors DidDoc.

Open Scope string_scope.

(** [Actors] of [settings.rs]. *)
Inductive Actors := Inviter | Invitee | AIssuer | AHolder | AProver | AVerifier | Sender | Receiver.
#[export] Instance Actors_eq_dec : EqDecision Actors.
Proof. solve_decision. Defined.
Definition all_actors : list Actors :=
  [Inviter; Invitee; AIssuer; AHolder; AProver; AVerifier; Sender; Receiver].

(** ** Families *)
Inductive MessageFamilies :=
  | Routing
  | Connections
  | Notification
  | Signature
  | CredentialIssuance
  | ReportProblem
  | PresentProof
  | TrustPing
  | DiscoveryFeatures
  | Basicmessage
  | Unknown (family : string).
#[export] Instance MessageFamilies_eq_dec : EqDecision MessageFamilies.
Proof. solve_decision. Defined.

(** [MessageFamilies::iter()] of [strum]: the argument of [Unknown] is its default. *)
Definition all_families : list MessageFamilies :=
  [Routing; Connections; Notification; Signature; CredentialIssuance; ReportProblem; PresentProof;
   TrustPing; DiscoveryFeatures; Basicmessage; Unknown ""].

Definition TYPE_DID : string := "did:sov:BzCbsNYhMrjHiqZDTUASHg".
Definition family_version (f : MessageFamilies) : string := "1.0".

Definition family_to_string (f : MessageFamilies) : string :=
  match f with
  | Routing => "routing"
  | Connections => "connections"
  | Signature => "signature"
  | Notification => "notification"
  | CredentialIssuance => "issue-credential"
  | ReportProblem => "report-problem"
  | PresentProof => "present-proof"
  | TrustPing => "trust_ping"
  | DiscoveryFeatures => "discover-features"
  | Basicmessage => "basicmessage"
  | Unknown family => family
  end.

Definition family_of_string (family : string) : MessageFamilies :=
  if String.eqb family "routing" then Routing
  else if String.eqb family "connections" then Connections
  else if String.eqb family "signature" then Signature
  else if String.eqb family "notification" then Notification
  else if String.eqb family "issue-credential" then CredentialIssuance
  else if String.eqb family "report-problem" then ReportProblem
  else if String.eqb family "present-proof" then PresentProof
  else if String.eqb family "trust_ping" then TrustPing
  else if String.eqb family "discover-features" then DiscoveryFeatures
  else if String.eqb family "basicmessage" then Basicmessage
  else Unknown family.

Definition family_id (f : MessageFamilies) : string :=
  TYPE_DID +:+ ";spec/" +:+ family_to_string f +:+ "/" +:+ family_version f.

Definition family_actors (f : MessageFamilies) : option (Actors * Actors) :=
  match f with
  | Connections => Some (Inviter, Invitee)
  | CredentialIssuance => Some (AIssuer, AHolder)
  | PresentProof => Some (AProver, AVerifier)
  | TrustPing | DiscoveryFeatures | Basicmessage => Some (Sender, Receiver)
  | _ => None
  end.

(** ** Types *)
Record MessageType := mkMessageType {
  mt_did : string; mt_family : MessageFamilies; mt_version : string; mt_type : string
}.

Definition build_type (family : MessageFamilies) (name : string) : MessageType :=
  mkMessageType TYPE_DID family (family_version family) name.

Definition type_to_string (t : MessageType) : string :=
  mt_did t +:+ ";spec/" +:+ family_to_string (mt_family t) +:+ "/" +:+ mt_version t +:+ "/" +:+ mt_type t.

(** The longest suffix of a text that consists of letters, digits, underscores (of Unicode)
    and colons; whether a pattern is a regular expression, and which texts it matches. *)
Class RegexCodec := {
  word_suffix : string -> string;
  regex_new : string -> option (string -> bool)
}.

Definition newline_char : ascii := Eval cbv in ascii_of_nat 10.

(** [.] does not match a line break. *)
Definition line_of (s : string) : string :=
  match split_on newline_char s with l :: _ => l | [] => "" end.

(** [spec/family/version/type]: the last three slashes count. *)
Definition type_parts (s : string) : option (string * string * string) :=
  match rev (split_on "/" (line_of s)) with
  | type_ :: version :: family :: _ :: _ => Some (family, version, type_)
  | _ => None
  end.

Section Types.
Context {R : RegexCodec}.

(** The search of the expression, from the text [seen] on. *)
Fixpoint search_type (seen s : string) : option (string * string * string * string) :=
  match s with
  | EmptyString => None
  | String a s' =>
      if Ascii.eqb a ";" then
        match type_parts s' with
        | Some (family, version, type_) => Some (word_suffix seen, family, version, type_)
        | None => search_type (seen +:+ ";") s'
        end
      else search_type (seen +:+ String a "") s'
  end.

Definition parse_message_type (message_type : string) : VcxResult (string * string * string * string) :=
  ok_or (search_type "" message_type) (from_msg VcxErrorKind.InvalidOption "Cannot parse @type").

(** [impl Deserialize for MessageType], of a JSON string. *)
Definition type_of_string (s : string) : option MessageType :=
  match parse_message_type s with
  | VOk (did, family, version, type_) => Some (mkMessageType did (family_of_string family) version type_)
  | _ => None
  end.
End Types.

(** ** The protocols an agent supports *)
Record ProtocolDescriptor := mkProtocolDescriptor { pid : string; roles : option (list Actors) }.

Definition add_protocol (actors : list Actors) (protocols : list ProtocolDescriptor)
    (family : MessageFamilies) : list ProtocolDescriptor :=
  match family_actors family with
  | None => (protocols ++ [mkProtocolDescriptor (family_id family) None])%list
  | Some (actor_1, actor_2) =>
      match bool_decide (actor_1 ∈ actors), bool_decide (actor_2 ∈ actors) with
      | true, true => (protocols ++ [mkProtocolDescriptor (family_id family) None])%list
      | true, false => (protocols ++ [mkProtocolDescriptor (family_id family) (Some [actor_1])])%list
      | false, true => (protocols ++ [mkProtocolDescriptor (family_id family) (Some [actor_2])])%list
      | false, false => protocols
      end
  end.

Definition registry_init (actors : list Actors) : list ProtocolDescriptor :=
  foldl (fun protocols family =>
    match family with
    | Signature | Unknown _ => protocols
    | _ => add_protocol actors protocols family
    end) [] all_families.

Definition get_protocols_for_query {R : RegexCodec} (protocols : list ProtocolDescriptor)
    (query : option string) : list ProtocolDescriptor :=
  match query with
  | Some query_ =>
      if String.eqb query_ "*" then protocols
      else match regex_new query_ with
           | Some is_match => List.filter (fun protocol => is_match (pid protocol)) protocols
           | None => []
           end
  | None => protocols
  end.

(** ** Types are read back *)
Lemma family_roundtrip f :
  match f with Unknown _ => True | _ => family_of_string (family_to_string f) = f end.
Proof. by destruct f. Qed.

Lemma line_of_lacks s : lacks newline_char s -> line_of s = s.
Proof. intros H. unfold line_of. by rewrite split_on_lacks. Qed.

Lemma lacks_app c s t : lacks c (s +:+ t) <-> lacks c s /\ lacks c t.
Proof.
  induction s as [|a s IH]; [by split; [intros|intros [_ ?]]|].
  change (String a s +:+ t) with (String a (s +:+ t)). cbn [lacks]. rewrite IH. naive_solver.
Qed.

Lemma append_snoc s a t : (s +:+ String a "") +:+ t = s +:+ String a t.
Proof.
  induction s as [|b s IH]; [done|].
  change (String b ((s +:+ String a "") +:+ t) = String b (s +:+ String a t)). by rewrite IH.
Qed.

Lemma append_empty_r s : s +:+ "" = s.
Proof. induction s as [|b s IH]; [done|]. change (String b (s +:+ "") = String b s). by rewrite IH. Qed.

(** What a part of a type may hold. *)
Definition type_part (w : string) : Prop := lacks "/" w /\ lacks newline_char w.

Lemma type_parts_spec family version type_ :
  type_part family -> type_part version -> type_part type_ ->
  type_parts ("spec/" +:+ family +:+ "/" +:+ version +:+ "/" +:+ type_) = Some (family, version, type_).
Proof.
  intros [H1 N1] [H2 N2] [H3 N3]. unfold type_parts. rewrite line_of_lacks.
  - change ("spec/" +:+ family +:+ "/" +:+ version +:+ "/" +:+ type_)
      with ("spec" +:+ String "/" (family +:+ String "/" (version +:+ String "/" type_))).
    by rewrite !split_on_app, !split_on_lacks by (done || by vm_compute).
  - rewrite !lacks_app. by vm_compute (lacks _ "/"); vm_compute (lacks _ "spec/").
Qed.

Section Roundtrip.
Context {R : RegexCodec}.

Lemma search_type_skip seen w s : lacks ";" w ->
  search_type seen (w +:+ String ";" s) =
  match type_parts s with
  | Some (family, version, type_) => Some (word_suffix (seen +:+ w), family, version, type_)
  | None => search_type ((seen +:+ w) +:+ ";") s
  end.
Proof.
  revert seen. induction w as [|a w IH]; intros seen Hw.
  - change ("" +:+ String ";" s) with (String ";" s). cbn [search_type]. by rewrite append_empty_r.
  - destruct Hw as [Ha Hw]. change (String a w +:+ String ";" s) with (String a (w +:+ String ";" s)).
    cbn [search_type]. rewrite Ha, IH by done. by rewrite append_snoc.
Qed.

(** A type is read back as it was written. *)
Lemma type_roundtrip did family version type_ :
  lacks ";" did -> word_suffix did = did ->
  match family with Unknown _ => False | _ => True end -> type_part version -> type_part type_ ->
  type_of_string (type_to_string (mkMessageType did family version type_)) =
  Some (mkMessageType did family version type_).
Proof.
  intros Hd Hw Hf Hv Ht. unfold type_of_string, parse_message_type, type_to_string. cbn [mt_did mt_family mt_version mt_type].
  change (";spec/" +:+ ?x) with (String ";" ("spec/" +:+ x)).
  rewrite search_type_skip by done. rewrite type_parts_spec; [|by destruct family; vm_compute|done..].
  cbn. change ("" +:+ did) with did. rewrite Hw. by destruct family.
Qed.
End Roundtrip.
