(* ===== verification/A2A.v ===== *)
(** * Messages between agents

    [libvcx/src/v3/messages/]: the messages two agents exchange ([a2a/mod.rs]), their threads
    ([messages/thread.rs]), attachments ([attachment.rs]), acknowledgements, problem reports
    and statuses, with the messages of the DID exchange ([connection/]), trust pings and
    discovery, credential issuance ([issuance/]) and proof presentation
    ([proof_presentation/]).

    A fresh message takes its id from the [uuid] crate, so here the functions that make
    messages take the id; the programs that call them draw it. *)

From stdpp Require Import base list strings numbers gmap.
From Stdlib Require Import ZArith Lia.
From S2P Require Import Prelude Json Trie External VcxErrors DidDoc MessageType.

Open Scope string_scope.

(** What the code uses of [serde_json], [openssl] and the [Debug] format besides [Codec]. *)
Class VcxCodec := {
  json_err_debug : string -> string;
  json_err_display : string -> string;
  value_debug : Value -> string;
  json_to_string_pretty : Value -> string;
  sha256 : bytes -> bytes;
  bignum_dec : bytes -> option string;
  bignum_err : string
}.

(** ** Threads *)
Record Thread := mkThread {
  thid : option string;
  pthid : option string;
  sender_order : Z;
  received_orders : gmap string Z
}.

Definition thread_default : Thread := mkThread None None 0 ∅.

Definition set_thid (t : Thread) (id : string) : Thread :=
  mkThread (Some id) (pthid t) (sender_order t) (received_orders t).

(** [Thread::increment_receiver]: the first message of a sender has order 0; [u32]
    overflow panics in a debug build and wraps in a release build. *)
Definition increment_receiver (p : Profile) (t : Thread) (did : string) : outcome Thread :=
  match received_orders t !! did with
  | Some n =>
      if (n + 1 <? 2 ^ 32)%Z
      then Ok (mkThread (thid t) (pthid t) (sender_order t) (<[did := (n + 1)%Z]> (received_orders t)))
      else match p with
           | Debug => Panic
           | Release => Ok (mkThread (thid t) (pthid t) (sender_order t) (<[did := 0%Z]> (received_orders t)))
           end
  | None => Ok (mkThread (thid t) (pthid t) (sender_order t) (<[did := 0%Z]> (received_orders t)))
  end.

(** [Thread::is_reply]: a thread without an id is the empty thread. *)
Definition is_reply (t : Thread) (id : string) : bool := String.eqb (default "" (thid t)) id.

(** ** Attachments *)
Inductive AttachmentId :=
  | IdCredentialOffer | IdCredentialRequest | IdCredential
  | IdPresentationRequest | IdPresentation.

Inductive AttachmentData := Base64 (s : string).
Record AttachmentJson := mkAttachmentJson { aj_id : AttachmentId; aj_data : AttachmentData }.
Inductive Attachment := JSON (j : AttachmentJson) | Blank.

(** [Attachments] is the vector of its attachments. *)
Definition Attachments : Type := list Attachment.

Section Attachments.
Context {C : Codec} {V : VcxCodec}.

(** [Json::new], with the only encoding there is. *)
Definition attachment_new (id : AttachmentId) (json : Value) : VcxResult AttachmentJson :=
  match json with
  | Object obj => VOk (mkAttachmentJson id (Base64 (base64_encode (as_bytes (json_to_string (Object obj))))))
  | VString str => VOk (mkAttachmentJson id (Base64 (base64_encode (as_bytes str))))
  | val => VErr (from_msg VcxErrorKind.InvalidJson ("Unsupported Json value: " ++ value_debug val))
  end.

(** [AttachmentData::get_bytes] and [Json::get_data]. *)
Definition get_bytes (d : AttachmentData) : VcxResult bytes :=
  match d with
  | Base64 s => ok_or (base64_decode s) (from_msg VcxErrorKind.IOError "Wrong bytes in attachment")
  end.

Definition get_data (j : AttachmentJson) : VcxResult string :=
  match get_bytes (aj_data j) with
  | VOk data => ok_or (from_utf8 data) (from_msg VcxErrorKind.IOError "Wrong bytes in attachment")
  | VErr e => VErr e
  | VPanic => VPanic
  end.

(** [Attachments::add_base64_encoded_json_attachment]. *)
Definition add_attachment (l : Attachments) (id : AttachmentId) (json : Value) : VcxResult Attachments :=
  match attachment_new id json with
  | VOk j => VOk (l ++ [JSON j])%list
  | VErr e => VErr e
  | VPanic => VPanic
  end.

(** [Attachments::content]: the first attachment. *)
Definition content (l : Attachments) : VcxResult string :=
  match l with
  | JSON attach :: _ => get_data attach
  | _ => VErr (from_msg VcxErrorKind.InvalidJson "Unsupported Attachment type")
  end.
End Attachments.

(** ** Reports, acknowledgements, statuses *)
Record Description := mkDescription { d_en : option string; d_code : Z }.
Inductive WhoRetries := Me | You | Both | NoOne.
Inductive Impact := ImpactMessage | ImpactThread | ImpactConnection.

Record ProblemReport := mkProblemReport {
  pr_id : string;
  pr_thread : Thread;
  pr_description : option Description;
  pr_who_retries : option WhoRetries;
  pr_tracking_uri : option string;
  pr_escalation_uri : option string;
  pr_fix_hint : option string;
  pr_impact : option Impact;
  pr_noticed_time : option string;
  pr_location : option string;
  pr_problem_items : option (gmap string string);
  pr_comment : option string
}.

(** [ProblemReport::create().set_comment(comment).set_thread_id(thread)], the only form the
    handlers build. *)
Definition problem_report (id comment thread : string) : ProblemReport :=
  {| pr_id := id; pr_thread := set_thid thread_default thread; pr_description := None;
     pr_who_retries := None; pr_tracking_uri := None; pr_escalation_uri := None;
     pr_fix_hint := None; pr_impact := None; pr_noticed_time := None; pr_location := None;
     pr_problem_items := None; pr_comment := Some comment |}.

Inductive AckStatus := AckOk | AckFail | AckPending.
Record Ack := mkAck { ack_id : string; ack_status : AckStatus; ack_thread : Thread }.

(** [Ack::create().set_thread_id(thread)]. *)
Definition new_ack (id thread : string) : Ack := mkAck id AckOk (set_thid thread_default thread).

Inductive Status := Undefined | Success | Failed (report : ProblemReport) | Declined.

Definition status_code (s : Status) : Z :=
  match s with Undefined => 0 | Success => 1 | Failed _ => 2 | Declined => 3 end.

(** [VcxStateType], as the [u32] the interface returns. *)
Definition VcxStateNone : Z := 0.
Definition VcxStateInitialized : Z := 1.
Definition VcxStateOfferSent : Z := 2.
Definition VcxStateRequestReceived : Z := 3.
Definition VcxStateAccepted : Z := 4.

(** ** Issuance *)
Record CredentialValue := mkCredentialValue { cv_name : string; cv_value : string; cv_type : option string }.
Record CredentialOffer := mkCredentialOffer {
  co_id : string;
  co_comment : option string;
  co_preview : list CredentialValue;
  co_attach : Attachments;
  co_thread : option Thread
}.
Record CredentialProposal := mkCredentialProposal {
  cp_id : string;
  cp_comment : option string;
  cp_proposal : list CredentialValue;
  cp_schema_id : string;
  cp_cred_def_id : string;
  cp_thread : option Thread
}.
Record CredentialRequest := mkCredentialRequest {
  cr_id : string;
  cr_comment : option string;
  cr_attach : Attachments;
  cr_thread : Thread
}.
Record Credential := mkCredential {
  cred_id_ : string;
  cred_comment : option string;
  cred_attach : Attachments;
  cred_thread : Thread;
  cred_please_ack : bool
}.

Section Issuance.
Context {C : Codec} {V : VcxCodec}.

Definition offer_default (id : string) : CredentialOffer := mkCredentialOffer id None [] [] None.

Definition set_offers_attach (o : CredentialOffer) (offer : string) : VcxResult CredentialOffer :=
  match add_attachment (co_attach o) IdCredentialOffer (VString offer) with
  | VOk l => VOk (mkCredentialOffer (co_id o) (co_comment o) (co_preview o) l (co_thread o))
  | VErr e => VErr e
  | VPanic => VPanic
  end.

(** [add_credential_preview_data] with [MimeType::Plain]: [CredentialPreviewData::add_value]
    leaves the type out. *)
Definition add_credential_preview_data (o : CredentialOffer) (name value : string) : CredentialOffer :=
  mkCredentialOffer (co_id o) (co_comment o) (co_preview o ++ [mkCredentialValue name value None])%list
    (co_attach o) (co_thread o).

Definition request_default (id : string) : CredentialRequest :=
  mkCredentialRequest id None [] thread_default.

Definition set_requests_attach (r : CredentialRequest) (request : string) : VcxResult CredentialRequest :=
  match add_attachment (cr_attach r) IdCredentialRequest (VString request) with
  | VOk l => VOk (mkCredentialRequest (cr_id r) (cr_comment r) l (cr_thread r))
  | VErr e => VErr e
  | VPanic => VPanic
  end.

Definition request_set_thread_id (r : CredentialRequest) (id : string) : CredentialRequest :=
  mkCredentialRequest (cr_id r) (cr_comment r) (cr_attach r) (set_thid (cr_thread r) id).

Definition credential_default (id : string) : Credential := mkCredential id None [] thread_default false.

Definition set_credential (c : Credential) (credential : string) : VcxResult Credential :=
  match add_attachment (cred_attach c) IdCredential (VString credential) with
  | VOk l => VOk (mkCredential (cred_id_ c) (cred_comment c) l (cred_thread c) (cred_please_ack c))
  | VErr e => VErr e
  | VPanic => VPanic
  end.

Definition credential_set_thread_id (c : Credential) (id : string) : Credential :=
  mkCredential (cred_id_ c) (cred_comment c) (cred_attach c) (set_thid (cred_thread c) id)
    (cred_please_ack c).
End Issuance.

(** ** Proof presentation *)
Record Service := mkService {
  recipient_keys : list string;
  routing_keys : option (list string);
  service_endpoint : string
}.

Record PresentationRequest := mkPresentationRequest {
  pq_id : string;
  pq_comment : option string;
  pq_attach : Attachments;
  pq_service : option Service
}.
Record Presentation := mkPresentation {
  pn_id : string;
  pn_comment : option string;
  pn_attach : Attachments;
  pn_thread : Thread;
  pn_please_ack : bool
}.
Record PreviewAttribute := mkPreviewAttribute {
  pa_name : string; pa_cred_def_id : option string; pa_mime_type : option string;
  pa_value : option string; pa_filter : option (list Value)
}.
Record PreviewPredicate := mkPreviewPredicate {
  pp_name : string; pp_cred_def_id : option string; pp_predicate : string;
  pp_threshold : Z; pp_filter : option (list Value)
}.
Record PresentationPreview := mkPresentationPreview {
  pv_attributes : list PreviewAttribute;
  pv_predicates : list PreviewPredicate
}.
Record PresentationProposal := mkPresentationProposal {
  po_id : string;
  po_comment : option string;
  po_proposal : PresentationPreview;
  po_thread : Thread
}.

Section Presentation.
Context {C : Codec} {V : VcxCodec}.

Definition presentation_default (id : string) : Presentation := mkPresentation id None [] thread_default false.

Definition set_presentations_attach (p : Presentation) (presentations : string) : VcxResult Presentation :=
  match add_attachment (pn_attach p) IdPresentation (VString presentations) with
  | VOk l => VOk (mkPresentation (pn_id p) (pn_comment p) l (pn_thread p) (pn_please_ack p))
  | VErr e => VErr e
  | VPanic => VPanic
  end.

Definition presentation_set_thread_id (p : Presentation) (id : string) : Presentation :=
  mkPresentation (pn_id p) (pn_comment p) (pn_attach p) (set_thid (pn_thread p) id) (pn_please_ack p).

Definition ask_for_ack (p : Presentation) : Presentation :=
  mkPresentation (pn_id p) (pn_comment p) (pn_attach p) (pn_thread p) true.

(** [PresentationProposal::create().set_presentation_preview(preview).set_thread_id(thread)]. *)
Definition new_proposal (id : string) (preview : PresentationPreview) (thread : string) : PresentationProposal :=
  mkPresentationProposal id None preview (set_thid thread_default thread).

(** [set_request_presentations_attach], of the JSON value of the request data. *)
Definition set_request_presentations_attach (r : PresentationRequest) (data : Value) :
    VcxResult PresentationRequest :=
  match add_attachment (pq_attach r) IdPresentationRequest data with
  | VOk l => VOk (mkPresentationRequest (pq_id r) (pq_comment r) l (pq_service r))
  | VErr e => VErr e
  | VPanic => VPanic
  end.
End Presentation.

(** [impl Into<DidDoc> for Service]. *)
Definition doc_of_service (service : Service) : DidDoc :=
  set_keys (set_service_endpoint doc_default (service_endpoint service))
    (recipient_keys service) (default [] (routing_keys service)).

(** ** DID exchange, pings, discovery *)
Record ConnectionData := mkConnectionData { cd_did : string; cd_did_doc : DidDoc }.

(** [connection/request.rs]. *)
Record ConnRequest := mkConnRequest { rq_id : string; rq_label : string; rq_connection : ConnectionData }.

(** [Request::create().set_label(label).set_did(did).set_service_endpoint(endpoint).set_keys(..)]. *)
Definition new_request (id label did endpoint : string) (keys routing : list string) : ConnRequest :=
  mkConnRequest id label
    (mkConnectionData did (set_keys (set_service_endpoint (set_id doc_default did) endpoint) keys routing)).

(** [connection/response.rs]. *)
Record Response := mkResponse {
  rp_id : string; rp_thread : Thread; rp_connection : ConnectionData; rp_please_ack : bool
}.
Record ConnectionSignature := mkConnectionSignature {
  cs_type : MessageType; cs_signature : string; cs_sig_data : string; cs_signer : string
}.
Record SignedResponse := mkSignedResponse {
  sr_id : string; sr_thread : Thread; sr_signature : ConnectionSignature; sr_please_ack : bool
}.

(** [Response::create().set_did(did).set_service_endpoint(endpoint).set_keys(..).ask_for_ack()
    .set_thread_id(thread)]. *)
Definition new_response (id did endpoint : string) (keys routing : list string) (thread : string) : Response :=
  mkResponse id (set_thid thread_default thread)
    (mkConnectionData did (set_keys (set_service_endpoint (set_id doc_default did) endpoint) keys routing))
    true.

(** [connection/problem_report.rs]; the only locale is English. *)
Inductive ProblemCode :=
  | EmptyCode | RequestNotAccepted | RequestProcessingError | ResponseNotAccepted | ResponseProcessingError.
Inductive Localization := LocaleEn.
Record ConnProblemReport := mkConnProblemReport {
  cpr_id : string;
  cpr_problem_code : option ProblemCode;
  cpr_explain : option string;
  cpr_localization : option Localization;
  cpr_thread : Thread
}.

(** [ProblemReport::create().set_problem_code(code).set_explain(text).set_thread_id(thread)]. *)
Definition new_conn_report (id : string) (code : ProblemCode) (text thread : string) : ConnProblemReport :=
  mkConnProblemReport id (Some code) (Some text) None (set_thid thread_default thread).

Record Ping := mkPing {
  ping_id : string; ping_response_requested : bool; ping_comment : option string; ping_thread : option Thread
}.
Record PingResponse := mkPingResponse {
  pong_id : string; pong_comment : option string; pong_thread : Thread
}.
Record Query := mkQuery { query_id : string; query_query : option string; query_comment : option string }.
Record Disclose := mkDisclose {
  disclose_id : string; disclose_protocols : list ProtocolDescriptor; disclose_thread : Thread
}.

(** [forward.rs] and [basic_message/message.rs]. *)
Record Forward := mkForward { fw_to : string; fw_msg : Value }.
Record BasicMessage := mkBasicMessage {
  bm_id : string; bm_sent_time : string; bm_content : string; bm_l10n : option Localization
}.

(** ** All messages *)
Inductive A2AMessage :=
  | MForward (m : Forward)
  | ConnectionInvitation (m : Invitation)
  | ConnectionRequest (m : ConnRequest)
  | ConnectionResponse (m : SignedResponse)
  | ConnectionProblemReport (m : ConnProblemReport)
  | MPing (m : Ping)
  | MPingResponse (m : PingResponse)
  | MAck (m : Ack)
  | CommonProblemReport (m : ProblemReport)
  | MCredentialProposal (m : CredentialProposal)
  | MCredentialOffer (m : CredentialOffer)
  | MCredentialRequest (m : CredentialRequest)
  | MCredential (m : Credential)
  | CredentialAck (m : Ack)
  | MPresentationProposal (m : PresentationProposal)
  | MPresentationRequest (m : PresentationRequest)
  | MPresentation (m : Presentation)
  | PresentationAck (m : Ack)
  | MQuery (m : Query)
  | MDisclose (m : Disclose)
  | MBasicMessage (m : BasicMessage)
  | Generic (m : Value).

(** [serde_json::from_str] at [A2AMessage] and at a preview. *)
Class A2ACodec := {
  a2a_from_str : string -> option A2AMessage;
  preview_from_str : string -> option PresentationPreview;
  a2a_debug : A2AMessage -> string
}.

(** The thread a message of these protocols is in; the first message of an exchange gives
    the thread its id. *)
Definition message_thread (m : A2AMessage) : option string :=
  match m with
  | MAck a | CredentialAck a | PresentationAck a => Some (default "" (thid (ack_thread a)))
  | CommonProblemReport r => Some (default "" (thid (pr_thread r)))
  | MCredentialProposal p => default "" ∘ thid <$> cp_thread p
  | MCredentialOffer o => Some (co_id o)
  | MCredentialRequest r => Some (default "" (thid (cr_thread r)))
  | MCredential c => Some (default "" (thid (cred_thread c)))
  | MPresentationProposal p => Some (default "" (thid (po_thread p)))
  | MPresentationRequest r => Some (pq_id r)
  | MPresentation p => Some (default "" (thid (pn_thread p)))
  | _ => None
  end.

(** ** Attachments round trip *)
Section AttachmentLemmas.
Context {C : Codec} {V : VcxCodec}.
Context (base64_inv : forall l, Forall is_byte l -> base64_decode (base64_encode l) = Some l).

(** What is attached as a string is what the receiver reads. *)
Lemma content_of_string id s l :
  rust_string s -> add_attachment [] id (VString s) = VOk l -> content l = VOk s.
Proof.
  intros Hs [= <-]. unfold content, get_data, get_bytes, ok_or. cbn.
  rewrite base64_inv by auto with indy. cbn. by rewrite from_utf8_as_bytes.
Qed.
End AttachmentLemmas.

(** A string can always be attached. *)
Lemma add_string_attachment {C : Codec} {V : VcxCodec} l id s :
  exists l', add_attachment l id (VString s) = VOk l'.
Proof. by eexists. Qed.
