(* ===== verification/A2AJson.v ===== *)
(** * The JSON form of messages

    The [Serialize] and [Deserialize] of [A2AMessage] ([libvcx/src/v3/messages/a2a/mod.rs]): a
    message is the JSON object of its struct with an [@type] that names its family and kind,
    and is read back by that type; a value without a known type is a [Generic] message.

    The codecs of the structs are derived by serde and are parameters, one instance of the
    class [Serde] per struct.  Shown: every message survives the way through JSON
    ([message_json_roundtrip]). *)

From stdpp Require Import base list strings numbers gmap.
From Stdlib Require Import ZArith Lia Ascii.
From S2P Require Import Prelude Json Trie External VcxErrors DidDoc MessageType A2A.

Open Scope string_scope.

(** A codec derived by serde. *)
Class Serde (T : Type) := { to_value : T -> Value; from_value : Value -> option T }.

(** What such a codec promises: a struct becomes an object, and is read back from it also when
    the object has a field the struct does not know. *)
Definition reads_back {T} `{Serde T} (x : T) : Prop :=
  exists m, to_value x = Object m /\
    forall t, from_value (Object (map_insert "@type" t m)) = Some x.

Class A2ASerde := {
  #[global] serde_forward :: Serde Forward;
  #[global] serde_invitation :: Serde Invitation;
  #[global] serde_request :: Serde ConnRequest;
  #[global] serde_response :: Serde SignedResponse;
  #[global] serde_conn_report :: Serde ConnProblemReport;
  #[global] serde_ping :: Serde Ping;
  #[global] serde_pong :: Serde PingResponse;
  #[global] serde_ack :: Serde Ack;
  #[global] serde_report :: Serde ProblemReport;
  #[global] serde_cred_proposal :: Serde CredentialProposal;
  #[global] serde_cred_offer :: Serde CredentialOffer;
  #[global] serde_cred_request :: Serde CredentialRequest;
  #[global] serde_credential :: Serde Credential;
  #[global] serde_pres_proposal :: Serde PresentationProposal;
  #[global] serde_pres_request :: Serde PresentationRequest;
  #[global] serde_presentation :: Serde Presentation;
  #[global] serde_query :: Serde Query;
  #[global] serde_disclose :: Serde Disclose;
  #[global] serde_basic :: Serde BasicMessage
}.

(** ** Names of the kinds *)
Definition FORWARD : string := "forward".
Definition CONNECTION_INVITATION : string := "invitation".
Definition CONNECTION_REQUEST : string := "request".
Definition CONNECTION_RESPONSE : string := "response".
Definition CONNECTION_PROBLEM_REPORT : string := "problem_report".
Definition PING : string := "ping".
Definition PING_RESPONSE : string := "ping_response".
Definition ACK : string := "ack".
Definition PROBLEM_REPORT : string := "problem-report".
Definition CREDENTIAL_OFFER : string := "offer-credential".
Definition CREDENTIAL : string := "issue-credential".
Definition PROPOSE_CREDENTIAL : string := "propose-credential".
Definition REQUEST_CREDENTIAL : string := "request-credential".
Definition PROPOSE_PRESENTATION : string := "propose-presentation".
Definition REQUEST_PRESENTATION : string := "request-presentation".
Definition PRESENTATION : string := "presentation".
Definition QUERY : string := "query".
Definition DISCLOSE : string := "disclose".
Definition BASIC_MESSAGE : string := "message".

Section Json.
Context {R : RegexCodec} {S : A2ASerde}.

(** [as_object_mut().unwrap()] panics on what is not an object. *)
Definition set_a2a_message_type {T} `{Serde T} (msg : T) (family : MessageFamilies) (name : string) :
    VcxResult Value :=
  match to_value msg with
  | Object m => VOk (Object (map_insert "@type" (VString (type_to_string (build_type family name))) m))
  | _ => VPanic
  end.

Definition serialize (m : A2AMessage) : VcxResult Value :=
  match m with
  | MForward msg => set_a2a_message_type msg Routing FORWARD
  | ConnectionInvitation msg => set_a2a_message_type msg Connections CONNECTION_INVITATION
  | ConnectionRequest msg => set_a2a_message_type msg Connections CONNECTION_REQUEST
  | ConnectionResponse msg => set_a2a_message_type msg Connections CONNECTION_RESPONSE
  | ConnectionProblemReport msg => set_a2a_message_type msg Connections CONNECTION_PROBLEM_REPORT
  | MPing msg => set_a2a_message_type msg TrustPing PING
  | MPingResponse msg => set_a2a_message_type msg TrustPing PING_RESPONSE
  | MAck msg => set_a2a_message_type msg Notification ACK
  | CommonProblemReport msg => set_a2a_message_type msg ReportProblem PROBLEM_REPORT
  | MCredentialOffer msg => set_a2a_message_type msg CredentialIssuance CREDENTIAL_OFFER
  | MCredential msg => set_a2a_message_type msg CredentialIssuance CREDENTIAL
  | MCredentialProposal msg => set_a2a_message_type msg CredentialIssuance PROPOSE_CREDENTIAL
  | MCredentialRequest msg => set_a2a_message_type msg CredentialIssuance REQUEST_CREDENTIAL
  | CredentialAck msg => set_a2a_message_type msg CredentialIssuance ACK
  | MPresentationProposal msg => set_a2a_message_type msg PresentProof PROPOSE_PRESENTATION
  | MPresentationRequest msg => set_a2a_message_type msg PresentProof REQUEST_PRESENTATION
  | MPresentation msg => set_a2a_message_type msg PresentProof PRESENTATION
  | PresentationAck msg => set_a2a_message_type msg PresentProof ACK
  | MQuery msg => set_a2a_message_type msg DiscoveryFeatures QUERY
  | MDisclose msg => set_a2a_message_type msg DiscoveryFeatures DISCLOSE
  | MBasicMessage msg => set_a2a_message_type msg Basicmessage BASIC_MESSAGE
  | Generic msg => VOk msg
  end.

Definition type_of_value (v : Value) : option MessageType :=
  match as_str v with Some s => type_of_string s | None => None end.

(** The first name of the list that is the type's reads the value; no name: a generic
    message. *)
Fixpoint read_by_name (type_ : string) (value : Value)
    (readers : list (string * (Value -> option A2AMessage))) : option A2AMessage :=
  match readers with
  | [] => Some (Generic value)
  | (name, read) :: readers' =>
      if String.eqb type_ name then read value else read_by_name type_ value readers'
  end.

Definition reading_as {T} `{Serde T} (make : T -> A2AMessage) (value : Value) : option A2AMessage :=
  make <$> from_value value.

(** The arms of the match, by family. *)
Definition readers (family : MessageFamilies) : list (string * (Value -> option A2AMessage)) :=
  match family with
  | Routing => [(FORWARD, reading_as MForward)]
  | Connections =>
      [(CONNECTION_INVITATION, reading_as ConnectionInvitation);
       (CONNECTION_REQUEST, reading_as ConnectionRequest);
       (CONNECTION_RESPONSE, reading_as ConnectionResponse);
       (CONNECTION_PROBLEM_REPORT, reading_as ConnectionProblemReport)]
  | TrustPing => [(PING, reading_as MPing); (PING_RESPONSE, reading_as MPingResponse)]
  | Notification => [(ACK, reading_as MAck)]
  | ReportProblem => [(PROBLEM_REPORT, reading_as CommonProblemReport)]
  | CredentialIssuance =>
      [(CREDENTIAL, reading_as MCredential); (PROPOSE_CREDENTIAL, reading_as MCredentialProposal);
       (CREDENTIAL_OFFER, reading_as MCredentialOffer); (REQUEST_CREDENTIAL, reading_as MCredentialRequest);
       (ACK, reading_as CredentialAck)]
  | PresentProof =>
      [(PROPOSE_PRESENTATION, reading_as MPresentationProposal);
       (REQUEST_PRESENTATION, reading_as MPresentationRequest);
       (PRESENTATION, reading_as MPresentation); (ACK, reading_as PresentationAck)]
  | DiscoveryFeatures => [(QUERY, reading_as MQuery); (DISCLOSE, reading_as MDisclose)]
  | Basicmessage => [(BASIC_MESSAGE, reading_as MBasicMessage)]
  | Signature | Unknown _ => []
  end.

Definition deserialize (value : Value) : option A2AMessage :=
  match type_of_value (index value "@type") with
  | None => Some (Generic value)
  | Some message_type => read_by_name (mt_type message_type) value (readers (mt_family message_type))
  end.

(** [serde_json::from_str::<A2AMessage>]. *)
Definition message_from_str {C : Codec} (s : string) : option A2AMessage :=
  match json_from_str s with Some value => deserialize value | None => None end.
End Json.

(** ** The round trip *)
Section Laws.
Context {R : RegexCodec} {S : A2ASerde}.

(** The codec of the struct of a message keeps its promise. *)
Definition struct_reads_back (m : A2AMessage) : Prop :=
  match m with
  | MForward x => reads_back x
  | ConnectionInvitation x => reads_back x
  | ConnectionRequest x => reads_back x
  | ConnectionResponse x => reads_back x
  | ConnectionProblemReport x => reads_back x
  | MPing x => reads_back x
  | MPingResponse x => reads_back x
  | MAck x | CredentialAck x | PresentationAck x => reads_back x
  | CommonProblemReport x => reads_back x
  | MCredentialProposal x => reads_back x
  | MCredentialOffer x => reads_back x
  | MCredentialRequest x => reads_back x
  | MCredential x => reads_back x
  | MPresentationProposal x => reads_back x
  | MPresentationRequest x => reads_back x
  | MPresentation x => reads_back x
  | MQuery x => reads_back x
  | MDisclose x => reads_back x
  | MBasicMessage x => reads_back x
  | Generic v => type_of_value (index v "@type") = None
  end.

Definition known_family (f : MessageFamilies) : Prop :=
  match f with Unknown _ => False | _ => True end.

Lemma built_type_read family name :
  known_family family -> type_part name ->
  exists t, type_of_string (type_to_string (build_type family name)) = Some t /\
    mt_family t = family /\ mt_type t = name.
Proof.
  intros Hf Hn. unfold type_of_string, parse_message_type, type_to_string.
  cbn [mt_did mt_family mt_version mt_type build_type].
  change (";spec/" +:+ ?x) with (String ";" ("spec/" +:+ x)).
  rewrite search_type_skip by (by vm_compute). rewrite type_parts_spec;
    [|by destruct family; vm_compute|by vm_compute|done].
  eexists. split; [reflexivity|]. cbn. split; [by destruct family|done].
Qed.

Lemma typed_roundtrip {T} `{Serde T} (make : T -> A2AMessage) (msg : T) family name :
  reads_back msg -> known_family family -> type_part name ->
  (forall v, read_by_name name v (readers family) = reading_as make v) ->
  exists v, set_a2a_message_type msg family name = VOk v /\ deserialize v = Some (make msg).
Proof.
  intros (m & Hm & Hb) Hf Hn Hr.
  unfold set_a2a_message_type. rewrite Hm. eexists. split; [reflexivity|].
  unfold deserialize, type_of_value. rewrite index_insert_eq. cbn [as_str].
  destruct (built_type_read family name Hf Hn) as (t & -> & -> & ->).
  rewrite Hr. unfold reading_as. by rewrite Hb.
Qed.

(** Every message survives the way through JSON when the codec of its struct does:
    serialising does not panic, and what is written is read back as the same message of the
    same kind.  A generic message must not have a readable type. *)
Theorem message_json_roundtrip (m : A2AMessage) :
  struct_reads_back m -> exists v, serialize m = VOk v /\ deserialize v = Some m.
Proof.
  intros Hm. destruct m; cbn [serialize struct_reads_back] in *; try by apply typed_roundtrip.
  eexists. split; [reflexivity|]. unfold deserialize. by rewrite Hm.
Qed.
End Laws.

(** ** A concrete codec *)
Module JsonDemo.

Definition forward_serde : Serde Forward := {|
  to_value f := Object [("msg", fw_msg f); ("to", VString (fw_to f))];
  from_value v := match as_str (index v "to") with Some to => Some (mkForward to (index v "msg")) | None => None end
|}.
Definition no_serde {T} : Serde T := {| to_value _ := Null; from_value _ := None |}.

Definition serde : A2ASerde :=
  Build_A2ASerde forward_serde no_serde no_serde no_serde no_serde no_serde no_serde no_serde no_serde
    no_serde no_serde no_serde no_serde no_serde no_serde no_serde no_serde no_serde no_serde.
Definition regex : RegexCodec := {| word_suffix s := s; regex_new _ := None |}.
End JsonDemo.

Lemma message_json_roundtrip_witness :
  exists v, serialize (S := JsonDemo.serde) (MForward (mkForward "alice" (VString "text"))) = VOk v /\
    deserialize (R := JsonDemo.regex) (S := JsonDemo.serde) v = Some (MForward (mkForward "alice" (VString "text"))).
Proof.
  apply (message_json_roundtrip (R := JsonDemo.regex) (S := JsonDemo.serde)
           (MForward (mkForward "alice" (VString "text")))).
  eexists. split; [reflexivity|]. intros t. vm_compute. reflexivity.
Defined.
