(* ===== verification/VcxMonad.v ===== *)
(** * Programs of libvcx and what they call

    The handlers of libvcx are straight-line programs around calls that leave them: the
    connection's agent, libindy, the ledger, the settings, the [uuid] crate.  [Call] lists
    these calls with the type of their answers.  An environment answers a call knowing the
    calls made before; it is a parameter of every program, so a theorem about programs holds
    whatever the agent, the ledger or libindy answer, errors included.  The history of calls
    and answers, newest first, is the trace the safety theorems speak of.

    [wp] is the weakest precondition of a program; its rules reduce a claim about a program
    to claims about the possible answers. *)

From stdpp Require Import base list strings numbers gmap.
From Stdlib Require Import ZArith Lia.
From S2P Require Import Prelude Json VcxErrors A2A.

Open Scope string_scope.

(** ** Calls *)

(** [MessagePayload] and the parts of [Message] ([messages/get_message.rs]) that are used: what
    the agency hands out. *)
Inductive MessagePayload := PayloadV1 (l : list Z) | PayloadV2 (v : Value).
Record AgentMessage := mkAgentMessage {
  am_uid : string; am_payload : option MessagePayload; am_decrypted_payload : option string
}.

Inductive Call : Type -> Type :=
  | Uuid : Call string
  (* connection.rs *)
  | SendMessage (handle : Z) (m : A2AMessage) : Call (VcxResult unit)
  | SendMessageToSelfEndpoint (m : A2AMessage) (service : Service) : Call (VcxResult unit)
  | GetMessages (handle : Z) : Call (VcxResult (list (string * A2AMessage)))
  | GetMessageById (handle : Z) (id : string) : Call (VcxResult A2AMessage)
  | UpdateMessageStatus (handle : Z) (uid : string) : Call (VcxResult unit)
  | GetPwDid (handle : Z) : Call (VcxResult string)
  | GetTheirPwVerkey (handle : Z) : Call (VcxResult string)
  (* credential_def.rs *)
  | GetCredDefId (handle : Z) : Call (VcxResult string)
  | GetRevRegId (handle : Z) : Call (VcxResult (option string))
  | GetTailsFile (handle : Z) : Call (VcxResult (option string))
  (* settings.rs *)
  | GetConfigValue (key : string) : Call (VcxResult string)
  | IsStrictAriesProtocolSet : Call bool
  (* utils/libindy/anoncreds.rs *)
  | IssuerCreateCredentialOffer (cred_def_id : string) : Call (VcxResult string)
  | IssuerCreateCredential (offer request values : string) (rev_reg_id tails_file : option string) :
      Call (VcxResult (string * option string * option string))
  | RevokeCredential (tails_file rev_reg_id cred_rev_id : string) : Call (VcxResult unit)
  | ProverCreateCredentialReq (did offer cred_def : string) : Call (VcxResult (string * string))
  | ProverStoreCredential (req_meta cred cred_def : string) (rev_reg_def : option string) :
      Call (VcxResult string)
  | ProverDeleteCredential (id : string) : Call (VcxResult unit)
  | ProverGetCredentialsForProofReq (request : string) : Call (VcxResult string)
  | VerifierVerifyProof (request proof schemas cred_defs rev_reg_defs rev_regs : string) :
      Call (VcxResult bool)
  | GetCredDefJson (id : string) : Call (VcxResult (string * string))
  | GetSchemaJson (id : string) : Call (VcxResult (string * string))
  | GetRevRegDefJson (id : string) : Call (VcxResult (string * string))
  | GetRevReg (id : string) (timestamp : Z) : Call (VcxResult (string * string * Z))
  | ToUnqualified (entity : string) : Call (VcxResult string)
  | GenerateNonce : Call (VcxResult string)
  (* disclosed_proof.rs *)
  | GenerateIndyProof (credentials self_attested request : string) : Call (VcxResult string)
  (* the clock *)
  | GetTime : Call Z
  | UtcNow : Call string
  (* utils/libindy/signus.rs, crypto.rs *)
  | CreateAndStoreMyDid (method_name : option string) : Call (VcxResult (string * string))
  | CryptoSign (my_vk : string) (msg : bytes) : Call (VcxResult bytes)
  | CryptoVerify (vk : string) (msg signature : bytes) : Call (VcxResult bool)
  | PackMessage (sender_vk : option string) (receiver_keys : string) (msg : bytes) : Call (VcxResult bytes)
  | UnpackMessage (msg : bytes) : Call (VcxResult bytes)
  (* the agency: connection.rs, messages/, utils/httpclient.rs *)
  | CreateAgentKeys (pw_did pw_vk : string) : Call (VcxResult (string * string))
  | PostMessage (body : bytes) (url : string) : Call (VcxResult bytes)
  | GetConnectionMessages (pw_did pw_vk agent_did agent_vk : string) (uids : option (list string))
      (received_only : bool) : Call (VcxResult (list AgentMessage))
  | UpdateMessagesReviewed (pairwise_did uid : string) : Call (VcxResult unit)
  | DeleteConnection (pw_did pw_vk agent_did agent_vk : string) : Call (VcxResult unit).

Definition event : Type := { T : Type & (Call T * T)%type }.
Definition ev {T} (c : Call T) (r : T) : event := existT T (c, r).
Definition history : Type := list event.

Class Env := { answer : forall T, history -> Call T -> T }.
Arguments answer {_} {_} _ _.

(** ** Programs *)
Definition Vcx (A : Type) : Type := history -> VcxResult A * history.

Definition ret {A} (a : A) : Vcx A := fun h => (VOk a, h).
Definition lift {A} (r : VcxResult A) : Vcx A := fun h => (r, h).
Definition fail {A} (e : VcxError) : Vcx A := lift (VErr e).

(** The [?] operator. *)
Definition vbind {A B} (m : Vcx A) (k : A -> Vcx B) : Vcx B := fun h =>
  match m h with
  | (VOk a, h') => k a h'
  | (VErr e, h') => (VErr e, h')
  | (VPanic, h') => (VPanic, h')
  end.

(** [match m { Ok(a) => .., Err(err) => .. }]. *)
Definition attempt {A B} (m : Vcx A) (ok : A -> Vcx B) (err : VcxError -> Vcx B) : Vcx B := fun h =>
  match m h with
  | (VOk a, h') => ok a h'
  | (VErr e, h') => err e h'
  | (VPanic, h') => (VPanic, h')
  end.

Declare Scope vcx_scope.
Delimit Scope vcx_scope with vcx.
Notation "'let*' x ':=' m 'in' k" := (vbind m (fun x => k))
  (at level 10, x pattern, m at level 100, k at level 200) : vcx_scope.
Open Scope vcx_scope.

Section Calls.
Context {E : Env}.

Definition call {A} (c : Call (VcxResult A)) : Vcx A := fun h =>
  let r := answer h c in (r, ev c r :: h).

(** A call that cannot fail. *)
Definition ask {A} (c : Call A) : Vcx A := fun h =>
  let r := answer h c in (VOk r, ev c r :: h).

Definition send_message (handle : Z) (m : A2AMessage) : Vcx unit := call (SendMessage handle m).
Definition uuid : Vcx string := ask Uuid.
End Calls.

(** [self.sm = self.sm.clone().program()?; Ok(())]: the object keeps its old state when the
    program fails, but not what the program did on the way. *)
Definition commit {S} (program : S -> Vcx S) (s : S) (h : history) : VcxResult unit * S * history :=
  match program s h with
  | (VOk s', h') => (VOk (), s', h')
  | (VErr e, h') => (VErr e, s, h')
  | (VPanic, h') => (VPanic, s, h')
  end.

(** A method of an object that updates it as it goes: what was updated before an error
    stays. *)
Definition Obj (S A : Type) : Type := S -> history -> VcxResult A * S * history.

Definition obj_ret {S A} (a : A) : Obj S A := fun s h => (VOk a, s, h).

Definition obj_bind {S A B} (m : Obj S A) (k : A -> Obj S B) : Obj S B := fun s h =>
  match m s h with
  | (VOk a, s', h') => k a s' h'
  | (VErr e, s', h') => (VErr e, s', h')
  | (VPanic, s', h') => (VPanic, s', h')
  end.

(** A program that reads the object. *)
Definition reading {S A} (program : S -> Vcx A) : Obj S A := fun s h =>
  let (r, h') := program s h in (r, s, h').

Notation "'do*' x ':=' m 'in' k" := (obj_bind m (fun x => k))
  (at level 10, x pattern, m at level 100, k at level 200) : vcx_scope.

(** The first message of the mailbox that [relevant] takes. *)
Fixpoint find_message (relevant : A2AMessage -> option A2AMessage) (messages : list (string * A2AMessage)) :
    option (string * A2AMessage) :=
  match messages with
  | [] => None
  | (uid, message) :: messages' =>
      match relevant message with
      | Some message' => Some (uid, message')
      | None => find_message relevant messages'
      end
  end.

(** ** What happened *)

(** A message that was sent: the agent reported no error. *)
Definition sent_of (e : event) : option (Z * A2AMessage) :=
  match e with
  | existT _ (c, r) =>
      match c in Call T return T -> option (Z * A2AMessage) with
      | SendMessage handle m => fun r => match r with VOk _ => Some (handle, m) | _ => None end
      | _ => fun _ => None
      end r
  end.

(** The messages sent to the other party, newest first. *)
Definition sent (h : history) : list (Z * A2AMessage) := omap sent_of h.

(** ** An environment with a given mailbox *)
Definition with_mailbox (E : Env) (ms : list (string * A2AMessage)) : Env :=
  {| answer T h c :=
       match c in Call T return T with
       | GetMessages _ => VOk ms
       | c' => @answer E _ h c'
       end |}.

(** The agent accepts what it is given. *)
Definition agent_works (E : Env) : Prop :=
  (forall h conn m, @answer E _ h (SendMessage conn m) = VOk ()) /\
  (forall h conn uid, @answer E _ h (UpdateMessageStatus conn uid) = VOk ()).

(** A new id is not the thread of a message that is there already. *)
Definition fresh_for (E : Env) (ms : list (string * A2AMessage)) : Prop :=
  forall h, Forall (fun um => message_thread um.2 <> Some (@answer E _ h Uuid)) ms.

(** ** Weakest preconditions *)
Definition wp {A} (m : Vcx A) (Q : VcxResult A -> history -> Prop) (h : history) : Prop :=
  Q (m h).1 (m h).2.

Section Rules.
Context {E : Env}.
Implicit Types h : history.

Lemma wp_ret {A} (a : A) Q h : Q (VOk a) h -> wp (ret a) Q h.
Proof. done. Qed.

Lemma wp_lift {A} (r : VcxResult A) Q h : Q r h -> wp (lift r) Q h.
Proof. done. Qed.

Lemma wp_call {A} (c : Call (VcxResult A)) Q h :
  (forall r, Q r (ev c r :: h)) -> wp (call c) Q h.
Proof. intros HQ. apply HQ. Qed.

Lemma wp_ask {A} (c : Call A) Q h : (forall r, Q (VOk r) (ev c r :: h)) -> wp (ask c) Q h.
Proof. intros HQ. apply HQ. Qed.

(** With a known answer. *)
Lemma wp_call_known {A} (c : Call (VcxResult A)) a Q h :
  answer h c = VOk a -> Q (VOk a) (ev c (VOk a) :: h) -> wp (call c) Q h.
Proof. by intros <-. Qed.

Lemma wp_ask_known {A} (c : Call A) Q h : Q (VOk (answer h c)) (ev c (answer h c) :: h) -> wp (ask c) Q h.
Proof. done. Qed.

Lemma wp_lift_known {A} (m : VcxResult A) a Q h : m = VOk a -> Q (VOk a) h -> wp (lift m) Q h.
Proof. by intros ->. Qed.

Lemma wp_bind {A B} (m : Vcx A) (k : A -> Vcx B) Q h :
  wp m (fun r h' =>
    match r with VOk a => wp (k a) Q h' | VErr e => Q (VErr e) h' | VPanic => Q VPanic h' end) h ->
  wp (vbind m k) Q h.
Proof. unfold wp, vbind. cbn beta. destruct (m h) as [[a|e|] h']; auto. Qed.

Lemma wp_attempt {A B} (m : Vcx A) (ok : A -> Vcx B) (err : VcxError -> Vcx B) Q h :
  wp m (fun r h' =>
    match r with VOk a => wp (ok a) Q h' | VErr e => wp (err e) Q h' | VPanic => Q VPanic h' end) h ->
  wp (attempt m ok err) Q h.
Proof. unfold wp, attempt. cbn beta. destruct (m h) as [[a|e|] h']; auto. Qed.

Lemma wp_mono {A} (m : Vcx A) (Q Q' : VcxResult A -> history -> Prop) h :
  (forall r h', Q r h' -> Q' r h') -> wp m Q h -> wp m Q' h.
Proof. intros HQ. apply HQ. Qed.

Lemma wp_run {A} (m : Vcx A) Q h r h' : wp m Q h -> m h = (r, h') -> Q r h'.
Proof. unfold wp. intros HQ Hm. by rewrite Hm in HQ. Qed.
End Rules.

Lemma sent_cons e h :
  sent (e :: h) = match sent_of e with Some x => x :: sent h | None => sent h end.
Proof. done. Qed.

(** Computes what the last calls sent. *)
Ltac sent_simpl := rewrite ?sent_cons in *; cbn [sent_of ev] in *.

(** Runs a program to its calls, with an arbitrary answer for each. *)
Ltac wp_step :=
  lazymatch goal with
  | |- wp (vbind _ _) _ _ => apply wp_bind
  | |- wp (attempt _ _ _) _ _ => apply wp_attempt
  | |- wp (ret _) _ _ => apply wp_ret
  | |- wp (lift _) _ _ => apply wp_lift
  | |- wp (fail _) _ _ => apply wp_lift
  | |- wp (send_message _ _) _ _ => apply wp_call; intros [[]| |]
  | |- wp (call _) _ _ => apply wp_call; intros [?| |]
  | |- wp uuid _ _ => apply wp_ask; intros ?
  | |- wp (ask _) _ _ => apply wp_ask; intros ?
  | |- wp (match ?x with _ => _ end) _ _ => destruct x eqn:?
  | |- match ?x with VOk _ => _ | VErr _ => _ | VPanic => _ end =>
      lazymatch x with VOk _ => fail | VErr _ => fail | VPanic => fail | _ => destruct x eqn:? end
  end.
Ltac wp_auto := repeat (wp_step; cbn beta iota).

(** Runs a program whose answers and intermediate results are given by hypotheses. *)
Ltac wp_run_step :=
  lazymatch goal with
  | |- wp (vbind _ _) _ _ => apply wp_bind
  | |- wp (attempt _ _ _) _ _ => apply wp_attempt
  | |- wp (ret _) _ _ => apply wp_ret
  | |- wp (lift _) _ _ => eapply wp_lift_known; [solve [eauto]|]
  | |- wp (send_message _ _) _ _ =>
      eapply wp_call_known; [solve [eauto|cbn [answer with_mailbox]; eauto]|]
  | |- wp (call _) _ _ => eapply wp_call_known; [solve [eauto|cbn [answer with_mailbox]; eauto]|]
  | |- wp uuid _ _ => apply wp_ask_known
  | |- wp (ask _) _ _ => apply wp_ask_known
  end.
Ltac wp_run := repeat (wp_run_step; cbn beta iota).

Lemma wp_commit {S} (program : S -> Vcx S) (s : S) (h : history) (P : S -> history -> Prop) :
  wp (program s) (fun r h' => match r with VOk s' => P s' h' | _ => P s h' end) h ->
  P (commit program s h).1.2 (commit program s h).2.
Proof. unfold wp, commit. destruct (program s h) as [[s'|e|] h']; auto. Qed.

Lemma commit_ok {S} (program : S -> Vcx S) (s : S) (h : history) (P : S -> history -> Prop) :
  wp (program s) (fun r h' => match r with VOk s' => P s' h' | _ => False end) h ->
  exists s' h', commit program s h = (VOk (), s', h') /\ P s' h'.
Proof. unfold wp, commit. destruct (program s h) as [[s'|e|] h']; [eauto|done..]. Qed.

Lemma find_message_Some relevant l uid m :
  find_message relevant l = Some (uid, m) ->
  exists m0, (uid, m0) ∈ l /\ relevant m0 = Some m.
Proof.
  induction l as [|[u m0] l IH]; cbn; [done|].
  destruct (relevant m0) as [m'|] eqn:E; [intros [= <- <-]; exists m0; split; [left|done]|].
  intros (m1 & Hin & Hm)%IH. exists m1. split; [by right|done].
Qed.

Lemma find_message_None relevant l :
  find_message relevant l = None <-> Forall (fun um => relevant um.2 = None) l.
Proof.
  induction l as [|[u m0] l IH]; cbn; [done|]. rewrite Forall_cons, <-IH. cbn [snd].
  destruct (relevant m0); intuition congruence.
Qed.

(** ** Objects *)
Section Objects.
Context {S : Type} (I : S -> history -> Prop).

(** A method keeps an invariant of the object and the history. *)
Definition keeps {A} (m : Obj S A) : Prop := forall s h, I s h -> I (m s h).1.2 (m s h).2.

Lemma obj_keeps_ret {A} (a : A) : keeps (obj_ret a).
Proof. by intros s h HI. Qed.

Lemma obj_keeps_bind {A B} (m : Obj S A) (k : A -> Obj S B) :
  keeps m -> (forall a, keeps (k a)) -> keeps (obj_bind m k).
Proof.
  intros Hm Hk s h HI. specialize (Hm s h HI). unfold obj_bind.
  destruct (m s h) as [[[a|e|] s'] h']; cbn in *; [by apply Hk|done..].
Qed.

Lemma keeps_reading {A} (program : S -> Vcx A) :
  (forall s h, I s h -> wp (program s) (fun _ h' => I s h') h) -> keeps (reading program).
Proof.
  intros Hp s h HI. specialize (Hp s h HI). unfold reading, wp in *.
  by destruct (program s h).
Qed.

Lemma keeps_commit (program : S -> Vcx S) :
  (forall s h, I s h -> wp (program s) (fun r h' => match r with VOk s' => I s' h' | _ => I s h' end) h) ->
  keeps (commit program).
Proof. intros Hp s h HI. by apply (wp_commit _ _ _ I), Hp. Qed.
End Objects.

(** ** Programs extend the history *)
Section Extension.
Context {E : Env}.

Definition extends {A} (m : Vcx A) : Prop := forall h, h ⊆ (m h).2.

Lemma extends_ret {A} (a : A) : extends (ret a).
Proof. by intros h. Qed.

Lemma extends_lift {A} (r : VcxResult A) : extends (lift r).
Proof. by intros h. Qed.

Lemma extends_fail {A} e : extends (fail (A := A) e).
Proof. by intros h. Qed.

Lemma extends_call {A} (c : Call (VcxResult A)) : extends (call c).
Proof. intros h e He. by right. Qed.

Lemma extends_ask {A} (c : Call A) : extends (ask c).
Proof. intros h e He. by right. Qed.

Lemma extends_bind {A B} (m : Vcx A) (k : A -> Vcx B) :
  extends m -> (forall a, extends (k a)) -> extends (vbind m k).
Proof.
  intros Hm Hk h. specialize (Hm h). unfold vbind. destruct (m h) as [[a| |] h']; [|done..].
  etrans; [exact Hm|apply Hk].
Qed.

Lemma extends_attempt {A B} (m : Vcx A) (f : A -> Vcx B) g :
  extends m -> (forall a, extends (f a)) -> (forall e, extends (g e)) -> extends (attempt m f g).
Proof.
  intros Hm Hf Hg h. specialize (Hm h). unfold attempt. destruct (m h) as [[a|e|] h']; [..|done].
  - etrans; [exact Hm|apply Hf].
  - etrans; [exact Hm|apply Hg].
Qed.

(** Where only the growth of the history matters. *)
Lemma wp_extends {A} (m : Vcx A) (Q : VcxResult A -> history -> Prop) h :
  extends m -> (forall r h', h ⊆ h' -> Q r h') -> wp m Q h.
Proof. intros Hm HQ. apply HQ, Hm. Qed.
End Extension.

Create HintDb vcx.
#[export] Hint Resolve extends_ret extends_lift extends_fail extends_call extends_ask extends_bind extends_attempt : vcx.

(** Shows that a program extends the history, by the rules and the hints. *)
Ltac extends :=
  repeat lazymatch goal with
  | |- forall _, _ => intros ?
  | |- extends (vbind _ _) => apply extends_bind
  | |- extends (attempt _ _ _) => apply extends_attempt
  | |- extends (let (_, _) := ?x in _) => destruct x
  | |- extends (match ?x with _ => _ end) => destruct x
  | |- extends _ => solve [auto with vcx]
  end.
