(* ===== verification/VcxEncoding.v ===== *)
(** * Attribute values in libvcx

    A credential holds each attribute as the text the user sees and as the number that is
    signed.  [utils/openssl.rs] makes the number from the text ([encode]);
    [issuer_credential.rs] encodes the attributes of a credential ([encode_attributes]); and
    [proof.rs] checks, before a proof goes to libindy, that the texts of the revealed
    attributes have the encodings the proof shows ([validate_proof_revealed_attributes]).

    Shown: the check accepts exactly the proofs whose revealed attributes are encoded as
    [encode] does, so the texts of an accepted proof are those the issuer encoded, up to
    encodings in common; the issuer's encodings pass it.  Also shown: which texts have the
    same encoding, and that the values of attribute groups are not checked. *)

From stdpp Require Import base list strings numbers gmap pretty.
From Stdlib Require Import ZArith Lia.
From S2P Require Import Prelude Json Trie External ProofRequest VcxErrors A2A.

Open Scope string_scope.

(** [str::parse::<u32>]. *)
Definition parse_u32 (s : string) : option Z :=
  match parse_u64 s with
  | Some n => if (n <? 2 ^ 32)%Z then Some n else None
  | None => None
  end.

Section Encoding.
Context {C : Codec} {V : VcxCodec} {H : HashOrder}.

Definition encode (s : string) : VcxResult string :=
  match parse_u32 s with
  | Some val => VOk (u64_to_string val)
  | None =>
      match bignum_dec (sha256 (as_bytes s)) with
      | Some encoded => VOk encoded
      | None => VErr (from_msg VcxErrorKind.EncodeError ("Cannot encode string: " ++ bignum_err))
      end
  end.

(** The text of one attribute: a string, or the first string of an array (the old form). *)
Definition first_attr (attr_data : Value) : VcxResult string :=
  match attr_data with
  | Array array_type =>
      ok_or (match array_type with v :: _ => as_str v | [] => None end)
        (from_msg VcxErrorKind.InvalidAttributesStructure "Attribute value not found")
  | VString str_type => VOk str_type
  | _ => VErr (from_msg VcxErrorKind.InvalidJson "Invalid Json for Attribute data")
  end.

(** [json!({"raw": .., "encoded": ..})]. *)
Definition attrib_values (raw encoded : string) : Value :=
  Object [("encoded", VString encoded); ("raw", VString raw)].

(** The loop over the attributes. *)
Fixpoint encode_loop (attributes : list (string * Value)) (dictionary : gmap string Value) :
    VcxResult (gmap string Value) :=
  match attributes with
  | [] => VOk dictionary
  | (attr, attr_data) :: attributes' =>
      match first_attr attr_data with
      | VOk raw =>
          match encode raw with
          | VOk encoded => encode_loop attributes' (<[attr := attrib_values raw encoded]> dictionary)
          | VErr e => VErr e
          | VPanic => VPanic
          end
      | VErr e => VErr e
      | VPanic => VPanic
      end
  end.

Definition encode_dictionary (m : list (string * Value)) : VcxResult (gmap string Value) :=
  encode_loop (iter (list_to_map m : gmap string Value)) ∅.

Definition encode_attributes (attributes : string) : VcxResult string :=
  match json_from_str attributes with
  | Some (Object m) =>
      match encode_dictionary m with
      | VOk dictionary => VOk (json_to_string_pretty (Object (iter dictionary)))
      | VErr e => VErr e
      | VPanic => VPanic
      end
  | _ => VErr (from_msg VcxErrorKind.InvalidJson
                 ("Cannot deserialize credential attributes: " ++ json_err_display attributes))
  end.

(** One revealed attribute of a proof. *)
Definition check_revealed (attr1_referent : string) (info : Value) : VcxResult unit :=
  match as_str (index info "raw") with
  | None => VErr (from_msg VcxErrorKind.InvalidProof
                    ("Cannot get raw value for " ++ quoted attr1_referent ++ " attribute"))
  | Some raw =>
      match as_str (index info "encoded") with
      | None => VErr (from_msg VcxErrorKind.InvalidProof
                        ("Cannot get encoded value for " ++ quoted attr1_referent ++ " attribute"))
      | Some encoded_ =>
          match encode raw with
          | VOk expected_encoded =>
              if String.eqb expected_encoded encoded_ then VOk ()
              else VErr (from_msg VcxErrorKind.InvalidProof
                           ("Encoded values are different. Expected: " ++ expected_encoded ++
                            ". From Proof: " ++ encoded_))
          | VErr e => VErr e
          | VPanic => VPanic
          end
      end
  end.

Fixpoint check_all_revealed (revealed_attrs : list (string * Value)) : VcxResult unit :=
  match revealed_attrs with
  | [] => VOk ()
  | (attr1_referent, info) :: l =>
      match check_revealed attr1_referent info with
      | VOk _ => check_all_revealed l
      | VErr e => VErr e
      | VPanic => VPanic
      end
  end.

Definition validate_proof_revealed_attributes (proof_json : string) : VcxResult unit :=
  match json_from_str proof_json with
  | None => VErr (from_msg VcxErrorKind.InvalidJson
                    ("Cannot deserialize libndy proof: " ++ json_err_display proof_json))
  | Some proof =>
      match as_object (index (index proof "requested_proof") "revealed_attrs") with
      | Some revealed_attrs => check_all_revealed revealed_attrs
      | None => VOk ()
      end
  end.
End Encoding.

(** ** The check and the encoding agree *)
Section EncodingLemmas.
Context {C : Codec} {V : VcxCodec} {H : HashOrder} {HL : HashOrderLaws H}.

(** A revealed attribute shows the encoding of its text. *)
Definition well_encoded (info : Value) : Prop :=
  exists raw encoded,
    index info "raw" = VString raw /\ index info "encoded" = VString encoded /\
    encode raw = VOk encoded.

Lemma as_str_Some v s : as_str v = Some s <-> v = VString s.
Proof. destruct v; cbn; split; congruence. Qed.

Lemma check_revealed_ok r info : check_revealed r info = VOk () <-> well_encoded info.
Proof.
  unfold check_revealed, well_encoded. split.
  - destruct (as_str (index info "raw")) as [raw|] eqn:Er; [|done].
    destruct (as_str (index info "encoded")) as [enc|] eqn:Ee; [|done].
    apply as_str_Some in Er, Ee.
    destruct (encode raw) as [e| |] eqn:E; [|done..].
    destruct (String.eqb_spec e enc) as [->|]; [|done]. eauto.
  - intros (raw & enc & -> & -> & Henc). cbn. rewrite Henc. by rewrite String.eqb_refl.
Qed.

Lemma check_all_revealed_ok l :
  check_all_revealed l = VOk () <-> Forall (fun kv => well_encoded kv.2) l.
Proof.
  induction l as [|[r info] l IH]; cbn; [done|]. rewrite Forall_cons, <-(check_revealed_ok r), <-IH. cbn [snd].
  destruct (check_revealed r info) as [[]| |]; [tauto|intuition congruence..].
Qed.

(** The revealed attributes of a proof, as the check reads them. *)
Definition revealed_of (proof : Value) : list (string * Value) :=
  default [] (as_object (index (index proof "requested_proof") "revealed_attrs")).

(** A proof passes the check exactly if every attribute it reveals by itself shows the
    encoding of its text. *)
Theorem revealed_check_exact proof_json :
  validate_proof_revealed_attributes proof_json = VOk () <->
  exists proof, json_from_str proof_json = Some proof /\
    Forall (fun kv => well_encoded kv.2) (revealed_of proof).
Proof.
  unfold validate_proof_revealed_attributes, revealed_of.
  destruct (json_from_str proof_json) as [proof|]; [|split; [done|by intros (? & ? & _)]].
  destruct (as_object _) as [l|] eqn:E; [rewrite check_all_revealed_ok|]; split.
  - intros Hl. exists proof. by rewrite E.
  - intros (? & [= <-] & Hl). by rewrite E in Hl.
  - intros _. exists proof. by rewrite E.
  - done.
Qed.

Lemma encode_loop_ok l d d' :
  NoDup l.*1 -> encode_loop l d = VOk d' ->
  (forall a v, (a, v) ∈ l -> exists raw encoded,
     first_attr v = VOk raw /\ encode raw = VOk encoded /\ d' !! a = Some (attrib_values raw encoded)) /\
  (forall a, a ∉ l.*1 -> d' !! a = d !! a).
Proof.
  revert d. induction l as [|[a v] l IH]; intros d Hnd Hl; cbn in Hl.
  - injection Hl as <-. split; [|done]. by intros ?? ?%not_elem_of_nil.
  - cbn in Hnd. apply NoDup_cons in Hnd as [Ha Hnd].
    destruct (first_attr v) as [raw| |] eqn:Ef; [|done..].
    destruct (encode raw) as [enc| |] eqn:Ee; [|done..].
    destruct (IH _ Hnd Hl) as [IH1 IH2]. split.
    + intros a' v' [[= -> ->]|Hin]%elem_of_cons; [|by apply IH1].
      exists raw, enc. rewrite IH2 by done. by rewrite lookup_insert_eq.
    + intros a' Hna. cbn in Hna. apply not_elem_of_cons in Hna as [Hne Hna].
      rewrite IH2 by done. by rewrite lookup_insert_ne.
Qed.

(** Every attribute of the credential has its text and the encoding of its text, and the
    credential has no other attribute. *)
Theorem encoded_dictionary m d :
  encode_dictionary m = VOk d ->
  forall a,
    match (list_to_map m : gmap string Value) !! a with
    | Some v => exists raw encoded,
        first_attr v = VOk raw /\ encode raw = VOk encoded /\ d !! a = Some (attrib_values raw encoded)
    | None => d !! a = None
    end.
Proof.
  unfold encode_dictionary. intros Hd a.
  assert (Hnd : NoDup (iter (list_to_map m : gmap string Value)).*1).
  { rewrite iter_perm. apply NoDup_fst_map_to_list. }
  destruct (encode_loop_ok _ _ _ Hnd Hd) as [H1 H2].
  destruct (_ !! a) as [v|] eqn:E; [by apply H1, elem_of_iter|].
  rewrite H2; [apply lookup_empty|]. intros ([a' v] & -> & Hin)%list_elem_of_fmap.
  apply elem_of_iter in Hin. cbn in E. congruence.
Qed.

(** What an issuer encodes passes the verifier's check: a proof that reveals texts and
    encodings of the credential's values is not refused by it. *)
Theorem issued_values_pass m d l :
  encode_dictionary m = VOk d ->
  Forall (fun kv => exists a v, d !! a = Some v /\
            index kv.2 "raw" = index v "raw" /\ index kv.2 "encoded" = index v "encoded") l ->
  check_all_revealed l = VOk ().
Proof.
  intros Hd Hl. apply check_all_revealed_ok. eapply Forall_impl; [exact Hl|].
  intros [r info] (a & v & Ha & Hr & He). cbn in *.
  pose proof (encoded_dictionary _ _ Hd a) as Ha'.
  destruct ((list_to_map m : gmap string Value) !! a) as [w|]; [|congruence].
  destruct Ha' as (raw & enc & _ & Henc & Hda). rewrite Ha in Hda. injection Hda as ->.
  exists raw, enc. by rewrite Hr, He.
Qed.

(** Numbers of 32 bits are encoded as themselves. *)
Lemma encode_u32 n : (0 <= n < 2 ^ 32)%Z -> encode (u64_to_string n) = VOk (u64_to_string n).
Proof.
  intros Hn. unfold encode, parse_u32. rewrite parse_u64_to_string by lia.
  by rewrite (proj2 (Z.ltb_lt n (2 ^ 32)) (proj2 Hn)).
Qed.

(** Leading zeros and a plus sign are lost: three texts with one encoding. *)
Theorem leading_zeros_encode_alike :
  encode "007" = VOk "7" /\ encode "+7" = VOk "7" /\ encode "7" = VOk "7".
Proof. by vm_compute. Qed.

(** The values of an attribute group are not looked at: a proof that shows another text for
    a group attribute than the one that was encoded passes the check. *)
Theorem group_values_not_checked proof_json m :
  json_from_str proof_json = Some (Object [("requested_proof", Object [("revealed_attr_groups", Object m)])]) ->
  validate_proof_revealed_attributes proof_json = VOk ().
Proof. unfold validate_proof_revealed_attributes. by intros ->. Qed.
End EncodingLemmas.
