(* ===== verification/Issuance.v ===== *)
(** * Credential issuance: events

    [libvcx/src/v3/handlers/issuance/messages.rs]: what the state machines of the issuer
    ([Issuer.v]) and of the holder ([Holder.v]) of a credential react to, and the problem
    reports the handlers of all protocols build. *)

From stdpp Require Import base list strings numbers gmap.
From Stdlib Require Import ZArith Lia.
From S2P Require Import Prelude Json Trie External VcxErrors A2A VcxMonad.

Open Scope string_scope.

(** [CredentialIssuanceMessage]. *)
Inductive CredentialIssuanceMessage :=
  | CredentialInit (handle : Z)
  | CredentialSend
  | EvProposal (m : CredentialProposal)
  | EvOffer (m : CredentialOffer)
  | CredentialRequestSend (handle : Z)
  | EvRequest (m : CredentialRequest)
  | EvCredential (m : Credential)
  | EvAck (m : Ack)
  | EvProblemReport (m : ProblemReport)
  | Unknown.

(** [impl From<A2AMessage> for CredentialIssuanceMessage]. *)
Definition issuance_message (msg : A2AMessage) : CredentialIssuanceMessage :=
  match msg with
  | MCredentialProposal proposal => EvProposal proposal
  | MCredentialOffer offer => EvOffer offer
  | MCredentialRequest request => EvRequest request
  | MCredential credential => EvCredential credential
  | MAck ack | CredentialAck ack => EvAck ack
  | CommonProblemReport report => EvProblemReport report
  | _ => Unknown
  end.

Section Issuance.
Context {E : Env}.

(** [ProblemReport::create().set_comment(comment).set_thread_id(thread)]. *)
Definition create_report (comment thread : string) : Vcx ProblemReport :=
  let* id := uuid in ret (problem_report id comment thread).
End Issuance.

(** Every id can be given to a new report. *)
Lemma create_report_wp {E : Env} comment thread Q h :
  (forall id, Q (VOk (problem_report id comment thread)) (ev Uuid id :: h)) ->
  wp (create_report comment thread) Q h.
Proof. intros HQ. unfold create_report. wp_auto. apply HQ. Qed.
