(* ===== verification/Issuer.v ===== *)
(** * The issuer of a credential

    [libvcx/src/v3/handlers/issuance/issuer.rs], the issuer's part of [states.rs] and the
    object of [mod.rs]: the states, the conversions between them, the handlers and the calls
    of the interface.  A handler returns the next state or an error; the object keeps its
    state when it fails ([commit]).  Agent, libindy and ledger are the environment of
    [VcxMonad.v].  What an issuer has done in a state is shown in [IssuanceSafety.v]. *)

From stdpp Require Import base list strings numbers gmap.
From Stdlib Require Import ZArith Lia.
From S2P Require Import Prelude Json Trie External ProofRequest VcxErrors A2A VcxMonad VcxEncoding Issuance.

Open Scope string_scope.

(** ** The states of an issuer *)
Record InitialState := mkInitial {
  i_cred_def_id : string; i_credential_json : string;
  i_rev_reg_id : option string; i_tails_file : option string
}.
Record OfferSentState := mkOfferSent {
  os_offer : string; os_cred_data : string; os_rev_reg_id : option string;
  os_tails_file : option string; os_connection_handle : Z; os_thread_id : string
}.
Record RequestReceivedState := mkRequestReceived {
  rr_offer : string; rr_cred_data : string; rr_rev_reg_id : option string;
  rr_tails_file : option string; rr_connection_handle : Z; rr_request : CredentialRequest;
  rr_thread_id : string
}.
Record RevocationInfoV1 := mkRevocationInfo {
  cred_rev_id : option string; rev_reg_id : option string; tails_file : option string
}.
Record CredentialSentState := mkCredentialSent {
  cs_connection_handle : Z; cs_revocation_info_v1 : option RevocationInfoV1; cs_thread_id : string
}.
Record FinishedState := mkFinished {
  f_cred_id : option string; f_thread_id : string;
  f_revocation_info_v1 : option RevocationInfoV1; f_status : Status
}.

Inductive IssuerState :=
  | Initial (s : InitialState)
  | OfferSent (s : OfferSentState)
  | RequestReceived (s : RequestReceivedState)
  | CredentialSent (s : CredentialSentState)
  | Finished (s : FinishedState).

Definition get_connection_handle (s : IssuerState) : Z :=
  match s with
  | Initial _ => 0
  | OfferSent d => os_connection_handle d
  | RequestReceived d => rr_connection_handle d
  | CredentialSent d => cs_connection_handle d
  | Finished _ => 0
  end.

Definition thread_id (s : IssuerState) : string :=
  match s with
  | Initial _ => ""
  | OfferSent d => os_thread_id d
  | RequestReceived d => rr_thread_id d
  | CredentialSent d => cs_thread_id d
  | Finished d => f_thread_id d
  end.

(** ** The conversions between the states *)
Definition offer_sent (state : InitialState) (offer : string) (connection_handle : Z) (sent_id : string) :
    OfferSentState :=
  mkOfferSent offer (i_credential_json state) (i_rev_reg_id state) (i_tails_file state)
    connection_handle sent_id.

Definition request_received (state : OfferSentState) (request : CredentialRequest) : RequestReceivedState :=
  mkRequestReceived (os_offer state) (os_cred_data state) (os_rev_reg_id state) (os_tails_file state)
    (os_connection_handle state) request (os_thread_id state).

Definition finished_offer_problem (state : OfferSentState) (err : ProblemReport) : FinishedState :=
  mkFinished None (os_thread_id state)
    (Some (mkRevocationInfo None (os_rev_reg_id state) (os_tails_file state))) (Failed err).

Definition finished_issued (state : RequestReceivedState) (cred_rev_id : option string) : FinishedState :=
  mkFinished None (rr_thread_id state)
    (Some (mkRevocationInfo cred_rev_id (rr_rev_reg_id state) (rr_tails_file state))) Success.

Definition finished_request_problem (state : RequestReceivedState) (err : ProblemReport) : FinishedState :=
  mkFinished None (rr_thread_id state)
    (Some (mkRevocationInfo None (rr_rev_reg_id state) (rr_tails_file state))) (Failed err).

Definition finished_sent (state : CredentialSentState) : FinishedState :=
  mkFinished None (cs_thread_id state) (cs_revocation_info_v1 state) Success.

(** ** The machine *)
Record IssuerSM := mkIssuerSM { state : IssuerState; source_id : string }.

Definition new (cred_def_id credential_data : string) (rev_reg_id tails_file : option string)
    (source_id : string) : IssuerSM :=
  mkIssuerSM (Initial (mkInitial cred_def_id credential_data rev_reg_id tails_file)) source_id.

Definition is_terminal_state (sm : IssuerSM) : bool :=
  match state sm with Finished _ => true | _ => false end.

(** [IssuerSM::state]. *)
Definition state_code (sm : IssuerSM) : Z :=
  match state sm with
  | Initial _ => VcxStateInitialized
  | OfferSent _ => VcxStateOfferSent
  | RequestReceived _ => VcxStateRequestReceived
  | CredentialSent _ => VcxStateAccepted
  | Finished d => match f_status d with Success => VcxStateAccepted | _ => VcxStateNone end
  end.

Definition credential_status (sm : IssuerSM) : Z :=
  match state sm with Finished d => status_code (f_status d) | _ => status_code Undefined end.

(** One iteration of the loop of [find_message_to_handle]. *)
Definition relevant (s : IssuerState) (message : A2AMessage) : option A2AMessage :=
  match s with
  | OfferSent _ =>
      match message with
      | MCredentialRequest request =>
          if is_reply (cr_thread request) (thread_id s) then Some (MCredentialRequest request) else None
      | MCredentialProposal proposal =>
          match cp_thread proposal with
          | Some thread => if is_reply thread (thread_id s) then Some (MCredentialProposal proposal) else None
          | None => None
          end
      | CommonProblemReport report =>
          if is_reply (pr_thread report) (thread_id s) then Some (CommonProblemReport report) else None
      | _ => None
      end
  | CredentialSent _ =>
      match message with
      | MAck ack | CredentialAck ack =>
          if is_reply (ack_thread ack) (thread_id s) then Some (CredentialAck ack) else None
      | CommonProblemReport report =>
          if is_reply (pr_thread report) (thread_id s) then Some (CommonProblemReport report) else None
      | _ => None
      end
  | _ => None
  end.

Definition find_message_to_handle (sm : IssuerSM) (messages : list (string * A2AMessage)) :
    option (string * A2AMessage) :=
  find_message (relevant (state sm)) messages.

Section Machine.
Context {C : Codec} {V : VcxCodec} {A : A2ACodec} {H : HashOrder} {E : Env}.

(** The loop of [_append_credential_preview] over the (sorted) object. *)
Fixpoint append_values (values_map : list (string * Value)) (new_offer : CredentialOffer) :
    VcxResult CredentialOffer :=
  match values_map with
  | [] => VOk new_offer
  | (key, value) :: values_map' =>
      match as_str value with
      | Some v => append_values values_map' (add_credential_preview_data new_offer key v)
      | None => VErr (from_msg VcxErrorKind.InvalidJson "Invalid Credential Preview Json")
      end
  end.

Definition _append_credential_preview (cred_offer_msg : CredentialOffer) (credential_json : string) :
    VcxResult CredentialOffer :=
  match json_from_str credential_json with
  | None => VErr (from_msg VcxErrorKind.InvalidJson
                    ("Invalid Credential Preview Json: " ++ json_err_debug credential_json))
  | Some cred_values =>
      match as_object cred_values with
      | None => VErr (from_msg VcxErrorKind.InvalidJson "Invalid Credential Preview Json")
      | Some values_map => append_values values_map cred_offer_msg
      end
  end.

Definition _create_credential (request : CredentialRequest) (rev_reg_id tails_file : option string)
    (offer cred_data : string) : Vcx (Credential * option string) :=
  let* request := lift (content (cr_attach request)) in
  let* cred_data := lift (encode_attributes cred_data) in
  let* (ser_credential, cred_rev_id, _) :=
    call (IssuerCreateCredential offer request cred_data rev_reg_id tails_file) in
  let* id := uuid in
  let* credential := lift (set_credential (credential_default id) ser_credential) in
  ret (credential, cred_rev_id).

(** The arm of [CredentialInit] in the initial state. *)
Definition send_offer (state_data : InitialState) (connection_handle : Z) : Vcx IssuerState :=
  let* cred_offer := call (IssuerCreateCredentialOffer (i_cred_def_id state_data)) in
  let* id := uuid in
  let* cred_offer_msg := lift (set_offers_attach (offer_default id) cred_offer) in
  let* cred_offer_msg := lift (_append_credential_preview cred_offer_msg (i_credential_json state_data)) in
  let* _ := send_message connection_handle (MCredentialOffer cred_offer_msg) in
  ret (OfferSent (offer_sent state_data cred_offer connection_handle (co_id cred_offer_msg))).

(** The arm of [CredentialSend] once a request has been received. *)
Definition issue (state_data : RequestReceivedState) : Vcx IssuerState :=
  attempt
    (_create_credential (rr_request state_data) (rr_rev_reg_id state_data) (rr_tails_file state_data)
       (rr_offer state_data) (rr_cred_data state_data))
    (fun '(credential_msg, cred_rev_id) =>
       let credential_msg := credential_set_thread_id credential_msg (rr_thread_id state_data) in
       let* _ := send_message (rr_connection_handle state_data) (MCredential credential_msg) in
       ret (Finished (finished_issued state_data cred_rev_id)))
    (fun err =>
       let* report := create_report (err_to_string err) (rr_thread_id state_data) in
       let* _ := send_message (rr_connection_handle state_data) (CommonProblemReport report) in
       ret (Finished (finished_request_problem state_data report))).

(** The arms of [handle_message] on the state. *)
Definition handle_state (s : IssuerState) (cim : CredentialIssuanceMessage) : Vcx IssuerState :=
  match s with
  | Initial state_data =>
      match cim with
      | CredentialInit connection_handle => send_offer state_data connection_handle
      | _ => ret (Initial state_data)
      end
  | OfferSent state_data =>
      match cim with
      | EvRequest request => ret (RequestReceived (request_received state_data request))
      | EvProposal _ =>
          let* report := create_report "CredentialProposal is not supported" (os_thread_id state_data) in
          let* _ := send_message (os_connection_handle state_data) (CommonProblemReport report) in
          ret (Finished (finished_offer_problem state_data report))
      | EvProblemReport report => ret (Finished (finished_offer_problem state_data report))
      | _ => ret (OfferSent state_data)
      end
  | RequestReceived state_data =>
      match cim with
      | CredentialSend => issue state_data
      | _ => ret (RequestReceived state_data)
      end
  | CredentialSent state_data =>
      match cim with
      | EvProblemReport _ => ret (Finished (finished_sent state_data))
      | EvAck _ => ret (Finished (finished_sent state_data))
      | _ => ret (CredentialSent state_data)
      end
  | Finished state_data => ret (Finished state_data)
  end.

Definition handle_message (cim : CredentialIssuanceMessage) (sm : IssuerSM) : Vcx IssuerSM :=
  let* s := handle_state (state sm) cim in ret (mkIssuerSM s (source_id sm)).

Definition update_state (sm : IssuerSM) : Vcx IssuerSM :=
  if is_terminal_state sm then ret sm
  else
    let conn_handle := get_connection_handle (state sm) in
    let* messages := call (GetMessages conn_handle) in
    match find_message_to_handle sm messages with
    | Some (uid, msg) =>
        let* sm' := handle_message (issuance_message msg) sm in
        let* _ := call (UpdateMessageStatus conn_handle uid) in
        ret sm'
    | None => ret sm
    end.

Definition revoke (sm : IssuerSM) : Vcx unit :=
  match state sm with
  | Finished d =>
      match f_revocation_info_v1 d with
      | Some rev_info =>
          match cred_rev_id rev_info, rev_reg_id rev_info, tails_file rev_info with
          | Some cred_rev_id, Some rev_reg_id, Some tails_file =>
              call (RevokeCredential tails_file rev_reg_id cred_rev_id)
          | _, _, _ => fail (vcx_error VcxErrorKind.InvalidRevocationDetails)
          end
      | None => fail (vcx_error VcxErrorKind.NotReady)
      end
  | _ => fail (vcx_error VcxErrorKind.NotReady)
  end.

(** ** The object of the interface *)
Definition create (cred_def_handle : Z) (credential_data source_id : string) : Vcx IssuerSM :=
  let* cred_def_id := call (GetCredDefId cred_def_handle) in
  let* rev_reg_id := call (GetRevRegId cred_def_handle) in
  let* tails_file := call (GetTailsFile cred_def_handle) in
  ret (new cred_def_id credential_data rev_reg_id tails_file source_id).

(** [Issuer::update_status]. *)
Definition update_status (msg : option string) (sm : IssuerSM) : Vcx IssuerSM :=
  match msg with
  | Some msg =>
      match a2a_from_str msg with
      | Some message => handle_message (issuance_message message) sm
      | None => fail (from_msg VcxErrorKind.InvalidOption ("Cannot deserialize Message: " ++ json_err_debug msg))
      end
  | None => update_state sm
  end.

(** What a user of the interface can call on an issuer, reading apart. *)
Inductive Op := OpSendOffer (handle : Z) | OpSendCredential (handle : Z) | OpUpdate (msg : option string).

Definition perform (op : Op) : IssuerSM -> Vcx IssuerSM :=
  match op with
  | OpSendOffer handle => handle_message (CredentialInit handle)
  | OpSendCredential _ => handle_message CredentialSend
  | OpUpdate msg => update_status msg
  end.

Definition api (op : Op) : IssuerSM -> history -> VcxResult unit * IssuerSM * history :=
  commit (perform op).

(** The states an issuer can be in, with what was called until then. *)
Inductive reachable : IssuerSM -> history -> Prop :=
  | reach_new cred_def_id data rev tails source :
      reachable (new cred_def_id data rev tails source) []
  | reach_api sm h op :
      reachable sm h -> reachable (api op sm h).1.2 (api op sm h).2.
End Machine.
