(* ===== verification/Holder.v ===== *)
(** * The holder of a credential

    [libvcx/src/v3/handlers/issuance/holder.rs], the holder's part of [states.rs] and the
    object of [mod.rs], as in [Issuer.v]. *)

From stdpp Require Import base list strings numbers gmap.
From Stdlib Require Import ZArith Lia.
From S2P Require Import Prelude Json Trie External ProofRequest VcxErrors A2A VcxMonad VcxEncoding Issuance.

Open Scope string_scope.

(** ** The states of a holder *)
Record OfferReceivedState := mkOfferReceived { or_offer : CredentialOffer }.
Record RequestSentState := mkRequestSent {
  rs_req_meta : string; rs_cred_def_json : string; rs_connection_handle : Z
}.
Record FinishedHolderState := mkFinishedHolder {
  fh_cred_id : option string; fh_credential : option Credential; fh_status : Status;
  fh_rev_reg_def_json : option string
}.

Inductive HolderState :=
  | OfferReceived (s : OfferReceivedState)
  | RequestSent (s : RequestSentState)
  | Finished (s : FinishedHolderState).

Definition get_connection_handle (s : HolderState) : Z :=
  match s with
  | OfferReceived _ => 0
  | RequestSent d => rs_connection_handle d
  | Finished _ => 0
  end.

Definition request_sent (_state : OfferReceivedState) (req_meta cred_def_json : string)
    (connection_handle : Z) : RequestSentState :=
  mkRequestSent req_meta cred_def_json connection_handle.

Definition finished_stored (_state : RequestSentState) (cred_id : string) (credential : Credential)
    (rev_reg_def_json : option string) : FinishedHolderState :=
  mkFinishedHolder (Some cred_id) (Some credential) Success rev_reg_def_json.

(** From [RequestSentState] and from [OfferReceivedState], with a problem report. *)
Definition finished_problem (report : ProblemReport) : FinishedHolderState :=
  mkFinishedHolder None None (Failed report) None.

(** ** The machine *)
Record HolderSM := mkHolderSM { state : HolderState; source_id : string; thread_id : string }.

Definition new (offer : CredentialOffer) (source_id : string) : HolderSM :=
  mkHolderSM (OfferReceived (mkOfferReceived offer)) source_id (co_id offer).

Definition is_terminal_state (sm : HolderSM) : bool :=
  match state sm with Finished _ => true | _ => false end.

(** [HolderSM::state]. *)
Definition state_code (sm : HolderSM) : Z :=
  match state sm with
  | OfferReceived _ => VcxStateRequestReceived
  | RequestSent _ => VcxStateOfferSent
  | Finished d => match fh_status d with Success => VcxStateAccepted | _ => VcxStateNone end
  end.

Definition credential_status (sm : HolderSM) : Z :=
  match state sm with Finished d => status_code (fh_status d) | _ => status_code Undefined end.

(** One iteration of the loop of [find_message_to_handle]. *)
Definition relevant (s : HolderState) (thread_id : string) (message : A2AMessage) : option A2AMessage :=
  match s with
  | RequestSent _ =>
      match message with
      | MCredential credential =>
          if is_reply (cred_thread credential) thread_id then Some (MCredential credential) else None
      | CommonProblemReport report =>
          if is_reply (pr_thread report) thread_id then Some (CommonProblemReport report) else None
      | _ => None
      end
  | _ => None
  end.

Definition find_message_to_handle (sm : HolderSM) (messages : list (string * A2AMessage)) :
    option (string * A2AMessage) :=
  find_message (relevant (state sm) (thread_id sm)) messages.

Section Machine.
Context {C : Codec} {V : VcxCodec} {A : A2ACodec} {E : Env}.

Definition _parse_cred_def_from_cred_offer (cred_offer : string) : VcxResult string :=
  match json_from_str cred_offer with
  | None => VErr (from_msg VcxErrorKind.InvalidJson
                    ("Invalid Credential Offer Json: " ++ json_err_debug cred_offer))
  | Some parsed_offer =>
      ok_or (as_str (index parsed_offer "cred_def_id"))
        (from_msg VcxErrorKind.InvalidJson "Invalid Credential Offer Json: cred_def_id not found")
  end.

Definition _parse_rev_reg_id_from_credential (credential : string) : VcxResult (option string) :=
  match json_from_str credential with
  | None => VErr (from_msg VcxErrorKind.InvalidJson
                    ("Invalid Credential Json: " ++ credential ++ ", err: " ++ json_err_debug credential))
  | Some parsed_credential => VOk (as_str (index parsed_credential "rev_reg_id"))
  end.

Definition _store_credential (credential : Credential) (req_meta cred_def_json : string) :
    Vcx (string * option string) :=
  let* credential_json := lift (content (cred_attach credential)) in
  let* rev_reg_id := lift (_parse_rev_reg_id_from_credential credential_json) in
  let* rev_reg_def_json :=
    match rev_reg_id with
    | Some rev_reg_id => let* (_, json) := call (GetRevRegDefJson rev_reg_id) in ret (Some json)
    | None => ret None
    end in
  let* cred_id := call (ProverStoreCredential req_meta credential_json cred_def_json rev_reg_def_json) in
  ret (cred_id, rev_reg_def_json).

(** [credential::Credential::create_credential_request]. *)
Definition create_credential_request (cred_def_id prover_did cred_offer : string) :
    Vcx (string * string * string * string) :=
  let* (cred_def_id, cred_def_json) := call (GetCredDefJson cred_def_id) in
  attempt (call (ProverCreateCredentialReq prover_did cred_offer cred_def_json))
    (fun '(s1, s2) => ret (s1, s2, cred_def_id, cred_def_json))
    (fun err => fail (extend err "Cannot create credential request")).

Definition _make_credential_request (conn_handle : Z) (offer : CredentialOffer) :
    Vcx (CredentialRequest * string * string) :=
  let* my_did := call (GetPwDid conn_handle) in
  let* cred_offer := lift (content (co_attach offer)) in
  let* cred_def_id := lift (_parse_cred_def_from_cred_offer cred_offer) in
  let* (req, req_meta, _, cred_def_json) := create_credential_request cred_def_id my_did cred_offer in
  let* id := uuid in
  let* request := lift (set_requests_attach (request_default id) req) in
  ret (request, req_meta, cred_def_json).

(** The arm of [CredentialRequestSend] when an offer has been received. *)
Definition request (thread_id : string) (state_data : OfferReceivedState) (connection_handle : Z) :
    Vcx HolderState :=
  attempt (_make_credential_request connection_handle (or_offer state_data))
    (fun '(cred_request, req_meta, cred_def_json) =>
       let cred_request := request_set_thread_id cred_request thread_id in
       let* _ := send_message connection_handle (MCredentialRequest cred_request) in
       ret (RequestSent (request_sent state_data req_meta cred_def_json connection_handle)))
    (fun err =>
       let* report := create_report (err_to_string err) thread_id in
       let* _ := send_message connection_handle (CommonProblemReport report) in
       ret (Finished (finished_problem report))).

(** The arm of [Credential] when a request has been sent. *)
Definition store (thread_id : string) (state_data : RequestSentState) (credential : Credential) :
    Vcx HolderState :=
  attempt (_store_credential credential (rs_req_meta state_data) (rs_cred_def_json state_data))
    (fun '(cred_id, rev_reg_def_json) =>
       let* _ :=
         if cred_please_ack credential
         then let* id := uuid in
              send_message (rs_connection_handle state_data) (CredentialAck (new_ack id thread_id))
         else ret () in
       ret (Finished (finished_stored state_data cred_id credential rev_reg_def_json)))
    (fun err =>
       let* report := create_report (err_to_string err) thread_id in
       let* _ := send_message (rs_connection_handle state_data) (CommonProblemReport report) in
       ret (Finished (finished_problem report))).

(** The arms of [handle_message] on the state. *)
Definition handle_state (thread_id : string) (s : HolderState) (cim : CredentialIssuanceMessage) :
    Vcx HolderState :=
  match s with
  | OfferReceived state_data =>
      match cim with
      | CredentialRequestSend connection_handle => request thread_id state_data connection_handle
      | _ => ret (OfferReceived state_data)
      end
  | RequestSent state_data =>
      match cim with
      | EvCredential credential => store thread_id state_data credential
      | EvProblemReport report => ret (Finished (finished_problem report))
      | _ => ret (RequestSent state_data)
      end
  | Finished state_data => ret (Finished state_data)
  end.

Definition handle_message (cim : CredentialIssuanceMessage) (sm : HolderSM) : Vcx HolderSM :=
  let* s := handle_state (thread_id sm) (state sm) cim in
  ret (mkHolderSM s (source_id sm) (thread_id sm)).

Definition update_state (sm : HolderSM) : Vcx HolderSM :=
  if is_terminal_state sm then ret sm
  else
    let conn_handle := get_connection_handle (state sm) in
    let* messages := call (GetMessages conn_handle) in
    match find_message_to_handle sm messages with
    | Some (uid, msg) =>
        let* sm' := handle_message (issuance_message msg) sm in
        let* _ := call (UpdateMessageStatus conn_handle uid) in
        ret sm'
    | None => ret sm
    end.

Definition get_credential (sm : HolderSM) : VcxResult (string * Credential) :=
  match state sm with
  | Finished d =>
      match fh_cred_id d with
      | None => VErr (from_msg VcxErrorKind.InvalidState "Cannot get credential: Credential Id not found")
      | Some cred_id =>
          match fh_credential d with
          | None => VErr (from_msg VcxErrorKind.InvalidState "Cannot get credential: Credential not found")
          | Some credential => VOk (cred_id, credential)
          end
      end
  | _ => VErr (from_msg VcxErrorKind.NotReady
                 "Cannot get credential: Credential Issuance is not finished yet")
  end.

Definition delete_credential (sm : HolderSM) : Vcx unit :=
  match state sm with
  | Finished d =>
      match fh_cred_id d with
      | None => fail (from_msg VcxErrorKind.InvalidState "Cannot get credential: credential id not found")
      | Some cred_id => call (ProverDeleteCredential cred_id)
      end
  | _ => fail (from_msg VcxErrorKind.NotReady
                 "Cannot delete credential: credential issuance is not finished yet")
  end.

(** ** The object of the interface *)

(** [Holder::get_credential_offer_message]. *)
Definition get_credential_offer_message (connection_handle : Z) (msg_id : string) : Vcx CredentialOffer :=
  let* message := call (GetMessageById connection_handle msg_id) in
  match message with
  | MCredentialOffer credential_offer => ret credential_offer
  | msg => fail (from_msg VcxErrorKind.InvalidMessages
                   ("Message of different type was received: " ++ a2a_debug msg))
  end.

(** [Holder::get_credential_offer_messages]. *)
Definition get_credential_offer_messages (conn_handle : Z) : Vcx (list CredentialOffer) :=
  let* messages := call (GetMessages conn_handle) in
  ret (omap (fun um => match um.2 with MCredentialOffer offer => Some offer | _ => None end) messages).

(** [Holder::update_state]. *)
Definition update (msg : option string) (sm : HolderSM) : Vcx HolderSM :=
  match msg with
  | Some msg =>
      match a2a_from_str msg with
      | Some message => handle_message (issuance_message message) sm
      | None => fail (from_msg VcxErrorKind.InvalidOption
                        ("Cannot update state: Message deserialization failed: " ++ json_err_debug msg))
      end
  | None => update_state sm
  end.

Inductive Op := OpSendRequest (handle : Z) | OpUpdate (msg : option string).

Definition perform (op : Op) : HolderSM -> Vcx HolderSM :=
  match op with
  | OpSendRequest handle => handle_message (CredentialRequestSend handle)
  | OpUpdate msg => update msg
  end.

Definition api (op : Op) : HolderSM -> history -> VcxResult unit * HolderSM * history :=
  commit (perform op).

(** The states a holder can be in, with what was called until then. *)
Inductive reachable : HolderSM -> history -> Prop :=
  | reach_new offer source : reachable (new offer source) []
  | reach_api sm h op :
      reachable sm h -> reachable (api op sm h).1.2 (api op sm h).2.
End Machine.
