(* ===== verification/IssuanceSafety.v ===== *)
(** * What the two sides of an issuance have done

    Invariants of the state machines of [Issuance.v] over the calls they have made: in every
    state an issuer or a holder can be in, whatever the environment answered, the messages
    sent and the calls to libindy are those the state stands for. *)

From stdpp Require Import base list strings numbers gmap.
From Stdlib Require Import ZArith Lia.
From S2P Require Import Prelude Json Trie External ProofRequest VcxErrors A2A VcxMonad VcxEncoding Issuance Issuer Holder.

Open Scope string_scope.

(** A problem report in a thread, sent over a connection. *)
Definition report_in (conn : Z) (thread : string) (e : Z * A2AMessage) : Prop :=
  exists r, e = (conn, CommonProblemReport r) /\ thid (pr_thread r) = Some thread.

(** An acknowledgement or a report. *)
Definition answer_in (conn : Z) (thread : string) (e : Z * A2AMessage) : Prop :=
  report_in conn thread e \/
  exists a, e = (conn, CredentialAck a) /\ thid (ack_thread a) = Some thread.

(** Messages from the agent do not make a machine start something. *)
Definition from_agent (cim : CredentialIssuanceMessage) : Prop :=
  match cim with CredentialInit _ | CredentialSend | CredentialRequestSend _ => False | _ => True end.

Lemma issuance_message_from_agent m : from_agent (issuance_message m).
Proof. by destruct m. Qed.

(** ** The issuer *)
Section IssuerSafety.
Context {C : Codec} {V : VcxCodec} {A : A2ACodec} {H : HashOrder} {E : Env}.
Import Issuer.

(** The offer that opened the exchange: it holds libindy's offer and previews the data. *)
Definition offer_for (o : CredentialOffer) (thread offer data : string) : Prop :=
  exists o1, set_offers_attach (offer_default thread) offer = VOk o1 /\
    _append_credential_preview o1 data = VOk o.

(** An offer was sent, and problem reports after it. *)
Definition opened (conn : Z) (thread offer data : string) (l : list (Z * A2AMessage)) : Prop :=
  exists reports o, l = (reports ++ [(conn, MCredentialOffer o)])%list /\
    offer_for o thread offer data /\ Forall (report_in conn thread) reports.

(** The credential [c] holds what libindy made for the offer and the encoded data. *)
Definition issued (h : history) (c : Credential) (offer data : string) (info : RevocationInfoV1) : Prop :=
  exists request req values cred delta,
    content (cr_attach request) = VOk req /\ encode_attributes data = VOk values /\
    ev (IssuerCreateCredential offer req values (rev_reg_id info) (tails_file info))
       (VOk (cred, cred_rev_id info, delta)) ∈ h /\
    add_attachment [] IdCredential (VString cred) = VOk (cred_attach c).

Definition issuer_inv (s : IssuerState) (h : history) : Prop :=
  match s with
  | Initial _ => sent h = []
  | OfferSent d => opened (os_connection_handle d) (os_thread_id d) (os_offer d) (os_cred_data d) (sent h)
  | RequestReceived d => opened (rr_connection_handle d) (rr_thread_id d) (rr_offer d) (rr_cred_data d) (sent h)
  | CredentialSent _ => False
  | Finished d =>
      exists conn offer data,
        match f_status d with
        | Success => exists c info l,
            sent h = (conn, MCredential c) :: l /\ thid (cred_thread c) = Some (f_thread_id d) /\
            f_revocation_info_v1 d = Some info /\ issued h c offer data info /\
            opened conn (f_thread_id d) offer data l
        | Failed _ => opened conn (f_thread_id d) offer data (sent h)
        | _ => False
        end
  end.

(** An exchange stays open when a problem report is sent in it. *)
Lemma opened_report conn t offer data l id comment :
  opened conn t offer data l ->
  opened conn t offer data ((conn, CommonProblemReport (problem_report id comment t)) :: l).
Proof.
  intros (reports & o & -> & Ho & Hr). exists ((conn, CommonProblemReport (problem_report id comment t)) :: reports), o.
  repeat split; [done|]. constructor; [by eexists|done].
Qed.

Lemma append_values_id l o o' : append_values l o = VOk o' -> co_id o' = co_id o.
Proof.
  revert o. induction l as [|[k v] l IH]; intros o; cbn; [by intros [= <-]|].
  destruct (as_str v); [|done]. by intros ->%IH.
Qed.

Lemma append_preview_id o data o' : _append_credential_preview o data = VOk o' -> co_id o' = co_id o.
Proof.
  unfold _append_credential_preview. destruct (json_from_str data); [|done].
  destruct (as_object _); [apply append_values_id|done].
Qed.

(** A history with other calls in it keeps the record of an issued credential. *)
Lemma issued_mono h h' c offer data info :
  h ⊆ h' -> issued h c offer data info -> issued h' c offer data info.
Proof. intros Hh (request & req & values & cred & delta & ? & ? & Hin & ?). do 5 eexists; eauto. Qed.

Lemma send_offer_wp d conn h :
  sent h = [] ->
  wp (send_offer d conn)
    (fun r h' => match r with VOk s' => issuer_inv s' h' | _ => sent h' = [] end) h.
Proof.
  intros Hs. unfold send_offer. wp_auto; sent_simpl; try done.
  cbn [issuer_inv]. sent_simpl. rewrite Hs. eexists [], _.
  split; [done|]. split; [|constructor]. cbn.
  match goal with
  | H1 : set_offers_attach _ _ = _, H2 : _append_credential_preview _ _ = _ |- _ =>
      rewrite (append_preview_id _ _ _ H2); injection H1 as <-; eexists; split; [done|exact H2]
  end.
Qed.

Lemma create_credential_wp request rev tails offer data h :
  wp (_create_credential request rev tails offer data)
    (fun r h' => sent h' = sent h /\ h ⊆ h' /\
       match r with
       | VOk (c, crev) => issued h' c offer data (mkRevocationInfo crev rev tails)
       | _ => True
       end) h.
Proof.
  unfold _create_credential. wp_auto; sent_simpl; try (split; [done|]; split; [set_solver|done]).
  split; [done|]. split; [set_solver|].
  match goal with H1 : set_credential _ _ = VOk ?c |- _ => injection H1 as <- end.
  eexists request, _, _, _, _. cbn. split; [eassumption|]. split; [eassumption|].
  split; [|done]. rewrite !elem_of_cons. right; left. reflexivity.
Qed.

Lemma issue_wp d h :
  issuer_inv (RequestReceived d) h ->
  wp (issue d)
    (fun r h' => match r with VOk s' => issuer_inv s' h' | _ => issuer_inv (RequestReceived d) h' end) h.
Proof.
  cbn [issuer_inv]. intros Ho. unfold issue. apply wp_attempt.
  eapply wp_mono; [|apply create_credential_wp].
  intros [[c crev]|e|] h' (Hs & Hsub & Hc); [..|by rewrite Hs].
  - wp_auto; cbn [issuer_inv]; sent_simpl; rewrite ?Hs; try done.
    exists (rr_connection_handle d), (rr_offer d), (rr_cred_data d). cbn.
    exists (credential_set_thread_id c (rr_thread_id d)), (mkRevocationInfo crev (rr_rev_reg_id d) (rr_tails_file d)), (sent h).
    repeat split; try done. apply (issued_mono h'); [set_solver|exact Hc].
  - apply wp_bind, create_report_wp. intros id.
    wp_auto; cbn [issuer_inv]; sent_simpl; rewrite ?Hs; try done.
    exists (rr_connection_handle d), (rr_offer d), (rr_cred_data d). cbn. by apply opened_report.
Qed.

Lemma issuer_handle_wp s cim h :
  issuer_inv s h ->
  wp (handle_state s cim)
    (fun r h' => match r with
       | VOk s' => issuer_inv s' h' /\ (from_agent cim -> issuer_inv s h')
       | _ => issuer_inv s h'
       end) h.
Proof.
  intros Hi. destruct s as [d|d|d|d|d]; [..|done|]; cbn [handle_state].
  - destruct cim; try by wp_auto.
    eapply wp_mono; [|by apply send_offer_wp]. intros [s'| |] h' Hs'; by cbn [from_agent].
  - destruct cim; try by wp_auto.
    + apply wp_bind, create_report_wp. intros id. cbn [issuer_inv] in *.
      wp_auto; cbn [issuer_inv]; sent_simpl; try done.
      split; [|intros _; by apply opened_report].
      exists (os_connection_handle d), (os_offer d), (os_cred_data d). cbn. by apply opened_report.
    + wp_auto. split; [|done]. eexists _, _, _. exact Hi.
  - destruct cim; try by wp_auto.
    eapply wp_mono; [|by apply issue_wp]. intros [s'| |] h' Hs'; by cbn [from_agent].
  - by wp_auto.
Qed.

(** Calls that send nothing leave the invariant as it is. *)
Lemma issuer_inv_call {T} (c : Call T) r s h :
  sent_of (ev c r) = None -> issuer_inv s h -> issuer_inv s (ev c r :: h).
Proof.
  intros Hn. destruct s as [d|d|d|d|d]; cbn [issuer_inv]; rewrite ?sent_cons, ?Hn; try done.
  intros (conn & offer & data & Hd). exists conn, offer, data.
  destruct (f_status d); try done. destruct Hd as (cr & info & l & ? & ? & ? & Hiss & ?).
  exists cr, info, l. repeat split; try done. eapply issued_mono; [|exact Hiss]. set_solver.
Qed.

Lemma issuer_message_wp cim sm h :
  issuer_inv (state sm) h ->
  wp (handle_message cim sm)
    (fun r h' => match r with
       | VOk sm' => issuer_inv (state sm') h' /\ (from_agent cim -> issuer_inv (state sm) h')
       | _ => issuer_inv (state sm) h'
       end) h.
Proof.
  intros Hi. apply wp_bind. eapply wp_mono; [|by apply issuer_handle_wp].
  intros [s'| |] h' Hs'; [by apply wp_ret|done..].
Qed.

Lemma issuer_update_wp sm h :
  issuer_inv (state sm) h ->
  wp (update_state sm)
    (fun r h' => match r with VOk sm' => issuer_inv (state sm') h' | _ => issuer_inv (state sm) h' end) h.
Proof.
  intros Hi. unfold update_state. destruct (is_terminal_state sm); [done|].
  apply wp_bind, wp_call. intros [ms| |]; [|by apply issuer_inv_call..].
  destruct (find_message_to_handle sm ms) as [[uid msg]|]; [|by apply wp_ret, issuer_inv_call].
  apply wp_bind. eapply wp_mono; [|by apply issuer_message_wp, issuer_inv_call].
  intros [sm'| |] h'; [|done..]. intros [Hn Ho]. specialize (Ho (issuance_message_from_agent msg)).
  wp_auto; by apply issuer_inv_call.
Qed.

Lemma issuer_perform_wp op sm h :
  issuer_inv (state sm) h ->
  wp (perform op sm)
    (fun r h' => match r with VOk sm' => issuer_inv (state sm') h' | _ => issuer_inv (state sm) h' end) h.
Proof.
  intros Hi. assert (Hm : forall cim, wp (handle_message cim sm)
    (fun r h' => match r with VOk sm' => issuer_inv (state sm') h' | _ => issuer_inv (state sm) h' end) h).
  { intros cim. eapply wp_mono; [|by apply issuer_message_wp]. by intros [sm'| |] h' Hs'; [apply Hs'|..]. }
  destruct op as [handle|handle|[msg|]]; cbn [perform update_status]; [apply Hm..| |by apply issuer_update_wp].
  destruct (a2a_from_str msg); [apply Hm|done].
Qed.

Lemma issuer_inv_reachable sm h : reachable sm h -> issuer_inv (state sm) h.
Proof.
  induction 1 as [|sm h op _ IH]; [done|].
  by apply (wp_commit _ _ _ (fun sm h => issuer_inv (state sm) h)), issuer_perform_wp.
Qed.

(** C9: What an issuer has sent, in every state it can be in and whatever the agent, libindy
    and the ledger answer.  Nothing before the offer; then one offer, which gives the
    exchange its thread, and at most problem reports of that thread; finished with success
    means that the last message sent is one credential, in the thread, holding what libindy
    made from the offer that was sent and the encodings of the values that were previewed;
    finished with failure means no credential was sent. *)
Theorem issuer_trace sm h : reachable sm h -> issuer_inv (state sm) h.
Proof. apply issuer_inv_reachable. Qed.
End IssuerSafety.

(** ** The holder *)
Section HolderSafety.
Context {C : Codec} {V : VcxCodec} {A : A2ACodec} {E : Env}.
Import Holder.

(** The request [r] holds what libindy made for this holder and the offered definition, and
    libindy gave [meta] with it. *)
Definition requested (h : history) (r : CredentialRequest) (meta cred_def : string) : Prop :=
  exists did offer req,
    ev (ProverCreateCredentialReq did offer cred_def) (VOk (req, meta)) ∈ h /\
    add_attachment [] IdCredentialRequest (VString req) = VOk (cr_attach r).

(** A request was sent in the thread, and acknowledgements and reports after it. *)
Definition asked (h : history) (conn : Z) (thread meta cred_def : string) : Prop :=
  exists l r, sent h = (l ++ [(conn, MCredentialRequest r)])%list /\
    thid (cr_thread r) = Some thread /\ requested h r meta cred_def /\
    Forall (answer_in conn thread) l.

Definition holder_inv (thread : string) (s : HolderState) (h : history) : Prop :=
  match s with
  | OfferReceived d => co_id (or_offer d) = thread /\ sent h = []
  | RequestSent d => asked h (rs_connection_handle d) thread (rs_req_meta d) (rs_cred_def_json d)
  | Finished d =>
      match fh_status d with
      | Success => exists conn meta cred_def c id json,
          fh_credential d = Some c /\ fh_cred_id d = Some id /\
          content (cred_attach c) = VOk json /\
          ev (ProverStoreCredential meta json cred_def (fh_rev_reg_def_json d)) (VOk id) ∈ h /\
          asked h conn thread meta cred_def
      | Failed _ => fh_credential d = None /\ fh_cred_id d = None /\
          ((exists conn e, sent h = [e] /\ report_in conn thread e) \/
           (exists conn meta cred_def, asked h conn thread meta cred_def))
      | _ => False
      end
  end.

Lemma asked_more h h' conn t meta cd l :
  h ⊆ h' -> sent h' = (l ++ sent h)%list -> Forall (answer_in conn t) l ->
  asked h conn t meta cd -> asked h' conn t meta cd.
Proof.
  intros Hsub Hs Hl (l0 & r & Hs0 & Ht & (did & offer & req & Hin & Hr) & Hl0).
  exists (l ++ l0)%list, r. split; [by rewrite Hs, Hs0, app_assoc|]. split; [done|].
  split; [|by apply Forall_app]. exists did, offer, req. split; [by apply Hsub|done].
Qed.

Lemma asked_call {T} (c : Call T) x h conn t meta cd :
  sent_of (ev c x) = None -> asked h conn t meta cd -> asked (ev c x :: h) conn t meta cd.
Proof.
  intros Hn. apply (asked_more h _ _ _ _ _ []); [set_solver|by rewrite sent_cons, Hn|constructor].
Qed.

Lemma asked_report h conn t meta cd id comment :
  asked h conn t meta cd ->
  asked (ev (SendMessage conn (CommonProblemReport (problem_report id comment t))) (VOk ()) :: h) conn t meta cd.
Proof.
  eapply (asked_more h _ _ _ _ _ [_]); [set_solver|done|]. constructor; [|constructor].
  left. by eexists.
Qed.

Lemma asked_ack h conn t meta cd id :
  asked h conn t meta cd ->
  asked (ev (SendMessage conn (CredentialAck (new_ack id t))) (VOk ()) :: h) conn t meta cd.
Proof.
  eapply (asked_more h _ _ _ _ _ [_]); [set_solver|done|]. constructor; [|constructor].
  right. by eexists.
Qed.

Lemma make_request_wp conn offer h :
  wp (_make_credential_request conn offer)
    (fun r h' => sent h' = sent h /\
       match r with
       | VOk (req, meta, cred_def) => requested h' req meta cred_def
       | _ => True
       end) h.
Proof.
  unfold _make_credential_request, create_credential_request.
  wp_auto; sent_simpl; try done.
  split; [done|].
  match goal with H1 : set_requests_attach _ _ = VOk ?c |- _ => injection H1 as <- end.
  eexists _, _, _. split; [|done]. rewrite !elem_of_cons. right; left. reflexivity.
Qed.

Lemma store_credential_wp credential meta cd h :
  wp (_store_credential credential meta cd)
    (fun r h' => sent h' = sent h /\ h ⊆ h' /\
       match r with
       | VOk (id, rrd) => exists json, content (cred_attach credential) = VOk json /\
           ev (ProverStoreCredential meta json cd rrd) (VOk id) ∈ h'
       | _ => True
       end) h.
Proof.
  unfold _store_credential. wp_auto; sent_simpl; try (split; [done|]; split; [set_solver|done]).
  all: split; [done|]; split; [set_solver|]; eexists; split; [reflexivity|left].
Qed.

Lemma request_wp t d conn h :
  holder_inv t (OfferReceived d) h ->
  wp (request t d conn)
    (fun r h' => match r with VOk s' => holder_inv t s' h' | _ => holder_inv t (OfferReceived d) h' end) h.
Proof.
  cbn [holder_inv]. intros [Ht Hs]. unfold request. apply wp_attempt.
  eapply wp_mono; [|apply make_request_wp].
  intros [[[req meta] cd]|e|] h' (Hs' & Hr); rewrite Hs in Hs'; [..|done].
  - wp_auto; cbn [holder_inv]; sent_simpl; try done.
    exists [], (request_set_thread_id req t). sent_simpl. rewrite Hs'. repeat split; [|constructor].
    destruct Hr as (did & offer & q & Hin & Ha). exists did, offer, q. split; [by right|done].
  - apply wp_bind, create_report_wp. intros id. wp_auto; cbn [holder_inv]; sent_simpl; try done.
    cbn. repeat split. left. exists conn. eexists. sent_simpl. rewrite Hs'. split; [done|]. by eexists.
Qed.

Lemma store_wp t d credential h :
  holder_inv t (RequestSent d) h ->
  wp (store t d credential)
    (fun r h' => match r with
       | VOk s' => holder_inv t s' h' /\ holder_inv t (RequestSent d) h'
       | _ => holder_inv t (RequestSent d) h'
       end) h.
Proof.
  cbn [holder_inv]. intros Ha. unfold store. apply wp_attempt.
  eapply wp_mono; [|apply store_credential_wp].
  intros [[id rrd]|e|] h' (Hs & Hsub & Hc); cbv beta iota zeta.
  - assert (Ha' : asked h' (rs_connection_handle d) t (rs_req_meta d) (rs_cred_def_json d)).
    { eapply (asked_more h _ _ _ _ _ []); [done|done|constructor|done]. }
    destruct Hc as (json & Hj & Hin).
    assert (Hdone : forall h2, h' ⊆ h2 ->
      asked h2 (rs_connection_handle d) t (rs_req_meta d) (rs_cred_def_json d) ->
      holder_inv t (Finished (finished_stored d id credential rrd)) h2).
    { intros h2 Hh2 Ha2. cbn. eexists _, _, _, credential, id, json. split; [done|]. split; [done|].
      split; [done|]. split; [by apply Hh2|exact Ha2]. }
    wp_auto; try (by apply asked_call, asked_call); try (by apply asked_call);
      repeat split; try (apply Hdone; [set_solver|]); try apply asked_ack; try by apply asked_call.
    all: done.
  - assert (Ha' : asked h' (rs_connection_handle d) t (rs_req_meta d) (rs_cred_def_json d)).
    { eapply (asked_more h _ _ _ _ _ []); [done|done|constructor|done]. }
    apply wp_bind, create_report_wp. intros id.
    wp_auto; try (by apply asked_call, asked_call); split;
      [cbn; repeat split; right; eexists _, _, _|]; by apply asked_report, asked_call.
  - eapply (asked_more h _ _ _ _ _ []); [done|done|constructor|done].
Qed.

Lemma holder_handle_wp t s cim h :
  holder_inv t s h ->
  wp (handle_state t s cim)
    (fun r h' => match r with
       | VOk s' => holder_inv t s' h' /\ (from_agent cim -> holder_inv t s h')
       | _ => holder_inv t s h'
       end) h.
Proof.
  intros Hi. destruct s as [d|d|d]; cbn [handle_state].
  - destruct cim; try by wp_auto.
    eapply wp_mono; [|by apply request_wp]. intros [s'| |] h' Hs'; by cbn [from_agent].
  - destruct cim; try by wp_auto.
    + eapply wp_mono; [|by apply store_wp]. intros [s'| |] h' Hs'; [by destruct Hs'|done..].
    + wp_auto. split; [|done]. cbn. repeat split. right. by eexists _, _, _.
  - by wp_auto.
Qed.

Lemma holder_inv_call {T} (c : Call T) r t s h :
  sent_of (ev c r) = None -> holder_inv t s h -> holder_inv t s (ev c r :: h).
Proof.
  intros Hn. destruct s as [d|d|d]; cbn [holder_inv].
  - by rewrite sent_cons, Hn.
  - by apply asked_call.
  - destruct (fh_status d); try done.
    + intros (conn & meta & cd & cr & id & json & ? & ? & ? & ? & ?).
      exists conn, meta, cd, cr, id, json. repeat split; try done; [by right|by apply asked_call].
    + intros (? & ? & [Hr|(conn & meta & cd & Ha)]); repeat split; try done.
      * left. by rewrite sent_cons, Hn.
      * right. exists conn, meta, cd. by apply asked_call.
Qed.

Lemma holder_message_wp cim sm h :
  holder_inv (thread_id sm) (state sm) h ->
  wp (handle_message cim sm)
    (fun r h' => match r with
       | VOk sm' => holder_inv (thread_id sm') (state sm') h' /\
           (from_agent cim -> holder_inv (thread_id sm) (state sm) h')
       | _ => holder_inv (thread_id sm) (state sm) h'
       end) h.
Proof.
  intros Hi. apply wp_bind. eapply wp_mono; [|by apply holder_handle_wp].
  intros [s'| |] h' Hs'; [by apply wp_ret|done..].
Qed.

Lemma holder_update_wp sm h :
  holder_inv (thread_id sm) (state sm) h ->
  wp (update_state sm)
    (fun r h' => match r with
       | VOk sm' => holder_inv (thread_id sm') (state sm') h'
       | _ => holder_inv (thread_id sm) (state sm) h'
       end) h.
Proof.
  intros Hi. unfold update_state. destruct (is_terminal_state sm); [done|].
  apply wp_bind, wp_call. intros [ms| |]; [|by apply holder_inv_call..].
  destruct (find_message_to_handle sm ms) as [[uid msg]|]; [|by apply wp_ret, holder_inv_call].
  apply wp_bind. eapply wp_mono; [|by apply holder_message_wp, holder_inv_call].
  intros [sm'| |] h'; [|done..]. intros [Hn Ho]. specialize (Ho (issuance_message_from_agent msg)).
  wp_auto; by apply holder_inv_call.
Qed.

Lemma holder_perform_wp op sm h :
  holder_inv (thread_id sm) (state sm) h ->
  wp (perform op sm)
    (fun r h' => match r with
       | VOk sm' => holder_inv (thread_id sm') (state sm') h'
       | _ => holder_inv (thread_id sm) (state sm) h'
       end) h.
Proof.
  intros Hi. assert (Hm : forall cim, wp (handle_message cim sm)
    (fun r h' => match r with
       | VOk sm' => holder_inv (thread_id sm') (state sm') h'
       | _ => holder_inv (thread_id sm) (state sm) h'
       end) h).
  { intros cim. eapply wp_mono; [|by apply holder_message_wp]. by intros [sm'| |] h' Hs'; [apply Hs'|..]. }
  destruct op as [handle|[msg|]]; cbn [perform update]; [apply Hm| |by apply holder_update_wp].
  destruct (a2a_from_str msg); [apply Hm|done].
Qed.

Lemma holder_inv_reachable sm h : reachable sm h -> holder_inv (thread_id sm) (state sm) h.
Proof.
  induction 1 as [|sm h op _ IH]; [done|].
  by apply (wp_commit _ _ _ (fun sm h => holder_inv (thread_id sm) (state sm) h)), holder_perform_wp.
Qed.

(** C10: What a holder has done, in every state it can be in and whatever its environment
    answers.  Nothing is sent before a request; finished with success means that the
    credential it shows is stored in the wallet under the id it shows, with the request's
    metadata and definition, and that the request was sent in the offer's thread; finished
    with failure means it shows no credential. *)
Theorem holder_trace sm h : reachable sm h -> holder_inv (thread_id sm) (state sm) h.
Proof. apply holder_inv_reachable. Qed.
End HolderSafety.
