(* ===== verification/IssuanceRun.v ===== *)
(** * Runs of an issuance

    The two machines of [Issuance.v] at work: which messages they handle, an exchange carried
    out by an issuer and a holder over their agents, and runs that show what happens when a
    step fails half way. *)

From stdpp Require Import base list strings numbers gmap.
From Stdlib Require Import ZArith Lia.
From S2P Require Import Prelude Json Trie External ProofRequest VcxErrors A2A VcxMonad VcxEncoding Issuance Issuer Holder IssuanceSafety.

Open Scope string_scope.

(** ** Threads *)
Lemma is_reply_eq t id : is_reply t id = true <-> default "" (thid t) = id.
Proof. apply String.eqb_eq. Qed.

Lemma issuer_relevant_thread s m m' :
  Issuer.relevant s m = Some m' -> message_thread m = Some (Issuer.thread_id s).
Proof.
  destruct s; cbn; try done; destruct m; cbn; try done;
    try (destruct (cp_thread _); cbn; try done);
    destruct (is_reply _ _) eqn:Er; try done; apply is_reply_eq in Er; by rewrite Er.
Qed.

Lemma holder_relevant_thread s t m m' :
  Holder.relevant s t m = Some m' -> message_thread m = Some t.
Proof.
  destruct s; cbn; try done; destruct m; cbn; try done;
    destruct (is_reply _ _) eqn:Er; try done; apply is_reply_eq in Er; by rewrite Er.
Qed.

Lemma find_other_thread (relevant : A2AMessage -> option A2AMessage) t ms :
  (forall m m', relevant m = Some m' -> message_thread m = Some t) ->
  Forall (fun um => message_thread um.2 <> Some t) ms -> find_message relevant ms = None.
Proof.
  intros Hr Hms. apply find_message_None. eapply Forall_impl; [exact Hms|].
  intros [uid m] Hm. cbn in *. destruct (relevant m) eqn:Em; [|done]. by apply Hr in Em.
Qed.

Lemma find_delivered (relevant : A2AMessage -> option A2AMessage) t pre uid m post :
  (forall m m', relevant m = Some m' -> message_thread m = Some t) ->
  Forall (fun um => message_thread um.2 <> Some t) pre -> relevant m = Some m ->
  find_message relevant (pre ++ (uid, m) :: post)%list = Some (uid, m).
Proof.
  intros Hr Hpre Hm. induction Hpre as [|[u m0] pre Hm0 _ IH]; cbn; [by rewrite Hm|].
  destruct (relevant m0) eqn:E; [by apply Hr in E|done].
Qed.

(** ** A complete exchange *)
Section Completion.
Context {C : Codec} {V : VcxCodec} {A : A2ACodec} {H : HashOrder}.
Context (base64_inv : forall l, Forall is_byte l -> base64_decode (base64_encode l) = Some l).
Context (EI EH : Env) (agents : agent_works EI /\ agent_works EH).
Context (connI connH : Z) (cred_def_id data sourceI sourceH : string) (rev tails : option string).

(** The mailboxes: the other party's message among messages of other threads. *)
Context (before after : list (string * A2AMessage)) (uid : string).
Context (no_clash : fresh_for EI before).
Let box (m : A2AMessage) : list (string * A2AMessage) := (before ++ (uid, m) :: after)%list.

(** libindy and the ledger do their part. *)
Context (offer did cd_id cd_json req meta values cred delta id : string).
Context (offer_json cred_json : Value) (values_map : list (string * Value)).
Context (crev rev_def : option string).
Context (texts : rust_string offer /\ rust_string req /\ rust_string cred).
Context (data_json : json_from_str data = Some (Object values_map)).
Context (data_strings : Forall (fun kv => exists s, kv.2 = VString s) values_map).
Context (data_encoded : encode_attributes data = VOk values).
Context (makes_offer : forall h, @answer EI _ h (IssuerCreateCredentialOffer cred_def_id) = VOk offer).
Context (reads_offer : json_from_str offer = Some offer_json /\ index offer_json "cred_def_id" = VString cred_def_id).
Context (knows_did : forall h, @answer EH _ h (GetPwDid connH) = VOk did).
Context (finds_def : forall h, @answer EH _ h (GetCredDefJson cred_def_id) = VOk (cd_id, cd_json)).
Context (makes_request : forall h, @answer EH _ h (ProverCreateCredentialReq did offer cd_json) = VOk (req, meta)).
Context (makes_credential : forall h,
  @answer EI _ h (IssuerCreateCredential offer req values rev tails) = VOk (cred, crev, Some delta)).
Context (reads_credential : json_from_str cred = Some cred_json).
Context (finds_registry :
  match as_str (index cred_json "rev_reg_id") with
  | Some rr => exists i j, rev_def = Some j /\ forall h, @answer EH _ h (GetRevRegDefJson rr) = VOk (i, j)
  | None => rev_def = None
  end).
Context (stores : forall h, @answer EH _ h (ProverStoreCredential meta cred cd_json rev_def) = VOk id).

Lemma append_values_total l o :
  Forall (fun kv => exists s, kv.2 = VString s) l ->
  exists o', Issuer.append_values l o = VOk o' /\ co_id o' = co_id o /\ co_attach o' = co_attach o.
Proof.
  intros Hl. revert o. induction Hl as [|[k v] l [s Hs] _ IH]; intros o; cbn; [eauto|].
  cbn in Hs. rewrite Hs. cbn. apply (IH (add_credential_preview_data o k s)).
Qed.

Let i0 : Issuer.IssuerSM := Issuer.new cred_def_id data rev tails sourceI.

Lemma offer_made o :
  exists o', Issuer._append_credential_preview o data = VOk o' /\ co_id o' = co_id o /\ co_attach o' = co_attach o.
Proof. unfold Issuer._append_credential_preview. rewrite data_json. cbn. by apply append_values_total. Qed.

Lemma offer_step h :
  exists o i1 h',
    Issuer.api (E := EI) (Issuer.OpSendOffer connI) i0 h = (VOk (), i1, h') /\
    sent h' = (connI, MCredentialOffer o) :: sent h /\
    content (co_attach o) = VOk offer /\ (exists h0, co_id o = @answer EI _ h0 Uuid) /\
    i1 = Issuer.mkIssuerSM (Issuer.OfferSent
           (Issuer.mkOfferSent offer data rev tails connI (co_id o))) sourceI.
Proof.
  destruct agents as [[Hs _] _]. destruct texts as [Ht _].
  destruct (commit_ok (Issuer.perform (E := EI) (Issuer.OpSendOffer connI)) i0 h
    (fun i1 h' => exists o, sent h' = (connI, MCredentialOffer o) :: sent h /\
       content (co_attach o) = VOk offer /\ (exists h0, co_id o = @answer EI _ h0 Uuid) /\
       i1 = Issuer.mkIssuerSM (Issuer.OfferSent
         (Issuer.mkOfferSent offer data rev tails connI (co_id o))) sourceI))
    as (i1 & h' & Hc & o & Ho); [|exists o, i1, h'; by split].
  unfold i0, Issuer.new, Issuer.perform, Issuer.handle_message.
  cbn [Issuer.state Issuer.source_id Issuer.handle_state].
  unfold Issuer.send_offer. cbn [Issuer.i_cred_def_id Issuer.i_credential_json]. wp_run.
  match goal with |- context [Issuer._append_credential_preview ?o _] =>
    destruct (offer_made o) as (o' & Ho & Hid & Hat) end.
  cbn in Hid, Hat. wp_run. exists o'. repeat split; [|eauto].
  rewrite Hat. by apply (content_of_string base64_inv IdCredentialOffer).
Qed.

Lemma request_step o h :
  content (co_attach o) = VOk offer ->
  exists q h',
    Holder.api (E := EH) (Holder.OpSendRequest connH) (Holder.new o sourceH) h =
      (VOk (), Holder.mkHolderSM (Holder.RequestSent (Holder.mkRequestSent meta cd_json connH)) sourceH (co_id o), h') /\
    sent h' = (connH, MCredentialRequest q) :: sent h /\
    content (cr_attach q) = VOk req /\ thid (cr_thread q) = Some (co_id o).
Proof.
  intros Ho. destruct agents as [_ [Hs _]]. destruct texts as (_ & Ht & _), reads_offer as [Hoj Hcd].
  assert (Hp : Holder._parse_cred_def_from_cred_offer offer = VOk cred_def_id).
  { unfold Holder._parse_cred_def_from_cred_offer. rewrite Hoj, Hcd. done. }
  destruct (commit_ok (Holder.perform (E := EH) (Holder.OpSendRequest connH)) (Holder.new o sourceH) h
    (fun p1 h' => p1 = Holder.mkHolderSM (Holder.RequestSent (Holder.mkRequestSent meta cd_json connH)) sourceH (co_id o) /\
       exists q, sent h' = (connH, MCredentialRequest q) :: sent h /\
       content (cr_attach q) = VOk req /\ thid (cr_thread q) = Some (co_id o)))
    as (p1 & h' & Hc & -> & q & Hq); [|by exists q, h'].
  unfold Holder.new, Holder.perform, Holder.handle_message.
  cbn [Holder.state Holder.source_id Holder.thread_id Holder.handle_state].
  unfold Holder.request, Holder._make_credential_request, Holder.create_credential_request.
  cbn [Holder.or_offer]. wp_run. split; [done|]. eexists. split; [done|]. split; [|done].
  by apply (content_of_string base64_inv IdCredentialRequest).
Qed.

Lemma receive_step t q h :
  Forall (fun um => message_thread um.2 <> Some t) before -> thid (cr_thread q) = Some t ->
  exists h',
    Issuer.api (E := with_mailbox EI (box (MCredentialRequest q))) (Issuer.OpUpdate None)
      (Issuer.mkIssuerSM (Issuer.OfferSent (Issuer.mkOfferSent offer data rev tails connI t)) sourceI) h =
      (VOk (), Issuer.mkIssuerSM (Issuer.RequestReceived
         (Issuer.mkRequestReceived offer data rev tails connI q t)) sourceI, h') /\
    sent h' = sent h.
Proof.
  intros Hb Hq. destruct agents as [[_ Hu] _].
  set (sm := Issuer.mkIssuerSM (Issuer.OfferSent _) _).
  assert (Hf : Issuer.find_message_to_handle sm (box (MCredentialRequest q)) = Some (uid, MCredentialRequest q)).
  { apply (find_delivered _ t); [|done|].
    - intros m m' Hm. by apply (issuer_relevant_thread (Issuer.state sm)) in Hm.
    - cbn. unfold is_reply. rewrite Hq. cbn. by rewrite String.eqb_refl. }
  destruct (commit_ok (Issuer.perform (E := with_mailbox EI (box (MCredentialRequest q))) (Issuer.OpUpdate None)) sm h
    (fun i2 h' => i2 = Issuer.mkIssuerSM (Issuer.RequestReceived
         (Issuer.mkRequestReceived offer data rev tails connI q t)) sourceI /\ sent h' = sent h))
    as (i2 & h' & Hc & -> & Hs); [|by exists h'].
  cbn [Issuer.perform Issuer.update_status]. unfold Issuer.update_state.
  cbn [Issuer.is_terminal_state Issuer.state Issuer.get_connection_handle sm].
  apply wp_bind. eapply wp_call_known; [reflexivity|]. cbv beta iota. fold sm. rewrite Hf.
  unfold Issuer.handle_message. cbn [issuance_message Issuer.state Issuer.source_id Issuer.handle_state sm].
  wp_run. done.
Qed.

Lemma issue_step t q h :
  content (cr_attach q) = VOk req ->
  exists c h' i3,
    Issuer.api (E := EI) (Issuer.OpSendCredential connI)
      (Issuer.mkIssuerSM (Issuer.RequestReceived
         (Issuer.mkRequestReceived offer data rev tails connI q t)) sourceI) h =
      (VOk (), i3, h') /\
    sent h' = (connI, MCredential c) :: sent h /\
    content (cred_attach c) = VOk cred /\ thid (cred_thread c) = Some t /\
    cred_please_ack c = false /\
    Issuer.credential_status i3 = status_code Success /\ Issuer.state_code i3 = VcxStateAccepted.
Proof.
  intros Hq. destruct agents as [[Hs _] _], texts as (_ & _ & Ht).
  set (sm := Issuer.mkIssuerSM (Issuer.RequestReceived _) _).
  destruct (commit_ok (Issuer.perform (E := EI) (Issuer.OpSendCredential connI)) sm h
    (fun i3 h' => exists c, sent h' = (connI, MCredential c) :: sent h /\
       content (cred_attach c) = VOk cred /\ thid (cred_thread c) = Some t /\ cred_please_ack c = false /\
       Issuer.credential_status i3 = status_code Success /\ Issuer.state_code i3 = VcxStateAccepted))
    as (i3 & h' & Hc & c & Hcr); [|by exists c, h', i3].
  cbn [Issuer.perform]. unfold Issuer.handle_message. cbn [Issuer.state Issuer.source_id Issuer.handle_state sm].
  unfold Issuer.issue, Issuer._create_credential.
  cbn [Issuer.rr_request Issuer.rr_rev_reg_id Issuer.rr_tails_file Issuer.rr_offer Issuer.rr_cred_data
       Issuer.rr_thread_id Issuer.rr_connection_handle].
  wp_run. eexists. split; [done|]. repeat split.
  by apply (content_of_string base64_inv IdCredential).
Qed.

Lemma rev_def_found h c :
  content (cred_attach c) = VOk cred ->
  wp (Holder._store_credential (E := with_mailbox EH (box (MCredential c))) c meta cd_json)
    (fun r h' => r = VOk (id, rev_def) /\ sent h' = sent h) h.
Proof.
  intros Hc. unfold Holder._store_credential.
  assert (Hp : Holder._parse_rev_reg_id_from_credential cred = VOk (as_str (index cred_json "rev_reg_id"))).
  { unfold Holder._parse_rev_reg_id_from_credential. by rewrite reads_credential. }
  apply wp_bind. eapply wp_lift_known; [exact Hc|]. cbv beta iota.
  apply wp_bind. eapply wp_lift_known; [exact Hp|]. cbv beta iota.
  destruct (as_str (index cred_json "rev_reg_id")) as [rr|].
  - destruct finds_registry as (i & j & -> & Hr). wp_run. done.
  - rewrite finds_registry in *. wp_run. done.
Qed.

Lemma store_step t c h :
  Forall (fun um => message_thread um.2 <> Some t) before -> thid (cred_thread c) = Some t ->
  cred_please_ack c = false -> content (cred_attach c) = VOk cred ->
  exists h' p2,
    Holder.api (E := with_mailbox EH (box (MCredential c))) (Holder.OpUpdate None)
      (Holder.mkHolderSM (Holder.RequestSent (Holder.mkRequestSent meta cd_json connH)) sourceH t) h =
      (VOk (), p2, h') /\
    Holder.get_credential p2 = VOk (id, c) /\
    Holder.credential_status p2 = status_code Success /\ Holder.state_code p2 = VcxStateAccepted.
Proof.
  intros Hb Ht Hack Hc. destruct agents as [_ [_ Hu]].
  set (sm := Holder.mkHolderSM (Holder.RequestSent _) _ _).
  assert (Hf : Holder.find_message_to_handle sm (box (MCredential c)) = Some (uid, MCredential c)).
  { apply (find_delivered _ t); [|done|].
    - intros m m' Hm. by apply (holder_relevant_thread (Holder.state sm)) in Hm.
    - cbn. unfold is_reply. rewrite Ht. cbn. by rewrite String.eqb_refl. }
  destruct (commit_ok (Holder.perform (E := with_mailbox EH (box (MCredential c))) (Holder.OpUpdate None)) sm h
    (fun p2 h' => Holder.get_credential p2 = VOk (id, c) /\
       Holder.credential_status p2 = status_code Success /\ Holder.state_code p2 = VcxStateAccepted))
    as (p2 & h' & Hr & Hp); [|by exists h', p2].
  cbn [Holder.perform Holder.update]. unfold Holder.update_state.
  cbn [Holder.is_terminal_state Holder.state Holder.get_connection_handle sm].
  apply wp_bind. eapply wp_call_known; [reflexivity|]. cbv beta iota. fold sm. rewrite Hf.
  unfold Holder.handle_message.
  cbn [issuance_message Holder.state Holder.source_id Holder.thread_id Holder.handle_state sm].
  unfold Holder.store. cbn [Holder.rs_req_meta Holder.rs_cred_def_json Holder.rs_connection_handle].
  apply wp_bind, wp_bind, wp_attempt. eapply wp_mono; [|by apply rev_def_found].
  intros r h' [-> _]. cbv beta iota zeta. rewrite Hack. wp_run. done.
Qed.

(** C11: An exchange completes.  When agents deliver what is sent and libindy and the ledger
    answer, an issuer that offers, receives the request and sends the credential, and a
    holder that requests and receives, both end with success, whatever messages of other
    threads are in the mailboxes; the holder then has, under the id the wallet gave it, the
    credential libindy made for the issuer from the offered values and the holder's request. *)
Theorem issuance_completes hI hH :
  exists o q c i1 i2 i3 p1 p2 hI1 hI2 hI3 hH1 hH2,
    Issuer.api (E := EI) (Issuer.OpSendOffer connI) i0 hI = (VOk (), i1, hI1) /\
    sent hI1 = (connI, MCredentialOffer o) :: sent hI /\
    Holder.api (E := EH) (Holder.OpSendRequest connH) (Holder.new o sourceH) hH = (VOk (), p1, hH1) /\
    sent hH1 = (connH, MCredentialRequest q) :: sent hH /\
    Issuer.api (E := with_mailbox EI (box (MCredentialRequest q))) (Issuer.OpUpdate None) i1 hI1 =
      (VOk (), i2, hI2) /\
    Issuer.api (E := EI) (Issuer.OpSendCredential connI) i2 hI2 = (VOk (), i3, hI3) /\
    sent hI3 = (connI, MCredential c) :: sent hI1 /\
    Holder.api (E := with_mailbox EH (box (MCredential c))) (Holder.OpUpdate None) p1 hH1 =
      (VOk (), p2, hH2) /\
    Issuer.credential_status i3 = status_code Success /\
    Holder.credential_status p2 = status_code Success /\
    Holder.get_credential p2 = VOk (id, c) /\ content (cred_attach c) = VOk cred.
Proof.
  destruct (offer_step hI) as (o & i1 & hI1 & H1 & Hs1 & Ho & [h0 Hid] & ->).
  destruct (request_step o hH Ho) as (q & hH1 & H2 & Hs2 & Hq & Hqt).
  assert (Hb : Forall (fun um => message_thread um.2 <> Some (co_id o)) before) by (rewrite Hid; apply no_clash).
  destruct (receive_step (co_id o) q hI1 Hb Hqt) as (hI2 & H3 & Hs3).
  destruct (issue_step (co_id o) q hI2 Hq) as (c & hI3 & i3 & H4 & Hs4 & Hc & Hct & Hack & Hst & _).
  destruct (store_step (co_id o) c hH1 Hb Hct Hack Hc) as (hH2 & p2 & H5 & Hg & Hst2 & _).
  rewrite Hs3 in Hs4. do 13 eexists. repeat (split; [eassumption|]). eassumption.
Qed.
End Completion.

(** ** Concrete runs *)
Module Demo.

Definition json_of (s : string) : option Value :=
  if String.eqb s "data" then Some (Object [("name", VString "alice")])
  else if String.eqb s "old data" then Some (Object [("name", Array [VString "alice"])])
  else if String.eqb s "offer" then Some (Object [("cred_def_id", VString "def")])
  else if String.eqb s "cred" then Some (Object [("rev_reg_id", VString "registry")])
  else if String.eqb s "proof" then
    Some (Object [("identifiers", Array []); ("requested_proof", Object [("revealed_attrs",
      Object [("a", Object [("encoded", VString "7"); ("raw", VString "7")])])])])
  else None.

Definition codec : Codec := {|
  base64_encode := string_of_bytes;
  base64_decode s := Some (as_bytes s);
  from_base58 s := Some (as_bytes s);
  to_base58 := string_of_bytes;
  json_from_str := json_of;
  json_to_string _ := "{}";
  rmp_to_vec _ := None;
  rmp_to_vec_named _ := None;
  hex_encode := string_of_bytes;
  openssl_hash l := Ok l;
  rlp_items _ := None;
  rlp_encode _ := [];
  sha3_256 l := l
|}.

Definition vcx_codec : VcxCodec := {|
  json_err_debug s := s;
  json_err_display s := s;
  value_debug _ := "value";
  json_to_string_pretty _ := "values";
  sha256 l := l;
  bignum_dec l := Some (string_of_bytes l);
  bignum_err := ""
|}.

Definition order : HashOrder := {| iter V m := map_to_list m |}.

(** The other party's credential, as the holder's user may pass it in. *)
Definition stranger : Credential :=
  mkCredential "c" None [JSON (mkAttachmentJson IdCredential (Base64 "cred"))]
    (set_thid thread_default "another thread") false.

Definition a2a_codec : A2ACodec := {|
  a2a_from_str s := if String.eqb s "stranger" then Some (MCredential stranger) else None;
  preview_from_str _ := None;
  a2a_debug _ := "message"
|}.

(** Everything works; [status] answers the updates of message statuses. *)
Definition env_with (mailbox : list (string * A2AMessage)) (status : history -> VcxResult unit) : Env := {|
  answer T h c :=
    match c in Call T return T with
    | Uuid => "thread"
    | SendMessage _ _ => VOk ()
    | SendMessageToSelfEndpoint _ _ => VOk ()
    | GetMessages _ => VOk mailbox
    | GetMessageById _ _ => VOk (Generic Null)
    | UpdateMessageStatus _ _ => status h
    | GetPwDid _ => VOk "did"
    | GetTheirPwVerkey _ => VOk "key"
    | GetCredDefId _ => VOk "def"
    | GetRevRegId _ => VOk None
    | GetTailsFile _ => VOk None
    | GetConfigValue _ => VOk "value"
    | IsStrictAriesProtocolSet => true
    | IssuerCreateCredentialOffer _ => VOk "offer"
    | IssuerCreateCredential _ _ _ _ _ => VOk ("cred", None, Some "delta")
    | RevokeCredential _ _ _ => VOk ()
    | ProverCreateCredentialReq _ _ _ => VOk ("req", "meta")
    | ProverStoreCredential _ _ _ _ => VOk "id"
    | ProverDeleteCredential _ => VOk ()
    | ProverGetCredentialsForProofReq _ => VOk "{}"
    | VerifierVerifyProof _ _ _ _ _ _ => VOk true
    | GetCredDefJson _ => VOk ("def", "definition")
    | GetSchemaJson _ => VOk ("schema", "schema")
    | GetRevRegDefJson _ => VOk ("registry", "registry def")
    | GetRevReg _ _ => VOk ("registry", "registry", 0%Z)
    | ToUnqualified s => VOk s
    | GenerateNonce => VOk "1"
    | GenerateIndyProof _ _ _ => VOk "proof"
    | GetTime => 0%Z
    | UtcNow => "now"
    | CreateAndStoreMyDid _ => VOk ("did", "key")
    | CryptoSign _ _ => VOk []
    | CryptoVerify _ _ _ => VOk true
    | PackMessage _ _ msg => VOk msg
    | UnpackMessage msg => VOk msg
    | CreateAgentKeys _ _ => VOk ("agent did", "agent key")
    | PostMessage _ _ => VOk []
    | GetConnectionMessages _ _ _ _ _ _ => VOk []
    | UpdateMessagesReviewed _ _ => VOk ()
    | DeleteConnection _ _ _ _ => VOk ()
    end
|}.

Definition env : Env := env_with [] (fun _ => VOk ()).

Lemma base64_id l : Forall is_byte l -> @base64_decode codec (@base64_encode codec l) = Some l.
Proof. intros Hl. cbn. by rewrite as_bytes_of_bytes. Qed.

Definition noise : list (string * A2AMessage) := [("u0", Generic Null)].

(** The credentials stored so far. *)
Definition stored_of (e : event) : option string :=
  match e with
  | existT _ (c, r) =>
      match c in Call T return T -> option string with
      | ProverStoreCredential _ _ _ _ => fun r => match r with VOk id => Some id | _ => None end
      | _ => fun _ => None
      end r
  end.

Definition is_update (e : event) : bool :=
  match e with
  | existT _ (c, _) => match c with UpdateMessageStatus _ _ => true | _ => false end
  end.

(** The agent's first status update fails. *)
Definition flaky : Env :=
  env_with [("u1", MCredential (credential_set_thread_id stranger "thread"))]
    (fun h => if existsb is_update h then VOk () else VErr (vcx_error VcxErrorKind.PostMessageFailed)).

Definition offer : CredentialOffer :=
  mkCredentialOffer "thread" None [] [JSON (mkAttachmentJson IdCredentialOffer (Base64 "offer"))] None.
End Demo.

Lemma issuance_completes_witness :
  exists o q c i1 i2 i3 p1 p2 hI1 hI2 hI3 hH1 hH2,
    Issuer.api (C := Demo.codec) (V := Demo.vcx_codec) (A := Demo.a2a_codec) (H := Demo.order) (E := Demo.env)
      (Issuer.OpSendOffer 1) (Issuer.new "def" "data" None None "i") [] = (VOk (), i1, hI1) /\
    sent hI1 = [(1%Z, MCredentialOffer o)] /\
    Holder.api (C := Demo.codec) (V := Demo.vcx_codec) (A := Demo.a2a_codec) (E := Demo.env)
      (Holder.OpSendRequest 2) (Holder.new o "h") [] = (VOk (), p1, hH1) /\
    sent hH1 = [(2%Z, MCredentialRequest q)] /\
    Issuer.api (C := Demo.codec) (V := Demo.vcx_codec) (A := Demo.a2a_codec) (H := Demo.order)
      (E := with_mailbox Demo.env (Demo.noise ++ [("u1", MCredentialRequest q)])%list)
      (Issuer.OpUpdate None) i1 hI1 = (VOk (), i2, hI2) /\
    Issuer.api (C := Demo.codec) (V := Demo.vcx_codec) (A := Demo.a2a_codec) (H := Demo.order) (E := Demo.env)
      (Issuer.OpSendCredential 1) i2 hI2 = (VOk (), i3, hI3) /\
    sent hI3 = (1%Z, MCredential c) :: sent hI1 /\
    Holder.api (C := Demo.codec) (V := Demo.vcx_codec) (A := Demo.a2a_codec)
      (E := with_mailbox Demo.env (Demo.noise ++ [("u1", MCredential c)])%list)
      (Holder.OpUpdate None) p1 hH1 = (VOk (), p2, hH2) /\
    Issuer.credential_status i3 = status_code Success /\
    Holder.credential_status p2 = status_code Success /\
    Holder.get_credential p2 = VOk ("id", c) /\
    content (C := Demo.codec) (cred_attach c) = VOk "cred".
Proof.
  apply (issuance_completes (C := Demo.codec) (V := Demo.vcx_codec) (A := Demo.a2a_codec) (H := Demo.order)
    Demo.base64_id Demo.env Demo.env ltac:(by split; split) 1 2 "def" "data" "i" "h" None None
    Demo.noise [] "u1" ltac:(intros h; repeat constructor; done)
    "offer" "did" "def" "definition" "req" "meta" "values" "cred" "delta" "id"
    (Object [("cred_def_id", VString "def")]) (Object [("rev_reg_id", VString "registry")])
    [("name", VString "alice")] None (Some "registry def")
    ltac:(by repeat split) eq_refl ltac:(repeat constructor; by eexists) ltac:(by vm_compute)
    ltac:(done) ltac:(done) ltac:(done) ltac:(done) ltac:(done) ltac:(done) eq_refl
    ltac:(by do 2 eexists) ltac:(done) [] []).
Defined.

(** A failed status update makes the holder store the credential a second time: it was
    stored, but the machine is still waiting for it. *)
Theorem credential_stored_twice :
  exists sm h,
    Holder.reachable (C := Demo.codec) (V := Demo.vcx_codec) (A := Demo.a2a_codec) (E := Demo.flaky) sm h /\
    Holder.credential_status sm = status_code Success /\ omap Demo.stored_of h = ["id"; "id"].
Proof.
  eexists _, _. split.
  - eapply (Holder.reach_api _ _ (Holder.OpUpdate None)), (Holder.reach_api _ _ (Holder.OpUpdate None)),
      (Holder.reach_api _ _ (Holder.OpSendRequest 1)), (Holder.reach_new Demo.offer "h").
  - by vm_compute.
Qed.

(** A message handed to the machine by its user is not checked to be of the exchange's
    thread, as messages from the agent are. *)
Theorem handed_message_of_another_thread :
  exists sm h,
    Holder.reachable (C := Demo.codec) (V := Demo.vcx_codec) (A := Demo.a2a_codec) (E := Demo.env) sm h /\
    Holder.get_credential sm = VOk ("id", Demo.stranger) /\
    message_thread (MCredential Demo.stranger) <> Some (Holder.thread_id sm).
Proof.
  eexists _, _. split.
  - eapply (Holder.reach_api _ _ (Holder.OpUpdate (Some "stranger"))),
      (Holder.reach_api _ _ (Holder.OpSendRequest 1)), (Holder.reach_new Demo.offer "h").
  - split; [by vm_compute|by vm_compute].
Qed.

(** Values in the old form can be encoded but not offered. *)
Theorem old_values_cannot_be_offered :
  encode_attributes (C := Demo.codec) (V := Demo.vcx_codec) (H := Demo.order) "old data" = VOk "values" /\
  (Issuer.api (C := Demo.codec) (V := Demo.vcx_codec) (A := Demo.a2a_codec) (H := Demo.order) (E := Demo.env)
     (Issuer.OpSendOffer 1) (Issuer.new "def" "old data" None None "i") []).1.1 =
  VErr (from_msg VcxErrorKind.InvalidJson "Invalid Credential Preview Json").
Proof. split; by vm_compute. Qed.

(** The state of a sent credential waiting for its acknowledgement is never reached. *)
Theorem credential_sent_not_reached {C : Codec} {V : VcxCodec} {A : A2ACodec} {H : HashOrder} {E : Env} sm h d :
  Issuer.reachable sm h -> Issuer.state sm <> Issuer.CredentialSent d.
Proof.
  intros Hr Hs. apply issuer_inv_reachable in Hr. by rewrite Hs in Hr.
Qed.

(** ** Witnesses of the traces *)
Lemma issuer_trace_witness :
  let E := Demo.env_with [("u1", MCredentialRequest (mkCredentialRequest "r" None
             [JSON (mkAttachmentJson IdCredentialRequest (Base64 "req"))] (set_thid thread_default "thread")))]
             (fun _ => VOk ()) in
  exists sm h,
    Issuer.reachable (C := Demo.codec) (V := Demo.vcx_codec) (A := Demo.a2a_codec) (H := Demo.order) (E := E) sm h /\
    Issuer.credential_status sm = status_code Success /\
    issuer_inv (C := Demo.codec) (V := Demo.vcx_codec) (H := Demo.order) (Issuer.state sm) h.
Proof.
  eexists _, _. split; [|split; [|eapply (issuer_trace (A := Demo.a2a_codec))]].
  1, 3: eapply (Issuer.reach_api _ _ (Issuer.OpSendCredential 1)), (Issuer.reach_api _ _ (Issuer.OpUpdate None)),
      (Issuer.reach_api _ _ (Issuer.OpSendOffer 1)), (Issuer.reach_new "def" "data" None None "i").
  by vm_compute.
Defined.

Lemma holder_trace_witness :
  exists sm h,
    Holder.reachable (C := Demo.codec) (V := Demo.vcx_codec) (A := Demo.a2a_codec) (E := Demo.flaky) sm h /\
    Holder.credential_status sm = status_code Success /\
    holder_inv (C := Demo.codec) (V := Demo.vcx_codec) (Holder.thread_id sm) (Holder.state sm) h.
Proof.
  eexists _, _. split; [|split; [|eapply (holder_trace (A := Demo.a2a_codec))]].
  1, 3: eapply (Holder.reach_api _ _ (Holder.OpUpdate None)), (Holder.reach_api _ _ (Holder.OpUpdate None)),
      (Holder.reach_api _ _ (Holder.OpSendRequest 1)), (Holder.reach_new Demo.offer "h").
  by vm_compute.
Defined.
