(* ===== verification/PresentProof.v ===== *)
(** * Proof presentation: requests and checks

    The data of a request ([messages/proofs/proof_request.rs], [utils/qualifier.rs]) and what
    the verifier checks of a presentation before and besides libindy ([proof.rs],
    [messages/proofs/proof_message.rs]).  The machines are in [Prover.v] and
    [VcxVerifier.v].  [serde]'s derived conversions of requests and messages are parameters
    ([PresentCodec]). *)

From stdpp Require Import base list strings numbers gmap.
From Stdlib Require Import ZArith Lia.
From S2P Require Import Prelude Json Trie External ProofRequest VcxErrors A2A VcxMonad VcxEncoding Issuance.

Open Scope string_scope.

(** ** Requests *)
Record VcxAttrInfo := mkVcxAttrInfo {
  va_name : option string; va_names : option (list string); va_restrictions : option Value;
  va_non_revoked : option (option Z * option Z); va_self_attest_allowed : option bool
}.
Record VcxPredicateInfo := mkVcxPredicateInfo {
  vp_name : string; vp_p_type : string; vp_p_value : Z; vp_restrictions : option Value;
  vp_non_revoked : option (option Z * option Z)
}.
Inductive RequestVersion := RV1 | RV2.
Record ProofRequestData := mkProofRequestData {
  prd_nonce : string; prd_name : string; prd_data_version : string;
  prd_attributes : gmap string VcxAttrInfo; prd_predicates : gmap string VcxPredicateInfo;
  prd_non_revoked : option (option Z * option Z); prd_ver : option RequestVersion
}.

Class PresentCodec := {
  request_to_value : ProofRequestData -> Value;
  request_to_string : ProofRequestData -> string;
  request_from_str : string -> option ProofRequestData;
  attrs_from_str : string -> option (list VcxAttrInfo);
  predicates_from_str : string -> option (list VcxPredicateInfo);
  interval_from_str : string -> option (option Z * option Z);
  presentation_request_json : PresentationRequest -> string;
  proof_request_message_json : ProofRequestData -> string -> option Service -> string;
  presentation_json : Presentation -> string;
  proof_message_json : string -> string;
  str_debug : string -> string
}.

Definition request_default_data : ProofRequestData := mkProofRequestData "" "" "1.0" ∅ ∅ None None.

(** The names [attribute_0], [attribute_1], .. *)
Definition enumerate {A} (prefix : string) (l : list A) : gmap string A :=
  list_to_map (imap (fun i a => (prefix ++ u64_to_string (Z.of_nat i), a)) l).

(** [utils/qualifier.rs]: the expression is not anchored and its last part may be empty. *)
Definition lower_alnum (a : Ascii.ascii) : bool :=
  let b := byte_of_ascii a in in_range 97 122 b || in_range 48 57 b.

Definition colon : Ascii.ascii := Eval cbv in Ascii.ascii_of_nat 58.

Fixpoint method_then_colon (seen : bool) (s : string) : bool :=
  match s with
  | EmptyString => false
  | String a s' =>
      if Ascii.eqb a colon then seen
      else if lower_alnum a then method_then_colon true s' else false
  end.

Fixpoint is_fully_qualified (s : string) : bool :=
  (match s with
   | String a1 (String a2 (String a3 (String a4 rest))) =>
       (String.eqb (String a1 (String a2 (String a3 (String a4 EmptyString)))) "did:") &&
       method_then_colon false rest
   | _ => false
   end) ||
  match s with EmptyString => false | String _ s' => is_fully_qualified s' end.

Section RequestData.
Context {C : Codec} {V : VcxCodec} {P : PresentCodec} {E : Env}.

Definition set_requested_attributes (d : ProofRequestData) (requested_attrs : string) : VcxResult ProofRequestData :=
  match attrs_from_str requested_attrs with
  | Some l => VOk (mkProofRequestData (prd_nonce d) (prd_name d) (prd_data_version d)
                     (enumerate "attribute_" l) (prd_predicates d) (prd_non_revoked d) (prd_ver d))
  | None => VErr (from_msg VcxErrorKind.InvalidJson
                    ("Invalid Requested Attributes: " ++ str_debug requested_attrs ++ ", err: " ++
                     json_err_debug requested_attrs))
  end.

Definition set_requested_predicates (d : ProofRequestData) (requested_predicates : string) :
    VcxResult ProofRequestData :=
  match predicates_from_str requested_predicates with
  | Some l => VOk (mkProofRequestData (prd_nonce d) (prd_name d) (prd_data_version d)
                     (prd_attributes d) (enumerate "predicate_" l) (prd_non_revoked d) (prd_ver d))
  | None => VErr (from_msg VcxErrorKind.InvalidJson
                    ("Invalid Requested Attributes: " ++ str_debug requested_predicates ++ ", err: " ++
                     json_err_debug requested_predicates))
  end.

Definition set_not_revoked_interval (d : ProofRequestData) (interval : string) : VcxResult ProofRequestData :=
  match interval_from_str interval with
  | Some (from, to) =>
      VOk (mkProofRequestData (prd_nonce d) (prd_name d) (prd_data_version d) (prd_attributes d)
             (prd_predicates d)
             (match from, to with None, None => None | _, _ => Some (from, to) end) (prd_ver d))
  | None => VErr (from_msg VcxErrorKind.InvalidJson ("Invalid Revocation Interval: " ++ str_debug interval))
  end.

Definition set_ver (d : ProofRequestData) (v : RequestVersion) : ProofRequestData :=
  mkProofRequestData (prd_nonce d) (prd_name d) (prd_data_version d) (prd_attributes d)
    (prd_predicates d) (prd_non_revoked d) (Some v).

Definition set_nonce (d : ProofRequestData) : Vcx ProofRequestData :=
  let* nonce := call GenerateNonce in
  ret (mkProofRequestData nonce (prd_name d) (prd_data_version d) (prd_attributes d)
         (prd_predicates d) (prd_non_revoked d) (prd_ver d)).

Definition set_format_version_for_did (d : ProofRequestData) (my_did remote_did : string) : Vcx ProofRequestData :=
  if is_fully_qualified my_did && is_fully_qualified remote_did then ret (set_ver d RV2)
  else
    let* proof_request_json := call (ToUnqualified (request_to_string d)) in
    match request_from_str proof_request_json with
    | Some d' => ret (set_ver d' RV1)
    | None => fail (from_msg VcxErrorKind.InvalidJson
                      ("Cannot deserialize ProofRequestData: " ++ json_err_debug proof_request_json))
    end.
End RequestData.

(** ** What the verifier checks ([proof.rs]) *)
Record CredInfo := mkCredInfo {
  ci_schema_id : string; ci_cred_def_id : string; ci_rev_reg_id : option string; ci_timestamp : option Z
}.

Section Checks.
Context {C : Codec} {V : VcxCodec} {E : Env}.

Fixpoint cred_infos (identifiers : list Value) : VcxResult (list CredInfo) :=
  match identifiers with
  | [] => VOk []
  | identifier :: l =>
      match as_str (index identifier "schema_id"), as_str (index identifier "cred_def_id") with
      | Some schema_id, Some cred_def_id =>
          match cred_infos l with
          | VOk rtn => VOk (mkCredInfo schema_id cred_def_id (as_str (index identifier "rev_reg_id"))
                              (as_u64 (index identifier "timestamp")) :: rtn)
          | r => r
          end
      | _, _ => VErr (from_msg VcxErrorKind.InvalidProofCredentialData "Cannot get identifiers")
      end
  end.

Definition get_credential_info (proof : string) : VcxResult (list CredInfo) :=
  match json_from_str proof with
  | None => VErr (from_msg VcxErrorKind.InvalidJson ("Cannot deserialize libndy proof: " ++ json_err_display proof))
  | Some credentials =>
      match index credentials "identifiers" with
      | Array identifiers => cred_infos identifiers
      | _ => VOk []
      end
  end.

(** The [for] loops of the [build_*_json] functions.  [key] is what the loop takes of a
    credential before it looks for its id in the object, [entry] fetches the new entry. *)
Fixpoint build_loop {K} (key : CredInfo -> VcxResult (string * K)) (entry : string -> K -> Vcx (string * Value))
    (l : list CredInfo) (json : list (string * Value)) : Vcx (list (string * Value)) :=
  match l with
  | [] => ret json
  | cred_info :: l' =>
      let* (id, k) := lift (key cred_info) in
      match map_get id json with
      | Some _ => build_loop key entry l' json
      | None => let* (id', v) := entry id k in build_loop key entry l' (map_insert id' v json)
      end
  end.

(** [serde_json::from_str(text)], with the error given for a text that is no JSON. *)
Definition parse_or {A} (text : string) (err : VcxError) (k : Value -> Vcx A) : Vcx A :=
  match json_from_str text with Some v => k v | None => fail err end.

Definition build_credential_defs_json (credential_data : list CredInfo) : Vcx string :=
  let* json := build_loop
    (fun cred_info => VOk (ci_cred_def_id cred_info, ()))
    (fun cred_def_id _ =>
       let* (id, credential_def) := call (GetCredDefJson cred_def_id) in
       parse_or credential_def
         (from_msg VcxErrorKind.InvalidProofCredentialData
            ("Cannot deserialize credential definition: " ++ json_err_display credential_def))
         (fun v => ret (id, v)))
    credential_data [] in
  ret (json_to_string (Object json)).

Definition build_schemas_json (credential_data : list CredInfo) : Vcx string :=
  let* json := build_loop
    (fun cred_info => VOk (ci_schema_id cred_info, ()))
    (fun schema_id _ =>
       let* (id, schema_json) :=
         attempt (call (GetSchemaJson schema_id)) ret
           (fun err => fail (map_err err VcxErrorKind.InvalidSchema "Cannot get schema")) in
       parse_or schema_json
         (from_msg VcxErrorKind.InvalidSchema ("Cannot deserialize schema: " ++ json_err_display schema_json))
         (fun v => ret (id, v)))
    credential_data [] in
  ret (json_to_string (Object json)).

Definition rev_reg_key (cred_info : CredInfo) : VcxResult string :=
  ok_or (ci_rev_reg_id cred_info) (vcx_error VcxErrorKind.InvalidRevocationDetails).

Definition build_rev_reg_defs_json (credential_data : list CredInfo) : Vcx string :=
  let* json := build_loop
    (fun cred_info =>
       match rev_reg_key cred_info with VOk id => VOk (id, ()) | VErr e => VErr e | VPanic => VPanic end)
    (fun rev_reg_id _ =>
       let* (id, json) :=
         attempt (call (GetRevRegDefJson rev_reg_id)) ret
           (fun _ => fail (vcx_error VcxErrorKind.InvalidRevocationDetails)) in
       parse_or json (vcx_error VcxErrorKind.InvalidSchema) (fun v => ret (id, v)))
    credential_data [] in
  ret (json_to_string (Object json)).

(** The timestamp is required of every credential, also of one whose registry is there. *)
Definition build_rev_reg_json (credential_data : list CredInfo) : Vcx string :=
  let* json := build_loop
    (fun cred_info =>
       match rev_reg_key cred_info with
       | VOk id =>
           match ci_timestamp cred_info with
           | Some timestamp => VOk (id, timestamp)
           | None => VErr (vcx_error VcxErrorKind.InvalidRevocationTimestamp)
           end
       | VErr e => VErr e
       | VPanic => VPanic
       end)
    (fun rev_reg_id timestamp =>
       let* (id, json, timestamp) :=
         attempt (call (GetRevReg rev_reg_id timestamp)) ret
           (fun _ => fail (vcx_error VcxErrorKind.InvalidRevocationDetails)) in
       parse_or json (vcx_error VcxErrorKind.InvalidJson)
         (fun v => ret (id, Object [(u64_to_string timestamp, v)])))
    credential_data [] in
  ret (json_to_string (Object json)).

(** [.unwrap_or(json!({}).to_string())]. *)
Definition or_empty (m : Vcx string) : Vcx string :=
  attempt m ret (fun _ => ret (json_to_string (Object []))).

Definition validate_indy_proof (proof_json proof_req_json : string) : Vcx bool :=
  let* _ := lift (validate_proof_revealed_attributes proof_json) in
  let* credential_data := lift (get_credential_info proof_json) in
  let* credential_defs_json := or_empty (build_credential_defs_json credential_data) in
  let* schemas_json := or_empty (build_schemas_json credential_data) in
  let* rev_reg_defs_json := or_empty (build_rev_reg_defs_json credential_data) in
  let* rev_regs_json := or_empty (build_rev_reg_json credential_data) in
  call (VerifierVerifyProof proof_req_json proof_json schemas_json credential_defs_json
          rev_reg_defs_json rev_regs_json).
End Checks.
