(* ===== verification/Prover.v ===== *)
(** * The prover of a presentation

    [libvcx/src/v3/handlers/proof_presentation/prover/]: the states ([states.rs]), the events
    ([messages.rs]) and the object of the interface ([prover.rs]).  Unlike the objects of an
    issuance, this one keeps the new state of a handled message even if the message cannot be
    marked as read ([Obj]). *)

From stdpp Require Import base list strings numbers gmap.
From Stdlib Require Import ZArith Lia.
From S2P Require Import Prelude Json Trie External ProofRequest VcxErrors A2A VcxMonad VcxEncoding Issuance PresentProof.

Open Scope string_scope.

(** [ProverMessages]. *)
Inductive ProverMessages :=
  | PresentationRequestReceived (d : ProofRequestData)
  | RejectPresentationRequest (handle : Z) (reason : string)
  | SetPresentation (p : Presentation)
  | PreparePresentation (credentials self_attested_attrs : string)
  | SendPresentation (handle : Z)
  | PresentationAckReceived (a : Ack)
  | PresentationRejectReceived (r : ProblemReport)
  | ProposePresentation (handle : Z) (preview : PresentationPreview)
  | Unknown.

Definition prover_message (msg : A2AMessage) : ProverMessages :=
  match msg with
  | MAck ack | PresentationAck ack => PresentationAckReceived ack
  | CommonProblemReport report => PresentationRejectReceived report
  | _ => Unknown
  end.

Record PresentationSentState := mkPresentationSent {
  ps_connection_handle : Z; ps_request : PresentationRequest; ps_presentation : Presentation
}.
Record FinishedState := mkFinished {
  f_connection_handle : Z; f_request : PresentationRequest; f_presentation : Presentation; f_status : Status
}.

Inductive ProverState :=
  | Initiated (request : PresentationRequest)
  | PresentationPrepared (request : PresentationRequest) (presentation : Presentation)
  | PresentationPreparationFailed (request : PresentationRequest) (report : ProblemReport)
  | PresentationSent (s : PresentationSentState)
  | Finished (s : FinishedState).

Record ProverSM := mkProverSM { source_id : string; thread_id : string; state : ProverState }.

Definition new (presentation_request : PresentationRequest) (source_id : string) : ProverSM :=
  mkProverSM source_id (pq_id presentation_request) (Initiated presentation_request).

(** One iteration of the loop of [find_message_to_handle]. *)
Definition relevant (s : ProverState) (thread_id : string) (message : A2AMessage) : option A2AMessage :=
  match s with
  | PresentationSent _ =>
      match message with
      | MAck ack | PresentationAck ack =>
          if is_reply (ack_thread ack) thread_id then Some (PresentationAck ack) else None
      | CommonProblemReport report =>
          if is_reply (pr_thread report) thread_id then Some (CommonProblemReport report) else None
      | _ => None
      end
  | _ => None
  end.

Definition find_message_to_handle (sm : ProverSM) (messages : list (string * A2AMessage)) :
    option (string * A2AMessage) :=
  find_message (relevant (state sm) (thread_id sm)) messages.

(** [ProverSM::state]. *)
Definition state_code (sm : ProverSM) : Z :=
  match state sm with
  | Initiated _ => VcxStateRequestReceived
  | PresentationPrepared _ _ => VcxStateRequestReceived
  | PresentationPreparationFailed _ _ => VcxStateRequestReceived
  | PresentationSent _ => VcxStateOfferSent
  | Finished d => match f_status d with Success => VcxStateAccepted | _ => VcxStateNone end
  end.

Definition has_transitions (sm : ProverSM) : bool :=
  match state sm with
  | Initiated _ => false
  | PresentationPrepared _ _ => true
  | PresentationPreparationFailed _ _ => true
  | PresentationSent _ => true
  | Finished _ => false
  end.

Definition presentation_status (sm : ProverSM) : Z :=
  match state sm with Finished d => status_code (f_status d) | _ => status_code Undefined end.

Definition connection_handle (sm : ProverSM) : VcxResult Z :=
  match state sm with
  | PresentationSent d => VOk (ps_connection_handle d)
  | Finished d => VOk (f_connection_handle d)
  | _ => VErr (from_msg VcxErrorKind.NotReady "Connection handle isn't set")
  end.

Definition presentation_request (sm : ProverSM) : PresentationRequest :=
  match state sm with
  | Initiated request => request
  | PresentationPrepared request _ => request
  | PresentationPreparationFailed request _ => request
  | PresentationSent d => ps_request d
  | Finished d => f_request d
  end.

Definition presentation (sm : ProverSM) : VcxResult Presentation :=
  match state sm with
  | PresentationPrepared _ p => VOk p
  | PresentationSent d => VOk (ps_presentation d)
  | Finished d => VOk (f_presentation d)
  | _ => VErr (from_msg VcxErrorKind.NotReady "Presentation is not created yet")
  end.

Section Machine.
Context {C : Codec} {V : VcxCodec} {A : A2ACodec} {P : PresentCodec} {E : Env}.

(** [InitialState::build_presentation]. *)
Definition build_presentation (request : PresentationRequest) (credentials self_attested_attrs : string) : Vcx string :=
  let* data := lift (content (pq_attach request)) in
  call (GenerateIndyProof credentials self_attested_attrs data).

(** A message to the verifier: over the connection, or to the endpoint of the request. *)
Definition send_reply (request : PresentationRequest) (connection_handle : Z) (m : A2AMessage) : Vcx unit :=
  match pq_service request with
  | None => send_message connection_handle m
  | Some service => call (SendMessageToSelfEndpoint m service)
  end.

Definition _handle_reject_presentation_request (connection_handle : Z) (reason : string)
    (request : PresentationRequest) (thread_id : string) : Vcx unit :=
  let* report := create_report reason thread_id in
  send_reply request connection_handle (CommonProblemReport report).

Definition _handle_presentation_proposal (connection_handle : Z) (preview : PresentationPreview)
    (request : PresentationRequest) (thread_id : string) : Vcx unit :=
  let* id := uuid in
  send_reply request connection_handle (MPresentationProposal (new_proposal id preview thread_id)).

(** From [InitialState] and from [PresentationPreparedState]: declined, with a new empty
    presentation. *)
Definition finished_declined (request : PresentationRequest) : Vcx ProverState :=
  let* id := uuid in
  ret (Finished (mkFinished 0 request (presentation_default id) Declined)).

(** From a failed preparation. *)
Definition finished_failed (request : PresentationRequest) (report : ProblemReport) (connection_handle : Z) :
    Vcx ProverState :=
  let* id := uuid in
  ret (Finished (mkFinished connection_handle request (presentation_default id) (Failed report))).

Definition finished_acked (d : PresentationSentState) : ProverState :=
  Finished (mkFinished (ps_connection_handle d) (ps_request d) (ps_presentation d) Success).

Definition finished_rejected (d : PresentationSentState) (report : ProblemReport) : ProverState :=
  Finished (mkFinished (ps_connection_handle d) (ps_request d) (ps_presentation d) (Failed report)).

(** The arm of [PreparePresentation]. *)
Definition prepare (thread_id : string) (request : PresentationRequest) (credentials self_attested_attrs : string) :
    Vcx ProverState :=
  attempt (build_presentation request credentials self_attested_attrs)
    (fun presentation =>
       let* id := uuid in
       let* presentation :=
         lift (set_presentations_attach
                 (presentation_set_thread_id (ask_for_ack (presentation_default id)) thread_id) presentation) in
       ret (PresentationPrepared request presentation))
    (fun err =>
       let* report := create_report (err_to_string err) thread_id in
       ret (PresentationPreparationFailed request report)).

(** [ProverSM::step], on the state. *)
Definition step_state (thread_id : string) (s : ProverState) (message : ProverMessages) : Vcx ProverState :=
  match s with
  | Initiated request =>
      match message with
      | SetPresentation presentation =>
          ret (PresentationPrepared request (presentation_set_thread_id presentation thread_id))
      | PreparePresentation credentials self_attested_attrs =>
          prepare thread_id request credentials self_attested_attrs
      | RejectPresentationRequest connection_handle reason =>
          let* _ := _handle_reject_presentation_request connection_handle reason request thread_id in
          finished_declined request
      | ProposePresentation connection_handle preview =>
          let* _ := _handle_presentation_proposal connection_handle preview request thread_id in
          finished_declined request
      | _ => ret (Initiated request)
      end
  | PresentationPrepared request presentation =>
      match message with
      | SendPresentation connection_handle =>
          match pq_service request with
          | None =>
              let* _ := send_message connection_handle (MPresentation presentation) in
              ret (PresentationSent (mkPresentationSent connection_handle request presentation))
          | Some service =>
              let* _ := call (SendMessageToSelfEndpoint (MPresentation presentation) service) in
              finished_declined request
          end
      | RejectPresentationRequest connection_handle reason =>
          let* _ := _handle_reject_presentation_request connection_handle reason request thread_id in
          finished_declined request
      | ProposePresentation connection_handle preview =>
          let* _ := _handle_presentation_proposal connection_handle preview request thread_id in
          finished_declined request
      | _ => ret (PresentationPrepared request presentation)
      end
  | PresentationPreparationFailed request report =>
      match message with
      | SendPresentation connection_handle =>
          let* _ := send_reply request connection_handle (CommonProblemReport report) in
          finished_failed request report connection_handle
      | _ => ret (PresentationPreparationFailed request report)
      end
  | PresentationSent d =>
      match message with
      | PresentationAckReceived _ => ret (finished_acked d)
      | PresentationRejectReceived report => ret (finished_rejected d report)
      | RejectPresentationRequest _ _ =>
          fail (from_msg VcxErrorKind.ActionNotSupported "Presentation is already sent")
      | _ => ret (PresentationSent d)
      end
  | Finished d => ret (Finished d)
  end.

Definition step (message : ProverMessages) (sm : ProverSM) : Vcx ProverSM :=
  let* s := step_state (thread_id sm) (state sm) message in
  ret (mkProverSM (source_id sm) (thread_id sm) s).

(** ** The object of the interface *)
Definition handle_message (message : ProverMessages) : Obj ProverSM unit := commit (step message).

Definition update_state_with_message (message : string) : Obj ProverSM unit :=
  match a2a_from_str message with
  | Some a2a_message => handle_message (prover_message a2a_message)
  | None => reading (fun _ => fail (from_msg VcxErrorKind.InvalidOption
      ("Cannot updated state with message: Message deserialization failed: " ++ json_err_debug message)))
  end.

Definition update_state (message : option string) : Obj ProverSM unit := fun sm =>
  if has_transitions sm then
    match message with
    | Some message_ => update_state_with_message message_ sm
    | None =>
        (do* handle := reading (fun sm => lift (connection_handle sm)) in
         do* messages := reading (fun _ => call (GetMessages handle)) in
         do* found := reading (fun sm => ret (find_message_to_handle sm messages)) in
         match found with
         | Some (uid, message) =>
             do* _ := handle_message (prover_message message) in
             reading (fun _ => call (UpdateMessageStatus handle uid))
         | None => obj_ret ()
         end) sm
    end
  else obj_ret () sm.

Definition decline_presentation_request (connection_handle : Z) (reason proposal : option string) :
    Obj ProverSM unit :=
  match reason, proposal with
  | Some reason, None => commit (step (RejectPresentationRequest connection_handle reason))
  | None, Some proposal =>
      match preview_from_str proposal with
      | Some preview => commit (step (ProposePresentation connection_handle preview))
      | None => reading (fun _ => fail (from_msg VcxErrorKind.InvalidJson
          ("Cannot serialize Presentation Preview: " ++ json_err_debug proposal)))
      end
  | None, None => reading (fun _ => fail (from_msg VcxErrorKind.InvalidOption
      "Either `reason` or `proposal` parameter must be specified."))
  | Some _, Some _ => reading (fun _ => fail (from_msg VcxErrorKind.InvalidOption
      "Only one of `reason` or `proposal` parameters must be specified."))
  end.

Definition retrieve_credentials (sm : ProverSM) : Vcx string :=
  let* data := lift (content (pq_attach (presentation_request sm))) in
  call (ProverGetCredentialsForProofReq data).

(** [Presentation] to [ProofMessage] unwraps the content of the attachment. *)
Definition generate_presentation_msg (sm : ProverSM) : Vcx string :=
  let* proof := lift (presentation sm) in
  let* strict := ask IsStrictAriesProtocolSet in
  if strict then ret (presentation_json proof)
  else match content (pn_attach proof) with
       | VOk libindy_proof => ret (proof_message_json libindy_proof)
       | _ => lift VPanic
       end.

Definition get_presentation_request (handle : Z) (msg_id : string) : Vcx PresentationRequest :=
  let* message := call (GetMessageById handle msg_id) in
  match message with
  | MPresentationRequest presentation_request => ret presentation_request
  | msg => fail (from_msg VcxErrorKind.InvalidMessages
                   ("Message of different type was received: " ++ a2a_debug msg))
  end.

Definition get_presentation_request_messages (handle : Z) : Vcx (list PresentationRequest) :=
  let* messages := call (GetMessages handle) in
  ret (omap (fun um => match um.2 with MPresentationRequest request => Some request | _ => None end) messages).

Inductive Op :=
  | OpGenerate (credentials self_attested_attrs : string)
  | OpSet (p : Presentation)
  | OpSend (handle : Z)
  | OpUpdate (msg : option string)
  | OpDecline (handle : Z) (reason proposal : option string).

Definition api (op : Op) : Obj ProverSM unit :=
  match op with
  | OpGenerate credentials self_attested_attrs => commit (step (PreparePresentation credentials self_attested_attrs))
  | OpSet p => commit (step (SetPresentation p))
  | OpSend handle => commit (step (SendPresentation handle))
  | OpUpdate msg => update_state msg
  | OpDecline handle reason proposal => decline_presentation_request handle reason proposal
  end.

Inductive reachable : ProverSM -> history -> Prop :=
  | reach_new request source : reachable (new request source) []
  | reach_api sm h op : reachable sm h -> reachable (api op sm h).1.2 (api op sm h).2.
End Machine.
