(* ===== verification/VcxVerifier.v ===== *)
(** * The verifier of a presentation

    [libvcx/src/v3/handlers/proof_presentation/verifier/]: the states ([states.rs]), the
    events ([messages.rs]) and the object of the interface ([verifier.rs]), as in
    [Prover.v]. *)

From stdpp Require Import base list strings numbers gmap.
From Stdlib Require Import ZArith Lia.
From S2P Require Import Prelude Json Trie External ProofRequest VcxErrors A2A VcxMonad VcxEncoding Issuance PresentProof.

Open Scope string_scope.

(** [VerifierMessages]. *)
Inductive VerifierMessages :=
  | SendPresentationRequest (handle : Z)
  | VerifyPresentation (p : Presentation)
  | PresentationProposalReceived (p : PresentationProposal)
  | PresentationRejectReceived (r : ProblemReport)
  | Unknown.

Definition verifier_message (msg : A2AMessage) : VerifierMessages :=
  match msg with
  | MPresentation presentation => VerifyPresentation presentation
  | MPresentationProposal proposal => PresentationProposalReceived proposal
  | CommonProblemReport report => PresentationRejectReceived report
  | _ => Unknown
  end.

Inductive RevocationStatus := Revoked | NonRevoked.

Record RequestSentState := mkRequestSent { rs_connection_handle : Z; rs_request : PresentationRequest }.
Record FinishedState := mkFinished {
  f_connection_handle : Z; f_request : PresentationRequest; f_presentation : option Presentation;
  f_status : Status; f_revocation_status : option RevocationStatus
}.

Inductive VerifierState :=
  | Initiated (d : ProofRequestData)
  | PresentationRequestSent (s : RequestSentState)
  | Finished (s : FinishedState).

Record VerifierSM := mkVerifierSM { source_id : string; state : VerifierState }.

Definition new (presentation_request : ProofRequestData) (source_id : string) : VerifierSM :=
  mkVerifierSM source_id (Initiated presentation_request).

(** The conversions to [FinishedState]. *)
Definition finished_presented (d : RequestSentState) (presentation : Presentation) (was_revoked : RevocationStatus) :
    VerifierState :=
  Finished (mkFinished (rs_connection_handle d) (rs_request d) (Some presentation) Success (Some was_revoked)).

Definition finished_problem (d : RequestSentState) (report : ProblemReport) : VerifierState :=
  Finished (mkFinished (rs_connection_handle d) (rs_request d) None (Failed report) None).

(** One iteration of the loop of [find_message_to_handle]; the thread is the request's id. *)
Definition relevant (s : VerifierState) (message : A2AMessage) : option A2AMessage :=
  match s with
  | PresentationRequestSent d =>
      match message with
      | MPresentation presentation =>
          if is_reply (pn_thread presentation) (pq_id (rs_request d)) then Some (MPresentation presentation) else None
      | MPresentationProposal proposal =>
          if is_reply (po_thread proposal) (pq_id (rs_request d)) then Some (MPresentationProposal proposal) else None
      | CommonProblemReport report =>
          if is_reply (pr_thread report) (pq_id (rs_request d)) then Some (CommonProblemReport report) else None
      | _ => None
      end
  | _ => None
  end.

Definition find_message_to_handle (sm : VerifierSM) (messages : list (string * A2AMessage)) :
    option (string * A2AMessage) :=
  find_message (relevant (state sm)) messages.

(** [VerifierSM::state]. *)
Definition state_code (sm : VerifierSM) : Z :=
  match state sm with
  | Initiated _ => VcxStateInitialized
  | PresentationRequestSent _ => VcxStateOfferSent
  | Finished d => match f_status d with Success => VcxStateAccepted | _ => VcxStateNone end
  end.

Definition has_transitions (sm : VerifierSM) : bool :=
  match state sm with
  | Initiated _ => false
  | PresentationRequestSent _ => true
  | Finished _ => false
  end.

(** The status of a finished exchange takes the revocation status into account. *)
Definition presentation_status (sm : VerifierSM) : Z :=
  match state sm with
  | Finished d =>
      match f_status d with
      | Success =>
          match f_revocation_status d with
          | Some NonRevoked => status_code Success
          | None => status_code Success
          | Some Revoked => 2 (* the code of [Status::Failed] *)
          end
      | s => status_code s
      end
  | _ => status_code Undefined
  end.

Definition connection_handle (sm : VerifierSM) : VcxResult Z :=
  match state sm with
  | Initiated _ => VErr (from_msg VcxErrorKind.NotReady "Connection handle isn't set")
  | PresentationRequestSent d => VOk (rs_connection_handle d)
  | Finished d => VOk (f_connection_handle d)
  end.

Definition presentation_request_data (sm : VerifierSM) : VcxResult ProofRequestData :=
  match state sm with
  | Initiated d => VOk d
  | _ => VErr (vcx_error VcxErrorKind.InvalidProofHandle)
  end.

Definition presentation (sm : VerifierSM) : VcxResult Presentation :=
  match state sm with
  | Finished d => ok_or (f_presentation d) (vcx_error VcxErrorKind.InvalidProofHandle)
  | _ => VErr (from_msg VcxErrorKind.NotReady "Presentation is not received yet")
  end.

Section Machine.
Context {C : Codec} {V : VcxCodec} {A : A2ACodec} {P : PresentCodec} {E : Env}.

(** [PresentationRequestSentState::verify_presentation]. *)
Definition verify_presentation (d : RequestSentState) (presentation : Presentation) : Vcx unit :=
  let* proof := lift (content (pn_attach presentation)) in
  let* request := lift (content (pq_attach (rs_request d))) in
  let* valid := validate_indy_proof proof request in
  if negb valid then fail (from_msg VcxErrorKind.InvalidProof "Presentation verification failed")
  else if pn_please_ack presentation then
    let* id := uuid in
    send_message (rs_connection_handle d) (PresentationAck (new_ack id (pq_id (rs_request d))))
  else ret ().

(** The arm of [SendPresentationRequest]. *)
Definition send_request (data : ProofRequestData) (handle : Z) : Vcx VerifierState :=
  let* my_did := call (GetPwDid handle) in
  let* remote_did := call (GetTheirPwVerkey handle) in
  let* request_data := set_format_version_for_did data my_did remote_did in
  let* institution := call (GetConfigValue "institution_name") in
  let title := institution ++ " wants you to share " ++ prd_name request_data in
  let* id := uuid in
  let* request := lift (set_request_presentations_attach (mkPresentationRequest id (Some title) [] None)
                          (request_to_value request_data)) in
  let* _ := send_message handle (MPresentationRequest request) in
  ret (PresentationRequestSent (mkRequestSent handle request)).

(** The arm of [VerifyPresentation]. *)
Definition verify (d : RequestSentState) (presentation : Presentation) : Vcx VerifierState :=
  attempt (verify_presentation d presentation)
    (fun _ => ret (finished_presented d presentation NonRevoked))
    (fun err =>
       let* report := create_report (err_to_string err) (pq_id (rs_request d)) in
       let* _ := send_message (rs_connection_handle d) (CommonProblemReport report) in
       match kind err with
       | VcxErrorKind.InvalidProof => ret (finished_presented d presentation Revoked)
       | _ => ret (finished_problem d report)
       end).

(** [VerifierSM::step], on the state. *)
Definition step_state (s : VerifierState) (message : VerifierMessages) : Vcx VerifierState :=
  match s with
  | Initiated data =>
      match message with
      | SendPresentationRequest handle => send_request data handle
      | _ => ret (Initiated data)
      end
  | PresentationRequestSent d =>
      match message with
      | VerifyPresentation presentation => verify d presentation
      | PresentationRejectReceived report => ret (finished_problem d report)
      | PresentationProposalReceived _ =>
          let* report := create_report "PresentationProposal is not supported" (pq_id (rs_request d)) in
          let* _ := send_message (rs_connection_handle d) (CommonProblemReport report) in
          ret (finished_problem d report)
      | _ => ret (PresentationRequestSent d)
      end
  | Finished d => ret (Finished d)
  end.

Definition step (message : VerifierMessages) (sm : VerifierSM) : Vcx VerifierSM :=
  let* s := step_state (state sm) message in ret (mkVerifierSM (source_id sm) s).

(** ** The object of the interface *)
Definition create (source_id requested_attrs requested_predicates revocation_details name : string) :
    Vcx VerifierSM :=
  let data := mkProofRequestData "" name "1.0" ∅ ∅ None None in
  let* data := lift (set_requested_attributes data requested_attrs) in
  let* data := lift (set_requested_predicates data requested_predicates) in
  let* data := lift (set_not_revoked_interval data revocation_details) in
  let* data := set_nonce data in
  ret (new data source_id).

Definition handle_message (message : VerifierMessages) : Obj VerifierSM unit := commit (step message).

Definition update_state_with_message (message : string) : Obj VerifierSM unit :=
  match a2a_from_str message with
  | Some a2a_message => handle_message (verifier_message a2a_message)
  | None => reading (fun _ => fail (from_msg VcxErrorKind.InvalidOption
      ("Cannot update state with message: Message deserialization failed: " ++ json_err_debug message)))
  end.

Definition update_state (message : option string) : Obj VerifierSM unit := fun sm =>
  if has_transitions sm then
    match message with
    | Some message_ => update_state_with_message message_ sm
    | None =>
        (do* handle := reading (fun sm => lift (connection_handle sm)) in
         do* messages := reading (fun _ => call (GetMessages handle)) in
         do* found := reading (fun sm => ret (find_message_to_handle sm messages)) in
         match found with
         | Some (uid, message) =>
             do* _ := handle_message (verifier_message message) in
             reading (fun _ => call (UpdateMessageStatus handle uid))
         | None => obj_ret ()
         end) sm
    end
  else obj_ret () sm.

(** [VerifierSM::presentation_request]: a new request while none was sent. *)
Definition presentation_request (sm : VerifierSM) : Vcx PresentationRequest :=
  match state sm with
  | Initiated data =>
      let* id := uuid in
      lift (set_request_presentations_attach (mkPresentationRequest id None [] None) (request_to_value data))
  | PresentationRequestSent d => ret (rs_request d)
  | Finished d => ret (f_request d)
  end.

Definition generate_presentation_request_msg (sm : VerifierSM) : Vcx string :=
  let* proof_request := presentation_request sm in
  let* strict := ask IsStrictAriesProtocolSet in
  if strict then ret (presentation_request_json proof_request)
  else
    let* text := lift (content (pq_attach proof_request)) in
    match request_from_str text with
    | Some data =>
        ret (proof_request_message_json
               (mkProofRequestData (prd_nonce data) (prd_name data) "0.1" (prd_attributes data)
                  (prd_predicates data) (prd_non_revoked data) (prd_ver data))
               (pq_id proof_request) (pq_service proof_request))
    | None => fail (from_msg VcxErrorKind.InvalidJson (json_err_display text))
    end.

Definition get_presentation (sm : VerifierSM) : Vcx string :=
  let* proof := lift (presentation sm) in
  let* strict := ask IsStrictAriesProtocolSet in
  if strict then ret (presentation_json proof)
  else match content (pn_attach proof) with
       | VOk libindy_proof => ret (proof_message_json libindy_proof)
       | _ => lift VPanic
       end.

Inductive Op := OpSendRequest (handle : Z) | OpVerify (p : Presentation) | OpUpdate (msg : option string).

Definition api (op : Op) : Obj VerifierSM unit :=
  match op with
  | OpSendRequest handle => commit (step (SendPresentationRequest handle))
  | OpVerify p => commit (step (VerifyPresentation p))
  | OpUpdate msg => update_state msg
  end.

Inductive reachable : VerifierSM -> history -> Prop :=
  | reach_new data source : reachable (new data source) []
  | reach_api sm h op : reachable sm h -> reachable (api op sm h).1.2 (api op sm h).2.
End Machine.
