(* ===== verification/PresentSafety.v ===== *)
(** * What the two sides of a presentation have done

    Invariants of the state machines of [Prover.v] and [VcxVerifier.v] over the calls they have made, for
    every sequence of calls of the interface and every behaviour of agent, libindy and
    ledger.  A verifier that reports success has had the presentation accepted by libindy
    against the request it sent, after checking the encodings of the revealed texts; a prover
    sends the verifier one message at most. *)

From stdpp Require Import base list strings numbers gmap.
From Stdlib Require Import ZArith Lia.
From S2P Require Import Prelude Json Trie External ProofRequest VcxErrors A2A VcxMonad VcxEncoding Issuance PresentProof Prover VcxVerifier.

Open Scope string_scope.

(** ** The verifier *)
Section VerifierSafety.
Context {C : Codec} {V : VcxCodec} {A : A2ACodec} {P : PresentCodec} {E : Env}.
Import VcxVerifier.

(** libindy accepted the presentation for the request, and the texts it reveals have the
    encodings it shows. *)
Definition verified (h : history) (q : PresentationRequest) (p : Presentation) : Prop :=
  exists proof request schemas cred_defs rev_reg_defs rev_regs,
    content (pn_attach p) = VOk proof /\ content (pq_attach q) = VOk request /\
    validate_proof_revealed_attributes proof = VOk () /\
    ev (VerifierVerifyProof request proof schemas cred_defs rev_reg_defs rev_regs) (VOk true) ∈ h.

(** The acknowledgement a presentation asked for. *)
Definition acked (conn : Z) (thread : string) (p : Presentation) (l : list (Z * A2AMessage)) : Prop :=
  if pn_please_ack p
  then exists a, l = [(conn, PresentationAck a)] /\ thid (ack_thread a) = Some thread
  else l = [].

Definition verifier_inv (s : VerifierState) (h : history) : Prop :=
  match s with
  | Initiated _ => sent h = []
  | PresentationRequestSent d => sent h = [(rs_connection_handle d, MPresentationRequest (rs_request d))]
  | Finished d =>
      exists l, sent h = (l ++ [(f_connection_handle d, MPresentationRequest (f_request d))])%list /\
      let reported := exists r, l = [(f_connection_handle d, CommonProblemReport r)] /\
                        thid (pr_thread r) = Some (pq_id (f_request d)) in
      match f_status d, f_revocation_status d, f_presentation d with
      | Success, Some NonRevoked, Some p =>
          verified h (f_request d) p /\ acked (f_connection_handle d) (pq_id (f_request d)) p l
      | Success, Some Revoked, Some _ => reported
      | Failed r, None, None => reported \/ l = []
      | _, _, _ => False
      end
  end.

Definition quiet {T} (m : Vcx T) : Prop := forall h, wp m (fun _ h' => sent h' = sent h /\ h ⊆ h') h.

Lemma vcx_quiet_bind {T U} (m : Vcx T) (k : T -> Vcx U) : quiet m -> (forall a, quiet (k a)) -> quiet (vbind m k).
Proof.
  intros Hm Hk h. apply wp_bind. eapply wp_mono; [|apply Hm].
  intros [a|e|] h' [Hs Hsub]; [|done..]. eapply wp_mono; [|apply Hk].
  intros r h'' [Hs' Hsub']. split; [by rewrite Hs'|set_solver].
Qed.

Lemma quiet_attempt {T U} (m : Vcx T) (ok : T -> Vcx U) (err : VcxError -> Vcx U) :
  quiet m -> (forall a, quiet (ok a)) -> (forall e, quiet (err e)) -> quiet (attempt m ok err).
Proof.
  intros Hm Hk He h. apply wp_attempt. eapply wp_mono; [|apply Hm].
  intros [a|e|] h' [Hs Hsub]; [..|done];
    [eapply wp_mono; [|apply Hk]|eapply wp_mono; [|apply He]];
    intros r h'' [Hs' Hsub']; (split; [by rewrite Hs'|set_solver]).
Qed.

Lemma vcx_quiet_lift {T} (r : VcxResult T) : quiet (lift r).
Proof. intros h. by apply wp_lift. Qed.

Lemma vcx_quiet_ret {T} (a : T) : quiet (ret a).
Proof. intros h. by apply wp_ret. Qed.

Lemma quiet_call {T} (c : Call (VcxResult T)) : (forall r, sent_of (ev c r) = None) -> quiet (call c).
Proof. intros Hc h. apply wp_call. intros r. rewrite sent_cons, Hc. split; [done|set_solver]. Qed.

Lemma quiet_parse {T} text err (k : Value -> Vcx T) : (forall v, quiet (k v)) -> quiet (parse_or text err k).
Proof. intros Hk. unfold parse_or. destruct (json_from_str text); [apply Hk|apply vcx_quiet_lift]. Qed.

Lemma quiet_build {K} key entry l json :
  (forall id k, quiet (entry id k)) -> quiet (@build_loop K key entry l json).
Proof.
  intros He. revert json. induction l as [|ci l IH]; intros json; cbn; [apply vcx_quiet_ret|].
  apply vcx_quiet_bind; [apply vcx_quiet_lift|]. intros [id k].
  destruct (map_get id json); [apply IH|]. apply vcx_quiet_bind; [apply He|]. intros [id' v]. apply IH.
Qed.

(** The checks fetch definitions and registries, and send nothing. *)
Ltac quiet :=
  repeat first
    [ apply vcx_quiet_bind; [|intros ?] | apply quiet_attempt; [|intros ?|intros ?]
    | apply quiet_call; intros ?; reflexivity | apply vcx_quiet_ret | apply vcx_quiet_lift
    | apply quiet_parse; intros ? | apply quiet_build; intros ? ?
    | match goal with |- quiet (match ?x with _ => _ end) => destruct x end ].

Lemma quiet_credential_defs l : quiet (build_credential_defs_json l).
Proof. unfold build_credential_defs_json. quiet. Qed.
Lemma quiet_schemas l : quiet (build_schemas_json l).
Proof. unfold build_schemas_json. quiet. Qed.
Lemma quiet_rev_reg_defs l : quiet (build_rev_reg_defs_json l).
Proof. unfold build_rev_reg_defs_json. quiet. Qed.
Lemma quiet_rev_regs l : quiet (build_rev_reg_json l).
Proof. unfold build_rev_reg_json. quiet. Qed.

Lemma quiet_or_empty m : quiet m -> quiet (or_empty m).
Proof. intros Hm. unfold or_empty. apply quiet_attempt; [done|intros ?; apply vcx_quiet_ret..]. Qed.

(** After a quiet program the rest starts from a longer history with nothing new sent. *)
Lemma wp_quiet {T U} (m : Vcx T) (k : T -> Vcx U) (Q : VcxResult U -> history -> Prop) h h0 :
  quiet m -> sent h = sent h0 -> h0 ⊆ h ->
  (forall r h', sent h' = sent h0 -> h0 ⊆ h' -> match r with VOk _ => False | _ => True end -> Q r h') ->
  (forall a h', sent h' = sent h0 -> h0 ⊆ h' -> wp (k a) Q h') ->
  wp (vbind m k) Q h.
Proof.
  intros Hm Hs Hh Herr Hk. apply wp_bind. eapply wp_mono; [|apply Hm].
  intros r h' [Hs' Hh']. assert (sent h' = sent h0) by congruence. assert (h0 ⊆ h') by set_solver.
  destruct r; auto.
Qed.

Lemma validate_wp proof request h :
  wp (validate_indy_proof proof request)
    (fun r h' => sent h' = sent h /\ h ⊆ h' /\
       (r = VOk true -> validate_proof_revealed_attributes proof = VOk () /\
          exists schemas cred_defs rev_reg_defs rev_regs,
            ev (VerifierVerifyProof request proof schemas cred_defs rev_reg_defs rev_regs) (VOk true) ∈ h')) h.
Proof.
  unfold validate_indy_proof. apply wp_bind, wp_lift.
  destruct (validate_proof_revealed_attributes proof) as [[]| |]; [|done..].
  apply wp_bind, wp_lift. destruct (get_credential_info proof) as [infos| |]; [|done..].
  assert (Hskip : forall (r : VcxResult bool) h', sent h' = sent h -> h ⊆ h' ->
    match r with VOk _ => False | _ => True end ->
    sent h' = sent h /\ h ⊆ h' /\ (r = VOk true -> VOk () = VOk () /\
      exists schemas cred_defs rev_reg_defs rev_regs,
        ev (VerifierVerifyProof request proof schemas cred_defs rev_reg_defs rev_regs) (VOk true) ∈ h')).
  { intros r h' Hs Hh Hr. split; [done|]. split; [done|]. by intros ->. }
  apply (wp_quiet _ _ _ h h); [apply quiet_or_empty, quiet_credential_defs|done|done|apply Hskip|]. intros defs h1 Hs1 Hh1.
  apply (wp_quiet _ _ _ h1 h); [apply quiet_or_empty, quiet_schemas|done|done|apply Hskip|]. intros schemas h2 Hs2 Hh2.
  apply (wp_quiet _ _ _ h2 h); [apply quiet_or_empty, quiet_rev_reg_defs|done|done|apply Hskip|]. intros rdefs h3 Hs3 Hh3.
  apply (wp_quiet _ _ _ h3 h); [apply quiet_or_empty, quiet_rev_regs|done|done|apply Hskip|]. intros rregs h4 Hs4 Hh4.
  apply wp_call. intros r. sent_simpl. split; [done|]. split; [set_solver|]. intros ->. split; [done|].
  eexists _, _, _, _. left.
Qed.

Lemma verify_presentation_wp d p h :
  wp (verify_presentation d p)
    (fun r h' => match r with
       | VOk _ => verified h' (rs_request d) p /\
           exists l, sent h' = (l ++ sent h)%list /\ acked (rs_connection_handle d) (pq_id (rs_request d)) p l
       | _ => sent h' = sent h
       end) h.
Proof.
  unfold verify_presentation. apply wp_bind, wp_lift. destruct (content (pn_attach p)) as [proof| |] eqn:Hp; [|done..].
  apply wp_bind, wp_lift. destruct (content (pq_attach (rs_request d))) as [request| |] eqn:Hq; [|done..].
  apply wp_bind. eapply wp_mono; [|apply validate_wp].
  intros [[]| |] h1 (Hs & Hh & Hv); [|done..].
  destruct (Hv eq_refl) as (Hr & schemas & defs & rdefs & rregs & Hin).
  assert (Hver : forall h2, h1 ⊆ h2 -> verified h2 (rs_request d) p).
  { intros h2 Hh2. exists proof, request, schemas, defs, rdefs, rregs. repeat split; try done. by apply Hh2. }
  unfold acked. cbn [negb]. wp_auto; sent_simpl; try done.
  - split; [apply Hver; set_solver|]. eexists [_]. rewrite Hs. split; [done|]. by eexists.
  - split; [by apply Hver|]. exists []. by rewrite Hs.
Qed.

Lemma send_request_wp data handle h :
  sent h = [] ->
  wp (send_request data handle)
    (fun r h' => match r with VOk s' => verifier_inv s' h' | _ => sent h' = [] end) h.
Proof.
  intros Hs. unfold send_request, set_format_version_for_did. wp_auto; sent_simpl; try done.
  all: cbn [verifier_inv]; sent_simpl; by rewrite Hs.
Qed.

Lemma verify_wp d p h :
  verifier_inv (PresentationRequestSent d) h ->
  wp (verify d p)
    (fun r h' => match r with VOk s' => verifier_inv s' h' | _ => verifier_inv (PresentationRequestSent d) h' end) h.
Proof.
  cbn [verifier_inv]. intros Hs. unfold verify. apply wp_attempt.
  eapply wp_mono; [|apply verify_presentation_wp]. intros [[]|e|] h'; [..|by intros ->].
  - intros (Hv & l & Hl & Ha). apply wp_ret. exists l. cbn. split; [by rewrite Hl, Hs|done].
  - intros Hs'. apply wp_bind, create_report_wp. intros id.
    destruct (kind e); wp_auto; sent_simpl; rewrite ?Hs', ?Hs; try done.
    all: cbn [verifier_inv finished_problem finished_presented]; eexists [_]; sent_simpl;
      rewrite Hs', Hs; split; [done|]; cbn; first [by eexists|left; by eexists].
Qed.

Lemma verifier_step_wp s message h :
  verifier_inv s h ->
  wp (step_state s message)
    (fun r h' => match r with VOk s' => verifier_inv s' h' | _ => verifier_inv s h' end) h.
Proof.
  intros Hi. destruct s as [data|d|d]; cbn [step_state]; [..|by wp_auto].
  - destruct message; try by wp_auto. by apply send_request_wp.
  - destruct message; try by wp_auto.
    + by apply verify_wp.
    + cbn [verifier_inv] in *. apply wp_bind, create_report_wp. intros id.
      wp_auto; sent_simpl; try done.
      cbn [verifier_inv finished_problem]. eexists [_]. sent_simpl. rewrite Hi. split; [done|].
      left. by eexists.
    + wp_auto. exists []. cbn. split; [done|by right].
Qed.

Lemma verifier_inv_call {T} (c : Call T) r s h :
  sent_of (ev c r) = None -> verifier_inv s h -> verifier_inv s (ev c r :: h).
Proof.
  intros Hn. destruct s as [data|d|d]; cbn [verifier_inv]; rewrite ?sent_cons, ?Hn; [done..|].
  intros (l & Hl & Hd). exists l. split; [done|].
  destruct (f_status d), (f_revocation_status d) as [[]|], (f_presentation d) as [p|]; try done.
  destruct Hd as [(proof & request & s & cd & rd & rr & ? & ? & ? & Hin) Ha]. split; [|done].
  exists proof, request, s, cd, rd, rr. repeat split; try done. by right.
Qed.

Let I (sm : VerifierSM) (h : history) : Prop := verifier_inv (state sm) h.

Lemma verifier_keeps_step message : keeps I (commit (step message)).
Proof.
  apply keeps_commit. intros sm h Hi. apply wp_bind. eapply wp_mono; [|by apply verifier_step_wp].
  intros [s'| |] h' Hs'; [by apply wp_ret|done..].
Qed.

Lemma verifier_keeps_call {T} (c : Call (VcxResult T)) :
  (forall r, sent_of (ev c r) = None) -> keeps I (reading (fun _ => call c)).
Proof. intros Hc. apply keeps_reading. intros sm h Hi. apply wp_call. intros r. by apply verifier_inv_call. Qed.

Lemma verifier_keeps_lift {T} (f : VerifierSM -> VcxResult T) : keeps I (reading (fun sm => lift (f sm))).
Proof. by apply keeps_reading. Qed.

Lemma verifier_keeps op : keeps I (api op).
Proof.
  destruct op as [handle|p|[msg|]]; cbn [api]; [apply verifier_keeps_step..| |];
    intros sm h Hi; unfold update_state; destruct (has_transitions sm); [|done| |done].
  - unfold update_state_with_message. destruct (a2a_from_str msg); [by apply verifier_keeps_step|done].
  - apply obj_keeps_bind; [apply verifier_keeps_lift|intros conn| exact Hi].
    apply obj_keeps_bind; [by apply verifier_keeps_call|intros ms].
    apply obj_keeps_bind; [by apply keeps_reading|intros [[uid m]|]]; [|apply obj_keeps_ret].
    apply obj_keeps_bind; [apply verifier_keeps_step|intros _]. by apply verifier_keeps_call.
Qed.

Lemma verifier_inv_reachable sm h : reachable sm h -> verifier_inv (state sm) h.
Proof. induction 1 as [|sm h op _ IH]; [done|]. by apply verifier_keeps. Qed.

End VerifierSafety.

(** ** The prover *)
Section ProverSafety.
Context {C : Codec} {V : VcxCodec} {A : A2ACodec} {P : PresentCodec} {E : Env}.
Import Prover.

(** A message that reached the verifier, over the connection or at the request's endpoint. *)
Definition told_of (e : event) : option A2AMessage :=
  match e with
  | existT _ (c, r) =>
      match c in Call T return T -> option A2AMessage with
      | SendMessage _ m => fun r => match r with VOk _ => Some m | _ => None end
      | SendMessageToSelfEndpoint m _ => fun r => match r with VOk _ => Some m | _ => None end
      | _ => fun _ => None
      end r
  end.
Definition told (h : history) : list A2AMessage := omap told_of h.

Lemma told_cons e h : told (e :: h) = match told_of e with Some x => x :: told h | None => told h end.
Proof. done. Qed.
Ltac told_simpl := rewrite ?told_cons in *; cbn [told_of ev] in *.

(** The only message the verifier was told, if the state says there is one. *)
Definition prover_inv (thread : string) (s : ProverState) (h : history) : Prop :=
  match s with
  | Initiated _ => told h = []
  | PresentationPrepared _ p => told h = [] /\ thid (pn_thread p) = Some thread
  | PresentationPreparationFailed _ r => told h = [] /\ thid (pr_thread r) = Some thread
  | PresentationSent d =>
      told h = [MPresentation (ps_presentation d)] /\ thid (pn_thread (ps_presentation d)) = Some thread
  | Finished d =>
      exists m, told h = [m] /\ message_thread m = Some thread /\
      match f_status d with
      | Success => m = MPresentation (f_presentation d)
      | Undefined => False
      | _ => True
      end
  end.

(** Nothing is said. *)
Lemma send_reply_wp q handle m h :
  wp (send_reply q handle m)
    (fun r h' => told h' = match r with VOk _ => m :: told h | _ => told h end) h.
Proof. unfold send_reply. wp_auto; by told_simpl. Qed.

Lemma finished_declined_wp q thread m h :
  told h = [m] -> message_thread m = Some thread ->
  wp (finished_declined q) (fun r h' => match r with VOk s' => prover_inv thread s' h' | _ => False end) h.
Proof. intros Hm Ht. unfold finished_declined. wp_auto. exists m. by told_simpl. Qed.

Lemma reject_wp handle reason q thread h :
  told h = [] ->
  wp (let* _ := _handle_reject_presentation_request handle reason q thread in finished_declined q)
    (fun r h' => match r with VOk s' => prover_inv thread s' h' | _ => told h' = [] end) h.
Proof.
  intros Hn. unfold _handle_reject_presentation_request.
  apply wp_bind, wp_bind, create_report_wp. intros id. eapply wp_mono; [|apply send_reply_wp].
  intros [[]| |] h' Hh'; told_simpl; rewrite Hn in Hh'; [|done..].
  eapply wp_mono; [|by eapply (finished_declined_wp _ thread)]. by intros [s'| |] h''.
Qed.

Lemma propose_wp handle preview q thread h :
  told h = [] ->
  wp (let* _ := _handle_presentation_proposal handle preview q thread in finished_declined q)
    (fun r h' => match r with VOk s' => prover_inv thread s' h' | _ => told h' = [] end) h.
Proof.
  intros Hn. unfold _handle_presentation_proposal.
  apply wp_bind, wp_bind, wp_ask. intros id. eapply wp_mono; [|apply send_reply_wp].
  intros [[]| |] h' Hh'; told_simpl; rewrite Hn in Hh'; [|done..].
  eapply wp_mono; [|by eapply (finished_declined_wp _ thread)]. by intros [s'| |] h''.
Qed.

Lemma prepare_wp thread q credentials self_attested h :
  told h = [] ->
  wp (prepare thread q credentials self_attested)
    (fun r h' => match r with VOk s' => prover_inv thread s' h' | _ => told h' = [] end) h.
Proof.
  intros Hn. unfold prepare, build_presentation, create_report.
  wp_auto; told_simpl; try done; cbn [prover_inv]; told_simpl; (split; [done|]);
    try match goal with H1 : set_presentations_attach _ _ = VOk _ |- _ => injection H1 as <- end; done.
Qed.

Lemma prover_step_wp thread s message h :
  prover_inv thread s h ->
  wp (step_state thread s message)
    (fun r h' => match r with VOk s' => prover_inv thread s' h' | _ => prover_inv thread s h' end) h.
Proof.
  intros Hi. destruct s as [q|q p|q r|d|d]; cbn [step_state]; cbn [prover_inv] in Hi.
  - destruct message; try by wp_auto.
    + by apply reject_wp.
    + by apply prepare_wp.
    + by apply propose_wp.
  - destruct Hi as [Hn Ht]. destruct message; try by wp_auto.
    + eapply wp_mono; [|by apply reject_wp]. intros [s'| |] h' Hs'; by cbn [prover_inv].
    + destruct (pq_service q).
      * apply wp_bind, wp_call. intros [[]| |]; cbn [prover_inv]; told_simpl; [|done..].
        eapply wp_mono; [|apply (finished_declined_wp _ thread (MPresentation p)); told_simpl].
        -- by intros [s'| |] h'.
        -- by rewrite Hn.
        -- cbn. by rewrite Ht.
      * wp_auto; cbn [prover_inv]; told_simpl; [|done..]. by rewrite Hn.
    + eapply wp_mono; [|by apply propose_wp]. intros [s'| |] h' Hs'; by cbn [prover_inv].
  - destruct Hi as [Hn Ht]. destruct message; try by wp_auto.
    apply wp_bind. eapply wp_mono; [|apply send_reply_wp]. rewrite Hn.
    intros [[]| |] h' Hh'; [|done..]. unfold finished_failed. wp_auto.
    exists (CommonProblemReport r). told_simpl. repeat split; [done|]. cbn. by rewrite Ht.
  - destruct Hi as [Hn Ht]. destruct message; try by wp_auto.
    all: wp_auto; eexists; told_simpl; repeat split; [done|]; cbn; by rewrite Ht.
  - by wp_auto.
Qed.

Lemma prover_inv_call {T} (c : Call T) r thread s h :
  told_of (ev c r) = None -> prover_inv thread s h -> prover_inv thread s (ev c r :: h).
Proof. intros Hn. destruct s; cbn [prover_inv]; by rewrite told_cons, Hn. Qed.

Let I (sm : ProverSM) (h : history) : Prop := prover_inv (thread_id sm) (state sm) h.

Lemma prover_keeps_step message : keeps I (commit (step message)).
Proof.
  apply keeps_commit. intros sm h Hi. apply wp_bind. eapply wp_mono; [|by apply prover_step_wp].
  intros [s'| |] h' Hs'; [by apply wp_ret|done..].
Qed.

Lemma prover_keeps_call {T} (c : Call (VcxResult T)) :
  (forall r, told_of (ev c r) = None) -> keeps I (reading (fun _ => call c)).
Proof. intros Hc. apply keeps_reading. intros sm h Hi. apply wp_call. intros r. by apply prover_inv_call. Qed.

Lemma prover_keeps op : keeps I (api op).
Proof.
  destruct op as [creds self|p|handle|[msg|]|handle [reason|] [proposal|]]; cbn [api decline_presentation_request];
    try apply prover_keeps_step; try (by apply keeps_reading).
  - intros sm h Hi; unfold update_state; destruct (has_transitions sm); [|done].
    unfold update_state_with_message. destruct (a2a_from_str msg); [by apply prover_keeps_step|done].
  - intros sm h Hi; unfold update_state; destruct (has_transitions sm); [|done].
    apply obj_keeps_bind; [by apply keeps_reading|intros conn|exact Hi].
    apply obj_keeps_bind; [by apply prover_keeps_call|intros ms].
    apply obj_keeps_bind; [by apply keeps_reading|intros [[uid m]|]]; [|apply obj_keeps_ret].
    apply obj_keeps_bind; [apply prover_keeps_step|intros _]. by apply prover_keeps_call.
  - destruct (preview_from_str proposal); [apply prover_keeps_step|by apply keeps_reading].
Qed.

Lemma prover_inv_reachable sm h : reachable sm h -> prover_inv (thread_id sm) (state sm) h.
Proof. induction 1 as [|sm h op _ IH]; [done|]. by apply prover_keeps. Qed.

(** A prover tells the verifier at most one thing about a request, in the request's
    thread: nothing before it has finished or sent its presentation, and after that exactly
    one presentation, problem report or proposal; success means it was the presentation the
    prover shows.  This holds for every sequence of calls and whatever fails in between. *)
Theorem prover_answers_once sm h :
  reachable sm h ->
  match state sm with
  | Initiated _ | PresentationPrepared _ _ | PresentationPreparationFailed _ _ => told h = []
  | _ => exists m, told h = [m] /\ message_thread m = Some (thread_id sm) /\
      (presentation_status sm = status_code Success -> exists p, presentation sm = VOk p /\ m = MPresentation p)
  end.
Proof.
  intros Hr%prover_inv_reachable. unfold presentation_status, presentation.
  destruct (state sm) as [q|q p|q r|d|d]; [done|by destruct Hr..| |].
  - destruct Hr as [Ht Hp]. eexists. split; [exact Ht|]. split; [cbn; by rewrite Hp|]. done.
  - destruct Hr as (m & Hm & Ht & Hs). exists m. split; [done|]. split; [done|].
    destruct (f_status d); try done. intros _. eauto.
Qed.
End ProverSafety.
