(* ===== verification/PresentRun.v ===== *)
(** * Runs of a presentation

    The machines of [Prover.v] and [VcxVerifier.v] at work: which messages they handle, an exchange carried
    out by a prover and a verifier over their agents, and runs that show behaviours to know
    about.  The concrete environments are those of [IssuanceRun.v]. *)

From stdpp Require Import base list strings numbers gmap.
From Stdlib Require Import ZArith Lia.
From S2P Require Import Prelude Json Trie External ProofRequest VcxErrors A2A VcxMonad VcxEncoding Issuance.
From S2P Require Import IssuanceSafety IssuanceRun PresentProof Prover VcxVerifier PresentSafety.

Open Scope string_scope.

(** ** Threads *)
Lemma prover_relevant_thread s t m m' :
  Prover.relevant s t m = Some m' -> message_thread m = Some t.
Proof.
  destruct s; cbn; try done; destruct m; cbn; try done;
    destruct (is_reply _ _) eqn:Er; try done; apply is_reply_eq in Er; by rewrite Er.
Qed.

Lemma verifier_relevant_thread d m m' :
  VcxVerifier.relevant (VcxVerifier.PresentationRequestSent d) m = Some m' ->
  message_thread m = Some (pq_id (VcxVerifier.rs_request d)).
Proof.
  cbn; destruct m; cbn; try done;
    destruct (is_reply _ _) eqn:Er; try done; apply is_reply_eq in Er; by rewrite Er.
Qed.

(** ** Programs that do not panic *)

(** The calls that fetch definitions and registries return. *)
Definition fetches_return (E : Env) : Prop :=
  forall h id,
    @answer E _ h (GetCredDefJson id) <> VPanic /\ @answer E _ h (GetSchemaJson id) <> VPanic /\
    @answer E _ h (GetRevRegDefJson id) <> VPanic /\ forall t, @answer E _ h (GetRevReg id t) <> VPanic.

Section NoPanic.
Context {E : Env} (fetches : fetches_return E).

Definition calm {T} (m : Vcx T) : Prop := forall h, (m h).1 <> VPanic.

Lemma vcx_calm_bind {T U} (m : Vcx T) (k : T -> Vcx U) : calm m -> (forall a, calm (k a)) -> calm (vbind m k).
Proof.
  intros Hm Hk h. specialize (Hm h). unfold vbind. destruct (m h) as [[a|e|] h']; [apply Hk|done..].
Qed.

Lemma calm_attempt {T U} (m : Vcx T) (ok : T -> Vcx U) (err : VcxError -> Vcx U) :
  calm m -> (forall a, calm (ok a)) -> (forall e, calm (err e)) -> calm (attempt m ok err).
Proof.
  intros Hm Hk He h. specialize (Hm h). unfold attempt.
  destruct (m h) as [[a|e|] h']; [apply Hk|apply He|done].
Qed.

Lemma calm_call {T} (c : Call (VcxResult T)) : (forall h, answer h c <> VPanic) -> calm (call c).
Proof. intros Hc h. apply Hc. Qed.

Lemma calm_ret {T} (a : T) : calm (ret a).
Proof. by intros h. Qed.

Lemma calm_err {T} e : calm (fail (A := T) e).
Proof. by intros h. Qed.

Lemma calm_parse {C : Codec} {T} text err (k : Value -> Vcx T) : (forall v, calm (k v)) -> calm (parse_or text err k).
Proof. intros Hk. unfold parse_or. destruct (json_from_str text); [apply Hk|by intros h]. Qed.

Lemma calm_build {K} key entry l json :
  (forall ci, key ci <> VPanic) -> (forall id k, calm (entry id k)) -> calm (@build_loop K key entry l json).
Proof.
  intros Hk He. revert json. induction l as [|ci l IH]; intros json; cbn; [apply calm_ret|].
  apply vcx_calm_bind; [intros h; apply Hk|]. intros [id k].
  destruct (map_get id json); [apply IH|]. apply vcx_calm_bind; [apply He|]. intros [id' v]. apply IH.
Qed.

Ltac calm :=
  repeat first
    [ apply vcx_calm_bind; [|intros ?] | apply calm_attempt; [|intros ?|intros ?]
    | apply calm_call; intros ?; apply fetches | apply calm_ret | apply calm_err | apply calm_parse; intros ?
    | apply calm_build; [intros ?|intros ? ?]
    | match goal with |- calm (match ?x with _ => _ end) => destruct x end ].

Context {C : Codec} {V : VcxCodec}.

Lemma calm_fetches l :
  calm (build_credential_defs_json l) /\ calm (build_schemas_json l) /\
  calm (build_rev_reg_defs_json l) /\ calm (build_rev_reg_json l).
Proof.
  unfold build_credential_defs_json, build_schemas_json, build_rev_reg_defs_json, build_rev_reg_json, rev_reg_key.
  repeat split; calm; try done; destruct (ci_rev_reg_id _); cbn; try done; destruct (ci_timestamp _); done.
Qed.

(** With the empty object in place of what cannot be fetched, fetching always gives a text. *)
Lemma fetch_ok (m : Vcx string) : quiet m -> calm m ->
  forall h, wp (or_empty m) (fun r h' => exists s, r = VOk s /\ sent h' = sent h) h.
Proof.
  intros Hq Hc h. specialize (Hc h). unfold or_empty. apply wp_attempt.
  assert (Hq' := Hq h). unfold wp in *. destruct (m h) as [[s|e|] h']; cbn in *; [| |done];
    eexists; (split; [done|]); apply Hq'.
Qed.
End NoPanic.

(** ** A complete exchange *)
Section Completion.
Context {C : Codec} {V : VcxCodec} {A : A2ACodec} {P : PresentCodec}.
Context (base64_inv : forall l, Forall is_byte l -> base64_decode (base64_encode l) = Some l).
Context (EV EP : Env) (agents : agent_works EV /\ agent_works EP).
Context (fetches : fetches_return EV).
Context (connV connP : Z) (data data' : ProofRequestData) (sourceV sourceP : string).

(** The mailboxes: the other party's message among messages of other threads. *)
Context (before after : list (string * A2AMessage)) (uid : string).
Context (no_clash : fresh_for EV before).
Let box (m : A2AMessage) : list (string * A2AMessage) := (before ++ (uid, m) :: after)%list.

Context (did key institution text credentials self_attested proof : string).
Context (m : list (string * Value)) (infos : list CredInfo).
Let request : string := json_to_string (Object m).
Context (texts : rust_string request /\ rust_string proof).
Context (knows_did : forall h, @answer EV _ h (GetPwDid connV) = VOk did).
Context (knows_key : forall h, @answer EV _ h (GetTheirPwVerkey connV) = VOk key).
Context (unqualified : is_fully_qualified did && is_fully_qualified key = false).
Context (strips : forall h, @answer EV _ h (ToUnqualified (request_to_string data)) = VOk text).
Context (reads_back : request_from_str text = Some data').
Context (configured : forall h, @answer EV _ h (GetConfigValue "institution_name") = VOk institution).
Context (serialized : request_to_value (set_ver data' RV1) = Object m).
Context (proves : forall h, @answer EP _ h (GenerateIndyProof credentials self_attested request) = VOk proof).
Context (encodings : validate_proof_revealed_attributes proof = VOk ()).
Context (reads_proof : get_credential_info proof = VOk infos).
Context (accepts : forall h a b c d, @answer EV _ h (VerifierVerifyProof request proof a b c d) = VOk true).

Lemma request_sent_step h :
  exists q h',
    VcxVerifier.api (E := EV) (VcxVerifier.OpSendRequest connV) (VcxVerifier.new data sourceV) h =
      (VOk (), VcxVerifier.mkVerifierSM sourceV
         (VcxVerifier.PresentationRequestSent (VcxVerifier.mkRequestSent connV q)), h') /\
    sent h' = (connV, MPresentationRequest q) :: sent h /\
    content (pq_attach q) = VOk request /\ pq_service q = None /\ (exists h0, pq_id q = @answer EV _ h0 Uuid).
Proof.
  destruct agents as [[Hs _] _], texts as [Ht _].
  destruct (commit_ok (VcxVerifier.step (E := EV) (VcxVerifier.SendPresentationRequest connV)) (VcxVerifier.new data sourceV) h
    (fun v1 h' => exists q, v1 = VcxVerifier.mkVerifierSM sourceV
         (VcxVerifier.PresentationRequestSent (VcxVerifier.mkRequestSent connV q)) /\
       sent h' = (connV, MPresentationRequest q) :: sent h /\
       content (pq_attach q) = VOk request /\ pq_service q = None /\ (exists h0, pq_id q = @answer EV _ h0 Uuid)))
    as (v1 & h' & Hc & q & -> & Hq); [|by exists q, h'].
  unfold VcxVerifier.step, VcxVerifier.new. cbn [VcxVerifier.state VcxVerifier.source_id VcxVerifier.step_state].
  unfold VcxVerifier.send_request, set_format_version_for_did.
  wp_run. rewrite unqualified. wp_run. rewrite reads_back. wp_run. rewrite serialized. wp_run.
  eexists. split; [done|]. split; [done|]. split; [|split; [done|eauto]].
  unfold content, get_data, get_bytes, ok_or. cbn. rewrite base64_inv by auto with indy. cbn.
  by rewrite from_utf8_as_bytes.
Qed.

Lemma generate_step q h :
  content (pq_attach q) = VOk request ->
  exists p h',
    Prover.api (E := EP) (Prover.OpGenerate credentials self_attested) (Prover.new q sourceP) h =
      (VOk (), Prover.mkProverSM sourceP (pq_id q) (Prover.PresentationPrepared q p), h') /\
    sent h' = sent h /\ content (pn_attach p) = VOk proof /\
    thid (pn_thread p) = Some (pq_id q) /\ pn_please_ack p = true.
Proof.
  intros Hq. destruct texts as [_ Ht].
  destruct (commit_ok (Prover.step (E := EP) (Prover.PreparePresentation credentials self_attested)) (Prover.new q sourceP) h
    (fun p1 h' => exists p, p1 = Prover.mkProverSM sourceP (pq_id q) (Prover.PresentationPrepared q p) /\
       sent h' = sent h /\ content (pn_attach p) = VOk proof /\
       thid (pn_thread p) = Some (pq_id q) /\ pn_please_ack p = true))
    as (p1 & h' & Hc & p & -> & Hp); [|by exists p, h'].
  unfold Prover.step, Prover.new. cbn [Prover.state Prover.thread_id Prover.source_id Prover.step_state].
  unfold Prover.prepare, Prover.build_presentation. wp_run.
  eexists. split; [done|]. split; [done|]. split; [|done].
  by apply (content_of_string base64_inv IdPresentation).
Qed.

Lemma presentation_sent_step q p h :
  pq_service q = None ->
  exists h',
    Prover.api (E := EP) (Prover.OpSend connP) (Prover.mkProverSM sourceP (pq_id q) (Prover.PresentationPrepared q p)) h =
      (VOk (), Prover.mkProverSM sourceP (pq_id q)
         (Prover.PresentationSent (Prover.mkPresentationSent connP q p)), h') /\
    sent h' = (connP, MPresentation p) :: sent h.
Proof.
  intros Hq. destruct agents as [_ [Hs _]].
  destruct (commit_ok (Prover.step (E := EP) (Prover.SendPresentation connP))
    (Prover.mkProverSM sourceP (pq_id q) (Prover.PresentationPrepared q p)) h
    (fun p2 h' => p2 = Prover.mkProverSM sourceP (pq_id q)
         (Prover.PresentationSent (Prover.mkPresentationSent connP q p)) /\
       sent h' = (connP, MPresentation p) :: sent h))
    as (p2 & h' & Hc & -> & Hp); [|by exists h'].
  unfold Prover.step. cbn [Prover.state Prover.thread_id Prover.source_id Prover.step_state].
  rewrite Hq. wp_run. done.
Qed.

(** The checks accept the proof, whatever the fetched definitions are. *)
Lemma validate_accepts ms h :
  wp (validate_indy_proof (E := with_mailbox EV ms) proof request)
    (fun r h' => r = VOk true /\ sent h' = sent h) h.
Proof.
  assert (Hf : fetches_return (with_mailbox EV ms)) by exact fetches.
  destruct (calm_fetches Hf infos) as (Hc1 & Hc2 & Hc3 & Hc4).
  unfold validate_indy_proof. rewrite encodings, reads_proof. wp_run.
  eapply wp_mono; [|apply fetch_ok; [apply quiet_credential_defs|exact Hc1]]. intros r h1 (defs & -> & Hs1).
  apply wp_bind. eapply wp_mono; [|apply fetch_ok; [apply quiet_schemas|exact Hc2]]. intros r h2 (sch & -> & Hs2).
  apply wp_bind. eapply wp_mono; [|apply fetch_ok; [apply quiet_rev_reg_defs|exact Hc3]]. intros r h3 (rd & -> & Hs3).
  apply wp_bind. eapply wp_mono; [|apply fetch_ok; [apply quiet_rev_regs|exact Hc4]]. intros r h4 (rr & -> & Hs4).
  wp_run. split; [done|]. sent_simpl. congruence.
Qed.

Lemma verify_step q p h :
  content (pq_attach q) = VOk request -> content (pn_attach p) = VOk proof ->
  Forall (fun um => message_thread um.2 <> Some (pq_id q)) before ->
  thid (pn_thread p) = Some (pq_id q) -> pn_please_ack p = true ->
  exists a h' v2,
    VcxVerifier.api (E := with_mailbox EV (box (MPresentation p))) (VcxVerifier.OpUpdate None)
      (VcxVerifier.mkVerifierSM sourceV (VcxVerifier.PresentationRequestSent (VcxVerifier.mkRequestSent connV q))) h =
      (VOk (), v2, h') /\
    sent h' = (connV, PresentationAck a) :: sent h /\ thid (ack_thread a) = Some (pq_id q) /\
    VcxVerifier.presentation_status v2 = status_code Success /\ VcxVerifier.presentation v2 = VOk p.
Proof.
  intros Hq Hp Hb Ht Hack. destruct agents as [[Hs Hu] _].
  set (sm := VcxVerifier.mkVerifierSM _ _).
  assert (Hf : VcxVerifier.find_message_to_handle sm (box (MPresentation p)) = Some (uid, MPresentation p)).
  { apply (find_delivered _ (pq_id q)); [|done|].
    - intros m0 m' Hm. by apply verifier_relevant_thread in Hm.
    - cbn. unfold is_reply. rewrite Ht. cbn. by rewrite String.eqb_refl. }
  assert (Hstep : exists a h' v2, VcxVerifier.handle_message (E := with_mailbox EV (box (MPresentation p))) (VcxVerifier.VerifyPresentation p) sm
      (ev (GetMessages connV) (VOk (box (MPresentation p))) :: h) = (VOk (), v2, h') /\
    sent h' = (connV, PresentationAck a) :: sent h /\ thid (ack_thread a) = Some (pq_id q) /\
    VcxVerifier.presentation_status v2 = status_code Success /\ VcxVerifier.presentation v2 = VOk p).
  { destruct (commit_ok (VcxVerifier.step (E := with_mailbox EV (box (MPresentation p))) (VcxVerifier.VerifyPresentation p)) sm
      (ev (GetMessages connV) (VOk (box (MPresentation p))) :: h)
      (fun v2 h' => exists a, sent h' = (connV, PresentationAck a) :: sent h /\
         thid (ack_thread a) = Some (pq_id q) /\
         VcxVerifier.presentation_status v2 = status_code Success /\ VcxVerifier.presentation v2 = VOk p))
      as (v2 & h' & Hc & a & Ha); [|exists a, h', v2; split; [exact Hc|exact Ha]].
    unfold VcxVerifier.step. cbn [VcxVerifier.state VcxVerifier.source_id VcxVerifier.step_state sm].
    unfold VcxVerifier.verify, VcxVerifier.verify_presentation. cbn [VcxVerifier.rs_request VcxVerifier.rs_connection_handle].
    apply wp_bind, wp_attempt, wp_bind. eapply wp_lift_known; [exact Hp|]. cbv beta iota.
    apply wp_bind. eapply wp_lift_known; [exact Hq|]. cbv beta iota.
    apply wp_bind. eapply wp_mono; [|apply validate_accepts]. intros r h1 [-> Hs1]. cbn [negb].
    rewrite Hack. wp_run. cbn [VcxVerifier.presentation_status VcxVerifier.presentation VcxVerifier.state]. eexists. sent_simpl. split; [by rewrite Hs1|]. done. }
  destruct Hstep as (a & h' & v2 & Hm & Hsent & Hrest). exists a. eexists _, v2.
  unfold VcxVerifier.api, VcxVerifier.update_state, obj_bind, reading, lift, call, ret, obj_ret.
  cbn [VcxVerifier.has_transitions VcxVerifier.state VcxVerifier.connection_handle VcxVerifier.rs_connection_handle sm].
  cbn [answer with_mailbox]. fold sm. rewrite Hf. cbn [VcxVerifier.verifier_message]. rewrite Hm, Hu.
  split; [reflexivity|]. by sent_simpl.
Qed.

Lemma ack_step q p a h :
  Forall (fun um => message_thread um.2 <> Some (pq_id q)) before -> thid (ack_thread a) = Some (pq_id q) ->
  exists h' p3,
    Prover.api (E := with_mailbox EP (box (PresentationAck a))) (Prover.OpUpdate None)
      (Prover.mkProverSM sourceP (pq_id q) (Prover.PresentationSent (Prover.mkPresentationSent connP q p))) h =
      (VOk (), p3, h') /\
    Prover.presentation_status p3 = status_code Success /\ Prover.presentation p3 = VOk p.
Proof.
  intros Hb Ht. destruct agents as [_ [_ Hu]]. set (sm := Prover.mkProverSM _ _ _).
  assert (Hf : Prover.find_message_to_handle sm (box (PresentationAck a)) = Some (uid, PresentationAck a)).
  { apply (find_delivered _ (pq_id q)); [|done|].
    - intros m0 m' Hm. by apply prover_relevant_thread in Hm.
    - cbn. unfold is_reply. rewrite Ht. cbn. by rewrite String.eqb_refl. }
  eexists _, _. unfold Prover.api, Prover.update_state, obj_bind, reading, lift, call, ret, obj_ret.
  cbn [Prover.has_transitions Prover.state Prover.connection_handle Prover.ps_connection_handle sm].
  cbn [answer with_mailbox]. fold sm. rewrite Hf. cbn [Prover.prover_message].
  unfold Prover.handle_message, commit, Prover.step, vbind. cbn [Prover.step_state Prover.state sm ret].
  rewrite Hu. split; [reflexivity|done].
Qed.

End Completion.

(** ** Concrete runs *)
Module PDemo.

Definition codec : PresentCodec := {|
  request_to_value _ := Object [];
  request_to_string _ := "request";
  request_from_str _ := Some request_default_data;
  attrs_from_str _ := None;
  predicates_from_str _ := None;
  interval_from_str _ := None;
  presentation_request_json _ := "{}";
  proof_request_message_json _ _ _ := "{}";
  presentation_json _ := "{}";
  proof_message_json s := s;
  str_debug s := s
|}.

(** An environment that sends acknowledgements or not, and takes the proof or not. *)
Definition env (acks accepts : bool) : Env := {|
  answer T h c :=
    match c in Call T return T with
    | SendMessage _ (PresentationAck _) =>
        if acks then VOk () else VErr (vcx_error VcxErrorKind.PostMessageFailed)
    | VerifierVerifyProof _ _ _ _ _ _ => VOk accepts
    | IsStrictAriesProtocolSet => false
    | c' => @answer Demo.env _ h c'
    end
|}.

Definition presentation : Presentation :=
  mkPresentation "p" None [JSON (mkAttachmentJson IdPresentation (Base64 "proof"))]
    (set_thid thread_default "thread") true.

Definition request (service : option Service) : PresentationRequest :=
  mkPresentationRequest "thread" None [JSON (mkAttachmentJson IdPresentationRequest (Base64 "{}"))] service.

(** A verifier that sent its request and was given the presentation. *)
Definition ops : list VcxVerifier.Op := [VcxVerifier.OpSendRequest 1; VcxVerifier.OpVerify presentation].
End PDemo.

#[local] Existing Instances Demo.codec Demo.vcx_codec Demo.a2a_codec PDemo.codec.



Lemma prover_answers_once_witness :
  exists sm h,
    Prover.reachable (E := Demo.env) sm h /\
    match Prover.state sm with
    | Prover.Initiated _ | Prover.PresentationPrepared _ _ | Prover.PresentationPreparationFailed _ _ => told h = []
    | _ => exists m, told h = [m] /\ message_thread m = Some (Prover.thread_id sm) /\
        (Prover.presentation_status sm = status_code Success ->
         exists p, Prover.presentation sm = VOk p /\ m = MPresentation p)
    end.
Proof.
  eexists _, _. split; [|eapply (prover_answers_once (E := Demo.env))].
  1, 2: eapply (Prover.reach_api _ _ (Prover.OpSend 1)),
      (Prover.reach_api _ _ (Prover.OpGenerate "creds" "self")), (Prover.reach_new (PDemo.request None) "p").
Defined.

(** ** Behaviours to know about *)

(** A presentation sent to the endpoint of a request counts as declined. *)
Theorem endpoint_presentation_reads_declined :
  exists sm h p,
    Prover.reachable (E := Demo.env) sm h /\ told h = [MPresentation p] /\
    content (pn_attach p) = VOk "proof" /\ Prover.presentation_status sm = status_code Declined.
Proof.
  eexists _, _, _. split.
  - eapply (Prover.reach_api _ _ (Prover.OpSend 1)), (Prover.reach_api _ _ (Prover.OpGenerate "creds" "self")),
      (Prover.reach_new (PDemo.request (Some (mkService [] None "endpoint"))) "p").
  - split; [vm_compute; reflexivity|]. split; by vm_compute.
Qed.

(** Asking for the presentation message after the request was declined panics. *)
Theorem message_after_decline_panics :
  exists sm h,
    Prover.reachable (E := PDemo.env true true) sm h /\
    (Prover.generate_presentation_msg (E := PDemo.env true true) sm h).1 = VPanic.
Proof.
  eexists _, _. split.
  - eapply (Prover.reach_api _ _ (Prover.OpDecline 1 (Some "no") None)),
      (Prover.reach_new (PDemo.request None) "p").
  - by vm_compute.
Qed.

(** A prover with a prepared presentation has transitions, but updating it fails for want of
    a connection. *)
Theorem prepared_prover_cannot_update {C : Codec} {V : VcxCodec} {A : A2ACodec} {E : Env} sm q p h :
  Prover.state sm = Prover.PresentationPrepared q p ->
  Prover.has_transitions sm = true /\
  Prover.update_state None sm h =
    (VErr (from_msg VcxErrorKind.NotReady "Connection handle isn't set"), sm, h).
Proof.
  intros Hs. unfold Prover.update_state, Prover.has_transitions, obj_bind, reading, lift, Prover.connection_handle.
  by rewrite Hs.
Qed.

(** When the acknowledgement of a valid proof cannot be sent, the verifier reports a failure
    to the prover and ends with failure. *)
Theorem failed_ack_refuses_valid_proof :
  exists sm h a b c d r,
    VcxVerifier.reachable (E := PDemo.env false true) sm h /\
    ev (VerifierVerifyProof "{}" "proof" a b c d) (VOk true) ∈ h /\
    (1%Z, CommonProblemReport r) ∈ sent h /\ VcxVerifier.presentation_status sm = 2%Z.
Proof.
  eexists _, _, _, _, _, _, _. split; [|split; [|split]].
  - eapply (VcxVerifier.reach_api _ _ (VcxVerifier.OpVerify PDemo.presentation)),
      (VcxVerifier.reach_api _ _ (VcxVerifier.OpSendRequest 1)), (VcxVerifier.reach_new request_default_data "v").
  - vm_compute. right; right; right; right; left.
  - vm_compute. left.
  - by vm_compute.
Qed.

(** A presentation libindy refuses ends in the state of an accepted exchange; only the
    status tells them apart. *)
Theorem refused_proof_state :
  exists sm h,
    VcxVerifier.reachable (E := PDemo.env true false) sm h /\
    VcxVerifier.state_code sm = VcxStateAccepted /\ VcxVerifier.presentation_status sm = 2%Z.
Proof.
  eexists _, _. split.
  - eapply (VcxVerifier.reach_api _ _ (VcxVerifier.OpVerify PDemo.presentation)),
      (VcxVerifier.reach_api _ _ (VcxVerifier.OpSendRequest 1)), (VcxVerifier.reach_new request_default_data "v").
  - split; by vm_compute.
Qed.

(** A verkey has no colon, so the request never gets the second version: what is compared
    with the pattern of a qualified DID is the other party's key. *)
Fixpoint no_colon (s : string) : bool :=
  match s with EmptyString => true | String a s' => negb (Ascii.eqb a colon) && no_colon s' end.

Lemma no_colon_unqualified s : no_colon s = true -> is_fully_qualified s = false.
Proof.
  induction s as [|a s IH]; intros Hs; [done|]. cbn [no_colon] in Hs.
  apply andb_true_iff in Hs as [Ha Hs]. cbn [is_fully_qualified]. rewrite (IH Hs), orb_false_r.
  destruct s as [|a2 [|a3 [|a4 rest]]]; try done.
  cbn [no_colon] in Hs. rewrite !andb_true_iff in Hs. destruct Hs as (_ & _ & H4 & _).
  destruct (String.eqb_spec (String a (String a2 (String a3 (String a4 "")))) "did:") as [[= -> -> -> ->]|]; done.
Qed.

Theorem request_version_is_always_1 {C : Codec} {V : VcxCodec} {P : PresentCodec} {E : Env} data my_did verkey h :
  no_colon verkey = true ->
  wp (set_format_version_for_did data my_did verkey)
    (fun r _ => match r with VOk data' => prd_ver data' = Some RV1 | _ => True end) h.
Proof.
  intros Hv. unfold set_format_version_for_did. rewrite (no_colon_unqualified _ Hv), andb_false_r.
  by wp_auto.
Qed.
