(* ===== verification/Agent.v ===== *)
(** * Agents and envelopes

    [libvcx/src/v3/handlers/connection/agent.rs] (the keys of a pairwise connection and what is
    done with them), [v3/utils/encryption_envelope.rs] (how a message is packed for its
    recipient and wrapped for the mediators in between), [v3/messages/forward.rs], and the
    signing of connection responses ([v3/messages/connection/response.rs]).

    Packing, unpacking, signing and posting are calls.  Shown: an envelope opened along its
    route hands each mediator the key of the next one and ends at the recipient with the
    message ([envelope_reaches_recipient]); a response that was signed is read back by who
    knows the key ([response_roundtrip]).  A signed text of fewer than eight bytes panics the
    reader ([short_signed_data_panics]). *)

From stdpp Require Import base list strings numbers gmap.
From Stdlib Require Import ZArith Lia Ascii.
From S2P Require Import Prelude Json Trie External VcxErrors DidDoc MessageType A2A A2AJson VcxMonad.

Open Scope string_scope.

(** [serde_json::from_slice]. *)
Definition json_from_slice {C : Codec} (l : bytes) : option Value :=
  match from_utf8 l with Some s => json_from_str s | None => None end.

(** What the code uses of the [base64] crate with its URL-safe alphabet, and the codec of
    [ConnectionData] derived by serde. *)
Class ResponseCodec := {
  base64_url_encode : bytes -> string;
  base64_url_decode : string -> option bytes;
  base64_err_debug : string -> string;
  #[global] serde_connection :: Serde ConnectionData
}.

(** [Debug] forms that end up in error texts. *)
Class DebugCodec := {
  did_doc_debug : DidDoc -> string;
  thread_debug : Thread -> string
}.

Record AgentInfo := mkAgentInfo {
  pw_did : string; pw_vk : string; agent_did : string; agent_vk : string
}.
#[export] Instance AgentInfo_eq_dec : EqDecision AgentInfo.
Proof. solve_decision. Defined.
Definition agent_default : AgentInfo := mkAgentInfo "" "" "" "".

Section Envelope.
Context {C : Codec} {V : VcxCodec} {D : DocCodec} {A : A2ACodec} {S : A2ASerde} {G : DebugCodec} {E : Env}.

(** ** Envelopes *)
Definition forward_new (to : string) (msg : bytes) : VcxResult Forward :=
  match json_from_slice msg with
  | Some v => VOk (mkForward to v)
  | None => VErr (from_msg VcxErrorKind.InvalidState (json_err_display (string_of_bytes msg)))
  end.

(** [json!(keys).to_string()]. *)
Definition keys_json (keys : list string) : string := json_to_string (Array (map VString keys)).

Definition encrypt_for_pairwise (message : A2AMessage) (pw_verkey : option string) (did_doc : DidDoc) :
    Vcx bytes :=
  let* text :=
    match message with
    | Generic message_ => ret (json_to_string message_)
    | message => let* v := lift (serialize message) in ret (json_to_string v)
    end in
  call (PackMessage pw_verkey (keys_json (doc_recipient_keys did_doc)) (as_bytes text)).

Definition wrap_into_forward (message : bytes) (to routing_key : string) : Vcx bytes :=
  let* forward := lift (forward_new to message) in
  let* v := lift (serialize (MForward forward)) in
  call (PackMessage None (keys_json [routing_key]) (as_bytes (json_to_string v))).

(** The loop of [wrap_into_forward_messages]. *)
Fixpoint wrap_all (message : bytes) (to : string) (routing_keys : list string) : Vcx bytes :=
  match routing_keys with
  | [] => ret message
  | routing_key :: routing_keys' =>
      let* message := wrap_into_forward message to routing_key in
      wrap_all message routing_key routing_keys'
  end.

Definition wrap_into_forward_messages (message : bytes) (did_doc : DidDoc) : Vcx bytes :=
  let (recipient_keys, routing_keys) := resolve_keys did_doc in
  match recipient_keys with
  | to :: _ => wrap_all message to routing_keys
  | [] => fail (from_msg VcxErrorKind.InvalidConnectionHandle
                  ("Recipient Key not found in DIDDoc: " +:+ did_doc_debug did_doc))
  end.

Definition envelope_create (message : A2AMessage) (pw_verkey : option string) (did_doc : DidDoc) : Vcx bytes :=
  let* packed := encrypt_for_pairwise message pw_verkey did_doc in
  wrap_into_forward_messages packed did_doc.

(** What [unpack_message] returned, read. *)
Definition read_unpacked (unpacked_msg : bytes) : VcxResult A2AMessage :=
  match json_from_slice unpacked_msg with
  | None =>
      VErr (from_msg VcxErrorKind.InvalidJson
              ("Cannot deserialize message: " +:+ json_err_display (string_of_bytes unpacked_msg)))
  | Some v =>
      match as_str (index v "message") with
      | None => VErr (from_msg VcxErrorKind.InvalidJson "Cannot find `message` field")
      | Some message =>
          match a2a_from_str message with
          | Some m => VOk m
          | None => VErr (from_msg VcxErrorKind.InvalidJson
                            ("Cannot deserialize A2A message: " +:+ json_err_display message))
          end
      end
  end.

Definition envelope_open (payload : bytes) : Vcx A2AMessage :=
  let* unpacked_msg := call (UnpackMessage payload) in
  lift (read_unpacked unpacked_msg).

(** ** Agents *)
Definition CONFIG_AGENCY_ENDPOINT : string := "agency_endpoint".
Definition CONFIG_AGENCY_VERKEY : string := "agency_verkey".
Definition CONFIG_DID_METHOD : string := "did_method".

(** The result of a program, errors as [None]: [.ok()]. *)
Definition ok {T} (m : Vcx T) : Vcx (option T) :=
  attempt m (fun a => ret (Some a)) (fun _ => ret None).

Definition create_agent : Vcx AgentInfo :=
  let* method_name := ok (call (GetConfigValue CONFIG_DID_METHOD)) in
  let* (pw_did, pw_vk) := call (CreateAndStoreMyDid method_name) in
  let* (agent_did, agent_vk) := call (CreateAgentKeys pw_did pw_vk) in
  ret (mkAgentInfo pw_did pw_vk agent_did agent_vk).

Definition agency_endpoint : Vcx string :=
  let* str := call (GetConfigValue CONFIG_AGENCY_ENDPOINT) in ret (str +:+ "/agency/msg").

Definition agent_routing_keys (a : AgentInfo) : Vcx (list string) :=
  let* agency_vk := call (GetConfigValue CONFIG_AGENCY_VERKEY) in ret [agent_vk a; agency_vk].

Definition agent_recipient_keys (a : AgentInfo) : list string := [pw_vk a].

Definition agent_update_message_status (a : AgentInfo) (uid : string) : Vcx unit :=
  call (UpdateMessagesReviewed (pw_did a) uid).

(** [Message::payload]. *)
Definition message_payload (m : AgentMessage) : VcxResult bytes :=
  match am_payload m with
  | Some (PayloadV1 payload) => VOk (map (fun i => (i mod 256)%Z) payload)
  | Some (PayloadV2 payload) => VOk (as_bytes (json_to_string payload))
  | None => VErr (vcx_error VcxErrorKind.InvalidState)
  end.

Definition agent_decode_message (m : AgentMessage) : Vcx A2AMessage :=
  let* payload := lift (message_payload m) in envelope_open payload.

(** The loop of [get_messages]. *)
Fixpoint decode_all (messages : list AgentMessage) (a2a_messages : gmap string A2AMessage) :
    Vcx (gmap string A2AMessage) :=
  match messages with
  | [] => ret a2a_messages
  | message :: messages' =>
      let* a2a := agent_decode_message message in
      decode_all messages' (<[am_uid message := a2a]> a2a_messages)
  end.

Definition agent_get_messages (a : AgentInfo) : Vcx (gmap string A2AMessage) :=
  let* messages := call (GetConnectionMessages (pw_did a) (pw_vk a) (agent_did a) (agent_vk a) None true) in
  decode_all messages ∅.

Definition agent_get_message_by_id (a : AgentInfo) (msg_id : string) : Vcx A2AMessage :=
  let* messages := call (GetConnectionMessages (pw_did a) (pw_vk a) (agent_did a) (agent_vk a) (Some [msg_id]) false) in
  match last messages with
  | Some message => agent_decode_message message
  | None => fail (from_msg VcxErrorKind.InvalidMessages ("Message not found for id: " +:+ text_debug msg_id))
  end.

Definition agent_send_message (a : AgentInfo) (message : A2AMessage) (did_doc : DidDoc) : Vcx unit :=
  let* envelope := envelope_create message (Some (pw_vk a)) did_doc in
  let* _ := call (PostMessage envelope (get_endpoint did_doc)) in
  ret ().

Definition send_message_anonymously (message : A2AMessage) (did_doc : DidDoc) : Vcx unit :=
  let* envelope := envelope_create message None did_doc in
  let* _ := call (PostMessage envelope (get_endpoint did_doc)) in
  ret ().

Definition agent_delete (a : AgentInfo) : Vcx unit :=
  call (DeleteConnection (pw_did a) (pw_vk a) (agent_did a) (agent_vk a)).
End Envelope.

(** ** Signed responses *)
Section Responses.
Context {C : Codec} {V : VcxCodec} {B : ResponseCodec} {E : Env}.

Definition signature_type : MessageType := build_type Signature "ed25519Sha512_single".

(** [u64::to_be_bytes]. *)
Definition be_bytes (z : Z) : bytes := rev (le_bytes 8 z).

Definition encode_response (response : Response) (key : string) : Vcx SignedResponse :=
  let connection_data := json_to_string (to_value (rp_connection response)) in
  let* sec := ask GetTime in
  let now := (sec mod 2 ^ 64)%Z in
  let sig_data := (be_bytes now ++ as_bytes connection_data)%list in
  let* signature := call (CryptoSign key sig_data) in
  ret (mkSignedResponse (rp_id response) (rp_thread response)
         (mkConnectionSignature signature_type (base64_url_encode signature) (base64_url_encode sig_data) key)
         (rp_please_ack response)).

Definition base64_field (text : string) : VcxResult bytes :=
  match base64_url_decode text with
  | Some l => VOk l
  | None => VErr (from_msg VcxErrorKind.InvalidJson
                    ("Cannot decode ConnectionResponse: " +:+ base64_err_debug text))
  end.

(** [&sig_data[8..]] and its JSON. *)
Definition read_sig_data (sig_data : bytes) : VcxResult ConnectionData :=
  if (length sig_data <? 8)%nat then VPanic
  else
    match json_from_slice (drop 8 sig_data) with
    | Some v =>
        match from_value v with
        | Some connection => VOk connection
        | None => VErr (from_msg VcxErrorKind.InvalidJson (json_err_display (string_of_bytes (drop 8 sig_data))))
        end
    | None => VErr (from_msg VcxErrorKind.InvalidJson (json_err_display (string_of_bytes (drop 8 sig_data))))
    end.

Definition decode_response (r : SignedResponse) (key : string) : Vcx Response :=
  let* signature := lift (base64_field (cs_signature (sr_signature r))) in
  let* sig_data := lift (base64_field (cs_sig_data (sr_signature r))) in
  let* valid := call (CryptoVerify key sig_data signature) in
  if negb valid
  then fail (from_msg VcxErrorKind.InvalidJson
               "ConnectionResponse signature is invalid for original Invite recipient key")
  else
    let* connection := lift (read_sig_data sig_data) in
    ret (mkResponse (sr_id r) (sr_thread r) connection (sr_please_ack r)).
End Responses.

(** ** The way of an envelope *)
Section Delivery.
Context {C : Codec} {V : VcxCodec} {D : DocCodec} {A : A2ACodec} {S : A2ASerde} {G : DebugCodec} {E : Env}.

(** What packing gives, and what the owner of a key gets by unpacking. *)
Context (pack : option string -> string -> bytes -> bytes) (unpack : string -> bytes -> option bytes).

(** The owner of [key] finds the text [m] in [w]. *)
Definition opens (key : string) (w m : bytes) : Prop :=
  exists u j, unpack key w = Some u /\ json_from_slice u = Some j /\
    as_str (index j "message") = Some (string_of_bytes m).

Context (packed : forall h sender keys m, answer h (PackMessage sender keys m) = VOk (pack sender keys m)).
Context (pack_json : forall sender keys m, exists v,
  json_from_slice (pack sender (keys_json keys) m) = Some v /\
  forall key, key ∈ keys ->
    opens key (pack sender (keys_json keys) m) m /\ opens key (as_bytes (json_to_string v)) m).
Context (forward_text : forall to sender keys m v,
  json_from_slice (pack sender keys m) = Some v ->
  exists vf, serialize (MForward (mkForward to v)) = VOk vf /\
    a2a_from_str (json_to_string vf) = Some (MForward (mkForward to v))).

(** A mediator unpacks what it got and passes the inner message on. *)
Definition hop (key : string) (w : bytes) : option (string * bytes) :=
  match unpack key w with
  | Some u =>
      match read_unpacked u with
      | VOk (MForward f) => Some (fw_to f, as_bytes (json_to_string (fw_msg f)))
      | _ => None
      end
  | None => None
  end.
Fixpoint travel (hops : nat) (key : string) (w : bytes) : option (string * bytes) :=
  match hops with
  | 0 => Some (key, w)
  | Datatypes.S hops' => match hop key w with Some (to, w') => travel hops' to w' | None => None end
  end.

(** The owner of the key reads the message. *)
Definition receives (key : string) (w : bytes) (message : A2AMessage) : Prop :=
  exists u, unpack key w = Some u /\ read_unpacked u = VOk message.

Definition arrives (hops : nat) (key : string) (w : bytes) (to : string) (message : A2AMessage) : Prop :=
  exists w0, travel hops key w = Some (to, w0) /\ receives to w0 message.

(** [arrives], also when mediators write the JSON anew. *)
Definition sent_well (hops : nat) (key : string) (w : bytes) (to : string) (message : A2AMessage) : Prop :=
  arrives hops key w to message /\ (exists sender keys m, w = pack sender keys m) /\
  exists v, json_from_slice w = Some v /\ arrives hops key (as_bytes (json_to_string v)) to message.

Lemma opens_receives key w v message :
  opens key w (as_bytes (json_to_string v)) -> a2a_from_str (json_to_string v) = Some message ->
  receives key w message.
Proof using.
  intros (u & j & Hu & Hj & Hm) Ha. exists u. split; [done|]. unfold read_unpacked. rewrite Hj, Hm.
  by rewrite string_of_as_bytes, Ha.
Qed.

Lemma opens_hop key w f v :
  opens key w (as_bytes (json_to_string v)) -> a2a_from_str (json_to_string v) = Some (MForward f) ->
  hop key w = Some (fw_to f, as_bytes (json_to_string (fw_msg f))).
Proof using.
  intros Ho Ha. destruct (opens_receives _ _ _ _ Ho Ha) as (u & Hu & Hr). unfold hop. by rewrite Hu, Hr.
Qed.

Lemma wrap_one_well hops w key routing_key to message h :
  sent_well hops key w to message ->
  wp (wrap_into_forward w key routing_key)
    (fun r _ => match r with VOk w' => sent_well (Datatypes.S hops) routing_key w' to message | _ => False end) h.
Proof using packed pack_json forward_text.
  intros (_ & (sender & keys & m & ->) & v & Hv & Hw). unfold wrap_into_forward, forward_new. rewrite Hv.
  destruct (forward_text key _ _ _ _ Hv) as (vf & Hs & Ha).
  apply wp_bind, wp_lift. cbn beta iota. apply wp_bind, wp_lift. rewrite Hs. cbn beta iota.
  eapply wp_call_known; [apply packed|].
  destruct (pack_json None [routing_key] (as_bytes (json_to_string vf))) as (v' & Hv' & Ho).
  destruct (Ho routing_key) as [Ho1 Ho2]; [set_solver|].
  assert (forall w', opens routing_key w' (as_bytes (json_to_string vf)) ->
            arrives (Datatypes.S hops) routing_key w' to message) as Harr.
  { intros w' Hop. destruct Hw as (w0 & Ht & Hr). exists w0. split; [|done].
    cbn [travel]. by rewrite (opens_hop _ _ _ _ Hop Ha). }
  split; [by apply Harr|]. split; [eauto|]. exists v'. split; [done|]. by apply Harr.
Qed.

Lemma wrap_all_well routing hops w key to message h :
  sent_well hops key w to message ->
  wp (wrap_all w key routing)
    (fun r _ => match r with
     | VOk w' => sent_well (length routing + hops) (default key (last routing)) w' to message
     | _ => False
     end) h.
Proof using packed pack_json forward_text.
  revert hops w key h. induction routing as [|k routing IH]; intros hops w key h Hw; cbn [wrap_all].
  - by apply wp_ret.
  - apply wp_bind. eapply wp_mono; [|by apply wrap_one_well].
    intros [w'|?|] h' Hw'; [|done..]. eapply wp_mono; [|by apply IH]. cbn beta iota.
    intros [w''|?|] h'' Hw''; [|done..].
    replace (length (k :: routing) + hops) with (length routing + Datatypes.S hops) by (cbn; lia).
    replace (last (k :: routing)) with (Some (default k (last routing))); [done|].
    destruct routing as [|k' routing]; [done|]. by destruct (last_is_Some (k' :: routing)) as [_ [x Hx]]; [|cbn in *; rewrite Hx].
Qed.

Lemma envelope_well message v sender did_doc to others routing h :
  serialize message = VOk v -> a2a_from_str (json_to_string v) = Some message ->
  resolve_keys did_doc = (to :: others, routing) ->
  wp (envelope_create message sender did_doc)
    (fun r _ => match r with
     | VOk w => sent_well (length routing) (default to (last routing)) w to message
     | _ => False
     end) h.
Proof using packed pack_json forward_text.
  intros Hs Ha Hr. unfold envelope_create. apply wp_bind. unfold encrypt_for_pairwise. apply wp_bind.
  assert (wp match message with
             | Generic message_ => ret (json_to_string message_)
             | message => let* v := lift (serialize message) in ret (json_to_string v)
             end (fun r h' => r = VOk (json_to_string v)) h) as Ht.
  { destruct message; try (apply wp_bind, wp_lift; rewrite Hs; by apply wp_ret).
    injection Hs as ->. by apply wp_ret. }
  eapply wp_mono; [|exact Ht]. intros r h1 ->. cbn beta iota.
  eapply wp_call_known; [apply packed|]. cbn beta iota.
  unfold wrap_into_forward_messages. rewrite Hr. unfold doc_recipient_keys. rewrite Hr. cbn [fst].
  destruct (pack_json sender (to :: others) (as_bytes (json_to_string v))) as (v' & Hv' & Ho).
  destruct (Ho to) as [Ho1 Ho2]; [set_solver|].
  rewrite <-(Nat.add_0_r (length routing)). apply wrap_all_well.
  split; [|split; [eauto|exists v'; split; [done|]]]; eexists; (split; [reflexivity|]);
    by eapply opens_receives.
Qed.

(** An envelope is made for every message that can be written, and it finds its way: opened
    with the last routing key of the document, and then with the key each layer names, it
    passes through every mediator once and ends with the first recipient key, whose owner
    reads the message.  Packing must be undone by unpacking with one of its keys, also after
    its JSON was written anew, and forward messages must survive JSON. *)
Theorem envelope_reaches_recipient message v sender did_doc to others routing h :
  serialize message = VOk v -> a2a_from_str (json_to_string v) = Some message ->
  resolve_keys did_doc = (to :: others, routing) ->
  exists w h', envelope_create message sender did_doc h = (VOk w, h') /\
    arrives (length routing) (default to (last routing)) w to message.
Proof using packed pack_json forward_text.
  intros Hs Ha Hr. generalize (envelope_well message v sender did_doc to others routing h Hs Ha Hr).
  unfold wp. destruct (envelope_create message sender did_doc h) as [[w|?|] h']; [|done..].
  intros [Hw _]. eauto.
Qed.
End Delivery.

(** ** Responses are read back *)

Lemma le_bytes_are_bytes n z : Forall is_byte (le_bytes n z).
Proof.
  revert z. induction n as [|n IH]; intros z; cbn; constructor; [|apply IH].
  unfold is_byte. pose proof (Z.mod_pos_bound z 256). lia.
Qed.

Lemma signed_data_bytes z text : Forall is_byte (be_bytes z ++ as_bytes text).
Proof.
  apply Forall_app. split; [|apply as_bytes_range].
  apply Forall_rev, le_bytes_are_bytes.
Qed.

Lemma signed_data_long z text : (length (be_bytes z ++ as_bytes text) <? 8)%nat = false.
Proof. apply Nat.ltb_ge. rewrite length_app. unfold be_bytes. rewrite length_rev, length_le_bytes. lia. Qed.

Lemma drop_signed_data z text : drop 8 (be_bytes z ++ as_bytes text) = as_bytes text.
Proof. apply drop_app_length'. unfold be_bytes. by rewrite length_rev, length_le_bytes. Qed.

Lemma response_read_back {C : Codec} {V : VcxCodec} {B : ResponseCodec} (E E' : Env) response key s h h1 h2 :
  (forall l, Forall is_byte l -> base64_url_decode (base64_url_encode l) = Some l) ->
  (forall h h' data signature, @answer E _ h (CryptoSign key data) = VOk signature ->
     Forall is_byte data ->
     Forall is_byte signature /\ @answer E' _ h' (CryptoVerify key data signature) = VOk true) ->
  (let text := json_to_string (to_value (rp_connection response)) in
   rust_string text /\
   exists v, json_from_str text = Some v /\ from_value v = Some (rp_connection response)) ->
  encode_response (E := E) response key h = (VOk s, h1) ->
  exists h3, decode_response (E := E') s key h2 = (VOk response, h3).
Proof.
  intros Hb64 Hsign (Hutf & v & Hv & Hf) He.
  unfold encode_response, vbind, ask, call, ret in He.
  set (data := (be_bytes _ ++ as_bytes _)%list) in He. pose proof (signed_data_bytes _ _ : Forall is_byte data) as Hd.
  assert (read_sig_data data = VOk (rp_connection response)) as Hread.
  { unfold read_sig_data, data. rewrite signed_data_long, drop_signed_data. unfold json_from_slice.
    by rewrite from_utf8_as_bytes, Hv, Hf. }
  clearbody data. destruct (answer _ (CryptoSign _ _)) as [signature|?|] eqn:Es in He; [|done..].
  injection He as <- <-.
  unfold decode_response, vbind, lift, call, base64_field. cbn [sr_signature cs_signature cs_sig_data].
  pose proof (fun h' => Hsign _ h' _ _ Es Hd) as Hsig.
  rewrite !Hb64 by first [done|apply (Hsig [])]. rewrite (proj2 (Hsig _)). cbn [negb].
  rewrite Hread. eexists. unfold ret. by destruct response.
Qed.

(** A response signed with a key is read back, with its connection data, by who checks it
    with that key: base64 and the JSON of the connection data must round-trip and signatures
    must verify. *)
Theorem response_roundtrip {C : Codec} {V : VcxCodec} {B : ResponseCodec} (E E' : Env) response key s h h1 h2 :
  (forall l, Forall is_byte l -> base64_url_decode (base64_url_encode l) = Some l) ->
  (forall h h' data signature, @answer E _ h (CryptoSign key data) = VOk signature ->
     Forall is_byte data ->
     Forall is_byte signature /\ @answer E' _ h' (CryptoVerify key data signature) = VOk true) ->
  (let text := json_to_string (to_value (rp_connection response)) in
   rust_string text /\
   exists v, json_from_str text = Some v /\ from_value v = Some (rp_connection response)) ->
  encode_response (E := E) response key h = (VOk s, h1) ->
  exists h3, decode_response (E := E') s key h2 = (VOk response, h3).
Proof. apply response_read_back. Qed.

(** Whoever holds the key an invitation names can make the invited agent panic: signed data of
    fewer than eight bytes is cut without a check. *)
Theorem short_signed_data_panics {C : Codec} {V : VcxCodec} {B : ResponseCodec} {E : Env} r key signature data h :
  base64_url_decode (cs_signature (sr_signature r)) = Some signature ->
  base64_url_decode (cs_sig_data (sr_signature r)) = Some data ->
  (forall h, answer h (CryptoVerify key data signature) = VOk true) -> length data < 8 ->
  (decode_response r key h).1 = VPanic.
Proof.
  intros H1 H2 Hv Hl. unfold decode_response, vbind, lift, call, base64_field, read_sig_data.
  rewrite H1, H2, Hv. cbn [negb]. destruct (Nat.ltb_spec (length data) 8); [done|lia].
Qed.

(** ** Concrete packing *)
Module EnvelopeDemo.

(** Texts as the digits of their bits. *)
Definition bit (b : bool) : ascii := if b then "1" else "0".
Fixpoint bits (s : string) : string :=
  match s with
  | EmptyString => ""
  | String (Ascii b0 b1 b2 b3 b4 b5 b6 b7) s' =>
      String (bit b0) (String (bit b1) (String (bit b2) (String (bit b3)
        (String (bit b4) (String (bit b5) (String (bit b6) (String (bit b7) (bits s'))))))))
  end.
Definition unbit (a : ascii) : bool := Ascii.eqb a "1".
Fixpoint unbits (s : string) : string :=
  match s with
  | String a0 (String a1 (String a2 (String a3 (String a4 (String a5 (String a6 (String a7 s'))))))) =>
      String (Ascii (unbit a0) (unbit a1) (unbit a2) (unbit a3) (unbit a4) (unbit a5) (unbit a6) (unbit a7))
        (unbits s')
  | _ => ""
  end.

(** Packed texts are strings of digits; what was unpacked is marked with an [m]; a forward
    message is an [f], the packed text, a semicolon and the key. *)
Definition from_str (s : string) : option Value :=
  match s with
  | String "m" s' => Some (Object [("message", VString (unbits s'))])
  | _ => Some (VString s)
  end.
Definition to_str (v : Value) : string :=
  match v with
  | VString s => s
  | Object [(_, _); (_, VString s); (_, VString to)] => "f" +:+ s +:+ String ";" to
  | _ => ""
  end.
Fixpoint forward_of (seen s : string) : Forward :=
  match s with
  | EmptyString => mkForward "" (VString seen)
  | String a s' =>
      if Ascii.eqb a ";" then mkForward s' (VString seen) else forward_of (seen +:+ String a "") s'
  end.

Definition codec : Codec := {|
  base64_encode := string_of_bytes;
  base64_decode s := Some (as_bytes s);
  from_base58 s := Some (as_bytes s);
  to_base58 := string_of_bytes;
  json_from_str := from_str;
  json_to_string := to_str;
  rmp_to_vec _ := None;
  rmp_to_vec_named _ := None;
  hex_encode := string_of_bytes;
  openssl_hash l := Ok l;
  rlp_items _ := None;
  rlp_encode _ := [];
  sha3_256 l := l
|}.
Definition vcx_codec : VcxCodec := {|
  json_err_debug s := s; json_err_display s := s; value_debug _ := ""; json_to_string_pretty := to_str;
  sha256 l := l; bignum_dec l := Some (string_of_bytes l); bignum_err := ""
|}.
Definition a2a_codec : A2ACodec := {|
  a2a_from_str s :=
    match s with
    | String "f" s' => Some (MForward (forward_of "" s'))
    | _ => Some (Generic (VString s))
    end;
  preview_from_str _ := None;
  a2a_debug _ := ""
|}.
Definition doc_codec : DocCodec :=
  {| url_parse_error _ := None; base58_error s := s; text_debug s := s |}.
Definition debug_codec : DebugCodec := {| did_doc_debug _ := ""; thread_debug _ := "" |}.

Definition pack (sender : option string) (keys : string) (m : bytes) : bytes := as_bytes (bits (string_of_bytes m)).
Definition unpack (key : string) (w : bytes) : option bytes := Some (as_bytes ("m" +:+ string_of_bytes w)).

Lemma unbits_bits s : unbits (bits s) = s.
Proof. induction s as [|[[] [] [] [] [] [] [] []] s IH]; [done|..]; cbn [bits unbits]; by rewrite IH. Qed.

Lemma bits_ascii s : utf8_valid (as_bytes (bits s)) = true.
Proof. induction s as [|[[] [] [] [] [] [] [] []] s IH]; [done|..]; cbn [bits as_bytes]; exact IH. Qed.

Lemma bits_lacks c s : Ascii.eqb "0" c = false -> Ascii.eqb "1" c = false -> lacks c (bits s).
Proof.
  intros H0 H1. induction s as [|[b0 b1 b2 b3 b4 b5 b6 b7] s IH]; [done|]. cbn [bits lacks].
  repeat (split; [by match goal with |- Ascii.eqb (bit ?b) _ = _ => destruct b end|]). done.
Qed.

Lemma forward_of_app seen w to : lacks ";" w ->
  forward_of seen (w +:+ String ";" to) = mkForward to (VString (seen +:+ w)).
Proof.
  revert seen. induction w as [|a w IH]; intros seen Hw.
  - change ("" +:+ String ";" to) with (String ";" to). cbn [forward_of]. by rewrite append_empty_r.
  - destruct Hw as [Ha Hw]. change (String a w +:+ String ";" to) with (String a (w +:+ String ";" to)).
    cbn [forward_of]. by rewrite Ha, IH, append_snoc.
Qed.

(** Packed texts are their own JSON. *)
Lemma packed_json sender keys m :
  json_from_slice (C := codec) (pack sender keys m) = Some (VString (bits (string_of_bytes m))).
Proof.
  unfold json_from_slice, pack, from_utf8. rewrite bits_ascii, string_of_as_bytes. cbn [json_from_str codec].
  by destruct (string_of_bytes m) as [|[[] [] [] [] [] [] [] []] s].
Qed.

Lemma bits_opens key m :
  opens (C := codec) unpack key (as_bytes (bits (string_of_bytes m))) m.
Proof.
  exists (as_bytes ("m" +:+ bits (string_of_bytes m))), (Object [("message", VString (string_of_bytes m))]).
  unfold unpack. rewrite string_of_as_bytes. split; [done|]. split; [|done].
  unfold json_from_slice, from_utf8. change (utf8_valid (as_bytes ("m" +:+ ?s))) with (utf8_valid (as_bytes s)).
  rewrite bits_ascii, string_of_as_bytes.
  change (@json_from_str codec ("m" +:+ ?s)) with (Some (Object [("message", VString (unbits s))])).
  by rewrite unbits_bits.
Qed.

Definition env : Env := {|
  answer T h c :=
    match c in Call T return T with
    | Uuid => "id"
    | SendMessage _ _ => VOk ()
    | SendMessageToSelfEndpoint _ _ => VOk ()
    | GetMessages _ => VOk []
    | GetMessageById _ _ => VOk (Generic Null)
    | UpdateMessageStatus _ _ => VOk ()
    | GetPwDid _ => VOk "did"
    | GetTheirPwVerkey _ => VOk "key"
    | GetCredDefId _ => VOk "def"
    | GetRevRegId _ => VOk None
    | GetTailsFile _ => VOk None
    | GetConfigValue _ => VOk "value"
    | IsStrictAriesProtocolSet => true
    | IssuerCreateCredentialOffer _ => VOk "offer"
    | IssuerCreateCredential _ _ _ _ _ => VOk ("cred", None, None)
    | RevokeCredential _ _ _ => VOk ()
    | ProverCreateCredentialReq _ _ _ => VOk ("req", "meta")
    | ProverStoreCredential _ _ _ _ => VOk "id"
    | ProverDeleteCredential _ => VOk ()
    | ProverGetCredentialsForProofReq _ => VOk "{}"
    | VerifierVerifyProof _ _ _ _ _ _ => VOk true
    | GetCredDefJson _ => VOk ("def", "definition")
    | GetSchemaJson _ => VOk ("schema", "schema")
    | GetRevRegDefJson _ => VOk ("registry", "registry def")
    | GetRevReg _ _ => VOk ("registry", "registry", 0%Z)
    | ToUnqualified s => VOk s
    | GenerateNonce => VOk "1"
    | GenerateIndyProof _ _ _ => VOk "proof"
    | GetTime => 0%Z
    | UtcNow => "now"
    | CreateAndStoreMyDid _ => VOk ("did", "key")
    | CryptoSign _ data => VOk data
    | CryptoVerify _ data signature => VOk (bool_decide (data = signature))
    | PackMessage sender keys m => VOk (pack sender keys m)
    | UnpackMessage w => VOk (default [] (unpack "" w))
    | CreateAgentKeys _ _ => VOk ("agent did", "agent key")
    | PostMessage _ _ => VOk []
    | GetConnectionMessages _ _ _ _ _ _ => VOk []
    | UpdateMessagesReviewed _ _ => VOk ()
    | DeleteConnection _ _ _ _ => VOk ()
    end
|}.

(** Connection data as its DID. *)
Definition response_codec : ResponseCodec := {|
  base64_url_encode := fun l => string_of_bytes l;
  base64_url_decode s := Some (as_bytes s);
  base64_err_debug s := s;
  serde_connection := {| to_value c := VString (cd_did c);
                         from_value v := (fun did => mkConnectionData did doc_default) <$> as_str v |}
|}.
End EnvelopeDemo.

Lemma envelope_reaches_recipient_witness :
  exists w h', envelope_create (C := EnvelopeDemo.codec) (V := EnvelopeDemo.vcx_codec)
      (S := JsonDemo.serde) (G := EnvelopeDemo.debug_codec) (E := EnvelopeDemo.env)
      (Generic (VString "hello")) (Some "bob")
      (built_doc "did" "" ["alice key"] ["mediator"; "agency"]) [] = (VOk w, h') /\
    arrives (C := EnvelopeDemo.codec) (V := EnvelopeDemo.vcx_codec) (A := EnvelopeDemo.a2a_codec)
      EnvelopeDemo.unpack 2 "agency" w "alice key" (Generic (VString "hello")).
Proof.
  apply (envelope_reaches_recipient (C := EnvelopeDemo.codec) (V := EnvelopeDemo.vcx_codec)
    (A := EnvelopeDemo.a2a_codec) (S := JsonDemo.serde) (G := EnvelopeDemo.debug_codec)
    (E := EnvelopeDemo.env) EnvelopeDemo.pack EnvelopeDemo.unpack) with
    (v := VString "hello") (others := []) (routing := ["mediator"; "agency"]); try reflexivity.
  - intros sender keys m. eexists. split; [apply EnvelopeDemo.packed_json|].
    intros key _. split; apply EnvelopeDemo.bits_opens.
  - intros to sender keys m v Hv. rewrite EnvelopeDemo.packed_json in Hv. injection Hv as <-.
    eexists. split; [reflexivity|]. cbn [a2a_from_str EnvelopeDemo.a2a_codec].
    set (s := EnvelopeDemo.bits (string_of_bytes m)).
    change (Some (MForward (EnvelopeDemo.forward_of "" (s +:+ String ";" to))) =
            Some (MForward (mkForward to (VString s)))).
    rewrite EnvelopeDemo.forward_of_app by (by apply EnvelopeDemo.bits_lacks). done.
Defined.

Lemma response_roundtrip_witness :
  let response := mkResponse "id" thread_default (mkConnectionData "did" doc_default) true in
  match encode_response (C := EnvelopeDemo.codec) (B := EnvelopeDemo.response_codec)
          (E := EnvelopeDemo.env) response "key" [] with
  | (VOk s, _) =>
      exists h3, decode_response (C := EnvelopeDemo.codec) (V := EnvelopeDemo.vcx_codec)
        (B := EnvelopeDemo.response_codec) (E := EnvelopeDemo.env) s "key" [] = (VOk response, h3)
  | _ => False
  end.
Proof.
  cbv zeta. destruct (encode_response _ _ _) as [[s| |] h1] eqn:He; [|by vm_compute in He..].
  refine (response_roundtrip EnvelopeDemo.env EnvelopeDemo.env _ "key" s [] h1 [] _ _ _ He).
  - intros l Hl. cbn. by rewrite as_bytes_of_bytes.
  - intros h h' data signature [= <-] Hd. split; [done|]. cbn. by rewrite bool_decide_true.
  - split; [done|]. eexists. by split.
Defined.
