(* ===== verification/DidExchange.v ===== *)
(** * The DID exchange

    [libvcx/src/v3/handlers/connection/]: how two agents connect ([states.rs],
    [messages.rs], [connection.rs]).  The inviter makes an invitation with a key of its own
    and hands it over outside of the protocol; the invitee answers with a request that
    carries its DID document; the inviter answers with a response, signed with the key of
    the invitation, that carries the document of new keys; an acknowledgement completes the
    inviter.  A completed connection answers pings and discovery queries.

    [DidExchangeState] has the states of the code, [step] its transitions, [update_state] the
    reading of the mailboxes.  What an environment answers is arbitrary. *)

From stdpp Require Import base list strings numbers gmap.
From Stdlib Require Import ZArith Lia.
From S2P Require Import Prelude Json Trie External ProofRequest VcxErrors DidDoc MessageType A2A A2AJson VcxMonad Agent.

Open Scope string_scope.

(** ** Messages *)
Inductive DidExchangeMessages :=
  | Connect
  | InvitationReceived (invitation : Invitation)
  | ExchangeRequestReceived (request : ConnRequest)
  | ExchangeResponseReceived (response : SignedResponse)
  | AckReceived (ack : Ack)
  | ProblemReportReceived (report : ConnProblemReport)
  | SendPing (comment : option string)
  | PingReceived (ping : Ping)
  | PingResponseReceived (pong : PingResponse)
  | DiscoverFeatures (query comment : option string)
  | QueryReceived (query : Query)
  | DiscloseReceived (disclose : Disclose)
  | UnknownMessage.

(** [impl From<A2AMessage> for DidExchangeMessages]. *)
Definition exchange_message (msg : A2AMessage) : DidExchangeMessages :=
  match msg with
  | ConnectionInvitation invite => InvitationReceived invite
  | ConnectionRequest request => ExchangeRequestReceived request
  | ConnectionResponse response => ExchangeResponseReceived response
  | MPing ping => PingReceived ping
  | MPingResponse pong => PingResponseReceived pong
  | MAck ack => AckReceived ack
  | MQuery query => QueryReceived query
  | MDisclose disclose => DiscloseReceived disclose
  | ConnectionProblemReport report => ProblemReportReceived report
  | _ => UnknownMessage
  end.

(** ** States *)
Record RequestedState := mkRequested { rq_request : ConnRequest; rq_did_doc : DidDoc }.
Record RespondedState := mkResponded {
  rd_response : SignedResponse; rd_did_doc : DidDoc; rd_prev_agent_info : AgentInfo
}.
Record CompleteState := mkComplete { c_did_doc : DidDoc; c_protocols : option (list ProtocolDescriptor) }.

Inductive DidExchangeState :=
  | SNull
  | Invited (invitation : Invitation)
  | Requested (s : RequestedState)
  | Responded (s : RespondedState)
  | Completed (s : CompleteState).

Inductive ActorDidExchangeState := AsInviter (s : DidExchangeState) | AsInvitee (s : DidExchangeState).
Inductive Actor := RoleInviter | RoleInvitee.

Record DidExchangeSM := mkDidExchangeSM {
  source_id : string; agent_info : AgentInfo; state : ActorDidExchangeState
}.

Definition exchange_code (s : DidExchangeState) : Z :=
  match s with
  | SNull => VcxStateInitialized
  | Invited _ => VcxStateOfferSent
  | Requested _ => VcxStateRequestReceived
  | Responded _ => VcxStateRequestReceived
  | Completed _ => VcxStateAccepted
  end.

(** The conversions between the states that carry data. *)
Definition requested_of (invitation : Invitation) (request : ConnRequest) : RequestedState :=
  mkRequested request (doc_of_invitation invitation).
Definition responded_of (request : ConnRequest) (response : SignedResponse) (prev : AgentInfo) : RespondedState :=
  mkResponded response (cd_did_doc (rq_connection request)) prev.
Definition complete_of_response (response : Response) : CompleteState :=
  mkComplete (cd_did_doc (rp_connection response)) None.
Definition complete_of_responded (s : RespondedState) : CompleteState := mkComplete (rd_did_doc s) None.
Definition complete_with_protocols (s : CompleteState) (protocols : list ProtocolDescriptor) : CompleteState :=
  mkComplete (c_did_doc s) (Some protocols).

Definition exchange_new (actor : Actor) (source_id : string) : DidExchangeSM :=
  match actor with
  | RoleInviter => mkDidExchangeSM source_id agent_default (AsInviter SNull)
  | RoleInvitee => mkDidExchangeSM source_id agent_default (AsInvitee SNull)
  end.

Definition exchange_state (sm : DidExchangeSM) : Z :=
  match state sm with AsInviter s | AsInvitee s => exchange_code s end.

(** One iteration of the loop of [find_message_to_handle]; threads are not looked at. *)
Definition relevant (s : ActorDidExchangeState) (message : A2AMessage) : option A2AMessage :=
  match s with
  | AsInviter (Invited _) =>
      match message with
      | ConnectionRequest _ | ConnectionProblemReport _ => Some message
      | _ => None
      end
  | AsInvitee (Requested _) =>
      match message with
      | ConnectionResponse _ | ConnectionProblemReport _ => Some message
      | _ => None
      end
  | AsInviter (Responded _) =>
      match message with
      | MAck _ | MPing _ | MPingResponse _ | ConnectionProblemReport _ => Some message
      | _ => None
      end
  | AsInviter (Completed _) | AsInvitee (Completed _) =>
      match message with
      | MPing _ | MPingResponse _ | MQuery _ | MDisclose _ => Some message
      | _ => None
      end
  | _ => None
  end.

Definition exchange_did_doc (sm : DidExchangeSM) : option DidDoc :=
  match state sm with
  | AsInviter s | AsInvitee s =>
      match s with
      | SNull => None
      | Invited invitation => Some (doc_of_invitation invitation)
      | Requested s => Some (rq_did_doc s)
      | Responded s => Some (rd_did_doc s)
      | Completed s => Some (c_did_doc s)
      end
  end.

Definition get_invitation (sm : DidExchangeSM) : option Invitation :=
  match state sm with AsInviter (Invited i) | AsInvitee (Invited i) => Some i | _ => None end.
Definition get_remote_protocols (sm : DidExchangeSM) : option (list ProtocolDescriptor) :=
  match state sm with AsInviter (Completed s) | AsInvitee (Completed s) => c_protocols s | _ => None end.
Definition prev_agent_info (sm : DidExchangeSM) : option AgentInfo :=
  match state sm with AsInviter (Responded s) => Some (rd_prev_agent_info s) | _ => None end.
Definition actor (sm : DidExchangeSM) : Actor :=
  match state sm with AsInviter _ => RoleInviter | AsInvitee _ => RoleInvitee end.

Definition remote_did (sm : DidExchangeSM) : VcxResult string :=
  ok_or (dd_id <$> exchange_did_doc sm) (from_msg VcxErrorKind.NotReady "Remote Connection DID is not set").
Definition remote_vk (sm : DidExchangeSM) : VcxResult string :=
  ok_or (d ← exchange_did_doc sm; head (doc_recipient_keys d))
    (from_msg VcxErrorKind.NotReady "Remote Connection Verkey is not set").

(** [settings::get_actors] reads a list of actors; the JSON of a [ConnectionInfo]. *)
Record SideConnectionInfo := mkSideConnectionInfo {
  side_did : string; side_recipient_keys : list string; side_routing_keys : list string;
  side_endpoint : string; side_protocols : option (list ProtocolDescriptor)
}.
Class ConnCodec := {
  actors_from_str : string -> option (list Actors);
  connection_info_json : SideConnectionInfo -> option SideConnectionInfo -> string
}.

Section Machine.
Context {C : Codec} {V : VcxCodec} {D : DocCodec} {A : A2ACodec} {S : A2ASerde} {G : DebugCodec}.
Context {R : RegexCodec} {B : ResponseCodec} {K : ConnCodec} {H : HashOrder} {E : Env}.

(** ** Handlers *)
Definition get_actors : Vcx (list Actors) :=
  let* config := ok (call (GetConfigValue "actors")) in
  ret match config with Some text => default all_actors (actors_from_str text) | None => all_actors end.

(** [InvitedState::handle_connection_request]. *)
Definition handle_connection_request (request : ConnRequest) (agent_info : AgentInfo) :
    Vcx (SignedResponse * AgentInfo) :=
  let* _ := lift (validate (cd_did_doc (rq_connection request))) in
  let prev_agent_info := agent_info in
  let* new_agent_info := create_agent in
  let* id := uuid in
  let* endpoint := agency_endpoint in
  let* routing := agent_routing_keys new_agent_info in
  let response := new_response id (pw_did new_agent_info) endpoint
                    (agent_recipient_keys new_agent_info) routing (rq_id request) in
  let* signed_response := encode_response response (pw_vk prev_agent_info) in
  let* _ := agent_send_message new_agent_info (ConnectionResponse signed_response)
              (cd_did_doc (rq_connection request)) in
  ret (signed_response, new_agent_info).

(** [RequestedState::handle_connection_response]. *)
Definition handle_connection_response (s : RequestedState) (response : SignedResponse) (agent_info : AgentInfo) :
    Vcx Response :=
  let* remote_vk :=
    lift (ok_or (head (doc_recipient_keys (rq_did_doc s)))
            (from_msg VcxErrorKind.InvalidState "Cannot handle Response: Remote Verkey not found")) in
  let* response := decode_response response remote_vk in
  if negb (is_reply (rp_thread response) (rq_id (rq_request s)))
  then fail (from_msg VcxErrorKind.InvalidJson
               ("Cannot handle Response: thread id does not match: " +:+ thread_debug (rp_thread response)))
  else
    let* id := uuid in
    let thread := default "" (thid (rp_thread response)) in
    let message :=
      if rp_please_ack response then MAck (new_ack id thread)
      else MPing (mkPing id false None (Some (set_thid thread_default thread))) in
    let* _ := agent_send_message agent_info message (cd_did_doc (rp_connection response)) in
    ret response.

Definition _handle_ping (ping : Ping) (agent_info : AgentInfo) (did_doc : DidDoc) : Vcx unit :=
  if ping_response_requested ping then
    let* id := uuid in
    let thread := default (ping_id ping) (thread ← ping_thread ping; thid thread) in
    agent_send_message agent_info (MPingResponse (mkPingResponse id None (set_thid thread_default thread))) did_doc
  else ret ().

(** A ping of one's own; whether it could be sent does not matter. *)
Definition handle_send_ping (comment : option string) (agent_info : AgentInfo) (did_doc : DidDoc) : Vcx unit :=
  let* id := uuid in
  let* _ := ok (agent_send_message agent_info (MPing (mkPing id true comment None)) did_doc) in
  ret ().

Definition handle_discover_features (query comment : option string) (agent_info : AgentInfo)
    (did_doc : DidDoc) : Vcx unit :=
  let* id := uuid in
  agent_send_message agent_info (MQuery (mkQuery id query comment)) did_doc.

Definition handle_discovery_query (query : Query) (agent_info : AgentInfo) (did_doc : DidDoc) : Vcx unit :=
  let* actors := get_actors in
  let protocols := get_protocols_for_query (registry_init actors) (query_query query) in
  let* id := uuid in
  agent_send_message agent_info
    (MDisclose (mkDisclose id protocols (set_thid thread_default (query_id query)))) did_doc.

(** [CompleteState::handle_message]. *)
Definition handle_completed (s : CompleteState) (message : DidExchangeMessages) (agent_info : AgentInfo) :
    Vcx DidExchangeState :=
  match message with
  | SendPing comment => let* _ := handle_send_ping comment agent_info (c_did_doc s) in ret (Completed s)
  | PingReceived ping => let* _ := _handle_ping ping agent_info (c_did_doc s) in ret (Completed s)
  | DiscoverFeatures query comment =>
      let* _ := handle_discover_features query comment agent_info (c_did_doc s) in ret (Completed s)
  | QueryReceived query => let* _ := handle_discovery_query query agent_info (c_did_doc s) in ret (Completed s)
  | DiscloseReceived disclose => ret (Completed (complete_with_protocols s (disclose_protocols disclose)))
  | _ => ret (Completed s)
  end.

(** ** The step of the machine *)

(** [ProblemReport::create()..], sent if possible. *)
Definition send_report (agent_info : AgentInfo) (code : ProblemCode) (err : VcxError) (thread : string)
    (did_doc : DidDoc) : Vcx unit :=
  let* id := uuid in
  let* _ := ok (agent_send_message agent_info
                  (ConnectionProblemReport (new_conn_report id code (err_to_string err) thread)) did_doc) in
  ret ().

Definition step_inviter (source_id : string) (agent_info : AgentInfo) (s : DidExchangeState)
    (message : DidExchangeMessages) : Vcx (AgentInfo * DidExchangeState) :=
  match s with
  | SNull =>
      match message with
      | Connect =>
          let* agent_info := create_agent in
          let* id := uuid in
          let* endpoint := agency_endpoint in
          let* routing := agent_routing_keys agent_info in
          ret (agent_info,
               Invited (mkInvitation id source_id (agent_recipient_keys agent_info) routing endpoint))
      | _ => ret (agent_info, SNull)
      end
  | Invited invitation =>
      match message with
      | ExchangeRequestReceived request =>
          attempt (handle_connection_request request agent_info)
            (fun '(response, new_agent_info) =>
               ret (new_agent_info, Responded (responded_of request response agent_info)))
            (fun err =>
               let* _ := send_report agent_info RequestProcessingError err (rq_id request)
                           (cd_did_doc (rq_connection request)) in
               ret (agent_info, SNull))
      | ProblemReportReceived _ => ret (agent_info, SNull)
      | _ => ret (agent_info, Invited invitation)
      end
  | Requested s => ret (agent_info, Requested s)
  | Responded s =>
      match message with
      | AckReceived _ => ret (agent_info, Completed (complete_of_responded s))
      | PingReceived ping =>
          let* _ := _handle_ping ping agent_info (rd_did_doc s) in
          ret (agent_info, Completed (complete_of_responded s))
      | ProblemReportReceived _ => ret (agent_info, SNull)
      | SendPing comment =>
          let* _ := handle_send_ping comment agent_info (rd_did_doc s) in
          ret (agent_info, Responded s)
      | PingResponseReceived _ => ret (agent_info, Completed (complete_of_responded s))
      | _ => ret (agent_info, Responded s)
      end
  | Completed s => let* s' := handle_completed s message agent_info in ret (agent_info, s')
  end.

Definition step_invitee (source_id : string) (agent_info : AgentInfo) (s : DidExchangeState)
    (message : DidExchangeMessages) : Vcx (AgentInfo * DidExchangeState) :=
  match s with
  | SNull =>
      match message with
      | InvitationReceived invitation => ret (agent_info, Invited invitation)
      | _ => ret (agent_info, SNull)
      end
  | Invited invitation =>
      match message with
      | Connect =>
          let* agent_info := create_agent in
          let* id := uuid in
          let* endpoint := agency_endpoint in
          let* routing := agent_routing_keys agent_info in
          let request := new_request id source_id (pw_did agent_info) endpoint
                           (agent_recipient_keys agent_info) routing in
          let* _ := agent_send_message agent_info (ConnectionRequest request) (doc_of_invitation invitation) in
          ret (agent_info, Requested (requested_of invitation request))
      | ProblemReportReceived _ => ret (agent_info, SNull)
      | _ => ret (agent_info, Invited invitation)
      end
  | Requested s =>
      match message with
      | ExchangeResponseReceived response =>
          attempt (handle_connection_response s response agent_info)
            (fun response => ret (agent_info, Completed (complete_of_response response)))
            (fun err =>
               let* _ := send_report agent_info ResponseProcessingError err (rq_id (rq_request s))
                           (rq_did_doc s) in
               ret (agent_info, SNull))
      | ProblemReportReceived _ => ret (agent_info, SNull)
      | _ => ret (agent_info, Requested s)
      end
  | Responded s => ret (agent_info, Responded s)
  | Completed s => let* s' := handle_completed s message agent_info in ret (agent_info, s')
  end.

Definition step (message : DidExchangeMessages) (sm : DidExchangeSM) : Vcx DidExchangeSM :=
  match state sm with
  | AsInviter s =>
      let* (info, s') := step_inviter (source_id sm) (agent_info sm) s message in
      ret (mkDidExchangeSM (source_id sm) info (AsInviter s'))
  | AsInvitee s =>
      let* (info, s') := step_invitee (source_id sm) (agent_info sm) s message in
      ret (mkDidExchangeSM (source_id sm) info (AsInvitee s'))
  end.

(** ** The object of the interface ([connection.rs]) *)

(** [Connection::create] and [create_with_invite]. *)
Definition create (source_id : string) : DidExchangeSM := exchange_new RoleInviter source_id.
Definition create_with_invite (source_id : string) (invitation : Invitation) : Vcx DidExchangeSM :=
  step (InvitationReceived invitation) (exchange_new RoleInvitee source_id).

Definition handle_message (message : DidExchangeMessages) : Obj DidExchangeSM unit := commit (step message).

Definition update_state_with_message (message : string) : Obj DidExchangeSM unit :=
  match a2a_from_str message with
  | Some message => handle_message (exchange_message message)
  | None => reading (fun _ => fail (from_msg VcxErrorKind.InvalidOption
      ("Cannot updated state with messages: Message deserialization failed: " +:+ json_err_debug message)))
  end.

(** One mailbox: the first message that matters is handled, and then marked as reviewed. *)
Definition handle_mailbox (info : AgentInfo) (messages : gmap string A2AMessage) : Obj DidExchangeSM unit :=
  fun sm h =>
    match find_message (relevant (state sm)) (iter messages) with
    | Some (uid, message) =>
        obj_bind (handle_message (exchange_message message))
          (fun _ => reading (fun _ => agent_update_message_status info uid)) sm h
    | None => (VOk (), sm, h)
    end.

Definition update_state (message : option string) : Obj DidExchangeSM unit :=
  match message with
  | Some message => update_state_with_message message
  | None =>
      do* messages := reading (fun sm => agent_get_messages (agent_info sm)) in
      do* info := (fun sm h => (VOk (agent_info sm), sm, h)) in
      do* _ := handle_mailbox info messages in
      do* prev := (fun sm h => (VOk (prev_agent_info sm), sm, h)) in
      match prev with
      | Some prev_agent_info =>
          do* messages := reading (fun _ => agent_get_messages prev_agent_info) in
          handle_mailbox prev_agent_info messages
      | None => obj_ret ()
      end
  end.

(** Sending on the connection. *)
Definition connection_send_message (message : A2AMessage) (sm : DidExchangeSM) : Vcx unit :=
  let* did_doc := lift (ok_or (exchange_did_doc sm)
    (from_msg VcxErrorKind.NotReady "Cannot send message: Remote Connection information is not set")) in
  agent_send_message (agent_info sm) message did_doc.

Definition parse_generic_message (message : string) : Vcx A2AMessage :=
  match a2a_from_str message with
  | Some a2a_message => ret a2a_message
  | None =>
      let* id := uuid in
      let* now := ask UtcNow in
      ret (MBasicMessage (mkBasicMessage id now message None))
  end.

Definition send_generic_message (message : string) (sm : DidExchangeSM) : Vcx string :=
  let* message := parse_generic_message message in
  let* _ := connection_send_message message sm in
  ret "".

(** [Connection::decode_message]; the version 1 payload carries the text of the message. *)
Definition connection_decode_message (payload_msg : string -> option string) (message : AgentMessage) :
    Vcx A2AMessage :=
  match am_decrypted_payload message with
  | Some payload =>
      let* msg := lift (ok_or (payload_msg payload)
        (from_msg VcxErrorKind.InvalidJson ("Cannot deserialize message: " +:+ json_err_display payload))) in
      lift (ok_or (a2a_from_str msg)
        (from_msg VcxErrorKind.InvalidJson ("Cannot deserialize A2A message: " +:+ json_err_display msg)))
  | None => agent_decode_message message
  end.

Definition get_invite_details (sm : DidExchangeSM) : Vcx string :=
  match get_invitation sm with
  | Some invitation => let* v := lift (serialize (ConnectionInvitation invitation)) in ret (json_to_string v)
  | None =>
      match exchange_did_doc sm with
      | Some did_doc =>
          let* _ := uuid in
          ret (json_to_string (to_value (invitation_of_doc did_doc)))
      | None => ret (json_to_string (Object []))
      end
  end.

Definition get_connection_info (sm : DidExchangeSM) : Vcx string :=
  let* routing := agent_routing_keys (agent_info sm) in
  let* endpoint := agency_endpoint in
  let* actors := get_actors in
  let current := mkSideConnectionInfo (pw_did (agent_info sm)) (agent_recipient_keys (agent_info sm))
                   routing endpoint (Some (registry_init actors)) in
  let remote :=
    (fun did_doc => mkSideConnectionInfo (dd_id did_doc) (doc_recipient_keys did_doc)
       (doc_routing_keys did_doc) (get_endpoint did_doc) (get_remote_protocols sm)) <$> exchange_did_doc sm in
  ret (connection_info_json current remote).

(** What a user of the interface can call on a connection, reading apart. *)
Inductive Op :=
  | OpProcessInvite (invitation : Invitation)
  | OpConnect
  | OpUpdate (message : option string)
  | OpHandle (message : DidExchangeMessages)
  | OpSendPing (comment : option string)
  | OpDiscover (query comment : option string)
  | OpSend (message : A2AMessage)
  | OpSendGeneric (message : string)
  | OpDelete.

Definition api (op : Op) : Obj DidExchangeSM unit :=
  match op with
  | OpProcessInvite invitation => handle_message (InvitationReceived invitation)
  | OpConnect => handle_message Connect
  | OpUpdate message => update_state message
  | OpHandle message => handle_message message
  | OpSendPing comment => handle_message (SendPing comment)
  | OpDiscover query comment => handle_message (DiscoverFeatures query comment)
  | OpSend message => reading (connection_send_message message)
  | OpSendGeneric message => reading (fun sm => let* _ := send_generic_message message sm in ret ())
  | OpDelete => reading (fun sm => agent_delete (agent_info sm))
  end.

(** The states a connection can be in, with what was called until then. *)
Inductive reachable : DidExchangeSM -> history -> Prop :=
  | reachable_new actor source_id : reachable (exchange_new actor source_id) []
  | reachable_call op sm h : reachable sm h -> reachable (api op sm h).1.2 (api op sm h).2.
End Machine.
