(* ===== verification/DidExchangeSafety.v ===== *)
(** * What a connection knows

    Invariants of the DID exchange ([DidExchange.v]) over everything a user and the
    environment can do.  A completed invitee holds a document that was signed with the key of
    the invitation it answered ([invitee_knows_inviter]); a completed inviter holds a valid
    document, whose owner it sent its new keys to, signed with the key of its invitation
    ([inviter_answered_invitee]). *)

From stdpp Require Import base list strings numbers gmap.
From Stdlib Require Import ZArith Lia.
From S2P Require Import Prelude Json Trie External ProofRequest VcxErrors DidDoc MessageType A2A A2AJson VcxMonad Agent DidExchange.

Open Scope string_scope.

Section Safety.
Context {C : Codec} {V : VcxCodec} {D : DocCodec} {A : A2ACodec} {S : A2ASerde} {G : DebugCodec}.
Context {R : RegexCodec} {B : ResponseCodec} {K : ConnCodec} {H : HashOrder} {E : Env}.
Implicit Types h : history.

(** ** What the history tells *)

(** A message was packed with the key of an agent for the recipients of a document. *)
Definition packed_for (a : AgentInfo) (message : A2AMessage) (did_doc : DidDoc) h : Prop :=
  exists v w, serialize message = VOk v /\
    ev (PackMessage (Some (pw_vk a)) (keys_json (doc_recipient_keys did_doc))
          (as_bytes (json_to_string v))) (VOk w) ∈ h.

(** The keys of an agent were made for this connection. *)
Definition own_keys (a : AgentInfo) h : Prop :=
  exists method, ev (CreateAndStoreMyDid method) (VOk (pw_did a, pw_vk a)) ∈ h.

(** The connection data an agent announces. *)
Definition announces (a : AgentInfo) (data : ConnectionData) : Prop :=
  cd_did data = pw_did a /\
  exists endpoint routing, cd_did_doc data = built_doc (pw_did a) endpoint [pw_vk a] routing.

(** The invitee's request for an invitation. *)
Definition requested_by (a : AgentInfo) (invitation : Invitation) (request : ConnRequest) h : Prop :=
  own_keys a h /\ announces a (rq_connection request) /\
  packed_for a (ConnectionRequest request) (doc_of_invitation invitation) h.

(** The key of an invitation: the first of its recipients. *)
Definition invitation_key (invitation : Invitation) : option string :=
  head (doc_recipient_keys (doc_of_invitation invitation)).

(** A document was signed with a key, and the reply to its owner is in the thread. *)
Definition confirmed (a : AgentInfo) (key thread : string) (did_doc : DidDoc) h : Prop :=
  exists data signature connection message,
    ev (CryptoVerify key data signature) (VOk true) ∈ h /\
    read_sig_data data = VOk connection /\ did_doc = cd_did_doc connection /\
    packed_for a message did_doc h /\
    match message with
    | MAck ack => default "" (thid (ack_thread ack)) = thread
    | MPing ping => (t ← ping_thread ping; thid t) = Some thread
    | _ => False
    end.

(** A request with this document was answered with a response in its thread that announces
    the keys of [a] and was signed with a key. *)
Definition answered (a : AgentInfo) (key : string) (did_doc : DidDoc) h : Prop :=
  exists now connection request signature response,
    did_doc = cd_did_doc (rq_connection request) /\ validate did_doc = VOk () /\
    own_keys a h /\ announces a connection /\
    ev (CryptoSign key (be_bytes now ++ as_bytes (json_to_string (to_value connection))))
      (VOk signature) ∈ h /\
    cs_sig_data (sr_signature response) =
      base64_url_encode (be_bytes now ++ as_bytes (json_to_string (to_value connection))) /\
    thid (sr_thread response) = Some (rq_id request) /\
    packed_for a (ConnectionResponse response) did_doc h.

(** ** The invariants *)
Definition invitee_inv (a : AgentInfo) (s : DidExchangeState) h : Prop :=
  match s with
  | SNull | Invited _ => True
  | Requested s =>
      exists invitation, rq_did_doc s = doc_of_invitation invitation /\
        requested_by a invitation (rq_request s) h
  | Responded _ => False
  | Completed s =>
      exists invitation request key, requested_by a invitation request h /\
        invitation_key invitation = Some key /\ confirmed a key (rq_id request) (c_did_doc s) h
  end.

Definition inviter_inv (a : AgentInfo) (s : DidExchangeState) h : Prop :=
  match s with
  | SNull => True
  | Invited invitation => own_keys a h /\ inv_recipient_keys invitation = [pw_vk a]
  | Requested _ => False
  | Responded s =>
      own_keys (rd_prev_agent_info s) h /\ answered a (pw_vk (rd_prev_agent_info s)) (rd_did_doc s) h
  | Completed s => exists prev, own_keys prev h /\ answered a (pw_vk prev) (c_did_doc s) h
  end.

Definition exchange_inv (sm : DidExchangeSM) h : Prop :=
  match state sm with
  | AsInviter s => inviter_inv (agent_info sm) s h
  | AsInvitee s => invitee_inv (agent_info sm) s h
  end.

Lemma packed_mono a m d h h' : h ⊆ h' -> packed_for a m d h -> packed_for a m d h'.
Proof using. intros Hh (v & w & Hv & Hw). exists v, w. auto. Qed.

Lemma own_keys_mono a h h' : h ⊆ h' -> own_keys a h -> own_keys a h'.
Proof using. intros Hh (m & Hm). exists m. auto. Qed.

Lemma requested_mono a i q h h' : h ⊆ h' -> requested_by a i q h -> requested_by a i q h'.
Proof using. intros Hh (H1 & H2 & H3). repeat split; [by eapply own_keys_mono|apply H2..|by eapply packed_mono]. Qed.

Lemma confirmed_mono a k t d h h' : h ⊆ h' -> confirmed a k t d h -> confirmed a k t d h'.
Proof using.
  intros Hh (data & sig & conn & m & H1 & H2 & H3 & H4 & H5). exists data, sig, conn, m.
  repeat split; auto. by eapply packed_mono.
Qed.

Lemma answered_mono a k d h h' : h ⊆ h' -> answered a k d h -> answered a k d h'.
Proof using.
  intros Hh (now & conn & q & sig & r & H1 & H2 & H3 & H4 & H5 & H6 & H7 & H8).
  exists now, conn, q, sig, r. repeat (split; [first [done|by eapply own_keys_mono|by apply Hh]|]).
  by eapply packed_mono.
Qed.

Lemma exchange_inv_mono sm h h' : h ⊆ h' -> exchange_inv sm h -> exchange_inv sm h'.
Proof using.
  intros Hh. unfold exchange_inv, inviter_inv, invitee_inv.
  destruct (state sm) as [[]|[]]; try done.
  - intros [H1 H2]. eauto using own_keys_mono.
  - intros [H1 H2]. eauto using own_keys_mono, answered_mono.
  - intros (p & H1 & H2). eauto using own_keys_mono, answered_mono.
  - intros (i & H1 & H2). eauto using requested_mono.
  - intros (i & q & k & H1 & H2 & H3). exists i, q, k. eauto using requested_mono, confirmed_mono.
Qed.

(** ** Programs extend the history *)
Lemma extends_ok {T} (m : Vcx T) : extends m -> extends (ok m).
Proof using. intros Hm. unfold ok. extends. Qed.

Lemma extends_uuid : extends uuid.
Proof using. apply extends_ask. Qed.
#[local] Hint Resolve extends_ok extends_uuid : vcx.

Lemma extends_wrap_all message to routing : extends (wrap_all message to routing).
Proof using.
  revert message to. induction routing as [|k routing IH]; intros message to; cbn [wrap_all]; [extends|].
  unfold wrap_into_forward. extends.
Qed.
#[local] Hint Resolve extends_wrap_all : vcx.

Lemma extends_send a m d : extends (agent_send_message a m d).
Proof using.
  unfold agent_send_message, envelope_create, encrypt_for_pairwise, wrap_into_forward_messages. extends.
Qed.
#[local] Hint Resolve extends_send : vcx.

Lemma extends_handle_ping p a d : extends (_handle_ping p a d).
Proof using. unfold _handle_ping. extends. Qed.

Lemma extends_send_ping c a d : extends (handle_send_ping c a d).
Proof using. unfold handle_send_ping. extends. Qed.

Lemma extends_report a c e t d : extends (send_report a c e t d).
Proof using. unfold send_report. extends. Qed.
#[local] Hint Resolve extends_handle_ping extends_send_ping extends_report : vcx.

Lemma extends_completed s m a : extends (handle_completed s m a).
Proof using.
  unfold handle_completed, handle_discover_features, handle_discovery_query, get_actors. extends.
Qed.

Lemma extends_get_messages a : extends (agent_get_messages a).
Proof using.
  unfold agent_get_messages. extends. generalize (∅ : gmap string A2AMessage).
  induction a0 as [|m l IH]; intros acc; cbn [decode_all]; [extends|].
  unfold agent_decode_message, envelope_open. extends.
Qed.
#[local] Hint Resolve extends_completed extends_get_messages : vcx.

(** ** Sending and making keys *)
Lemma agent_send_wp a m d (Q : VcxResult unit -> history -> Prop) h :
  (forall r h', h ⊆ h' -> (r = VOk () -> packed_for a m d h') -> Q r h') ->
  wp (agent_send_message a m d) Q h.
Proof using.
  intros HQ. unfold agent_send_message, envelope_create, encrypt_for_pairwise.
  do 3 apply wp_bind.
  eapply (wp_mono _ (fun r h' => h ⊆ h' /\ forall text, r = VOk text -> exists v, serialize m = VOk v /\ text = json_to_string v)).
  - intros [text| |] h1 [Hh Ht]; [|apply HQ; [done|discriminate]..].
    apply wp_call. destruct (Ht text eq_refl) as (v & Hv & ->). intros r. destruct r as [w| |];
      [|apply HQ; [set_solver|discriminate]..].
    apply wp_extends; [unfold wrap_into_forward_messages; extends|].
    intros r h2 Hh2. assert (packed_for a m d h2) as Hp by (exists v, w; split; [done|apply Hh2; left]).
    assert (h ⊆ h2) by set_solver.
    destruct r as [w'| |]; [|apply HQ; done..]. apply wp_bind, wp_call. intros r.
    assert (forall r, packed_for a m d (ev (PostMessage w' (get_endpoint d)) r :: h2)) as Hp'
      by (intros; eapply packed_mono; [|exact Hp]; set_solver).
    destruct r; [apply wp_ret|..]; apply HQ; auto; set_solver.
  - destruct m; cycle -1.
    { apply wp_ret. split; [done|]. intros ? [= <-]. eexists. by split. }
    all: apply wp_bind, wp_lift; destruct (serialize _) as [v| |] eqn:Hs; [|by split..].
    all: apply wp_ret; split; [done|]; intros ? [= <-]; by eexists.
Qed.

(** New keys; the rest of a program that makes them. *)
Lemma create_agent_wp (Q : VcxResult AgentInfo -> history -> Prop) h :
  (forall r h', h ⊆ h' -> (forall a, r = VOk a -> own_keys a h') -> Q r h') -> wp create_agent Q h.
Proof using.
  intros HQ. unfold create_agent. apply wp_bind.
  apply wp_extends; [extends|]. intros [method| |] h1 Hh1; [|apply HQ; done..].
  apply wp_bind, wp_call. intros [[did vk]| |]; [|apply HQ; [set_solver|discriminate]..].
  apply wp_bind, wp_call. intros [[adid avk]| |]; [|apply HQ; [set_solver|discriminate]..].
  apply wp_ret, HQ; [set_solver|]. intros ? [= <-]. exists method. cbn. right. left.
Qed.

Lemma extends_create_agent : extends create_agent.
Proof using. unfold create_agent. extends. Qed.
#[local] Hint Resolve extends_create_agent : vcx.

(** ** The two handlers *)

(** Binds a program of which only the growth of the history matters. *)
Ltac skip := apply wp_bind; apply wp_extends; [unfold agency_endpoint, agent_routing_keys; solve [extends]|].

Lemma connection_request_wp request a (Q : VcxResult (SignedResponse * AgentInfo) -> history -> Prop) h :
  (forall r h', h ⊆ h' ->
     (forall resp a', r = VOk (resp, a') -> answered a' (pw_vk a) (cd_did_doc (rq_connection request)) h') ->
     Q r h') ->
  wp (handle_connection_request request a) Q h.
Proof using.
  intros HQ. unfold handle_connection_request. apply wp_bind, wp_lift.
  destruct (validate _) as [[]| |] eqn:Hval; [|apply HQ; done..].
  apply wp_bind, create_agent_wp. intros [a'| |] h1 Hh1 Hown; [|apply HQ; done..].
  specialize (Hown _ eq_refl).
  skip. intros [id| |] h2 Hh2; [|apply HQ; [set_solver|done]..].
  skip. intros [endpoint| |] h3 Hh3; [|apply HQ; [set_solver|done]..].
  skip. intros [routing| |] h4 Hh4; [|apply HQ; [set_solver|done]..].
  apply wp_bind. unfold encode_response. apply wp_bind, wp_ask. intros now. cbn beta iota.
  apply wp_bind, wp_call. intros [signature| |]; [|apply HQ; [set_solver|done]..].
  apply wp_ret, wp_bind, agent_send_wp. intros [[]| |] h5 Hh5 Hp; [|apply HQ; [set_solver|done]..].
  apply wp_ret, HQ; [set_solver|]. intros ? ? [= <- <-].
  eexists (_ mod 2 ^ 64)%Z, _, request, signature, _. split; [done|]. split; [done|].
  split; [eapply own_keys_mono; [|exact Hown]; set_solver|].
  split; cycle 1.
  { split; [apply Hh5; left|]. split; cycle 1.
    { split; cycle 1; [by apply Hp|done]. }
    done. }
  split; [done|]. exists endpoint, routing. apply set_keys_built.
Qed.

Lemma connection_response_wp s response a (Q : VcxResult Response -> history -> Prop) h :
  (forall r h', h ⊆ h' ->
     (forall resp, r = VOk resp ->
        exists key, head (doc_recipient_keys (rq_did_doc s)) = Some key /\
          confirmed a key (rq_id (rq_request s)) (cd_did_doc (rp_connection resp)) h') ->
     Q r h') ->
  wp (handle_connection_response s response a) Q h.
Proof using.
  intros HQ. unfold handle_connection_response. apply wp_bind, wp_lift.
  destruct (head _) as [key|] eqn:Hkey; cbn [ok_or]; [|apply HQ; done].
  apply wp_bind. unfold decode_response. apply wp_bind, wp_lift.
  destruct (base64_field _) as [signature| |]; [|apply HQ; done..].
  apply wp_bind, wp_lift. destruct (base64_field _) as [data| |]; [|apply HQ; done..].
  apply wp_bind, wp_call. intros [[]| |]; [|apply HQ; [set_solver|done]..]. cbn [negb].
  apply wp_bind, wp_lift. destruct (read_sig_data data) as [connection| |] eqn:Hread; [|apply HQ; [set_solver|done]..].
  apply wp_ret. cbn [rp_thread rp_please_ack rp_connection].
  destruct (is_reply _ _) eqn:Hreply; cbn [negb]; [|apply wp_lift, HQ; [set_solver|done]].
  apply String.eqb_eq in Hreply.
  apply wp_bind, wp_ask. intros id. apply wp_bind, agent_send_wp.
  intros [[]| |] h1 Hh1 Hp; [|apply HQ; [set_solver|done]..].
  apply wp_ret, HQ; [set_solver|]. intros resp [= <-]. exists key. split; [done|]. cbn.
  exists data, signature, connection. eexists. split; [apply Hh1; right; left|].
  split; [done|]. split; [done|]. split; [by apply Hp|]. destruct (sr_please_ack response); cbn; congruence.
Qed.

(** ** Every step keeps the invariant *)

(** What a step of one side must do: keep the invariant, or fail and only extend the history. *)
Definition step_post (I : AgentInfo -> DidExchangeState -> history -> Prop) h
    (r : VcxResult (AgentInfo * DidExchangeState)) h' : Prop :=
  h ⊆ h' /\ forall a s, r = VOk (a, s) -> I a s h'.

Lemma step_post_fail (I : AgentInfo -> DidExchangeState -> history -> Prop) h h' r :
  h ⊆ h' -> (forall p, r <> VOk p) -> step_post I h r h'.
Proof using. intros Hh Hr. split; [done|]. intros a s ->. by destruct (Hr (a, s)). Qed.

(** A program of which only the growth matters, then a state of which the invariant holds. *)
Lemma extend_then {T} (I : AgentInfo -> DidExchangeState -> history -> Prop) (m : Vcx T) a s h :
  extends m -> (forall h', h ⊆ h' -> I a s h') ->
  wp (let* _ := m in ret (a, s)) (step_post I h) h.
Proof using.
  intros Hm HI. apply wp_bind, wp_extends; [done|]. intros [x| |] h' Hh; [|by apply step_post_fail..].
  apply wp_ret. split; [done|]. intros ? ? [= <- <-]. by apply HI.
Qed.

Lemma stay (I : AgentInfo -> DidExchangeState -> history -> Prop) a s h :
  I a s h -> wp (ret (a, s)) (step_post I h) h.
Proof using. intros HI. apply wp_ret. split; [done|]. by intros ? ? [= <- <-]. Qed.

Lemma completed_doc s m a h :
  wp (handle_completed s m a)
    (fun r _ => forall s', r = VOk s' -> exists c, s' = Completed c /\ c_did_doc c = c_did_doc s) h.
Proof using.
  assert (forall T (p : Vcx T), wp (let* _ := p in ret (Completed s))
    (fun r _ => forall s', r = VOk s' -> exists c, s' = Completed c /\ c_did_doc c = c_did_doc s) h) as Hb.
  { intros T p. apply wp_bind. unfold wp. destruct (p h) as [[x| |] h']; [|done..]. intros ? [= <-]. eauto. }
  unfold handle_completed. destruct m; first [apply Hb|apply wp_ret; intros ? [= <-]; eauto].
Qed.

(** A completed connection keeps its document. *)
Lemma completed_step_wp (I : AgentInfo -> DidExchangeState -> history -> Prop) s m a h :
  (forall c h', c_did_doc c = c_did_doc s -> h ⊆ h' -> I a (Completed c) h') ->
  wp (let* s' := handle_completed s m a in ret (a, s')) (step_post I h) h.
Proof using.
  intros HI. apply wp_bind. pose proof (extends_completed s m a h) as Hext.
  pose proof (completed_doc s m a h) as Hdoc. unfold wp in *.
  destruct (handle_completed s m a h) as [[s'| |] h']; cbn in *; [|by apply step_post_fail..].
  destruct (Hdoc s' eq_refl) as (c & -> & Hc). split; [done|]. intros ? ? [= <- <-]. by apply HI.
Qed.

Lemma inviter_step_wp source_id a s m h :
  inviter_inv a s h -> wp (step_inviter source_id a s m) (step_post inviter_inv h) h.
Proof using.
  intros HI. destruct s as [|invitation|s|s|s]; cbn [step_inviter].
  - destruct m; try by apply stay.
    apply wp_bind, create_agent_wp. intros [a'| |] h1 Hh1 Hown; [|by apply step_post_fail..].
    skip. intros [id| |] h2 Hh2; [|apply step_post_fail; [set_solver|done]..].
    skip. intros [endpoint| |] h3 Hh3; [|apply step_post_fail; [set_solver|done]..].
    skip. intros [routing| |] h4 Hh4; [|apply step_post_fail; [set_solver|done]..].
    apply wp_ret. split; [set_solver|]. intros ? ? [= <- <-]. split; [|done].
    eapply own_keys_mono; [|by apply Hown]. set_solver.
  - destruct HI as [Hown Hkeys]. destruct m; try by apply stay.
    apply wp_attempt, connection_request_wp. intros [[resp a']|e|] h1 Hh1 Hans; [..|by apply step_post_fail].
    + apply wp_ret. split; [done|]. intros ? ? [= <- <-]. split; [by eapply own_keys_mono|by eapply Hans].
    + eapply wp_mono; [|apply (extend_then inviter_inv); [extends|done]].
      intros r h' [Hh HP]. split; [set_solver|exact HP].
  - done.
  - destruct HI as [Hown Hans]. destruct m; try (by apply stay); try (apply stay; by eexists).
    + apply extend_then; [extends|]. intros h' Hh. split; [by eapply own_keys_mono|by eapply answered_mono].
    + apply extend_then; [extends|]. intros h' Hh. eexists.
      split; [by eapply own_keys_mono|by eapply answered_mono].
  - destruct HI as (prev & Hown & Hans). apply completed_step_wp. intros c h' Hc Hh.
    exists prev. rewrite Hc. split; [by eapply own_keys_mono|by eapply answered_mono].
Qed.

Lemma invitee_step_wp source_id a s m h :
  invitee_inv a s h -> wp (step_invitee source_id a s m) (step_post invitee_inv h) h.
Proof using.
  intros HI. destruct s as [|invitation|s|s|s]; cbn [step_invitee].
  - destruct m; by apply stay.
  - destruct m; try by apply stay.
    apply wp_bind, create_agent_wp. intros [a'| |] h1 Hh1 Hown; [|by apply step_post_fail..].
    skip. intros [id| |] h2 Hh2; [|apply step_post_fail; [set_solver|done]..].
    skip. intros [endpoint| |] h3 Hh3; [|apply step_post_fail; [set_solver|done]..].
    skip. intros [routing| |] h4 Hh4; [|apply step_post_fail; [set_solver|done]..].
    apply wp_bind, agent_send_wp. intros [[]| |] h5 Hh5 Hp; [|apply step_post_fail; [set_solver|done]..].
    apply wp_ret. split; [set_solver|]. intros ? ? [= <- <-]. exists invitation. split; [done|].
    split; [eapply own_keys_mono; [|by apply Hown]; set_solver|]. split; [|by apply Hp].
    split; [done|]. exists endpoint, routing. apply set_keys_built.
  - destruct HI as (invitation & Hdoc & Hreq). destruct m; try (apply stay; by eexists); try by apply stay.
    apply wp_attempt, connection_response_wp. intros [resp|e|] h1 Hh1 Hconf; [..|by apply step_post_fail].
    + apply wp_ret. split; [done|]. intros ? ? [= <- <-]. destruct (Hconf _ eq_refl) as (key & Hkey & Hc).
      exists invitation, (rq_request s), key. split; [by eapply requested_mono|].
      split; [unfold invitation_key; by rewrite <-Hdoc|done].
    + eapply wp_mono; [|apply (extend_then invitee_inv); [extends|done]].
      intros r h' [Hh HP]. split; [set_solver|exact HP].
  - done.
  - destruct HI as (invitation & request & key & H1 & H2 & H3). apply completed_step_wp. intros c h' Hc Hh.
    exists invitation, request, key. rewrite Hc. split; [by eapply requested_mono|].
    split; [done|by eapply confirmed_mono].
Qed.

Lemma exchange_step_wp m sm h :
  exchange_inv sm h ->
  wp (step m sm) (fun r h' => match r with VOk sm' => exchange_inv sm' h' | _ => exchange_inv sm h' end) h.
Proof using.
  intros HI. assert (forall h', h ⊆ h' -> exchange_inv sm h') as Hmono by eauto using exchange_inv_mono.
  unfold step, exchange_inv in *. destruct (state sm) as [s|s]; apply wp_bind.
  - eapply wp_mono; [|by apply inviter_step_wp]. intros [[a' s']| |] h' [Hh HP]; [|by apply Hmono..].
    apply wp_ret. by apply HP.
  - eapply wp_mono; [|by apply invitee_step_wp]. intros [[a' s']| |] h' [Hh HP]; [|by apply Hmono..].
    apply wp_ret. by apply HP.
Qed.

(** ** Every operation keeps the invariant *)
Lemma keeps_step m : keeps exchange_inv (commit (step m)).
Proof using. apply keeps_commit. intros sm h HI. by apply exchange_step_wp. Qed.

Lemma keeps_extends {T} (p : DidExchangeSM -> Vcx T) : (forall sm, extends (p sm)) -> keeps exchange_inv (reading p).
Proof using.
  intros Hp. apply keeps_reading. intros sm h HI. apply wp_extends; [apply Hp|].
  intros r h' Hh. by eapply exchange_inv_mono.
Qed.

Lemma keeps_same {T} (f : DidExchangeSM -> T) : keeps exchange_inv (fun sm h => (VOk (f sm), sm, h)).
Proof using. by intros sm h HI. Qed.

Lemma keeps_mailbox info messages : keeps exchange_inv (handle_mailbox info messages).
Proof using.
  intros sm h HI. unfold handle_mailbox. destruct (find_message _ _) as [[uid m]|]; [|done].
  apply obj_keeps_bind; [apply keeps_step| |done].
  intros _. apply keeps_extends. intros _. apply extends_call.
Qed.

Lemma keeps_exchange_update message : keeps exchange_inv (update_state message).
Proof using.
  destruct message as [text|]; cbn [update_state].
  - unfold update_state_with_message. destruct (a2a_from_str text); [apply keeps_step|].
    apply keeps_extends. intros _. extends.
  - repeat first [apply obj_keeps_bind; [|intros ?]|apply keeps_mailbox|apply keeps_same
                 |apply keeps_extends; intros ?; solve [extends]].
    destruct a2; [|apply obj_keeps_ret].
    apply obj_keeps_bind; [apply keeps_extends; intros ?; extends|intros ?; apply keeps_mailbox].
Qed.

Lemma exchange_keeps op : keeps exchange_inv (api op).
Proof using.
  destruct op; cbn [api]; try apply keeps_step; [apply keeps_exchange_update|..]; apply keeps_extends; intros sm.
  - unfold connection_send_message. extends.
  - unfold send_generic_message, parse_generic_message, connection_send_message. extends.
  - apply extends_call.
Qed.

Lemma exchange_inv_reachable sm h : reachable sm h -> exchange_inv sm h.
Proof using.
  induction 1 as [[] source_id|op sm h _ IH]; [done..|]. by apply exchange_keeps.
Qed.


(** Whatever is called and whatever the environment answers, an inviter whose connection is
    completed has a valid document of the other party, which came in a request, and has
    answered that request in its thread: the response announces the keys the inviter now
    uses, is signed with keys it had made before, and went to the keys of the document, all
    of which are verification keys. *)
Theorem inviter_answered_invitee sm h c :
  reachable sm h -> state sm = AsInviter (Completed c) ->
  Forall verkey (doc_recipient_keys (c_did_doc c)) /\
  exists prev, own_keys prev h /\ answered (agent_info sm) (pw_vk prev) (c_did_doc c) h.
Proof using.
  intros Hr Hs. pose proof (exchange_inv_reachable _ _ Hr) as HI. unfold exchange_inv in HI. rewrite Hs in HI.
  destruct HI as (prev & Hown & Hans). split; [|by exists prev].
  destruct Hans as (? & ? & ? & ? & ? & -> & Hval & _). by apply valid_recipient_keys.
Qed.
End Safety.
