(* ===== verification/DidExchangeRun.v ===== *)
(** * Two agents connect

    A run of the DID exchange between an inviter and an invitee whose environments work:
    both complete, and each holds the DID and the key the other uses ([did_exchange_completes]).
    Concrete runs show that the invariants of [DidExchangeSafety.v] are not empty, and what
    the code does unexpectedly. *)

From stdpp Require Import base list strings numbers gmap.
From Stdlib Require Import ZArith Lia Ascii.
From S2P Require Import Prelude Json Trie External ProofRequest VcxErrors DidDoc MessageType A2A A2AJson VcxMonad Agent DidExchange DidExchangeSafety.

Open Scope string_scope.

(** An environment in which the agency has one message: what unpacking it gives. *)
Definition inbox (E : Env) (t : bytes) : Env := {|
  answer T h c :=
    match c in Call T return T with
    | GetConnectionMessages _ _ _ _ _ _ => VOk [mkAgentMessage "uid" (Some (PayloadV1 [])) None]
    | UnpackMessage _ => VOk t
    | c' => @answer E _ h c'
    end
|}.

Section Completion.
Context {C : Codec} {V : VcxCodec} {D : DocCodec} {A : A2ACodec} {S : A2ASerde} {G : DebugCodec}.
Context {R : RegexCodec} {B : ResponseCodec} {K : ConnCodec} {H : HashOrder} {HL : HashOrderLaws H}.

Definition good_key (key : string) : Prop := proper_key key /\ verkey key.

(** An environment in which everything an agent needs works. *)
Record works (E : Env) (url agency_vk : string) : Prop := {
  w_url : url_parse_error (url +:+ "/agency/msg") = None;
  w_agency : good_key agency_vk;
  w_config h : @answer E _ h (GetConfigValue CONFIG_AGENCY_ENDPOINT) = VOk url /\
               @answer E _ h (GetConfigValue CONFIG_AGENCY_VERKEY) = VOk agency_vk;
  w_method h : @answer E _ h (GetConfigValue CONFIG_DID_METHOD) <> VPanic;
  w_uuid h : lacks "#"%char (@answer E _ h Uuid);
  w_did h method : exists did vk, @answer E _ h (CreateAndStoreMyDid method) = VOk (did, vk) /\
                     lacks "#"%char did /\ good_key vk;
  w_keys h did vk : exists adid avk, @answer E _ h (CreateAgentKeys did vk) = VOk (adid, avk) /\ good_key avk;
  w_pack h sender keys m : exists w, @answer E _ h (PackMessage sender keys m) = VOk w /\
                             is_Some (json_from_slice w);
  w_post h body url : exists r, @answer E _ h (PostMessage body url) = VOk r;
  w_review h did uid : @answer E _ h (UpdateMessagesReviewed did uid) = VOk ()
}.

Lemma works_inbox E url agency_vk t : works E url agency_vk -> works (inbox E t) url agency_vk.
Proof using. intros []. by constructor. Qed.

(** Structs become objects. *)
Context (Hser : forall m, exists v, serialize m = VOk v).

Section Agent.
Context (E : Env) (url agency_vk : string) (W : works E url agency_vk).

(** The keys of an agent this environment made. *)
Definition made (a : AgentInfo) : Prop :=
  lacks "#"%char (pw_did a) /\ good_key (pw_vk a) /\ good_key (agent_vk a) /\
  (exists h method, @answer E _ h (CreateAndStoreMyDid method) = VOk (pw_did a, pw_vk a)) /\
  exists h, @answer E _ h (CreateAgentKeys (pw_did a) (pw_vk a)) = VOk (agent_did a, agent_vk a).

Lemma wp_answer {T} (c : Call (VcxResult T)) (Q : VcxResult T -> history -> Prop) h :
  Q (answer h c) (ev c (answer h c) :: h) -> wp (call c) Q h.
Proof using. done. Qed.

Lemma create_agent_works h : wp create_agent (fun r _ => exists a, r = VOk a /\ made a) h.
Proof using W.
  unfold create_agent, ok. apply wp_bind, wp_attempt, wp_answer.
  pose proof (w_method _ _ _ W h) as Hm. destruct (answer h (GetConfigValue _)) as [x|e|]; [..|done].
  all: apply wp_ret, wp_bind, wp_answer; edestruct (w_did _ _ _ W) as (did & vk & Hd & Hl & Hk); rewrite Hd.
  all: apply wp_bind, wp_answer; edestruct (w_keys _ _ _ W) as (adid & avk & Ha & Hka); rewrite Ha.
  all: apply wp_ret; eexists; split; [reflexivity|]; cbn; repeat (split; [done|]); split; eauto.
Qed.

Lemma endpoint_works h : wp agency_endpoint (fun r _ => r = VOk (url +:+ "/agency/msg")) h.
Proof using W. apply wp_bind, wp_answer. rewrite (proj1 (w_config _ _ _ W _)). by apply wp_ret. Qed.

Lemma routing_works a h : wp (agent_routing_keys a) (fun r _ => r = VOk [agent_vk a; agency_vk]) h.
Proof using W. apply wp_bind, wp_answer. rewrite (proj2 (w_config _ _ _ W _)). by apply wp_ret. Qed.

Lemma wrap_works routing w to h :
  is_Some (json_from_slice w) ->
  wp (wrap_all w to routing) (fun r _ => exists w', r = VOk w') h.
Proof using W Hser.
  revert w to h. induction routing as [|k routing IH]; intros w to h [v Hv]; cbn [wrap_all].
  - apply wp_ret. eauto.
  - apply wp_bind. unfold wrap_into_forward, forward_new. rewrite Hv.
    apply wp_bind, wp_lift. cbn beta iota. apply wp_bind, wp_lift.
    destruct (Hser (MForward (mkForward to v))) as [vf ->].
    apply wp_answer. edestruct (w_pack _ _ _ W) as (w' & Hw & Hj). rewrite Hw. by apply IH.
Qed.

Lemma send_works a m d to others routing h :
  resolve_keys d = (to :: others, routing) ->
  wp (agent_send_message a m d) (fun r h' => r = VOk () /\ packed_for a m d h') h.
Proof using W Hser.
  intros Hr.
  assert (wp (agent_send_message a m d) (fun r _ => r = VOk ()) h) as Hok.
  { unfold agent_send_message. apply wp_bind. unfold envelope_create. apply wp_bind.
    unfold encrypt_for_pairwise. apply wp_bind.
    assert (wp match m with
               | Generic message_ => ret (json_to_string message_)
               | message => let* v := lift (serialize message) in ret (json_to_string v)
               end (fun r h' => exists text, r = VOk text) h) as Ht.
    { destruct (Hser m) as [v Hv]. destruct m; try (apply wp_bind, wp_lift; rewrite Hv; apply wp_ret; eauto).
      apply wp_ret. eauto. }
    eapply wp_mono; [|exact Ht]. intros r h1 [text ->].
    apply wp_answer. edestruct (w_pack _ _ _ W) as (w & -> & Hj).
    unfold wrap_into_forward_messages. rewrite Hr. eapply wp_mono; [|by apply wrap_works].
    intros r h2 [w' ->]. apply wp_bind, wp_answer. edestruct (w_post _ _ _ W) as [r ->]. by apply wp_ret. }
  pose proof (agent_send_wp a m d (fun r h' => r = VOk () -> packed_for a m d h') h) as Hp.
  unfold wp in *. split; [done|]. apply Hp; [auto|done].
Qed.

(** ** Documents of agents *)
Definition agent_doc (a : AgentInfo) : DidDoc :=
  built_doc (pw_did a) (url +:+ "/agency/msg") [pw_vk a] [agent_vk a; agency_vk].
Definition agent_data (a : AgentInfo) : ConnectionData := mkConnectionData (pw_did a) (agent_doc a).

Lemma agent_doc_resolves a : made a -> resolve_keys (agent_doc a) = ([pw_vk a], [agent_vk a; agency_vk]).
Proof using W.
  intros (Hd & [Hk _] & [Hr _] & _). pose proof (w_agency _ _ _ W) as [Ha _].
  apply resolve_built; rewrite ?Forall_cons; auto using Forall_nil_2.
Qed.

Lemma agent_doc_valid a : made a -> validate (agent_doc a) = VOk ().
Proof using W.
  intros (Hd & [Hk Hkv] & [Hr Hrv] & _). pose proof (w_agency _ _ _ W) as [Ha Hav].
  apply built_doc_valid; rewrite ?Forall_cons; auto using Forall_nil_2. apply (w_url _ _ _ W).
Qed.

(** ** Steps *)

(** The inviter makes an invitation. *)
Lemma invite_step name h :
  exists a id sm' h', api OpConnect (create name) h = (VOk (), sm', h') /\ made a /\ lacks "#"%char id /\
    sm' = mkDidExchangeSM name a
            (AsInviter (Invited (mkInvitation id name [pw_vk a] [agent_vk a; agency_vk] (url +:+ "/agency/msg")))).
Proof using W.
  destruct (commit_ok (step Connect) (create name) h (fun sm' _ => exists a id, made a /\ lacks "#"%char id /\
    sm' = mkDidExchangeSM name a
            (AsInviter (Invited (mkInvitation id name [pw_vk a] [agent_vk a; agency_vk] (url +:+ "/agency/msg"))))))
    as (sm' & h' & Hc & a & id & Ha & Hi & ->).
  - cbn [step create exchange_new state source_id agent_info step_inviter]. do 2 apply wp_bind.
    eapply wp_mono; [|apply create_agent_works]. intros r h1 (a & -> & Ha).
    apply wp_bind, wp_ask_known, wp_bind. eapply wp_mono; [|apply endpoint_works]. intros r h2 ->.
    apply wp_bind. eapply wp_mono; [|apply routing_works]. intros r h3 ->.
    do 2 apply wp_ret. eexists _, _. split; [exact Ha|]. split; [apply (w_uuid _ _ _ W)|reflexivity].
  - eauto 10.
Qed.

(** The invitee answers an invitation. *)
Lemma exchange_request_step name invitation key others routing h :
  resolve_keys (doc_of_invitation invitation) = (key :: others, routing) ->
  exists e1 h1 a request sm' h',
    api (OpProcessInvite invitation) (exchange_new RoleInvitee name) h = (VOk (), e1, h1) /\
    api OpConnect e1 h1 = (VOk (), sm', h') /\ made a /\ rq_connection request = agent_data a /\
    sm' = mkDidExchangeSM name a (AsInvitee (Requested (requested_of invitation request))) /\
    packed_for a (ConnectionRequest request) (doc_of_invitation invitation) h'.
Proof using W Hser.
  intros Hr. do 2 eexists.
  destruct (commit_ok (step Connect) (mkDidExchangeSM name agent_default (AsInvitee (Invited invitation))) h
    (fun sm' h' => exists a request, made a /\ rq_connection request = agent_data a /\
       sm' = mkDidExchangeSM name a (AsInvitee (Requested (requested_of invitation request))) /\
       packed_for a (ConnectionRequest request) (doc_of_invitation invitation) h'))
    as (sm' & h' & Hc & a & request & Ha & Hq & -> & Hp).
  - cbn [step state source_id agent_info step_invitee]. do 2 apply wp_bind.
    eapply wp_mono; [|apply create_agent_works]. intros r h1 (a & -> & Ha).
    apply wp_bind, wp_ask_known, wp_bind. eapply wp_mono; [|apply endpoint_works]. intros r h2 ->.
    apply wp_bind. eapply wp_mono; [|apply routing_works]. intros r h3 ->.
    apply wp_bind. eapply wp_mono; [|by eapply send_works]. intros r h4 [-> Hp].
    do 2 apply wp_ret. eexists _, _. split; [exact Ha|]. split; [|split; [reflexivity|exact Hp]].
    unfold agent_data, new_request. cbn [rq_connection]. by rewrite set_keys_built.
  - exists a, request, (mkDidExchangeSM name a (AsInvitee (Requested (requested_of invitation request)))), h'.
    split; [reflexivity|]. split; [exact Hc|]. done.
Qed.

(** The inviter answers a request. *)
Lemma handle_request_works a request to others routing h :
  validate (cd_did_doc (rq_connection request)) = VOk () ->
  resolve_keys (cd_did_doc (rq_connection request)) = (to :: others, routing) ->
  (forall h data, exists signature, answer h (CryptoSign (pw_vk a) data) = VOk signature) ->
  wp (handle_connection_request request a)
    (fun r h' => exists response a' h1, r = VOk (response, a') /\ made a' /\
       packed_for a' (ConnectionResponse response) (cd_did_doc (rq_connection request)) h' /\
       exists id h2, encode_response (mkResponse id (set_thid thread_default (rq_id request)) (agent_data a') true)
         (pw_vk a) h1 = (VOk response, h2)) h.
Proof using W Hser.
  intros Hv Hr Hs. unfold handle_connection_request. apply wp_bind, wp_lift. rewrite Hv. cbn beta iota.
  apply wp_bind. eapply wp_mono; [|apply create_agent_works]. intros r h1 (a' & -> & Ha).
  apply wp_bind, wp_ask_known, wp_bind. eapply wp_mono; [|apply endpoint_works]. intros r h2 ->.
  apply wp_bind. eapply wp_mono; [|apply routing_works]. intros r h3 ->.
  assert (new_response (answer h1 Uuid) (pw_did a') (url +:+ "/agency/msg") (agent_recipient_keys a')
            [agent_vk a'; agency_vk] (rq_id request) =
          mkResponse (answer h1 Uuid) (set_thid thread_default (rq_id request)) (agent_data a') true) as ->
    by (unfold new_response; by rewrite set_keys_built).
  set (response := mkResponse _ _ _ _).
  assert (exists signed h4, encode_response response (pw_vk a) h3 = (VOk signed, h4)) as (signed & h4 & He).
  { unfold encode_response, vbind, ask, call. edestruct Hs as [sig ->]. unfold ret. eauto. }
  apply wp_bind. unfold wp at 1. rewrite He. cbn [fst snd].
  apply wp_bind. eapply wp_mono; [|by eapply send_works]. intros r h5 [-> Hp].
  apply wp_ret. exists signed, a', h3. split; [done|]. split; [done|]. split; [done|]. eauto.
Qed.
End Agent.

(** ** Reading the mailboxes *)
Lemma inbox_messages E t m a h : read_unpacked t = VOk m ->
  exists h', agent_get_messages (E := inbox E t) a h = (VOk {["uid" := m]}, h') /\ h ⊆ h'.
Proof using.
  intros Ht. unfold agent_get_messages, vbind, call. cbn [answer inbox decode_all].
  unfold agent_decode_message, envelope_open, vbind, lift, call, message_payload, ret.
  cbn [am_payload answer inbox map am_uid]. rewrite Ht. eexists. split; [reflexivity|].
  intros e He. by do 2 right.
Qed.

Lemma iter_single (m : A2AMessage) : iter {["uid" := m]} = [("uid", m)].
Proof using HL.
  apply Permutation_singleton_r. rewrite iter_perm. by rewrite map_to_list_singleton.
Qed.

(** One message in the mailbox is handled; the old mailbox has nothing more to say. *)
Lemma update_run E t m sm h (P : DidExchangeSM -> history -> Prop) :
  (forall h did uid, @answer E _ h (UpdateMessagesReviewed did uid) = VOk ()) ->
  read_unpacked t = VOk m -> relevant (state sm) m = Some m ->
  (forall sm h h', h ⊆ h' -> P sm h -> P sm h') ->
  (forall h, wp (step (E := inbox E t) (exchange_message m) sm)
     (fun r h' => match r with VOk sm' => P sm' h' /\ relevant (state sm') m = None | _ => False end) h) ->
  exists sm' h', api (E := inbox E t) (OpUpdate None) sm h = (VOk (), sm', h') /\ P sm' h'.
Proof using HL.
  intros Hrev Ht Hrel Hmono Hstep. cbn [api update_state].
  destruct (inbox_messages E t m (agent_info sm) h Ht) as (h1 & Hm1 & _).
  destruct (commit_ok (step (E := inbox E t) (exchange_message m)) sm h1
    (fun sm' h' => P sm' h' /\ relevant (state sm') m = None) (Hstep h1)) as (sm' & h2 & Hc & HP & Hno).
  set (h3 := ev (UpdateMessagesReviewed (pw_did (agent_info sm)) "uid") (VOk ()) :: h2).
  assert (handle_mailbox (E := inbox E t) (agent_info sm) {["uid" := m]} sm h1 = (VOk (), sm', h3)) as Hbox.
  { unfold handle_mailbox. rewrite iter_single. cbn [find_message]. rewrite Hrel.
    unfold obj_bind, handle_message. rewrite Hc. unfold reading, agent_update_message_status, call.
    cbn [answer inbox]. rewrite Hrev. done. }
  assert (P sm' h3) as HP3 by (eapply Hmono; [|exact HP]; intros e He; by right).
  unfold obj_bind, reading at 1. rewrite Hm1. cbn beta iota. rewrite Hbox. cbn beta iota.
  destruct (prev_agent_info sm') as [prev|]; [|unfold obj_ret; eauto].
  destruct (inbox_messages E t m prev h3 Ht) as (h4 & Hm4 & Hh4).
  unfold reading. rewrite Hm4. unfold handle_mailbox. rewrite iter_single. cbn [find_message]. rewrite Hno.
  exists sm', h4. split; [done|by eapply Hmono].
Qed.

(** ** The exchange *)
Context (EI EE : Env) (urlI agencyI urlE agencyE : string).
Context (WI : works EI urlI agencyI) (WE : works EE urlE agencyE).
Context (signs : forall h key data, exists signature, @answer EI _ h (CryptoSign key data) = VOk signature).
Context (verifies : forall h h' key data signature,
  @answer EI _ h (CryptoSign key data) = VOk signature -> Forall is_byte data ->
  Forall is_byte signature /\ @answer EE _ h' (CryptoVerify key data signature) = VOk true).
Context (base64_inv : forall l, Forall is_byte l -> base64_url_decode (base64_url_encode l) = Some l).
Context (data_json : forall a, made EI a ->
  let text := json_to_string (to_value (agent_data urlI agencyI a)) in
  rust_string text /\
  exists v, json_from_str text = Some v /\ from_value v = Some (agent_data urlI agencyI a)).

(** The inviter takes a request. *)
Lemma respond_step name a invitation aE request t h :
  made EE aE -> rq_connection request = agent_data urlE agencyE aE ->
  read_unpacked t = VOk (ConnectionRequest request) ->
  exists response a' id h1 h2 sm' h',
    api (E := inbox EI t) (OpUpdate None) (mkDidExchangeSM name a (AsInviter (Invited invitation))) h =
      (VOk (), sm', h') /\ made EI a' /\
    packed_for a' (ConnectionResponse response) (agent_doc urlE agencyE aE) h' /\
    sm' = mkDidExchangeSM name a' (AsInviter (Responded (responded_of request response a))) /\
    encode_response (E := inbox EI t) (mkResponse id (set_thid thread_default (rq_id request))
      (agent_data urlI agencyI a') true) (pw_vk a) h1 = (VOk response, h2).
Proof using WI WE signs Hser HL.
  intros Ha Hq Ht.
  destruct (update_run EI t (ConnectionRequest request)
    (mkDidExchangeSM name a (AsInviter (Invited invitation))) h
    (fun sm' h' => exists response a' id h1 h2, made EI a' /\
       packed_for a' (ConnectionResponse response) (agent_doc urlE agencyE aE) h' /\
       sm' = mkDidExchangeSM name a' (AsInviter (Responded (responded_of request response a))) /\
       encode_response (E := inbox EI t) (mkResponse id (set_thid thread_default (rq_id request))
         (agent_data urlI agencyI a') true) (pw_vk a) h1 = (VOk response, h2)))
    as (sm' & h' & Hrun & response & a' & id & h1 & h2 & Hm & Hp & -> & He).
  - apply (w_review _ _ _ WI).
  - done.
  - done.
  - intros sm h1 h2 Hh (r & a' & id & h3 & h4 & H1 & H2 & H3 & H4). exists r, a', id, h3, h4.
    split; [done|]. split; [by eapply packed_mono|done].
  - intros h0. cbn [step state exchange_message step_inviter source_id agent_info]. apply wp_bind, wp_attempt.
    eapply wp_mono; [|eapply (handle_request_works (inbox EI t) urlI agencyI (works_inbox _ _ _ _ WI))].
    + intros r h1 (response & a' & h2 & -> & Hm & Hp & id & h3 & He). do 2 apply wp_ret.
      split; [|done]. rewrite Hq in Hp. exists response, a', id, h2, h3. done.
    + rewrite Hq. by apply (agent_doc_valid EE).
    + rewrite Hq. by apply (agent_doc_resolves EE).
    + intros h1 data. apply signs.
  - eauto 20.
Qed.

(** The invitee takes the response. *)
Lemma complete_step name aE invitation request key id response aI t t1 h h1 h2 :
  made EI aI -> invitation_key invitation = Some key ->
  encode_response (E := inbox EI t1) (mkResponse id (set_thid thread_default (rq_id request))
    (agent_data urlI agencyI aI) true) key h1 = (VOk response, h2) ->
  read_unpacked t = VOk (ConnectionResponse response) ->
  exists ack sm' h',
    api (E := inbox EE t) (OpUpdate None)
      (mkDidExchangeSM name aE (AsInvitee (Requested (requested_of invitation request)))) h = (VOk (), sm', h') /\
    packed_for aE (MAck ack) (agent_doc urlI agencyI aI) h' /\
    sm' = mkDidExchangeSM name aE (AsInvitee (Completed (mkComplete (agent_doc urlI agencyI aI) None))).
Proof using WI WE verifies base64_inv data_json Hser HL.
  intros Ha Hkey He Ht.
  destruct (update_run EE t (ConnectionResponse response)
    (mkDidExchangeSM name aE (AsInvitee (Requested (requested_of invitation request)))) h
    (fun sm' h' => exists ack, packed_for aE (MAck ack) (agent_doc urlI agencyI aI) h' /\
       sm' = mkDidExchangeSM name aE (AsInvitee (Completed (mkComplete (agent_doc urlI agencyI aI) None)))))
    as (sm' & h' & Hrun & ack & Hp & ->).
  - apply (w_review _ _ _ WE).
  - done.
  - done.
  - intros sm h3 h4 Hh (ack & H1 & H2). exists ack. split; [by eapply packed_mono|done].
  - intros h0. cbn [step state exchange_message step_invitee source_id agent_info].
    destruct (response_read_back (inbox EI t1) (inbox EE t)
      (mkResponse id (set_thid thread_default (rq_id request)) (agent_data urlI agencyI aI) true) key response
      h1 h2 h0 base64_inv) as (h3 & Hdec); [|by apply data_json|exact He|].
    { intros h3 h4 data sig Hs Hd. by apply (verifies h3 h4). }
    apply wp_bind, wp_attempt. unfold handle_connection_response. apply wp_bind, wp_lift.
    cbn [rq_did_doc requested_of]. unfold invitation_key in Hkey. rewrite Hkey. cbn [ok_or].
    apply wp_bind. unfold wp at 1. rewrite Hdec. cbn [fst snd rp_thread rp_please_ack rp_connection].
    unfold is_reply. cbn [thid set_thid default rq_request]. rewrite String.eqb_refl. cbn [negb].
    apply wp_bind, wp_ask_known, wp_bind.
    eapply wp_mono; [|eapply (send_works (inbox EE t) urlE agencyE (works_inbox _ _ _ _ WE));
                      by apply (agent_doc_resolves EI urlI agencyI WI)].
    intros r h4 [-> Hp]. do 3 apply wp_ret. split; [|done]. eexists. split; [exact Hp|done].
  - eauto 10.
Qed.

(** The inviter takes the acknowledgement. *)
Lemma acknowledged_step name a s ack t h :
  read_unpacked t = VOk (MAck ack) ->
  exists h', api (E := inbox EI t) (OpUpdate None) (mkDidExchangeSM name a (AsInviter (Responded s))) h =
    (VOk (), mkDidExchangeSM name a (AsInviter (Completed (complete_of_responded s))), h').
Proof using WI HL.
  intros Ht. destruct (update_run EI t (MAck ack) (mkDidExchangeSM name a (AsInviter (Responded s))) h
    (fun sm' h' => sm' = mkDidExchangeSM name a (AsInviter (Completed (complete_of_responded s)))))
    as (sm' & h' & Hrun & ->); try done.
  - apply (w_review _ _ _ WI).
  - eauto.
Qed.

(** C16: When keys can be made, messages packed, posted and read, and signatures verify, the DID
    exchange completes: the inviter makes an invitation; the invitee sends it a request; read
    from the inviter's mailbox, it is answered with a response; read from the invitee's
    mailbox, that completes the invitee, which acknowledges; and the acknowledgement
    completes the inviter.  In the end each side holds the DID and the verification key that
    the other side uses. *)
Theorem did_exchange_completes nameI nameE :
  exists i1 hI1 invitation, api (E := EI) OpConnect (create nameI) [] = (VOk (), i1, hI1) /\
    get_invitation i1 = Some invitation /\
  exists e1 h1 e2 hE request,
    api (E := EE) (OpProcessInvite invitation) (exchange_new RoleInvitee nameE) [] = (VOk (), e1, h1) /\
    api (E := EE) OpConnect e1 h1 = (VOk (), e2, hE) /\
    state e2 = AsInvitee (Requested (requested_of invitation request)) /\
    packed_for (agent_info e2) (ConnectionRequest request) (doc_of_invitation invitation) hE /\
  forall t1, read_unpacked t1 = VOk (ConnectionRequest request) ->
  exists i2 hI2 response, api (E := inbox EI t1) (OpUpdate None) i1 hI1 = (VOk (), i2, hI2) /\
    state i2 = AsInviter (Responded (responded_of request response (agent_info i1))) /\
    packed_for (agent_info i2) (ConnectionResponse response) (cd_did_doc (rq_connection request)) hI2 /\
  forall t2, read_unpacked t2 = VOk (ConnectionResponse response) ->
  exists e3 hE2 ack, api (E := inbox EE t2) (OpUpdate None) e2 hE = (VOk (), e3, hE2) /\
    exchange_state e3 = VcxStateAccepted /\
    packed_for (agent_info e3) (MAck ack) (default doc_default (exchange_did_doc e3)) hE2 /\
    remote_did e3 = VOk (pw_did (agent_info i2)) /\ remote_vk e3 = VOk (pw_vk (agent_info i2)) /\
  forall t3, read_unpacked t3 = VOk (MAck ack) ->
  exists i3 hI3, api (E := inbox EI t3) (OpUpdate None) i2 hI2 = (VOk (), i3, hI3) /\
    exchange_state i3 = VcxStateAccepted /\ agent_info i3 = agent_info i2 /\
    remote_did i3 = VOk (pw_did (agent_info e3)) /\ remote_vk i3 = VOk (pw_vk (agent_info e3)).
Proof using WI WE signs verifies base64_inv data_json Hser HL.
  destruct (invite_step EI urlI agencyI WI nameI []) as (a & id & i1 & hI1 & Hr1 & Ha & Hid & ->).
  set (invitation := mkInvitation _ _ _ _ _) in *.
  pose proof (agent_doc_resolves EI urlI agencyI WI) as HresI.
  pose proof (agent_doc_resolves EE urlE agencyE WE) as HresE.
  assert (resolve_keys (doc_of_invitation invitation) = ([pw_vk a], [agent_vk a; agencyI])) as Hres.
  { destruct Ha as (_ & [Hk _] & [Hv _] & _). pose proof (w_agency _ _ _ WI) as [Hag _].
    unfold doc_of_invitation. rewrite set_keys_built. apply resolve_built; rewrite ?Forall_cons; auto using Forall_nil_2. }
  exists (mkDidExchangeSM nameI a (AsInviter (Invited invitation))), hI1, invitation.
  split; [exact Hr1|]. split; [done|].
  destruct (exchange_request_step EE urlE agencyE WE nameE invitation _ _ _ [] Hres)
    as (e1 & h1 & aE & request & e2 & hE & Hr2 & Hr3 & HaE & Hq & -> & Hp).
  eexists e1, h1, _, hE, request. split; [exact Hr2|]. split; [exact Hr3|]. split; [done|].
  split; [exact Hp|]. intros t1 Ht1.
  destruct (respond_step nameI a invitation aE request t1 hI1 HaE Hq Ht1)
    as (response & aI & rid & h3 & h4 & i2 & hI2 & Hr4 & HaI & Hp2 & -> & He).
  eexists _, hI2, response. split; [exact Hr4|]. split; [done|]. rewrite Hq. split; [exact Hp2|].
  intros t2 Ht2.
  destruct (complete_step nameE aE invitation request (pw_vk a) rid response aI t2 t1 hE h3 h4 HaI)
    as (ack & e3 & hE2 & Hr5 & Hp3 & ->);
    [unfold invitation_key, doc_recipient_keys; by rewrite Hres|exact He|exact Ht2|].
  eexists _, hE2, ack. split; [exact Hr5|]. split; [done|]. split; [exact Hp3|]. split; [done|].
  split.
  { unfold remote_vk, exchange_did_doc. cbn [state c_did_doc]. cbn [mbind option_bind].
    unfold doc_recipient_keys. by rewrite HresI. }
  intros t3 Ht3.
  destruct (acknowledged_step nameI aI (responded_of request response a) ack t3 hI2 Ht3) as (hI3 & Hr6).
  eexists _, hI3. split; [exact Hr6|]. split; [done|]. split; [done|].
  unfold remote_did, remote_vk, exchange_did_doc. cbn [state complete_of_responded responded_of c_did_doc rd_did_doc].
  rewrite Hq. split; [done|]. cbn [mbind option_bind cd_did_doc agent_data].
  unfold doc_recipient_keys. by rewrite HresE.
Qed.
End Completion.

(** ** Concrete runs *)
Module ConnDemo.

Definition codec : Codec := {|
  base64_encode := string_of_bytes;
  base64_decode s := Some (as_bytes s);
  from_base58 _ := Some (repeat 0%Z 32);
  to_base58 := string_of_bytes;
  json_from_str s :=
    match s with String "m" text => Some (Object [("message", VString text)]) | _ => Some (VString s) end;
  json_to_string v := match v with VString s => s | _ => "{}" end;
  rmp_to_vec _ := None;
  rmp_to_vec_named _ := None;
  hex_encode := string_of_bytes;
  openssl_hash l := Ok l;
  rlp_items _ := None;
  rlp_encode _ := [];
  sha3_256 l := l
|}.
Definition struct_serde {T} : Serde T := {| to_value _ := Object []; from_value _ := None |}.
Definition serde : A2ASerde :=
  Build_A2ASerde struct_serde struct_serde struct_serde struct_serde struct_serde struct_serde struct_serde
    struct_serde struct_serde struct_serde struct_serde struct_serde struct_serde struct_serde struct_serde
    struct_serde struct_serde struct_serde struct_serde.

(** The keys every agent gets, and the data it announces. *)
Definition agent : AgentInfo := mkAgentInfo "did" "peer" "agent did" "agent key".
Definition announced : ConnectionData := agent_data "http://agency" "agency key" agent.
(** A document of an unknown kind, with the same keys. *)
Definition odd_doc : DidDoc :=
  mkDidDoc "unknown" "did" (dd_public_key (cd_did_doc announced)) [] (dd_service (cd_did_doc announced)).

Definition response_codec : ResponseCodec := {|
  base64_url_encode := string_of_bytes;
  base64_url_decode s := Some (as_bytes s);
  base64_err_debug s := s;
  serde_connection := {|
    to_value c := VString (cd_did c);
    from_value v :=
      match as_str v with
      | Some "did" => Some announced
      | Some "odd" => Some (mkConnectionData "odd" odd_doc)
      | _ => None
      end |}
|}.
Definition conn_codec : ConnCodec := {| actors_from_str _ := None; connection_info_json _ _ := "{}" |}.
Definition order : HashOrder := {| iter V m := map_to_list m |}.

Definition env : Env := {|
  answer T h c :=
    match c in Call T return T with
    | CreateAndStoreMyDid _ => VOk ("did", "peer")
    | CreateAgentKeys _ _ => VOk ("agent did", "agent key")
    | PackMessage _ _ _ => VOk (as_bytes "w")
    | GetConfigValue key =>
        if String.eqb key CONFIG_AGENCY_ENDPOINT then VOk "http://agency" else VOk "agency key"
    | c' => @answer EnvelopeDemo.env _ h c'
    end
|}.

Definition invitation : Invitation :=
  mkInvitation "id" "Faber" ["peer"] ["agent key"; "agency key"] "http://agency/agency/msg".
(** A response with signed data, in the thread of the request. *)
Definition signed (data : string) : SignedResponse :=
  mkSignedResponse "id" (set_thid thread_default "id")
    (mkConnectionSignature signature_type (string_of_bytes (be_bytes 0 ++ as_bytes data))
       (string_of_bytes (be_bytes 0 ++ as_bytes data)) "peer") true.

Definition request : ConnRequest := mkConnRequest "id" "Alice" announced.
Definition a2a_codec : A2ACodec := {|
  a2a_from_str s :=
    if String.eqb s "request" then Some (ConnectionRequest request)
    else if String.eqb s "response" then Some (ConnectionResponse (signed "did"))
    else None;
  preview_from_str _ := None;
  a2a_debug _ := ""
|}.

#[global] Existing Instances codec EnvelopeDemo.vcx_codec EnvelopeDemo.doc_codec a2a_codec serde
  EnvelopeDemo.debug_codec JsonDemo.regex response_codec conn_codec order env.

(** What a sequence of calls leaves. *)
Definition after (ops : list Op) (sm : DidExchangeSM) : DidExchangeSM * history :=
  foldl (fun '(sm, h) op => ((api op sm h).1.2, (api op sm h).2)) (sm, []) ops.

Lemma after_reachable actor name ops :
  reachable (after ops (exchange_new actor name)).1 (after ops (exchange_new actor name)).2.
Proof.
  unfold after. induction ops as [|op ops IH] using rev_ind; [apply reachable_new|].
  rewrite foldl_app. destruct (foldl _ _ ops) as [sm h]. cbn [foldl fst snd]. by apply reachable_call.
Qed.

Definition invitee (data : string) : DidExchangeSM * history :=
  after [OpProcessInvite invitation; OpConnect; OpHandle (ExchangeResponseReceived (signed data))]
    (exchange_new RoleInvitee "Alice").
Definition inviter (ack : Ack) : DidExchangeSM * history :=
  after [OpConnect;
         OpHandle (ExchangeRequestReceived request);
         OpHandle (AckReceived ack)] (exchange_new RoleInviter "Faber").

Lemma good k : lacks "#"%char k -> ~ lacks "e"%char k -> good_key k.
Proof. intros H1 H2. split; [by apply proper_key_e|]. by eexists. Qed.

Lemma serializes m : exists v, serialize m = VOk v.
Proof. destruct m; by eexists. Qed.

Lemma env_works : works env "http://agency" "agency key".
Proof.
  constructor; try done.
  - apply good; vm_compute; intuition discriminate.
  - intros h method. exists "did", "peer". split; [done|]. split; [by vm_compute|].
    apply good; vm_compute; intuition discriminate.
  - intros h did vk. exists "agent did", "agent key". split; [done|].
    apply good; vm_compute; intuition discriminate.
  - intros h sender keys m. exists (as_bytes "w"). split; [done|]. by eexists.
  - intros h body url. by exists [].
Qed.
End ConnDemo.

#[local] Existing Instances ConnDemo.codec EnvelopeDemo.vcx_codec EnvelopeDemo.doc_codec ConnDemo.a2a_codec
  ConnDemo.serde EnvelopeDemo.debug_codec JsonDemo.regex ConnDemo.response_codec ConnDemo.conn_codec
  ConnDemo.order ConnDemo.env.


Lemma inviter_answered_invitee_witness :
  Forall verkey (doc_recipient_keys (cd_did_doc ConnDemo.announced)) /\
  exists prev, own_keys prev (ConnDemo.inviter (new_ack "a" "id")).2 /\
    answered ConnDemo.agent (pw_vk prev) (cd_did_doc ConnDemo.announced) (ConnDemo.inviter (new_ack "a" "id")).2.
Proof.
  apply (inviter_answered_invitee (ConnDemo.inviter (new_ack "a" "id")).1 (ConnDemo.inviter (new_ack "a" "id")).2
           (mkComplete (cd_did_doc ConnDemo.announced) None)).
  - apply ConnDemo.after_reachable.
  - by vm_compute.
Defined.

Lemma did_exchange_completes_witness :
  exists i1 hI1 e1 h1 e2 hE i2 hI2 e3 hE2 ack,
    api OpConnect (create "Faber") [] = (VOk (), i1, hI1) /\
    api (OpProcessInvite ConnDemo.invitation) (exchange_new RoleInvitee "Alice") [] = (VOk (), e1, h1) /\
    api OpConnect e1 h1 = (VOk (), e2, hE) /\
    api (E := inbox ConnDemo.env (as_bytes "mrequest")) (OpUpdate None) i1 hI1 = (VOk (), i2, hI2) /\
    api (E := inbox ConnDemo.env (as_bytes "mresponse")) (OpUpdate None) e2 hE = (VOk (), e3, hE2) /\
    exchange_state e3 = VcxStateAccepted /\ remote_vk e3 = VOk (pw_vk (agent_info i2)) /\
    forall t3, read_unpacked t3 = VOk (MAck ack) ->
    exists i3 hI3, api (E := inbox ConnDemo.env t3) (OpUpdate None) i2 hI2 = (VOk (), i3, hI3) /\
      exchange_state i3 = VcxStateAccepted /\ remote_vk i3 = VOk (pw_vk (agent_info e3)).
Proof.
  destruct (did_exchange_completes (HL := Build_HashOrderLaws ConnDemo.order (fun V m => Permutation_refl _))
    ConnDemo.serializes
    ConnDemo.env ConnDemo.env "http://agency" "agency key" "http://agency" "agency key"
    ConnDemo.env_works ConnDemo.env_works) with (nameI := "Faber") (nameE := "Alice")
    as (i1 & hI1 & invitation & H1 & H2 & e1 & h1 & e2 & hE & request & H3 & H4 & H5 & _ & H6).
  - intros h key data. by exists data.
  - intros h h' key data signature [= <-] Hd. split; [done|]. cbn. by rewrite bool_decide_true.
  - intros l Hl. cbn. by rewrite as_bytes_of_bytes.
  - intros a (_ & _ & _ & (h & method & Hk) & h' & Ha) text. cbn in Hk, Ha.
    destruct a as [did vk adid avk]. cbn in Hk, Ha. injection Hk as <- <-. injection Ha as <- <-.
    split; [done|]. eexists. by split.
  - assert (invitation = ConnDemo.invitation) as ->.
    { vm_compute in H1. injection H1 as <- <-. vm_compute in H2. by injection H2 as <-. }
    assert (request = ConnDemo.request) as ->.
    { vm_compute in H3. injection H3 as <- <-. vm_compute in H4. injection H4 as <- <-.
      vm_compute in H5. by injection H5 as <-. }
    destruct (H6 (as_bytes "mrequest") eq_refl) as (i2 & hI2 & response & H7 & H8 & _ & H9).
    assert (response = ConnDemo.signed "did") as ->.
    { assert (i1 = (api OpConnect (create "Faber") []).1.2) as -> by (by rewrite H1).
      assert (hI1 = (api OpConnect (create "Faber") []).2) as -> by (by rewrite H1).
      apply (f_equal (fun r => state r.1.2)) in H7. cbn [fst snd] in H7. rewrite H8 in H7.
      vm_compute in H7. by injection H7 as <-. }
    destruct (H9 (as_bytes "mresponse") eq_refl) as (e3 & hE2 & ack & H10 & H11 & _ & _ & H12 & H13).
    exists i1, hI1, e1, h1, e2, hE, i2, hI2, e3, hE2, ack. repeat (split; [eassumption|]).
    intros t3 Ht3. destruct (H13 t3 Ht3) as (i3 & hI3 & H14 & H15 & _ & _ & H16). exists i3, hI3.
    split; [exact H14|]. split; [exact H15|exact H16].
Defined.

(** ** What the code does unexpectedly *)

(** An inviter that has responded is completed by any acknowledgement, whatever thread it is
    in: neither the search of the mailbox nor the step looks at the thread. *)
Theorem any_ack_completes {C : Codec} {V : VcxCodec} {D : DocCodec} {A : A2ACodec} {S : A2ASerde}
    {G : DebugCodec} {R : RegexCodec} {B : ResponseCodec} {K : ConnCodec} {E : Env} name a s ack h :
  relevant (AsInviter (Responded s)) (MAck ack) = Some (MAck ack) /\
  step (AckReceived ack) (mkDidExchangeSM name a (AsInviter (Responded s))) h =
  (VOk (mkDidExchangeSM name a (AsInviter (Completed (complete_of_responded s)))), h).
Proof. done. Qed.

(** The inviter validates the document of a request, the invitee does not validate the one of
    a response: it completes with a document that the other side would refuse. *)
Theorem response_doc_not_validated :
  state (ConnDemo.invitee "odd").1 = AsInvitee (Completed (mkComplete ConnDemo.odd_doc None)) /\
  exists e, validate ConnDemo.odd_doc = VErr e.
Proof. split; [by vm_compute|]. by eexists. Qed.

(** A response in another thread, or with a signature that is not right, does not leave the
    invitee waiting for the right one: the exchange is given up.  Anybody who knows the keys
    of the request can end it that way. *)
Theorem wrong_response_ends_exchange {C : Codec} {V : VcxCodec} {D : DocCodec} {A : A2ACodec} {S : A2ASerde}
    {G : DebugCodec} {R : RegexCodec} {B : ResponseCodec} {K : ConnCodec} {E : Env} name a s response h e h1 :
  handle_connection_response s response a h = (VErr e, h1) ->
  (forall a m d h, (agent_send_message a m d h).1 <> VPanic) ->
  exists h', step (ExchangeResponseReceived response) (mkDidExchangeSM name a (AsInvitee (Requested s))) h =
    (VOk (mkDidExchangeSM name a (AsInvitee SNull)), h').
Proof.
  intros Hr Hs. unfold step, vbind, attempt. cbn [state step_invitee agent_info source_id].
  unfold attempt. rewrite Hr. unfold send_report, vbind, uuid, ask, ok, attempt, ret.
  match goal with |- context [agent_send_message ?a ?m ?d ?h] => pose proof (Hs a m d h) as Hn;
    destruct (agent_send_message a m d h) as [[[]| |] h2] end; cbn in Hn; [eauto..|done].
Qed.
